(* ===== verification/_CoqProject ===== *)
-Q . S2P
Prelude.v
GoPath.v
GoStrings.v
GoFloat.v
FilePath.v
Errors.v
Client.v
Version.v
Result.v
Check.v
Verbose.v
Executor.v
Validate.v
CheckKit.v
Lint.v
Deps.v
DepsCheck.v
DepsInstall.v
Recorder.v
Action.v
Migrate.v
Events.v
BackupDeps.v
Pipeline.v
Backup.v
WorkloadHelpers.v
NotebookImpacted.v
NotebookChecks.v
KServeChecks.v
KueueIntegrity.v
ComponentChecks.v
DashboardChecks.v
DependencyChecks.v
PlatformChecks.v
AIPipelines.v
WorkloadChecks.v
Registry.v
Programs.v
Cluster.v
PipelineActions.v
StorageVersion.v
RayClusters.v
RayMigration.v
OperatorInstall.v
KueueSteps.v
KueueMigration.v
KueueLabels.v
Workbenches.v
WorkbenchSteps.v
WorkbenchMigration.v
Components.v
