(* ===== verification/Prelude.v ===== *)
(** * Verification of odh-cli: root file and shared prelude

    odh-cli is a command-line tool for Open Data Hub clusters.  Its commands
    read a Kubernetes cluster through one client, and most of them decide
    something from what they read: [lint] runs a registry of checks and turns
    their results into a verdict and an exit code, [deps] compares a manifest
    of operators with what OLM has installed and can install the rest,
    [migrate] selects registered migration actions and runs them step by step,
    [events] filters and follows the events of the platform, [backup] writes
    workloads and what they depend on to files, [components] lists, describes
    and switches the components of the platform.  This library
    models that logic as executable functions and proves what the commands
    promise.

    ** Conventions

    A Go function that returns a value and an error is a function into
    [res E T] ([Ok], [Err], or [Panic] for a call that would panic).  Go maps
    are [gmap]s; a loop over a map goes through the class [MapOrder], whose
    instances are all iteration orders, and an unstable sort goes through
    [SortSlice], so a theorem quantified over them says that neither shows.
    Results of goroutines are collected through [Schedule], whose instances
    are all orders of completion.  Commands that change the cluster pass a
    world explicitly, abstract in the theorems and concrete in the witnesses.
    Objects shared by reference (step recorders) live in a heap.  Code outside
    the repository is a class: API errors ([ApiErrors], [K8sErrors]), the API
    server ([ApiServer]), gojq ([GoJq]), blang/semver ([Semver]), OLM lookups
    ([Olm], [OlmClient], [InstallApi]), the clock ([Clock]).  Laws of these
    classes are separate classes ([K8sLaws], [SemverLaws], [InstallLaws]),
    assumed only where needed and inhabited by the instances the witnesses use.

    The migration actions are programs: trees of the questions they put to the
    API server, the terminal, the disk and the timers (Programs, Cluster), in a
    monad that also carries the heap of recorders.  Safety is obedience to a
    monitor, an automaton over questions and answers, for every answer the
    world can give; liveness is the run against an oracle that describes a
    world which answers.  Timers ([Wait]), the text formats ([JsonText],
    [YamlText]) and the names of Go types in messages ([GoTypes]) are classes
    with laws of their own; so are the paths of jq a query reads and a
    transformation sets ([JqPathLaws]) and the readers of fields, times and
    labels of apimachinery ([Apimachinery]).

    ** Files, in dependency order

    - Prelude: results, string helpers, sorting by a key, map orders,
      schedules, tactics and the hint database of the library.
    - GoPath, FilePath, GoStrings, GoFloat: [path.Match], [filepath.Join], the
      functions of [strings] and [strconv] the program uses, and float64.
    - Errors: pkg/util/errors.  Error trees, [Classify], exit codes.
    - Client: pkg/util/client (discovery.go, errors.go, helpers.go), pkg/util/jq.
      Pagination, permission errors, singletons, operator namespace.
    - Version: pkg/util/version.  Detection order and version predicates.
    - Result: pkg/lint/check/result and the status of pkg/output/envelope.go.
    - Check: pkg/lint/check.  Checks, selectors, registry.
    - Verbose: pkg/lint/check/verbose_formatter.go.
    - Executor: pkg/lint/check/executor.go.
    - Validate: pkg/lint/check/validate.  The builders checks are made of.
    - Lint: pkg/lint command_options.go, command.go, output_table.go.
    - Deps: pkg/deps manifest.go, graph.go.
    - DepsCheck: pkg/deps check.go, olm_state.go; pkg/util/kube/olm/mode.go.
    - DepsInstall: pkg/deps install.go, stdin_input.go.
    - Recorder: pkg/migrate/action recorder_impl.go and result.
    - Action: pkg/migrate/action and phase.go.
    - Migrate: pkg/migrate command_list.go, command_prepare.go, command_run.go.
    - Events: pkg/events command.go, filter.go.
    - BackupDeps: pkg/backup/dependencies, pkg/util/kube/dependencies.go.
    - Pipeline: pkg/backup/pipeline discovery.go, resolver.go.  The three
      stages and their channels as a state machine under any schedule.
    - Backup: pkg/backup command.go, resource_writer.go; pipeline/writer.go.
    - WorkloadHelpers: pkg/util/kube annotations.go, collections.go;
      validate/accelerator.go.
    - NotebookImpacted, NotebookChecks: pkg/lint/checks/workloads/notebook.
    - KServeChecks: pkg/lint/checks/workloads/kserve.
    - KueueIntegrity: pkg/lint/checks/workloads/kueue, checks/kueue/discovery.
    - CheckKit: what the checks of pkg/lint/checks share.
    - ComponentChecks, DashboardChecks: pkg/lint/checks/components.
    - DependencyChecks, PlatformChecks: pkg/lint/checks/dependencies, platform.
    - AIPipelines: pkg/aipipelines, shared by checks and migrations.
    - WorkloadChecks: the other packages of pkg/lint/checks/workloads.
    - Registry: the checks pkg/lint/command.go registers, in its order.
    - Programs, Cluster: programs over commands and monitors; the commands of
      the migration actions, their monad, and pkg/util/confirmation.
    - PipelineActions: pkg/migrate/actions/aipipelines.
    - StorageVersion: pkg/migrate/actions/datasciencecluster.
    - RayClusters, RayMigration: pkg/migrate/raycluster (one object, and the
      whole migration) and pkg/migrate/actions/raycluster.
    - OperatorInstall: pkg/util/kube/olm channel.go and install.go, the
      lookups of mode.go and subscriptions.go, and pkg/util/kube/rbac.
    - KueueSteps, KueueMigration, KueueLabels: pkg/migrate/actions/kueue, its
      steps and tasks, what they do to a cluster, and the plan of the labels.
    - Workbenches, WorkbenchSteps, WorkbenchMigration:
      pkg/migrate/actions/workbenches, what the five actions decide about one
      notebook, their tasks, and what these do to a cluster.
    - Components: pkg/components, with pkg/util/conditions and the resources
      of pkg/resources/component_crs.go.

    In each file the definitions come first and keep the names of the Go
    functions; a module [<File>Spec] holds the theorems, with the witnesses
    beside them.

    ** What the theorems show

    - Lint: every selected check that applies is executed once and its result
      is valid even when the check fails ([executeChecks_complete]); selectors
      choose exactly the checks their patterns describe and a pattern that
      validated never fails later ([ListByPatterns_spec],
      [selector_semantics], [validated_selectors_never_fail]); the list of
      results does not depend on map order ([FlattenResults_deterministic]);
      the exit code is the highest-priority one that arose ([lint_exit_code])
      and agrees with the verdict and the table ([verdict_agrees_with_status],
      [OutputTable_spec]); the builders call a check's callback exactly when
      their gate says so ([Component_Run_gate] and the other theorems of
      Validate); the verbose listings show every object once, whatever the map
      order ([enhanced_output_exact]).
    - Lint checks: which notebooks are impacted and why, from the parsing of an
      image reference to the report ([parseImageReference_roundtrip],
      [analyzeImage_custom_iff], [analyzeTagBased_decides],
      [aggregate_worst_container], [analyzeNotebooks_report]); the references
      of notebooks to Secrets and profiles ([checkConnections_exact],
      [checkHardwareProfiles_outcome]); the report on InferenceServices and
      ServingRuntimes ([kserve_report]); the Kueue check finds exactly the
      objects that break an invariant ([data_integrity_exact]) and its walk
      of an ownership graph ends even on a cycle ([walkSubtree_exact]); the
      registry of the program holds every check once
      ([NewCommand_registry_exact]) and each produces results the executor
      accepts ([registered_results_wellformed]).
    - Deps: the graph is the transitive closure of the enabled edges
      ([buildDepMap_transitive_closure]); the status report is complete and
      each status is justified by the state of the operator
      ([CheckDependencies_report]); an installation reports one settled result
      per dependency and fails iff one failed ([runInstall_report]); what it
      creates is recognised as installed afterwards
      ([createDepResourcesV0_then_installed]).
    - Migrate: [migrate run] refines a sequential reference semantics that
      stops at the first error and fails iff a step failed
      ([runMigrationMode_refines]); the recorder tree loses no step status
      ([Build_reports_every_status]); actions are selected exactly by group,
      phase and pattern ([ListByFilter_exact]).
    - Migration actions: whatever the cluster, the user and the disk answer,
      an application is rewritten before a stored version is dropped and a
      role is patched only with consent ([migration_rewrites_before_pruning],
      [roles_patched_with_consent]), stored versions are pruned only after a
      migration that succeeded ([storage_migration_order]), and a RayCluster
      is changed only with consent and as it was just read, and created only
      where there was none ([ray_migration_order]); an operator is installed
      piece by piece as it was read to be missing ([operator_install_order]),
      and every change of the Kueue migration follows from what was read and
      agreed to ([kueue_migration_order]); a workbench is written back only
      at rest and what was stopped is started again ([auth_patch_order]).
      The patch of a notebook is exact ([patched_notebook_exact],
      [tornado_settings_removed], [fixed_container_name]), the verification
      agrees with the cleanup and counts what it saw ([cleaned_is_verified],
      [verification_counts_exact]).  Checks that fail change nothing
      ([failed_checks_change_nothing]), a failed step is the last one
      ([failed_step_halts]), and a catalog over its limit is refused
      ([oversized_catalog_is_refused]).  Where the world answers they finish
      with what they promise ([storage_migration_completes],
      [live_migration_completes], [postUpgradeCheck_reports_degradation],
      [labeling_plan_exact]), and a backup restores the object it was made of
      ([backup_then_restore]).
    - Components: a component changes state only with consent and by a patch
      of the resource that was just listed ([component_switch_order]), the
      change takes place and repeating it does nothing ([switch_completes]),
      one failure does not stop the others ([switch_reports_failures]); the
      list is exact ([components_extracted_exact]) and its health does not
      depend on the order of the lookups ([enrichment_order_independent]).
    - Events: the component filter is exact whatever the order of the
      concurrent lookups ([filterEventsByComponent_exact]); a watch sends what
      it should, resumes where it stopped and retries within its bounds
      ([processWatchEvents_exact], [watch_retries]).
    - Backup: the dependencies of a workload are those its spec names
      ([Notebook_Resolve_exact]); every interleaving of the pipeline ends and
      writes each workload once ([pipeline_terminates], [pipeline_exact]); a dry
      run predicts the files of a real one ([dry_run_predicts_writes]).
    - Client, Version, Errors: pagination returns every page, or the first
      items up to a limit ([ListResources_complete]), version detection tries
      its sources in order ([Detect_priority]), and every error has the exit
      code of its category ([classify_exit_code_agrees]).

    Theorems that state a defect of the code as it is are named after it, for
    example [executeChecks_cancelled_silently],
    [prepare_ignores_failed_steps], [expired_version_is_kept],
    [forbidden_secrets_block_all] and [forbidden_config_kills_run].

    ** Fuel

    Recursion that is not structural takes fuel and returns an option, and a
    theorem shows that enough fuel gives an answer: the transitive closure
    needs one more than the number of names of the manifest, the pagination
    one per page, the construction of steps the number of recorders (recorders
    point to younger ones only), [path.Match] the length of pattern and name.
    A polling loop has one unit per poll until its deadline, and the watch of
    a namespace one per turn until its context ends.  The prompt has one per
    line it can read.  The polls of the Ray migration run as often as the
    bounds written in the code, which are its fuel.  The removal of an argument
    from the arguments of a notebook needs one more than their length, and
    the runes of a text its length.

    ** Not modelled

    Rendering of tables, JSON and YAML, and colours; YAML decoding of
    manifests and of stdin; construction of clients; the migration actions of
    the model servers, TrustyAI, LlamaStack and training, which
    appear as records over the interface of Action; the commands status, get,
    logs, api, diagnose and mcp.  The natural next steps are those actions and
    the status command. *)
From stdpp Require Export base tactics list strings gmap sorting pretty.
From Stdlib Require Export ZArith Lia.
From Stdlib Require Import Ascii.

#[export] Set Default Proof Using "Type".

(** ** Results of fallible code

    Go functions that return [(T, error)] are modelled as [res E T]; a call
    that panics is the third constructor, so that absence of panics can be
    stated as a theorem. *)
Inductive res (E A : Type) : Type :=
| Ok (a : A)
| Err (e : E)
| Panic (msg : string).
Arguments Ok {E A} a.
Arguments Err {E A} e.
Arguments Panic {E A} msg.

Definition res_bind {E A B} (m : res E A) (k : A → res E B) : res E B :=
  match m with
  | Ok a => k a
  | Err e => Err e
  | Panic s => Panic s
  end.

Definition res_map_err {E E' A} (f : E → E') (m : res E A) : res E' A :=
  match m with
  | Ok a => Ok a
  | Err e => Err (f e)
  | Panic s => Panic s
  end.

Declare Scope go_scope.
Delimit Scope go_scope with go.
Notation "'let!' x := m 'in' k" := (res_bind m (λ x, k))
  (at level 10, x name, m at level 100, k at level 200) : go_scope.
Notation "'let!' ' p := m 'in' k" := (res_bind m (λ x, match x with p => k end))
  (at level 10, p strict pattern, m at level 100, k at level 200) : go_scope.

(** The two-statement idiom [v, err := m; if err != nil { return f(err) }]. *)
Notation "'try!' x := m 'else' f 'in' k" := (res_bind (res_map_err f m) (λ x, k))
  (at level 10, x name, m at level 100, f at level 100, k at level 200) : go_scope.

Definition is_ok {E A} (m : res E A) : bool :=
  match m with Ok _ => true | _ => false end.

Definition res_opt {E A} (m : res E A) : option A :=
  match m with Ok a => Some a | _ => None end.

Lemma res_bind_Ok_inv {E A B} (m : res E A) (k : A → res E B) b :
  res_bind m k = Ok b → ∃ a, m = Ok a ∧ k a = Ok b.
Proof. destruct m; simpl; naive_solver. Qed.

Lemma res_map_err_Ok {E E' A} (f : E → E') (m : res E A) a :
  res_map_err f m = Ok a ↔ m = Ok a.
Proof. destruct m; simpl; naive_solver. Qed.

(** [for _, x := range l { if err := f(x); err != nil { return err } }]. *)
Fixpoint for_each {E A} (f : A → res E ()) (l : list A) : res E () :=
  match l with
  | [] => Ok ()
  | x :: l' => res_bind (f x) (λ _, for_each f l')
  end.

Lemma for_each_Ok {E A} (f : A → res E ()) l :
  for_each f l = Ok () ↔ Forall (λ x, f x = Ok ()) l.
Proof.
  induction l as [|x l IH]; simpl; [by split; [constructor|]|].
  rewrite Forall_cons, <-IH. destruct (f x) as [[]| |]; simpl; intuition congruence.
Qed.

(** The error of a loop is the error of the first element that fails. *)
Lemma for_each_Err {E A} (f : A → res E ()) l e :
  for_each f l = Err e ↔
  ∃ l1 x l2, l = l1 ++ x :: l2 ∧ Forall (λ y, f y = Ok ()) l1 ∧ f x = Err e.
Proof.
  induction l as [|x l IH]; simpl.
  { split; [done|]. intros (l1 & x & l2 & Hl & _). by destruct l1. }
  split.
  - destruct (f x) as [[]|e'|s] eqn:Hx; simpl; [|intros [= <-]|done].
    + intros (l1 & y & l2 & -> & Hl & Hy)%IH. exists (x :: l1), y, l2.
      split; [done|]. split; [by constructor|done].
    + exists [], x, l. by split; [|split; [constructor|]].
  - intros (l1 & y & l2 & Heq & Hl & Hy). destruct l1 as [|z l1]; injection Heq as -> ->.
    + by rewrite Hy.
    + apply Forall_cons in Hl as [-> Hl]. simpl. apply IH. eauto 10.
Qed.

Lemma for_each_no_panic {E A} (f : A → res E ()) l m :
  (∀ x s, f x ≠ Panic s) → for_each f l ≠ Panic m.
Proof.
  intros Hf. induction l as [|x l IH]; simpl; [done|].
  destruct (f x) eqn:Hx; simpl; [done|done|]. by apply Hf in Hx.
Qed.

(** [for _, x := range l { if y, ok := f(x); ok { return y } }]. *)
Fixpoint find_map {A B} (f : A → option B) (l : list A) : option B :=
  match l with
  | [] => None
  | x :: l' => match f x with Some y => Some y | None => find_map f l' end
  end.

Lemma find_map_Some {A B} (f : A → option B) l y :
  find_map f l = Some y ↔ ∃ l1 x l2, l = l1 ++ x :: l2 ∧ Forall (λ z, f z = None) l1 ∧ f x = Some y.
Proof.
  induction l as [|x l IH]; simpl; [split; [done|intros ([|] & ? & ? & ? & _); done]|].
  destruct (f x) as [b|] eqn:Hx.
  - split; [intros [= <-]; by exists [], x, l|]. intros (l1 & z & l2 & Heq & Hl & Hz).
    destruct l1; injection Heq as -> ->; [congruence|]. apply Forall_cons in Hl as [Hl _]. congruence.
  - rewrite IH. split.
    + intros (l1 & z & l2 & -> & Hl & Hz). exists (x :: l1), z, l2. by repeat constructor.
    + intros (l1 & z & l2 & Heq & Hl & Hz). destruct l1; injection Heq as -> ->; [congruence|].
      apply Forall_cons in Hl as [_ Hl]. eauto 10.
Qed.

Lemma find_map_None {A B} (f : A → option B) l : find_map f l = None ↔ Forall (λ z, f z = None) l.
Proof.
  induction l as [|x l IH]; simpl; [by split; [constructor|]|].
  rewrite Forall_cons. destruct (f x); naive_solver.
Qed.

Lemma find_map_elem {A B} (f : A → option B) l y : find_map f l = Some y → ∃ x, x ∈ l ∧ f x = Some y.
Proof. intros (l1 & x & l2 & -> & _ & Hx)%find_map_Some. exists x. split; [set_solver|done]. Qed.

Lemma find_map_is_Some {A B} (f : A → option B) l : is_Some (find_map f l) ↔ ∃ x, x ∈ l ∧ is_Some (f x).
Proof.
  split; [intros [y (x & Hx & Hf)%find_map_elem]; eauto|].
  intros (x & Hx & Hf). destruct (find_map f l) eqn:Hn; [eauto|].
  rewrite find_map_None, Forall_forall in Hn. rewrite (Hn _ Hx) in Hf. by destruct Hf.
Qed.

(** ** Go strings

    A Go string is a byte string; [string] of the Standard Library is the same
    thing, with [String.leb]/[String.ltb] the byte-wise order of Go's [<]. *)
Definition slash : ascii := "/"%char.
Definition dot : ascii := "."%char.

(** [strings.Split(s, sep)] for a one-byte separator: always at least one part. *)
Fixpoint split_on (c : ascii) (s : string) : list string :=
  match s with
  | EmptyString => [""]
  | String a s' =>
      if Ascii.eqb a c then "" :: split_on c s'
      else match split_on c s' with
           | [] => [String a ""]
           | p :: ps => String a p :: ps
           end
  end.

(** [strings.Join]. *)
Fixpoint join (sep : string) (l : list string) : string :=
  match l with
  | [] => ""
  | [s] => s
  | s :: l' => s +:+ sep +:+ join sep l'
  end.

(** [strings.Contains(s, string(c))] for a one-byte needle. *)
Fixpoint contains_byte (c : ascii) (s : string) : bool :=
  match s with
  | EmptyString => false
  | String a s' => Ascii.eqb a c || contains_byte c s'
  end.

(** [strings.HasPrefix], [strings.TrimPrefix], [strings.Contains]. *)
Fixpoint has_prefix (p s : string) : bool :=
  match p, s with
  | EmptyString, _ => true
  | String a p', String b s' => Ascii.eqb a b && has_prefix p' s'
  | String _ _, EmptyString => false
  end.

Fixpoint drop_bytes (n : nat) (s : string) : string :=
  match n, s with
  | O, _ => s
  | S n', String _ s' => drop_bytes n' s'
  | S _, EmptyString => ""
  end.

Definition trim_prefix (p s : string) : string :=
  if has_prefix p s then drop_bytes (String.length p) s else s.

Fixpoint str_contains (sub s : string) : bool :=
  has_prefix sub s ||
  match s with
  | EmptyString => false
  | String _ s' => str_contains sub s'
  end.

Definition no_slash (s : string) : Prop := contains_byte slash s = false.

(** [time.Second], in nanoseconds. *)
Definition second : Z := 1000000000.

Lemma split_on_not_nil c s : split_on c s ≠ [].
Proof. destruct s as [|a s]; simpl; [done|]. case_match; [done|]. by case_match. Qed.

(** Splitting and joining back is the identity. *)
Lemma join_split_on c s : join (String c "") (split_on c s) = s.
Proof.
  induction s as [|a s IH]; simpl; [done|].
  pose proof (split_on_not_nil c s) as Hnil.
  destruct (split_on c s) as [|p ps] eqn:Hs; [done|].
  case_match eqn:Hac.
  - apply Ascii.eqb_eq in Hac as ->. exact (f_equal (String c) IH).
  - destruct ps as [|q qs]; exact (f_equal (String a) IH).
Qed.

(** No part of a split contains the separator. *)
Lemma split_on_parts c s : Forall (λ p, contains_byte c p = false) (split_on c s).
Proof.
  induction s as [|a s IH]; simpl; [by repeat constructor|].
  case_match eqn:Hac; [by constructor|].
  destruct (split_on c s) as [|p ps]; [by repeat constructor; simpl; rewrite Hac|].
  apply Forall_cons in IH as [Hp Hps]. constructor; [simpl; by rewrite Hac|done].
Qed.

Lemma has_prefix_spec p s : has_prefix p s = true ↔ ∃ r, s = p +:+ r.
Proof.
  revert s. induction p as [|a p IH]; intros s; simpl; [by split; eauto|].
  destruct s as [|b s]; [by split; [|intros [r Hr]]|].
  rewrite andb_true_iff, Ascii.eqb_eq, IH. split.
  - intros [-> [r ->]]. by exists r.
  - intros [r [= -> ->]]. eauto.
Qed.

Lemma has_prefix_app p r : has_prefix p (p +:+ r) = true.
Proof. apply has_prefix_spec. eauto. Qed.

Lemma drop_bytes_app p r : drop_bytes (String.length p) (p +:+ r) = r.
Proof. by induction p. Qed.

Lemma trim_prefix_app p r : trim_prefix p (p +:+ r) = r.
Proof. unfold trim_prefix. by rewrite has_prefix_app, drop_bytes_app. Qed.

Lemma contains_byte_app c s1 s2 :
  contains_byte c (s1 +:+ s2) = contains_byte c s1 || contains_byte c s2.
Proof. induction s1 as [|a s1 IH]; simpl; [done|]. by rewrite IH, orb_assoc. Qed.

Lemma string_app_assoc (s1 s2 s3 : string) : s1 +:+ s2 +:+ s3 = (s1 +:+ s2) +:+ s3.
Proof. induction s1 as [|a s1 IH]; [done|]. exact (f_equal (String a) IH). Qed.

Lemma string_app_nil_r (s : string) : s +:+ "" = s.
Proof. induction s as [|a s IH]; [done|]. exact (f_equal (String a) IH). Qed.

Lemma string_app_inj_l (p a b : string) : p +:+ a = p +:+ b → a = b.
Proof. induction p as [|x p IH]; [done|]. intros [= H]. by apply IH. Qed.

(** Appending a fixed suffix is injective. *)
Lemma string_app_inj_r (a b s : string) : a +:+ s = b +:+ s → a = b.
Proof.
  intros H. apply (f_equal String.list_ascii_of_string) in H.
  assert (∀ x y : string, String.list_ascii_of_string (x +:+ y) =
    (String.list_ascii_of_string x ++ String.list_ascii_of_string y)%list) as Happ.
  { intros x y. induction x as [|c x IH]; [done|]. exact (f_equal (cons c) IH). }
  rewrite !Happ in H. apply app_inv_tail in H.
  by rewrite <-(String.string_of_list_ascii_of_string a), H, String.string_of_list_ascii_of_string.
Qed.

(** [fmt.Sprintf("%d", n)] and [strconv.Itoa]. *)
Definition itoa (n : Z) : string := pretty n.

(** [fmt.Sprintf("%q", s)]: a double-quoted Go literal. Printable bytes other
    than the quote and the backslash stand for themselves, as do the bytes of
    multi-byte runes (Go prints printable runes verbatim). *)
Definition dquote : string := String (Ascii.ascii_of_nat 34) "".
Definition hex_digit (n : nat) : string :=
  match String.get n "0123456789abcdef" with Some c => String c "" | None => "" end.
Definition quote_byte (a : ascii) : string :=
  let n := Ascii.nat_of_ascii a in
  if (n =? 34)%nat then "\" +:+ dquote
  else if (n =? 92)%nat then "\\"
  else if (n =? 7)%nat then "\a" else if (n =? 8)%nat then "\b"
  else if (n =? 12)%nat then "\f" else if (n =? 10)%nat then "\n"
  else if (n =? 13)%nat then "\r" else if (n =? 9)%nat then "\t"
  else if (n =? 11)%nat then "\v"
  else if (n <? 32)%nat || (n =? 127)%nat then
    "\x" +:+ hex_digit (n `div` 16) +:+ hex_digit (n `mod` 16)
  else String a "".
Fixpoint quote_body (s : string) : string :=
  match s with
  | EmptyString => ""
  | String a s' => quote_byte a +:+ quote_body s'
  end.
Definition quote (s : string) : string := dquote +:+ quote_body s +:+ dquote.

(** ** Sorting

    [sort.Slice] and [sort.Strings] promise a sorted permutation and nothing
    about ties.  Clients are verified against this interface, so their
    theorems hold for every implementation of it. *)
Record StrictWeak {A} (less : A → A → bool) : Prop := {
  sw_irrefl x : less x x = false;
  sw_trans x y z : less x y = true → less y z = true → less x z = true;
  sw_negtrans x y z : less y x = false → less z y = false → less z x = false;
}.

Class SortSlice := {
  sort_slice {A : Type} (less : A → A → bool) (l : list A) : list A;
  sort_slice_perm {A} (less : A → A → bool) l : sort_slice less l ≡ₚ l;
  sort_slice_sorted {A} (less : A → A → bool) l :
    StrictWeak less →
    StronglySorted (λ x y, less y x = false) (sort_slice less l);
}.

(** The reference implementation of the interface: insertion sort. *)
Fixpoint sort_insert {A} (less : A → A → bool) (x : A) (l : list A) : list A :=
  match l with
  | [] => [x]
  | y :: l' => if less y x then y :: sort_insert less x l' else x :: l
  end.
Definition insertion_sort {A} (less : A → A → bool) (l : list A) : list A :=
  foldr (sort_insert less) [] l.

Lemma sort_insert_perm {A} (less : A → A → bool) x l : sort_insert less x l ≡ₚ x :: l.
Proof.
  induction l as [|y l IH]; simpl; [done|].
  case_match; [|done]. rewrite IH. by constructor.
Qed.

Lemma insertion_sort_perm {A} (less : A → A → bool) l : insertion_sort less l ≡ₚ l.
Proof. induction l as [|x l IH]; simpl; [done|]. by rewrite sort_insert_perm, IH. Qed.

Lemma sort_insert_sorted {A} (less : A → A → bool) x l :
  StrictWeak less → StronglySorted (λ x y, less y x = false) l →
  StronglySorted (λ x y, less y x = false) (sort_insert less x l).
Proof.
  intros Hsw. induction 1 as [|y l Hl IH Hy]; simpl; [by repeat constructor|].
  destruct (less y x) eqn:Hyx.
  - constructor; [done|]. rewrite sort_insert_perm. constructor; [|done].
    destruct (less x y) eqn:Hxy; [|done].
    pose proof (sw_trans _ Hsw _ _ _ Hyx Hxy) as H1.
    by rewrite (sw_irrefl _ Hsw) in H1.
  - constructor; [by constructor|]. constructor; [done|].
    eapply Forall_impl; [exact Hy|]. simpl. intros z Hz. by eapply (sw_negtrans _ Hsw).
Qed.

#[export] Instance insertion_SortSlice : SortSlice := {|
  sort_slice A less l := insertion_sort less l;
  sort_slice_perm A := insertion_sort_perm;
  sort_slice_sorted A less l Hsw :=
    ltac:(induction l; simpl; [constructor|by apply sort_insert_sorted]);
|}.

(** Byte-wise [<] on strings, the order of [sort.Strings]. *)
Definition string_less (s t : string) : bool := bool_decide (String.le s t) && negb (String.eqb s t).

Lemma string_less_spec s t : string_less s t = true ↔ String.le s t ∧ s ≠ t.
Proof.
  unfold string_less. rewrite andb_true_iff, negb_true_iff, bool_decide_eq_true, String.eqb_neq. done.
Qed.

Lemma string_less_false s t : string_less s t = false ↔ String.le t s.
Proof.
  rewrite <-not_true_iff_false, string_less_spec. split.
  - intros H. destruct (decide (s = t)) as [->|Hne]; [done|].
    destruct (total String.le s t); naive_solver.
  - intros Hts [Hst Hne]. by apply Hne, (anti_symm String.le).
Qed.

Lemma string_less_strict : StrictWeak string_less.
Proof.
  split.
  - intros x. by apply string_less_false.
  - intros x y z [H1 N1]%string_less_spec [H2 N2]%string_less_spec.
    apply string_less_spec. split; [by etrans|].
    intros ->. by apply N1, (anti_symm String.le).
  - intros x y z. rewrite !string_less_false. intros; by etrans.
Qed.

(** Comparisons built from others: on a key, and lexicographically. *)
Definition lex_less {A B} (key : A → B) (less : B → B → bool) (next : A → A → bool) (a b : A) : bool :=
  if less (key a) (key b) then true else if less (key b) (key a) then false else next a b.

Lemma StrictWeak_ext {A} (f g : A → A → bool) : (∀ a b, f a b = g a b) → StrictWeak f → StrictWeak g.
Proof.
  intros Hfg [H1 H2 H3]. split.
  - intros x. by rewrite <-Hfg.
  - intros x y z. rewrite <-!Hfg. apply H2.
  - intros x y z. rewrite <-!Hfg. apply H3.
Qed.

Lemma StrictWeak_key {A B} (key : A → B) (less : B → B → bool) :
  StrictWeak less → StrictWeak (λ a b, less (key a) (key b)).
Proof. intros [H1 H2 H3]. split; [intros x; apply H1|intros x y z; apply H2|intros x y z; apply H3]. Qed.

Lemma Zltb_strict : StrictWeak Z.ltb.
Proof. split; intros *; rewrite ?Z.ltb_lt, ?Z.ltb_ge; lia. Qed.

Lemma sw_asym {A} (less : A → A → bool) x y : StrictWeak less → less x y = true → less y x = false.
Proof.
  intros L Hxy. destruct (less y x) eqn:Hyx; [|done].
  pose proof (sw_trans _ L _ _ _ Hxy Hyx) as Hxx. by rewrite (sw_irrefl _ L) in Hxx.
Qed.

(** What is below stays below something equivalent. *)
Lemma sw_less_equiv {A} (less : A → A → bool) x y z :
  StrictWeak less → less x y = true → less y z = false → less z y = false → less x z = true.
Proof.
  intros L Hxy Hyz Hzy. destruct (less x z) eqn:Hxz; [done|].
  by rewrite (sw_negtrans _ L y z x Hzy Hxz) in Hxy.
Qed.

Lemma sw_equiv_less {A} (less : A → A → bool) x y z :
  StrictWeak less → less x y = false → less y x = false → less y z = true → less x z = true.
Proof.
  intros L Hxy Hyx Hyz. destruct (less x z) eqn:Hxz; [done|].
  by rewrite (sw_negtrans _ L z x y Hxz Hyx) in Hyz.
Qed.

Lemma lex_less_true {A B} (key : A → B) (less : B → B → bool) (next : A → A → bool) a b :
  StrictWeak less →
  lex_less key less next a b = true ↔
  less (key a) (key b) = true ∨
  (less (key a) (key b) = false ∧ less (key b) (key a) = false ∧ next a b = true).
Proof.
  intros L. unfold lex_less. destruct (less (key a) (key b)) eqn:H1; [intuition|].
  destruct (less (key b) (key a)); intuition congruence.
Qed.

Lemma lex_less_false {A B} (key : A → B) (less : B → B → bool) (next : A → A → bool) a b :
  StrictWeak less →
  lex_less key less next a b = false ↔
  less (key b) (key a) = true ∨
  (less (key a) (key b) = false ∧ less (key b) (key a) = false ∧ next a b = false).
Proof.
  intros L. unfold lex_less. destruct (less (key a) (key b)) eqn:H1.
  - rewrite (sw_asym _ _ _ L H1). intuition congruence.
  - destruct (less (key b) (key a)); intuition congruence.
Qed.

Lemma lex_StrictWeak {A B} (key : A → B) (less : B → B → bool) (next : A → A → bool) :
  StrictWeak less → StrictWeak next → StrictWeak (lex_less key less next).
Proof.
  intros L N. split.
  - intros x. unfold lex_less. rewrite (sw_irrefl _ L). apply (sw_irrefl _ N).
  - intros x y z. rewrite !lex_less_true by done.
    intros [H1|(E1 & F1 & N1)] [H2|(E2 & F2 & N2)].
    + left. by eapply sw_trans.
    + left. by eapply (sw_less_equiv less).
    + left. by eapply (sw_equiv_less less).
    + right. split; [by apply (sw_negtrans _ L _ _ _ E2 E1)|].
      split; [by apply (sw_negtrans _ L _ _ _ F1 F2)|by apply (sw_trans _ N _ y)].
  - intros x y z. rewrite !lex_less_false by done.
    intros [H1|(E1 & F1 & N1)] [H2|(E2 & F2 & N2)].
    + left. by eapply sw_trans.
    + left. by eapply (sw_less_equiv less).
    + left. by eapply (sw_equiv_less less).
    + right. split; [by apply (sw_negtrans _ L _ _ _ E1 E2)|].
      split; [by apply (sw_negtrans _ L _ _ _ F2 F1)|by apply (sw_negtrans _ N _ y)].
Qed.

Definition sort_strings `{SS : SortSlice} (l : list string) : list string := sort_slice string_less l.

Lemma StronglySorted_impl {A} (R R' : relation A) l :
  (∀ x y, R x y → R' x y) → StronglySorted R l → StronglySorted R' l.
Proof. intros HR. induction 1; constructor; eauto using Forall_impl. Qed.

Lemma StronglySorted_fmap_key {A B} (key : A → B) (R : relation B) l :
  StronglySorted (λ x y, R (key x) (key y)) l → StronglySorted R (map key l).
Proof.
  induction 1 as [|x l Hl IH Hx]; simpl; constructor; [done|]. by apply List.Forall_map.
Qed.

Lemma sort_strings_sorted `{SortSlice} l : StronglySorted String.le (sort_strings l).
Proof.
  eapply StronglySorted_impl; [|apply sort_slice_sorted, string_less_strict].
  simpl. intros x y. apply string_less_false.
Qed.

Lemma sort_strings_perm `{SortSlice} l : sort_strings l ≡ₚ l.
Proof. apply sort_slice_perm. Qed.

(** Sorting strings is a function of the multiset: the implementation and the
    input order do not matter. *)
Lemma sort_strings_unique (S1 S2 : SortSlice) l1 l2 :
  l1 ≡ₚ l2 → sort_strings (SS := S1) l1 = sort_strings (SS := S2) l2.
Proof.
  intros Hp. eapply (StronglySorted_unique String.le); try apply sort_strings_sorted.
  by rewrite !sort_strings_perm.
Qed.

(** Sorting is deterministic when elements the order does not separate are equal. *)
Lemma sort_slice_unique (S1 S2 : SortSlice) {A} (less : A → A → bool) l1 l2 :
  StrictWeak less → (∀ x y, x ∈ l1 → y ∈ l1 → less x y = false → less y x = false → x = y) → l1 ≡ₚ l2 →
  sort_slice (SortSlice := S1) less l1 = sort_slice (SortSlice := S2) less l2.
Proof.
  intros Hless Heq Hp. apply (StronglySorted_unique_strong (λ x y, less y x = false)).
  - intros x y Hx Hy H1 H2. rewrite sort_slice_perm in Hx. rewrite sort_slice_perm, <-Hp in Hy. by apply Heq.
  - by apply sort_slice_sorted.
  - by apply sort_slice_sorted.
  - by rewrite !sort_slice_perm.
Qed.

(** The comparison function many listings pass: by one key, ties by another. *)
Definition string_less2 {A} (key1 key2 : A → string) (a b : A) : bool :=
  if negb (String.eqb (key1 a) (key1 b)) then string_less (key1 a) (key1 b) else string_less (key2 a) (key2 b).
Lemma string_less2_strict {A} (key1 key2 : A → string) : StrictWeak (string_less2 key1 key2).
Proof.
  eapply (StrictWeak_ext (lex_less key1 string_less (λ a b, string_less (key2 a) (key2 b)))).
  - intros a b. unfold lex_less, string_less2. destruct (String.eqb_spec (key1 a) (key1 b)) as [->|Hne]; simpl.
    + by rewrite (sw_irrefl _ string_less_strict).
    + destruct (string_less (key1 a) (key1 b)) eqn:H1; [done|].
      destruct (string_less (key1 b) (key1 a)) eqn:H2; [done|]. exfalso.
      apply string_less_false in H1, H2. by apply Hne, (anti_symm String.le).
  - apply lex_StrictWeak; [apply string_less_strict|apply (StrictWeak_key key2), string_less_strict].
Qed.
Lemma string_less2_eq {A} (key1 key2 : A → string) a b :
  string_less2 key1 key2 a b = false → string_less2 key1 key2 b a = false → key1 a = key1 b ∧ key2 a = key2 b.
Proof.
  unfold string_less2. rewrite (String.eqb_sym (key1 b)).
  destruct (String.eqb_spec (key1 a) (key1 b)) as [Heq|Hne]; simpl.
  - intros H1%string_less_false H2%string_less_false. split; [done|]. by apply (anti_symm String.le).
  - intros H1%string_less_false H2%string_less_false. destruct Hne. by apply (anti_symm String.le).
Qed.

(** What a sort by two keys determines: the keys, in order. *)
Lemma StronglySorted_map {A B} (f : A → B) (R : B → B → Prop) l :
  StronglySorted (λ a b, R (f a) (f b)) l → StronglySorted R (map f l).
Proof. induction 1; simpl; constructor; [done|]. by apply List.Forall_map. Qed.
Lemma sort_less2_keys (S1 S2 : SortSlice) {A} (key1 key2 : A → string) l1 l2 :
  l1 ≡ₚ l2 →
  map (λ a, (key1 a, key2 a)) (sort_slice (SortSlice := S1) (string_less2 key1 key2) l1) =
  map (λ a, (key1 a, key2 a)) (sort_slice (SortSlice := S2) (string_less2 key1 key2) l2).
Proof.
  intros Hp. apply (StronglySorted_unique_strong (λ a b, string_less2 fst snd b a = false)).
  - intros [x1 x2] [y1 y2] _ _ H1 H2. destruct (string_less2_eq _ _ _ _ H2 H1) as [H3 H4]. simpl in *. congruence.
  - apply StronglySorted_map. apply (sort_slice_sorted (string_less2 key1 key2)), string_less2_strict.
  - apply StronglySorted_map. apply (sort_slice_sorted (string_less2 key1 key2)), string_less2_strict.
  - apply Permutation_map. by rewrite !sort_slice_perm.
Qed.

(** [sets.List] of apimachinery: the elements in byte order. *)
Definition sets_List `{SS : SortSlice} (s : gset string) : list string := sort_strings (elements s).

Lemma elem_of_sets_List `{SortSlice} x (s : gset string) : x ∈ sets_List s ↔ x ∈ s.
Proof. unfold sets_List. by rewrite sort_strings_perm, elem_of_elements. Qed.

Lemma NoDup_sets_List `{SortSlice} (s : gset string) : NoDup (sets_List s).
Proof. unfold sets_List. rewrite sort_strings_perm. apply NoDup_elements. Qed.

(** Permutations that agree on a key without duplicates are equal. *)
Lemma perm_same_keys {A B} (key : A → B) (l1 l2 : list A) :
  NoDup (key <$> l1) → l1 ≡ₚ l2 → key <$> l1 = key <$> l2 → l1 = l2.
Proof.
  intros Hnd Hp Hk. apply list_eq. intros i.
  assert ((key <$> l1) !! i = (key <$> l2) !! i) as Hi by (by rewrite Hk).
  rewrite !list_lookup_fmap in Hi.
  destruct (l1 !! i) as [x|] eqn:Hx, (l2 !! i) as [y|] eqn:Hy; try done. simpl in Hi. injection Hi as Hxy.
  assert (y ∈ l1) as (j & Hj)%list_elem_of_lookup by (rewrite Hp; eauto using list_elem_of_lookup_2).
  assert (i = j) as <-; [|congruence].
  eapply (NoDup_lookup (key <$> l1)); [done|..]; rewrite list_lookup_fmap; [by rewrite Hx|by rewrite Hj, Hxy].
Qed.

(** Sorting by a string key without duplicates is deterministic. *)
Lemma sort_by_key_unique (S1 S2 : SortSlice) {A} (key : A → string) (less : A → A → bool) l1 l2 :
  (∀ a b, less a b = string_less (key a) (key b)) → NoDup (map key l1) → l1 ≡ₚ l2 →
  sort_slice (SortSlice := S1) less l1 = sort_slice (SortSlice := S2) less l2.
Proof.
  intros Hless Hnd Hp.
  assert (Hperm : @sort_slice S1 A less l1 ≡ₚ @sort_slice S2 A less l2) by (by rewrite !sort_slice_perm).
  assert (Hsorted : ∀ (S : SortSlice) l, StronglySorted String.le (map key (@sort_slice S A less l))).
  { intros S l. apply StronglySorted_fmap_key. eapply StronglySorted_impl; [|apply sort_slice_sorted].
    - simpl. intros x y. rewrite Hless. apply string_less_false.
    - eapply StrictWeak_ext; [|apply (StrictWeak_key key), string_less_strict]. intros. by rewrite Hless. }
  apply (perm_same_keys key); [|done|].
  - by rewrite (Permutation_map key (sort_slice_perm less l1)).
  - apply (StronglySorted_unique String.le); [apply Hsorted..|]. by apply Permutation_map.
Qed.

(** ** Iteration over Go maps

    [for k, v := range m] visits every binding once in an unspecified order.
    [MapOrder] is one such choice of orders; theorems quantify over it. *)
Class MapOrder := {
  map_range {V : Type} (m : gmap string V) : list (string * V);
  map_range_perm {V} (m : gmap string V) : map_range m ≡ₚ map_to_list m;
}.

#[export] Instance canonical_MapOrder : MapOrder := {|
  map_range V m := map_to_list m;
  map_range_perm V m := reflexivity _;
|}.

Lemma elem_of_map_range `{MapOrder} {V} (m : gmap string V) k v :
  (k, v) ∈ map_range m ↔ m !! k = Some v.
Proof. by rewrite map_range_perm, elem_of_map_to_list. Qed.

Lemma map_range_orders (O1 O2 : MapOrder) {V} (m : gmap string V) :
  @map_range O1 V m ≡ₚ @map_range O2 V m.
Proof. by rewrite !map_range_perm. Qed.

Lemma NoDup_map_range `{MapOrder} {V} (m : gmap string V) : NoDup (map_range m).*1.
Proof. rewrite map_range_perm. apply NoDup_fst_map_to_list. Qed.

(** ** Concurrent work

    The order in which the members of a group of goroutines finish. *)
Class Schedule := {
  finish_order {A : Type} (l : list A) : list A;
  finish_order_perm {A} (l : list A) : finish_order l ≡ₚ l;
}.
#[export] Instance in_order : Schedule := {| finish_order A l := l; finish_order_perm A l := reflexivity _ |}.
