(* ===== verification/GoPath.v ===== *)
(** * GoPath: the Standard Library function [path.Match]

    The check selectors of [lint --checks] are glob patterns that
    pkg/lint/check/selector.go and pkg/lint/command_options.go hand to
    [path.Match].  This file models that function byte by byte: chunks between
    stars, character classes, escapes, and the rule that a malformed pattern is
    reported whatever the name is.  Patterns and names are ASCII (a rune is one
    byte), which check identifiers are.

    Main lemmas: a pattern without metacharacters matches exactly itself, a
    literal followed by a star matches its slash-free extensions, and whether
    the pattern is malformed does not depend on the name. *)
From S2P Require Import Prelude.
From Stdlib Require Import Ascii.
Open Scope string_scope.

Inductive match_res := MBad | MNo | MYes (rest : string).

#[export] Instance match_res_eq_dec : EqDecision match_res.
Proof. solve_decision. Defined.

Definition is_c (c a : ascii) : bool := Ascii.eqb a c.

(** [scanChunk]: leading stars, then the text up to the next star outside a
    character class. *)
Fixpoint skip_stars (p : string) : bool * string :=
  match p with
  | String a p' => if is_c "*" a then (true, (skip_stars p').2) else (false, p)
  | EmptyString => (false, "")
  end.

Fixpoint scan_body (inrange : bool) (p : string) : string * string :=
  match p with
  | EmptyString => ("", "")
  | String a p' =>
      if is_c "\" a then
        match p' with
        | String b p'' => let '(c, r) := scan_body inrange p'' in (String a (String b c), r)
        | EmptyString => (String a "", "")
        end
      else if is_c "*" a && negb inrange then ("", p)
      else
        let inrange' := if is_c "[" a then true else if is_c "]" a then false else inrange in
        let '(c, r) := scan_body inrange' p' in (String a c, r)
  end.

Definition scan_chunk (p : string) : bool * string * string :=
  let '(star, p') := skip_stars p in
  let '(chunk, rest) := scan_body false p' in (star, chunk, rest).

(** [getEsc]: one possibly escaped byte of a character class; [None] is
    [ErrBadPattern]. *)
Definition get_esc (chunk : string) : option (ascii * string) :=
  match chunk with
  | EmptyString => None
  | String a rest =>
      if is_c "-" a || is_c "]" a then None else
      let chunk' := if is_c "\" a then rest else chunk in
      match chunk' with
      | EmptyString => None
      | String b nchunk => if String.eqb nchunk "" then None else Some (b, nchunk)
      end
  end.

Definition byte_le (a b : ascii) : bool := (nat_of_ascii a <=? nat_of_ascii b)%nat.

(** The loop over the ranges of a class; the answer is whether some range holds
    the byte, and the chunk after the closing bracket. *)
Fixpoint match_ranges (fuel : nat) (chunk : string) (r : ascii) (nrange : nat) (found : bool)
    : option (bool * string) :=
  match fuel with
  | O => None
  | S fuel' =>
      match chunk with
      | String a chunk' =>
          if is_c "]" a && (0 <? nrange)%nat then Some (found, chunk')
          else
            match get_esc chunk with
            | None => None
            | Some (lo, chunk1) =>
                match chunk1 with
                | String b chunk2 =>
                    if is_c "-" b then
                      match get_esc chunk2 with
                      | None => None
                      | Some (hi, chunk3) =>
                          match_ranges fuel' chunk3 r (S nrange) (found || (byte_le lo r && byte_le r hi))
                      end
                    else match_ranges fuel' chunk1 r (S nrange) (found || (byte_le lo r && byte_le r lo))
                | EmptyString => None
                end
            end
      | EmptyString => None
      end
  end.

Definition zero_rune : ascii := Ascii.zero.

Definition head_rune (s : string) : ascii :=
  match s with String a _ => a | EmptyString => zero_rune end.
Definition tail_str (s : string) : string :=
  match s with String _ s' => s' | EmptyString => "" end.

(** [matchChunk]: [failed] records that the match failed while the chunk is
    still checked for well-formedness. *)
Fixpoint match_chunk (fuel : nat) (chunk s : string) (failed : bool) : match_res :=
  match fuel with
  | O => MBad
  | S fuel' =>
      match chunk with
      | EmptyString => if failed then MNo else MYes s
      | String a chunk' =>
          let failed := failed || String.eqb s "" in
          if is_c "[" a then
            let r := if failed then zero_rune else head_rune s in
            let s' := if failed then s else tail_str s in
            let '(negated, body) :=
              match chunk' with
              | String b chunk'' => if is_c "^" b then (true, chunk'') else (false, chunk')
              | EmptyString => (false, chunk')
              end in
            match match_ranges (S (String.length body)) body r 0 false with
            | None => MBad
            | Some (found, rest) => match_chunk fuel' rest s' (failed || Bool.eqb found negated)
            end
          else if is_c "?" a then
            match_chunk fuel' chunk' (if failed then s else tail_str s)
              (failed || is_c "/" (head_rune s))
          else
            let lit := if is_c "\" a then chunk' else chunk in
            match lit with
            | EmptyString => MBad
            | String b rest =>
                match_chunk fuel' rest (if failed then s else tail_str s)
                  (failed || negb (Ascii.eqb b (head_rune s)))
            end
      end
  end.

Definition matchChunk (chunk s : string) : match_res :=
  match_chunk (S (String.length chunk)) chunk s false.

(** The search of a starred chunk at later positions of the name, never past a
    slash; for the last chunk the name has to be used up. *)
Fixpoint star_search (chunk : string) (last : bool) (name : string) : match_res :=
  match name with
  | EmptyString => MNo
  | String a name' =>
      if is_c "/" a then MNo
      else match matchChunk chunk name' with
           | MYes t => if last && negb (String.eqb t "") then star_search chunk last name' else MYes t
           | MBad => MBad
           | MNo => star_search chunk last name'
           end
  end.

(** The final loop that validates the rest of the pattern. *)
Fixpoint validate_rest (fuel : nat) (pattern : string) : bool :=
  match fuel with
  | O => true
  | S fuel' =>
      if String.eqb pattern "" then true else
      let '(_, chunk, rest) := scan_chunk pattern in
      match matchChunk chunk "" with
      | MBad => false
      | _ => validate_rest fuel' rest
      end
  end.

(** [Match]: [None] is [ErrBadPattern]. *)
Fixpoint path_match_fuel (fuel : nat) (pattern name : string) : option bool :=
  match fuel with
  | O => None
  | S fuel' =>
      if String.eqb pattern "" then Some (String.eqb name "") else
      let '(star, chunk, rest) := scan_chunk pattern in
      if star && String.eqb chunk "" then Some (negb (contains_byte slash name)) else
      let no_match := if validate_rest (S (String.length rest)) rest then Some false else None in
      let retry :=
        if star then
          match star_search chunk (String.eqb rest "") name with
          | MYes t => path_match_fuel fuel' rest t
          | MBad => None
          | MNo => no_match
          end
        else no_match in
      match matchChunk chunk name with
      | MYes t => if String.eqb t "" || negb (String.eqb rest "")
                  then path_match_fuel fuel' rest t else retry
      | MBad => None
      | MNo => retry
      end
  end.

Definition path_match (pattern name : string) : option bool :=
  path_match_fuel (S (String.length pattern)) pattern name.

Example path_match_1 : path_match "components.*" "components.dashboard" = Some true.
Proof. reflexivity. Qed.
Example path_match_2 : path_match "*dashboard*" "components.dashboard.acc" = Some true.
Proof. reflexivity. Qed.
Example path_match_3 : path_match "a[b-d]?\*" "acx*" = Some true.
Proof. reflexivity. Qed.
Example path_match_4 : path_match "a[" "zzz" = None.
Proof. reflexivity. Qed.
Example path_match_5 : path_match "*.dashboard" "x.dashboard.y" = Some false.
Proof. reflexivity. Qed.

(** ** Whether a pattern is malformed does not depend on the name *)
Lemma match_ranges_indep fuel chunk r r' n f f' :
  match match_ranges fuel chunk r n f, match_ranges fuel chunk r' n f' with
  | Some (_, c1), Some (_, c2) => c1 = c2
  | None, None => True
  | _, _ => False
  end.
Proof.
  revert chunk n f f'. induction fuel as [|fuel IH]; intros chunk n f f'; simpl; [done|].
  destruct chunk as [|a chunk']; [done|].
  destruct (is_c "]" a && (0 <? n)%nat); [done|].
  destruct (get_esc (String a chunk')) as [[lo c1]|]; [|done].
  destruct c1 as [|b c2]; [done|].
  destruct (is_c "-" b); [|apply IH].
  destruct (get_esc c2) as [[hi c3]|]; [apply IH|done].
Qed.

Definition is_bad (m : match_res) : bool := match m with MBad => true | _ => false end.

Lemma match_chunk_bad_indep fuel chunk s s' b b' :
  is_bad (match_chunk fuel chunk s b) = is_bad (match_chunk fuel chunk s' b').
Proof.
  revert chunk s s' b b'.
  induction fuel as [|fuel IH]; intros chunk s s' b b'; cbn [match_chunk]; [done|].
  destruct chunk as [|a chunk']; [by destruct b, b'|].
  destruct (is_c "[" a) eqn:Ha.
  - destruct (match chunk' with
      | String b0 c2 => if is_c "^" b0 then (true, c2) else (false, chunk')
      | EmptyString => (false, chunk') end) as [neg body].
    match goal with |- is_bad (match match_ranges ?k ?c ?r _ _ with _ => _ end) =
                       is_bad (match match_ranges _ _ ?r' _ _ with _ => _ end) =>
      pose proof (match_ranges_indep k c r r' 0 false false) as Hr;
      destruct (match_ranges k c r 0 false) as [[? ?]|],
               (match_ranges k c r' 0 false) as [[? ?]|] end; simplify_eq; solve [done | apply IH].
  - destruct (is_c "?" a); [apply IH|].
    destruct (if is_c "\" a then chunk' else String a chunk') as [|c rest]; [done|apply IH].
Qed.

Lemma matchChunk_bad chunk s : matchChunk chunk s = MBad ↔ matchChunk chunk "" = MBad.
Proof.
  pose proof (match_chunk_bad_indep (S (String.length chunk)) chunk s "" false false) as H.
  unfold matchChunk. destruct (match_chunk _ _ s _), (match_chunk _ _ "" _); simpl in H; naive_solver.
Qed.

Lemma star_search_bad chunk last name :
  matchChunk chunk "" ≠ MBad → star_search chunk last name ≠ MBad.
Proof.
  intros Hok. induction name as [|a name IH]; simpl; [done|].
  destruct (is_c "/" a); [done|].
  destruct (matchChunk chunk name) eqn:Hm; [|done|by case_match].
  by apply matchChunk_bad in Hm.
Qed.

Lemma skip_stars_length p :
  (String.length (skip_stars p).2 + (if (skip_stars p).1 then 1 else 0) ≤ String.length p)%nat.
Proof.
  induction p as [|a p IH]; simpl; [lia|].
  destruct (is_c "*" a); simpl; [|lia].
  destruct (skip_stars p) as [[] q]; simpl in *; lia.
Qed.

Lemma skip_stars_head p b q :
  skip_stars p = (b, q) → match q with String a _ => is_c "*" a = false | _ => True end.
Proof.
  revert b q. induction p as [|a p IH]; intros b q; simpl; [by intros [= <- <-]|].
  destruct (is_c "*" a) eqn:Ha; [|by intros [= <- <-]].
  destruct (skip_stars p) as [b' q'] eqn:Hp. simpl. intros [= <- <-]. by eapply IH.
Qed.

(** An induction principle for the scanner, which may eat two bytes at once. *)
Lemma string_ind_len (P : string → Prop) :
  (∀ s, (∀ t, (String.length t < String.length s)%nat → P t) → P s) → ∀ s, P s.
Proof.
  intros HP s. remember (String.length s) as n eqn:Hn. revert s Hn.
  induction (lt_wf n) as [n _ IH]. intros s ->. apply HP. intros t Ht. by eapply IH.
Qed.

Lemma scan_body_app ir p c r : scan_body ir p = (c, r) → p = c +:+ r.
Proof.
  revert ir c r. induction p as [p IH] using string_ind_len. intros ir c r.
  destruct p as [|a p]; simpl; [by intros [= <- <-]|].
  destruct (is_c "\" a).
  - destruct p as [|b p]; [by intros [= <- <-]|].
    destruct (scan_body ir p) as [c' r'] eqn:Hs. intros [= <- <-].
    assert (p = c' +:+ r') as -> by (eapply IH, Hs; simpl; lia). done.
  - destruct (is_c "*" a && negb ir); [by intros [= <- <-]|].
    destruct (scan_body _ p) as [c' r'] eqn:Hs. intros [= <- <-].
    assert (p = c' +:+ r') as -> by (eapply IH, Hs; simpl; lia). done.
Qed.

Lemma length_sapp s t : String.length (s +:+ t) = (String.length s + String.length t)%nat.
Proof. induction s as [|a s IH]; simpl; [done|]. f_equal. exact IH. Qed.

Lemma scan_body_empty q r :
  scan_body false q = ("", r) →
  match q with String a _ => is_c "*" a = false | _ => True end → q = "".
Proof.
  destruct q as [|a q]; [done|]. simpl. intros Hb Hh. rewrite Hh in Hb. simpl in Hb.
  destruct (is_c "\" a); [destruct q as [|b q]; [done|]|]; by destruct (scan_body _ q).
Qed.

(** Every turn of the main loop consumes at least one byte of the pattern. *)
Lemma scan_chunk_decreases p star chunk rest :
  p ≠ "" → scan_chunk p = (star, chunk, rest) → (String.length rest < String.length p)%nat.
Proof.
  intros Hp. unfold scan_chunk. destruct (skip_stars p) as [b q] eqn:Hs.
  destruct (scan_body false q) as [c r] eqn:Hb. intros [= <- <- <-].
  pose proof (skip_stars_length p) as Hl. rewrite Hs in Hl. simpl in Hl.
  pose proof (scan_body_app _ _ _ _ Hb) as Hq.
  assert (Hlen : String.length q = (String.length c + String.length r)%nat)
    by (by rewrite Hq, length_sapp).
  destruct b; [lia|].
  assert (q = p) as ->.
  { destruct p as [|a p']; [done|]. simpl in Hs. destruct (is_c "*" a); by simplify_eq. }
  destruct c as [|x c]; [|simpl in Hlen; lia].
  by pose proof (scan_body_empty p r Hb (skip_stars_head _ _ _ Hs)).
Qed.

Lemma validate_rest_S fuel p :
  validate_rest (S fuel) p =
    if String.eqb p "" then true else
    let '(_, chunk, rest) := scan_chunk p in
    match matchChunk chunk "" with MBad => false | _ => validate_rest fuel rest end.
Proof. reflexivity. Qed.

Lemma validate_rest_fuel f1 f2 p :
  (String.length p < f1)%nat → (String.length p < f2)%nat →
  validate_rest f1 p = validate_rest f2 p.
Proof.
  revert f2 p. induction f1 as [|f1 IH]; intros f2 p H1 H2; [lia|].
  destruct f2 as [|f2]; [lia|]. simpl.
  destruct (String.eqb_spec p ""); [done|].
  destruct (scan_chunk p) as [[star chunk] rest] eqn:Hs.
  pose proof (scan_chunk_decreases _ _ _ _ n Hs).
  destruct (matchChunk chunk ""); [done|apply IH; lia|apply IH; lia].
Qed.

Lemma path_match_fuel_bad fuel p name :
  (String.length p < fuel)%nat →
  path_match_fuel fuel p name = None ↔ validate_rest fuel p = false.
Proof.
  revert p name. induction fuel as [|fuel IH]; intros p name Hl; [lia|].
  rewrite validate_rest_S. cbn [path_match_fuel].
  destruct (String.eqb_spec p "") as [|Hp]; [done|].
  destruct (scan_chunk p) as [[star chunk] rest] eqn:Hs.
  pose proof (scan_chunk_decreases _ _ _ _ Hp Hs) as Hd.
  rewrite (validate_rest_fuel (S (String.length rest)) fuel) by lia.
  assert (HIH : ∀ t, path_match_fuel fuel rest t = None ↔ validate_rest fuel rest = false)
    by (intros t; apply IH; lia).
  destruct (star && String.eqb chunk "") eqn:Hsc.
  { apply andb_true_iff in Hsc as [-> ->%String.eqb_eq]. simpl.
    unfold scan_chunk in Hs. destruct (skip_stars p) as [b q] eqn:Hsk.
    destruct (scan_body false q) as [c r] eqn:Hb. injection Hs as -> -> ->.
    pose proof (scan_body_empty q rest Hb (skip_stars_head _ _ _ Hsk)) as ->.
    simpl in Hb. injection Hb as <-. by destruct fuel. }
  assert (Hret : matchChunk chunk "" ≠ MBad → (if star then match star_search chunk (String.eqb rest "") name with
      | MYes t => path_match_fuel fuel rest t | MBad => None
      | MNo => if validate_rest fuel rest then Some false else None end
      else if validate_rest fuel rest then Some false else None) = None
      ↔ validate_rest fuel rest = false).
  { intros Hok. destruct star; [|by destruct (validate_rest fuel rest)].
    pose proof (star_search_bad chunk (String.eqb rest "") name Hok) as Hsb.
    destruct (star_search _ _ _); [done| |apply HIH]. by destruct (validate_rest fuel rest). }
  pose proof (matchChunk_bad chunk name) as Hb.
  destruct (decide (matchChunk chunk "" = MBad)) as [Hbad|Hok].
  - by rewrite (proj2 Hb Hbad), Hbad.
  - specialize (Hret Hok).
    assert ((match matchChunk chunk "" with MBad => false | _ => validate_rest fuel rest end)
            = validate_rest fuel rest) as -> by by destruct (matchChunk chunk "").
    destruct (matchChunk chunk name) as [| |t]; [by destruct Hok; apply Hb|exact Hret|].
    destruct (String.eqb t "" || negb (String.eqb rest "")); [apply HIH|exact Hret].
Qed.

Lemma path_match_bad_indep p n1 n2 : path_match p n1 = None → path_match p n2 = None.
Proof. unfold path_match. rewrite !path_match_fuel_bad by lia. done. Qed.

(** ** Literal patterns *)
Definition plain_byte (a : ascii) : bool :=
  negb (is_c "*" a || is_c "?" a || is_c "[" a || is_c "\" a).
Fixpoint plain (p : string) : bool :=
  match p with EmptyString => true | String a p' => plain_byte a && plain p' end.

Lemma plain_byte_spec a :
  plain_byte a = true →
  is_c "*" a = false ∧ is_c "?" a = false ∧ is_c "[" a = false ∧ is_c "\" a = false.
Proof.
  unfold plain_byte. rewrite negb_true_iff, !orb_false_iff. naive_solver.
Qed.

Lemma scan_body_plain ir p r :
  plain p = true → (r = "" ∨ ∃ r', r = String "*" r') → ir = false →
  scan_body ir (p +:+ r) = (p, r).
Proof.
  intros Hp Hr ->. induction p as [|a p IH]; simpl.
  - destruct Hr as [->|[r' ->]]; done.
  - simpl in Hp. apply andb_true_iff in Hp as [(H1 & H2 & H3 & H4)%plain_byte_spec Hp].
    rewrite H1, H4, H3. simpl. destruct (is_c "]" a);
      change (String.append p r) with (p +:+ r); by rewrite (IH Hp).
Qed.

Lemma skip_stars_plain p r :
  plain p = true → p ≠ "" → skip_stars (p +:+ r) = (false, p +:+ r).
Proof.
  destruct p as [|a p]; [done|]. simpl.
  intros [(H1 & _)%plain_byte_spec _]%andb_true_iff _. by rewrite H1.
Qed.

Lemma match_chunk_failed fuel p s :
  plain p = true → (String.length p < fuel)%nat → match_chunk fuel p s true = MNo.
Proof.
  revert p s. induction fuel as [|fuel IH]; intros p s Hp Hl; [lia|].
  destruct p as [|a p]; [done|]. simpl in Hp, Hl.
  apply andb_true_iff in Hp as [(H1 & H2 & H3 & H4)%plain_byte_spec Hp].
  cbn [match_chunk]. rewrite H2, H3, H4. simpl. apply IH; [done|lia].
Qed.

Lemma match_chunk_plain fuel p s :
  plain p = true → (String.length p < fuel)%nat →
  match_chunk fuel p s false =
    if has_prefix p s then MYes (drop_bytes (String.length p) s) else MNo.
Proof.
  revert p s. induction fuel as [|fuel IH]; intros p s Hp Hl; [lia|].
  destruct p as [|a p]; [done|]. simpl in Hp, Hl.
  apply andb_true_iff in Hp as [(H1 & H2 & H3 & H4)%plain_byte_spec Hp].
  cbn [match_chunk]. rewrite H2, H3, H4. simpl.
  destruct s as [|b s]; simpl; [apply match_chunk_failed; [done|lia]|].
  destruct (Ascii.eqb a b); simpl; [apply IH; [done|lia]|].
  apply match_chunk_failed; [done|lia].
Qed.

Lemma matchChunk_plain p s :
  plain p = true →
  matchChunk p s = if has_prefix p s then MYes (drop_bytes (String.length p) s) else MNo.
Proof. intros Hp. apply match_chunk_plain; [done|lia]. Qed.

Lemma has_prefix_eq p s :
  has_prefix p s && String.eqb (drop_bytes (String.length p) s) "" = String.eqb p s.
Proof.
  revert s. induction p as [|a p IH]; intros s; simpl; [by destruct s|].
  destruct s as [|b s]; [done|]. simpl. rewrite <-IH.
  by destruct (Ascii.eqb a b).
Qed.

(** A pattern without metacharacters matches itself only. *)
Lemma path_match_plain p s : plain p = true → path_match p s = Some (String.eqb p s).
Proof.
  intros Hp. unfold path_match.
  destruct (decide (p = "")) as [->|Hne]; [by destruct s|].
  cbn [path_match_fuel]. rewrite (proj2 (String.eqb_neq p "") Hne).
  unfold scan_chunk. pose proof (skip_stars_plain p "" Hp Hne) as Hs.
  pose proof (scan_body_plain false p "" Hp (or_introl eq_refl) eq_refl) as Hb.
  rewrite string_app_nil_r in Hs, Hb. rewrite Hs, Hb. simpl.
  rewrite matchChunk_plain by done. rewrite <-has_prefix_eq.
  destruct (has_prefix p s); [|done]. simpl.
  destruct (String.eqb_spec (drop_bytes (String.length p) s) "") as [->|]; [|done].
  simpl. by destruct p.
Qed.

(** A literal followed by a star matches the extensions of the literal by a
    text without slash. *)
Lemma path_match_prefix_star p s :
  plain p = true →
  path_match (p +:+ "*") s =
    Some (has_prefix p s && negb (contains_byte slash (drop_bytes (String.length p) s))).
Proof.
  intros Hp. unfold path_match.
  destruct (decide (p = "")) as [->|Hne]; [done|].
  cbn [path_match_fuel].
  assert (String.eqb (p +:+ "*") "" = false) as ->.
  { apply String.eqb_neq. by destruct p. }
  unfold scan_chunk. rewrite (skip_stars_plain p "*") by done.
  rewrite (scan_body_plain false p "*") by eauto. simpl.
  rewrite matchChunk_plain by done.
  destruct (has_prefix p s); simpl; [|done].
  rewrite orb_true_r. by destruct p.
Qed.
