(* ===== verification/GoStrings.v ===== *)
(** * GoStrings: the parts of Go's strings and strconv the lint checks use

    [strings.LastIndex] as a cut, [strings.Cut], [strings.TrimSpace],
    [strings.EqualFold] against an ASCII string, and [strconv.Atoi] with its
    saturation at the bounds of a 64-bit [int]. *)
From S2P Require Import Prelude.
From Stdlib Require Import Ascii.
Open Scope string_scope.
Open Scope Z_scope.

(** ** Cutting *)
(** [s[:i], s[i+1:]] for [i := strings.LastIndex(s, string(c))], if any. *)
Fixpoint cut_last (c : ascii) (s : string) : option (string * string) :=
  match s with
  | EmptyString => None
  | String a s' =>
      match cut_last c s' with
      | Some (l, r) => Some (String a l, r)
      | None => if Ascii.eqb a c then Some ("", s') else None
      end
  end.

(** [strings.Cut(s, string(c))] when the separator is found. *)
Fixpoint cut_first (c : ascii) (s : string) : option (string * string) :=
  match s with
  | EmptyString => None
  | String a s' =>
      if Ascii.eqb a c then Some ("", s')
      else match cut_first c s' with
           | Some (l, r) => Some (String a l, r)
           | None => None
           end
  end.

(** [strings.CutPrefix] when the prefix is found. *)
Definition cut_prefix (p s : string) : option string :=
  if has_prefix p s then Some (drop_bytes (String.length p) s) else None.

(** The ASCII white space of [strings.TrimSpace]. *)
Definition is_space (a : ascii) : bool :=
  let n := Ascii.nat_of_ascii a in ((9 <=? n) && (n <=? 13) || (n =? 32))%nat%bool.
Fixpoint trim_left (s : string) : string :=
  match s with
  | String a s' => if is_space a then trim_left s' else s
  | EmptyString => ""
  end.
Fixpoint trim_right (s : string) : string :=
  match s with
  | EmptyString => ""
  | String a s' =>
      match trim_right s' with
      | EmptyString => if is_space a then "" else String a ""
      | t => String a t
      end
  end.
Definition trim_space (s : string) : string := trim_right (trim_left s).

(** ** Numbers *)
Definition is_digit (a : ascii) : bool :=
  let n := Ascii.nat_of_ascii a in ((48 <=? n) && (n <=? 57))%nat%bool.
Fixpoint all_digits (s : string) : bool :=
  match s with
  | EmptyString => true
  | String a s' => is_digit a && all_digits s'
  end.
(** The regular expression [\d+]. *)
Definition digits_plus (s : string) : bool := negb (String.eqb s "") && all_digits s.

Definition digit_value (a : ascii) : Z := Z.of_nat (Ascii.nat_of_ascii a) - 48.
Fixpoint decimal (acc : Z) (s : string) : Z :=
  match s with
  | EmptyString => acc
  | String a s' => decimal (10 * acc + digit_value a) s'
  end.

Definition max_int64 : Z := 2 ^ 63 - 1.

(** [strconv.Atoi]: the value and the error; out of range it saturates. *)
Inductive atoi_error := ErrSyntax | ErrRange.
(** [err.Error()] of the [*strconv.NumError]. *)
Definition atoi_message (s : string) (e : atoi_error) : string :=
  "strconv.Atoi: parsing " +:+ quote s +:+ ": " +:+
  match e with ErrSyntax => "invalid syntax" | ErrRange => "value out of range" end.
Definition Atoi (s : string) : Z * option atoi_error :=
  let '(neg, body) := match s with
    | String a s' =>
        if Ascii.eqb a "-"%char then (true, s')
        else if Ascii.eqb a "+"%char then (false, s') else (false, s)
    | EmptyString => (false, s)
    end in
  if negb (digits_plus body) then (0, Some ErrSyntax)
  else
    let n := decimal 0 body in
    if neg then (if max_int64 + 1 <? n then (- (max_int64 + 1), Some ErrRange) else (- n, None))
    else if max_int64 <? n then (max_int64, Some ErrRange) else (n, None).

(** ** Suffixes and case *)
Definition string_rev (s : string) : string := String.string_of_list_ascii (rev (String.list_ascii_of_string s)).
Definition has_suffix (suf s : string) : bool := has_prefix (string_rev suf) (string_rev s).
Definition cut_suffix (suf s : string) : option string :=
  if has_suffix suf s then Some (String.substring 0 (String.length s - String.length suf) s) else None.

(** [strings.ToLower] of an ASCII string. *)
Definition to_lower_byte (a : ascii) : ascii :=
  let n := nat_of_ascii a in
  if ((65 <=? n) && (n <=? 90))%nat%bool then ascii_of_nat (n + 32) else a.
Fixpoint to_lower (s : string) : string :=
  match s with EmptyString => "" | String a s' => String (to_lower_byte a) (to_lower s') end.

(** [strings.EqualFold(s, t)] for an ASCII [t]: besides the case of letters,
    the long s (U+017F) and the Kelvin sign (U+212A) fold into ASCII. *)
Fixpoint fold_ascii (s : string) : string :=
  match s with
  | String (Ascii true false true false false false true true)
      (String (Ascii true true true true true true false true) s') => String "s"%char (fold_ascii s')
  | String (Ascii false true false false false true true true)
      (String (Ascii false false true false false false false true)
        (String (Ascii false true false true false true false true) s')) => String "k"%char (fold_ascii s')
  | String a s' => String (to_lower_byte a) (fold_ascii s')
  | EmptyString => ""
  end.
Definition equal_fold (s t : string) : bool := String.eqb (fold_ascii s) (fold_ascii t).

(** ** Lemmas *)
Lemma cut_last_app c s l r :
  cut_last c s = Some (l, r) → s = l +:+ String c r ∧ contains_byte c r = false.
Proof.
  revert l r. induction s as [|a s IH]; intros l r; simpl; [done|].
  destruct (cut_last c s) as [[l' r']|] eqn:Hc.
  - intros [= <- <-]. destruct (IH l' r' eq_refl) as [-> ?]. done.
  - destruct (Ascii.eqb_spec a c) as [->|]; [|done]. intros [= <- <-]. split; [done|].
    clear IH. induction s as [|b s IHs]; simpl in *; [done|].
    destruct (cut_last c s) as [[]|]; [done|]. destruct (Ascii.eqb b c); [done|]. by apply IHs.
Qed.

Lemma cut_last_none c s : cut_last c s = None ↔ contains_byte c s = false.
Proof.
  induction s as [|a s IH]; simpl; [done|]. rewrite orb_false_iff, <-IH.
  destruct (cut_last c s) as [[]|]; [naive_solver|]. destruct (Ascii.eqb a c); naive_solver.
Qed.

Lemma cut_first_app c s l r :
  cut_first c s = Some (l, r) → s = l +:+ String c r ∧ contains_byte c l = false.
Proof.
  revert l r. induction s as [|a s IH]; intros l r; simpl; [done|].
  destruct (Ascii.eqb a c) eqn:Ha; [apply Ascii.eqb_eq in Ha as ->; by intros [= <- <-]|].
  destruct (cut_first c s) as [[l' r']|]; [|done]. intros [= <- <-].
  destruct (IH l' r' eq_refl) as [-> ?]. split; [done|]. simpl. by rewrite Ha.
Qed.

Lemma cut_first_concat c l r : contains_byte c l = false → cut_first c (l +:+ String c r) = Some (l, r).
Proof.
  induction l as [|a l IH]; simpl; [intros _; by rewrite Ascii.eqb_refl|].
  rewrite orb_false_iff. intros [-> Hl]. by rewrite IH.
Qed.

Lemma decimal_lower acc s : 0 <= acc → all_digits s = true → acc <= decimal acc s.
Proof.
  revert acc. induction s as [|a s IH]; intros acc Hacc; simpl; [lia|].
  rewrite andb_true_iff. intros [Ha Hs]. unfold is_digit in Ha. unfold digit_value.
  apply andb_true_iff in Ha as [Ha _]. apply Nat.leb_le in Ha.
  etrans; [|apply IH]; [lia|lia|done].
Qed.

(** On digits [Atoi] is the decimal value, saturated. *)
Lemma Atoi_digits s : digits_plus s = true → (Atoi s).1 = Z.min max_int64 (decimal 0 s) ∧ 0 <= (Atoi s).1.
Proof.
  intros Hd. assert (Hs : Atoi s = (if max_int64 <? decimal 0 s then (max_int64, Some ErrRange) else (decimal 0 s, None))).
  { unfold Atoi. destruct s as [|a s']; [done|].
    assert (is_digit a = true) as Ha by (unfold digits_plus in Hd; simpl in Hd; by apply andb_true_iff in Hd as [Hd _]).
    destruct (Ascii.eqb_spec a "-"%char) as [->|]; [done|]. destruct (Ascii.eqb_spec a "+"%char) as [->|]; [done|].
    by rewrite Hd. }
  assert (0 <= decimal 0 s).
  { apply decimal_lower; [lia|]. unfold digits_plus in Hd. by apply andb_true_iff in Hd as [_ Hd]. }
  rewrite Hs. destruct (Z.ltb_spec max_int64 (decimal 0 s)); simpl; unfold max_int64 in *; lia.
Qed.

Lemma decimal_app acc s t : decimal acc (s +:+ t) = decimal (decimal acc s) t.
Proof. revert acc. induction s as [|a s IH]; intros acc; [done|]. apply IH. Qed.

Example Atoi_runs :
  Atoi "2025" = (2025, None) ∧ Atoi "-3" = (-3, None) ∧ Atoi "" = (0, Some ErrSyntax) ∧
  Atoi "99999999999999999999" = (max_int64, Some ErrRange) ∧ trim_space " a b  " = "a b" ∧
  cut_last "/"%char "a/b/c" = Some ("a/b", "c") ∧ equal_fold "Code-Server" "code-server" = true.
Proof. by vm_compute. Qed.

Lemma cut_last_concat c l r : contains_byte c r = false → cut_last c (l +:+ String c r) = Some (l, r).
Proof.
  intros Hr. apply cut_last_none in Hr.
  induction l as [|a l IH]; simpl; [by rewrite Hr, Ascii.eqb_refl|]. by rewrite IH.
Qed.

Lemma all_digits_app s t : all_digits (s +:+ t) = all_digits s && all_digits t.
Proof. induction s as [|a s IH]; simpl; [done|]. by rewrite IH, andb_assoc. Qed.

Lemma decimal_upper acc s :
  all_digits s = true → decimal acc s < (acc + 1) * 10 ^ Z.of_nat (String.length s).
Proof.
  revert acc. induction s as [|a s IH]; intros acc; cbn [all_digits decimal String.length]; [lia|].
  rewrite andb_true_iff. intros [Ha Hs]. unfold is_digit in Ha. apply andb_true_iff in Ha as [_ Ha].
  apply Nat.leb_le in Ha. specialize (IH (10 * acc + digit_value a) Hs). unfold digit_value in *.
  rewrite Nat2Z.inj_succ, Z.pow_succ_r by lia.
  pose proof (Z.pow_pos_nonneg 10 (Z.of_nat (String.length s)) ltac:(lia) ltac:(lia)). nia.
Qed.
