(* ===== verification/GoFloat.v ===== *)
(** * GoFloat: the float64 operations the program uses

    Conversion from int, multiplication and division (the IEEE operations of
    the Standard Library's [SpecFloat], at 53 bits), [math.Floor] and
    [math.Ceil] followed by a conversion to int, and [strconv.ParseFloat]. *)
From Stdlib Require Import Ascii.
From Stdlib Require Export SpecFloat.
From S2P Require Import Prelude GoStrings.
Open Scope string_scope.
Open Scope Z_scope.

Definition f64_of_int (n : Z) : spec_float := binary_normalize 53 1024 n 0 false.
Definition f64_mul : spec_float → spec_float → spec_float := SFmul 53 1024.
Definition f64_div : spec_float → spec_float → spec_float := SFdiv 53 1024.

(** [int(round(f))]; an infinity or a NaN becomes the least int. *)
Definition int_of_rounded (round : Z → Z → Z) (f : spec_float) : Z :=
  match f with
  | S754_zero _ => 0
  | S754_finite s m e =>
      let v := if s then Zneg m else Zpos m in
      if 0 <=? e then v * 2 ^ e else round v (2 ^ (- e))
  | _ => - 2 ^ 63
  end.
Definition floor_div (v d : Z) : Z := v / d.
Definition ceil_div (v d : Z) : Z := - (- v / d).
Definition int_of_floor : spec_float → Z := int_of_rounded floor_div.
Definition int_of_ceil : spec_float → Z := int_of_rounded ceil_div.

(** A sign, digits and at most one point. *)
Definition split_sign (s : string) : bool * string :=
  match s with
  | String "-"%char rest => (true, rest)
  | String "+"%char rest => (false, rest)
  | _ => (false, s)
  end.
Definition plain_decimal (s : string) : option spec_float :=
  let (negative, body) := split_sign s in
  let (whole, fraction) := match cut_first dot body with Some p => p | None => (body, "") end in
  let digits := whole +:+ fraction in
  let scale := 10 ^ Z.of_nat (String.length fraction) in
  if negb (digits_plus digits) then None
  else if (2 ^ 53 <=? decimal 0 digits) || (10 ^ 22 <? scale) then None
  else
    let magnitude := f64_div (f64_of_int (decimal 0 digits)) (f64_of_int scale) in
    Some (if negative then SFopp magnitude else magnitude).

(** [strconv.ParseFloat(s, 64)]: a decimal of at most fifteen digits or so is
    the correctly rounded quotient of two exact numbers; the other notations
    (exponents, hexadecimal, infinities, more digits) are a parameter. *)
Class FloatNotations := ParseFloat_rest : string → option spec_float.
Definition ParseFloat `{FloatNotations} (s : string) : option spec_float :=
  match plain_decimal s with Some f => Some f | None => ParseFloat_rest s end.
