(* ===== verification/FilePath.v ===== *)
(** * FilePath: the Standard Library functions [path.Clean] and [path.Join]

    The backup command builds the names of its files with path/filepath, which
    on Unix is package path.  Cleaning works on the segments between slashes;
    the main lemmas say that joining a directory with entry names appends them,
    that joining can be done in one step or in two, and that different entries
    get different paths. *)
From S2P Require Import Prelude.
From Stdlib Require Import Ascii.
Open Scope string_scope.
Open Scope list_scope.
Definition clean_push (rooted : bool) (stack : list string) (seg : string) : list string :=
  if String.eqb seg "" || String.eqb seg "." then stack
  else if String.eqb seg ".." then
    match stack with
    | top :: rest => if String.eqb top ".." then seg :: stack else rest
    | [] => if rooted then [] else [seg]
    end
  else seg :: stack.
Definition clean_segs (rooted : bool) (segs : list string) : list string := rev (foldl (clean_push rooted) [] segs).

Definition is_rooted (path : string) : bool := has_prefix "/" path.
Definition render (rooted : bool) (segs : list string) : string :=
  if rooted then "/" +:+ join "/" segs
  else match segs with [] => "." | _ => join "/" segs end.

Definition path_Clean (path : string) : string :=
  if String.eqb path "" then "." else render (is_rooted path) (clean_segs (is_rooted path) (split_on slash path)).

Fixpoint path_Join (elem : list string) : string :=
  match elem with
  | [] => ""
  | e :: rest => if String.eqb e "" then path_Join rest else path_Clean (join "/" elem)
  end.

(** A name of a directory entry. *)
Definition entry_name (s : string) : Prop := s ≠ "" ∧ s ≠ "." ∧ s ≠ ".." ∧ no_slash s.

Lemma split_on_app c a b : split_on c (a +:+ String c b) = split_on c a ++ split_on c b.
Proof.
  induction a as [|x a IH]; simpl; [by rewrite Ascii.eqb_refl|].
  change (split_on c (a +:+ String c b)) with (split_on c (a +:+ String c b)) in IH.
  fold (String.append a (String c b)). rewrite IH.
  destruct (Ascii.eqb x c); [done|].
  pose proof (split_on_not_nil c a). by destruct (split_on c a).
Qed.

Lemma split_on_none c s : contains_byte c s = false → split_on c s = [s].
Proof.
  induction s as [|x s IH]; simpl; [done|]. intros [Hx Hs]%orb_false_iff. by rewrite Hx, IH.
Qed.

Lemma split_join l : l ≠ [] → Forall no_slash l → split_on slash (join "/" l) = l.
Proof.
  induction l as [|s l IH]; [done|]. intros _ [Hs Hl]%Forall_cons.
  destruct l as [|s' l]; [by apply split_on_none|].
  change (join "/" (s :: s' :: l)) with (s +:+ String slash (join "/" (s' :: l))).
  rewrite split_on_app, IH by done. by rewrite split_on_none.
Qed.

Lemma clean_push_name rooted stack s : entry_name s → clean_push rooted stack s = s :: stack.
Proof.
  intros (H1 & H2 & H3 & _). unfold clean_push.
  rewrite (proj2 (String.eqb_neq s "") H1), (proj2 (String.eqb_neq s ".") H2), (proj2 (String.eqb_neq s "..") H3). done.
Qed.

Lemma clean_segs_names rooted segs names :
  Forall entry_name names → clean_segs rooted (segs ++ names) = clean_segs rooted segs ++ names.
Proof.
  intros Hn. unfold clean_segs. rewrite foldl_app. generalize (foldl (clean_push rooted) [] segs). intros stack.
  revert stack. induction Hn as [|s names Hs _ IH]; intros stack; simpl; [by rewrite app_nil_r|].
  rewrite clean_push_name, IH by done. simpl. by rewrite <-app_assoc.
Qed.

(** The shape of a cleaned path: parents first, and only in a relative path. *)
Definition cleaned (rooted : bool) (l : list string) : Prop :=
  ∃ n names, l = replicate n ".." ++ names ∧ Forall entry_name names ∧ (rooted = true → n = 0).

Lemma foldl_parents n k :
  foldl (clean_push false) (replicate k "..") (replicate n "..") = replicate (n + k) "..".
Proof.
  revert k. induction n as [|n IH]; intros k; simpl; [done|].
  assert (clean_push false (replicate k "..") ".." = replicate (S k) "..") as -> by (by destruct k).
  by rewrite IH, Nat.add_succ_r.
Qed.

(** Cleaning leaves a cleaned path alone. *)
Lemma clean_segs_cleaned rooted l : cleaned rooted l → clean_segs rooted l = l.
Proof.
  intros (n & names & -> & Hnames & Hn). rewrite clean_segs_names by done. f_equal. destruct rooted.
  - by rewrite (Hn eq_refl).
  - unfold clean_segs. pose proof (foldl_parents n 0) as H. simpl in H. rewrite H.
    rewrite Nat.add_0_r. clear. induction n as [|n IH]; simpl; [done|]. rewrite IH.
    clear. by induction n as [|n IH]; simpl; [|rewrite IH].
Qed.

Lemma cleaned_no_slash rooted l : cleaned rooted l → Forall no_slash l.
Proof.
  intros (n & names & -> & Hnames & _). apply Forall_app. split.
  - by apply Forall_replicate.
  - eapply Forall_impl; [exact Hnames|]. by intros s (_ & _ & _ & ?).
Qed.

(** A stack of the cleaning loop, read from its bottom. *)
Lemma clean_push_cleaned rooted stack s :
  no_slash s → cleaned rooted (rev stack) → cleaned rooted (rev (clean_push rooted stack s)).
Proof.
  intros Hs (n & names & Heq & Hnames & Hn). unfold clean_push.
  destruct (String.eqb_spec s ""); [by exists n, names|]. destruct (String.eqb_spec s "."); [by exists n, names|]. simpl.
  destruct (String.eqb_spec s "..") as [->|Hdd]; cycle 1.
  { exists n, (names ++ [s]). simpl. rewrite Heq, app_assoc. split; [done|]. split; [|done].
    apply Forall_app. split; [done|]. by constructor. }
  destruct stack as [|top rest].
  { destruct rooted; simpl; [by exists 0, []|]. by exists 1, []. }
  simpl in Heq. destruct (String.eqb_spec top "..") as [->|Htop].
  - destruct names as [|nm names] using rev_ind; [|].
    + rewrite app_nil_r in Heq. exists (S n), []. rewrite app_nil_r. split.
      * simpl. rewrite Heq. clear. induction n as [|n IH]; simpl; [done|]. by rewrite IH.
      * split; [done|]. intros Hr. specialize (Hn Hr). subst n. by destruct (rev rest).
    + rewrite app_assoc in Heq. apply app_inj_tail in Heq as [_ <-].
      apply Forall_app in Hnames as [_ [(_ & _ & H & _) _]%Forall_cons]. done.
  - destruct names as [|nm names _] using rev_ind.
    + rewrite app_nil_r in Heq. destruct n as [|n]; [by destruct (rev rest)|].
      rewrite replicate_S_end in Heq. apply app_inj_tail in Heq as [_ ->]. done.
    + rewrite app_assoc in Heq. apply app_inj_tail in Heq as [Heq _]. exists n, names. split; [done|].
      split; [|done]. by apply Forall_app in Hnames as [? _].
Qed.

Lemma clean_segs_is_cleaned rooted segs : Forall no_slash segs → cleaned rooted (clean_segs rooted segs).
Proof.
  intros Hsegs. unfold clean_segs.
  assert (∀ stack, cleaned rooted (rev stack) → cleaned rooted (rev (foldl (clean_push rooted) stack segs))) as H.
  { induction Hsegs as [|s segs Hs _ IH]; intros stack Hstack; simpl; [done|]. by apply IH, clean_push_cleaned. }
  apply H. by exists 0, [].
Qed.

(** The segments of the cleaned directory. *)
Definition dir_segs (dir : string) : list string := clean_segs (is_rooted dir) (split_on slash dir).

Lemma dir_segs_cleaned dir : cleaned (is_rooted dir) (dir_segs dir).
Proof. apply clean_segs_is_cleaned, split_on_parts. Qed.

Lemma join_cons s l : l ≠ [] → join "/" (s :: l) = s +:+ "/" +:+ join "/" l.
Proof. by destruct l. Qed.

Lemma is_rooted_app dir s : dir ≠ "" → is_rooted (dir +:+ s) = is_rooted dir.
Proof. by destruct dir. Qed.

(** Joining a directory with entry names appends them to its segments. *)
Lemma path_Join_names dir names :
  dir ≠ "" → names ≠ [] → Forall entry_name names →
  path_Join (dir :: names) = render (is_rooted dir) (dir_segs dir ++ names).
Proof.
  intros Hdir Hne Hnames. simpl. rewrite (proj2 (String.eqb_neq dir "") Hdir).
  change (match names with [] => dir | _ => dir +:+ "/" +:+ join "/" names end) with (join "/" (dir :: names)).
  rewrite join_cons by done. unfold path_Clean.
  rewrite (proj2 (String.eqb_neq _ "")) by (by destruct dir). rewrite is_rooted_app by done.
  change (dir +:+ "/" +:+ join "/" names) with (dir +:+ String slash (join "/" names)).
  rewrite split_on_app, split_join; [|done|].
  - by rewrite clean_segs_names.
  - eapply Forall_impl; [exact Hnames|]. by intros s (_ & _ & _ & ?).
Qed.

Lemma render_not_empty rooted l : l ≠ [] → Forall (λ s, s ≠ "") l → render rooted l ≠ "".
Proof.
  intros Hne Hl. unfold render. destruct rooted; [done|]. destruct l as [|s l]; [done|].
  apply Forall_cons in Hl as [Hs _]. destruct s; [done|]. by destruct l.
Qed.

Lemma cleaned_not_empty rooted l : cleaned rooted l → Forall (λ s, s ≠ "") l.
Proof.
  intros (n & names & -> & Hnames & _). apply Forall_app. split; [by apply Forall_replicate|].
  eapply Forall_impl; [exact Hnames|]. by intros s (? & _).
Qed.

Lemma is_rooted_cons a s : is_rooted (String a s) = Ascii.eqb a slash.
Proof. unfold is_rooted. cbn [has_prefix]. by rewrite andb_true_r, Ascii.eqb_sym. Qed.

(** The segments of a rendered clean path. *)
Lemma render_segs rooted l :
  cleaned rooted l → l ≠ [] → is_rooted (render rooted l) = rooted ∧ dir_segs (render rooted l) = l.
Proof.
  intros Hl Hne. pose proof (cleaned_no_slash _ _ Hl) as Hns. pose proof (cleaned_not_empty _ _ Hl) as Hnn.
  assert (is_rooted (render rooted l) = rooted) as Hr.
  { unfold render. destruct rooted; [done|]. destruct l as [|s l]; [done|].
    apply Forall_cons in Hns as [Hs _], Hnn as [Hn _]. destruct s as [|a s]; [done|].
    apply orb_false_iff in Hs as [Ha _]. etrans; [|exact Ha].
    destruct l; [apply is_rooted_cons|]. rewrite join_cons by done. apply (is_rooted_cons a (s +:+ _)). }
  split; [done|]. unfold dir_segs. rewrite Hr. unfold render. destruct rooted.
  - change ("/" +:+ join "/" l) with ("" +:+ String slash (join "/" l)). rewrite split_on_app, split_join by done.
    change (split_on slash "") with [""]. unfold clean_segs. simpl. by apply (clean_segs_cleaned true).
  - destruct l as [|s l]; [done|]. rewrite split_join by done. by apply clean_segs_cleaned.
Qed.

(** Cleaning a clean path. *)
Lemma path_Clean_idem path : path_Clean (path_Clean path) = path_Clean path.
Proof.
  unfold path_Clean at 2 3. destruct (String.eqb path ""); [done|].
  pose proof (dir_segs_cleaned path) as Hcl. unfold dir_segs in Hcl.
  destruct (clean_segs (is_rooted path) (split_on slash path)) as [|s l]; [by destruct (is_rooted path)|].
  destruct (render_segs _ _ Hcl) as [Hr Hs]; [done|]. unfold path_Clean.
  rewrite (proj2 (String.eqb_neq _ _)) by (eapply render_not_empty, cleaned_not_empty; done).
  unfold dir_segs in Hs. by rewrite Hs, Hr.
Qed.
Lemma path_Clean_Join dir name rest : path_Clean (path_Join (dir :: String name rest :: [])) = path_Join (dir :: String name rest :: []).
Proof. cbn [path_Join]. destruct (String.eqb dir ""); cbn [String.eqb]; apply path_Clean_idem. Qed.

Lemma cleaned_app rooted l names : cleaned rooted l → Forall entry_name names → cleaned rooted (l ++ names).
Proof.
  intros (n & names0 & -> & H0 & Hn) Hnames. exists n, (names0 ++ names). rewrite app_assoc.
  split; [done|]. split; [by apply Forall_app|done].
Qed.

(** Joining in two steps. *)
Lemma path_Join_Join dir a b :
  dir ≠ "" → entry_name a → entry_name b → path_Join [path_Join [dir; a]; b] = path_Join [dir; a; b].
Proof.
  intros Hdir Ha Hb. assert (Forall entry_name [a]) as H1 by auto.
  assert (Forall entry_name [b]) as H2 by auto. assert (Forall entry_name [a; b]) as H3 by auto.
  rewrite (path_Join_names dir [a; b]), (path_Join_names dir [a]) by done.
  assert (cleaned (is_rooted dir) (dir_segs dir ++ [a])) as Hcl by (apply cleaned_app; [apply dir_segs_cleaned|done]).
  assert (dir_segs dir ++ [a] ≠ []) as Hne by (by destruct (dir_segs dir)).
  destruct (render_segs _ _ Hcl Hne) as [Hr Hs].
  rewrite path_Join_names; [|by eapply render_not_empty, cleaned_not_empty|done|done].
  rewrite Hr, Hs. by rewrite <-app_assoc.
Qed.

(** Different entries have different paths. *)
Lemma path_Join_inj dir names1 names2 :
  dir ≠ "" → names1 ≠ [] → names2 ≠ [] → Forall entry_name names1 → Forall entry_name names2 →
  path_Join (dir :: names1) = path_Join (dir :: names2) → names1 = names2.
Proof.
  intros Hdir N1 N2 H1 H2. rewrite !path_Join_names by done. intros Heq.
  assert (∀ names, names ≠ [] → Forall entry_name names →
    dir_segs (render (is_rooted dir) (dir_segs dir ++ names)) = dir_segs dir ++ names) as H.
  { intros names N Hn. apply render_segs; [by apply cleaned_app; [apply dir_segs_cleaned|]|].
    by destruct (dir_segs dir), names. }
  eapply app_inv_head. by rewrite <-(H names1), <-(H names2), Heq.
Qed.

Example path_Join_examples :
  path_Join ["/tmp/x/"; "ns"; "f.yaml"] = "/tmp/x/ns/f.yaml" ∧ path_Join ["../a/./b/.."; "f"] = "../a/f" ∧
  path_Join ["."; "f"] = "f" ∧ path_Clean "/.." = "/".
Proof. repeat split. Qed.
