(* ===== verification/Errors.v ===== *)
(** * Errors: pkg/util/errors

    Go errors as a tree of wrappers (errors.go, types.go), the classification
    of an arbitrary error into a [StructuredError] (errors.go [Classify]), the
    exit-code algebra (exitcode.go) and the rendering decisions of output.go
    and common.go.  The predicates of k8s.io/apimachinery are not part of the
    repository and are the fields of the class [ApiErrors]. *)
From S2P Require Import Prelude.
Open Scope string_scope.
Open Scope Z_scope.

(** ** Error values *)
(** The named error variables ([errors.Is] compares them by identity). *)
Inductive sentinel :=
| CtxDeadlineExceeded | CtxCanceled | OsErrPermission
| ErrAlreadyHandled | ErrLintBlocked | ErrLintAdvisory
| ErrCheckTimeout | ErrCheckCanceled
| JqErrNotFound.

#[export] Instance sentinel_eq_dec : EqDecision sentinel.
Proof. solve_decision. Defined.

Definition sentinel_msg (s : sentinel) : string :=
  match s with
  | CtxDeadlineExceeded => "context deadline exceeded"
  | CtxCanceled => "context canceled"
  | OsErrPermission => "permission denied"
  | ErrAlreadyHandled => "error already rendered to output"
  | ErrLintBlocked => "prohibited or blocking findings detected"
  | ErrLintAdvisory => "advisory findings detected"
  | ErrCheckTimeout => "check execution timed out"
  | ErrCheckCanceled => "check execution canceled"
  | JqErrNotFound => "field not found"
  end.

Inductive ErrorCategory :=
| CategoryAuthentication | CategoryAuthorization | CategoryConnection
| CategoryNotFound | CategoryValidation | CategoryConflict
| CategoryServer | CategoryTimeout | CategoryInternal
| CategoryOther (s : string) (* any other value of the Go string type *).

#[export] Instance ErrorCategory_eq_dec : EqDecision ErrorCategory.
Proof. solve_decision. Defined.

Definition category_string (c : ErrorCategory) : string :=
  match c with
  | CategoryAuthentication => "authentication" | CategoryAuthorization => "authorization"
  | CategoryConnection => "connection" | CategoryNotFound => "not_found"
  | CategoryValidation => "validation" | CategoryConflict => "conflict"
  | CategoryServer => "server" | CategoryTimeout => "timeout"
  | CategoryInternal => "internal" | CategoryOther s => s
  end.

Record StructuredErrorOf (E : Type) := {
  se_Code : string;
  se_Message : string;
  se_Category : ErrorCategory;
  se_ExitCode : Z;
  se_Retriable : bool;
  se_Suggestion : string;
  se_cause : option E;
}.
Arguments se_Code {E}. Arguments se_Message {E}. Arguments se_Category {E}.
Arguments se_ExitCode {E}. Arguments se_Retriable {E}. Arguments se_Suggestion {E}.
Arguments se_cause {E}.

(** The dynamic types of errors the package distinguishes.  [EForeign] stands
    for an error type of another module (a Kubernetes status error, say). *)
Inductive go_error :=
| ESentinel (s : sentinel)
| EString (msg : string)                          (* errors.New, fmt.Errorf without %w *)
| EWrap (msg : string) (e : go_error)             (* fmt.Errorf with one %w; msg is the whole text *)
| EWrap2 (msg : string) (e1 e2 : go_error)        (* fmt.Errorf with two %w *)
| EStructured (s : StructuredErrorOf go_error)    (* *StructuredError *)
| EConfig (e : go_error)                          (* *ConfigError *)
| EExitCode (code : Z) (e : go_error)             (* *ExitCodeError *)
| EPath (msg : string) (e : go_error)             (* *fs.PathError *)
| ESyscall (msg : string) (perm timeout : bool)   (* syscall.Errno *)
| ENet (msg : string) (timeout : bool) (e : option go_error)  (* *net.OpError, *url.Error, ... *)
| EDNS (msg : string) (timeout : bool)            (* *net.DNSError *)
| ETLS (msg : string)                             (* the four x509 and tls error types *)
| EForeign (id : N) (msg : string).

Definition StructuredError : Type := StructuredErrorOf go_error.

(** [Error()] of types.go and of the standard wrappers. *)
Fixpoint error_string (e : go_error) : string :=
  match e with
  | ESentinel s => sentinel_msg s
  | EString msg | EWrap msg _ | EWrap2 msg _ _ => msg
  | EStructured s => "[" +:+ category_string (se_Category s) +:+ "] " +:+ se_Message s
  | EConfig e => error_string e
  | EExitCode _ e => error_string e
  | EPath msg _ | ESyscall msg _ _ | ENet msg _ _ | EDNS msg _ | ETLS msg => msg
  | EForeign _ msg => msg
  end.

(** [fmt.Errorf(prefix + ": %w", e)]. *)
Definition errorf_w (prefix : string) (e : go_error) : go_error :=
  EWrap (prefix +:+ ": " +:+ error_string e) e.

(** The pre-order walk of the error tree that [errors.Is] and [errors.As]
    make through [Unwrap]. *)
Fixpoint chain (e : go_error) : list go_error :=
  e :: match e with
       | EWrap _ e' | EConfig e' | EExitCode _ e' | EPath _ e' => chain e'
       | EWrap2 _ e1 e2 => chain e1 ++ chain e2
       | EStructured s => match se_cause s with Some e' => chain e' | None => [] end
       | ENet _ _ (Some e') => chain e'
       | _ => []
       end.

Definition errors_as {T} (proj : go_error → option T) (e : go_error) : option T :=
  head (omap proj (chain e)).

Definition errors_is (s : sentinel) (e : go_error) : bool :=
  existsb (λ e', match e' with
                 | ESentinel s' => bool_decide (s = s')
                 | ESyscall _ perm _ => bool_decide (s = OsErrPermission) && perm
                 | _ => false
                 end) (chain e).

Definition as_StructuredError (e : go_error) : option StructuredError :=
  match e with EStructured s => Some s | _ => None end.
Definition as_ExitCodeError (e : go_error) : option (Z * go_error) :=
  match e with EExitCode c e' => Some (c, e') | _ => None end.
Definition as_ConfigError (e : go_error) : option go_error :=
  match e with EConfig e' => Some e' | _ => None end.
Definition as_PathError (e : go_error) : option () :=
  match e with EPath _ _ => Some () | _ => None end.
Definition as_TLSError (e : go_error) : option () :=
  match e with ETLS _ => Some () | _ => None end.
Definition as_DNSError (e : go_error) : option () :=
  match e with EDNS _ _ => Some () | _ => None end.
(** [net.Error]: an error with [Timeout] and [Temporary]; the deadline error of
    package context and a system error number are also of that kind. *)
Definition as_NetError (e : go_error) : option bool :=
  match e with
  | ENet _ t _ | EDNS _ t | ESyscall _ _ t => Some t
  | ESentinel CtxDeadlineExceeded => Some true
  | _ => None
  end.

(** ** Exit codes (exitcode.go) *)
Definition ExitSuccess : Z := 0.
Definition ExitError : Z := 1.
Definition ExitWarning : Z := 2.
Definition ExitValidation : Z := 3.
Definition ExitAuth : Z := 4.
Definition ExitConnection : Z := 5.

Definition priorityError : Z := 2.

Definition exitCodePriority (code : Z) : option Z :=
  if code =? ExitSuccess then Some 0
  else if code =? ExitWarning then Some 1
  else if code =? ExitError then Some 2
  else if code =? ExitValidation then Some 3
  else if code =? ExitAuth then Some 4
  else if code =? ExitConnection then Some 5
  else None.

Definition ExitCodeFromCategory (category : ErrorCategory) : Z :=
  match category with
  | CategoryAuthentication | CategoryAuthorization => ExitAuth
  | CategoryConnection | CategoryTimeout => ExitConnection
  | CategoryValidation => ExitValidation
  | CategoryServer | CategoryNotFound | CategoryConflict | CategoryInternal => ExitError
  | CategoryOther _ => ExitError
  end.

Definition priority (code : Z) : Z :=
  match exitCodePriority code with Some p => p | None => priorityError end.

Definition IsHigherPriority (a b : Z) : bool := priority b <? priority a.

(** ** Classification (errors.go) *)
(** Predicates of k8s.io/apimachinery/pkg/api/errors, used as they come. *)
Class ApiErrors := {
  IsUnauthorized : go_error → bool;
  IsForbidden : go_error → bool;
  IsNotFound : go_error → bool;
  IsAlreadyExists : go_error → bool;
  IsConflict : go_error → bool;
  IsInvalid : go_error → bool;
  IsBadRequest : go_error → bool;
  IsMethodNotSupported : go_error → bool;
  IsNotAcceptable : go_error → bool;
  IsUnsupportedMediaType : go_error → bool;
  IsRequestEntityTooLargeError : go_error → bool;
  IsGone : go_error → bool;
  IsResourceExpired : go_error → bool;
  IsServerTimeout : go_error → bool;
  IsServiceUnavailable : go_error → bool;
  IsUnexpectedServerError : go_error → bool;
  IsInternalError : go_error → bool;
  IsTimeout : go_error → bool;
  IsTooManyRequests : go_error → bool;
  IsUnexpectedObjectError : go_error → bool;
  IsStoreReadError : go_error → bool;
}.

Definition suggestionAuthentication := "Refresh your kubeconfig credentials with 'oc login' or 'kubectl config'".
Definition suggestionAuthorization := "Verify your RBAC permissions for the required resources".
Definition suggestionConnection := "Check if the API server is reachable".
Definition suggestionNotFound := "Verify the resource exists in the cluster".
Definition suggestionAlreadyExists := "Resource already exists, use update or delete first".
Definition suggestionConflict := "Retry the operation (resource was modified concurrently)".
Definition suggestionValidation := "Check the request parameters and resource spec".
Definition suggestionGone := "Resource version expired, retry with a fresh list/watch".
Definition suggestionServer := "API server error, retry later".
Definition suggestionTimeout := "Increase --timeout value or retry the operation".
Definition suggestionRateLimited := "Too many requests, retry after a brief wait".
Definition suggestionRequestTooLarge := "Reduce the size of the request payload".
Definition suggestionInternal := "Unexpected error, please report a bug".
Definition suggestionCanceled := "Operation was canceled".
Definition suggestionFilePath := "Verify the file path exists and is readable (e.g. --kubeconfig)".
Definition suggestionConfig := "Check your kubeconfig: verify the --context, --cluster, and --kubeconfig flags are correct".
Definition suggestionTLS := "Verify the certificate authority bundle, check the server certificate validity, and ensure the hostname matches the certificate".
Definition suggestionDNS := "Verify the server hostname in your kubeconfig is correct and DNS is configured".
Definition suggestionPermission := "Check file and directory permissions for the target path".
Definition suggestionLintAdvisory := "Review the advisory findings before proceeding with the upgrade".
Definition suggestionLintBlocked := "Address the prohibited or blocking findings before proceeding with the upgrade".
Definition suggestionInputValidation := "Check the command arguments and flags".

Record errorEntry := mkEntry {
  ee_check : go_error → bool;
  ee_code : string;
  ee_category : ErrorCategory;
  ee_retriable : bool;
  ee_suggestion : string;
}.

Section Classification.
Context `{ApiErrors}.

Definition apiErrorTable : list errorEntry := [
  mkEntry IsUnauthorized "AUTH_FAILED" CategoryAuthentication false suggestionAuthentication;
  mkEntry IsForbidden "AUTHZ_DENIED" CategoryAuthorization false suggestionAuthorization;
  mkEntry IsNotFound "NOT_FOUND" CategoryNotFound false suggestionNotFound;
  mkEntry IsAlreadyExists "ALREADY_EXISTS" CategoryConflict false suggestionAlreadyExists;
  mkEntry IsConflict "CONFLICT" CategoryConflict true suggestionConflict;
  mkEntry IsInvalid "INVALID" CategoryValidation false suggestionValidation;
  mkEntry IsBadRequest "BAD_REQUEST" CategoryValidation false suggestionValidation;
  mkEntry IsMethodNotSupported "METHOD_NOT_SUPPORTED" CategoryValidation false suggestionValidation;
  mkEntry IsNotAcceptable "NOT_ACCEPTABLE" CategoryValidation false suggestionValidation;
  mkEntry IsUnsupportedMediaType "UNSUPPORTED_MEDIA_TYPE" CategoryValidation false suggestionValidation;
  mkEntry IsRequestEntityTooLargeError "REQUEST_TOO_LARGE" CategoryValidation false suggestionRequestTooLarge;
  mkEntry IsGone "GONE" CategoryServer true suggestionGone;
  mkEntry IsResourceExpired "RESOURCE_EXPIRED" CategoryServer true suggestionGone;
  mkEntry IsServerTimeout "SERVER_TIMEOUT" CategoryTimeout true suggestionTimeout;
  mkEntry IsServiceUnavailable "SERVER_UNAVAILABLE" CategoryServer true suggestionServer;
  mkEntry IsUnexpectedServerError "UNEXPECTED_SERVER_ERROR" CategoryServer true suggestionServer;
  mkEntry IsInternalError "SERVER_ERROR" CategoryServer true suggestionServer;
  mkEntry IsTimeout "GATEWAY_TIMEOUT" CategoryTimeout true suggestionTimeout;
  mkEntry IsTooManyRequests "RATE_LIMITED" CategoryServer true suggestionRateLimited;
  mkEntry IsUnexpectedObjectError "UNEXPECTED_OBJECT" CategoryServer false suggestionServer;
  mkEntry IsStoreReadError "STORE_READ_ERROR" CategoryServer true suggestionServer ].

Definition isDeadlineExceeded (err : go_error) : bool := errors_is CtxDeadlineExceeded err.
Definition isContextCanceled (err : go_error) : bool := errors_is CtxCanceled err.
Definition isFilesystemError (err : go_error) : bool := bool_decide (is_Some (errors_as as_PathError err)).
Definition isConfigError (err : go_error) : bool := bool_decide (is_Some (errors_as as_ConfigError err)).
Definition isNetworkError (err : go_error) : bool := bool_decide (is_Some (errors_as as_NetError err)).
Definition isTLSError (err : go_error) : bool := bool_decide (is_Some (errors_as as_TLSError err)).
Definition isDNSError (err : go_error) : bool := bool_decide (is_Some (errors_as as_DNSError err)).
Definition isPermissionError (err : go_error) : bool := errors_is OsErrPermission err.
Definition isNetworkTimeout (err : go_error) : bool :=
  match errors_as as_NetError err with Some timeout => timeout | None => false end.

Definition localErrorTable : list errorEntry := [
  mkEntry isDeadlineExceeded "TIMEOUT" CategoryTimeout true suggestionTimeout;
  mkEntry isContextCanceled "CANCELED" CategoryInternal false suggestionCanceled;
  mkEntry isPermissionError "PERMISSION_DENIED" CategoryValidation false suggestionPermission;
  mkEntry isFilesystemError "CONFIG_INVALID" CategoryValidation false suggestionFilePath;
  mkEntry isConfigError "CONFIG_INVALID" CategoryValidation false suggestionConfig;
  mkEntry isTLSError "TLS_CERT_INVALID" CategoryAuthentication false suggestionTLS;
  mkEntry isDNSError "DNS_FAILED" CategoryConnection true suggestionDNS;
  mkEntry isNetworkTimeout "NET_TIMEOUT" CategoryTimeout true suggestionTimeout;
  mkEntry isNetworkError "CONN_FAILED" CategoryConnection true suggestionConnection ].

Fixpoint matchEntry (table : list errorEntry) (err : go_error) : option StructuredError :=
  match table with
  | [] => None
  | entry :: rest =>
      if ee_check entry err then
        Some {| se_Code := ee_code entry; se_Message := error_string err;
                se_Category := ee_category entry;
                se_ExitCode := ExitCodeFromCategory (ee_category entry);
                se_Retriable := ee_retriable entry;
                se_Suggestion := ee_suggestion entry; se_cause := Some err |}
      else matchEntry rest err
  end.

Definition mkClassified (code : string) (err : go_error) (category : ErrorCategory)
    (exitCode : Z) (retriable : bool) (suggestion : string) : StructuredError :=
  {| se_Code := code; se_Message := error_string err; se_Category := category;
     se_ExitCode := exitCode; se_Retriable := retriable;
     se_Suggestion := suggestion; se_cause := Some err |}.

Definition classifyFromExitCode (code : Z) (err : go_error) : StructuredError :=
  let internal := mkClassified "INTERNAL" err CategoryInternal ExitError false suggestionInternal in
  if code =? ExitWarning then
    mkClassified "LINT_ADVISORY" err CategoryValidation ExitWarning false suggestionLintAdvisory
  else if code =? ExitValidation then
    mkClassified "VALIDATION_FAILED" err CategoryValidation ExitValidation false suggestionInputValidation
  else if code =? ExitAuth then
    mkClassified "AUTH_FAILED" err CategoryAuthentication ExitAuth false suggestionAuthentication
  else if code =? ExitConnection then
    mkClassified "CONN_FAILED" err CategoryConnection ExitConnection true suggestionConnection
  else if code =? ExitError then
    if errors_is ErrLintBlocked err then
      mkClassified "LINT_BLOCKED" err CategoryValidation ExitError false suggestionLintBlocked
    else internal
  else internal.

(** The body of [Classify] for a non-nil error. *)
Definition classify_err (err : go_error) : StructuredError :=
  match errors_as as_StructuredError err with
  | Some structuredErr => structuredErr
  | None =>
  match matchEntry apiErrorTable err with
  | Some result => result
  | None =>
  match matchEntry localErrorTable err with
  | Some result => result
  | None =>
  match errors_as as_ExitCodeError err with
  | Some (code, _) => classifyFromExitCode code err
  | None => mkClassified "INTERNAL" err CategoryInternal
              (ExitCodeFromCategory CategoryInternal) false suggestionInternal
  end end end end.

Definition Classify (err : option go_error) : option StructuredError := classify_err <$> err.

Definition ExitCodeFromError (err : option go_error) : Z :=
  match err with
  | None => ExitSuccess
  | Some err =>
      match errors_as as_ExitCodeError err with
      | Some (code, _) => code
      | None =>
          match errors_as as_StructuredError err with
          | Some structErr =>
              if negb (se_ExitCode structErr =? 0) then se_ExitCode structErr
              else ExitCodeFromCategory (se_Category structErr)
          | None => ExitCodeFromCategory (se_Category (classify_err err))
          end
      end
  end.

(** *** types.go *)
Definition NewAlreadyHandledError (err : go_error) : go_error :=
  EWrap2 (sentinel_msg ErrAlreadyHandled +:+ ": " +:+ error_string err) (ESentinel ErrAlreadyHandled) err.

Definition NewConfigError (err : go_error) : go_error := EConfig err.

Definition NewValidationError (code message suggestion : string) : StructuredError :=
  {| se_Code := code; se_Message := message; se_Category := CategoryValidation;
     se_ExitCode := 0; se_Retriable := false; se_Suggestion := suggestion; se_cause := None |}.

Definition NewExitCodeError (code : Z) (err : option go_error) : option go_error :=
  match err with None => None | Some e => Some (EExitCode code e) end.

(** *** common.go *)
Definition classifyOrWrap (err : go_error) (code context suggestion : string)
    (category : ErrorCategory) (retriable : bool) : StructuredError :=
  match Classify (Some err) with
  | Some classified =>
      {| se_Code := se_Code classified;
         se_Message := context +:+ ": " +:+ se_Message classified;
         se_Category := se_Category classified; se_ExitCode := se_ExitCode classified;
         se_Retriable := se_Retriable classified; se_Suggestion := se_Suggestion classified;
         se_cause := se_cause classified |}
  | None =>
      {| se_Code := code; se_Message := context +:+ ": " +:+ error_string err;
         se_Category := category; se_ExitCode := 0; se_Retriable := retriable;
         se_Suggestion := suggestion; se_cause := None |}
  end.

Definition ErrConfigFailed (err : go_error) : StructuredError :=
  classifyOrWrap err "CONFIG_FAILED" "failed to create REST config"
    "Verify your kubeconfig is valid and the cluster is reachable" CategoryValidation false.
Definition ErrClientFailed (err : go_error) : StructuredError :=
  classifyOrWrap err "CLIENT_FAILED" "failed to create Kubernetes client"
    "Ensure the cluster is running and accessible" CategoryConnection true.
Definition ErrNamespaceFailed (err : go_error) : StructuredError :=
  classifyOrWrap err "NAMESPACE_FAILED" "failed to determine namespace from kubeconfig"
    "Verify your kubeconfig is valid and the cluster is reachable" CategoryValidation false.
Definition ErrDSCIFailed (err : go_error) : StructuredError :=
  classifyOrWrap err "DSCI_FAILED" "failed to get DSCInitialization"
    "Ensure ODH/RHOAI is properly installed" CategoryInternal true.

(** *** output.go: the error value the JSON/YAML envelope carries, and
    whether an error was written (both marshallers succeed). *)
Definition structuredFor (err : go_error) : StructuredError :=
  match errors_as as_StructuredError err with Some s => s | None => classify_err err end.

Definition WriteStructuredError (err : option go_error) (format : string) : option StructuredError :=
  match err with
  | None => None
  | Some err =>
      if String.eqb format "json" || String.eqb format "yaml" then Some (structuredFor err) else None
  end.

Definition newline : string := String (Ascii.ascii_of_nat 10) "".

Definition WriteTextError (err : option go_error) : option string :=
  match err with
  | None => None
  | Some err => let s := structuredFor err in
      Some (se_Message s +:+ newline +:+ "Suggestion: " +:+ se_Suggestion s +:+ newline)
  end.

(** [HandleError]: what is written to stderr and the error that is returned. *)
Definition HandleError (err : option go_error) (outputFormat : string)
    : option ((StructuredError + option string) * go_error) :=
  match err with
  | None => None
  | Some e =>
      match WriteStructuredError err outputFormat with
      | Some s => Some (inl s, NewAlreadyHandledError e)
      | None => Some (inr (WriteTextError err), NewAlreadyHandledError e)
      end
  end.
End Classification.

(** ** Lemmas on error trees *)
Lemma chain_unfold_head e : head (chain e) = Some e.
Proof. by destruct e. Qed.

Lemma head_omap_app {A B} (f : A → option B) l1 l2 :
  head (omap f (l1 ++ l2)%list) =
  match head (omap f l1) with Some x => Some x | None => head (omap f l2) end.
Proof. induction l1 as [|x l1 IH]; simpl; [done|]. by destruct (f x). Qed.

Lemma errors_as_wrap {T} (p : go_error → option T) msg e :
  p (EWrap msg e) = None → errors_as p (EWrap msg e) = errors_as p e.
Proof. intros Hp. unfold errors_as. simpl. by rewrite Hp. Qed.

Lemma errors_as_wrap2 {T} (p : go_error → option T) msg e1 e2 :
  p (EWrap2 msg e1 e2) = None →
  errors_as p (EWrap2 msg e1 e2) =
    match errors_as p e1 with Some x => Some x | None => errors_as p e2 end.
Proof. intros Hp. unfold errors_as. simpl. rewrite Hp. apply head_omap_app. Qed.

Lemma errors_as_handled {T} (p : go_error → option T) e :
  (∀ msg e1 e2, p (EWrap2 msg e1 e2) = None) → p (ESentinel ErrAlreadyHandled) = None →
  errors_as p (NewAlreadyHandledError e) = errors_as p e.
Proof.
  intros H1 H2. unfold NewAlreadyHandledError. rewrite errors_as_wrap2 by done.
  unfold errors_as at 1. simpl. by rewrite H2.
Qed.

Lemma errors_is_handled e : errors_is ErrAlreadyHandled (NewAlreadyHandledError e) = true.
Proof. reflexivity. Qed.

(** ** Lemmas on exit codes *)
Definition known_code (c : Z) : Prop :=
  c = ExitSuccess ∨ c = ExitError ∨ c = ExitWarning ∨ c = ExitValidation ∨
  c = ExitAuth ∨ c = ExitConnection.

Lemma ExitCodeFromCategory_known c : known_code (ExitCodeFromCategory c) ∧ ExitCodeFromCategory c ≠ 0.
Proof. unfold known_code. destruct c; vm_compute; intuition discriminate. Qed.

Lemma priority_known_inj a b : known_code a → known_code b → priority a = priority b → a = b.
Proof.
  unfold known_code. intros Ha Hb; intuition subst; vm_compute in *; congruence.
Qed.

Lemma priority_bounds c : 0 <= priority c <= 5.
Proof.
  unfold priority, exitCodePriority, priorityError.
  repeat case_match; simplify_eq; lia.
Qed.

Lemma priority_zero c : priority c = 0 → c = ExitSuccess.
Proof.
  unfold priority, exitCodePriority, priorityError.
  destruct (Z.eqb_spec c ExitSuccess); [done|]. repeat case_match; simplify_eq; lia.
Qed.

Lemma IsHigherPriority_spec a b : IsHigherPriority a b = true ↔ priority b < priority a.
Proof. unfold IsHigherPriority. apply Z.ltb_lt. Qed.

#[export] Hint Rewrite @errors_as_handled using done : go_errors.

Section ClassificationLemmas.
Context `{ApiErrors}.

Lemma matchEntry_Some table err s :
  matchEntry table err = Some s →
  ∃ entry, entry ∈ table ∧ ee_check entry err = true ∧
    se_Code s = ee_code entry ∧ se_Category s = ee_category entry ∧
    se_ExitCode s = ExitCodeFromCategory (ee_category entry) ∧
    se_Message s = error_string err ∧ se_cause s = Some err.
Proof.
  induction table as [|entry table IH]; simpl; [done|].
  destruct (ee_check entry err) eqn:Hc.
  - intros [= <-]. exists entry. simpl. by repeat split; [left|..].
  - intros Hm. destruct (IH Hm) as (en & Hin & Hrest). exists en. split; [by right|done].
Qed.

(** The first matching entry of the table decides. *)
Lemma matchEntry_first l1 entry l2 err :
  Forall (λ en, ee_check en err = false) l1 → ee_check entry err = true →
  ∃ s, matchEntry (l1 ++ entry :: l2)%list err = Some s ∧
    se_Code s = ee_code entry ∧ se_Category s = ee_category entry.
Proof.
  induction 1 as [|en l1 Hen _ IH]; simpl; intros Hc.
  - rewrite Hc. eauto.
  - rewrite Hen. auto.
Qed.

Lemma classify_err_structured err s :
  errors_as as_StructuredError err = Some s → classify_err err = s.
Proof. unfold classify_err. by intros ->. Qed.

Lemma classifyFromExitCode_exit c err :
  known_code c → c ≠ ExitSuccess → se_ExitCode (classifyFromExitCode c err) = c.
Proof.
  unfold known_code. intros Hc Hs. intuition subst; try done.
  unfold classifyFromExitCode. simpl. by destruct (errors_is ErrLintBlocked err).
Qed.

Lemma ExitCodeFromError_exit c err :
  ExitCodeFromError (Some (EExitCode c err)) = c.
Proof. reflexivity. Qed.

Lemma ExitCodeFromError_handled c err :
  errors_as as_ExitCodeError err = Some c →
  ExitCodeFromError (Some (NewAlreadyHandledError err)) = ExitCodeFromError (Some err).
Proof.
  intros He. unfold ExitCodeFromError. by rewrite errors_as_handled, He by done.
Qed.
End ClassificationLemmas.

(** A table of predicates for concrete runs: [EForeign n] is the n-th API
    error of [apiErrorTable], and wrappers are looked through. *)
Definition foreign_is (n : N) (e : go_error) : bool :=
  existsb (λ e', match e' with EForeign m _ => bool_decide (m = n) | _ => false end) (chain e).

Definition concrete_ApiErrors : ApiErrors := {|
  IsUnauthorized := foreign_is 0; IsForbidden := foreign_is 1; IsNotFound := foreign_is 2;
  IsAlreadyExists := foreign_is 3; IsConflict := foreign_is 4; IsInvalid := foreign_is 5;
  IsBadRequest := foreign_is 6; IsMethodNotSupported := foreign_is 7;
  IsNotAcceptable := foreign_is 8; IsUnsupportedMediaType := foreign_is 9;
  IsRequestEntityTooLargeError := foreign_is 10; IsGone := foreign_is 11;
  IsResourceExpired := foreign_is 12; IsServerTimeout := foreign_is 13;
  IsServiceUnavailable := foreign_is 14; IsUnexpectedServerError := foreign_is 15;
  IsInternalError := foreign_is 16; IsTimeout := foreign_is 17;
  IsTooManyRequests := foreign_is 18; IsUnexpectedObjectError := foreign_is 19;
  IsStoreReadError := foreign_is 20 |}.

(** ** Properties *)
Module ErrorsSpec.
(** For an error that carries neither a StructuredError nor an exit-code
    wrapper, the [exitCode] field of the classified error is the code the
    process exits with, it is one of the documented codes and it is not the
    success code. *)
Theorem classify_exit_code_agrees `{ApiErrors} (err : go_error) :
  errors_as as_StructuredError err = None →
  errors_as as_ExitCodeError err = None →
  se_ExitCode (structuredFor err) = ExitCodeFromError (Some err) ∧
  known_code (ExitCodeFromError (Some err)) ∧
  ExitCodeFromError (Some err) ≠ ExitSuccess.
Proof.
  intros Hs He. unfold ExitCodeFromError, structuredFor. rewrite He, Hs.
  assert (se_ExitCode (classify_err err) = ExitCodeFromCategory (se_Category (classify_err err))) as Heq.
  { unfold classify_err. rewrite Hs, He.
    destruct (matchEntry apiErrorTable err) as [s|] eqn:Ha.
    { apply matchEntry_Some in Ha as (en & _ & _ & _ & -> & -> & _). done. }
    destruct (matchEntry localErrorTable err) as [s|] eqn:Hl; [|done].
    apply matchEntry_Some in Hl as (en & _ & _ & _ & -> & -> & _). done. }
  split; [exact Heq|apply ExitCodeFromCategory_known].
Qed.

Lemma classify_exit_code_agrees_witness :
  let err := errorf_w "listing pods" (EForeign 1 "forbidden") in
  (errors_as as_StructuredError err = None ∧ errors_as as_ExitCodeError err = None) ∧
  se_ExitCode (@structuredFor concrete_ApiErrors err) = @ExitCodeFromError concrete_ApiErrors (Some err) ∧
  known_code (@ExitCodeFromError concrete_ApiErrors (Some err)) ∧
  @ExitCodeFromError concrete_ApiErrors (Some err) ≠ ExitSuccess.
Proof.
  split; [by split|]. apply (@classify_exit_code_agrees concrete_ApiErrors); reflexivity.
Defined.

(** Every error built by [NewValidationError] makes the process exit with
    the validation code, while the envelope written for [-o json] and
    [-o yaml] carries exit code 0: the two channels disagree. *)
Theorem validation_error_envelope_says_zero `{ApiErrors} (code message suggestion : string) :
  let err := EStructured (NewValidationError code message suggestion) in
  ExitCodeFromError (Some err) = ExitValidation ∧
  se_ExitCode <$> WriteStructuredError (Some err) "json" = Some 0 ∧
  se_ExitCode <$> WriteStructuredError (Some err) "yaml" = Some 0.
Proof. done. Qed.

(** The fallback of [classifyOrWrap] is unreachable: the code, category
    and suggestion its callers pass never reach the result, which is always
    the classification of the cause with a prefixed message. *)
Theorem classifyOrWrap_ignores_fallback `{ApiErrors} err ctx
    code1 sugg1 cat1 retr1 code2 sugg2 cat2 retr2 :
  classifyOrWrap err code1 ctx sugg1 cat1 retr1 = classifyOrWrap err code2 ctx sugg2 cat2 retr2 ∧
  se_Code (classifyOrWrap err code1 ctx sugg1 cat1 retr1) = se_Code (classify_err err).
Proof. done. Qed.

(** The exit-code precedence is a strict weak order on all codes that is
    total on the documented ones, and nothing but success has the lowest
    priority. *)
Theorem exit_priority_order :
  StrictWeak (λ a b, IsHigherPriority b a) ∧
  (∀ a b, known_code a → known_code b → a ≠ b →
    IsHigherPriority a b = true ∨ IsHigherPriority b a = true) ∧
  (∀ c, c ≠ ExitSuccess → IsHigherPriority c ExitSuccess = true).
Proof.
  split; [split; intros *; unfold IsHigherPriority; rewrite ?Z.ltb_lt, ?Z.ltb_ge; lia|].
  split.
  - intros a b Ha Hb Hne. rewrite !IsHigherPriority_spec.
    assert (priority a ≠ priority b) by (intros Heq; by apply Hne, priority_known_inj). lia.
  - intros c Hc. apply IsHigherPriority_spec.
    pose proof (priority_bounds c). pose proof (priority_zero c).
    change (priority ExitSuccess) with 0.
    destruct (decide (priority c = 0)); [naive_solver|lia].
Qed.
End ErrorsSpec.
