(* ===== verification/Client.v ===== *)
(** * Client: pkg/resources/types.go, pkg/util/jq and pkg/util/client

    The reader every command goes through: resource types, the jq wrapper,
    paginated listing, the degradation of permission errors, singletons with
    API-version fallback, and the discovery of the operator namespace.

    The API server, gojq and k8s.io/apimachinery are parameters: [ApiServer]
    answers single requests, [GoJq] runs a parsed query, [ApiErrors]/[K8sErrors]
    classify errors. *)
From S2P Require Import Prelude Errors.
Open Scope string_scope.
Open Scope Z_scope.
Open Scope go_scope.

(** ** Resource types (pkg/resources/types.go) *)
Record ResourceType := mkResourceType {
  rt_Group : string;
  rt_Version : string;
  rt_Kind : string;
  rt_Resource : string;
}.

Definition CRDFQN (r : ResourceType) : string :=
  if String.eqb (rt_Group r) "" then rt_Resource r
  else rt_Resource r +:+ "." +:+ rt_Group r.

Definition ListKind (r : ResourceType) : string := rt_Kind r +:+ "List".

Definition APIVersion (r : ResourceType) : string :=
  if String.eqb (rt_Group r) "" then rt_Version r
  else rt_Group r +:+ "/" +:+ rt_Version r.

Record TypeMeta := mkTypeMeta { tm_APIVersion : string; tm_Kind : string }.

Definition ResourceType_TypeMeta (r : ResourceType) : TypeMeta :=
  {| tm_APIVersion := APIVersion r; tm_Kind := rt_Kind r |}.

Definition DataScienceCluster : ResourceType :=
  mkResourceType "datasciencecluster.opendatahub.io" "v2" "DataScienceCluster" "datascienceclusters".
Definition DataScienceClusterV1 : ResourceType :=
  mkResourceType "datasciencecluster.opendatahub.io" "v1" "DataScienceCluster" "datascienceclusters".
Definition DSCInitialization : ResourceType :=
  mkResourceType "dscinitialization.opendatahub.io" "v2" "DSCInitialization" "dscinitializations".
Definition DSCInitializationV1 : ResourceType :=
  mkResourceType "dscinitialization.opendatahub.io" "v1" "DSCInitialization" "dscinitializations".

(** ** Unstructured objects and the jq wrapper (pkg/util/jq/jq.go) *)
Inductive json :=
| JNull
| JBool (b : bool)
| JNum (n : Z)
| JStr (s : string)
| JArr (l : list json)
| JObj (fields : list (string * json)).

(** What gojq does with a query: a parse error, or the first result of the run. *)
Inductive jq_first :=
| JqParseError (e : go_error)
| JqNoResult
| JqRunError (e : go_error)
| JqValue (v : json).

Class GoJq := { gojq_run : json → string → jq_first }.

Definition jq_Query_string `{GoJq} (value : json) (query : string) : res go_error string :=
  match gojq_run value query with
  | JqParseError e => Err (errorf_w "failed to parse jq query" e)
  | JqNoResult => Ok ""
  | JqRunError e => Err (errorf_w "jq query error" e)
  | JqValue JNull => Err (ESentinel JqErrNotFound)
  | JqValue (JStr s) => Ok s
  | JqValue _ => Err (EString "unmarshaling to type string: json: cannot unmarshal value into Go value of type string")
  end.

(** ** Errors of the API machinery *)
Class K8sErrors := {
  NewNotFound (group resource name : string) : go_error;
  IsNoMatchError : go_error → bool;
}.

(** Documented behaviour: [IsNotFound] recognises [NewNotFound] and looks
    through [%w] wrappers. *)
Class K8sLaws `{AE : ApiErrors, KE : K8sErrors} : Prop := {
  IsNotFound_new g r n : IsNotFound (NewNotFound g r n) = true;
  IsNotFound_wrap msg e : IsNotFound (EWrap msg e) = IsNotFound e;
  IsNotFound_string msg : IsNotFound (EString msg) = false;
  IsNoMatchError_string msg : IsNoMatchError (EString msg) = false;
}.

(** util/client/errors.go *)
Section ClientErrors.
Context `{AE : ApiErrors, KE : K8sErrors}.

Definition IsUnrecoverableError (err : go_error) : bool :=
  IsForbidden err || IsUnauthorized err || IsInvalid err ||
  IsMethodNotSupported err || IsNotAcceptable err.

Definition IsResourceTypeNotFound (err : go_error) : bool := IsNoMatchError err || IsNotFound err.

Definition IsPermissionError (err : go_error) : bool := IsForbidden err || IsUnauthorized err.
End ClientErrors.

(** ** The reader (helpers.go) *)
Record ListOptions := {
  lo_Namespace : string;
  lo_LabelSelector : string;
  lo_FieldSelector : string;
  lo_Limit : Z;
}.

Definition defaultListOptions : ListOptions :=
  {| lo_Namespace := ""; lo_LabelSelector := ""; lo_FieldSelector := ""; lo_Limit := 0 |}.

Class ApiServer := {
  (** one list request; the answer carries a continue token *)
  srv_list : ResourceType → ListOptions → string → res go_error (list json * string);
  srv_get : ResourceType → string → string → res go_error json;
  (** the resource lists of the discovery endpoint, if the client has one:
      group/version and number of resources *)
  srv_discovery : option (option (list (string * nat)));
}.

Section Reader.
Context `{AE : ApiErrors, KE : K8sErrors, SRV : ApiServer, JQ : GoJq}.

(** The loop of [ListResources]; [fuel] bounds the number of requests. *)
Fixpoint list_loop (fuel : nat) (rt : ResourceType) (cfg : ListOptions)
    (allItems : list json) (continueToken : string) : option (res go_error (list json)) :=
  match fuel with
  | O => None
  | S fuel' =>
      match srv_list rt cfg continueToken with
      | Panic s => Some (Panic s)
      | Err err =>
          if IsPermissionError err then Some (Ok [])
          else Some (Err (errorf_w "listing resources" err))
      | Ok (items, continue) =>
          let allItems := (allItems ++ items)%list in
          if (0 <? lo_Limit cfg) && (lo_Limit cfg <=? Z.of_nat (length allItems)) then Some (Ok allItems)
          else if String.eqb continue "" then Some (Ok allItems)
          else list_loop fuel' rt cfg allItems continue
      end
  end.

Definition ListResources (fuel : nat) (rt : ResourceType) (cfg : ListOptions) : option (res go_error (list json)) :=
  list_loop fuel rt cfg [] "".

(** [Get]: permission errors are non-fatal and give a nil object. *)
Definition Get (rt : ResourceType) (name namespace : string) : res go_error (option json) :=
  match srv_get rt namespace name with
  | Ok resource => Ok (Some resource)
  | Panic s => Panic s
  | Err err =>
      if IsPermissionError err then Ok None else Err (errorf_w "getting resource" err)
  end.

(** Listing without options, as the singletons use it. *)
Context (List : ResourceType → res go_error (list json)).

Definition GetSingleton (rt : ResourceType) : res go_error json :=
  try! items := List rt else errorf_w ("listing " +:+ rt_Kind rt +:+ " resources") in
  match items with
  | [] => Err (NewNotFound (rt_Group rt) (rt_Resource rt) "")
  | [item] => Ok item
  | _ => Err (EString ("expected single " +:+ rt_Kind rt +:+ " resource, found " +:+
                       itoa (Z.of_nat (length items))))
  end.

Definition hasGroupVersion (disc : option (list (string * nat))) (rt : ResourceType) : bool :=
  match disc with
  | None => false
  | Some lists =>
      let target := rt_Group rt +:+ "/" +:+ rt_Version rt in
      match find (λ l, String.eqb l.1 target) lists with
      | Some l => (0 <? l.2)%nat
      | None => false
      end
  end.

(** [tryGetV2Singleton]: the object, or the decision to fall back to v1. *)
Definition tryGetV2Singleton (disc : option (list (string * nat))) (v2Resource : ResourceType)
    : res go_error (option json) :=
  if negb (hasGroupVersion disc v2Resource) then Ok None
  else match GetSingleton v2Resource with
       | Ok obj => Ok (Some obj)
       | Panic s => Panic s
       | Err err =>
           if IsResourceTypeNotFound err then Ok None
           else Err (errorf_w "getting v2 singleton" err)
       end.

Definition getSingletonWithDiscovery (v2Resource v1Resource : ResourceType) : res go_error json :=
  match srv_discovery with
  | None => GetSingleton v2Resource
  | Some disc =>
      try! obj := tryGetV2Singleton disc v2Resource
        else errorf_w ("getting " +:+ rt_Kind v2Resource +:+ " (v2)") in
      match obj with
      | Some obj => Ok obj
      | None =>
          res_map_err (errorf_w ("getting " +:+ rt_Kind v1Resource +:+ " (v1)")) (GetSingleton v1Resource)
      end
  end.

Definition GetDataScienceCluster : res go_error json :=
  getSingletonWithDiscovery DataScienceCluster DataScienceClusterV1.

Definition GetDSCInitialization : res go_error json :=
  getSingletonWithDiscovery DSCInitialization DSCInitializationV1.

Definition namespaceNotFound : go_error :=
  NewNotFound "" "applicationsNamespace" "spec.applicationsNamespace".

Definition GetApplicationsNamespace : res go_error string :=
  let! dsci := GetDSCInitialization in
  match jq_Query_string dsci ".spec.applicationsNamespace" with
  | Panic s => Panic s
  | Err err =>
      if errors_is JqErrNotFound err then Err namespaceNotFound
      else Err (errorf_w "querying applicationsNamespace" err)
  | Ok namespace => if String.eqb namespace "" then Err namespaceNotFound else Ok namespace
  end.

Record DSCINamespaces := { dn_Applications : string; dn_Monitoring : string }.

(** A query whose absence counts as the empty string. *)
Definition optional_query (obj : json) (query what : string) : res go_error string :=
  match jq_Query_string obj query with
  | Err err => if errors_is JqErrNotFound err then Ok ""
               else Err (errorf_w ("querying " +:+ what) err)
  | r => r
  end.

Definition GetDSCINamespaces : res go_error DSCINamespaces :=
  let! dsci := GetDSCInitialization in
  let! appNS := optional_query dsci ".spec.applicationsNamespace" "applicationsNamespace" in
  let! monNS := optional_query dsci ".spec.monitoring.namespace" "monitoring namespace" in
  Ok {| dn_Applications := appNS;
        dn_Monitoring := if String.eqb monNS "" then appNS else monNS |}.
End Reader.

(** ** Operator discovery (discovery.go) *)
Record OperatorInfo := { oi_Namespace : string; oi_DeploymentName : string }.

(** The parts of a ClusterServiceVersion the discovery reads. *)
Record CSV := {
  csv_Name : string;
  csv_Namespace : string;
  csv_Labels : gmap string string;
  csv_Deployments : list string;
}.

Definition Deployment : ResourceType := mkResourceType "apps" "v1" "Deployment" "deployments".
Definition operatorDeploymentNames : list string :=
  ["rhods-operator"; "opendatahub-operator-controller-manager"].
Definition operatorNamespaces : list string :=
  ["redhat-ods-operator"; "opendatahub"; "openshift-operators"].

Definition ErrOperatorNamespaceNotFound : StructuredError :=
  {| se_Code := "NOT_FOUND"; se_Message := "could not discover operator namespace";
     se_Category := CategoryNotFound; se_ExitCode := 0; se_Retriable := false;
     se_Suggestion := "Use --operator-namespace to specify the operator namespace";
     se_cause := None |}.

Section OperatorDiscovery.
Context `{AE : ApiErrors, KE : K8sErrors}.
(** [c.GetResource(ctx, resources.Deployment, name, InNamespace(ns))] *)
Context (GetResource : ResourceType → string → string → res go_error (option json)).
(** [c.OLM()]: availability and the list of CSVs of all namespaces *)
Context (olmAvailable : bool) (listCSVs : res go_error (list CSV)).

Definition isOperatorCSV (csv : CSV) : bool :=
  has_prefix "rhods-operator." (csv_Name csv) || has_prefix "opendatahub-operator." (csv_Name csv).

Definition operatorInfoOf (csv : CSV) : OperatorInfo :=
  {| oi_Namespace := match csv_Labels csv !! "olm.copiedFrom" with
                     | Some copiedFrom => if String.eqb copiedFrom "" then csv_Namespace csv else copiedFrom
                     | None => csv_Namespace csv
                     end;
     oi_DeploymentName := match csv_Deployments csv with d :: _ => d | [] => "" end |}.

Definition DiscoverOperatorFromOLM : res go_error (option OperatorInfo) :=
  if negb olmAvailable then Ok None
  else match listCSVs with
       | Panic s => Panic s
       | Err err => if IsNotFound err then Ok None
                    else Err (errorf_w "listing ClusterServiceVersions" err)
       | Ok items => Ok (operatorInfoOf <$> find isOperatorCSV items)
       end.

(** The nested loops over namespaces and deployment names: the namespace of
    the first request without error, or the first error that is not
    NotFound, classified. *)
Fixpoint probe (targets : list (string * string)) (firstErr : option go_error) : res (option go_error) string :=
  match targets with
  | [] => Err firstErr
  | (ns, name) :: rest =>
      match GetResource Deployment name ns with
      | Ok _ => Ok ns
      | Panic s => Panic s
      | Err err =>
          let firstErr' :=
            if negb (IsNotFound err) && bool_decide (firstErr = None)
            then Some (match Classify (Some err) with Some c => EStructured c | None => err end)
            else firstErr in
          probe rest firstErr'
      end
  end.

Definition probeTargets : list (string * string) :=
  flat_map (λ ns, map (λ name, (ns, name)) operatorDeploymentNames) operatorNamespaces.

Definition discoverOperatorNamespaceFromDefaults : res go_error string :=
  match probe probeTargets None with
  | Ok ns => Ok ns
  | Panic s => Panic s
  | Err (Some e) => Err e
  | Err None => Err (EStructured ErrOperatorNamespaceNotFound)
  end.

Definition DiscoverOperatorNamespace : res go_error string :=
  match discoverOperatorNamespaceFromDefaults with
  | Ok ns => Ok ns
  | Panic s => Panic s
  | Err defaultsErr =>
      let! info := DiscoverOperatorFromOLM in
      match info with
      | Some i => if String.eqb (oi_Namespace i) "" then Err defaultsErr else Ok (oi_Namespace i)
      | None => Err defaultsErr
      end
  end.

Definition DiscoverOperatorNamespaceWithInfo (info : option OperatorInfo) : res go_error string :=
  match info with
  | Some i => if String.eqb (oi_Namespace i) "" then discoverOperatorNamespaceFromDefaults
              else Ok (oi_Namespace i)
  | None => discoverOperatorNamespaceFromDefaults
  end.
End OperatorDiscovery.

(** ** CRD helpers (helpers.go) *)
Record CRD := {
  crd_Group : string;
  crd_Plural : string;
  crd_Versions : list (string * bool); (* name, storage *)
  crd_Conditions : list (string * string); (* type, status *)
}.

Definition crdToGVR (crd : CRD) : string * string * string :=
  let version := match find snd (crd_Versions crd) with Some v => v.1 | None => "" end in
  (crd_Group crd, version, crd_Plural crd).

Definition isCRDEstablished (crd : CRD) : bool :=
  match find (λ c, String.eqb c.1 "Established") (crd_Conditions crd) with
  | Some c => String.eqb c.2 "True"
  | None => false
  end.

Definition DiscoverGVRs (listCRDs : res go_error (list CRD)) : res go_error (list (string * string * string)) :=
  try! items := listCRDs else errorf_w "failed to list CRDs" in
  Ok (map crdToGVR (List.filter isCRDEstablished items)).

(** ** Lemmas *)
Section ReaderLemmas.
Context `{AE : ApiErrors, KE : K8sErrors, SRV : ApiServer, JQ : GoJq}.

(** [pages_from rt cfg tok pages]: the server answers the request with
    continue token [tok], and those that follow, with [pages]. *)
Inductive pages_from (rt : ResourceType) (cfg : ListOptions) : string → list (list json) → Prop :=
| pages_last tok items :
    srv_list rt cfg tok = Ok (items, "") → pages_from rt cfg tok [items]
| pages_more tok items c rest :
    srv_list rt cfg tok = Ok (items, c) → c ≠ "" →
    pages_from rt cfg c rest → pages_from rt cfg tok (items :: rest).

(** The pages a limit lets through: up to the one that reaches it. *)
Fixpoint limited (limit seen : Z) (pages : list (list json)) : list (list json) :=
  match pages with
  | [] => []
  | p :: ps =>
      let seen := seen + Z.of_nat (length p) in
      if (0 <? limit) && (limit <=? seen) then [p] else p :: limited limit seen ps
  end.

Lemma list_loop_pages fuel rt cfg acc tok pages :
  pages_from rt cfg tok pages → (length pages ≤ fuel)%nat →
  list_loop fuel rt cfg acc tok =
    Some (Ok (acc ++ concat (limited (lo_Limit cfg) (Z.of_nat (length acc)) pages))%list).
Proof.
  intros Hp. revert fuel acc. induction Hp as [tok items Hs|tok items c rest Hs Hc Hp IH];
    intros fuel acc Hf; (destruct fuel as [|fuel]; [simpl in Hf; lia|]); simpl; rewrite Hs.
  - rewrite length_app, Nat2Z.inj_add. case_match; simpl; by rewrite app_nil_r.
  - rewrite length_app, Nat2Z.inj_add.
    destruct ((0 <? lo_Limit cfg) && (lo_Limit cfg <=? Z.of_nat (length acc) + Z.of_nat (length items))) eqn:Hl.
    + simpl. by rewrite app_nil_r.
    + rewrite (proj2 (String.eqb_neq c "") Hc), IH by (simpl in Hf; lia).
      rewrite length_app, Nat2Z.inj_add. simpl. by rewrite app_assoc.
Qed.

Lemma ListResources_pages fuel rt cfg pages :
  pages_from rt cfg "" pages → (length pages ≤ fuel)%nat →
  ListResources fuel rt cfg = Some (Ok (concat (limited (lo_Limit cfg) 0 pages))).
Proof. apply list_loop_pages. Qed.

Lemma limited_none limit seen pages : limit <= 0 → limited limit seen pages = pages.
Proof.
  intros Hl. revert seen. induction pages as [|p ps IH]; intros seen; simpl; [done|].
  rewrite (proj2 (Z.ltb_ge 0 limit)) by done. simpl. by rewrite IH.
Qed.

(** The pages do not straddle the limit: all of them together stay within it,
    or one of them ends at it, as the first one does when the server fills its
    pages up to the limit it is sent. *)
Definition fits (limit : Z) (pages : list (list json)) : Prop :=
  Z.of_nat (length (concat pages)) <= limit ∨
  ∃ pre post, pages = (pre ++ post)%list ∧ Z.of_nat (length (concat pre)) = limit.
Lemma full_page_fits limit p pages :
  Z.of_nat (length p) = limit ∨ (pages = [] ∧ Z.of_nat (length p) <= limit) → fits limit (p :: pages).
Proof.
  intros [Hp|[-> Hp]]; [right; exists [p], pages|left]; simpl; by rewrite app_nil_r.
Qed.
Lemma fits_cons limit p ps :
  0 < limit → fits limit (p :: ps) → Z.of_nat (length p) <= limit ∧ (Z.of_nat (length p) < limit → fits (limit - Z.of_nat (length p)) ps).
Proof.
  intros Hl [Ht|(pre & post & Heq & Hpre)].
  - simpl in Ht. rewrite length_app in Ht. split; [lia|]. intros _. left. lia.
  - destruct pre as [|q pre]; [simpl in Hpre; lia|]. injection Heq as <- ->. simpl in Hpre. rewrite length_app in Hpre. split; [lia|].
    intros _. right. exists pre, post. split; [done|lia].
Qed.
Lemma limited_take limit seen pages :
  0 <= seen < limit → fits (limit - seen) pages → concat (limited limit seen pages) = take (Z.to_nat (limit - seen)) (concat pages).
Proof.
  revert seen. induction pages as [|p ps IH]; intros seen Hs Hf; simpl; [by rewrite take_nil|].
  apply fits_cons in Hf as [Hp Hf]; [|lia]. rewrite (proj2 (Z.ltb_lt 0 limit)) by lia. simpl.
  destruct (Z.leb_spec limit (seen + Z.of_nat (length p))) as [Hle|Hgt]; simpl.
  - rewrite app_nil_r. replace (Z.to_nat (limit - seen)) with (length p) by lia. by rewrite take_app_length.
  - rewrite IH by (try lia; replace (limit - (seen + Z.of_nat (length p))) with (limit - seen - Z.of_nat (length p)) by lia; apply Hf; lia).
    replace (Z.to_nat (limit - seen)) with (length p + Z.to_nat (limit - (seen + Z.of_nat (length p))))%nat by lia. by rewrite take_app_add.
Qed.
End ReaderLemmas.

(** ** A concrete API server, for the witnesses *)
Module ClientRun.
Definition ds (n : string) : json := JObj [("metadata", JObj [("name", JStr n)])].

#[export] Instance k8s : K8sErrors := {|
  NewNotFound g r n := EForeign 2 (r +:+ " " +:+ quote n +:+ " not found");
  IsNoMatchError e := foreign_is 99 e;
|}.
#[export] Instance api : ApiErrors := concrete_ApiErrors.
Definition no_jq : GoJq := {| gojq_run _ _ := JqValue JNull |}.

Lemma k8s_laws : K8sLaws.
Proof. by split. Qed.

(** three pages under tokens "", "a", "b" *)
Definition server : ApiServer := {|
  srv_list rt cfg tok :=
    if String.eqb tok "" then Ok ([ds "n1"; ds "n2"], "a")
    else if String.eqb tok "a" then Ok ([ds "n3"], "b")
    else Ok ([ds "n4"], "");
  srv_get rt ns name := Err (EForeign 1 "forbidden");
  srv_discovery := Some (Some [("datasciencecluster.opendatahub.io/v2", 1%nat)]);
|}.

Lemma server_pages rt cfg :
  pages_from (SRV := server) rt cfg "" [[ds "n1"; ds "n2"]; [ds "n3"]; [ds "n4"]].
Proof. do 2 (eapply pages_more; [reflexivity|done|]). by constructor. Qed.
End ClientRun.
Import (hints) ClientRun.

(** ** Properties *)
Module ClientSpec.
(** C36: Pagination is complete: with as many requests allowed as the server
    has pages, [ListResources] returns the items of all pages in order; with a
    positive limit it returns the first items up to the limit and no more,
    provided that the pages do not straddle the limit. *)
Theorem ListResources_complete `{AE : ApiErrors, SRV : ApiServer} fuel rt cfg pages :
  pages_from rt cfg "" pages → (length pages ≤ fuel)%nat → (0 < lo_Limit cfg → fits (lo_Limit cfg) pages) →
  ListResources fuel rt cfg =
    Some (Ok (if 0 <? lo_Limit cfg then take (Z.to_nat (lo_Limit cfg)) (concat pages) else concat pages)).
Proof.
  intros Hp Hn Hf. rewrite (ListResources_pages _ _ _ _ Hp Hn). destruct (Z.ltb_spec 0 (lo_Limit cfg)) as [Hl|Hl].
  - rewrite limited_take by (try lia; rewrite Z.sub_0_r; by apply Hf). by rewrite Z.sub_0_r.
  - by rewrite limited_none.
Qed.

(** The second page ends at the limit; the third is not asked for. *)
Lemma ListResources_complete_witness :
  let cfg := {| lo_Namespace := ""; lo_LabelSelector := ""; lo_FieldSelector := ""; lo_Limit := 3 |} in
  ListResources (SRV := ClientRun.server) 3 Deployment cfg = Some (Ok [ClientRun.ds "n1"; ClientRun.ds "n2"; ClientRun.ds "n3"]).
Proof.
  intros cfg. rewrite (ListResources_complete (SRV := ClientRun.server) 3 Deployment cfg _ (ClientRun.server_pages _ _));
    [reflexivity|simpl; lia|].
  intros _. right. exists [[ClientRun.ds "n1"; ClientRun.ds "n2"]; [ClientRun.ds "n3"]], [[ClientRun.ds "n4"]]. by split.
Defined.

(** Where a page straddles the limit, all of it is returned: more items than
    the cap that the option documents. *)
Example short_page_exceeds_limit :
  let cfg := {| lo_Namespace := ""; lo_LabelSelector := ""; lo_FieldSelector := ""; lo_Limit := 1 |} in
  ListResources (SRV := ClientRun.server) 3 Deployment cfg = Some (Ok [ClientRun.ds "n1"; ClientRun.ds "n2"]).
Proof. reflexivity. Qed.

(** The singleton lookup prefers v2 and falls back to v1 exactly when v2
    is not served or holds nothing; the error is a NotFound error if and only
    if neither version holds an object, and several objects of the selected
    version are an error. *)
Theorem getSingletonWithDiscovery_spec `{LAWS : K8sLaws} `{SRV : ApiServer} List disc v2 v1 l2 l1 :
  srv_discovery = Some disc →
  List v2 = Ok l2 → List v1 = Ok l1 →
  let use_v1 := negb (hasGroupVersion disc v2) || bool_decide (l2 = []) in
  let selected := if use_v1 then l1 else l2 in
  (∀ obj, getSingletonWithDiscovery List v2 v1 = Ok obj ↔ selected = [obj]) ∧
  ((∃ err, getSingletonWithDiscovery List v2 v1 = Err err ∧ IsNotFound err = true) ↔ selected = []).
Proof.
  intros Hd H2 H1' use_v1 selected. subst use_v1 selected.
  unfold getSingletonWithDiscovery, tryGetV2Singleton, GetSingleton. rewrite Hd, H2, H1'.
  unfold IsResourceTypeNotFound.
  destruct (hasGroupVersion disc v2), l2 as [|x [|y l2]]; simpl;
    rewrite ?IsNotFound_new, ?orb_true_r, ?IsNotFound_string, ?IsNoMatchError_string; simpl;
    try (destruct l1 as [|z [|w l1]]); simpl; (split; [naive_solver|]);
    (split; [intros (err & Heq & Hn)|intros Heq]); simplify_eq; try done;
    try (revert Hn; unfold errorf_w; by rewrite ?IsNotFound_wrap, IsNotFound_string);
    eexists; (split; [reflexivity|]); unfold errorf_w; by rewrite ?IsNotFound_wrap, IsNotFound_new.
Qed.

Lemma getSingletonWithDiscovery_spec_witness :
  let List rt := if String.eqb (rt_Version rt) "v2" then Ok [] else Ok [ClientRun.ds "default"] in
  let disc := Some [("datasciencecluster.opendatahub.io/v2", 1%nat)] in
  srv_discovery (ApiServer := ClientRun.server) = Some disc ∧
  getSingletonWithDiscovery (SRV := ClientRun.server) List DataScienceCluster DataScienceClusterV1
    = Ok (ClientRun.ds "default").
Proof.
  intros List disc. split; [reflexivity|].
  apply (getSingletonWithDiscovery_spec (LAWS := ClientRun.k8s_laws) (SRV := ClientRun.server)
    List disc _ _ [] [ClientRun.ds "default"]); reflexivity.
Defined.

(** The discovery of the operator namespace takes a permission error on
    the first Deployment request for a hit: since [Get] answers it with a nil
    object and no error, the namespace redhat-ods-operator is reported
    although nothing was seen in it. *)
Theorem forbidden_counts_as_operator_namespace `{AE : ApiErrors, KE : K8sErrors, SRV : ApiServer} olm csvs err :
  srv_get Deployment "redhat-ods-operator" "rhods-operator" = Err err →
  IsForbidden err = true →
  DiscoverOperatorNamespace (λ rt name ns, Get rt name ns) olm csvs = Ok "redhat-ods-operator".
Proof.
  intros Hg Hf. unfold DiscoverOperatorNamespace, discoverOperatorNamespaceFromDefaults.
  simpl. unfold Get. rewrite Hg. unfold IsPermissionError. by rewrite Hf.
Qed.

Lemma forbidden_counts_as_operator_namespace_witness :
  DiscoverOperatorNamespace (λ rt name ns, Get (SRV := ClientRun.server) rt name ns) true (Ok [])
    = Ok "redhat-ods-operator".
Proof.
  by apply (forbidden_counts_as_operator_namespace (SRV := ClientRun.server) true (Ok []) (EForeign 1 "forbidden")).
Defined.

(** When no Deployment probe is answered without error, the namespace of
    the first operator CSV decides; without one, the error is the first probe
    error that is not NotFound, in classified form, or the not-found error of
    the CLI. *)
Theorem DiscoverOperatorNamespace_fallback `{AE : ApiErrors, KE : K8sErrors} GetResource csvs errs :
  (∀ ns name, GetResource Deployment name ns = Err (errs ns name)) →
  let first := find (λ e, negb (IsNotFound e)) (map (λ t, errs t.1 t.2) probeTargets) in
  let dflt := match first with
              | Some e => EStructured (classify_err e)
              | None => EStructured ErrOperatorNamespaceNotFound
              end in
  DiscoverOperatorNamespace GetResource true (Ok csvs) =
    match find isOperatorCSV csvs with
    | Some csv => if String.eqb (oi_Namespace (operatorInfoOf csv)) "" then Err dflt
                  else Ok (oi_Namespace (operatorInfoOf csv))
    | None => Err dflt
    end.
Proof.
  intros Herr first dflt.
  assert (Hp : ∀ targets fe, probe GetResource targets fe = Err (match fe with
      | Some e => Some e
      | None => EStructured ∘ classify_err <$> find (λ e, negb (IsNotFound e)) (map (λ t, errs t.1 t.2) targets)
      end)).
  { induction targets as [|[ns name] ts IH]; intros fe; simpl; [by destruct fe|].
    rewrite Herr, IH. destruct fe as [fe|]; simpl; [by rewrite andb_false_r|].
    rewrite andb_true_r. by destruct (IsNotFound (errs ns name)). }
  unfold DiscoverOperatorNamespace, discoverOperatorNamespaceFromDefaults. rewrite Hp.
  subst dflt first. destruct (find (λ e, negb (IsNotFound e)) _); simpl;
    by destruct (find isOperatorCSV csvs).
Qed.

Lemma DiscoverOperatorNamespace_fallback_witness :
  let csv := {| csv_Name := "rhods-operator.2.25.0"; csv_Namespace := "team-a";
                csv_Labels := {["olm.copiedFrom" := "redhat-ods-operator"]};
                csv_Deployments := ["rhods-operator"] |} in
  DiscoverOperatorNamespace (λ _ _ _, Err (EForeign 2 "not found")) true (Ok [csv]) = Ok "redhat-ods-operator".
Proof.
  intros csv.
  rewrite (DiscoverOperatorNamespace_fallback (λ _ _ _, Err (EForeign 2 "not found")) [csv]
    (λ _ _, EForeign 2 "not found")) by done.
  vm_compute. reflexivity.
Defined.
End ClientSpec.
