(* ===== verification/Version.v ===== *)
(** * Version: pkg/util/version

    Predicates on semantic versions (helpers.go), the branch of a version
    (version.go), and the detection of the installed version from the
    DataScienceCluster, the DSCInitialization and OLM, in that order
    (sources.go, detector.go), and of the OpenShift version (openshift.go).

    github.com/blang/semver and the odh-platform-utilities OLM lookups are
    parameters ([Semver], [Olm]). *)
From S2P Require Import Prelude Errors Client.
Open Scope string_scope.
Open Scope Z_scope.
Open Scope go_scope.

Class Semver := {
  Version : Type;
  v_Major : Version → Z;
  v_Minor : Version → Z;
  v_String : Version → string;
  v_LT : Version → Version → bool;
  v_EQ : Version → Version → bool;
  v_zero : Version;
  semver_Parse : string → res go_error Version;
  semver_ParseTolerant : string → res go_error Version;
}.

(** Documented behaviour of the library: versions are compared by major, then
    minor number first, and the order is strict; the fields are unsigned. *)
Class SemverLaws `{SV : Semver} : Prop := {
  v_LT_major a b : v_Major a < v_Major b → v_LT a b = true;
  v_LT_minor a b : v_Major a = v_Major b → v_Minor a < v_Minor b → v_LT a b = true;
  v_LT_asym a b : v_LT a b = true → v_LT b a = false;
}.

(** ** helpers.go; a nil pointer is [None] *)
Section Helpers.
Context `{SV : Semver}.

Definition MajorMinorLabel (v : option Version) : string :=
  match v with
  | None => "unknown"
  | Some v => itoa (v_Major v) +:+ "." +:+ itoa (v_Minor v)
  end.

Definition IsUpgradeFrom2xTo3x (from to : option Version) : bool :=
  match from, to with
  | Some from, Some to => (v_Major from =? 2) && (v_Major to =? 3)
  | _, _ => false
  end.

Definition IsVersion3x (v : option Version) : bool :=
  match v with None => false | Some v => v_Major v =? 3 end.

Definition SameMajorMinor (a b : option Version) : bool :=
  match a, b with
  | Some a, Some b => (v_Major a =? v_Major b) && (v_Minor a =? v_Minor b)
  | _, _ => false
  end.

Definition IsVersionAtLeast (version : option Version) (major minor : Z) : bool :=
  match version with
  | None => false
  | Some version =>
      if major <? v_Major version then true
      else (v_Major version =? major) && (minor <=? v_Minor version)
  end.

Definition IsUpgradeFrom34To35 (from to : option Version) : bool :=
  match from, to with
  | Some from, Some to =>
      (v_Major from =? 3) && (v_Minor from =? 4) && (v_Major to =? 3) && (v_Minor to =? 5)
  | _, _ => false
  end.
End Helpers.

(** ** version.go *)
Definition VersionToBranch (version : string) : res string string :=
  match split_on dot version with
  | major :: minor :: _ =>
      if String.eqb major "2" then Ok ("stable-" +:+ major +:+ "." +:+ minor)
      else if String.eqb major "3" then Ok "main"
      else Err ("unsupported version: " +:+ version)
  | _ => Err ("invalid version format: " +:+ version)
  end.

Record ClusterVersion := {
  cv_Version : string; cv_Source : string; cv_Confidence : string; cv_Branch : string
}.
Definition ClusterVersion_String (v : ClusterVersion) : string :=
  cv_Version v +:+ " (source: " +:+ cv_Source v +:+ ", confidence: " +:+ cv_Confidence v +:+
  ", branch: " +:+ cv_Branch v +:+ ")".

(** ** sources.go *)
Inductive Platform := ManagedRhoai | SelfManagedRhoai | OpenDataHub | PlatformOther (s : string).

(** The lookups of odh-platform-utilities; a nil controller-runtime client is
    [olm_reader = false]. [OperatorExists] answers with the installed version
    (nil info is [None]). *)
Class Olm := {
  olm_reader : bool;
  DetectPlatform : res go_error Platform;
  OperatorExists : string → res go_error (option string);
  IsOperatorNotInstalled : go_error → bool;
}.

Section Sources.
Context `{AE : ApiErrors, KE : K8sErrors, SRV : ApiServer, JQ : GoJq, OLM : Olm}.
Context (List : ResourceType → res go_error (list json)).

(** The two custom-resource sources differ in the resource only. *)
Definition detectFromResource (get : res go_error json) (kind : string) : res go_error (option string) :=
  match get with
  | Panic s => Panic s
  | Err err => if IsNotFound err then Ok None else Err (errorf_w ("getting " +:+ kind) err)
  | Ok obj =>
      try! versionStr := jq_Query_string obj ".status.release.version"
        else errorf_w "querying .status.release.version" in
      if String.eqb versionStr "" then Ok None else Ok (Some versionStr)
  end.

Definition DetectFromDataScienceCluster : res go_error (option string) :=
  detectFromResource (GetDataScienceCluster List) "DataScienceCluster".

Definition DetectFromDSCInitialization : res go_error (option string) :=
  detectFromResource (GetDSCInitialization List) "DSCInitialization".

Definition rhoaiOperatorPackage := "rhods-operator".
Definition odhOperatorPackage := "opendatahub-operator".

Definition operatorPackage (platform : Platform) : string :=
  match platform with
  | ManagedRhoai | SelfManagedRhoai => rhoaiOperatorPackage
  | _ => odhOperatorPackage
  end.

Definition DetectFromOLM : res go_error (option string) :=
  if negb olm_reader then Ok None
  else match DetectPlatform with
  | Panic s => Panic s
  | Err err =>
      if IsNotFound err || IsNoMatchError err then Ok None
      else Err (errorf_w "detecting platform from OLM" err)
  | Ok platform =>
      let packageName := operatorPackage platform in
      match OperatorExists packageName with
      | Panic s => Panic s
      | Err err =>
          if IsOperatorNotInstalled err || IsNoMatchError err then Ok None
          else Err (errorf_w ("detecting " +:+ packageName +:+ " version from OLM") err)
      | Ok None => Ok None
      | Ok (Some version) =>
          if String.eqb version "" then Ok None else Ok (Some (trim_prefix "v" version))
      end
  end.

(** ** detector.go *)
Context `{SV : Semver}.

(** One step of [Detect]: a source that yields a nonzero version decides, an
    error stops the detection, and otherwise the next source is asked. *)
Definition detect_step (name : string) (source : res go_error (option string))
    (next : res go_error Version) : res go_error Version :=
  try! found := source else errorf_w ("detecting from " +:+ name) in
  match found with
  | None => next
  | Some versionStr =>
      try! ver := semver_Parse versionStr else errorf_w ("parsing version " +:+ quote versionStr) in
      if v_EQ ver v_zero then next else Ok ver
  end.

Definition Detect : res go_error Version :=
  detect_step "DataScienceCluster" DetectFromDataScienceCluster
    (detect_step "DSCInitialization" DetectFromDSCInitialization
      (detect_step "OLM" DetectFromOLM
        (Err (EString "unable to detect cluster version: no nonzero version found from DataScienceCluster, DSCInitialization, or OLM resources")))).

(** ** openshift.go *)
Definition parseOpenShiftVersion (versionStr : string) : res go_error Version :=
  let versionStr := trim_prefix "v" versionStr in
  res_map_err (errorf_w ("failed to parse OpenShift version " +:+ quote versionStr)) (semver_Parse versionStr).

(** [unstructured.NestedFieldNoCopy] along a path of keys. *)
Fixpoint nested (path : list string) (obj : json) : option json :=
  match path with
  | [] => Some obj
  | k :: path' =>
      match obj with
      | JObj fields =>
          match find (λ kv, String.eqb kv.1 k) fields with
          | Some kv => nested path' kv.2
          | None => None
          end
      | _ => None
      end
  end.

Definition ClusterVersionResource : ResourceType :=
  mkResourceType "config.openshift.io" "v1" "ClusterVersion" "clusterversions".

Definition historyVersion (obj : json) : option string :=
  match nested ["status"; "history"] obj with
  | Some (JArr (item :: _)) =>
      match nested ["version"] item with
      | Some (JStr version) => if String.eqb version "" then None else Some version
      | _ => None
      end
  | _ => None
  end.

Definition desiredVersion (obj : json) : option Version :=
  match nested ["status"; "desired"; "version"] obj with
  | Some (JStr version) =>
      if String.eqb version "" then None else res_opt (parseOpenShiftVersion version)
  | _ => None
  end.

(** [DetectOpenShiftVersion] on a client; the fields of the fetched object
    are read through a pointer, which [Get] leaves nil on permission errors. *)
Definition DetectOpenShiftVersion (client_nil : bool) : res go_error Version :=
  if client_nil then Err (EString "kubernetes client not available")
  else
    try! cv := Get ClusterVersionResource "version" "" else errorf_w "failed to get ClusterVersion" in
    match cv with
    | None => Panic "invalid memory address or nil pointer dereference"
    | Some obj =>
        match desiredVersion obj with
        | Some v => Ok v
        | None =>
            match historyVersion obj with
            | Some version => parseOpenShiftVersion version
            | None => Err (EString "unable to determine OpenShift version from ClusterVersion resource")
            end
        end
    end.
End Sources.

(** ** A concrete version library *)
Module VersionRun.
Record ver := mkVer { maj : Z; min : Z; pat : Z }.

(** Decimal digits only; enough for the runs below. *)
Fixpoint digits (s : string) (acc : Z) : option Z :=
  match s with
  | EmptyString => Some acc
  | String a s' =>
      let n := Z.of_nat (Ascii.nat_of_ascii a) in
      if (48 <=? n) && (n <=? 57) then digits s' (10 * acc + (n - 48)) else None
  end.
Definition number (s : string) : option Z := if String.eqb s "" then None else digits s 0.

Definition parse (s : string) : res go_error ver :=
  match map number (split_on dot s) with
  | [Some a; Some b; Some c] => Ok (mkVer a b c)
  | _ => Err (EString "Invalid version")
  end.

Definition lt (a b : ver) : bool :=
  (maj a <? maj b) || ((maj a =? maj b) && ((min a <? min b) || ((min a =? min b) && (pat a <? pat b)))).

#[export] Instance semver : Semver := {|
  Version := ver; v_Major := maj; v_Minor := min;
  v_String v := itoa (maj v) +:+ "." +:+ itoa (min v) +:+ "." +:+ itoa (pat v);
  v_LT := lt;
  v_EQ a b := (maj a =? maj b) && (min a =? min b) && (pat a =? pat b);
  v_zero := mkVer 0 0 0;
  semver_Parse := parse; semver_ParseTolerant := parse;
|}.

Lemma semver_laws : SemverLaws.
Proof.
  split; simpl; unfold lt; intros a b; repeat match goal with
    | |- context [?x <? ?y] => destruct (Z.ltb_spec x y)
    | |- context [?x =? ?y] => destruct (Z.eqb_spec x y) end; simpl; try lia; try done.
Qed.

(** jq restricted to paths [.a.b.c]. *)
#[export] Instance path_jq : GoJq := {|
  gojq_run obj q := match nested (tail (split_on dot q)) obj with
                    | Some v => JqValue v | None => JqValue JNull end |}.

(** A cluster without discovery, whose DSC has the given status. *)
Definition cluster_dsc (status : json) : json := JObj [("status", status)].
Definition server : ApiServer := {|
  srv_list _ _ _ := Ok ([], "");
  srv_get _ _ _ := Err (EForeign 1 "forbidden");
  srv_discovery := None;
|}.
Definition release (v : string) : json := JObj [("release", JObj [("version", JStr v)])].
Definition list_dsc (status : json) (rt : ResourceType) : res go_error (list json) :=
  if String.eqb (rt_Kind rt) "DataScienceCluster" then Ok [cluster_dsc status] else Ok [].
Definition olm : Olm := {|
  olm_reader := true;
  DetectPlatform := Ok SelfManagedRhoai;
  OperatorExists _ := Ok (Some "v2.25.1");
  IsOperatorNotInstalled _ := false;
|}.
End VersionRun.
Import (hints) ClientRun VersionRun.

(** ** Properties *)
Module VersionSpec.
(** [IsVersionAtLeast] is the lexicographic order on (major, minor), and
    two versions that are not [SameMajorMinor] are comparable the way the
    semantic version order compares them: the three-way decision of the lint
    command (same, downgrade, upgrade) follows major and minor only. *)
Theorem version_order_by_major_minor `{SemverLaws} (a b : Version) :
  (IsVersionAtLeast (Some a) (v_Major b) (v_Minor b) = true ↔
     SameMajorMinor (Some a) (Some b) = true ∨ v_Major b < v_Major a ∨
     (v_Major a = v_Major b ∧ v_Minor b < v_Minor a)) ∧
  (SameMajorMinor (Some a) (Some b) = false →
     v_LT a b = negb (IsVersionAtLeast (Some a) (v_Major b) (v_Minor b))).
Proof.
  unfold IsVersionAtLeast, SameMajorMinor.
  rewrite andb_true_iff, !Z.eqb_eq, andb_false_iff, !Z.eqb_neq. split.
  - destruct (Z.ltb_spec (v_Major b) (v_Major a)); [lia|].
    rewrite andb_true_iff, Z.eqb_eq, Z.leb_le. lia.
  - intros Hne. destruct (Z.ltb_spec (v_Major b) (v_Major a)); simpl.
    { by apply v_LT_asym, v_LT_major. }
    destruct (Z.eqb_spec (v_Major a) (v_Major b)) as [Heq|]; simpl; [|apply v_LT_major; lia].
    destruct (Z.leb_spec (v_Minor b) (v_Minor a)); simpl.
    + apply v_LT_asym, v_LT_minor; lia.
    + by apply v_LT_minor.
Qed.

Lemma version_order_by_major_minor_witness :
  let a := VersionRun.mkVer 2 25 3 in let b := VersionRun.mkVer 3 0 0 in
  SameMajorMinor (Some a) (Some b) = false ∧
  v_LT a b = negb (IsVersionAtLeast (Some a) (v_Major b) (v_Minor b)).
Proof.
  intros a b. split; [reflexivity|].
  apply (version_order_by_major_minor (H := VersionRun.semver_laws)). reflexivity.
Defined.

(** [VersionToBranch] succeeds exactly on versions with at least two
    parts whose major part is 2 or 3. *)
Theorem VersionToBranch_spec (version : string) (branch : string) :
  VersionToBranch version = Ok branch ↔
  ∃ major minor rest, split_on dot version = major :: minor :: rest ∧
    ((major = "2" ∧ branch = "stable-2." +:+ minor) ∨ (major = "3" ∧ branch = "main")).
Proof.
  unfold VersionToBranch. destruct (split_on dot version) as [|major [|minor rest]]; [naive_solver..|].
  destruct (String.eqb_spec major "2") as [->|H2]; [simpl; naive_solver|].
  destruct (String.eqb_spec major "3") as [->|H3]; [naive_solver|]. naive_solver.
Qed.

(** The detection asks its sources in order: a DataScienceCluster with a
    nonzero release version decides alone, and a source is skipped exactly
    when it is absent or its version is zero. *)
Theorem Detect_priority `{AE : ApiErrors, KE : K8sErrors, SRV : ApiServer, JQ : GoJq, OLM : Olm, SV : Semver}
    List v1 v2 v3 :
  DetectFromDataScienceCluster List = Ok v1 →
  DetectFromDSCInitialization List = Ok v2 →
  DetectFromOLM = Ok v3 →
  let parsed o := match o with
                  | Some s => match semver_Parse s with
                              | Ok v => if v_EQ v v_zero then None else Some (Ok v)
                              | Err e => Some (Err (errorf_w ("parsing version " +:+ quote s) e))
                              | Panic m => Some (Panic m)
                              end
                  | None => None
                  end in
  ∃ err, Detect List =
    match parsed v1, parsed v2, parsed v3 with
    | Some r, _, _ => r
    | None, Some r, _ => r
    | None, None, Some r => r
    | None, None, None => Err err
    end.
Proof.
  intros H1 H2 H3 parsed. eexists. unfold Detect, detect_step. rewrite H1, H2, H3. simpl.
  subst parsed. simpl.
  destruct v1 as [s1|], v2 as [s2|], v3 as [s3|]; simpl;
    repeat match goal with |- context [semver_Parse ?s] => destruct (semver_Parse s) end; simpl;
    repeat case_match; simplify_eq; try done.
Qed.

Lemma Detect_priority_witness :
  ∃ err : go_error, Detect (SRV := VersionRun.server) (OLM := VersionRun.olm)
    (VersionRun.list_dsc (VersionRun.release "0.0.0")) = Ok (VersionRun.mkVer 2 25 1) ∧ err = err.
Proof.
  destruct (Detect_priority (SRV := VersionRun.server) (OLM := VersionRun.olm)
    (VersionRun.list_dsc (VersionRun.release "0.0.0")) (Some "0.0.0") None (Some "2.25.1"))
    as [err Herr]; [by vm_compute..|].
  exists err. split; [exact Herr|reflexivity].
Defined.

(** A DataScienceCluster without [.status.release.version] makes the
    detection fail instead of falling back to the other sources. *)
Theorem missing_release_version_stops_detection
    `{AE : ApiErrors, KE : K8sErrors, SRV : ApiServer, JQ : GoJq, OLM : Olm, SV : Semver} List dsc :
  GetDataScienceCluster List = Ok dsc →
  gojq_run dsc ".status.release.version" = JqValue JNull →
  ∃ err, Detect List = Err err.
Proof.
  intros Hd Hq. unfold Detect, detect_step, DetectFromDataScienceCluster, detectFromResource, jq_Query_string.
  rewrite Hd, Hq. simpl. eauto.
Qed.

Lemma missing_release_version_stops_detection_witness :
  ∃ err, Detect (SRV := VersionRun.server) (OLM := VersionRun.olm)
    (VersionRun.list_dsc (JObj [])) = Err err.
Proof.
  by apply (missing_release_version_stops_detection (SRV := VersionRun.server) (OLM := VersionRun.olm)
    (VersionRun.list_dsc (JObj [])) (VersionRun.cluster_dsc (JObj []))).
Defined.

(** A permission error on the ClusterVersion resource makes the
    detection of the OpenShift version dereference a nil pointer. *)
Theorem forbidden_ClusterVersion_panics `{AE : ApiErrors, SRV : ApiServer, SV : Semver} err :
  srv_get ClusterVersionResource "" "version" = Err err → IsPermissionError err = true →
  ∃ msg, DetectOpenShiftVersion false = Panic msg.
Proof.
  intros Hg Hp. unfold DetectOpenShiftVersion, Get. rewrite Hg, Hp. simpl. eauto.
Qed.

Lemma forbidden_ClusterVersion_panics_witness :
  ∃ msg, DetectOpenShiftVersion (SRV := VersionRun.server) false = Panic msg.
Proof.
  by apply (forbidden_ClusterVersion_panics (SRV := VersionRun.server) (EForeign 1 "forbidden")).
Defined.

(** [DetectOpenShiftVersion] otherwise: the desired version decides, then the
    head of the history. *)
Lemma DetectOpenShiftVersion_order `{AE : ApiErrors, SRV : ApiServer, SV : Semver} obj :
  srv_get ClusterVersionResource "" "version" = Ok obj →
  DetectOpenShiftVersion false =
    match desiredVersion obj, historyVersion obj with
    | Some v, _ => Ok v
    | None, Some s => parseOpenShiftVersion s
    | None, None => Err (EString "unable to determine OpenShift version from ClusterVersion resource")
    end.
Proof.
  intros Hg. unfold DetectOpenShiftVersion, Get. rewrite Hg. simpl.
  by destruct (desiredVersion obj).
Qed.
End VersionSpec.
