(* ===== verification/Result.v ===== *)
(** * Result: pkg/lint/check/result/result.go and pkg/output/envelope.go

    Diagnostic conditions and results: validation, the summary functions
    (impact, status string, message, remediation), condition update, impacted
    objects, and the status of the output envelope. *)
From S2P Require Import Prelude Errors Client.
Open Scope string_scope.
Open Scope Z_scope.
Open Scope go_scope.

(** ** Data *)
(** Upgrade impact, a Go string type; [ImpactOther] is any other string. *)
Inductive Impact :=
| ImpactProhibited | ImpactBlocking | ImpactAdvisory | ImpactNone
| ImpactOther (s : string).
#[export] Instance Impact_eq_dec : EqDecision Impact.
Proof. solve_decision. Defined.

Definition impact_string (i : Impact) : string :=
  match i with
  | ImpactProhibited => "prohibited" | ImpactBlocking => "blocking"
  | ImpactAdvisory => "advisory" | ImpactNone => "" | ImpactOther s => s
  end.

(** metav1.ConditionStatus. *)
Inductive ConditionStatus :=
| ConditionTrue | ConditionFalse | ConditionUnknown | StatusOther (s : string).
#[export] Instance ConditionStatus_eq_dec : EqDecision ConditionStatus.
Proof. solve_decision. Defined.

Definition status_string (s : ConditionStatus) : string :=
  match s with
  | ConditionTrue => "True" | ConditionFalse => "False"
  | ConditionUnknown => "Unknown" | StatusOther s => s
  end.

Record Condition := mkCondition {
  c_Type : string;
  c_Status : ConditionStatus;
  c_Reason : string;
  c_Message : string;
  c_LastTransitionTime : Z;
  c_Impact : Impact;
  c_Remediation : string;
}.

Record PartialObjectMetadata := mkPartial {
  po_TypeMeta : TypeMeta;
  po_Namespace : string;
  po_Name : string;
  po_Annotations : gmap string string;
}.

Record NamespacedName := mkNN { nn_Namespace : string; nn_Name : string }.

(** A nil [ImpactedObjects] slice is [None]. *)
Record DiagnosticResult := mkResult {
  r_Group : string;
  r_Kind : string;
  r_Name : string;
  r_Annotations : gmap string string;
  r_Description : string;
  r_Conditions : list Condition;
  r_ImpactedObjects : option (list PartialObjectMetadata);
}.

Definition with_conditions (r : DiagnosticResult) (cs : list Condition) : DiagnosticResult :=
  {| r_Group := r_Group r; r_Kind := r_Kind r; r_Name := r_Name r; r_Annotations := r_Annotations r;
     r_Description := r_Description r; r_Conditions := cs; r_ImpactedObjects := r_ImpactedObjects r |}.

Definition with_annotation (r : DiagnosticResult) (k v : string) : DiagnosticResult :=
  {| r_Group := r_Group r; r_Kind := r_Kind r; r_Name := r_Name r;
     r_Annotations := <[k:=v]> (r_Annotations r);
     r_Description := r_Description r; r_Conditions := r_Conditions r;
     r_ImpactedObjects := r_ImpactedObjects r |}.

Definition with_objects (r : DiagnosticResult) (objs : list PartialObjectMetadata) : DiagnosticResult :=
  {| r_Group := r_Group r; r_Kind := r_Kind r; r_Name := r_Name r; r_Annotations := r_Annotations r;
     r_Description := r_Description r; r_Conditions := r_Conditions r; r_ImpactedObjects := Some objs |}.

(** ** Conditions *)
Definition impact_named (i : Impact) : bool :=
  match i with ImpactProhibited | ImpactBlocking | ImpactAdvisory => true | _ => false end.

(** [Condition.Validate] *)
Definition Condition_Validate (c : Condition) : res string () :=
  match c_Status c with
  | ConditionTrue =>
      if negb (bool_decide (c_Impact c = ImpactNone)) && negb (String.eqb (impact_string (c_Impact c)) "")
      then Err ("condition with Status=True must have Impact=None, got Impact=" +:+
                quote (impact_string (c_Impact c)) +:+
                " (if there's an impact, the condition is not met)")
      else Ok ()
  | ConditionFalse | ConditionUnknown =>
      if bool_decide (c_Impact c = ImpactNone) || String.eqb (impact_string (c_Impact c)) ""
      then Err ("condition with Status=" +:+ quote (status_string (c_Status c)) +:+
                " must have Impact specified (Prohibited, Blocking, or Advisory), got Impact=" +:+
                quote (impact_string (c_Impact c)))
      else if negb (impact_named (c_Impact c))
      then Err ("invalid Impact=" +:+ quote (impact_string (c_Impact c)) +:+ ", must be " +:+
                quote "prohibited" +:+ ", " +:+ quote "blocking" +:+ ", or " +:+ quote "advisory")
      else Ok ()
  | StatusOther s => Err ("invalid Status: " +:+ quote s)
  end.

Definition isValidAnnotationKey (key : string) : bool :=
  match split_on slash key with
  | [domain; name] =>
      if String.eqb domain "" || String.eqb name "" then false
      else contains_byte dot domain
  | _ => false
  end.

Definition status_named (s : ConditionStatus) : bool :=
  match s with ConditionTrue | ConditionFalse | ConditionUnknown => true | StatusOther _ => false end.

Definition validateCondition (c : Condition) : res string () :=
  if String.eqb (c_Type c) "" then Err "condition with empty type found"
  else if negb (status_named (c_Status c)) then
    Err ("condition " +:+ quote (c_Type c) +:+ " has invalid status (must be True, False, or Unknown)")
  else if String.eqb (c_Reason c) "" then
    Err ("condition " +:+ quote (c_Type c) +:+ " has empty reason")
  else Ok ().

(** [DiagnosticResult.Validate]; the annotations are visited in map order. *)
Definition DiagnosticResult_Validate `{MapOrder} (r : DiagnosticResult) : res string () :=
  if String.eqb (r_Group r) "" then Err "group must not be empty"
  else if String.eqb (r_Kind r) "" then Err "kind must not be empty"
  else if String.eqb (r_Name r) "" then Err "name must not be empty"
  else
    let! _u := for_each (λ kv, if isValidAnnotationKey kv.1 then Ok ()
        else Err ("annotation key " +:+ quote kv.1 +:+
                  " must be in domain/key format (e.g., openshiftai.io/version)"))
      (map_range (r_Annotations r)) in
    match r_Conditions r with
    | [] => Err "status.conditions must contain at least one condition"
    | cs => for_each validateCondition cs
    end.

(** [New] *)
Definition New (group kind name description : string) : DiagnosticResult :=
  {| r_Group := group; r_Kind := kind; r_Name := name; r_Annotations := ∅;
     r_Description := description; r_Conditions := []; r_ImpactedObjects := None |}.

Definition not_met (c : Condition) : bool :=
  match c_Status c with ConditionFalse | ConditionUnknown => true | _ => false end.

Definition IsFailing (r : DiagnosticResult) : bool := existsb not_met (r_Conditions r).

Definition GetMessage (r : DiagnosticResult) : string :=
  match r_Conditions r with [] => "" | c :: _ => c_Message c end.

(** The loop of [GetImpact] over the remaining conditions. *)
Fixpoint GetImpact_loop (maxImpact : Impact) (cs : list Condition) : Impact :=
  match cs with
  | [] => maxImpact
  | c :: cs' =>
      match c_Impact c with
      | ImpactProhibited => ImpactProhibited
      | ImpactBlocking => GetImpact_loop ImpactBlocking cs'
      | ImpactAdvisory =>
          GetImpact_loop (if bool_decide (maxImpact = ImpactNone) then ImpactAdvisory else maxImpact) cs'
      | ImpactNone | ImpactOther _ => GetImpact_loop maxImpact cs'
      end
  end.
Definition GetImpact (r : DiagnosticResult) : Impact := GetImpact_loop ImpactNone (r_Conditions r).

Definition GetRemediation (r : DiagnosticResult) : string :=
  match find (λ c, negb (String.eqb (c_Remediation c) "")) (r_Conditions r) with
  | Some c => c_Remediation c
  | None => ""
  end.

Fixpoint GetStatusString_loop (cs : list Condition) : string :=
  match cs with
  | [] => "Pass"
  | c :: cs' =>
      match c_Status c with
      | ConditionFalse => "Fail"
      | ConditionUnknown => "Error"
      | _ => GetStatusString_loop cs'
      end
  end.
Definition GetStatusString (r : DiagnosticResult) : string :=
  match r_Conditions r with [] => "Unknown" | cs => GetStatusString_loop cs end.

(** [SetCondition]: replace the first condition of the type, or append. *)
Fixpoint set_condition (condition : Condition) (cs : list Condition) : list Condition :=
  match cs with
  | [] => [condition]
  | c :: cs' => if String.eqb (c_Type c) (c_Type condition) then condition :: cs'
                else c :: set_condition condition cs'
  end.
Definition SetCondition (r : DiagnosticResult) (condition : Condition) : DiagnosticResult :=
  with_conditions r (set_condition condition (r_Conditions r)).

Definition AnnotationResourceCRDName := "resource.opendatahub.io/crd-name".
Definition AnnotationObjectContext := "result.opendatahub.io/context".
Definition AnnotationObjectCRDName := "result.opendatahub.io/crd-name".

Definition impactedObject (rt : ResourceType) (n : NamespacedName) : PartialObjectMetadata :=
  {| po_TypeMeta := ResourceType_TypeMeta rt; po_Namespace := nn_Namespace n;
     po_Name := nn_Name n; po_Annotations := ∅ |}.

Definition SetImpactedObjects (r : DiagnosticResult) (rt : ResourceType) (names : list NamespacedName)
    : DiagnosticResult :=
  with_objects (with_annotation r AnnotationResourceCRDName (CRDFQN rt)) (map (impactedObject rt) names).

(** An append of nothing to a nil slice leaves it nil. *)
Definition AddImpactedObjects (r : DiagnosticResult) (rt : ResourceType) (names : list NamespacedName)
    : DiagnosticResult :=
  let r' := match r_Annotations r !! AnnotationResourceCRDName with
            | Some _ => r
            | None => with_annotation r AnnotationResourceCRDName (CRDFQN rt)
            end in
  match names with
  | [] => r'
  | _ => with_objects r' (default [] (r_ImpactedObjects r') ++ map (impactedObject rt) names)%list
  end.

(** ** Envelope (pkg/output/envelope.go) *)
Record Status := mkStatus { st_Result : string; st_Warnings : Z; st_Errors : Z }.

Definition StatusSuccess := "success".
Definition StatusWarning := "warning".
Definition StatusFailure := "failure".

Definition NewStatus (warnings errors : Z) : Status :=
  let warnings := if warnings <? 0 then 0 else warnings in
  let errors := if errors <? 0 then 0 else errors in
  {| st_Result := if 0 <? errors then StatusFailure
                  else if 0 <? warnings then StatusWarning else StatusSuccess;
     st_Warnings := warnings; st_Errors := errors |}.

(** [ComputeStatus]: the counters over the non-nil results. *)
Definition count_result (acc : Z * Z) (r : option DiagnosticResult) : Z * Z :=
  let '(warnings, errs) := acc in
  match r with
  | None => (warnings, errs)
  | Some r =>
      match GetImpact r with
      | ImpactProhibited | ImpactBlocking => (warnings, errs + 1)
      | ImpactAdvisory => (warnings + 1, errs)
      | ImpactNone | ImpactOther _ => (warnings, errs)
      end
  end.
Definition ComputeStatus (results : list (option DiagnosticResult)) : Status :=
  let '(warnings, errs) := foldl count_result (0, 0) results in NewStatus warnings errs.

(** ** Reference order on impacts *)
(** Severity rank: prohibited 3, blocking 2, advisory 1, anything else 0. *)
Definition severity (i : Impact) : Z :=
  match i with ImpactProhibited => 3 | ImpactBlocking => 2 | ImpactAdvisory => 1 | _ => 0 end.

Definition max_severity (cs : list Condition) : Z := foldr (λ c m, Z.max (severity (c_Impact c)) m) 0 cs.

Lemma max_severity_bounds cs : 0 <= max_severity cs <= 3.
Proof. induction cs as [|c cs IH]; simpl; [lia|]. destruct (c_Impact c); simpl; lia. Qed.

Lemma GetImpact_loop_severity m cs :
  m ∈ [ImpactNone; ImpactAdvisory; ImpactBlocking] →
  severity (GetImpact_loop m cs) = Z.max (severity m) (max_severity cs) ∧
  GetImpact_loop m cs ∈ [ImpactNone; ImpactAdvisory; ImpactBlocking; ImpactProhibited].
Proof.
  revert m. induction cs as [|c cs IH]; intros m Hm; simpl.
  { pose proof (max_severity_bounds []). split; [|set_solver].
    repeat (apply elem_of_cons in Hm as [->|Hm]; [done|]). by apply elem_of_nil in Hm. }
  pose proof (max_severity_bounds cs).
  destruct (c_Impact c) eqn:Hc.
  - split; [|set_solver]. simpl.
    repeat (apply elem_of_cons in Hm as [->|Hm]; [simpl; lia|]). by apply elem_of_nil in Hm.
  - destruct (IH ImpactBlocking) as [-> Hin]; [set_solver|]. split; [|done]. simpl.
    repeat (apply elem_of_cons in Hm as [->|Hm]; [simpl; lia|]). by apply elem_of_nil in Hm.
  - destruct (IH (if bool_decide (m = ImpactNone) then ImpactAdvisory else m)) as [-> Hin];
      [case_match; set_solver|]. split; [|done].
    repeat (apply elem_of_cons in Hm as [->|Hm]; [simpl; lia|]). by apply elem_of_nil in Hm.
  - destruct (IH m Hm) as [-> Hin]. split; [simpl; lia|done].
  - destruct (IH m Hm) as [-> Hin]. split; [simpl; lia|done].
Qed.

Lemma GetImpact_severity r :
  severity (GetImpact r) = max_severity (r_Conditions r) ∧
  GetImpact r ∈ [ImpactNone; ImpactAdvisory; ImpactBlocking; ImpactProhibited].
Proof.
  destruct (GetImpact_loop_severity ImpactNone (r_Conditions r)) as [H1 H2]; [set_solver|].
  split; [|done]. unfold GetImpact. rewrite H1. simpl.
  pose proof (max_severity_bounds (r_Conditions r)). lia.
Qed.

Lemma severity_canonical i j :
  i ∈ [ImpactNone; ImpactAdvisory; ImpactBlocking; ImpactProhibited] →
  j ∈ [ImpactNone; ImpactAdvisory; ImpactBlocking; ImpactProhibited] →
  severity i = severity j → i = j.
Proof.
  intros Hi Hj Hs.
  repeat (apply elem_of_cons in Hi as [->|Hi]; [
    repeat (apply elem_of_cons in Hj as [->|Hj]; [by try discriminate Hs|]); by apply elem_of_nil in Hj|]).
  by apply elem_of_nil in Hi.
Qed.

Lemma set_condition_types c cs :
  map c_Type (set_condition c cs) =
    if bool_decide (c_Type c ∈ map c_Type cs) then map c_Type cs else (map c_Type cs ++ [c_Type c])%list.
Proof.
  induction cs as [|d cs IH]; simpl; [done|].
  destruct (String.eqb_spec (c_Type d) (c_Type c)) as [Heq|Hne]; simpl.
  - rewrite bool_decide_eq_true_2 by (rewrite Heq; set_solver). by rewrite Heq.
  - rewrite IH. destruct (decide (c_Type c ∈ map c_Type cs)) as [Hin|Hnin].
    + rewrite !bool_decide_eq_true_2 by set_solver. done.
    + rewrite !bool_decide_eq_false_2 by set_solver. done.
Qed.

Lemma set_condition_lookup c cs ty :
  find (λ d, String.eqb (c_Type d) ty) (set_condition c cs) =
    if String.eqb (c_Type c) ty then Some c else find (λ d, String.eqb (c_Type d) ty) cs.
Proof.
  induction cs as [|d cs IH]; simpl; [by case_match|].
  destruct (String.eqb_spec (c_Type d) (c_Type c)) as [Heq|Hne]; simpl.
  - rewrite Heq. by destruct (String.eqb (c_Type c) ty).
  - rewrite IH. destruct (String.eqb_spec (c_Type d) ty), (String.eqb_spec (c_Type c) ty); congruence.
Qed.

Lemma validateCondition_Ok c :
  validateCondition c = Ok () ↔
  c_Type c ≠ "" ∧ status_named (c_Status c) = true ∧ c_Reason c ≠ "".
Proof.
  unfold validateCondition.
  destruct (String.eqb_spec (c_Type c) ""), (status_named (c_Status c)),
    (String.eqb_spec (c_Reason c) ""); simpl; naive_solver.
Qed.

Lemma Condition_Validate_Ok c :
  Condition_Validate c = Ok () ↔
  match c_Status c with
  | ConditionTrue => impact_string (c_Impact c) = ""
  | ConditionFalse | ConditionUnknown => impact_named (c_Impact c) = true
  | StatusOther _ => False
  end.
Proof.
  unfold Condition_Validate. destruct (c_Status c); [| | |done].
  - destruct (c_Impact c) as [| | | |s]; simpl; try done.
    destruct (String.eqb_spec s ""); simpl; naive_solver.
  - destruct (c_Impact c) as [| | | |s]; simpl; try done. destruct (String.eqb_spec s ""); done.
  - destruct (c_Impact c) as [| | | |s]; simpl; try done. destruct (String.eqb_spec s ""); done.
Qed.

Lemma DiagnosticResult_Validate_no_panic `{MapOrder} r m : DiagnosticResult_Validate r ≠ Panic m.
Proof.
  unfold DiagnosticResult_Validate. do 3 (case_match; [done|]).
  match goal with |- context [for_each ?f (map_range ?l)] =>
    pose proof (for_each_no_panic f (map_range l) m) as Hann;
    destruct (for_each f (map_range l)) as [[]|e|s] eqn:Hr end; simpl; [|done|].
  - destruct (r_Conditions r) as [|c cs]; [done|]. apply (for_each_no_panic validateCondition (c :: cs)).
    intros d s. unfold validateCondition. by repeat case_match.
  - intros [= ->]. apply Hann; [|done]. intros kv s. by case_match.
Qed.

#[export] Hint Rewrite validateCondition_Ok Condition_Validate_Ok : go_valid.

Lemma foldl_count_result acc results :
  foldl count_result acc results =
    (acc.1 + Z.of_nat (length (List.filter (λ r, match r with Some r => severity (GetImpact r) =? 1 | None => false end) results)),
     acc.2 + Z.of_nat (length (List.filter (λ r, match r with Some r => 2 <=? severity (GetImpact r) | None => false end) results))).
Proof.
  revert acc. induction results as [|[r|] results IH]; intros [w e]; simpl; [f_equal; lia| |by rewrite IH].
  rewrite IH. destruct (GetImpact r); simpl; f_equal; lia.
Qed.

(** ** Properties *)
Module ResultSpec.
(** [GetImpact] is the maximum of the condition impacts under
    none < advisory < blocking < prohibited: it is one of the four levels,
    it is at least the impact of every condition, and it is none or attained
    by a condition. *)
Theorem GetImpact_is_maximum (r : DiagnosticResult) :
  GetImpact r ∈ [ImpactNone; ImpactAdvisory; ImpactBlocking; ImpactProhibited] ∧
  (∀ c, c ∈ r_Conditions r → severity (c_Impact c) <= severity (GetImpact r)) ∧
  (GetImpact r = ImpactNone ∨ ∃ c, c ∈ r_Conditions r ∧ c_Impact c = GetImpact r).
Proof.
  destruct (GetImpact_severity r) as [Hs Hin]. split; [done|]. rewrite Hs. split.
  - intros c Hc. clear Hs Hin. induction (r_Conditions r) as [|d cs IH]; [by apply elem_of_nil in Hc|].
    simpl. apply elem_of_cons in Hc as [->|Hc]; [lia|]. apply IH in Hc. lia.
  - destruct (decide (GetImpact r = ImpactNone)) as [|Hne]; [by left|right].
    assert (Hex : ∃ c, c ∈ r_Conditions r ∧ severity (c_Impact c) = severity (GetImpact r)).
    { assert (0 < max_severity (r_Conditions r)).
      { rewrite <-Hs. pose proof (max_severity_bounds (r_Conditions r)).
        destruct (decide (severity (GetImpact r) = 0)); [|lia].
        exfalso. apply Hne. eapply severity_canonical; [done|set_solver|done]. }
      rewrite Hs. clear -H. induction (r_Conditions r) as [|c cs IH]; simpl in *; [lia|].
      destruct (Z.max_spec (severity (c_Impact c)) (max_severity cs)) as [[Hlt Heq]|[Hle Heq]];
        rewrite Heq in *.
      - destruct IH as (d & Hd & ?); [lia|]. exists d. split; [by right|done].
      - exists c. split; [by left|done]. }
    destruct Hex as (c & Hc & Hsc). exists c. split; [done|].
    repeat (apply elem_of_cons in Hin as [Heq|Hin];
      [rewrite Heq in *; simpl in Hsc; by destruct (c_Impact c)|]).
    by apply elem_of_nil in Hin.
Qed.

(** A result passes [Validate] exactly when group, kind and name are
    set, every annotation key is a domain-qualified key, there is a condition
    and every condition has a type, a known status and a reason; the outcome
    does not depend on the order in which the annotations are visited. *)
Theorem DiagnosticResult_Validate_spec `{MapOrder} (r : DiagnosticResult) :
  DiagnosticResult_Validate r = Ok () ↔
    r_Group r ≠ "" ∧ r_Kind r ≠ "" ∧ r_Name r ≠ "" ∧
    (∀ k v, r_Annotations r !! k = Some v → isValidAnnotationKey k = true) ∧
    r_Conditions r ≠ [] ∧
    (∀ c, c ∈ r_Conditions r → c_Type c ≠ "" ∧ status_named (c_Status c) = true ∧ c_Reason c ≠ "").
Proof.
  unfold DiagnosticResult_Validate.
  destruct (String.eqb_spec (r_Group r) ""); [naive_solver|].
  destruct (String.eqb_spec (r_Kind r) ""); [naive_solver|].
  destruct (String.eqb_spec (r_Name r) ""); [naive_solver|].
  match goal with |- context [for_each ?f (map_range ?m)] =>
    pose proof (for_each_Ok f (map_range m)) as Hann; destruct (for_each f (map_range m)) as [[]|e|p] eqn:Hr end.
  - assert (∀ k v, r_Annotations r !! k = Some v → isValidAnnotationKey k = true) as Hkeys.
    { intros k v Hkv. apply proj1 in Hann. specialize (Hann eq_refl). rewrite Forall_forall in Hann.
      specialize (Hann (k, v) (proj2 (elem_of_map_range _ _ _) Hkv)). simpl in Hann. by case_match. }
    cbn [res_bind]. destruct (r_Conditions r) as [|c cs]; [naive_solver|].
    cbv beta iota. rewrite for_each_Ok, Forall_forall. setoid_rewrite validateCondition_Ok. naive_solver.
  - simpl. split; [done|]. intros (_ & _ & _ & Hkeys & _). exfalso. apply proj2 in Hann.
    discriminate Hann. rewrite Forall_forall. intros [k v] Hkv.
    apply elem_of_map_range in Hkv. simpl. by rewrite (Hkeys k v Hkv).
  - simpl. split; [done|]. intros (_ & _ & _ & Hkeys & _). exfalso. apply proj2 in Hann.
    discriminate Hann. rewrite Forall_forall. intros [k v] Hkv.
    apply elem_of_map_range in Hkv. simpl. by rewrite (Hkeys k v Hkv).
Qed.

(** An annotation key is accepted exactly when it is domain/name with
    one slash, both sides non-empty and a dot in the domain. *)
Theorem isValidAnnotationKey_spec (key : string) :
  isValidAnnotationKey key = true ↔
  ∃ domain name, key = domain +:+ "/" +:+ name ∧
    contains_byte slash domain = false ∧ contains_byte slash name = false ∧
    domain ≠ "" ∧ name ≠ "" ∧ contains_byte dot domain = true.
Proof.
  unfold isValidAnnotationKey. pose proof (join_split_on slash key) as Hj.
  pose proof (split_on_parts slash key) as Hp. split.
  - destruct (split_on slash key) as [|domain [|name [|? ?]]]; try done.
    destruct (String.eqb_spec domain ""), (String.eqb_spec name ""); try done. simpl. intros Hd.
    rewrite !Forall_cons in Hp. destruct Hp as (Hp1 & Hp2 & _). exists domain, name.
    split; [symmetry; exact Hj|done].
  - intros (domain & name & -> & Hd & Hn & Hde & Hne & Hdot).
    assert (split_on slash (domain +:+ "/" +:+ name) = [domain; name]) as ->.
    { clear -Hd Hn. assert (Hone : ∀ s, contains_byte slash s = false → split_on slash s = [s]).
      { induction s as [|a s IH]; simpl; [done|]. intros [Ha Hs]%orb_false_iff. rewrite Ha. by rewrite IH. }
      induction domain as [|a domain IH]; simpl.
      - by rewrite Hone.
      - simpl in Hd. apply orb_false_iff in Hd as [Ha Hd]. rewrite Ha.
        change (String.append domain ("/" +:+ name)) with (domain +:+ "/" +:+ name).
        by rewrite IH. }
    by rewrite (proj2 (String.eqb_neq _ _) Hde), (proj2 (String.eqb_neq _ _) Hne).
Qed.

(** [SetCondition] is an upsert by condition type: afterwards the type
    maps to the new condition, other types are untouched, and the list of
    types keeps its order and stays free of duplicates. *)
Theorem SetCondition_upsert (r : DiagnosticResult) (c : Condition) :
  let lookup r ty := find (λ d, String.eqb (c_Type d) ty) (r_Conditions r) in
  (∀ ty, lookup (SetCondition r c) ty = if String.eqb (c_Type c) ty then Some c else lookup r ty) ∧
  map c_Type (r_Conditions (SetCondition r c)) =
    (if bool_decide (c_Type c ∈ map c_Type (r_Conditions r)) then map c_Type (r_Conditions r)
     else map c_Type (r_Conditions r) ++ [c_Type c])%list ∧
  (NoDup (map c_Type (r_Conditions r)) → NoDup (map c_Type (r_Conditions (SetCondition r c)))).
Proof.
  intros lookup. split; [intros ty; apply set_condition_lookup|].
  pose proof (set_condition_types c (r_Conditions r)) as Ht. split; [exact Ht|].
  simpl. rewrite Ht. case_bool_decide as Hin; [done|]. intros Hnd.
  apply NoDup_app. split; [done|]. split; [set_solver|apply NoDup_singleton].
Qed.

Lemma SetCondition_upsert_witness :
  let c := mkCondition "Available" ConditionTrue "ResourceFound" "" 0 ImpactNone "" in
  let r := SetCondition (New "g" "k" "n" "d") c in
  NoDup (map c_Type (r_Conditions r)) ∧ NoDup (map c_Type (r_Conditions (SetCondition r c))).
Proof.
  intros c r. assert (Hnd : NoDup (map c_Type (r_Conditions r))) by apply NoDup_singleton.
  split; [exact Hnd|]. apply (SetCondition_upsert r c). exact Hnd.
Defined.

(** The envelope status is failure when some result has a prohibited or
    blocking impact, warning when the worst is advisory, and success
    otherwise, and its counters are the numbers of such results. *)
Theorem ComputeStatus_spec (results : list (option DiagnosticResult)) :
  let worst k := List.filter (λ r, match r with Some r => k (severity (GetImpact r)) | None => false end) results in
  let errs := Z.of_nat (length (worst (λ s, 2 <=? s))) in
  let warns := Z.of_nat (length (worst (λ s, s =? 1))) in
  ComputeStatus results =
    {| st_Result := if 0 <? errs then StatusFailure else if 0 <? warns then StatusWarning else StatusSuccess;
       st_Warnings := warns; st_Errors := errs |}.
Proof.
  intros worst errs warns. unfold ComputeStatus. rewrite foldl_count_result. cbn [fst snd].
  rewrite !Z.add_0_l. fold errs warns. unfold NewStatus.
  by rewrite !(proj2 (Z.ltb_ge _ 0)) by (subst errs warns; lia).
Qed.
End ResultSpec.
