(* ===== verification/Check.v ===== *)
(** * Check: pkg/lint/check (condition.go, check.go, base.go, target.go,
    context.go, selector.go, registry.go)

    Conditions built with functional options, the interface of a check, the
    selector language of [--checks] and the check registry.

    A check is a record of its metadata and of its two methods.  What the
    methods read besides the target (the cluster, the context) may change
    between two checks, so they are functions of an instant. *)
From Stdlib Require Import Ascii.
From S2P Require Import Prelude GoPath Errors Client Version Result.
Open Scope string_scope.
Open Scope Z_scope.
Open Scope go_scope.

(** ** condition.go *)
Definition ConditionOption : Type := Condition → Condition.

Definition WithReason (reason : string) : ConditionOption := λ c,
  mkCondition (c_Type c) (c_Status c) reason (c_Message c) (c_LastTransitionTime c) (c_Impact c) (c_Remediation c).

(** The argument is the formatted message. *)
Definition WithMessage (message : string) : ConditionOption := λ c,
  mkCondition (c_Type c) (c_Status c) (c_Reason c) message (c_LastTransitionTime c) (c_Impact c) (c_Remediation c).

Definition WithImpact (impact : Impact) : ConditionOption := λ c,
  mkCondition (c_Type c) (c_Status c) (c_Reason c) (c_Message c) (c_LastTransitionTime c) impact (c_Remediation c).

Definition WithRemediation (remediation : string) : ConditionOption := λ c,
  mkCondition (c_Type c) (c_Status c) (c_Reason c) (c_Message c) (c_LastTransitionTime c) (c_Impact c) remediation.

Definition deriveImpact (status : ConditionStatus) : Impact :=
  if bool_decide (status = ConditionTrue) then ImpactNone else ImpactAdvisory.

(** [metav1.Now()]. *)
Class Clock := now : Z.

(** An invalid condition panics. *)
Definition NewCondition `{Clock} {E} (conditionType : string) (status : ConditionStatus)
    (opts : list ConditionOption) : res E Condition :=
  let c := foldl (λ c opt, opt c)
             (mkCondition conditionType status "" "" now (deriveImpact status) "") opts in
  match Condition_Validate c with
  | Ok _ => Ok c
  | Err err => Panic ("invalid condition: " +:+ err)
  | Panic s => Panic s
  end.

Definition ConditionTypeValidated := "Validated".
Definition ConditionTypeAvailable := "Available".
Definition ConditionTypeReady := "Ready".
Definition ConditionTypeCompatible := "Compatible".
Definition ConditionTypeConfigured := "Configured".
Definition ReasonRequirementsMet := "RequirementsMet".
Definition ReasonResourceFound := "ResourceFound".
Definition ReasonResourceNotFound := "ResourceNotFound".
Definition ReasonVersionIncompatible := "VersionIncompatible".
Definition ReasonCheckExecutionFailed := "CheckExecutionFailed".
Definition ReasonAPIAccessDenied := "APIAccessDenied".

(** ** check.go, base.go, target.go *)
Definition CheckGroup : Type := string.
Definition GroupComponent : CheckGroup := "component".
Definition GroupDependency : CheckGroup := "dependency".
Definition GroupPlatform : CheckGroup := "platform".
Definition GroupService : CheckGroup := "service".
Definition GroupWorkload : CheckGroup := "workload".

Definition CanonicalGroupOrder : list CheckGroup :=
  [GroupDependency; GroupService; GroupPlatform; GroupComponent; GroupWorkload].

(** The client of a target is the ambient reader; [t_IO] says whether the
    stream handle is set. *)
Record Target `{Semver} := mkTarget {
  t_CurrentVersion : option Version;
  t_TargetVersion : option Version;
  t_Resource : option json;
  t_IO : bool;
  t_Debug : bool;
}.

Definition instant : Type := nat.

Record Check `{Semver} := mkCheck {
  ck_ID : string;
  ck_Name : string;
  ck_Description : string;
  ck_Group : CheckGroup;
  ck_CheckKind : string;
  ck_CheckType : string;
  ck_CanApply : instant → Target → res go_error bool;
  ck_Validate : instant → Target → res go_error (option DiagnosticResult);
}.

(** *** base.go: the metadata a check embeds *)
Record BaseCheck := mkBaseCheck {
  bc_CheckGroup : CheckGroup;
  bc_Kind : string;
  bc_Type : string;
  bc_CheckID : string;
  bc_CheckName : string;
  bc_CheckDescription : string;
  bc_CheckRemediation : string;
}.

(** A check that embeds [b]; what it hands to the builders is itself. *)
Definition embed `{Semver} (b : BaseCheck) (can : Target → res go_error bool)
    (validate : Check → Target → res go_error (option DiagnosticResult)) : Check :=
  let check v := {| ck_ID := bc_CheckID b; ck_Name := bc_CheckName b; ck_Description := bc_CheckDescription b;
                    ck_Group := bc_CheckGroup b; ck_CheckKind := bc_Kind b; ck_CheckType := bc_Type b;
                    ck_CanApply _ target := can target; ck_Validate _ target := v target |} in
  check (validate (check (λ _, Ok None))).

(** The result every builder and the executor start from. *)
Definition NewResult `{Semver} (c : Check) : DiagnosticResult :=
  New (ck_Group c) (ck_CheckKind c) (ck_CheckType c) (ck_Description c).

(** The metadata every registered check has. *)
Definition metadata_ok `{Semver} (c : Check) : Prop :=
  ck_Group c ≠ "" ∧ ck_CheckKind c ≠ "" ∧ ck_CheckType c ≠ "".

(** *** context.go: [ctx.Err()] of a context at an instant *)
Definition Ctx : Type := instant → option go_error.

Definition CheckContextError (ctx : Ctx) (t : instant) : option go_error :=
  match ctx t with
  | None => None
  | Some err =>
      if errors_is CtxDeadlineExceeded err then Some (ESentinel ErrCheckTimeout)
      else if errors_is CtxCanceled err then Some (ESentinel ErrCheckCanceled)
      else Some (errorf_w "context error" err)
  end.

(** ** selector.go *)
Section Selector.
Context `{SV : Semver}.

Definition SelectorComponents := "components".
Definition SelectorDependencies := "dependencies".
Definition SelectorPlatform := "platform".
Definition SelectorServices := "services".
Definition SelectorWorkloads := "workloads".

Definition matchesPattern (check : Check) (pattern : string) : res string bool :=
  if String.eqb pattern "*" then Ok true
  else if String.eqb pattern SelectorComponents then Ok (String.eqb (ck_Group check) GroupComponent)
  else if String.eqb pattern SelectorDependencies then Ok (String.eqb (ck_Group check) GroupDependency)
  else if String.eqb pattern SelectorPlatform then Ok (String.eqb (ck_Group check) GroupPlatform)
  else if String.eqb pattern SelectorServices then Ok (String.eqb (ck_Group check) GroupService)
  else if String.eqb pattern SelectorWorkloads then Ok (String.eqb (ck_Group check) GroupWorkload)
  else if String.eqb pattern (ck_ID check) then Ok true
  else match path_match pattern (ck_ID check) with
       | None => Err ("invalid pattern " +:+ quote pattern +:+ ": syntax error in pattern")
       | Some matched => Ok matched
       end.
End Selector.

(** ** registry.go *)
Section Registry.
Context `{SV : Semver}.

Definition CheckRegistry : Type := gmap string Check.

Definition NewRegistry : gmap string Check := ∅.

Definition Register (r : gmap string Check) (check : Check) : res string (gmap string Check) :=
  match r !! ck_ID check with
  | Some _ => Err ("check with ID " +:+ ck_ID check +:+ " already registered")
  | None => Ok (<[ck_ID check := check]> r)
  end.

Definition MustRegister (r : gmap string Check) (check : Check) : res string (gmap string Check) :=
  match Register r check with
  | Err err => Panic ("failed to register check " +:+ ck_ID check +:+ ": " +:+ err)
  | m => m
  end.

Definition Registry_Get (r : gmap string Check) (id : string) : option Check := r !! id.

Context `{MO : MapOrder}.

Definition range_checks (r : gmap string Check) : list Check := (map_range r).*2.

Definition ListByGroup (r : gmap string Check) (group : CheckGroup) : list Check :=
  List.filter (λ c, String.eqb (ck_Group c) group) (range_checks r).

(** A group filter; the empty group admits every check. *)
Definition in_group (group : CheckGroup) (c : Check) : bool :=
  String.eqb group "" || String.eqb (ck_Group c) group.

Definition ListBySelector (r : gmap string Check) (group : CheckGroup) : list Check :=
  List.filter (in_group group) (range_checks r).

Definition ListAll (r : gmap string Check) : list Check := range_checks r.

(** The loop over the patterns, left at the first match. *)
Fixpoint matches_any (check : Check) (patterns : list string) : res string bool :=
  match patterns with
  | [] => Ok false
  | pattern :: rest =>
      try! matched := matchesPattern check pattern
        else (λ err, "pattern matching for check " +:+ ck_ID check +:+ ": " +:+ err) in
      if (matched : bool) then Ok true else matches_any check rest
  end.

Fixpoint list_by_patterns (checks : list Check) (patterns : list string) (group : CheckGroup)
    : res string (list Check) :=
  match checks with
  | [] => Ok []
  | check :: rest =>
      if negb (in_group group check) then list_by_patterns rest patterns group
      else
        let! matched := matches_any check patterns in
        let! result := list_by_patterns rest patterns group in
        Ok (if (matched : bool) then check :: result else result)
  end.

Definition ListByPatterns (r : gmap string Check) (patterns : list string) (group : CheckGroup)
    : res string (list Check) :=
  list_by_patterns (range_checks r) patterns group.

Definition ListByPattern (r : gmap string Check) (pattern : string) (group : CheckGroup) :=
  ListByPatterns r [pattern] group.

Fixpoint matches_any_check (checks : list Check) (patterns : list string) : res string bool :=
  match checks with
  | [] => Ok false
  | check :: rest =>
      let! matched := matches_any check patterns in
      if (matched : bool) then Ok true else matches_any_check rest patterns
  end.

Definition MatchesAnyCheck (r : gmap string Check) (patterns : list string) : res string bool :=
  matches_any_check (range_checks r) patterns.

Definition AllCheckIDs `{SortSlice} (r : gmap string Check) : list string :=
  sort_strings (map_range r).*1.
End Registry.

(** ** Lemmas *)
Section RegistryLemmas.
Context `{SV : Semver}.

(** The registry invariant: a check is filed under its identifier. *)
Definition registry_ok (r : gmap string Check) : Prop := ∀ k c, r !! k = Some c → ck_ID c = k.

(** A pattern that [path.Match] can parse (shortcuts and identifiers are never
    handed to it). *)
Definition pattern_ok (pattern : string) : Prop := path_match pattern "" ≠ None.

Lemma matchesPattern_no_error c p : pattern_ok p → ∃ b, matchesPattern c p = Ok b.
Proof.
  intros Hp. unfold matchesPattern. repeat case_match; eauto.
  exfalso. apply Hp. eapply path_match_bad_indep. eassumption.
Qed.

(** The boolean meaning of a pattern that does not fail. *)
Definition matches (c : Check) (p : string) : bool :=
  match matchesPattern c p with Ok b => b | _ => false end.

Lemma matches_any_ok c ps :
  Forall pattern_ok ps → matches_any c ps = Ok (existsb (matches c) ps).
Proof.
  induction 1 as [|p ps Hp _ IH]; simpl; [done|].
  destruct (matchesPattern_no_error c p Hp) as [b Hb].
  unfold matches at 1. rewrite Hb. simpl. by destruct b.
Qed.

Lemma list_by_patterns_ok checks ps g :
  Forall pattern_ok ps →
  list_by_patterns checks ps g =
    Ok (List.filter (λ c, in_group g c && existsb (matches c) ps) checks).
Proof.
  intros Hps. induction checks as [|c checks IH]; simpl; [done|].
  destruct (in_group g c); simpl; [|done].
  rewrite matches_any_ok by done. simpl. rewrite IH. simpl. by destruct (existsb _ ps).
Qed.

Lemma matches_any_check_ok checks ps :
  Forall pattern_ok ps →
  matches_any_check checks ps = Ok (existsb (λ c, existsb (matches c) ps) checks).
Proof.
  intros Hps. induction checks as [|c checks IH]; simpl; [done|].
  rewrite matches_any_ok by done. simpl. by destruct (existsb _ ps).
Qed.

Lemma elem_of_range_checks `{MapOrder} r c :
  registry_ok r → c ∈ range_checks r ↔ r !! ck_ID c = Some c.
Proof.
  intros Hok. unfold range_checks. rewrite list_elem_of_fmap. split.
  - intros ([k c'] & -> & Hin). apply elem_of_map_range in Hin. simpl. by rewrite (Hok _ _ Hin).
  - intros Hc. exists (ck_ID c, c). split; [done|]. by apply elem_of_map_range.
Qed.

Lemma range_checks_ids `{MapOrder} r :
  registry_ok r → map ck_ID (range_checks r) = (map_range r).*1.
Proof.
  intros Hok. unfold range_checks. rewrite <-list_fmap_compose. apply list_fmap_ext.
  intros i [k c] Hi. simpl. apply Hok, elem_of_map_range, list_elem_of_lookup. eauto.
Qed.

Lemma registry_ok_empty : registry_ok NewRegistry.
Proof. intros k c Hk. unfold NewRegistry in Hk. by rewrite lookup_empty in Hk. Qed.

Lemma Register_ok r c r' : registry_ok r → Register r c = Ok r' → registry_ok r'.
Proof.
  intros Hok. unfold Register. destruct (r !! ck_ID c); [done|]. intros [= <-] k d.
  rewrite lookup_insert. case_decide; [naive_solver|]. apply Hok.
Qed.

Lemma NoDup_map_filter {A B} (g : A → B) (f : A → bool) (l : list A) :
  NoDup (map g l) → NoDup (map g (List.filter f l)).
Proof.
  induction l as [|x l IH]; simpl; [done|]. intros [Hx Hl]%NoDup_cons.
  case_match; simpl; [|auto]. constructor; [|auto]. intros Hin. apply Hx.
  rewrite list_elem_of_In, in_map_iff in Hin. destruct Hin as (y & <- & Hy).
  apply filter_In in Hy as [Hy _]. by apply list_elem_of_In, in_map.
Qed.

Lemma filter_perm {A} (f : A → bool) (l1 l2 : list A) :
  l1 ≡ₚ l2 → List.filter f l1 ≡ₚ List.filter f l2.
Proof.
  induction 1 as [|x l1 l2 _ IH|x y l|l1 l2 l3 _ IH1 _ IH2]; simpl; [done| | |by etrans].
  - case_match; [by constructor|done].
  - repeat case_match; done || constructor.
Qed.
End RegistryLemmas.

#[export] Hint Resolve registry_ok_empty Register_ok : go_registry.

Lemma foldl_option_id (opts : list ConditionOption) c :
  Forall (λ o, ∀ c, c_Status (o c) = c_Status c ∧ c_Impact (o c) = c_Impact c) opts →
  c_Status (foldl (λ c o, o c) c opts) = c_Status c ∧ c_Impact (foldl (λ c o, o c) c opts) = c_Impact c.
Proof.
  intros Ho. revert c. induction Ho as [|o opts Ho _ IH]; intros c; simpl; [done|].
  destruct (IH (o c)) as [-> ->]. apply Ho.
Qed.

Lemma NewCondition_Ok `{Clock} {E} ty st opts (c : Condition) :
  NewCondition (E := E) ty st opts = Ok c → Condition_Validate c = Ok ().
Proof.
  unfold NewCondition. destruct (Condition_Validate _) as [[]| |] eqn:Hv; [|done..]. by intros [= <-].
Qed.

(** A check for concrete runs: its Validate reports one condition. *)
Module CheckRun.
Definition base (id group kind : string) : @Check VersionRun.semver :=
  {| ck_ID := id; ck_Name := id; ck_Description := "d"; ck_Group := group; ck_CheckKind := kind;
     ck_CheckType := "t"; ck_CanApply _ _ := Ok true; ck_Validate _ _ := Ok None |}.
Definition dash := base "components.dashboard.accelerator" "component" "dashboard".
Definition note := base "workloads.notebook.impacted" "workload" "notebook".
Definition reg : gmap string Check := <[ck_ID note := note]> (<[ck_ID dash := dash]> ∅).
Lemma reg_ok : registry_ok reg.
Proof.
  intros k c. unfold reg. rewrite !lookup_insert. repeat case_decide; [naive_solver..|].
  by rewrite lookup_empty.
Qed.
End CheckRun.

(** ** Properties *)
Module CheckSpec.
(** A condition is built or the program panics; it panics never when the
    options leave status and impact alone and the status is one of the three
    known ones, and every condition that is built satisfies the
    status/impact rule, its impact being derived from the status: none
    exactly for True, advisory for False and Unknown. *)
Theorem NewCondition_total `{Clock} {E} (ty : string) (st : ConditionStatus) (opts : list ConditionOption) :
  (∀ o, o ∈ opts → ∀ c, c_Status (o c) = c_Status c ∧ c_Impact (o c) = c_Impact c) →
  status_named st = true →
  ∃ c, NewCondition (E := E) ty st opts = Ok c ∧ Condition_Validate c = Ok () ∧
    c_Status c = st ∧ c_Impact c = (if bool_decide (st = ConditionTrue) then ImpactNone else ImpactAdvisory).
Proof.
  intros Hopts Hst. unfold NewCondition.
  set (c0 := mkCondition ty st "" "" now (deriveImpact st) "").
  destruct (foldl_option_id opts c0) as [Hs Hi]; [by apply Forall_forall|].
  set (c := foldl (λ c o, o c) c0 opts) in *.
  assert (Condition_Validate c = Ok ()) as Hv.
  { apply Condition_Validate_Ok. rewrite Hs, Hi. subst c0. simpl. unfold deriveImpact.
    by destruct st. }
  rewrite Hv. exists c. split; [done|]. rewrite Hs, Hi. done.
Qed.

Lemma NewCondition_total_witness (clock := 0 : Clock) :
  status_named ConditionUnknown = true ∧
  ∃ c, NewCondition (H := clock) (E := go_error) "Validated" ConditionUnknown
         [WithReason "CheckExecutionFailed"; WithMessage "m"] = Ok c ∧
    Condition_Validate c = Ok () ∧ c_Status c = ConditionUnknown ∧ c_Impact c = ImpactAdvisory.
Proof.
  split; [reflexivity|].
  apply (NewCondition_total (H := clock) (E := go_error) "Validated" ConditionUnknown); [|reflexivity].
  intros o Ho. repeat (apply elem_of_cons in Ho as [->|Ho]; [done|]). by apply elem_of_nil in Ho.
Defined.

(** Registration keeps the registry filed by identifier, never replaces
    a check, makes the new check visible and leaves the others alone; it
    fails exactly on a duplicate identifier, where MustRegister panics. *)
Theorem Register_spec `{SV : Semver} (r : gmap string Check) (c : Check) :
  registry_ok r →
  match Register r c with
  | Ok r' => r !! ck_ID c = None ∧ registry_ok r' ∧ r' !! ck_ID c = Some c ∧
             (∀ id, id ≠ ck_ID c → r' !! id = r !! id) ∧ MustRegister r c = Ok r'
  | Err _ => is_Some (r !! ck_ID c) ∧ ∃ msg, MustRegister r c = Panic msg
  | Panic _ => False
  end.
Proof.
  intros Hok. destruct (Register r c) as [r'|e|s] eqn:Hr.
  - pose proof (Register_ok _ _ _ Hok Hr) as Hok'. unfold MustRegister. rewrite Hr.
    unfold Register in Hr. destruct (r !! ck_ID c) eqn:Hc; [done|]. injection Hr as <-.
    split; [done|]. split; [done|]. split; [apply lookup_insert_eq|]. split; [|done].
    intros id Hne. by apply lookup_insert_ne.
  - unfold MustRegister. rewrite Hr. unfold Register in Hr.
    destruct (r !! ck_ID c) eqn:Hc; [|done]. split; [eauto|eauto].
  - unfold Register in Hr. by destruct (r !! ck_ID c).
Qed.

Lemma Register_spec_witness :
  registry_ok CheckRun.reg ∧ ∃ msg, MustRegister CheckRun.reg CheckRun.dash = Panic msg.
Proof.
  split; [apply CheckRun.reg_ok|].
  pose proof (Register_spec CheckRun.reg CheckRun.dash CheckRun.reg_ok) as H.
  assert (Hr : ∃ e, Register CheckRun.reg CheckRun.dash = Err e) by (eexists; vm_compute; reflexivity).
  destruct Hr as [e Hr]. rewrite Hr in H. exact (proj2 H).
Defined.

(** C24: Selection by patterns: when every pattern parses, the result holds
    exactly the registered checks of the group that match some pattern, each
    once, and two map iteration orders give the same checks. *)
Theorem ListByPatterns_spec `{SV : Semver} (O1 O2 : MapOrder) (r : gmap string Check) patterns group :
  registry_ok r → Forall pattern_ok patterns →
  ∃ l1 l2, ListByPatterns (MO := O1) r patterns group = Ok l1 ∧
           ListByPatterns (MO := O2) r patterns group = Ok l2 ∧ l1 ≡ₚ l2 ∧
    NoDup (map ck_ID l1) ∧
    (∀ c, c ∈ l1 ↔ r !! ck_ID c = Some c ∧ in_group group c = true ∧
                    ∃ p, p ∈ patterns ∧ matchesPattern c p = Ok true).
Proof.
  intros Hok Hps. unfold ListByPatterns. rewrite !list_by_patterns_ok by done.
  do 2 eexists. split; [reflexivity|]. split; [reflexivity|]. split.
  { apply filter_perm. unfold range_checks. apply fmap_Permutation, map_range_orders. }
  split.
  - apply NoDup_map_filter. rewrite range_checks_ids by done. apply NoDup_map_range.
  - intros c. rewrite list_elem_of_In, filter_In, <-list_elem_of_In, elem_of_range_checks by done.
    rewrite andb_true_iff, existsb_exists. unfold matches.
    setoid_rewrite <-list_elem_of_In.
    split.
    + intros (Hc & Hg & p & Hp & Hm). do 2 (split; [done|]). exists p. split; [done|].
      destruct (matchesPattern c p) as [b| |]; [by destruct b|done..].
    + intros (Hc & Hg & p & Hp & Hm). do 2 (split; [done|]). exists p. by rewrite Hm.
Qed.

Lemma ListByPatterns_spec_witness :
  (registry_ok CheckRun.reg ∧ Forall pattern_ok ["components.*"; "workloads"]) ∧
  ∃ l1 l2, ListByPatterns CheckRun.reg ["components.*"; "workloads"] "component" = Ok l1 ∧
           ListByPatterns CheckRun.reg ["components.*"; "workloads"] "component" = Ok l2 ∧ l1 ≡ₚ l2.
Proof.
  assert (Hps : Forall pattern_ok ["components.*"; "workloads"]) by (repeat constructor; by vm_compute).
  split; [split; [apply CheckRun.reg_ok|exact Hps]|].
  destruct (ListByPatterns_spec canonical_MapOrder canonical_MapOrder CheckRun.reg _ "component"
    CheckRun.reg_ok Hps) as (l1 & l2 & H1 & H2 & Hp & _).
  exists l1, l2. split; [exact H1|]. split; [exact H2|exact Hp].
Defined.

(** The early selector validation agrees with the selection: when every
    pattern parses, MatchesAnyCheck answers true exactly when selecting over
    all groups finds a check. *)
Theorem MatchesAnyCheck_iff_selection `{SV : Semver} `{MO : MapOrder} (r : gmap string Check) patterns :
  Forall pattern_ok patterns →
  ∃ b l, MatchesAnyCheck r patterns = Ok b ∧ ListByPatterns r patterns "" = Ok l ∧
    (b = true ↔ l ≠ []).
Proof.
  intros Hps. unfold MatchesAnyCheck, ListByPatterns.
  rewrite matches_any_check_ok, list_by_patterns_ok by done.
  do 2 eexists. do 2 (split; [reflexivity|]). simpl.
  induction (range_checks r) as [|c cs IH]; simpl; [done|].
  destruct (existsb (matches c) patterns); simpl; [done|exact IH].
Qed.

Lemma MatchesAnyCheck_iff_selection_witness :
  Forall pattern_ok ["*dash*"] ∧
  ∃ b l, MatchesAnyCheck CheckRun.reg ["*dash*"] = Ok b ∧
    ListByPatterns CheckRun.reg ["*dash*"] "" = Ok l ∧ (b = true ↔ l ≠ []).
Proof.
  assert (Hps : Forall pattern_ok ["*dash*"]) by (repeat constructor; by vm_compute).
  split; [exact Hps|]. by apply MatchesAnyCheck_iff_selection.
Defined.

(** AllCheckIDs lists every registered identifier once, in byte order,
    whatever the map iteration order and the sorting algorithm are. *)
Theorem AllCheckIDs_deterministic `{SV : Semver} (O1 O2 : MapOrder) (S1 S2 : SortSlice)
    (r : gmap string Check) :
  AllCheckIDs (MO := O1) (H := S1) r = AllCheckIDs (MO := O2) (H := S2) r ∧
  StronglySorted String.le (AllCheckIDs (MO := O1) (H := S1) r) ∧
  NoDup (AllCheckIDs (MO := O1) (H := S1) r) ∧
  (∀ id, id ∈ AllCheckIDs (MO := O1) (H := S1) r ↔ is_Some (r !! id)).
Proof.
  unfold AllCheckIDs. split.
  { apply sort_strings_unique, fmap_Permutation, map_range_orders. }
  split; [apply sort_strings_sorted|]. split.
  { rewrite sort_strings_perm. apply NoDup_map_range. }
  intros id. rewrite sort_strings_perm, list_elem_of_fmap. split.
  - intros ([k c] & -> & Hin). apply elem_of_map_range in Hin. eauto.
  - intros [c Hc]. exists (id, c). split; [done|]. by apply elem_of_map_range.
Qed.

(** What a selector means: a check is always selected by its own
    identifier, by the star and by the shortcut of its group; and a literal
    prefix followed by a star selects the identifiers that extend the prefix
    (identifiers hold no slash). *)
Theorem selector_semantics `{SV : Semver} (c : Check) (prefix : string) :
  contains_byte slash (ck_ID c) = false → plain prefix = true → prefix ≠ "" →
  (ck_ID c ∉ ["components"; "dependencies"; "platform"; "services"; "workloads"] →
    matchesPattern c (ck_ID c) = Ok true) ∧
  matchesPattern c "*" = Ok true ∧
  matchesPattern c "components" = Ok (bool_decide (ck_Group c = "component")) ∧
  matchesPattern c (prefix +:+ "*") = Ok (has_prefix prefix (ck_ID c)) ∧
  (prefix ∉ ["components"; "dependencies"; "platform"; "services"; "workloads"] →
    matchesPattern c prefix = Ok (bool_decide (prefix = ck_ID c))).
Proof.
  intros Hid Hp Hne. unfold matchesPattern. split.
  { intros Hn. rewrite String.eqb_refl.
    repeat (match goal with |- context [String.eqb ?a ?b] => destruct (String.eqb_spec a b) as [Heq|_] end;
      [first [done|exfalso; apply Hn; rewrite Heq; set_solver]|]).
    done. }
  split; [done|]. split.
  { simpl. f_equal. by destruct (String.eqb_spec (ck_Group c) GroupComponent) as [->|?];
      [rewrite bool_decide_eq_true_2|rewrite bool_decide_eq_false_2]. }
  split.
  - assert (Hlast : ∀ q : string, contains_byte "*"%char q = false → String.eqb (prefix +:+ "*") q = false).
    { intros q Hq. apply String.eqb_neq. intros <-. rewrite contains_byte_app, orb_false_iff in Hq.
      by destruct Hq as [_ ?]. }
    assert (String.eqb (prefix +:+ "*") "*" = false) as ->.
    { apply String.eqb_neq. intros Heq. apply Hne. destruct prefix as [|a p]; [done|].
      injection Heq as -> Heq. by destruct p. }
    rewrite !Hlast by done.
    destruct (String.eqb_spec (prefix +:+ "*") (ck_ID c)) as [Heq|_].
    { by rewrite <-Heq, has_prefix_app. }
    rewrite path_match_prefix_star by done. f_equal.
    destruct (has_prefix prefix (ck_ID c)) eqn:Hpre; [|done]. simpl.
    apply has_prefix_spec in Hpre as [r Hr]. rewrite Hr, drop_bytes_app.
    rewrite Hr, contains_byte_app, orb_false_iff in Hid. by destruct Hid as [_ ->].
  - intros Hn.
    assert (String.eqb prefix "*" = false) as ->.
    { apply String.eqb_neq. by intros ->. }
    repeat (match goal with |- context [String.eqb prefix ?b] =>
      lazymatch b with ck_ID _ => fail | _ => destruct (String.eqb_spec prefix b) as [Heq|_] end end;
      [exfalso; apply Hn; rewrite Heq; set_solver|]).
    rewrite path_match_plain by done.
    destruct (String.eqb_spec prefix (ck_ID c)); [by rewrite bool_decide_eq_true_2|].
    by rewrite bool_decide_eq_false_2.
Qed.

Lemma selector_semantics_witness :
  (contains_byte slash (ck_ID CheckRun.dash) = false ∧ plain "components." = true ∧ "components." ≠ "") ∧
  matchesPattern CheckRun.dash ("components." +:+ "*") = Ok (has_prefix "components." (ck_ID CheckRun.dash)).
Proof.
  split; [by split|]. by apply (selector_semantics CheckRun.dash "components.").
Defined.
End CheckSpec.
