(* ===== verification/Verbose.v ===== *)
(** * Verbose: pkg/lint/check/verbose_formatter.go

    The renderings of impacted objects in the verbose table: grouped by
    namespace with the default formatter, and with CRD-qualified names, object
    contexts and requesters with the enhanced one.  An output is the list of
    its lines.  The grouping is shared with the checks that bring a formatter of
    their own. *)
From Stdlib Require Import Ascii.
From S2P Require Import Prelude GoStrings Errors Client Result.
Open Scope string_scope.

(** ** Grouping by a key, as every formatter does it *)
(** [m[key(x)] = append(m[key(x)], x)]. *)
Definition group_add {A} (key : A → string) (m : gmap string (list A)) (x : A) : gmap string (list A) :=
  <[key x := (default [] (m !! key x) ++ [x])%list]> m.
Definition group_by {A} (key : A → string) (l : list A) : gmap string (list A) := foldl (group_add key) ∅ l.

(** The keys of a map, collected in map order and sorted. *)
Definition sorted_keys `{MO : MapOrder, SS : SortSlice} {V} (m : gmap string V) : list string :=
  sort_strings (map_range m).*1.

Definition with_key {A} (key : A → string) (k : string) (l : list A) : list A :=
  List.filter (λ x, String.eqb (key x) k) l.

(** ** The default formatter *)
Record namespaceGroup := mkGroup { ng_namespace : string; ng_objects : list PartialObjectMetadata }.

Definition formatImpactedObject (obj : PartialObjectMetadata) : string :=
  if negb (String.eqb (tm_Kind (po_TypeMeta obj)) "")
  then po_Name obj +:+ " (" +:+ tm_Kind (po_TypeMeta obj) +:+ ")" else po_Name obj.

Definition groupByNamespace `{MO : MapOrder, SS : SortSlice} (objects : list PartialObjectMetadata)
    : list namespaceGroup :=
  let nsMap := group_by po_Namespace objects in
  map (λ ns, mkGroup ns (default [] (nsMap !! ns))) (sorted_keys nsMap).

(** A requester of the namespace that is not empty; a nil map has none. *)
Definition requester_of (requesters : option (gmap string string)) (ns : string) : option string :=
  match requesters with
  | Some m => match m !! ns with Some r => if String.eqb r "" then None else Some r | None => None end
  | None => None
  end.

Definition default_block (requesters : option (gmap string string)) (nsg : namespaceGroup) : list string :=
  if String.eqb (ng_namespace nsg) "" then map (λ obj, "    - " +:+ formatImpactedObject obj) (ng_objects nsg)
  else
    let nsHeader := match requester_of requesters (ng_namespace nsg) with
      | Some requester => ng_namespace nsg +:+ " (requester: " +:+ requester +:+ ")"
      | None => ng_namespace nsg
      end in
    ("    " +:+ nsHeader +:+ ":") :: map (λ obj, "      - " +:+ formatImpactedObject obj) (ng_objects nsg).

Definition Default_FormatVerboseOutput `{MO : MapOrder, SS : SortSlice} (requesters : option (gmap string string))
    (dr : DiagnosticResult) : list string :=
  concat (map (default_block requesters) (groupByNamespace (default [] (r_ImpactedObjects dr)))).

(** ** Qualified names *)
Definition DeriveCRDFQNFromTypeMeta (objects : list PartialObjectMetadata) : string :=
  match objects with
  | [] => ""
  | obj :: _ =>
      let kind := tm_Kind (po_TypeMeta obj) in
      if String.eqb kind "" then ""
      else
        let plural := to_lower kind +:+ "s" in
        let apiVersion := tm_APIVersion (po_TypeMeta obj) in
        if String.eqb apiVersion "" then plural
        else match cut_first slash apiVersion with
             | None => plural
             | Some (group, _) => plural +:+ "." +:+ group
             end
  end.

(** [if name, ok := m[k]; ok && name != ""]. *)
Definition nonempty_at (m : gmap string string) (k : string) : option string :=
  match m !! k with Some name => if String.eqb name "" then None else Some name | None => None end.

Definition CRDFullyQualifiedName (dr : DiagnosticResult) : string :=
  match nonempty_at (r_Annotations dr) AnnotationResourceCRDName with
  | Some name => name
  | None => DeriveCRDFQNFromTypeMeta (default [] (r_ImpactedObjects dr))
  end.

Definition obj_Kind (obj : PartialObjectMetadata) : string := tm_Kind (po_TypeMeta obj).
Definition add_kind (fqnByKind : gmap string string) (obj : PartialObjectMetadata) : gmap string string :=
  match fqnByKind !! obj_Kind obj with
  | Some _ => fqnByKind
  | None =>
      <[obj_Kind obj := match nonempty_at (po_Annotations obj) AnnotationObjectCRDName with
                        | Some name => name
                        | None => DeriveCRDFQNFromTypeMeta [obj]
                        end]> fqnByKind
  end.
Definition buildCRDFQNByKind (dr : DiagnosticResult) : gmap string string :=
  let fqnByKind := foldl add_kind ∅ (default [] (r_ImpactedObjects dr)) in
  if (size fqnByKind =? 1)%nat then
    match nonempty_at (r_Annotations dr) AnnotationResourceCRDName with
    | Some name => (λ _, name) <$> fqnByKind
    | None => fqnByKind
    end
  else fqnByKind.

(** ** The enhanced formatter *)
Record qualifiedObject := mkQualified { qo_name : string; qo_crdFQN : string; qo_context : string }.

Definition qualify (fqnByKind : gmap string string) (obj : PartialObjectMetadata) : qualifiedObject :=
  mkQualified (po_Name obj) (default "" (fqnByKind !! obj_Kind obj))
    (default "" (po_Annotations obj !! AnnotationObjectContext)).

(** [nsMap[obj.Namespace] = append(..., qualifiedObject{...})]. *)
Definition qualified_by_namespace (dr : DiagnosticResult) : gmap string (list qualifiedObject) :=
  let fqn := buildCRDFQNByKind dr in
  (λ objs, map (qualify fqn) objs) <$> group_by po_Namespace (default [] (r_ImpactedObjects dr)).

Definition qualified_less (a b : qualifiedObject) : bool :=
  if negb (String.eqb (qo_crdFQN a) (qo_crdFQN b)) then string_less (qo_crdFQN a) (qo_crdFQN b)
  else string_less (qo_name a) (qo_name b).

Definition namespaceHeader (requesters : option (gmap string string)) (ns : string) : string :=
  match requester_of requesters ns with
  | Some requester => "namespace: " +:+ ns +:+ " | requester: " +:+ requester
  | None => "namespace: " +:+ ns
  end.

Definition qualified_lines (indent : string) (obj : qualifiedObject) : list string :=
  (indent +:+ "- " +:+ qo_crdFQN obj +:+ "/" +:+ qo_name obj) ::
  (if negb (String.eqb (qo_context obj) "") then [indent +:+ "  — (" +:+ qo_context obj +:+ ")"] else []).
Definition writeQualifiedObjects (objects : list qualifiedObject) (indent : string) : list string :=
  concat (map (qualified_lines indent) objects).

Definition enhanced_block (requesters : option (gmap string string)) (ns : string) (objects : list qualifiedObject)
    : list string :=
  if String.eqb ns "" then writeQualifiedObjects objects "      "
  else ("      " +:+ namespaceHeader requesters ns) :: writeQualifiedObjects objects "        ".

(** A blank line between the groups. *)
Fixpoint spaced (blocks : list (list string)) : list string :=
  match blocks with
  | [] => []
  | [b] => b
  | b :: rest => (b ++ "" :: spaced rest)%list
  end.

Definition enhanced_layout `{MO : MapOrder, SS : SortSlice} (dr : DiagnosticResult)
    : list (string * list qualifiedObject) :=
  let nsMap := qualified_by_namespace dr in
  map (λ ns, (ns, sort_slice qualified_less (default [] (nsMap !! ns)))) (sorted_keys nsMap).
Definition Enhanced_FormatVerboseOutput `{MO : MapOrder, SS : SortSlice} (requesters : option (gmap string string))
    (dr : DiagnosticResult) : list string :=
  spaced (map (λ g, enhanced_block requesters g.1 g.2) (enhanced_layout dr)).

(** ** Lemmas *)
Lemma group_by_snoc {A} (key : A → string) l x : group_by key (l ++ [x])%list = group_add key (group_by key l) x.
Proof. unfold group_by. by rewrite foldl_app. Qed.

(** The bucket of a key holds the elements with that key, in order. *)
Lemma group_by_lookup {A} (key : A → string) (l : list A) k :
  group_by key l !! k = match with_key key k l with [] => None | xs => Some xs end.
Proof.
  induction l as [|x l IH] using rev_ind; [done|].
  rewrite group_by_snoc. unfold with_key, group_add. rewrite List.filter_app. simpl.
  destruct (String.eqb_spec (key x) k) as [<-|Hne].
  - rewrite lookup_insert_eq, IH. unfold with_key. by destruct (List.filter _ l).
  - by rewrite lookup_insert_ne, app_nil_r, IH.
Qed.

Lemma group_by_bucket {A} (key : A → string) (l : list A) k : default [] (group_by key l !! k) = with_key key k l.
Proof. rewrite group_by_lookup. by destruct (with_key key k l). Qed.

Lemma with_key_nonempty {A} (key : A → string) k (l : list A) : with_key key k l ≠ [] ↔ k ∈ map key l.
Proof.
  unfold with_key. induction l as [|x l IH]; simpl; [rewrite elem_of_nil; naive_solver|].
  rewrite elem_of_cons. destruct (String.eqb_spec (key x) k); naive_solver.
Qed.

Lemma elem_of_sorted_keys `{MO : MapOrder, SS : SortSlice} {V} (m : gmap string V) k :
  k ∈ sorted_keys m ↔ is_Some (m !! k).
Proof.
  unfold sorted_keys. rewrite sort_strings_perm, list_elem_of_fmap. split.
  - intros ([k' v] & -> & Hin%elem_of_map_range). eauto.
  - intros [v Hv]. exists (k, v). split; [done|]. by apply elem_of_map_range.
Qed.

Lemma NoDup_sorted_keys `{MO : MapOrder, SS : SortSlice} {V} (m : gmap string V) : NoDup (sorted_keys m).
Proof. unfold sorted_keys. rewrite sort_strings_perm. apply NoDup_map_range. Qed.

Lemma sorted_keys_unique (O1 O2 : MapOrder) (S1 S2 : SortSlice) {V} (m : gmap string V) :
  sorted_keys (MO := O1) (SS := S1) m = sorted_keys (MO := O2) (SS := S2) m.
Proof. apply sort_strings_unique, fmap_Permutation, map_range_orders. Qed.

Lemma elem_of_group_keys `{MO : MapOrder, SS : SortSlice} {A} (key : A → string) (l : list A) k :
  k ∈ sorted_keys (group_by key l) ↔ k ∈ map key l.
Proof.
  rewrite elem_of_sorted_keys, group_by_lookup, <-with_key_nonempty.
  destruct (with_key key k l); split; intros H; [by destruct H|done|done|by eexists].
Qed.

Lemma with_key_cons_concat {A} (key : A → string) x (l : list A) ks :
  NoDup ks → key x ∈ ks →
  concat (map (λ k, with_key key k (x :: l)) ks) ≡ₚ x :: concat (map (λ k, with_key key k l) ks).
Proof.
  induction 1 as [|k ks Hk _ IH]; intros Hx; [by apply elem_of_nil in Hx|]. cbn [map concat].
  assert (key x ∉ ks → map (λ k, with_key key k (x :: l)) ks = map (λ k, with_key key k l) ks) as Hout.
  { intros Hn. apply map_ext_in. intros k' Hk'%list_elem_of_In. unfold with_key. simpl.
    by destruct (String.eqb_spec (key x) k') as [<-|]. }
  apply elem_of_cons in Hx as [<-|Hx].
  - rewrite Hout by done. unfold with_key at 1. simpl. by rewrite String.eqb_refl.
  - rewrite IH by done. unfold with_key at 1. simpl.
    destruct (String.eqb_spec (key x) k) as [<-|]; [done|]. fold (with_key key k l). by rewrite Permutation_middle.
Qed.

(** The buckets of enough keys are a permutation of the list. *)
Lemma buckets_perm {A} (key : A → string) (l : list A) ks :
  NoDup ks → (∀ x, x ∈ l → key x ∈ ks) → concat (map (λ k, with_key key k l) ks) ≡ₚ l.
Proof.
  intros Hks. induction l as [|x l IH]; intros Hin.
  - clear Hin. by induction Hks.
  - rewrite with_key_cons_concat; [|done|by apply Hin; left]. rewrite IH; [done|]. intros y Hy. apply Hin. by right.
Qed.

Lemma group_by_perm `{MO : MapOrder, SS : SortSlice} {A} (key : A → string) (l : list A) :
  concat (map (λ k, with_key key k l) (sorted_keys (group_by key l))) ≡ₚ l.
Proof.
  apply buckets_perm; [apply NoDup_sorted_keys|]. intros x Hx. apply elem_of_group_keys.
  apply list_elem_of_In, in_map. by apply list_elem_of_In.
Qed.

Lemma qualified_less_strict : StrictWeak qualified_less.
Proof. apply (string_less2_strict qo_crdFQN qo_name). Qed.

Lemma qualified_less_eq a b :
  qualified_less a b = false → qualified_less b a = false → qo_crdFQN a = qo_crdFQN b ∧ qo_name a = qo_name b.
Proof. apply (string_less2_eq qo_crdFQN qo_name). Qed.

Lemma add_kinds_lookup m objs k :
  foldl add_kind m objs !! k =
    match m !! k with
    | Some v => Some v
    | None =>
        match find (λ o, String.eqb (obj_Kind o) k) objs with
        | Some o => Some (match nonempty_at (po_Annotations o) AnnotationObjectCRDName with
                          | Some name => name | None => DeriveCRDFQNFromTypeMeta [o] end)
        | None => None
        end
    end.
Proof.
  revert m. induction objs as [|o objs IH]; intros m; simpl; [by destruct (m !! k)|].
  rewrite IH. unfold add_kind. destruct (m !! obj_Kind o) as [v|] eqn:Ho.
  - destruct (m !! k) eqn:Hk; [done|]. destruct (String.eqb_spec (obj_Kind o) k) as [<-|]; [congruence|done].
  - destruct (String.eqb_spec (obj_Kind o) k) as [<-|Hne].
    + rewrite lookup_insert_eq, Ho. done.
    + by rewrite lookup_insert_ne.
Qed.

(** ** Properties *)
Module VerboseSpec.
(** The default rendering is a function of the result: neither the iteration
    order of the map nor the sorting algorithm shows.  It consists of one block
    per namespace, the namespaces in strict byte order, and the blocks hold
    every impacted object exactly once, below its own namespace and in the
    order of the result. *)
Theorem default_output_exact (O1 O2 : MapOrder) (S1 S2 : SortSlice) requesters (dr : DiagnosticResult) :
  let objects := default [] (r_ImpactedObjects dr) in
  let groups := groupByNamespace (MO := O1) (SS := S1) objects in
  Default_FormatVerboseOutput (MO := O1) (SS := S1) requesters dr =
    Default_FormatVerboseOutput (MO := O2) (SS := S2) requesters dr ∧
  Default_FormatVerboseOutput (MO := O1) (SS := S1) requesters dr = concat (map (default_block requesters) groups) ∧
  StronglySorted String.le (map ng_namespace groups) ∧ NoDup (map ng_namespace groups) ∧
  concat (map ng_objects groups) ≡ₚ objects ∧
  (∀ g, g ∈ groups → ng_objects g = with_key po_Namespace (ng_namespace g) objects ∧ ng_objects g ≠ []).
Proof.
  intros objects groups.
  assert (∀ (O : MapOrder) (S : SortSlice), groupByNamespace (MO := O) (SS := S) objects =
    map (λ ns, mkGroup ns (with_key po_Namespace ns objects)) (sorted_keys (MO := O) (SS := S) (group_by po_Namespace objects))) as Hg.
  { intros O S. unfold groupByNamespace. apply map_ext. intros ns. by rewrite group_by_bucket. }
  split; [|split; [done|]].
  { unfold Default_FormatVerboseOutput. fold objects. by rewrite !Hg, (sorted_keys_unique O1 O2 S1 S2). }
  assert (map ng_namespace groups = sorted_keys (MO := O1) (SS := S1) (group_by po_Namespace objects)) as Hns.
  { subst groups. rewrite Hg, map_map. simpl. apply map_id. }
  split; [rewrite Hns; apply sort_strings_sorted|]. split; [rewrite Hns; apply NoDup_sorted_keys|].
  subst groups. rewrite Hg, map_map. simpl. split; [apply (group_by_perm (MO := O1) (SS := S1))|].
  intros g (ns & -> & Hin)%list_elem_of_fmap. split; [done|]. simpl.
  apply with_key_nonempty. by apply (elem_of_group_keys (MO := O1) (SS := S1)).
Qed.

(** The enhanced rendering: one block per namespace in strict byte order; a
    block holds the objects of its namespace, qualified and sorted by CRD name
    and name.  The output does not depend on map order or sorting algorithm as
    long as two objects of one namespace with the same qualified name have the
    same context. *)
Theorem enhanced_output_exact (O1 O2 : MapOrder) (S1 S2 : SortSlice) requesters (dr : DiagnosticResult) :
  let objects := default [] (r_ImpactedObjects dr) in
  let qualified ns := map (qualify (buildCRDFQNByKind dr)) (with_key po_Namespace ns objects) in
  let layout := enhanced_layout (MO := O1) (SS := S1) dr in
  (∀ ns a b, a ∈ qualified ns → b ∈ qualified ns →
     qo_crdFQN a = qo_crdFQN b → qo_name a = qo_name b → qo_context a = qo_context b) →
  Enhanced_FormatVerboseOutput (MO := O1) (SS := S1) requesters dr =
    Enhanced_FormatVerboseOutput (MO := O2) (SS := S2) requesters dr ∧
  StronglySorted String.le (map fst layout) ∧ NoDup (map fst layout) ∧
  (∀ ns, ns ∈ map fst layout ↔ ns ∈ map po_Namespace objects) ∧
  (∀ ns block, (ns, block) ∈ layout →
     block ≡ₚ qualified ns ∧ StronglySorted (λ a b, qualified_less b a = false) block).
Proof.
  intros objects qualified layout Hctx.
  set (nss := sorted_keys (MO := O1) (SS := S1) (group_by po_Namespace objects)).
  assert (∀ (O : MapOrder) (S : SortSlice), enhanced_layout (MO := O) (SS := S) dr =
    map (λ ns, (ns, sort_slice (SortSlice := S) qualified_less (qualified ns))) nss) as Hl.
  { intros O S. unfold enhanced_layout, qualified_by_namespace. fold objects.
    assert (sorted_keys (MO := O) (SS := S)
      ((λ objs, map (qualify (buildCRDFQNByKind dr)) objs) <$> group_by po_Namespace objects) = nss) as ->.
    { unfold nss. rewrite (sorted_keys_unique O1 O S1 S). unfold sorted_keys. apply sort_strings_unique.
      rewrite !map_range_perm, map_to_list_fmap, <-list_fmap_compose. by apply fmap_Permutation. }
    apply map_ext. intros ns. f_equal. f_equal. unfold qualified. rewrite lookup_fmap, <-group_by_bucket.
    by destruct (group_by po_Namespace objects !! ns). }
  split.
  { unfold Enhanced_FormatVerboseOutput. rewrite !Hl. f_equal. rewrite !map_map. apply map_ext_in. intros ns _. simpl.
    f_equal. apply sort_slice_unique; [apply qualified_less_strict| |done].
    intros [na fa ca] [nb fb cb] Ha Hb H1 H2. destruct (qualified_less_eq _ _ H1 H2) as [Hf Hn]. simpl in *. subst.
    f_equal. exact (Hctx ns _ _ Ha Hb eq_refl eq_refl). }
  assert (map fst layout = nss) as Hns by (unfold layout; rewrite Hl, map_map; simpl; apply map_id).
  rewrite Hns. split; [apply sort_strings_sorted|]. split; [apply NoDup_sorted_keys|].
  split; [intros ns; apply elem_of_group_keys|].
  intros ns block. unfold layout. rewrite Hl. intros (ns' & [= -> ->] & _)%list_elem_of_fmap.
  split; [apply sort_slice_perm|apply sort_slice_sorted, qualified_less_strict].
Qed.

Lemma enhanced_output_exact_witness (S1 := insertion_SortSlice) (O1 := canonical_MapOrder) :
  let nb n ns := mkPartial (mkTypeMeta "kubeflow.org/v1" "Notebook") ns n ∅ in
  let dr := with_objects (New "workload" "notebook" "t" "d") [nb "b" "y"; nb "a" "y"; nb "c" ""] in
  Enhanced_FormatVerboseOutput (MO := O1) (SS := S1) (Some {["y" := "me"]}) dr =
    ["      - notebooks.kubeflow.org/c"; ""; "      namespace: y | requester: me";
     "        - notebooks.kubeflow.org/a"; "        - notebooks.kubeflow.org/b"] ∧
  (∀ ns, ns ∈ map fst (enhanced_layout (MO := O1) (SS := S1) dr) ↔ ns ∈ ["y"; "y"; ""]).
Proof.
  intros nb dr. split; [by vm_compute|].
  destruct (enhanced_output_exact O1 O1 S1 S1 None dr) as (_ & _ & _ & H & _); [|exact H].
  intros ns a b Ha Hb _ _.
  assert (∀ q, q ∈ map (qualify (buildCRDFQNByKind dr)) (with_key po_Namespace ns [nb "b" "y"; nb "a" "y"; nb "c" ""]) →
    qo_context q = "") as Hq.
  { intros q (o & -> & Ho)%list_elem_of_fmap. apply list_elem_of_In, filter_In in Ho as [Ho _].
    by repeat destruct Ho as [<-|Ho]; [..|]. }
  by rewrite (Hq _ Ha), (Hq _ Hb).
Defined.

(** Which name qualifies an object: with a single kind among the impacted
    objects the annotation of the result wins over the object's own; otherwise
    the first object of the kind decides for all of them, by its annotation if
    it has one and by its type else. *)
Theorem qualified_name_priority (dr : DiagnosticResult) (obj first : PartialObjectMetadata) :
  let objects := default [] (r_ImpactedObjects dr) in
  let own o := match nonempty_at (po_Annotations o) AnnotationObjectCRDName with
               | Some name => name | None => DeriveCRDFQNFromTypeMeta [o] end in
  obj ∈ objects → find (λ o, String.eqb (obj_Kind o) (obj_Kind obj)) objects = Some first →
  qo_crdFQN (qualify (buildCRDFQNByKind dr) obj) =
    match nonempty_at (r_Annotations dr) AnnotationResourceCRDName with
    | Some name => if bool_decide (Forall (λ o, obj_Kind o = obj_Kind obj) objects) then name else own first
    | None => own first
    end.
Proof.
  intros objects own Hobj Hfirst. unfold qualify, buildCRDFQNByKind. fold objects. simpl.
  set (m := foldl add_kind ∅ objects).
  assert (m !! obj_Kind obj = Some (own first)) as Hm.
  { unfold m. by rewrite add_kinds_lookup, lookup_empty, Hfirst. }
  assert ((size m =? 1)%nat = bool_decide (Forall (λ o, obj_Kind o = obj_Kind obj) objects)) as ->.
  { apply eq_true_iff_eq. rewrite Nat.eqb_eq, bool_decide_eq_true. split.
    - intros Hsize. assert (∃ k v, m = {[k := v]}) as (k & v & Hkv).
      { rewrite <-length_map_to_list in Hsize. rewrite <-(list_to_map_to_list m).
        destruct (map_to_list m) as [|[k v] [|]]; [done| |done]. by exists k, v. }
      rewrite Forall_forall. intros o Ho.
      assert (∀ x, x ∈ objects → obj_Kind x = k) as Hall; [|by rewrite (Hall o), (Hall obj)].
      intros x Hx. assert (is_Some (m !! obj_Kind x)) as [w Hw].
      { unfold m. rewrite add_kinds_lookup, lookup_empty.
        destruct (find (λ o, String.eqb (obj_Kind o) (obj_Kind x)) objects) eqn:Hf; [by eauto|]. exfalso.
        pose proof (find_none _ _ Hf x (proj1 (list_elem_of_In _ _) Hx)) as Hn. simpl in Hn. by rewrite String.eqb_refl in Hn. }
      rewrite Hkv in Hw. by apply lookup_singleton_Some in Hw as [? _].
    - rewrite Forall_forall. intros Hall. assert (m = {[obj_Kind obj := own first]}) as ->; [|apply map_size_singleton].
      apply map_eq. intros k. destruct (decide (k = obj_Kind obj)) as [->|Hne]; [by rewrite Hm, lookup_singleton_eq|].
      rewrite lookup_singleton_ne by done. unfold m. rewrite add_kinds_lookup, lookup_empty.
      destruct (find (λ o, String.eqb (obj_Kind o) k) objects) as [o|] eqn:Hf; [|done]. apply find_some in Hf as [Ho Hk].
      apply String.eqb_eq in Hk. destruct Hne. rewrite <-Hk. apply Hall. by apply list_elem_of_In. }
  destruct (bool_decide _); destruct (nonempty_at (r_Annotations dr) _); rewrite ?lookup_fmap, Hm; done.
Qed.

Lemma qualified_name_priority_witness :
  let o := mkPartial (mkTypeMeta "serving.kserve.io/v1" "InferenceService") "ns" "x"
    {[AnnotationObjectCRDName := "own.example.com"]} in
  let dr := with_annotation (with_objects (New "g" "k" "n" "d") [o]) AnnotationResourceCRDName "result.example.com" in
  qo_crdFQN (qualify (buildCRDFQNByKind dr) o) = "result.example.com".
Proof.
  intros o dr. refine (qualified_name_priority dr o o _ _); [by left|reflexivity].
Defined.
End VerboseSpec.
