(* ===== verification/Executor.v ===== *)
(** * Executor: pkg/lint/check/executor.go

    Sequential execution of the selected checks: the context is polled before
    each check, applicability is asked, the check is run, and failures of any
    kind are turned into results with an Unknown condition.  Log lines written
    to the stream handle are returned next to the results. *)
From S2P Require Import Prelude GoPath Errors Client Version Result Check.
Open Scope string_scope.
Open Scope Z_scope.
Open Scope go_scope.

Record CheckExecution `{Semver} := mkExec {
  ce_Check : Check;
  ce_Result : option DiagnosticResult;
  ce_Error : option go_error;
}.

Section Executor.
Context `{SV : Semver, AE : ApiErrors, CL : Clock, MO : MapOrder}.
(** whether the executor has a stream handle ([e.io != nil]) *)
Context (io : bool).

Definition with_io (target : Target) : Target :=
  {| t_CurrentVersion := t_CurrentVersion target; t_TargetVersion := t_TargetVersion target;
     t_Resource := t_Resource target; t_IO := t_IO target || io; t_Debug := t_Debug target |}.

(** An execution that reports an error in a single Unknown condition. *)
Definition error_execution (check : Check) (reason message : string) (err : go_error)
    : res go_error CheckExecution :=
  let! condition := NewCondition ConditionTypeValidated ConditionUnknown
    [WithReason reason; WithMessage message] in
  Ok {| ce_Check := check;
        ce_Result := Some (with_conditions (NewResult check) [condition]);
        ce_Error := Some err |}.

Definition buildCanApplyError (check : Check) (err : go_error) : res go_error CheckExecution :=
  error_execution check ReasonCheckExecutionFailed
    ("Check applicability failed: " +:+ error_string err)
    (EWrap ("CanApply failed for check " +:+ ck_ID check +:+ ": " +:+ error_string err) err).

(** Reason, message and log line for an error of Validate. *)
Definition classifyValidateError (check : Check) (err : go_error) : string * string * list string :=
  if IsForbidden err then
    let message := "Insufficient permissions to access cluster resources" in
    (ReasonAPIAccessDenied, message,
     if io then ["Permission denied: " +:+ message +:+ " - Check: " +:+ ck_Name check] else [])
  else if IsUnauthorized err then
    let message := "Authentication required to access cluster resources" in
    (ReasonAPIAccessDenied, message,
     if io then ["Unauthorized: " +:+ message +:+ " - Check: " +:+ ck_Name check] else [])
  else if IsTimeout err then (ReasonCheckExecutionFailed, "Request timed out", [])
  else if IsServiceUnavailable err || IsServerTimeout err then
    (ReasonCheckExecutionFailed, "API server is unavailable or overloaded", [])
  else (ReasonCheckExecutionFailed, "", []).

Definition buildValidateError (check : Check) (err : go_error) : res go_error (CheckExecution * list string) :=
  let '(reason, message, log) := classifyValidateError check err in
  let text :=
    if String.eqb reason ReasonCheckExecutionFailed && String.eqb message ""
    then "Check execution failed: " +:+ error_string err
    else message +:+ ": " +:+ error_string err in
  let! exec := error_execution check reason text err in
  Ok (exec, log).

Definition executeCheck (t : instant) (target : Target) (check : Check)
    : res go_error (CheckExecution * list string) :=
  match ck_Validate check t (with_io target) with
  | Panic s => Panic s
  | Err err => buildValidateError check err
  | Ok None => Ok ({| ce_Check := check; ce_Result := None; ce_Error := None |}, [])
  | Ok (Some checkResult) =>
      match DiagnosticResult_Validate checkResult with
      | Ok _ => Ok ({| ce_Check := check; ce_Result := Some checkResult; ce_Error := None |}, [])
      | Panic s => Panic s
      | Err msg =>
          let! exec := error_execution check ReasonCheckExecutionFailed
            ("Invalid check result: " +:+ msg)
            (EWrap ("invalid result from check " +:+ ck_ID check +:+ ": " +:+ msg) (EString msg)) in
          Ok (exec, [])
      end
  end.

(** The loop of [executeChecks] from instant [t]; the results, the log and
    the instant after the last check. *)
Fixpoint executeChecks (ctx : Ctx) (t : instant) (target : Target) (checks : list Check)
    : res go_error (list CheckExecution * list string * instant) :=
  match checks with
  | [] => Ok ([], [], t)
  | check :: rest =>
      match CheckContextError ctx t with
      | Some _ => Ok ([], [], t)
      | None =>
          match ck_CanApply check t target with
          | Panic s => Panic s
          | Err err =>
              let! exec := buildCanApplyError check err in
              let! r := executeChecks ctx (S t) target rest in
              let '(results, log, t') := r in Ok (exec :: results, log, t')
          | Ok false => executeChecks ctx (S t) target rest
          | Ok true =>
              let! el := executeCheck t target check in
              let '(exec, log1) := el in
              let! r := executeChecks ctx (S t) target rest in
              let '(results, log, t') := r in
              Ok (match ce_Result exec with Some _ => exec :: results | None => results end,
                  (log1 ++ log)%list, t')
          end
      end
  end.

Definition ExecuteAll (ctx : Ctx) (t : instant) (target : Target) (r : gmap string Check) :=
  executeChecks ctx t target (ListAll r).

Definition ExecuteSelective (ctx : Ctx) (t : instant) (target : Target) (r : gmap string Check)
    (patterns : list string) (group : CheckGroup)
    : res go_error (list CheckExecution * list string * instant) :=
  let! checks := res_map_err (λ e, EString ("selecting checks: " +:+ e)) (ListByPatterns r patterns group) in
  executeChecks ctx t target checks.
End Executor.

(** ** Lemmas *)
Section ExecutorLemmas.
Context `{SV : Semver, AE : ApiErrors, CL : Clock, MO : MapOrder}.
Context (io : bool).

(** What an execution reports is a valid result; an error comes with exactly
    one condition: Validated, Unknown, advisory. *)
Definition execution_ok (e : CheckExecution) : Prop :=
  ∃ r, ce_Result e = Some r ∧ DiagnosticResult_Validate r = Ok () ∧
    (is_Some (ce_Error e) → ∃ c, r_Conditions r = [c] ∧ c_Type c = ConditionTypeValidated ∧
      c_Status c = ConditionUnknown ∧ c_Impact c = ImpactAdvisory).

Lemma Validate_NewResult check c :
  metadata_ok check → validateCondition c = Ok () →
  DiagnosticResult_Validate (with_conditions (NewResult check) [c]) = Ok ().
Proof.
  intros (Hg & Hk & Ht) Hc. unfold DiagnosticResult_Validate. simpl.
  rewrite !(proj2 (String.eqb_neq _ _)) by done.
  assert (map_range (∅ : gmap string string) = []) as ->.
  { apply Permutation_nil. rewrite map_range_perm. by rewrite map_to_list_empty. }
  simpl. by rewrite Hc.
Qed.

Lemma error_execution_ok check reason message err :
  metadata_ok check → reason ≠ "" →
  ∃ e, error_execution check reason message err = Ok e ∧ execution_ok e ∧
    ce_Check e = check ∧ ce_Error e = Some err.
Proof.
  intros Hm Hr. unfold error_execution. simpl. eexists. split; [reflexivity|].
  split; [|done]. eexists. split; [reflexivity|]. split.
  - apply Validate_NewResult; [done|]. apply validateCondition_Ok. by simpl.
  - intros _. eexists. by split.
Qed.

Lemma classifyValidateError_reason check err reason message log :
  classifyValidateError io check err = (reason, message, log) →
  reason = ReasonAPIAccessDenied ∨ reason = ReasonCheckExecutionFailed.
Proof. unfold classifyValidateError. repeat case_match; naive_solver. Qed.

Lemma buildValidateError_ok check err :
  metadata_ok check →
  ∃ e log, buildValidateError io check err = Ok (e, log) ∧ execution_ok e ∧
    ce_Check e = check ∧ ce_Error e = Some err.
Proof.
  intros Hm. unfold buildValidateError.
  destruct (classifyValidateError io check err) as [[reason message] log] eqn:Hc.
  destruct (error_execution_ok check reason
    (if String.eqb reason ReasonCheckExecutionFailed && String.eqb message ""
     then "Check execution failed: " +:+ error_string err
     else message +:+ ": " +:+ error_string err) err Hm) as (e & -> & He).
  { by destruct (classifyValidateError_reason _ _ _ _ _ Hc) as [->| ->]. }
  simpl. eauto 10.
Qed.

(** The behaviour of a check at an instant, as the executor sees it. *)
Definition panics (t : instant) (target : Target) (c : Check) : Prop :=
  (∃ s, ck_CanApply c t target = Panic s) ∨ (∃ s, ck_Validate c t (with_io io target) = Panic s).

Definition skipped (t : instant) (target : Target) (c : Check) : bool :=
  match ck_CanApply c t target with
  | Ok false => true
  | Ok true => match ck_Validate c t (with_io io target) with Ok None => true | _ => false end
  | _ => false
  end.

Lemma executeCheck_ok t target c :
  metadata_ok c → ¬ panics t target c → ck_CanApply c t target = Ok true →
  ∃ e log, executeCheck io t target c = Ok (e, log) ∧ ce_Check e = c ∧
    (ce_Result e = None ↔ skipped t target c = true) ∧ (ce_Result e ≠ None → execution_ok e).
Proof.
  intros Hm Hp Hc. unfold executeCheck, skipped. rewrite Hc.
  destruct (ck_Validate c t (with_io io target)) as [[r|]|err|s] eqn:Hv.
  - destruct (DiagnosticResult_Validate r) as [[]|msg|s] eqn:Hr.
    + do 2 eexists. split; [reflexivity|]. simpl. split; [done|]. split; [done|].
      intros _. exists r. split; [done|]. split; [done|]. by intros [? ?].
    + destruct (error_execution_ok c ReasonCheckExecutionFailed ("Invalid check result: " +:+ msg)
        (EWrap ("invalid result from check " +:+ ck_ID c +:+ ": " +:+ msg) (EString msg)) Hm)
        as (e & -> & He & Hce & _); [done|].
      do 2 eexists. split; [reflexivity|]. split; [done|]. split; [|done].
      destruct He as (r' & -> & _). done.
    + by apply DiagnosticResult_Validate_no_panic in Hr.
  - do 2 eexists. split; [reflexivity|]. done.
  - destruct (buildValidateError_ok c err Hm) as (e & log & -> & He & Hce & _).
    do 2 eexists. split; [reflexivity|]. split; [done|]. split; [|done].
    destruct He as (r' & -> & _). done.
  - exfalso. apply Hp. right. eauto.
Qed.
End ExecutorLemmas.

(** ** Properties *)
Module ExecutorSpec.
(** The checks that the loop reaches, with the instants at which it does. *)
Fixpoint timed {A} (t : instant) (l : list A) : list (instant * A) :=
  match l with [] => [] | x :: l' => (t, x) :: timed (S t) l' end.

(** C3: As long as the context is alive and no check panics, the executor
    returns one execution for every check except those that do not apply or
    ask to be skipped, in the order of the checks, and each carries a result
    that passes validation, even when the check itself failed. *)
Theorem executeChecks_complete `{SV : Semver, AE : ApiErrors, CL : Clock, MO : MapOrder}
    (io : bool) (ctx : Ctx) (t : instant) (target : Target) (checks : list Check) :
  (∀ i, ctx i = None) →
  (∀ i c, (i, c) ∈ timed t checks → metadata_ok c ∧ ¬ panics io i target c) →
  ∃ results log t', executeChecks io ctx t target checks = Ok (results, log, t') ∧
    map ce_Check results =
      map snd (List.filter (λ ic, negb (skipped io ic.1 target ic.2)) (timed t checks)) ∧
    Forall execution_ok results.
Proof.
  intros Hctx. revert t. induction checks as [|c checks IH]; intros t Hchecks.
  { simpl. eauto 10. }
  destruct (Hchecks t c) as [Hm Hp]; [by left|].
  destruct (IH (S t)) as (results & log & t' & Hr & Hmap & Hok).
  { intros i d Hd. apply Hchecks. by right. }
  cbn [executeChecks]. unfold CheckContextError. rewrite Hctx.
  destruct (ck_CanApply c t target) as [[]|err|s] eqn:Hc.
  - destruct (executeCheck_ok io t target c Hm Hp Hc) as (e & log1 & -> & Hce & Hskip & Hexec).
    simpl. rewrite Hr. simpl. do 3 eexists. split; [reflexivity|].
    destruct (skipped io t target c) eqn:Hs; simpl.
    + rewrite (proj2 Hskip eq_refl). done.
    + destruct (ce_Result e) eqn:Hre; [|by destruct Hskip as [Hsk _]; discriminate Hsk].
      simpl. rewrite Hce, Hmap. split; [done|]. constructor; [by apply Hexec|done].
  - rewrite Hr. do 3 eexists. split; [reflexivity|].
    assert (skipped io t target c = true) as Hs by (unfold skipped; by rewrite Hc).
    simpl. by rewrite Hs.
  - unfold buildCanApplyError.
    destruct (error_execution_ok c ReasonCheckExecutionFailed
      ("Check applicability failed: " +:+ error_string err)
      (EWrap ("CanApply failed for check " +:+ ck_ID c +:+ ": " +:+ error_string err) err) Hm)
      as (e & -> & He & Hce & _); [done|].
    simpl. rewrite Hr. simpl. do 3 eexists. split; [reflexivity|].
    assert (skipped io t target c = false) as Hs by (unfold skipped; by rewrite Hc).
    rewrite Hs. simpl. rewrite Hce, Hmap. split; [done|]. by constructor.
  - exfalso. apply Hp. left. eauto.
Qed.

Definition failing : @Check VersionRun.semver :=
  {| ck_ID := "components.x"; ck_Name := "x"; ck_Description := "d"; ck_Group := "component";
     ck_CheckKind := "x"; ck_CheckType := "t";
     ck_CanApply _ _ := Ok true; ck_Validate _ _ := Err (EForeign 1 "forbidden") |}.

Lemma executeChecks_complete_witness (clock := 0 : Clock) :
  ∃ results log t',
    executeChecks (AE := concrete_ApiErrors) (CL := clock) true (λ _, None) 0%nat
      (mkTarget _ None None None true false) [CheckRun.dash; failing] = Ok (results, log, t') ∧
    map ce_Check results = [failing] ∧
    Forall execution_ok results.
Proof.
  destruct (executeChecks_complete (AE := concrete_ApiErrors) (CL := clock) true (λ _, None) 0%nat
    (mkTarget _ None None None true false) [CheckRun.dash; failing])
    as (results & log & t' & H1 & H2 & H3); [done| |].
  - intros i c Hc. repeat (apply elem_of_cons in Hc as [[= -> ->]|Hc]; [
      split; [by split|by intros [[s Hs]|[s Hs]]]|]). by apply elem_of_nil in Hc.
  - exists results, log, t'. split; [exact H1|]. split; [exact H2|exact H3].
Defined.

(** Once the context is done, the executor stops without a trace: the
    checks that were not reached leave neither a result nor an error, so the
    run is indistinguishable from one in which they did not apply. *)
Theorem executeChecks_cancelled_silently `{SV : Semver, AE : ApiErrors, CL : Clock, MO : MapOrder}
    (io : bool) (ctx : Ctx) (t n : nat) (target : Target) (checks : list Check) :
  is_Some (ctx (t + n)%nat) → (∀ i, (i < t + n)%nat → ctx i = None) → (n ≤ length checks)%nat →
  executeChecks io ctx t target checks = executeChecks io (λ _, None) t target (take n checks).
Proof.
  revert t checks. induction n as [|n IH]; intros t checks Hdone Halive Hlen.
  - rewrite Nat.add_0_r in Hdone. destruct checks as [|c checks]; [done|]. cbn [executeChecks take].
    unfold CheckContextError. destruct Hdone as [e ->]. by repeat case_match.
  - destruct checks as [|c checks]; [simpl in Hlen; lia|].
    cbn [executeChecks take]. unfold CheckContextError. rewrite Halive by lia.
    rewrite (IH (S t) checks); [done|by rewrite Nat.add_succ_comm|intros; apply Halive; lia|simpl in Hlen; lia].
Qed.

Lemma executeChecks_cancelled_silently_witness (clock := 0 : Clock) :
  let ctx : Ctx := λ i, if (i <? 0)%nat then None else Some (ESentinel CtxDeadlineExceeded) in
  is_Some (ctx 0%nat) ∧
  executeChecks (AE := concrete_ApiErrors) (CL := clock) true ctx 0%nat
    (mkTarget _ None None None true false) [failing]
  = executeChecks (AE := concrete_ApiErrors) (CL := clock) true (λ _, None) 0%nat
    (mkTarget _ None None None true false) [].
Proof.
  intros ctx. split; [by eexists|].
  apply (executeChecks_cancelled_silently (AE := concrete_ApiErrors) (CL := clock) true ctx 0%nat 0%nat);
    [by eexists|intros; lia|simpl; lia].
Defined.
End ExecutorSpec.
