(* ===== verification/Validate.v ===== *)
(** * Validate: pkg/util/components, pkg/util/kube/olm/subscriptions.go and the
    builders of pkg/lint/check/validate

    The builders every check is written with: they fetch the configuration
    object, decide whether the check applies, prepare an annotated result and
    hand it to the check's callback.  A callback that mutates the result through
    its pointer is a function that returns the new result. *)
From S2P Require Import Prelude Errors Client Version Result Check.
Open Scope string_scope.
Open Scope Z_scope.
Open Scope go_scope.

(** ** pkg/constants and pkg/util/components *)
Definition ManagementStateManaged := "Managed".
Definition ManagementStateUnmanaged := "Unmanaged".
Definition ManagementStateRemoved := "Removed".

Definition contains_str (l : list string) (s : string) : bool := existsb (String.eqb s) l.

Section Components.
Context `{JQ : GoJq}.

(** The shared query: an absent state means Removed. *)
Definition management_state (obj : json) (path what : string) : res go_error string :=
  match jq_Query_string obj path with
  | Ok state => Ok state
  | Panic s => Panic s
  | Err err =>
      if errors_is JqErrNotFound err then Ok ManagementStateRemoved
      else Err (errorf_w ("querying " +:+ what +:+ " managementState") err)
  end.

Definition GetManagementState (obj : json) (componentKey : string) : res go_error string :=
  management_state obj (".spec.components." +:+ componentKey +:+ ".managementState") componentKey.

Definition GetSubComponentManagementState (obj : json) (parentKey subKey : string) : res go_error string :=
  management_state obj (".spec.components." +:+ parentKey +:+ "." +:+ subKey +:+ ".managementState")
    (parentKey +:+ "." +:+ subKey).

Definition state_in (r : res go_error string) (states : list string) : res go_error bool :=
  match r with
  | Panic s => Panic s
  | Err _ => Ok false
  | Ok state => Ok (match states with [] => true | _ => contains_str states state end)
  end.

Definition HasManagementState (obj : json) (componentKey : string) (states : list string) : res go_error bool :=
  state_in (GetManagementState obj componentKey) states.

Definition HasSubComponentManagementState (obj : json) (parentKey subKey : string) (states : list string)
    : res go_error bool :=
  state_in (GetSubComponentManagementState obj parentKey subKey) states.
End Components.

(** ** pkg/util/kube/olm/subscriptions.go *)
Record SubscriptionInfo := mkSub { sub_Name : string; sub_Channel : string; sub_Version : string }.

Definition Found (s : option SubscriptionInfo) : bool := match s with Some _ => true | None => false end.
Definition GetVersion (s : option SubscriptionInfo) : string :=
  match s with Some s => sub_Version s | None => "" end.

(** A subscription of the cluster: name, channel of a spec that may be nil,
    installed CSV. *)
Record Subscription := mkSubscription { sb_Name : string; sb_Channel : option string; sb_InstalledCSV : string }.

Definition subscription_info (sub : Subscription) : SubscriptionInfo :=
  mkSub (sb_Name sub) (match sb_Channel sub with Some c => c | None => "" end) (sb_InstalledCSV sub).

Definition FindOperator (subscriptions : res go_error (list Subscription)) (matcher : SubscriptionInfo → bool)
    : res go_error (option SubscriptionInfo) :=
  try! items := subscriptions else errorf_w "listing subscriptions" in
  Ok (find matcher (map subscription_info items)).

(** ** The builders *)
Definition AnnotationComponentManagementState := "component.opendatahub.io/management-state".
Definition AnnotationCheckTargetVersion := "check.opendatahub.io/target-version".
Definition AnnotationImpactedWorkloadCount := "workload.opendatahub.io/impacted-count".
Definition annotationInstalledVersion := "operator.opendatahub.io/installed-version".

Section Builders.
Context `{SV : Semver, AE : ApiErrors, KE : K8sErrors, SRV : ApiServer, JQ : GoJq, CL : Clock}.
Context (List : ResourceType → res go_error (list json)).

(** Results a builder returns without asking the callback. *)
Definition unavailable (c : Check) (message : string) : res go_error DiagnosticResult :=
  let! cond := NewCondition ConditionTypeAvailable ConditionFalse
    [WithReason ReasonResourceNotFound; WithMessage message] in
  Ok (with_conditions (NewResult c) [cond]).

Definition not_configured (c : Check) : res go_error DiagnosticResult :=
  let! cond := NewCondition ConditionTypeConfigured ConditionTrue [WithReason ReasonRequirementsMet] in
  Ok (SetCondition (NewResult c) cond).

Definition annotate_target (target : Target) (dr : DiagnosticResult) : DiagnosticResult :=
  match t_TargetVersion target with
  | Some v => with_annotation dr AnnotationCheckTargetVersion (v_String v)
  | None => dr
  end.

(** *** component.go *)
Record ComponentRequest := mkComponentRequest {
  cr_Target : Target;
  cr_Result : DiagnosticResult;
  cr_DSC : json;
  cr_ManagementState : string;
  cr_ApplicationsNamespace : string;
}.

Record ComponentBuilder := mkComponentBuilder {
  cb_check : Check;
  cb_componentName : string;
  cb_target : Target;
  cb_requiredStates : list string;
  cb_loadApplicationsNamespace : bool;
}.

Definition Component (c : Check) (target : Target) : ComponentBuilder :=
  {| cb_check := c; cb_componentName := ck_CheckKind c; cb_target := target;
     cb_requiredStates := []; cb_loadApplicationsNamespace := false |}.

Definition WithComponentName (b : ComponentBuilder) (name : string) : ComponentBuilder :=
  mkComponentBuilder (cb_check b) name (cb_target b) (cb_requiredStates b) (cb_loadApplicationsNamespace b).
Definition InState (b : ComponentBuilder) (states : list string) : ComponentBuilder :=
  mkComponentBuilder (cb_check b) (cb_componentName b) (cb_target b) states (cb_loadApplicationsNamespace b).
Definition WithApplicationsNamespace (b : ComponentBuilder) : ComponentBuilder :=
  mkComponentBuilder (cb_check b) (cb_componentName b) (cb_target b) (cb_requiredStates b) true.

(** A callback returns the result as it left it. *)
Definition ComponentValidateFn : Type := ComponentRequest → res go_error DiagnosticResult.
Definition ComponentConditionFn : Type := ComponentRequest → res go_error (list Condition).

Definition Component_Run (b : ComponentBuilder) (fn : ComponentValidateFn) : res go_error DiagnosticResult :=
  match GetDataScienceCluster List with
  | Panic s => Panic s
  | Err err =>
      if IsNotFound err then unavailable (cb_check b) "No DataScienceCluster found"
      else Err (errorf_w "getting DataScienceCluster" err)
  | Ok dsc =>
      try! state := GetManagementState dsc (cb_componentName b)
        else errorf_w ("querying " +:+ cb_componentName b +:+ " managementState") in
      if negb (bool_decide (cb_requiredStates b = [])) && negb (contains_str (cb_requiredStates b) state)
      then not_configured (cb_check b)
      else
        let dr := annotate_target (cb_target b)
          (with_annotation (NewResult (cb_check b)) AnnotationComponentManagementState state) in
        let req ns := mkComponentRequest (cb_target b) dr dsc state ns in
        if cb_loadApplicationsNamespace b then
          match GetApplicationsNamespace List with
          | Panic s => Panic s
          | Err nsErr =>
              if IsNotFound nsErr then
                let! cond := NewCondition ConditionTypeAvailable ConditionFalse
                  [WithReason ReasonResourceNotFound; WithMessage "No DSCInitialization found"] in
                Ok (SetCondition dr cond)
              else Err (errorf_w "getting applications namespace" nsErr)
          | Ok ns => fn (req ns)
          end
        else fn (req "")
  end.

(** The callback both [Complete] functions build. *)
Definition set_conditions (dr : DiagnosticResult) (cs : list Condition) : DiagnosticResult :=
  foldl SetCondition dr cs.

Definition Component_Complete (b : ComponentBuilder) (fn : ComponentConditionFn) : res go_error DiagnosticResult :=
  Component_Run b (λ req, let! conditions := fn req in Ok (set_conditions (cr_Result req) conditions)).

(** The two format arguments are the management state and the target version. *)
Definition Removal (format : string → string → string) (opts : list ConditionOption) : ComponentValidateFn := λ req,
  let! cond := NewCondition ConditionTypeCompatible ConditionFalse
    (WithReason ReasonVersionIncompatible ::
     WithMessage (format (cr_ManagementState req) (MajorMinorLabel (t_TargetVersion (cr_Target req)))) :: opts) in
  Ok (SetCondition (cr_Result req) cond).

(** *** dsc.go, dsci.go: the two singleton builders *)
Definition singleton_Run (get : res go_error json) (kind : string) (c : Check) (target : Target)
    (fn : DiagnosticResult → json → res go_error DiagnosticResult) : res go_error DiagnosticResult :=
  match get with
  | Panic s => Panic s
  | Err err =>
      if IsNotFound err then unavailable c ("No " +:+ kind +:+ " found")
      else Err (errorf_w ("getting " +:+ kind) err)
  | Ok obj => fn (annotate_target target (NewResult c)) obj
  end.

Definition DSC_Run := singleton_Run (GetDataScienceCluster List) "DataScienceCluster".
Definition DSCI_Run := singleton_Run (GetDSCInitialization List) "DSCInitialization".

(** *** operator.go *)
Definition ConditionBuilder : Type := bool → string → res go_error Condition.

Record OperatorBuilder := mkOperatorBuilder {
  ob_check : Check;
  ob_target : Target;
  ob_names : list string;
  ob_channels : list string;
  ob_conditionBuilder : ConditionBuilder;
}.

Definition defaultConditionBuilder (kind : string) : ConditionBuilder := λ found version,
  if negb found then
    NewCondition ConditionTypeAvailable ConditionFalse
      [WithReason ReasonResourceNotFound; WithMessage (kind +:+ " operator is not installed")]
  else
    NewCondition ConditionTypeAvailable ConditionTrue
      [WithReason ReasonResourceFound; WithMessage (kind +:+ " operator installed: " +:+ version)].

Definition Operator (c : Check) (target : Target) : OperatorBuilder :=
  {| ob_check := c; ob_target := target; ob_names := []; ob_channels := [];
     ob_conditionBuilder := defaultConditionBuilder (ck_CheckKind c) |}.

Definition buildMatcher (b : OperatorBuilder) : SubscriptionInfo → bool := λ sub,
  let names := match ob_names b with [] => [ck_CheckKind (ob_check b)] | _ => ob_names b end in
  if negb (contains_str names (sub_Name sub)) then false
  else if negb (bool_decide (ob_channels b = [])) then
    if String.eqb (sub_Channel sub) "" then false else contains_str (ob_channels b) (sub_Channel sub)
  else true.

Context (olmAvailable : bool) (subscriptions : res go_error (list Subscription)).

Definition Operator_Run (b : OperatorBuilder) : res go_error DiagnosticResult :=
  let dr := annotate_target (ob_target b) (NewResult (ob_check b)) in
  if negb olmAvailable then
    let! condition := ob_conditionBuilder b false "" in
    Ok (with_conditions dr [WithMessage "OLM client not available" condition])
  else
    try! info := FindOperator subscriptions (buildMatcher b)
      else errorf_w ("checking " +:+ ck_CheckKind (ob_check b) +:+ " operator presence") in
    let! condition := ob_conditionBuilder b (Found info) (GetVersion info) in
    let dr := with_conditions dr [condition] in
    Ok (if negb (String.eqb (GetVersion info) "")
        then with_annotation dr annotationInstalledVersion (GetVersion info) else dr).
End Builders.

(** *** workload.go: polymorphic in the items, as the type parameter of the source *)
Class NamespacedNamer (T : Type) := ToNamespacedName : T → NamespacedName.

Section Workload.
Context `{SV : Semver, AE : ApiErrors, KE : K8sErrors, SRV : ApiServer, JQ : GoJq, CL : Clock}.
Context (List : ResourceType → res go_error (list json)).
Context {T : Type} `{NN : !NamespacedNamer T}.

Record WorkloadRequest := mkWorkloadRequest {
  wr_Target : Target;
  wr_Result : DiagnosticResult;
  wr_Items : list T;
}.

Record WorkloadBuilder := mkWorkloadBuilder {
  wb_check : Check;
  wb_target : Target;
  wb_resourceType : ResourceType;
  wb_listFn : res go_error (list T);
  wb_filterFn : option (T → res go_error bool);
  wb_componentNames : list string;
}.

(** The loop over the component names: left at the first that is not Removed. *)
Fixpoint any_active (dsc : json) (names : list string) : res go_error bool :=
  match names with
  | [] => Ok false
  | name :: rest =>
      let! removed := HasManagementState dsc name [ManagementStateRemoved] in
      if negb removed then Ok true else any_active dsc rest
  end.

Definition checkComponentState (b : WorkloadBuilder) : res go_error bool :=
  match GetDataScienceCluster List with
  | Panic s => Panic s
  | Err err => if IsNotFound err then Ok false else Err (errorf_w "getting DataScienceCluster" err)
  | Ok dsc => any_active dsc (wb_componentNames b)
  end.

Fixpoint filter_items (kind : string) (f : T → res go_error bool) (items : list T) : res go_error (list T) :=
  match items with
  | [] => Ok []
  | item :: rest =>
      try! keep := f item else errorf_w ("filtering " +:+ kind +:+ " resources") in
      let! kept := filter_items kind f rest in
      Ok (if (keep : bool) then item :: kept else kept)
  end.

Definition WorkloadValidateFn : Type := WorkloadRequest → res go_error DiagnosticResult.

(** From the listing on. *)
Definition Workload_process (b : WorkloadBuilder) (dr : DiagnosticResult) (fn : WorkloadValidateFn)
    : res go_error DiagnosticResult :=
  let! items := match wb_listFn b with
    | Ok items => Ok items
    | Panic s => Panic s
    | Err err => if IsResourceTypeNotFound err then Ok []
                 else Err (errorf_w ("listing " +:+ rt_Kind (wb_resourceType b) +:+ " resources") err)
    end in
  let! items := match wb_filterFn b with
    | None => Ok items
    | Some f => filter_items (rt_Kind (wb_resourceType b)) f items
    end in
  let dr := with_annotation dr AnnotationImpactedWorkloadCount (itoa (Z.of_nat (length items))) in
  let! dr := fn (mkWorkloadRequest (wb_target b) dr items) in
  Ok (match r_ImpactedObjects dr, items with
      | None, _ :: _ => SetImpactedObjects dr (wb_resourceType b) (map ToNamespacedName items)
      | _, _ => dr
      end).

(** A nil result without error tells the executor to skip the check. *)
Definition Workload_Run (b : WorkloadBuilder) (fn : WorkloadValidateFn)
    : res go_error (option DiagnosticResult) :=
  let dr := annotate_target (wb_target b) (NewResult (wb_check b)) in
  match wb_componentNames b with
  | [] => let! dr := Workload_process b dr fn in Ok (Some dr)
  | _ =>
      let! active := checkComponentState b in
      if negb active then Ok None
      else let! dr := Workload_process b dr fn in Ok (Some dr)
  end.

Definition Workload_Complete (b : WorkloadBuilder) (fn : WorkloadRequest → res go_error (list Condition))
    : res go_error (option DiagnosticResult) :=
  Workload_Run b (λ req, let! conditions := fn req in Ok (set_conditions (wr_Result req) conditions)).
End Workload.

(** ** Lemmas *)
Lemma jq_Query_string_no_panic `{GoJq} v q s : jq_Query_string v q ≠ Panic s.
Proof. unfold jq_Query_string. by repeat case_match. Qed.

Lemma GetManagementState_no_panic `{GoJq} obj key s : GetManagementState obj key ≠ Panic s.
Proof.
  unfold GetManagementState, management_state.
  pose proof (jq_Query_string_no_panic obj (".spec.components." +:+ key +:+ ".managementState")).
  repeat case_match; naive_solver.
Qed.

Lemma contains_str_In l s : contains_str l s = true ↔ s ∈ l.
Proof.
  unfold contains_str. rewrite existsb_exists. setoid_rewrite String.eqb_eq.
  setoid_rewrite <-list_elem_of_In. naive_solver.
Qed.

(** What the builders maintain of a result: the metadata of the check and
    well-formed annotation keys. *)
Section Prepared.
Context `{SV : Semver, MO : MapOrder}.

Definition prepared (c : Check) (dr : DiagnosticResult) : Prop :=
  r_Group dr = ck_Group c ∧ r_Kind dr = ck_CheckKind c ∧ r_Name dr = ck_CheckType c ∧
  map_Forall (λ k _, isValidAnnotationKey k = true) (r_Annotations dr).

Lemma prepared_New c : prepared c (NewResult c).
Proof. repeat split. apply map_Forall_empty. Qed.

Lemma prepared_annotation c dr k v :
  isValidAnnotationKey k = true → prepared c dr → prepared c (with_annotation dr k v).
Proof. intros Hk (? & ? & ? & Ha). repeat split; try done. by apply map_Forall_insert_2. Qed.

Lemma prepared_annotate_target c t dr : prepared c dr → prepared c (annotate_target t dr).
Proof. intros Hp. unfold annotate_target. case_match; [by apply prepared_annotation|done]. Qed.

Lemma prepared_conditions c dr cs : prepared c dr → prepared c (with_conditions dr cs).
Proof. done. Qed.

Lemma prepared_SetCondition c dr cond : prepared c dr → prepared c (SetCondition dr cond).
Proof. done. Qed.

Lemma prepared_set_conditions c dr cs : prepared c dr → prepared c (set_conditions dr cs).
Proof. revert dr. induction cs as [|x cs IH]; intros dr Hp; [done|]. by apply IH. Qed.

Lemma prepared_SetImpactedObjects c dr rt names :
  prepared c dr → prepared c (SetImpactedObjects dr rt names).
Proof. intros Hp. by apply (prepared_annotation _ _ AnnotationResourceCRDName). Qed.

Lemma prepared_valid c dr :
  metadata_ok c → prepared c dr → r_Conditions dr ≠ [] →
  Forall (λ x, validateCondition x = Ok ()) (r_Conditions dr) → DiagnosticResult_Validate dr = Ok ().
Proof.
  intros (Hg & Hk & Ht) (Eg & Ek & Et & Ha) Hne Hcs. unfold DiagnosticResult_Validate.
  rewrite Eg, Ek, Et, !(proj2 (String.eqb_neq _ _)) by done.
  rewrite (proj2 (for_each_Ok _ _)).
  - simpl. destruct (r_Conditions dr) as [|x cs]; [done|]. exact (proj2 (for_each_Ok validateCondition (x :: cs)) Hcs).
  - apply Forall_forall. intros [k v] Hkv. apply elem_of_map_range in Hkv.
    simpl. by rewrite (map_Forall_lookup_1 _ _ _ _ Ha Hkv).
Qed.

(** The result a component callback starts from. *)
Lemma request_prepared c t state :
  let dr := annotate_target t (with_annotation (NewResult c) AnnotationComponentManagementState state) in
  prepared c dr ∧ r_Annotations dr !! AnnotationComponentManagementState = Some state ∧
  r_Annotations dr !! AnnotationCheckTargetVersion = v_String <$> t_TargetVersion t ∧ r_Conditions dr = [].
Proof.
  intros dr. split; [by apply prepared_annotate_target, prepared_annotation, prepared_New|].
  subst dr. unfold annotate_target. case_match; simpl; by simplify_map_eq.
Qed.

Lemma set_condition_Forall (P : Condition → Prop) c cs : P c → Forall P cs → Forall P (set_condition c cs).
Proof. intros Hc. induction 1; simpl; [by constructor|]. case_match; by constructor. Qed.

Lemma set_condition_nonempty c cs : set_condition c cs ≠ [].
Proof. destruct cs; simpl; [done|]. by case_match. Qed.

Lemma set_conditions_valid dr cs :
  cs ≠ [] → Forall (λ x, validateCondition x = Ok ()) (r_Conditions dr ++ cs)%list →
  r_Conditions (set_conditions dr cs) ≠ [] ∧
  Forall (λ x, validateCondition x = Ok ()) (r_Conditions (set_conditions dr cs)).
Proof.
  revert dr. induction cs as [|x cs IH]; intros dr Hne Hv; [done|].
  apply Forall_app in Hv as [Hd Hx]. apply Forall_cons in Hx as [Hx Hcs].
  destruct cs as [|y cs].
  - simpl. split; [apply set_condition_nonempty|by apply set_condition_Forall].
  - apply (IH (SetCondition dr x)); [done|]. apply Forall_app. split; [|done].
    by apply set_condition_Forall.
Qed.

(** Setting the callback's conditions on a prepared result without
    conditions gives a result the executor accepts. *)
Lemma complete_valid c dr cs :
  metadata_ok c → prepared c dr → r_Conditions dr = [] → cs ≠ [] →
  Forall (λ x, validateCondition x = Ok ()) cs → DiagnosticResult_Validate (set_conditions dr cs) = Ok ().
Proof.
  intros Hm Hp Hd Hne Hcs.
  destruct (set_conditions_valid dr cs) as [H1 H2]; [done|by rewrite Hd|].
  apply (prepared_valid c); [done|by apply prepared_set_conditions|done|done].
Qed.

Lemma unavailable_valid `{CL : Clock} c message :
  metadata_ok c → ∃ dr, unavailable c message = Ok dr ∧ DiagnosticResult_Validate dr = Ok () ∧
    GetImpact dr = ImpactAdvisory ∧ IsFailing dr = true.
Proof.
  intros Hm. eexists. split; [reflexivity|]. repeat split.
  apply (prepared_valid c); [done|apply prepared_conditions, prepared_New|done|].
  by repeat constructor.
Qed.

Lemma not_configured_valid `{CL : Clock} c :
  metadata_ok c → ∃ dr, not_configured c = Ok dr ∧ DiagnosticResult_Validate dr = Ok () ∧
    GetImpact dr = ImpactNone ∧ IsFailing dr = false.
Proof.
  intros Hm. eexists. split; [reflexivity|]. repeat split.
  apply (prepared_valid c); [done|apply prepared_New|done|].
  by repeat constructor.
Qed.
End Prepared.

#[export] Hint Resolve prepared_New prepared_annotation prepared_annotate_target prepared_conditions
  prepared_SetCondition prepared_set_conditions prepared_SetImpactedObjects : go_valid.

Section WorkloadLemmas.
Context `{SV : Semver, AE : ApiErrors, KE : K8sErrors, SRV : ApiServer, JQ : GoJq, CL : Clock}.
Context {T : Type} `{NN : !NamespacedNamer T}.

Lemma any_active_spec dsc names :
  any_active dsc names = Ok (negb (forallb (λ name, match GetManagementState dsc name with
    | Ok state => String.eqb state ManagementStateRemoved | _ => false end) names)).
Proof.
  induction names as [|name names IH]; simpl; [done|].
  unfold HasManagementState, state_in. pose proof (GetManagementState_no_panic dsc name) as Hp.
  destruct (GetManagementState dsc name) as [state|e|s]; simpl; [|done|by specialize (Hp s)].
  destruct (String.eqb state ManagementStateRemoved); simpl; [exact IH|done].
Qed.

Lemma filter_items_total kind (f : T → res go_error bool) (p : T → bool) items :
  (∀ x, x ∈ items → f x = Ok (p x)) → filter_items kind f items = Ok (List.filter p items).
Proof.
  induction items as [|x items IH]; intros Hf; simpl; [done|].
  rewrite (Hf x) by left. simpl. rewrite IH by (intros y Hy; apply Hf; by right). simpl. by destruct (p x).
Qed.

Lemma set_conditions_fields dr cs :
  r_Annotations (set_conditions dr cs) = r_Annotations dr ∧
  r_ImpactedObjects (set_conditions dr cs) = r_ImpactedObjects dr.
Proof. revert dr. induction cs as [|c cs IH]; intros dr; [done|]. apply (IH (SetCondition dr c)). Qed.

Lemma find_spec {A} (p : A → bool) l :
  match find p l with
  | Some x => ∃ l1 l2, l = (l1 ++ x :: l2)%list ∧ Forall (λ y, p y = false) l1 ∧ p x = true
  | None => Forall (λ y, p y = false) l
  end.
Proof.
  induction l as [|y l IH]; simpl; [constructor|]. destruct (p y) eqn:Hy.
  - exists [], l. by repeat constructor.
  - destruct (find p l) as [x|]; [|by constructor].
    destruct IH as (l1 & l2 & -> & H1 & H2). exists (y :: l1), l2. repeat split; [by constructor|done].
Qed.
End WorkloadLemmas.

(** ** A concrete cluster *)
Module ValidateRun.
Definition dsc (state : string) : json :=
  JObj [("spec", JObj [("components", JObj [("kserve", JObj [("managementState", JStr state)])])])].
Definition list_of (l : list json) (rt : ResourceType) : res go_error (list json) :=
  if String.eqb (rt_Kind rt) "DataScienceCluster" then Ok l else Ok [].
Definition kserve : @Check VersionRun.semver :=
  {| ck_ID := "components.kserve.removal"; ck_Name := "k"; ck_Description := "d"; ck_Group := "component";
     ck_CheckKind := "kserve"; ck_CheckType := "removal";
     ck_CanApply _ _ := Ok true; ck_Validate _ _ := Ok None |}.
Definition target : @Target VersionRun.semver :=
  @mkTarget VersionRun.semver (Some (VersionRun.mkVer 2 25 0)) (Some (VersionRun.mkVer 3 0 0)) None false false.
Definition builder := InState (Component kserve target) [ManagementStateManaged].
#[export] Instance clock : Clock := 0.
#[export] Instance named : NamespacedNamer string := mkNN "ns".
Definition notebooks := mkResourceType "kubeflow.org" "v1" "Notebook" "notebooks".
Definition workloads (names : list string) : @WorkloadBuilder _ string :=
  {| wb_check := kserve; wb_target := target; wb_resourceType := notebooks;
     wb_listFn := Ok ["a"; "b"; "c"]; wb_filterFn := Some (λ s, Ok (negb (String.eqb s "b")));
     wb_componentNames := names |}.
End ValidateRun.
Import (hints) ClientRun VersionRun ValidateRun.

(** ** Properties *)
Module ValidateSpec.
(** When the component builder runs the callback and when it does not: an
    absent DataScienceCluster gives an advisory finding, a component outside
    the required states a passing result, both without the callback; otherwise
    the callback gets the management state (Removed when the field is absent)
    and a result annotated with it and with the target version. *)
Theorem Component_Run_gate `{SV : Semver, AE : ApiErrors, KE : K8sErrors, SRV : ApiServer, JQ : GoJq, CL : Clock,
      MO : MapOrder} List (b : ComponentBuilder) (fn : ComponentValidateFn) :
  metadata_ok (cb_check b) → cb_loadApplicationsNamespace b = false →
  match GetDataScienceCluster List with
  | Err err =>
      IsNotFound err = true →
      ∃ dr, Component_Run List b fn = Ok dr ∧ DiagnosticResult_Validate dr = Ok () ∧ GetImpact dr = ImpactAdvisory
  | Ok dsc =>
      ∀ state, GetManagementState dsc (cb_componentName b) = Ok state →
      if bool_decide (cb_requiredStates b ≠ [] ∧ state ∉ cb_requiredStates b)
      then ∃ dr, Component_Run List b fn = Ok dr ∧ DiagnosticResult_Validate dr = Ok () ∧ GetImpact dr = ImpactNone
      else ∃ req, Component_Run List b fn = fn req ∧ cr_DSC req = dsc ∧ cr_ManagementState req = state ∧
             cr_Target req = cb_target b ∧ prepared (cb_check b) (cr_Result req) ∧
             r_Annotations (cr_Result req) !! AnnotationComponentManagementState = Some state ∧
             r_Annotations (cr_Result req) !! AnnotationCheckTargetVersion = v_String <$> t_TargetVersion (cb_target b) ∧
             r_Conditions (cr_Result req) = []
  | Panic _ => True
  end.
Proof.
  intros Hm Hns. unfold Component_Run. rewrite Hns.
  destruct (GetDataScienceCluster List) as [dsc|err|s]; [|intros ->|done].
  - intros state Hstate. rewrite Hstate. simpl.
    destruct (bool_decide_reflect (cb_requiredStates b = [])) as [He|He]; simpl.
    + rewrite bool_decide_eq_false_2 by naive_solver.
      eexists. split; [reflexivity|]. do 3 (split; [done|]). apply request_prepared.
    + destruct (contains_str (cb_requiredStates b) state) eqn:Hc; simpl.
      * apply contains_str_In in Hc. rewrite bool_decide_eq_false_2 by naive_solver.
        eexists. split; [reflexivity|]. do 3 (split; [done|]). apply request_prepared.
      * assert (state ∉ cb_requiredStates b) by (rewrite <-contains_str_In; by rewrite Hc).
        rewrite bool_decide_eq_true_2 by done.
        destruct (not_configured_valid (cb_check b) Hm) as (dr & -> & ? & ? & _). eauto.
  - destruct (unavailable_valid (cb_check b) "No DataScienceCluster found" Hm) as (dr & -> & ? & ? & _). eauto.
Qed.

Lemma Component_Run_gate_witness :
  let fn := Removal (λ state v, state +:+ " in " +:+ v) [WithImpact ImpactBlocking] in
  let run l := Component_Run (SRV := VersionRun.server) (ValidateRun.list_of l) ValidateRun.builder fn in
  (∃ dr, run [] = Ok dr ∧ DiagnosticResult_Validate dr = Ok () ∧ GetImpact dr = ImpactAdvisory) ∧
  (∃ dr, run [ValidateRun.dsc "Removed"] = Ok dr ∧ DiagnosticResult_Validate dr = Ok () ∧ GetImpact dr = ImpactNone).
Proof.
  intros fn run. split.
  - apply (Component_Run_gate (SRV := VersionRun.server) (ValidateRun.list_of []) ValidateRun.builder fn); by split.
  - apply (Component_Run_gate (SRV := VersionRun.server) (ValidateRun.list_of [ValidateRun.dsc "Removed"])
      ValidateRun.builder fn) with (state := "Removed"); by split.
Defined.

(** A check written with [Complete] cannot produce a result the executor
    rejects: when the reader does not panic and the callback yields at least
    one condition, all of them well formed, the outcome is a result that passes
    validation or an error. *)
Theorem Component_Complete_valid `{SV : Semver, AE : ApiErrors, KE : K8sErrors, SRV : ApiServer, JQ : GoJq, CL : Clock,
      MO : MapOrder} List (b : ComponentBuilder) (fn : ComponentConditionFn) :
  metadata_ok (cb_check b) →
  (∀ s, GetDataScienceCluster List ≠ Panic s) → (∀ s, GetApplicationsNamespace List ≠ Panic s) →
  (∀ req, match fn req with
          | Ok cs => cs ≠ [] ∧ Forall (λ c, validateCondition c = Ok ()) cs
          | Err _ => True
          | Panic _ => False
          end) →
  (∃ dr, Component_Complete List b fn = Ok dr ∧ DiagnosticResult_Validate dr = Ok ()) ∨
  (∃ e, Component_Complete List b fn = Err e).
Proof.
  intros Hm Hdsc Hns Hfn.
  assert (∀ req, prepared (cb_check b) (cr_Result req) → r_Conditions (cr_Result req) = [] →
    (∃ dr, (let! cs := fn req in Ok (set_conditions (cr_Result req) cs)) = Ok dr ∧ DiagnosticResult_Validate dr = Ok ()) ∨
    (∃ e, (let! cs := fn req in Ok (set_conditions (cr_Result req) cs)) = Err e)) as Hcall.
  { intros req Hp Hc. specialize (Hfn req). destruct (fn req) as [cs|e|s]; [|right; eauto|done].
    destruct Hfn as [Hne Hcs]. left. eexists. split; [reflexivity|]. by eapply complete_valid. }
  unfold Component_Complete, Component_Run.
  destruct (GetDataScienceCluster List) as [dsc|err|s] eqn:Hget; [| |by specialize (Hdsc s)].
  - pose proof (GetManagementState_no_panic dsc (cb_componentName b)) as Hst.
    destruct (GetManagementState dsc (cb_componentName b)) as [state|err|s]; [|right; eauto|by specialize (Hst s)].
    cbn [res_bind res_map_err]. case_match.
    { destruct (not_configured_valid (cb_check b) Hm) as (dr & -> & ? & _). eauto. }
    destruct (request_prepared (cb_check b) (cb_target b) state) as (Hp & _ & _ & Hc).
    destruct (cb_loadApplicationsNamespace b); [|by apply Hcall].
    destruct (GetApplicationsNamespace List) as [ns|err|s] eqn:Hg; [| |by specialize (Hns s)].
    + by apply Hcall.
    + case_match; [|right; eauto]. left. eexists. split; [reflexivity|].
      apply (prepared_valid (cb_check b)); [done|done|apply set_condition_nonempty|].
      simpl. rewrite Hc. by repeat constructor.
  - case_match; [|right; eauto].
    destruct (unavailable_valid (cb_check b) "No DataScienceCluster found" Hm) as (dr & -> & ? & _). eauto.
Qed.

Lemma Component_Complete_valid_witness :
  let c := mkCondition "Compatible" ConditionFalse "VersionIncompatible" "m" 0 ImpactBlocking "" in
  let run := Component_Complete (SRV := VersionRun.server)
    (ValidateRun.list_of [ValidateRun.dsc "Managed"]) ValidateRun.builder (λ _, Ok [c]) in
  (∃ dr, run = Ok dr ∧ DiagnosticResult_Validate dr = Ok ()) ∨ (∃ e, run = Err e).
Proof.
  intros c run.
  apply (Component_Complete_valid (SRV := VersionRun.server) (ValidateRun.list_of [ValidateRun.dsc "Managed"])
    ValidateRun.builder (λ _, Ok [c])); [by split| | |].
  - intros s. by vm_compute.
  - intros s. by vm_compute.
  - intros _. split; [done|by repeat constructor].
Defined.

(** A workload check is skipped silently exactly when it names components
    and either no DataScienceCluster exists or every named component is
    Removed; a component whose state cannot be read counts as active. *)
Theorem Workload_Run_skip_iff `{SV : Semver, AE : ApiErrors, KE : K8sErrors, SRV : ApiServer, JQ : GoJq, CL : Clock}
    {T : Type} `{NN : !NamespacedNamer T} List (b : WorkloadBuilder (T := T)) (fn : WorkloadValidateFn) :
  Workload_Run List b fn = Ok None ↔
  wb_componentNames b ≠ [] ∧
  match GetDataScienceCluster List with
  | Err err => IsNotFound err = true
  | Ok dsc => ∀ name, name ∈ wb_componentNames b → GetManagementState dsc name = Ok ManagementStateRemoved
  | Panic _ => False
  end.
Proof.
  unfold Workload_Run, checkComponentState.
  destruct (wb_componentNames b) as [|n ns] eqn:Hnames.
  { split; [|naive_solver]. by destruct (Workload_process _ _ _). }
  split.
  - intros Hrun. split; [done|]. destruct (GetDataScienceCluster List) as [dsc|err|s]; [|by case_match|done].
    rewrite any_active_spec in Hrun. cbn [res_bind] in Hrun. rewrite negb_involutive in Hrun.
    case_match eqn:Hall; [|by destruct (Workload_process _ _ _)].
    intros name Hname. rewrite forallb_forall in Hall. apply list_elem_of_In, Hall in Hname.
    destruct (GetManagementState dsc name) as [state| |]; [|done..]. by apply String.eqb_eq in Hname as ->.
  - intros [_ Hget]. destruct (GetDataScienceCluster List) as [dsc|err|s]; [| |done].
    + rewrite any_active_spec. cbn [res_bind]. rewrite negb_involutive.
      rewrite (proj2 (forallb_forall _ _)); [done|]. intros name Hname.
      apply list_elem_of_In in Hname. by rewrite Hget.
    + by rewrite Hget.
Qed.

(** What a workload check reports: with a reader that lists [items] and a
    filter that decides [p], the result counts the items that satisfy [p],
    lists exactly these objects as impacted (in order; none is left nil), and
    passes validation when the callback's conditions are well formed. *)
Theorem Workload_Complete_report `{SV : Semver, AE : ApiErrors, KE : K8sErrors, SRV : ApiServer, JQ : GoJq, CL : Clock,
      MO : MapOrder} {T : Type} `{NN : !NamespacedNamer T} List (b : WorkloadBuilder (T := T)) fn
    (f : T → res go_error bool) (p : T → bool) items :
  metadata_ok (wb_check b) → wb_componentNames b = [] →
  wb_listFn b = Ok items → wb_filterFn b = Some f → (∀ x, x ∈ items → f x = Ok (p x)) →
  (∀ req, ∃ cs, fn req = Ok cs ∧ cs ≠ [] ∧ Forall (λ c, validateCondition c = Ok ()) cs) →
  ∃ dr, Workload_Complete List b fn = Ok (Some dr) ∧ DiagnosticResult_Validate dr = Ok () ∧
    r_Annotations dr !! AnnotationImpactedWorkloadCount = Some (itoa (Z.of_nat (length (List.filter p items)))) ∧
    default [] (r_ImpactedObjects dr) =
      map (λ x, impactedObject (wb_resourceType b) (ToNamespacedName x)) (List.filter p items).
Proof.
  intros Hm Hnames Hlist Hfilter Hf Hfn. unfold Workload_Complete, Workload_Run, Workload_process.
  rewrite Hnames, Hlist, Hfilter. cbn [res_bind]. rewrite (filter_items_total _ _ p) by done. cbn [res_bind].
  set (kept := List.filter p items).
  set (dr0 := with_annotation _ AnnotationImpactedWorkloadCount _).
  assert (prepared (wb_check b) dr0) as Hp by (subst dr0; eauto 6 with go_valid).
  assert (r_Conditions dr0 = [] ∧ r_ImpactedObjects dr0 = None) as [Hc Ho].
  { subst dr0. unfold annotate_target. by case_match. }
  destruct (Hfn (mkWorkloadRequest (wb_target b) dr0 kept)) as (cs & -> & Hne & Hcs). cbn [res_bind wr_Result].
  destruct (set_conditions_fields dr0 cs) as [Ha Hi].
  destruct (set_conditions_valid dr0 cs) as [H1 H2]; [done|by rewrite Hc|].
  rewrite Hi, Ho. eexists. split; [reflexivity|]. destruct kept as [|x kept'] eqn:Hk.
  - split; [by eapply complete_valid|]. rewrite Ha, Hi, Ho. split; [|done]. by simplify_map_eq.
  - split; [|split; [|simpl; by rewrite map_map]].
    + apply (prepared_valid (wb_check b)); [done| |done|done].
      by apply prepared_SetImpactedObjects, prepared_set_conditions.
    + simpl. rewrite Ha. by simplify_map_eq.
Qed.

Lemma Workload_Complete_report_witness :
  let c := mkCondition "Compatible" ConditionFalse "VersionIncompatible" "m" 0 ImpactBlocking "" in
  ∃ dr, Workload_Complete (SRV := VersionRun.server) (ValidateRun.list_of []) (ValidateRun.workloads []) (λ _, Ok [c])
          = Ok (Some dr) ∧ DiagnosticResult_Validate dr = Ok () ∧
    r_Annotations dr !! AnnotationImpactedWorkloadCount = Some (itoa 2) ∧
    default [] (r_ImpactedObjects dr) =
      map (λ x, impactedObject ValidateRun.notebooks (mkNN "ns" x)) ["a"; "c"].
Proof.
  intros c.
  apply (Workload_Complete_report (SRV := VersionRun.server) (ValidateRun.list_of []) (ValidateRun.workloads [])
    (λ _, Ok [c]) (λ s, Ok (negb (String.eqb s "b"))) (λ s, negb (String.eqb s "b")) ["a"; "b"; "c"]); try by split.
  intros _. exists [c]. split; [done|]. split; [done|]. by repeat constructor.
Defined.

(** The default operator check: the condition is met exactly when some
    subscription has one of the names (the check kind by default) and, when
    channels are given, one of the channels; the first such subscription
    provides the version that is reported, and an unmet condition is advisory. *)
Theorem Operator_Run_default `{SV : Semver, AE : ApiErrors, KE : K8sErrors, CL : Clock}
    (c : Check) (target : Target) names channels subs :
  let b := mkOperatorBuilder c target names channels (defaultConditionBuilder (ck_CheckKind c)) in
  let wanted sub := (sb_Name sub ∈ match names with [] => [ck_CheckKind c] | _ => names end) ∧
    (channels ≠ [] → ∃ ch, sb_Channel sub = Some ch ∧ ch ≠ "" ∧ ch ∈ channels) in
  ∃ dr cond, Operator_Run true (Ok subs) b = Ok dr ∧ r_Conditions dr = [cond] ∧
    (if not_met cond
     then c_Impact cond = ImpactAdvisory ∧ (∀ sub, sub ∈ subs → ¬ wanted sub)
     else c_Impact cond = ImpactNone ∧
          ∃ l1 sub l2, subs = (l1 ++ sub :: l2)%list ∧ wanted sub ∧ (∀ s, s ∈ l1 → ¬ wanted s) ∧
            r_Annotations dr !! annotationInstalledVersion =
              (if String.eqb (sb_InstalledCSV sub) "" then None else Some (sb_InstalledCSV sub))).
Proof.
  intros b wanted.
  assert (∀ sub, buildMatcher b (subscription_info sub) = true ↔ wanted sub) as Hmatch.
  { intros sub. unfold buildMatcher, wanted. simpl.
    set (ns := match names with [] => [ck_CheckKind c] | _ => names end).
    rewrite <-(contains_str_In ns).
    destruct (contains_str ns (sb_Name sub)); simpl; [|split; [done|by intros [? _]]].
    destruct (bool_decide_reflect (channels = [])) as [Hch|Hch]; simpl; [naive_solver|].
    destruct (sb_Channel sub) as [ch|]; [|simpl; naive_solver].
    destruct (String.eqb_spec ch ""); [naive_solver|]. rewrite contains_str_In. naive_solver. }
  unfold Operator_Run, FindOperator. cbn [negb res_bind res_map_err].
  pose proof (find_spec (buildMatcher b) (map subscription_info subs)) as Hfind.
  assert (∀ t : Target, r_Annotations (annotate_target t (NewResult c)) !! annotationInstalledVersion = None) as Hann.
  { intros t. unfold annotate_target. destruct (t_TargetVersion t); [|done].
    cbn [with_annotation r_Annotations]. by rewrite lookup_insert_ne. }
  destruct (find (buildMatcher b) (map subscription_info subs)) as [info|].
  - destruct Hfind as (m1 & m2 & Heq & Hno & Hyes). apply map_eq_app in Heq as (l1 & l2' & -> & <- & Heq).
    destruct l2' as [|sub l2]; [done|]. injection Heq as <- <-.
    do 2 eexists. split; [reflexivity|]. split; [by case_match|].
    simpl. split; [done|]. exists l1, sub, l2. split; [done|]. split; [by apply Hmatch|]. split.
    + intros s Hs Hw%Hmatch. rewrite Forall_forall in Hno.
      rewrite (Hno (subscription_info s)) in Hw; [done|]. by apply list_elem_of_fmap_2.
    + destruct (String.eqb_spec (sb_InstalledCSV sub) ""); simpl; [apply Hann|apply lookup_insert_eq].
  - do 2 eexists. split; [reflexivity|]. split; [done|]. simpl. split; [done|].
    intros sub Hsub Hw%Hmatch. rewrite Forall_forall in Hfind.
    rewrite (Hfind (subscription_info sub)) in Hw; [done|]. by apply list_elem_of_fmap_2.
Qed.
End ValidateSpec.
