(* ===== verification/CheckKit.v ===== *)
(** * CheckKit: what the checks of pkg/lint/checks share

    The steps nearly every check is written with - a query whose absence has a
    case of its own, the condition set on the result, the gates on versions
    and on the state of a component - and the proof that they only produce
    results the executor accepts. *)
From S2P Require Import Prelude Errors Client Version Result Check Validate.
Open Scope string_scope.
Open Scope Z_scope.
Open Scope go_scope.

Definition some_result (r : res go_error DiagnosticResult) : res go_error (option DiagnosticResult) :=
  let! dr := r in Ok (Some dr).

Definition component_check `{Semver} (kind checkType id name description remediation : string)
    (can : Target → res go_error bool) (validate : Check → Target → res go_error (option DiagnosticResult)) : Check :=
  embed (mkBaseCheck GroupComponent kind checkType id name description remediation) can validate.

(** A query whose absence has a case of its own. *)
Definition on_query {A} (queried : res go_error string) (context : string) (absent : res go_error A)
    (present : string → res go_error A) : res go_error A :=
  match queried with
  | Panic s => Panic s
  | Err err => if errors_is JqErrNotFound err then absent else Err (errorf_w context err)
  | Ok state => present state
  end.

(** [dr.SetCondition(check.NewCondition(...))] *)
Definition set_new `{Clock} (dr : DiagnosticResult) (conditionType : string) (status : ConditionStatus)
    (opts : list ConditionOption) : res go_error DiagnosticResult :=
  let! c := NewCondition conditionType status opts in Ok (SetCondition dr c).

Definition managed_or_unmanaged (state : string) : bool :=
  String.eqb state ManagementStateManaged || String.eqb state ManagementStateUnmanaged.

(** The two gates on versions: an upgrade from 2.x to 3.x, and an upgrade to a
    3.x version, at least 3.[minor], of another major or minor version. *)
Definition from_2x_to_3x `{Semver} (target : Target) : bool :=
  IsUpgradeFrom2xTo3x (t_CurrentVersion target) (t_TargetVersion target).
Definition to_new_3x `{Semver} (minor : Z) (target : Target) : bool :=
  match t_CurrentVersion target, t_TargetVersion target with
  | Some current, Some tgt =>
      if negb (v_LT current tgt) then false
      else if SameMajorMinor (Some current) (Some tgt) then false
      else if negb (IsVersion3x (Some tgt)) then false
      else IsVersionAtLeast (Some tgt) 3 minor
  | _, _ => false
  end.

(** The gate on the state of a component. *)
Section Gate.
Context `{AE : ApiErrors, KE : K8sErrors, SRV : ApiServer, JQ : GoJq}.
Context (List : ResourceType → res go_error (list json)).
Definition component_gate (applies : bool) (component : string) (states : list string) : res go_error bool :=
  if negb applies then Ok false
  else
    try! dsc := GetDataScienceCluster List else errorf_w "getting DataScienceCluster" in
    HasManagementState dsc component states.
End Gate.

(** ** Lemmas *)
(** *** Version gates *)
(** The order of two versions by major and minor number. *)
Definition older `{Semver} (a b : Version) : Prop :=
  v_Major a < v_Major b ∨ v_Major a = v_Major b ∧ v_Minor a < v_Minor b.

Lemma to_new_3x_iff `{SemverLaws} minor (target : Target) :
  to_new_3x minor target = true ↔
  ∃ current tgt, t_CurrentVersion target = Some current ∧ t_TargetVersion target = Some tgt ∧
    v_Major tgt = 3 ∧ minor ≤ v_Minor tgt ∧ older current tgt.
Proof.
  unfold to_new_3x, older. split.
  - destruct (t_CurrentVersion target) as [cur|]; [|done]. destruct (t_TargetVersion target) as [tgt|]; [|done].
    destruct (v_LT cur tgt) eqn:Hlt; [|done]. simpl. destruct (_ && _) eqn:Hs; [done|].
    destruct (Z.eqb_spec (v_Major tgt) 3) as [H3|]; [|done]. simpl. rewrite (proj2 (Z.ltb_ge _ _)) by lia.
    intros Hm. exists cur, tgt. do 3 (split; [done|]). split; [lia|].
    destruct (Z.lt_trichotomy (v_Major cur) (v_Major tgt)) as [?|[He|Hgt]]; [by left| |].
    + right. split; [done|]. apply andb_false_iff in Hs as [?|?]; [lia|].
      destruct (Z.lt_trichotomy (v_Minor cur) (v_Minor tgt)) as [?|[?|Hgt]]; [done|lia|].
      pose proof (v_LT_minor tgt cur (eq_sym He) Hgt) as Hlt'. by rewrite (v_LT_asym _ _ Hlt') in Hlt.
    + pose proof (v_LT_major tgt cur Hgt) as Hlt'. by rewrite (v_LT_asym _ _ Hlt') in Hlt.
  - intros (cur & tgt & -> & -> & H3 & Hm & Ho).
    assert (v_LT cur tgt = true) as -> by (destruct Ho as [?|[]]; [by apply v_LT_major|by apply v_LT_minor]).
    cbn [negb]. unfold SameMajorMinor, IsVersion3x, IsVersionAtLeast. rewrite H3.
    replace ((v_Major cur =? 3) && (v_Minor cur =? v_Minor tgt)) with false; [cbn; lia|].
    symmetry. apply andb_false_iff. lia.
Qed.

Lemma component_gate_Ok `{AE : ApiErrors, KE : K8sErrors, SRV : ApiServer, JQ : GoJq} List applies component states :
  component_gate List applies component states = Ok true →
  applies = true ∧ ∃ dsc state, GetDataScienceCluster List = Ok dsc ∧ GetManagementState dsc component = Ok state ∧
    (states = [] ∨ state ∈ states).
Proof.
  unfold component_gate. destruct applies; [|done]. cbn [negb].
  destruct (GetDataScienceCluster List) as [dsc|e|s]; [|done..]. cbn [res_map_err res_bind].
  unfold HasManagementState, state_in. destruct (GetManagementState dsc component) as [state|e|s] eqn:Hs; [|done..].
  intros Hst. split; [done|]. exists dsc, state. do 2 (split; [done|]).
  destruct states; [by left|right]. apply contains_str_In. by injection Hst.
Qed.

(** *** The request a component callback gets *)
Section ComponentRequests.
Context `{SV : Semver, AE : ApiErrors, KE : K8sErrors, SRV : ApiServer, JQ : GoJq, CL : Clock}.
Context (List : ResourceType → res go_error (list json)).

Definition component_request (c : Check) (target : Target) (dsc : json) (state ns : string) : ComponentRequest :=
  mkComponentRequest target
    (annotate_target target (with_annotation (NewResult c) AnnotationComponentManagementState state)) dsc state ns.

Lemma Component_Run_request (b : ComponentBuilder) fn dsc state :
  GetDataScienceCluster List = Ok dsc → GetManagementState dsc (cb_componentName b) = Ok state →
  (cb_requiredStates b = [] ∨ state ∈ cb_requiredStates b) → cb_loadApplicationsNamespace b = false →
  Component_Run List b fn = fn (component_request (cb_check b) (cb_target b) dsc state "").
Proof.
  intros Hdsc Hst Hreq Hns. unfold Component_Run. rewrite Hdsc, Hst, Hns. cbn [res_map_err res_bind].
  destruct (negb (bool_decide (cb_requiredStates b = []))) eqn:He; [|done].
  apply negb_true_iff, bool_decide_eq_false in He. destruct Hreq as [|Hin]; [done|].
  by rewrite (proj2 (contains_str_In _ _) Hin).
Qed.
Lemma Component_Run_namespaced (b : ComponentBuilder) fn dsc state ns :
  GetDataScienceCluster List = Ok dsc → GetManagementState dsc (cb_componentName b) = Ok state →
  cb_requiredStates b = [] → cb_loadApplicationsNamespace b = true → GetApplicationsNamespace List = Ok ns →
  Component_Run List b fn = fn (component_request (cb_check b) (cb_target b) dsc state ns).
Proof. intros Hdsc Hst Hreq Hns Hgot. unfold Component_Run. by rewrite Hdsc, Hst, Hns, Hreq, Hgot. Qed.

Lemma component_request_conditions c target dsc state ns : r_Conditions (cr_Result (component_request c target dsc state ns)) = [].
Proof. unfold component_request, annotate_target. simpl. by case_match. Qed.
Lemma component_request_objects c target dsc state ns : r_ImpactedObjects (cr_Result (component_request c target dsc state ns)) = None.
Proof. unfold component_request, annotate_target. simpl. by case_match. Qed.
Lemma component_request_state c target dsc state ns :
  r_Annotations (cr_Result (component_request c target dsc state ns)) !! AnnotationComponentManagementState = Some state.
Proof. unfold component_request, annotate_target. simpl. case_match; simpl; by simplify_map_eq. Qed.
End ComponentRequests.

(** *** Results the executor accepts *)
Section Accepted.
Context `{SV : Semver, CL : Clock}.

Definition yields {A} (P : A → Prop) (r : res go_error A) : Prop := ∀ a, r = Ok a → P a.
Definition valid_conditions (cs : list Condition) : Prop := Forall (λ x, validateCondition x = Ok ()) cs.

(** A result under construction, and one that is finished. *)
Definition pending (c : Check) (dr : DiagnosticResult) : Prop := prepared c dr ∧ valid_conditions (r_Conditions dr).
Definition accepted (c : Check) (dr : DiagnosticResult) : Prop := pending c dr ∧ r_Conditions dr ≠ [].
Definition optionally {A} (P : A → Prop) (o : option A) : Prop := match o with Some a => P a | None => True end.
Definition valid_options (conditionType : string) (status : ConditionStatus) (opts : list ConditionOption) : Prop :=
  yields (λ cond, validateCondition cond = Ok ()) (NewCondition conditionType status opts).

Lemma yields_Ok {A} (P : A → Prop) a : P a → yields P (Ok a).
Proof. by intros Ha ? [= <-]. Qed.
Lemma yields_Err {A} (P : A → Prop) e : yields P (Err e).
Proof. done. Qed.
Lemma yields_Panic {A} (P : A → Prop) s : yields P (Panic s).
Proof. done. Qed.
Lemma yields_bind {A B} (P : B → Prop) (m : res go_error A) (k : A → res go_error B) :
  (∀ a, m = Ok a → yields P (k a)) → yields P (res_bind m k).
Proof. destruct m as [a|e|s]; simpl; [eauto|done..]. Qed.
Lemma yields_impl {A} (P Q : A → Prop) r : (∀ a, P a → Q a) → yields P r → yields Q r.
Proof. intros HPQ HP a Ha. by apply HPQ, HP. Qed.
Lemma yields_step {A B} (Q : A → Prop) (P : B → Prop) (m : res go_error A) (k : A → res go_error B) :
  yields Q m → (∀ a, Q a → yields P (k a)) → yields P (res_bind m k).
Proof. intros Hm Hk. apply yields_bind. intros a Ha. by apply Hk, Hm. Qed.

Lemma pending_New c : pending c (NewResult c).
Proof. split; [apply prepared_New|constructor]. Qed.
Lemma pending_annotation c dr k v : isValidAnnotationKey k = true → pending c dr → pending c (with_annotation dr k v).
Proof. intros Hk []. split; [by apply prepared_annotation|done]. Qed.
Lemma pending_annotate_target c t dr : pending c dr → pending c (annotate_target t dr).
Proof. intros Hp. unfold annotate_target. case_match; [by apply pending_annotation|done]. Qed.
Lemma accepted_pending c dr : accepted c dr → pending c dr.
Proof. by intros []. Qed.
Lemma accepted_annotation c dr k v : isValidAnnotationKey k = true → accepted c dr → accepted c (with_annotation dr k v).
Proof. intros Hk []. split; [by apply pending_annotation|done]. Qed.
Lemma accepted_objects c dr objs : accepted c dr → accepted c (with_objects dr objs).
Proof. done. Qed.
Lemma accepted_SetCondition c dr cond : pending c dr → validateCondition cond = Ok () → accepted c (SetCondition dr cond).
Proof.
  intros [Hp Hv] Hc. split; [split; [done|by apply set_condition_Forall]|apply set_condition_nonempty].
Qed.
Lemma accepted_valid `{MO : MapOrder} c dr : metadata_ok c → accepted c dr → DiagnosticResult_Validate dr = Ok ().
Proof. intros Hm [[Hp Hv] Hne]. by apply (prepared_valid c). Qed.

Lemma set_new_accepted c dr conditionType status opts :
  pending c dr → valid_options conditionType status opts → yields (accepted c) (set_new dr conditionType status opts).
Proof.
  intros Hp Hv. apply (yields_step _ _ _ _ Hv). intros cond Hc. by apply yields_Ok, accepted_SetCondition.
Qed.
Lemma on_query_yields {A} (P : A → Prop) queried context absent present :
  yields P absent → (∀ state, yields P (present state)) → yields P (on_query queried context absent present).
Proof. intros Ha Hp. unfold on_query. destruct queried; [apply Hp| |done]. by case_match. Qed.
Lemma some_result_accepted c r : yields (accepted c) r → yields (optionally (accepted c)) (some_result r).
Proof. intros Hr. apply (yields_step _ _ _ _ Hr). intros dr Hd. by apply yields_Ok. Qed.
End Accepted.

Section AcceptedBuilders.
Context `{SV : Semver, AE : ApiErrors, KE : K8sErrors, SRV : ApiServer, JQ : GoJq, CL : Clock}.
Context (List : ResourceType → res go_error (list json)).

Lemma unavailable_accepted c message : yields (accepted c) (unavailable c message).
Proof. intros dr [= <-]. split; [split; [by apply prepared_conditions, prepared_New|by repeat constructor]|done]. Qed.
Lemma not_configured_accepted c : yields (accepted c) (not_configured c).
Proof. intros dr [= <-]. apply accepted_SetCondition; [apply pending_New|done]. Qed.

Lemma Component_Run_accepted c b fn :
  cb_check b = c → (∀ req, pending c (cr_Result req) → yields (accepted c) (fn req)) →
  yields (accepted c) (Component_Run List b fn).
Proof.
  intros <- Hfn. unfold Component_Run. destruct (GetDataScienceCluster List) as [dsc|e|s]; [| |done].
  - apply yields_bind. intros state _. case_match; [apply not_configured_accepted|].
    assert (pending (cb_check b) (annotate_target (cb_target b)
      (with_annotation (NewResult (cb_check b)) AnnotationComponentManagementState state))) as Hp
      by (by apply pending_annotate_target, pending_annotation, pending_New).
    destruct (cb_loadApplicationsNamespace b); [|by apply Hfn].
    destruct (GetApplicationsNamespace List) as [ns|e|s]; [by apply Hfn| |done].
    case_match; [|done]. by apply set_new_accepted; [|intros cond [= <-]].
  - case_match; [apply unavailable_accepted|done].
Qed.

Lemma set_conditions_accepted c dr cs : pending c dr → valid_conditions cs → cs ≠ [] → accepted c (set_conditions dr cs).
Proof.
  intros [Hp Hv] Hcs Hne. destruct (set_conditions_valid dr cs) as [H1 H2]; [done|by apply Forall_app|].
  split; [split; [by apply prepared_set_conditions|done]|done].
Qed.
Lemma Component_Complete_accepted c b fn :
  cb_check b = c → (∀ req, yields (λ cs, valid_conditions cs ∧ cs ≠ []) (fn req)) →
  yields (accepted c) (Component_Complete List b fn).
Proof.
  intros Hb Hfn. apply Component_Run_accepted; [done|]. intros req Hp. apply (yields_step _ _ _ _ (Hfn req)).
  intros cs []. by apply yields_Ok, set_conditions_accepted.
Qed.
Lemma Removal_accepted c req format opts :
  pending c (cr_Result req) →
  (∀ message, valid_options ConditionTypeCompatible ConditionFalse
     (WithReason ReasonVersionIncompatible :: WithMessage message :: opts)) →
  yields (accepted c) (Removal format opts req).
Proof. intros Hp Hv. by apply set_new_accepted. Qed.

Lemma singleton_Run_accepted get kind c target fn :
  (∀ dr obj, pending c dr → yields (accepted c) (fn dr obj)) → yields (accepted c) (singleton_Run get kind c target fn).
Proof.
  intros Hfn. unfold singleton_Run. destruct get as [obj|e|s]; [| |done].
  - by apply Hfn, pending_annotate_target, pending_New.
  - case_match; [apply unavailable_accepted|done].
Qed.

Lemma Operator_Run_accepted c olmAvailable subscriptions b :
  ob_check b = c → (∀ found version, yields (λ cond, validateCondition cond = Ok ()) (ob_conditionBuilder b found version)) →
  yields (accepted c) (Operator_Run olmAvailable subscriptions b).
Proof.
  intros <- Hb. unfold Operator_Run.
  assert (pending (ob_check b) (annotate_target (ob_target b) (NewResult (ob_check b)))) as [Hp _]
    by apply pending_annotate_target, pending_New.
  assert (∀ cond, validateCondition cond = Ok () → accepted (ob_check b)
    (with_conditions (annotate_target (ob_target b) (NewResult (ob_check b))) [cond])) as Hone.
  { intros cond Hc. split; [split; [by apply prepared_conditions|by repeat constructor]|done]. }
  destruct olmAvailable; simpl.
  - apply yields_bind. intros info _. apply (yields_step _ _ _ _ (Hb _ _)). intros cond Hc. apply yields_Ok.
    case_match; [apply accepted_annotation; [done|]|]; by apply Hone.
  - apply (yields_step _ _ _ _ (Hb _ _)). intros cond Hc. apply yields_Ok, Hone. by destruct cond.
Qed.

Section AcceptedWorkload.
Context {T : Type} `{NN : !NamespacedNamer T}.
Lemma Workload_Run_accepted c (b : WorkloadBuilder) (fn : WorkloadValidateFn) :
  wb_check b = c → (∀ req : WorkloadRequest (T := T), pending c (wr_Result req) → yields (accepted c) (fn req)) →
  yields (optionally (accepted c)) (Workload_Run List b fn).
Proof.
  intros <- Hfn. unfold Workload_Run.
  assert (pending (wb_check b) (annotate_target (wb_target b) (NewResult (wb_check b)))) as Hp
    by apply pending_annotate_target, pending_New.
  assert (yields (accepted (wb_check b)) (Workload_process b (annotate_target (wb_target b) (NewResult (wb_check b))) fn)) as Hw.
  { unfold Workload_process. apply yields_bind. intros items _. apply yields_bind. intros kept _.
    eapply yields_step; [apply Hfn; by apply pending_annotation|]. intros dr [[Hpr Hv] Hne]. apply yields_Ok.
    repeat case_match; split; try done; split; done || by apply prepared_SetImpactedObjects. }
  assert (yields (optionally (accepted (wb_check b)))
    (let! dr := Workload_process b (annotate_target (wb_target b) (NewResult (wb_check b))) fn in Ok (Some dr))) as Hs
    by (by apply some_result_accepted).
  destruct (wb_componentNames b); [done|]. apply yields_bind. intros active _.
  destruct active; [done|]. by apply yields_Ok.
Qed.
Lemma Workload_Complete_accepted c (b : WorkloadBuilder) fn :
  wb_check b = c → (∀ req : WorkloadRequest (T := T), yields (λ cs, valid_conditions cs ∧ cs ≠ []) (fn req)) →
  yields (optionally (accepted c)) (Workload_Complete List b fn).
Proof.
  intros Hb Hfn. apply Workload_Run_accepted; [done|]. intros req Hp. apply (yields_step _ _ _ _ (Hfn req)).
  intros cs []. by apply yields_Ok, set_conditions_accepted.
Qed.
End AcceptedWorkload.
End AcceptedBuilders.

(** A check whose results are never rejected by the executor. *)
Definition sound_check `{SV : Semver, MO : MapOrder} (c : Check) : Prop :=
  metadata_ok c ∧ ∀ t target dr, ck_Validate c t target = Ok (Some dr) → DiagnosticResult_Validate dr = Ok ().

Lemma embed_sound `{SV : Semver, MO : MapOrder} b can validate :
  bc_CheckGroup b ≠ "" → bc_Kind b ≠ "" → bc_Type b ≠ "" →
  (∀ c target, yields (optionally (accepted c)) (validate c target)) → sound_check (embed b can validate).
Proof.
  intros Hg Hk Ht Hv. split; [done|]. intros t target dr Hdr. unfold embed in Hdr. cbn in Hdr.
  apply Hv in Hdr. eapply accepted_valid; [|exact Hdr]. done.
Qed.

Lemma accepted_AddImpactedObjects `{SV : Semver} c dr rt names : accepted c dr → accepted c (AddImpactedObjects dr rt names).
Proof.
  intros Ha. unfold AddImpactedObjects. set (dr' := match _ with Some _ => dr | None => _ end).
  assert (accepted c dr') as Ha' by (unfold dr'; case_match; [done|by apply accepted_annotation]).
  by destruct names.
Qed.

Lemma one_condition cond :
  validateCondition cond = Ok () → yields (λ cs, valid_conditions cs ∧ cs ≠ []) (Ok [cond]).
Proof. intros Hc. apply yields_Ok. split; [by repeat constructor|done]. Qed.

#[export] Hint Resolve yields_Ok yields_Err yields_Panic pending_New pending_annotation pending_annotate_target
  accepted_pending accepted_annotation accepted_objects accepted_AddImpactedObjects : go_accept.

Ltac head_of t := lazymatch t with ?f _ => head_of f | _ => t end.
(** One step towards [yields (accepted c) _]; a condition built from a literal
    list of options is valid by computation. *)
Ltac accept_step :=
  match goal with
  | |- ∀ _, _ => intros
  | |- yields _ _ => progress cbv beta zeta
  | |- valid_options _ _ _ => let c := fresh in let H := fresh in intros c H; injection H as <-; reflexivity
  | |- yields _ (res_bind (set_new _ _ _ _) _) => eapply yields_step; [apply set_new_accepted|]
  | |- yields _ (set_new _ _ _ _) => apply set_new_accepted
  | |- yields _ (on_query _ _ _ _) => apply on_query_yields
  | |- yields _ (some_result _) => apply some_result_accepted
  | |- yields _ (Component_Run _ _ _) => apply Component_Run_accepted; [reflexivity|]
  | |- yields _ (Component_Complete _ _ _) => apply Component_Complete_accepted; [reflexivity|]
  | |- yields _ (Operator_Run _ _ _) => apply Operator_Run_accepted; [reflexivity|]
  | |- yields _ (Workload_Run _ _ _) => apply Workload_Run_accepted; [reflexivity|]
  | |- yields _ (Workload_Complete _ _ _) => apply Workload_Complete_accepted; [reflexivity|]
  | |- yields _ (DSC_Run _ _ _ _) => apply singleton_Run_accepted
  | |- yields _ (DSCI_Run _ _ _ _) => apply singleton_Run_accepted
  | |- yields _ (Removal _ _ _) => apply Removal_accepted
  | |- yields (λ cs, valid_conditions cs ∧ cs ≠ []) (res_bind _ (λ c, Ok [c])) =>
      apply (yields_step (λ cond, validateCondition cond = Ok ())); [|apply one_condition]
  | |- yields _ (NewCondition _ _ _) => let c := fresh in let H := fresh in intros c H; injection H as <-; reflexivity
  | |- yields (accepted ?c) (@res_bind _ DiagnosticResult _ _ _) => apply (yields_step (accepted c))
  | |- yields _ (@res_bind _ Condition _ _ _) => apply (yields_step (λ cond, validateCondition cond = Ok ()))
  | |- yields _ (res_bind _ _) => apply yields_bind
  | |- yields _ (Ok _) => apply yields_Ok
  | |- yields _ (match ?x with _ => _ end) => destruct x
  | |- accepted _ (match ?x with _ => _ end) => destruct x
  | |- pending _ (match ?x with _ => _ end) => destruct x
  | |- yields _ ?r => let h := head_of r in unfold h
  | |- _ => solve [eauto 6 with go_accept]
  end.
Ltac accept := repeat accept_step.
