(* ===== verification/Lint.v ===== *)
(** * Lint: pkg/lint/command_options.go, command.go, output_table.go

    The lint command: its options and their validation, the stdin
    configuration, the decision between lint and upgrade mode, the run over
    the check groups, the severity filter, the rows and counters of the table,
    the verdict and the exit code. *)
From S2P Require Import Prelude GoPath Errors Client Version Result Check Executor.
Open Scope string_scope.
Open Scope Z_scope.
Open Scope go_scope.

(** ** command_options.go: options *)
Definition OutputFormat : Type := string.
Definition OutputFormatTable : OutputFormat := "table".
Definition OutputFormatJSON : OutputFormat := "json".
Definition OutputFormatYAML : OutputFormat := "yaml".

Definition SeverityLevel : Type := string.
Definition SeverityLevelProhibited : SeverityLevel := "prohibited".
Definition SeverityLevelCritical : SeverityLevel := "critical".
Definition SeverityLevelWarning : SeverityLevel := "warning".
Definition SeverityLevelInfo : SeverityLevel := "info".

Definition OutputFormat_Validate (o : OutputFormat) : res go_error () :=
  if String.eqb o OutputFormatTable || String.eqb o OutputFormatJSON || String.eqb o OutputFormatYAML then Ok ()
  else Err (EString ("invalid output format: " +:+ o +:+ " (must be one of: table, json, yaml)")).

Definition SeverityLevel_Validate (s : SeverityLevel) : res go_error () :=
  if String.eqb s SeverityLevelProhibited || String.eqb s SeverityLevelCritical ||
     String.eqb s SeverityLevelWarning || String.eqb s SeverityLevelInfo then Ok ()
  else Err (EString ("invalid severity level: " +:+ s +:+ " (must be one of: prohibited, critical, warning, info)")).

Definition ValidateCheckSelector (selector : string) : res go_error () :=
  if String.eqb selector "" then Err (EString "check selector cannot be empty")
  else match path_match selector "test.check" with
       | None => Err (EString ("invalid check selector pattern " +:+ quote selector +:+ ": syntax error in pattern"))
       | Some _ => Ok ()
       end.

Definition ValidateCheckSelectors (selectors : list string) : res go_error () :=
  match selectors with
  | [] => Err (EString "at least one check selector is required")
  | _ => for_each ValidateCheckSelector selectors
  end.

(** [StdinInput] *)
Record StdinInput := mkStdin {
  si_Checks : list string;
  si_Severity : string;
  si_TargetVersion : string;
  si_Verbose : bool;
  si_Quiet : bool;
  si_Output : string;
}.

(** How much of the stream handle is passed through (iostreams wrappers). *)
Inductive IOMode := IONormal | IOQuiet | IOFullQuiet.

(** The fields of [Command] and of the embedded [SharedOptions] that the
    operations below read or write. *)
Record Command `{Semver} := mkCommand {
  c_OutputFormat : OutputFormat;
  c_CheckSelectors : list string;
  c_SeverityLevel : SeverityLevel;
  c_Verbose : bool;
  c_Quiet : bool;
  c_Debug : bool;
  c_NoColor : bool;
  c_FromStdin : bool;
  c_Timeout : Z;
  c_OutputSchema : bool;
  c_TargetVersion : string;
  c_ISVCDeploymentMode : string;
  c_parsedTargetVersion : option Version;
  c_IO : IOMode;
}.

Definition SharedOptions_Validate `{Semver} (c : Command) : res go_error () :=
  let! _a := OutputFormat_Validate (c_OutputFormat c) in
  let! _b := SeverityLevel_Validate (c_SeverityLevel c) in
  let! _c := ValidateCheckSelectors (c_CheckSelectors c) in
  if c_Timeout c <=? 0 then Err (EString "timeout must be greater than 0") else Ok ().

(** ** Severity (command_options.go) *)
Definition meetsMinSeverity (impact : Impact) (minLevel : SeverityLevel) : bool :=
  if String.eqb minLevel SeverityLevelProhibited then bool_decide (impact = ImpactProhibited)
  else if String.eqb minLevel SeverityLevelCritical then
    bool_decide (impact = ImpactProhibited) || bool_decide (impact = ImpactBlocking)
  else if String.eqb minLevel SeverityLevelWarning then
    bool_decide (impact = ImpactProhibited) || bool_decide (impact = ImpactBlocking) ||
    bool_decide (impact = ImpactAdvisory)
  else true.

Definition impactSortPriority (impact : Impact) : Z :=
  match impact with
  | ImpactProhibited => 0
  | ImpactBlocking => 1
  | ImpactAdvisory => 2
  | ImpactNone | ImpactOther _ => 3
  end.

Definition getImpactString (impact : Impact) (prohibitedStr blockingStr advisoryStr noneStr : string) : string :=
  match impact with
  | ImpactProhibited => prohibitedStr
  | ImpactBlocking => blockingStr
  | ImpactAdvisory => advisoryStr
  | ImpactNone | ImpactOther _ => noneStr
  end.

(** The index of the first canonical group equal to [group]. *)
Fixpoint group_index (i : Z) (order : list string) (group : string) : Z :=
  match order with
  | [] => i
  | g :: rest => if String.eqb g group then i else group_index (i + 1) rest group
  end.
Definition groupSortPriority (group : string) : Z := group_index 0 CanonicalGroupOrder group.

Section Results.
Context `{SV : Semver}.

(** One execution: a copy with the conditions that meet the level, unless none does. *)
Definition filter_execution (minLevel : SeverityLevel) (exec : CheckExecution) : option CheckExecution :=
  match ce_Result exec with
  | None => None
  | Some r =>
      match List.filter (λ cond, meetsMinSeverity (c_Impact cond) minLevel) (r_Conditions r) with
      | [] => None
      | kept => Some {| ce_Check := ce_Check exec; ce_Result := Some (with_conditions r kept);
                        ce_Error := ce_Error exec |}
      end
  end.

Definition FilterBySeverity (results : list CheckExecution) (minLevel : SeverityLevel) : list CheckExecution :=
  if String.eqb minLevel SeverityLevelInfo then results
  else omap (filter_execution minLevel) results.

(** The loop of [checkMaxImpact]. *)
Definition checkMaxImpact (r : DiagnosticResult) : Impact :=
  foldl (λ maxImpact cond,
    if impactSortPriority (c_Impact cond) <? impactSortPriority maxImpact then c_Impact cond else maxImpact)
    ImpactNone (r_Conditions r).

(** The comparison of [FlattenResults]: by kind, then by name. *)
Definition kind_name_less (a b : DiagnosticResult) : bool :=
  if negb (String.eqb (r_Kind a) (r_Kind b)) then string_less (r_Kind a) (r_Kind b)
  else string_less (r_Name a) (r_Name b).

(** A comparison dereferences both results; with two or more executions every
    one takes part in some comparison, so a nil result panics. *)
Definition deref (exec : CheckExecution) : DiagnosticResult :=
  match ce_Result exec with Some r => r | None => New "" "" "" "" end.
Definition exec_less (a b : CheckExecution) : bool := kind_name_less (deref a) (deref b).

Definition sort_executions `{SortSlice} {E} (l : list CheckExecution) : res E (list CheckExecution) :=
  if (2 <=? length l)%nat && existsb (λ exec, match ce_Result exec with None => true | _ => false end) l
  then Panic "invalid memory address or nil pointer dereference"
  else Ok (sort_slice exec_less l).

(** A group without results is a nil slice. *)
Fixpoint flatten_groups `{SortSlice} {E} (resultsByGroup : gmap string (list CheckExecution))
    (groups : list string) : res E (list CheckExecution) :=
  match groups with
  | [] => Ok []
  | group :: rest =>
      let! groupResults := sort_executions (default [] (resultsByGroup !! group)) in
      let! flattened := flatten_groups resultsByGroup rest in
      Ok (groupResults ++ flattened)%list
  end.

Definition FlattenResults `{SortSlice} {E} (resultsByGroup : gmap string (list CheckExecution))
    : res E (list CheckExecution) :=
  flatten_groups resultsByGroup CanonicalGroupOrder.
End Results.

(** ** output_table.go: rows and counters *)
Record CheckResultTableRow := mkRow {
  row_Status : string;
  row_Kind : string;
  row_Group : string;
  row_Check : string;
  row_Impact : string;
  row_Message : string;
  row_Description : string;
}.

Record sortableRow := mkSortable { sr_row : CheckResultTableRow; sr_impact : Impact }.

(** The coloured symbols are the colour package's. *)
Record Palette := mkPalette {
  StatusProhibited : string; StatusFail : string; StatusWarn : string; StatusPass : string;
  SeverityProhibited : string; SeverityCritical : string; SeverityWarning : string; SeverityInfo : string;
}.

Definition statusSymbol (pal : Palette) (impact : Impact) : string :=
  match impact with
  | ImpactProhibited => StatusProhibited pal
  | ImpactBlocking => StatusFail pal
  | ImpactAdvisory => StatusWarn pal
  | ImpactNone | ImpactOther _ => StatusPass pal
  end.

Definition condition_row (pal : Palette) (r : DiagnosticResult) (condition : Condition) : sortableRow :=
  mkSortable
    (mkRow (statusSymbol pal (c_Impact condition)) (r_Kind r) (r_Group r) (r_Name r)
       (getImpactString (c_Impact condition) (SeverityProhibited pal) (SeverityCritical pal)
          (SeverityWarning pal) (SeverityInfo pal))
       (c_Message condition) (r_Description r))
    (c_Impact condition).

(** Group, then kind, then impact, then check. *)
Definition row_less (a b : sortableRow) : bool :=
  let gi := groupSortPriority (row_Group (sr_row a)) in
  let gj := groupSortPriority (row_Group (sr_row b)) in
  if negb (gi =? gj) then gi <? gj
  else if negb (String.eqb (row_Kind (sr_row a)) (row_Kind (sr_row b)))
  then string_less (row_Kind (sr_row a)) (row_Kind (sr_row b))
  else
    let pi := impactSortPriority (sr_impact a) in
    let pj := impactSortPriority (sr_impact b) in
    if negb (pi =? pj) then pi <? pj
    else string_less (row_Check (sr_row a)) (row_Check (sr_row b)).

Definition collectSortedRows `{SV : Semver, SS : SortSlice} (pal : Palette) (results : list CheckExecution)
    : list sortableRow :=
  sort_slice row_less
    (flat_map (λ exec, match ce_Result exec with
                       | None => []
                       | Some r => map (condition_row pal r) (r_Conditions r)
                       end) results).

(** The counters of the summary line: total, passed, warnings, failed, prohibited. *)
Record Counters := mkCounters { n_Total : Z; n_Passed : Z; n_Warnings : Z; n_Failed : Z; n_Prohibited : Z }.

Definition count_row (n : Counters) (sr : sortableRow) : Counters :=
  let n := mkCounters (n_Total n + 1) (n_Passed n) (n_Warnings n) (n_Failed n) (n_Prohibited n) in
  match sr_impact sr with
  | ImpactProhibited => mkCounters (n_Total n) (n_Passed n) (n_Warnings n) (n_Failed n) (n_Prohibited n + 1)
  | ImpactBlocking => mkCounters (n_Total n) (n_Passed n) (n_Warnings n) (n_Failed n + 1) (n_Prohibited n)
  | ImpactAdvisory => mkCounters (n_Total n) (n_Passed n) (n_Warnings n + 1) (n_Failed n) (n_Prohibited n)
  | ImpactNone => mkCounters (n_Total n) (n_Passed n + 1) (n_Warnings n) (n_Failed n) (n_Prohibited n)
  | ImpactOther _ => n
  end.

(** What [OutputTable] writes: the rows of the banner (if any), the rows of the
    table and the counters. *)
Record TableOutput := mkTable { to_banner : list sortableRow; to_rows : list sortableRow; to_counters : Counters }.

Definition OutputTable `{SV : Semver, SS : SortSlice} (pal : Palette) (results : list CheckExecution) : TableOutput :=
  let rows := collectSortedRows pal results in
  {| to_banner := List.filter (λ sr, bool_decide (sr_impact sr = ImpactProhibited)) rows;
     to_rows := rows;
     to_counters := foldl count_row (mkCounters 0 0 0 0 0) rows |}.

(** ** command.go: stdin configuration, completion, validation *)
Section Commands.
Context `{SV : Semver, AE : ApiErrors}.

(** [changed] says which flags were set on the command line. *)
Definition applyStdinInput (changed : string → bool) (input : StdinInput) (c : Command) : res go_error Command :=
  let checks := if negb (bool_decide (si_Checks input = [])) && negb (changed "checks")
                then si_Checks input else c_CheckSelectors c in
  let! severity :=
    if negb (String.eqb (si_Severity input) "") && negb (changed "severity") then
      try! _u := SeverityLevel_Validate (si_Severity input) else errorf_w "stdin input" in Ok (si_Severity input)
    else Ok (c_SeverityLevel c) in
  let target := if negb (String.eqb (si_TargetVersion input) "") && negb (changed "target-version")
                then si_TargetVersion input else c_TargetVersion c in
  let verbose := (si_Verbose input && negb (changed "verbose")) || c_Verbose c in
  let quiet := (si_Quiet input && negb (changed "quiet")) || c_Quiet c in
  let! output :=
    if negb (String.eqb (si_Output input) "") && negb (changed "output") then
      try! _u := OutputFormat_Validate (si_Output input) else errorf_w "stdin input" in Ok (si_Output input)
    else Ok (c_OutputFormat c) in
  Ok (mkCommand _ output checks severity verbose quiet (c_Debug c) (c_NoColor c) (c_FromStdin c)
        (c_Timeout c) (c_OutputSchema c) target (c_ISVCDeploymentMode c) (c_parsedTargetVersion c) (c_IO c)).

(** Reading stdin: whether it is piped, and the parsed document. *)
Context (check_piped : res go_error ()) (parse_stdin : res go_error StdinInput).
(** Building the client of the shared options. *)
Context (connect : res go_error ()).

Definition parseStdinConfig (changed : string → bool) (c : Command) : res go_error Command :=
  let! _u := check_piped in
  try! input := parse_stdin else errorf_w "parsing stdin" in
  applyStdinInput changed input c.

(** The settings [Complete] derives once the client exists. *)
Definition derive_settings (c : Command) : Command :=
  let structured := String.eqb (c_OutputFormat c) OutputFormatJSON || String.eqb (c_OutputFormat c) OutputFormatYAML in
  let io := if c_Quiet c then IOFullQuiet
            else if negb (c_Verbose c) && negb (c_Debug c) then IOQuiet else c_IO c in
  mkCommand _ (c_OutputFormat c) (c_CheckSelectors c) (c_SeverityLevel c) (c_Verbose c) (c_Quiet c) (c_Debug c)
    (structured || c_NoColor c) (c_FromStdin c) (c_Timeout c) (c_OutputSchema c) (c_TargetVersion c)
    (c_ISVCDeploymentMode c) (c_parsedTargetVersion c) io.

Definition set_parsed (c : Command) (v : Version) : Command :=
  mkCommand _ (c_OutputFormat c) (c_CheckSelectors c) (c_SeverityLevel c) (c_Verbose c) (c_Quiet c) (c_Debug c)
    (c_NoColor c) (c_FromStdin c) (c_Timeout c) (c_OutputSchema c) (c_TargetVersion c)
    (c_ISVCDeploymentMode c) (Some v) (c_IO c).

Definition Complete (changed : string → bool) (c : Command) : res go_error Command :=
  if c_OutputSchema c then Ok c
  else
    let! c := if c_FromStdin c
              then res_map_err (EExitCode ExitValidation) (parseStdinConfig changed c) else Ok c in
    if c_Verbose c && c_Quiet c then Err (EString "--verbose and --quiet are mutually exclusive")
    else
      try! _u := connect else errorf_w "completing shared options" in
      let c := derive_settings c in
      if negb (String.eqb (c_TargetVersion c) "") then
        try! targetVer := semver_ParseTolerant (c_TargetVersion c)
          else errorf_w ("invalid target version " +:+ quote (c_TargetVersion c)) in
        Ok (set_parsed c targetVer)
      else Ok c.

Definition validModes : list string := ["all"; "serverless"; "modelmesh"].

Definition Command_Validate (c : Command) : res go_error () :=
  if c_OutputSchema c then Ok ()
  else
    try! _u := SharedOptions_Validate c else errorf_w "validating shared options" in
    if negb (existsb (String.eqb (c_ISVCDeploymentMode c)) validModes) then
      Err (EString ("invalid isvc-deployment-mode: " +:+ c_ISVCDeploymentMode c +:+
                    " (must be one of: all, serverless, modelmesh)"))
    else Ok ().
End Commands.

(** ** Verdict and exit code (command.go, output_table.go) *)
Inductive Verdict := VerdictProhibited | VerdictFail | VerdictWarning | VerdictPass.

(** Which line [printVerdict] writes. *)
Definition printVerdict (hasProhibited hasBlocking hasAdvisory : bool) : Verdict :=
  if hasProhibited then VerdictProhibited
  else if hasBlocking then VerdictFail
  else if hasAdvisory then VerdictWarning
  else VerdictPass.

Definition msgProhibitedOrBlocking := "prohibited or blocking findings detected: upgrade cannot proceed".
Definition msgAdvisoryFindings := "advisory findings detected: review recommended before upgrade".
Definition msgInfrastructureErrors := "one or more checks failed due to infrastructure errors".
Definition msgCheckExecErrors (e : string) := "check execution errors detected: " +:+ e.

Record execErrorSummary := mkSummary { ex_exitCode : Z; ex_err : option go_error }.

Section VerdictSection.
Context `{SV : Semver, AE : ApiErrors}.

(** Some result has the given impact. *)
Definition has_impact (impact : Impact) (results : list CheckExecution) : bool :=
  existsb (λ exec, match ce_Result exec with
                   | Some r => bool_decide (GetImpact r = impact)
                   | None => false
                   end) results.

Definition evaluateVerdict (format : OutputFormat) (results : list CheckExecution)
    : option Verdict * option go_error :=
  let hasProhibited := has_impact ImpactProhibited results in
  let hasBlocking := has_impact ImpactBlocking results in
  let hasAdvisory := has_impact ImpactAdvisory results in
  (if String.eqb format OutputFormatTable
   then Some (printVerdict hasProhibited hasBlocking hasAdvisory) else None,
   if hasProhibited || hasBlocking then
     NewExitCodeError ExitError (Some (EWrap (sentinel_msg ErrLintBlocked +:+ ": " +:+ msgProhibitedOrBlocking)
                                         (ESentinel ErrLintBlocked)))
   else if hasAdvisory then
     NewExitCodeError ExitWarning (Some (EWrap (sentinel_msg ErrLintAdvisory +:+ ": " +:+ msgAdvisoryFindings)
                                           (ESentinel ErrLintAdvisory)))
   else None).

Definition summary_step (summary : execErrorSummary) (exec : CheckExecution) : execErrorSummary :=
  match ce_Error exec with
  | None => summary
  | Some err =>
      let code := ExitCodeFromError (Some err) in
      if IsHigherPriority code (ex_exitCode summary) then mkSummary code (Some err) else summary
  end.

Definition highestPriorityExecError (results : list CheckExecution) : execErrorSummary :=
  foldl summary_step (mkSummary ExitSuccess None) results.

(** The error a summary carries; a nil [error] formats as [%!w(<nil>)]. *)
Definition wrap_exec (msg : string → string) (err : option go_error) : go_error :=
  match err with
  | Some e => EWrap (msg (error_string e)) e
  | None => EString (msg "%!w(<nil>)")
  end.

Definition resolveExitError (execSummary : execErrorSummary) (findingsErr : option go_error)
    (outputFormat : OutputFormat) : option go_error :=
  let findings :=
    match findingsErr with
    | None => None
    | Some e => if String.eqb outputFormat OutputFormatTable then Some (NewAlreadyHandledError e) else Some e
    end in
  if negb (ex_exitCode execSummary =? ExitSuccess) then
    let findingsExitCode := ExitCodeFromError findingsErr in
    if IsHigherPriority (ex_exitCode execSummary) findingsExitCode || (ex_exitCode execSummary =? findingsExitCode) then
      match findingsErr with
      | Some _ => NewExitCodeError (ex_exitCode execSummary) (Some (wrap_exec msgCheckExecErrors (ex_err execSummary)))
      | None => NewExitCodeError (ex_exitCode execSummary)
                  (Some (wrap_exec (λ e, msgInfrastructureErrors +:+ ": " +:+ e) (ex_err execSummary)))
      end
    else findings
  else findings.
End VerdictSection.

(** [OutputJSON]/[OutputYAML]: the list that is marshalled. *)
Record DiagnosticResultList := mkResultList {
  dl_ClusterVersion : option string;
  dl_TargetVersion : option string;
  dl_OpenShiftVersion : option string;
  dl_Results : list DiagnosticResult;
  dl_Status : Status;
}.

Definition OutputStructured `{Semver} (results : list CheckExecution)
    (clusterVersion targetVersion openShiftVersion : option string) : DiagnosticResultList :=
  let rs := omap ce_Result results in
  mkResultList clusterVersion targetVersion openShiftVersion rs (ComputeStatus (map Some rs)).

(** ** command.go: the run *)
Definition isDefaultSelector (selectors : list string) : bool :=
  match selectors with [s] => String.eqb s "*" | _ => false end.

(** The findings part of the output, in one of the three formats. *)
Inductive Findings :=
| FTable (t : TableOutput)
| FStructured (l : DiagnosticResultList).

(** What a run writes to stdout: the schema, the notice that nothing is
    checked, or the findings with the verdict. *)
Inductive Report :=
| RSchema
| RSameVersion (current openshift label : string)
| RFindings (findings : Findings) (verdict : option Verdict).

Section Run.
Context `{SV : Semver, AE : ApiErrors, KE : K8sErrors, SRV : ApiServer, JQ : GoJq, OLM : Olm, CL : Clock,
          MO : MapOrder, SS : SortSlice}.
Context (List : ResourceType → res go_error (list json)).
Context (pal : Palette).
(** The type assertion of [configureCheckSettings] with its setter: what a
    KServe impacted-workloads check becomes under a deployment-mode filter. *)
Context (SetDeploymentModeFilter : Check → string → option Check).

Definition configureCheckSettings (mode : string) (r : gmap string Check) : gmap string Check :=
  (λ chk, default chk (SetDeploymentModeFilter chk mode)) <$> r.

(** The loop over the canonical groups from instant [t]. *)
Fixpoint execute_groups (ctx : Ctx) (t : instant) (target : Target) (r : gmap string Check)
    (selectors : list string) (groups : list string) (resultsByGroup : gmap string (list CheckExecution))
    : res go_error (gmap string (list CheckExecution)) :=
  match groups with
  | [] => Ok resultsByGroup
  | group :: rest =>
      try! out := ExecuteSelective true ctx t target r selectors group
        else errorf_w ("executing " +:+ group +:+ " checks") in
      let '(results, _, t') := out in
      execute_groups ctx t' target r selectors rest (<[group := results]> resultsByGroup)
  end.

Definition formatAndOutputUpgradeResults (c : Command) (currentVer : string) (ocpVer : option string)
    (results : list CheckExecution) : res go_error Findings :=
  if String.eqb (c_OutputFormat c) OutputFormatTable then Ok (FTable (OutputTable pal results))
  else if String.eqb (c_OutputFormat c) OutputFormatJSON || String.eqb (c_OutputFormat c) OutputFormatYAML then
    Ok (FStructured (OutputStructured results (Some currentVer) (Some (c_TargetVersion c)) ocpVer))
  else Err (EString ("unsupported output format: " +:+ c_OutputFormat c)).

(** From the executions on: summary, filter, output, verdict, exit error. *)
Definition finish_upgrade (c : Command) (currentVer : string) (ocpVer : option string)
    (flatResults : list CheckExecution) : res go_error (Report * option go_error) :=
  let execSummary := highestPriorityExecError flatResults in
  let flatResults := List.filter (λ exec, match ce_Result exec with None => false | Some _ => true end) flatResults in
  let flatResults := FilterBySeverity flatResults (c_SeverityLevel c) in
  let! findings := formatAndOutputUpgradeResults c currentVer ocpVer flatResults in
  let '(verdict, findingsErr) := evaluateVerdict (c_OutputFormat c) flatResults in
  Ok (RFindings findings verdict, resolveExitError execSummary findingsErr (c_OutputFormat c)).

Definition selectors_error (c : Command) (r : gmap string Check) : go_error :=
  EString ("no registered checks match " +:+
    (if (1 <? length (c_CheckSelectors c))%nat then "selectors" else "selector") +:+
    ": [" +:+ join " " (c_CheckSelectors c) +:+ "]" +:+ newline +:+ newline +:+ "Available check IDs:" +:+ newline +:+
    "  " +:+ join (newline +:+ "  ") (AllCheckIDs r)).

Definition runUpgradeMode (ctx : Ctx) (c : Command) (r : gmap string Check) (currentVersion : Version)
    (ocpVer : option string) : res go_error (Report * option go_error) :=
  let r := configureCheckSettings (c_ISVCDeploymentMode c) r in
  let! _u :=
    if negb (isDefaultSelector (c_CheckSelectors c)) then
      try! matched := MatchesAnyCheck r (c_CheckSelectors c)
        else (λ e, EString ("validating check selectors: " +:+ e)) in
      if (matched : bool) then Ok () else Err (selectors_error c r)
    else Ok () in
  let target := mkTarget _ (Some currentVersion) (c_parsedTargetVersion c) None true (c_Debug c) in
  let! resultsByGroup := execute_groups ctx 0%nat target r (c_CheckSelectors c) CanonicalGroupOrder ∅ in
  let! flatResults := FlattenResults resultsByGroup in
  finish_upgrade c (v_String currentVersion) ocpVer flatResults.

(** [Run]: the report, and the error that is returned after it was written. *)
Definition Run (ctx : Ctx) (c : Command) (r : gmap string Check) : res go_error (Report * option go_error) :=
  if c_OutputSchema c then Ok (RSchema, None)
  else
    try! currentVersion := Detect List else errorf_w "detecting cluster version" in
    let! ocp := match DetectOpenShiftVersion false with
      | Ok v => Ok (v_String v)
      | Err _ => Ok ""
      | Panic s => Panic s
      end in
    let targetVersion := default currentVersion (c_parsedTargetVersion c) in
    if SameMajorMinor (Some currentVersion) (Some targetVersion) then
      Ok (RSameVersion (v_String currentVersion) ocp (MajorMinorLabel (Some currentVersion)), None)
    else if v_LT targetVersion currentVersion then
      Err (EExitCode ExitValidation (EString ("target version " +:+ c_TargetVersion c +:+
        " is older than current version " +:+ v_String currentVersion +:+ " (downgrades not supported)")))
    else runUpgradeMode ctx c r currentVersion (if String.eqb ocp "" then None else Some ocp).
End Run.

(** ** The worst severity of a list of executions *)
Section Worst.
Context `{SV : Semver, AE : ApiErrors}.

(** The conditions that are reported. *)
Definition conditions_of (exec : CheckExecution) : list Condition :=
  match ce_Result exec with Some r => r_Conditions r | None => [] end.
Definition all_conditions (results : list CheckExecution) : list Condition := flat_map conditions_of results.
Definition worst (results : list CheckExecution) : Z := max_severity (all_conditions results).

(** The severity a level lets through. *)
Definition threshold (level : SeverityLevel) : Z :=
  if String.eqb level SeverityLevelProhibited then 3
  else if String.eqb level SeverityLevelCritical then 2
  else if String.eqb level SeverityLevelWarning then 1
  else 0.

Definition verdict_code (w : Z) : Z := if 2 <=? w then ExitError else if w =? 1 then ExitWarning else ExitSuccess.

Lemma max_severity_app l1 l2 : max_severity (l1 ++ l2)%list = Z.max (max_severity l1) (max_severity l2).
Proof.
  induction l1 as [|c l1 IH]; simpl; [|rewrite IH; lia].
  pose proof (max_severity_bounds l2). lia.
Qed.

Lemma worst_cons exec results : worst (exec :: results) = Z.max (max_severity (conditions_of exec)) (worst results).
Proof. apply max_severity_app. Qed.

Lemma meetsMinSeverity_threshold imp level : meetsMinSeverity imp level = (threshold level <=? severity imp).
Proof.
  unfold meetsMinSeverity, threshold. destruct imp; simpl;
    repeat (case_match; try done); by rewrite ?bool_decide_true, ?bool_decide_false.
Qed.

(** Dropping what is below a threshold keeps the maximum if it reaches it. *)
Lemma max_severity_filter t cs :
  max_severity (List.filter (λ c, t <=? severity (c_Impact c)) cs) =
    if t <=? max_severity cs then max_severity cs else 0.
Proof.
  induction cs as [|c cs IH]; simpl; [by case_match|].
  pose proof (max_severity_bounds cs). pose proof (max_severity_bounds (List.filter (λ c, t <=? severity (c_Impact c)) cs)).
  assert (0 <= severity (c_Impact c)) by (destruct (c_Impact c); simpl; lia).
  destruct (Z.leb_spec t (severity (c_Impact c))); simpl; rewrite IH;
    destruct (Z.leb_spec t (max_severity cs)), (Z.leb_spec t (Z.max (severity (c_Impact c)) (max_severity cs))); lia.
Qed.

(** The filter, seen on the conditions alone. *)
Lemma FilterBySeverity_conditions results level :
  all_conditions (FilterBySeverity results level) =
  List.filter (λ c, threshold level <=? severity (c_Impact c)) (all_conditions results).
Proof.
  unfold FilterBySeverity. destruct (String.eqb_spec level SeverityLevelInfo) as [->|Hl].
  - symmetry. rewrite <-(List.filter_ext (λ _, true)).
    + induction (all_conditions results) as [|c cs IH]; simpl; [done|by rewrite IH].
    + intros c. change (threshold SeverityLevelInfo) with 0. symmetry. apply Z.leb_le. by destruct (c_Impact c).
  - unfold all_conditions. induction results as [|exec results IH]; simpl; [done|].
    rewrite List.filter_app, <-IH. unfold filter_execution, conditions_of at 2.
    destruct (ce_Result exec) as [r|]; simpl; [|done].
    rewrite (List.filter_ext _ _ (λ c, meetsMinSeverity_threshold (c_Impact c) level)).
    by destruct (List.filter _ (r_Conditions r)) as [|k ks].
Qed.

(** What an execution becomes under the filter. *)
Lemma filter_execution_Some level exec exec' :
  filter_execution level exec = Some exec' →
  filter_execution level exec' = Some exec' ∧ conditions_of exec' ≠ [] ∧ ce_Check exec' = ce_Check exec.
Proof.
  unfold filter_execution. destruct (ce_Result exec) as [r|]; [|done].
  destruct (List.filter _ (r_Conditions r)) as [|k ks] eqn:Hk; [done|]. intros [= <-]. cbn [ce_Result].
  assert (List.filter (λ c, meetsMinSeverity (c_Impact c) level) (k :: ks) = k :: ks) as Hid.
  { rewrite <-Hk. clear. induction (r_Conditions r) as [|c cs IHc]; simpl; [done|].
    destruct (meetsMinSeverity _ _) eqn:Hm; simpl; [by rewrite Hm, IHc|done]. }
  cbn [with_conditions r_Conditions]. by rewrite Hid.
Qed.

Lemma worst_filter results level :
  worst (FilterBySeverity results level) = if threshold level <=? worst results then worst results else 0.
Proof. unfold worst. rewrite FilterBySeverity_conditions. apply max_severity_filter. Qed.

(** Executions without a result contribute nothing. *)
Lemma worst_kept results :
  worst (List.filter (λ exec, match ce_Result exec with None => false | Some _ => true end) results) = worst results.
Proof.
  unfold worst, all_conditions. f_equal. induction results as [|exec results IH]; simpl; [done|].
  destruct (ce_Result exec) eqn:Hr; simpl; rewrite IH; [done|]. unfold conditions_of at 2. by rewrite Hr.
Qed.

(** The verdict is a function of the worst severity. *)
Lemma has_impact_worst results :
  (has_impact ImpactProhibited results || has_impact ImpactBlocking results) = (2 <=? worst results) ∧
  (2 <=? worst results = false → has_impact ImpactAdvisory results = (worst results =? 1)) ∧
  has_impact ImpactProhibited results = (3 <=? worst results).
Proof.
  unfold has_impact. induction results as [|exec results IH]; [done|]. rewrite worst_cons. simpl.
  destruct IH as (IH1 & IH2 & IH3).
  pose proof (max_severity_bounds (all_conditions results)). fold (worst results) in H.
  unfold conditions_of. destruct (ce_Result exec) as [r|]; simpl.
  - destruct (GetImpact_severity r) as [Hs Hi]. rewrite <-Hs.
    repeat (apply elem_of_cons in Hi as [->|Hi]; [
      simpl; repeat split; [| |]; rewrite ?IH1, ?IH3; repeat match goal with
        | |- context [?x <=? ?y] => destruct (Z.leb_spec x y) end; try done; try lia;
      try (intros _; rewrite ?IH2 by (apply Z.leb_gt; lia); destruct (Z.eqb_spec (worst results) 1), (Z.eqb_spec (Z.max 0 (worst results)) 1); lia)|]).
    all: by apply elem_of_nil in Hi.
  - rewrite Z.max_r by lia. done.
Qed.
End Worst.

(** ** Lemmas on the exit error *)
Section ExitLemmas.
Context `{SV : Semver, AE : ApiErrors}.

Lemma evaluateVerdict_code format results :
  ExitCodeFromError (evaluateVerdict format results).2 = verdict_code (worst results).
Proof.
  destruct (has_impact_worst results) as (H1 & H2 & _). unfold evaluateVerdict, verdict_code. simpl.
  rewrite H1. destruct (2 <=? worst results); [done|]. rewrite H2 by done. by destruct (worst results =? 1).
Qed.

(** What the verdict returns carries an explicit exit code. *)
Lemma evaluateVerdict_exit format results e :
  (evaluateVerdict format results).2 = Some e → ∃ c, errors_as as_ExitCodeError e = Some c.
Proof. unfold evaluateVerdict. simpl. repeat case_match; naive_solver. Qed.

Lemma summary_priority results s :
  priority (ex_exitCode s) <= priority (ex_exitCode (foldl summary_step s results)) ∧
  (∀ exec err, exec ∈ results → ce_Error exec = Some err →
    priority (ExitCodeFromError (Some err)) <= priority (ex_exitCode (foldl summary_step s results))) ∧
  (foldl summary_step s results = s ∨
   ∃ exec err, exec ∈ results ∧ ce_Error exec = Some err ∧
     foldl summary_step s results = mkSummary (ExitCodeFromError (Some err)) (Some err)).
Proof.
  revert s. induction results as [|exec results IH]; intros s; simpl.
  { split; [done|]. split; [intros ? ? H; by apply elem_of_nil in H|by left]. }
  destruct (IH (summary_step s exec)) as (H1 & H2 & H3).
  assert (Hstep : priority (ex_exitCode s) <= priority (ex_exitCode (summary_step s exec)) ∧
    (∀ err, ce_Error exec = Some err →
      priority (ExitCodeFromError (Some err)) <= priority (ex_exitCode (summary_step s exec))) ∧
    (summary_step s exec = s ∨ ∃ err, ce_Error exec = Some err ∧
      summary_step s exec = mkSummary (ExitCodeFromError (Some err)) (Some err))).
  { unfold summary_step. destruct (ce_Error exec) as [err|]; [|split; [done|split; [done|by left]]].
    unfold IsHigherPriority. destruct (Z.ltb_spec (priority (ex_exitCode s)) (priority (ExitCodeFromError (Some err)))).
    - cbn [ex_exitCode]. split; [lia|]. split; [by intros ? [= <-]|]. right. eauto.
    - split; [done|]. split; [by intros ? [= <-]|]. by left. }
  destruct Hstep as (S1 & S2 & S3). split; [lia|]. split.
  - intros x err Hx Hxe. apply elem_of_cons in Hx as [->|Hx]; [|by eapply H2].
    etrans; [by apply S2|exact H1].
  - destruct H3 as [->|(x & err & Hx & Hxe & ->)].
    + destruct S3 as [->|(err & He & ->)]; [by left|]. right. exists exec, err. split; [by left|done].
    + right. exists x, err. split; [by right|done].
Qed.

(** The code of the returned error: the execution errors win ties. *)
Lemma resolveExitError_code s findingsErr format :
  (∀ e, findingsErr = Some e → ∃ c, errors_as as_ExitCodeError e = Some c) →
  ExitCodeFromError (resolveExitError s findingsErr format) =
    if priority (ExitCodeFromError findingsErr) <? priority (ex_exitCode s)
    then ex_exitCode s else ExitCodeFromError findingsErr.
Proof.
  intros Hf. unfold resolveExitError.
  assert (ExitCodeFromError (match findingsErr with
    | Some e => if String.eqb format OutputFormatTable then Some (NewAlreadyHandledError e) else Some e
    | None => None end) = ExitCodeFromError findingsErr) as Hfind.
  { destruct findingsErr as [e|]; [|done]. case_match; [|done].
    destruct (Hf e eq_refl) as [c Hc]. by eapply ExitCodeFromError_handled. }
  destruct (Z.eqb_spec (ex_exitCode s) ExitSuccess) as [Hs|Hs]; cbn [negb].
  - rewrite Hfind, Hs. change (priority ExitSuccess) with 0.
    pose proof (priority_bounds (ExitCodeFromError findingsErr)). destruct (Z.ltb_spec (priority (ExitCodeFromError findingsErr)) 0); [lia|done].
  - unfold IsHigherPriority. destruct (Z.ltb_spec (priority (ExitCodeFromError findingsErr)) (priority (ex_exitCode s))) as [Hlt|Hge].
    + cbn [orb]. by destruct findingsErr.
    + cbn [orb]. destruct (Z.eqb_spec (ex_exitCode s) (ExitCodeFromError findingsErr)) as [Heq|Hne]; [|done].
      rewrite <-Heq. by destruct findingsErr.
Qed.
End ExitLemmas.

Lemma all_conditions_results `{SV : Semver} results :
  all_conditions results = flat_map r_Conditions (omap ce_Result results).
Proof.
  unfold all_conditions. induction results as [|exec results IH]; simpl; [done|].
  unfold conditions_of at 1. destruct (ce_Result exec); simpl; rewrite IH; done.
Qed.

Lemma status_counts rs :
  let w := max_severity (flat_map r_Conditions rs) in
  let count k := length (List.filter (λ r : option DiagnosticResult,
    match r with Some r => k (severity (GetImpact r)) | None => false end) (map Some rs)) in
  ((0 < count (λ s, 2 <=? s)%Z)%nat ↔ 2 <= w) ∧ (w < 2 → (0 < count (λ s, s =? 1)%Z)%nat ↔ w = 1).
Proof.
  induction rs as [|r rs IH]; cbv beta zeta in *; [simpl; lia|]. cbn [flat_map]. rewrite max_severity_app.
  pose proof (max_severity_bounds (r_Conditions r)). pose proof (max_severity_bounds (flat_map r_Conditions rs)).
  cbn [map List.filter]. destruct (GetImpact_severity r) as [Hs _]. rewrite <-Hs in *.
  destruct (Z.leb_spec 2 (severity (GetImpact r))), (Z.eqb_spec (severity (GetImpact r)) 1); cbn [length]; lia.
Qed.

Lemma ComputeStatus_worst `{SV : Semver} results :
  st_Result (ComputeStatus (map Some (omap ce_Result results))) =
    if 2 <=? worst results then StatusFailure else if worst results =? 1 then StatusWarning else StatusSuccess.
Proof.
  unfold ComputeStatus. rewrite foldl_count_result. cbn [fst snd]. rewrite !Z.add_0_l.
  unfold worst. rewrite all_conditions_results.
  destruct (status_counts (omap ce_Result results)) as [He Hw].
  unfold NewStatus. set (w := max_severity _) in *.
  rewrite !(proj2 (Z.ltb_ge (Z.of_nat _) 0)) by lia. cbn [st_Result].
  destruct (Z.leb_spec 2 w), (Z.eqb_spec w 1); repeat case_match; rewrite ?Z.ltb_lt, ?Z.ltb_ge in *; try done; lia.
Qed.

(** ** Lemmas on rows, groups and selectors *)
Lemma string_less_trichotomy s t : string_less s t = false → string_less t s = false → s = t.
Proof. rewrite !string_less_false. intros. by apply (anti_symm String.le). Qed.

Lemma kind_name_less_lex a b :
  lex_less r_Kind string_less (λ a b, string_less (r_Name a) (r_Name b)) a b = kind_name_less a b.
Proof.
  unfold lex_less, kind_name_less. destruct (String.eqb_spec (r_Kind a) (r_Kind b)) as [->|Hne]; simpl.
  - by rewrite (sw_irrefl _ string_less_strict).
  - destruct (string_less (r_Kind a) (r_Kind b)) eqn:H1; [done|].
    destruct (string_less (r_Kind b) (r_Kind a)) eqn:H2; [done|].
    by destruct Hne; apply string_less_trichotomy.
Qed.

Lemma kind_name_less_strict : StrictWeak kind_name_less.
Proof.
  eapply StrictWeak_ext; [apply kind_name_less_lex|].
  apply lex_StrictWeak; [apply string_less_strict|]. apply (StrictWeak_key r_Name), string_less_strict.
Qed.

Lemma row_less_strict : StrictWeak row_less.
Proof.
  eapply (StrictWeak_ext (lex_less (λ r, groupSortPriority (row_Group (sr_row r))) Z.ltb
    (lex_less (λ r, row_Kind (sr_row r)) string_less
      (lex_less (λ r, impactSortPriority (sr_impact r)) Z.ltb
        (λ a b, string_less (row_Check (sr_row a)) (row_Check (sr_row b))))))).
  - intros a b. unfold lex_less, row_less.
    set (g1 := groupSortPriority _). set (g2 := groupSortPriority _).
    destruct (Z.ltb_spec g1 g2), (Z.ltb_spec g2 g1), (Z.eqb_spec g1 g2); try lia; cbn [negb]; try done.
    destruct (String.eqb_spec (row_Kind (sr_row a)) (row_Kind (sr_row b))) as [->|Hne]; cbn [negb].
    + rewrite (sw_irrefl _ string_less_strict).
      set (p1 := impactSortPriority _). set (p2 := impactSortPriority _).
      by destruct (Z.ltb_spec p1 p2), (Z.ltb_spec p2 p1), (Z.eqb_spec p1 p2); try lia.
    + destruct (string_less (row_Kind (sr_row a)) (row_Kind (sr_row b))) eqn:H1; [done|].
      destruct (string_less (row_Kind (sr_row b)) (row_Kind (sr_row a))) eqn:H2; [done|].
      by destruct Hne; apply string_less_trichotomy.
  - repeat apply lex_StrictWeak; try apply string_less_strict; try apply Zltb_strict.
    apply (StrictWeak_key (λ r, row_Check (sr_row r))), string_less_strict.
Qed.

Section FlattenLemmas.
Context `{SV : Semver}.

Definition has_result (exec : CheckExecution) : Prop := is_Some (ce_Result exec).

Lemma sort_executions_ok `{SortSlice} {E} l :
  Forall has_result l → sort_executions (E := E) l = Ok (sort_slice exec_less l).
Proof.
  intros Hl. unfold sort_executions. destruct (existsb _ l) eqn:Hex; [|by rewrite andb_false_r].
  apply existsb_exists in Hex as (x & Hx & Hnone). rewrite Forall_forall in Hl.
  apply list_elem_of_In, Hl in Hx as [r Hr]. by rewrite Hr in Hnone.
Qed.

Lemma flatten_groups_ok `{SortSlice} {E} m groups :
  (∀ g l, m !! g = Some l → Forall has_result l) →
  flatten_groups (E := E) m groups =
    Ok (flat_map (λ g, sort_slice exec_less (default [] (m !! g))) groups).
Proof.
  intros Hm. induction groups as [|g groups IH]; simpl; [done|].
  rewrite sort_executions_ok; [simpl; by rewrite IH|].
  destruct (m !! g) eqn:Hg; [by eapply Hm|constructor].
Qed.

(** Executions are told apart by kind and name. *)
Definition keys_distinct (l : list CheckExecution) : Prop :=
  ∀ a b, a ∈ l → b ∈ l → r_Kind (deref a) = r_Kind (deref b) → r_Name (deref a) = r_Name (deref b) → a = b.

Lemma sort_executions_unique (S1 S2 : SortSlice) l1 l2 :
  l1 ≡ₚ l2 → keys_distinct l1 →
  @sort_slice S1 _ exec_less l1 = @sort_slice S2 _ exec_less l2.
Proof.
  intros Hp Hk. assert (StrictWeak exec_less) as Hsw by apply (StrictWeak_key deref), kind_name_less_strict.
  apply (StronglySorted_unique_strong (λ x y, exec_less y x = false)).
  - intros a b Ha Hb H1 H2.
    rewrite sort_slice_perm in Ha. rewrite sort_slice_perm, <-Hp in Hb.
    unfold exec_less in H1, H2. rewrite <-kind_name_less_lex in H1, H2.
    apply lex_less_false in H1; [|apply string_less_strict].
    apply lex_less_false in H2; [|apply string_less_strict].
    destruct H1 as [H1|(K1 & K2 & N1)], H2 as [H2|(K3 & K4 & N2)]; try congruence.
    + by rewrite (sw_asym _ _ _ string_less_strict H1) in H2.
    + apply Hk; [done|done|by apply string_less_trichotomy|by apply string_less_trichotomy].
  - by apply sort_slice_sorted.
  - by apply sort_slice_sorted.
  - by rewrite !sort_slice_perm.
Qed.
End FlattenLemmas.

Lemma count_row_total n sr :
  (∀ s, sr_impact sr ≠ ImpactOther s) →
  n_Total (count_row n sr) - n_Passed (count_row n sr) - n_Warnings (count_row n sr)
    - n_Failed (count_row n sr) - n_Prohibited (count_row n sr)
  = n_Total n - n_Passed n - n_Warnings n - n_Failed n - n_Prohibited n.
Proof. intros Hs. unfold count_row. destruct (sr_impact sr) eqn:Hi; simpl; [lia..|]. by destruct (Hs s). Qed.

Lemma foldl_count_row rows n :
  n_Total (foldl count_row n rows) = n_Total n + Z.of_nat (length rows) ∧
  n_Prohibited (foldl count_row n rows) =
    n_Prohibited n + Z.of_nat (length (List.filter (λ sr, bool_decide (sr_impact sr = ImpactProhibited)) rows)).
Proof.
  revert n. induction rows as [|sr rows IH]; intros n; simpl; [lia|].
  destruct (IH (count_row n sr)) as [-> ->]. unfold count_row. destruct (sr_impact sr); simpl; lia.
Qed.

Lemma foldl_count_row_sum rows n :
  Forall (λ sr, ∀ s, sr_impact sr ≠ ImpactOther s) rows →
  let m := foldl count_row n rows in
  n_Total m - n_Passed m - n_Warnings m - n_Failed m - n_Prohibited m
  = n_Total n - n_Passed n - n_Warnings n - n_Failed n - n_Prohibited n.
Proof.
  intros Hr. revert n. induction Hr as [|sr rows Hs _ IH]; intros n; [done|].
  cbv zeta in *. cbn [foldl]. rewrite IH. by apply count_row_total.
Qed.

Lemma ValidateCheckSelector_ok s : ValidateCheckSelector s = Ok () → pattern_ok s.
Proof.
  unfold ValidateCheckSelector, pattern_ok. case_match; [done|]. case_match eqn:Hm; [|done].
  intros _ Hbad. by rewrite (path_match_bad_indep _ _ _ Hbad) in Hm.
Qed.

Lemma ValidateCheckSelectors_ok l : ValidateCheckSelectors l = Ok () → l ≠ [] ∧ Forall pattern_ok l.
Proof.
  destruct l as [|s l]; [done|]. intros Hl%(for_each_Ok ValidateCheckSelector). split; [done|].
  eapply Forall_impl; [exact Hl|]. apply ValidateCheckSelector_ok.
Qed.

Lemma formatAndOutput_ok `{SV : Semver, SS : SortSlice} pal (c : Command) cur ocp results :
  OutputFormat_Validate (c_OutputFormat c) = Ok () →
  ∃ f, formatAndOutputUpgradeResults pal c cur ocp results = Ok f.
Proof.
  unfold formatAndOutputUpgradeResults, OutputFormat_Validate.
  destruct (String.eqb (c_OutputFormat c) OutputFormatTable), (String.eqb (c_OutputFormat c) OutputFormatJSON),
    (String.eqb (c_OutputFormat c) OutputFormatYAML); simpl; eauto; discriminate.
Qed.

(** ** Concrete executions *)
Module LintRun.
Definition cond (i : Impact) : Condition :=
  mkCondition "Compatible" (if bool_decide (i = ImpactNone) then ConditionTrue else ConditionFalse) "R" "m" 0 i "".
Definition exec (kind name : string) (imps : list Impact) (err : option go_error)
    : @CheckExecution VersionRun.semver :=
  {| ce_Check := CheckRun.dash;
     ce_Result := Some (with_conditions (New "component" kind name "d") (map cond imps));
     ce_Error := err |}.
Definition server : ApiServer := {|
  srv_list _ _ _ := Ok ([], ""); srv_get _ _ _ := Err (EForeign 2 "not found"); srv_discovery := None |}.
Definition pal : Palette := mkPalette "P" "X" "!" "v" "prohibited" "critical" "warning" "info".
Definition command (level : SeverityLevel) (target : option VersionRun.ver) : @Command VersionRun.semver :=
  @mkCommand VersionRun.semver "json" ["*"] level false false false false false 300 false "3.0.0" "all" target IONormal.
End LintRun.
Import (hints) ClientRun VersionRun.

(** ** Properties *)
Module LintSpec.


(** The severity level is applied before the verdict: blocking findings make
    the command fail at every level but [prohibited], where the same findings
    end in success without any error. *)
Theorem severity_prohibited_hides_blocking `{SV : Semver, AE : ApiErrors, SS : SortSlice} pal (c : Command) cur ocp flat :
  worst flat = 2 → (∀ exec, exec ∈ flat → ce_Error exec = None) → OutputFormat_Validate (c_OutputFormat c) = Ok () →
  ∃ rep err, finish_upgrade pal c cur ocp flat = Ok (rep, err) ∧
    ExitCodeFromError err = (if String.eqb (c_SeverityLevel c) SeverityLevelProhibited then ExitSuccess else ExitError).
Proof.
  intros Hw Hne Hfmt. unfold finish_upgrade. set (kept := List.filter _ flat).
  assert (∃ f, formatAndOutputUpgradeResults pal c cur ocp (FilterBySeverity kept (c_SeverityLevel c)) = Ok f) as [f ->].
  { by apply formatAndOutput_ok. }
  cbn [res_bind]. destruct (evaluateVerdict _ _) as [v ferr] eqn:Hv. do 2 eexists. split; [reflexivity|].
  assert (ferr = (evaluateVerdict (c_OutputFormat c) (FilterBySeverity kept (c_SeverityLevel c))).2) as Hferr by by rewrite Hv.
  rewrite resolveExitError_code by (intros e ->; symmetry in Hferr; by eapply evaluateVerdict_exit).
  assert (worst kept = worst flat) as Hworst by apply worst_kept.
  destruct (summary_priority flat (mkSummary ExitSuccess None)) as (_ & _ & [Hs|(exec & e & Hin & He & _)]);
    [|by rewrite (Hne exec Hin) in He].
  unfold highestPriorityExecError. rewrite Hs, Hferr, evaluateVerdict_code, worst_filter, Hworst, Hw.
  unfold threshold. repeat case_match; done.
Qed.

Lemma severity_prohibited_hides_blocking_witness :
  let flat := [LintRun.exec "dashboard" "config" [ImpactNone; ImpactBlocking] None] in
  ∃ rep err,
    finish_upgrade (AE := concrete_ApiErrors) LintRun.pal (LintRun.command "prohibited" None) "2.25.0" None flat
      = Ok (rep, err) ∧ ExitCodeFromError (H := concrete_ApiErrors) err = ExitSuccess.
Proof.
  intros flat.
  apply (severity_prohibited_hides_blocking (AE := concrete_ApiErrors) LintRun.pal (LintRun.command "prohibited" None)
    "2.25.0" None flat); [reflexivity| |reflexivity].
  intros exec Hin. apply list_elem_of_singleton in Hin as ->. reflexivity.
Defined.

(** The filter keeps, in order, exactly the conditions at or above the level;
    filtering twice changes nothing; below [info] no result is left empty; and
    without the filter's help the verdict is the worst severity. *)
Theorem FilterBySeverity_spec `{SV : Semver, AE : ApiErrors} (results : list CheckExecution) (level : SeverityLevel) :
  all_conditions (FilterBySeverity results level) =
    List.filter (λ c, meetsMinSeverity (c_Impact c) level) (all_conditions results) ∧
  FilterBySeverity (FilterBySeverity results level) level = FilterBySeverity results level ∧
  (level ≠ SeverityLevelInfo → Forall (λ e, conditions_of e ≠ []) (FilterBySeverity results level)) ∧
  map ce_Check (FilterBySeverity results level) `sublist_of` map ce_Check results.
Proof.
  split; [|split; [|split]].
  - rewrite FilterBySeverity_conditions. apply List.filter_ext. intros c. by rewrite meetsMinSeverity_threshold.
  - unfold FilterBySeverity. case_match; [done|]. induction results as [|exec results IH]; simpl; [done|].
    destruct (filter_execution level exec) as [exec'|] eqn:He; simpl; [|done].
    apply filter_execution_Some in He as (-> & _). f_equal. exact IH.
  - intros Hl. unfold FilterBySeverity. rewrite (proj2 (String.eqb_neq _ _)) by done.
    induction results as [|exec results IH]; simpl; [constructor|].
    destruct (filter_execution level exec) as [exec'|] eqn:He; simpl; [|done].
    constructor; [by apply filter_execution_Some in He as (_ & ? & _)|done].
  - unfold FilterBySeverity. case_match; [done|]. induction results as [|exec results IH]; simpl; [constructor|].
    destruct (filter_execution level exec) as [exec'|] eqn:He; simpl; [|by constructor].
    apply filter_execution_Some in He as (_ & _ & ->). by constructor.
Qed.

(** The three output channels agree: the exit code of the verdict is 1, 2 or
    0 exactly when the status of the JSON/YAML document is failure, warning or
    success, and the verdict line of the table says the same. *)
Theorem verdict_agrees_with_status `{SV : Semver, AE : ApiErrors} format (results : list CheckExecution) cv tv ov :
  let code := ExitCodeFromError (evaluateVerdict format results).2 in
  let status := st_Result (dl_Status (OutputStructured results cv tv ov)) in
  let verdict := (evaluateVerdict OutputFormatTable results).1 in
  (code = ExitError ∧ status = StatusFailure ∧ (verdict = Some VerdictProhibited ∨ verdict = Some VerdictFail)) ∨
  (code = ExitWarning ∧ status = StatusWarning ∧ verdict = Some VerdictWarning) ∨
  (code = ExitSuccess ∧ status = StatusSuccess ∧ verdict = Some VerdictPass).
Proof.
  intros code status verdict.
  assert (code = verdict_code (worst results)) as -> by apply evaluateVerdict_code.
  assert (status = if 2 <=? worst results then StatusFailure
                   else if worst results =? 1 then StatusWarning else StatusSuccess) as ->.
  { apply ComputeStatus_worst. }
  assert (verdict = Some (printVerdict (has_impact ImpactProhibited results) (has_impact ImpactBlocking results)
    (has_impact ImpactAdvisory results))) as -> by done.
  destruct (has_impact_worst results) as (H1 & H2 & _). unfold verdict_code, printVerdict.
  rewrite <-H1 in *.
  destruct (has_impact ImpactProhibited results), (has_impact ImpactBlocking results); cbn [orb] in *; [eauto..|].
  rewrite H2 by done. destruct (worst results =? 1); eauto 10.
Qed.

(** The flattened list does not depend on the sorting algorithm nor on the
    order in which the checks of a group ran, provided kind and name tell the
    executions of a group apart: it lists the groups in canonical order, each
    sorted, and nothing is lost. *)
Theorem FlattenResults_deterministic `{SV : Semver} (S1 S2 : SortSlice)
    (m1 m2 : gmap string (list CheckExecution)) :
  (∀ g l, m1 !! g = Some l → Forall has_result l ∧ keys_distinct l) →
  (∀ g l, m2 !! g = Some l → Forall has_result l) →
  (∀ g, default [] (m1 !! g) ≡ₚ default [] (m2 !! g)) →
  ∃ l, FlattenResults (H := S1) (E := go_error) m1 = Ok l ∧ FlattenResults (H := S2) (E := go_error) m2 = Ok l ∧
    l ≡ₚ flat_map (λ g, default [] (m1 !! g)) CanonicalGroupOrder.
Proof.
  intros H1 H2 Hp. unfold FlattenResults.
  rewrite !flatten_groups_ok by (intros; naive_solver).
  eexists. split; [reflexivity|]. split.
  - f_equal. apply flat_map_ext. intros g. symmetry. apply sort_executions_unique; [apply Hp|].
    destruct (m1 !! g) eqn:Hg; [by eapply H1|]. intros a b Ha. by apply elem_of_nil in Ha.
  - induction CanonicalGroupOrder as [|g gs IH]; simpl; [done|]. by rewrite sort_slice_perm, IH.
Qed.

Lemma FlattenResults_deterministic_witness :
  let a := LintRun.exec "kserve" "removal" [ImpactNone] None in
  let b := LintRun.exec "dashboard" "config" [ImpactNone] None in
  let m1 : gmap string _ := {["component" := [a; b]]} in
  let m2 : gmap string _ := {["component" := [b; a]]} in
  ∃ l, FlattenResults (E := go_error) m1 = Ok l ∧ FlattenResults (E := go_error) m2 = Ok l ∧
    l ≡ₚ flat_map (λ g, default [] (m1 !! g)) CanonicalGroupOrder.
Proof.
  intros a b m1 m2.
  apply (FlattenResults_deterministic insertion_SortSlice insertion_SortSlice m1 m2).
  - intros g l [<- <-]%lookup_singleton_Some. split; [repeat (constructor; [by eexists|]); constructor|].
    intros x y Hx Hy Hk _. apply elem_of_cons in Hx as [->|Hx%list_elem_of_singleton];
      apply elem_of_cons in Hy as [->|Hy%list_elem_of_singleton]; subst; done.
  - intros g l [<- <-]%lookup_singleton_Some. repeat (constructor; [by eexists|]); constructor.
  - intros g. unfold m1, m2. destruct (decide (g = "component")) as [->|Hne].
    + rewrite !lookup_singleton_eq. simpl. constructor.
    + rewrite !lookup_singleton_ne by done. constructor.
Defined.

(** The command decides by major and minor version alone: without a target,
    or with the current one, nothing is executed; an older target is rejected
    with the validation exit code; a newer one starts the upgrade run, whose
    checks therefore always see a target version. *)
Theorem Run_three_way `{AE : ApiErrors, KE : K8sErrors, SRV : ApiServer, JQ : GoJq, OLM : Olm, CL : Clock,
      MO : MapOrder, SS : SortSlice} `{SemverLaws} List pal setf ctx (c : Command) r (cur : Version) :
  c_OutputSchema c = false → Detect List = Ok cur → (∀ s, DetectOpenShiftVersion false ≠ Panic s) →
  match c_parsedTargetVersion c with
  | None => ∃ ocp, Run List pal setf ctx c r = Ok (RSameVersion (v_String cur) ocp (MajorMinorLabel (Some cur)), None)
  | Some tgt =>
      (v_Major tgt = v_Major cur ∧ v_Minor tgt = v_Minor cur →
        ∃ ocp, Run List pal setf ctx c r = Ok (RSameVersion (v_String cur) ocp (MajorMinorLabel (Some cur)), None)) ∧
      (v_Major tgt < v_Major cur ∨ v_Major tgt = v_Major cur ∧ v_Minor tgt < v_Minor cur →
        ∃ e, Run List pal setf ctx c r = Err e ∧ ExitCodeFromError (Some e) = ExitValidation) ∧
      (v_Major cur < v_Major tgt ∨ v_Major cur = v_Major tgt ∧ v_Minor cur < v_Minor tgt →
        ∃ ocp, Run List pal setf ctx c r = runUpgradeMode pal setf ctx c r cur ocp)
  end.
Proof.
  intros Hschema Hdet Hocp. unfold Run. rewrite Hschema, Hdet. cbn [res_bind res_map_err].
  assert (∃ ocp, match DetectOpenShiftVersion false with
    | Ok v => Ok (v_String v) | Err _ => Ok "" | Panic s => Panic s end = Ok (E := go_error) ocp) as [ocp ->].
  { destruct (DetectOpenShiftVersion false) as [v|e|s]; [eauto|eauto|by destruct (Hocp s)]. }
  cbn [res_bind]. destruct (c_parsedTargetVersion c) as [tgt|]; simpl.
  - assert (∀ a b : Version, v_Major a < v_Major b ∨ v_Major a = v_Major b ∧ v_Minor a < v_Minor b → v_LT a b = true) as Hlt.
    { intros a b [?|[? ?]]; [by apply v_LT_major|by apply v_LT_minor]. }
    split; [|split]; intros Hcmp.
    + destruct Hcmp as [-> ->]. rewrite !Z.eqb_refl. simpl. eauto.
    + rewrite (proj2 (andb_false_iff _ _)) by (rewrite !Z.eqb_neq; lia). rewrite (Hlt tgt cur Hcmp). eauto.
    + rewrite (proj2 (andb_false_iff _ _)) by (rewrite !Z.eqb_neq; lia).
      rewrite (v_LT_asym _ _ (Hlt cur tgt Hcmp)). eauto.
  - rewrite !Z.eqb_refl. simpl. eauto.
Qed.

(** Selectors that pass validation never make the run fail: for every registry
    the early match and the selection of every group succeed. *)
Theorem validated_selectors_never_fail `{SV : Semver, MO : MapOrder} (c : Command) (r : gmap string Check) :
  SharedOptions_Validate c = Ok () →
  (∃ b, MatchesAnyCheck r (c_CheckSelectors c) = Ok b) ∧
  (∀ group, ∃ l, ListByPatterns r (c_CheckSelectors c) group = Ok l).
Proof.
  unfold SharedOptions_Validate. intros Hv.
  destruct (OutputFormat_Validate _) as [[]| |]; [|done..]. destruct (SeverityLevel_Validate _) as [[]| |]; [|done..].
  cbn [res_bind] in Hv. destruct (ValidateCheckSelectors _) as [[]| |] eqn:Hs; [|done..].
  apply ValidateCheckSelectors_ok in Hs as [_ Hps]. unfold MatchesAnyCheck, ListByPatterns. split.
  - rewrite matches_any_check_ok by done. eauto.
  - intros g. rewrite list_by_patterns_ok by done. eauto.
Qed.

Lemma validated_selectors_never_fail_witness :
  SharedOptions_Validate (LintRun.command "info" None) = Ok () ∧
  (∃ b, MatchesAnyCheck CheckRun.reg ["*"] = Ok b) ∧
  (∀ group, ∃ l, ListByPatterns CheckRun.reg ["*"] group = Ok l).
Proof.
  split; [reflexivity|]. apply (validated_selectors_never_fail (LintRun.command "info" None) CheckRun.reg). reflexivity.
Defined.

Lemma Run_three_way_witness (clock := 0 : Clock) :
  let run tgt := Run (AE := concrete_ApiErrors) (SRV := LintRun.server) (OLM := VersionRun.olm)
    (VersionRun.list_dsc (VersionRun.release "2.25.1")) LintRun.pal (λ _ _, None) (λ _, None)
    (LintRun.command "info" tgt) CheckRun.reg in
  (∃ ocp, run None = Ok (RSameVersion "2.25.1" ocp "2.25", None)) ∧
  (∃ e, run (Some (VersionRun.mkVer 2 16 0)) = Err e ∧
        ExitCodeFromError (H := concrete_ApiErrors) (Some e) = ExitValidation).
Proof.
  intros run. split.
  - apply (Run_three_way (AE := concrete_ApiErrors) (SRV := LintRun.server) (OLM := VersionRun.olm) (H := VersionRun.semver_laws)
      (VersionRun.list_dsc (VersionRun.release "2.25.1")) LintRun.pal (λ _ _, None) (λ _, None)
      (LintRun.command "info" None) CheckRun.reg (VersionRun.mkVer 2 25 1)); [done|by vm_compute|done].
  - apply (Run_three_way (AE := concrete_ApiErrors) (SRV := LintRun.server) (OLM := VersionRun.olm) (H := VersionRun.semver_laws)
      (VersionRun.list_dsc (VersionRun.release "2.25.1")) LintRun.pal (λ _ _, None) (λ _, None)
      (LintRun.command "info" (Some (VersionRun.mkVer 2 16 0))) CheckRun.reg (VersionRun.mkVer 2 25 1));
      [done|by vm_compute|done|right; simpl; lia].
Defined.

(** The table shows one row per condition, sorted by group, kind, impact and
    check whatever the sorting algorithm; the summary line counts every row once
    when the impacts are the four known ones, and the banner lists exactly the
    prohibited findings, as many as the counter says. *)
Theorem OutputTable_spec `{SV : Semver, SS : SortSlice} pal (results : list CheckExecution) :
  let out := OutputTable pal results in
  let n := to_counters out in
  map sr_impact (to_rows out) ≡ₚ map c_Impact (all_conditions results) ∧
  StronglySorted (λ a b, row_less b a = false) (to_rows out) ∧
  n_Total n = Z.of_nat (length (all_conditions results)) ∧
  n_Prohibited n = Z.of_nat (length (to_banner out)) ∧
  (Forall (λ c, ∀ s, c_Impact c ≠ ImpactOther s) (all_conditions results) →
    n_Total n = n_Passed n + n_Warnings n + n_Failed n + n_Prohibited n).
Proof.
  intros out n.
  assert (map sr_impact (to_rows out) ≡ₚ map c_Impact (all_conditions results)) as Hp.
  { subst out. cbn [OutputTable to_rows]. unfold collectSortedRows. rewrite sort_slice_perm.
    unfold all_conditions. clear n. induction results as [|exec results IH]; simpl; [done|].
    rewrite !map_app, IH. apply Permutation_app_tail. unfold conditions_of.
    destruct (ce_Result exec); [|done]. by rewrite map_map. }
  destruct (foldl_count_row (to_rows out) (mkCounters 0 0 0 0 0)) as [Htot Hpro].
  split; [done|]. split; [apply sort_slice_sorted, row_less_strict|]. split; [|split].
  - subst n out. cbn [OutputTable to_counters to_rows] in *. rewrite Htot. simpl.
    apply Permutation_length in Hp. rewrite !length_map in Hp. by rewrite Hp.
  - subst n out. exact Hpro.
  - intros Hk.
    assert (Forall (λ sr, ∀ s, sr_impact sr ≠ ImpactOther s) (to_rows out)) as Hrows.
    { apply (List.Forall_map sr_impact (λ i, ∀ s, i ≠ ImpactOther s)).
      rewrite Hp. by apply List.Forall_map. }
    pose proof (foldl_count_row_sum (to_rows out) (mkCounters 0 0 0 0 0) Hrows) as Hsum.
    change (foldl count_row (mkCounters 0 0 0 0 0) (to_rows out)) with n in Hsum. simpl in Hsum. lia.
Qed.

(** Stdin configuration never overrides a flag of the command line, fills in
    the others, and cannot smuggle in an invalid severity or format: what was
    valid before is valid after. *)
Theorem applyStdinInput_precedence `{SV : Semver} changed (input : StdinInput) (c c' : Command) :
  applyStdinInput changed input c = Ok c' →
  c_CheckSelectors c' = (if changed "checks" then c_CheckSelectors c
                         else if bool_decide (si_Checks input = []) then c_CheckSelectors c else si_Checks input) ∧
  c_SeverityLevel c' = (if changed "severity" || String.eqb (si_Severity input) "" then c_SeverityLevel c else si_Severity input) ∧
  c_OutputFormat c' = (if changed "output" || String.eqb (si_Output input) "" then c_OutputFormat c else si_Output input) ∧
  c_TargetVersion c' = (if changed "target-version" || String.eqb (si_TargetVersion input) "" then c_TargetVersion c
                        else si_TargetVersion input) ∧
  (SeverityLevel_Validate (c_SeverityLevel c) = Ok () → SeverityLevel_Validate (c_SeverityLevel c') = Ok ()) ∧
  (OutputFormat_Validate (c_OutputFormat c) = Ok () → OutputFormat_Validate (c_OutputFormat c') = Ok ()).
Proof.
  unfold applyStdinInput. intros H.
  apply res_bind_Ok_inv in H as (sev & Hsev & H). apply res_bind_Ok_inv in H as (out & Hout & [= <-]).
  cbn [c_CheckSelectors c_SeverityLevel c_OutputFormat c_TargetVersion].
  split; [by destruct (changed "checks"), (bool_decide (si_Checks input = []))|].
  assert (sev = (if changed "severity" || String.eqb (si_Severity input) "" then c_SeverityLevel c else si_Severity input) ∧
    (SeverityLevel_Validate (c_SeverityLevel c) = Ok () → SeverityLevel_Validate sev = Ok ())) as [Hs1 Hs2].
  { destruct (changed "severity"), (String.eqb (si_Severity input) ""); simpl in Hsev; try by injection Hsev as <-.
    destruct (SeverityLevel_Validate (si_Severity input)) as [[]| |] eqn:Hv; try done. by injection Hsev as <-. }
  assert (out = (if changed "output" || String.eqb (si_Output input) "" then c_OutputFormat c else si_Output input) ∧
    (OutputFormat_Validate (c_OutputFormat c) = Ok () → OutputFormat_Validate out = Ok ())) as [Ho1 Ho2].
  { destruct (changed "output"), (String.eqb (si_Output input) ""); simpl in Hout; try by injection Hout as <-.
    destruct (OutputFormat_Validate (si_Output input)) as [[]| |] eqn:Hv; try done. by injection Hout as <-. }
  split; [exact Hs1|]. split; [exact Ho1|]. split; [|by split].
  by destruct (changed "target-version"), (String.eqb (si_TargetVersion input) "").
Qed.

Lemma applyStdinInput_precedence_witness :
  let input := mkStdin ["components"] "critical" "" false false "yaml" in
  ∃ c', applyStdinInput (λ f, String.eqb f "output") input (LintRun.command "info" None) = Ok c' ∧
    c_SeverityLevel c' = "critical" ∧ c_OutputFormat c' = "json" ∧ c_CheckSelectors c' = ["components"].
Proof.
  intros input. eexists. split; [reflexivity|].
  pose proof (applyStdinInput_precedence (λ f, String.eqb f "output") input (LintRun.command "info" None) _ eq_refl)
    as (H1 & H2 & H3 & _). split; [exact H2|]. split; [exact H3|exact H1].
Defined.
End LintSpec.
