(* ===== verification/Deps.v ===== *)
(** * Deps: pkg/deps/manifest.go and graph.go

    The dependency manifest: its validation, the flattened list of
    dependencies with their dependants, and the transitive closure that
    [deps graph] prints.  Go maps are [gmap]s; loops over them go through
    [MapOrder].  The DNS-1123 check of k8s.io/apimachinery is a parameter. *)
From S2P Require Import Prelude Errors.
Open Scope string_scope.
Open Scope Z_scope.
Open Scope go_scope.

(** ** manifest.go *)
Definition enabledTrue := "true".
Definition enabledAuto := "auto".

Definition allowedCatalogSources (source : string) : bool :=
  existsb (String.eqb source)
    [""; "redhat-operators"; "community-operators"; "certified-operators"; "redhat-marketplace"].

Definition displayNames : list (string * string) := [
  ("certManager", "Cert Manager"); ("leaderWorkerSet", "Leader Worker Set"); ("jobSet", "Job Set");
  ("rhcl", "Red Hat Connectivity Link"); ("customMetricsAutoscaler", "Custom Metrics Autoscaler");
  ("serviceMesh", "Service Mesh"); ("serverless", "Serverless"); ("authorino", "Authorino"); ("kueue", "Kueue");
  ("opentelemetry", "OpenTelemetry"); ("tempo", "Tempo"); ("clusterObservability", "Cluster Observability");
  ("nfd", "Node Feature Discovery"); ("nvidiaGPUOperator", "NVIDIA GPU Operator");
  ("aipipelines", "AI Pipelines"); ("dashboard", "Dashboard"); ("feastoperator", "Feast Operator");
  ("kserve", "KServe"); ("modelregistry", "Model Registry"); ("ray", "Ray"); ("trainer", "Trainer");
  ("trainingoperator", "Training Operator"); ("trustyai", "TrustyAI"); ("workbenches", "Workbenches");
  ("mlflowoperator", "MLflow Operator"); ("llamastackoperator", "LlamaStack Operator");
  ("sparkoperator", "Spark Operator")].

Definition toDisplayName (name : string) : string :=
  match find (λ kv, String.eqb kv.1 name) displayNames with Some kv => kv.2 | None => name end.

(** A YAML value as [isEnabled] sees it. *)
Inductive any := AnyBool (b : bool) | AnyString (s : string) | AnyOther.

Definition isEnabled (val : any) : bool :=
  match val with
  | AnyBool v => v
  | AnyString v => String.eqb v enabledTrue || String.eqb v enabledAuto
  | AnyOther => false
  end.

Record OLMConfig := mkOLM {
  o_Channel : string;
  o_Name : string;
  o_Namespace : string;
  o_Source : string;
  o_TargetNamespaces : list string;
}.

Record Dependency := mkDependency {
  d_Enabled : string;
  d_OLM : OLMConfig;
  d_Dependencies : gmap string any;
}.

Record ComponentDeps := mkComponentDeps { k_Dependencies : gmap string any }.

Record Manifest := mkManifest {
  m_Dependencies : gmap string Dependency;
  m_Components : gmap string ComponentDeps;
}.

Record DependencyInfo := mkInfo {
  i_Name : string;
  i_DisplayName : string;
  i_Enabled : string;
  i_Subscription : string;
  i_Namespace : string;
  i_Channel : string;
  i_Source : string;
  i_TargetNamespaces : list string;
  i_RequiredBy : list string;
}.

Section ManifestOps.
Context `{MO : MapOrder, SS : SortSlice}.
(** [validation.IsDNS1123Label]: the list of complaints. *)
Context (IsDNS1123Label : string → list string).

Definition validateTargetNamespace (depName ns operatorNamespace : string) : res go_error () :=
  match IsDNS1123Label ns with
  | (_ :: _) as errs =>
      Err (EString ("dependency " +:+ quote depName +:+ ": invalid targetNamespace " +:+ quote ns +:+ ": " +:+ join ", " errs))
  | [] =>
      if String.eqb ns operatorNamespace then Ok ()
      else if has_prefix "kube-" ns || has_prefix "openshift-" ns then
        Err (EString ("dependency " +:+ quote depName +:+ ": targetNamespace " +:+ quote ns +:+
          " is a system namespace; only the operator's own namespace " +:+ quote operatorNamespace +:+ " is allowed"))
      else Ok ()
  end.

Definition validateOLMConfig (depName : string) (olm : OLMConfig) : res go_error () :=
  if negb (allowedCatalogSources (o_Source olm)) then
    Err (EString ("dependency " +:+ quote depName +:+ ": untrusted catalog source " +:+ quote (o_Source olm) +:+
      "; allowed: redhat-operators, community-operators, certified-operators, redhat-marketplace"))
  else for_each (λ ns, validateTargetNamespace depName ns (o_Namespace olm)) (o_TargetNamespaces olm).

Definition Manifest_validate (m : Manifest) : res go_error () :=
  for_each (λ nd, validateOLMConfig nd.1 (d_OLM nd.2)) (map_range (m_Dependencies m)).

(** [Parse]: the unmarshalled document, then validation. *)
Definition Parse (unmarshalled : res go_error Manifest) : res go_error Manifest :=
  try! m := unmarshalled else errorf_w "parse manifest" in
  try! _u := Manifest_validate m else errorf_w "validate manifest" in
  Ok m.

(** [addEntry] of [buildRequiredByMap]: a nil set is created on first use. *)
Definition addEntry (depSets : gmap string (gset string)) (depName requiredBy : string) : gmap string (gset string) :=
  <[depName := {[requiredBy]} ∪ default ∅ (depSets !! depName)]> depSets.

(** The inner loop over one set of dependencies. *)
Definition addEntries (requiredBy : string) (deps : gmap string any) (depSets : gmap string (gset string))
    : gmap string (gset string) :=
  foldl (λ acc kv, if isEnabled kv.2 then addEntry acc kv.1 requiredBy else acc) depSets (map_range deps).

Definition requiredBySets (m : Manifest) : gmap string (gset string) :=
  let fromComponents :=
    foldl (λ acc kc, addEntries (toDisplayName kc.1) (k_Dependencies kc.2) acc) ∅ (map_range (m_Components m)) in
  foldl (λ acc kd, addEntries (toDisplayName kd.1) (d_Dependencies kd.2) acc) fromComponents
    (map_range (m_Dependencies m)).

(** [sets.List]: the elements in order. *)

Definition buildRequiredByMap (m : Manifest) : gmap string (list string) := sets_List <$> requiredBySets m.

Definition info_of (requiredBy : gmap string (list string)) (name : string) (dep : Dependency) : DependencyInfo :=
  {| i_Name := name; i_DisplayName := toDisplayName name; i_Enabled := d_Enabled dep;
     i_Subscription := o_Name (d_OLM dep); i_Namespace := o_Namespace (d_OLM dep);
     i_Channel := o_Channel (d_OLM dep); i_Source := o_Source (d_OLM dep);
     i_TargetNamespaces := o_TargetNamespaces (d_OLM dep); i_RequiredBy := default [] (requiredBy !! name) |}.

Definition info_less (a b : DependencyInfo) : bool := string_less (i_Name a) (i_Name b).

Definition GetDependencies (m : Manifest) : list DependencyInfo :=
  let requiredBy := buildRequiredByMap m in
  sort_slice info_less (map (λ nd, info_of requiredBy nd.1 nd.2) (map_range (m_Dependencies m))).

(** ** graph.go *)
(** [collectTransitiveDeps]: the visited set is shared by the whole recursion;
    [fuel] bounds its depth, and [None] means that the bound was hit. *)
Fixpoint collectTransitiveDeps (fuel : nat) (m : Manifest) (name : string) (visited : gset string)
    : option (gset string) :=
  match fuel with
  | O => None
  | S fuel' =>
      if decide (name ∈ visited) then Some visited
      else
        let visited := {[name]} ∪ visited in
        match m_Dependencies m !! name with
        | None => Some visited
        | Some dep =>
            foldl (λ acc kv, match acc with
                             | None => None
                             | Some v => if isEnabled kv.2 then collectTransitiveDeps fuel' m kv.1 v else Some v
                             end) (Some visited) (map_range (d_Dependencies dep))
        end
  end.

(** One more than the number of names the recursion can meet. *)
Definition names_of (m : Manifest) : gset string :=
  dom (m_Dependencies m) ∪ ⋃ (map (λ nd, dom (d_Dependencies nd.2)) (map_to_list (m_Dependencies m))).
Definition depth_bound (m : Manifest) : nat := S (S (size (names_of m))).

(** The display names of one node, and of all. *)
Definition transitive_names (m : Manifest) (name : string) : list string :=
  match collectTransitiveDeps (depth_bound m) m name ∅ with
  | None => []
  | Some visited => sort_strings (map toDisplayName (elements (visited ∖ {[name]})))
  end.

Definition buildDepMap (m : Manifest) : gmap string (list string) :=
  map_imap (λ name _, Some (transitive_names m name)) (m_Dependencies m).

(** The two lines below a node. *)
Definition printDepNode (dep : DependencyInfo) (depMap : gmap string (list string)) : string * string :=
  let requiredBy := match i_RequiredBy dep with [] => "(none)" | l => join ", " l end in
  let dependsOn := match depMap !! i_Name dep with
                   | Some (x :: l) => join ", " (x :: l)
                   | _ => "(none)"
                   end in
  ("├── Required by: " +:+ requiredBy, "└── Depends on: " +:+ dependsOn).
End ManifestOps.

(** ** Lemmas *)
Section GraphLemmas.
Context `{MO : MapOrder}.

(** [a] depends on [b] in the manifest. *)
Definition depends (m : Manifest) (a b : string) : Prop :=
  ∃ dep val, m_Dependencies m !! a = Some dep ∧ d_Dependencies dep !! b = Some val ∧ isEnabled val = true.

(** What a call of the recursion on [name] adds to the visited set [V]: only
    what is reachable from [name], and with every new node its successors. *)
Definition visit_post (m : Manifest) (V : gset string) (name : string) (W : gset string) : Prop :=
  V ⊆ W ∧ name ∈ W ∧
  (∀ x, x ∈ W → x ∈ V ∨ rtc (depends m) name x) ∧
  (∀ x y, x ∈ W → x ∉ V → depends m x y → y ∈ W).

Lemma collect_loop m fuel (l : list (string * any)) acc :
  (∀ k v A, (k, v) ∈ l → isEnabled v = true → acc ⊆ A →
    ∃ W, collectTransitiveDeps fuel m k A = Some W ∧ visit_post m A k W) →
  ∃ W, foldl (λ acc kv, match acc with
                        | None => None
                        | Some v => if isEnabled kv.2 then collectTransitiveDeps fuel m kv.1 v else Some v
                        end) (Some acc) l = Some W ∧
    acc ⊆ W ∧ (∀ k v, (k, v) ∈ l → isEnabled v = true → k ∈ W) ∧
    (∀ x, x ∈ W → x ∈ acc ∨ ∃ k v, (k, v) ∈ l ∧ isEnabled v = true ∧ rtc (depends m) k x) ∧
    (∀ x y, x ∈ W → x ∉ acc → depends m x y → y ∈ W).
Proof.
  revert acc. induction l as [|[k v] l IH]; intros acc Hcall.
  { exists acc. split; [done|]. split; [done|]. split; [intros ?? H; by apply elem_of_nil in H|].
    split; [eauto|]. intros x y Hx Hn. done. }
  cbn [foldl fst snd]. destruct (isEnabled v) eqn:Hv.
  - destruct (Hcall k v acc) as (A & -> & HA1 & HA2 & HA3 & HA4); [by left|done|done|].
    destruct (IH A) as (W & -> & HW1 & HW2 & HW3 & HW4).
    { intros k' v' B Hin Hv' HB. apply (Hcall k' v'); [by right|done|by etrans]. }
    exists W. split; [done|]. split; [by etrans|]. split; [|split].
    + intros k' v' [[= -> ->]|Hin]%elem_of_cons He; [by apply HW1|by eapply HW2].
    + intros x Hx. destruct (HW3 x Hx) as [HxA|(k' & v' & Hin & He & Hr)].
      * destruct (HA3 x HxA) as [|Hr]; [by left|]. right. exists k, v. split; [by left|done].
      * right. exists k', v'. split; [by right|done].
    + intros x y Hx Hn Hd. destruct (decide (x ∈ A)) as [HxA|HxA]; [apply HW1; by eapply HA4|by eapply HW4].
  - destruct (IH acc) as (W & -> & HW1 & HW2 & HW3 & HW4).
    { intros k' v' B Hin Hv' HB. apply (Hcall k' v'); [by right|done|done]. }
    exists W. split; [done|]. split; [done|]. split; [|split; [|done]].
    + intros k' v' [[= -> ->]|Hin]%elem_of_cons He; [congruence|by eapply HW2].
    + intros x Hx. destruct (HW3 x Hx) as [|(k' & v' & Hin & He & Hr)]; [by left|].
      right. exists k', v'. split; [by right|done].
Qed.

(** Enough fuel: more than the number of names not yet visited. *)
Lemma collect_spec m (U : gset string) fuel name V :
  (∀ a b, depends m a b → b ∈ U) → name ∈ U → (size (U ∖ V) < fuel)%nat →
  ∃ W, collectTransitiveDeps fuel m name V = Some W ∧ visit_post m V name W.
Proof.
  intros HU. revert name V. induction fuel as [|fuel IH]; intros name V Hname Hfuel; [lia|].
  cbn [collectTransitiveDeps]. case_decide as Hin.
  { exists V. split; [done|]. split; [done|]. split; [done|]. split; [by left|done]. }
  assert (size (U ∖ ({[name]} ∪ V)) < size (U ∖ V))%nat as Hsize.
  { apply subset_size. set_solver. }
  destruct (m_Dependencies m !! name) as [dep|] eqn:Hdep.
  - destruct (collect_loop m fuel (map_range (d_Dependencies dep)) ({[name]} ∪ V)) as (W & -> & H1 & H2 & H3 & H4).
    { intros k v A Hkv Hv HA. apply elem_of_map_range in Hkv. apply IH; [apply (HU name); by exists dep, v|].
      assert (size (U ∖ A) ≤ size (U ∖ ({[name]} ∪ V)))%nat by (apply subseteq_size; set_solver). lia. }
    exists W. split; [done|]. split; [set_solver|]. split; [set_solver|]. split.
    + intros x Hx. destruct (H3 x Hx) as [Hx'|(k & v & Hkv & Hv & Hr)].
      * apply elem_of_union in Hx' as [->%elem_of_singleton|?]; [right; reflexivity|by left].
      * right. apply elem_of_map_range in Hkv. eapply rtc_l; [|done]. by exists dep, v.
    + intros x y Hx Hn (dep' & val & Hd & Hval & He).
      destruct (decide (x = name)) as [->|Hne]; [|apply (H4 x); [done|set_solver|by exists dep', val]].
      rewrite Hd in Hdep. injection Hdep as ->. eapply H2; [by apply elem_of_map_range|done].
  - exists ({[name]} ∪ V). split; [done|]. split; [set_solver|]. split; [set_solver|]. split.
    + intros x [->%elem_of_singleton|?]%elem_of_union; [right; reflexivity|by left].
    + intros x y [->%elem_of_singleton|?]%elem_of_union Hn (dep & val & Hd & _); [congruence|done].
Qed.

Lemma depends_names m a b : depends m a b → b ∈ names_of m.
Proof.
  intros (dep & val & Ha & Hb & _). unfold names_of. apply elem_of_union. right.
  apply elem_of_union_list. exists (dom (d_Dependencies dep)). split; [|by eapply elem_of_dom_2].
  rewrite list_elem_of_fmap. exists (a, dep). split; [done|]. by apply elem_of_map_to_list.
Qed.

(** The closure of a node, for every iteration order. *)
Lemma collect_reachable m name :
  ∃ W, collectTransitiveDeps (depth_bound m) m name ∅ = Some W ∧ (∀ x, x ∈ W ↔ rtc (depends m) name x).
Proof.
  destruct (collect_spec m ({[name]} ∪ names_of m) (depth_bound m) name ∅) as (W & HW & _ & Hn & Hs & Hc).
  - intros a b Hab. apply elem_of_union. right. by eapply depends_names.
  - set_solver.
  - rewrite difference_empty_L. unfold depth_bound.
    assert (size ({[name]} ∪ names_of m) ≤ S (size (names_of m)))%nat; [|lia].
    rewrite size_union_alt, size_singleton. assert (size (names_of m ∖ {[name]}) ≤ size (names_of m))%nat by (apply subseteq_size; set_solver). lia.
  - exists W. split; [done|]. intros x. split.
    + intros Hx. destruct (Hs x Hx) as [Hx'|]; [set_solver|done].
    + assert (∀ a, rtc (depends m) a x → a ∈ W → x ∈ W) as Hcl; [|by intros Hr; apply (Hcl name)].
      induction 1 as [a|a b c Hab _ IH]; intros Ha; [done|]. apply IH. by apply (Hc a); [|set_solver|].
Qed.
End GraphLemmas.

(** ** Lemmas on the manifest *)
Section ManifestLemmas.
Context (IsDNS1123Label : string → list string).

(** A target namespace the validation lets pass. *)
Definition target_ok (operatorNamespace ns : string) : Prop :=
  IsDNS1123Label ns = [] ∧
  (ns = operatorNamespace ∨ has_prefix "kube-" ns = false ∧ has_prefix "openshift-" ns = false).

Lemma validateTargetNamespace_ok dep ns op :
  validateTargetNamespace IsDNS1123Label dep ns op = Ok () ↔ target_ok op ns.
Proof.
  unfold validateTargetNamespace, target_ok. destruct (IsDNS1123Label ns); [|naive_solver].
  destruct (String.eqb_spec ns op) as [->|]; [naive_solver|].
  destruct (has_prefix "kube-" ns), (has_prefix "openshift-" ns); simpl; naive_solver.
Qed.

Lemma validateOLMConfig_ok dep olm :
  validateOLMConfig IsDNS1123Label dep olm = Ok () ↔
  allowedCatalogSources (o_Source olm) = true ∧ Forall (target_ok (o_Namespace olm)) (o_TargetNamespaces olm).
Proof.
  unfold validateOLMConfig. destruct (allowedCatalogSources (o_Source olm)); simpl; [|naive_solver].
  rewrite for_each_Ok. setoid_rewrite validateTargetNamespace_ok. naive_solver.
Qed.
End ManifestLemmas.

Section RequiredBy.
Context `{MO : MapOrder, SS : SortSlice}.

(** [x] is listed under [dep]. *)
Definition listed (depSets : gmap string (gset string)) (dep x : string) : Prop :=
  ∃ s, depSets !! dep = Some s ∧ x ∈ s.

Lemma addEntry_listed acc d r dep x :
  listed (addEntry acc d r) dep x ↔ listed acc dep x ∨ (d = dep ∧ x = r).
Proof.
  unfold listed, addEntry. destruct (decide (d = dep)) as [->|Hne].
  - rewrite lookup_insert_eq. split.
    + intros (s & [= <-] & [->%elem_of_singleton|Hx]%elem_of_union); [by right|left].
      destruct (acc !! dep); [|set_solver]. eauto.
    + intros [(s & Hs & Hx)|[_ ->]]; [|eexists; split; [done|set_solver]].
      eexists. split; [done|]. rewrite Hs. set_solver.
  - rewrite lookup_insert_ne by done. naive_solver.
Qed.

Lemma addEntries_listed r deps acc dep x :
  listed (addEntries r deps acc) dep x ↔
  listed acc dep x ∨ (x = r ∧ ∃ val, deps !! dep = Some val ∧ isEnabled val = true).
Proof.
  unfold addEntries. setoid_rewrite <-elem_of_map_range. generalize (map_range deps). intros l.
  revert acc. induction l as [|[k v] l IH]; intros acc; cbn [foldl fst snd].
  { split; [by left|]. intros [?|(_ & val & H & _)]; [done|by apply elem_of_nil in H]. }
  rewrite IH. setoid_rewrite elem_of_cons. destruct (isEnabled v) eqn:Hv; [rewrite addEntry_listed|]; split.
  - intros [[?|[<- ->]]|(-> & val & ? & ?)]; [by left|right; eauto|right; eauto].
  - intros [?|(-> & val & [[= <- <-]|?] & ?)]; [by do 2 left|left; by right|right; eauto].
  - intros [?|(-> & val & ? & ?)]; [by left|right; eauto].
  - intros [?|(-> & val & [[= <- <-]|?] & ?)]; [by left|congruence|right; eauto].
Qed.

(** A loop of [addEntries] over a map of maps. *)
Lemma addAll_listed {A} (get : A → gmap string any) (l : list (string * A)) acc dep x :
  listed (foldl (λ acc ka, addEntries (toDisplayName ka.1) (get ka.2) acc) acc l) dep x ↔
  listed acc dep x ∨
  ∃ k a val, (k, a) ∈ l ∧ get a !! dep = Some val ∧ isEnabled val = true ∧ x = toDisplayName k.
Proof.
  revert acc. induction l as [|[k a] l IH]; intros acc; cbn [foldl fst snd].
  { split; [by left|]. intros [?|(? & ? & ? & H & _)]; [done|by apply elem_of_nil in H]. }
  rewrite IH, addEntries_listed. setoid_rewrite elem_of_cons. split.
  - intros [[?|(-> & val & ? & ?)]|(k' & a' & val & ? & ? & ? & ->)]; [by left|right..].
    + exists k, a, val. auto.
    + exists k', a', val. auto.
  - intros [?|(k' & a' & val & [[= -> ->]|?] & ? & ? & ->)]; [by do 2 left|left; right; eauto|right].
    exists k', a', val. auto.
Qed.
End RequiredBy.

Lemma GetDependencies_names `{MO : MapOrder, SS : SortSlice} (m : Manifest) :
  let infos := GetDependencies m in
  infos ≡ₚ map (λ nd, info_of (buildRequiredByMap m) nd.1 nd.2) (map_range (m_Dependencies m)) ∧
  StronglySorted String.le (map i_Name infos) ∧
  (∀ name, name ∈ map i_Name infos ↔ is_Some (m_Dependencies m !! name)) ∧
  NoDup (map i_Name infos).
Proof.
  intros infos.
  assert (infos ≡ₚ map (λ nd, info_of (buildRequiredByMap m) nd.1 nd.2) (map_range (m_Dependencies m))) as Hperm.
  { apply sort_slice_perm. }
  assert (map i_Name infos ≡ₚ (map_range (m_Dependencies m)).*1) as Hnames.
  { rewrite Hperm, map_map. done. }
  split; [done|]. split; [|split].
  - apply (StronglySorted_fmap_key i_Name). eapply StronglySorted_impl;
      [|apply sort_slice_sorted, (StrictWeak_key i_Name), string_less_strict].
    intros x y. apply string_less_false.
  - intros name. rewrite Hnames, list_elem_of_fmap. split.
    + intros ([k d] & -> & Hkd%elem_of_map_range). by eexists.
    + intros [d Hd]. exists (name, d). split; [done|]. by apply elem_of_map_range.
  - rewrite Hnames. apply NoDup_map_range.
Qed.

(** ** A concrete manifest: a cycle between two operators *)
Module DepsRun.
Definition olm (name : string) : OLMConfig := mkOLM "stable" name (name +:+ "-ns") "" [].
Definition manifest : Manifest := mkManifest
  (list_to_map [
    ("rhcl", mkDependency "auto" (olm "rhcl-operator")
       (list_to_map [("certManager", AnyBool true); ("authorino", AnyString "auto"); ("nfd", AnyString "false")]));
    ("certManager", mkDependency "true" (olm "cert-manager") (list_to_map [("rhcl", AnyBool true)]));
    ("authorino", mkDependency "auto" (olm "authorino-operator") ∅)])
  (list_to_map [("kserve", mkComponentDeps (list_to_map [("rhcl", AnyBool true); ("nfd", AnyOther)]))]).
End DepsRun.

(** ** Properties *)
Module DepsSpec.
(** C14: The dependency graph is the transitive closure: the entry of a dependency
    lists, in byte order, the display names of exactly the names it reaches
    through enabled edges, itself excluded; cycles and undeclared targets
    included, the recursion always ends, and neither the iteration order of the
    maps nor the sorting algorithm shows in the result. *)
Theorem buildDepMap_transitive_closure (m : Manifest) (name : string) :
  is_Some (m_Dependencies m !! name) →
  ∃ S : gset string, (∀ x, x ∈ S ↔ x ≠ name ∧ rtc (depends m) name x) ∧
    ∀ (M : MapOrder) (SS : SortSlice),
      buildDepMap (MO := M) (SS := SS) m !! name = Some (sort_strings (SS := SS) (map toDisplayName (elements S))).
Proof.
  intros [dep Hdep].
  destruct (collect_reachable (MO := canonical_MapOrder) m name) as (W & _ & HW).
  exists (W ∖ {[name]}). split; [intros x; rewrite elem_of_difference, elem_of_singleton, HW; naive_solver|].
  intros M SS. unfold buildDepMap. rewrite map_lookup_imap, Hdep. cbn [option_bind]. f_equal.
  unfold transitive_names. destruct (collect_reachable (MO := M) m name) as (W' & -> & HW').
  assert (W' = W) as -> by (apply set_eq; intros x; by rewrite HW, HW'). done.
Qed.

Lemma buildDepMap_transitive_closure_witness :
  is_Some (m_Dependencies DepsRun.manifest !! "rhcl") ∧
  ∃ S : gset string, (∀ x, x ∈ S ↔ x ≠ "rhcl" ∧ rtc (depends DepsRun.manifest) "rhcl" x) ∧
    ∀ (M : MapOrder) (SS : SortSlice),
      buildDepMap (MO := M) (SS := SS) DepsRun.manifest !! "rhcl" = Some (sort_strings (SS := SS) (map toDisplayName (elements S))).
Proof. split; [by eexists|]. apply buildDepMap_transitive_closure. by eexists. Defined.

(** The supply-chain guard: a manifest is accepted exactly when every
    dependency comes from an allowed catalog and watches only well-formed
    namespaces, none of them a system namespace other than the operator's own;
    the order in which the dependencies are visited is irrelevant. *)
Theorem Manifest_validate_spec `{MO : MapOrder} IsDNS1123Label (m : Manifest) :
  Manifest_validate IsDNS1123Label m = Ok () ↔
  ∀ name dep, m_Dependencies m !! name = Some dep →
    o_Source (d_OLM dep) ∈ [""; "redhat-operators"; "community-operators"; "certified-operators"; "redhat-marketplace"] ∧
    ∀ ns, ns ∈ o_TargetNamespaces (d_OLM dep) →
      IsDNS1123Label ns = [] ∧
      (ns = o_Namespace (d_OLM dep) ∨ has_prefix "kube-" ns = false ∧ has_prefix "openshift-" ns = false).
Proof.
  unfold Manifest_validate. rewrite for_each_Ok, Forall_forall.
  assert (∀ s, allowedCatalogSources s = true ↔
    s ∈ [""; "redhat-operators"; "community-operators"; "certified-operators"; "redhat-marketplace"]) as Hallow.
  { intros s. unfold allowedCatalogSources. rewrite existsb_exists. setoid_rewrite String.eqb_eq.
    setoid_rewrite <-list_elem_of_In. naive_solver. }
  split.
  - intros H name dep Hdep. apply (elem_of_map_range (m_Dependencies m)) in Hdep.
    apply H in Hdep. simpl in Hdep. apply validateOLMConfig_ok in Hdep as [Hs Ht].
    split; [by apply Hallow|]. by rewrite Forall_forall in Ht.
  - intros H [name dep] Hdep. apply elem_of_map_range in Hdep. simpl. apply validateOLMConfig_ok.
    destruct (H name dep Hdep) as [Hs Ht]. split; [by apply Hallow|]. by rewrite Forall_forall.
Qed.

(** [GetDependencies] lists every dependency once, ordered by name, and its
    [RequiredBy] is the sorted, duplicate-free list of the display names of
    the components and dependencies that enable it. *)
Theorem GetDependencies_spec `{MO : MapOrder, SS : SortSlice} (m : Manifest) :
  let infos := GetDependencies m in
  StronglySorted String.le (map i_Name infos) ∧
  (∀ name, name ∈ map i_Name infos ↔ is_Some (m_Dependencies m !! name)) ∧
  NoDup (map i_Name infos) ∧
  (∀ info, info ∈ infos →
    StronglySorted String.le (i_RequiredBy info) ∧ NoDup (i_RequiredBy info) ∧
    ∀ x, x ∈ i_RequiredBy info ↔
      (∃ k c val, m_Components m !! k = Some c ∧ k_Dependencies c !! i_Name info = Some val ∧ isEnabled val = true ∧ x = toDisplayName k) ∨
      (∃ k d val, m_Dependencies m !! k = Some d ∧ d_Dependencies d !! i_Name info = Some val ∧ isEnabled val = true ∧ x = toDisplayName k)).
Proof.
  intros infos. destruct (GetDependencies_names m) as (Hperm & Hsorted & Hdom & Hnodup). fold infos in Hperm, Hsorted, Hdom, Hnodup.
  split; [done|]. split; [done|]. split; [done|].
  intros info Hin. rewrite Hperm in Hin. apply list_elem_of_In, in_map_iff in Hin as ([k d] & <- & _).
  cbn [info_of i_RequiredBy i_Name fst snd]. unfold buildRequiredByMap. rewrite lookup_fmap.
  assert (∀ x, listed (requiredBySets m) k x ↔
    (∃ k' c val, m_Components m !! k' = Some c ∧ k_Dependencies c !! k = Some val ∧ isEnabled val = true ∧ x = toDisplayName k') ∨
    (∃ k' d val, m_Dependencies m !! k' = Some d ∧ d_Dependencies d !! k = Some val ∧ isEnabled val = true ∧ x = toDisplayName k')) as Hlisted.
  { intros x. unfold requiredBySets. rewrite !addAll_listed. setoid_rewrite elem_of_map_range.
    split; [intros [[(s & Hs & _)|?]|?]; [by rewrite lookup_empty in Hs|by left|by right]|].
    intros [?|?]; [left; by right|by right]. }
  setoid_rewrite <-Hlisted. unfold listed. destruct (requiredBySets m !! k) as [s|]; simpl.
  - split; [apply sort_strings_sorted|]. unfold sets_List.
    split; [rewrite sort_strings_perm; apply NoDup_elements|].
    intros x. rewrite sort_strings_perm, elem_of_elements. naive_solver.
  - split; [constructor|]. split; [constructor|]. intros x. split; [by intros ?%elem_of_nil|naive_solver].
Qed.
End DepsSpec.
