(* ===== verification/DepsCheck.v ===== *)
(** * DepsCheck: pkg/util/kube/olm/mode.go, pkg/deps/olm_state.go and check.go

    Which OLM API a cluster serves, the state of an operator under either API,
    and the status [deps] reports for each dependency.  The OLM clients are the
    class [OlmClient]: every request has an answer. *)
From Stdlib Require Import Ascii.
From S2P Require Import Prelude GoStrings Errors Client Version Result Deps.
Open Scope string_scope.
Open Scope Z_scope.
Open Scope go_scope.

(** ** mode.go *)
Inductive Mode := ModeV1 | ModeV0.
#[export] Instance Mode_eq_dec : EqDecision Mode.
Proof. solve_decision. Defined.

Definition olmV1GroupVersion := "olm.operatorframework.io/v1".
Definition olmV1Resource := "clusterextensions".
Definition olmV0GroupVersion := "operators.coreos.com/v1alpha1".
Definition olmV0Resource := "subscriptions".

(** [errors.Is(err, ErrUnavailable)] is the question whether the error wraps it. *)
Inductive ModeError := MErrUnavailable (msg : string) | MErrOther (e : go_error).

(** The discovery client: the resource names of a group version (nil when the
    answer holds no list) and the error that came with it. *)
Definition Discovery : Type := string → option (list string) * option go_error.

Section Mode.
Context `{AE : ApiErrors, KE : K8sErrors}.

Definition resourceAvailable (disc : Discovery) (groupVersion resource : string) : res go_error bool :=
  let '(resources, err) := disc groupVersion in
  if existsb (String.eqb resource) (default [] resources) then Ok true
  else match err with
       | None => Ok false
       | Some e =>
           if IsNotFound e || IsNoMatchError e then Ok false
           else Err (errorf_w ("discovering resource " +:+ resource +:+ " in " +:+ groupVersion) e)
       end.

Definition unavailable_msg := "OLM installation API is not available".

Definition DetectMode (disc : option Discovery) : res ModeError Mode :=
  match disc with
  | None => Err (MErrUnavailable unavailable_msg)
  | Some disc =>
      try! v1 := resourceAvailable disc olmV1GroupVersion olmV1Resource
        else (λ e, MErrOther (errorf_w "discovering OLM v1" e)) in
      if (v1 : bool) then Ok ModeV1
      else
        try! v0 := resourceAvailable disc olmV0GroupVersion olmV0Resource
          else (λ e, MErrOther (errorf_w "discovering OLM v0" e)) in
        if (v0 : bool) then Ok ModeV0 else Err (MErrUnavailable unavailable_msg)
  end.

Definition mode_string (m : Mode) : string := match m with ModeV1 => "v1" | ModeV0 => "v0" end.

Definition notServed (requested : Mode) : ModeError :=
  MErrUnavailable ("requested OLM " +:+ mode_string requested +:+ " API is not available: " +:+ unavailable_msg).

(** The empty requested mode is [None]. *)
Definition ResolveInstallMode (disc : option Discovery) (requested : option Mode) : res ModeError Mode :=
  match disc with
  | None => Err (MErrUnavailable unavailable_msg)
  | Some disc =>
      if decide (requested = Some ModeV1) then
        try! available := resourceAvailable disc olmV1GroupVersion olmV1Resource else MErrOther in
        if negb available then Err (notServed ModeV1) else Ok ModeV1
      else
        try! available := resourceAvailable disc olmV0GroupVersion olmV0Resource else MErrOther in
        if (available : bool) then Ok ModeV0
        else if decide (requested = Some ModeV0) then Err (notServed ModeV0)
        else
          try! available := resourceAvailable disc olmV1GroupVersion olmV1Resource else MErrOther in
          if (available : bool) then Ok ModeV1 else Err (MErrUnavailable unavailable_msg)
  end.
End Mode.

(** ** Objects of the OLM APIs *)
Record SubscriptionSpec := mkSubSpec { ss_Package : string; ss_Channel : string; ss_CatalogSource : string }.
Record SubCondition := mkSubCondition { sc_Type : string; sc_Status : string; sc_Message : string }.
Record SubscriptionObj := mkSubObj {
  so_Name : string;
  so_Spec : option SubscriptionSpec;
  so_InstalledCSV : string;
  so_Conditions : list SubCondition;
}.
Record CSVObj := mkCSVObj { cv_Name : string; cv_Phase : string; cv_Version : string; cv_Reason : string }.
Definition CSVPhaseSucceeded := "Succeeded".
Definition CSVPhaseFailed := "Failed".

Class OlmClient := {
  olm_get_sub : string → string → res go_error SubscriptionObj;
  olm_list_subs : string → res go_error (list SubscriptionObj);
  olm_get_csv : string → string → res go_error CSVObj;
  olm_list_csvs : string → res go_error (list CSVObj);
  (** [reader.List] of ClusterExtensions *)
  olm_list_extensions : res go_error (list json);
  (** [platformcluster.ClusterExtensionInstallsPackage] *)
  ClusterExtensionInstallsPackage : string → string → bool * option go_error;
}.

(** ** MatchesSubscription (install.go) *)
(** [strings.ReplaceAll(s, c, "")] for a one-byte [c]. *)
Fixpoint remove_byte (c : ascii) (s : string) : string :=
  match s with
  | EmptyString => ""
  | String a s' => if Ascii.eqb a c then remove_byte c s' else String a (remove_byte c s')
  end.

(** The part before the first occurrence of [sep], if there is one. *)
Fixpoint before (sep s : string) : option string :=
  if has_prefix sep s then Some ""
  else match s with
       | EmptyString => None
       | String a s' => match before sep s' with Some p => Some (String a p) | None => None end
       end.

Definition MatchesSubscription (csvName subName : string) : bool :=
  let csvLower := to_lower csvName in
  let subLower := to_lower subName in
  let subWithoutPrefix := trim_prefix "openshift-" subLower in
  if has_prefix (subLower +:+ ".v") csvLower then true
  else if negb (String.eqb subWithoutPrefix subLower) && has_prefix (subWithoutPrefix +:+ ".v") csvLower then true
  else if negb (has_suffix "-operator" subWithoutPrefix) && negb (has_suffix "operator" subWithoutPrefix) &&
          has_prefix (subWithoutPrefix +:+ "-operator.v") csvLower then true
  else if match cut_suffix "-product" subWithoutPrefix with
          | Some subBase => has_prefix (subBase +:+ "-operator.v") csvLower
          | None => false
          end then true
  else match before ".v" csvLower with
       | None => false
       | Some csvPackage =>
           if String.eqb csvPackage "" then false
           else String.eqb (remove_byte "-"%char csvPackage) (remove_byte "-"%char subWithoutPrefix)
       end.

(** ** olm_state.go *)
Section OlmState.
Context `{AE : ApiErrors, KE : K8sErrors, JQ : GoJq, OC : OlmClient}.

Definition absent (e : go_error) : bool := IsNoMatchError e || IsNotFound e.

Definition requestedClusterExtension (packageName namespace : string) : bool * option go_error :=
  let '(requested, err) := ClusterExtensionInstallsPackage packageName namespace in
  match err with
  | Some e => if absent e then (false, None) else (requested, Some e)
  | None => (requested, None)
  end.

Definition requestedV0Subscription (packageName namespace : string) : res go_error (option SubscriptionObj) :=
  match olm_list_subs namespace with
  | Panic s => Panic s
  | Err e => if absent e then Ok None else Err (errorf_w ("list subscriptions in " +:+ namespace) e)
  | Ok items =>
      Ok (find (λ sub, match so_Spec sub with Some spec => String.eqb (ss_Package spec) packageName | None => false end) items)
  end.

Record clusterExtensionInstallState := mkState { es_version : string; es_requested : bool; es_installed : bool }.

(** The field of an object; keys of an unstructured object are unique. *)
Definition field (k : string) (obj : json) : option json :=
  match obj with
  | JObj fields => snd <$> find (λ kv, String.eqb kv.1 k) fields
  | _ => None
  end.
Definition string_field (k : string) (obj : json) : string :=
  match field k obj with Some (JStr s) => s | _ => "" end.
Definition field_is (k v : string) (obj : json) : bool :=
  match field k obj with Some (JStr s) => String.eqb s v | _ => false end.

Definition GetName (obj : json) : string :=
  match field "metadata" obj with Some meta => string_field "name" meta | None => "" end.

(** A string query whose absence counts as the empty string. *)
Definition query_or_empty (obj : json) (query what : string) : res go_error string :=
  match jq_Query_string obj query with
  | Err err => if errors_is JqErrNotFound err then Ok ""
               else Err (errorf_w ("read ClusterExtension " +:+ GetName obj +:+ " " +:+ what) err)
  | r => r
  end.

Definition clusterExtensionMatches (extension : json) (packageName namespace : string) : res go_error bool :=
  let! installNamespace := query_or_empty extension ".spec.namespace" "namespace" in
  if negb (String.eqb namespace "") && negb (String.eqb installNamespace namespace) then Ok false
  else
    let! sourceType := query_or_empty extension ".spec.source.sourceType" "source type" in
    if negb (String.eqb sourceType "Catalog") then Ok false
    else
      let! installedPackage := query_or_empty extension ".spec.source.catalog.packageName" "package" in
      Ok (String.eqb installedPackage packageName).

(** The loop over the conditions; [installed] is overwritten by each Installed
    condition. *)
Fixpoint conditions_loop (name : string) (conditions : list json) (installed : bool) : res go_error bool :=
  match conditions with
  | [] => Ok installed
  | (JObj _ as values) :: rest =>
      if field_is "type" "Progressing" values && field_is "status" "False" values && field_is "reason" "Blocked" values then
        Err (EString ("ClusterExtension " +:+ name +:+ " progress blocked: " +:+ string_field "message" values))
      else if field_is "type" "Installed" values then
        let reason := string_field "reason" values in
        if field_is "status" "False" values && String.eqb reason "Failed" then
          Err (EString ("ClusterExtension " +:+ name +:+ " installation failed (" +:+ reason +:+ "): " +:+
                        string_field "message" values))
        else conditions_loop name rest (field_is "status" "True" values && String.eqb reason "Succeeded")
      else conditions_loop name rest installed
  | _ :: _ => Err (EString ("ClusterExtension " +:+ name +:+ " has malformed condition"))
  end.

(** [jq.Query[[]any]] with an absent field read as nil. *)
Definition query_list (obj : json) (query what : string) : res go_error (list json) :=
  match gojq_run obj query with
  | JqParseError e => Err (errorf_w ("read ClusterExtension " +:+ GetName obj +:+ " " +:+ what) (errorf_w "failed to parse jq query" e))
  | JqNoResult => Ok []
  | JqRunError e => Err (errorf_w ("read ClusterExtension " +:+ GetName obj +:+ " " +:+ what) (errorf_w "jq query error" e))
  | JqValue JNull => Ok []
  | JqValue (JArr l) => Ok l
  | JqValue _ => Err (errorf_w ("read ClusterExtension " +:+ GetName obj +:+ " " +:+ what)
      (EString "unmarshaling to type []interface {}: json: cannot unmarshal value into Go value of type []interface {}"))
  end.

Definition clusterExtensionInstalled (extension : json) : res go_error bool :=
  let! conditions := query_list extension ".status.conditions" "conditions" in
  conditions_loop (GetName extension) conditions false.

(** The loop over the extensions: the state reached, and an error. *)
Fixpoint extensions_loop (packageName namespace : string) (items : list json) (state : clusterExtensionInstallState)
    : res () (clusterExtensionInstallState * option go_error) :=
  match items with
  | [] => Ok (state, None)
  | extension :: rest =>
      match clusterExtensionMatches extension packageName namespace with
      | Panic s => Panic s
      | Err matchErr => Ok (state, Some matchErr)
      | Ok false => extensions_loop packageName namespace rest state
      | Ok true =>
          let state := mkState (es_version state) true (es_installed state) in
          match clusterExtensionInstalled extension with
          | Panic s => Panic s
          | Err conditionErr => Ok (state, Some conditionErr)
          | Ok false => extensions_loop packageName namespace rest state
          | Ok true =>
              match query_or_empty extension ".status.install.bundle.version" "version" with
              | Panic s => Panic s
              | Err versionErr => Ok (state, Some versionErr)
              | Ok version => Ok (mkState version true true, None)
              end
          end
      end
  end.

Definition findClusterExtensionInstallState (packageName namespace : string)
    : res () (clusterExtensionInstallState * option go_error) :=
  let state := mkState "" false false in
  match olm_list_extensions with
  | Panic s => Panic s
  | Err e => if absent e then Ok (state, None) else Ok (state, Some (errorf_w "list ClusterExtensions" e))
  | Ok items => extensions_loop packageName namespace items state
  end.
End OlmState.

(** ** check.go *)
Inductive DepStatus := StatusInstalled | StatusPending | StatusMissing | StatusOptional | StatusUnknown.
#[export] Instance DepStatus_eq_dec : EqDecision DepStatus.
Proof. solve_decision. Defined.

Record DependencyStatus := mkDepStatus {
  ds_Name : string;
  ds_DisplayName : string;
  ds_Status : DepStatus;
  ds_Version : string;
  ds_Namespace : string;
  ds_Subscription : string;
  ds_RequiredBy : list string;
  ds_Error : string;
}.

(** [computeStatus]: a per-dependency error counts as an error whatever the status. *)
Definition count_dependency (acc : Z * Z) (d : DependencyStatus) : Z * Z :=
  let '(warnings, errs) := acc in
  if negb (String.eqb (ds_Error d) "") then (warnings, errs + 1)
  else match ds_Status d with
       | StatusMissing => (warnings, errs + 1)
       | StatusUnknown | StatusPending => (warnings + 1, errs)
       | StatusInstalled | StatusOptional => (warnings, errs)
       end.
Definition computeStatus (deps : list DependencyStatus) : Result.Status :=
  let '(warnings, errs) := foldl count_dependency (0, 0) deps in NewStatus warnings errs.

(** [errors.Join] of two errors that may be nil. *)
Definition errors_join (a b : option go_error) : option go_error :=
  match a, b with
  | None, None => None
  | Some e, None | None, Some e => Some (EWrap (error_string e) e)
  | Some e1, Some e2 => Some (EWrap2 (error_string e1 +:+ newline +:+ error_string e2) e1 e2)
  end.

Section DepsCheck.
Context `{AE : ApiErrors, KE : K8sErrors, JQ : GoJq, OC : OlmClient}.

Definition getSubscription (namespace name : string) : res go_error (option SubscriptionObj) :=
  if String.eqb namespace "" || String.eqb name "" then Ok None
  else match olm_get_sub namespace name with
       | Ok sub => Ok (Some sub)
       | Panic s => Panic s
       | Err e => if IsNotFound e then Ok None
                  else Err (errorf_w ("get subscription " +:+ namespace +:+ "/" +:+ name) e)
       end.

Definition getCSV (namespace name : string) : res go_error (option CSVObj) :=
  if String.eqb namespace "" || String.eqb name "" then Ok None
  else match olm_get_csv namespace name with
       | Ok csv => Ok (Some csv)
       | Panic s => Panic s
       | Err e => if IsNotFound e then Ok None
                  else Err (errorf_w ("get csv " +:+ namespace +:+ "/" +:+ name) e)
       end.

Definition getVersionFromCSV (namespace csvName : string) : res go_error string :=
  if String.eqb csvName "" then Ok ""
  else let! csv := getCSV namespace csvName in
       Ok (match csv with Some csv => cv_Version csv | None => "" end).

(** The first succeeded CSV that belongs to the subscription. *)
Definition succeeded_match (subName : string) (csv : CSVObj) : bool :=
  String.eqb (cv_Phase csv) CSVPhaseSucceeded && MatchesSubscription (cv_Name csv) subName.

Definition findMatchingCSVVersion (namespace subName : string) : res go_error string :=
  try! items := olm_list_csvs namespace else errorf_w ("list CSVs in " +:+ namespace) in
  Ok (match find (succeeded_match subName) items with Some csv => cv_Version csv | None => "" end).

Definition set_status (s : DependencyStatus) (st : DepStatus) (version err : string) : DependencyStatus :=
  mkDepStatus (ds_Name s) (ds_DisplayName s) st version (ds_Namespace s) (ds_Subscription s) (ds_RequiredBy s) err.

Definition initial_status (dep : DependencyInfo) : DependencyStatus :=
  mkDepStatus (i_Name dep) (i_DisplayName dep) StatusUnknown "" (i_Namespace dep) (i_Subscription dep)
    (i_RequiredBy dep) "".

Definition v0SubscriptionStatus (dep : DependencyInfo) (status : DependencyStatus) (sub : SubscriptionObj)
    : res go_error DependencyStatus :=
  match getVersionFromCSV (i_Namespace dep) (so_InstalledCSV sub) with
  | Panic s => Panic s
  | Err err => Ok (set_status status StatusInstalled "" (error_string err))
  | Ok version =>
      if String.eqb version "" then
        match findMatchingCSVVersion (i_Namespace dep) (i_Subscription dep) with
        | Panic s => Panic s
        | Err fallbackErr => Ok (set_status status StatusInstalled "" (error_string fallbackErr))
        | Ok version => Ok (set_status status StatusInstalled version (ds_Error status))
        end
      else Ok (set_status status StatusInstalled version (ds_Error status))
  end.

(** Not installed: optional when the manifest does not insist on it. *)
Definition absent_status (dep : DependencyInfo) : DepStatus :=
  if String.eqb (i_Enabled dep) enabledAuto || String.eqb (i_Enabled dep) "false" then StatusOptional else StatusMissing.

Definition checkSingleDependencyV0 (dep : DependencyInfo) : res go_error DependencyStatus :=
  let status := initial_status dep in
  match getSubscription (i_Namespace dep) (i_Subscription dep) with
  | Panic s => Panic s
  | Err err => Ok (set_status status StatusUnknown "" (error_string err))
  | Ok None => Ok (set_status status (absent_status dep) "" "")
  | Ok (Some sub) => v0SubscriptionStatus dep status sub
  end.

(** [hasOLM]: whether the client has a v0 reader. *)
Definition checkSingleDependencyV1 (hasOLM : bool) (dep : DependencyInfo) : res go_error DependencyStatus :=
  let status := initial_status dep in
  match findClusterExtensionInstallState (i_Subscription dep) (i_Namespace dep) with
  | Panic s => Panic s
  | Err _ => Panic "unreachable"
  | Ok (extensionState, extensionErr) =>
      if es_installed extensionState then
        Ok (set_status status StatusInstalled (trim_prefix "v" (es_version extensionState)) "")
      else
        let v0 := if hasOLM then requestedV0Subscription (i_Subscription dep) (i_Namespace dep) else Ok None in
        match v0 with
        | Panic s => Panic s
        | Ok (Some sub) => v0SubscriptionStatus dep status sub
        | Ok None | Err _ =>
            match errors_join extensionErr (match v0 with Err e => Some e | _ => None end) with
            | Some err => Ok (set_status status StatusUnknown "" (error_string err))
            | None =>
                if es_requested extensionState then Ok (set_status status StatusPending "" "")
                else Ok (set_status status (absent_status dep) "" "")
            end
        end
  end.

Fixpoint check_all (check : DependencyInfo → res go_error DependencyStatus) (deps : list DependencyInfo)
    : res go_error (list DependencyStatus) :=
  match deps with
  | [] => Ok []
  | dep :: rest =>
      let! s := check dep in
      let! l := check_all check rest in
      Ok (s :: l)
  end.

Definition msgOLMNotAvailable :=
  "OLM (Operator Lifecycle Manager) is not available in this cluster; cannot check operator dependencies".

Definition status_less (a b : DependencyStatus) : bool := string_less (ds_Name a) (ds_Name b).

(** Each goroutine writes its own slot of [results]; the outcome does not
    depend on their interleaving. [hasCR]: a controller-runtime client; [olm]:
    the v0 reader (nil is [None]) and its availability. *)
Definition CheckDependencies `{MO : MapOrder, SS : SortSlice} (disc : option Discovery) (hasCR : bool) (olm : option bool)
    (manifest : Manifest) : res go_error (list DependencyStatus) :=
  try! mode := DetectMode disc
    else (λ e, match e with
               | MErrUnavailable _ => EString msgOLMNotAvailable
               | MErrOther e => errorf_w "detect OLM API" e
               end) in
  if bool_decide (mode = ModeV1) && negb hasCR then Err (EString msgOLMNotAvailable)
  else if bool_decide (mode = ModeV0) && negb (default false olm) then Err (EString msgOLMNotAvailable)
  else
    let! results := check_all
      (match mode with
       | ModeV1 => checkSingleDependencyV1 (bool_decide (is_Some olm))
       | ModeV0 => checkSingleDependencyV0
       end) (GetDependencies manifest) in
    Ok (sort_slice status_less results).
End DepsCheck.

(** ** Lemmas *)
(** *** What the cluster shows of an operator

    Stated over the answers of the API server, not over the functions of the
    check. *)
Section Evidence.
Context `{AE : ApiErrors, KE : K8sErrors, JQ : GoJq, OC : OlmClient}.

(** A string field, the empty string when it is absent. *)
Definition reads_field (obj : json) (query s : string) : Prop :=
  jq_Query_string obj query = Ok s ∨ (s = "" ∧ ∃ e, jq_Query_string obj query = Err e ∧ errors_is JqErrNotFound e = true).

(** An extension asks for the package of the dependency in its namespace, or
    is readable and asks for something else. *)
Definition names_package (dep : DependencyInfo) (ext : json) : Prop :=
  (i_Namespace dep = "" ∨ reads_field ext ".spec.namespace" (i_Namespace dep)) ∧
  reads_field ext ".spec.source.sourceType" "Catalog" ∧ reads_field ext ".spec.source.catalog.packageName" (i_Subscription dep).
Definition other_package (dep : DependencyInfo) (ext : json) : Prop :=
  (∃ ns, reads_field ext ".spec.namespace" ns ∧ i_Namespace dep ≠ "" ∧ ns ≠ i_Namespace dep) ∨
  (∃ t, reads_field ext ".spec.source.sourceType" t ∧ t ≠ "Catalog") ∨
  (∃ p, reads_field ext ".spec.source.catalog.packageName" p ∧ p ≠ i_Subscription dep).

(** A condition that does not make the check give up. *)
Definition sound_condition (c : json) : Prop :=
  (∃ fields, c = JObj fields) ∧
  ¬ (field_is "type" "Progressing" c = true ∧ field_is "status" "False" c = true ∧ field_is "reason" "Blocked" c = true) ∧
  ¬ (field_is "type" "Installed" c = true ∧ field_is "status" "False" c = true ∧ string_field "reason" c = "Failed").
Definition succeeded_condition (c : json) : Prop := field_is "status" "True" c = true ∧ string_field "reason" c = "Succeeded".
(** The last Installed condition says whether the extension is installed. *)
Definition install_report (ext : json) (installed : bool) : Prop :=
  ∃ conditions, query_list ext ".status.conditions" "conditions" = Ok conditions ∧ Forall sound_condition conditions ∧
    (installed = true ↔ ∃ c, last (List.filter (field_is "type" "Installed") conditions) = Some c ∧ succeeded_condition c).
Definition passed_over (dep : DependencyInfo) (ext : json) : Prop :=
  other_package dep ext ∨ (names_package dep ext ∧ install_report ext false).
(** An extension one of whose fields or conditions cannot be used. *)
Definition unusable (dep : DependencyInfo) (ext : json) : Prop :=
  ∃ e, clusterExtensionMatches ext (i_Subscription dep) (i_Namespace dep) = Err e ∨
       (names_package dep ext ∧ clusterExtensionInstalled ext = Err e) ∨
       (names_package dep ext ∧ install_report ext true ∧ query_or_empty ext ".status.install.bundle.version" "version" = Err e).

(** The extensions of the cluster: one is installed in that version; none asks
    for the package; one asks but none is installed; or they cannot be used. *)
Definition ext_installed (dep : DependencyInfo) (v : string) : Prop :=
  ∃ pre ext post, olm_list_extensions = Ok (pre ++ ext :: post)%list ∧ Forall (passed_over dep) pre ∧
    names_package dep ext ∧ install_report ext true ∧ reads_field ext ".status.install.bundle.version" v.
Definition ext_none (dep : DependencyInfo) : Prop :=
  (∃ e, olm_list_extensions = Err e ∧ absent e = true) ∨ (∃ items, olm_list_extensions = Ok items ∧ Forall (other_package dep) items).
Definition ext_pending (dep : DependencyInfo) : Prop :=
  ∃ items, olm_list_extensions = Ok items ∧ Forall (passed_over dep) items ∧ Exists (names_package dep) items.
Definition ext_failed (dep : DependencyInfo) : Prop :=
  (∃ e, olm_list_extensions = Err e ∧ absent e = false) ∨
  (∃ pre ext post, olm_list_extensions = Ok (pre ++ ext :: post)%list ∧ Forall (passed_over dep) pre ∧ unusable dep ext).

(** The subscriptions of the namespace: one for the package, none, or they
    cannot be listed. *)
Definition sub_listed (dep : DependencyInfo) (sub : SubscriptionObj) : Prop :=
  ∃ items spec, olm_list_subs (i_Namespace dep) = Ok items ∧ sub ∈ items ∧ so_Spec sub = Some spec ∧ ss_Package spec = i_Subscription dep.
Definition subs_none (dep : DependencyInfo) : Prop :=
  (∃ e, olm_list_subs (i_Namespace dep) = Err e ∧ absent e = true) ∨
  (∃ items, olm_list_subs (i_Namespace dep) = Ok items ∧
     ∀ sub spec, sub ∈ items → so_Spec sub = Some spec → ss_Package spec ≠ i_Subscription dep).
Definition subs_unreadable (dep : DependencyInfo) : Prop := ∃ e, olm_list_subs (i_Namespace dep) = Err e ∧ absent e = false.

(** The subscription of that name. *)
Definition addressable (dep : DependencyInfo) : Prop := i_Namespace dep ≠ "" ∧ i_Subscription dep ≠ "".
Definition sub_answer (dep : DependencyInfo) : res go_error SubscriptionObj := olm_get_sub (i_Namespace dep) (i_Subscription dep).
Definition sub_present (dep : DependencyInfo) (sub : SubscriptionObj) : Prop := addressable dep ∧ sub_answer dep = Ok sub.
Definition sub_absent (dep : DependencyInfo) : Prop := ¬ addressable dep ∨ ∃ e, sub_answer dep = Err e ∧ IsNotFound e = true.
Definition sub_unreadable (dep : DependencyInfo) : Prop := addressable dep ∧ ∃ e, sub_answer dep = Err e ∧ IsNotFound e = false.

(** The version: that of the CSV the subscription names, else that of the
    first CSV that succeeded and belongs to it, else none; an error in place of
    the version when one of them cannot be read. *)
Definition named_version (dep : DependencyInfo) (sub : SubscriptionObj) (v : string) : Prop :=
  so_InstalledCSV sub ≠ "" ∧ i_Namespace dep ≠ "" ∧
  ∃ csv, olm_get_csv (i_Namespace dep) (so_InstalledCSV sub) = Ok csv ∧ cv_Version csv = v ∧ v ≠ "".
Definition found_version (dep : DependencyInfo) (v : string) : Prop :=
  ∃ items, olm_list_csvs (i_Namespace dep) = Ok items ∧
    ((∃ pre csv post, items = (pre ++ csv :: post)%list ∧ Forall (λ c, succeeded_match (i_Subscription dep) c = false) pre ∧
        succeeded_match (i_Subscription dep) csv = true ∧ v = cv_Version csv) ∨
     (Forall (λ c, succeeded_match (i_Subscription dep) c = false) items ∧ v = "")).
Definition version_unreadable (dep : DependencyInfo) (sub : SubscriptionObj) : Prop :=
  (∃ e, olm_get_csv (i_Namespace dep) (so_InstalledCSV sub) = Err e ∧ IsNotFound e = false) ∨
  (∃ e, olm_list_csvs (i_Namespace dep) = Err e).
Definition version_shown (dep : DependencyInfo) (sub : SubscriptionObj) (s : DependencyStatus) : Prop :=
  (ds_Error s = "" ∧ (named_version dep sub (ds_Version s) ∨ ((¬ ∃ v, named_version dep sub v) ∧ found_version dep (ds_Version s)))) ∨
  (version_unreadable dep sub ∧ ds_Version s = "").

Definition insists (dep : DependencyInfo) : Prop := i_Enabled dep ≠ enabledAuto ∧ i_Enabled dep ≠ "false".
Definition plain (s : DependencyStatus) : Prop := ds_Error s = "" ∧ ds_Version s = "".

(** The status is the state the cluster shows. *)
Definition shown_v0 (dep : DependencyInfo) (s : DependencyStatus) : Prop :=
  match ds_Status s with
  | StatusInstalled => ∃ sub, sub_present dep sub ∧ version_shown dep sub s
  | StatusPending => False
  | StatusMissing => sub_absent dep ∧ insists dep ∧ plain s
  | StatusOptional => sub_absent dep ∧ ¬ insists dep ∧ plain s
  | StatusUnknown => sub_unreadable dep ∧ ds_Version s = ""
  end.
Definition shown_v1 (hasOLM : bool) (dep : DependencyInfo) (s : DependencyStatus) : Prop :=
  let no_sub := hasOLM = false ∨ subs_none dep in
  match ds_Status s with
  | StatusInstalled =>
      (∃ v, ext_installed dep v ∧ ds_Version s = trim_prefix "v" v ∧ ds_Error s = "") ∨
      (hasOLM = true ∧ ∃ sub, sub_listed dep sub ∧ version_shown dep sub s)
  | StatusPending => ext_pending dep ∧ no_sub ∧ plain s
  | StatusMissing => ext_none dep ∧ no_sub ∧ insists dep ∧ plain s
  | StatusOptional => ext_none dep ∧ no_sub ∧ ¬ insists dep ∧ plain s
  | StatusUnknown => (ext_failed dep ∨ (hasOLM = true ∧ subs_unreadable dep)) ∧
                     (no_sub ∨ subs_unreadable dep) ∧ ds_Version s = ""
  end.
Definition status_shown (mode : Mode) (hasOLM : bool) (dep : DependencyInfo) (s : DependencyStatus) : Prop :=
  (ds_Name s = i_Name dep ∧ ds_DisplayName s = i_DisplayName dep ∧ ds_RequiredBy s = i_RequiredBy dep) ∧
  match mode with ModeV0 => shown_v0 dep s | ModeV1 => shown_v1 hasOLM dep s end.
End Evidence.

Section CheckLemmas.
Context `{AE : ApiErrors, KE : K8sErrors, JQ : GoJq, OC : OlmClient}.

Lemma query_or_empty_reads obj query what s : query_or_empty obj query what = Ok s → reads_field obj query s.
Proof.
  unfold query_or_empty, reads_field. destruct (jq_Query_string obj query) as [x|e|p]; [intros [= ->]; by left| |done].
  destruct (errors_is JqErrNotFound e) eqn:He; [|done]. intros [= <-]. right. split; [done|]. by exists e.
Qed.
Lemma matches_names dep ext :
  clusterExtensionMatches ext (i_Subscription dep) (i_Namespace dep) = Ok true → names_package dep ext.
Proof.
  unfold clusterExtensionMatches. intros H. apply res_bind_Ok_inv in H as (ns & Hns%query_or_empty_reads & H).
  destruct (String.eqb_spec (i_Namespace dep) "") as [Hd|Hd], (String.eqb_spec ns (i_Namespace dep)) as [Hn|Hn]; simpl in H; try done;
    apply res_bind_Ok_inv in H as (t & Ht%query_or_empty_reads & H); destruct (String.eqb_spec t "Catalog") as [->|]; simpl in H; try done;
    apply res_bind_Ok_inv in H as (p & Hp%query_or_empty_reads & [= Heq%String.eqb_eq]); subst p;
    (split; [|by split]); [by left..|]; right; by rewrite <-Hn.
Qed.
Lemma matches_other dep ext :
  clusterExtensionMatches ext (i_Subscription dep) (i_Namespace dep) = Ok false → other_package dep ext.
Proof.
  unfold clusterExtensionMatches. intros H. apply res_bind_Ok_inv in H as (ns & Hns%query_or_empty_reads & H).
  destruct (negb (String.eqb (i_Namespace dep) "") && negb (String.eqb ns (i_Namespace dep))) eqn:Hn.
  - apply andb_true_iff in Hn as [H1%negb_true_iff%String.eqb_neq H2%negb_true_iff%String.eqb_neq]. left. by exists ns.
  - apply res_bind_Ok_inv in H as (t & Ht%query_or_empty_reads & H). right. destruct (String.eqb_spec t "Catalog") as [->|Hne]; simpl in H.
    + apply res_bind_Ok_inv in H as (p & Hp%query_or_empty_reads & [= Heq%String.eqb_neq]). right. by exists p.
    + left. by exists t.
Qed.
Lemma conditions_loop_report name conditions installed r :
  conditions_loop name conditions installed = Ok r →
  Forall sound_condition conditions ∧
  r = match last (List.filter (field_is "type" "Installed") conditions) with
      | Some c => field_is "status" "True" c && String.eqb (string_field "reason" c) "Succeeded"
      | None => installed
      end.
Proof.
  revert installed. induction conditions as [|c conditions IH]; intros installed; [by intros [= <-]|].
  destruct c as [| | | | |fields]; try done. cbn [conditions_loop List.filter]. set (c := JObj fields).
  destruct (field_is "type" "Progressing" c && field_is "status" "False" c && field_is "reason" "Blocked" c) eqn:Hb; [done|].
  assert (¬ (field_is "type" "Progressing" c = true ∧ field_is "status" "False" c = true ∧ field_is "reason" "Blocked" c = true)) as Hb'
    by (intros (H1 & H2 & H3); by rewrite H1, H2, H3 in Hb).
  destruct (field_is "type" "Installed" c) eqn:Hi.
  - destruct (field_is "status" "False" c && String.eqb (string_field "reason" c) "Failed") eqn:Hf; [done|]. intros [Hs Hr]%IH. split.
    + constructor; [|done]. split; [by eexists|]. split; [done|]. intros (_ & H2 & H3). by rewrite H2, H3 in Hf.
    + rewrite last_cons. by destruct (last (List.filter _ conditions)).
  - intros [Hs Hr]%IH. split; [|done]. constructor; [|done]. split; [by eexists|]. split; [done|]. intros (H1 & _). congruence.
Qed.
Lemma installed_report ext b : clusterExtensionInstalled ext = Ok b → install_report ext b.
Proof.
  unfold clusterExtensionInstalled. intros H. apply res_bind_Ok_inv in H as (conditions & Hq & H). apply conditions_loop_report in H as [Hs Hr].
  exists conditions. split; [done|]. split; [done|]. subst b. unfold succeeded_condition. destruct (last _) as [c|].
  - rewrite andb_true_iff, String.eqb_eq. naive_solver.
  - split; [done|]. by intros (c & ? & _).
Qed.

(** The loop over the extensions, from a state in which [pre] is behind. *)
Lemma extensions_loop_shown dep items : ∀ pre st st' err,
  olm_list_extensions = Ok (pre ++ items)%list → Forall (passed_over dep) pre → es_installed st = false →
  (es_requested st = true → Exists (names_package dep) pre) → (es_requested st = false → Forall (other_package dep) pre) →
  extensions_loop (i_Subscription dep) (i_Namespace dep) items st = Ok (st', err) →
  match err with
  | Some _ => ext_failed dep ∧ es_installed st' = false
  | None => if es_installed st' then ext_installed dep (es_version st')
            else if es_requested st' then ext_pending dep else ext_none dep
  end.
Proof.
  induction items as [|ext items IH]; intros pre st st' err Hl Hpre Hi Hreq Hnone.
  { intros [= <- <-]. rewrite app_nil_r in Hl. rewrite Hi. destruct (es_requested st); [|right]; exists pre; auto. }
  cbn [extensions_loop]. assert (olm_list_extensions = Ok ((pre ++ [ext]) ++ items)%list) as Hl' by (by rewrite <-(assoc_L (++)%list)).
  assert (unusable dep ext → ext_failed dep) as Hbad by (intros Hu; right; by exists pre, ext, items).
  destruct (clusterExtensionMatches ext _ _) as [[]|e|p] eqn:Hm; [..|done].
  - pose proof (matches_names _ _ Hm) as Hn. destruct (clusterExtensionInstalled ext) as [[]|e|p] eqn:Hins; [..|done].
    + pose proof (installed_report _ _ Hins) as Hrep. destruct (query_or_empty ext _ _) as [v|e|p] eqn:Hv; [..|done]; intros [= <- <-]; cbn.
      * exists pre, ext, items. apply query_or_empty_reads in Hv. by split_and!.
      * split; [|done]. apply Hbad. exists e. auto.
    + pose proof (installed_report _ _ Hins) as Hrep. apply (IH (pre ++ [ext])%list); [done| |done| |done].
      * apply Forall_app. split; [done|]. constructor; [by right|done].
      * intros _. apply Exists_app. right. by constructor.
    + intros [= <- <-]. split; [|done]. apply Hbad. exists e. auto.
  - pose proof (matches_other _ _ Hm) as Ho. apply (IH (pre ++ [ext])%list); [done| |done| |].
    + apply Forall_app. split; [done|]. constructor; [by left|done].
    + intros H. apply Exists_app. left. auto.
    + intros H. apply Forall_app. split; [auto|]. by constructor.
  - intros [= <- <-]. split; [|done]. apply Hbad. exists e. auto.
Qed.
Lemma extension_state_shown dep st err :
  findClusterExtensionInstallState (i_Subscription dep) (i_Namespace dep) = Ok (st, err) →
  match err with
  | Some _ => ext_failed dep ∧ es_installed st = false
  | None => if es_installed st then ext_installed dep (es_version st) else if es_requested st then ext_pending dep else ext_none dep
  end.
Proof.
  unfold findClusterExtensionInstallState. destruct olm_list_extensions as [items|e|p] eqn:Hl; [|destruct (absent e) eqn:Ha; intros [= <- <-]|done].
  - apply (extensions_loop_shown dep items []); done || by constructor.
  - left. by exists e.
  - split; [|done]. left. by exists e.
Qed.
Lemma requested_sub_shown dep :
  match requestedV0Subscription (i_Subscription dep) (i_Namespace dep) with
  | Ok (Some sub) => sub_listed dep sub
  | Ok None => subs_none dep
  | Err _ => subs_unreadable dep
  | Panic _ => True
  end.
Proof.
  unfold requestedV0Subscription. destruct (olm_list_subs (i_Namespace dep)) as [items|e|p] eqn:Hl; [|destruct (absent e) eqn:Ha|done].
  - destruct (find _ items) as [sub|] eqn:Hf.
    + apply find_some in Hf as [Hin Hp]. apply list_elem_of_In in Hin. destruct (so_Spec sub) as [spec|] eqn:Hs; [|done].
      exists items, spec. split_and!; [done..|]. by apply String.eqb_eq.
    + right. exists items. split; [done|]. intros sub spec Hin Hs Heq. apply list_elem_of_In in Hin.
      pose proof (find_none _ _ Hf _ Hin) as Hn. cbv beta in Hn. by rewrite Hs, Heq, String.eqb_refl in Hn.
  - left. by exists e.
  - by exists e.
Qed.

Lemma getCSV_cases dep name :
  match getCSV (i_Namespace dep) name with
  | Ok (Some csv) => name ≠ "" ∧ i_Namespace dep ≠ "" ∧ olm_get_csv (i_Namespace dep) name = Ok csv
  | Ok None => i_Namespace dep = "" ∨ name = "" ∨ ∃ e, olm_get_csv (i_Namespace dep) name = Err e ∧ IsNotFound e = true
  | Err _ => ∃ e, olm_get_csv (i_Namespace dep) name = Err e ∧ IsNotFound e = false
  | Panic _ => True
  end.
Proof.
  unfold getCSV. destruct (String.eqb_spec (i_Namespace dep) "") as [->|Hns]; [by left|]. destruct (String.eqb_spec name "") as [->|Hn]; simpl; [by right; left|].
  destruct (olm_get_csv _ _) as [csv|e|p] eqn:Hg; [done| |done]. destruct (IsNotFound e) eqn:Hnf; [right; right|]; by exists e.
Qed.
Lemma version_from_csv_shown dep sub :
  match getVersionFromCSV (i_Namespace dep) (so_InstalledCSV sub) with
  | Ok v => if String.eqb v "" then ¬ (∃ w, named_version dep sub w) else named_version dep sub v
  | Err _ => version_unreadable dep sub
  | Panic _ => True
  end.
Proof.
  unfold getVersionFromCSV. destruct (String.eqb_spec (so_InstalledCSV sub) "") as [Hc|Hc]; [simpl; by intros (w & ? & _)|].
  pose proof (getCSV_cases dep (so_InstalledCSV sub)) as H. destruct (getCSV _ _) as [[csv|]|e|p]; cbn [res_bind]; [..|left; by destruct H as (e' & ?); exists e'|done].
  - destruct H as (H1 & H2 & H3). destruct (String.eqb_spec (cv_Version csv) "") as [Hv|Hv].
    + intros (w & _ & _ & csv' & Hg & <- & Hw). congruence.
    + split_and!; [done..|]. by exists csv.
  - simpl. intros (w & _ & Hns & csv & Hg & _). destruct H as [?|[?|(e & He & _)]]; congruence.
Qed.
Lemma matching_version_shown dep sub :
  match findMatchingCSVVersion (i_Namespace dep) (i_Subscription dep) with
  | Ok v => found_version dep v
  | Err _ => version_unreadable dep sub
  | Panic _ => True
  end.
Proof.
  unfold findMatchingCSVVersion. destruct (olm_list_csvs (i_Namespace dep)) as [items|e|p] eqn:Hl; cbn [res_bind res_map_err]; [|right; by exists e|done].
  exists items. split; [done|]. clear Hl. induction items as [|csv items IH]; cbn [find]; [by right|].
  destruct (succeeded_match (i_Subscription dep) csv) eqn:Hm; [left; exists [], csv, items; by split_and!|].
  destruct IH as [(pre & csv' & post & -> & Hpre & Hm' & Hv)|[Hall Hv]]; [left; exists (csv :: pre), csv', post|right]; split_and!; try done; by constructor.
Qed.
Lemma v0SubscriptionStatus_shown dep sub s :
  v0SubscriptionStatus dep (initial_status dep) sub = Ok s →
  (ds_Name s = i_Name dep ∧ ds_DisplayName s = i_DisplayName dep ∧ ds_RequiredBy s = i_RequiredBy dep) ∧
  ds_Status s = StatusInstalled ∧ version_shown dep sub s.
Proof.
  unfold v0SubscriptionStatus, version_shown. pose proof (version_from_csv_shown dep sub) as Hn. pose proof (matching_version_shown dep sub) as Hf.
  destruct (getVersionFromCSV _ _) as [v|e|p]; [destruct (String.eqb v "")|..]; [destruct (findMatchingCSVVersion _ _) as [w|e|p]|..];
    intros [= <-]; (split; [done|]); (split; [done|]); cbn; auto.
Qed.
Lemma absent_status_insists dep :
  match absent_status dep with StatusMissing => insists dep | StatusOptional => ¬ insists dep | _ => False end.
Proof.
  unfold absent_status, insists. destruct (String.eqb_spec (i_Enabled dep) enabledAuto), (String.eqb_spec (i_Enabled dep) "false"); simpl; tauto.
Qed.

Lemma checkSingleDependencyV0_shown hasOLM dep s : checkSingleDependencyV0 dep = Ok s → status_shown ModeV0 hasOLM dep s.
Proof.
  unfold checkSingleDependencyV0, getSubscription, status_shown, shown_v0, sub_present, sub_absent, sub_unreadable, addressable, sub_answer.
  pose proof (absent_status_insists dep) as Hab.
  destruct (String.eqb_spec (i_Namespace dep) ""), (String.eqb_spec (i_Subscription dep) ""); simpl;
    [by (intros [= <-]; split; [done|]; cbn; destruct (absent_status dep); try done; split_and!; try done; left; naive_solver)..|].
  destruct (olm_get_sub _ _) as [sub|e|p] eqn:Hg; [| |done].
  - intros (Hid & Hst & Hv)%v0SubscriptionStatus_shown. split; [done|]. rewrite Hst. by exists sub.
  - destruct (IsNotFound e) eqn:Hnf; intros [= <-]; (split; [done|]); cbn.
    + destruct (absent_status dep); try done; split_and!; try done; right; by exists e.
    + split; [|done]. split; [done|]. by exists e.
Qed.
Lemma checkSingleDependencyV1_shown hasOLM dep s : checkSingleDependencyV1 hasOLM dep = Ok s → status_shown ModeV1 hasOLM dep s.
Proof.
  unfold checkSingleDependencyV1. destruct (findClusterExtensionInstallState _ _) as [[st err]| |] eqn:Hst; [|done..].
  apply extension_state_shown in Hst. destruct (es_installed st) eqn:Hi.
  { intros [= <-]. split; [done|]. destruct err as [e|]; [by destruct Hst|]. left. by exists (es_version st). }
  pose proof (requested_sub_shown dep) as Hsub. pose proof (absent_status_insists dep) as Hab.
  assert (∀ v0err, (v0err = None → hasOLM = false ∨ subs_none dep) → (is_Some v0err → hasOLM = true ∧ subs_unreadable dep) →
    match errors_join err v0err with
    | Some e => Ok (set_status (initial_status dep) StatusUnknown "" (error_string e))
    | None => if es_requested st then Ok (set_status (initial_status dep) StatusPending "" "")
              else Ok (set_status (initial_status dep) (absent_status dep) "" "")
    end = Ok (E := go_error) s → status_shown ModeV1 hasOLM dep s) as Hrest.
  { intros v0err Hnone Hsome. destruct err as [e|], v0err as [e0|]; cbn [errors_join]; try (intros [= <-]; split; [done|]; cbn); [..|].
    - destruct (Hsome ltac:(by eexists)) as [Ho Hu]. split_and!; [by left; apply Hst|by right|done].
    - split_and!; [by left; apply Hst|left; by apply Hnone|done].
    - destruct (Hsome ltac:(by eexists)) as [Ho Hu]. split_and!; [by right|by right|done].
    - specialize (Hnone eq_refl). destruct (es_requested st); intros [= <-]; (split; [done|]); cbn; [by split_and!|].
      destruct (absent_status dep); try done; by split_and!. }
  destruct hasOLM; [|by apply (Hrest None); [left|intros [? ?]]].
  destruct (requestedV0Subscription _ _) as [[sub|]|e|p]; [| |by apply (Hrest (Some e))|done].
  - intros (Hid & Hs & Hv)%v0SubscriptionStatus_shown. split; [done|]. unfold shown_v1. rewrite Hs. right. split; [done|]. by exists sub.
  - apply (Hrest None); [by right|by intros [? ?]].
Qed.

Lemma check_all_shown check (P : DependencyInfo → DependencyStatus → Prop) deps l :
  (∀ dep s, check dep = Ok s → P dep s) → check_all check deps = Ok l → Forall2 P deps l.
Proof.
  intros Hc. revert l. induction deps as [|dep deps IH]; intros l; simpl; [intros [= <-]; constructor|].
  intros H. apply res_bind_Ok_inv in H as (s & Hs & H). apply res_bind_Ok_inv in H as (l' & Hl & [= <-]).
  constructor; [by apply Hc|by apply IH].
Qed.

(** Sorting what is sorted by a key already, without ties, changes nothing. *)
Lemma sort_slice_noop `{SS : SortSlice} {A} (key : A → string) l :
  StronglySorted String.le (map key l) → NoDup (map key l) →
  sort_slice (λ a b, string_less (key a) (key b)) l = l.
Proof.
  intros Hs Hn. apply (StronglySorted_unique_strong (λ x y, string_less (key y) (key x) = false)).
  - intros x y Hx Hy H1 H2. rewrite sort_slice_perm in Hx.
    rewrite string_less_false in H1, H2. assert (key x = key y) as Hk by by apply (anti_symm String.le).
    apply list_elem_of_lookup in Hx as [i Hi]. apply list_elem_of_lookup in Hy as [j Hj].
    assert (i = j) as ->; [|congruence].
    apply (NoDup_lookup (map key l) i j (key x)); [done|by apply (list_lookup_fmap_Some_2 key l i x)|].
    rewrite Hk. by apply (list_lookup_fmap_Some_2 key l j y).
  - apply sort_slice_sorted, (StrictWeak_key key), string_less_strict.
  - clear Hn. induction l as [|x l IH]; [constructor|]. simpl in Hs. apply StronglySorted_inv in Hs as [Hs Hx].
    constructor; [by apply IH|]. rewrite List.Forall_map in Hx. eapply Forall_impl; [exact Hx|].
    intros y. apply string_less_false.
  - apply sort_slice_perm.
Qed.

Lemma Forall2_names mode hasOLM deps l : Forall2 (status_shown mode hasOLM) deps l → map ds_Name l = map i_Name deps.
Proof. induction 1 as [|dep s deps l [(Hn & _) _] _ IH]; simpl; [done|]. by rewrite Hn, IH. Qed.
End CheckLemmas.

(** ** Concrete clusters *)
Module DepsCheckRun.
Definition disc (v1 v0 : bool) : Discovery := λ gv,
  if String.eqb gv olmV1GroupVersion then ((if v1 then Some [olmV1Resource] else None), None)
  else ((if v0 then Some [olmV0Resource] else None), None).
#[export] Instance client : OlmClient := {|
  olm_get_sub ns name := if String.eqb name "cert-manager"
    then Ok (mkSubObj name (Some (mkSubSpec name "stable" "redhat-operators")) "cert-manager.v1.2.0" [])
    else Err (EForeign 2 "not found");
  olm_list_subs _ := Ok [];
  olm_get_csv ns name := Ok (mkCSVObj name CSVPhaseSucceeded "1.2.0" "");
  olm_list_csvs _ := Ok [];
  olm_list_extensions := Ok [];
  ClusterExtensionInstallsPackage _ _ := (false, None) |}.
End DepsCheckRun.
Import (hints) ClientRun VersionRun DepsCheckRun.

(** ** Properties *)
Module DepsCheckSpec.
(** Which API is used: the install mode never falls back silently from a
    requested API and prefers v0 when both are served, while the status check
    prefers v1; both report unavailability exactly when neither is served. *)
Theorem mode_choice `{AE : ApiErrors, KE : K8sErrors} (disc : Discovery) (a1 a0 : bool) :
  resourceAvailable disc olmV1GroupVersion olmV1Resource = Ok a1 →
  resourceAvailable disc olmV0GroupVersion olmV0Resource = Ok a0 →
  ResolveInstallMode (Some disc) (Some ModeV1) = (if a1 then Ok ModeV1 else Err (notServed ModeV1)) ∧
  ResolveInstallMode (Some disc) (Some ModeV0) = (if a0 then Ok ModeV0 else Err (notServed ModeV0)) ∧
  ResolveInstallMode (Some disc) None =
    (if a0 then Ok ModeV0 else if a1 then Ok ModeV1 else Err (MErrUnavailable unavailable_msg)) ∧
  DetectMode (Some disc) =
    (if a1 then Ok ModeV1 else if a0 then Ok ModeV0 else Err (MErrUnavailable unavailable_msg)).
Proof.
  intros H1 H0. unfold ResolveInstallMode, DetectMode. rewrite H1, H0.
  by destruct a1, a0.
Qed.

Lemma mode_choice_witness :
  let d := DepsCheckRun.disc true true in
  ResolveInstallMode (Some d) None = Ok ModeV0 ∧ DetectMode (Some d) = Ok ModeV1.
Proof.
  intros d. destruct (mode_choice d true true) as (_ & _ & H1 & H2); [reflexivity|reflexivity|].
  split; [exact H1|exact H2].
Defined.

(** C35: The status report covers the manifest and is what the cluster shows:
    when it is produced, it has one entry per dependency, in name order, and
    the status of each follows from the answers of the API server under the
    API in use.  Installed means that an extension of the package reports so
    or that its subscription is there, with the version of the extension or of
    the CSV; pending, that an extension asks for the package and reports
    otherwise; missing and optional, that nothing asks for it, by whether the
    manifest insists; unknown, that the answers do not tell. *)
Theorem CheckDependencies_report `{AE : ApiErrors, KE : K8sErrors, JQ : GoJq, OC : OlmClient, MO : MapOrder, SS : SortSlice}
    disc hasCR olm (m : Manifest) l :
  CheckDependencies disc hasCR olm m = Ok l →
  map ds_Name l = map i_Name (GetDependencies m) ∧
  (∀ name, name ∈ map ds_Name l ↔ is_Some (m_Dependencies m !! name)) ∧
  ∃ mode, DetectMode disc = Ok mode ∧ (if mode is ModeV1 then hasCR = true else olm = Some true) ∧
    Forall2 (status_shown mode (bool_decide (is_Some olm))) (GetDependencies m) l.
Proof.
  intros H. unfold CheckDependencies in H. apply res_bind_Ok_inv in H as (mode & Hmode & H).
  destruct (bool_decide (mode = ModeV1) && negb hasCR) eqn:Hv1; [done|].
  destruct (bool_decide (mode = ModeV0) && negb (default false olm)) eqn:Hv0; [done|].
  apply res_bind_Ok_inv in H as (results & Hall & [= <-]).
  assert (Forall2 (status_shown mode (bool_decide (is_Some olm))) (GetDependencies m) results) as Hok.
  { eapply check_all_shown; [|exact Hall]. intros dep s. destruct mode; [apply checkSingleDependencyV1_shown|apply checkSingleDependencyV0_shown]. }
  pose proof (Forall2_names _ _ _ _ Hok) as Hnames. destruct (GetDependencies_names m) as (_ & Hs & Hd & Hn).
  assert (sort_slice status_less results = results) as -> by (apply (sort_slice_noop ds_Name); rewrite Hnames; done).
  split; [done|]. split; [intros name; by rewrite Hnames|]. exists mode. split; [by destruct (DetectMode disc); simplify_eq/=|].
  split; [|exact Hok]. destruct mode; [by destruct hasCR|by destruct olm as [[]|]].
Qed.

Lemma CheckDependencies_report_witness :
  ∃ l, CheckDependencies (Some (DepsCheckRun.disc false true)) false (Some true) DepsRun.manifest = Ok l ∧
    map ds_Name l = ["authorino"; "certManager"; "rhcl"] ∧
    map ds_Status l = [StatusOptional; StatusInstalled; StatusOptional].
Proof.
  eexists. split; [vm_compute; reflexivity|].
  match goal with |- map ds_Name ?l = _ ∧ _ =>
    pose proof (CheckDependencies_report (Some (DepsCheckRun.disc false true)) false (Some true) DepsRun.manifest l) as H end.
  destruct H as (H1 & _); [vm_compute; reflexivity|].
  split; [rewrite H1; vm_compute; reflexivity|vm_compute; reflexivity].
Defined.
End DepsCheckSpec.
