(* ===== verification/DepsInstall.v ===== *)
(** * DepsInstall: pkg/deps/install.go

    Installing dependencies: which ones are selected and still missing, the
    resources created for them under either OLM API, and the polling for the
    operators.  The cluster is a world [W] that the requests of [InstallApi]
    read and change; what the controllers do while the command polls is a
    timeline of worlds.  Progress messages are not modelled. *)
From S2P Require Import Prelude Errors Client Version Result Deps DepsCheck.
Open Scope string_scope.
Open Scope Z_scope.
Open Scope go_scope.

Definition defaultCatalogSource := "redhat-operators".
Definition defaultServiceAccount := "odh-cli-dependency-installer".
Definition sourceNamespace := "openshift-marketplace".
Definition labelManagedBy := "app.kubernetes.io/managed-by".
Definition labelManagedByValue := "odh-cli".
Definition csvNamespaceListEveryNPolls : nat := 3.
Definition msgOLMNotAvailableInst :=
  "OLM (Operator Lifecycle Manager) is not available; cannot install dependencies".

Inductive InstallStatus := InstallStatusNone | InstallStatusInstalled | InstallStatusFailed.
#[export] Instance InstallStatus_eq_dec : EqDecision InstallStatus.
Proof. solve_decision. Defined.

Record InstallResult := mkInstallResult {
  ir_Name : string;
  ir_DisplayName : string;
  ir_Status : InstallStatus;
  ir_Version : string;
  ir_Error : option go_error;
}.

(** A nil slice of target dependencies is [None]. *)
Record InstallCommand := mkInstall {
  ic_DryRun : bool;
  ic_IncludeOptional : bool;
  ic_Timeout : Z;
  ic_TargetDep : string;
  ic_TargetDeps : option (list string);
  ic_Version : string;
  ic_Refresh : bool;
  ic_FromStdin : bool;
  ic_ServiceAccount : string;
  ic_OLMMode : string;
  ic_selectedOLMMode : option Mode;
  ic_manifestVersion : string;
}.

(** ** The requests

    A create request answers with an error or none. *)
Record NewSubscription := mkNewSub {
  ns_Name : string;
  ns_Labels : list (string * string);
  ns_Channel : string;
  ns_Package : string;
  ns_CatalogSource : string;
  ns_CatalogSourceNamespace : string;
  ns_Approval : string;
}.

Class InstallApi (W : Type) := {
  api_olm : W → OlmClient;
  api_create_namespace : string → W → option go_error * W;
  api_list_operatorgroups : string → W → res go_error (list json);
  (** namespace, name, target namespaces *)
  api_create_operatorgroup : string → string → list string → W → option go_error * W;
  api_create_subscription : string → NewSubscription → W → option go_error * W;
  api_create_extension : json → W → option go_error * W;
  api_get_extension : string → W → res go_error json;
  (** namespace, name *)
  api_get_serviceaccount : string → string → W → option go_error;
}.

(** ** Helpers *)
Definition catalog_source (dep : DependencyInfo) : string :=
  if String.eqb (i_Source dep) "" then defaultCatalogSource else i_Source dep.

Definition serviceAccountName (c : InstallCommand) : string :=
  if negb (String.eqb (ic_ServiceAccount c) "") then ic_ServiceAccount c else defaultServiceAccount.

(** The count map of [slicesEqualUnordered]: an absent key counts 0. *)
Definition count_of (counts : gmap string Z) (v : string) : Z := default 0 (counts !! v).

Fixpoint consume (counts : gmap string Z) (b : list string) : bool :=
  match b with
  | [] => true
  | v :: rest =>
      let n := count_of counts v - 1 in
      if n <? 0 then false else consume (<[v := n]> counts) rest
  end.

Definition slicesEqualUnordered (a b : list string) : bool :=
  if negb (length a =? length b)%nat then false
  else consume (foldl (λ counts v, <[v := count_of counts v + 1]> counts) ∅ a) b.

Definition clusterCatalogName (source : string) : string :=
  if String.eqb source "redhat-operators" || String.eqb source "community-operators" ||
     String.eqb source "certified-operators" || String.eqb source "redhat-marketplace"
  then "openshift-" +:+ source else source.

(** ** Selection *)
Definition shouldInstallDep (c : InstallCommand) (dep : DependencyInfo) : bool :=
  match ic_TargetDeps c with
  | Some targets => existsb (String.eqb (i_Name dep)) targets
  | None =>
      if String.eqb (i_Enabled dep) enabledTrue then true
      else String.eqb (i_Enabled dep) enabledAuto && ic_IncludeOptional c
  end.

Definition filterDepsForDryRun (c : InstallCommand) (deps : list DependencyInfo) : list DependencyInfo :=
  List.filter (shouldInstallDep c) deps.

Definition isValidDependency (deps : list DependencyInfo) (name : string) : bool :=
  existsb (λ d, String.eqb (i_Name d) name) deps.

Section Install.
Context `{AE : ApiErrors, KE : K8sErrors, JQ : GoJq} {W : Type} `{API : !InstallApi W}.
(** whether the client has a controller-runtime reader *)
Context (hasCR : bool).

Definition hasSucceededCSV (namespace subName : string) (w : W) : res go_error bool :=
  match olm_list_csvs (OlmClient := api_olm w) namespace with
  | Panic s => Panic s
  | Err e => if IsNoMatchError e then Ok false else Err (errorf_w ("list CSVs in " +:+ namespace) e)
  | Ok items => Ok (existsb (succeeded_match subName) items)
  end.

(** [sub.Spec] is a pointer. *)
Definition warnIfSubscriptionMismatch (sub : SubscriptionObj) : res go_error () :=
  match so_Spec sub with
  | None => Panic "invalid memory address or nil pointer dereference"
  | Some _ => Ok ()
  end.

Definition isAlreadyInstalledV1 (dep : DependencyInfo) (w : W) : res go_error bool :=
  let OC := api_olm w in
  let '(requested, extensionErr) := requestedClusterExtension (i_Subscription dep) (i_Namespace dep) in
  if (requested : bool) then Ok true
  else
    let finish v0Err :=
      match errors_join extensionErr v0Err with
      | Some err => Err (errorf_w ("check if " +:+ i_Name dep +:+ " is requested") err)
      | None => Ok false
      end in
    match requestedV0Subscription (i_Subscription dep) (i_Namespace dep) with
    | Panic s => Panic s
    | Ok (Some _) => Ok true
    | Ok None => finish None
    | Err e => finish (Some e)
    end.

Definition isAlreadyInstalledV0 (dep : DependencyInfo) (w : W) : res go_error bool :=
  let OC := api_olm w in
  try! sub := getSubscription (i_Namespace dep) (i_Subscription dep)
    else errorf_w ("check if " +:+ i_Name dep +:+ " is installed") in
  match sub with
  | Some sub => let! _u := warnIfSubscriptionMismatch sub in Ok true
  | None =>
      let! installed := hasSucceededCSV (i_Namespace dep) (i_Subscription dep) w in
      if (installed : bool) then Ok true
      else if negb hasCR then Ok false
      else
        let '(requested, err) := requestedClusterExtension (i_Subscription dep) (i_Namespace dep) in
        if (requested : bool) then Ok true
        else match err with
             | None => Ok false
             | Some e =>
                 if IsForbidden e then Ok false
                 else Err (errorf_w ("check if " +:+ i_Name dep +:+ " has an OLM v1 request") e)
             end
  end.

Definition isAlreadyInstalled (c : InstallCommand) (dep : DependencyInfo) (w : W) : res go_error bool :=
  if decide (ic_selectedOLMMode c = Some ModeV1) then isAlreadyInstalledV1 dep w else isAlreadyInstalledV0 dep w.

(** The answers, unless one of the concurrent checks failed: then the error of
    the first that finished with one; a panic ends the process. *)
Definition is_panic {A} (r : res go_error A) : bool := match r with Panic _ => true | _ => false end.
Definition is_err {A} (r : res go_error A) : bool := match r with Err _ => true | _ => false end.

Definition errgroup_Wait `{Schedule} {A} (answers : list (res go_error A)) : res go_error () :=
  match find is_panic answers with
  | Some (Panic s) => Panic s
  | _ =>
      match find is_err (finish_order answers) with
      | Some (Err e) => Err e
      | _ => Ok ()
      end
  end.

Definition not_installed (c : InstallCommand) (w : W) (dep : DependencyInfo) : bool :=
  match isAlreadyInstalled c dep w with Ok installed => negb installed | _ => false end.

Definition filterDepsToInstall `{Schedule} (c : InstallCommand) (deps : list DependencyInfo) (w : W)
    : res go_error (list DependencyInfo) :=
  let selected := List.filter (shouldInstallDep c) deps in
  try! _u := errgroup_Wait (map (λ dep, isAlreadyInstalled c dep w) selected)
    else errorf_w "check installed operator requests" in
  Ok (List.filter (not_installed c w) selected).

(** ** Creating the resources *)
Definition createNamespace (name : string) (w : W) : res go_error () * W :=
  let '(err, w') := api_create_namespace name w in
  (match err with
   | Some e => if IsAlreadyExists e then Ok () else Err (errorf_w ("create namespace " +:+ name) e)
   | None => Ok ()
   end, w').

(** [unstructured.NestedStringSlice], whose errors are ignored. *)
Definition as_string (v : json) : option string := match v with JStr s => Some s | _ => None end.
Definition string_slice (v : option json) : list string :=
  match v with Some (JArr l) => default [] (mapM as_string l) | _ => [] end.

(** [fmt.Sprintf("%v", slice)] *)
Definition show_slice (l : list string) : string := "[" +:+ join " " l +:+ "]".

Definition ensureOperatorGroup (namespace : string) (targetNamespaces : list string) (w : W) : res go_error bool * W :=
  match api_list_operatorgroups namespace w with
  | Panic s => (Panic s, w)
  | Err e => (Err (errorf_w "list operatorgroups" e), w)
  | Ok (existing :: _) =>
      let existingTargets := string_slice (nested ["spec"; "targetNamespaces"] existing) in
      if negb (slicesEqualUnordered existingTargets targetNamespaces) then
        (Err (EString ("operatorgroup " +:+ namespace +:+ "/" +:+ GetName existing +:+ " exists with targetNamespaces " +:+
           show_slice existingTargets +:+ ", but requested " +:+ show_slice targetNamespaces)), w)
      else (Ok false, w)
  | Ok [] =>
      let '(err, w') := api_create_operatorgroup namespace (namespace +:+ "-og") targetNamespaces w in
      (match err with
       | Some e => if IsAlreadyExists e then Ok false else Err (errorf_w "create operatorgroup" e)
       | None => Ok true
       end, w')
  end.

Definition verifyExistingSubscription (dep : DependencyInfo) (w : W) : res go_error () :=
  try! existing := olm_get_sub (OlmClient := api_olm w) (i_Namespace dep) (i_Subscription dep)
    else errorf_w "get existing subscription" in
  warnIfSubscriptionMismatch existing.

Definition new_subscription (dep : DependencyInfo) : NewSubscription :=
  {| ns_Name := i_Subscription dep; ns_Labels := [(labelManagedBy, labelManagedByValue)]; ns_Channel := i_Channel dep;
     ns_Package := i_Subscription dep; ns_CatalogSource := catalog_source dep;
     ns_CatalogSourceNamespace := sourceNamespace; ns_Approval := "Automatic" |}.

Definition createSubscription (dep : DependencyInfo) (w : W) : res go_error () * W :=
  let '(err, w') := api_create_subscription (i_Namespace dep) (new_subscription dep) w in
  (match err with
   | None => Ok ()
   | Some e => if IsAlreadyExists e then verifyExistingSubscription dep w' else Err (errorf_w "create subscription" e)
   end, w').

Definition ClusterExtensionType : ResourceType :=
  mkResourceType "olm.operatorframework.io" "v1" "ClusterExtension" "clusterextensions".

Definition clusterExtension (c : InstallCommand) (dep : DependencyInfo) : res go_error json :=
  if (1 <? length (i_TargetNamespaces dep))%nat then
    Err (EString ("dependency " +:+ quote (i_Name dep) +:+ " has " +:+ itoa (Z.of_nat (length (i_TargetNamespaces dep))) +:+
      " target namespaces; OLM v1 supports only one watch namespace"))
  else
    let catalogName := clusterCatalogName (catalog_source dep) in
    let catalog :=
      ([("packageName", JStr (i_Subscription dep));
        ("selector", JObj [("matchLabels", JObj [("olm.operatorframework.io/metadata.name", JStr catalogName)])])] ++
       (if negb (String.eqb (i_Channel dep) "") then [("channels", JArr [JStr (i_Channel dep)])] else []))%list in
    let spec :=
      ([("namespace", JStr (i_Namespace dep));
        ("serviceAccount", JObj [("name", JStr (serviceAccountName c))]);
        ("source", JObj [("sourceType", JStr "Catalog"); ("catalog", JObj catalog)])] ++
       match i_TargetNamespaces dep with
       | [watch] => [("config", JObj [("configType", JStr "Inline"); ("inline", JObj [("watchNamespace", JStr watch)])])]
       | _ => []
       end)%list in
    Ok (JObj [("apiVersion", JStr (APIVersion ClusterExtensionType)); ("kind", JStr (rt_Kind ClusterExtensionType));
              ("metadata", JObj [("name", JStr (i_Subscription dep)); ("labels", JObj [(labelManagedBy, JStr labelManagedByValue)])]);
              ("spec", JObj spec)]).

(** The mismatches of channel, source and service account are only warned about. *)
Definition verifyExistingClusterExtension (dep : DependencyInfo) (w : W) : res go_error () :=
  try! existing := api_get_extension (i_Subscription dep) w else errorf_w "get existing ClusterExtension" in
  try! namespace := jq_Query_string existing ".spec.namespace" else errorf_w "query existing ClusterExtension namespace" in
  try! packageName := jq_Query_string existing ".spec.source.catalog.packageName"
    else errorf_w "query existing ClusterExtension package" in
  if negb (String.eqb namespace (i_Namespace dep)) || negb (String.eqb packageName (i_Subscription dep)) then
    Err (EString ("ClusterExtension " +:+ i_Subscription dep +:+ " requests package " +:+ quote packageName +:+
      " in namespace " +:+ quote namespace +:+ ", expected package " +:+ quote (i_Subscription dep) +:+
      " in namespace " +:+ quote (i_Namespace dep)))
  else Ok ().

Definition createClusterExtension (dep : DependencyInfo) (extension : json) (w : W) : res go_error () * W :=
  let '(err, w') := api_create_extension extension w in
  (match err with
   | None => Ok ()
   | Some e =>
       if IsAlreadyExists e then verifyExistingClusterExtension dep w' else Err (errorf_w "create ClusterExtension" e)
   end, w').

(** Sequencing of two requests: the second only after the first succeeded. *)
Definition and_then {A B} (r : res go_error A * W) (k : A → W → res go_error B * W) : res go_error B * W :=
  match r with
  | (Ok a, w') => k a w'
  | (Err e, w') => (Err e, w')
  | (Panic s, w') => (Panic s, w')
  end.

Definition createDepResourcesV0 (dep : DependencyInfo) (w : W) : res go_error () * W :=
  and_then (createNamespace (i_Namespace dep) w) (λ _ w,
  and_then (ensureOperatorGroup (i_Namespace dep) (i_TargetNamespaces dep) w) (λ _ w,
  createSubscription dep w)).

Definition createDepResourcesV1 (c : InstallCommand) (dep : DependencyInfo) (w : W) : res go_error () * W :=
  match clusterExtension c dep with
  | Err e => (Err e, w)
  | Panic s => (Panic s, w)
  | Ok extension =>
      and_then (createNamespace (i_Namespace dep) w) (λ _ w, createClusterExtension dep extension w)
  end.

Definition createDepResources (c : InstallCommand) (dep : DependencyInfo) (w : W) : res go_error () * W :=
  if decide (ic_selectedOLMMode c = Some ModeV1) then createDepResourcesV1 c dep w else createDepResourcesV0 dep w.

(** ** Waiting *)
(** [csvResult]: an error, a version, or not ready yet. *)
Definition tryCSVFromSubscription (namespace subName : string) (w : W) : res go_error (option string) :=
  let OC := api_olm w in
  try! sub := getSubscription namespace subName else errorf_w "get subscription" in
  match sub with
  | None => Ok None
  | Some sub =>
      match find (λ cond, String.eqb (sc_Type cond) "ResolutionFailed" && String.eqb (sc_Status cond) "True") (so_Conditions sub) with
      | Some cond => Err (EString ("subscription resolution failed: " +:+ sc_Message cond))
      | None =>
          if String.eqb (so_InstalledCSV sub) "" then Ok None
          else match olm_get_csv namespace (so_InstalledCSV sub) with
               | Panic s => Panic s
               | Err e => if IsNotFound e then Ok None else Err (errorf_w ("get CSV " +:+ so_InstalledCSV sub) e)
               | Ok csv =>
                   if String.eqb (cv_Phase csv) CSVPhaseSucceeded then Ok (Some (cv_Version csv))
                   else if String.eqb (cv_Phase csv) CSVPhaseFailed then
                     Err (EString ("CSV " +:+ cv_Name csv +:+ " failed: " +:+
                       (if String.eqb (cv_Reason csv) "" then "unknown" else cv_Reason csv)))
                   else Ok None
               end
      end
  end.

Definition findSucceededCSVInNamespace (namespace subName : string) (w : W) : res go_error (option string) :=
  try! items := olm_list_csvs (OlmClient := api_olm w) namespace else errorf_w ("list CSVs in " +:+ namespace) in
  Ok (cv_Version <$> find (succeeded_match subName) items).

(** One poll of [waitForCSV]. *)
Definition csv_poll (namespace subName : string) (pollCount : nat) (w : W) : res go_error (option string) :=
  let! result := tryCSVFromSubscription namespace subName w in
  match result with
  | Some version => Ok (Some version)
  | None =>
      if (pollCount mod csvNamespaceListEveryNPolls =? 0)%nat then findSucceededCSVInNamespace namespace subName w
      else Ok None
  end.

(** One poll of [waitForOperator]. *)
Definition operator_poll (packageName namespace : string) (w : W) : res go_error (option string) :=
  let OC := api_olm w in
  match findClusterExtensionInstallState packageName namespace with
  | Panic s => Panic s
  | Err _ => Ok None
  | Ok (_, Some err) => Err (errorf_w ("check operator " +:+ packageName) err)
  | Ok (state, None) => if es_installed state then Ok (Some (trim_prefix "v" (es_version state))) else Ok None
  end.

(** The polling loop: [timeline k] is the cluster at poll [k], [done k] the
    error of the context if it ends before poll [k + 1]. *)
Context (timeline : W → nat → W) (done : nat → option go_error) (elapsed : nat → string).

Fixpoint poll_loop (fuel : nat) (poll : nat → W → res go_error (option string)) (what : string) (w : W) (pollCount : nat)
    : option (res go_error string) :=
  match fuel with
  | O => None
  | S fuel' =>
      let pollCount := S pollCount in
      match poll pollCount (timeline w pollCount) with
      | Panic s => Some (Panic s)
      | Err e => Some (Err e)
      | Ok (Some version) => Some (Ok version)
      | Ok None =>
          match done pollCount with
          | Some e => Some (Err (errorf_w ("timeout waiting for " +:+ what +:+ " after " +:+ elapsed pollCount) e))
          | None => poll_loop fuel' poll what w pollCount
          end
      end
  end.

Definition waitForCSV (fuel : nat) (namespace subName : string) (w : W) : option (res go_error string) :=
  poll_loop fuel (csv_poll namespace subName) "CSV" w 0.

Definition waitForOperator (fuel : nat) (packageName namespace : string) (w : W) : option (res go_error string) :=
  poll_loop fuel (λ _, operator_poll packageName namespace) "operator" w 0.

Definition waitForDependency (fuel : nat) (c : InstallCommand) (dep : DependencyInfo) (w : W) : option (res go_error string) :=
  if decide (ic_selectedOLMMode c = Some ModeV1) then waitForOperator fuel (i_Subscription dep) (i_Namespace dep) w
  else waitForCSV fuel (i_Namespace dep) (i_Subscription dep) w.

(** ** runInstall *)
Fixpoint validate_accounts (c : InstallCommand) (seen : gset string) (deps : list DependencyInfo) (w : W) : res go_error () :=
  match deps with
  | [] => Ok ()
  | dep :: rest =>
      if decide (i_Namespace dep ∈ seen) then validate_accounts c seen rest w
      else
        match api_get_serviceaccount (i_Namespace dep) (serviceAccountName c) w with
        | Some e =>
            if IsNotFound e then
              Err (errorf_w ("OLM v1 requires ServiceAccount " +:+ serviceAccountName c +:+ " in namespace " +:+ i_Namespace dep +:+
                "; create it with the operator bundle's required permissions or set --service-account") e)
            else Err (errorf_w ("check OLM v1 ServiceAccount " +:+ serviceAccountName c +:+ " in namespace " +:+ i_Namespace dep) e)
        | None => validate_accounts c ({[i_Namespace dep]} ∪ seen) rest w
        end
  end.

Definition validateServiceAccounts (c : InstallCommand) (deps : list DependencyInfo) (w : W) : res go_error () :=
  if decide (ic_selectedOLMMode c = Some ModeV1) then validate_accounts c ∅ deps w else Ok ().

Definition fresh_result (dep : DependencyInfo) : InstallResult :=
  mkInstallResult (i_Name dep) (i_DisplayName dep) InstallStatusNone "" None.
Definition failed_with (e : go_error) (r : InstallResult) : InstallResult :=
  mkInstallResult (ir_Name r) (ir_DisplayName r) InstallStatusFailed (ir_Version r) (Some e).
Definition installed_at (version : string) (r : InstallResult) : InstallResult :=
  mkInstallResult (ir_Name r) (ir_DisplayName r) InstallStatusInstalled version (ir_Error r).

(** Phase 1: one result per dependency, and whether its resources exist. *)
Fixpoint create_all (c : InstallCommand) (deps : list DependencyInfo) (w : W) : res go_error (list (InstallResult * bool)) * W :=
  match deps with
  | [] => (Ok [], w)
  | dep :: rest =>
      match createDepResources c dep w with
      | (Panic s, w') => (Panic s, w')
      | (r, w') =>
          let entry := match r with
                       | Err e => (failed_with e (fresh_result dep), false)
                       | _ => (fresh_result dep, true)
                       end in
          let '(rest, w'') := create_all c rest w' in
          (res_bind rest (λ l, Ok (entry :: l)), w'')
      end
  end.

(** The indices of the dependencies whose resources were created. *)
Fixpoint pending_from (i : nat) (entries : list (InstallResult * bool)) : list nat :=
  match entries with
  | [] => []
  | (_, created) :: rest => (if created then [i] else []) ++ pending_from (S i) rest
  end%list.

(** What a waiter writes into its slot. *)
Definition write_result (outcome : res go_error string) : InstallResult → InstallResult :=
  match outcome with
  | Ok version => installed_at version
  | Err e => failed_with e
  | Panic _ => λ r, r
  end.

(** Phase 2: the waiters finish in some order and each writes its own slot. *)
Definition waitForOperatorsParallel `{Schedule} (wait : DependencyInfo → res go_error string) (deps : list DependencyInfo)
    (results : list InstallResult) (pendingIndices : list nat) : list InstallResult :=
  foldl (λ rs idx, match deps !! idx with
                   | Some dep => alter (write_result (wait dep)) idx rs
                   | None => rs
                   end) results (finish_order pendingIndices).

(** [errors.Join] of a list. *)
Fixpoint join_list (e : go_error) (es : list go_error) : go_error :=
  match es with
  | [] => EWrap (error_string e) e
  | e2 :: es' => let r := join_list e2 es' in EWrap2 (error_string e +:+ newline +:+ error_string r) e r
  end.
Definition errors_Join (es : list go_error) : option go_error :=
  match es with [] => None | e :: es' => Some (join_list e es') end.

Definition install_errors (results : list InstallResult) : list go_error :=
  omap (λ r, match ir_Status r, ir_Error r with
             | InstallStatusFailed, Some e => Some (errorf_w (ir_Name r) e)
             | _, _ => None
             end) results.

Definition printSummary (results : list InstallResult) : string :=
  let installed := List.filter (λ r, bool_decide (ir_Status r = InstallStatusInstalled)) results in
  let failed := List.filter (λ r, bool_decide (ir_Status r = InstallStatusFailed)) results in
  "Summary: " +:+ itoa (Z.of_nat (length installed)) +:+ " installed" +:+
  (if (0 <? length failed)%nat
   then ", " +:+ itoa (Z.of_nat (length failed)) +:+ " failed (" +:+ join ", " (map ir_DisplayName failed) +:+ ")" else "").

Inductive InstallOutcome :=
| NothingToInstall
| InstallReport (results : list InstallResult) (err : option go_error).

(** [wait] is [waitForDependency] with the fuel of the deadline. *)
Definition runInstall `{Schedule} (wait : DependencyInfo → W → res go_error string) (c : InstallCommand)
    (deps : list DependencyInfo) (w : W) : res go_error InstallOutcome * W :=
  match filterDepsToInstall c deps w with
  | Err e => (Err (errorf_w "filter dependencies" e), w)
  | Panic s => (Panic s, w)
  | Ok [] => (Ok NothingToInstall, w)
  | Ok toInstall =>
      match validateServiceAccounts c toInstall w with
      | Err e => (Err e, w)
      | Panic s => (Panic s, w)
      | Ok _ =>
          and_then (create_all c toInstall w) (λ entries w',
            let pending := pending_from 0 entries in
            match find is_panic (map (λ dep, wait dep w') (omap (λ i, toInstall !! i) pending)) with
            | Some (Panic s) => (Panic s, w')
            | _ =>
                let results := waitForOperatorsParallel (λ dep, wait dep w') toInstall entries.*1 pending in
                (Ok (InstallReport results (errors_Join (install_errors results))), w')
            end)
      end
  end.
End Install.

(** ** Configuration *)
Record StdinInput := mkStdin {
  si_Deps : option (list string);
  si_Version : string;
  si_DryRun : bool;
  si_IncludeOptional : bool;
  si_Refresh : bool;
  si_ServiceAccount : string;
  si_OLMMode : string;
}.

Section InstallConfig.
Context `{AE : ApiErrors, KE : K8sErrors, SV : Semver}.
Context (changed : string → bool) (check_piped : res go_error ()) (parse_stdin : res go_error StdinInput).
Context (connect : res go_error ()) (disc : option Discovery) (hasCR : bool).
(** [strings.TrimSpace] *)
Context (TrimSpace : string → string).

Fixpoint trim_deps (i : nat) (names : list string) : res go_error (list string) :=
  match names with
  | [] => Ok []
  | name :: rest =>
      let trimmed := TrimSpace name in
      if String.eqb trimmed "" then Err (EString ("empty dep name at index " +:+ itoa (Z.of_nat i)))
      else let! l := trim_deps (S i) rest in Ok (trimmed :: l)
  end.

Definition set_targets (c : InstallCommand) (dep : string) (deps : option (list string)) : InstallCommand :=
  mkInstall (ic_DryRun c) (ic_IncludeOptional c) (ic_Timeout c) dep deps (ic_Version c) (ic_Refresh c) (ic_FromStdin c)
    (ic_ServiceAccount c) (ic_OLMMode c) (ic_selectedOLMMode c) (ic_manifestVersion c).

Definition applyStdinOptions (input : StdinInput) (c : InstallCommand) : InstallCommand :=
  let pick (v old flag : string) := if negb (String.eqb v "") && negb (changed flag) then v else old in
  mkInstall ((si_DryRun input && negb (changed "dry-run")) || ic_DryRun c)
    ((si_IncludeOptional input && negb (changed "include-optional")) || ic_IncludeOptional c)
    (ic_Timeout c) (ic_TargetDep c) (ic_TargetDeps c)
    (pick (si_Version input) (ic_Version c) "version")
    ((si_Refresh input && negb (changed "refresh")) || ic_Refresh c) (ic_FromStdin c)
    (pick (si_ServiceAccount input) (ic_ServiceAccount c) "service-account")
    (pick (si_OLMMode input) (ic_OLMMode c) "olm-mode") (ic_selectedOLMMode c) (ic_manifestVersion c).

Definition applyStdinInput (input : StdinInput) (c : InstallCommand) : res go_error InstallCommand :=
  let! names := trim_deps 0 (default [] (si_Deps input)) in
  match si_Deps input with
  | Some _ =>
      if negb (String.eqb (ic_TargetDep c) "") || (0 <? length (default [] (ic_TargetDeps c)))%nat then
        Err (EString "cannot specify both a positional dependency argument and deps in stdin")
      else Ok (applyStdinOptions input (set_targets c (ic_TargetDep c) (Some names)))
  | None => Ok (applyStdinOptions input c)
  end.

Definition parseStdinConfig (c : InstallCommand) : res go_error InstallCommand :=
  let! _u := check_piped in
  try! input := parse_stdin else errorf_w "parsing stdin" in
  applyStdinInput input c.

Definition Install_Complete (c : InstallCommand) : res go_error InstallCommand :=
  let! c := if ic_FromStdin c then res_map_err (EExitCode ExitValidation) (parseStdinConfig c) else Ok c in
  let c := if (length (default [] (ic_TargetDeps c)) =? 0)%nat && negb (String.eqb (ic_TargetDep c) "")
           then set_targets c "" (Some [ic_TargetDep c]) else c in
  if ic_DryRun c then Ok c
  else try! _u := connect else errorf_w "create kubernetes client" in Ok c.

Definition requestedOLMMode (c : InstallCommand) : res go_error (option Mode) :=
  if String.eqb (ic_OLMMode c) "" || String.eqb (ic_OLMMode c) "auto" then Ok None
  else if String.eqb (ic_OLMMode c) "v0" then Ok (Some ModeV0)
  else if String.eqb (ic_OLMMode c) "v1" then Ok (Some ModeV1)
  else Err (EString ("invalid --olm-mode " +:+ quote (ic_OLMMode c) +:+ ": must be auto, v0, or v1")).

Definition majorMinorMatch (v1 v2 : string) : bool :=
  if String.eqb v1 "" || String.eqb v2 "" then false
  else match semver_Parse (trim_prefix "v" v1), semver_Parse (trim_prefix "v" v2) with
       | Ok a, Ok b => (v_Major a =? v_Major b) && (v_Minor a =? v_Minor b)
       | _, _ => false
       end.

Definition mode_error (e : ModeError) : go_error :=
  match e with MErrUnavailable msg => EString msg | MErrOther e => e end.

(** The mode part of [Validate]. *)
Definition select_mode (c : InstallCommand) (requested : option Mode) : res go_error (option Mode) :=
  if ic_DryRun c then Ok (ic_selectedOLMMode c)
  else match ResolveInstallMode disc requested with
       | Panic s => Panic s
       | Err e =>
           match requested, e with
           | None, MErrUnavailable _ => Err (EString msgOLMNotAvailableInst)
           | _, _ => Err (errorf_w "detect OLM API" (mode_error e))
           end
       | Ok mode =>
           if bool_decide (mode = ModeV1) && negb hasCR then Err (EString msgOLMNotAvailableInst) else Ok (Some mode)
       end.

Definition version_error (c : InstallCommand) (manifestVersion suggestion : string) : go_error :=
  EStructured (NewValidationError "VERSION_UNAVAILABLE"
    ("dependencies for version " +:+ quote (ic_Version c) +:+ " are not available; only version " +:+ manifestVersion +:+
     " is supported") suggestion).

Definition set_mode (c : InstallCommand) (mode : option Mode) (manifestVersion : string) : InstallCommand :=
  mkInstall (ic_DryRun c) (ic_IncludeOptional c) (ic_Timeout c) (ic_TargetDep c) (ic_TargetDeps c) (ic_Version c)
    (ic_Refresh c) (ic_FromStdin c) (ic_ServiceAccount c) (ic_OLMMode c) mode manifestVersion.

Definition embedded_suggestion :=
  "Use --refresh to fetch the latest manifest, or omit --version to use the embedded version".

Definition Install_Validate (ManifestVersion : res go_error string) (show_duration : Z → string) (c : InstallCommand)
    : res go_error InstallCommand :=
  if ic_Timeout c <=? 0 then Err (EString ("--timeout must be positive, got " +:+ show_duration (ic_Timeout c)))
  else
    let! requestedMode := requestedOLMMode c in
    let! mode := select_mode c requestedMode in
    if ic_Refresh c then Ok (set_mode c mode (ic_manifestVersion c))
    else
      try! manifestVer := ManifestVersion else errorf_w "failed to determine manifest version" in
      let c := set_mode c mode manifestVer in
      if negb (String.eqb (ic_Version c) "") && negb (majorMinorMatch (ic_Version c) manifestVer)
      then Err (version_error c manifestVer embedded_suggestion) else Ok c.

Record ManifestResult := mkManifestResult { mr_Manifest : Manifest; mr_Version : string }.

(** [Run] up to the choice between dry run and installation: the dependencies
    to work on. *)
Definition Install_plan `{MO : MapOrder, SS : SortSlice} (GetManifest : bool → res go_error ManifestResult) (c : InstallCommand)
    : res go_error (InstallCommand * list DependencyInfo) :=
  try! result := GetManifest (ic_Refresh c) else errorf_w "get manifest" in
  let c := if negb (String.eqb (mr_Version result) "") then set_mode c (ic_selectedOLMMode c) (mr_Version result) else c in
  if negb (String.eqb (ic_Version c) "") && negb (majorMinorMatch (ic_Version c) (ic_manifestVersion c)) then
    Err (version_error c (ic_manifestVersion c)
      (if ic_Refresh c then "Omit --version to use the fetched manifest version" else embedded_suggestion))
  else
    let deps := GetDependencies (mr_Manifest result) in
    let! _u := for_each (λ depName, if isValidDependency deps depName then Ok ()
                         else Err (EString ("unknown dependency " +:+ quote depName +:+
                                "; run 'kubectl odh deps' to see available dependencies")))
                 (default [] (ic_TargetDeps c)) in
    Ok (c, deps).
End InstallConfig.

(** ** slicesEqualUnordered and permutations *)
Definition represents (counts : gmap string Z) (a : list string) : Prop :=
  ∀ v, count_of counts v = Z.of_nat (count_occ String.string_dec a v).

Lemma count_of_insert counts v n x : count_of (<[v := n]> counts) x = if decide (v = x) then n else count_of counts x.
Proof. unfold count_of. rewrite lookup_insert. by case_decide. Qed.

Lemma count_occ_cons_Z (v : string) a x :
  Z.of_nat (count_occ String.string_dec (v :: a) x) = (if decide (v = x) then 1 else 0) + Z.of_nat (count_occ String.string_dec a x).
Proof. simpl. destruct (String.string_dec v x); case_decide; lia || done. Qed.

Lemma counting_represents a counts b :
  represents counts b → represents (foldl (λ counts v, <[v := count_of counts v + 1]> counts) counts a) (rev a ++ b)%list.
Proof.
  revert counts b. induction a as [|v a IH]; intros counts b Hr; simpl; [done|].
  rewrite <-app_assoc. apply IH. intros x. change ([v] ++ b)%list with (v :: b). rewrite count_of_insert, count_occ_cons_Z, !Hr.
  destruct (decide (v = x)) as [->|]; lia.
Qed.

Lemma represents_perm counts a b : a ≡ₚ b → represents counts a → represents counts b.
Proof. intros Hp Hr v. rewrite Hr. f_equal. by apply Permutation_count_occ. Qed.

Lemma consume_spec counts a b : represents counts a → consume counts b = true ↔ ∃ c, a ≡ₚ (b ++ c)%list.
Proof.
  revert counts a. induction b as [|v b IH]; intros counts a Hr; simpl; [by split; [exists a|]|].
  destruct (Z.ltb_spec (count_of counts v - 1) 0) as [Hlt|Hge].
  - split; [done|]. intros [c Hp]. exfalso. rewrite Hr in Hlt.
    assert (v ∈ a) as Hv by (rewrite Hp; by left). apply list_elem_of_In, (count_occ_In String.string_dec) in Hv. lia.
  - assert (v ∈ a) as Hv. { apply list_elem_of_In, (count_occ_In String.string_dec). rewrite Hr in Hge. lia. }
    apply elem_of_Permutation in Hv as [a' Ha'].
    rewrite (IH _ a').
    + split; intros [c Hp]; exists c.
      * by rewrite Ha', Hp.
      * rewrite Ha' in Hp. by apply Permutation_cons_inv in Hp.
    + intros x. rewrite count_of_insert, !Hr. pose proof (count_occ_cons_Z v a' x) as Hc.
      apply (Permutation_count_occ String.string_dec) with (x := x) in Ha' as Hx.
      apply (Permutation_count_occ String.string_dec) with (x := v) in Ha' as Hvv.
      pose proof (count_occ_cons_Z v a' v). destruct (decide (v = v)); [|done].
      destruct (decide (v = x)) as [->|]; lia.
Qed.

Lemma slicesEqualUnordered_true a b : slicesEqualUnordered a b = true ↔ a ≡ₚ b.
Proof.
  unfold slicesEqualUnordered. destruct (Nat.eqb_spec (length a) (length b)) as [Hl|Hl]; simpl.
  - rewrite (consume_spec _ a).
    + split; [|intros Hp; exists []; by rewrite app_nil_r].
      intros [c Hp]. assert (c = []) as ->; [|by rewrite app_nil_r in Hp].
      apply Permutation_length in Hp. rewrite length_app in Hp. destruct c; [done|simpl in Hp; lia].
    + eapply represents_perm; [|apply (counting_represents a ∅ [])].
      * rewrite app_nil_r. symmetry. apply Permutation_rev.
      * intros v. unfold count_of. by rewrite lookup_empty.
  - split; [done|]. intros Hp%Permutation_length. done.
Qed.

(** ** Waiting in parallel *)
Section ParallelLemmas.
Context (wait : DependencyInfo → res go_error string) (deps : list DependencyInfo).

Definition slot_write (rs : list InstallResult) (idx : nat) : list InstallResult :=
  match deps !! idx with
  | Some dep => alter (write_result (wait dep)) idx rs
  | None => rs
  end.

Lemma slot_write_comm rs i j : i ≠ j → slot_write (slot_write rs i) j = slot_write (slot_write rs j) i.
Proof.
  intros Hne. unfold slot_write. destruct (deps !! i), (deps !! j); try done.
  apply list_eq. intros k. rewrite !list_lookup_alter. by repeat case_decide; subst.
Qed.

(** Distinct slots: the order of the writes does not matter. *)
Lemma slot_writes_perm l1 l2 rs : NoDup l1 → l1 ≡ₚ l2 → foldl slot_write rs l1 = foldl slot_write rs l2.
Proof.
  intros Hn Hp. revert rs Hn. induction Hp as [|i l1 l2 _ IH|i j l|l1 l2 l3 H1 IH1 _ IH2]; intros rs Hn; simpl; [done|..].
  - apply NoDup_cons in Hn as [_ Hn]. by apply IH.
  - apply NoDup_cons in Hn as [Hi Hn]. rewrite (slot_write_comm rs j i); [done|]. intros ->. apply Hi. by left.
  - rewrite IH1 by done. apply IH2. by rewrite <-H1.
Qed.

Lemma slot_writes_lookup l rs i :
  NoDup l → foldl slot_write rs l !! i =
    if decide (i ∈ l) then (match deps !! i with Some dep => write_result (wait dep) | None => id end) <$> rs !! i
    else rs !! i.
Proof.
  revert rs. induction l as [|j l IH]; intros rs Hn; simpl; [done|].
  apply NoDup_cons in Hn as [Hj Hn]. rewrite IH by done. unfold slot_write.
  destruct (decide (i = j)) as [->|Hij].
  - rewrite decide_False, decide_True by (done || by left).
    destruct (deps !! j); [by rewrite list_lookup_alter_eq|by destruct (rs !! j)].
  - assert ((i ∈ j :: l) ↔ i ∈ l) as Hiff by (rewrite elem_of_cons; naive_solver).
    rewrite (decide_ext (i ∈ j :: l) (i ∈ l)) by done.
    destruct (deps !! j); [by rewrite list_lookup_alter_ne|done].
Qed.
End ParallelLemmas.

Lemma pending_lower entries i j : j ∈ pending_from i entries → (i ≤ j)%nat.
Proof.
  revert i. induction entries as [|[r b] entries IH]; intros i; simpl; [by intros ?%elem_of_nil|].
  rewrite elem_of_app. intros [Hj|Hj]; [destruct b; [apply list_elem_of_singleton in Hj; lia|by apply elem_of_nil in Hj]|].
  apply IH in Hj. lia.
Qed.

(** The pending indices are the positions of the entries with resources. *)
Lemma elem_of_pending entries i j :
  (i ≤ j)%nat → j ∈ pending_from i entries ↔ ∃ r, entries !! (j - i)%nat = Some (r, true).
Proof.
  revert i. induction entries as [|[r b] entries IH]; intros i Hij; simpl.
  { split; [by intros ?%elem_of_nil|]. intros [r Hr]. done. }
  rewrite elem_of_app. destruct (decide (j = i)) as [->|Hne].
  - rewrite Nat.sub_diag. simpl. split.
    + intros [Hi|Hi]; [destruct b; [by exists r|by apply elem_of_nil in Hi]|].
      apply pending_lower in Hi. lia.
    + intros [r' [= -> ->]]. left. by left.
  - rewrite (IH (S i)) by lia. replace (j - i)%nat with (S (j - S i)) by lia. simpl. split; [|by right].
    intros [Hj|Hj]; [|done]. destruct b; [apply list_elem_of_singleton in Hj; done|by apply elem_of_nil in Hj].
Qed.

Lemma pending_NoDup entries i : NoDup (pending_from i entries).
Proof.
  revert i. induction entries as [|[r b] entries IH]; intros i; simpl; [constructor|].
  destruct b; simpl; [|apply IH]. constructor; [|apply IH]. intros Hin%pending_lower. lia.
Qed.

(** ** The group of concurrent checks *)
Lemma find_none {A} (f : A → bool) l : find f l = None ↔ Forall (λ x, f x = false) l.
Proof.
  induction l as [|x l IH]; simpl; [by split; [constructor|]|]. rewrite Forall_cons, <-IH.
  destruct (f x); naive_solver.
Qed.

Lemma find_some_inv {A} (f : A → bool) l x : find f l = Some x → x ∈ l ∧ f x = true.
Proof. intros H%find_some. by rewrite list_elem_of_In. Qed.

Lemma errgroup_Wait_Ok `{Schedule} {A} (answers : list (res go_error A)) :
  errgroup_Wait answers = Ok () ↔ Forall (λ r, is_ok r = true) answers.
Proof.
  unfold errgroup_Wait. split.
  - destruct (find is_panic answers) as [r|] eqn:Hp.
    { apply find_some_inv in Hp as [_ Hp]. by destruct r. }
    destruct (find is_err _) as [r|] eqn:He.
    { apply find_some_inv in He as [_ He]. by destruct r. }
    intros _. apply find_none in Hp, He. rewrite finish_order_perm in He.
    rewrite Forall_forall in *. intros r Hr. specialize (Hp r Hr). specialize (He r Hr). by destruct r.
  - intros Hall. rewrite Forall_forall in Hall.
    assert (find is_panic answers = None) as ->.
    { apply find_none, Forall_forall. intros r Hr. specialize (Hall r Hr). by destruct r. }
    assert (find is_err (finish_order answers) = None) as ->; [|done].
    apply find_none. rewrite finish_order_perm. apply Forall_forall. intros r Hr. specialize (Hall r Hr). by destruct r.
Qed.

Section RunLemmas.
Context `{AE : ApiErrors, KE : K8sErrors, JQ : GoJq} {W : Type} `{API : !InstallApi W}.
Context (hasCR : bool).
Implicit Types (c : InstallCommand) (deps : list DependencyInfo) (w : W).

Lemma filterDepsToInstall_Ok `{Schedule} c deps w l :
  filterDepsToInstall hasCR c deps w = Ok l ↔
  Forall (λ dep, is_ok (isAlreadyInstalled hasCR c dep w) = true) (List.filter (shouldInstallDep c) deps) ∧
  l = List.filter (not_installed hasCR c w) (List.filter (shouldInstallDep c) deps).
Proof.
  unfold filterDepsToInstall. split.
  - intros Hl. apply res_bind_Ok_inv in Hl as ([] & Hg & [= <-]). apply res_map_err_Ok, errgroup_Wait_Ok in Hg.
    rewrite List.Forall_map in Hg. done.
  - intros [Hall ->]. rewrite (proj2 (errgroup_Wait_Ok _)); [done|]. by rewrite List.Forall_map.
Qed.

(** What phase 1 leaves for each dependency. *)
Definition entry_ok (dep : DependencyInfo) (entry : InstallResult * bool) : Prop :=
  (entry = (fresh_result dep, true)) ∨ ∃ e, entry = (failed_with e (fresh_result dep), false).

Lemma create_all_ok c deps w entries w' :
  create_all c deps w = (Ok entries, w') → Forall2 entry_ok deps entries.
Proof.
  revert w entries w'. induction deps as [|dep deps IH]; intros w entries w'; simpl; [intros [= <- _]; constructor|].
  destruct (createDepResources c dep w) as [[u|e|s] w1] eqn:Hc; [| |done];
    destruct (create_all c deps w1) as [[l|e'|s] w2] eqn:Hr; simpl; try done; intros [= <- _];
    constructor; try (by eapply IH); [by left|right; by eexists].
Qed.

(** The outcome of a wait, as a result. *)
Definition settled (r : InstallResult) : Prop :=
  (ir_Status r = InstallStatusInstalled ∧ ir_Error r = None) ∨ (ir_Status r = InstallStatusFailed ∧ is_Some (ir_Error r)).

(** The results after phase 2, slot by slot. *)
Lemma phase2_settled `{Schedule} (wait : DependencyInfo → res go_error string) deps entries :
  Forall2 entry_ok deps entries →
  (∀ i dep r, deps !! i = Some dep → entries !! i = Some (r, true) → is_panic (wait dep) = false) →
  let results := waitForOperatorsParallel wait deps entries.*1 (pending_from 0 entries) in
  Forall2 (λ dep r, ir_Name r = i_Name dep ∧ settled r) deps results.
Proof.
  intros Hok Hwait. cbv zeta. unfold waitForOperatorsParallel.
  change (Forall2 (λ dep r, ir_Name r = i_Name dep ∧ settled r) deps
    (foldl (slot_write wait deps) entries.*1 (finish_order (pending_from 0 entries)))).
  rewrite (slot_writes_perm wait deps _ (pending_from 0 entries)).
  2:{ rewrite finish_order_perm. apply pending_NoDup. }
  2:{ apply finish_order_perm. }
  apply Forall2_same_length_lookup. split.
  - assert (∀ l rs, length (foldl (slot_write wait deps) rs l) = length rs) as Hlen.
    { intros l. induction l as [|i l IH]; intros rs; simpl; [done|]. rewrite IH. unfold slot_write.
      destruct (deps !! i); [apply length_alter|done]. }
    rewrite Hlen, length_fmap. by eapply Forall2_length.
  - intros i dep r Hdep. rewrite slot_writes_lookup by apply pending_NoDup. rewrite Hdep, list_lookup_fmap.
    destruct (Forall2_lookup_l _ _ _ _ _ Hok Hdep) as (entry & He & Hentry). rewrite He. simpl.
    destruct Hentry as [->|[e ->]].
    + rewrite decide_True by (apply elem_of_pending; [lia|]; rewrite Nat.sub_0_r; eauto).
      intros [= <-]. specialize (Hwait i dep _ Hdep He). unfold write_result.
      destruct (wait dep) as [v|e|s]; [| |done]; (split; [done|]); [by left|right; by split].
    + rewrite decide_False; [|rewrite elem_of_pending by lia; rewrite Nat.sub_0_r; naive_solver].
      intros [= <-]. split; [done|]. right. by split.
Qed.

Lemma install_errors_nil results :
  Forall settled results → errors_Join (install_errors results) = None ↔
  Forall (λ r, ir_Status r = InstallStatusInstalled) results.
Proof.
  intros Hs. assert (errors_Join (install_errors results) = None ↔ install_errors results = []) as ->.
  { by destruct (install_errors results). }
  induction Hs as [|r results [[Hst He]|[Hst [e He]]] _ IH]; unfold install_errors; simpl; [by rewrite Forall_nil|..];
    rewrite Forall_cons, Hst, ?He.
  - rewrite <-IH. naive_solver.
  - naive_solver.
Qed.
End RunLemmas.

(** ** Polling *)
Section PollLemmas.
Context {W : Type} (timeline : W → nat → W) (done : nat → option go_error) (elapsed : nat → string).
Context (poll : nat → W → res go_error (option string)) (what : string) (w : W).

(** What poll [k] decides, if anything. *)
Definition decision (k : nat) : option (res go_error string) :=
  match poll k (timeline w k) with
  | Panic s => Some (Panic s)
  | Err e => Some (Err e)
  | Ok (Some version) => Some (Ok version)
  | Ok None =>
      match done k with
      | Some e => Some (Err (errorf_w ("timeout waiting for " +:+ what +:+ " after " +:+ elapsed k) e))
      | None => None
      end
  end.

Lemma poll_loop_first fuel count :
  poll_loop timeline done elapsed fuel poll what w count = head (omap decision (seq (S count) fuel)).
Proof.
  revert count. induction fuel as [|fuel IH]; intros count; simpl; [done|].
  unfold decision at 1. destruct (poll (S count) _) as [[v|]|e|s]; try done.
  destruct (done (S count)); [done|]. apply IH.
Qed.

(** A context that ends decides the loop, with any fuel that reaches its end. *)
Lemma poll_loop_decides n fuel :
  (1 ≤ n)%nat → is_Some (done n) → (n ≤ fuel)%nat →
  ∃ k r, (1 ≤ k ≤ n)%nat ∧ decision k = Some r ∧ (∀ j, (1 ≤ j < k)%nat → decision j = None) ∧
    poll_loop timeline done elapsed fuel poll what w 0 = Some r.
Proof.
  intros H1 Hd Hf. rewrite poll_loop_first.
  assert (∀ m start, (∃ k, (start ≤ k < start + m)%nat ∧ is_Some (decision k)) →
    ∃ k r, (start ≤ k < start + m)%nat ∧ decision k = Some r ∧ (∀ j, (start ≤ j < k)%nat → decision j = None) ∧
      head (omap decision (seq start m)) = Some r) as Hfirst.
  { induction m as [|m IH]; intros start (k & Hk & Hs); [lia|]. simpl.
    destruct (decision start) as [r|] eqn:Hr.
    - exists start, r. split; [lia|]. split; [done|]. split; [intros; lia|done].
    - destruct (IH (S start)) as (k' & r & Hk' & Hr' & Hj & Hh).
      + exists k. split; [|done]. assert (k ≠ start) by (intros ->; rewrite Hr in Hs; by destruct Hs). lia.
      + exists k', r. split; [lia|]. split; [done|]. split; [|done]. intros j Hjk.
        destruct (decide (j = start)) as [->|]; [done|]. apply Hj. lia. }
  destruct (Hfirst fuel 1%nat) as (k & r & Hk & Hr & Hj & Hh).
  { exists n. split; [lia|]. unfold decision. destruct Hd as [e ->]. destruct (poll n _) as [[v|]|x|s]; by eexists. }
  exists k, r. split; [|done]. split; [lia|]. destruct (decide (k ≤ n)%nat) as [|Hlt]; [done|].
  assert (decision n = None) as Hn by (apply Hj; lia). exfalso. unfold decision in Hn.
  destruct Hd as [e He]. rewrite He in Hn. by destruct (poll n _) as [[v|]|x|s].
Qed.
End PollLemmas.

(** ** Documented behaviour of the API server: an object that was created, or
    whose creation was refused because it exists, can be read. *)
Class InstallLaws `{AE : ApiErrors} (W : Type) `{API : !InstallApi W} : Prop := {
  created_readable ns s w err w' :
    api_create_subscription ns s w = (err, w') →
    match err with Some e => IsAlreadyExists e = true | None => True end →
    ∃ sub, olm_get_sub (OlmClient := api_olm w') ns (ns_Name s) = Ok sub ∧ is_Some (so_Spec sub);
}.

(** ** A concrete cluster: its subscriptions *)
Module InstallRun.
Notation cluster := (gmap string SubscriptionObj).
Definition not_found : go_error := EForeign 2 "not found".
Definition exists_already : go_error := EForeign 3 "already exists".

Definition client (w : cluster) : OlmClient := {|
  olm_get_sub ns name := match w !! name with Some s => Ok s | None => Err not_found end;
  olm_list_subs _ := Ok (map_to_list w).*2;
  olm_get_csv ns name := Ok (mkCSVObj name CSVPhaseSucceeded "1.2.0" "");
  olm_list_csvs _ := Ok [];
  olm_list_extensions := Ok [];
  ClusterExtensionInstallsPackage _ _ := (false, None) |}.

#[export] Instance api : InstallApi cluster := {|
  api_olm := client;
  api_create_namespace _ w := (None, w);
  api_list_operatorgroups _ _ := Ok [];
  api_create_operatorgroup _ _ _ w := (None, w);
  api_create_subscription ns s w :=
    match w !! ns_Name s with
    | Some sub => (Some (if so_Spec sub then exists_already else not_found), w)
    | None => (None, <[ns_Name s := mkSubObj (ns_Name s) (Some (mkSubSpec (ns_Package s) (ns_Channel s) (ns_CatalogSource s))) "" []]> w)
    end;
  api_create_extension _ w := (None, w);
  api_get_extension _ _ := Err not_found;
  api_get_serviceaccount _ _ _ := None |}.

Lemma laws : InstallLaws (AE := concrete_ApiErrors) cluster.
Proof.
  split. intros ns s w err w' H. simpl in *. destruct (w !! ns_Name s) as [sub|] eqn:Hw; injection H as <- <-.
  - destruct (so_Spec sub) eqn:Hs; [|done]. intros _. rewrite Hw. exists sub. by rewrite Hs.
  - intros _. rewrite lookup_insert_eq. by eexists.
Qed.

Definition dep (name : string) : DependencyInfo := mkInfo name name "true" name (name +:+ "-ns") "stable" "" [] [].
Definition command : InstallCommand := mkInstall false false 300 "" None "" false false "" "" (Some ModeV0) "".
End InstallRun.

(** ** Properties *)
Module InstallSpec.
Import (hints) ClientRun VersionRun InstallRun.

(** The operator-group comparison is equality up to order, duplicates
    included. *)
Theorem slicesEqualUnordered_iff_permutation (a b : list string) : slicesEqualUnordered a b = true ↔ a ≡ₚ b.
Proof. apply slicesEqualUnordered_true. Qed.

(** C15: A run that reports has one settled result per missing dependency, in
    manifest order: installed without an error, or failed with one; a failure
    does not keep the others from being tried; the command returns an error
    iff some dependency failed; and the report does not depend on the order in
    which the concurrent checks and waits finish. *)
Theorem runInstall_report `{AE : ApiErrors, KE : K8sErrors, JQ : GoJq} {W : Type} `{API : !InstallApi W} (S1 S2 : Schedule)
    hasCR (wait : DependencyInfo → W → res go_error string) c deps w results err w' :
  runInstall (H := S1) hasCR wait c deps w = (Ok (InstallReport results err), w') →
  runInstall (H := S2) hasCR wait c deps w = (Ok (InstallReport results err), w') ∧
  map ir_Name results =
    map i_Name (List.filter (not_installed hasCR c w) (List.filter (shouldInstallDep c) deps)) ∧
  Forall settled results ∧
  (err = None ↔ Forall (λ r, ir_Status r = InstallStatusInstalled) results).
Proof.
  unfold runInstall. destruct (filterDepsToInstall (H := S1) hasCR c deps w) as [toInstall|e|s] eqn:Hf; [|done..].
  assert (filterDepsToInstall (H := S2) hasCR c deps w = Ok toInstall) as ->.
  { apply filterDepsToInstall_Ok. by apply filterDepsToInstall_Ok in Hf. }
  apply filterDepsToInstall_Ok in Hf as [_ Hto]. rewrite <-Hto.
  destruct toInstall as [|d ds]; [done|]. set (toInstall := d :: ds) in *.
  destruct (validateServiceAccounts c toInstall w) as [u|e|s]; [|done..].
  destruct (create_all c toInstall w) as [[entries|e|s] w1] eqn:Hc; cbn [and_then]; [|done..].
  destruct (find is_panic _) as [r|] eqn:Hp.
  { apply find_some_inv in Hp as [_ Hp]. by destruct r. }
  apply find_none in Hp. apply create_all_ok in Hc.
  assert (∀ i dep r, toInstall !! i = Some dep → entries !! i = Some (r, true) → is_panic (wait dep w1) = false) as Hw.
  { intros i dep r Hi He. rewrite Forall_forall in Hp. apply Hp.
    apply list_elem_of_In, in_map_iff. exists dep. split; [done|]. apply list_elem_of_In, list_elem_of_omap.
    exists i. split; [|done]. apply elem_of_pending; [lia|]. rewrite Nat.sub_0_r. eauto. }
  intros [= Hres Herr <-].
  assert (waitForOperatorsParallel (H := S1) (λ dep, wait dep w1) toInstall entries.*1 (pending_from 0 entries) =
    waitForOperatorsParallel (H := S2) (λ dep, wait dep w1) toInstall entries.*1 (pending_from 0 entries)) as Hsched.
  { apply (slot_writes_perm (λ dep, wait dep w1) toInstall); rewrite !finish_order_perm; [apply pending_NoDup|done]. }
  pose proof (phase2_settled (H := S1) (λ dep, wait dep w1) toInstall entries Hc Hw) as Hs. cbv zeta in Hs.
  rewrite Hres in Hs, Herr. split; [by rewrite <-Hsched, Hres, Herr|].
  assert (Forall settled results) as Hsettled.
  { clear -Hs. clearbody toInstall. induction Hs as [|dep r xs rs [_ Hr] _ IH]; by constructor. }
  split; [|split; [done|]].
  - clear -Hs. clearbody toInstall. induction Hs as [|dep r xs rs [Hr _] _ IH]; simpl; [done|]. by rewrite Hr, IH.
  - rewrite <-Herr. by apply install_errors_nil.
Qed.

Lemma runInstall_report_witness :
  let wait d (_ : gmap string SubscriptionObj) := if String.eqb (i_Name d) "kueue" then Err (EString "timeout") else Ok "1.2.0" in
  let deps := [InstallRun.dep "cert-manager"; InstallRun.dep "kueue"] in
  ∃ results err w', runInstall (AE := concrete_ApiErrors) (H := in_order) true wait InstallRun.command deps ∅ =
      (Ok (InstallReport results err), w') ∧
    map ir_Name results = ["cert-manager"; "kueue"] ∧ (err = None ↔ Forall (λ r, ir_Status r = InstallStatusInstalled) results).
Proof.
  intros wait deps. do 3 eexists. split; [vm_compute; reflexivity|].
  match goal with |- map ir_Name ?rs = _ ∧ (?e = None ↔ _) =>
    destruct (runInstall_report (AE := concrete_ApiErrors) in_order in_order true wait InstallRun.command deps ∅ rs e
      (runInstall (AE := concrete_ApiErrors) (H := in_order) true wait InstallRun.command deps ∅).2) as (_ & H1 & _ & H2) end.
  - vm_compute. reflexivity.
  - split; [rewrite H1; vm_compute; reflexivity|exact H2].
Defined.

(** Waiting for a CSV ends: once the context ends after poll [n], any fuel
    from [n] on gives the verdict of the first poll that decides; a version is
    only reported when that poll found the subscription's CSV succeeded or, at
    every third poll, a matching succeeded CSV in the namespace. *)
Theorem waitForCSV_decides `{AE : ApiErrors, KE : K8sErrors} {W : Type} `{API : !InstallApi W}
    timeline done elapsed namespace subName (w : W) n fuel :
  (1 ≤ n)%nat → is_Some (done n) → (n ≤ fuel)%nat →
  ∃ k r, (1 ≤ k ≤ n)%nat ∧ waitForCSV timeline done elapsed fuel namespace subName w = Some r ∧
    (∀ j, (1 ≤ j < k)%nat → csv_poll namespace subName j (timeline w j) = Ok None ∧ done j = None) ∧
    (∀ version, r = Ok version →
      tryCSVFromSubscription namespace subName (timeline w k) = Ok (Some version) ∨
      (k mod 3 = 0)%nat ∧ findSucceededCSVInNamespace namespace subName (timeline w k) = Ok (Some version)).
Proof.
  intros H1 Hd Hf. unfold waitForCSV.
  destruct (poll_loop_decides timeline done elapsed (csv_poll namespace subName) "CSV" w n fuel H1 Hd Hf)
    as (k & r & Hk & Hr & Hj & Hl).
  exists k, r. split; [done|]. split; [done|]. split.
  - intros j Hjk. specialize (Hj j Hjk). unfold decision in Hj. repeat case_match; done.
  - intros version ->. unfold decision in Hr.
    destruct (csv_poll namespace subName k (timeline w k)) as [[v|]|e|s] eqn:Hp; try done; [|by destruct (done k)].
    injection Hr as ->. unfold csv_poll in Hp. apply res_bind_Ok_inv in Hp as ([v|] & Ht & Hp).
    + injection Hp as ->. by left.
    + right. unfold csvNamespaceListEveryNPolls in Hp. destruct (Nat.eqb_spec (k mod 3) 0); [done|done].
Qed.

Lemma waitForCSV_decides_witness :
  let sub := mkSubObj "kueue" None "kueue.v1.2.0" [] in
  let timeline (w : gmap string SubscriptionObj) k := if (k <? 2)%nat then w else <["kueue" := sub]> w in
  let done k := if (k =? 4)%nat then Some (ESentinel CtxDeadlineExceeded) else None in
  is_Some (done 4%nat) ∧
  ∃ k r, (1 ≤ k ≤ 4)%nat ∧ waitForCSV (AE := concrete_ApiErrors) timeline done (λ _, "10s") 4 "ns" "kueue" ∅ = Some r.
Proof.
  intros sub timeline done. split; [by eexists|].
  destruct (waitForCSV_decides (AE := concrete_ApiErrors) timeline done (λ _, "10s") "ns" "kueue" ∅ 4 4)
    as (k & r & Hk & Hr & _); [lia|by eexists|lia|]. exists k, r. split; [exact Hk|exact Hr].
Defined.

(** Installing under OLM v0 is idempotent: after the resources of a
    dependency were created without an error, the next run finds it installed
    and leaves it alone. *)
Theorem createDepResourcesV0_then_installed `{LAWS : InstallLaws} `{KE : K8sErrors, JQ : GoJq} hasCR (c : InstallCommand) dep w w' :
  i_Namespace dep ≠ "" → i_Subscription dep ≠ "" → ic_selectedOLMMode c = Some ModeV0 →
  createDepResources c dep w = (Ok (), w') →
  isAlreadyInstalled hasCR c dep w' = Ok true ∧
  (∀ (S : Schedule), filterDepsToInstall hasCR c [dep] w' = Ok []).
Proof.
  intros Hns Hname Hmode Hc.
  assert (isAlreadyInstalled hasCR c dep w' = Ok true) as Hi.
  { unfold createDepResources in Hc. unfold isAlreadyInstalled.
    destruct (decide (ic_selectedOLMMode c = Some ModeV1)) as [Hv1|_]; [congruence|]. unfold createDepResourcesV0 in Hc.
    destruct (createNamespace _ w) as [[u|e|s] w1]; cbn [and_then] in Hc; [|done..].
    destruct (ensureOperatorGroup _ _ w1) as [[u'|e|s] w2]; cbn [and_then] in Hc; [|done..].
    unfold createSubscription in Hc.
    destruct (api_create_subscription _ _ w2) as [err w3] eqn:Hs. injection Hc as Hr ->.
    destruct (created_readable (i_Namespace dep) (new_subscription dep) w2 err w' Hs) as (sub & Hget & [spec Hspec]).
    { destruct err as [e|]; [|done]. by destruct (IsAlreadyExists e). }
    cbn in Hget. unfold isAlreadyInstalledV0, getSubscription.
    rewrite !(proj2 (String.eqb_neq _ _)) by done. cbn [orb]. rewrite Hget. simpl.
    unfold warnIfSubscriptionMismatch. by rewrite Hspec. }
  split; [done|]. intros S. apply filterDepsToInstall_Ok. simpl. destruct (shouldInstallDep c dep); simpl; [|done].
  unfold not_installed. rewrite Hi. simpl. split; [|done]. constructor; [|done]. by rewrite Hi.
Qed.

Lemma createDepResourcesV0_then_installed_witness :
  let w' := (createDepResources (AE := concrete_ApiErrors) InstallRun.command (InstallRun.dep "kueue") ∅).2 in
  isAlreadyInstalled (AE := concrete_ApiErrors) true InstallRun.command (InstallRun.dep "kueue") w' = Ok true.
Proof.
  intros w'. apply (createDepResourcesV0_then_installed (LAWS := InstallRun.laws) true InstallRun.command (InstallRun.dep "kueue") ∅ w');
    [done|done|reflexivity|reflexivity].
Defined.

(** The ClusterExtension created under OLM v1 is the one the status check
    looks for: it matches its own package and namespace, given that jq follows
    paths through objects. *)
Theorem clusterExtension_recognised `{AE : ApiErrors, JQ : GoJq} (c : InstallCommand) dep ext :
  (∀ obj v, nested ["spec"; "namespace"] obj = Some v → gojq_run obj ".spec.namespace" = JqValue v) →
  (∀ obj v, nested ["spec"; "source"; "sourceType"] obj = Some v → gojq_run obj ".spec.source.sourceType" = JqValue v) →
  (∀ obj v, nested ["spec"; "source"; "catalog"; "packageName"] obj = Some v →
    gojq_run obj ".spec.source.catalog.packageName" = JqValue v) →
  clusterExtension c dep = Ok ext →
  clusterExtensionMatches ext (i_Subscription dep) (i_Namespace dep) = Ok true.
Proof.
  intros Q1 Q2 Q3. unfold clusterExtension. case_match; [done|]. intros [= <-].
  unfold clusterExtensionMatches, query_or_empty, jq_Query_string.
  erewrite Q1 by reflexivity. simpl. rewrite String.eqb_refl. simpl. rewrite andb_false_r.
  erewrite Q2 by reflexivity. simpl. erewrite Q3 by reflexivity. simpl. by rewrite String.eqb_refl.
Qed.

Lemma clusterExtension_recognised_witness :
  ∃ ext, clusterExtension InstallRun.command (InstallRun.dep "kueue") = Ok ext ∧
    clusterExtensionMatches ext "kueue" "kueue-ns" = Ok true.
Proof.
  eexists. split; [reflexivity|].
  apply (clusterExtension_recognised InstallRun.command (InstallRun.dep "kueue"));
    [intros obj v H; exact (f_equal (λ o, match o with Some v => JqValue v | None => JqValue JNull end) H)..|reflexivity].
Defined.
End InstallSpec.
