(* ===== verification/Recorder.v ===== *)
(** * Recorder: pkg/migrate/action/recorder_impl.go and action/result

    Step recorders form a tree of shared mutable objects: a task keeps a
    reference to a recorder and completes it at any later time.  The model is a
    heap of recorders; a reference is the position in it, [0] is the root, and
    the operations return the new heap. *)
From S2P Require Import Prelude Errors Check.
Open Scope string_scope.
Open Scope Z_scope.

(** ** action/result/result.go *)
Inductive StepStatus := StepPending | StepRunning | StepCompleted | StepFailed | StepSkipped.
#[export] Instance StepStatus_eq_dec : EqDecision StepStatus.
Proof. solve_decision. Defined.

(** The fields of a step besides its children; a detail value is its rendering. *)
Record StepData := mkStepData {
  sd_Name : string;
  sd_Description : string;
  sd_Status : StepStatus;
  sd_Message : string;
  sd_Timestamp : Z;
  sd_Details : gmap string string;
}.

Inductive ActionStep := mkStep (data : StepData) (children : list ActionStep).
Definition step_data (s : ActionStep) : StepData := match s with mkStep d _ => d end.
Definition step_children (s : ActionStep) : list ActionStep := match s with mkStep _ c => c end.

Record ActionResult := mkActionResult {
  ar_Group : string;
  ar_Kind : string;
  ar_Name : string;
  ar_Annotations : gmap string string;
  ar_Description : string;
  ar_DryRun : bool;
  ar_Steps : list ActionStep;
  ar_Completed : bool;
  ar_Error : string;
}.

Definition ActionResult_New (group kind name description : string) : ActionResult :=
  mkActionResult group kind name ∅ description false [] false "".

(** [hasSkipped] and [hasFailed] differ in the status they look for. *)
Fixpoint has_status (st : StepStatus) (step : ActionStep) : bool :=
  match step with
  | mkStep d children => bool_decide (sd_Status d = st) || existsb (has_status st) children
  end.
Definition hasSkipped (steps : list ActionStep) : bool := existsb (has_status StepSkipped) steps.
Definition hasFailed (steps : list ActionStep) : bool := existsb (has_status StepFailed) steps.
Definition HasSkippedSteps (r : ActionResult) : bool := hasSkipped (ar_Steps r).
Definition HasFailedSteps (r : ActionResult) : bool := hasFailed (ar_Steps r).

(** ** recorder_impl.go *)
Record stepRecorder := mkRecorder { rec_step : option StepData; rec_children : list nat }.
Notation heap := (list stepRecorder).
Notation loc := nat (only parsing).

Definition NewRootRecorder : heap := [mkRecorder None []].

Section RecorderOps.
Context `{CL : Clock}.

Definition add_child (c : loc) (r : stepRecorder) : stepRecorder :=
  mkRecorder (rec_step r) (rec_children r ++ [c]).

(** The new recorder is allocated and appended to the parent's children. *)
Definition Child (h : heap) (r : loc) (name description : string) : heap * loc :=
  let step := mkStepData name description StepRunning "" now ∅ in
  let child := length h in
  (alter (add_child child) r h ++ [mkRecorder (Some step) []], child)%list.

Definition set_done (status : StepStatus) (message : string) (r : stepRecorder) : stepRecorder :=
  mkRecorder ((λ d, mkStepData (sd_Name d) (sd_Description d) status message (sd_Timestamp d) (sd_Details d)) <$> rec_step r)
    (rec_children r).

Definition Completef (h : heap) (r : loc) (status : StepStatus) (message : string) : heap :=
  alter (set_done status message) r h.

Definition add_detail (key value : string) (r : stepRecorder) : stepRecorder :=
  mkRecorder ((λ d, mkStepData (sd_Name d) (sd_Description d) (sd_Status d) (sd_Message d) (sd_Timestamp d)
                      (<[key := value]> (sd_Details d))) <$> rec_step r)
    (rec_children r).

Definition AddDetail (h : heap) (r : loc) (key value : string) : heap := alter (add_detail key value) r h.

Definition Recordf (h : heap) (r : loc) (name message : string) (status : StepStatus) : heap :=
  let '(h', child) := Child h r name message in Completef h' child status message.

(** [buildSteps]: the depth of the recursion is bounded by the number of
    recorders, since children are allocated after their parent. *)
Fixpoint buildSteps (fuel : nat) (h : heap) (r : loc) : list ActionStep :=
  match fuel, h !! r with
  | S fuel', Some node =>
      omap (λ c, match h !! c with
                 | Some child => (λ d, mkStep d (buildSteps fuel' h c)) <$> rec_step child
                 | None => None
                 end) (rec_children node)
  | _, _ => []
  end.

Definition Build (h : heap) : ActionResult :=
  mkActionResult "" "" "" ∅ "" false (buildSteps (length h) h 0%nat) true "".
End RecorderOps.

(** ** Runs of a task

    The operations a task may perform on the recorders it was given or has
    created: references always come from the heap. *)
Inductive rec_step_rel `{CL : Clock} : heap → heap → Prop :=
| RecChild h r name description : (r < length h)%nat → rec_step_rel h (Child h r name description).1
| RecComplete h r status message : (r < length h)%nat → rec_step_rel h (Completef h r status message)
| RecDetail h r key value : (r < length h)%nat → rec_step_rel h (AddDetail h r key value)
| RecRecord h r name message status : (r < length h)%nat → rec_step_rel h (Recordf h r name message status).

Definition rec_reachable `{CL : Clock} (h : heap) : Prop := rtc rec_step_rel NewRootRecorder h.

(** ** The invariant of the heap *)
Record heap_ok (h : heap) : Prop := {
  (** children are allocated after their parent *)
  ho_later r node c : h !! r = Some node → c ∈ rec_children node → (r < c < length h)%nat;
  (** every recorder but the root hangs below another and has a step *)
  ho_parent c : (0 < c < length h)%nat → ∃ r node, h !! r = Some node ∧ c ∈ rec_children node;
  ho_step c node : h !! c = Some node → (0 < c)%nat → is_Some (rec_step node);
  ho_root : is_Some (h !! 0%nat);
}.

Lemma heap_ok_root : heap_ok NewRootRecorder.
Proof.
  split.
  - intros r node c Hr Hc. destruct r as [|r]; [|done]. injection Hr as <-. by apply elem_of_nil in Hc.
  - simpl. lia.
  - intros c node Hc Hpos. destruct c; [lia|done].
  - by eexists.
Qed.

(** Updates of a node that keep its children and do not drop its step. *)
Lemma heap_ok_alter h r f :
  (∀ n, rec_children (f n) = rec_children n ∧ (is_Some (rec_step n) → is_Some (rec_step (f n)))) →
  heap_ok h → heap_ok (alter f r h).
Proof.
  intros Hf [Hl Hp Hs Hroot].
  assert (∀ i node, alter f r h !! i = Some node → ∃ n, h !! i = Some n ∧ rec_children node = rec_children n ∧
    (is_Some (rec_step n) → is_Some (rec_step node))) as Hget.
  { intros i node. destruct (decide (i = r)) as [->|Hne].
    - rewrite list_lookup_alter_eq. intros (n & -> & Hn)%fmap_Some. subst. exists n. split; [done|apply Hf].
    - rewrite list_lookup_alter_ne by done. intros Hi. by exists node. }
  split.
  - intros i node c Hi Hc. destruct (Hget i node Hi) as (n & Hn & Hch & _). rewrite Hch in Hc.
    rewrite length_alter. by eapply Hl.
  - intros c. rewrite length_alter. intros Hc. destruct (Hp c Hc) as (i & node & Hi & Hin).
    destruct (decide (i = r)) as [->|Hne].
    + exists r, (f node). rewrite list_lookup_alter_eq, Hi. split; [done|]. by rewrite (proj1 (Hf node)).
    + exists i, node. by rewrite list_lookup_alter_ne.
  - intros c node Hc Hpos. destruct (Hget c node Hc) as (n & Hn & _ & Hst). apply Hst. by eapply Hs.
  - destruct (decide (r = 0%nat)) as [->|Hne].
    + rewrite list_lookup_alter_eq. destruct Hroot as [n ->]. by eexists.
    + by rewrite list_lookup_alter_ne.
Qed.

Lemma heap_ok_Completef h r st msg : heap_ok h → heap_ok (Completef h r st msg).
Proof. apply heap_ok_alter. intros n. split; [done|]. simpl. by destruct (rec_step n). Qed.

Lemma heap_ok_AddDetail h r k v : heap_ok h → heap_ok (AddDetail h r k v).
Proof. apply heap_ok_alter. intros n. split; [done|]. simpl. by destruct (rec_step n). Qed.

Lemma heap_ok_Child `{CL : Clock} h r name description :
  (r < length h)%nat → heap_ok h → heap_ok (Child h r name description).1.
Proof.
  intros Hr [Hl Hp Hs Hroot]. unfold Child. cbn [fst].
  set (new := mkRecorder (Some (mkStepData name description StepRunning "" now ∅)) []).
  set (n := length h).
  assert (∀ i, (i < n)%nat → (alter (add_child n) r h ++ [new])%list !! i =
    if decide (i = r) then add_child n <$> h !! r else h !! i) as Hlow.
  { intros i Hi. rewrite lookup_app_l by (by rewrite length_alter).
    case_decide as Hir; [subst; apply list_lookup_alter_eq|by apply list_lookup_alter_ne]. }
  assert ((alter (add_child n) r h ++ [new])%list !! n = Some new) as Hnew.
  { rewrite lookup_app_r by (rewrite length_alter; done). by rewrite length_alter, Nat.sub_diag. }
  assert (length (alter (add_child n) r h ++ [new])%list = S n) as Hlen.
  { rewrite length_app, length_alter. simpl. subst n. lia. }
  assert (∀ i node, (alter (add_child n) r h ++ [new])%list !! i = Some node →
    (i = n ∧ node = new) ∨ ∃ m, (i < n)%nat ∧ h !! i = Some m ∧
      ((i = r ∧ node = add_child n m) ∨ (i ≠ r ∧ node = m))) as Hcases.
  { intros i node Hi. pose proof (lookup_lt_Some _ _ _ Hi) as Hlt. rewrite Hlen in Hlt.
    destruct (decide (i = n)) as [->|Hne]; [left; split; congruence|right].
    rewrite Hlow in Hi by lia. case_decide as Hir.
    - subst. apply fmap_Some in Hi as (m & Hm & ->). exists m. split; [lia|]. auto.
    - exists node. split; [lia|]. auto. }
  split.
  - intros i node c Hi Hc. rewrite Hlen. destruct (Hcases i node Hi) as [[-> ->]|(m & Hlt & Hm & [[-> ->]|[_ ->]])].
    + by apply elem_of_nil in Hc.
    + apply elem_of_app in Hc as [Hc|Hc%list_elem_of_singleton]; [|lia].
      destruct (Hl r m c Hm Hc). fold n in H0. lia.
    + destruct (Hl i m c Hm Hc). fold n in H0. lia.
  - intros c. rewrite Hlen. intros Hc. destruct (decide (c = n)) as [->|Hne].
    + destruct (lookup_lt_is_Some_2 h r Hr) as [m Hm]. exists r, (add_child n m).
      rewrite Hlow by done. rewrite decide_True by done. rewrite Hm. split; [done|].
      apply elem_of_app. right. by left.
    + destruct (Hp c) as (i & m & Hi & Hin); [fold n; lia|].
      pose proof (lookup_lt_Some _ _ _ Hi) as Hlt. destruct (decide (i = r)) as [->|Hir].
      * exists r, (add_child n m). rewrite Hlow by done. rewrite decide_True, Hi by done. split; [done|].
        apply elem_of_app. by left.
      * exists i, m. rewrite Hlow by done. by rewrite decide_False.
  - intros c node Hc Hpos. destruct (Hcases c node Hc) as [[_ ->]|(m & _ & Hm & [[-> ->]|[_ ->]])]; [by eexists|..].
    + cbn. by apply (Hs r).
    + by apply (Hs c).
  - destruct Hroot as [m Hm]. pose proof (lookup_lt_Some _ _ _ Hm). rewrite Hlow by done.
    case_decide as H0; [rewrite <-H0, Hm; by eexists|by eexists].
Qed.

Lemma rec_step_ok `{CL : Clock} h h' : rec_step_rel h h' → heap_ok h → heap_ok h'.
Proof.
  destruct 1; intros Hok.
  - by apply heap_ok_Child.
  - by apply heap_ok_Completef.
  - by apply heap_ok_AddDetail.
  - unfold Recordf. destruct (Child h r name message) as [h' c] eqn:Hc.
    apply heap_ok_Completef. change h' with (h', c).1. rewrite <-Hc. by apply heap_ok_Child.
Qed.

Lemma rec_reachable_ok `{CL : Clock} h : rec_reachable h → heap_ok h.
Proof.
  unfold rec_reachable. pose proof heap_ok_root as Hroot. intros Hr. revert Hroot.
  induction Hr as [|x y z Hxy _ IH]; intros Hok; [done|]. apply IH. by eapply rec_step_ok.
Qed.

(** ** The report and the heap *)
Definition child_of (h : heap) (r c : loc) : Prop := ∃ node, h !! r = Some node ∧ c ∈ rec_children node.
Definition has_done (h : heap) (st : StepStatus) (c : loc) : Prop :=
  ∃ node d, h !! c = Some node ∧ rec_step node = Some d ∧ sd_Status d = st.

Lemma buildSteps_status h fuel r st :
  heap_ok h → (length h - r ≤ fuel)%nat →
  existsb (has_status st) (buildSteps fuel h r) = true ↔ ∃ c, tc (child_of h) r c ∧ has_done h st c.
Proof.
  intros Hok. revert r. induction fuel as [|fuel IH]; intros r Hfuel; cbn [buildSteps].
  { split; [done|]. intros (c & Hc & _). exfalso.
    assert (∃ x, child_of h r x) as (x & node & Hr & _) by (inversion Hc; eauto).
    apply lookup_lt_Some in Hr. lia. }
  destruct (h !! r) as [node|] eqn:Hr.
  - rewrite existsb_exists. setoid_rewrite <-list_elem_of_In. setoid_rewrite list_elem_of_omap. split.
    + intros (s & (c & Hc & Hs) & Hst). destruct (h !! c) as [child|] eqn:Hhc; [|done].
      apply fmap_Some in Hs as (d & Hd & ->). cbn [has_status] in Hst.
      assert (child_of h r c) as Hrc by by exists node.
      apply orb_true_iff in Hst as [Hst%bool_decide_eq_true|Hst].
      * exists c. split; [by apply tc_once|]. by exists child, d.
      * destruct (ho_later h Hok r node c Hr Hc). apply IH in Hst as (c' & Hc' & Hd'); [|lia].
        exists c'. split; [by eapply tc_l|done].
    + intros (c & Hc & child & d & Hhc & Hd & Hst).
      assert (∃ x, child_of h r x ∧ (x = c ∨ tc (child_of h) x c)) as (x & (node' & Hr' & Hx) & Hxc).
      { inversion Hc; subst; eauto. }
      rewrite Hr in Hr'. injection Hr' as <-. destruct (ho_later h Hok r node x Hr Hx) as [Hlt Hlen].
      destruct (lookup_lt_is_Some_2 h x Hlen) as [xn Hxn].
      destruct (ho_step h Hok x xn Hxn ltac:(lia)) as [xd Hxd].
      exists (mkStep xd (buildSteps fuel h x)). split.
      * exists x. split; [done|]. rewrite Hxn, Hxd. done.
      * cbn [has_status]. apply orb_true_iff. destruct Hxc as [->|Hxc].
        -- left. apply bool_decide_eq_true. congruence.
        -- right. apply IH; [lia|]. exists c. split; [done|]. by exists child, d.
  - split; [done|]. intros (c & Hc & _). exfalso.
    assert (∃ x, child_of h r x) as (x & node & Hr' & _) by (inversion Hc; eauto). congruence.
Qed.

(** Every recorder descends from the root. *)
Lemma from_root h c : heap_ok h → (0 < c < length h)%nat → tc (child_of h) 0%nat c.
Proof.
  intros Hok. induction (lt_wf c) as [c _ IH]. intros Hc.
  destruct (ho_parent h Hok c Hc) as (r & node & Hr & Hin).
  destruct (ho_later h Hok r node c Hr Hin) as [Hlt _].
  assert (child_of h r c) as Hrc by by exists node.
  destruct (decide (r = 0%nat)) as [->|Hne]; [by apply tc_once|].
  eapply tc_r; [|exact Hrc]. apply IH; [done|]. apply lookup_lt_Some in Hr. lia.
Qed.

Lemma tc_last {A} (R : relation A) x y : tc R x y → ∃ z, R z y.
Proof. induction 1; eauto. Qed.

Lemma Build_status h st :
  heap_ok h →
  existsb (has_status st) (ar_Steps (Build h)) = true ↔ ∃ c, (0 < c)%nat ∧ has_done h st c.
Proof.
  intros Hok. unfold Build. cbn [ar_Steps]. rewrite buildSteps_status by (done || lia). split.
  - intros (c & Hc & Hd). exists c. split; [|done].
    assert (∃ r node, h !! r = Some node ∧ c ∈ rec_children node) as (r & node & Hr & Hin).
    { destruct (tc_last _ _ _ Hc) as [r [node Hrc]]. by exists r, node. }
    destruct (ho_later h Hok r node c Hr Hin). lia.
  - intros (c & Hpos & Hd). exists c. split; [|done]. apply from_root; [done|].
    destruct Hd as (node & d & Hc & _). apply lookup_lt_Some in Hc. lia.
Qed.

(** The fuel does not matter once it covers the recorders after [r]. *)
Lemma buildSteps_fuel h f1 f2 r :
  heap_ok h → (length h - r ≤ f1)%nat → (length h - r ≤ f2)%nat → buildSteps f1 h r = buildSteps f2 h r.
Proof.
  intros Hok. revert f2 r. induction f1 as [|f1 IH]; intros [|f2] r H1 H2; cbn [buildSteps]; [done|..].
  - destruct (h !! r) eqn:Hr; [|done]. apply lookup_lt_Some in Hr. lia.
  - destruct (h !! r) eqn:Hr; [|done]. apply lookup_lt_Some in Hr. lia.
  - destruct (h !! r) as [node|] eqn:Hr; [|done].
    assert (∀ c, c ∈ rec_children node → buildSteps f1 h c = buildSteps f2 h c) as Heq.
    { intros c Hc. destruct (ho_later h Hok r node c Hr Hc). apply IH; lia. }
    clear Hr. induction (rec_children node) as [|c cs IHc]; [done|]. cbn.
    rewrite IHc by (intros; apply Heq; by right). rewrite (Heq c) by (by left). done.
Qed.

(** A task run as a list of operations, to write concrete runs. *)
Inductive rec_op :=
| OpChild (r : loc) (name description : string)
| OpComplete (r : loc) (status : StepStatus) (message : string)
| OpDetail (r : loc) (key value : string)
| OpRecord (r : loc) (name message : string) (status : StepStatus).

Definition rec_exec `{CL : Clock} (h : heap) (op : rec_op) : heap :=
  match op with
  | OpChild r name description => if decide (r < length h)%nat then (Child h r name description).1 else h
  | OpComplete r status message => if decide (r < length h)%nat then Completef h r status message else h
  | OpDetail r key value => if decide (r < length h)%nat then AddDetail h r key value else h
  | OpRecord r name message status => if decide (r < length h)%nat then Recordf h r name message status else h
  end.
Definition rec_run `{CL : Clock} (ops : list rec_op) : heap := foldl rec_exec NewRootRecorder ops.

Lemma rec_exec_reachable `{CL : Clock} h op : rec_reachable h → rec_reachable (rec_exec h op).
Proof.
  intros Hr. destruct op; simpl; case_decide; try done; (eapply rtc_r; [exact Hr|by constructor]).
Qed.

Lemma rec_run_reachable `{CL : Clock} ops : rec_reachable (rec_run ops).
Proof.
  unfold rec_run. assert (rec_reachable NewRootRecorder) as Hr by apply rtc_refl. revert Hr.
  generalize NewRootRecorder. induction ops as [|op ops IH]; intros h Hr; [done|].
  simpl. apply IH. by apply rec_exec_reachable.
Qed.

(** ** Properties *)
Module RecorderSpec.

(** C29: whatever a task records, in whatever order and on whichever recorder it
    holds, the built result reports a failed (skipped) step iff some recorder of
    the tree was last completed as failed (skipped): no recorded failure is lost
    in the nesting and none is invented; the recursion of [Build] is finite
    (any fuel from the number of recorders on gives the same steps) and the
    result is always marked completed. *)
Theorem Build_reports_every_status `{CL : Clock} h :
  rec_reachable h →
  (HasFailedSteps (Build h) = true ↔ ∃ c, (0 < c)%nat ∧ has_done h StepFailed c) ∧
  (HasSkippedSteps (Build h) = true ↔ ∃ c, (0 < c)%nat ∧ has_done h StepSkipped c) ∧
  (∀ fuel, (length h ≤ fuel)%nat → buildSteps fuel h 0%nat = ar_Steps (Build h)) ∧
  ar_Completed (Build h) = true.
Proof.
  intros Hok%rec_reachable_ok. repeat split; try (by apply Build_status); [].
  intros fuel Hfuel. apply buildSteps_fuel; [done|lia..].
Qed.

#[local] Instance witness_clock : Clock := { now := 0 }.

Definition sample_run : list rec_op :=
  [OpChild 0%nat "backup" "Backup"; OpChild 1%nat "dump" "Dump"; OpRecord 0%nat "patch" "patched" StepCompleted;
   OpDetail 2%nat "count" "3"; OpComplete 2%nat StepFailed "dump failed"; OpComplete 1%nat StepCompleted "done"].

Lemma Build_reports_every_status_witness :
  HasFailedSteps (Build (rec_run sample_run)) = true ∧ HasSkippedSteps (Build (rec_run sample_run)) = false ∧
  ∃ c, (0 < c)%nat ∧ has_done (rec_run sample_run) StepFailed c.
Proof.
  split; [vm_compute; reflexivity|]. split; [vm_compute; reflexivity|].
  apply (proj1 (Build_reports_every_status (rec_run sample_run) (rec_run_reachable sample_run))).
  vm_compute. reflexivity.
Defined.
End RecorderSpec.
