(* ===== verification/Action.v ===== *)
(** * Action: pkg/migrate/action (registry.go, executor.go, flags.go), phase.go

    Migration actions, the registry they are selected from, the generic
    executor, the registration of their flags and the choice of the lifecycle
    phase.  A task acts on the cluster and the file system: it is a state
    transformer over an arbitrary type of worlds. *)
From S2P Require Import Prelude GoPath Errors Client Version Check Recorder.
Open Scope string_scope.
Open Scope Z_scope.
Open Scope go_scope.

(** ** action.go *)
Notation ActionGroup := string (only parsing).
Notation ActionPhase := string (only parsing).
Definition PhasePreUpgrade : ActionPhase := "pre-upgrade".
Definition PhasePostUpgrade : ActionPhase := "post-upgrade".
Definition PhasePreEnablement : ActionPhase := "pre-enablement".

Definition ActionPhase_Validate (p : ActionPhase) : res go_error () :=
  if String.eqb p PhasePreUpgrade || String.eqb p PhasePostUpgrade || String.eqb p PhasePreEnablement ||
     String.eqb p "" then Ok ()
  else Err (EString ("invalid phase " +:+ quote p +:+ ": must be one of: pre-upgrade, post-upgrade, pre-enablement")).

(** The fields of [action.Target] other than the client handles, which are
    part of the world. *)
Record ActionTarget `{Semver} := mkATarget {
  at_CurrentVersion : option Version;
  at_TargetVersion : option Version;
  at_DryRun : bool;
  at_SkipConfirm : bool;
  at_OutputDir : string;
}.

(** [Task.Execute]: result pointer or error, and the world it leaves. *)
Definition Task `{Semver} (W : Type) : Type := ActionTarget → W → res go_error (option ActionResult) * W.

Record Action `{Semver} (W : Type) := mkAction {
  a_ID : string;
  a_Name : string;
  a_Description : string;
  a_Group : ActionGroup;
  a_Phase : ActionPhase;
  a_CanApply : ActionTarget → W → bool;
  a_Prepare : option (Task W);
  a_Run : option (Task W);
}.
Arguments a_ID {_ W}.
Arguments a_Name {_ W}.
Arguments a_Description {_ W}.
Arguments a_Group {_ W}.
Arguments a_Phase {_ W}.
Arguments a_CanApply {_ W}.
Arguments a_Prepare {_ W}.
Arguments a_Run {_ W}.

(** ** registry.go *)
Section Registry.
Context `{SV : Semver} {W : Type}.
Notation Action := (Action W).
Notation ActionRegistry := (gmap string Action).

Definition NewActionRegistry : ActionRegistry := ∅.

Definition Action_Register (r : ActionRegistry) (action : Action) : res go_error ActionRegistry :=
  match r !! a_ID action with
  | Some _ => Err (EString ("action with ID " +:+ quote (a_ID action) +:+ " already registered"))
  | None => Ok (<[a_ID action := action]> r)
  end.

Definition Action_MustRegister (r : ActionRegistry) (action : Action) : res go_error ActionRegistry :=
  match Action_Register r action with
  | Err e => Panic (error_string e)
  | x => x
  end.

Definition Action_Get (r : ActionRegistry) (id : string) : option Action := r !! id.

Context `{MO : MapOrder, SS : SortSlice}.

Definition id_less (a b : Action) : bool := string_less (a_ID a) (a_ID b).

Definition Action_ListAll (r : ActionRegistry) : list Action := sort_slice id_less (map_range r).*2.

Definition ActionIDs (r : ActionRegistry) : list string := map a_ID (Action_ListAll r).

Definition ListByPhase (r : ActionRegistry) (phase : ActionPhase) : list Action :=
  sort_slice id_less (List.filter (λ action, String.eqb (a_Phase action) phase) (map_range r).*2).

(** The two guards of the loop. *)
Definition passes (group : ActionGroup) (phase : ActionPhase) (action : Action) : bool :=
  negb (negb (String.eqb group "") && negb (String.eqb (a_Group action) group)) &&
  negb (negb (String.eqb phase "") && negb (String.eqb (a_Phase action) phase)).

Fixpoint filter_loop (pattern : string) (group : ActionGroup) (phase : ActionPhase) (entries : list (string * Action))
    : res go_error (list Action) :=
  match entries with
  | [] => Ok []
  | (id, action) :: rest =>
      if passes group phase action then
        match path_match pattern id with
        | None => Err (EWrap ("invalid pattern " +:+ quote pattern +:+ ": syntax error in pattern") (EString "syntax error in pattern"))
        | Some matched =>
            let! l := filter_loop pattern group phase rest in
            Ok (if (matched : bool) then action :: l else l)
        end
      else filter_loop pattern group phase rest
  end.

Definition ListByFilter (r : ActionRegistry) (pattern : string) (group : ActionGroup) (phase : ActionPhase)
    : res go_error (list Action) :=
  let! matched := filter_loop pattern group phase (map_range r) in
  Ok (sort_slice id_less matched).

Definition Action_ListByPattern (r : ActionRegistry) (pattern : string) (group : ActionGroup) : res go_error (list Action) :=
  ListByFilter r pattern group "".

(** ** executor.go *)
Record ActionExecution := mkActionExecution {
  ae_Action : Action;
  ae_Result : option ActionResult;
  ae_Error : option go_error;
}.

Definition error_result (action : Action) (msg : string) : ActionResult :=
  let r := ActionResult_New (a_Group action) (a_ID action) (a_Name action) (a_Description action) in
  mkActionResult (ar_Group r) (ar_Kind r) (ar_Name r) (ar_Annotations r) (ar_Description r) (ar_DryRun r)
    (ar_Steps r) (ar_Completed r) msg.

Definition executeAction (target : ActionTarget) (action : Action) (w : W) : res go_error ActionExecution * W :=
  match a_Run action with
  | None =>
      (Ok (mkActionExecution action (Some (error_result action "Action has no run task"))
         (Some (EString ("action " +:+ a_ID action +:+ " has no run task")))), w)
  | Some runTask =>
      match runTask target w with
      | (Ok actionResult, w') => (Ok (mkActionExecution action actionResult None), w')
      | (Err err, w') =>
          (Ok (mkActionExecution action
             (Some (error_result action ("Action execution failed: " +:+ error_string err))) (Some err)), w')
      | (Panic s, w') => (Panic s, w')
      end
  end.

Fixpoint executeActions (target : ActionTarget) (actions : list Action) (w : W)
    : res go_error (list ActionExecution) * W :=
  match actions with
  | [] => (Ok [], w)
  | action :: rest =>
      if a_CanApply action target w then
        match executeAction target action w with
        | (Ok exec, w') =>
            let '(r, w'') := executeActions target rest w' in
            ((let! l := r in Ok (exec :: l)), w'')
        | (Err e, w') => (Err e, w')
        | (Panic s, w') => (Panic s, w')
        end
      else executeActions target rest w
  end.

Definition Action_ExecuteAll (target : ActionTarget) (r : ActionRegistry) (w : W) :=
  executeActions target (Action_ListAll r) w.

Definition Action_ExecuteSelective (target : ActionTarget) (r : ActionRegistry) (pattern : string) (group : ActionGroup)
    (phase : ActionPhase) (w : W) : res go_error (list ActionExecution) * W :=
  match ListByFilter r pattern group phase with
  | Ok actions => executeActions target actions w
  | Err e => (Err (errorf_w "selecting actions" e), w)
  | Panic s => (Panic s, w)
  end.

(** ** phase.go *)
Definition DetectPhase (current target : option Version) : res go_error ActionPhase :=
  match current, target with
  | None, _ => Err (EString "current version is required for phase detection")
  | Some _, None => Err (EString "target version is required for phase detection")
  | Some current, Some target => if v_LT current target then Ok PhasePreUpgrade else Ok PhasePostUpgrade
  end.

Definition filterByPhase (actions : list Action) (phase : ActionPhase) : list Action :=
  if String.eqb phase "" then actions else List.filter (λ a, String.eqb (a_Phase a) phase) actions.

Record phaseResolverInput := mkResolverInput {
  pr_ParsedPhase : ActionPhase;
  pr_MigrationIDs : list string;
  pr_CurrentVersion : option Version;
  pr_TargetVersion : option Version;
  pr_Registry : ActionRegistry;
}.

(** The effective phase and the migration identifiers; [w] is the cluster the
    applicability tests read. *)
Definition resolvePhaseAndMigrations (input : phaseResolverInput) (w : W)
    : res go_error (ActionPhase * list string) :=
  let! effectivePhase :=
    if String.eqb (pr_ParsedPhase input) "" then
      res_map_err (errorf_w "detecting phase") (DetectPhase (pr_CurrentVersion input) (pr_TargetVersion input))
    else Ok (pr_ParsedPhase input) in
  let target := mkATarget _ (pr_CurrentVersion input) (pr_TargetVersion input) false false "" in
  Ok (effectivePhase,
      match pr_MigrationIDs input with
      | [] =>
          map a_ID (List.filter (λ act, a_CanApply act target w)
            (filterByPhase (Action_ListAll (pr_Registry input)) effectivePhase))
      | ids => ids
      end).
End Registry.

(** ** flags.go

    A flag is its name and the identity of the variable it is bound to.
    [AddFlags] gives the flags of an action that implements ActionConfigurer. *)
Section Flags.
Context `{SV : Semver} {W : Type} `{MO : MapOrder, SS : SortSlice}.
Context (AddFlags : Action W → option (gmap string nat)).

(** [FlagSet.VisitAll]: in lexicographical order. *)
Definition VisitAll (flags : gmap string nat) : list (string * nat) :=
  sort_slice (λ f g, string_less f.1 g.1) (map_range flags).

Definition register_flag (id : string) (fs : gmap string nat) (f : string * nat) : res go_error (gmap string nat) :=
  match fs !! f.1 with
  | Some existing =>
      if (existing =? f.2)%nat then Ok fs
      else Panic ("flag --" +:+ f.1 +:+ " registered by action " +:+ quote id +:+
        " conflicts with an existing flag; use a unique flag name, e.g., --" +:+
        hd "" (split_on dot id) +:+ "-" +:+ f.1)
  | None => Ok (<[f.1 := f.2]> fs)
  end.

Fixpoint register_flags (id : string) (fs : gmap string nat) (flags : list (string * nat))
    : res go_error (gmap string nat) :=
  match flags with
  | [] => Ok fs
  | f :: rest => let! fs' := register_flag id fs f in register_flags id fs' rest
  end.

Fixpoint register_actions (fs : gmap string nat) (actions : list (Action W)) : res go_error (gmap string nat) :=
  match actions with
  | [] => Ok fs
  | a :: rest =>
      match AddFlags a with
      | None => register_actions fs rest
      | Some actionFS => let! fs' := register_flags (a_ID a) fs (VisitAll actionFS) in register_actions fs' rest
      end
  end.

Definition RegisterActionFlags (r : gmap string (Action W)) (fs : gmap string nat) : res go_error (gmap string nat) :=
  register_actions fs (Action_ListAll r).
End Flags.

(** ** Lemmas on the registry *)
Definition actions_ok `{SV : Semver} {W} (r : gmap string (Action W)) : Prop :=
  ∀ k a, r !! k = Some a → a_ID a = k.

Section RegistryLemmas.
Context `{SV : Semver} {W : Type}.
Implicit Types (r : gmap string (Action W)) (a : Action W).

Lemma actions_ok_empty : actions_ok (∅ : gmap string (Action W)).
Proof. intros k a. by rewrite lookup_empty. Qed.

Lemma Action_Register_ok r a r' : actions_ok r → Action_Register r a = Ok r' → actions_ok r'.
Proof.
  intros Hok. unfold Action_Register. destruct (r !! a_ID a); [done|]. intros [= <-] k b.
  rewrite lookup_insert. case_decide; [naive_solver|apply Hok].
Qed.

Lemma elem_of_actions `{MO : MapOrder} r a : actions_ok r → a ∈ (map_range r).*2 ↔ r !! a_ID a = Some a.
Proof.
  intros Hok. rewrite list_elem_of_fmap. split.
  - intros ([k b] & -> & Hin). apply elem_of_map_range in Hin. simpl. by rewrite (Hok _ _ Hin).
  - intros Ha. exists (a_ID a, a). split; [done|]. by apply elem_of_map_range.
Qed.

Lemma actions_ids `{MO : MapOrder} r : actions_ok r → map a_ID (map_range r).*2 = (map_range r).*1.
Proof.
  intros Hok. change (a_ID <$> (map_range r).*2 = (map_range r).*1).
  rewrite <-list_fmap_compose. apply list_fmap_ext.
  intros i [k b] Hi. simpl. apply Hok, elem_of_map_range, list_elem_of_lookup. eauto.
Qed.

Lemma actions_NoDup `{MO : MapOrder} r : actions_ok r → NoDup (map a_ID (map_range r).*2).
Proof. intros Hok. rewrite actions_ids by done. apply NoDup_map_range. Qed.

Lemma sort_ids_sorted `{SS : SortSlice} (l : list (Action W)) : StronglySorted String.le (map a_ID (sort_slice id_less l)).
Proof.
  apply StronglySorted_fmap_key. eapply StronglySorted_impl; [|apply sort_slice_sorted].
  - simpl. intros x y. apply string_less_false.
  - apply (StrictWeak_key a_ID), string_less_strict.
Qed.

(** A filter of the registry, sorted: the part the three listings share. *)
Definition select `{MO : MapOrder, SS : SortSlice} (f : Action W → bool) r : list (Action W) :=
  sort_slice id_less (List.filter f (map_range r).*2).

Lemma elem_of_select `{MO : MapOrder, SS : SortSlice} f r a :
  actions_ok r → a ∈ select f r ↔ r !! a_ID a = Some a ∧ f a = true.
Proof.
  intros Hok. unfold select. rewrite sort_slice_perm, list_elem_of_In, filter_In, <-list_elem_of_In.
  by rewrite elem_of_actions.
Qed.

Lemma select_NoDup `{MO : MapOrder, SS : SortSlice} f r : actions_ok r → NoDup (map a_ID (select f r)).
Proof.
  intros Hok. unfold select. rewrite (Permutation_map a_ID (sort_slice_perm id_less _)).
  by apply NoDup_map_filter, actions_NoDup.
Qed.

Lemma select_deterministic (O1 O2 : MapOrder) (S1 S2 : SortSlice) f r :
  actions_ok r → select (MO := O1) (SS := S1) f r = select (MO := O2) (SS := S2) f r.
Proof.
  intros Hok. apply (sort_by_key_unique S1 S2 a_ID); [done|by apply NoDup_map_filter, actions_NoDup|].
  apply filter_perm, fmap_Permutation, map_range_orders.
Qed.

Lemma filter_true {A} (l : list A) : List.filter (λ _, true) l = l.
Proof. induction l; simpl; congruence. Qed.

Lemma ListAll_select `{MO : MapOrder, SS : SortSlice} r : Action_ListAll r = select (λ _, true) r.
Proof. unfold Action_ListAll, select. by rewrite filter_true. Qed.

(** The selection loop: the filter, or an error from the first entry that
    passes the guards. *)
Definition selected (pattern group phase : string) (a : Action W) : bool :=
  passes group phase a && match path_match pattern (a_ID a) with Some b => b | None => false end.

Lemma passes_true group phase a :
  passes group phase a = true ↔ (group = "" ∨ a_Group a = group) ∧ (phase = "" ∨ a_Phase a = phase).
Proof.
  unfold passes. rewrite andb_true_iff, !negb_true_iff, !andb_false_iff, !negb_false_iff, !String.eqb_eq. done.
Qed.

Lemma selected_true pattern group phase a :
  selected pattern group phase a = true ↔ passes group phase a = true ∧ path_match pattern (a_ID a) = Some true.
Proof. unfold selected. rewrite andb_true_iff. destruct (path_match _ _) as [[]|]; intuition congruence. Qed.

Lemma filter_loop_ok pattern group phase (l : list (string * Action W)) :
  Forall (λ ka, a_ID ka.2 = ka.1) l →
  match filter_loop pattern group phase l with
  | Ok l' => l' = List.filter (selected pattern group phase) l.*2
  | Err _ => path_match pattern "" = None ∧ ∃ ka, ka ∈ l ∧ passes group phase ka.2 = true
  | Panic _ => False
  end ∧
  (path_match pattern "" = None → (∃ ka, ka ∈ l ∧ passes group phase ka.2 = true) →
   is_ok (filter_loop pattern group phase l) = false).
Proof.
  induction 1 as [|[k a] l Hk Hl [IH1 IH2]]; simpl in *.
  { split; [done|]. intros _ (ka & Hka & _). by apply elem_of_nil in Hka. }
  unfold selected at 1. destruct (passes group phase a) eqn:Hp; simpl.
  - destruct (path_match pattern k) as [b|] eqn:Hm.
    + rewrite <-Hk in Hm. rewrite Hm. split.
      * destruct (filter_loop pattern group phase l) as [l'|e|s]; simpl; [by destruct b; subst|..|done].
        destruct IH1 as [Hbad (ka & Hin & Hpass)]. split; [done|]. exists ka. split; [by right|done].
      * intros Hbad. pose proof (path_match_bad_indep _ _ (a_ID a) Hbad). congruence.
    + split; [|done]. split; [by eapply path_match_bad_indep|]. exists (k, a). split; [by left|done].
  - split.
    + destruct (filter_loop pattern group phase l) as [l'|e|s]; [done|..|done].
      destruct IH1 as [Hbad (ka & Hin & Hpass)]. split; [done|]. exists ka. split; [by right|done].
    + intros Hbad (ka & Hin & Hpass). apply IH2; [done|].
      apply elem_of_cons in Hin as [->|Hin]; [simpl in Hpass; congruence|eauto].
Qed.

Lemma entries_ok `{MO : MapOrder} r : actions_ok r → Forall (λ ka, a_ID ka.2 = ka.1) (map_range r).
Proof. intros Hok. apply Forall_forall. intros [k a] Hin. apply Hok. by apply elem_of_map_range. Qed.

Lemma ListByFilter_Ok `{MO : MapOrder, SS : SortSlice} r pattern group phase l :
  actions_ok r → ListByFilter r pattern group phase = Ok l → l = select (selected pattern group phase) r.
Proof.
  intros Hok. unfold ListByFilter.
  destruct (filter_loop_ok pattern group phase (map_range r) (entries_ok r Hok)) as [H1 _].
  destruct (filter_loop _ _ _ _) as [l'|e|s]; simpl; [|done..]. intros [= <-]. by rewrite H1.
Qed.

(** An error needs a malformed pattern and an action to match it against. *)
Lemma ListByFilter_error `{MO : MapOrder, SS : SortSlice} r pattern group phase :
  actions_ok r →
  is_ok (ListByFilter r pattern group phase) = false ↔
  path_match pattern "" = None ∧ ∃ a, r !! a_ID a = Some a ∧ passes group phase a = true.
Proof.
  intros Hok. unfold ListByFilter.
  destruct (filter_loop_ok pattern group phase (map_range r) (entries_ok r Hok)) as [H1 H2].
  assert ((∃ ka, ka ∈ map_range r ∧ passes group phase ka.2 = true) ↔
    ∃ a, r !! a_ID a = Some a ∧ passes group phase a = true) as Hex.
  { split.
    - intros ([k a] & Hin%elem_of_map_range & Hp). exists a. by rewrite (Hok _ _ Hin).
    - intros (a & Ha & Hp). exists (a_ID a, a). by rewrite elem_of_map_range. }
  rewrite <-Hex. split.
  - destruct (filter_loop _ _ _ _) as [l'|e|s]; simpl; [done|done..].
  - intros [Hbad Hpass]. specialize (H2 Hbad Hpass). by destruct (filter_loop _ _ _ _).
Qed.
End RegistryLemmas.

(** ** Lemmas on flags *)
(** What merging the flags [B] into [fs] amounts to. *)
Definition merged (fs : gmap string nat) (B : string → nat → Prop) (out : res go_error (gmap string nat)) : Prop :=
  match out with
  | Ok fs' => ∀ n v, fs' !! n = Some v ↔ fs !! n = Some v ∨ B n v
  | Err _ => False
  | Panic _ => ∃ n v v', (fs !! n = Some v ∨ B n v) ∧ (fs !! n = Some v' ∨ B n v') ∧ v ≠ v'
  end.

Lemma merged_seq fs fs1 B1 B2 B out :
  (∀ n v, fs1 !! n = Some v ↔ fs !! n = Some v ∨ B1 n v) → merged fs1 B2 out →
  (∀ n v, B n v ↔ B1 n v ∨ B2 n v) → merged fs B out.
Proof.
  intros H1 H2 HB. destruct out as [fs'|e|s]; simpl in *; [|done|].
  - intros n v. rewrite H2, H1, HB. tauto.
  - destruct H2 as (n & v & v' & Hv & Hv' & Hne). exists n, v, v'.
    rewrite H1 in Hv, Hv'. rewrite !HB. tauto.
Qed.

Lemma merged_panic fs B1 B s : merged fs B1 (Panic s) → (∀ n v, B1 n v → B n v) → merged fs B (Panic s).
Proof. intros (n & v & v' & Hv & Hv' & Hne) HB. exists n, v, v'. naive_solver. Qed.

Lemma register_flag_merged id fs f : merged fs (λ n v, (n, v) = f) (register_flag id fs f).
Proof.
  destruct f as [m u]. unfold register_flag. simpl. destruct (fs !! m) as [x|] eqn:Hm.
  - destruct (Nat.eqb_spec x u) as [->|Hne]; simpl.
    + intros n v. split; [by left|]. intros [?|[= -> ->]]; done.
    + exists m, x, u. naive_solver.
  - simpl. intros n v. rewrite lookup_insert_Some. split.
    + intros [[-> ->]|[_ ?]]; [by right|by left].
    + intros [Hn|[= -> ->]]; [|by left]. right. split; [|done]. intros ->. congruence.
Qed.

Lemma register_flags_merged id fs l : merged fs (λ n v, (n, v) ∈ l) (register_flags id fs l).
Proof.
  revert fs. induction l as [|f l IH]; intros fs; simpl.
  { intros n v. rewrite elem_of_nil. tauto. }
  pose proof (register_flag_merged id fs f) as Hf. destruct (register_flag id fs f) as [fs1|e|s]; simpl; [|done|].
  - eapply merged_seq; [exact Hf|apply IH|]. intros n v. apply elem_of_cons.
  - eapply merged_panic; [exact Hf|]. simpl. intros n v ->. by left.
Qed.

Lemma elem_of_VisitAll `{MO : MapOrder, SS : SortSlice} flags n v : (n, v) ∈ VisitAll flags ↔ flags !! n = Some v.
Proof. unfold VisitAll. by rewrite sort_slice_perm, elem_of_map_range. Qed.

Lemma register_actions_merged `{SV : Semver} {W} `{MO : MapOrder, SS : SortSlice}
    (AddFlags : Action W → option (gmap string nat)) fs actions :
  merged fs (λ n v, ∃ a flags, a ∈ actions ∧ AddFlags a = Some flags ∧ flags !! n = Some v)
    (register_actions AddFlags fs actions).
Proof.
  revert fs. induction actions as [|a actions IH]; intros fs; simpl.
  { intros n v. split; [by left|]. intros [?|(a & flags & Ha & _)]; [done|]. by apply elem_of_nil in Ha. }
  destruct (AddFlags a) as [actionFS|] eqn:Ha.
  - pose proof (register_flags_merged (a_ID a) fs (VisitAll actionFS)) as Hf.
    destruct (register_flags _ _ _) as [fs1|e|s]; simpl; [|done|].
    + eapply merged_seq; [exact Hf|apply IH|]. intros n v. rewrite elem_of_VisitAll. setoid_rewrite elem_of_cons.
      naive_solver.
    + eapply merged_panic; [exact Hf|]. simpl. intros n v Hv%elem_of_VisitAll.
      exists a, actionFS. split; [by left|done].
  - eapply (merged_seq fs fs (λ _ _, False)); [|apply IH|].
    + intros. tauto.
    + intros n v. setoid_rewrite elem_of_cons. naive_solver.
Qed.

(** ** Lemmas on the phase *)
Lemma filterByPhase_select `{SV : Semver} {W} `{MO : MapOrder, SS : SortSlice} (r : gmap string (Action W)) phase target w a :
  actions_ok r →
  a ∈ List.filter (λ act, a_CanApply act target w) (filterByPhase (Action_ListAll r) phase) ↔
  r !! a_ID a = Some a ∧ (phase = "" ∨ a_Phase a = phase) ∧ a_CanApply a target w = true.
Proof.
  intros Hok. rewrite list_elem_of_In, filter_In, <-list_elem_of_In. unfold filterByPhase.
  destruct (String.eqb_spec phase "") as [->|Hne].
  - rewrite ListAll_select, elem_of_select by done. naive_solver.
  - rewrite list_elem_of_In, filter_In, <-list_elem_of_In, ListAll_select, elem_of_select by done.
    rewrite String.eqb_eq. naive_solver.
Qed.

(** A subsequence of a sorted list is sorted. *)
Lemma StronglySorted_filter {A B} (key : A → B) (R : relation B) (f : A → bool) l :
  StronglySorted R (map key l) → StronglySorted R (map key (List.filter f l)).
Proof.
  induction l as [|x l IH]; simpl; [done|]. inversion 1 as [|y k Hs Hf]; subst.
  destruct (f x); simpl; [|auto]. constructor; [auto|].
  rewrite Forall_forall in *. intros y Hy. apply Hf. rewrite list_elem_of_In, in_map_iff in *.
  destruct Hy as (z & <- & Hz). apply filter_In in Hz as [Hz _]. eauto.
Qed.

(** The actions the executor examines, each with the world at that point. *)
Fixpoint examined `{SV : Semver} {W} (target : ActionTarget) (actions : list (Action W)) (w : W) : list (Action W * W) :=
  match actions with
  | [] => []
  | a :: rest =>
      (a, w) :: examined target rest (if a_CanApply a target w then (executeAction target a w).2 else w)
  end.

(** An execution with an error carries a result that says so. *)
Definition failure_recorded `{SV : Semver} {W} (e : ActionExecution (W := W)) : Prop :=
  ∀ err, ae_Error e = Some err →
    ∃ r, ae_Result e = Some r ∧ ar_Completed r = false ∧ ar_Error r ≠ "" ∧ ar_Kind r = a_ID (ae_Action e).

Lemma executeAction_Ok `{SV : Semver} {W} (target : ActionTarget) (a : Action W) (w : W) :
  (∀ t s, a_Run a = Some t → (t target w).1 ≠ Panic s) →
  ∃ e, (executeAction target a w).1 = Ok e ∧ ae_Action e = a ∧ failure_recorded e.
Proof.
  intros Hp. unfold executeAction. destruct (a_Run a) as [t|].
  - specialize (Hp t). destruct (t target w) as [[r|err|s] w'].
    + eexists. split; [reflexivity|]. split; [done|]. intros ? [=].
    + eexists. split; [reflexivity|]. split; [done|]. intros ? _. by eexists.
    + by destruct (Hp s).
  - eexists. split; [reflexivity|]. split; [done|]. intros ? _. by eexists.
Qed.

(** ** Properties *)
Module ActionSpec.

(** selecting actions by pattern, group and phase gives exactly the
    registered actions that pass the three filters, each once and in the order
    of their identifiers, whatever the map iteration order and the sorting
    algorithm; it fails exactly when the pattern is malformed and some action
    passes the group and phase filters (a malformed pattern goes unnoticed
    otherwise), and never panics. *)
Theorem ListByFilter_exact `{SV : Semver} {W} (O1 O2 : MapOrder) (S1 S2 : SortSlice)
    (r : gmap string (Action W)) pattern group phase :
  actions_ok r →
  match ListByFilter (MO := O1) (SS := S1) r pattern group phase with
  | Ok l =>
      ListByFilter (MO := O2) (SS := S2) r pattern group phase = Ok l ∧
      StronglySorted String.le (map a_ID l) ∧ NoDup (map a_ID l) ∧
      ∀ a, a ∈ l ↔ r !! a_ID a = Some a ∧ (group = "" ∨ a_Group a = group) ∧
        (phase = "" ∨ a_Phase a = phase) ∧ path_match pattern (a_ID a) = Some true
  | Err _ => path_match pattern "" = None ∧ ∃ a, r !! a_ID a = Some a ∧ passes group phase a = true
  | Panic _ => False
  end.
Proof.
  intros Hok. pose proof (ListByFilter_error (MO := O1) (SS := S1) r pattern group phase Hok) as He1.
  pose proof (ListByFilter_error (MO := O2) (SS := S2) r pattern group phase Hok) as He2.
  destruct (ListByFilter (MO := O1) (SS := S1) r pattern group phase) as [l|e|s] eqn:H1.
  - apply ListByFilter_Ok in H1 as ->; [|done]. split.
    { assert (is_ok (ListByFilter (MO := O2) (SS := S2) r pattern group phase) = true) as H2.
      { apply not_false_iff_true. rewrite He2, <-He1. done. }
      destruct (ListByFilter (MO := O2) (SS := S2) r pattern group phase) as [l2|e|s] eqn:H2'; [|done..].
      apply ListByFilter_Ok in H2' as ->; [|done]. f_equal. by apply select_deterministic. }
    split; [apply sort_ids_sorted|]. split; [by apply select_NoDup|]. intros a.
    rewrite elem_of_select, selected_true, passes_true by done. tauto.
  - by apply He1.
  - unfold ListByFilter in H1.
    destruct (filter_loop_ok pattern group phase (map_range (MapOrder := O1) r) (entries_ok (MO := O1) r Hok)) as [Hl _].
    by destruct (filter_loop _ _ _ _).
Qed.

#[local] Existing Instance VersionRun.semver.

Definition sample (id phase : string) : Action () :=
  mkAction _ _ id id "" "migration" phase (λ _ _, true) None (Some (λ _ w, (Ok None, w))).
Definition sample_registry : gmap string (Action ()) :=
  <["raycluster.migrate" := sample "raycluster.migrate" "post-upgrade"]>
  (<["raycluster.backup" := sample "raycluster.backup" "pre-upgrade"]> ∅).

Lemma sample_registry_ok : actions_ok sample_registry.
Proof.
  intros k a. unfold sample_registry. rewrite !lookup_insert. repeat case_decide; [naive_solver..|].
  by rewrite lookup_empty.
Qed.

Lemma ListByFilter_exact_witness :
  let l := [sample "raycluster.backup" "pre-upgrade"] in
  ListByFilter sample_registry "ray*" "" "pre-upgrade" = Ok l ∧
  ∀ a, a ∈ l ↔ sample_registry !! a_ID a = Some a ∧ ("" = "" ∨ a_Group a = "") ∧
    ("pre-upgrade" = "" ∨ a_Phase a = "pre-upgrade") ∧ path_match "ray*" (a_ID a) = Some true.
Proof.
  intros l. assert (Heq : ListByFilter sample_registry "ray*" "" "pre-upgrade" = Ok l) by reflexivity.
  pose proof (ListByFilter_exact canonical_MapOrder canonical_MapOrder insertion_SortSlice insertion_SortSlice
    sample_registry "ray*" "" "pre-upgrade" sample_registry_ok) as H.
  rewrite Heq in H. destruct H as (_ & _ & _ & H). split; [exact Heq|exact H].
Defined.

(** registering the flags of all actions yields the union of the existing
    flags and theirs when no name is bound to two variables, panics when one
    is, and does nothing else; two actions may share a flag bound to one
    variable, in any order. *)
Theorem RegisterActionFlags_union `{SV : Semver} {W} `{MO : MapOrder, SS : SortSlice}
    (AddFlags : Action W → option (gmap string nat)) (r : gmap string (Action W)) (fs : gmap string nat) :
  let binds n v := fs !! n = Some v ∨
    ∃ k a flags, r !! k = Some a ∧ AddFlags a = Some flags ∧ flags !! n = Some v in
  match RegisterActionFlags AddFlags r fs with
  | Ok fs' => ∀ n v, fs' !! n = Some v ↔ binds n v
  | Err _ => False
  | Panic _ => ∃ n v v', binds n v ∧ binds n v' ∧ v ≠ v'
  end.
Proof.
  intros binds. pose proof (register_actions_merged AddFlags fs (Action_ListAll r)) as H.
  assert (∀ a, a ∈ Action_ListAll r ↔ ∃ k, r !! k = Some a) as Hin.
  { intros a. unfold Action_ListAll. rewrite sort_slice_perm, list_elem_of_fmap. split.
    - intros ([k b] & -> & Hb). apply elem_of_map_range in Hb. eauto.
    - intros [k Hk]. exists (k, a). by rewrite elem_of_map_range. }
  assert (∀ n v, (fs !! n = Some v ∨ ∃ a flags, a ∈ Action_ListAll r ∧ AddFlags a = Some flags ∧ flags !! n = Some v) ↔
    binds n v) as Hb by (intros n v; unfold binds; setoid_rewrite Hin; naive_solver).
  unfold RegisterActionFlags. destruct (register_actions _ _ _) as [fs'|e|s]; simpl in H; [|done|].
  - intros n v. by rewrite H.
  - destruct H as (n & v & v' & Hv & Hv' & Hne). exists n, v, v'. by rewrite <-!Hb.
Qed.

(** the effective phase is the one given or else the one the versions
    imply (pre-upgrade iff the cluster is older than the target); explicitly
    named migrations are kept as they are, and otherwise exactly the applicable
    actions of that phase are chosen, each once, in the order of their
    identifiers. *)
Theorem resolvePhaseAndMigrations_spec `{SV : Semver} {W} `{MO : MapOrder, SS : SortSlice} (input : phaseResolverInput)
    (w : W) phase ids :
  actions_ok (pr_Registry input) → resolvePhaseAndMigrations input w = Ok (phase, ids) →
  phase ≠ "" ∧
  (pr_ParsedPhase input ≠ "" → phase = pr_ParsedPhase input) ∧
  (pr_ParsedPhase input = "" → ∃ current target, pr_CurrentVersion input = Some current ∧
    pr_TargetVersion input = Some target ∧
    phase = if v_LT current target then PhasePreUpgrade else PhasePostUpgrade) ∧
  (pr_MigrationIDs input ≠ [] → ids = pr_MigrationIDs input) ∧
  (pr_MigrationIDs input = [] → StronglySorted String.le ids ∧ NoDup ids ∧
    ∀ id, id ∈ ids ↔ ∃ a, pr_Registry input !! id = Some a ∧ a_Phase a = phase ∧
      a_CanApply a (mkATarget _ (pr_CurrentVersion input) (pr_TargetVersion input) false false "") w = true).
Proof.
  intros Hok. unfold resolvePhaseAndMigrations.
  set (target := mkATarget _ _ _ _ _ _). intros Hr. apply res_bind_Ok_inv in Hr as (p & Hp & [= <- Hids]).
  assert (p ≠ "" ∧ (pr_ParsedPhase input ≠ "" → p = pr_ParsedPhase input) ∧
    (pr_ParsedPhase input = "" → ∃ current target, pr_CurrentVersion input = Some current ∧
      pr_TargetVersion input = Some target ∧ p = if v_LT current target then PhasePreUpgrade else PhasePostUpgrade))
    as (Hne & H1 & H2).
  { destruct (String.eqb_spec (pr_ParsedPhase input) "") as [He|He].
    - apply res_map_err_Ok in Hp. unfold DetectPhase in Hp.
      destruct (pr_CurrentVersion input) as [c|], (pr_TargetVersion input) as [t|]; try done.
      split; [by destruct (v_LT c t); injection Hp as <-|]. split; [done|]. intros _. exists c, t.
      destruct (v_LT c t); naive_solver.
    - injection Hp as <-. split; [done|]. split; [done|]. intros ?. done. }
  split; [done|]. split; [done|]. split; [done|]. split.
  { intros Hn. rewrite <-Hids. by destruct (pr_MigrationIDs input). }
  intros Hn. rewrite Hn in Hids. rewrite <-Hids. split; [|split].
  - apply StronglySorted_filter. unfold filterByPhase. destruct (String.eqb p ""); [apply sort_ids_sorted|].
    apply StronglySorted_filter, sort_ids_sorted.
  - apply NoDup_map_filter. unfold filterByPhase. rewrite ListAll_select.
    destruct (String.eqb p ""); [|apply NoDup_map_filter]; by apply select_NoDup.
  - intros id. rewrite list_elem_of_In, in_map_iff. setoid_rewrite <-list_elem_of_In. split.
    + intros (a & <- & (Ha & [->|Hph] & Hc)%filterByPhase_select); [done|..|done]. eauto.
    + intros (a & Ha & Hph & Hc). exists a. split; [by apply Hok|]. apply filterByPhase_select; [done|].
      rewrite (Hok _ _ Ha). auto.
Qed.

Lemma resolvePhaseAndMigrations_spec_witness :
  let input := mkResolverInput "post-upgrade" [] None None sample_registry in
  resolvePhaseAndMigrations input () = Ok ("post-upgrade", ["raycluster.migrate"]) ∧
  ∀ id, id ∈ ["raycluster.migrate"] ↔ ∃ a, sample_registry !! id = Some a ∧ a_Phase a = "post-upgrade" ∧
    a_CanApply a (mkATarget _ None None false false "") () = true.
Proof.
  intros input. assert (Heq : resolvePhaseAndMigrations input () = Ok ("post-upgrade", ["raycluster.migrate"]))
    by (vm_compute; reflexivity).
  split; [exact Heq|].
  exact (proj2 (proj2 (proj2 (proj2 (proj2 (proj2
    (resolvePhaseAndMigrations_spec input () _ _ sample_registry_ok Heq)))) eq_refl))).
Defined.

(** the generic executor isolates failures: unless a task panics, it
    returns one execution per action that applies at the moment it is reached,
    in order, and an execution with an error carries a result that is not
    completed and names the action and the error. *)
Theorem executeActions_isolates_failures `{SV : Semver} {W} (target : ActionTarget) (actions : list (Action W)) (w : W) :
  (∀ a v t s, (a, v) ∈ examined target actions w → a_Run a = Some t → (t target v).1 ≠ Panic s) →
  ∃ l, (executeActions target actions w).1 = Ok l ∧
    map ae_Action l = map fst (List.filter (λ av, a_CanApply av.1 target av.2) (examined target actions w)) ∧
    Forall failure_recorded l.
Proof.
  revert w. induction actions as [|a actions IH]; intros w Hp; cbn [executeActions examined]; [by exists []|].
  cbn [examined] in Hp. cbn [List.filter fst snd]. destruct (a_CanApply a target w).
  - destruct (executeAction_Ok target a w) as (e & He & Hae & Hf); [intros t s; apply (Hp a w t s); by left|].
    destruct (executeAction target a w) as [r w']. simpl in He. subst r.
    destruct (IH w') as (l & Hl & Hmap & Hall); [intros b v t s Hb; apply Hp; by right|].
    destruct (executeActions target actions w') as [r w'']. simpl in *. subst r. exists (e :: l).
    split; [done|]. split; [simpl; by rewrite Hae, Hmap|by constructor].
  - apply IH. intros b v t s Hb. apply Hp. by right.
Qed.

Lemma executeActions_isolates_failures_witness :
  let failing := mkAction _ () "x.y" "x" "" "migration" "pre-upgrade" (λ _ _, true) None
    (Some (λ _ w, (Err (EString "boom"), w))) in
  let target := mkATarget _ None None false false "" in
  ∃ l, (executeActions target [failing; sample "a.b" "pre-upgrade"] ()).1 = Ok l ∧ length l = 2%nat ∧
    Forall failure_recorded l.
Proof.
  intros failing target.
  destruct (executeActions_isolates_failures target [failing; sample "a.b" "pre-upgrade"] ()) as (l & H1 & H2 & H3).
  - intros a v t s Ha. repeat (apply elem_of_cons in Ha as [[= -> ->]|Ha]; [by intros [= <-]|]).
    by apply elem_of_nil in Ha.
  - exists l. split; [exact H1|]. split; [|exact H3]. apply (f_equal length) in H2. rewrite !length_map in H2. exact H2.
Defined.
End ActionSpec.
