(* ===== verification/Migrate.v ===== *)
(** * Migrate: pkg/migrate command_options.go, command_run.go, command_prepare.go, command_list.go

    The three commands of [migrate].  Commands run in a monad with the world
    the tasks act on and the list of what is written; everything written
    before an error stays written. *)
From S2P Require Import Prelude GoPath Errors Client Version Result Check Recorder Action.
Open Scope string_scope.
Open Scope Z_scope.
Open Scope go_scope.

(** ** Options (command_options.go) *)
Definition OutputFormatTable := "table".
Definition OutputFormatJSON := "json".
Definition OutputFormatYAML := "yaml".

Definition OutputFormat_Validate (o : string) : res go_error () :=
  if String.eqb o OutputFormatTable || String.eqb o OutputFormatJSON || String.eqb o OutputFormatYAML then Ok ()
  else Err (EString ("invalid output format: " +:+ o +:+ " (must be one of: table, json, yaml)")).

(** Whether the stream handle of the command is wrapped to drop stderr. *)
Record SharedOptions := mkShared {
  so_OutputFormat : string;
  so_Verbose : bool;
  so_Timeout : Z;
  so_quiet : bool;
}.

Definition SharedOptions_Validate (o : SharedOptions) : res go_error () :=
  let! _u := OutputFormat_Validate (so_OutputFormat o) in
  if so_Timeout o <=? 0 then Err (EString "timeout must be greater than 0") else Ok ().

(** The fields [RunCommand] and [PrepareCommand] have in common, with
    [FromStdin] of the former and [OutputDir] of the latter. *)
Record MigrateCommand `{Semver} (W : Type) := mkMigrate {
  mc_Shared : SharedOptions;
  mc_DryRun : bool;
  mc_Yes : bool;
  mc_MigrationIDs : list string;
  mc_TargetVersion : string;
  mc_Phase : string;
  mc_parsedTargetVersion : option Version;
  mc_parsedPhase : ActionPhase;
  mc_registry : gmap string (Action W);
  mc_FromStdin : bool;
  mc_OutputDir : string;
}.
Arguments mkMigrate {_ W}.
Arguments mc_Shared {_ W}.
Arguments mc_DryRun {_ W}.
Arguments mc_Yes {_ W}.
Arguments mc_MigrationIDs {_ W}.
Arguments mc_TargetVersion {_ W}.
Arguments mc_Phase {_ W}.
Arguments mc_parsedTargetVersion {_ W}.
Arguments mc_parsedPhase {_ W}.
Arguments mc_registry {_ W}.
Arguments mc_FromStdin {_ W}.
Arguments mc_OutputDir {_ W}.

Record StdinInput := mkStdin {
  si_Migrations : list string;
  si_TargetVersion : string;
  si_Phase : string;
  si_DryRun : bool;
  si_SkipConfirm : bool;
}.

(** ** Results *)
Record MigrationResultItem := mkItem {
  mi_ID : string;
  mi_Completed : bool;
  mi_Skipped : bool;
  mi_HasSkippedSteps : bool;
  mi_HasFailedSteps : bool;
  mi_PhaseMismatch : bool;
}.

Definition countWarnings (migrations : list MigrationResultItem) : Z :=
  foldl (λ warnings m, if mi_Skipped m || mi_HasSkippedSteps m || mi_PhaseMismatch m then warnings + 1 else warnings)
    0 migrations.

Definition countErrors (migrations : list MigrationResultItem) : Z :=
  foldl (λ errs m, if mi_HasFailedSteps m then errs + 1 else errs) 0 migrations.

(** [RunResult] and [PrepareResult]; the output directory is empty in the former. *)
Record MigrateResult := mkMigrateResult {
  mr_Kind : string;
  mr_Command : string;
  mr_CurrentVersion : string;
  mr_TargetVersion : string;
  mr_Phase : string;
  mr_DryRun : bool;
  mr_OutputDir : string;
  mr_Migrations : list MigrationResultItem;
  mr_Status : Status;
}.

Record migrationRow := mkRow {
  mrow_ID : string;
  mrow_Name : string;
  mrow_Phase : string;
  mrow_Applicable : string;
  mrow_Description : string;
}.

(** What a command writes. *)
Inductive event :=
| EvErr (line : string)
| EvOut (line : string)
| EvDoc (format : string) (doc : MigrateResult)
| EvRows (format : string) (rows : list migrationRow).

(** ** The monad of the commands *)
Section Monad.
Context {W : Type}.
Definition MIO (A : Type) : Type := W → res go_error A * list event * W.
Definition mio_ret {A} (a : A) : MIO A := λ w, (Ok a, [], w).
Definition mio_fail {A} (e : go_error) : MIO A := λ w, (Err e, [], w).
Definition mio_bind {A B} (m : MIO A) (k : A → MIO B) : MIO B := λ w,
  match m w with
  | (Ok a, l, w') => let '(r, l', w'') := k a w' in (r, (l ++ l')%list, w'')
  | (Err e, l, w') => (Err e, l, w')
  | (Panic s, l, w') => (Panic s, l, w')
  end.
Definition mio_lift {A} (r : res go_error A) : MIO A := λ w, (r, [], w).
Definition mio_emit (l : list event) : MIO () := λ w, (Ok (), l, w).
Definition mio_read {A} (f : W → A) : MIO A := λ w, (Ok (f w), [], w).
Definition mio_act {A} (f : W → res go_error A * W) : MIO A := λ w, let '(r, w') := f w in (r, [], w').
End Monad.
Arguments MIO : clear implicits.
Notation "'do!' x := m 'in' k" := (mio_bind m (λ x, k))
  (at level 10, x name, m at level 100, k at level 200) : go_scope.

(** ** command_run.go, command_prepare.go: configuration *)
Section Config.
Context `{SV : Semver} {W : Type}.
Notation MigrateCommand := (MigrateCommand W).
Context (changed : string → bool).
Context (check_piped : res go_error ()) (parse_stdin : res go_error StdinInput).
(** Building the REST configuration and the client. *)
Context (connect : res go_error ()).

Definition applyStdinInput (input : StdinInput) (c : MigrateCommand) : MigrateCommand :=
  mkMigrate (mc_Shared c)
    ((si_DryRun input && negb (changed "dry-run")) || mc_DryRun c)
    ((si_SkipConfirm input && negb (changed "yes")) || mc_Yes c)
    (if negb (bool_decide (si_Migrations input = [])) && negb (changed "migration") then si_Migrations input else mc_MigrationIDs c)
    (if negb (String.eqb (si_TargetVersion input) "") && negb (changed "target-version") then si_TargetVersion input else mc_TargetVersion c)
    (if negb (String.eqb (si_Phase input) "") && negb (changed "phase") then si_Phase input else mc_Phase c)
    (mc_parsedTargetVersion c) (mc_parsedPhase c) (mc_registry c) (mc_FromStdin c) (mc_OutputDir c).

Definition parseStdinConfig (c : MigrateCommand) : res go_error MigrateCommand :=
  let! _u := check_piped in
  try! input := parse_stdin else errorf_w "parsing stdin" in
  Ok (applyStdinInput input c).

(** The part of [Complete] after the client was built. *)
Definition parse_options (c : MigrateCommand) : res go_error MigrateCommand :=
  let o := mc_Shared c in
  let shared := mkShared (so_OutputFormat o) true (so_Timeout o)
    (negb (String.eqb (so_OutputFormat o) OutputFormatTable) || so_quiet o) in
  let! ver :=
    if negb (String.eqb (mc_TargetVersion c) "") then
      try! v := semver_ParseTolerant (mc_TargetVersion c)
        else errorf_w ("invalid target version " +:+ quote (mc_TargetVersion c)) in Ok (Some v)
    else Ok (mc_parsedTargetVersion c) in
  Ok (mkMigrate shared (mc_DryRun c) (mc_Yes c) (mc_MigrationIDs c) (mc_TargetVersion c) (mc_Phase c)
        ver (mc_Phase c) (mc_registry c) (mc_FromStdin c) (mc_OutputDir c)).

Definition Run_Complete (c : MigrateCommand) : res go_error MigrateCommand :=
  let! c := if mc_FromStdin c then res_map_err (EExitCode ExitValidation) (parseStdinConfig c) else Ok c in
  try! _u := connect else errorf_w "completing shared options" in
  parse_options c.

(** [defaultBackupDir]: a fresh directory in the working directory, or else
    in the default temporary one. *)
Context (MkdirTemp : string → string → W → res go_error string * W) (timestamp : string).

Definition defaultBackupDir : MIO W string := mio_act (λ w,
  let pattern := "backup-migrate-" +:+ timestamp +:+ "-*" in
  match MkdirTemp "." pattern w with
  | (Err _, w') =>
      let '(r, w'') := MkdirTemp "" pattern w' in
      (res_map_err (errorf_w "creating default backup directory") r, w'')
  | x => x
  end).

Definition Prepare_Complete (c : MigrateCommand) : MIO W MigrateCommand :=
  do! _u := mio_lift (res_map_err (errorf_w "completing shared options") connect) in
  do! c := mio_lift (parse_options c) in
  if String.eqb (mc_OutputDir c) "" then
    do! dir := defaultBackupDir in
    mio_ret (mkMigrate (mc_Shared c) (mc_DryRun c) (mc_Yes c) (mc_MigrationIDs c) (mc_TargetVersion c) (mc_Phase c)
      (mc_parsedTargetVersion c) (mc_parsedPhase c) (mc_registry c) (mc_FromStdin c) dir)
  else mio_ret c.

(** The two [Validate] differ in one word of a message. *)
Definition Migrate_Validate (verb : string) (c : MigrateCommand) : res go_error () :=
  try! _u := SharedOptions_Validate (mc_Shared c) else errorf_w "validating shared options" in
  if bool_decide (mc_MigrationIDs c = []) && String.eqb (mc_Phase c) "" then
    Err (EString ("--migration flag is required (or use --phase to " +:+ verb +:+ " all actions for a lifecycle phase)"))
  else if String.eqb (mc_TargetVersion c) "" then Err (EString "--target-version flag is required")
  else res_map_err (errorf_w "validating phase") (ActionPhase_Validate (mc_parsedPhase c)).
End Config.

(** ** The runs *)
Section Runs.
Context `{SV : Semver, AE : ApiErrors, KE : K8sErrors, JQ : GoJq, MO : MapOrder, SS : SortSlice} {W : Type}.
Notation MigrateCommand := (MigrateCommand W).
(** What the client answers in a world: the API server, the listings and OLM. *)
Context (cluster : W → ApiServer) (lister : W → ResourceType → res go_error (list json)) (olm : W → Olm).
(** Whether writing a document to stdout fails. *)
Context (stdout_error : option go_error).

Definition detect_version (w : W) : res go_error Version := Detect (SRV := cluster w) (OLM := olm w) (lister w).

Definition errorf (c : MigrateCommand) (line : string) : MIO W () :=
  mio_emit (if so_quiet (mc_Shared c) then [] else [EvErr line]).

Definition exit_validation {A} (msg : string) : MIO W A := mio_fail (EExitCode ExitValidation (EString msg)).

Definition structured (c : MigrateCommand) : bool := negb (String.eqb (so_OutputFormat (mc_Shared c)) OutputFormatTable).

Definition writeStructuredOutput (format : string) (doc : MigrateResult) : MIO W () :=
  if String.eqb format OutputFormatJSON then
    match stdout_error with
    | Some e => mio_fail (errorf_w "writing JSON output" e)
    | None => mio_emit [EvDoc format doc]
    end
  else if String.eqb format OutputFormatYAML then
    match stdout_error with
    | Some e => mio_fail (errorf_w "writing YAML output" e)
    | None => mio_emit [EvDoc format doc]
    end
  else mio_fail (EString ("unsupported output format: " +:+ format)).

(** The banner of a migration of a longer list. *)
Definition banner (c : MigrateCommand) (what : string) (idx total : nat) (migrationID : string) : MIO W () :=
  if (1 <? total)%nat then
    errorf c (newline +:+ "=== " +:+ what +:+ " " +:+ itoa (Z.of_nat idx + 1) +:+ "/" +:+ itoa (Z.of_nat total) +:+ ": " +:+
      migrationID +:+ " ===" +:+ newline)
  else mio_ret ().

Definition find_migration (c : MigrateCommand) (migrationID : string) : MIO W (Action W) :=
  match Action_Get (mc_registry c) migrationID with
  | None => exit_validation ("migration " +:+ quote migrationID +:+ " not found")
  | Some a => mio_ret a
  end.

Definition warn_phase (c : MigrateCommand) (a : Action W) (migrationID : string) (effectivePhase : ActionPhase)
    : MIO W bool :=
  if negb (String.eqb (a_Phase a) effectivePhase) then
    do! _u := errorf c ("WARNING: migration " +:+ migrationID +:+ " has phase " +:+ a_Phase a +:+
      " but effective phase is " +:+ effectivePhase +:+ "; proceeding because --migration was explicit") in
    mio_ret true
  else mio_ret false.

(** Executing a task: an error is reported under [what], and so is a result
    that is not completed; a nil result is dereferenced. *)
Definition execute_task (c : MigrateCommand) (t : Task W) (target : ActionTarget) (noun halted migrationID : string)
    : MIO W ActionResult :=
  do! out := (λ w, match t target w with
                   | (Err e, w') => (Err (EExitCode ExitValidation (errorf_w (halted +:+ " failed") e)), [], w')
                   | (r, w') => (r, [], w')
                   end) in
  do! _u := errorf c "" in
  match out with
  | None => mio_lift (Panic "invalid memory address or nil pointer dereference")
  | Some r =>
      if ar_Completed r then mio_ret r
      else
        do! _v := errorf c (noun +:+ " " +:+ migrationID +:+ " incomplete - please review the output above") in
        exit_validation (halted +:+ " halted: " +:+ migrationID)
  end.

(** *** command_run.go *)
(** One iteration of the loop of [runMigrationMode]. *)
Definition run_migration (c : MigrateCommand) (currentVersion targetVersion : Version) (effectivePhase : ActionPhase)
    (idx total : nat) (migrationID : string) : MIO W MigrationResultItem :=
  do! _a := banner c "Migration" idx total migrationID in
  do! selectedAction := find_migration c migrationID in
  do! phaseMismatch := warn_phase c selectedAction migrationID effectivePhase in
  do! _b := errorf c (newline +:+ migrationID +:+ ":" +:+ newline) in
  let target := mkATarget _ (Some currentVersion) (Some targetVersion) (mc_DryRun c) (mc_Yes c) "" in
  do! _c := errorf c
    (if mc_DryRun c then "DRY RUN MODE: No changes will be made to the cluster" +:+ newline
     else if mc_Yes c then "Running migration: " +:+ migrationID +:+ " (confirmations skipped)" +:+ newline
     else "Preparing migration: " +:+ migrationID +:+ newline) in
  match a_Run selectedAction with
  | None => exit_validation ("migration " +:+ quote migrationID +:+ " has no run task")
  | Some runTask =>
      do! actionResult := execute_task c runTask target "Migration" "migration" migrationID in
      let skippedSteps := HasSkippedSteps actionResult in
      let failedSteps := HasFailedSteps actionResult in
      do! _d := errorf c
        (if failedSteps then "Migration " +:+ migrationID +:+ " completed with failures"
         else if skippedSteps then "Migration " +:+ migrationID +:+ " completed with skipped steps"
         else "Migration " +:+ migrationID +:+ " completed successfully!") in
      mio_ret (mkItem migrationID (ar_Completed actionResult) false skippedSteps failedSteps phaseMismatch)
  end.

(** The loop; the flags [hasFailures] and [hasSkips] are carried along. *)
Fixpoint run_loop (body : nat → string → MIO W MigrationResultItem) (idx : nat) (ids : list string)
    (migrationResults : list MigrationResultItem) (hasFailures hasSkips : bool)
    : MIO W (list MigrationResultItem * bool * bool) :=
  match ids with
  | [] => mio_ret (migrationResults, hasFailures, hasSkips)
  | migrationID :: rest =>
      do! item := body idx migrationID in
      run_loop body (S idx) rest (migrationResults ++ [item])%list (mi_HasFailedSteps item || hasFailures)
        (mi_HasSkippedSteps item || hasSkips)
  end.

Definition failures_error : go_error := EString "one or more migrations completed with failures".

Definition reportRunSummary (c : MigrateCommand) (hasFailures hasSkips : bool) : MIO W () :=
  do! _a := mio_emit [EvOut ""] in
  if hasFailures then
    do! _b := errorf c
      (if hasSkips then "All migrations completed (some steps failed, some were skipped). Review the output above for details."
       else "All migrations completed (some steps failed). Review the output above for details.") in
    mio_fail failures_error
  else
    errorf c (if hasSkips then "All migrations completed (some steps were skipped)."
              else "All migrations completed successfully!").

Definition writeRunResult (c : MigrateCommand) (currentVersion targetVersion : Version) (phase : ActionPhase)
    (migrations : list MigrationResultItem) : MIO W () :=
  let result := mkMigrateResult "MigrateRunResult" "migrate run" (v_String currentVersion) (v_String targetVersion)
    phase (mc_DryRun c) "" migrations (NewStatus (countWarnings migrations) (countErrors migrations)) in
  if 0 <? countErrors migrations then
    do! _a := writeStructuredOutput (so_OutputFormat (mc_Shared c)) result in
    mio_fail failures_error
  else writeStructuredOutput (so_OutputFormat (mc_Shared c)) result.

Definition versions_header (c : MigrateCommand) (currentVersion targetVersion : Version) : MIO W () :=
  do! _a := errorf c ("Current OpenShift AI version: " +:+ v_String currentVersion) in
  errorf c ("Target OpenShift AI version: " +:+ v_String targetVersion).

Definition runMigrationMode (c : MigrateCommand) (currentVersion targetVersion : Version) (effectivePhase : ActionPhase)
    : MIO W () :=
  do! _a := versions_header c currentVersion targetVersion in
  do! _b := errorf c ("Phase: " +:+ effectivePhase +:+ newline) in
  do! out := run_loop (λ idx id, run_migration c currentVersion targetVersion effectivePhase idx
                (length (mc_MigrationIDs c)) id) 0%nat (mc_MigrationIDs c) [] false false in
  let '(migrationResults, hasFailures, hasSkips) := out in
  if structured c then writeRunResult c currentVersion targetVersion effectivePhase migrationResults
  else reportRunSummary c hasFailures hasSkips.

(** *** command_prepare.go *)
Context (ReadDir : string → W → res go_error nat) (is_not_exist : go_error → bool).

Definition prepare_migration (c : MigrateCommand) (currentVersion targetVersion : Version) (effectivePhase : ActionPhase)
    (idx total : nat) (migrationID : string) : MIO W MigrationResultItem :=
  do! _a := banner c "Preparation" idx total migrationID in
  do! selectedAction := find_migration c migrationID in
  do! phaseMismatch := warn_phase c selectedAction migrationID effectivePhase in
  match a_Prepare selectedAction with
  | None =>
      do! _b := errorf c ("Migration " +:+ migrationID +:+ " has no prepare phase (skipped)" +:+ newline) in
      mio_ret (mkItem migrationID false true false false phaseMismatch)
  | Some prepareTask =>
      do! _b := errorf c (newline +:+ migrationID +:+ ":" +:+ newline) in
      let target := mkATarget _ (Some currentVersion) (Some targetVersion) (mc_DryRun c) (mc_Yes c) (mc_OutputDir c) in
      do! _c := if mc_DryRun c then errorf c ("DRY RUN MODE: No files will be written" +:+ newline) else mio_ret () in
      do! actionResult := execute_task c prepareTask target "Preparation" "preparation" migrationID in
      do! _d := errorf c ("Preparation " +:+ migrationID +:+ " completed successfully!") in
      mio_ret (mkItem migrationID (ar_Completed actionResult) false (HasSkippedSteps actionResult) false phaseMismatch)
  end.

Definition writePrepareResult (c : MigrateCommand) (currentVersion targetVersion : Version) (phase : ActionPhase)
    (migrations : list MigrationResultItem) : MIO W () :=
  writeStructuredOutput (so_OutputFormat (mc_Shared c))
    (mkMigrateResult "MigratePrepareResult" "migrate prepare" (v_String currentVersion) (v_String targetVersion)
      phase (mc_DryRun c) (mc_OutputDir c) migrations (NewStatus (countWarnings migrations) 0)).

Definition reportPrepareSummary (c : MigrateCommand) : MIO W () :=
  do! _a := mio_emit [EvOut ""] in
  if mc_DryRun c then errorf c "Dry-run complete. Run without --dry-run to create backups."
  else
    do! _b := errorf c "All preparations completed successfully!" in
    do! entries := mio_read (ReadDir (mc_OutputDir c)) in
    do! _c := errorf c
      (match entries with
       | Ok (S _) => "Backups saved to: " +:+ mc_OutputDir c
       | Err err =>
           if is_not_exist err then "No backups were created — all backup steps were skipped (see output above for details)."
           else "Warning: could not read backup directory: " +:+ error_string err
       | _ => "No backups were created — all backup steps were skipped (see output above for details)."
       end) in
    errorf c (newline +:+ "Run 'migrate run' to execute the migration.").

Definition runPrepareMode (c : MigrateCommand) (currentVersion targetVersion : Version) (effectivePhase : ActionPhase)
    : MIO W () :=
  do! _a := versions_header c currentVersion targetVersion in
  do! _b := errorf c ("Phase: " +:+ effectivePhase) in
  do! _c := errorf c ("Backup directory: " +:+ mc_OutputDir c +:+ newline) in
  do! out := run_loop (λ idx id, prepare_migration c currentVersion targetVersion effectivePhase idx
                (length (mc_MigrationIDs c)) id) 0%nat (mc_MigrationIDs c) [] false false in
  let '(migrationResults, _, _) := out in
  if structured c then writePrepareResult c currentVersion targetVersion effectivePhase migrationResults
  else reportPrepareSummary c.

(** *** [Run] of the two commands *)
Definition set_ids (c : MigrateCommand) (ids : list string) : MigrateCommand :=
  mkMigrate (mc_Shared c) (mc_DryRun c) (mc_Yes c) ids (mc_TargetVersion c) (mc_Phase c)
    (mc_parsedTargetVersion c) (mc_parsedPhase c) (mc_registry c) (mc_FromStdin c) (mc_OutputDir c).

(** The two methods differ in the mode they end with; [targetVersion.String()]
    dereferences the pointer. *)
Definition command_run (mode : MigrateCommand → Version → Version → ActionPhase → MIO W ()) (c : MigrateCommand)
    : MIO W () :=
  do! detected := mio_read detect_version in
  do! currentVersion := mio_lift (res_map_err (errorf_w "detecting cluster version") detected) in
  do! resolved := mio_read (resolvePhaseAndMigrations (mkResolverInput (mc_parsedPhase c) (mc_MigrationIDs c)
    (Some currentVersion) (mc_parsedTargetVersion c) (mc_registry c))) in
  do! resolution := mio_lift resolved in
  let '(effectivePhase, resolvedIDs) := resolution in
  do! _a := if String.eqb (mc_parsedPhase c) "" then errorf c ("Auto-detected phase: " +:+ effectivePhase) else mio_ret () in
  let c := set_ids c resolvedIDs in
  match resolvedIDs with
  | [] => exit_validation ("no applicable migrations found for phase " +:+ effectivePhase)
  | _ =>
      match mc_parsedTargetVersion c with
      | None => mio_lift (Panic "invalid memory address or nil pointer dereference")
      | Some targetVersion => mode c currentVersion targetVersion effectivePhase
      end
  end.

Definition RunCommand_Run (c : MigrateCommand) : MIO W () := command_run runMigrationMode c.
Definition PrepareCommand_Run (c : MigrateCommand) : MIO W () := command_run runPrepareMode c.
End Runs.

(** ** command_list.go *)
Record ListCommand `{Semver} (W : Type) := mkList {
  lc_Shared : SharedOptions;
  lc_TargetVersion : string;
  lc_ShowAll : bool;
  lc_Phase : string;
  lc_parsedTargetVersion : option Version;
  lc_registry : gmap string (Action W);
}.
Arguments mkList {_ W}.
Arguments lc_Shared {_ W}.
Arguments lc_TargetVersion {_ W}.
Arguments lc_ShowAll {_ W}.
Arguments lc_Phase {_ W}.
Arguments lc_parsedTargetVersion {_ W}.
Arguments lc_registry {_ W}.

Section ListRun.
Context `{SV : Semver, AE : ApiErrors, KE : K8sErrors, JQ : GoJq, MO : MapOrder, SS : SortSlice} {W : Type}.
Notation ListCommand := (ListCommand W).
Context (cluster : W → ApiServer) (lister : W → ResourceType → res go_error (list json)) (olm : W → Olm).
(** Building the client; whether rendering the table to stdout fails. *)
Context (connect : res go_error ()) (render_error : option go_error).

Definition List_Complete (c : ListCommand) : res go_error ListCommand :=
  try! _u := connect else errorf_w "completing shared options" in
  let o := lc_Shared c in
  let shared := mkShared (so_OutputFormat o) (so_Verbose o) (so_Timeout o) (negb (so_Verbose o) || so_quiet o) in
  let! ver :=
    if negb (String.eqb (lc_TargetVersion c) "") then
      try! v := semver_ParseTolerant (lc_TargetVersion c)
        else errorf_w ("invalid target version " +:+ quote (lc_TargetVersion c)) in Ok (Some v)
    else Ok (lc_parsedTargetVersion c) in
  Ok (mkList shared (lc_TargetVersion c) (lc_ShowAll c) (lc_Phase c) ver (lc_registry c)).

Definition List_Validate (c : ListCommand) : res go_error () :=
  try! _u := SharedOptions_Validate (lc_Shared c) else errorf_w "validating shared options" in
  if lc_ShowAll c && negb (String.eqb (lc_TargetVersion c) "") then
    Err (EString "--all and --target-version are mutually exclusive")
  else if negb (lc_ShowAll c) && String.eqb (lc_TargetVersion c) "" then
    Err (EString "--target-version flag is required")
  else res_map_err (errorf_w "validating phase") (ActionPhase_Validate (lc_Phase c)).

(** One row, unless the action is left out. *)
Definition build_row (c : ListCommand) (currentVersion : option Version) (w : W) (act : Action W) : option migrationRow :=
  let row applicableStr := mkRow (a_ID act) (a_Name act) (a_Phase act) applicableStr (a_Description act) in
  if lc_ShowAll c && bool_decide (lc_parsedTargetVersion c = None) then Some (row "N/A")
  else
    let applicable := a_CanApply act (mkATarget _ currentVersion (lc_parsedTargetVersion c) false false "") w in
    if negb (lc_ShowAll c) && negb applicable then None
    else Some (row (if applicable then "Yes" else "No")).

Definition buildRows (c : ListCommand) (actions : list (Action W)) (currentVersion : option Version) (w : W)
    : list migrationRow := omap (build_row c currentVersion w) actions.

Definition list_errorf (c : ListCommand) (line : string) : MIO W () :=
  mio_emit (if so_quiet (lc_Shared c) then [] else [EvErr line]).

Definition printRows (c : ListCommand) (rows : list migrationRow) : MIO W () :=
  let format := so_OutputFormat (lc_Shared c) in
  if String.eqb format OutputFormatTable then
    match render_error with
    | Some e => mio_fail e
    | None => mio_emit [EvRows format rows]
    end
  else if String.eqb format OutputFormatJSON || String.eqb format OutputFormatYAML then mio_emit [EvRows format rows]
  else mio_fail (EString ("unsupported output format: " +:+ format)).

Definition printPhaseHint (c : ListCommand) (currentVersion : option Version) : MIO W () :=
  if negb (String.eqb (lc_Phase c) "") || bool_decide (currentVersion = None) ||
     negb (String.eqb (so_OutputFormat (lc_Shared c)) OutputFormatTable) then mio_ret ()
  else
    match DetectPhase currentVersion (lc_parsedTargetVersion c) with
    | Ok detectedPhase =>
        mio_emit [EvOut (newline +:+ "Note: 'migrate run' will auto-detect phase as " +:+ quote detectedPhase +:+
                    " for this cluster." +:+ newline);
                  EvOut ("Use --phase to filter the list by lifecycle phase." +:+ newline)]
    | _ => mio_ret ()
    end.

Definition ListCommand_Run (c : ListCommand) : MIO W () :=
  do! currentVersion :=
    if lc_ShowAll c then mio_ret None
    else
      do! detected := mio_read (λ w, Detect (SRV := cluster w) (OLM := olm w) (lister w)) in
      do! v := mio_lift (res_map_err (errorf_w "detecting cluster version") detected) in
      mio_ret (Some v) in
  match Action_ListAll (lc_registry c) with
  | [] => list_errorf c "No migrations registered"
  | allActions =>
      match filterByPhase allActions (lc_Phase c) with
      | [] => list_errorf c ("No migrations found for phase " +:+ quote (lc_Phase c))
      | phaseActions =>
          do! rows := mio_read (buildRows c phaseActions currentVersion) in
          match rows with
          | [] => list_errorf c ("no migrations applicable for version " +:+ lc_TargetVersion c)
          | _ =>
              do! _u := printRows c rows in
              printPhaseHint c currentVersion
          end
      end
  end.
End ListRun.

(** ** Commands up to what they write

    Two commands are equivalent when they end in the same result and leave the
    same world; messages do not matter. *)
Section Equivalence.
Context {W : Type}.

Definition outcome {A} (m : MIO W A) (w : W) : res go_error A * W := ((m w).1.1, (m w).2).
Definition mio_equiv {A} (m m' : MIO W A) : Prop := ∀ w, outcome m w = outcome m' w.

#[export] Instance mio_equiv_equivalence A : Equivalence (@mio_equiv A).
Proof. split; [done|by intros m m' H w|intros m1 m2 m3 H1 H2 w; by rewrite H1]. Qed.

#[export] Instance mio_bind_proper A B :
  Proper (@mio_equiv A ==> pointwise_relation A (@mio_equiv B) ==> @mio_equiv B) mio_bind.
Proof.
  intros m m' Hm k k' Hk w. specialize (Hm w). unfold outcome, mio_bind in *.
  destruct (m w) as [[r l] v], (m' w) as [[r' l'] v']. simpl in Hm. injection Hm as -> ->.
  destruct r' as [a|e|s]; [|done..]. specialize (Hk a v'). unfold outcome in Hk.
  destruct (k a v') as [[x y] z], (k' a v') as [[x' y'] z']. simpl in *. by injection Hk as -> ->.
Qed.

Lemma emit_equiv (l : list event) : mio_equiv (mio_emit l) (mio_ret ()).
Proof. done. Qed.

Lemma ret_bind {A B} (a : A) (k : A → MIO W B) : mio_equiv (mio_bind (mio_ret a) k) (k a).
Proof. intros w. unfold outcome, mio_bind, mio_ret. by destruct (k a w) as [[r l] v]. Qed.

(** What a bind does, from the outcome of its first part. *)
Lemma outcome_bind {A B} (m : MIO W A) (k : A → MIO W B) w :
  outcome (mio_bind m k) w =
  match outcome m w with
  | (Ok a, w') => outcome (k a) w'
  | (Err e, w') => (Err e, w')
  | (Panic s, w') => (Panic s, w')
  end.
Proof.
  unfold outcome, mio_bind. destruct (m w) as [[[a|e|s] l] v]; simpl; [|done..].
  by destruct (k a v) as [[r l'] v'].
Qed.

Lemma errorf_equiv `{SV : Semver} (c : MigrateCommand W) line : mio_equiv (errorf c line) (mio_ret ()).
Proof. apply emit_equiv. Qed.

Lemma banner_equiv `{SV : Semver} (c : MigrateCommand W) what idx total id : mio_equiv (banner c what idx total id) (mio_ret ()).
Proof. unfold banner. by case_match. Qed.

Lemma warn_phase_equiv `{SV : Semver} (c : MigrateCommand W) a id phase :
  mio_equiv (warn_phase c a id phase) (mio_ret (negb (String.eqb (a_Phase a) phase))).
Proof. unfold warn_phase. case_match; [|done]. by rewrite errorf_equiv, ret_bind. Qed.
End Equivalence.

(** ** Reference semantics of a run

    The migrations are executed one after the other, each in the world its
    predecessor left, until one is unknown, has no task, fails or does not
    complete. *)
Section Reference.
Context `{SV : Semver} {W : Type}.

Definition not_found (id : string) : go_error :=
  EExitCode ExitValidation (EString ("migration " +:+ quote id +:+ " not found")).

(** A task's result, or the error that stops the command. *)
Definition task_outcome (halted id : string) (t : Task W) (target : ActionTarget) (w : W) : res go_error ActionResult * W :=
  match t target w with
  | (Ok (Some r), w') =>
      if ar_Completed r then (Ok r, w')
      else (Err (EExitCode ExitValidation (EString (halted +:+ " halted: " +:+ id))), w')
  | (Ok None, w') => (Panic "invalid memory address or nil pointer dereference", w')
  | (Err e, w') => (Err (EExitCode ExitValidation (errorf_w (halted +:+ " failed") e)), w')
  | (Panic s, w') => (Panic s, w')
  end.

Definition ref_run_one (reg : gmap string (Action W)) (target : ActionTarget) (phase id : string) (w : W)
    : res go_error MigrationResultItem * W :=
  match reg !! id with
  | None => (Err (not_found id), w)
  | Some a =>
      match a_Run a with
      | None => (Err (EExitCode ExitValidation (EString ("migration " +:+ quote id +:+ " has no run task"))), w)
      | Some t =>
          let '(r, w') := task_outcome "migration" id t target w in
          (res_bind r (λ r, Ok (mkItem id true false (HasSkippedSteps r) (HasFailedSteps r)
             (negb (String.eqb (a_Phase a) phase)))), w')
      end
  end.

Definition ref_prepare_one (reg : gmap string (Action W)) (target : ActionTarget) (phase id : string) (w : W)
    : res go_error MigrationResultItem * W :=
  match reg !! id with
  | None => (Err (not_found id), w)
  | Some a =>
      let mismatch := negb (String.eqb (a_Phase a) phase) in
      match a_Prepare a with
      | None => (Ok (mkItem id false true false false mismatch), w)
      | Some t =>
          let '(r, w') := task_outcome "preparation" id t target w in
          (res_bind r (λ r, Ok (mkItem id true false (HasSkippedSteps r) false mismatch)), w')
      end
  end.

Fixpoint ref_loop (step : string → W → res go_error MigrationResultItem * W) (ids : list string) (w : W)
    : res go_error (list MigrationResultItem) * W :=
  match ids with
  | [] => (Ok [], w)
  | id :: rest =>
      match step id w with
      | (Ok item, w') => let '(r, w'') := ref_loop step rest w' in (res_bind r (λ l, Ok (item :: l)), w'')
      | (Err e, w') => (Err e, w')
      | (Panic s, w') => (Panic s, w')
      end
  end.
End Reference.

Section RunLemmas.
Context `{SV : Semver} {W : Type}.
Implicit Types (c : MigrateCommand W).

Lemma execute_task_outcome c t target noun halted id w :
  outcome (execute_task c t target noun halted id) w = task_outcome halted id t target w.
Proof.
  unfold execute_task, task_outcome. rewrite outcome_bind. unfold outcome at 1.
  destruct (t target w) as [[[r|]|e|s] w']; simpl; [|done..].
  rewrite outcome_bind. simpl. destruct (ar_Completed r); [done|]. by rewrite outcome_bind.
Qed.

(** A part that only writes can be skipped. *)
Lemma skip_bind {A B} (m : MIO W A) (a : A) (k : A → MIO W B) w :
  mio_equiv m (mio_ret a) → outcome (mio_bind m k) w = outcome (k a) w.
Proof. intros Hm. by rewrite outcome_bind, (Hm w). Qed.

Lemma execute_task_completed c t target noun halted id w r w' :
  outcome (execute_task c t target noun halted id) w = (Ok r, w') → ar_Completed r = true.
Proof.
  rewrite execute_task_outcome. unfold task_outcome. destruct (t target w) as [[[r'|]|e|s] w'']; try done.
  destruct (ar_Completed r') eqn:Hc; [|done]. by intros [= <- _].
Qed.

Lemma run_migration_outcome c cur tgt phase idx total id w :
  outcome (run_migration c cur tgt phase idx total id) w =
  ref_run_one (mc_registry c) (mkATarget _ (Some cur) (Some tgt) (mc_DryRun c) (mc_Yes c) "") phase id w.
Proof.
  unfold run_migration, ref_run_one. rewrite (skip_bind _ _ _ w (banner_equiv c _ idx total id)).
  rewrite outcome_bind. unfold find_migration, Action_Get.
  destruct (mc_registry c !! id) as [a|]; [|done]. cbn [outcome mio_ret fst snd].
  rewrite (skip_bind _ _ _ w (warn_phase_equiv c a id phase)), !(skip_bind _ _ _ w (errorf_equiv c _)).
  destruct (a_Run a) as [t|]; [|done]. rewrite outcome_bind, execute_task_outcome.
  destruct (task_outcome _ _ _ _ _) as [[r|e|s] w'] eqn:Ht; simpl; [|done..].
  rewrite <-(execute_task_outcome c _ _ "Migration") in Ht. apply execute_task_completed in Ht as Hc.
  rewrite (skip_bind _ _ _ w' (errorf_equiv c _)). unfold outcome. simpl. by rewrite Hc.
Qed.

Lemma prepare_migration_outcome c cur tgt phase idx total id w :
  outcome (prepare_migration c cur tgt phase idx total id) w =
  ref_prepare_one (mc_registry c) (mkATarget _ (Some cur) (Some tgt) (mc_DryRun c) (mc_Yes c) (mc_OutputDir c)) phase id w.
Proof.
  unfold prepare_migration, ref_prepare_one. rewrite (skip_bind _ _ _ w (banner_equiv c _ idx total id)).
  rewrite outcome_bind. unfold find_migration, Action_Get.
  destruct (mc_registry c !! id) as [a|]; [|done]. cbn [outcome mio_ret fst snd].
  rewrite (skip_bind _ _ _ w (warn_phase_equiv c a id phase)).
  destruct (a_Prepare a) as [t|]; [|by rewrite (skip_bind _ _ _ w (errorf_equiv c _))].
  rewrite (skip_bind _ _ _ w (errorf_equiv c _)).
  rewrite (skip_bind _ () _ w) by (destruct (mc_DryRun c); done).
  rewrite outcome_bind, execute_task_outcome.
  destruct (task_outcome _ _ _ _ _) as [[r|e|s] w'] eqn:Ht; simpl; [|done..].
  rewrite <-(execute_task_outcome c _ _ "Preparation") in Ht. apply execute_task_completed in Ht as Hc.
  rewrite (skip_bind _ _ _ w' (errorf_equiv c _)). unfold outcome. simpl. by rewrite Hc.
Qed.

Lemma run_loop_outcome (body : nat → string → MIO W MigrationResultItem) step idx ids acc f s w :
  (∀ idx id w, outcome (body idx id) w = step id w) →
  outcome (run_loop body idx ids acc f s) w =
  match ref_loop step ids w with
  | (Ok items, w') => (Ok ((acc ++ items)%list, existsb mi_HasFailedSteps items || f, existsb mi_HasSkippedSteps items || s), w')
  | (Err e, w') => (Err e, w')
  | (Panic p, w') => (Panic p, w')
  end.
Proof.
  intros Hb. revert idx acc f s w. induction ids as [|id ids IH]; intros idx acc f s w; simpl.
  { unfold outcome. simpl. by rewrite app_nil_r. }
  rewrite outcome_bind, Hb. destruct (step id w) as [[item|e|p] w']; [|done..].
  rewrite IH. destruct (ref_loop step ids w') as [[items|e|p] w'']; simpl; [|done..].
  rewrite <-app_assoc. simpl. do 2 f_equal. f_equal; [f_equal|]; rewrite orb_assoc, (orb_comm _ (existsb _ _)); done.
Qed.

Lemma countErrors_pos items : 0 <? countErrors items = existsb mi_HasFailedSteps items.
Proof.
  unfold countErrors. assert (∀ n, 0 <= n →
    0 <? foldl (λ errs m, if mi_HasFailedSteps m then errs + 1 else errs) n items = (0 <? n) || existsb mi_HasFailedSteps items) as H.
  { induction items as [|m items IH]; intros n Hn; simpl; [by rewrite orb_false_r|].
    destruct (mi_HasFailedSteps m); rewrite IH by lia; [|done].
    destruct (Z.ltb_spec 0 (n + 1)); [|lia]. simpl. by rewrite orb_true_r. }
  by rewrite H.
Qed.

Lemma log_bind {A B} (m : MIO W A) (k : A → MIO W B) w a w' ev :
  outcome m w = (Ok a, w') → ev ∈ (k a w').1.2 → ev ∈ (mio_bind m k w).1.2.
Proof.
  unfold outcome, mio_bind. destruct (m w) as [[r l] v]. simpl. intros [= -> ->].
  destruct (k a w') as [[r' l'] v']. simpl. intros H. apply elem_of_app. by right.
Qed.
End RunLemmas.

(** *** Facts on the reference semantics *)
Section ReferenceLemmas.
Context `{SV : Semver} {W : Type}.
Implicit Types (reg : gmap string (Action W)).

Lemma ref_loop_ids step ids (w : W) items w' :
  (∀ id w item w', step id w = (Ok item, w') → mi_ID item = id) →
  ref_loop step ids w = (Ok items, w') → map mi_ID items = ids.
Proof.
  intros Hstep. revert w items w'. induction ids as [|id ids IH]; intros w items w'; simpl; [by intros [= <- _]|].
  destruct (step id w) as [[item|e|s] u] eqn:H1; [|done..].
  destruct (ref_loop step ids u) as [[l|e|s] u'] eqn:H2; simpl; [|done..]. intros [= <- _]. simpl.
  f_equal; [by eapply Hstep|by eapply IH].
Qed.

Lemma ref_loop_error (P : go_error → Prop) step ids (w : W) e w' :
  (∀ id w e w', step id w = (Err e, w') → P e) → ref_loop step ids w = (Err e, w') → P e.
Proof.
  intros Hstep. revert w w'. induction ids as [|id ids IH]; intros w w'; simpl; [done|].
  destruct (step id w) as [[item|x|s] u] eqn:H1; [|intros [= <- _]; by eapply Hstep|done].
  destruct (ref_loop step ids u) as [[l|x|s] u'] eqn:H2; simpl; [done|intros [= <- _]; by eapply IH|done].
Qed.

Lemma ref_run_one_id reg target phase id w item w' :
  ref_run_one reg target phase id w = (Ok item, w') → mi_ID item = id.
Proof.
  unfold ref_run_one. destruct (reg !! id) as [a|]; [|done]. destruct (a_Run a) as [t|]; [|done].
  destruct (task_outcome _ _ _ _ _) as [[r|e|s] x]; simpl; [|done..]. by intros [= <- _].
Qed.

Lemma ref_run_ids reg target phase ids w items w' :
  ref_loop (ref_run_one reg target phase) ids w = (Ok items, w') → map mi_ID items = ids.
Proof. apply ref_loop_ids. intros *. apply ref_run_one_id. Qed.

(** Completed tasks never stop the preparation. *)
Lemma ref_prepare_total reg target phase ids w :
  (∀ id, id ∈ ids → ∃ a, reg !! id = Some a ∧
    ∀ t target w, a_Prepare a = Some t → ∃ r w', t target w = (Ok (Some r), w') ∧ ar_Completed r = true) →
  ∃ items w', ref_loop (ref_prepare_one reg target phase) ids w = (Ok items, w') ∧ map mi_ID items = ids.
Proof.
  revert w. induction ids as [|id ids IH]; intros w Hall; simpl; [by exists [], w|].
  destruct (Hall id) as (a & Ha & Ht); [by left|].
  assert (∃ item u, ref_prepare_one reg target phase id w = (Ok item, u) ∧ mi_ID item = id) as (item & u & -> & Hid).
  { unfold ref_prepare_one, task_outcome. rewrite Ha. destruct (a_Prepare a) as [t|]; [|by do 2 eexists].
    destruct (Ht t target w eq_refl) as (r & u & -> & ->). by do 2 eexists. }
  destruct (IH u) as (items & w' & -> & Hids); [intros; apply Hall; by right|].
  simpl. do 2 eexists. split; [reflexivity|]. simpl. by rewrite Hid, Hids.
Qed.

Lemma ref_run_error reg target phase id w e w' :
  ref_run_one reg target phase id w = (Err e, w') → ∃ cause, e = EExitCode ExitValidation cause.
Proof.
  unfold ref_run_one. destruct (reg !! id) as [a|]; [|intros [= <- _]; by eexists].
  destruct (a_Run a) as [t|]; [|intros [= <- _]; by eexists]. unfold task_outcome.
  destruct (t target w) as [[[r|]|x|s] u]; [destruct (ar_Completed r)|..]; simpl; try done; intros [= <- _]; by eexists.
Qed.
End ReferenceLemmas.

Section ModeLemmas.
Context `{SV : Semver} {W : Type}.
Implicit Types (c : MigrateCommand W).

Definition format_ok c : Prop := OutputFormat_Validate (so_OutputFormat (mc_Shared c)) = Ok ().

Lemma versions_header_equiv c cur tgt : mio_equiv (versions_header c cur tgt) (mio_ret ()).
Proof. intros w. unfold versions_header. by rewrite (skip_bind _ _ _ w (errorf_equiv c _)). Qed.

(** A structured format writes its document. *)
Lemma write_document c doc (w : W) :
  format_ok c → structured c = true →
  writeStructuredOutput None (so_OutputFormat (mc_Shared c)) doc w =
    (Ok (), [EvDoc (so_OutputFormat (mc_Shared c)) doc], w).
Proof.
  unfold format_ok, structured, OutputFormat_Validate, writeStructuredOutput.
  destruct (String.eqb _ OutputFormatTable); [done|]. by destruct (String.eqb _ OutputFormatJSON), (String.eqb _ OutputFormatYAML).
Qed.

Definition run_document c cur tgt phase items : MigrateResult :=
  mkMigrateResult "MigrateRunResult" "migrate run" (v_String cur) (v_String tgt) phase (mc_DryRun c) "" items
    (NewStatus (countWarnings items) (countErrors items)).

Lemma prepare_summary_ok ReadDir is_not_exist c (w : W) : (outcome (reportPrepareSummary ReadDir is_not_exist c) w).1 = Ok ().
Proof. unfold reportPrepareSummary. by destruct (mc_DryRun c). Qed.

Definition prepare_document c cur tgt phase items : MigrateResult :=
  mkMigrateResult "MigratePrepareResult" "migrate prepare" (v_String cur) (v_String tgt) phase (mc_DryRun c)
    (mc_OutputDir c) items (NewStatus (countWarnings items) 0).

(** The end of a run, from the collected items. *)
Lemma run_report c cur tgt phase items (w : W) :
  format_ok c →
  let k := if structured c then writeRunResult None c cur tgt phase items
           else reportRunSummary c (existsb mi_HasFailedSteps items || false) (existsb mi_HasSkippedSteps items || false) in
  outcome k w = (if existsb mi_HasFailedSteps items then Err failures_error else Ok (), w) ∧
  (structured c = true → EvDoc (so_OutputFormat (mc_Shared c)) (run_document c cur tgt phase items) ∈ (k w).1.2).
Proof.
  intros Hf. cbv zeta. rewrite !orb_false_r. destruct (structured c) eqn:Hs.
  - unfold writeRunResult. rewrite countErrors_pos. unfold outcome.
    destruct (existsb mi_HasFailedSteps items); unfold mio_bind; rewrite write_document by done; simpl;
      (split; [done|]); intros _; by left.
  - split; [|done]. unfold reportRunSummary. rewrite (skip_bind _ _ _ w (emit_equiv _)).
    destruct (existsb mi_HasFailedSteps items); [|apply (errorf_equiv c _ w)].
    by rewrite (skip_bind _ _ _ w (errorf_equiv c _)).
Qed.
End ModeLemmas.

(** What completion and validation establish. *)
Lemma Complete_target `{SV : Semver} {W} changed piped stdin connect verb (c0 c : MigrateCommand W) :
  Run_Complete changed piped stdin connect c0 = Ok c → Migrate_Validate verb c = Ok () →
  ∃ tgt, mc_parsedTargetVersion c = Some tgt ∧
    (mc_parsedPhase c = "" ∨ mc_parsedPhase c ∈ [PhasePreUpgrade; PhasePostUpgrade; PhasePreEnablement]).
Proof.
  intros (c1 & _ & Hc)%res_bind_Ok_inv Hv. apply res_bind_Ok_inv in Hc as (_ & _ & Hc).
  unfold parse_options in Hc. apply res_bind_Ok_inv in Hc as (ver & Hver & [= <-]).
  unfold Migrate_Validate in Hv. apply res_bind_Ok_inv in Hv as (_ & _ & Hv). cbn in Hv.
  destruct (_ && _); [done|]. destruct (String.eqb_spec (mc_TargetVersion c1) "") as [He|He]; [done|].
  cbn [negb] in Hver. apply res_bind_Ok_inv in Hver as (v & _ & [= <-]). exists v. split; [done|].
  apply res_map_err_Ok in Hv. unfold ActionPhase_Validate in Hv. cbn [mc_parsedPhase].
  destruct (String.eqb_spec (mc_Phase c1) PhasePreUpgrade) as [->|]; [right; set_solver|].
  destruct (String.eqb_spec (mc_Phase c1) PhasePostUpgrade) as [->|]; [right; set_solver|].
  destruct (String.eqb_spec (mc_Phase c1) PhasePreEnablement) as [->|]; [right; set_solver|].
  destruct (String.eqb_spec (mc_Phase c1) "") as [->|]; [by left|done].
Qed.

(** ** Properties *)
Module MigrateSpec.
(** C1: [migrate run] refines the sequential semantics: the migrations run in
    the given order, each in the world its predecessor left; the first that is
    unknown, has no task, fails or does not complete stops the command with
    that error and the world as it is, later ones untouched; otherwise the
    command succeeds iff no migration has a failed step at any depth, and the
    structured document lists exactly the executed migrations with a status
    computed from them. *)
Theorem runMigrationMode_refines `{SV : Semver} {W} (c : MigrateCommand W) cur tgt phase w :
  format_ok c →
  let target := mkATarget _ (Some cur) (Some tgt) (mc_DryRun c) (mc_Yes c) "" in
  let m := runMigrationMode None c cur tgt phase in
  match ref_loop (ref_run_one (mc_registry c) target phase) (mc_MigrationIDs c) w with
  | (Ok items, w') =>
      outcome m w = (if existsb mi_HasFailedSteps items then Err failures_error else Ok (), w') ∧
      map mi_ID items = mc_MigrationIDs c ∧
      (structured c = true → EvDoc (so_OutputFormat (mc_Shared c)) (run_document c cur tgt phase items) ∈ (m w).1.2)
  | (Err e, w') => outcome m w = (Err e, w') ∧ ∃ cause, e = EExitCode ExitValidation cause
  | (Panic s, w') => outcome m w = (Panic s, w')
  end.
Proof.
  intros Hf target m. unfold m, runMigrationMode.
  pose proof (run_loop_outcome _ _ 0%nat (mc_MigrationIDs c) [] false false w
    (λ idx id w, run_migration_outcome c cur tgt phase idx (length (mc_MigrationIDs c)) id w)) as Hloop.
  fold target in Hloop. rewrite (skip_bind _ _ _ w (versions_header_equiv c cur tgt)),
    (skip_bind _ _ _ w (errorf_equiv c _)), outcome_bind, Hloop.
  destruct (ref_loop _ (mc_MigrationIDs c) w) as [[items|e|s] w'] eqn:Href; [|split; [done|]|done].
  - destruct (run_report c cur tgt phase items w' Hf) as [Hr Hdoc].
    split; [exact Hr|]. split; [by eapply ref_run_ids|]. intros Hs.
    eapply log_bind; [apply (versions_header_equiv c cur tgt w)|].
    eapply log_bind; [apply (errorf_equiv c _ w)|]. eapply log_bind; [exact Hloop|]. by apply Hdoc.
  - exact (ref_loop_error (λ e, ∃ cause, e = EExitCode ExitValidation cause) _ _ _ _ _
      (λ id v e v', ref_run_error _ _ _ id v e v') Href).
Qed.

Import (hints) ClientRun VersionRun.
#[local] Instance witness_clock : Clock := 0.

(** A task that counts its executions in the world, with the given steps. *)
Definition counting (ops : list rec_op) : Task nat := λ _ w, (Ok (Some (Build (rec_run ops))), S w).
Definition failed_backup : list rec_op :=
  [OpChild 0%nat "backup" "Backup ClusterQueues"; OpComplete 1%nat StepFailed "Failed to write ClusterQueues"].
Definition sample_action (id : string) (ops : list rec_op) : Action nat :=
  mkAction _ _ id "" "" "migration" "pre-upgrade" (λ _ _, true) (Some (counting ops)) (Some (counting ops)).
Definition sample_registry : gmap string (Action nat) :=
  <["a.fail" := sample_action "a.fail" failed_backup]> (<["b.ok" := sample_action "b.ok" []]> ∅).
Definition sample_command (ids : list string) : MigrateCommand nat :=
  mkMigrate (mkShared "json" true 600 true) false true ids "3.0.0" "" None "" sample_registry false "out".

Lemma runMigrationMode_refines_witness :
  format_ok (sample_command ["a.fail"; "b.ok"]) ∧
  outcome (runMigrationMode None (sample_command ["a.fail"; "b.ok"]) v_zero v_zero "pre-upgrade") 0%nat =
    (Err failures_error, 2%nat) ∧
  outcome (runMigrationMode None (sample_command ["b.ok"; "c.unknown"; "a.fail"]) v_zero v_zero "pre-upgrade") 0%nat =
    (Err (not_found "c.unknown"), 1%nat).
Proof.
  split; [reflexivity|]. split.
  - exact (proj1 (runMigrationMode_refines (sample_command ["a.fail"; "b.ok"]) v_zero v_zero "pre-upgrade" 0%nat eq_refl)).
  - exact (proj1 (runMigrationMode_refines (sample_command ["b.ok"; "c.unknown"; "a.fail"]) v_zero v_zero "pre-upgrade" 0%nat eq_refl)).
Defined.

(** [migrate prepare] ignores failed steps: when every migration is known
    and its prepare task, if it has one, returns a completed result (which
    [Build] always is), the command succeeds and its document has no error,
    whatever steps of the results are marked as failed. *)
Theorem prepare_ignores_failed_steps `{SV : Semver} {W} (ReadDir : string → W → res go_error nat) is_not_exist
    (c : MigrateCommand W) cur tgt phase w :
  format_ok c →
  (∀ id, id ∈ mc_MigrationIDs c → ∃ a, mc_registry c !! id = Some a ∧
    ∀ t target w, a_Prepare a = Some t → ∃ r w', t target w = (Ok (Some r), w') ∧ ar_Completed r = true) →
  let m := runPrepareMode None ReadDir is_not_exist c cur tgt phase in
  (outcome m w).1 = Ok () ∧
  (structured c = true → ∃ doc, EvDoc (so_OutputFormat (mc_Shared c)) doc ∈ (m w).1.2 ∧
    map mi_ID (mr_Migrations doc) = mc_MigrationIDs c ∧ st_Errors (mr_Status doc) = 0 ∧
    st_Result (mr_Status doc) ≠ StatusFailure).
Proof.
  intros Hf Hall m. unfold m, runPrepareMode.
  pose proof (run_loop_outcome _ _ 0%nat (mc_MigrationIDs c) [] false false w
    (λ idx id w, prepare_migration_outcome c cur tgt phase idx (length (mc_MigrationIDs c)) id w)) as Hloop.
  destruct (ref_prepare_total (mc_registry c) (mkATarget _ (Some cur) (Some tgt) (mc_DryRun c) (mc_Yes c) (mc_OutputDir c))
    phase (mc_MigrationIDs c) w) as (items & w' & Href & Hids); [done|]. rewrite Href in Hloop. split.
  - rewrite (skip_bind _ _ _ w (versions_header_equiv c cur tgt)), !(skip_bind _ _ _ w (errorf_equiv c _)), outcome_bind, Hloop.
    destruct (structured c) eqn:Hs.
    + unfold outcome, writePrepareResult. by rewrite write_document.
    + apply prepare_summary_ok.
  - intros Hs. exists (prepare_document c cur tgt phase items). split; [|split; [exact Hids|split; [reflexivity|]]].
    + eapply log_bind; [apply (versions_header_equiv c cur tgt w)|].
      do 2 (eapply log_bind; [apply (errorf_equiv c _ w)|]). eapply log_bind; [exact Hloop|]. cbv beta iota.
      rewrite Hs. unfold writePrepareResult. rewrite write_document by done. by left.
    + unfold NewStatus. simpl. by case_match.
Qed.

Lemma prepare_ignores_failed_steps_witness :
  HasFailedSteps (Build (rec_run failed_backup)) = true ∧
  (outcome (runPrepareMode None (λ _ _, Ok 0%nat) (λ _, false) (sample_command ["a.fail"]) v_zero v_zero "pre-upgrade") 0%nat).1 = Ok ().
Proof.
  split; [vm_compute; reflexivity|].
  apply (prepare_ignores_failed_steps (λ _ _, Ok 0%nat) (λ _, false) (sample_command ["a.fail"]) v_zero v_zero "pre-upgrade" 0%nat);
    [reflexivity|].
  intros id Hid. cbn [sample_command mc_MigrationIDs] in Hid. apply list_elem_of_singleton in Hid as ->.
  exists (sample_action "a.fail" failed_backup). split; [apply lookup_insert_eq|].
  intros t target w [= <-]. by exists (Build (rec_run failed_backup)), (S w).
Defined.
(** after [Complete] and [Validate] succeeded, a run whose cluster version
    is detected has a target version and a phase (one of the three, given or
    derived from the versions), so neither the phase detection nor the pointer
    dereference can fail: the command reports that no migration applies, or
    enters the migration loop with the resolved identifiers. *)
Theorem validated_run_reaches_mode `{SV : Semver, AE : ApiErrors, KE : K8sErrors, JQ : GoJq, MO : MapOrder, SS : SortSlice} {W}
    (cluster : W → ApiServer) lister olm changed piped stdin connect verb (c0 c : MigrateCommand W) mode cur w :
  Run_Complete changed piped stdin connect c0 = Ok c → Migrate_Validate verb c = Ok () →
  detect_version cluster lister olm w = Ok cur →
  ∃ tgt phase ids,
    resolvePhaseAndMigrations (mkResolverInput (mc_parsedPhase c) (mc_MigrationIDs c) (Some cur) (Some tgt) (mc_registry c)) w
      = Ok (phase, ids) ∧
    phase ∈ [PhasePreUpgrade; PhasePostUpgrade; PhasePreEnablement] ∧
    outcome (command_run cluster lister olm mode c) w =
      match ids with
      | [] => (Err (EExitCode ExitValidation (EString ("no applicable migrations found for phase " +:+ phase))), w)
      | _ => outcome (mode (set_ids c ids) cur tgt phase) w
      end.
Proof.
  intros Hc Hv Hd. destruct (Complete_target _ _ _ _ _ _ _ Hc Hv) as (tgt & Htgt & Hphase).
  assert (∃ phase ids, resolvePhaseAndMigrations (mkResolverInput (mc_parsedPhase c) (mc_MigrationIDs c) (Some cur)
    (Some tgt) (mc_registry c)) w = Ok (phase, ids) ∧ phase ∈ [PhasePreUpgrade; PhasePostUpgrade; PhasePreEnablement])
    as (phase & ids & Hr & Hin).
  { unfold resolvePhaseAndMigrations. cbn [pr_ParsedPhase pr_CurrentVersion pr_TargetVersion DetectPhase].
    destruct (String.eqb_spec (mc_parsedPhase c) "") as [He|He].
    - destruct (v_LT cur tgt); simpl; do 2 eexists; (split; [reflexivity|set_solver]).
    - simpl. do 2 eexists. split; [reflexivity|]. by destruct Hphase. }
  exists tgt, phase, ids. split; [done|]. split; [done|].
  unfold command_run. rewrite outcome_bind. unfold outcome at 1. cbn [mio_read fst snd]. rewrite Hd.
  rewrite outcome_bind. unfold outcome at 1. cbn [mio_lift res_map_err fst snd].
  rewrite outcome_bind. unfold outcome at 1. cbn [mio_read fst snd]. rewrite Htgt, Hr.
  rewrite outcome_bind. unfold outcome at 1. cbn [mio_lift fst snd].
  rewrite (skip_bind _ () _ w) by (by destruct (String.eqb _ _)).
  destruct ids as [|id ids]; [done|]. cbn [set_ids mc_parsedTargetVersion]. by rewrite Htgt.
Qed.
Lemma validated_run_reaches_mode_witness :
  let lister (_ : nat) := VersionRun.list_dsc (VersionRun.release "2.25.1") in
  let c0 := sample_command [] in
  let c0 := mkMigrate (mc_Shared c0) false true [] "3.0.0" "pre-upgrade" None "" sample_registry false "" in
  ∃ c tgt ids,
    Run_Complete (λ _, false) (Ok ()) (Err (EString "none")) (Ok ()) c0 = Ok c ∧
    outcome (command_run (AE := concrete_ApiErrors) (λ _, VersionRun.server) lister (λ _, VersionRun.olm)
      (runMigrationMode None) c) 0%nat =
      match ids with
      | [] => (Err (EExitCode ExitValidation (EString "no applicable migrations found for phase pre-upgrade")), 0%nat)
      | _ => outcome (runMigrationMode None (set_ids c ids) (VersionRun.mkVer 2 25 1) tgt "pre-upgrade") 0%nat
      end.
Proof.
  intros lister sc c0.
  assert (Hd : detect_version (AE := concrete_ApiErrors) (λ _ : nat, VersionRun.server) lister (λ _, VersionRun.olm) 0%nat =
    Ok (VersionRun.mkVer 2 25 1)) by (vm_compute; reflexivity).
  eexists. destruct (validated_run_reaches_mode (AE := concrete_ApiErrors) (λ _ : nat, VersionRun.server) lister
    (λ _, VersionRun.olm) (λ _, false) (Ok ()) (Err (EString "none")) (Ok ()) "run" c0 _ (runMigrationMode None)
    (VersionRun.mkVer 2 25 1) 0%nat eq_refl eq_refl Hd) as (tgt & phase & ids & Hr & _ & Hout).
  exists tgt, ids. split; [reflexivity|]. apply res_bind_Ok_inv in Hr as (p & Hp & Heq).
  injection Hp as <-. apply (f_equal (λ r, match r with Ok x => x.1 | _ => "" end)) in Heq.
  assert (phase = "pre-upgrade") as -> by exact (eq_sym Heq). exact Hout.
Defined.
End MigrateSpec.
