(* ===== verification/Events.v ===== *)
(** * Events: pkg/events (filter.go, command.go)

    The events command: its options, the namespaces it looks at, the filter by
    component label with its concurrent lookups, the order of the list, and the
    watch of a namespace with its cache, cut-off time and reconnection.  The
    cluster answers through [get_object] and [connect]; the output of the
    events is not modelled. *)
From S2P Require Import Prelude Errors Client Version.
Open Scope string_scope.
Open Scope Z_scope.
Open Scope go_scope.

(** Instants are nanoseconds since 1970; the zero [time.Time] is [None], whose
    [UnixNano] wraps around in 64 bits. *)
Definition zero_UnixNano : Z := -6795364578871345152.
Definition UnixNano (t : option Z) : Z := default zero_UnixNano t.

(** [clusterhealth.EventInfo] *)
Record EventInfo := mkEventInfo {
  ei_Namespace : string;
  ei_Name : string;
  ei_Kind : string;
  ei_Reason : string;
  ei_Message : string;
  ei_Count : Z;
  ei_Type : string;
  ei_LastTime : option Z;
}.

(** The fields of [corev1.Event] that are read. *)
Record Event := mkEvent {
  ev_Namespace : string;
  ev_ResourceVersion : string;
  ev_InvolvedNamespace : string;
  ev_InvolvedKind : string;
  ev_InvolvedName : string;
  ev_Reason : string;
  ev_Message : string;
  ev_Count : Z;
  ev_Type : string;
  ev_LastTimestamp : option Z;
  ev_EventTime : option Z;
}.

Inductive WatchType := WatchAdded | WatchModified | WatchDeleted | WatchBookmark | WatchError.
(** A watch event whose object is not an Event carries [None]. *)
Record WatchEvent := mkWatchEvent { we_Type : WatchType; we_Object : option Event }.

(** ** command.go *)
Record Command := mkCommand {
  c_EventType : string;
  c_Since : Z;
  c_AllNamespaces : bool;
  c_OutputFormat : string;
  c_OperatorNSOverride : string;
  c_Component : string;
  c_Follow : bool;
  c_Namespace : string;
  c_NamespaceExplicit : bool;
  c_ApplicationsNS : string;
  c_OperatorNS : string;
  c_MonitoringNS : string;
}.

(** component_crs.go: the names of the components and their label values *)
Definition ComponentNames : list string :=
  ["aigateway"; "aipipelines"; "dashboard"; "feastoperator"; "kserve"; "llamastackoperator"; "mlflowoperator";
   "modelregistry"; "ray"; "sparkoperator"; "trainer"; "trainingoperator"; "trustyai"; "workbenches"].
Definition componentLabelOverrides : list (string * string) :=
  [("aipipelines", "data-science-pipelines-operator"); ("modelregistry", "model-registry-operator")].
Definition GetComponentLabelValue (component : string) : string :=
  match find (λ kv, String.eqb kv.1 component) componentLabelOverrides with Some kv => kv.2 | None => component end.
Definition ComponentLabelKey := "app.kubernetes.io/part-of".

Definition maxSinceDuration : Z := 24 * 3600 * second.

(** [namespace_flag] is the value of the namespace flag, empty when not given. *)
Definition Validate (namespace_flag : string) (show_duration : Z → string) (c : Command) : res go_error () :=
  let fail code message suggestion := Err (EStructured (NewValidationError code message suggestion)) in
  if c_AllNamespaces c && negb (String.eqb namespace_flag "") then
    fail "INVALID_FLAGS" "--all-namespaces and --namespace are mutually exclusive" "Use either -A or -n <namespace>, not both"
  else if negb (existsb (String.eqb (c_OutputFormat c)) ["table"; "json"; "yaml"]) then
    fail "INVALID_OUTPUT_FORMAT" ("invalid output format " +:+ quote (c_OutputFormat c)) "Use one of: table, json, yaml"
  else if negb (String.eqb (c_EventType c) "") && negb (String.eqb (c_EventType c) "Warning") &&
          negb (String.eqb (c_EventType c) "Normal") then
    fail "INVALID_EVENT_TYPE" ("invalid event type " +:+ quote (c_EventType c)) "Use --type Warning or --type Normal"
  else if c_Since c <? 0 then
    fail "INVALID_DURATION" "--since must be a non-negative duration" "Use 0 or a positive value like --since 5m or --since 1h"
  else if maxSinceDuration <? c_Since c then
    fail "INVALID_DURATION" ("--since duration " +:+ show_duration (c_Since c) +:+ " exceeds maximum of 24h")
      "Use --since with values like 5m, 1h, or 24h"
  else if negb (String.eqb (c_Component c) "") && negb (existsb (String.eqb (c_Component c)) ComponentNames) then
    fail "INVALID_COMPONENT" ("invalid component " +:+ c_Component c) ("Use one of: " +:+ join ", " ComponentNames)
  else if c_Follow c && negb (String.eqb (c_OutputFormat c) "table") then
    fail "INVALID_FLAGS" "--follow is only supported with table output" "Remove -o json or -o yaml when using -f"
  else Ok ().

Definition DefaultRHOAIOperatorNamespace := "redhat-ods-operator".

Definition with_namespaces (c : Command) (applications operator monitoring : string) : Command :=
  mkCommand (c_EventType c) (c_Since c) (c_AllNamespaces c) (c_OutputFormat c) (c_OperatorNSOverride c) (c_Component c)
    (c_Follow c) (c_Namespace c) (c_NamespaceExplicit c) applications operator monitoring.

Definition is_not_found_error (e : go_error) : bool :=
  match errors_as as_StructuredError e with
  | Some s => bool_decide (se_Category s = CategoryNotFound)
  | None => false
  end.

(** [dsci] and [operator] are the answers of the discovery helpers of the client. *)
Definition discoverNamespaces (dsci : res go_error DSCINamespaces) (operator : res go_error string) (c : Command)
    : res go_error Command :=
  let! namespaces := match dsci with
                     | Ok n => Ok n
                     | Err _ => Ok {| dn_Applications := ""; dn_Monitoring := "" |}
                     | Panic s => Panic s
                     end in
  let resolved ns := Ok (with_namespaces c (dn_Applications namespaces) ns (dn_Monitoring namespaces)) in
  if negb (String.eqb (c_OperatorNSOverride c) "") then resolved (c_OperatorNSOverride c)
  else match operator with
       | Ok ns => resolved ns
       | Panic s => Panic s
       | Err e =>
           if is_not_found_error e then resolved DefaultRHOAIOperatorNamespace
           else Err (errorf_w "discovering operator namespace" e)
       end.

(** ** filter.go: namespaces and order *)
Definition ErrNoNamespacesDiscovered : go_error :=
  EStructured {| se_Code := "NOT_FOUND"; se_Message := "no ODH namespaces discovered"; se_Category := CategoryNotFound;
                 se_Retriable := false; se_Suggestion := "Ensure ODH/RHOAI is properly installed"; se_ExitCode := 0; se_cause := None |}.

Definition add_namespace (namespaces : list string) (ns : string) : list string :=
  if negb (String.eqb ns "") && negb (existsb (String.eqb ns) namespaces) then (namespaces ++ [ns])%list else namespaces.

Definition getTargetNamespaces (c : Command) : res go_error (list string) :=
  if c_NamespaceExplicit c && negb (String.eqb (c_Namespace c) "") then Ok [c_Namespace c]
  else
    match foldl add_namespace [] [c_ApplicationsNS c; c_OperatorNS c; c_MonitoringNS c] with
    | [] => Err ErrNoNamespacesDiscovered
    | namespaces => Ok namespaces
    end.

(** [slices.SortStableFunc] with the latest event first: insertion sort keeps
    the order of equal elements. *)
Definition later (a b : EventInfo) : bool := UnixNano (ei_LastTime b) <? UnixNano (ei_LastTime a).
Definition sortEventsByTime (events : list EventInfo) : list EventInfo := insertion_sort later events.

(** ** filter.go: the component label *)
Definition kindToGVRMap : list (string * ResourceType) :=
  [("Pod", mkResourceType "" "v1" "Pod" "pods"); ("Deployment", mkResourceType "apps" "v1" "Deployment" "deployments");
   ("ReplicaSet", mkResourceType "apps" "v1" "ReplicaSet" "replicasets");
   ("StatefulSet", mkResourceType "apps" "v1" "StatefulSet" "statefulsets");
   ("DaemonSet", mkResourceType "apps" "v1" "DaemonSet" "daemonsets"); ("Service", mkResourceType "" "v1" "Service" "services");
   ("ConfigMap", mkResourceType "" "v1" "ConfigMap" "configmaps"); ("Secret", mkResourceType "" "v1" "Secret" "secrets");
   ("Job", mkResourceType "batch" "v1" "Job" "jobs")].

Definition kindToGVR (kind : string) : option ResourceType :=
  snd <$> find (λ kv, String.eqb kv.1 kind) kindToGVRMap.

Definition componentCacheKey (targetLabel namespace kind name : string) : string :=
  targetLabel +:+ "/" +:+ namespace +:+ "/" +:+ kind +:+ "/" +:+ name.

Record labelLookup := mkLookup { ll_namespace : string; ll_kind : string; ll_name : string }.
#[export] Instance labelLookup_eq_dec : EqDecision labelLookup.
Proof. solve_decision. Defined.

Definition lookup_of (event : EventInfo) : labelLookup := mkLookup (ei_Namespace event) (ei_Kind event) (ei_Name event).
Definition key_of (targetLabel : string) (l : labelLookup) : string :=
  componentCacheKey targetLabel (ll_namespace l) (ll_kind l) (ll_name l).

(** The unique lookups in order of appearance. *)
Definition add_lookup (lookups : list labelLookup) (event : EventInfo) : list labelLookup :=
  if decide (lookup_of event ∈ lookups) then lookups else (lookups ++ [lookup_of event])%list.

Section Filter.
Context `{AE : ApiErrors}.
(** [getObject]: the dynamic client, with an empty namespace for cluster scope. *)
Context (get_object : ResourceType → string → string → res go_error json).

(** The value of the component label; objects carry string labels only. *)
Definition component_label (obj : json) : string :=
  match nested ["metadata"; "labels"; ComponentLabelKey] obj with Some (JStr s) => s | _ => "" end.

Definition checkObjectHasComponentLabel (l : labelLookup) (labelValue : string) : res go_error bool :=
  match kindToGVR (ll_kind l) with
  | None => Ok false
  | Some gvr =>
      match get_object gvr (ll_namespace l) (ll_name l) with
      | Panic s => Panic s
      | Err e =>
          if IsNotFound e then Ok false
          else Err (errorf_w ("getting " +:+ rt_Resource gvr +:+ " " +:+ ll_namespace l +:+ "/" +:+ ll_name l) e)
      | Ok unstr => Ok (String.eqb (component_label unstr) labelValue)
      end
  end.

(** The results of the workers in the order in which they arrive. *)
Fixpoint collect_results (results : list (string * res go_error bool)) (cache : gmap string bool)
    : res go_error (gmap string bool) :=
  match results with
  | [] => Ok cache
  | (cacheKey, Ok hasLabel) :: rest => collect_results rest (<[cacheKey := hasLabel]> cache)
  | (_, Err e) :: _ => Err (errorf_w "checking component label" e)
  | (_, Panic s) :: _ => Panic s
  end.

Definition fetchComponentLabelsParallel `{Schedule} (lookups : list labelLookup) (targetLabel : string)
    : res go_error (gmap string bool) :=
  collect_results
    (finish_order (map (λ l, (key_of targetLabel l, checkObjectHasComponentLabel l targetLabel)) lookups)) ∅.

Definition filterEventsByComponent `{Schedule} (component : string) (events : list EventInfo)
    : res go_error (list EventInfo) :=
  let targetLabel := GetComponentLabelValue component in
  let! labelCache := fetchComponentLabelsParallel (foldl add_lookup [] events) targetLabel in
  Ok (List.filter (λ event, default false (labelCache !! key_of targetLabel (lookup_of event))) events).

(** [RunRecentEvents] of clusterhealth, on the namespaces of the command. *)
Context (RunRecentEvents : list string → Z → string → res go_error (list EventInfo)).

Definition ErrEventsFetchFailed (e : go_error) : go_error :=
  EStructured (classifyOrWrap e "EVENTS_FETCH_FAILED" "failed to fetch events"
    "Try again; if the problem persists, check cluster connectivity" CategoryInternal true).

Definition fetchEvents (c : Command) : res go_error (list EventInfo) :=
  let! namespaces := getTargetNamespaces c in
  res_map_err ErrEventsFetchFailed (RunRecentEvents namespaces (c_Since c) (c_EventType c)).

(** The events in the order in which they are rendered. *)
Definition listEvents `{Schedule} (c : Command) : res go_error (list EventInfo) :=
  let! events := fetchEvents c in
  let! events := if negb (String.eqb (c_Component c) "") then filterEventsByComponent (c_Component c) events else Ok events in
  Ok (sortEventsByTime events).

(** ** filter.go: watching *)
Definition eventToEventInfo (e : Event) : EventInfo :=
  mkEventInfo (ev_Namespace e) (ev_InvolvedName e) (ev_InvolvedKind e) (ev_Reason e) (ev_Message e) (ev_Count e) (ev_Type e)
    (match ev_LastTimestamp e with Some t => Some t | None => ev_EventTime e end).

Definition isEventBeforeCutoff (e : Event) (cutoff : Z) : bool :=
  match (match ev_LastTimestamp e with Some t => Some t | None => ev_EventTime e end) with
  | None => false
  | Some eventTime => eventTime <? cutoff
  end.

Definition event_lookup (e : Event) : labelLookup := mkLookup (ev_InvolvedNamespace e) (ev_InvolvedKind e) (ev_InvolvedName e).

(** The answer and the cache after it; a failed lookup is not cached. *)
Definition checkEventMatchesComponentCached (component : string) (e : Event) (cache : gmap string bool)
    : res go_error (bool * gmap string bool) :=
  let targetLabel := GetComponentLabelValue component in
  let cacheKey := key_of targetLabel (event_lookup e) in
  match cache !! cacheKey with
  | Some hasLabel => Ok (hasLabel, cache)
  | None =>
      match checkObjectHasComponentLabel (event_lookup e) targetLabel with
      | Panic s => Panic s
      | Err _ => Ok (false, cache)
      | Ok hasLabel => Ok (hasLabel, <[cacheKey := hasLabel]> cache)
      end
  end.

(** [cutoff] is [None] when no duration is given. *)
Definition extractValidEvent (component : string) (cutoff : option Z) (event : WatchEvent) (cache : gmap string bool)
    : res go_error (option Event * gmap string bool) :=
  match we_Type event with
  | WatchAdded | WatchModified =>
      match we_Object event with
      | None => Ok (None, cache)
      | Some e =>
          if match cutoff with Some t => isEventBeforeCutoff e t | None => false end then Ok (None, cache)
          else if negb (String.eqb component "") then
            let! r := checkEventMatchesComponentCached component e cache in
            let '(matches, cache) := r in Ok (if (matches : bool) then Some e else None, cache)
          else Ok (Some e, cache)
      end
  | _ => Ok (None, cache)
  end.

(** The events received until the channel closes or the context ends: the last
    resource version, the events sent on and the cache. *)
Fixpoint processWatchEvents (component : string) (cutoff : option Z) (events : list WatchEvent) (lastRV : string)
    (cache : gmap string bool) : res go_error (string * list Event * gmap string bool) :=
  match events with
  | [] => Ok (lastRV, [], cache)
  | event :: rest =>
      let lastRV := match we_Object event with
                    | Some e => if negb (String.eqb (ev_ResourceVersion e) "") then ev_ResourceVersion e else lastRV
                    | None => lastRV
                    end in
      let! r := extractValidEvent component cutoff event cache in
      let '(sent, cache) := r in
      let! out := processWatchEvents component cutoff rest lastRV cache in
      let '(rv, l, cache) := out in
      Ok (rv, match sent with Some e => e :: l | None => l end, cache)
  end.

Definition maxWatchRetries : Z := 5.
Definition initialRetryBackoff : Z := second.
Definition maxRetryBackoff : Z := 30 * second.
Definition backoffMultiplier : Z := 2.

(** The variables of [watchNamespaceEvents], the events sent so far and the
    time slept. *)
Record watchState := mkWatch {
  ws_ResourceVersion : string;
  ws_consecutiveErrors : Z;
  ws_backoff : Z;
  ws_cache : gmap string bool;
  ws_sent : list Event;
  ws_slept : Z;
}.
Definition initial_watch : watchState := mkWatch "" 0 initialRetryBackoff ∅ [] 0.

(** One turn of the loop with a live context: [connect] opens the watch from a
    resource version and yields what it delivers until it closes.  The loop
    goes on with [inl] and returns with [inr]. *)
Definition watch_turn (component : string) (cutoff : option Z) (connect : string → res go_error (list WatchEvent))
    (s : watchState) : res go_error (watchState + watchState) :=
  match connect (ws_ResourceVersion s) with
  | Panic msg => Panic msg
  | Err _ =>
      let errors := ws_consecutiveErrors s + 1 in
      if maxWatchRetries <=? errors then
        Ok (inr (mkWatch (ws_ResourceVersion s) errors (ws_backoff s) (ws_cache s) (ws_sent s) (ws_slept s)))
      else
        Ok (inl (mkWatch (ws_ResourceVersion s) errors (Z.min (ws_backoff s * backoffMultiplier) maxRetryBackoff)
                   (ws_cache s) (ws_sent s) (ws_slept s + ws_backoff s)))
  | Ok delivered =>
      let! out := processWatchEvents component cutoff delivered "" (ws_cache s) in
      let '(lastRV, sent, cache) := out in
      Ok (inl (mkWatch (if negb (String.eqb lastRV "") then lastRV else ws_ResourceVersion s) 0 initialRetryBackoff cache
                 (ws_sent s ++ sent)%list (ws_slept s + second)))
  end.

(** The loop for [turns] turns, after which the context ends; the flag tells
    whether the loop gave up before. *)
Fixpoint watchNamespaceEvents (turns : nat) (component : string) (cutoff : option Z)
    (connect : nat → string → res go_error (list WatchEvent)) (s : watchState) : res go_error (watchState * bool) :=
  match turns with
  | O => Ok (s, false)
  | S turns' =>
      let! next := watch_turn component cutoff (connect O) s in
      match next with
      | inr s' => Ok (s', true)
      | inl s' => watchNamespaceEvents turns' component cutoff (λ i, connect (S i)) s'
      end
  end.
End Filter.

(** ** Lemmas: keys and lookups *)
Definition plain_lookup (l : labelLookup) : Prop := no_slash (ll_namespace l) ∧ no_slash (ll_kind l).

Lemma slash_split s1 s2 r1 r2 :
  no_slash s1 → no_slash s2 → s1 +:+ "/" +:+ r1 = s2 +:+ "/" +:+ r2 → s1 = s2 ∧ r1 = r2.
Proof.
  unfold no_slash. revert s2. induction s1 as [|a s1 IH]; intros [|b s2] H1 H2; simpl in *.
  - intros [= H]. done.
  - intros [= Hb _]. by apply orb_false_iff in H2 as [? _]; subst.
  - intros [= Ha _]. by apply orb_false_iff in H1 as [? _]; subst.
  - intros [= -> Heq]. apply orb_false_iff in H1 as [_ H1], H2 as [_ H2].
    destruct (IH s2 H1 H2 Heq) as [-> ->]. done.
Qed.


(** With one label, plain keys identify their object. *)
Lemma key_of_inj targetLabel l1 l2 :
  plain_lookup l1 → plain_lookup l2 → key_of targetLabel l1 = key_of targetLabel l2 → l1 = l2.
Proof.
  intros [Hn1 Hk1] [Hn2 Hk2]. unfold key_of, componentCacheKey. intros H%string_app_inj_l.
  apply (string_app_inj_l "/") in H. apply slash_split in H as [Hn H]; [|done..].
  apply slash_split in H as [Hk H]; [|done..]. destruct l1, l2; simpl in *; congruence.
Qed.

Lemma elem_of_lookups events acc l :
  l ∈ foldl add_lookup acc events ↔ l ∈ acc ∨ ∃ event, event ∈ events ∧ lookup_of event = l.
Proof.
  revert acc. induction events as [|event events IH]; intros acc; simpl.
  { split; [by left|]. intros [?|(event & Hin & _)]; [done|]. by apply elem_of_nil in Hin. }
  rewrite IH. unfold add_lookup. case_decide as Hd; [|rewrite elem_of_app, list_elem_of_singleton];
    setoid_rewrite elem_of_cons; naive_solver.
Qed.

Lemma lookups_NoDup events acc : NoDup acc → NoDup (foldl add_lookup acc events).
Proof.
  revert acc. induction events as [|event events IH]; intros acc Hacc; simpl; [done|].
  apply IH. unfold add_lookup. case_decide as Hd; [done|]. apply NoDup_app. split; [done|].
  split; [|apply NoDup_singleton]. intros l Hl Hs. apply list_elem_of_singleton in Hs as ->. done.
Qed.

(** Collecting successful results: every key holds its answer. *)
Lemma collect_results_ok results cache :
  Forall (λ r, is_ok r.2 = true) results → NoDup results.*1 →
  ∃ cache', collect_results results cache = Ok cache' ∧
    (∀ k b, (k, Ok b) ∈ results → cache' !! k = Some b) ∧
    (∀ k, k ∉ results.*1 → cache' !! k = cache !! k).
Proof.
  revert cache. induction results as [|[k r] results IH]; intros cache Hok Hn; simpl.
  { eexists. split; [done|]. split; [|done]. intros k b Hin. by apply elem_of_nil in Hin. }
  apply Forall_cons in Hok as [Hr Hok]. apply NoDup_cons in Hn as [Hk Hn]. destruct r as [b|e|s]; [|done..].
  destruct (IH (<[k := b]> cache) Hok Hn) as (cache' & Hc & Hin & Hout).
  exists cache'. split; [done|]. split.
  - intros k' b' [[= -> ->]|Hkb]%elem_of_cons; [|by apply Hin]. rewrite Hout by done. apply lookup_insert_eq.
  - intros k' Hk'. apply not_elem_of_cons in Hk' as [Hne Hk']. rewrite Hout by done. by rewrite lookup_insert_ne.
Qed.

(** A failed lookup makes the collection fail. *)
Lemma collect_results_error results cache :
  Exists (λ r, is_ok r.2 = false) results → is_ok (collect_results results cache) = false.
Proof.
  revert cache. induction results as [|[k r] results IH]; intros cache; simpl; [by intros ?%Exists_nil|].
  intros [Hr|Hr]%Exists_cons; destruct r; try done. by apply IH.
Qed.

(** ** Lemmas: stable order *)
Lemma later_strict : StrictWeak later.
Proof. split; unfold later; intros *; rewrite ?Z.ltb_lt, ?Z.ltb_ge; lia. Qed.

(** Inserting keeps the subsequence of any class of equivalent elements. *)
Lemma sort_insert_stable {A} (less : A → A → bool) (f : A → bool) x l :
  (∀ y, f x = true → f y = true → less y x = false) →
  List.filter f (sort_insert less x l) = List.filter f (x :: l).
Proof.
  intros Hf. induction l as [|y l IH]; [done|]. cbn [sort_insert]. destruct (less y x) eqn:Hyx; [|done].
  cbn [List.filter] in *. rewrite IH. destruct (f x) eqn:Hx, (f y) eqn:Hy; try done.
  by rewrite (Hf y) in Hyx.
Qed.

Lemma insertion_sort_stable {A} (less : A → A → bool) (f : A → bool) l :
  (∀ x y, f x = true → f y = true → less y x = false) →
  List.filter f (insertion_sort less l) = List.filter f l.
Proof.
  intros Hf. induction l as [|x l IH]; simpl; [done|].
  rewrite sort_insert_stable by (intros; by apply Hf). simpl. by rewrite IH.
Qed.

(** ** Lemmas: the watch *)
Section WatchLemmas.
Context `{AE : ApiErrors} (get_object : ResourceType → string → string → res go_error json).
Context (component : string) (cutoff : option Z).
Notation label := (GetComponentLabelValue component).
Notation check l := (checkObjectHasComponentLabel get_object l label).

(** Whether an object carries the label; a failed lookup counts as no. *)
Definition labelled (l : labelLookup) : bool := match check l with Ok b => b | _ => false end.

(** What a cache may hold: answers the cluster gave. *)
Definition cache_sound (cache : gmap string bool) : Prop :=
  ∀ l b, plain_lookup l → cache !! key_of label l = Some b → check l = Ok b.

(** What is sent on, as a filter. *)
Definition wanted (event : WatchEvent) : option Event :=
  match we_Type event, we_Object event with
  | WatchAdded, Some e | WatchModified, Some e =>
      if match cutoff with Some t => isEventBeforeCutoff e t | None => false end then None
      else if String.eqb component "" || labelled (event_lookup e) then Some e else None
  | _, _ => None
  end.

Definition well_behaved (event : WatchEvent) : Prop :=
  ∀ e, we_Object event = Some e → plain_lookup (event_lookup e) ∧ ∀ s, check (event_lookup e) ≠ Panic s.

Definition last_version (rv : string) (event : WatchEvent) : string :=
  match we_Object event with
  | Some e => if negb (String.eqb (ev_ResourceVersion e) "") then ev_ResourceVersion e else rv
  | None => rv
  end.

Lemma cache_sound_insert cache l b :
  cache_sound cache → plain_lookup l → check l = Ok b → cache_sound (<[key_of label l := b]> cache).
Proof.
  intros Hs Hl Hc l' b' Hl'. rewrite lookup_insert. case_decide as Hk; [|by apply Hs].
  intros [= <-]. apply key_of_inj in Hk; [|done..]. by subst.
Qed.

Lemma cached_check_ok e cache :
  plain_lookup (event_lookup e) → (∀ s, check (event_lookup e) ≠ Panic s) → cache_sound cache →
  ∃ cache', checkEventMatchesComponentCached get_object component e cache = Ok (labelled (event_lookup e), cache') ∧ cache_sound cache'.
Proof.
  intros Hl Hp Hs. unfold checkEventMatchesComponentCached, labelled.
  destruct (cache !! key_of label (event_lookup e)) as [b|] eqn:Hc.
  - rewrite (Hs _ _ Hl Hc). eauto.
  - destruct (check (event_lookup e)) as [b|err|s] eqn:Hb; [|eauto|by destruct (Hp s)].
    eexists. split; [done|]. by apply cache_sound_insert.
Qed.

Lemma extractValidEvent_ok event cache :
  well_behaved event → cache_sound cache →
  ∃ cache', extractValidEvent get_object component cutoff event cache = Ok (wanted event, cache') ∧ cache_sound cache'.
Proof.
  intros Hw Hs. unfold extractValidEvent, wanted, well_behaved in *.
  destruct (we_Type event); try (by exists cache; destruct (we_Object event)).
  all: destruct (we_Object event) as [e|]; [|by exists cache].
  all: destruct (Hw e eq_refl) as [Hl Hp].
  all: destruct (match cutoff with Some t => isEventBeforeCutoff e t | None => false end); [by exists cache|].
  all: destruct (String.eqb component ""); cbn [negb orb]; [by exists cache|].
  all: destruct (cached_check_ok e cache Hl Hp Hs) as (cache' & -> & Hs'); simpl; by exists cache'.
Qed.

Lemma processWatchEvents_ok events rv cache :
  Forall well_behaved events → cache_sound cache →
  ∃ cache', processWatchEvents get_object component cutoff events rv cache =
    Ok (foldl last_version rv events, omap wanted events, cache') ∧ cache_sound cache'.
Proof.
  intros Hw. revert rv cache. induction Hw as [|event events He _ IH]; intros rv cache Hs; simpl; [by exists cache|].
  destruct (extractValidEvent_ok event cache He Hs) as (cache1 & -> & Hs1). simpl.
  destruct (IH (last_version rv event) cache1 Hs1) as (cache2 & Heq & Hs2).
  unfold last_version at 1 in Heq. rewrite Heq. simpl. by exists cache2.
Qed.

(** The retry variables of the loop. *)
Definition retry_ok (s : watchState) : Prop :=
  0 <= ws_consecutiveErrors s < maxWatchRetries ∧ ws_backoff s = 2 ^ ws_consecutiveErrors s * second.

Lemma watch_turn_retry connect s next :
  retry_ok s → watch_turn get_object component cutoff connect s = Ok next →
  match next with
  | inl s' => retry_ok s' ∧ (∀ e, connect (ws_ResourceVersion s) = Err e →
      ws_ResourceVersion s' = ws_ResourceVersion s ∧ ws_consecutiveErrors s' = ws_consecutiveErrors s + 1) ∧
      (is_ok (connect (ws_ResourceVersion s)) = true → ws_consecutiveErrors s' = 0)
  | inr s' => ws_consecutiveErrors s = 4 ∧ ws_consecutiveErrors s' = 5 ∧
      ws_ResourceVersion s' = ws_ResourceVersion s ∧ ∃ e, connect (ws_ResourceVersion s) = Err e
  end.
Proof.
  unfold retry_ok, maxWatchRetries, watch_turn. intros [Hb Hbo].
  destruct (connect (ws_ResourceVersion s)) as [l|e|p]; [| |done].
  - intros H. apply res_bind_Ok_inv in H as ([[rv sent] cache] & _ & [= <-]). simpl.
    split; [split; [lia|done]|]. done.
  - unfold maxWatchRetries. destruct (Z.leb_spec 5 (ws_consecutiveErrors s + 1)) as [Hle|Hlt]; intros [= <-]; simpl.
    + split; [lia|]. split; [lia|]. eauto.
    + split; [|done]. split; [lia|]. rewrite Hbo, Z.pow_add_r by lia. unfold backoffMultiplier, maxRetryBackoff.
      assert (2 ^ ws_consecutiveErrors s <= 2 ^ 3) as Hpow by (apply Z.pow_le_mono_r; lia).
      change (2 ^ 3) with 8 in Hpow. change (2 ^ 1) with 2. unfold second. lia.
Qed.

(** A loop that gives up ends with failures against one resource version. *)
Lemma watch_gives_up turns connect s s' :
  retry_ok s → watchNamespaceEvents get_object turns component cutoff connect s = Ok (s', true) →
  ws_consecutiveErrors s' = 5 ∧
  ∃ start n, (start ≤ n ≤ turns)%nat ∧
    (Z.of_nat (n - start) = 5 ∨ start = 0%nat ∧ Z.of_nat n = 5 - ws_consecutiveErrors s ∧ ws_ResourceVersion s = ws_ResourceVersion s') ∧
    ∀ j, (start ≤ j < n)%nat → ∃ e, connect j (ws_ResourceVersion s') = Err e.
Proof.
  revert connect s. induction turns as [|turns IH]; intros connect s Hs; simpl; [done|].
  intros H. apply res_bind_Ok_inv in H as (next & Hn & H).
  pose proof (watch_turn_retry _ _ _ Hs Hn) as Ht. destruct next as [s1|s1].
  - destruct Ht as (Hs1 & Herr & Hok). destruct (IH _ _ Hs1 H) as (H5 & start & n & Hle & Hcount & Hall).
    split; [done|].
    destruct Hcount as [Hc|(-> & Hc & Hrv)].
    { exists (S start), (S n). split; [lia|]. split; [left; lia|].
      intros j Hj. destruct j as [|j]; [lia|]. apply Hall. lia. }
    destruct (connect 0%nat (ws_ResourceVersion s)) as [l|e|p] eqn:Hc0.
    + specialize (Hok eq_refl). exists 1%nat, (S n). split; [lia|]. split; [left; lia|].
      intros j Hj. destruct j as [|j]; [lia|]. apply Hall. lia.
    + destruct (Herr e eq_refl) as [Hrv1 He1]. exists 0%nat, (S n). split; [lia|]. split.
      * right. split; [done|]. split; [lia|congruence].
      * intros [|j] Hj; [|apply Hall; lia]. exists e. by rewrite <-Hrv, Hrv1.
    + unfold watch_turn in Hn. by rewrite Hc0 in Hn.
  - destruct Ht as (H4 & H5 & Hrv & e & He). injection H as <-. split; [done|].
    exists 0%nat, 1%nat. split; [lia|]. split; [right; split; [done|]; split; [lia|done]|].
    intros j Hj. assert (j = 0%nat) as -> by lia. exists e. by rewrite Hrv.
Qed.

Lemma watch_running turns connect s s' :
  retry_ok s → watchNamespaceEvents get_object turns component cutoff connect s = Ok (s', false) → retry_ok s'.
Proof.
  revert connect s. induction turns as [|turns IH]; intros connect s Hs; simpl; [by intros [= <-]|].
  intros H. apply res_bind_Ok_inv in H as (next & Hn & H).
  pose proof (watch_turn_retry _ _ _ Hs Hn) as Ht. destruct next as [s1|s1]; [|done]. eapply IH; [apply Ht|done].
Qed.
End WatchLemmas.

(** ** Properties *)
Module EventsSpec.

(** C30: The component filter keeps exactly the events whose object carries the
    component label, in their order, however the concurrent lookups finish;
    each object is looked up once, and any failed lookup makes the whole
    filter fail rather than drop events.  Namespaces and kinds hold no slash,
    so the cache keys cannot collide. *)
Theorem filterEventsByComponent_exact `{AE : ApiErrors} get_object (S : Schedule) component events :
  Forall (λ event, plain_lookup (lookup_of event)) events →
  let check event := checkObjectHasComponentLabel get_object (lookup_of event) (GetComponentLabelValue component) in
  (Forall (λ event, is_ok (check event) = true) events →
    filterEventsByComponent get_object component events =
      Ok (List.filter (λ event, match check event with Ok b => b | _ => false end) events)) ∧
  (Exists (λ event, is_ok (check event) = false) events →
    is_ok (filterEventsByComponent get_object component events) = false) ∧
  NoDup (foldl add_lookup [] events).
Proof.
  intros Hplain check. unfold filterEventsByComponent, fetchComponentLabelsParallel.
  set (label := GetComponentLabelValue component) in *.
  set (lookups := foldl add_lookup [] events).
  set (answers := map (λ l, (key_of label l, checkObjectHasComponentLabel get_object l label)) lookups).
  assert (Hmem : ∀ l, l ∈ lookups ↔ ∃ event, event ∈ events ∧ lookup_of event = l).
  { intros l. unfold lookups. rewrite elem_of_lookups, elem_of_nil. tauto. }
  rewrite Forall_forall in Hplain.
  assert (Hkeys : NoDup answers.*1).
  { unfold answers. rewrite <-list_fmap_compose. apply NoDup_fmap_2_strong; [|by apply lookups_NoDup, NoDup_nil_2].
    intros l1 l2 (e1 & He1 & <-)%Hmem (e2 & He2 & <-)%Hmem Hk. simpl in Hk. apply key_of_inj in Hk; auto. }
  split; [|split].
  - intros Hok. rewrite Forall_forall in Hok.
    destruct (collect_results_ok (finish_order answers) ∅) as (cache & -> & Hin & _).
    { rewrite finish_order_perm. apply Forall_forall. intros [k r] Hr. unfold answers in Hr.
      apply list_elem_of_In, in_map_iff in Hr as (l & [= <- <-] & Hl). apply list_elem_of_In, Hmem in Hl as (e & He & <-).
      by apply Hok. }
    { by rewrite finish_order_perm. }
    simpl. f_equal. apply List.filter_ext_in. intros event He. apply list_elem_of_In in He.
    specialize (Hok event He). destruct (check event) as [b|e|s] eqn:Hc; [|done..].
    rewrite (Hin _ b); [done|]. rewrite finish_order_perm. apply list_elem_of_In, in_map_iff.
    exists (lookup_of event). split; [by rewrite <-Hc|]. apply list_elem_of_In, Hmem. eauto.
  - intros Hex. rewrite Exists_exists in Hex. destruct Hex as (event & He & Hbad).
    pose proof (collect_results_error (finish_order answers) ∅) as Herr.
    destruct (collect_results (finish_order answers) ∅); [|done..]. exfalso. discriminate Herr.
    rewrite finish_order_perm. apply Exists_exists.
    exists (key_of label (lookup_of event), check event). split; [|done].
    apply list_elem_of_In, in_map_iff. exists (lookup_of event). split; [done|]. apply list_elem_of_In, Hmem. eauto.
  - apply lookups_NoDup, NoDup_nil_2.
Qed.

Definition pod (label : string) : json :=
  JObj [("metadata", JObj [("labels", JObj [(ComponentLabelKey, JStr label)])])].
Definition cluster (rt : ResourceType) (ns name : string) : res go_error json :=
  if String.eqb name "kserve-0" then Ok (pod "kserve") else if String.eqb name "ray-0" then Ok (pod "ray") else Err (EForeign 2 "not found").
Definition event_of (kind name : string) (t : option Z) : EventInfo := mkEventInfo "ns" name kind "Started" "" 1 "Normal" t.

Lemma filterEventsByComponent_exact_witness :
  let events := [event_of "Pod" "kserve-0" (Some 1); event_of "Pod" "ray-0" (Some 2); event_of "Pod" "gone" None;
                 event_of "Pod" "kserve-0" (Some 3)] in
  filterEventsByComponent (AE := concrete_ApiErrors) cluster "kserve" events =
    Ok [event_of "Pod" "kserve-0" (Some 1); event_of "Pod" "kserve-0" (Some 3)].
Proof.
  intros events.
  destruct (filterEventsByComponent_exact (AE := concrete_ApiErrors) cluster in_order "kserve" events) as (H & _ & _).
  - repeat constructor.
  - rewrite H; [reflexivity|]. repeat constructor.
Defined.

(** The list is ordered by time, latest first, is a permutation of the
    events, and events of the same instant keep their order. *)
Theorem sortEventsByTime_stable (events : list EventInfo) :
  sortEventsByTime events ≡ₚ events ∧
  StronglySorted (λ a b, UnixNano (ei_LastTime b) <= UnixNano (ei_LastTime a)) (sortEventsByTime events) ∧
  ∀ t, List.filter (λ e, UnixNano (ei_LastTime e) =? t) (sortEventsByTime events) =
       List.filter (λ e, UnixNano (ei_LastTime e) =? t) events.
Proof.
  unfold sortEventsByTime. split; [apply insertion_sort_perm|]. split.
  - eapply StronglySorted_impl; [|apply (sort_slice_sorted (SortSlice := insertion_SortSlice) later events), later_strict].
    simpl. intros x y. unfold later. by rewrite Z.ltb_ge.
  - intros t. apply insertion_sort_stable. intros x y Hx Hy. unfold later. apply Z.ltb_ge. lia.
Qed.

(** C38: As long as the labels of the cluster do not change, a watch sends on
    exactly the added or modified events after the cut-off whose object
    carries the label, in order; its cache only ever holds answers the cluster
    gave; and the resource version to resume from is that of the last event
    seen, sent or not. *)
Theorem processWatchEvents_exact `{AE : ApiErrors} get_object component cutoff events rv cache :
  Forall (well_behaved get_object component) events → cache_sound get_object component cache →
  ∃ cache', processWatchEvents get_object component cutoff events rv cache =
    Ok (foldl last_version rv events, omap (wanted get_object component cutoff) events, cache') ∧
    cache_sound get_object component cache'.
Proof. apply processWatchEvents_ok. Qed.

Definition seen (name rv : string) (t : option Z) : WatchEvent :=
  mkWatchEvent WatchAdded (Some (mkEvent "ns" rv "ns" "Pod" name "Started" "" 1 "Normal" t None)).

Lemma processWatchEvents_exact_witness :
  let events := [seen "kserve-0" "7" (Some 10); seen "kserve-0" "8" (Some 2); seen "ray-0" "9" (Some 11)] in
  ∃ cache', processWatchEvents (AE := concrete_ApiErrors) cluster "kserve" (Some 5) events "" ∅ =
    Ok ("9", omap we_Object [seen "kserve-0" "7" (Some 10)], cache').
Proof.
  intros events.
  destruct (processWatchEvents_exact (AE := concrete_ApiErrors) cluster "kserve" (Some 5) events "" ∅) as (cache' & H & _).
  - repeat (apply Forall_cons; split; [intros e [= <-]; split; [by split|intros s; vm_compute; discriminate]|]). by apply Forall_nil.
  - intros l b _. by rewrite lookup_empty.
  - exists cache'. exact H.
Defined.

(** While a watch runs, it has failed fewer than five times in a row and
    waits 2^n seconds after the n-th failure (so the cap of thirty seconds is
    never reached); it gives up exactly after five consecutive failures, all
    against the resource version it holds. *)
Theorem watch_retries `{AE : ApiErrors} get_object component cutoff turns connect s' gave_up :
  watchNamespaceEvents get_object turns component cutoff connect initial_watch = Ok (s', gave_up) →
  if (gave_up : bool) then
    ws_consecutiveErrors s' = 5 ∧ ∃ start, (start + 5 ≤ turns)%nat ∧
      ∀ j, (start ≤ j < start + 5)%nat → ∃ e, connect j (ws_ResourceVersion s') = Err e
  else 0 <= ws_consecutiveErrors s' < 5 ∧ ws_backoff s' = 2 ^ ws_consecutiveErrors s' * second ∧
    ws_backoff s' < maxRetryBackoff.
Proof.
  assert (retry_ok initial_watch) as H0 by by split.
  intros H. destruct gave_up.
  - apply watch_gives_up in H as (H5 & start & n & Hle & Hcount & Hall); [|done]. split; [done|].
    cbn [initial_watch ws_consecutiveErrors] in Hcount. exists start. split; [lia|]. intros j Hj. apply Hall. lia.
  - apply watch_running in H as [Hb Hbo]; [|done]. unfold maxWatchRetries in Hb. split; [done|]. split; [done|].
    rewrite Hbo. assert (2 ^ ws_consecutiveErrors s' <= 2 ^ 4) as Hpow by (apply Z.pow_le_mono_r; lia).
    change (2 ^ 4) with 16 in Hpow. unfold maxRetryBackoff, second. lia.
Qed.

Lemma watch_retries_witness :
  let connect (i : nat) (rv : string) := if (i =? 0)%nat then Ok [seen "ray-0" "9" None] else Err (EForeign 11 "gone") in
  ∃ s', watchNamespaceEvents (AE := concrete_ApiErrors) cluster 9 "" None connect initial_watch = Ok (s', true) ∧
    ws_consecutiveErrors s' = 5 ∧ ∃ start, (start + 5 ≤ 9)%nat ∧
      ∀ j, (start ≤ j < start + 5)%nat → ∃ e, connect j (ws_ResourceVersion s') = Err e.
Proof.
  intros connect.
  pose (s' := mkWatch "9" 5 (16 * second) ∅ (omap we_Object [seen "ray-0" "9" None]) (16 * second)).
  assert (Heq : watchNamespaceEvents (AE := concrete_ApiErrors) cluster 9 "" None connect initial_watch = Ok (s', true))
    by (vm_compute; reflexivity).
  exists s'. split; [exact Heq|]. exact (watch_retries (AE := concrete_ApiErrors) cluster "" None 9 connect s' true Heq).
Defined.

(** A resource version is never given up: once the server only answers it
    with errors or with watches that deliver no event (an expired version),
    the loop keeps asking for it and no further event is ever sent. *)
Theorem expired_version_is_kept `{AE : ApiErrors} get_object component cutoff turns connect s s' b :
  (∀ i, (∃ e, connect i (ws_ResourceVersion s) = Err e) ∨
        ∃ l, connect i (ws_ResourceVersion s) = Ok l ∧ Forall (λ event, we_Object event = None) l) →
  watchNamespaceEvents get_object turns component cutoff connect s = Ok (s', b) →
  ws_ResourceVersion s' = ws_ResourceVersion s ∧ ws_sent s' = ws_sent s.
Proof.
  assert (∀ l cache, Forall (λ event, we_Object event = None) l →
    processWatchEvents get_object component cutoff l "" cache = Ok ("", [], cache)) as Hquiet.
  { induction 1 as [|event l He _ IH]; [done|]. simpl. unfold extractValidEvent. rewrite He.
    destruct (we_Type event); simpl; by rewrite IH. }
  revert connect s. induction turns as [|turns IH]; intros connect s Hc; simpl; [by intros [= <- _]|].
  intros H. apply res_bind_Ok_inv in H as (next & Hn & H). unfold watch_turn in Hn.
  destruct (Hc 0%nat) as [[e He]|(l & Hl & Hnone)].
  - rewrite He in Hn. destruct (maxWatchRetries <=? _); injection Hn as Hn; subst next; [by injection H as <- _|].
    apply IH in H; [done|]. intros i. apply (Hc (S i)).
  - rewrite Hl, Hquiet in Hn by done. simpl in Hn. injection Hn as Hn. subst next. rewrite app_nil_r in H.
    apply IH in H; [done|]. intros i. apply (Hc (S i)).
Qed.

Lemma expired_version_is_kept_witness :
  let connect (i : nat) (rv : string) := Ok [mkWatchEvent WatchError None] in
  let s := mkWatch "9" 0 second ∅ [] 0 in
  ∃ s', watchNamespaceEvents (AE := concrete_ApiErrors) cluster 100 "" None connect s = Ok (s', false) ∧
    ws_ResourceVersion s' = "9" ∧ ws_sent s' = [].
Proof.
  intros connect s. eexists. split; [vm_compute; reflexivity|].
  apply (expired_version_is_kept (AE := concrete_ApiErrors) cluster "" None 100 connect s _ false);
    [|vm_compute; reflexivity]. intros i. right. eexists. split; [reflexivity|]. repeat constructor.
Defined.
End EventsSpec.
