(* ===== verification/BackupDeps.v ===== *)
(** * BackupDeps: pkg/backup/dependencies and pkg/util/kube/dependencies.go

    What a workload refers to: the names of the ConfigMaps, Secrets and volume
    claims in a notebook's pod template or in a pipelines application, their
    parallel fetching, and the registry that picks the resolver of a workload
    type.  The decoding of JSON into Kubernetes structs is a parameter; the
    structs keep the fields the code reads. *)
From S2P Require Import Prelude GoStrings Errors Client Version Result DepsCheck.
Open Scope string_scope.
Open Scope Z_scope.
Open Scope go_scope.

(** ** Resource types *)
Definition ConfigMap : ResourceType := mkResourceType "" "v1" "ConfigMap" "configmaps".
Definition Secret : ResourceType := mkResourceType "" "v1" "Secret" "secrets".
Definition PersistentVolumeClaim : ResourceType :=
  mkResourceType "" "v1" "PersistentVolumeClaim" "persistentvolumeclaims".
Definition Notebook : ResourceType := mkResourceType "kubeflow.org" "v1" "Notebook" "notebooks".
Definition DataSciencePipelinesApplicationV1 : ResourceType :=
  mkResourceType "datasciencepipelinesapplications.opendatahub.io" "v1" "DataSciencePipelinesApplication"
    "datasciencepipelinesapplications".

(** [schema.GroupVersionResource], and [ResourceType.GVR]. *)
Record GVR := mkGVR { g_Group : string; g_Version : string; g_Resource : string }.
#[export] Instance GVR_eq_dec : EqDecision GVR.
Proof. solve_decision. Defined.

Definition rt_GVR (r : ResourceType) : GVR := mkGVR (rt_Group r) (rt_Version r) (rt_Resource r).

(** ** Kubernetes structs, as far as they are read *)
Record Volume := mkVolume { v_ConfigMap : option string; v_Secret : option string; v_PVC : option string }.
Record EnvFromSource := mkEnvFrom { ef_ConfigMapRef : option string; ef_SecretRef : option string }.
(** [env.valueFrom]: the names of its two references, if it is there. *)
Record EnvVarSource := mkValueFrom { vf_ConfigMapKeyRef : option string; vf_SecretKeyRef : option string }.
Record EnvVar := mkEnvVar { ev_Name : string; ev_ValueFrom : option EnvVarSource }.
Record Container := mkContainer { c_EnvFrom : list EnvFromSource; c_Env : list EnvVar }.

(** An element of [sources ...any]. *)
Inductive source :=
| SVolume (v : Volume)
| SContainer (c : Container)
| SOther (type_name : string).

Record Dependency := mkDependency {
  d_GVR : GVR;
  d_Resource : option json;
  d_Name : string;
  d_Error : option go_error;
}.

(** ** The jq wrapper at an arbitrary type (pkg/util/jq/jq.go) *)
Definition jq_Query {T} `{JQ : GoJq} (zero : T) (type_name : string) (unmarshal : json → res go_error T)
    (value : json) (query : string) : res go_error T :=
  match gojq_run value query with
  | JqParseError e => Err (errorf_w "failed to parse jq query" e)
  | JqNoResult => Ok zero
  | JqRunError e => Err (errorf_w "jq query error" e)
  | JqValue JNull => Err (ESentinel JqErrNotFound)
  | JqValue v => res_map_err (errorf_w ("unmarshaling to type " +:+ type_name)) (unmarshal v)
  end.

Definition as_bool (v : json) : res go_error bool :=
  match v with JBool b => Ok b | _ => Err (EString "json: cannot unmarshal value into Go value of type bool") end.

(** ** Names referenced (pkg/util/kube/dependencies.go) *)
Section Extract.
Context `{SS : SortSlice}.

Definition nonempty_ref (ref : option string) : string := default "" ref.
Definition insert_ref (ref : string) (names : gset string) : gset string :=
  if String.eqb ref "" then names else {[ref]} ∪ names.

Definition ExtractConfigMapRefsFromVolume (v : Volume) : string := nonempty_ref (v_ConfigMap v).
Definition ExtractSecretRefsFromVolume (v : Volume) : string := nonempty_ref (v_Secret v).
Definition ExtractPVCRefsFromVolume (v : Volume) : string := nonempty_ref (v_PVC v).
Definition ExtractConfigMapRefFromEnvFromSource (e : EnvFromSource) : string := nonempty_ref (ef_ConfigMapRef e).
Definition ExtractSecretRefFromEnvFromSource (e : EnvFromSource) : string := nonempty_ref (ef_SecretRef e).
Definition ExtractConfigMapRefFromEnvVar (e : EnvVar) : string :=
  nonempty_ref (ev_ValueFrom e ≫= vf_ConfigMapKeyRef).
Definition ExtractSecretRefFromEnvVar (e : EnvVar) : string :=
  nonempty_ref (ev_ValueFrom e ≫= vf_SecretKeyRef).

(** The set a container's references fill: [envFrom] first, then [env]. *)
Definition container_refs (from : EnvFromSource → string) (env : EnvVar → string) (c : Container) : gset string :=
  foldl (λ names e, insert_ref (env e) names)
    (foldl (λ names e, insert_ref (from e) names) ∅ (c_EnvFrom c)) (c_Env c).

Definition ExtractConfigMapRefs (c : Container) : list string :=
  sets_List (container_refs ExtractConfigMapRefFromEnvFromSource ExtractConfigMapRefFromEnvVar c).
Definition ExtractSecretRefs (c : Container) : list string :=
  sets_List (container_refs ExtractSecretRefFromEnvFromSource ExtractSecretRefFromEnvVar c).

(** The type switch the three extractions share; [ofContainer] is absent for
    volume claims, where a container is an unsupported type. *)
Fixpoint extract_loop (what : string) (ofVolume : Volume → string) (ofContainer : option (Container → list string))
    (sources : list source) (names : gset string) : res go_error (gset string) :=
  match sources with
  | [] => Ok names
  | SVolume v :: rest => extract_loop what ofVolume ofContainer rest (insert_ref (ofVolume v) names)
  | SContainer c :: rest =>
      match ofContainer with
      | Some refs => extract_loop what ofVolume ofContainer rest (list_to_set (refs c) ∪ names)
      | None => Err (EString ("unsupported source type for " +:+ what +:+ " extraction: v1.Container"))
      end
  | SOther ty :: _ => Err (EString ("unsupported source type for " +:+ what +:+ " extraction: " +:+ ty))
  end.

Definition ExtractConfigMapRefsFromSources (sources : list source) : res go_error (list string) :=
  let! names := extract_loop "ConfigMap" ExtractConfigMapRefsFromVolume (Some ExtractConfigMapRefs) sources ∅ in
  Ok (sets_List names).
Definition ExtractSecretRefsFromSources (sources : list source) : res go_error (list string) :=
  let! names := extract_loop "Secret" ExtractSecretRefsFromVolume (Some ExtractSecretRefs) sources ∅ in
  Ok (sets_List names).
Definition ExtractPVCRefsFromSources (sources : list source) : res go_error (list string) :=
  let! names := extract_loop "PVC" ExtractPVCRefsFromVolume None sources ∅ in
  Ok (sets_List names).
End Extract.

(** ** Fetching by name (kube/dependencies.go)

    One goroutine per name writes its slot of two slices; they finish in an
    arbitrary order. *)
Section Resolve.
Context `{AE : ApiErrors, SRV : ApiServer, JQ : GoJq, SS : SortSlice, MO : MapOrder, SCH : Schedule}.

(** What a goroutine stores: the object, or the error of this name. *)
Definition fetch_one (rt : ResourceType) (namespace name : string) : res go_error (json + go_error) :=
  match Get rt name namespace with
  | Ok (Some resource) => Ok (inl resource)
  | Ok None =>
      Ok (inr (EString ("secrets " +:+ quote name +:+ " is forbidden: User cannot get resource " +:+
            quote (rt_Resource rt) +:+ " in API group " +:+ quote (rt_Group rt) +:+ " in the namespace " +:+
            quote namespace)))
  | Err err => Ok (inr err)
  | Panic s => Panic s
  end.

Definition fetch_slot (rt : ResourceType) (namespace : string) (names : list string)
    (slots : res go_error (list (option (json + go_error)))) (idx : nat)
    : res go_error (list (option (json + go_error))) :=
  let! slots := slots in
  match names !! idx with
  | Some name => let! outcome := fetch_one rt namespace name in Ok (<[idx := Some outcome]> slots)
  | None => Ok slots
  end.

Definition fetch_all (rt : ResourceType) (namespace : string) (names : list string)
    : res go_error (list (option (json + go_error))) :=
  foldl (fetch_slot rt namespace names) (Ok (replicate (length names) None)) (finish_order (seq 0 (length names))).

(** Found items in the order of the names, and the map of errors. *)
Definition slot_found (slot : option (json + go_error)) : option json :=
  match slot with Some (inl resource) => Some resource | _ => None end.
Definition add_fetch_error (errors : gmap string go_error) (entry : string * option (json + go_error))
    : gmap string go_error :=
  match entry.2 with Some (inr err) => <[entry.1 := err]> errors | _ => errors end.

Definition FetchResourcesByNameWithErrors (namespace : string) (rt : ResourceType) (names : list string)
    : res go_error (list json * gmap string go_error) :=
  match names with
  | [] => Ok ([], ∅)
  | _ =>
      let! slots := fetch_all rt namespace names in
      Ok (omap slot_found slots, foldl add_fetch_error ∅ (zip names slots))
  end.

Definition FetchResourcesByNameWithMissing (namespace : string) (rt : ResourceType) (names : list string)
    : res go_error (list json * list string) :=
  let! out := FetchResourcesByNameWithErrors namespace rt names in
  let '(items, errors) := out in Ok (items, (map_range errors).*1).

Definition FetchResourcesByName (namespace : string) (rt : ResourceType) (names : list string)
    : res go_error (list json) :=
  let! out := FetchResourcesByNameWithMissing namespace rt names in Ok out.1.

(** ** The shared helpers (dependencies/helpers.go) *)
Definition found_dependency (rt : ResourceType) (resource : json) : Dependency :=
  mkDependency (rt_GVR rt) (Some resource) (GetName resource) None.
Definition missing_dependency (rt : ResourceType) (entry : string * go_error) : Dependency :=
  mkDependency (rt_GVR rt) None entry.1 (Some entry.2).

(** Fetch, and keep what was found. *)
Definition found_dependencies (what namespace : string) (rt : ResourceType) (names : list string)
    : res go_error (list Dependency) :=
  try! items := FetchResourcesByName namespace rt names else errorf_w ("fetching " +:+ what) in
  Ok (map (found_dependency rt) items).

(** Fetch, and keep the failures as well. *)
Definition secret_dependencies (namespace : string) (names : list string) : res go_error (list Dependency) :=
  try! out := FetchResourcesByNameWithErrors namespace Secret names else errorf_w "fetching Secrets" in
  Ok (map (found_dependency Secret) out.1 ++ map (missing_dependency Secret) (map_range out.2))%list.

Definition ResolveConfigMaps (namespace : string) (sources : list source) : res go_error (list Dependency) :=
  try! names := ExtractConfigMapRefsFromSources sources else errorf_w "extracting ConfigMap references" in
  found_dependencies "ConfigMaps" namespace ConfigMap names.
Definition ResolveSecrets (namespace : string) (sources : list source) : res go_error (list Dependency) :=
  try! names := ExtractSecretRefsFromSources sources else errorf_w "extracting Secret references" in
  secret_dependencies namespace names.
Definition ResolvePVCs (namespace : string) (sources : list source) : res go_error (list Dependency) :=
  try! names := ExtractPVCRefsFromSources sources else errorf_w "extracting PVC references" in
  found_dependencies "PVCs" namespace PersistentVolumeClaim names.

(** ** Notebooks (dependencies/notebooks/resolver.go) *)
Definition GetNamespace (obj : json) : string :=
  match nested ["metadata"; "namespace"] obj with Some (JStr s) => s | _ => "" end.

Context (unmarshal_volumes : json → res go_error (list Volume)).
Context (unmarshal_containers : json → res go_error (list Container)).

Definition query_slice {T} (what type_name query : string) (unmarshal : json → res go_error (list T)) (obj : json)
    : res go_error (list T) :=
  match jq_Query [] type_name unmarshal obj query with
  | Err err => if errors_is JqErrNotFound err then Ok [] else Err (errorf_w ("querying " +:+ what) err)
  | r => r
  end.
Definition extractVolumes : json → res go_error (list Volume) :=
  query_slice "volumes" "[]v1.Volume" ".spec.template.spec.volumes // []" unmarshal_volumes.
Definition extractContainers : json → res go_error (list Container) :=
  query_slice "containers" "[]v1.Container" ".spec.template.spec.containers // []" unmarshal_containers.

Definition is_trusted_ca_bundle (ref : option string) : bool :=
  match ref with Some name => has_suffix "trusted-ca-bundle" name | None => false end.

Definition filterContainerConfigMapRefs (c : Container) : Container :=
  mkContainer
    (List.filter (λ e, negb (is_trusted_ca_bundle (ef_ConfigMapRef e))) (c_EnvFrom c))
    (List.filter (λ e, negb (is_trusted_ca_bundle (ev_ValueFrom e ≫= vf_ConfigMapKeyRef))) (c_Env c)).

Definition filter_source (s : source) : option source :=
  match s with
  | SVolume v => if is_trusted_ca_bundle (v_ConfigMap v) then None else Some (SVolume v)
  | SContainer c => Some (SContainer (filterContainerConfigMapRefs c))
  | SOther _ => Some s
  end.
Definition filterTrustedCABundleSources (sources : list source) : list source := omap filter_source sources.

Definition Notebook_CanHandle (gvr : GVR) : bool :=
  String.eqb (g_Group gvr) (rt_Group Notebook) && String.eqb (g_Resource gvr) (rt_Resource Notebook).

Definition Notebook_Resolve (obj : json) : res go_error (list Dependency) :=
  let namespace := GetNamespace obj in
  let! volumes := extractVolumes obj in
  let! containers := extractContainers obj in
  let sources := (map SVolume volumes ++ map SContainer containers)%list in
  let filteredSources := filterTrustedCABundleSources sources in
  try! configMapDeps := ResolveConfigMaps namespace filteredSources else errorf_w "resolving ConfigMaps" in
  try! secretDeps := ResolveSecrets namespace filteredSources else errorf_w "resolving Secrets" in
  try! pvcDeps := ResolvePVCs namespace (map SVolume volumes) else errorf_w "resolving PVCs" in
  Ok (configMapDeps ++ secretDeps ++ pvcDeps)%list.

(** ** Pipelines applications (dependencies/dspa/resolver.go) *)
Definition trustedCABundleName := "trusted-ca-bundle".
Definition mariaDBPVCPrefix := "mariadb-".
Definition minioPVCPrefix := "minio-".
Definition pathExternalS3Creds := ".spec.objectStorage.externalStorage.s3CredentialsSecret.secretName".
Definition pathMinioS3Creds := ".spec.objectStorage.minio.s3CredentialsSecret.secretName".
Definition pathMariaDBPassword := ".spec.database.mariaDB.passwordSecret.name".
Definition pathExternalDBPassword := ".spec.database.externalDB.passwordSecret.name".
Definition pathCABundle := ".spec.apiServer.cABundle.configMapName".
Definition pathCustomServerConfig := ".spec.apiServer.customServerConfigMap.name".
Definition pathCustomKFPLauncher := ".spec.apiServer.customKfpLauncherConfigMap".
Definition pathDeployMariaDB := ".spec.database.mariaDB.deploy".
Definition pathDeployMinio := ".spec.objectStorage.minio.deploy".

Definition queryStringField (obj : json) (path : string) : string :=
  match jq_Query_string obj path with Ok value => value | _ => "" end.

(** The names at the paths that hold one. *)
Definition fields_at (obj : json) (paths : list string) : list string :=
  List.filter (λ name, negb (String.eqb name "")) (map (queryStringField obj) paths).

Definition dspa_secret_names (obj : json) : list string :=
  fields_at obj [pathExternalS3Creds; pathMinioS3Creds; pathMariaDBPassword; pathExternalDBPassword].
Definition resolveSecrets (namespace : string) (obj : json) : res go_error (list Dependency) :=
  match dspa_secret_names obj with
  | [] => Ok []
  | secretNames => secret_dependencies namespace secretNames
  end.

Definition dspa_configmap_names (obj : json) : list string :=
  (List.filter (λ name, negb (String.eqb name trustedCABundleName)) (fields_at obj [pathCABundle]) ++
   fields_at obj [pathCustomServerConfig; pathCustomKFPLauncher])%list.
Definition resolveConfigMaps (namespace : string) (obj : json) : res go_error (list Dependency) :=
  match dspa_configmap_names obj with
  | [] => Ok []
  | configMapNames => found_dependencies "ConfigMaps" namespace ConfigMap configMapNames
  end.

Definition query_flag (obj : json) (path : string) : bool :=
  match jq_Query false "bool" as_bool obj path with Ok b => b | _ => false end.
Definition dspa_pvc_names (dspaName : string) (obj : json) : list string :=
  ((if query_flag obj pathDeployMariaDB then [mariaDBPVCPrefix +:+ dspaName] else []) ++
   (if query_flag obj pathDeployMinio then [minioPVCPrefix +:+ dspaName] else []))%list.
Definition resolvePVCs (namespace dspaName : string) (obj : json) : res go_error (list Dependency) :=
  match dspa_pvc_names dspaName obj with
  | [] => Ok []
  | pvcNames => found_dependencies "PVCs" namespace PersistentVolumeClaim pvcNames
  end.

Definition DSPA_CanHandle (gvr : GVR) : bool :=
  String.eqb (g_Group gvr) (rt_Group DataSciencePipelinesApplicationV1) &&
  String.eqb (g_Resource gvr) (rt_Resource DataSciencePipelinesApplicationV1).

Definition DSPA_Resolve (obj : json) : res go_error (list Dependency) :=
  let namespace := GetNamespace obj in
  let dspaName := GetName obj in
  let! secretDeps := resolveSecrets namespace obj in
  let! configMapDeps := resolveConfigMaps namespace obj in
  let! pvcDeps := resolvePVCs namespace dspaName obj in
  Ok (secretDeps ++ configMapDeps ++ pvcDeps)%list.

(** ** The registry of resolvers (dependencies/registry.go, resolver.go) *)
Record Resolver := mkResolver {
  rs_CanHandle : GVR → bool;
  rs_Resolve : json → res go_error (list Dependency);
}.

Definition GetResolver (resolvers : list Resolver) (gvr : GVR) : option Resolver :=
  find (λ r, rs_CanHandle r gvr) resolvers.

(** The registry [Complete] builds. *)
Definition NotebookResolver : Resolver := mkResolver Notebook_CanHandle Notebook_Resolve.
Definition DSPAResolver : Resolver := mkResolver DSPA_CanHandle DSPA_Resolve.
Definition depRegistry (Dependencies : bool) : list Resolver :=
  if Dependencies then [NotebookResolver; DSPAResolver] else [].
End Resolve.

(** ** Lemmas: names *)
Section ExtractLemmas.
Context `{SS : SortSlice}.

Lemma elem_of_insert_ref x ref (names : gset string) :
  x ∈ insert_ref ref names ↔ (x = ref ∧ x ≠ "") ∨ x ∈ names.
Proof. unfold insert_ref. destruct (String.eqb_spec ref ""); set_solver. Qed.

Lemma elem_of_insert_refs {A} (ref : A → string) (l : list A) (names : gset string) x :
  x ∈ foldl (λ names a, insert_ref (ref a) names) names l ↔ (x ≠ "" ∧ Exists (λ a, ref a = x) l) ∨ x ∈ names.
Proof.
  revert names. induction l as [|a l IH]; intros names; simpl.
  { rewrite Exists_nil. naive_solver. }
  rewrite IH, elem_of_insert_ref, Exists_cons. naive_solver.
Qed.

Lemma elem_of_container_refs from env c x :
  x ∈ container_refs from env c ↔
  x ≠ "" ∧ (Exists (λ e, from e = x) (c_EnvFrom c) ∨ Exists (λ e, env e = x) (c_Env c)).
Proof. unfold container_refs. rewrite !elem_of_insert_refs, elem_of_empty. naive_solver. Qed.

(** What one source contributes. *)
Definition source_refers (ofVolume : Volume → string) (ofContainer : option (Container → list string))
    (x : string) (s : source) : Prop :=
  match s with
  | SVolume v => ofVolume v = x ∧ x ≠ ""
  | SContainer c => match ofContainer with Some refs => x ∈ refs c | None => False end
  | SOther _ => False
  end.
Definition supported (ofContainer : option (Container → list string)) (s : source) : Prop :=
  match s with SVolume _ => True | SContainer _ => is_Some ofContainer | SOther _ => False end.

Lemma extract_loop_spec what ofVolume ofContainer sources names :
  Forall (supported ofContainer) sources →
  ∃ names', extract_loop what ofVolume ofContainer sources names = Ok names' ∧
    ∀ x, x ∈ names' ↔ x ∈ names ∨ Exists (source_refers ofVolume ofContainer x) sources.
Proof.
  revert names. induction sources as [|s sources IH]; intros names; simpl.
  { intros _. exists names. split; [done|]. intros x. rewrite Exists_nil. naive_solver. }
  rewrite Forall_cons. intros [Hs Hsources]. destruct s as [v|c|ty]; simpl in Hs; [| |done].
  - destruct (IH (insert_ref (ofVolume v) names) Hsources) as (names' & -> & H). exists names'. split; [done|].
    intros x. rewrite H, elem_of_insert_ref, Exists_cons. simpl. naive_solver.
  - destruct Hs as [refs ->]. destruct (IH (list_to_set (refs c) ∪ names) Hsources) as (names' & -> & H).
    exists names'. split; [done|]. intros x. rewrite H, elem_of_union, elem_of_list_to_set, Exists_cons. simpl. naive_solver.
Qed.
End ExtractLemmas.

(** ** Lemmas: parallel fetches *)
Section FetchLemmas.
Context `{AE : ApiErrors, SRV : ApiServer, JQ : GoJq, SS : SortSlice, MO : MapOrder, SCH : Schedule}.
Context (rt : ResourceType) (namespace : string).

(** The answers of the cluster, one by one. *)
Definition fetched (name : string) : option json :=
  match Get rt name namespace with Ok (Some resource) => Some resource | _ => None end.
Definition outcome (name : string) : json + go_error :=
  match fetch_one rt namespace name with Ok o => o | _ => inr (EString "") end.

Context (Hget : ∀ name s, srv_get rt namespace name ≠ Panic s).

Lemma fetch_one_outcome name : fetch_one rt namespace name = Ok (outcome name).
Proof using Hget.
  unfold outcome, fetch_one, Get. pose proof (Hget name) as H.
  destruct (srv_get rt namespace name); [done| |by edestruct H]. by destruct (IsPermissionError e).
Qed.

Lemma fetched_outcome name : fetched name = slot_found (Some (outcome name)).
Proof using Hget.
  pose proof (fetch_one_outcome name) as H. unfold fetched. unfold fetch_one in H.
  destruct (Get rt name namespace) as [[r|]|e|m]; [| | |done]; injection H as H; simpl; by rewrite <-H.
Qed.

Lemma fetch_slots_lookup names l slots :
  NoDup l → length slots = length names →
  ∃ slots', foldl (fetch_slot rt namespace names) (Ok slots) l = Ok slots' ∧ length slots' = length names ∧
    ∀ i, slots' !! i = if decide (i ∈ l) then (λ name, Some (outcome name)) <$> names !! i else slots !! i.
Proof using Hget.
  revert slots. induction l as [|j l IH]; intros slots Hn Hlen; simpl.
  { exists slots. split; [done|]. split; [done|]. intros i. done. }
  apply NoDup_cons in Hn as [Hj Hn].
  destruct (names !! j) as [name|] eqn:Hname; simpl.
  - rewrite fetch_one_outcome. simpl.
    destruct (IH (<[j := Some (outcome name)]> slots) Hn) as (slots' & -> & Hlen' & H).
    { by rewrite length_insert. }
    exists slots'. split; [done|]. split; [done|]. intros i. rewrite H.
    destruct (decide (i = j)) as [->|Hij].
    + rewrite decide_False, decide_True by (done || by left). rewrite Hname. simpl.
      apply list_lookup_insert_eq. rewrite Hlen. by eapply lookup_lt_Some.
    + rewrite list_lookup_insert_ne by done. apply decide_ext. rewrite elem_of_cons. naive_solver.
  - destruct (IH slots Hn Hlen) as (slots' & -> & Hlen' & H). exists slots'. split; [done|]. split; [done|].
    intros i. rewrite H. destruct (decide (i = j)) as [->|Hij].
    + rewrite decide_False, decide_True, Hname by (done || by left). simpl.
      apply lookup_ge_None in Hname. apply lookup_ge_None. by rewrite Hlen.
    + apply decide_ext. rewrite elem_of_cons. naive_solver.
Qed.

(** Whatever the goroutines' order, every slot holds the answer for its name. *)
Lemma fetch_all_slots names : fetch_all rt namespace names = Ok (map (λ name, Some (outcome name)) names).
Proof using Hget.
  unfold fetch_all.
  destruct (fetch_slots_lookup names (finish_order (seq 0 (length names))) (replicate (length names) None))
    as (slots & -> & Hlen & H).
  { rewrite finish_order_perm. apply NoDup_seq. }
  { by rewrite length_replicate. }
  f_equal. apply list_eq. intros i. rewrite H, list_lookup_fmap.
  destruct (decide (i ∈ finish_order (seq 0 (length names)))) as [_|Hi]; [done|].
  rewrite finish_order_perm, elem_of_seq in Hi.
  rewrite !(proj2 (lookup_ge_None _ _)); [done|lia|rewrite length_replicate; lia].
Qed.

Lemma add_fetch_errors_lookup names errors n :
  foldl add_fetch_error errors (zip names (map (λ name, Some (outcome name)) names)) !! n =
    if decide (n ∈ names) then match outcome n with inr e => Some e | inl _ => errors !! n end else errors !! n.
Proof.
  revert errors. induction names as [|m names IH]; intros errors; simpl.
  { done. }
  rewrite IH. unfold add_fetch_error at 1 2. simpl.
  destruct (decide (n = m)) as [->|Hnm].
  - rewrite (decide_True (P := m ∈ m :: names)) by by left.
    case_decide; destruct (outcome m); by rewrite ?lookup_insert_eq.
  - rewrite (decide_ext (n ∈ m :: names) (n ∈ names)) by (rewrite elem_of_cons; naive_solver).
    destruct (outcome m); by rewrite ?lookup_insert_ne by done.
Qed.

Lemma omap_slots names : omap slot_found (map (λ name, Some (outcome name)) names) = omap fetched names.
Proof using Hget.
  apply list_omap_ext, Forall2_fmap_l, Forall_Forall2_diag, Forall_forall. intros n _. simpl.
  by rewrite fetched_outcome.
Qed.

Lemma FetchResourcesByNameWithErrors_spec names :
  ∃ errors, FetchResourcesByNameWithErrors namespace rt names = Ok (omap fetched names, errors) ∧
    ∀ n e, errors !! n = Some e ↔ n ∈ names ∧ outcome n = inr e.
Proof using Hget.
  exists (foldl add_fetch_error ∅ (zip names (map (λ name, Some (outcome name)) names))). split.
  - unfold FetchResourcesByNameWithErrors. destruct names as [|n names]; [done|].
    rewrite fetch_all_slots. unfold res_bind. by rewrite omap_slots.
  - intros m e. rewrite add_fetch_errors_lookup, lookup_empty. destruct (decide (m ∈ names)); [|naive_solver].
    destruct (outcome m); naive_solver.
Qed.

Lemma found_dependencies_spec what names :
  found_dependencies what namespace rt names = Ok (map (found_dependency rt) (omap fetched names)).
Proof using Hget.
  unfold found_dependencies, FetchResourcesByName, FetchResourcesByNameWithMissing.
  by destruct (FetchResourcesByNameWithErrors_spec names) as (errors & -> & _).
Qed.

Lemma elem_of_found names dep :
  dep ∈ map (found_dependency rt) (omap fetched names) ↔
  ∃ n r, n ∈ names ∧ fetched n = Some r ∧ dep = found_dependency rt r.
Proof. rewrite list_elem_of_fmap. setoid_rewrite list_elem_of_omap. naive_solver. Qed.
End FetchLemmas.

Lemma secret_dependencies_spec `{AE : ApiErrors, SRV : ApiServer, MO : MapOrder, SCH : Schedule} namespace names :
  (∀ name s, srv_get Secret namespace name ≠ Panic s) →
  ∃ deps, secret_dependencies namespace names = Ok deps ∧
    ∀ dep, dep ∈ deps ↔ ∃ n, n ∈ names ∧
      ((∃ r, fetched Secret namespace n = Some r ∧ dep = found_dependency Secret r) ∨
       (∃ e, outcome Secret namespace n = inr e ∧ dep = missing_dependency Secret (n, e))).
Proof.
  intros Hget. unfold secret_dependencies.
  destruct (FetchResourcesByNameWithErrors_spec Secret namespace Hget names) as (errors & -> & H).
  eexists. split; [done|]. intros dep. simpl. rewrite elem_of_app, elem_of_found, list_elem_of_fmap. split.
  - intros [(n & r & Hn & Hr & ->)|([n e] & -> & He)]; [by eauto 10|].
    apply elem_of_map_range, H in He as [Hn He]. eauto 10.
  - intros (n & Hn & [(r & Hr & ->)|(e & He & ->)]); [eauto 10|]. right. exists (n, e). split; [done|].
    by apply elem_of_map_range, H.
Qed.

(** ** What a notebook refers to *)
Section NotebookLemmas.
Context (volumes : list Volume) (containers : list Container).

Definition refers_ConfigMap (n : string) : Prop :=
  n ≠ "" ∧
  (Exists (λ v, v_ConfigMap v = Some n) volumes ∨
   Exists (λ c, Exists (λ e, ef_ConfigMapRef e = Some n) (c_EnvFrom c) ∨
                Exists (λ e, (ev_ValueFrom e ≫= vf_ConfigMapKeyRef) = Some n) (c_Env c)) containers).
Definition refers_Secret (n : string) : Prop :=
  n ≠ "" ∧
  (Exists (λ v, v_Secret v = Some n) volumes ∨
   Exists (λ c, Exists (λ e, ef_SecretRef e = Some n) (c_EnvFrom c) ∨
                Exists (λ e, (ev_ValueFrom e ≫= vf_SecretKeyRef) = Some n) (c_Env c)) containers).
Definition refers_PVC (n : string) : Prop := n ≠ "" ∧ Exists (λ v, v_PVC v = Some n) volumes.

(** The API server admits one source per volume and per environment entry. *)
Definition one_source_volume (v : Volume) : Prop := v_ConfigMap v = None ∨ v_Secret v = None.
Definition one_source_container (c : Container) : Prop :=
  Forall (λ e, ef_ConfigMapRef e = None ∨ ef_SecretRef e = None) (c_EnvFrom c) ∧
  Forall (λ e, (ev_ValueFrom e ≫= vf_ConfigMapKeyRef) = None ∨ (ev_ValueFrom e ≫= vf_SecretKeyRef) = None) (c_Env c).

Definition trusted (n : string) : bool := has_suffix "trusted-ca-bundle" n.

Lemma nonempty_ref_eq ref n : nonempty_ref ref = n ∧ n ≠ "" ↔ ref = Some n ∧ n ≠ "".
Proof. destruct ref; simpl; naive_solver. Qed.

(** Filtering keeps the references that are not in a dropped entry. *)
Lemma Exists_kept {A} (drop : A → option string) (ref : A → option string) (l : list A) n :
  n ≠ "" →
  Exists (λ e, nonempty_ref (ref e) = n) (List.filter (λ e, negb (is_trusted_ca_bundle (drop e))) l) ↔
  Exists (λ e, ref e = Some n ∧ is_trusted_ca_bundle (drop e) = false) l.
Proof.
  intros Hn. rewrite !Exists_exists. setoid_rewrite list_elem_of_In. setoid_rewrite List.filter_In.
  setoid_rewrite negb_true_iff. split.
  - intros (e & [He Hd] & Hr). exists e. split; [done|]. split; [|done]. by apply (nonempty_ref_eq (ref e) n).
  - intros (e & He & Hr & Hd). exists e. split; [done|]. by rewrite Hr.
Qed.

Lemma Exists_same_ref {A} (ref : A → option string) (l : list A) n :
  Exists (λ e, ref e = Some n ∧ is_trusted_ca_bundle (ref e) = false) l ↔
  trusted n = false ∧ Exists (λ e, ref e = Some n) l.
Proof.
  rewrite !Exists_exists. split.
  - intros (e & He & Hr & Ht). rewrite Hr in Ht. eauto.
  - intros (Ht & e & He & Hr). exists e. by rewrite Hr.
Qed.

Lemma Exists_other_ref {A} (drop ref : A → option string) (l : list A) n :
  Forall (λ e, drop e = None ∨ ref e = None) l →
  Exists (λ e, ref e = Some n ∧ is_trusted_ca_bundle (drop e) = false) l ↔ Exists (λ e, ref e = Some n) l.
Proof.
  intros Hone. rewrite !Exists_exists. split; [naive_solver|].
  intros (e & He & Hr). exists e. split; [done|]. split; [done|].
  rewrite Forall_forall in Hone. destruct (Hone e He) as [->|]; [done|congruence].
Qed.

Lemma filtered_volumes n (ref : Volume → option string) refs :
  n ≠ "" →
  Exists (source_refers (λ v, nonempty_ref (ref v)) refs n) (filterTrustedCABundleSources (map SVolume volumes)) ↔
  Exists (λ v, ref v = Some n ∧ is_trusted_ca_bundle (v_ConfigMap v) = false) volumes.
Proof.
  intros Hn. unfold filterTrustedCABundleSources. induction volumes as [|v vs IH]; csimpl.
  { by rewrite !Exists_nil. }
  rewrite Exists_cons, <-IH. destruct (is_trusted_ca_bundle (v_ConfigMap v)); [naive_solver|].
  rewrite Exists_cons. simpl. rewrite nonempty_ref_eq. naive_solver.
Qed.

Lemma filtered_containers n ofVolume refs :
  Exists (source_refers ofVolume (Some refs) n) (filterTrustedCABundleSources (map SContainer containers)) ↔
  Exists (λ c, n ∈ refs (filterContainerConfigMapRefs c)) containers.
Proof.
  unfold filterTrustedCABundleSources. induction containers as [|c cs IH]; csimpl; [by rewrite !Exists_nil|].
  by rewrite !Exists_cons, <-IH.
Qed.

(** No source refers to the empty name. *)
Lemma no_empty_ref ofVolume refs sources :
  (∀ c, "" ∉ refs c) → ¬ Exists (source_refers ofVolume (Some refs) "") sources.
Proof. intros Hrefs (s & _ & Hs)%Exists_exists. destruct s; simpl in Hs; naive_solver. Qed.

Lemma filter_sources_app l1 l2 :
  filterTrustedCABundleSources (l1 ++ l2) = (filterTrustedCABundleSources l1 ++ filterTrustedCABundleSources l2)%list.
Proof. apply omap_app. Qed.

Definition notebook_sources : list source :=
  filterTrustedCABundleSources (map SVolume volumes ++ map SContainer containers).

Lemma notebook_sources_supported refs : Forall (supported (Some refs)) notebook_sources.
Proof.
  apply Forall_forall. intros s. unfold notebook_sources, filterTrustedCABundleSources.
  rewrite list_elem_of_omap. intros (s0 & Hs0 & Hs). destruct s as [v|c|ty]; [done|by eexists|].
  apply elem_of_app in Hs0 as [Hs0|Hs0]; apply list_elem_of_fmap in Hs0 as (x & -> & _); simpl in Hs.
  - by destruct (is_trusted_ca_bundle (v_ConfigMap x)).
  - done.
Qed.

Context `{SS : SortSlice}.

Lemma notebook_ConfigMap_refs n :
  Exists (source_refers ExtractConfigMapRefsFromVolume (Some ExtractConfigMapRefs) n) notebook_sources ↔
  refers_ConfigMap n ∧ trusted n = false.
Proof.
  unfold notebook_sources, refers_ConfigMap. destruct (decide (n = "")) as [->|Hn].
  { split; [|naive_solver]. intros []%no_empty_ref. intros c. unfold ExtractConfigMapRefs.
    rewrite elem_of_sets_List, elem_of_container_refs. naive_solver. }
  rewrite filter_sources_app, Exists_app, filtered_containers.
  rewrite (filtered_volumes n v_ConfigMap) by done. rewrite Exists_same_ref.
  assert (Exists (λ c, n ∈ ExtractConfigMapRefs (filterContainerConfigMapRefs c)) containers ↔
    trusted n = false ∧ Exists (λ c, Exists (λ e, ef_ConfigMapRef e = Some n) (c_EnvFrom c) ∨
      Exists (λ e, (ev_ValueFrom e ≫= vf_ConfigMapKeyRef) = Some n) (c_Env c)) containers) as ->; [|naive_solver].
  induction containers as [|c cs IH]; [rewrite !Exists_nil; naive_solver|].
  rewrite !Exists_cons, IH. unfold ExtractConfigMapRefs. rewrite elem_of_sets_List, elem_of_container_refs. simpl.
  unfold ExtractConfigMapRefFromEnvFromSource, ExtractConfigMapRefFromEnvVar.
  rewrite (Exists_kept _ (λ e, ev_ValueFrom e ≫= vf_ConfigMapKeyRef)), Exists_kept, !Exists_same_ref by done.
  naive_solver.
Qed.

Lemma notebook_Secret_refs n :
  Forall one_source_volume volumes → Forall one_source_container containers →
  Exists (source_refers ExtractSecretRefsFromVolume (Some ExtractSecretRefs) n) notebook_sources ↔ refers_Secret n.
Proof.
  intros Hv Hc. unfold notebook_sources, refers_Secret. destruct (decide (n = "")) as [->|Hn].
  { split; [|naive_solver]. intros []%no_empty_ref. intros c. unfold ExtractSecretRefs.
    rewrite elem_of_sets_List, elem_of_container_refs. naive_solver. }
  rewrite filter_sources_app, Exists_app, filtered_containers.
  rewrite (filtered_volumes n v_Secret), Exists_other_ref by done.
  assert (Exists (λ c, n ∈ ExtractSecretRefs (filterContainerConfigMapRefs c)) containers ↔
    Exists (λ c, Exists (λ e, ef_SecretRef e = Some n) (c_EnvFrom c) ∨
      Exists (λ e, (ev_ValueFrom e ≫= vf_SecretKeyRef) = Some n) (c_Env c)) containers) as ->; [|naive_solver].
  induction containers as [|c cs IH]; [by rewrite !Exists_nil|]. apply Forall_cons in Hc as [[H1 H2] Hc].
  rewrite !Exists_cons, IH by done. unfold ExtractSecretRefs. rewrite elem_of_sets_List, elem_of_container_refs. simpl.
  unfold ExtractSecretRefFromEnvFromSource, ExtractSecretRefFromEnvVar.
  rewrite (Exists_kept _ (λ e, ev_ValueFrom e ≫= vf_SecretKeyRef)), (Exists_kept _ ef_SecretRef) by done.
  rewrite Exists_other_ref, (Exists_other_ref _ (λ e, ev_ValueFrom e ≫= vf_SecretKeyRef)) by done. naive_solver.
Qed.

Lemma notebook_PVC_refs n :
  Exists (source_refers ExtractPVCRefsFromVolume None n) (map SVolume volumes) ↔ refers_PVC n.
Proof.
  unfold refers_PVC. rewrite List.Exists_map.
  induction volumes as [|v vs IH]; [rewrite !Exists_nil; naive_solver|]. rewrite !Exists_cons, IH. simpl.
  unfold ExtractPVCRefsFromVolume. rewrite nonempty_ref_eq. naive_solver.
Qed.

(** The names the three extractions find. *)
Lemma notebook_ConfigMap_names :
  ∃ names, ExtractConfigMapRefsFromSources notebook_sources = Ok names ∧
    ∀ n, n ∈ names ↔ refers_ConfigMap n ∧ trusted n = false.
Proof.
  unfold ExtractConfigMapRefsFromSources.
  destruct (extract_loop_spec "ConfigMap" ExtractConfigMapRefsFromVolume (Some ExtractConfigMapRefs)
    notebook_sources ∅) as (names & -> & H); [apply notebook_sources_supported|].
  eexists. split; [done|]. intros n. rewrite elem_of_sets_List, H, <-notebook_ConfigMap_refs. set_solver.
Qed.

Lemma notebook_Secret_names :
  Forall one_source_volume volumes → Forall one_source_container containers →
  ∃ names, ExtractSecretRefsFromSources notebook_sources = Ok names ∧ ∀ n, n ∈ names ↔ refers_Secret n.
Proof.
  intros Hv Hc. unfold ExtractSecretRefsFromSources.
  destruct (extract_loop_spec "Secret" ExtractSecretRefsFromVolume (Some ExtractSecretRefs)
    notebook_sources ∅) as (names & -> & H); [apply notebook_sources_supported|].
  eexists. split; [done|]. intros n. rewrite elem_of_sets_List, H, <-notebook_Secret_refs by done. set_solver.
Qed.

Lemma notebook_PVC_names :
  ∃ names, ExtractPVCRefsFromSources (map SVolume volumes) = Ok names ∧ ∀ n, n ∈ names ↔ refers_PVC n.
Proof.
  unfold ExtractPVCRefsFromSources.
  destruct (extract_loop_spec "PVC" ExtractPVCRefsFromVolume None (map SVolume volumes) ∅) as (names & -> & H).
  { by apply List.Forall_map, Forall_true. }
  eexists. split; [done|]. intros n. rewrite elem_of_sets_List, H, <-notebook_PVC_refs. set_solver.
Qed.
End NotebookLemmas.

Lemma resolveSecrets_spec `{AE : ApiErrors, SRV : ApiServer, JQ : GoJq, MO : MapOrder, SCH : Schedule} namespace obj :
  (∀ name s, srv_get Secret namespace name ≠ Panic s) →
  ∃ deps, resolveSecrets namespace obj = Ok deps ∧
    ∀ dep, dep ∈ deps ↔ ∃ n, n ∈ dspa_secret_names obj ∧
      ((∃ r, fetched Secret namespace n = Some r ∧ dep = found_dependency Secret r) ∨
       (∃ e, outcome Secret namespace n = inr e ∧ dep = missing_dependency Secret (n, e))).
Proof.
  intros Hget. unfold resolveSecrets. destruct (dspa_secret_names obj) as [|n names].
  - exists []. split; [done|]. intros dep. setoid_rewrite elem_of_nil. naive_solver.
  - by apply secret_dependencies_spec.
Qed.

(** ** A concrete cluster and notebook, for the witnesses *)
Module NotebookRun.
(** jq restricted to paths, with the default the queries use. *)
#[export] Instance jq : GoJq := {|
  gojq_run obj q :=
    let get p := nested (tail (split_on dot p)) obj in
    match cut_suffix " // []" q with
    | Some p => match get p with Some JNull | None => JqValue (JArr []) | Some v => JqValue v end
    | None => match get q with Some v => JqValue v | None => JqValue JNull end
    end |}.

Definition ref_at (path : list string) (v : json) : option string :=
  match nested path v with Some (JStr s) => Some s | _ => None end.
Definition items_at (path : list string) (v : json) : list json :=
  match nested path v with Some (JArr l) => l | _ => [] end.
Definition volume (v : json) : Volume :=
  mkVolume (ref_at ["configMap"; "name"] v) (ref_at ["secret"; "secretName"] v)
    (ref_at ["persistentVolumeClaim"; "claimName"] v).
Definition env_from (v : json) : EnvFromSource :=
  mkEnvFrom (ref_at ["configMapRef"; "name"] v) (ref_at ["secretRef"; "name"] v).
Definition env (v : json) : EnvVar :=
  mkEnvVar (default "" (ref_at ["name"] v))
    (match nested ["valueFrom"] v with
     | Some f => Some (mkValueFrom (ref_at ["configMapKeyRef"; "name"] f) (ref_at ["secretKeyRef"; "name"] f))
     | None => None
     end).
Definition container (v : json) : Container :=
  mkContainer (map env_from (items_at ["envFrom"] v)) (map env (items_at ["env"] v)).
Definition array {A} (f : json → A) (v : json) : res go_error (list A) :=
  match v with JArr l => Ok (map f l) | _ => Err (EString "json: cannot unmarshal") end.

Definition named (n : string) : list (string * json) := [("name", JStr n)].
Definition object (ns n : string) (fields : list (string * json)) : json :=
  JObj (("metadata", JObj [("name", JStr n); ("namespace", JStr ns)]) :: fields).
Definition notebook : json :=
  object "team" "nb"
    [("spec", JObj [("template", JObj [("spec", JObj
       [("volumes", JArr [JObj [("configMap", JObj (named "settings"))];
                          JObj [("configMap", JObj (named "odh-trusted-ca-bundle"))];
                          JObj [("persistentVolumeClaim", JObj [("claimName", JStr "data")])]]);
        ("containers", JArr [JObj [("envFrom", JArr [JObj [("secretRef", JObj (named "creds"))]])]])])])])].

(** Everything exists except Secrets, which are forbidden. *)
Definition server : ApiServer := {|
  srv_list _ _ _ := Ok ([], "");
  srv_get rt ns name := if String.eqb (rt_Kind rt) "Secret" then Err (EForeign 1 "forbidden") else Ok (object ns name []);
  srv_discovery := None |}.
End NotebookRun.
Import (hints) ClientRun NotebookRun.

(** ** Properties *)
Module BackupDepsSpec.
Section Spec.
Context `{AE : ApiErrors, SRV : ApiServer, JQ : GoJq, SS : SortSlice, MO : MapOrder, SCH : Schedule}.

(** C27: The dependencies of a notebook are exact: a ConfigMap, Secret or volume
    claim is among them iff the pod template refers to it by a volume or an
    environment entry, it is not a trusted CA bundle (ConfigMaps only), and the
    cluster returns it; a Secret that cannot be fetched is listed with its
    error.  The order in which the parallel fetches finish, the map order and
    the sorting algorithm do not matter. *)
Theorem Notebook_Resolve_exact unmarshal_volumes unmarshal_containers obj volumes containers :
  (∀ rt ns name s, srv_get rt ns name ≠ Panic s) →
  extractVolumes unmarshal_volumes obj = Ok volumes →
  extractContainers unmarshal_containers obj = Ok containers →
  Forall one_source_volume volumes → Forall one_source_container containers →
  let ns := GetNamespace obj in
  ∃ deps, Notebook_Resolve unmarshal_volumes unmarshal_containers obj = Ok deps ∧
    ∀ dep, dep ∈ deps ↔
      (∃ n r, refers_ConfigMap volumes containers n ∧ trusted n = false ∧
         fetched ConfigMap ns n = Some r ∧ dep = found_dependency ConfigMap r) ∨
      (∃ n, refers_Secret volumes containers n ∧
         ((∃ r, fetched Secret ns n = Some r ∧ dep = found_dependency Secret r) ∨
          (∃ e, outcome Secret ns n = inr e ∧ dep = missing_dependency Secret (n, e)))) ∨
      (∃ n r, refers_PVC volumes n ∧ fetched PersistentVolumeClaim ns n = Some r ∧
         dep = found_dependency PersistentVolumeClaim r).
Proof.
  intros Hget Hv Hc Hv1 Hc1 ns. unfold Notebook_Resolve. fold ns. rewrite Hv, Hc. cbn [res_bind].
  fold (notebook_sources volumes containers).
  destruct (notebook_ConfigMap_names volumes containers) as (cms & Ecms & Hcms).
  destruct (notebook_Secret_names volumes containers Hv1 Hc1) as (secs & Esecs & Hsecs).
  destruct (notebook_PVC_names volumes) as (pvcs & Epvcs & Hpvcs).
  destruct (secret_dependencies_spec ns secs (Hget Secret ns)) as (sdeps & Esdeps & Hsdeps).
  unfold ResolveConfigMaps, ResolveSecrets, ResolvePVCs. rewrite Ecms, Esecs, Epvcs. cbn [res_bind res_map_err].
  rewrite Esdeps, !found_dependencies_spec by apply Hget. cbn [res_bind res_map_err].
  eexists. split; [done|]. intros dep. rewrite !elem_of_app, !elem_of_found, Hsdeps.
  repeat setoid_rewrite Hcms. repeat setoid_rewrite Hsecs. repeat setoid_rewrite Hpvcs.
  apply or_iff_compat_r. split; intros (n & r & H); exists n, r; tauto.
Qed.

(** The dependencies of a pipelines application: the Secrets, ConfigMaps and
    claims its specification names, found ones as objects, missing Secrets with
    their error; the trusted CA bundle is left out by its exact name. *)
Theorem DSPA_Resolve_exact obj :
  (∀ rt ns name s, srv_get rt ns name ≠ Panic s) →
  let ns := GetNamespace obj in
  ∃ deps, DSPA_Resolve obj = Ok deps ∧
    ∀ dep, dep ∈ deps ↔
      (∃ n, n ∈ dspa_secret_names obj ∧
         ((∃ r, fetched Secret ns n = Some r ∧ dep = found_dependency Secret r) ∨
          (∃ e, outcome Secret ns n = inr e ∧ dep = missing_dependency Secret (n, e)))) ∨
      (∃ n r, n ∈ dspa_configmap_names obj ∧ fetched ConfigMap ns n = Some r ∧ dep = found_dependency ConfigMap r) ∨
      (∃ n r, n ∈ dspa_pvc_names (GetName obj) obj ∧ fetched PersistentVolumeClaim ns n = Some r ∧
         dep = found_dependency PersistentVolumeClaim r).
Proof.
  intros Hget ns. unfold DSPA_Resolve. fold ns.
  destruct (resolveSecrets_spec ns obj (Hget Secret ns)) as (sdeps & -> & Hsdeps).
  assert (resolveConfigMaps ns obj =
    Ok (map (found_dependency ConfigMap) (omap (fetched ConfigMap ns) (dspa_configmap_names obj)))) as ->.
  { unfold resolveConfigMaps. destruct (dspa_configmap_names obj) eqn:Hn; [done|by rewrite found_dependencies_spec by apply Hget]. }
  assert (resolvePVCs ns (GetName obj) obj = Ok (map (found_dependency PersistentVolumeClaim)
    (omap (fetched PersistentVolumeClaim ns) (dspa_pvc_names (GetName obj) obj)))) as ->.
  { unfold resolvePVCs. destruct (dspa_pvc_names (GetName obj) obj) eqn:Hn; [done|by rewrite found_dependencies_spec by apply Hget]. }
  cbn [res_bind]. eexists. split; [done|]. intros dep. by rewrite !elem_of_app, !elem_of_found, Hsdeps.
Qed.
End Spec.

Lemma Notebook_Resolve_exact_witness :
  let resolve := Notebook_Resolve (SRV := NotebookRun.server) (NotebookRun.array NotebookRun.volume)
                   (NotebookRun.array NotebookRun.container) in
  ∃ deps, resolve NotebookRun.notebook = Ok deps ∧
    found_dependency ConfigMap (NotebookRun.object "team" "settings" []) ∈ deps ∧
    map d_Name deps = ["settings"; "creds"; "data"].
Proof.
  intros resolve.
  destruct (Notebook_Resolve_exact (SRV := NotebookRun.server) (NotebookRun.array NotebookRun.volume)
    (NotebookRun.array NotebookRun.container) NotebookRun.notebook
    [mkVolume (Some "settings") None None; mkVolume (Some "odh-trusted-ca-bundle") None None;
     mkVolume None None (Some "data")]
    [mkContainer [mkEnvFrom None (Some "creds")] []]) as (deps & Hdeps & H).
  - intros rt ns name s. simpl. by destruct (String.eqb (rt_Kind rt) "Secret").
  - reflexivity.
  - reflexivity.
  - repeat constructor; by (left + right).
  - repeat constructor; by (left + right).
  - exists deps. split; [exact Hdeps|]. split.
    + apply H. left. exists "settings", (NotebookRun.object "team" "settings" []).
      split; [split; [done|by left; left]|]. repeat split.
    + assert (resolve NotebookRun.notebook = Ok deps) as Hd by exact Hdeps.
      apply (f_equal (λ r, match r with Ok l => map d_Name l | _ => [] end)) in Hd.
      etrans; [symmetry; exact Hd|]. vm_compute. reflexivity.
Defined.
End BackupDepsSpec.
