(* ===== verification/Pipeline.v ===== *)
(** * Pipeline: pkg/backup/pipeline and runPipeline of pkg/backup/command.go

    The three concurrent stages of a backup as a state machine.  Discovery
    sends the listed workloads into a bounded channel, [numWorkers] workers
    resolve them and send the results into a second bounded channel, and one
    writer consumes it.  An action names the goroutine that moves and what it
    does; [fire] is the machine, [pstep] the relation it generates.

    A goroutine that returns an error cancels the group in the same step.  Since
    a Go [select] may still pick any ready case after cancellation, the machine
    has every interleaving of the code.  The world [W] is what writing changes. *)
From S2P Require Import Prelude Errors Client Version DepsCheck BackupDeps.
From stdpp Require Import relations.
Open Scope string_scope.
Open Scope Z_scope.
Open Scope go_scope.

(** types.go *)
Record WorkloadItem := mkItem { wi_GVR : GVR; wi_Instance : json }.
Record WorkloadWithDeps := mkWorkload { ww_GVR : GVR; ww_Instance : json; ww_Dependencies : list Dependency }.

(** resolver.go: one workload. *)
Definition resolveWorkload (registry : list Resolver) (item : WorkloadItem) : res go_error WorkloadWithDeps :=
  match GetResolver registry (wi_GVR item) with
  | None => Ok (mkWorkload (wi_GVR item) (wi_Instance item) [])
  | Some resolver =>
      try! deps := rs_Resolve resolver (wi_Instance item) else errorf_w "resolving dependencies" in
      Ok (mkWorkload (wi_GVR item) (wi_Instance item) deps)
  end.

(** ** States *)
Inductive disc_state :=
| Listing
| Sending (todo : list WorkloadItem)
| DiscDone (err : option go_error).          (* returned; its channel is closed *)
Inductive worker_state :=
| Waiting                                    (* at the first select *)
| Resolving (item : WorkloadItem)
| Offering (result : WorkloadWithDeps)       (* at the second select *)
| WorkerDone (err : option go_error).
Inductive resolver_state := Supervising | ResolverDone (err : option go_error).  (* g.Wait of the workers *)
Inductive writer_state := Reading | WriterDone (err : option go_error).

Record pipeline (W : Type) := mkPipeline {
  p_disc : disc_state;
  p_workloadCh : list WorkloadItem;
  p_workers : list worker_state;
  p_worker_err : option go_error;            (* the first error of the workers' group *)
  p_resolver : resolver_state;
  p_resolvedCh : list WorkloadWithDeps;
  p_writer : writer_state;
  p_ctx : option go_error;                   (* ctx.Err() *)
  p_err : option go_error;                   (* the first error of the stages' group *)
  p_written : list WorkloadWithDeps;         (* what the writer received *)
  p_warned : list WorkloadItem;              (* "Failed to resolve" warnings *)
  p_world : W;
}.
Arguments mkPipeline {W}. Arguments p_disc {W}. Arguments p_workloadCh {W}. Arguments p_workers {W}.
Arguments p_worker_err {W}. Arguments p_resolver {W}. Arguments p_resolvedCh {W}. Arguments p_writer {W}.
Arguments p_ctx {W}. Arguments p_err {W}. Arguments p_written {W}. Arguments p_warned {W}. Arguments p_world {W}.

Inductive action :=
| Cancel (err : go_error)                    (* the deadline passes, or the caller cancels *)
| DiscList | DiscSend | DiscReturn | DiscCancelled
| WorkerRecv (i : nat) | WorkerClosed (i : nat) | WorkerCancelled (i : nat)
| WorkerResolve (i : nat) | WorkerInterrupted (i : nat) | WorkerSend (i : nat)
| ResolverReturn
| WriterRecv | WriterClosed | WriterCancelled.

(** [errgroup]: the first error is kept. *)
Definition first_error (old new : option go_error) : option go_error :=
  match old with Some e => Some e | None => new end.

Section Machine.
Context {W : Type}.
Context (numWorkers : nat) (gvr : GVR) (listing : res go_error (list json)).
Context (resolve : WorkloadItem → res go_error WorkloadWithDeps).
Context (write : WorkloadWithDeps → W → W).

(** The stages' group: a stage that returns an error cancels the context. *)
Definition stage_failed (e : go_error) (s : pipeline W) : pipeline W :=
  mkPipeline (p_disc s) (p_workloadCh s) (p_workers s) (p_worker_err s) (p_resolver s) (p_resolvedCh s) (p_writer s)
    (first_error (p_ctx s) (Some (ESentinel CtxCanceled))) (first_error (p_err s) (Some e))
    (p_written s) (p_warned s) (p_world s).

Definition set_disc (d : disc_state) (ch : list WorkloadItem) (s : pipeline W) : pipeline W :=
  mkPipeline d ch (p_workers s) (p_worker_err s) (p_resolver s) (p_resolvedCh s) (p_writer s)
    (p_ctx s) (p_err s) (p_written s) (p_warned s) (p_world s).
Definition set_worker (i : nat) (w : worker_state) (s : pipeline W) : pipeline W :=
  mkPipeline (p_disc s) (p_workloadCh s) (<[i := w]> (p_workers s)) (p_worker_err s) (p_resolver s) (p_resolvedCh s)
    (p_writer s) (p_ctx s) (p_err s) (p_written s) (p_warned s) (p_world s).
Definition worker_failed (i : nat) (e : go_error) (s : pipeline W) : pipeline W :=
  mkPipeline (p_disc s) (p_workloadCh s) (<[i := WorkerDone (Some e)]> (p_workers s))
    (first_error (p_worker_err s) (Some e)) (p_resolver s) (p_resolvedCh s)
    (p_writer s) (p_ctx s) (p_err s) (p_written s) (p_warned s) (p_world s).
Definition set_worker_sent (i : nat) (result : WorkloadWithDeps) (s : pipeline W) : pipeline W :=
  mkPipeline (p_disc s) (p_workloadCh s) (<[i := Waiting]> (p_workers s)) (p_worker_err s) (p_resolver s)
    (p_resolvedCh s ++ [result])%list (p_writer s) (p_ctx s) (p_err s) (p_written s) (p_warned s) (p_world s).
Definition warn (i : nat) (item : WorkloadItem) (s : pipeline W) : pipeline W :=
  mkPipeline (p_disc s) (p_workloadCh s) (<[i := Waiting]> (p_workers s)) (p_worker_err s) (p_resolver s)
    (p_resolvedCh s) (p_writer s) (p_ctx s) (p_err s) (p_written s) (p_warned s ++ [item])%list (p_world s).
Definition set_resolver (r : resolver_state) (s : pipeline W) : pipeline W :=
  mkPipeline (p_disc s) (p_workloadCh s) (p_workers s) (p_worker_err s) r (p_resolvedCh s) (p_writer s)
    (p_ctx s) (p_err s) (p_written s) (p_warned s) (p_world s).
Definition set_writer (wr : writer_state) (s : pipeline W) : pipeline W :=
  mkPipeline (p_disc s) (p_workloadCh s) (p_workers s) (p_worker_err s) (p_resolver s) (p_resolvedCh s) wr
    (p_ctx s) (p_err s) (p_written s) (p_warned s) (p_world s).
Definition consume (item : WorkloadWithDeps) (rest : list WorkloadWithDeps) (s : pipeline W) : pipeline W :=
  mkPipeline (p_disc s) (p_workloadCh s) (p_workers s) (p_worker_err s) (p_resolver s) rest (p_writer s)
    (p_ctx s) (p_err s) (p_written s ++ [item])%list (p_warned s) (write item (p_world s)).
Definition set_ctx (e : go_error) (s : pipeline W) : pipeline W :=
  mkPipeline (p_disc s) (p_workloadCh s) (p_workers s) (p_worker_err s) (p_resolver s) (p_resolvedCh s) (p_writer s)
    (Some e) (p_err s) (p_written s) (p_warned s) (p_world s).

(** discovery.go *)
Definition fire_disc (a : action) (s : pipeline W) : option (pipeline W) :=
  match a, p_disc s with
  | DiscList, Listing =>
      match listing with
      | Ok instances => Some (set_disc (Sending (map (mkItem gvr) instances)) (p_workloadCh s) s)
      | Err e =>
          let e := errorf_w "listing resources" e in
          Some (stage_failed e (set_disc (DiscDone (Some e)) (p_workloadCh s) s))
      | Panic _ => None
      end
  | DiscSend, Sending (item :: todo) =>
      if (length (p_workloadCh s) <? numWorkers)%nat
      then Some (set_disc (Sending todo) (p_workloadCh s ++ [item])%list s) else None
  | DiscReturn, Sending [] => Some (set_disc (DiscDone None) (p_workloadCh s) s)
  | DiscCancelled, Sending (_ :: _) =>
      match p_ctx s with
      | Some err =>
          let e := errorf_w "discovery cancelled" err in
          Some (stage_failed e (set_disc (DiscDone (Some e)) (p_workloadCh s) s))
      | None => None
      end
  | _, _ => None
  end.

(** resolver.go: [worker]. *)
Definition fire_worker (a : action) (i : nat) (s : pipeline W) : option (pipeline W) :=
  match a, p_workers s !! i with
  | WorkerRecv _, Some Waiting =>
      match p_workloadCh s with
      | item :: ch => Some (set_worker i (Resolving item) (set_disc (p_disc s) ch s))
      | [] => None
      end
  | WorkerClosed _, Some Waiting =>
      match p_workloadCh s, p_disc s with
      | [], DiscDone _ => Some (set_worker i (WorkerDone None) s)
      | _, _ => None
      end
  | WorkerCancelled _, Some Waiting | WorkerCancelled _, Some (Offering _) =>
      match p_ctx s with
      | Some err => Some (worker_failed i (errorf_w "resolver worker cancelled" err) s)
      | None => None
      end
  | WorkerResolve _, Some (Resolving item) =>
      match resolve item with
      | Ok result => Some (set_worker i (Offering result) s)
      | Err _ => Some (warn i item s)
      | Panic _ => None
      end
  | WorkerInterrupted _, Some (Resolving item) =>  (* its requests fail with the context *)
      match p_ctx s with Some _ => Some (warn i item s) | None => None end
  | WorkerSend _, Some (Offering result) =>
      if (length (p_resolvedCh s) <? numWorkers)%nat then Some (set_worker_sent i result s) else None
  | _, _ => None
  end.

(** resolver.go: [Run], after its workers. *)
Definition worker_done (w : worker_state) : bool := match w with WorkerDone _ => true | _ => false end.
Definition fire_resolver (s : pipeline W) : option (pipeline W) :=
  match p_resolver s with
  | Supervising =>
      if forallb worker_done (p_workers s) then
        match p_worker_err s with
        | None => Some (set_resolver (ResolverDone None) s)
        | Some err =>
            let e := errorf_w "resolver workers failed" err in
            Some (stage_failed e (set_resolver (ResolverDone (Some e)) s))
        end
      else None
  | ResolverDone _ => None
  end.

(** writer.go: [Run]. *)
Definition fire_writer (a : action) (s : pipeline W) : option (pipeline W) :=
  match a, p_writer s with
  | WriterRecv, Reading =>
      match p_resolvedCh s with item :: rest => Some (consume item rest s) | [] => None end
  | WriterClosed, Reading =>
      match p_resolvedCh s, p_resolver s with
      | [], ResolverDone _ => Some (set_writer (WriterDone None) s)
      | _, _ => None
      end
  | WriterCancelled, Reading =>
      match p_ctx s with
      | Some err =>
          let e := errorf_w "writer cancelled" err in
          Some (stage_failed e (set_writer (WriterDone (Some e)) s))
      | None => None
      end
  | _, _ => None
  end.

Definition fire (a : action) (s : pipeline W) : option (pipeline W) :=
  match a with
  | Cancel e => match p_ctx s with None => Some (set_ctx e s) | Some _ => None end
  | DiscList | DiscSend | DiscReturn | DiscCancelled => fire_disc a s
  | WorkerRecv i | WorkerClosed i | WorkerCancelled i | WorkerResolve i | WorkerInterrupted i | WorkerSend i =>
      fire_worker a i s
  | ResolverReturn => fire_resolver s
  | WriterRecv | WriterClosed | WriterCancelled => fire_writer a s
  end.

Definition start (ctx : option go_error) (w : W) : pipeline W :=
  mkPipeline Listing [] (replicate numWorkers Waiting) None Supervising [] Reading ctx None [] [] w.

(** Every stage has returned: [g.Wait] comes back. *)
Definition returned (s : pipeline W) : bool :=
  match p_disc s, p_resolver s, p_writer s with
  | DiscDone _, ResolverDone _, WriterDone _ => true
  | _, _, _ => false
  end.

Definition pstep (s s' : pipeline W) : Prop := ∃ a, fire a s = Some s'.

(** Running a schedule. *)
Fixpoint run_schedule (schedule : list action) (s : pipeline W) : option (pipeline W) :=
  match schedule with
  | [] => Some s
  | a :: schedule' => fire a s ≫= run_schedule schedule'
  end.
End Machine.

(** ** Invariants *)
Definition origin (r : WorkloadWithDeps) : WorkloadItem := mkItem (ww_GVR r) (ww_Instance r).

Definition worker_items (w : worker_state) : list WorkloadItem :=
  match w with Resolving item => [item] | Offering r => [origin r] | _ => [] end.

(** Inversion of a step: one goal per rule of the machine. *)
Ltac fire_cases :=
  repeat match goal with
  | H : fire _ _ _ _ _ ?a _ = Some _ |- _ => destruct a; simpl in H
  | H : fire_disc _ _ _ ?a _ = Some _ |- _ => unfold fire_disc in H
  | H : fire_worker _ _ ?a _ _ = Some _ |- _ => unfold fire_worker in H
  | H : fire_resolver _ = Some _ |- _ => unfold fire_resolver in H
  | H : fire_writer _ ?a _ = Some _ |- _ => unfold fire_writer in H
  | H : Some _ = Some _ |- _ => injection H as <-
  | H : None = Some _ |- _ => discriminate H
  | H : match ?x with _ => _ end = Some _ |- _ => destruct x eqn:?
  end.

Section Invariants.
Context {W : Type}.
Context (numWorkers : nat) (gvr : GVR) (listing : res go_error (list json)).
Context (resolve : WorkloadItem → res go_error WorkloadWithDeps).
Context (write : WorkloadWithDeps → W → W).
Notation pipeline := (pipeline W).
Notation fire := (fire numWorkers gvr listing resolve write).
Notation pstep := (pstep numWorkers gvr listing resolve write).
Notation start := (start numWorkers).

Definition disc_done (d : disc_state) : bool := match d with DiscDone _ => true | _ => false end.
Definition resolver_done (r : resolver_state) : bool := match r with ResolverDone _ => true | _ => false end.

(** Closing a channel comes after its last send, and a receiver that saw it
    closed had drained it; an error is recorded by its group and implies a
    cancelled context. *)
Record control (s : pipeline) : Prop := {
  ct_length : length (p_workers s) = numWorkers;
  ct_closed i : p_workers s !! i = Some (WorkerDone None) → p_workloadCh s = [] ∧ disc_done (p_disc s) = true;
  ct_worker_err i e : p_workers s !! i = Some (WorkerDone (Some e)) → is_Some (p_worker_err s);
  ct_resolver e : p_resolver s = ResolverDone e →
    forallb worker_done (p_workers s) = true ∧ (is_Some (p_worker_err s) → is_Some e);
  ct_writer : p_writer s = WriterDone None → p_resolvedCh s = [] ∧ resolver_done (p_resolver s) = true;
  ct_stages e : (p_disc s = DiscDone (Some e) ∨ p_resolver s = ResolverDone (Some e) ∨ p_writer s = WriterDone (Some e)) →
    is_Some (p_err s);
  ct_ctx : (is_Some (p_err s) ∨ is_Some (p_worker_err s)) → is_Some (p_ctx s);
}.

Lemma first_error_is_Some a b : is_Some (first_error a b) ↔ is_Some a ∨ is_Some b.
Proof. destruct a, b; simpl; rewrite ?is_Some_alt; naive_solver. Qed.

Lemma all_done_insert (ws : list worker_state) i w :
  worker_done w = false → is_Some (ws !! i) → forallb worker_done (<[i := w]> ws) = false.
Proof.
  intros Hw [w0 Hi]. apply not_true_iff_false. rewrite forallb_forall. intros H.
  assert (In w (<[i := w]> ws)) as Hin.
  { apply list_elem_of_In. eapply list_elem_of_lookup_2. apply list_lookup_insert_eq. by eapply lookup_lt_Some. }
  specialize (H _ Hin). congruence.
Qed.

Lemma all_done_lookup (ws : list worker_state) i w :
  forallb worker_done ws = true → ws !! i = Some w → worker_done w = true.
Proof. rewrite forallb_forall. intros H Hi. apply H, list_elem_of_In. by eapply list_elem_of_lookup_2. Qed.

(** A worker that is not done contradicts a resolver stage that is. *)
Lemma busy_worker s i w :
  control s → p_workers s !! i = Some w → worker_done w = false → p_resolver s = Supervising.
Proof.
  intros C Hi Hw. destruct (p_resolver s) as [|e] eqn:Hr; [done|].
  destruct (ct_resolver _ C e Hr) as [Hall _]. rewrite (all_done_lookup _ _ _ Hall Hi) in Hw. done.
Qed.

Lemma control_start ctx w : control (start ctx w).
Proof.
  split; simpl.
  - apply length_replicate.
  - intros i [? _]%lookup_replicate. done.
  - intros i e [? _]%lookup_replicate. done.
  - done.
  - done.
  - naive_solver.
  - rewrite !is_Some_alt. naive_solver.
Qed.

Ltac control_case :=
  simpl in *; intros; rewrite ?length_insert, ?first_error_is_Some in *;
  repeat match goal with
  | H : <[_ := _]> _ !! _ = Some _ |- _ => apply list_lookup_insert_Some in H as [(<- & ? & _)|[_ H]]; simplify_eq
  end.

Lemma control_step s s' : control s → pstep s s' → control s'.
Proof.
  intros C [a Ha]. fire_cases.
  all: try match goal with
  | C : control ?s, H : p_workers ?s !! ?i = Some _ |- _ => pose proof (busy_worker s i _ C H eq_refl)
  end.
  all: destruct C as [Hlen Hcl Hwe Hr Hw Hst Hctx].
  all: split; control_case.
  all: try (by eauto).
  all: try match goal with
  | Hcl : (∀ i, p_workers ?s !! i = Some (WorkerDone None) → _), H : p_workers ?s !! ?i = Some (WorkerDone None) |- _ =>
      destruct (Hcl i H)
  | Hw : p_writer ?s = WriterDone None → _, H : p_writer ?s = WriterDone None |- _ => destruct (Hw H)
  end.
  all: repeat match goal with
  | H : p_disc ?s = _ |- _ => rewrite H in *; clear H
  | H : p_resolver ?s = _ |- _ => rewrite H in *; clear H
  | H : p_worker_err ?s = _ |- _ => rewrite H in *; clear H
  end; simpl in *.
  all: try (by eauto); try congruence.
  all: try (intuition eauto using mk_is_Some; congruence).
  injection H as <-. split; [done|by eexists].
Qed.

(** *** Where the workloads are *)
Definition items : list WorkloadItem :=
  match listing with Ok instances => map (mkItem gvr) instances | _ => [] end.
Definition todo_items (d : disc_state) : list WorkloadItem :=
  match d with Listing => items | Sending todo => todo | DiscDone _ => [] end.
Definition in_workers (ws : list worker_state) : list WorkloadItem := concat (map worker_items ws).

Lemma in_workers_insert ws i w :
  ws !! i = Some w →
  ∃ rest, in_workers ws ≡ₚ worker_items w ++ rest ∧ ∀ w', in_workers (<[i := w']> ws) ≡ₚ worker_items w' ++ rest.
Proof.
  unfold in_workers. revert i. induction ws as [|w0 ws IH]; intros [|i]; simpl; [done..| |].
  - intros [= ->]. by exists (concat (map worker_items ws)).
  - intros (rest & H1 & H2)%IH. exists (worker_items w0 ++ rest)%list. split.
    + rewrite H1. solve_Permutation.
    + intros w'. rewrite H2. solve_Permutation.
Qed.

Record data (w0 : W) (s : pipeline) : Prop := {
  dt_items : p_err s = None → p_worker_err s = None →
    todo_items (p_disc s) ++ p_workloadCh s ++ in_workers (p_workers s) ++ map origin (p_resolvedCh s) ++
    map origin (p_written s) ++ p_warned s ≡ₚ items;
  dt_offering i r : p_workers s !! i = Some (Offering r) → resolve (origin r) = Ok r;
  dt_results : Forall (λ r, resolve (origin r) = Ok r) (p_resolvedCh s ++ p_written s);
  dt_warned : p_ctx s = None → Forall (λ item, is_ok (resolve item) = false) (p_warned s);
  dt_world : p_world s = foldl (λ w r, write r w) w0 (p_written s);
}.

Context (Horigin : ∀ item r, resolve item = Ok r → origin r = item).

Lemma data_start ctx w : data w (start ctx w).
Proof.
  split; simpl; [|..|done].
  - intros _ _. assert (in_workers (replicate numWorkers Waiting) = []) as ->.
    { unfold in_workers. by induction numWorkers. }
    solve_Permutation.
  - intros i r [? _]%lookup_replicate. done.
  - constructor.
  - constructor.
Qed.

Lemma first_error_new a e : first_error a (Some e) ≠ None.
Proof. by destruct a. Qed.

(** The steps change where one workload is: rewrite the invariant and the goal
    to the parts that stay. *)
Ltac moved :=
  repeat match goal with
  | H : p_disc ?s = _ |- _ => rewrite H in *; clear H
  | H : p_workloadCh ?s = _ |- _ => rewrite H in *; clear H
  | H : p_resolvedCh ?s = _ |- _ => rewrite H in *; clear H
  | H : resolve ?item = Ok ?r, Horigin : (∀ item r, resolve item = Ok r → origin r = item) |- _ =>
      pose proof (Horigin _ _ H); clear H
  end;
  try match goal with
  | H : p_workers ?s !! ?i = Some ?w, Hitems : _ ≡ₚ items |- context [<[?i := ?w']> (p_workers ?s)] =>
      let rest := fresh "rest" in let H1 := fresh in let H2 := fresh in
      destruct (in_workers_insert _ _ _ H) as (rest & H1 & H2);
      rewrite H1 in Hitems; rewrite (H2 w')
  end;
  simpl in *; subst; rewrite ?map_app; simpl;
  match goal with Hitems : _ ≡ₚ items |- _ => etrans; [|exact Hitems]; solve_Permutation end.

Lemma data_step w0 s s' : data w0 s → pstep s s' → data w0 s'.
Proof using Horigin.
  intros D [a Ha]. fire_cases.
  all: destruct D as [Hitems Hoff Hres Hwarn Hworld].
  all: split; simpl; intros.
  all: repeat match goal with
  | H : <[_ := _]> _ !! _ = Some _ |- _ => apply list_lookup_insert_Some in H as [(<- & ? & _)|[_ H]]; simplify_eq
  | H : first_error _ (Some _) = None |- _ => by apply first_error_new in H
  | H1 : p_err ?s = None, H2 : p_worker_err ?s = None, H : p_err ?s = None → _ |- _ => specialize (H H1 H2)
  end.
  all: try (by eauto); try moved.
  - assert (map (mkItem gvr) a = items) as -> by (unfold items; by rewrite Heqr).
    rewrite Heqd in Hitems. exact Hitems.
  - by rewrite (Horigin _ _ Heqr).
  - apply Forall_app; split; [by eauto|]. constructor; [by rewrite Heqr|done].
  - congruence.
  - rewrite <-app_assoc. apply Forall_app in Hres as [? ?]. apply Forall_app; split; [done|]. simpl. eauto.
  - rewrite Heql in Hres. rewrite (Permutation_app_comm _ [_]). simpl. by rewrite <-Permutation_middle.
  - by rewrite foldl_snoc, Hworld.
Qed.

Lemma reachable_inv ctx w s :
  rtc pstep (start ctx w) s → control s ∧ data w s.
Proof using Horigin.
  intros Hs. assert (control (start ctx w) ∧ data w (start ctx w)) as H by (split; [apply control_start|apply data_start]).
  revert H. induction Hs as [|s1 s2 s3 H12 _ IH]; [done|]. intros [HC HD].
  apply IH. eauto using control_step, data_step.
Qed.

Lemma run_schedule_rtc schedule s s' :
  run_schedule numWorkers gvr listing resolve write schedule s = Some s' → rtc pstep s s'.
Proof.
  revert s. induction schedule as [|a schedule IH]; intros s; simpl; [intros [= ->]; apply rtc_refl|].
  destruct (fire a s) as [s1|] eqn:Ha; [|done]. intros H. eapply rtc_l; [by exists a|]. by apply IH.
Qed.

(** *** Termination: every step consumes work *)
Definition worker_work (w : worker_state) : nat :=
  match w with Waiting => 1 | Resolving _ => 5 | Offering _ => 4 | WorkerDone _ => 0 end.
Definition disc_work (d : disc_state) : nat :=
  match d with Listing => 6 * length items + 3 | Sending todo => 6 * length todo + 2 | DiscDone _ => 0 end.
Definition workers_work (ws : list worker_state) : nat := sum_list_with worker_work ws.
Definition work (s : pipeline) : nat :=
  disc_work (p_disc s) + 5 * length (p_workloadCh s) + workers_work (p_workers s) +
  (match p_resolver s with Supervising => 1 | _ => 0 end) + 2 * length (p_resolvedCh s) +
  (match p_writer s with Reading => 1 | _ => 0 end) + (match p_ctx s with None => 1 | _ => 0 end).

Lemma workers_work_insert ws i w w' :
  ws !! i = Some w → (workers_work (<[i := w']> ws) + worker_work w = workers_work ws + worker_work w')%nat.
Proof.
  unfold workers_work. revert i. induction ws as [|w0 ws IH]; intros [|i]; simpl; [done..| |].
  - intros [= ->]. lia.
  - intros Hi%IH. lia.
Qed.

Lemma first_error_work (a b : option go_error) :
  ((match first_error a b with None => 1 | _ => 0 end) ≤ (match a with None => 1 | _ => 0 end))%nat.
Proof. destruct a, b; simpl; lia. Qed.

Lemma step_work s s' : pstep s s' → (work s' < work s)%nat.
Proof.
  intros [a Ha]. unfold work. fire_cases.
  all: simpl.
  all: try match goal with
  | H : p_workers ?s !! ?i = Some ?w |- context [<[?i := ?w']> (p_workers ?s)] =>
      pose proof (workers_work_insert _ _ _ w' H)
  end.
  all: repeat match goal with |- context [first_error ?a ?b] => generalize (first_error_work a b); destruct (first_error a b) end.
  all: repeat match goal with
  | H : p_disc ?s = _ |- _ => rewrite H; clear H
  | H : p_workloadCh ?s = _ |- _ => rewrite H; clear H
  | H : p_resolvedCh ?s = _ |- _ => rewrite H; clear H
  | H : p_resolver ?s = _ |- _ => rewrite H; clear H
  | H : p_writer ?s = _ |- _ => rewrite H; clear H
  | H : p_ctx ?s = _ |- _ => rewrite H; clear H
  end; simpl in *; rewrite ?length_app, ?length_map in *; simpl in *; try lia.
  assert (length items = length a) as -> by (unfold items; by rewrite Heqr, length_map). lia.
Qed.

Lemma start_work ctx w : (work (start ctx w) ≤ 6 * length items + numWorkers + 6)%nat.
Proof.
  unfold work. simpl. assert (workers_work (replicate numWorkers Waiting) = numWorkers) as ->.
  { unfold workers_work. induction numWorkers as [|n IH]; simpl; lia. }
  destruct ctx; lia.
Qed.

Lemma run_schedule_work schedule s s' :
  run_schedule numWorkers gvr listing resolve write schedule s = Some s' → (length schedule + work s' ≤ work s)%nat.
Proof.
  revert s. induction schedule as [|a schedule IH]; intros s; simpl; [intros [= ->]; lia|].
  destruct (fire a s) as [s1|] eqn:Ha; [|done]. intros H%IH.
  assert (pstep s s1) as Hs%step_work by (by exists a). lia.
Qed.

(** *** The end of a run *)
Lemma in_workers_done ws : forallb worker_done ws = true → in_workers ws = [].
Proof.
  unfold in_workers. induction ws as [|w ws IH]; simpl; [done|]. intros [Hw Hws]%andb_true_iff.
  rewrite IH by done. by destruct w.
Qed.

Lemma returned_drained s :
  (0 < numWorkers)%nat → control s → returned s = true → p_err s = None →
  todo_items (p_disc s) = [] ∧ p_workloadCh s = [] ∧ in_workers (p_workers s) = [] ∧ p_resolvedCh s = [] ∧
  p_worker_err s = None.
Proof.
  intros Hn C Hret Herr. pose proof (ct_stages _ C) as Hst. rewrite Herr in Hst. unfold returned in Hret.
  destruct (p_disc s) as [| |e1] eqn:Hd, (p_resolver s) as [|e2] eqn:Hr, (p_writer s) as [|[e3|]] eqn:Hw; try done.
  { destruct (Hst e3) as [? ?]; [auto|done]. }
  destruct (ct_resolver _ C e2 Hr) as [Hall He]. destruct (ct_writer _ C Hw) as [Hch _].
  assert (p_worker_err s = None) as Hwe.
  { destruct (p_worker_err s) as [e|] eqn:Hwe; [|done]. destruct He as [e' ->]; [by eexists|].
    destruct (Hst e') as [? ?]; [auto|done]. }
  destruct (lookup_lt_is_Some_2 (p_workers s) 0) as [w Hi]; [by rewrite (ct_length _ C)|].
  pose proof (all_done_lookup _ _ _ Hall Hi) as Hdone. destruct w as [| | |[e|]]; [done..| |].
  { destruct (ct_worker_err _ C _ _ Hi) as [? ?]. congruence. }
  destruct (ct_closed _ C _ Hi) as [? _]. by rewrite in_workers_done.
Qed.

Lemma omap_origins rs warned :
  Forall (λ r, resolve (origin r) = Ok r) rs → Forall (λ item, is_ok (resolve item) = false) warned →
  omap (λ item, res_opt (resolve item)) (map origin rs ++ warned)%list = rs.
Proof.
  intros Hrs Hw. induction Hrs as [|r rs Hr _ IH]; csimpl; [|by rewrite Hr; simpl; rewrite IH].
  induction Hw as [|item warned Hi _ IH]; csimpl; [done|]. by destruct (resolve item).
Qed.

(** Without a cancellation from outside, nothing cancels. *)
Definition is_cancel (a : action) : bool := match a with Cancel _ => true | _ => false end.
Lemma step_uncancelled a s s' :
  is_ok listing = true → is_cancel a = false → control s → p_ctx s = None → fire a s = Some s' → p_ctx s' = None.
Proof.
  intros Hl Ha C Hctx Hf. assert (p_worker_err s = None).
  { destruct (p_worker_err s) eqn:He; [|done]. destruct (ct_ctx _ C) as [? ?]; [right; by eexists|congruence]. }
  fire_cases; simpl in *; congruence.
Qed.

Lemma run_uncancelled schedule s s' :
  is_ok listing = true → Forall (λ a, is_cancel a = false) schedule → control s → p_ctx s = None →
  run_schedule numWorkers gvr listing resolve write schedule s = Some s' → p_ctx s' = None.
Proof.
  intros Hl Hsch. revert s. induction Hsch as [|a schedule Ha _ IH]; intros s C Hctx; simpl; [by intros [= ->]|].
  destruct (fire a s) as [s1|] eqn:Hf; [|done]. apply IH.
  - eapply control_step; [done|by exists a].
  - by eapply step_uncancelled.
Qed.

(** *** Progress: the stages never wait for each other in a circle *)
Definition can_step (s : pipeline) : Prop := ∃ s', pstep s s'.

Context (Hworkers : (0 < numWorkers)%nat).
Context (Hlisting : ∀ m, listing ≠ Panic m) (Hresolve : ∀ item m, resolve item ≠ Panic m).

Ltac fires act :=
  eexists; exists act; unfold fire, fire_disc, fire_worker, fire_resolver, fire_writer;
  repeat match goal with H : _ = _ |- _ => rewrite H; clear H end; reflexivity.

Lemma disc_can_start s : p_disc s = Listing ∨ p_disc s = Sending [] → can_step s.
Proof using Hlisting.
  intros [Hd|Hd]; [|fires DiscReturn]. destruct listing as [l|e|m] eqn:Hl; [..|by edestruct Hlisting].
  - fires DiscList.
  - fires DiscList.
Qed.

Lemma busy_workers ws :
  forallb worker_done ws = false → ∃ i w, ws !! i = Some w ∧ worker_done w = false.
Proof.
  induction ws as [|w ws IH]; simpl; [done|]. destruct (worker_done w) eqn:Hw; simpl.
  - intros (i & w' & H)%IH. by exists (S i), w'.
  - intros _. by exists 0%nat, w.
Qed.

Lemma cancelled_can_step s err : p_ctx s = Some err → returned s = false → can_step s.
Proof using Hlisting Hresolve.
  intros Hctx Hret. unfold returned in Hret.
  destruct (p_disc s) as [|[|item todo]|e] eqn:Hd; [by apply disc_can_start; left|by apply disc_can_start; right|fires DiscCancelled|].
  destruct (p_writer s) as [|e'] eqn:Hw; [fires WriterCancelled|].
  destruct (p_resolver s) as [|e''] eqn:Hr; [|done].
  destruct (forallb worker_done (p_workers s)) eqn:Hall.
  - destruct (p_worker_err s) eqn:He; fires ResolverReturn.
  - destruct (busy_workers _ Hall) as (i & [|item|r|e''] & Hi & Hb); [..|done].
    + fires (WorkerCancelled i).
    + fires (WorkerInterrupted i).
    + fires (WorkerCancelled i).
Qed.

Lemma writer_drains s : control s → p_ctx s = None → p_resolvedCh s ≠ [] → can_step s.
Proof.
  intros C Hctx Hne. destruct (p_writer s) as [|[e|]] eqn:Hw.
  - destruct (p_resolvedCh s) as [|item rest] eqn:Hch; [done|]. fires WriterRecv.
  - assert (is_Some (p_ctx s)) as [? ?]; [|congruence].
    apply (ct_ctx _ C). left. apply (ct_stages _ C e). auto.
  - by destruct (ct_writer _ C Hw) as [? _].
Qed.

Lemma worker_can_step s i w :
  control s → p_ctx s = None → p_workers s !! i = Some w → worker_done w = false → can_step s.
Proof using Hlisting Hresolve Hworkers.
  intros C Hctx Hi Hw. destruct w as [|item|r|e]; [..|done].
  - destruct (p_workloadCh s) as [|item ch] eqn:Hch; [|fires (WorkerRecv i)].
    destruct (p_disc s) as [|[|item todo]|e] eqn:Hd.
    + apply disc_can_start. auto.
    + apply disc_can_start. auto.
    + assert ((0 <? numWorkers)%nat = true) as Hn by by apply Nat.ltb_lt. 
      eexists. exists DiscSend. simpl. unfold fire_disc. rewrite Hd, Hch. simpl. by rewrite Hn.
    + fires (WorkerClosed i).
  - destruct (resolve item) as [r|e|m] eqn:Hr; [..|by edestruct Hresolve]; fires (WorkerResolve i).
  - destruct (length (p_resolvedCh s) <? numWorkers)%nat eqn:Hfull; [fires (WorkerSend i)|].
    apply writer_drains; [done..|]. intros Hch. rewrite Hch in Hfull. apply Nat.ltb_ge in Hfull. simpl in Hfull. lia.
Qed.

Lemma progress s : control s → returned s = false → can_step s.
Proof using Hlisting Hresolve Hworkers.
  intros C Hret. destruct (p_ctx s) as [err|] eqn:Hctx; [by eapply cancelled_can_step|].
  destruct (forallb worker_done (p_workers s)) eqn:Hall; cycle 1.
  { destruct (busy_workers _ Hall) as (i & w & Hi & Hw). by eapply worker_can_step. }
  destruct (p_resolver s) as [|e] eqn:Hr; [destruct (p_worker_err s) eqn:He; fires ResolverReturn|].
  destruct (p_writer s) as [|e'] eqn:Hw.
  { destruct (p_resolvedCh s) as [|item rest] eqn:Hch; [fires WriterClosed|]. apply writer_drains; congruence. }
  destruct (lookup_lt_is_Some_2 (p_workers s) 0) as [w Hi]; [by rewrite (ct_length _ C)|].
  pose proof (all_done_lookup _ _ _ Hall Hi) as Hdone. destruct w as [| | |[e''|]]; [done..| |].
  - assert (is_Some (p_ctx s)) as [? ?]; [|congruence]. apply (ct_ctx _ C). right. by apply (ct_worker_err _ C 0%nat e'').
  - destruct (ct_closed _ C _ Hi) as [_ Hd]. unfold returned in Hret. rewrite Hr, Hw in Hret. by destruct (p_disc s).
Qed.
End Invariants.

Lemma resolveWorkload_origin registry item r : resolveWorkload registry item = Ok r → origin r = item.
Proof.
  unfold resolveWorkload. destruct item as [g obj]. simpl. destruct (GetResolver registry g) as [rs|]; [|by intros [= <-]].
  destruct (rs_Resolve rs obj); by intros [= <-].
Qed.

(** ** A concrete run, for the witnesses *)
Module PipelineRun.
Definition gvr : GVR := mkGVR "g" "v1" "things".
Definition thing (n : string) : json := JObj [("metadata", JObj [("name", JStr n)])].
(** The resolver fails on the object named bad. *)
Definition registry : list Resolver :=
  [mkResolver (λ _, true) (λ obj, if String.eqb (GetName obj) "bad" then Err (EString "no") else Ok [])].
Definition write (r : WorkloadWithDeps) (w : list string) : list string := (w ++ [GetName (ww_Instance r)])%list.
Definition instances : list json := [thing "a"; thing "bad"; thing "c"].
Notation run := (run_schedule 2 gvr (Ok instances) (resolveWorkload registry) write).
(** Two workers; the third workload overtakes the first. *)
Definition schedule : list action :=
  [DiscList; DiscSend; DiscSend; WorkerRecv 0; WorkerRecv 1; DiscSend; DiscReturn; WorkerResolve 1; WorkerRecv 1;
   WorkerResolve 1; WorkerSend 1; WriterRecv; WorkerResolve 0; WorkerSend 0; WorkerClosed 0; WorkerClosed 1;
   ResolverReturn; WriterRecv; WriterClosed].
Lemma completes : ∃ s, run schedule (start 2 None []) = Some s ∧ returned s = true ∧ p_err s = None ∧ p_world s = ["c"; "a"].
Proof. eexists. split; [vm_compute; reflexivity|]. repeat split. Qed.
Lemma halfway : ∃ s, run (take 4 schedule) (start 2 None []) = Some s ∧ returned s = false.
Proof. eexists. split; [vm_compute; reflexivity|]. done. Qed.
Lemma resolves item m : resolveWorkload registry item ≠ Panic m.
Proof. destruct item as [g obj]. unfold resolveWorkload. simpl. by destruct (String.eqb (GetName obj) "bad"). Qed.
End PipelineRun.

(** ** Properties *)
Module PipelineSpec.
Section Spec.
Context {W : Type} (numWorkers : nat) (gvr : GVR) (registry : list Resolver) (write : WorkloadWithDeps → W → W).
Notation resolve := (resolveWorkload registry).

(** C12: A pipeline that nobody cancels backs up everything it can: in every
    interleaving of discovery, workers and writer, once all stages have returned
    the group reports no error and the writer has received each workload whose
    dependencies resolved exactly once, and nothing else; what it wrote is the
    fold of these writes. *)
Theorem pipeline_exact instances schedule w s :
  (0 < numWorkers)%nat → Forall (λ a, is_cancel a = false) schedule →
  run_schedule numWorkers gvr (Ok instances) resolve write schedule (start numWorkers None w) = Some s →
  returned s = true →
  p_err s = None ∧
  p_written s ≡ₚ omap (λ item, res_opt (resolve item)) (map (mkItem gvr) instances) ∧
  p_world s = foldl (λ w r, write r w) w (p_written s).
Proof.
  intros Hn Hsch Hrun Hret. pose proof (run_schedule_rtc _ _ _ _ _ _ _ _ Hrun) as Hrtc.
  destruct (reachable_inv _ _ _ _ _ (resolveWorkload_origin registry) _ _ _ Hrtc) as [C D].
  assert (p_ctx s = None) as Hctx by (eapply run_uncancelled; [..|exact Hrun]; [done|done|apply control_start|done]).
  assert (p_err s = None) as Herr.
  { destruct (p_err s) eqn:He; [|done]. destruct (ct_ctx _ _ C) as [? ?]; [left; by eexists|congruence]. }
  destruct (returned_drained numWorkers gvr (Ok instances) s Hn C Hret Herr) as (Ht & Hch & Hws & Hrch & Hwe).
  pose proof (dt_items _ _ _ _ _ _ D Herr Hwe) as Hitems. rewrite Ht, Hch, Hws, Hrch in Hitems. simpl in Hitems.
  split; [done|]. split; [|apply (dt_world _ _ _ _ _ _ D)].
  unfold items in Hitems. rewrite <-Hitems. symmetry. rewrite (omap_origins resolve); [done| |].
  - pose proof (dt_results _ _ _ _ _ _ D) as Hres. by rewrite Hrch in Hres.
  - by apply (dt_warned _ _ _ _ _ _ D).
Qed.

(** Cancellation at any moment, the deadline included, never writes a workload
    twice or one that was not listed; and when the pipeline still reports
    success, every listed workload was either written or warned about. *)
Theorem pipeline_success_accounts listing ctx w s :
  (0 < numWorkers)%nat →
  rtc (pstep numWorkers gvr listing resolve write) (start numWorkers ctx w) s →
  returned s = true → p_err s = None →
  map origin (p_written s) ++ p_warned s ≡ₚ items gvr listing ∧
  Forall (λ r, resolve (origin r) = Ok r) (p_written s) ∧
  p_world s = foldl (λ w r, write r w) w (p_written s).
Proof.
  intros Hn Hrtc Hret Herr.
  destruct (reachable_inv _ _ _ _ _ (resolveWorkload_origin registry) _ _ _ Hrtc) as [C D].
  destruct (returned_drained numWorkers gvr listing s Hn C Hret Herr) as (Ht & Hch & Hws & Hrch & Hwe).
  pose proof (dt_items _ _ _ _ _ _ D Herr Hwe) as Hitems. rewrite Ht, Hch, Hws, Hrch in Hitems.
  split; [exact Hitems|]. split; [|apply (dt_world _ _ _ _ _ _ D)].
  pose proof (dt_results _ _ _ _ _ _ D) as Hres. by rewrite Hrch in Hres.
Qed.

(** C13: The pipeline always comes to an end and never deadlocks, whatever the
    interleaving and wherever it is cancelled: a run has a bounded number of
    steps, and as long as some stage has not returned, some goroutine can move. *)
Theorem pipeline_terminates listing ctx schedule w s :
  (0 < numWorkers)%nat → (∀ m, listing ≠ Panic m) → (∀ item m, resolve item ≠ Panic m) →
  run_schedule numWorkers gvr listing resolve write schedule (start numWorkers ctx w) = Some s →
  (length schedule ≤ 6 * length (items gvr listing) + numWorkers + 6)%nat ∧
  (returned s = false → ∃ a s', fire numWorkers gvr listing resolve write a s = Some s').
Proof.
  intros Hn Hl Hr Hrun. split.
  - pose proof (run_schedule_work _ _ _ _ _ _ _ _ Hrun).
    pose proof (start_work numWorkers gvr listing ctx w). lia.
  - intros Hret. pose proof (run_schedule_rtc _ _ _ _ _ _ _ _ Hrun) as Hrtc.
    destruct (reachable_inv _ _ _ _ _ (resolveWorkload_origin registry) _ _ _ Hrtc) as [C _].
    destruct (progress numWorkers gvr listing resolve write Hn Hl Hr s C Hret) as (s' & a & Ha). eauto.
Qed.
End Spec.

Lemma pipeline_exact_witness :
  ∃ s, PipelineRun.run PipelineRun.schedule (start 2 None []) = Some s ∧ p_err s = None ∧ p_world s = ["c"; "a"] ∧
    p_written s ≡ₚ omap (λ item, res_opt (resolveWorkload PipelineRun.registry item))
                     (map (mkItem PipelineRun.gvr) PipelineRun.instances).
Proof.
  destruct PipelineRun.completes as (s & Hs & Hret & _ & Hw). exists s.
  destruct (pipeline_exact 2 PipelineRun.gvr PipelineRun.registry PipelineRun.write PipelineRun.instances
    PipelineRun.schedule [] s) as (H1 & H2 & _); [lia|by repeat constructor|exact Hs|exact Hret|].
  split; [exact Hs|]. split; [exact H1|]. split; [exact Hw|exact H2].
Defined.

Lemma pipeline_success_accounts_witness :
  ∃ s, PipelineRun.run PipelineRun.schedule (start 2 None []) = Some s ∧
    map origin (p_written s) ++ p_warned s ≡ₚ map (mkItem PipelineRun.gvr) PipelineRun.instances.
Proof.
  destruct PipelineRun.completes as (s & Hs & Hret & Herr & _). exists s. split; [exact Hs|].
  apply (pipeline_success_accounts 2 PipelineRun.gvr PipelineRun.registry PipelineRun.write (Ok PipelineRun.instances)
    None [] s); [lia| |exact Hret|exact Herr].
  exact (run_schedule_rtc _ _ _ _ _ PipelineRun.schedule _ _ Hs).
Defined.

Lemma pipeline_terminates_witness :
  (length PipelineRun.schedule ≤ 6 * 3 + 2 + 6)%nat ∧
  ∃ s, PipelineRun.run (take 4 PipelineRun.schedule) (start 2 None []) = Some s ∧ returned s = false ∧
    ∃ a s', fire 2 PipelineRun.gvr (Ok PipelineRun.instances) (resolveWorkload PipelineRun.registry) PipelineRun.write a s = Some s'.
Proof.
  split.
  - destruct PipelineRun.completes as (s & Hs & _).
    exact (proj1 (pipeline_terminates 2 PipelineRun.gvr PipelineRun.registry PipelineRun.write (Ok PipelineRun.instances)
      None PipelineRun.schedule [] s ltac:(lia) ltac:(done) PipelineRun.resolves Hs)).
  - destruct PipelineRun.halfway as (s & Hs & Hret). exists s. split; [exact Hs|]. split; [exact Hret|].
    exact (proj2 (pipeline_terminates 2 PipelineRun.gvr PipelineRun.registry PipelineRun.write (Ok PipelineRun.instances)
      None _ [] s ltac:(lia) ltac:(done) PipelineRun.resolves Hs) Hret).
Defined.
End PipelineSpec.
