(* ===== verification/Backup.v ===== *)
(** * Backup: pkg/backup (command.go, command_options.go, resource_writer.go) and pipeline/writer.go

    The backup command: which workload types it goes through, what it writes
    where, its dry run, and the loop of pipelines.  Writing happens in a monad
    over the history of system calls; how each call ends is a function of that
    history ([env]), so the theorems hold for every file system.  The YAML
    marshaller and gojq are parameters; the verbose progress lines of the
    concurrent stages are not modelled. *)
From Stdlib Require Import Ascii.
From S2P Require Import Prelude FilePath Errors Client Version DepsCheck BackupDeps Pipeline.
Open Scope string_scope.
Open Scope Z_scope.
Open Scope go_scope.

Definition DefaultTimeout : Z := 10 * 60 * second.

(** constants.go *)
Definition DefaultWorkloadTypes : list string :=
  ["notebooks.kubeflow.org";
   "datasciencepipelinesapplications.datasciencepipelinesapplications.opendatahub.io"].
Definition DefaultStripFields : list string :=
  [".status"; ".metadata.generation"; ".metadata.resourceVersion"; ".metadata.uid"; ".metadata.creationTimestamp";
   ".metadata.managedFields"; ".metadata.selfLink";
   ".metadata.annotations." +:+ dquote +:+ "kubectl.kubernetes.io/last-applied-configuration" +:+ dquote].

(** ** The command and its options *)
Record Command := mkCommand {
  c_OutputDir : string;
  c_StripFields : list string;
  c_Includes : list string;
  c_Excludes : list string;
  c_MaxWorkers : Z;
  c_Dependencies : bool;
  c_DryRun : bool;
  c_Verbose : bool;
  c_Timeout : Z;
}.

Definition maxWorkersLimit : Z := 20.
(** [Complete], after the client has been built; [NumCPU] is the runtime's. *)
Definition Complete (NumCPU : Z) (c : Command) : Command :=
  mkCommand (c_OutputDir c)
    (DefaultStripFields ++ c_StripFields c)%list
    (match c_Includes c with [] => DefaultWorkloadTypes | l => l end)
    (c_Excludes c)
    (if c_MaxWorkers c =? 0 then (if maxWorkersLimit <? NumCPU then maxWorkersLimit else NumCPU) else c_MaxWorkers c)
    (c_Dependencies c) (c_DryRun c) (c_DryRun c || c_Verbose c) (c_Timeout c).

Definition Validate (c : Command) : res go_error () :=
  if c_Timeout c <=? 0 then Err (EString "timeout must be greater than 0") else Ok ().

(** [strings.SplitN(s, sep, 2)] for a one-byte separator. *)
Fixpoint split_first (sep : Ascii.ascii) (s : string) : string * option string :=
  match s with
  | EmptyString => ("", None)
  | String a s' =>
      if Ascii.eqb a sep then ("", Some s')
      else let '(first, rest) := split_first sep s' in (String a first, rest)
  end.

Definition parseGVRString (s : string) : GVR :=
  match split_first dot s with
  | (resource, None) => mkGVR "" "v1" resource
  | (resource, Some group) => mkGVR group "v1" resource
  end.

(** [GroupResource().String()], which is also the prefix of the file names. *)
Definition group_resource (g : GVR) : string :=
  if String.eqb (g_Group g) "" then g_Resource g else g_Resource g +:+ "." +:+ g_Group g.

Definition resolveWorkloadGVRs (c : Command) : list GVR :=
  let excludeSet : gset string := list_to_set (map (λ s, group_resource (parseGVRString s)) (c_Excludes c)) in
  List.filter (λ g, bool_decide (group_resource g ∉ excludeSet)) (map parseGVRString (c_Includes c)).

(** ** System calls *)
Inductive io_op :=
| OpMkdirAll (path : string)
| OpWriteFile (path data : string)
| OpStdout (text : string)
| OpErrout (text : string).           (* IO.Errorf *)

Definition history := list io_op.
Definition IO (A : Type) := history → res go_error A * history.
Definition io_ret {A} (a : A) : IO A := λ h, (Ok a, h).
Definition io_lift {A} (r : res go_error A) : IO A := λ h, (r, h).
Definition io_bind {A B} (m : IO A) (k : A → IO B) : IO B := λ h,
  match m h with
  | (Ok a, h') => k a h'
  | (Err e, h') => (Err e, h')
  | (Panic s, h') => (Panic s, h')
  end.
Definition io_wrap {A} (prefix : string) (m : IO A) : IO A := λ h,
  let '(r, h') := m h in (res_map_err (errorf_w prefix) r, h').
Notation "'io!' x := m 'in' k" := (io_bind m (λ x, k))
  (at level 10, x name, m at level 100, k at level 200) : go_scope.
Notation "m ;; k" := (io_bind m (λ _, k)) (at level 100, right associativity) : go_scope.

Section Write.
Context (env : history → io_op → option go_error).
Context (yaml_Marshal : json → res go_error string).
Context `{JQ : GoJq} (go_type : json → string).

Definition perform (op : io_op) : IO () := λ h,
  (match env h op with None => Ok () | Some e => Err e end, (h ++ [op])%list).
(** [IO.Errorf]: an error of the stream is ignored. *)
Definition Errorf (text : string) : IO () := λ h, (Ok (), (h ++ [OpErrout text])%list).

(** ** Stripping (kube/resources.go, jq.go) *)
Definition Transform (obj : json) (expression : string) : res go_error json :=
  match gojq_run obj expression with
  | JqParseError e => Err (errorf_w "failed to parse jq expression" e)
  | JqNoResult => Err (EString "transform returned no result")
  | JqRunError e => Err (errorf_w "transform error" e)
  | JqValue (JObj fields) => Ok (JObj fields)
  | JqValue v => Err (EString ("transform result is not a map: " +:+ go_type v))
  end.

Definition StripFields (obj : json) (fields : list string) : res go_error json :=
  match fields with
  | [] => Ok obj
  | _ => res_map_err (errorf_w "applying JQ transform") (Transform obj ("del(" +:+ join ", " fields +:+ ")"))
  end.

(** ** Writing one resource (resource_writer.go, command.go) *)
Definition namespace_dir (obj : json) : string :=
  if String.eqb (GetNamespace obj) "" then "cluster-scoped" else GetNamespace obj.
Definition file_name (g : GVR) (obj : json) : string := group_resource g +:+ "-" +:+ GetName obj +:+ ".yaml".

Definition writeResourceToDir (dir : string) (g : GVR) (obj : json) : IO () :=
  let filePath := path_Join [dir; file_name g obj] in
  io! data := io_wrap "marshaling to YAML" (io_lift (yaml_Marshal obj)) in
  io_wrap "writing file" (perform (OpWriteFile filePath data)).

Definition WriteResourceFlat := writeResourceToDir.

Definition WriteResourceToFile (outputDir : string) (g : GVR) (obj : json) : IO () :=
  let nsDir := path_Join [outputDir; namespace_dir obj] in
  io_wrap "creating namespace directory" (perform (OpMkdirAll nsDir)) ;;
  writeResourceToDir nsDir g obj.

Definition WriteResourceToStdout (g : GVR) (obj : json) : IO () :=
  io! data := io_wrap "marshaling to YAML" (io_lift (yaml_Marshal obj)) in
  io_wrap "writing separator" (perform (OpStdout ("---" +:+ newline))) ;;
  io_wrap "writing YAML" (perform (OpStdout data)).

Fixpoint WriteResourcesToDir (outputDir : string) (g : GVR) (resources : list json) : IO () :=
  match resources with
  | [] => io_ret ()
  | resource :: rest =>
      io_wrap ("writing resource " +:+ GetName resource) (WriteResourceToFile outputDir g resource) ;;
      WriteResourcesToDir outputDir g rest
  end.

Definition logDryRunResource (c : Command) (g : GVR) (obj : json) : IO () :=
  if String.eqb (c_OutputDir c) "" then
    Errorf ("Would write to stdout: " +:+ GetNamespace obj +:+ "/" +:+ GetName obj +:+ " (" +:+ g_Resource g +:+ ")")
  else Errorf ("Would create: " +:+ path_Join [c_OutputDir c; namespace_dir obj; file_name g obj]).

Definition writeResource (c : Command) (g : GVR) (obj : json) : IO () :=
  io! stripped := io_wrap "stripping fields" (io_lift (StripFields obj (c_StripFields c))) in
  if c_DryRun c then logDryRunResource c g stripped
  else if String.eqb (c_OutputDir c) "" then WriteResourceToStdout g stripped
  else WriteResourceToFile (c_OutputDir c) g stripped.

(** ** The writer stage (pipeline/writer.go) *)
Definition getResourcePath (c : Command) (g : GVR) (obj : json) : string :=
  if String.eqb (c_OutputDir c) "" then
    namespace_dir obj +:+ "/" +:+ GetName obj +:+ " (" +:+ g_Resource g +:+ ")"
  else path_Join [c_OutputDir c; namespace_dir obj; file_name g obj].

(** The resources of an item that are there: dependencies with an error were
    not fetched and are skipped. *)
Definition fetched_deps (item : WorkloadWithDeps) : list (GVR * json) :=
  omap (λ dep, match d_Error dep, d_Resource dep with
               | None, Some resource => Some (d_GVR dep, resource)
               | _, _ => None
               end) (ww_Dependencies item).

Fixpoint write_deps (c : Command) (deps : list (GVR * json)) : IO () :=
  match deps with
  | [] => io_ret ()
  | (g, resource) :: rest => λ h,
      match writeResource c g resource h with
      | (Ok _, h') => write_deps c rest h'
      | (Err err, h') =>
          (Errorf ("  Warning: Failed to write dependency " +:+ GetNamespace resource +:+ "/" +:+ GetName resource +:+
                   ": " +:+ error_string err) ;; write_deps c rest) h'
      | (Panic s, h') => (Panic s, h')
      end
  end.

Fixpoint log_paths (paths : list string) : IO () :=
  match paths with
  | [] => io_ret ()
  | path :: rest => Errorf ("    - " +:+ path) ;; log_paths rest
  end.

Definition dry_run_paths (c : Command) (item : WorkloadWithDeps) : list string :=
  getResourcePath c (ww_GVR item) (ww_Instance item) ::
  map (λ gr, getResourcePath c gr.1 gr.2) (fetched_deps item).

Definition writeWorkloadWithDepsDryRun (c : Command) (item : WorkloadWithDeps) : IO () :=
  Errorf "" ;; Errorf "    Would create:" ;; log_paths (dry_run_paths c item).

Definition writeWorkloadWithDeps (c : Command) (item : WorkloadWithDeps) : IO () :=
  if c_DryRun c then writeWorkloadWithDepsDryRun c item
  else
    io_wrap "writing workload" (writeResource c (ww_GVR item) (ww_Instance item)) ;;
    write_deps c (fetched_deps item).

(** What one item does to the history: [Run] of the writer turns an error into
    a warning. *)
Definition write_item (c : Command) (item : WorkloadWithDeps) (h : history) : history :=
  match writeWorkloadWithDeps c item h with
  | (Ok _, h') => h'
  | (Err err, h') =>
      (h' ++ [OpErrout ("    Warning: Failed to write " +:+ GetNamespace (ww_Instance item) +:+ "/" +:+
                        GetName (ww_Instance item) +:+ ": " +:+ error_string err)])%list
  | (Panic _, h') => h'
  end.
End Write.

(** ** The command (command.go) *)
Section Run.
Context (env : history → io_op → option go_error).
Context (yaml_Marshal : json → res go_error string).
Context `{JQ : GoJq} (go_type : json → string).
(** The cluster: what listing a type answers, and the resolvers. *)
Context (ListResources : GVR → res go_error (list json)) (registry : list Resolver).
Notation write_item := (write_item env yaml_Marshal go_type).

(** One pipeline: [ctx] is the state of the context when it starts, and
    [schedule] the interleaving; [None] if the schedule is not a whole run. *)
Definition runPipeline (c : Command) (g : GVR) (ctx : option go_error) (schedule : list action) (h : history)
    : option (res go_error () * history) :=
  if c_MaxWorkers c <? 0 then Some (Panic "makechan: size out of range", h)
  else
    let numWorkers := Z.to_nat (c_MaxWorkers c) in
    match run_schedule numWorkers g (ListResources g) (resolveWorkload registry) (write_item c) schedule
            (start numWorkers ctx h) with
    | Some s =>
        if returned s then
          Some (match p_err s with None => Ok () | Some e => Err (errorf_w "pipeline execution failed" e) end, p_world s)
        else None
    | None => None
    end.

(** The loop over the workload types. *)
Fixpoint backup_types (c : Command) (gvrs : list GVR) (runs : list (option go_error * list action)) (h : history)
    : option (res go_error () * history) :=
  match gvrs, runs with
  | [], _ => Some (Ok (), h)
  | g :: gvrs', (ctx, schedule) :: runs' =>
      match runPipeline c g ctx schedule h with
      | None => None
      | Some (Ok _, h') => backup_types c gvrs' runs' h'
      | Some (Err e, h') =>
          backup_types c gvrs' runs'
            (h' ++ [OpErrout ("Warning: Failed to backup " +:+ g_Resource g +:+ ": " +:+ error_string e +:+ newline)])%list
      | Some (Panic s, h') => Some (Panic s, h')
      end
  | _ :: _, [] => None
  end.

Definition backup_banner (c : Command) (gvrs : list GVR) : list io_op :=
  if c_Verbose c then
    [OpErrout ((if c_DryRun c then "Dry-run:" else "Backing up") +:+ " " +:+ itoa (Z.of_nat (length gvrs)) +:+
               " workload types " +:+ (if c_Dependencies c then "with dependencies" else "without dependencies") +:+
               " (" +:+ itoa (c_MaxWorkers c) +:+ " workers)...")]
  else [].
Definition backup_farewell (c : Command) : io_op :=
  OpErrout (if c_DryRun c then "Dry-run complete (no files written)"
            else if String.eqb (c_OutputDir c) "" && c_Verbose c then "Backup complete (stdout)"
            else "Backup complete: " +:+ c_OutputDir c).

Definition Run (c : Command) (runs : list (option go_error * list action)) (h : history)
    : option (res go_error () * history) :=
  let '(made, h) :=
    if String.eqb (c_OutputDir c) "" then (Ok (), h)
    else io_wrap "creating output directory" (perform env (OpMkdirAll (c_OutputDir c))) h in
  match made with
  | Err e => Some (Err e, h)
  | Panic s => Some (Panic s, h)
  | Ok _ =>
      let gvrs := resolveWorkloadGVRs c in
      match backup_types c gvrs runs (h ++ backup_banner c gvrs)%list with
      | Some (Ok _, h') => Some (Ok (), (h' ++ [backup_farewell c])%list)
      | r => r
      end
  end.
End Run.

(** ** Lemmas: file names *)
(** The text before the first separator determines the split. *)
Lemma first_sep_inj sep a1 a2 b1 b2 :
  contains_byte sep a1 = false → contains_byte sep a2 = false →
  a1 +:+ String sep b1 = a2 +:+ String sep b2 → a1 = a2 ∧ b1 = b2.
Proof.
  revert a2. induction a1 as [|x a1 IH]; intros [|y a2] H1 H2; simpl in *.
  - by intros [= ->].
  - apply orb_false_iff in H2 as [H2 _]. intros [= -> _]. by rewrite Ascii.eqb_refl in H2.
  - apply orb_false_iff in H1 as [H1 _]. intros [= -> _]. by rewrite Ascii.eqb_refl in H1.
  - apply orb_false_iff in H1 as [_ H1], H2 as [_ H2]. intros [= -> Heq].
    by destruct (IH a2 H1 H2 Heq) as [-> ->].
Qed.

Definition no_dash (s : string) : Prop := contains_byte "-"%char s = false.

Lemma file_name_inj g1 g2 o1 o2 :
  group_resource g1 = group_resource g2 ∨ (no_dash (group_resource g1) ∧ no_dash (group_resource g2)) →
  file_name g1 o1 = file_name g2 o2 → group_resource g1 = group_resource g2 ∧ GetName o1 = GetName o2.
Proof.
  unfold file_name. intros [Hg|[H1 H2]] Heq.
  - split; [done|]. rewrite Hg in Heq. apply string_app_inj_l in Heq. injection Heq as Heq.
    by apply (string_app_inj_r (GetName o1) (GetName o2) ".yaml") in Heq.
  - apply (first_sep_inj "-"%char) in Heq as [Hg Heq]; [|done..]. split; [done|]. by apply string_app_inj_r in Heq.
Qed.

Lemma file_name_entry g o :
  g_Resource g ≠ "" → no_slash (g_Resource g) → no_slash (g_Group g) → no_slash (GetName o) → entry_name (file_name g o).
Proof.
  unfold no_slash. intros Hne Hr Hg Hn. assert (no_slash (file_name g o)) as Hs.
  { unfold no_slash, file_name, group_resource. rewrite !contains_byte_app.
    destruct (String.eqb (g_Group g) ""); rewrite ?contains_byte_app, ?Hr, ?Hg, Hn; done. }
  assert (∀ s : string, String.length s < 5 → file_name g o ≠ s)%nat as Hlen.
  { intros s Hs' Heq. apply (f_equal String.length) in Heq. unfold file_name in Heq. revert Heq.
    assert (∀ x y : string, String.length (x +:+ y) = (String.length x + String.length y)%nat) as Happ.
    { intros x y. induction x as [|c x IH]; [done|]. simpl. exact (f_equal S IH). }
    rewrite !Happ. simpl. lia. }
  repeat split; [apply Hlen; simpl; lia..|done].
Qed.

(** ** Lemmas: what is written *)
Definition io_files (h : history) : list string :=
  omap (λ op, match op with OpWriteFile path _ => Some path | _ => None end) h.
(** The dry run of the same command. *)
Definition with_dry_run (dry : bool) (c : Command) : Command :=
  mkCommand (c_OutputDir c) (c_StripFields c) (c_Includes c) (c_Excludes c) (c_MaxWorkers c) (c_Dependencies c) dry
    (c_Verbose c) (c_Timeout c).

Definition is_message (op : io_op) : Prop := match op with OpErrout _ => True | _ => False end.

Section WriteLemmas.
Context (env : history → io_op → option go_error).
Context (yaml_Marshal : json → res go_error string).
Context `{JQ : GoJq} (go_type : json → string).
Notation write_item := (write_item env yaml_Marshal go_type).
Notation writeResource := (writeResource env yaml_Marshal go_type).

(** A resource that can be written: it strips to an object of the same name and
    namespace, which marshals, and its names are directory entries. *)
Definition writable (c : Command) (gr : GVR * json) : Prop :=
  ∃ stripped data, StripFields go_type gr.2 (c_StripFields c) = Ok stripped ∧ yaml_Marshal stripped = Ok data ∧
    GetName stripped = GetName gr.2 ∧ GetNamespace stripped = GetNamespace gr.2 ∧
    entry_name (namespace_dir gr.2) ∧ entry_name (file_name gr.1 gr.2).

Lemma io_files_app (h1 h2 : history) : io_files (h1 ++ h2)%list = (io_files h1 ++ io_files h2)%list.
Proof. apply omap_app. Qed.

Lemma writeResource_files c gr h :
  (∀ h op, env h op = None) → c_OutputDir c ≠ "" → writable c gr →
  ∃ h', writeResource (with_dry_run false c) gr.1 gr.2 h = (Ok (), h') ∧
    io_files h' = (io_files h ++ [getResourcePath c gr.1 gr.2])%list.
Proof.
  intros Henv Hdir (stripped & data & Hs & Hm & Hn & Hns & He1 & He2). destruct gr as [g obj]. simpl in *.
  assert (namespace_dir stripped = namespace_dir obj) as Hnd by (unfold namespace_dir; by rewrite Hns).
  assert (file_name g stripped = file_name g obj) as Hfn by (unfold file_name; by rewrite Hn).
  unfold writeResource, Backup.writeResource, getResourcePath, io_bind, io_wrap, io_lift. cbn -[path_Join]. rewrite Hs. cbn -[path_Join].
  rewrite (proj2 (String.eqb_neq _ _) Hdir). unfold WriteResourceToFile, writeResourceToDir, io_bind, io_wrap, io_lift, perform.
  rewrite !Henv. cbn -[path_Join]. rewrite Hm. cbn -[path_Join]. rewrite Henv. cbn -[path_Join]. eexists. split; [done|].
  rewrite !io_files_app. cbn -[path_Join]. rewrite app_nil_r, Hnd, Hfn. by rewrite path_Join_Join.
Qed.

Lemma write_deps_files c deps h :
  (∀ h op, env h op = None) → c_OutputDir c ≠ "" → Forall (writable c) deps →
  ∃ h', write_deps env yaml_Marshal go_type (with_dry_run false c) deps h = (Ok (), h') ∧
    io_files h' = (io_files h ++ map (λ gr, getResourcePath c gr.1 gr.2) deps)%list.
Proof.
  intros Henv Hdir Hdeps. revert h. induction Hdeps as [|gr deps Hgr _ IH]; intros h.
  { exists h. split; [done|]. simpl. by rewrite app_nil_r. }
  destruct (writeResource_files c gr h Henv Hdir Hgr) as (h1 & Hw & Hf). destruct gr as [g obj]. simpl in *.
  rewrite Hw. destruct (IH h1) as (h2 & -> & Hf2). exists h2. split; [done|]. by rewrite Hf2, Hf, <-app_assoc.
Qed.

Lemma log_paths_history paths h :
  log_paths paths h = (Ok (), (h ++ map (λ p, OpErrout ("    - " +:+ p)) paths)%list).
Proof.
  revert h. induction paths as [|p paths IH]; intros h; simpl; [by rewrite app_nil_r|].
  unfold io_bind, Errorf. by rewrite IH, <-app_assoc.
Qed.

(** A dry run of an item writes messages only. *)
Lemma write_item_dry c item h :
  c_DryRun c = true →
  write_item c item h =
    (h ++ [OpErrout ""; OpErrout "    Would create:"] ++ map (λ p, OpErrout ("    - " +:+ p)) (dry_run_paths c item))%list.
Proof.
  intros Hdry. unfold Backup.write_item, writeWorkloadWithDeps, writeWorkloadWithDepsDryRun. rewrite Hdry.
  unfold io_bind, Errorf. rewrite log_paths_history. by rewrite <-!app_assoc.
Qed.

Lemma dry_items_messages c items h :
  c_DryRun c = true →
  ∃ msgs, foldl (λ w r, write_item c r w) h items = (h ++ msgs)%list ∧ Forall is_message msgs.
Proof.
  intros Hdry. revert h. induction items as [|item items IH]; intros h; simpl.
  { exists []. by rewrite app_nil_r. }
  rewrite write_item_dry by done. edestruct IH as (msgs & -> & Hmsgs). rewrite <-app_assoc. eexists. split; [done|].
  apply Forall_app. split; [|done]. repeat constructor. by apply List.Forall_map, Forall_true.
Qed.

Context (ListResources : GVR → res go_error (list json)) (registry : list Resolver).
Notation runPipeline := (runPipeline env yaml_Marshal go_type ListResources registry).
Notation backup_types := (backup_types env yaml_Marshal go_type ListResources registry).

(** Whatever its interleaving, a pipeline's effect is a sequence of items. *)
Lemma runPipeline_world c g ctx schedule h r h' :
  runPipeline c g ctx schedule h = Some (r, h') → ∃ items, h' = foldl (λ w i, write_item c i w) h items.
Proof.
  unfold Backup.runPipeline. destruct (c_MaxWorkers c <? 0); [intros [= _ <-]; by exists []|].
  destruct (run_schedule _ _ _ _ _ _ _) as [s|] eqn:Hrun; [|done]. destruct (returned s); [|done]. intros [= _ <-].
  destruct (reachable_inv _ _ _ _ _ (resolveWorkload_origin registry) _ _ _ (run_schedule_rtc _ _ _ _ _ _ _ _ Hrun)) as [_ D].
  eexists. apply (dt_world _ _ _ _ _ _ D).
Qed.

Lemma runPipeline_no_panic c g ctx schedule h r h' :
  0 <= c_MaxWorkers c → runPipeline c g ctx schedule h = Some (r, h') → ∀ m, r ≠ Panic m.
Proof.
  intros Hn. unfold Backup.runPipeline. destruct (Z.ltb_spec (c_MaxWorkers c) 0); [lia|].
  destruct (run_schedule _ _ _ _ _ _ _) as [s|]; [|done]. destruct (returned s); [|done].
  intros [= <- _] m. by destruct (p_err s).
Qed.

Lemma backup_types_ok c gvrs runs h r h' :
  0 <= c_MaxWorkers c → backup_types c gvrs runs h = Some (r, h') → r = Ok ().
Proof.
  intros Hn. revert runs h. induction gvrs as [|g gvrs IH]; intros runs h; simpl; [by intros [= <- _]|].
  destruct runs as [|[ctx schedule] runs]; [done|].
  destruct (runPipeline c g ctx schedule h) as [[[[]|e|m] h1]|] eqn:Hp; [apply IH|apply IH| |done].
  by destruct (runPipeline_no_panic _ _ _ _ _ _ _ Hn Hp m).
Qed.

Lemma backup_types_dry c gvrs runs h r h' :
  c_DryRun c = true → backup_types c gvrs runs h = Some (r, h') →
  ∃ msgs, h' = (h ++ msgs)%list ∧ Forall is_message msgs.
Proof.
  intros Hdry. revert runs h. induction gvrs as [|g gvrs IH]; intros runs h; simpl.
  { intros [= _ <-]. exists []. by rewrite app_nil_r. }
  destruct runs as [|[ctx schedule] runs]; [done|].
  destruct (runPipeline c g ctx schedule h) as [[r1 h1]|] eqn:Hp; [|done].
  destruct (runPipeline_world _ _ _ _ _ _ _ Hp) as [items ->].
  destruct (dry_items_messages c items h Hdry) as (m1 & -> & Hm1).
  destruct r1 as [[]|e|m].
  - intros (m2 & -> & Hm2)%IH. exists (m1 ++ m2)%list. rewrite app_assoc. split; [done|]. by apply Forall_app.
  - intros (m2 & -> & Hm2)%IH. eexists. rewrite <-!app_assoc. split; [done|].
    apply Forall_app; split; [done|]. by constructor.
  - intros [= _ <-]. by exists m1.
Qed.
End WriteLemmas.

(** ** A concrete backup, for the witnesses *)
Module BackupRun.
Definition no_failure : history → io_op → option go_error := λ _ _, None.
Definition yaml (obj : json) : res go_error string := Ok ("name: " +:+ GetName obj).
(** Stripping removes the status. *)
#[export] Instance strip_jq : GoJq := {|
  gojq_run obj q := match obj with
                    | JObj fields => JqValue (JObj (List.filter (λ kv, negb (String.eqb kv.1 "status")) fields))
                    | v => JqValue v
                    end |}.
Definition go_type (v : json) : string := "string".
Definition command (dry : bool) : Command :=
  mkCommand "/tmp/backup" [".status"] ["notebooks.kubeflow.org"] [] 2 true dry false DefaultTimeout.
Definition g : GVR := parseGVRString "notebooks.kubeflow.org".
Definition nb : json := NotebookRun.object "team" "nb" [("status", JStr "running")].
Definition cm : json := NotebookRun.object "team" "settings" [].
Definition item : WorkloadWithDeps :=
  mkWorkload g nb [found_dependency ConfigMap cm; missing_dependency Secret ("creds", EString "forbidden")].
Definition list_one (g : GVR) : res go_error (list json) := Ok [nb].
Definition schedule : list action :=
  [DiscList; DiscSend; DiscReturn; WorkerRecv 0; WorkerResolve 0; WorkerSend 0; WorkerClosed 0; WorkerClosed 1;
   ResolverReturn; WriterRecv; WriterClosed].
Definition run (c : Command) := Run no_failure yaml go_type list_one [] c [(None, schedule)] [].
Example writes_file : (λ r, io_files r.2) <$> run (command false) = Some ["/tmp/backup/team/notebooks.kubeflow.org-nb.yaml"].
Proof. vm_compute. reflexivity. Qed.
End BackupRun.
Import (hints) BackupRun.

(** ** Properties *)
Module BackupSpec.
(** Two resources get the same file only if they have the same type, namespace
    directory and name: within a type always, across types when neither type
    name holds a dash.  (A namespace called cluster-scoped shares its directory
    with the resources that have no namespace.) *)
Theorem backup_paths_injective c g1 g2 o1 o2 :
  c_OutputDir c ≠ "" →
  Forall entry_name [namespace_dir o1; file_name g1 o1] → Forall entry_name [namespace_dir o2; file_name g2 o2] →
  group_resource g1 = group_resource g2 ∨ (no_dash (group_resource g1) ∧ no_dash (group_resource g2)) →
  getResourcePath c g1 o1 = getResourcePath c g2 o2 →
  group_resource g1 = group_resource g2 ∧ namespace_dir o1 = namespace_dir o2 ∧ GetName o1 = GetName o2.
Proof.
  intros Hdir H1 H2 Hg. unfold getResourcePath. rewrite (proj2 (String.eqb_neq _ _) Hdir). intros Heq.
  apply path_Join_inj in Heq; [|done..]. injection Heq as Hns Hf. destruct (file_name_inj _ _ _ _ Hg Hf) as [? ?]. done.
Qed.

(** C26: The dry run announces exactly the files a real run writes: for a workload
    and its fetched dependencies, when every system call succeeds, the paths of
    the files written are, in order, the paths the dry run prints. *)
Theorem dry_run_predicts_writes env yaml `{JQ : GoJq} go_type c item h :
  (∀ h op, env h op = None) → c_OutputDir c ≠ "" →
  Forall (writable yaml go_type c) ((ww_GVR item, ww_Instance item) :: fetched_deps item) →
  io_files (write_item env yaml go_type (with_dry_run false c) item h) = (io_files h ++ dry_run_paths c item)%list ∧
  write_item env yaml go_type (with_dry_run true c) item h =
    (h ++ [OpErrout ""; OpErrout "    Would create:"] ++ map (λ p, OpErrout ("    - " +:+ p)) (dry_run_paths c item))%list.
Proof.
  intros Henv Hdir [Hw Hdeps]%Forall_cons. split; [|by apply (write_item_dry _ _ _ (with_dry_run true c))].
  destruct (writeResource_files env yaml go_type c _ h Henv Hdir Hw) as (h1 & Hr & Hf).
  destruct (write_deps_files env yaml go_type c _ h1 Henv Hdir Hdeps) as (h2 & Hr2 & Hf2).
  unfold write_item, writeWorkloadWithDeps. simpl in *. unfold io_bind, io_wrap. rewrite Hr. simpl. rewrite Hr2.
  by rewrite Hf2, Hf, <-app_assoc.
Qed.

(** A dry run, whatever the cluster, the schedule and the failures, writes
    nothing but messages, except that it creates the output directory. *)
Theorem dry_run_writes_nothing env yaml `{JQ : GoJq} go_type ListResources registry c runs h r h' :
  c_DryRun c = true → Run env yaml go_type ListResources registry c runs h = Some (r, h') →
  ∃ msgs, h' = (h ++ (if String.eqb (c_OutputDir c) "" then [] else [OpMkdirAll (c_OutputDir c)]) ++ msgs)%list ∧
    Forall is_message msgs.
Proof.
  intros Hdry. unfold Run.
  set (dir := if String.eqb (c_OutputDir c) "" then [] else [OpMkdirAll (c_OutputDir c)]).
  set (made := if String.eqb (c_OutputDir c) "" then _ else _).
  assert (made.2 = (h ++ dir)%list) as Hmade.
  { unfold made, dir, io_wrap, perform. destruct (String.eqb _ _); [by rewrite app_nil_r|done]. }
  destruct made as [[[]|e|m] h0]; simpl in Hmade; subst h0.
  - destruct (backup_types _ _ _ _ _ _ _ _ _) as [[r1 h1]|] eqn:Hb; [|done].
    destruct (backup_types_dry _ _ _ _ _ _ _ _ _ _ _ Hdry Hb) as (msgs & -> & Hmsgs).
    assert (Forall is_message (backup_banner c (resolveWorkloadGVRs c))) as Hban.
    { unfold backup_banner. destruct (c_Verbose c); by repeat constructor. }
    destruct r1; intros [= _ <-]; eexists; rewrite <-!app_assoc; (split; [done|]).
    + apply Forall_app; split; [done|]. apply Forall_app; split; [done|]. by repeat constructor.
    + by apply Forall_app.
    + by apply Forall_app.
  - intros [= _ <-]. exists []. by rewrite app_nil_r.
  - intros [= _ <-]. exists []. by rewrite app_nil_r.
Qed.

(** The exit status of a backup does not tell whether anything was backed up:
    once the output directory exists, the command succeeds however its
    pipelines end; and a negative number of workers, which passes validation,
    panics at the first workload type. *)
Theorem Run_ignores_failures env yaml `{JQ : GoJq} go_type ListResources registry NumCPU c0 runs h :
  (∀ h op, env h op = None) → 0 < NumCPU → let c := Complete NumCPU c0 in
  (0 <= c_MaxWorkers c0 → ∀ r h', Run env yaml go_type ListResources registry c runs h = Some (r, h') → r = Ok ()) ∧
  (c_MaxWorkers c0 < 0 → resolveWorkloadGVRs c ≠ [] → runs ≠ [] → Validate c = Validate c0 ∧
     ∃ h', Run env yaml go_type ListResources registry c runs h = Some (Panic "makechan: size out of range", h')).
Proof.
  intros Henv Hcpu c. assert (Hmax : c_MaxWorkers c = if c_MaxWorkers c0 =? 0 then Z.min maxWorkersLimit NumCPU else c_MaxWorkers c0).
  { unfold c, Complete. simpl. destruct (_ =? 0); [|done]. destruct (Z.ltb_spec maxWorkersLimit NumCPU); lia. }
  unfold Run.
  set (made := if String.eqb (c_OutputDir c) "" then _ else _).
  assert (made.1 = Ok ()) as Hmade.
  { unfold made, io_wrap, perform. destruct (String.eqb _ _); [done|]. by rewrite Henv. }
  destruct made as [made h0]. simpl in Hmade. subst made. split.
  - intros Hn r h'. destruct (backup_types _ _ _ _ _ _ _ _ _) as [[r1 h1]|] eqn:Hb; [|done].
    apply backup_types_ok in Hb as ->; [by intros [= <- _]|]. rewrite Hmax.
    destruct (Z.eqb_spec (c_MaxWorkers c0) 0); unfold maxWorkersLimit; lia.
  - intros Hn Hg Hruns. split; [done|]. destruct (resolveWorkloadGVRs c) as [|g gvrs]; [done|].
    destruct runs as [|[ctx schedule] runs]; [done|]. cbn [backup_types]. unfold runPipeline. rewrite Hmax.
    rewrite (proj2 (Z.eqb_neq _ _)) by lia. rewrite (proj2 (Z.ltb_lt _ _)) by done. by eexists.
Qed.

(** The exclusion documented in the command's help leaves both default types. *)
Example documented_exclude_has_no_effect :
  let c := Complete 4 (mkCommand "/backup" [] [] ["datasciencepipelinesapplications.opendatahub.io"] 0 true false false
                         DefaultTimeout) in
  map group_resource (resolveWorkloadGVRs c) = DefaultWorkloadTypes.
Proof. vm_compute. reflexivity. Qed.

Lemma backup_paths_injective_witness :
  let c := BackupRun.command false in
  getResourcePath c BackupRun.g BackupRun.nb ≠ getResourcePath c BackupRun.g BackupRun.cm.
Proof.
  intros c Heq. assert (∀ o, o = BackupRun.nb ∨ o = BackupRun.cm →
    Forall entry_name [namespace_dir o; file_name BackupRun.g o]) as Hentry.
  { intros o [->| ->]; repeat constructor; vm_compute; done. }
  destruct (backup_paths_injective c BackupRun.g BackupRun.g BackupRun.nb BackupRun.cm) as (_ & _ & H);
    [done|apply Hentry; by left|apply Hentry; by right|by left|exact Heq|].
  vm_compute in H. discriminate H.
Defined.

Lemma dry_run_predicts_writes_witness :
  io_files (write_item BackupRun.no_failure BackupRun.yaml BackupRun.go_type (with_dry_run false (BackupRun.command true))
    BackupRun.item []) =
  ["/tmp/backup/team/notebooks.kubeflow.org-nb.yaml"; "/tmp/backup/team/configmaps-settings.yaml"].
Proof.
  destruct (dry_run_predicts_writes BackupRun.no_failure BackupRun.yaml BackupRun.go_type (BackupRun.command true)
    BackupRun.item []) as [H _].
  - intros h op. reflexivity.
  - discriminate.
  - repeat constructor; eexists _, _; (split; [reflexivity|]; split; [reflexivity|]; split; [reflexivity|];
      split; [reflexivity|]; split; repeat split; vm_compute; done).
  - etrans; [exact H|]. vm_compute. reflexivity.
Defined.

Lemma dry_run_writes_nothing_witness :
  ∃ h', BackupRun.run (BackupRun.command true) = Some (Ok (), h') ∧
    ∃ msgs, h' = OpMkdirAll "/tmp/backup" :: msgs ∧ Forall is_message msgs.
Proof.
  assert (∃ h', BackupRun.run (BackupRun.command true) = Some (Ok (), h')) as [h' Hrun]
    by (eexists; vm_compute; reflexivity).
  exists h'. split; [exact Hrun|].
  exact (dry_run_writes_nothing _ _ _ _ _ (BackupRun.command true) _ [] _ _ eq_refl Hrun).
Defined.

Lemma Run_ignores_failures_witness :
  let c := mkCommand "/tmp/backup" [] [] [] (-1) true false false DefaultTimeout in
  ∃ h', Run BackupRun.no_failure BackupRun.yaml BackupRun.go_type BackupRun.list_one [] (Complete 4 c)
          [(None, [])] [] = Some (Panic "makechan: size out of range", h').
Proof.
  intros c.
  destruct (Run_ignores_failures BackupRun.no_failure BackupRun.yaml BackupRun.go_type BackupRun.list_one [] 4 c
    [(None, [])] []) as [_ H]; [by intros|lia|].
  destruct H as [_ H]; [done|done|done|exact H].
Defined.
End BackupSpec.
