(* ===== verification/WorkloadHelpers.v ===== *)
(** * WorkloadHelpers: pkg/util/kube annotations.go and collections.go,
    validate/accelerator.go and the typed list of pkg/util/client

    What the workload checks share on top of the builders of Validate: reading
    fields and annotations of objects, typed lists with a filter, sets of names,
    and the references to AcceleratorProfiles. *)
From S2P Require Import Prelude GoStrings Errors Client Version Result Check Validate DepsCheck BackupDeps.
Open Scope string_scope.
Open Scope Z_scope.
Open Scope go_scope.

(** ** Reading objects *)
(** [is.GetAnnotations()]: nil when absent or when some value is no string. *)
Definition string_value (kv : string * json) : option (string * string) :=
  match kv.2 with JStr s => Some (kv.1, s) | _ => None end.
Definition GetAnnotations (obj : json) : gmap string string :=
  match nested ["metadata"; "annotations"] obj with
  | Some (JObj fields) =>
      if bool_decide (length (omap string_value fields) = length fields)
      then list_to_map (omap string_value fields) else ∅
  | _ => ∅
  end.
(** Indexing a string map: the empty string when the key is absent. *)
Definition at_key (m : gmap string string) (k : string) : string := default "" (m !! k).

(** [m[k].(string)] and [m[k].([]any)] with the zero value on failure. *)
Definition str_at (k : string) (v : json) : string :=
  match nested [k] v with Some (JStr s) => s | _ => "" end.
Definition arr_at (k : string) (v : json) : list json :=
  match nested [k] v with Some (JArr l) => l | _ => [] end.
Definition is_object (v : json) : bool := match v with JObj _ => true | _ => false end.

Definition as_array (v : json) : res go_error (list json) :=
  match v with
  | JArr l => Ok l
  | _ => Err (EString "json: cannot unmarshal value into Go value of type []interface {}")
  end.
Definition jq_Query_array `{GoJq} : json → string → res go_error (list json) := jq_Query [] "[]interface {}" as_array.

(** ** Objects *)
#[export] Instance json_NamespacedNamer : NamespacedNamer json := λ obj, mkNN (GetNamespace obj) (GetName obj).
#[export] Instance meta_NamespacedNamer : NamespacedNamer PartialObjectMetadata :=
  λ obj, mkNN (po_Namespace obj) (po_Name obj).

#[export] Instance NamespacedName_eq_dec : EqDecision NamespacedName.
Proof. solve_decision. Defined.
#[export] Instance NamespacedName_countable : Countable NamespacedName.
Proof. apply (inj_countable' (λ n, (nn_Namespace n, nn_Name n)) (λ p, mkNN p.1 p.2)). by intros []. Defined.

(** ** annotations.go, over the annotations of an object; a nil map is empty *)
Definition GetAnnotation (annotations : gmap string string) (key : string) : string := at_key annotations key.
Definition HasAnnotation (annotations : gmap string string) (key value : string) : bool :=
  bool_decide (annotations !! key = Some value).
Definition ContainsAnnotation (annotations : gmap string string) (key : string) : bool :=
  match annotations !! key with Some _ => true | None => false end.
Definition AnnotationManaged := "opendatahub.io/managed".
Definition IsManaged (annotations : gmap string string) : bool :=
  negb (String.eqb (at_key annotations AnnotationManaged) "false").

(** ** Lists *)
Definition AcceleratorProfile : ResourceType :=
  mkResourceType "dashboard.opendatahub.io" "v1" "AcceleratorProfile" "acceleratorprofiles".
Definition AnnotationAcceleratorName := "opendatahub.io/accelerator-name".
Definition AnnotationAcceleratorNamespace := "opendatahub.io/accelerator-profile-namespace".
Definition ReasonVersionCompatible := "VersionCompatible".
Definition ReasonWorkloadsImpacted := "WorkloadsImpacted".
Definition ReasonMigrationPending := "MigrationPending".
Definition ReasonNoMigrationRequired := "NoMigrationRequired".
Definition ReasonConfigurationValid := "ConfigurationValid".
Definition ReasonConfigurationInvalid := "ConfigurationInvalid".

Definition ToNamespacedNames {T} `{NamespacedNamer T} (items : list T) : list NamespacedName := map ToNamespacedName items.

Section Helpers.
Context `{SV : Semver, AE : ApiErrors, KE : K8sErrors, SRV : ApiServer, JQ : GoJq}.

(** [client.List]: [what] is the kind, with the suffix the metadata variant
    adds to its error. *)
Definition client_List {T} (rt : ResourceType) (what : string) (listed : res go_error (list T))
    (filter : option (T → res go_error bool)) : res go_error (list T) :=
  match res_map_err (errorf_w ("listing " +:+ what)) listed with
  | Panic s => Panic s
  | Err err => if IsResourceTypeNotFound err then Ok [] else Err err
  | Ok items =>
      match filter with None => Ok items | Some f => filter_items (rt_Kind rt) f items end
  end.

(** The reader: [List] and [ListMetadata] with options. *)
Context (ListWith : ResourceType → ListOptions → res go_error (list json)).
Context (ListMetadataWith : ResourceType → ListOptions → res go_error (list PartialObjectMetadata)).
Definition ListPlain (rt : ResourceType) : res go_error (list json) := ListWith rt defaultListOptions.
Definition ListMetadata (rt : ResourceType) : res go_error (list PartialObjectMetadata) :=
  ListMetadataWith rt defaultListOptions.
Definition in_namespace (ns : string) : ListOptions :=
  {| lo_Namespace := ns; lo_LabelSelector := ""; lo_FieldSelector := ""; lo_Limit := 0 |}.

Definition BuildResourceNameSet (rt : ResourceType) : res go_error (gset NamespacedName) :=
  match ListMetadata rt with
  | Panic s => Panic s
  | Err err => if IsResourceTypeNotFound err then Ok ∅ else Err (errorf_w ("listing " +:+ rt_Kind rt) err)
  | Ok items => Ok (list_to_set (ToNamespacedNames items))
  end.

(** ** accelerator.go *)
(** The profile a workload refers to, if any. *)
Definition accelerator_ref (appNS : string) (w : PartialObjectMetadata) : option NamespacedName :=
  let name := GetAnnotation (po_Annotations w) AnnotationAcceleratorName in
  let ns := GetAnnotation (po_Annotations w) AnnotationAcceleratorNamespace in
  if String.eqb name "" then None else Some (mkNN (if String.eqb ns "" then appNS else ns) name).
Definition accelerator_step (appNS : string) (profileCache : gset NamespacedName)
    (acc : list NamespacedName * Z) (w : PartialObjectMetadata) : list NamespacedName * Z :=
  let '(impacted, missingCount) := acc in
  match accelerator_ref appNS w with
  | None => acc
  | Some profileRef =>
      ((impacted ++ [ToNamespacedName w])%list,
       if bool_decide (profileRef ∈ profileCache) then missingCount else missingCount + 1)
  end.
Definition FilterWorkloadsWithAcceleratorRefs (items : list PartialObjectMetadata)
    : res go_error (list NamespacedName * Z) :=
  try! appNS := GetApplicationsNamespace ListPlain else errorf_w "getting applications namespace" in
  try! profileCache := BuildResourceNameSet AcceleratorProfile else errorf_w "building AcceleratorProfile cache" in
  Ok (foldl (accelerator_step appNS profileCache) ([], 0) items).

Definition FindWorkloadsWithAcceleratorRefs (workloadType : ResourceType) : res go_error (list NamespacedName * Z) :=
  match ListMetadata workloadType with
  | Panic s => Panic s
  | Err err => if IsResourceTypeNotFound err then Ok ([], 0)
               else Err (errorf_w ("listing " +:+ rt_Kind workloadType) err)
  | Ok workloads => FilterWorkloadsWithAcceleratorRefs workloads
  end.

Definition accelerator_missing (appNS : string) (cache : gset NamespacedName) (w : PartialObjectMetadata) : bool :=
  match accelerator_ref appNS w with Some r => negb (bool_decide (r ∈ cache)) | None => false end.
Definition has_accelerator (w : PartialObjectMetadata) : bool :=
  negb (String.eqb (GetAnnotation (po_Annotations w) AnnotationAcceleratorName) "").

Lemma FilterAccelerator_spec items appNS cache :
  GetApplicationsNamespace ListPlain = Ok appNS → BuildResourceNameSet AcceleratorProfile = Ok cache →
  FilterWorkloadsWithAcceleratorRefs items =
    Ok (ToNamespacedNames (List.filter has_accelerator items),
        Z.of_nat (length (List.filter (accelerator_missing appNS cache) items))).
Proof.
  intros Hns Hc. unfold FilterWorkloadsWithAcceleratorRefs. rewrite Hns. cbn [res_bind res_map_err].
  rewrite Hc. cbn [res_bind res_map_err]. f_equal.
  assert (∀ l n, foldl (accelerator_step appNS cache) (l, n) items =
    ((l ++ ToNamespacedNames (List.filter has_accelerator items))%list,
     n + Z.of_nat (length (List.filter (accelerator_missing appNS cache) items)))) as H; [|by rewrite H].
  induction items as [|w items IH]; intros l n; [simpl; by rewrite app_nil_r, Z.add_0_r|].
  assert (accelerator_step appNS cache (l, n) w =
    ((l ++ if has_accelerator w then [ToNamespacedName w] else [])%list,
     n + if accelerator_missing appNS cache w then 1 else 0)) as Hstep.
  { unfold accelerator_step, accelerator_missing, has_accelerator, accelerator_ref.
    destruct (String.eqb _ ""); simpl; [by rewrite app_nil_r, Z.add_0_r|].
    case_bool_decide; simpl; by rewrite ?Z.add_0_r. }
  cbn [foldl List.filter]. rewrite Hstep, IH, <-app_assoc. f_equal; [by destruct (has_accelerator w)|].
  destruct (accelerator_missing appNS cache w); simpl length; lia.
Qed.
End Helpers.
