(* ===== verification/NotebookImpacted.v ===== *)
(** * NotebookImpacted: pkg/lint/checks/workloads/notebook impacted.go, utils.go

    The check that decides which workbenches an upgrade to 3.x breaks: every
    container image is correlated with the ImageStreams of the applications
    namespace by four strategies, classified, and the classes of the containers
    are aggregated per notebook, counted, and turned into one condition and the
    list of impacted objects.  Debug logging is not modelled. *)
From Stdlib Require Import Ascii.
From S2P Require Import Prelude GoStrings Errors Client Version Result Check Verbose Validate DepsCheck BackupDeps WorkloadHelpers.
Open Scope string_scope.
Open Scope Z_scope.
Open Scope go_scope.

(** ** Data *)
Definition nginxFixMinTag := "2025.2".
Definition nginxFixMinRHOAIVersion := "3.0".
Definition ootbLabel := "app.kubernetes.io/part-of=workbenches".
Definition ootbPlatformVersionAnnotation := "platform.opendatahub.io/version".
Definition ConditionTypeNotebooksCompatible := "NotebooksCompatible".
Definition AnnotationCheckImageStatus := "check.opendatahub.io/image-status".
Definition AnnotationCheckImageRef := "check.opendatahub.io/image-ref".
Definition AnnotationCheckReason := "check.opendatahub.io/reason".
Definition ImageStream : ResourceType := mkResourceType "image.openshift.io" "v1" "ImageStream" "imagestreams".
Definition ImageStreamTag : ResourceType :=
  mkResourceType "image.openshift.io" "v1" "ImageStreamTag" "imagestreamtags".

Inductive ImageStatus :=
| ImageStatusGood | ImageStatusPreUpgradeActionRequired | ImageStatusPostUpgradeActionRequired
| ImageStatusCustom | ImageStatusVerifyFailed.
#[export] Instance ImageStatus_eq_dec : EqDecision ImageStatus.
Proof. solve_decision. Defined.
Definition ImageStatus_string (s : ImageStatus) : string :=
  match s with
  | ImageStatusGood => "GOOD"
  | ImageStatusPreUpgradeActionRequired => "PRE_UPGRADE_ACTION_REQUIRED"
  | ImageStatusPostUpgradeActionRequired => "POST_UPGRADE_ACTION_REQUIRED"
  | ImageStatusCustom => "CUSTOM"
  | ImageStatusVerifyFailed => "VERIFY_FAILED"
  end.

Inductive NotebookType := NotebookTypeJupyter | NotebookTypeRStudio | NotebookTypeCodeServer | NotebookTypeUnknown.
Definition NotebookType_string (t : NotebookType) : string :=
  match t with
  | NotebookTypeJupyter => "jupyter" | NotebookTypeRStudio => "rstudio"
  | NotebookTypeCodeServer => "codeserver" | NotebookTypeUnknown => "unknown"
  end.

Record ootbImageStream := mkOotb { oi_Name : string; oi_Type : NotebookType; oi_DockerImageRepository : string }.

Record notebookAnalysis := mkNA {
  na_Namespace : string; na_Name : string; na_Status : ImageStatus; na_Reason : string; na_ImageRef : string }.

Record imageAnalysis := mkIA {
  ia_ContainerName : string; ia_ImageRef : string; ia_Status : ImageStatus; ia_Reason : string }.

Record imageRef := mkRef { ref_Name : string; ref_Tag : string; ref_SHA : string; ref_FullPath : string }.

Record ootbImageInput := mkInput { in_ImageStreamName : string; in_Tag : string; in_SHA : string; in_Type : NotebookType }.

Record imageLookupResult := mkLookup { lk_ImageStreamName : string; lk_Tag : string; lk_Found : bool }.
Definition lookup_none : imageLookupResult := mkLookup "" "" false.

(** A status and its reason, as [analyzeImage] returns them. *)
Definition verdict (s : ImageStatus) (reason : string) : imageAnalysis := mkIA "" "" s reason.

(** ** utils.go *)
Record NotebookContainer := mkNC { nc_Name : string; nc_Image : string }.

Definition IsInfrastructureContainer (containerName image : string) : bool :=
  String.eqb containerName "oauth-proxy" && str_contains "ose-oauth-proxy-rhel9" image.

Definition workload_container (raw : json) : option NotebookContainer :=
  if negb (is_object raw) then None
  else
    let name := str_at "name" raw in
    let image := str_at "image" raw in
    if IsInfrastructureContainer name image then None else Some (mkNC name image).

Definition ExtractWorkloadContainers `{GoJq} (nb : json) : res go_error (list NotebookContainer) :=
  try! rawContainers := jq_Query_array nb ".spec.template.spec.containers"
    else errorf_w "querying containers" in
  Ok (omap workload_container rawContainers).

(** ** Image references and version tags *)
Definition parseImageReference (image : string) : imageRef :=
  let '(pathWithoutDigest, sha) :=
    match cut_last "@"%char image with Some (l, r) => (l, r) | None => (image, "") end in
  let '(pathForName, tag) :=
    match cut_last ":"%char pathWithoutDigest with
    | Some (l, afterColon) =>
        if contains_byte slash afterColon then (pathWithoutDigest, "") else (l, afterColon)
    | None => (pathWithoutDigest, "")
    end in
  let name := match cut_last slash pathForName with Some (_, r) => r | None => pathForName end in
  mkRef name tag sha pathForName.

(** [versionTagRegex], [^(\d{4})\.(\d+)$]: the two groups of a match. *)
Definition versionTag_submatch (tag : string) : option (string * string) :=
  match cut_first dot tag with
  | Some (year, minor) =>
      if (String.length year =? 4)%nat && all_digits year && digits_plus minor then Some (year, minor) else None
  | None => None
  end.
Definition isValidVersionTag (tag : string) : bool :=
  match versionTag_submatch tag with Some _ => true | None => false end.

Definition isTagGTE (tag1 tag2 : string) : bool :=
  match versionTag_submatch tag1, versionTag_submatch tag2 with
  | Some (y1, m1), Some (y2, m2) =>
      let year1 := (Atoi y1).1 in
      let minor1 := (Atoi m1).1 in
      let year2 := (Atoi y2).1 in
      let minor2 := (Atoi m2).1 in
      if year2 <? year1 then true else (year1 =? year2) && (minor2 <=? minor1)
  | _, _ => false
  end.

(** [rhoaiVersionRegex], [^rhoai-(\d+)\.(\d+)(?:\.\d+)?$]. *)
Definition rhoaiVersion_submatch (buildRef : string) : option (string * string) :=
  match cut_prefix "rhoai-" buildRef with
  | Some rest =>
      match split_on dot rest with
      | [major; minor] => if digits_plus major && digits_plus minor then Some (major, minor) else None
      | [major; minor; patch] =>
          if digits_plus major && digits_plus minor && digits_plus patch then Some (major, minor) else None
      | _ => None
      end
  | None => None
  end.

Definition mustParseVersionParts (v : string) : res string (Z * Z) :=
  match cut_first dot v with
  | None => Panic ("invalid version format: " +:+ v)
  | Some (majorStr, minorStr) =>
      match Atoi majorStr, Atoi minorStr with
      | (_, Some err), _ => Panic ("invalid major version in " +:+ v +:+ ": " +:+ atoi_message majorStr err)
      | _, (_, Some err) => Panic ("invalid minor version in " +:+ v +:+ ": " +:+ atoi_message minorStr err)
      | (major, None), (minor, None) => Ok (major, minor)
      end
  end.
(** The package-level variables, computed at load time. *)
Definition nginxFixMin : Z * Z :=
  match mustParseVersionParts nginxFixMinRHOAIVersion with Ok p => p | _ => (0, 0) end.

Definition isCompliantBuildRef (buildRef : string) : bool :=
  match rhoaiVersion_submatch buildRef with
  | None => false
  | Some (ma, mi) =>
      let major := (Atoi ma).1 in
      let minor := (Atoi mi).1 in
      if nginxFixMin.1 <? major then true else (major =? nginxFixMin.1) && (nginxFixMin.2 <=? minor)
  end.

(** ** The check *)
Section Check.
Context `{SV : Semver, AE : ApiErrors, KE : K8sErrors, SRV : ApiServer, JQ : GoJq, CL : Clock, MO : MapOrder}.
(** The lister of the client, with options. *)
Context (ListWith : ResourceType → ListOptions → res go_error (list json)).
Notation ListPlain := (ListPlain ListWith).

(** *** Discovery of the ImageStreams the operator manages *)
Definition annotation_query (annotationKey name : string) : string :=
  ".spec.tags[]? | .annotations[" +:+ quote annotationKey +:+ "] // " +:+ dquote +:+ dquote +:+
  " | try fromjson | .[]? | select(.name | ascii_downcase == " +:+ quote (to_lower name) +:+ ") | .name".

Definition hasAnnotationWithName (stream : json) (annotationKey name : string) : bool :=
  match jq_Query_string stream (annotation_query annotationKey name) with
  | Ok matchedName => equal_fold matchedName name
  | _ => false
  end.

Definition determineNotebookType (stream : json) : NotebookType :=
  if hasAnnotationWithName stream "opendatahub.io/notebook-python-dependencies" "jupyterlab" then NotebookTypeJupyter
  else if hasAnnotationWithName stream "opendatahub.io/notebook-software" "code-server" ||
          hasAnnotationWithName stream "opendatahub.io/notebook-python-dependencies" "code-server"
  then NotebookTypeCodeServer
  else if hasAnnotationWithName stream "opendatahub.io/notebook-software" "R" then NotebookTypeRStudio
  else NotebookTypeUnknown.

(** A query whose error is dropped. *)
Definition string_or_empty (r : res go_error string) : string := match r with Ok s => s | _ => "" end.

(** The body of the loop over the listed ImageStreams. *)
Definition managed (stream : json) : bool :=
  negb (has_prefix "runtime-" (GetName stream)) &&
  negb (String.eqb (at_key (GetAnnotations stream) ootbPlatformVersionAnnotation) "").
Definition ootb_of (stream : json) : ootbImageStream :=
  mkOotb (GetName stream) (determineNotebookType stream)
    (string_or_empty (jq_Query_string stream ".status.dockerImageRepository")).
Definition add_ootb (ootbImages : gmap string ootbImageStream) (stream : json) : gmap string ootbImageStream :=
  if managed stream then <[GetName stream := ootb_of stream]> ootbImages else ootbImages.

Definition discoverOOTBImageStreams (appNS : string) : res go_error (gmap string ootbImageStream * list json) :=
  match ListWith ImageStream {| lo_Namespace := appNS; lo_LabelSelector := ootbLabel;
                                lo_FieldSelector := ""; lo_Limit := 0 |} with
  | Panic s => Panic s
  | Err err => if IsResourceTypeNotFound err then Ok (∅, []) else Err (errorf_w "listing ImageStreams" err)
  | Ok imageStreams => Ok (foldl add_ootb ∅ imageStreams, imageStreams)
  end.

(** *** Lookups *)
Definition status_tags (stream : json) : list json :=
  match jq_Query_array stream ".status.tags" with Ok l => l | _ => [] end.
Definition spec_tags (stream : json) : list json :=
  match jq_Query_array stream ".spec.tags" with Ok l => l | _ => [] end.

(** Some item of the tag has [value] under [key]. *)
Definition tag_has (key value : string) (tagData : json) : bool :=
  is_object tagData &&
  existsb (λ item, is_object item && String.eqb (str_at key item) value) (arr_at "items" tagData).

Definition find_by_item (key value : string) (imageStreams : list json) : imageLookupResult :=
  if String.eqb value "" then lookup_none
  else default lookup_none
    (find_map (λ stream, find_map (λ tagData,
       if tag_has key value tagData then Some (mkLookup (GetName stream) (str_at "tag" tagData) true) else None)
       (status_tags stream)) imageStreams).

Definition findImageStreamByDockerImageRef (imageRef : string) (imageStreams : list json) : imageLookupResult :=
  find_by_item "dockerImageReference" imageRef imageStreams.
Definition findImageStreamForSHA (sha : string) (imageStreams : list json) : imageLookupResult :=
  find_by_item "image" sha imageStreams.

(** The loop over the map of ImageStreams stops at the first that matches. *)
Definition findImageStreamByDockerRepo (imagePath : string) (ootbImages : gmap string ootbImageStream)
    : option ootbImageStream :=
  if String.eqb imagePath "" then None
  else snd <$> find (λ kv, negb (String.eqb (oi_DockerImageRepository kv.2) "") &&
                           String.eqb (oi_DockerImageRepository kv.2) imagePath) (map_range ootbImages).

Definition from_image (imageRef : string) (tagData : json) : bool :=
  is_object tagData &&
  match nested ["from"] tagData with
  | Some (JObj from) => String.eqb (str_at "kind" (JObj from)) "DockerImage" && String.eqb (str_at "name" (JObj from)) imageRef
  | _ => false
  end.
Definition findImageStreamBySpecRef (imageRef : string) (imageStreams : list json) : imageLookupResult :=
  if String.eqb imageRef "" then lookup_none
  else default lookup_none
    (find_map (λ stream, find_map (λ tagData,
       if from_image imageRef tagData then Some (mkLookup (GetName stream) (str_at "name" tagData) true) else None)
       (spec_tags stream)) imageStreams).

Definition findTagForSHA (sha imageName : string) (imageStreams : list json) : string :=
  if String.eqb sha "" then ""
  else default "" (find_map (λ stream,
    if negb (String.eqb (GetName stream) imageName) then None
    else find_map (λ tagData, if tag_has "image" sha tagData then Some (str_at "tag" tagData) else None)
           (status_tags stream)) imageStreams).

Definition compliant_tag (tag : string) : bool := isValidVersionTag tag && isTagGTE tag nginxFixMinTag.
Definition findCompliantTagForSHA (sha : string) (imageStreams : list json) : string :=
  if String.eqb sha "" then ""
  else default "" (find_map (λ stream, find_map (λ tagData,
    if is_object tagData && compliant_tag (str_at "tag" tagData) && tag_has "image" sha tagData
    then Some (GetName stream +:+ ":" +:+ str_at "tag" tagData) else None)
    (status_tags stream)) imageStreams).

(** *** Classification of an image *)
Definition extractBuildReference (ist : json) : string :=
  match jq_Query_array ist ".image.dockerImageMetadata.Config.Env" with
  | Ok envVars => default "" (find_map (λ envVar, match envVar with
      | JStr envStr => cut_prefix "OPENSHIFT_BUILD_REFERENCE=" envStr | _ => None end) envVars)
  | _ => ""
  end.

Definition rstudio_verdict (imageName imageSHA : string) (ist : json) : imageAnalysis :=
  let buildRef := extractBuildReference ist in
  if String.eqb buildRef "" then
    verdict ImageStatusVerifyFailed ("RStudio image " +:+ imageName +:+ " has no OPENSHIFT_BUILD_REFERENCE")
  else
    let currentSHA := string_or_empty (jq_Query_string ist ".image.metadata.name") in
    if negb (String.eqb imageSHA "") && negb (String.eqb currentSHA "") && negb (String.eqb imageSHA currentSHA) then
      verdict ImageStatusPostUpgradeActionRequired
        "RStudio image uses stale build (SHA mismatch), rebuild required after upgrade"
    else if isCompliantBuildRef buildRef then
      verdict ImageStatusGood ("RStudio image built from " +:+ buildRef +:+ " (>= rhoai-" +:+
        nginxFixMinRHOAIVersion +:+ ", has nginx fix)")
    else
      verdict ImageStatusPostUpgradeActionRequired ("RStudio image built from " +:+ buildRef +:+ " (< rhoai-" +:+
        nginxFixMinRHOAIVersion +:+ ", lacks nginx fix, rebuild after upgrade to 3.x)").

(** The nil object a forbidden request yields answers every query with null. *)
Definition analyzeRStudioImageCompat (imageName imageTag imageSHA appNS : string) : res go_error imageAnalysis :=
  let tag := if String.eqb imageTag "" then "latest" else imageTag in
  let istName := imageName +:+ ":" +:+ tag in
  match Get ImageStreamTag istName appNS with
  | Panic s => Panic s
  | Err err => Ok (verdict ImageStatusVerifyFailed
                     ("Could not fetch ImageStreamTag " +:+ istName +:+ ": " +:+ error_string err))
  | Ok ist => Ok (rstudio_verdict imageName imageSHA (default JNull ist))
  end.

Definition analyzeTagBasedImageCompat (imageName imageTag imageSHA : string) (nbType : NotebookType)
    (imageStreamData : list json) : imageAnalysis :=
  let t := NotebookType_string nbType in
  let tag := if String.eqb imageTag "" then findTagForSHA imageSHA imageName imageStreamData else imageTag in
  if isValidVersionTag tag then
    if isTagGTE tag nginxFixMinTag then
      verdict ImageStatusGood (t +:+ " image with tag " +:+ tag +:+ " (>= " +:+ nginxFixMinTag +:+ ", has nginx fix)")
    else
      let compliantTag := findCompliantTagForSHA imageSHA imageStreamData in
      if negb (String.eqb compliantTag "") then
        verdict ImageStatusGood (t +:+ " image " +:+ imageName +:+ ":" +:+ tag +:+ " has same SHA as compliant " +:+ compliantTag)
      else
        verdict ImageStatusPreUpgradeActionRequired
          (t +:+ " image with tag " +:+ tag +:+ " (< " +:+ nginxFixMinTag +:+ ", lacks nginx fix)")
  else
    let failed := verdict ImageStatusVerifyFailed
      ("Could not determine compatibility for " +:+ t +:+ " image " +:+ imageName) in
    if negb (String.eqb imageSHA "") then
      let compliantTag := findCompliantTagForSHA imageSHA imageStreamData in
      if negb (String.eqb compliantTag "") then
        verdict ImageStatusGood (t +:+ " image has same SHA as compliant " +:+ compliantTag)
      else failed
    else failed.

Definition analyzeOOTBImage (input : ootbImageInput) (imageStreamData : list json) (appNS : string)
    : res go_error imageAnalysis :=
  match in_Type input with
  | NotebookTypeJupyter => Ok (verdict ImageStatusGood "Jupyter-based OOTB image (nginx compatible)")
  | NotebookTypeRStudio => analyzeRStudioImageCompat (in_ImageStreamName input) (in_Tag input) (in_SHA input) appNS
  | t => Ok (analyzeTagBasedImageCompat (in_ImageStreamName input) (in_Tag input) (in_SHA input) t imageStreamData)
  end.

(** A lookup counts only when it leads to an OOTB ImageStream. *)
Definition ootb_hit (ootbImages : gmap string ootbImageStream) (sha : string) (lookup : imageLookupResult)
    : option ootbImageInput :=
  if lk_Found lookup then
    match ootbImages !! lk_ImageStreamName lookup with
    | Some ootbIS => Some (mkInput (lk_ImageStreamName lookup) (lk_Tag lookup) sha (oi_Type ootbIS))
    | None => None
    end
  else None.

(** The four strategies, in order; the first hit is analysed. *)
Definition correlate (image : string) (ootbImages : gmap string ootbImageStream) (imageStreamData : list json)
    : option ootbImageInput :=
  let ref := parseImageReference image in
  match ootb_hit ootbImages (ref_SHA ref) (findImageStreamByDockerImageRef image imageStreamData) with
  | Some input => Some input
  | None =>
  match (if String.eqb (ref_SHA ref) "" then None
         else ootb_hit ootbImages (ref_SHA ref) (findImageStreamForSHA (ref_SHA ref) imageStreamData)) with
  | Some input => Some input
  | None =>
  match findImageStreamByDockerRepo (ref_FullPath ref) ootbImages with
  | Some ootbIS => Some (mkInput (oi_Name ootbIS) (ref_Tag ref) (ref_SHA ref) (oi_Type ootbIS))
  | None => ootb_hit ootbImages (ref_SHA ref) (findImageStreamBySpecRef image imageStreamData)
  end end end.

Definition analyzeImage (image : string) (ootbImages : gmap string ootbImageStream) (imageStreamData : list json)
    (appNS : string) : res go_error imageAnalysis :=
  match correlate image ootbImages imageStreamData with
  | Some input => analyzeOOTBImage input imageStreamData appNS
  | None => Ok (verdict ImageStatusCustom
                  ("Image '" +:+ ref_Name (parseImageReference image) +:+ "' is not a recognized OOTB notebook image"))
  end.

(** *** Aggregation over the containers of a notebook *)
Definition reason_of (a : imageAnalysis) : string :=
  if negb (String.eqb (ia_ContainerName a) "") then ia_ContainerName a +:+ ": " +:+ ia_Reason a else ia_Reason a.
Definition collectReasonsForStatus (analyses : list imageAnalysis) (status : ImageStatus) : list string * string :=
  foldl (λ acc a,
    let '(reasons, imageRef) := acc in
    if negb (bool_decide (ia_Status a = status)) then (reasons, imageRef)
    else ((reasons ++ [reason_of a])%list, if String.eqb imageRef "" then ia_ImageRef a else imageRef))
    ([], "") analyses.

Definition findFirstWithStatus (analyses : list imageAnalysis) (status : ImageStatus) : option imageAnalysis :=
  find (λ a, bool_decide (ia_Status a = status)) analyses.

Definition aggregateImageAnalyses (ns name : string) (analyses : list imageAnalysis) : notebookAnalysis :=
  match analyses with
  | [] => mkNA ns name ImageStatusVerifyFailed "No container images found" ""
  | first :: _ =>
      match collectReasonsForStatus analyses ImageStatusPreUpgradeActionRequired with
      | ((_ :: _) as reasons, imageRef) =>
          mkNA ns name ImageStatusPreUpgradeActionRequired (join "; " reasons) imageRef
      | _ =>
      match collectReasonsForStatus analyses ImageStatusPostUpgradeActionRequired with
      | ((_ :: _) as reasons, imageRef) =>
          mkNA ns name ImageStatusPostUpgradeActionRequired (join "; " reasons) imageRef
      | _ =>
      match findFirstWithStatus analyses ImageStatusVerifyFailed with
      | Some a => mkNA ns name ImageStatusVerifyFailed (ia_Reason a) (ia_ImageRef a)
      | None =>
      match findFirstWithStatus analyses ImageStatusCustom with
      | Some a => mkNA ns name ImageStatusCustom (ia_Reason a) (ia_ImageRef a)
      | None => mkNA ns name ImageStatusGood "All container images are compatible" (ia_ImageRef first)
      end end end end
  end.

(** [for _, x := range l { ys = append(ys, f(x)) }] with a callee that can panic. *)
Fixpoint traverse {A B} (f : A → res go_error B) (l : list A) : res go_error (list B) :=
  match l with
  | [] => Ok []
  | x :: l' => let! y := f x in let! ys := traverse f l' in Ok (y :: ys)
  end.

Definition analyze_container (ootbImages : gmap string ootbImageStream) (imageStreamData : list json) (appNS : string)
    (container : NotebookContainer) : res go_error imageAnalysis :=
  if String.eqb (nc_Image container) "" then
    Ok (mkIA (nc_Name container) "" ImageStatusVerifyFailed "Container has no image specified")
  else
    let! analysis := analyzeImage (nc_Image container) ootbImages imageStreamData appNS in
    Ok (mkIA (nc_Name container) (nc_Image container) (ia_Status analysis) (ia_Reason analysis)).

Definition analyzeNotebook (ootbImages : gmap string ootbImageStream) (imageStreamData : list json) (appNS : string)
    (nb : json) : res go_error notebookAnalysis :=
  let ns := GetNamespace nb in
  let name := GetName nb in
  match ExtractWorkloadContainers nb with
  | Ok ((_ :: _) as containers) =>
      let! imageAnalyses := traverse (analyze_container ootbImages imageStreamData appNS) containers in
      Ok (aggregateImageAnalyses ns name imageAnalyses)
  | Panic s => Panic s
  | _ => Ok (mkNA ns name ImageStatusVerifyFailed "Could not extract containers from notebook spec" "")
  end.

(** *** Counting, the condition and the impacted objects *)
Record statusCounter := mkCounter { sc_count : Z; sc_images : gset string }.
Definition newStatusCounter : statusCounter := mkCounter 0 ∅.
Definition counter_add (sc : statusCounter) (imageRef : string) : statusCounter :=
  mkCounter (sc_count sc + 1) (if negb (String.eqb imageRef "") then {[imageRef]} ∪ sc_images sc else sc_images sc).

Definition all_statuses : list ImageStatus :=
  [ImageStatusGood; ImageStatusCustom; ImageStatusPreUpgradeActionRequired;
   ImageStatusPostUpgradeActionRequired; ImageStatusVerifyFailed].
Definition count_analysis (counters : gmap string statusCounter) (a : notebookAnalysis) : gmap string statusCounter :=
  let key := ImageStatus_string (na_Status a) in
  match counters !! key with
  | Some sc => <[key := counter_add sc (na_ImageRef a)]> counters
  | None => counters
  end.
Definition countByStatus (analyses : list notebookAnalysis) : gmap string statusCounter :=
  foldl count_analysis (list_to_map (map (λ s, (ImageStatus_string s, newStatusCounter)) all_statuses)) analyses.
(** [counters[s]] of a key that is always present. *)
Definition counter (counters : gmap string statusCounter) (s : ImageStatus) : statusCounter :=
  default newStatusCounter (counters !! ImageStatus_string s).

Definition images_count (sc : statusCounter) : Z := Z.of_nat (size (sc_images sc)).
Definition all_images (analyses : list notebookAnalysis) : gset string :=
  foldl (λ s a, if negb (String.eqb (na_ImageRef a) "") then {[na_ImageRef a]} ∪ s else s) ∅ analyses.

Definition breakdown (analyses : list notebookAnalysis) (targetVersionLabel : string) : string :=
  let counters := countByStatus analyses in
  let line (s : ImageStatus) kind note :=
    let sc := counter counters s in
    "  - " +:+ itoa (sc_count sc) +:+ " " +:+ kind +:+ " (" +:+ itoa (images_count sc) +:+ " images, " +:+ note +:+ ")" in
  join (String (ascii_of_nat 10) "")
    ["Found " +:+ itoa (Z.of_nat (length analyses)) +:+ " Notebook(s) using " +:+
       itoa (Z.of_nat (size (all_images analyses))) +:+ " unique images:";
     line ImageStatusGood "compatible" ("OOTB ready for " +:+ targetVersionLabel);
     line ImageStatusCustom "custom" "user verification needed";
     line ImageStatusPreUpgradeActionRequired "incompatible" "update recommended before upgrade";
     line ImageStatusPostUpgradeActionRequired "incompatible" "must rebuild after upgrade to 3.x";
     line ImageStatusVerifyFailed "unverified" "could not determine status"].

Definition CheckRemediation : string :=
  "Update workbenches with incompatible images to use 2025.2+ versions before upgrading".

Definition setConditions (dr : DiagnosticResult) (analyses : list notebookAnalysis) (targetVersionLabel : string)
    : res go_error DiagnosticResult :=
  let counters := countByStatus analyses in
  let n s := sc_count (counter counters s) in
  let impacted remediation :=
    let! cond := NewCondition ConditionTypeNotebooksCompatible ConditionFalse
      [WithReason ReasonWorkloadsImpacted; WithMessage (breakdown analyses targetVersionLabel);
       WithImpact ImpactAdvisory; WithRemediation remediation] in
    Ok (SetCondition dr cond) in
  if 0 <? n ImageStatusPreUpgradeActionRequired then impacted CheckRemediation
  else if (0 <? n ImageStatusPostUpgradeActionRequired) || (0 <? n ImageStatusCustom) || (0 <? n ImageStatusVerifyFailed)
  then impacted ("Verify custom images are compatible with RHOAI " +:+ targetVersionLabel +:+ " before upgrading")
  else
    let! cond := NewCondition ConditionTypeNotebooksCompatible ConditionTrue
      [WithReason ReasonVersionCompatible;
       WithMessage ("All " +:+ itoa (Z.of_nat (length analyses)) +:+ " Notebook(s) use compatible OOTB images")] in
    Ok (SetCondition dr cond).

Definition listed_status (s : ImageStatus) : bool :=
  match s with
  | ImageStatusPreUpgradeActionRequired | ImageStatusPostUpgradeActionRequired | ImageStatusCustom => true
  | ImageStatusGood | ImageStatusVerifyFailed => false
  end.
Definition impacted_notebook (a : notebookAnalysis) : PartialObjectMetadata :=
  mkPartial (ResourceType_TypeMeta Notebook) (na_Namespace a) (na_Name a)
    (<[AnnotationCheckImageStatus := ImageStatus_string (na_Status a)]>
     (<[AnnotationCheckImageRef := na_ImageRef a]> (<[AnnotationCheckReason := na_Reason a]> ∅))).
Definition setImpactedObjects (dr : DiagnosticResult) (analyses : list notebookAnalysis) : DiagnosticResult :=
  with_objects (with_annotation dr AnnotationResourceCRDName (CRDFQN Notebook))
    (map impacted_notebook (List.filter (λ a, listed_status (na_Status a)) analyses)).

Definition analyzeNotebooks (req : WorkloadRequest (T := json)) : res go_error DiagnosticResult :=
  let notebooks := wr_Items req in
  match notebooks with
  | [] =>
      let! cond := NewCondition ConditionTypeNotebooksCompatible ConditionTrue
        [WithReason ReasonVersionCompatible; WithMessage "No Notebook (workbench) instances found"] in
      Ok (SetCondition (wr_Result req) cond)
  | _ =>
      try! appNS := GetApplicationsNamespace ListPlain else errorf_w "getting applications namespace" in
      try! discovered := discoverOOTBImageStreams appNS else errorf_w "discovering OOTB ImageStreams" in
      let '(ootbImages, imageStreamData) := discovered in
      let! analyses := traverse (analyzeNotebook ootbImages imageStreamData appNS) notebooks in
      let! dr := setConditions (wr_Result req) analyses (MajorMinorLabel (t_TargetVersion (wr_Target req))) in
      Ok (setImpactedObjects dr analyses)
  end.

(** *** The check as registered *)
Definition Impacted_CanApply (target : Target) : res go_error bool :=
  Ok (IsUpgradeFrom2xTo3x (t_CurrentVersion target) (t_TargetVersion target)).

(** [validate.Workloads(c, target, resources.Notebook).ForComponent(workbenches)]. *)
Definition notebook_builder (c : Check) (target : Target) : WorkloadBuilder (T := json) :=
  {| wb_check := c; wb_target := target; wb_resourceType := Notebook; wb_listFn := ListPlain Notebook;
     wb_filterFn := None; wb_componentNames := ["workbenches"] |}.
Definition Impacted_Validate (c : Check) (target : Target) : res go_error (option DiagnosticResult) :=
  Workload_Run ListPlain (notebook_builder c target) analyzeNotebooks.
End Check.

(** *** FormatVerboseOutput: grouped by image, then by namespace *)
Record imageGroup := mkImageGroup {
  ig_imageRef : string; ig_imageStatus : string; ig_namespaces : gmap string (list string); ig_count : Z }.

Definition image_of (obj : PartialObjectMetadata) : string :=
  let imageRef := at_key (po_Annotations obj) AnnotationCheckImageRef in
  if String.eqb imageRef "" then "(unknown image)" else imageRef.
Definition group_append (obj : PartialObjectMetadata) (g : imageGroup) : imageGroup :=
  let ns := po_Namespace obj in
  mkImageGroup (ig_imageRef g) (ig_imageStatus g)
    (<[ns := (default [] (ig_namespaces g !! ns) ++ [po_Name obj])%list]> (ig_namespaces g)) (ig_count g + 1).
(** The slice of groups and the index of an image in it. *)
Definition add_object (st : list imageGroup * gmap string nat) (obj : PartialObjectMetadata)
    : list imageGroup * gmap string nat :=
  let '(groups, imageIndex) := st in
  let imageRef := image_of obj in
  match imageIndex !! imageRef with
  | Some idx => (alter (group_append obj) idx groups, imageIndex)
  | None =>
      ((groups ++ [mkImageGroup imageRef (at_key (po_Annotations obj) AnnotationCheckImageStatus)
          {[po_Namespace obj := [po_Name obj]]} 1])%list,
       <[imageRef := length groups]> imageIndex)
  end.
Definition group_by_image (objects : list PartialObjectMetadata) : list imageGroup :=
  (foldl add_object ([], ∅) objects).1.

Definition imageStatusOrder (status : string) : Z :=
  if String.eqb status (ImageStatus_string ImageStatusPreUpgradeActionRequired) then 0
  else if String.eqb status (ImageStatus_string ImageStatusPostUpgradeActionRequired) then 1
  else if String.eqb status (ImageStatus_string ImageStatusCustom) then 2 else 3.
Definition imageStatusLabel (status : string) : string :=
  if String.eqb status (ImageStatus_string ImageStatusGood) then "compatible image"
  else if String.eqb status (ImageStatus_string ImageStatusCustom) then "custom image"
  else if String.eqb status (ImageStatus_string ImageStatusPreUpgradeActionRequired) then "incompatible image"
  else if String.eqb status (ImageStatus_string ImageStatusPostUpgradeActionRequired)
  then "incompatible image (post-upgrade rebuild)"
  else if String.eqb status (ImageStatus_string ImageStatusVerifyFailed) then "unverified image" else "image".

Definition image_less (a b : imageGroup) : bool :=
  let oi := imageStatusOrder (ig_imageStatus a) in
  let oj := imageStatusOrder (ig_imageStatus b) in
  if negb (oi =? oj) then oi <? oj else string_less (ig_imageRef a) (ig_imageRef b).

(** [sort.SliceStable]: insertion sort is stable, and the result of a stable
    sort is unique. *)
Definition image_layout `{MO : MapOrder, SS : SortSlice} (objects : list PartialObjectMetadata)
    : list (imageGroup * list (string * list string)) :=
  map (λ g, (g, map (λ ns, (ns, sort_strings (default [] (ig_namespaces g !! ns)))) (sorted_keys (ig_namespaces g))))
    (insertion_sort image_less (group_by_image objects)).

Definition namespace_lines (crdName : string) (g : string * list string) : list string :=
  if String.eqb g.1 "" then map (λ name, "      - " +:+ crdName +:+ "/" +:+ name) g.2
  else ("      - namespace: " +:+ g.1) :: map (λ name, "           - " +:+ crdName +:+ "/" +:+ name) g.2.
Definition image_lines (crdName : string) (g : imageGroup * list (string * list string)) : list string :=
  (("    " +:+ imageStatusLabel (ig_imageStatus g.1) +:+ ": " +:+ ig_imageRef g.1 +:+ " (" +:+
      itoa (ig_count g.1) +:+ " notebooks)") :: concat (map (namespace_lines crdName) g.2) ++ [""])%list.
Definition Impacted_FormatVerboseOutput `{MO : MapOrder, SS : SortSlice} (dr : DiagnosticResult) : list string :=
  concat (map (image_lines (CRDFullyQualifiedName dr)) (image_layout (default [] (r_ImpactedObjects dr)))).

Definition NewImpactedWorkloadsCheck `{SV : Semver, AE : ApiErrors, KE : K8sErrors, SRV : ApiServer, JQ : GoJq,
    CL : Clock, MO : MapOrder} (ListWith : ResourceType → ListOptions → res go_error (list json)) : Check :=
  embed (mkBaseCheck GroupWorkload "notebook" "impacted-workloads" "workloads.notebook.impacted-workloads"
           "Workloads :: Notebook :: Impacted Workloads (3.x)"
           "Identifies Notebook (workbench) instances with images that will not work in RHOAI 3.x" CheckRemediation)
    Impacted_CanApply (Impacted_Validate ListWith).

(** ** Lemmas *)
(** *** Image references *)
(** The reference with this path, tag and digest. *)
Definition assemble (path tag sha : string) : string :=
  path +:+ (if String.eqb tag "" then "" else ":" +:+ tag) +:+ (if String.eqb sha "" then "" else "@" +:+ sha).

(** A colon of the path belongs to the registry's port: a slash follows it. *)
Definition path_ok (path : string) : Prop :=
  contains_byte "@"%char path = false ∧
  ∀ l r, cut_last ":"%char path = Some (l, r) → contains_byte slash r = true.
Definition tag_ok (tag : string) : Prop :=
  contains_byte "@"%char tag = false ∧ contains_byte ":"%char tag = false ∧ contains_byte slash tag = false.

Lemma cut_digest path tag sha :
  contains_byte "@"%char (path +:+ tag) = false → contains_byte "@"%char sha = false →
  match cut_last "@"%char (path +:+ tag +:+ (if String.eqb sha "" then "" else "@" +:+ sha)) with
  | Some (l, r) => (l, r) | None => (path +:+ tag +:+ (if String.eqb sha "" then "" else "@" +:+ sha), "") end
  = (path +:+ tag, sha).
Proof.
  intros Hp Hs. rewrite string_app_assoc. destruct (String.eqb_spec sha "") as [->|Hne].
  - rewrite string_app_nil_r. apply cut_last_none in Hp. by rewrite Hp.
  - change ("@" +:+ sha) with (String "@"%char sha). by rewrite cut_last_concat.
Qed.

Lemma cut_tag path tag :
  path_ok path → tag_ok tag →
  match cut_last ":"%char (path +:+ (if String.eqb tag "" then "" else ":" +:+ tag)) with
  | Some (l, afterColon) =>
      if contains_byte slash afterColon then (path +:+ (if String.eqb tag "" then "" else ":" +:+ tag), "")
      else (l, afterColon)
  | None => (path +:+ (if String.eqb tag "" then "" else ":" +:+ tag), "")
  end = (path, tag).
Proof.
  intros [_ Hp] (_ & Hc & Hs). destruct (String.eqb_spec tag "") as [->|Hne].
  - rewrite string_app_nil_r. destruct (cut_last ":"%char path) as [[l r]|] eqn:Hcut; [|done].
    by rewrite (Hp _ _ eq_refl).
  - change (":" +:+ tag) with (String ":"%char tag). rewrite cut_last_concat by done. by rewrite Hs.
Qed.

(** *** Version tags *)
Lemma versionTag_submatch_spec tag y m :
  versionTag_submatch tag = Some (y, m) →
  tag = y +:+ "." +:+ m ∧ String.length y = 4%nat ∧ all_digits y = true ∧ digits_plus m = true.
Proof.
  unfold versionTag_submatch. destruct (cut_first dot tag) as [[y' m']|] eqn:Hc; [|done].
  destruct (_ && _) eqn:Hb; [|done]. intros [= -> ->]. apply cut_first_app in Hc as [-> _].
  apply andb_true_iff in Hb as [[Hl Hy]%andb_true_iff Hm]. by apply Nat.eqb_eq in Hl.
Qed.

Lemma year_value tag y m :
  versionTag_submatch tag = Some (y, m) → (Atoi y).1 = decimal 0 y ∧ (Atoi m).1 = Z.min max_int64 (decimal 0 m).
Proof.
  intros (_ & Hl & Hy & Hm)%versionTag_submatch_spec.
  assert (digits_plus y = true) as Hd by (unfold digits_plus; rewrite Hy; by destruct y).
  destruct (Atoi_digits y Hd) as [-> _]. destruct (Atoi_digits m Hm) as [-> _]. split; [|done].
  pose proof (decimal_upper 0 y Hy) as Hu. rewrite Hl in Hu. unfold max_int64. lia.
Qed.

(** The comparison is lexicographic; a minor number above the range of an
    [int] counts as the largest one. *)
Lemma isTagGTE_lex t1 t2 y1 m1 y2 m2 :
  versionTag_submatch t1 = Some (y1, m1) → versionTag_submatch t2 = Some (y2, m2) →
  isTagGTE t1 t2 = true ↔
  decimal 0 y2 < decimal 0 y1 ∨
  (decimal 0 y1 = decimal 0 y2 ∧ Z.min max_int64 (decimal 0 m2) <= Z.min max_int64 (decimal 0 m1)).
Proof.
  intros H1 H2. unfold isTagGTE. rewrite H1, H2.
  destruct (year_value _ _ _ H1) as [-> ->]. destruct (year_value _ _ _ H2) as [-> ->].
  destruct (Z.ltb_spec (decimal 0 y2) (decimal 0 y1)); [naive_solver|].
  rewrite andb_true_iff, Z.eqb_eq, Z.leb_le. lia.
Qed.

Lemma compliant_tag_valid tag : compliant_tag tag = true → isValidVersionTag tag = true.
Proof. unfold compliant_tag. by intros [? _]%andb_true_iff. Qed.

(** *** Lookups *)
Section Lookups.
Context `{JQ : GoJq}.

(** The digest is found under a compliant tag of some ImageStream. *)
Definition has_compliant_sha (sha : string) (streams : list json) : Prop :=
  sha ≠ "" ∧ ∃ stream tagData, stream ∈ streams ∧ tagData ∈ status_tags stream ∧
    compliant_tag (str_at "tag" tagData) = true ∧ tag_has "image" sha tagData = true.

Lemma tag_has_object key value tagData : tag_has key value tagData = true → is_object tagData = true.
Proof. unfold tag_has. by intros [? _]%andb_true_iff. Qed.

Lemma findCompliantTagForSHA_spec sha streams :
  findCompliantTagForSHA sha streams ≠ "" ↔ has_compliant_sha sha streams.
Proof.
  unfold findCompliantTagForSHA, has_compliant_sha.
  destruct (String.eqb_spec sha "") as [->|Hne]; [naive_solver|].
  set (f := λ stream tagData, if is_object tagData && compliant_tag (str_at "tag" tagData) && tag_has "image" sha tagData
    then Some (GetName stream +:+ ":" +:+ str_at "tag" tagData) else None).
  assert (∀ stream tagData, is_Some (f stream tagData) ↔
    compliant_tag (str_at "tag" tagData) = true ∧ tag_has "image" sha tagData = true) as Hf.
  { intros stream tagData. unfold f. pose proof (tag_has_object "image" sha tagData).
    destruct (is_object tagData), (compliant_tag _), (tag_has _ _ _); simpl;
      (split; [intros [? ?]; naive_solver|intros []; naive_solver]). }
  change (default "" (find_map (λ stream, find_map (f stream) (status_tags stream)) streams) ≠ "" ↔
    sha ≠ "" ∧ ∃ stream tagData, stream ∈ streams ∧ tagData ∈ status_tags stream ∧
      compliant_tag (str_at "tag" tagData) = true ∧ tag_has "image" sha tagData = true).
  trans (is_Some (find_map (λ stream, find_map (f stream) (status_tags stream)) streams)).
  - destruct (find_map _ streams) as [t|] eqn:Ht; simpl; [|split; [done|intros [? ?]; done]].
    split; [by eexists|]. intros _ ->. apply find_map_elem in Ht as (stream & _ & Ht).
    apply find_map_elem in Ht as (tagData & _ & Ht). unfold f in Ht. destruct (_ && _); [|done].
    injection Ht as Ht. by destruct (GetName stream).
  - rewrite find_map_is_Some. setoid_rewrite find_map_is_Some. setoid_rewrite Hf. naive_solver.
Qed.

(** *** The ImageStream that answers for an image *)
(** The first element of a list with a property. *)
Definition first_of {A} (P : A → Prop) (l : list A) (x : A) : Prop :=
  ∃ pre post, l = (pre ++ x :: post)%list ∧ P x ∧ ∀ y, y ∈ pre → ¬ P y.
(** An ImageStream of the platform: not a runtime image, and with the version
    annotation the operator sets. *)
Definition operator_stream (stream : json) : Prop :=
  (∀ rest, GetName stream ≠ "runtime-" +:+ rest) ∧
  ∃ v, GetAnnotations stream !! "platform.opendatahub.io/version" = Some v ∧ v ≠ "".
(** A lookup picks the first ImageStream with a tag that has the value, and
    that tag of it. *)
Definition picks (value : string) (tags : json → list json) (has : json → bool) (label : string) (streams : list json)
    (stream : json) (tag : string) : Prop :=
  value ≠ "" ∧ first_of (λ s, ∃ t, t ∈ tags s ∧ has t = true) streams stream ∧
  ∃ t, first_of (λ t, has t = true) (tags stream) t ∧ tag = str_at label t.

Section Strategies.
Context (image : string) (streams : list json).
Notation ref := (parseImageReference image).
(** The four strategies: the full reference, the digest, the repository and
    the source of a tag. *)
Definition by_reference : json → string → Prop := picks image status_tags (tag_has "dockerImageReference" image) "tag" streams.
Definition by_digest : json → string → Prop := picks (ref_SHA ref) status_tags (tag_has "image" (ref_SHA ref)) "tag" streams.
Definition by_repository (stream : json) (tag : string) : Prop :=
  stream ∈ streams ∧ ref_FullPath ref ≠ "" ∧
  string_or_empty (jq_Query_string stream ".status.dockerImageRepository") = ref_FullPath ref ∧ tag = ref_Tag ref.
Definition by_source : json → string → Prop := picks image spec_tags (from_image image) "name" streams.
(** What a strategy picks counts only when it is an ImageStream of the platform;
    otherwise the next strategy has its turn. *)
Definition hits (strategy : json → string → Prop) (stream : json) (tag : string) : Prop := strategy stream tag ∧ operator_stream stream.
Definition misses (strategy : json → string → Prop) : Prop := ∀ stream tag, ¬ hits strategy stream tag.
Definition answers (stream : json) (tag : string) : Prop :=
  hits by_reference stream tag ∨ (misses by_reference ∧ (hits by_digest stream tag ∨ (misses by_digest ∧
    (hits by_repository stream tag ∨ (misses by_repository ∧ hits by_source stream tag))))).
Definition input_of (stream : json) (tag : string) : ootbImageInput :=
  mkInput (GetName stream) tag (ref_SHA ref) (determineNotebookType stream).
End Strategies.

Lemma managed_operator stream : managed stream = true ↔ operator_stream stream.
Proof.
  unfold managed, operator_stream, at_key. change ootbPlatformVersionAnnotation with "platform.opendatahub.io/version".
  rewrite andb_true_iff, !negb_true_iff, String.eqb_neq, <-not_true_iff_false, has_prefix_spec. split.
  - intros [Hp Hv]. split; [intros rest He; apply Hp; by exists rest|].
    destruct (GetAnnotations stream !! _) as [v|]; [by exists v|done].
  - intros [Hp (v & -> & Hv)]. split; [intros [rest He]; by apply (Hp rest)|done].
Qed.

Lemma first_of_unique {A} (P : A → Prop) l x y : first_of P l x → first_of P l y → x = y.
Proof.
  intros (p1 & q1 & -> & Hx & Hp1) (p2 & q2 & Heq & Hy & Hp2). revert p2 Heq Hp1 Hp2.
  induction p1 as [|a p1 IH]; intros [|b p2] Heq Hp1 Hp2; simplify_eq/=; [done| | |].
  - destruct (Hp2 b); [by left|done].
  - destruct (Hp1 y); [by left|done].
  - apply (IH p2); [done| |]; intros z Hz; [apply Hp1|apply Hp2]; by right.
Qed.
Lemma find_map_first {A} (p : A → bool) {B} (f : A → B) l :
  match find_map (λ x, if p x then Some (f x) else None) l with
  | Some y => ∃ x, first_of (λ x, p x = true) l x ∧ y = f x
  | None => ∀ x, x ∈ l → p x = false
  end.
Proof.
  destruct (find_map _ l) as [y|] eqn:Hf.
  - apply find_map_Some in Hf as (l1 & x & l2 & -> & Hl & Hx). destruct (p x) eqn:Hp; [|done]. injection Hx as <-. exists x. split; [|done].
    exists l1, l2. split; [done|]. split; [done|]. intros z Hz. rewrite Forall_forall in Hl. specialize (Hl z Hz). simpl in Hl. by destruct (p z).
  - apply find_map_None in Hf. rewrite Forall_forall in Hf. intros x Hx. specialize (Hf x Hx). simpl in Hf. by destruct (p x).
Qed.
Definition lookup_by (value : string) (tags : json → list json) (has : json → bool) (label : string) (streams : list json) : imageLookupResult :=
  if String.eqb value "" then lookup_none
  else default lookup_none
    (find_map (λ stream, find_map (λ t, if has t then Some (mkLookup (GetName stream) (str_at label t) true) else None)
       (tags stream)) streams).
Lemma lookup_picks value tags has label streams :
  let lookup := lookup_by value tags has label streams in
  (∃ stream tag, picks value tags has label streams stream tag ∧ lookup = mkLookup (GetName stream) tag true) ∨
  (lk_Found lookup = false ∧ ∀ stream tag, ¬ picks value tags has label streams stream tag).
Proof.
  unfold lookup_by, picks. destruct (String.eqb_spec value "") as [->|Hv]; [right; split; [done|]; naive_solver|].
  destruct (find_map _ streams) as [r|] eqn:Hf; cbn [default].
  - left. apply find_map_Some in Hf as (l1 & stream & l2 & -> & Hl & Hr).
    pose proof (find_map_first has (λ t, mkLookup (GetName stream) (str_at label t) true) (tags stream)) as Ht. cbv beta in Hr, Ht. rewrite Hr in Ht.
    destruct Ht as (t & Ht & ->). exists stream, (str_at label t). split; [|done]. split; [done|]. split; [|by exists t].
    exists l1, l2. split; [done|]. split.
    + destruct Ht as (p & q & Hq & Hh & _). exists t. rewrite Hq. set_solver.
    + intros s Hs (t' & Ht' & Hh). rewrite Forall_forall in Hl. specialize (Hl s Hs). simpl in Hl.
      rewrite find_map_None, Forall_forall in Hl. specialize (Hl t' Ht'). simpl in Hl. by rewrite Hh in Hl.
  - right. split; [done|]. intros stream tag (_ & (p & q & -> & (t & Ht & Hh) & _) & _).
    rewrite find_map_None, Forall_forall in Hf. specialize (Hf stream ltac:(set_solver)). simpl in Hf.
    rewrite find_map_None, Forall_forall in Hf. specialize (Hf t Ht). simpl in Hf. by rewrite Hh in Hf.
Qed.
Lemma picks_unique value tags has label streams s1 t1 s2 t2 :
  picks value tags has label streams s1 t1 → picks value tags has label streams s2 t2 → s1 = s2 ∧ t1 = t2.
Proof.
  intros (_ & Hs1 & x1 & Hx1 & ->) (_ & Hs2 & x2 & Hx2 & ->). pose proof (first_of_unique _ _ _ _ Hs1 Hs2) as ->.
  by pose proof (first_of_unique _ _ _ _ Hx1 Hx2) as ->.
Qed.

(** *** The map of OOTB ImageStreams and the correlation *)
Lemma NoDup_map_inj {A B} (f : A → B) (l : list A) x y :
  NoDup (map f l) → x ∈ l → y ∈ l → f x = f y → x = y.
Proof.
  induction l as [|z l IH]; simpl; [by intros _ ?%elem_of_nil|].
  rewrite NoDup_cons. intros [Hz Hl] Hx Hy Hf. apply elem_of_cons in Hx, Hy.
  assert (∀ w, w ∈ l → f w ∈ map f l) as Hin by (intros w Hw; apply list_elem_of_In, in_map; by apply list_elem_of_In).
  destruct Hx as [->|Hx], Hy as [->|Hy]; [done| | |by apply IH].
  - destruct Hz. rewrite Hf. by apply Hin.
  - destruct Hz. rewrite <-Hf. by apply Hin.
Qed.

Lemma ootb_lookup streams n o :
  foldl add_ootb ∅ streams !! n = Some o →
  ∃ stream, stream ∈ streams ∧ managed stream = true ∧ GetName stream = n ∧ o = ootb_of stream.
Proof.
  induction streams as [|stream streams IH] using rev_ind; [done|].
  rewrite foldl_app. simpl. unfold add_ootb at 1. destruct (managed stream) eqn:Hm.
  - rewrite lookup_insert_Some. intros [[<- <-]|[_ (s & ? & ? & ? & ?)%IH]]; [exists stream|exists s]; set_solver.
  - intros (s & ? & ? & ? & ?)%IH. exists s. set_solver.
Qed.

Lemma ootb_complete streams stream :
  NoDup (map GetName streams) → stream ∈ streams → managed stream = true →
  foldl add_ootb ∅ streams !! GetName stream = Some (ootb_of stream).
Proof.
  intros Hnd Hin Hm. destruct (foldl add_ootb ∅ streams !! GetName stream) as [o|] eqn:Ho.
  { apply ootb_lookup in Ho as (s & Hs & _ & Hn & ->). by rewrite (NoDup_map_inj GetName streams s stream). }
  clear Hnd. exfalso. induction streams as [|s streams IH] using rev_ind; [by apply elem_of_nil in Hin|].
  rewrite foldl_app in Ho. simpl in Ho. unfold add_ootb at 1 in Ho.
  apply elem_of_app in Hin as [Hin|Hin%list_elem_of_singleton].
  - apply (IH Hin). destruct (managed s); [|done]. by apply lookup_insert_None in Ho as [? _].
  - subst s. rewrite Hm, lookup_insert_eq in Ho. done.
Qed.

Section Correlation.
Context `{MO : MapOrder} (image : string) (streams : list json).
Context (names_unique : NoDup (map GetName streams)).
Notation ootb := (foldl add_ootb ∅ streams).
Notation sha := (ref_SHA (parseImageReference image)).

Lemma picked_in value tags has label stream tag : picks value tags has label streams stream tag → stream ∈ streams.
Proof using names_unique. intros (_ & (p & q & -> & _) & _). apply elem_of_app. right. by left. Qed.
Lemma ootb_of_stream stream :
  stream ∈ streams → ootb !! GetName stream = if managed stream then Some (ootb_of stream) else None.
Proof using names_unique.
  intros Hs. destruct (managed stream) eqn:Hm; [by apply ootb_complete|].
  destruct (ootb !! GetName stream) as [o|] eqn:Ho; [|done]. apply ootb_lookup in Ho as (s & Hin & Hms & Hn & _).
  assert (s = stream) as -> by (by apply (NoDup_map_inj GetName streams)). congruence.
Qed.
(** A lookup by tags, and what the map makes of it. *)
Lemma hit_spec value tags has label :
  match ootb_hit ootb sha (lookup_by value tags has label streams) with
  | Some input => ∃ stream tag, hits (picks value tags has label streams) stream tag ∧ input = input_of image stream tag
  | None => misses (picks value tags has label streams)
  end.
Proof using names_unique.
  destruct (lookup_picks value tags has label streams) as [(stream & tag & Hp & ->)|[Hf Hno]]; unfold ootb_hit.
  - cbn [lk_Found lk_ImageStreamName lk_Tag]. rewrite ootb_of_stream by (by eapply picked_in). destruct (managed stream) eqn:Hm.
    + exists stream, tag. split; [|done]. split; [done|]. by apply managed_operator.
    + intros s t [Hp' Ho%managed_operator]. destruct (picks_unique _ _ _ _ _ _ _ _ _ Hp Hp') as [-> _]. congruence.
  - rewrite Hf. intros s t [Hp _]. by apply (Hno s t).
Qed.
Lemma repository_spec :
  match findImageStreamByDockerRepo (ref_FullPath (parseImageReference image)) ootb with
  | Some o => ∃ stream tag, hits (by_repository image streams) stream tag ∧
                mkInput (oi_Name o) (ref_Tag (parseImageReference image)) sha (oi_Type o) = input_of image stream tag
  | None => misses (by_repository image streams)
  end.
Proof using names_unique.
  unfold findImageStreamByDockerRepo. destruct (String.eqb_spec (ref_FullPath (parseImageReference image)) "") as [He|Hne].
  { intros s t [(_ & Hne & _) _]. by apply Hne. }
  destruct (find _ (map_range ootb)) as [[n o]|] eqn:Hf; cbn [fmap option_fmap option_map snd].
  - apply find_some in Hf as [Hin Hp]. apply list_elem_of_In, elem_of_map_range, ootb_lookup in Hin as (stream & Hs & Hm & _ & ->).
    apply andb_true_iff in Hp as [_ Hp%String.eqb_eq]. exists stream, (ref_Tag (parseImageReference image)). split; [|done].
    split; [by split_and!|]. by apply managed_operator.
  - intros stream tag [(Hs & _ & Hrepo & _) Hm%managed_operator].
    pose proof (ootb_complete streams stream names_unique Hs Hm) as Ho. apply elem_of_map_range, list_elem_of_In in Ho.
    pose proof (find_none _ _ Hf _ Ho) as Hn. simpl in Hn.
    by rewrite Hrepo, String.eqb_refl, andb_true_r, negb_false_iff, String.eqb_eq in Hn.
Qed.
Lemma digest_spec :
  match (if String.eqb sha "" then None else ootb_hit ootb sha (findImageStreamForSHA sha streams)) with
  | Some input => ∃ stream tag, hits (by_digest image streams) stream tag ∧ input = input_of image stream tag
  | None => misses (by_digest image streams)
  end.
Proof using names_unique.
  destruct (String.eqb_spec sha "") as [He|Hne]; [intros s t [(Hne & _) _]; by apply Hne|].
  exact (hit_spec sha status_tags (tag_has "image" sha) "tag").
Qed.
Lemma correlate_spec :
  match correlate image ootb streams with
  | Some input => ∃ stream tag, answers image streams stream tag ∧ input = input_of image stream tag
  | None => ∀ stream tag, ¬ answers image streams stream tag
  end.
Proof using names_unique.
  unfold correlate, answers.
  pose proof (hit_spec image status_tags (tag_has "dockerImageReference" image) "tag") as H1. change (lookup_by image _ _ _ _) with (findImageStreamByDockerImageRef image streams) in H1.
  destruct (ootb_hit ootb sha (findImageStreamByDockerImageRef image streams)) as [i|].
  { destruct H1 as (stream & tag & Hh & ->). exists stream, tag. split; [by left|done]. }
  pose proof digest_spec as H2. destruct (if String.eqb sha "" then None else _) as [i|].
  { destruct H2 as (stream & tag & Hh & ->). exists stream, tag. split; [|done]. right. split; [exact H1|by left]. }
  pose proof repository_spec as H3. destruct (findImageStreamByDockerRepo _ ootb) as [o|].
  { destruct H3 as (stream & tag & Hh & ->). exists stream, tag. split; [|done]. right. split; [exact H1|]. right. split; [exact H2|by left]. }
  pose proof (hit_spec image spec_tags (from_image image) "name") as H4. change (lookup_by image _ _ _ _) with (findImageStreamBySpecRef image streams) in H4.
  destruct (ootb_hit ootb sha (findImageStreamBySpecRef image streams)) as [i|].
  { destruct H4 as (stream & tag & Hh & ->). exists stream, tag. split; [|done]. right. split; [exact H1|]. right. split; [exact H2|]. right. by split. }
  intros stream tag [Hh|[_ [Hh|[_ [Hh|[_ Hh]]]]]]; [by apply (H1 stream tag)|by apply (H2 stream tag)|by apply (H3 stream tag)|by apply (H4 stream tag)].
Qed.
End Correlation.
End Lookups.

(** *** Aggregation *)
(** The priority of the statuses. *)
Definition rank (s : ImageStatus) : Z :=
  match s with
  | ImageStatusPreUpgradeActionRequired => 4 | ImageStatusPostUpgradeActionRequired => 3
  | ImageStatusVerifyFailed => 2 | ImageStatusCustom => 1 | ImageStatusGood => 0
  end.

Lemma rank_inj s t : rank s = rank t → s = t.
Proof. by destruct s, t. Qed.

Definition with_status (s : ImageStatus) (l : list imageAnalysis) : list imageAnalysis :=
  List.filter (λ a, bool_decide (ia_Status a = s)) l.

Lemma collectReasons_reasons l s :
  (collectReasonsForStatus l s).1 = map reason_of (with_status s l) ∧
  (∀ a rest, with_status s l = a :: rest → ia_ImageRef a ≠ "" → (collectReasonsForStatus l s).2 = ia_ImageRef a).
Proof.
  unfold collectReasonsForStatus.
  assert (∀ rs ref, let r := foldl (λ acc a, let '(reasons, imageRef) := acc in
      if negb (bool_decide (ia_Status a = s)) then (reasons, imageRef)
      else ((reasons ++ [reason_of a])%list, if String.eqb imageRef "" then ia_ImageRef a else imageRef)) (rs, ref) l in
    r.1 = (rs ++ map reason_of (with_status s l))%list ∧ (ref ≠ "" → r.2 = ref) ∧
    (∀ a rest, ref = "" → with_status s l = a :: rest → ia_ImageRef a ≠ "" → r.2 = ia_ImageRef a)) as H.
  { induction l as [|a l IH]; intros rs ref; simpl; [by rewrite app_nil_r|].
    case_bool_decide as Ha; cbn [negb]; [|apply IH].
    specialize (IH (rs ++ [reason_of a])%list (if String.eqb ref "" then ia_ImageRef a else ref)).
    destruct IH as (H1 & H2 & H3). rewrite H1, <-app_assoc. split; [done|].
    split.
    - intros Hr. rewrite H2; rewrite (proj2 (String.eqb_neq ref "")) by done; done.
    - intros b rest -> [= <- <-] Hb. simpl in *. by apply H2. }
  destruct (H [] "") as (H1 & _ & H3). split; [exact H1|]. intros a rest. by apply H3.
Qed.

Lemma with_status_nil s l a : with_status s l = [] → a ∈ l → ia_Status a ≠ s.
Proof.
  intros Hn Ha Hs. assert (a ∈ with_status s l) as Hin; [|rewrite Hn in Hin; by apply elem_of_nil in Hin].
  apply list_elem_of_In, filter_In. rewrite bool_decide_eq_true. split; [by apply list_elem_of_In|done].
Qed.

(** The first analysis of the most severe status. *)
Lemma most_severe s a rest l :
  with_status s l = a :: rest → (∀ t, rank s < rank t → with_status t l = []) →
  ∃ l1 l2, l = (l1 ++ a :: l2)%list ∧ ia_Status a = s ∧
    Forall (λ b, rank (ia_Status b) < rank s) l1 ∧ Forall (λ b, rank (ia_Status b) <= rank s) l2.
Proof.
  intros Ha Hmax.
  assert (∀ b, b ∈ l → rank (ia_Status b) <= rank s) as Hle.
  { intros b Hb. destruct (Z.le_gt_cases (rank (ia_Status b)) (rank s)) as [|Hgt]; [done|].
    assert (with_status (ia_Status b) l = []) as Hn by (apply Hmax; lia). by destruct (with_status_nil _ _ _ Hn Hb). }
  clear Hmax. induction l as [|b l IH]; [done|]. unfold with_status in Ha. simpl in Ha.
  case_bool_decide as Hb.
  - injection Ha as -> _. exists [], l. split; [done|]. split; [done|]. split; [constructor|].
    apply Forall_forall. intros c Hc. apply Hle. by right.
  - destruct IH as (l1 & l2 & -> & Hs & H1 & H2); [done|intros c Hc; apply Hle; by right|].
    exists (b :: l1), l2. split; [done|]. split; [done|]. split; [|done]. constructor; [|done].
    specialize (Hle b ltac:(by left)). destruct (Z.eq_dec (rank (ia_Status b)) (rank s)) as [He|]; [|lia].
    by apply rank_inj in He.
Qed.

Lemma findFirst_with_status l s : findFirstWithStatus l s = head (with_status s l).
Proof.
  unfold findFirstWithStatus, with_status. induction l as [|a l IH]; simpl; [done|]. by case_bool_decide.
Qed.

Lemma aggregate_first ns name l :
  l ≠ [] → ∃ a rest, with_status (na_Status (aggregateImageAnalyses ns name l)) l = a :: rest ∧
    (∀ t, rank (na_Status (aggregateImageAnalyses ns name l)) < rank t → with_status t l = []) ∧
    (ia_ImageRef a ≠ "" ∨ rank (ia_Status a) < 3 → na_ImageRef (aggregateImageAnalyses ns name l) = ia_ImageRef a).
Proof.
  intros Hne. unfold aggregateImageAnalyses. destruct l as [|x l']; [done|].
  remember (x :: l') as l eqn:Hl. clear Hne.
  assert (∀ s, ∃ b, collectReasonsForStatus l s = (map reason_of (with_status s l), b) ∧
    (∀ a rest, with_status s l = a :: rest → ia_ImageRef a ≠ "" → b = ia_ImageRef a)) as Hc.
  { intros s. destruct (collectReasons_reasons l s) as [H1 H2].
    destruct (collectReasonsForStatus l s) as [r b]. simpl in *. exists b. by rewrite H1. }
  assert (∀ s a rest, with_status s l = a :: rest → ia_Status a = s) as Hst.
  { intros s a rest Hs. assert (a ∈ with_status s l) as Hin by (rewrite Hs; left).
    apply list_elem_of_In, filter_In in Hin as [_ Hin]. by apply bool_decide_eq_true in Hin. }
  rewrite !findFirst_with_status.
  destruct (Hc ImageStatusPreUpgradeActionRequired) as (b1 & -> & Hb1).
  destruct (with_status ImageStatusPreUpgradeActionRequired l) as [|a1 r1] eqn:E1; simpl.
  2:{ exists a1, r1. rewrite E1. split; [done|]. split; [by intros []|].
      rewrite (Hst _ _ _ E1). intros [H|H]; [by eapply Hb1|by simpl in H]. }
  destruct (Hc ImageStatusPostUpgradeActionRequired) as (b2 & -> & Hb2).
  destruct (with_status ImageStatusPostUpgradeActionRequired l) as [|a2 r2] eqn:E2; simpl.
  2:{ exists a2, r2. rewrite E2. split; [done|]. split; [by intros []|].
      rewrite (Hst _ _ _ E2). intros [H|H]; [by eapply Hb2|by simpl in H]. }
  destruct (with_status ImageStatusVerifyFailed l) as [|a3 r3] eqn:E3; simpl.
  2:{ exists a3, r3. rewrite E3. split; [done|]. split; [by intros []|done]. }
  destruct (with_status ImageStatusCustom l) as [|a4 r4] eqn:E4; simpl.
  2:{ exists a4, r4. rewrite E4. split; [done|]. split; [by intros []|done]. }
  exists x. assert (ia_Status x = ImageStatusGood) as Hx.
  { assert (x ∈ l) as Hin by (rewrite Hl; left).
    destruct (ia_Status x) eqn:Hx; [done|..]; exfalso;
      [by apply (with_status_nil _ _ x E1)|by apply (with_status_nil _ _ x E2)|by apply (with_status_nil _ _ x E4)|
       by apply (with_status_nil _ _ x E3)]. }
  exists (with_status ImageStatusGood l'). split; [rewrite Hl; unfold with_status; simpl; by rewrite Hx|].
  split; [by intros []|done].
Qed.

(** *** Counting *)
Definition nonempty_refs (l : list notebookAnalysis) : gset string :=
  list_to_set (List.filter (λ r, negb (String.eqb r "")) (map na_ImageRef l)).
Definition of_status (s : ImageStatus) (l : list notebookAnalysis) : list notebookAnalysis :=
  List.filter (λ a, bool_decide (na_Status a = s)) l.

Lemma ImageStatus_string_inj s t : ImageStatus_string s = ImageStatus_string t → s = t.
Proof. by destruct s, t. Qed.

Lemma nonempty_refs_snoc l a :
  nonempty_refs (l ++ [a])%list =
    if negb (String.eqb (na_ImageRef a) "") then {[na_ImageRef a]} ∪ nonempty_refs l else nonempty_refs l.
Proof.
  unfold nonempty_refs. rewrite map_app, List.filter_app, list_to_set_app_L. simpl.
  destruct (negb _); simpl; set_solver.
Qed.

Lemma all_images_refs l : all_images l = nonempty_refs l.
Proof.
  induction l as [|a l IH] using rev_ind; [done|].
  rewrite nonempty_refs_snoc, <-IH. unfold all_images. by rewrite foldl_app.
Qed.

Lemma countByStatus_snoc l a : countByStatus (l ++ [a])%list = count_analysis (countByStatus l) a.
Proof. unfold countByStatus. by rewrite foldl_app. Qed.

Lemma countByStatus_total l s : is_Some (countByStatus l !! ImageStatus_string s).
Proof.
  induction l as [|b l IH] using rev_ind; [by destruct s|].
  rewrite countByStatus_snoc. unfold count_analysis.
  destruct (countByStatus l !! ImageStatus_string (na_Status b)); [|done].
  destruct (decide (ImageStatus_string (na_Status b) = ImageStatus_string s)) as [->|];
    [rewrite lookup_insert_eq; eauto|by rewrite lookup_insert_ne].
Qed.

Lemma countByStatus_lookup l s :
  countByStatus l !! ImageStatus_string s =
    Some (mkCounter (Z.of_nat (length (of_status s l))) (nonempty_refs (of_status s l))).
Proof.
  induction l as [|a l IH] using rev_ind; [by destruct s|].
  rewrite countByStatus_snoc. unfold count_analysis.
  destruct (countByStatus_total l (na_Status a)) as [sc Hsc].
  rewrite Hsc. unfold of_status. rewrite List.filter_app. simpl. case_bool_decide as Ha.
  - rewrite Ha in *. rewrite lookup_insert_eq. rewrite IH in Hsc. injection Hsc as <-. unfold counter_add. simpl.
    by rewrite length_app, Nat2Z.inj_add, nonempty_refs_snoc.
  - rewrite lookup_insert_ne by (intros ?%ImageStatus_string_inj; done). by rewrite app_nil_r.
Qed.

Lemma counter_spec l s :
  counter (countByStatus l) s =
    mkCounter (Z.of_nat (length (of_status s l))) (nonempty_refs (of_status s l)).
Proof. unfold counter. by rewrite countByStatus_lookup. Qed.

Lemma of_status_partition l :
  Z.of_nat (length l) = foldr (λ s n, Z.of_nat (length (of_status s l)) + n) 0 all_statuses.
Proof.
  induction l as [|a l IH]; [done|]. unfold of_status in *. simpl in *.
  destruct (na_Status a); simpl; lia.
Qed.

Lemma of_status_pos l s : 0 < Z.of_nat (length (of_status s l)) ↔ ∃ a, a ∈ l ∧ na_Status a = s.
Proof.
  unfold of_status. split.
  - destruct (List.filter _ l) as [|a r] eqn:Hf; [done|]. intros _. exists a.
    assert (a ∈ List.filter (λ a, bool_decide (na_Status a = s)) l) as Hin by (rewrite Hf; left).
    apply list_elem_of_In, filter_In in Hin as [Hin Hs%bool_decide_eq_true]. by apply list_elem_of_In in Hin.
  - intros (a & Ha & Hs). assert (In a (List.filter (λ a, bool_decide (na_Status a = s)) l)) as Hin.
    { apply filter_In. rewrite bool_decide_eq_true. split; [by apply list_elem_of_In|done]. }
    destruct (List.filter _ l); [done|simpl; lia].
Qed.

(** *** Grouping by image *)
Lemma concat_map_perm {A B} (f g : A → list B) (l : list A) :
  (∀ x, x ∈ l → f x ≡ₚ g x) → concat (map f l) ≡ₚ concat (map g l).
Proof.
  induction l as [|x l IH]; intros Hfg; simpl; [done|].
  rewrite (Hfg x) by left. rewrite IH; [done|]. intros y Hy. apply Hfg. by right.
Qed.

Lemma with_key_snoc {A} (key : A → string) k (l : list A) x :
  with_key key k (l ++ [x])%list = if String.eqb (key x) k then (with_key key k l ++ [x])%list else with_key key k l.
Proof.
  unfold with_key. rewrite List.filter_app. simpl. destruct (String.eqb (key x) k); [done|by rewrite app_nil_r].
Qed.

(** What the group of an image holds. *)
Definition group_spec (objects : list PartialObjectMetadata) (imageRef : string) : imageGroup :=
  let objs := with_key image_of imageRef objects in
  mkImageGroup imageRef
    (match objs with o :: _ => at_key (po_Annotations o) AnnotationCheckImageStatus | [] => "" end)
    ((λ os, map po_Name os) <$> group_by po_Namespace objs) (Z.of_nat (length objs)).

Lemma group_spec_append objects o :
  with_key image_of (image_of o) objects ≠ [] →
  group_append o (group_spec objects (image_of o)) = group_spec (objects ++ [o])%list (image_of o).
Proof.
  intros Hne. unfold group_append, group_spec. rewrite with_key_snoc, String.eqb_refl. simpl.
  set (objs := with_key image_of (image_of o) objects) in *.
  rewrite length_app, group_by_snoc. unfold group_add. rewrite fmap_insert, lookup_fmap. simpl.
  f_equal; [by destruct objs| |lia].
  f_equal. destruct (group_by po_Namespace objs !! po_Namespace o); simpl; [by rewrite map_app|done].
Qed.

Lemma group_by_image_spec objects :
  ∃ refs imageIndex, foldl add_object ([], ∅) objects = (map (group_spec objects) refs, imageIndex) ∧
    NoDup refs ∧ (∀ r, r ∈ refs ↔ r ∈ map image_of objects) ∧
    (∀ r i, imageIndex !! r = Some i ↔ refs !! i = Some r).
Proof.
  induction objects as [|o objects (refs & ix & Hf & Hnd & Hrefs & Hix)] using rev_ind.
  { exists [], ∅. split; [done|]. split; [constructor|]. split; [done|]. intros r i. by rewrite lookup_empty. }
  rewrite foldl_app, Hf. simpl. destruct (ix !! image_of o) as [idx|] eqn:Ho.
  - pose proof (proj1 (Hix _ _) Ho) as Hidx. exists refs, ix.
    assert (image_of o ∈ refs) as Hin by (by eapply list_elem_of_lookup_2).
    split; [|split; [done|split; [|done]]].
    + f_equal. apply list_eq. intros i. destruct (decide (i = idx)) as [->|Hne].
      * rewrite list_lookup_alter_eq, !list_lookup_fmap, Hidx. simpl. f_equal. apply group_spec_append.
        apply with_key_nonempty. by apply Hrefs.
      * rewrite list_lookup_alter_ne by done. rewrite !list_lookup_fmap. destruct (refs !! i) as [r|] eqn:Hr; [|done].
        simpl. f_equal. unfold group_spec. rewrite with_key_snoc. destruct (String.eqb_spec (image_of o) r) as [<-|]; [|done].
        destruct Hne. by eapply NoDup_lookup.
    + intros r. rewrite map_app, elem_of_app, Hrefs. simpl. rewrite list_elem_of_singleton. split; [by left|].
      intros [| ->]; [done|by apply Hrefs].
  - assert (image_of o ∉ refs) as Hout.
    { intros [i Hi]%list_elem_of_lookup. apply Hix in Hi. congruence. }
    exists (refs ++ [image_of o])%list, (<[image_of o := length refs]> ix). split.
    + f_equal; [|by rewrite length_map]. rewrite map_app. f_equal.
      * apply map_ext_in. intros r Hr%list_elem_of_In. unfold group_spec. rewrite with_key_snoc.
        by destruct (String.eqb_spec (image_of o) r) as [<-|].
      * simpl. unfold group_spec. rewrite with_key_snoc, String.eqb_refl.
        destruct (with_key image_of (image_of o) objects) as [|x xs] eqn:Hw.
        -- simpl. f_equal. f_equal. unfold group_by, group_add. simpl. by rewrite fmap_insert, fmap_empty.
        -- exfalso. apply Hout, Hrefs, with_key_nonempty. by rewrite Hw.
    + split; [|split].
      * apply NoDup_app. split; [done|]. split; [|apply NoDup_singleton]. intros r Hr ->%list_elem_of_singleton. done.
      * intros r. rewrite map_app, !elem_of_app, Hrefs. done.
      * intros r i. rewrite lookup_insert_Some, lookup_app_Some, Hix. split.
        -- intros [[<- <-]|[_ Hi]]; [right|by left]. by rewrite Nat.sub_diag.
        -- intros [Hi|[Hle Hi]].
           ++ right. split; [|done]. intros <-. apply Hout. by eapply list_elem_of_lookup_2.
           ++ left. apply list_lookup_singleton_Some in Hi as [? <-]. split; [done|lia].
Qed.

Lemma image_less_strict : StrictWeak image_less.
Proof.
  eapply (StrictWeak_ext (lex_less (λ g, imageStatusOrder (ig_imageStatus g)) Z.ltb
    (λ a b, string_less (ig_imageRef a) (ig_imageRef b)))).
  - intros a b. unfold lex_less, image_less.
    destruct (Z.eqb_spec (imageStatusOrder (ig_imageStatus a)) (imageStatusOrder (ig_imageStatus b))) as [->|Hne]; simpl.
    + by rewrite Z.ltb_irrefl.
    + destruct (Z.ltb_spec (imageStatusOrder (ig_imageStatus a)) (imageStatusOrder (ig_imageStatus b))); [done|].
      by rewrite (proj2 (Z.ltb_lt _ _)) by lia.
  - apply lex_StrictWeak; [apply (StrictWeak_key (λ z : Z, z)), Zltb_strict|apply (StrictWeak_key ig_imageRef), string_less_strict].
Qed.

Lemma all_digits_no_dot s : all_digits s = true → contains_byte dot s = false.
Proof.
  induction s as [|a s IH]; simpl; [done|]. intros [Ha Hs]%andb_true_iff. rewrite IH by done.
  destruct (Ascii.eqb_spec a dot) as [->|]; [done|]. done.
Qed.

Lemma compliant_tag_spec tag :
  compliant_tag tag = true ↔
  ∃ year minor, tag = year +:+ "." +:+ minor ∧ String.length year = 4%nat ∧ all_digits year = true ∧
    digits_plus minor = true ∧ (2025 < decimal 0 year ∨ decimal 0 year = 2025 ∧ 2 <= decimal 0 minor).
Proof.
  assert (versionTag_submatch nginxFixMinTag = Some ("2025", "2")) as Hmin by reflexivity.
  unfold compliant_tag, isValidVersionTag. split.
  - intros [Hv Hge]%andb_true_iff. destruct (versionTag_submatch tag) as [[y m]|] eqn:Hsub; [|done].
    apply (isTagGTE_lex _ _ _ _ _ _ Hsub Hmin) in Hge. apply versionTag_submatch_spec in Hsub as (-> & Hl & Hy & Hm).
    exists y, m. do 4 (split; [done|]).
    change (decimal 0 "2025") with 2025 in Hge. change (decimal 0 "2") with 2 in Hge. unfold max_int64 in Hge. lia.
  - intros (y & m & -> & Hl & Hy & Hm & Hge).
    assert (versionTag_submatch (y +:+ "." +:+ m) = Some (y, m)) as Hsub.
    { unfold versionTag_submatch. change ("." +:+ m) with (String dot m).
      rewrite cut_first_concat by (by apply all_digits_no_dot). by rewrite Hl, Hy, Hm. }
    rewrite Hsub. simpl. apply (isTagGTE_lex _ _ _ _ _ _ Hsub Hmin).
    change (decimal 0 "2025") with 2025. change (decimal 0 "2") with 2. unfold max_int64. lia.
Qed.

(** *** Totality *)
Section Total.
Context `{SV : Semver, AE : ApiErrors, KE : K8sErrors, SRV : ApiServer, JQ : GoJq, CL : Clock, MO : MapOrder}.

Lemma traverse_total {A B} (f : A → res go_error B) l :
  (∀ x, ∃ y, f x = Ok y) → ∃ ys, traverse f l = Ok ys ∧ Forall2 (λ x y, f x = Ok y) l ys.
Proof.
  intros Hf. induction l as [|x l (ys & Hys & H2)]; simpl; [by exists []|].
  destruct (Hf x) as [y Hy]. rewrite Hy, Hys. simpl. exists (y :: ys). split; [done|by constructor].
Qed.

Lemma tag_based_not_custom n t sha ty streams :
  ia_Status (analyzeTagBasedImageCompat n t sha ty streams) ≠ ImageStatusCustom.
Proof. unfold analyzeTagBasedImageCompat. by repeat case_match. Qed.

Lemma setConditions_spec dr analyses label :
  ∃ cond, setConditions dr analyses label = Ok (SetCondition dr cond) ∧ validateCondition cond = Ok () ∧
    c_Type cond = ConditionTypeNotebooksCompatible ∧
    if bool_decide (Forall (λ a, na_Status a = ImageStatusGood) analyses)
    then c_Status cond = ConditionTrue ∧ c_Impact cond = ImpactNone
    else c_Status cond = ConditionFalse ∧ c_Impact cond = ImpactAdvisory ∧ c_Message cond = breakdown analyses label ∧
      (c_Remediation cond = CheckRemediation ↔ ∃ a, a ∈ analyses ∧ na_Status a = ImageStatusPreUpgradeActionRequired).
Proof.
  unfold setConditions. rewrite !counter_spec. simpl.
  pose proof (λ s, of_status_pos analyses s) as Hpos.
  destruct (Z.ltb_spec 0 (Z.of_nat (length (of_status ImageStatusPreUpgradeActionRequired analyses)))) as [H1|H1].
  { eexists. split; [reflexivity|]. split; [done|]. split; [done|].
    apply Hpos in H1. rewrite bool_decide_eq_false_2; [|rewrite Forall_forall; intros Hall; destruct H1 as (a & Ha & Hs);
      rewrite (Hall _ Ha) in Hs; done]. done. }
  assert (¬ ∃ a, a ∈ analyses ∧ na_Status a = ImageStatusPreUpgradeActionRequired) as Hpre by (rewrite <-Hpos; lia).
  assert (∀ s, s ≠ ImageStatusGood → s ∈ [ImageStatusPostUpgradeActionRequired; ImageStatusCustom; ImageStatusVerifyFailed] →
    0 < Z.of_nat (length (of_status s analyses)) → ¬ Forall (λ a, na_Status a = ImageStatusGood) analyses) as Hno.
  { intros s Hs _ Hp%Hpos. rewrite Forall_forall. destruct Hp as (a & Ha & <-). intros Hall. by apply Hs, Hall. }
  destruct ((0 <? Z.of_nat (length (of_status ImageStatusPostUpgradeActionRequired analyses))) ||
    (0 <? Z.of_nat (length (of_status ImageStatusCustom analyses))) ||
    (0 <? Z.of_nat (length (of_status ImageStatusVerifyFailed analyses)))) eqn:H2.
  - eexists. split; [reflexivity|]. split; [done|]. split; [done|]. rewrite bool_decide_eq_false_2.
    + do 3 (split; [done|]). split; [|intros H; by destruct Hpre]. done.
    + apply orb_true_iff in H2 as [[H2%Z.ltb_lt|H2%Z.ltb_lt]%orb_true_iff|H2%Z.ltb_lt]; (eapply Hno; [..|exact H2]; [done|set_solver]).
  - eexists. split; [reflexivity|]. split; [done|]. split; [done|]. rewrite bool_decide_eq_true_2; [done|].
    apply orb_false_iff in H2 as [[H2%Z.ltb_ge H3%Z.ltb_ge]%orb_false_iff H4%Z.ltb_ge].
    apply Forall_forall. intros a Ha. destruct (na_Status a) eqn:Hs; [done|..]; exfalso.
    + apply Hpre. eauto.
    + assert (0 < Z.of_nat (length (of_status ImageStatusPostUpgradeActionRequired analyses))) by (apply Hpos; eauto). lia.
    + assert (0 < Z.of_nat (length (of_status ImageStatusCustom analyses))) by (apply Hpos; eauto). lia.
    + assert (0 < Z.of_nat (length (of_status ImageStatusVerifyFailed analyses))) by (apply Hpos; eauto). lia.
Qed.
Context (no_panic : ∀ rt ns name s, srv_get rt ns name ≠ Panic s).

Lemma analyzeOOTBImage_total input streams appNS :
  ∃ a, analyzeOOTBImage input streams appNS = Ok a ∧ ia_Status a ≠ ImageStatusCustom.
Proof using no_panic.
  unfold analyzeOOTBImage. destruct (in_Type input); [by eexists| |eexists; split; [done|apply tag_based_not_custom]..].
  unfold analyzeRStudioImageCompat, Get.
  set (t := if String.eqb (in_Tag input) "" then "latest" else in_Tag input).
  pose proof (no_panic ImageStreamTag appNS (in_ImageStreamName input +:+ ":" +:+ t)) as Hp.
  destruct (srv_get _ _ _) as [ist|err|s]; [| |by specialize (Hp s)].
  - eexists. split; [done|]. simpl. unfold rstudio_verdict. by repeat case_match.
  - destruct (IsPermissionError err); eexists; (split; [done|]); simpl; [|done].
    unfold rstudio_verdict. by repeat case_match.
Qed.

Lemma analyzeImage_total image ootb streams appNS : ∃ a, analyzeImage image ootb streams appNS = Ok a.
Proof using no_panic.
  unfold analyzeImage. destruct (correlate image ootb streams) as [i|]; [|by eexists].
  destruct (analyzeOOTBImage_total i streams appNS) as (a & -> & _). by eexists.
Qed.

Lemma analyzeNotebook_total ootb streams appNS nb : ∃ a, analyzeNotebook ootb streams appNS nb = Ok a.
Proof using no_panic.
  unfold analyzeNotebook.
  assert (∀ s, ExtractWorkloadContainers nb ≠ Panic s) as Hp.
  { intros s. unfold ExtractWorkloadContainers, jq_Query_array, jq_Query. repeat case_match; simplify_eq/=; done. }
  destruct (ExtractWorkloadContainers nb) as [[|c cs]|e|s]; [by eexists| |by eexists|by specialize (Hp s)].
  destruct (traverse_total (analyze_container ootb streams appNS) (c :: cs)) as (l & -> & _); [|by eexists].
  intros x. unfold analyze_container. destruct (String.eqb (nc_Image x) ""); [by eexists|].
  destruct (analyzeImage_total (nc_Image x) ootb streams appNS) as [a ->]. by eexists.
Qed.

End Total.

(** The namespaces of an image with their sorted names hold its notebooks. *)
Lemma group_names_perm (O : MapOrder) (S : SortSlice) (image : string) (objs : list PartialObjectMetadata) :
  let names := (λ os, map po_Name os) <$> group_by po_Namespace objs in
  concat (map (λ ns, map (λ name, (image, ns, name)) (sort_strings (default [] (names !! ns)))) (sorted_keys names))
    ≡ₚ map (λ o, (image, po_Namespace o, po_Name o)) objs.
Proof.
  intros names. unfold names.
  assert (sorted_keys ((λ os, map po_Name os) <$> group_by po_Namespace objs) =
    sorted_keys (group_by po_Namespace objs)) as ->.
  { unfold sorted_keys. apply sort_strings_unique. rewrite !map_range_perm, map_to_list_fmap, <-list_fmap_compose.
    by apply fmap_Permutation. }
  trans (concat (map (λ ns, map (λ o, (image, po_Namespace o, po_Name o)) (with_key po_Namespace ns objs))
    (sorted_keys (group_by po_Namespace objs)))).
  - apply concat_map_perm. intros ns _. rewrite lookup_fmap, <-group_by_bucket.
    rewrite (Permutation_map _ (sort_strings_perm _)).
    destruct (group_by po_Namespace objs !! ns) as [os|] eqn:Hos; simpl; [|done]. rewrite map_map.
    assert (os = with_key po_Namespace ns objs) as -> by (by rewrite <-group_by_bucket, Hos).
    apply reflexive_eq, map_ext_in. intros o [_ Ho%String.eqb_eq]%filter_In. by rewrite Ho.
  - rewrite <-(map_map (λ ns, with_key po_Namespace ns objs) (map _)), <-concat_map. apply Permutation_map, group_by_perm.
Qed.

(** ** A concrete cluster *)
Module ImpactedRun.
(** Paths, and the software annotation read from a field of its own. *)
#[export] Instance jq : GoJq := {|
  gojq_run obj q :=
    if has_prefix ".spec.tags[]?" q then
      match nested ["software"] obj with
      | Some (JStr s) => if str_contains (quote (to_lower s)) q then JqValue (JStr s) else JqNoResult
      | _ => JqNoResult
      end
    else match nested (tail (split_on dot q)) obj with Some v => JqValue v | None => JqValue JNull end |}.

Definition item (sha : string) : json := JObj [("image", JStr sha); ("dockerImageReference", JStr ("quay.io/nb@" +:+ sha))].
Definition tag (name sha : string) : json := JObj [("tag", JStr name); ("items", JArr [item sha])].
Definition stream (name version software : string) (tags : list json) : json :=
  JObj [("metadata", JObj [("name", JStr name); ("namespace", JStr "apps");
                           ("annotations", JObj [(ootbPlatformVersionAnnotation, JStr version)])]);
        ("software", JStr software); ("status", JObj [("tags", JArr tags)])].
Definition code := stream "code" "2.25" "code-server" [tag "2025.2" "sha256:new"; tag "2024.1" "sha256:old"].
Definition mine := stream "mine" "" "code-server" [tag "1.0" "sha256:old"].
Definition notebook (name image : string) : json :=
  JObj [("metadata", JObj [("name", JStr name); ("namespace", JStr "user")]);
        ("spec", JObj [("template", JObj [("spec", JObj [("containers", JArr
           [JObj [("name", JStr name); ("image", JStr image)]])])])])].
Definition dsci : json := JObj [("spec", JObj [("applicationsNamespace", JStr "apps")])].

#[export] Instance server : ApiServer := {|
  srv_list _ _ _ := Ok ([], ""); srv_get _ _ _ := Err (EForeign 2 "not found"); srv_discovery := None |}.
Definition lister (streams : list json) (rt : ResourceType) (o : ListOptions) : res go_error (list json) :=
  if String.eqb (rt_Kind rt) "ImageStream" then Ok streams
  else if String.eqb (rt_Kind rt) "DSCInitialization" then Ok [dsci] else Ok [].
Lemma server_no_panic rt ns name s : srv_get (ApiServer := server) rt ns name ≠ Panic s.
Proof. done. Qed.
End ImpactedRun.
Import (hints) ClientRun VersionRun ImpactedRun.

(** ** Properties *)
Module ImpactedSpec.
(** C39: Parsing inverts assembly: for every path whose colons belong to a port,
    every tag without separators and every digest, the reference assembled from
    them is taken apart into exactly these parts. *)
Theorem parseImageReference_roundtrip (path tag sha : string) :
  path_ok path → tag_ok tag → contains_byte "@"%char sha = false →
  let ref := parseImageReference (assemble path tag sha) in
  ref_FullPath ref = path ∧ ref_Tag ref = tag ∧ ref_SHA ref = sha ∧
  ref_Name ref = match cut_last slash path with Some (_, name) => name | None => path end.
Proof.
  intros Hp Ht Hs. unfold parseImageReference, assemble.
  rewrite (cut_digest path (if String.eqb tag "" then "" else ":" +:+ tag) sha); [|..|done].
  - rewrite (cut_tag path tag) by done. done.
  - rewrite contains_byte_app, (proj1 Hp). destruct (String.eqb tag ""); [done|]. simpl. apply Ht.
Qed.

Lemma parseImageReference_roundtrip_witness :
  (path_ok "registry:5000/ns/nb" ∧ tag_ok "2025.2") ∧
  ref_Tag (parseImageReference (assemble "registry:5000/ns/nb" "2025.2" "sha256:ab")) = "2025.2".
Proof.
  assert (path_ok "registry:5000/ns/nb") as Hp by (split; [done|intros l r [= <- <-]; done]).
  assert (tag_ok "2025.2") as Ht by done. split; [done|].
  apply (parseImageReference_roundtrip "registry:5000/ns/nb" "2025.2" "sha256:ab" Hp Ht eq_refl).
Defined.

(** The order of version tags: the comparison is lexicographic on year and
    minor number, total and transitive on valid tags; a minor number outside
    the range of a 64-bit integer saturates, so all of those compare equal. *)
Theorem isTagGTE_order (t1 t2 t3 y1 m1 y2 m2 y3 m3 : string) :
  versionTag_submatch t1 = Some (y1, m1) → versionTag_submatch t2 = Some (y2, m2) →
  versionTag_submatch t3 = Some (y3, m3) →
  (isTagGTE t1 t2 = true ↔ decimal 0 y2 < decimal 0 y1 ∨
     decimal 0 y1 = decimal 0 y2 ∧ (decimal 0 m2 <= decimal 0 m1 ∨ max_int64 <= decimal 0 m1)) ∧
  (isTagGTE t1 t2 = true ∨ isTagGTE t2 t1 = true) ∧
  (isTagGTE t1 t2 = true → isTagGTE t2 t3 = true → isTagGTE t1 t3 = true).
Proof.
  intros H1 H2 H3. rewrite (isTagGTE_lex _ _ _ _ _ _ H1 H2), (isTagGTE_lex _ _ _ _ _ _ H2 H1),
    (isTagGTE_lex _ _ _ _ _ _ H2 H3), (isTagGTE_lex _ _ _ _ _ _ H1 H3). lia.
Qed.

Lemma isTagGTE_order_witness :
  isTagGTE "2025.99999999999999999999" "2025.88888888888888888888" = true ∧
  isTagGTE "2025.88888888888888888888" "2025.99999999999999999999" = true.
Proof.
  pose proof (isTagGTE_order "2025.99999999999999999999" "2025.88888888888888888888" "2024.1" _ _ _ _ _ _
    eq_refl eq_refl eq_refl) as [H _].
  split; [|reflexivity]. apply H. right. split; [reflexivity|]. right. by vm_compute.
Defined.

(** A build reference is accepted exactly when it reads rhoai-X.Y or
    rhoai-X.Y.Z with X at least 3. *)
Theorem isCompliantBuildRef_iff (buildRef : string) :
  isCompliantBuildRef buildRef = true ↔
  ∃ major rest, buildRef = "rhoai-" +:+ join "." (major :: rest) ∧ 3 <= decimal 0 major ∧
    (length rest = 1%nat ∨ length rest = 2%nat) ∧ Forall (λ p, digits_plus p = true) (major :: rest).
Proof.
  assert (∀ major minor, digits_plus major = true → digits_plus minor = true →
    (if nginxFixMin.1 <? (Atoi major).1 then true
     else ((Atoi major).1 =? nginxFixMin.1) && (nginxFixMin.2 <=? (Atoi minor).1)) = true ↔ 3 <= decimal 0 major) as Hcmp.
  { intros ma mi Hma Hmi. change nginxFixMin with (3, 0). cbn [fst snd].
    destruct (Atoi_digits ma Hma) as [-> _]. destruct (Atoi_digits mi Hmi) as [-> Hmi0].
    destruct (Z.ltb_spec 3 (Z.min max_int64 (decimal 0 ma))) as [H|H]; unfold max_int64 in *; [lia|].
    rewrite andb_true_iff, Z.eqb_eq, Z.leb_le. unfold max_int64. lia. }
  unfold isCompliantBuildRef, rhoaiVersion_submatch, cut_prefix. split.
  - destruct (has_prefix "rhoai-" buildRef) eqn:Hp; [|done]. apply has_prefix_spec in Hp as [rest ->].
    rewrite drop_bytes_app. pose proof (join_split_on dot rest) as Hj.
    destruct (split_on dot rest) as [|ma [|mi [|pa [|]]]]; try done.
    + destruct (digits_plus ma && digits_plus mi) eqn:Hd; [|done]. apply andb_true_iff in Hd as [Hma Hmi].
      intros H%Hcmp; [|done..]. exists ma, [mi]. rewrite <-Hj. do 2 (split; [done|]). split; [auto|by repeat constructor].
    + destruct (digits_plus ma && digits_plus mi && digits_plus pa) eqn:Hd; [|done].
      apply andb_true_iff in Hd as [[Hma Hmi]%andb_true_iff Hpa].
      intros H%Hcmp; [|done..]. exists ma, [mi; pa]. rewrite <-Hj. do 2 (split; [done|]). split; [auto|by repeat constructor].
  - intros (ma & rest & -> & H3 & Hlen & Hd). rewrite has_prefix_app, drop_bytes_app.
    assert (∀ p, digits_plus p = true → contains_byte dot p = false) as Hdot.
    { intros p [_ Hp]%andb_true_iff. by apply all_digits_no_dot. }
    assert (∀ a s, contains_byte dot a = false → split_on dot (a +:+ String dot s) = a :: split_on dot s) as Hsplit.
    { intros a s. induction a as [|c a IH]; intros Ha; [done|]. simpl in Ha |- *.
      apply orb_false_iff in Ha as [-> Ha]. by rewrite IH. }
    assert (∀ a, contains_byte dot a = false → split_on dot a = [a]) as Hone.
    { intros a. induction a as [|c a IH]; intros Ha; [done|]. simpl in Ha |- *.
      apply orb_false_iff in Ha as [-> Ha]. by rewrite IH. }
    apply Forall_cons in Hd as [Hma Hd].
    destruct rest as [|mi [|pa [|]]]; simpl in Hlen; try lia; simpl join.
    + apply Forall_cons in Hd as [Hmi _]. change ("." +:+ mi) with (String dot mi).
      rewrite Hsplit, Hone, Hma, Hmi by auto. simpl. by apply Hcmp.
    + apply Forall_cons in Hd as [Hmi [Hpa _]%Forall_cons]. change ("." +:+ mi +:+ "." +:+ pa) with (String dot (mi +:+ String dot pa)).
      rewrite Hsplit, Hsplit, Hone, Hma, Hmi, Hpa by auto. simpl. by apply Hcmp.
Qed.

(** The verdict on an image judged by its tag is determined by two facts: the
    tag (the one found by digest when the reference has none) and whether some
    ImageStream lists the digest under a tag of the form YYYY.N that is at
    least 2025.2.  GOOD needs one of them, PRE_UPGRADE a valid old tag without
    the other, and everything else is unverified. *)
Theorem analyzeTagBased_decides `{JQ : GoJq} imageName imageTag imageSHA ty streams :
  let tag := if String.eqb imageTag "" then findTagForSHA imageSHA imageName streams else imageTag in
  let status := ia_Status (analyzeTagBasedImageCompat imageName imageTag imageSHA ty streams) in
  (status = ImageStatusGood ↔ compliant_tag tag = true ∨ has_compliant_sha imageSHA streams) ∧
  (status = ImageStatusPreUpgradeActionRequired ↔
     isValidVersionTag tag = true ∧ compliant_tag tag = false ∧ ¬ has_compliant_sha imageSHA streams) ∧
  (status = ImageStatusVerifyFailed ↔ isValidVersionTag tag = false ∧ ¬ has_compliant_sha imageSHA streams).
Proof.
  intros tag status. subst status. unfold analyzeTagBasedImageCompat. fold tag.
  pose proof (findCompliantTagForSHA_spec imageSHA streams) as Hsha. unfold compliant_tag.
  assert (imageSHA = "" → ¬ has_compliant_sha imageSHA streams) as Hempty by (intros -> [? _]; done).
  destruct (isValidVersionTag tag); [destruct (isTagGTE tag nginxFixMinTag)|]; simpl.
  - naive_solver.
  - destruct (String.eqb_spec (findCompliantTagForSHA imageSHA streams) ""); simpl; naive_solver.
  - destruct (String.eqb_spec imageSHA ""); simpl; [naive_solver|].
    destruct (String.eqb_spec (findCompliantTagForSHA imageSHA streams) ""); simpl; naive_solver.
Qed.

Section Spec.
Context `{SV : Semver, AE : ApiErrors, KE : K8sErrors, SRV : ApiServer, JQ : GoJq, CL : Clock, MO : MapOrder}.

(** C31: An image is called custom exactly when no ImageStream of the platform
    answers for it: by the full reference, else by the digest, else by the
    repository, else by the source, where each lookup by tags considers the
    first ImageStream with the value.  Every other image is judged as a tag of
    the ImageStream that answers. *)
Theorem analyzeImage_custom_iff ListWith image streams appNS :
  (∀ rt ns name s, srv_get rt ns name ≠ Panic s) → NoDup (map GetName streams) →
  ListWith ImageStream {| lo_Namespace := appNS; lo_LabelSelector := "app.kubernetes.io/part-of=workbenches";
                          lo_FieldSelector := ""; lo_Limit := 0 |} = Ok streams →
  ∃ ootbImages a, discoverOOTBImageStreams ListWith appNS = Ok (ootbImages, streams) ∧ analyzeImage image ootbImages streams appNS = Ok a ∧
    (ia_Status a = ImageStatusCustom ↔ ∀ stream tag, ¬ answers image streams stream tag) ∧
    (ia_Status a ≠ ImageStatusCustom → ∃ stream tag, answers image streams stream tag ∧
       analyzeOOTBImage (input_of image stream tag) streams appNS = Ok a).
Proof.
  intros Hp Hnd Hl. exists (foldl add_ootb ∅ streams). unfold discoverOOTBImageStreams, ootbLabel. rewrite Hl. unfold analyzeImage.
  pose proof (correlate_spec image streams Hnd) as Hc. destruct (correlate image _ streams) as [input|].
  - destruct Hc as (stream & tag & Ha & ->). destruct (analyzeOOTBImage_total Hp (input_of image stream tag) streams appNS) as (a & Hok & Hnc).
    exists a. split; [done|]. split; [done|]. split; [|by eauto]. split; [done|]. intros Hno. by destruct (Hno stream tag).
  - eexists. split; [done|]. split; [reflexivity|]. by split.
Qed.

(** The status of a notebook is that of the first container of the highest
    priority PRE_UPGRADE, POST_UPGRADE, VERIFY_FAILED, CUSTOM, GOOD; its image
    is the one reported, unless that container has none. *)
Theorem aggregate_worst_container ns name analyses :
  analyses ≠ [] →
  let r := aggregateImageAnalyses ns name analyses in
  na_Namespace r = ns ∧ na_Name r = name ∧
  ∃ l1 a l2, analyses = (l1 ++ a :: l2)%list ∧ na_Status r = ia_Status a ∧
    Forall (λ b, rank (ia_Status b) < rank (ia_Status a)) l1 ∧
    Forall (λ b, rank (ia_Status b) <= rank (ia_Status a)) l2 ∧
    (ia_ImageRef a ≠ "" ∨ rank (ia_Status a) < 3 → na_ImageRef r = ia_ImageRef a).
Proof.
  intros Hne r. assert (na_Namespace r = ns ∧ na_Name r = name) as [Hns Hn].
  { subst r. unfold aggregateImageAnalyses. by repeat case_match. }
  split; [done|]. split; [done|].
  destruct (aggregate_first ns name analyses Hne) as (a & rest & Ha & Hmax & Href). fold r in Ha, Hmax, Href.
  destruct (most_severe _ _ _ _ Ha Hmax) as (l1 & l2 & -> & Hs & H1 & H2).
  exists l1, a, l2. rewrite Hs in Href |- *. auto 10.
Qed.
End Spec.

(** The digest is that of a tag of the platform and of a copy of the user; the
    copy is listed first, so the image is custom. *)
Lemma analyzeImage_custom_iff_witness (clock := 0 : Clock) (O := canonical_MapOrder) :
  let streams := [ImpactedRun.mine; ImpactedRun.code] in
  (∀ stream tag, ¬ answers (JQ := ImpactedRun.jq) "quay.io/nb@sha256:old" streams stream tag) ∧
  (∃ stream tag, answers (JQ := ImpactedRun.jq) "quay.io/nb@sha256:new" streams stream tag ∧
     analyzeOOTBImage (SRV := ImpactedRun.server) (JQ := ImpactedRun.jq) (input_of (JQ := ImpactedRun.jq) "quay.io/nb@sha256:new" stream tag) streams "apps" =
       Ok (verdict ImageStatusGood "codeserver image with tag 2025.2 (>= 2025.2, has nginx fix)")).
Proof.
  intros streams.
  assert (∀ image, ∃ ootbImages a, discoverOOTBImageStreams (JQ := ImpactedRun.jq) (ImpactedRun.lister streams) "apps" = Ok (ootbImages, streams) ∧
    analyzeImage (SRV := ImpactedRun.server) (JQ := ImpactedRun.jq) image ootbImages streams "apps" = Ok a ∧ _) as H
    by (intros image; apply (analyzeImage_custom_iff (SRV := ImpactedRun.server) (JQ := ImpactedRun.jq) (ImpactedRun.lister streams) image streams "apps"
      ImpactedRun.server_no_panic); [by apply (bool_decide_unpack _); vm_compute|reflexivity]).
  split.
  - destruct (H "quay.io/nb@sha256:old") as (o & a & Hd & Ha & Hiff & _). vm_compute in Hd. injection Hd as <-. vm_compute in Ha. injection Ha as <-.
    apply Hiff. reflexivity.
  - destruct (H "quay.io/nb@sha256:new") as (o & a & Hd & Ha & _ & Hx). vm_compute in Hd. injection Hd as <-. vm_compute in Ha. injection Ha as <-.
    apply Hx. done.
Defined.

Lemma aggregate_worst_container_witness :
  let custom := mkIA "a" "i1" ImageStatusCustom "r1" in
  let failed := mkIA "b" "i2" ImageStatusVerifyFailed "r2" in
  na_Name (aggregateImageAnalyses "ns" "nb" [custom; failed]) = "nb".
Proof.
  intros custom failed.
  destruct (aggregate_worst_container "ns" "nb" [custom; failed]) as (_ & Hn & _); [done|exact Hn].
Defined.

(** A user's own ImageStream listed first hides the operator's: the lookups
    stop at the first ImageStream with the digest, find it unmanaged, and the
    image of an out-of-the-box notebook is called custom. *)
Example unmanaged_stream_hides_managed (O := canonical_MapOrder) :
  let analyze streams := analyzeImage (SRV := ImpactedRun.server) (JQ := ImpactedRun.jq) "quay.io/nb@sha256:old"
    (foldl (add_ootb (JQ := ImpactedRun.jq)) ∅ streams) streams "apps" in
  ia_Status <$> res_opt (analyze [ImpactedRun.code; ImpactedRun.mine]) = Some ImageStatusPreUpgradeActionRequired ∧
  ia_Status <$> res_opt (analyze [ImpactedRun.mine; ImpactedRun.code]) = Some ImageStatusCustom.
Proof. by vm_compute. Qed.

(** C25: What the check reports when there are notebooks and the namespace and the
    ImageStreams can be read: every notebook is analysed; the condition is true,
    and without impact, exactly when all are GOOD; it is advisory when some
    are not and none needs an action before the upgrade; the remediation is
    that of incompatible images exactly when one is; the counters partition the
    notebooks; and the impacted objects are, in order, those whose status is
    PRE_UPGRADE, POST_UPGRADE or CUSTOM. *)
Theorem analyzeNotebooks_report `{SV : Semver, AE : ApiErrors, KE : K8sErrors, SRV : ApiServer, JQ : GoJq, CL : Clock,
      MO : MapOrder} ListWith (req : WorkloadRequest (T := json)) appNS discovered :
  (∀ rt ns name s, srv_get rt ns name ≠ Panic s) → wr_Items req ≠ [] →
  GetApplicationsNamespace (ListPlain ListWith) = Ok appNS →
  discoverOOTBImageStreams ListWith appNS = Ok discovered →
  ∃ analyses dr cond, analyzeNotebooks ListWith req = Ok dr ∧
    Forall2 (λ nb a, analyzeNotebook discovered.1 discovered.2 appNS nb = Ok a) (wr_Items req) analyses ∧
    r_Conditions dr = set_condition cond (r_Conditions (wr_Result req)) ∧ validateCondition cond = Ok () ∧
    (c_Status cond = ConditionTrue ↔ Forall (λ a, na_Status a = ImageStatusGood) analyses) ∧
    (c_Impact cond = ImpactNone ↔ Forall (λ a, na_Status a = ImageStatusGood) analyses) ∧
    ((∀ a, a ∈ analyses → na_Status a ≠ ImageStatusPreUpgradeActionRequired) → c_Status cond ≠ ConditionTrue → c_Impact cond = ImpactAdvisory) ∧
    (c_Status cond ≠ ConditionTrue →
       c_Remediation cond = CheckRemediation ↔ ∃ a, a ∈ analyses ∧ na_Status a = ImageStatusPreUpgradeActionRequired) ∧
    Z.of_nat (length (wr_Items req)) =
      foldr (λ s n, sc_count (counter (countByStatus analyses) s) + n) 0 all_statuses ∧
    r_ImpactedObjects dr = Some (map impacted_notebook (List.filter (λ a, bool_decide (na_Status a ∈
      [ImageStatusPreUpgradeActionRequired; ImageStatusPostUpgradeActionRequired; ImageStatusCustom])) analyses)) ∧
    r_Annotations dr !! AnnotationResourceCRDName = Some "notebooks.kubeflow.org".
Proof.
  intros Hp Hne Hns Hd. unfold analyzeNotebooks.
  destruct (wr_Items req) as [|nb items] eqn:Hitems; [done|]. clear Hne.
  rewrite Hns. cbn [res_bind res_map_err]. rewrite Hd. cbn [res_bind res_map_err]. destruct discovered as [ootb streams].
  destruct (traverse_total (analyzeNotebook ootb streams appNS) (nb :: items)) as (analyses & Ht & H2);
    [intros x; by apply analyzeNotebook_total|]. rewrite Ht. cbn [res_bind].
  destruct (setConditions_spec (wr_Result req) analyses (MajorMinorLabel (t_TargetVersion (wr_Target req))))
    as (cond & -> & Hv & Hty & Hc). cbn [res_bind].
  exists analyses. do 2 eexists. split; [reflexivity|]. split; [done|]. split; [reflexivity|]. split; [done|].
  split; [|split; [|split; [|split]]].
  { case_bool_decide as Hall; destruct Hc as [Hs Hc]; rewrite Hs; [done|]. split; [done|]. intros; by destruct Hall. }
  { case_bool_decide as Hall; [by destruct Hc as [_ ->]|]. destruct Hc as (_ & -> & _). split; [done|]. intros; by destruct Hall. }
  { intros _ Hs. by destruct (bool_decide _); [destruct Hc|destruct Hc as (_ & Hi & _)]. }
  { intros Hs. by destruct (bool_decide _); [destruct Hc|destruct Hc as (_ & _ & _ & Hr)]. }
  split; [|split; [|simpl; apply lookup_insert_eq]].
  - rewrite (Forall2_length _ _ _ H2), of_status_partition. simpl. by rewrite !counter_spec.
  - simpl. do 2 f_equal. apply filter_ext. intros a. by destruct (na_Status a).
Qed.

Lemma analyzeNotebooks_report_witness (clock := 0 : Clock) (O := canonical_MapOrder) :
  let req := mkWorkloadRequest (mkTarget _ None None None false false) (New "workload" "notebook" "t" "d")
    [ImpactedRun.notebook "a" "quay.io/nb@sha256:old"; ImpactedRun.notebook "b" "quay.io/nb@sha256:new"] in
  ∃ dr objs, analyzeNotebooks (SRV := ImpactedRun.server) (JQ := ImpactedRun.jq) (ImpactedRun.lister [ImpactedRun.code]) req
      = Ok dr ∧ r_ImpactedObjects dr = Some objs.
Proof.
  intros req.
  assert (Hd : ∃ d, discoverOOTBImageStreams (JQ := ImpactedRun.jq) (ImpactedRun.lister [ImpactedRun.code]) "apps" = Ok d)
    by (eexists; vm_compute; reflexivity).
  destruct Hd as [d Hd].
  destruct (analyzeNotebooks_report (SRV := ImpactedRun.server) (JQ := ImpactedRun.jq) (ImpactedRun.lister [ImpactedRun.code])
    req "apps" d ImpactedRun.server_no_panic ltac:(done) ltac:(vm_compute; reflexivity) Hd)
    as (analyses & dr & cond & Hr & _ & _ & _ & _ & _ & _ & _ & _ & Ho & _).
  exists dr. eexists. exact (conj Hr Ho).
Defined.

(** The verbose listing: it does not depend on map order or sorting algorithm;
    the groups are distinct images in the order of severity and then of the
    image; each header counts the notebooks of its image; and flattened the
    listing holds every impacted object exactly once, below its own image and
    namespace. *)
Theorem impacted_verbose_exact (O1 O2 : MapOrder) (S1 S2 : SortSlice) (dr : DiagnosticResult) :
  let objects := default [] (r_ImpactedObjects dr) in
  let layout := image_layout (MO := O1) (SS := S1) objects in
  Impacted_FormatVerboseOutput (MO := O1) (SS := S1) dr = Impacted_FormatVerboseOutput (MO := O2) (SS := S2) dr ∧
  NoDup (map (λ g, ig_imageRef g.1) layout) ∧
  StronglySorted (λ a b, image_less b a = false) (map fst layout) ∧
  (∀ g, g ∈ layout → ig_count g.1 = Z.of_nat (length (with_key image_of (ig_imageRef g.1) objects))) ∧
  concat (map (λ g, concat (map (λ b, map (λ name, (ig_imageRef g.1, b.1, name)) b.2) g.2)) layout)
    ≡ₚ map (λ o, (image_of o, po_Namespace o, po_Name o)) objects.
Proof.
  intros objects layout.
  destruct (group_by_image_spec objects) as (refs & ix & Hf & Hnd & Hrefs & _).
  assert (group_by_image objects = map (group_spec objects) refs) as Hg by (unfold group_by_image; by rewrite Hf).
  set (groups := insertion_sort image_less (group_by_image objects)).
  assert (groups ≡ₚ map (group_spec objects) refs) as Hperm by (unfold groups; by rewrite insertion_sort_perm, Hg).
  assert (∀ g, g ∈ groups → g = group_spec objects (ig_imageRef g)) as Hspec.
  { intros g Hin. rewrite Hperm in Hin. by apply list_elem_of_fmap in Hin as (r & -> & _). }
  set (row := λ (O : MapOrder) (S : SortSlice) (g : imageGroup), (g, map (λ ns, (ns, sort_strings (SS := S)
    (default [] (ig_namespaces g !! ns)))) (sorted_keys (MO := O) (SS := S) (ig_namespaces g)))).
  assert (∀ O S, image_layout (MO := O) (SS := S) objects = map (row O S) groups) as Hl by done.
  split; [|split; [|split; [|split]]].
  - unfold Impacted_FormatVerboseOutput. fold objects. rewrite !Hl. f_equal. f_equal. apply map_ext. intros g.
    unfold row. f_equal. rewrite (sorted_keys_unique O1 O2 S1 S2). apply map_ext. intros ns. f_equal.
    by apply sort_strings_unique.
  - unfold layout. rewrite Hl, map_map. simpl. rewrite (Permutation_map ig_imageRef Hperm), map_map. simpl. by rewrite map_id.
  - unfold layout. rewrite Hl, map_map. simpl. rewrite map_id. apply (sort_slice_sorted (SortSlice := insertion_SortSlice)), image_less_strict.
  - unfold layout. rewrite Hl. intros ? (g & -> & Hin)%list_elem_of_fmap. simpl. by rewrite (Hspec g Hin) at 1.
  - unfold layout. rewrite Hl, map_map.
    trans (concat (map (λ g, map (λ o, (ig_imageRef g, po_Namespace o, po_Name o)) (with_key image_of (ig_imageRef g) objects)) groups)).
    + apply concat_map_perm. intros g Hin. unfold row. cbn [fst snd]. rewrite (Hspec g Hin). simpl. rewrite map_map.
      apply group_names_perm.
    + rewrite (Permutation_map _ Hperm), map_map. simpl.
      trans (concat (map (λ r, map (λ o, (image_of o, po_Namespace o, po_Name o)) (with_key image_of r objects)) refs)).
      { apply concat_map_perm. intros r _. apply reflexive_eq, map_ext_in.
        intros o [_ Ho%String.eqb_eq]%filter_In. by rewrite Ho. }
      rewrite <-(map_map (λ r, with_key image_of r objects) (map _)), <-concat_map.
      apply Permutation_map, buckets_perm; [done|]. intros o Ho. apply Hrefs, list_elem_of_In, in_map. by apply list_elem_of_In.
Qed.
End ImpactedSpec.
