(* ===== verification/NotebookChecks.v ===== *)
(** * NotebookChecks: the other checks of pkg/lint/checks/workloads/notebook

    accelerator_migration.go, connection_integrity.go, container_name.go and
    container_name_support.go, hardware_profile_integrity.go,
    hardwareprofile_migration.go, non_stopped_workloads.go, and
    resolveResourceType of utils.go.  Each check is its callback on a workload
    request and the call of the builder of Validate. *)
From Stdlib Require Import Ascii.
From S2P Require Import Prelude GoStrings Errors Client Version Result Check Verbose Validate DepsCheck BackupDeps.
From S2P Require Import WorkloadHelpers NotebookImpacted.
Open Scope string_scope.
Open Scope Z_scope.
Open Scope go_scope.

(** ** Constants *)
Definition ConditionTypeAcceleratorProfileCompatible := "AcceleratorProfileCompatible".
Definition ConditionTypeConnectionIntegrity := "ConnectionIntegrity".
Definition ConditionTypeContainerNameValid := "ContainerNameValid".
Definition ConditionTypeHardwareProfileCompatible := "HardwareProfileCompatible".
Definition ConditionTypeHardwareProfileIntegrity := "HardwareProfileIntegrity".
Definition ConditionTypeNonStoppedWorkloads := "NonStoppedWorkloads".
Definition AnnotationKubeflowResourceStopped := "kubeflow-resource-stopped".
Definition AnnotationHardwareProfileName := "opendatahub.io/hardware-profile-name".
Definition AnnotationHardwareProfileNamespace := "opendatahub.io/hardware-profile-namespace".
Definition AnnotationConnections := "opendatahub.io/connections".
Definition AnnotationLegacyHardwareProfile := "opendatahub.io/legacy-hardware-profile-name".
Definition annotationLastSizeSelection := "notebooks.opendatahub.io/last-size-selection".
Definition AnnotationCheckContainerState := "check.opendatahub.io/container-state".
Definition AnnotationCheckContainerWaitReason := "check.opendatahub.io/container-wait-reason".
Definition ContainerStateRunning := "running".
Definition ContainerStateWaiting := "waiting".
Definition CustomResourceDefinition : ResourceType :=
  mkResourceType "apiextensions.k8s.io" "v1" "CustomResourceDefinition" "customresourcedefinitions".
Definition InfrastructureHardwareProfile : ResourceType :=
  mkResourceType "infrastructure.opendatahub.io" "v1" "HardwareProfile" "hardwareprofiles".

(** [dr.Status.Conditions = append(dr.Status.Conditions, c)]. *)
Definition append_condition (dr : DiagnosticResult) (c : Condition) : DiagnosticResult :=
  with_conditions dr (r_Conditions dr ++ [c])%list.
Definition count_annotation (dr : DiagnosticResult) (n : nat) : DiagnosticResult :=
  with_annotation dr AnnotationImpactedWorkloadCount (itoa (Z.of_nat n)).

Section Checks.
Context `{SV : Semver, AE : ApiErrors, KE : K8sErrors, SRV : ApiServer, JQ : GoJq, CL : Clock, MO : MapOrder}.
Context (ListWith : ResourceType → ListOptions → res go_error (list json)).
Context (ListMetadataWith : ResourceType → ListOptions → res go_error (list PartialObjectMetadata)).
Notation ListPlain := (ListPlain ListWith).
Notation MetaRequest := (WorkloadRequest (T := PartialObjectMetadata)).

(** [validate.Workloads] and [validate.WorkloadsMetadata] with
    [ForComponent(workbenches)]. *)
Definition metadata_builder (c : Check) (target : Target) (filter : option (PartialObjectMetadata → res go_error bool))
    : WorkloadBuilder (T := PartialObjectMetadata) :=
  {| wb_check := c; wb_target := target; wb_resourceType := Notebook; wb_listFn := ListMetadata ListMetadataWith Notebook;
     wb_filterFn := filter; wb_componentNames := ["workbenches"] |}.
Definition objects_builder (c : Check) (target : Target) (filter : option (json → res go_error bool))
    : WorkloadBuilder (T := json) :=
  {| wb_check := c; wb_target := target; wb_resourceType := Notebook; wb_listFn := ListPlain Notebook;
     wb_filterFn := filter; wb_componentNames := ["workbenches"] |}.

(** *** accelerator_migration.go *)
Definition accelerator_remediation :=
  "Deprecated AcceleratorProfiles will be automatically migrated to HardwareProfiles (infrastructure.opendatahub.io) during upgrade - no manual action required".
Definition newAcceleratorMigrationCondition (totalImpacted totalMissing : Z) : res go_error Condition :=
  let tail := ": AcceleratorProfiles and Notebook references are automatically migrated to HardwareProfiles (infrastructure.opendatahub.io) during upgrade" in
  if totalImpacted =? 0 then
    NewCondition ConditionTypeAcceleratorProfileCompatible ConditionTrue
      [WithReason ReasonVersionCompatible;
       WithMessage "No Notebooks found using deprecated AcceleratorProfiles - no migration needed"]
  else if 0 <? totalMissing then
    NewCondition ConditionTypeAcceleratorProfileCompatible ConditionFalse
      [WithReason ReasonResourceNotFound;
       WithMessage ("Found " +:+ itoa totalImpacted +:+ " Notebook(s) referencing deprecated AcceleratorProfiles (" +:+
         itoa totalMissing +:+ " missing)" +:+ tail);
       WithImpact ImpactAdvisory; WithRemediation accelerator_remediation]
  else
    NewCondition ConditionTypeAcceleratorProfileCompatible ConditionFalse
      [WithReason ReasonMigrationPending;
       WithMessage ("Found " +:+ itoa totalImpacted +:+ " Notebook(s) using deprecated AcceleratorProfiles" +:+ tail);
       WithImpact ImpactAdvisory; WithRemediation accelerator_remediation].

Definition checkAcceleratorRefs (req : MetaRequest) : res go_error DiagnosticResult :=
  let! found := FilterWorkloadsWithAcceleratorRefs ListWith ListMetadataWith (wr_Items req) in
  let '(impacted, missingCount) := found in
  let dr := count_annotation (wr_Result req) (length impacted) in
  let! cond := newAcceleratorMigrationCondition (Z.of_nat (length impacted)) missingCount in
  Ok (SetImpactedObjects (append_condition dr cond) Notebook impacted).
Definition AcceleratorMigration_Validate (c : Check) (target : Target) : res go_error (option DiagnosticResult) :=
  Workload_Run ListPlain (metadata_builder c target None) checkAcceleratorRefs.

(** *** connection_integrity.go *)
Definition parse_connection (notebookNamespace part : string) : option NamespacedName :=
  let part := trim_space part in
  if String.eqb part "" then None
  else
    let ref := match cut_first slash part with
      | Some (ns, name) => mkNN (if negb (String.eqb ns "") then ns else notebookNamespace) name
      | None => mkNN notebookNamespace part
      end in
    if negb (String.eqb (nn_Name ref) "") then Some ref else None.
Definition parseConnections (value notebookNamespace : string) : list NamespacedName :=
  omap (parse_connection notebookNamespace) (split_on ","%char value).

(** A notebook and the objects it refers to. *)
Record notebookRefs := mkRefs { nr_namespace : string; nr_name : string; nr_refs : list NamespacedName }.

Definition connected_notebook (nb : PartialObjectMetadata) : option notebookRefs :=
  let connValue := GetAnnotation (po_Annotations nb) AnnotationConnections in
  if String.eqb connValue "" then None
  else match parseConnections connValue (po_Namespace nb) with
       | [] => None
       | refs => Some (mkRefs (po_Namespace nb) (po_Name nb) refs)
       end.

(** [for ns := range namespaces] of a set of strings. *)
Definition set_range (s : gset string) : list string := (map_range (gset_to_gmap () s)).*1.
Definition target_namespaces (l : list notebookRefs) : gset string :=
  list_to_set (map nn_Namespace (concat (map nr_refs l))).

(** The loop of [buildSecretCache] and of [populateProfileCache]. *)
Fixpoint populate_cache (rt : ResourceType) (what : string) (namespaces : list string) (cache : gset NamespacedName)
    : res go_error (gset NamespacedName) :=
  match namespaces with
  | [] => Ok cache
  | ns :: rest =>
      match ListMetadataWith rt (in_namespace ns) with
      | Panic s => Panic s
      | Err err =>
          if IsResourceTypeNotFound err then populate_cache rt what rest cache
          else Err (errorf_w ("listing " +:+ what +:+ " in namespace " +:+ ns) err)
      | Ok items => populate_cache rt what rest (cache ∪ list_to_set (ToNamespacedNames items))
      end
  end.
Definition buildSecretCache (namespaces : gset string) : res go_error (gset NamespacedName) :=
  populate_cache Secret "Secrets" (set_range namespaces) ∅.

(** The second pass: one missing object is enough. *)
Definition impacted_notebooks (cache : gset NamespacedName) (l : list notebookRefs) : list NamespacedName :=
  map (λ nc, mkNN (nr_namespace nc) (nr_name nc))
    (List.filter (λ nc, existsb (λ ref, negb (bool_decide (ref ∈ cache))) (nr_refs nc)) l).

Definition connection_remediation :=
  "Create the missing connection Secret or update the Notebook annotations to reference an existing connection".
(** The two integrity conditions differ in type and texts only. *)
Definition integrity_condition (conditionType valid missing remediation : string) (totalImpacted : nat)
    : res go_error Condition :=
  if (totalImpacted =? 0)%nat then
    NewCondition conditionType ConditionTrue [WithReason ReasonRequirementsMet; WithMessage valid]
  else
    NewCondition conditionType ConditionFalse
      [WithReason ReasonResourceNotFound;
       WithMessage ("Found " +:+ itoa (Z.of_nat totalImpacted) +:+ " Notebook(s) referencing " +:+ missing);
       WithImpact ImpactBlocking; WithRemediation remediation].
Definition newConnectionCondition : nat → res go_error Condition :=
  integrity_condition ConditionTypeConnectionIntegrity "All Notebook connections reference existing Secrets"
    "connection Secrets that do not exist on the cluster" connection_remediation.

Definition finish_integrity (dr : DiagnosticResult) (newCondition : nat → res go_error Condition)
    (impacted : list NamespacedName) : res go_error DiagnosticResult :=
  let dr := count_annotation dr (length impacted) in
  let! cond := newCondition (length impacted) in
  Ok (SetImpactedObjects (append_condition dr cond) Notebook impacted).

Definition checkConnections (req : MetaRequest) : res go_error DiagnosticResult :=
  let connected := omap connected_notebook (wr_Items req) in
  let! secretCache := buildSecretCache (target_namespaces connected) in
  finish_integrity (wr_Result req) newConnectionCondition (impacted_notebooks secretCache connected).
Definition ConnectionIntegrity_Validate (c : Check) (target : Target) : res go_error (option DiagnosticResult) :=
  Workload_Run ListPlain (metadata_builder c target None) checkConnections.

(** *** utils.go: the storage version of a CRD *)
Definition storage_version (v : json) : option string :=
  match v with
  | JObj _ =>
      match nested ["storage"] v with
      | Some (JBool true) => if String.eqb (str_at "name" v) "" then None else Some (str_at "name" v)
      | _ => None
      end
  | _ => None
  end.
Definition resolveResourceType (rt : ResourceType) : res go_error ResourceType :=
  let crdName := rt_Resource rt +:+ "." +:+ rt_Group rt in
  try! crd := Get CustomResourceDefinition crdName "" else errorf_w ("getting CRD " +:+ crdName) in
  match crd with
  | None => Err (EString ("unable to read CRD " +:+ crdName +:+ ": insufficient permissions"))
  | Some crd =>
      try! versions := jq_Query_array crd ".spec.versions" else errorf_w ("reading versions from CRD " +:+ crdName) in
      match find_map storage_version versions with
      | Some v => Ok (mkResourceType (rt_Group rt) v (rt_Kind rt) (rt_Resource rt))
      | None => Err (EString ("no storage version found in CRD " +:+ crdName))
      end
  end.

(** *** hardware_profile_integrity.go *)
Definition profile_notebook (nb : PartialObjectMetadata) : option notebookRefs :=
  let profileName := GetAnnotation (po_Annotations nb) AnnotationHardwareProfileName in
  if String.eqb profileName "" then None
  else
    let profileNS := GetAnnotation (po_Annotations nb) AnnotationHardwareProfileNamespace in
    let profileNS := if String.eqb profileNS "" then po_Namespace nb else profileNS in
    Some (mkRefs (po_Namespace nb) (po_Name nb) [mkNN profileNS profileName]).

Definition profile_cache (referenced : list notebookRefs) : res go_error (gset NamespacedName) :=
  match referenced with
  | [] => Ok ∅
  | _ =>
      match resolveResourceType InfrastructureHardwareProfile with
      | Panic s => Panic s
      | Err resolveErr =>
          if IsNotFound resolveErr then Ok ∅ else Err (errorf_w "resolving HardwareProfile version" resolveErr)
      | Ok hwpResource =>
          populate_cache hwpResource "HardwareProfiles" (set_range (target_namespaces referenced)) ∅
      end
  end.

Definition profile_remediation :=
  "Create the missing HardwareProfile or update the Notebook annotations to reference an existing profile".
Definition newProfileCondition : nat → res go_error Condition :=
  integrity_condition ConditionTypeHardwareProfileIntegrity "All Notebooks reference existing HardwareProfiles"
    "HardwareProfiles that do not exist on the cluster" profile_remediation.
Definition checkHardwareProfiles (req : MetaRequest) : res go_error DiagnosticResult :=
  let referenced := omap profile_notebook (wr_Items req) in
  let! profileCache := profile_cache referenced in
  finish_integrity (wr_Result req) newProfileCondition (impacted_notebooks profileCache referenced).
Definition HardwareProfileIntegrity_Validate (c : Check) (target : Target) : res go_error (option DiagnosticResult) :=
  Workload_Run ListPlain (metadata_builder c target None) checkHardwareProfiles.

(** *** hardwareprofile_migration.go *)
Definition hasLegacyHardwareProfileAnnotation (obj : PartialObjectMetadata) : res go_error bool :=
  Ok (negb (String.eqb (GetAnnotation (po_Annotations obj) AnnotationLegacyHardwareProfile) "")).
Definition newLegacyProfileCondition (req : MetaRequest) : res go_error (list Condition) :=
  let count := length (wr_Items req) in
  if (count =? 0)%nat then
    let! cond := NewCondition ConditionTypeHardwareProfileCompatible ConditionTrue
      [WithReason ReasonNoMigrationRequired;
       WithMessage "No Notebooks found with legacy hardware profile annotation - no migration needed"] in
    Ok [cond]
  else
    let! cond := NewCondition ConditionTypeHardwareProfileCompatible ConditionFalse
      [WithReason ReasonMigrationPending;
       WithMessage ("Found " +:+ itoa (Z.of_nat count) +:+
         " Notebook(s) with legacy hardware profile annotation that may need attention");
       WithImpact ImpactAdvisory;
       WithRemediation "Update Notebooks to use current HardwareProfiles and remove the legacy-hardware-profile-name annotation"] in
    Ok [cond].
Definition HardwareProfileMigration_Validate (c : Check) (target : Target) : res go_error (option DiagnosticResult) :=
  Workload_Complete ListPlain (metadata_builder c target (Some hasLegacyHardwareProfileAnnotation)) newLegacyProfileCondition.

(** *** container_name.go, container_name_support.go *)
Definition hasDashboardAnnotation (annotations : gmap string string) : bool :=
  negb (String.eqb (at_key annotations AnnotationAcceleratorName) "") ||
  negb (String.eqb (at_key annotations annotationLastSizeSelection) "").
Definition hasDashboardAnnotationAndNameMismatch (nb : json) : res go_error bool :=
  if negb (hasDashboardAnnotation (GetAnnotations nb)) then Ok false
  else
    try! containers := ExtractWorkloadContainers nb
      else errorf_w ("extracting containers from notebook " +:+ GetNamespace nb +:+ "/" +:+ GetName nb) in
    match containers with
    | [] => Ok false
    | c :: _ => Ok (negb (String.eqb (nc_Name c) (GetName nb)))
    end.
Definition newContainerNameCondition (req : WorkloadRequest (T := json)) : res go_error (list Condition) :=
  let count := length (wr_Items req) in
  if (count =? 0)%nat then
    let! cond := NewCondition ConditionTypeContainerNameValid ConditionTrue
      [WithReason ReasonConfigurationValid; WithMessage "No Notebooks found with container name mismatch"] in
    Ok [cond]
  else
    let! cond := NewCondition ConditionTypeContainerNameValid ConditionFalse
      [WithReason ReasonConfigurationInvalid;
       WithMessage ("Found " +:+ itoa (Z.of_nat count) +:+
         " Notebook(s) where the primary container name does not match the Notebook CR name");
       WithImpact ImpactAdvisory;
       WithRemediation "Rename the primary container in the Notebook spec to match the Notebook CR name"] in
    Ok [cond].
Definition ContainerName_Validate (c : Check) (target : Target) : res go_error (option DiagnosticResult) :=
  Workload_Complete ListPlain (objects_builder c target (Some hasDashboardAnnotationAndNameMismatch)) newContainerNameCondition.

(** *** non_stopped_workloads.go *)
Definition isNotStopped (nb : json) : res go_error bool :=
  Ok (negb (ContainsAnnotation (GetAnnotations nb) AnnotationKubeflowResourceStopped)).

Record notebookState := mkState { ns_state : string; ns_waitReason : string }.
(** [jq.Query[map[string]any]] with the error dropped: an object or nil. *)
Definition object_at (obj : json) (query : string) : option json :=
  match gojq_run obj query with JqValue (JObj fields) => Some (JObj fields) | _ => None end.
Definition classifyNotebook (nb : json) : notebookState :=
  match object_at nb ".status.containerState.running" with
  | Some _ => mkState ContainerStateRunning ""
  | None =>
      match object_at nb ".status.containerState.waiting" with
      | Some waiting => mkState ContainerStateWaiting (str_at "reason" waiting)
      | None => mkState ContainerStateWaiting ""
      end
  end.

Definition state_annotations (st : notebookState) : gmap string string :=
  let m := {[AnnotationCheckContainerState := ns_state st]} : gmap string string in
  if negb (String.eqb (ns_waitReason st) "") then <[AnnotationCheckContainerWaitReason := ns_waitReason st]> m else m.
Definition non_stopped_object (nb : json) : PartialObjectMetadata :=
  mkPartial (ResourceType_TypeMeta Notebook) (GetNamespace nb) (GetName nb) (state_annotations (classifyNotebook nb)).
Definition in_state (state : string) (nb : json) : bool := String.eqb (ns_state (classifyNotebook nb)) state.

Definition analyzeNonStoppedWorkloads (req : WorkloadRequest (T := json)) : res go_error DiagnosticResult :=
  let notebooks := wr_Items req in
  match notebooks with
  | [] =>
      let! cond := NewCondition ConditionTypeNonStoppedWorkloads ConditionTrue
        [WithReason ReasonRequirementsMet; WithMessage "All Notebooks are stopped"] in
      Ok (SetCondition (wr_Result req) cond)
  | _ =>
      let runningCount := length (List.filter (in_state ContainerStateRunning) notebooks) in
      let waitingCount := length (List.filter (in_state ContainerStateWaiting) notebooks) in
      let dr := with_objects (wr_Result req) (map non_stopped_object notebooks) in
      let dr := with_annotation dr AnnotationResourceCRDName (CRDFQN Notebook) in
      let msgParts :=
        (["Found " +:+ itoa (Z.of_nat (length notebooks)) +:+ " non-stopped Notebook(s):"] ++
         (if (0 <? runningCount)%nat
          then ["  - " +:+ itoa (Z.of_nat runningCount) +:+ " running (should be stopped before upgrade)"] else []) ++
         (if (0 <? waitingCount)%nat
          then ["  - " +:+ itoa (Z.of_nat waitingCount) +:+ " waiting (should be stopped or deleted before upgrade)"] else []))%list in
      let! cond := NewCondition ConditionTypeNonStoppedWorkloads ConditionFalse
        [WithReason ReasonWorkloadsImpacted;
         WithMessage (join (String (ascii_of_nat 10) "") msgParts); WithImpact ImpactAdvisory;
         WithRemediation "Save all pending work in running Notebooks, then stop them before upgrading"] in
      Ok (SetCondition dr cond)
  end.
Definition NonStopped_Validate (c : Check) (target : Target) : res go_error (option DiagnosticResult) :=
  Workload_Run ListPlain (objects_builder c target (Some isNotStopped)) analyzeNonStoppedWorkloads.
(** *** The checks *)
Definition notebook_check (checkType id name description remediation : string) (can : Target → bool)
    (validate : Check → Target → res go_error (option DiagnosticResult)) : Check :=
  embed (mkBaseCheck GroupWorkload "notebook" checkType id name description remediation) (λ target, Ok (can target)) validate.
Definition upgrade_2x_to_3x (target : Target) : bool :=
  IsUpgradeFrom2xTo3x (t_CurrentVersion target) (t_TargetVersion target).
Definition NewAcceleratorMigrationCheck : Check :=
  notebook_check "acceleratorprofile-migration" "workloads.notebook.accelerator-migration"
    "Workloads :: Notebook :: AcceleratorProfile Migration (3.x)"
    "Detects Notebook (workbench) CRs referencing deprecated AcceleratorProfiles that will be auto-migrated to HardwareProfiles (infrastructure.opendatahub.io) during upgrade"
    accelerator_remediation upgrade_2x_to_3x AcceleratorMigration_Validate.
Definition NewConnectionIntegrityCheck : Check :=
  notebook_check "data-integrity" "workloads.notebook.connection-integrity" "Workloads :: Notebook :: Connection Integrity"
    "Verifies that Notebooks referencing connections have backing Secrets that exist on the cluster"
    connection_remediation (λ _, true) ConnectionIntegrity_Validate.
Definition NewContainerNameCheck : Check :=
  notebook_check "config-migration" "workloads.notebook.container-name-mismatch" "Workloads :: Notebook :: Container Name Mismatch"
    "Detects Dashboard-managed Notebook (workbench) CRs where the primary container name does not match the Notebook CR name"
    "Rename the primary container in the Notebook spec to match the Notebook CR name" (λ _, true) ContainerName_Validate.
Definition NewHardwareProfileIntegrityCheck : Check :=
  notebook_check "data-integrity" "workloads.notebook.hardware-profile-integrity" "Workloads :: Notebook :: HardwareProfile Integrity"
    "Verifies that Notebooks referencing infrastructure HardwareProfiles point to profiles that exist on the cluster"
    profile_remediation (λ _, true) HardwareProfileIntegrity_Validate.
Definition NewHardwareProfileMigrationCheck : Check :=
  notebook_check "config-migration" "workloads.notebook.hardwareprofile-migration"
    "Workloads :: Notebook :: Legacy HardwareProfile Migration"
    "Detects Notebook CRs carrying the legacy opendatahub.io/legacy-hardware-profile-name annotation that may need attention"
    "Update Notebooks to use current HardwareProfiles and remove the legacy-hardware-profile-name annotation"
    upgrade_2x_to_3x HardwareProfileMigration_Validate.
Definition NewNonStoppedWorkloadsCheck : Check :=
  notebook_check "workload-state" "workloads.notebook.non-stopped-workloads" "Workloads :: Notebook :: Non-Stopped Workloads"
    "Detects Notebook CRs that are not stopped on the cluster"
    "Save all pending work in running Notebooks, then stop them before upgrading" upgrade_2x_to_3x NonStopped_Validate.
End Checks.

(** *** FormatVerboseOutput of the non-stopped check *)
Definition state_of (obj : PartialObjectMetadata) : string := at_key (po_Annotations obj) AnnotationCheckContainerState.
Definition reason_key (obj : PartialObjectMetadata) : string :=
  let reason := at_key (po_Annotations obj) AnnotationCheckContainerWaitReason in
  if String.eqb reason "" then "Unknown" else reason.

Definition writeNamespaceGroups `{MO : MapOrder, SS : SortSlice} (crdName : string) (objects : list PartialObjectMetadata)
    (indent : string) (requesters : option (gmap string string)) : list string :=
  let nsMap := group_by po_Namespace objects in
  concat (map (λ ns,
    (indent +:+ namespaceHeader requesters ns) ::
    map (λ name, indent +:+ "  - " +:+ crdName +:+ "/" +:+ name)
      (sort_strings (map po_Name (default [] (nsMap !! ns))))) (sorted_keys nsMap)).

Definition NonStopped_FormatVerboseOutput `{MO : MapOrder, SS : SortSlice} (requesters : option (gmap string string))
    (dr : DiagnosticResult) : list string :=
  let crdName := CRDFullyQualifiedName dr in
  let objects := default [] (r_ImpactedObjects dr) in
  let running := with_key state_of ContainerStateRunning objects in
  let waitingByReason := group_by reason_key (with_key state_of ContainerStateWaiting objects) in
  ((if bool_decide (running = []) then []
    else ("    running (" +:+ itoa (Z.of_nat (length running)) +:+ " notebooks):") ::
         writeNamespaceGroups crdName running "      " requesters ++ [""]) ++
   (if bool_decide (waitingByReason = ∅) then []
    else
      let totalWaiting := length (concat (map_range waitingByReason).*2) in
      ("    waiting (" +:+ itoa (Z.of_nat totalWaiting) +:+ " notebooks):") ::
      concat (map (λ reason,
        let objs := default [] (waitingByReason !! reason) in
        (("      " +:+ reason +:+ " (" +:+ itoa (Z.of_nat (length objs)) +:+ "):") ::
         writeNamespaceGroups crdName objs "        " requesters ++ [""])%list) (sorted_keys waitingByReason))))%list.

(** ** Lemmas *)
Lemma split_on_join c parts :
  parts ≠ [] → Forall (λ p, contains_byte c p = false) parts → split_on c (join (String c "") parts) = parts.
Proof.
  intros Hne Hp.
  assert (∀ a, contains_byte c a = false → split_on c a = [a]) as Hone.
  { intros a. induction a as [|x a IH]; intros Ha; [done|]. simpl in Ha |- *.
    apply orb_false_iff in Ha as [-> Ha]. by rewrite IH. }
  assert (∀ a s, contains_byte c a = false → split_on c (a +:+ String c s) = a :: split_on c s) as Hsplit.
  { intros a s. induction a as [|x a IH]; intros Ha; simpl; [by rewrite Ascii.eqb_refl|]. simpl in Ha.
    apply orb_false_iff in Ha as [-> Ha]. by rewrite IH. }
  induction Hp as [|p parts Hp Hps IH]; [done|]. destruct parts as [|q parts]; [by apply Hone|].
  change (join (String c "") (p :: q :: parts)) with (p +:+ String c (join (String c "") (q :: parts))).
  by rewrite Hsplit, IH.
Qed.

(** No white space at all. *)
Fixpoint no_space (s : string) : bool :=
  match s with EmptyString => true | String a s' => negb (is_space a) && no_space s' end.
Lemma trim_space_id s : no_space s = true → trim_space s = s.
Proof.
  intros Hs. unfold trim_space.
  assert (trim_left s = s) as ->.
  { destruct s as [|a s]; [done|]. simpl in *. apply andb_true_iff in Hs as [Ha _]. by destruct (is_space a). }
  induction s as [|a s IH]; [done|]. simpl in *. apply andb_true_iff in Hs as [Ha Hs]. rewrite IH by done.
  destruct s; [|done]. by destruct (is_space a).
Qed.
Lemma no_space_app s t : no_space (s +:+ t) = no_space s && no_space t.
Proof. induction s as [|a s IH]; simpl; [done|]. by rewrite IH, andb_assoc. Qed.

(** A name that can be written in the annotation. *)
Definition name_ok (n : NamespacedName) : Prop :=
  nn_Namespace n ≠ "" ∧ nn_Name n ≠ "" ∧ contains_byte slash (nn_Namespace n) = false ∧
  Forall (λ s, contains_byte ","%char s = false ∧ no_space s = true) [nn_Namespace n; nn_Name n].
Definition connection_entry (n : NamespacedName) : string := nn_Namespace n +:+ "/" +:+ nn_Name n.

Lemma parse_connection_entry ns0 n : name_ok n → parse_connection ns0 (connection_entry n) = Some n.
Proof.
  intros (Hns & Hn & Hs & Hf). apply Forall_cons in Hf as [[_ Hsp1] [[_ Hsp2] _]%Forall_cons].
  unfold parse_connection, connection_entry. rewrite trim_space_id; [|by rewrite !no_space_app, Hsp1, Hsp2].
  change ("/" +:+ nn_Name n) with (String slash (nn_Name n)).
  rewrite (proj2 (String.eqb_neq _ "")) by (by destruct (nn_Namespace n)).
  rewrite cut_first_concat by done. cbn [nn_Name].
  rewrite (proj2 (String.eqb_neq (nn_Namespace n) "")), (proj2 (String.eqb_neq (nn_Name n) "")) by done.
  by destruct n.
Qed.

Section CacheLemmas.
Context `{SV : Semver, AE : ApiErrors, KE : K8sErrors, SRV : ApiServer, JQ : GoJq, CL : Clock, MO : MapOrder}.
Context (ListMetadataWith : ResourceType → ListOptions → res go_error (list PartialObjectMetadata)).

Lemma elem_of_set_range (s : gset string) x : x ∈ set_range s ↔ x ∈ s.
Proof.
  unfold set_range. rewrite list_elem_of_fmap. split.
  - intros ([k []] & -> & Hin%elem_of_map_range). by apply lookup_gset_to_gmap_Some in Hin as [? _].
  - intros Hx. exists (x, ()). split; [done|]. apply elem_of_map_range. by apply lookup_gset_to_gmap_Some.
Qed.

(** Namespaces whose list is served, as objects of that namespace. *)
Definition serves (rt : ResourceType) (objects : string → list PartialObjectMetadata) (ns : string) : Prop :=
  (ListMetadataWith rt (in_namespace ns) = Ok (objects ns) ∨
   ∃ e, ListMetadataWith rt (in_namespace ns) = Err e ∧ IsResourceTypeNotFound e = true ∧ objects ns = []) ∧
  Forall (λ o, po_Namespace o = ns) (objects ns).

Lemma populate_cache_spec rt what objects namespaces cache :
  Forall (serves rt objects) namespaces →
  ∃ cache', populate_cache ListMetadataWith rt what namespaces cache = Ok cache' ∧
    ∀ n, n ∈ cache' ↔ n ∈ cache ∨ (nn_Namespace n ∈ namespaces ∧ nn_Name n ∈ map po_Name (objects (nn_Namespace n))).
Proof.
  revert cache. induction namespaces as [|ns namespaces IH]; intros cache Hs; simpl.
  { exists cache. split; [done|]. intros n. rewrite elem_of_nil. tauto. }
  apply Forall_cons in Hs as [[Hl Hns] Hs].
  assert (∀ n, n ∈ (list_to_set (ToNamespacedNames (objects ns)) : gset NamespacedName) ↔
    nn_Namespace n = ns ∧ nn_Name n ∈ map po_Name (objects ns)) as Hset.
  { intros n. rewrite elem_of_list_to_set. unfold ToNamespacedNames. rewrite !list_elem_of_fmap.
    rewrite Forall_forall in Hns. split.
    - intros (o & -> & Ho). simpl. split; [by apply Hns|]. by exists o.
    - intros [<- (o & Hn & Ho)]. exists o. split; [|done]. destruct n. simpl in *. unfold ToNamespacedName, meta_NamespacedNamer.
      by rewrite (Hns _ Ho), Hn. }
  destruct Hl as [Hl|(e & Hl & He & Hempty)]; rewrite Hl.
  - destruct (IH (cache ∪ list_to_set (ToNamespacedNames (objects ns))) Hs) as (cache' & -> & Hc). exists cache'.
    split; [done|]. intros n. rewrite Hc, elem_of_union, Hset, elem_of_cons. naive_solver.
  - rewrite He. destruct (IH cache Hs) as (cache' & -> & Hc). exists cache'. split; [done|].
    intros n. rewrite Hc, elem_of_cons. split; [naive_solver|]. intros [?|[[Heq|?] Hn]]; [by left| |by right].
    rewrite Heq, Hempty in Hn. by apply elem_of_nil in Hn.
Qed.

(** A reference without an object. *)
Definition dangling (objects : string → list PartialObjectMetadata) (r : NamespacedName) : bool :=
  negb (bool_decide (nn_Name r ∈ map po_Name (objects (nn_Namespace r)))).

Lemma impacted_notebooks_spec objects cache l (namespaces : gset string) :
  (∀ nc r, nc ∈ l → r ∈ nr_refs nc → nn_Namespace r ∈ namespaces) →
  (∀ n, n ∈ cache ↔ nn_Namespace n ∈ namespaces ∧ nn_Name n ∈ map po_Name (objects (nn_Namespace n))) →
  impacted_notebooks cache l =
    map (λ nc, mkNN (nr_namespace nc) (nr_name nc)) (List.filter (λ nc, existsb (dangling objects) (nr_refs nc)) l).
Proof.
  intros Hin Hc. unfold impacted_notebooks. f_equal. apply filter_ext_in. intros nc Hnc%list_elem_of_In.
  apply eq_true_iff_eq. rewrite !existsb_exists.
  assert (∀ r, In r (nr_refs nc) → negb (bool_decide (r ∈ cache)) = dangling objects r) as Hr.
  { intros r Hr. unfold dangling. f_equal. apply bool_decide_ext. rewrite Hc.
    split; [tauto|]. split; [|done]. eapply Hin; [done|]. by apply list_elem_of_In. }
  split; intros (r & Hr1 & Hr2); exists r; (split; [done|]); [rewrite <-Hr|rewrite Hr]; done.
Qed.

Lemma target_namespaces_in l nc r : nc ∈ l → r ∈ nr_refs nc → nn_Namespace r ∈ target_namespaces l.
Proof.
  intros Hnc Hr. unfold target_namespaces. rewrite elem_of_list_to_set. apply list_elem_of_In, in_map, in_concat.
  exists (nr_refs nc). split; [apply in_map; by apply list_elem_of_In|by apply list_elem_of_In].
Qed.

Lemma finish_integrity_spec ty valid missing remediation dr impacted :
  ∃ cond, finish_integrity dr (integrity_condition ty valid missing remediation) impacted =
      Ok (SetImpactedObjects (append_condition (count_annotation dr (length impacted)) cond) Notebook impacted) ∧
    c_Type cond = ty ∧
    if bool_decide (impacted = []) then c_Status cond = ConditionTrue ∧ c_Impact cond = ImpactNone
    else c_Status cond = ConditionFalse ∧ c_Impact cond = ImpactBlocking.
Proof.
  unfold finish_integrity, integrity_condition. destruct impacted as [|x impacted]; simpl; by eexists.
Qed.
End CacheLemmas.

(** *** States of notebooks *)
Lemma classify_two `{GoJq} nb :
  ns_state (classifyNotebook nb) = ContainerStateRunning ∨ ns_state (classifyNotebook nb) = ContainerStateWaiting.
Proof. unfold classifyNotebook. repeat case_match; auto. Qed.

Lemma in_state_partition `{GoJq} notebooks :
  length notebooks = (length (List.filter (in_state ContainerStateRunning) notebooks) +
                      length (List.filter (in_state ContainerStateWaiting) notebooks))%nat.
Proof.
  induction notebooks as [|nb l IH]; [done|]. cbn [List.filter].
  assert (in_state ContainerStateRunning nb = negb (in_state ContainerStateWaiting nb)) as ->.
  { unfold in_state. by destruct (classify_two nb) as [-> | ->]. }
  destruct (in_state ContainerStateWaiting nb); cbn [negb length]; lia.
Qed.

(** ** A concrete cluster *)
Module NotebookChecksRun.
Definition nb (name : string) (annotations : gmap string string) : PartialObjectMetadata :=
  mkPartial (ResourceType_TypeMeta Notebook) "user" name annotations.
Definition secret (ns name : string) : PartialObjectMetadata := mkPartial (ResourceType_TypeMeta Secret) ns name ∅.
Definition secrets (ns : string) : list PartialObjectMetadata :=
  if String.eqb ns "shared" then [secret "shared" "s3"] else [].
Definition lister (rt : ResourceType) (o : ListOptions) : res go_error (list PartialObjectMetadata) :=
  Ok (secrets (lo_Namespace o)).
(** What the client answers to a user who may not list Secrets. *)
Definition forbidden (rt : ResourceType) (o : ListOptions) : res go_error (list PartialObjectMetadata) := Ok [].
Definition items : list PartialObjectMetadata :=
  [nb "good" {[AnnotationConnections := "shared/s3"]}; nb "bad" {[AnnotationConnections := "shared/s3, gone"]};
   nb "none" ∅].
Definition request : WorkloadRequest (T := PartialObjectMetadata) :=
  mkWorkloadRequest (mkTarget VersionRun.semver None None None false false) (New "workload" "notebook" "t" "d") items.
Definition crd : json :=
  JObj [("spec", JObj [("versions", JArr [JObj [("name", JStr "v1alpha1"); ("storage", JBool false)];
                                          JObj [("name", JStr "v1"); ("storage", JBool true)]])])].
#[export] Instance server : ApiServer := {|
  srv_list _ _ _ := Ok ([], ""); srv_get _ _ _ := Ok crd; srv_discovery := None |}.
End NotebookChecksRun.
Import (hints) ClientRun VersionRun ImpactedRun.

(** ** Properties *)
Module NotebookChecksSpec.
(** A connections annotation written as comma-separated namespace/name entries
    is read back as exactly these references, whatever namespace the notebook
    lives in. *)
Theorem parseConnections_roundtrip (refs : list NamespacedName) (ns0 : string) :
  Forall name_ok refs → parseConnections (join "," (map connection_entry refs)) ns0 = refs.
Proof.
  intros Hok. destruct (decide (refs = [])) as [->|Hne]; [done|]. unfold parseConnections.
  rewrite (split_on_join ","%char).
  - clear Hne. induction Hok as [|n refs Hn _ IH]; [done|]. cbn [map omap list_omap]. by rewrite parse_connection_entry, IH.
  - by destruct refs.
  - apply List.Forall_map. eapply Forall_impl; [exact Hok|]. intros n (_ & _ & _ & Hf).
    apply Forall_cons in Hf as [[H1 _] [[H2 _] _]%Forall_cons]. unfold connection_entry. simpl.
    by rewrite !contains_byte_app, H1, H2.
Qed.

Lemma parseConnections_roundtrip_witness :
  parseConnections "shared/s3,user/db" "other" = [mkNN "shared" "s3"; mkNN "user" "db"].
Proof.
  apply (parseConnections_roundtrip [mkNN "shared" "s3"; mkNN "user" "db"] "other"). by repeat constructor.
Defined.

(** The connection check is exact: over a cluster that serves the Secrets of
    each namespace asked for, the impacted objects are, in order, the notebooks
    with some connection to a Secret that does not exist in the namespace the
    entry names; the condition is blocking exactly when there is one; and the
    order in which the namespaces are visited does not matter. *)
Theorem checkConnections_exact `{SV : Semver, AE : ApiErrors, KE : K8sErrors, CL : Clock, MO : MapOrder}
    ListMetadataWith (req : WorkloadRequest (T := PartialObjectMetadata)) (secrets : string → list PartialObjectMetadata) :
  let connected := omap connected_notebook (wr_Items req) in
  let impacted := map (λ nc, mkNN (nr_namespace nc) (nr_name nc))
    (List.filter (λ nc, existsb (dangling secrets) (nr_refs nc)) connected) in
  (∀ ns, serves ListMetadataWith Secret secrets ns) →
  ∃ dr cond, checkConnections ListMetadataWith req = Ok dr ∧
    r_ImpactedObjects dr = Some (map (impactedObject Notebook) impacted) ∧
    r_Conditions dr = (r_Conditions (wr_Result req) ++ [cond])%list ∧
    r_Annotations dr !! AnnotationImpactedWorkloadCount = Some (itoa (Z.of_nat (length impacted))) ∧
    c_Impact cond = if bool_decide (impacted = []) then ImpactNone else ImpactBlocking.
Proof.
  intros connected impacted Hs. unfold checkConnections, buildSecretCache. fold connected.
  destruct (populate_cache_spec ListMetadataWith Secret "Secrets" secrets (set_range (target_namespaces connected)) ∅)
    as (cache & -> & Hc); [by apply Forall_forall|]. cbn [res_bind].
  rewrite (impacted_notebooks_spec secrets cache connected (target_namespaces connected)).
  - fold impacted. destruct (finish_integrity_spec ConditionTypeConnectionIntegrity "All Notebook connections reference existing Secrets"
      "connection Secrets that do not exist on the cluster" connection_remediation (wr_Result req) impacted)
      as (cond & Hf & _ & Hi). unfold newConnectionCondition. rewrite Hf. do 2 eexists. split; [reflexivity|].
    split; [done|]. split; [done|]. split; [|by case_bool_decide; destruct Hi as [_ Hi]].
    simpl. by rewrite lookup_insert_ne, lookup_insert_eq.
  - intros nc r. apply target_namespaces_in.
  - intros n. rewrite Hc, elem_of_set_range. set_solver.
Qed.

Lemma checkConnections_exact_witness (clock := 0 : Clock) (O := canonical_MapOrder) :
  ∃ dr cond, checkConnections NotebookChecksRun.lister NotebookChecksRun.request = Ok dr ∧
    r_ImpactedObjects dr = Some [impactedObject Notebook (mkNN "user" "bad")] ∧ r_Conditions dr = [cond] ∧
    c_Impact cond = ImpactBlocking.
Proof.
  destruct (checkConnections_exact NotebookChecksRun.lister NotebookChecksRun.request NotebookChecksRun.secrets)
    as (dr & cond & Hr & Ho & Hc & _ & Hi).
  { intros ns. split; [by left|]. unfold NotebookChecksRun.secrets. destruct (String.eqb_spec ns "shared") as [->|]; by repeat constructor. }
  exists dr, cond. split; [exact Hr|]. split; [exact Ho|]. split; [exact Hc|exact Hi].
Defined.

(** When the user may not list Secrets the client answers with empty lists, and
    every notebook with a connection is reported as missing its Secret, with
    blocking impact. *)
Theorem forbidden_secrets_block_all `{SV : Semver, AE : ApiErrors, KE : K8sErrors, CL : Clock, MO : MapOrder}
    ListMetadataWith (req : WorkloadRequest (T := PartialObjectMetadata)) :
  (∀ ns, ListMetadataWith Secret (in_namespace ns) = Ok []) →
  omap connected_notebook (wr_Items req) ≠ [] →
  ∃ dr cond, checkConnections ListMetadataWith req = Ok dr ∧
    r_ImpactedObjects dr = Some (map (λ nc, impactedObject Notebook (mkNN (nr_namespace nc) (nr_name nc)))
      (omap connected_notebook (wr_Items req))) ∧
    r_Conditions dr = (r_Conditions (wr_Result req) ++ [cond])%list ∧ c_Impact cond = ImpactBlocking.
Proof.
  intros Hl Hne. set (connected := omap connected_notebook (wr_Items req)) in *.
  unfold checkConnections, buildSecretCache. fold connected.
  destruct (populate_cache_spec ListMetadataWith Secret "Secrets" (λ _, []) (set_range (target_namespaces connected)) ∅)
    as (cache & -> & Hc).
  { apply Forall_forall. intros ns _. split; [left; apply Hl|constructor]. }
  cbn [res_bind]. rewrite (impacted_notebooks_spec (λ _, []) cache connected (target_namespaces connected)).
  - assert (List.filter (λ nc, existsb (dangling (λ _, [])) (nr_refs nc)) connected = connected) as ->.
    { assert (∀ nc, nc ∈ connected → nr_refs nc ≠ []) as Hrefs.
      { intros nc (nb & _ & Hnb)%list_elem_of_omap. unfold connected_notebook in Hnb.
        destruct (String.eqb _ ""); [done|]. destruct (parseConnections _ _) eqn:Hp; [done|]. injection Hnb as <-. simpl. by rewrite Hp || done. }
      clear Hc Hne. induction connected as [|nc l IH]; [done|]. cbn [List.filter].
      assert (existsb (dangling (λ _, [])) (nr_refs nc) = true) as ->.
      { destruct (nr_refs nc) eqn:Hr; [by destruct (Hrefs nc ltac:(by left))|done]. }
      f_equal. apply IH. intros x Hx. apply Hrefs. by right. }
    destruct (finish_integrity_spec ConditionTypeConnectionIntegrity "All Notebook connections reference existing Secrets"
      "connection Secrets that do not exist on the cluster" connection_remediation (wr_Result req)
      (map (λ nc, mkNN (nr_namespace nc) (nr_name nc)) connected)) as (cond & Hf & _ & Hi).
    unfold newConnectionCondition. rewrite Hf. do 2 eexists. split; [reflexivity|].
    split; [simpl; by rewrite map_map|]. split; [done|].
    rewrite bool_decide_eq_false_2 in Hi by (by destruct connected). by destruct Hi.
  - intros nc r. apply target_namespaces_in.
  - intros n. rewrite Hc, elem_of_set_range. set_solver.
Qed.

Lemma forbidden_secrets_block_all_witness (clock := 0 : Clock) (O := canonical_MapOrder) :
  ∃ dr cond, checkConnections NotebookChecksRun.forbidden NotebookChecksRun.request = Ok dr ∧
    r_Conditions dr = [cond] ∧ c_Impact cond = ImpactBlocking.
Proof.
  destruct (forbidden_secrets_block_all NotebookChecksRun.forbidden NotebookChecksRun.request)
    as (dr & cond & Hr & _ & Hc & Hi); [done|by vm_compute|].
  exists dr, cond. exact (conj Hr (conj Hc Hi)).
Defined.

(** The hardware-profile check: without references the cluster is not asked;
    with references the profiles are listed at the storage version of the CRD
    and the notebooks whose profile is not listed are impacted; a CRD that does
    not exist makes every reference dangle, and a CRD that cannot be read makes
    the check fail. *)
Theorem checkHardwareProfiles_outcome `{SV : Semver, AE : ApiErrors, KE : K8sErrors, SRV : ApiServer, JQ : GoJq,
      CL : Clock, MO : MapOrder} ListMetadataWith (req : WorkloadRequest (T := PartialObjectMetadata)) :
  let referenced := omap profile_notebook (wr_Items req) in
  let impacted profiles := map (λ nc, mkNN (nr_namespace nc) (nr_name nc))
    (List.filter (λ nc, existsb (dangling profiles) (nr_refs nc)) referenced) in
  let reports objs := ∃ dr, checkHardwareProfiles ListMetadataWith req = Ok dr ∧
    r_ImpactedObjects dr = Some (map (impactedObject Notebook) objs) in
  (referenced = [] → reports []) ∧
  (referenced ≠ [] →
   match resolveResourceType InfrastructureHardwareProfile with
   | Ok hwp => ∀ profiles, (∀ ns, serves ListMetadataWith hwp profiles ns) → reports (impacted profiles)
   | Err e => if IsNotFound e then reports (impacted (λ _, []))
              else ∃ e', checkHardwareProfiles ListMetadataWith req = Err e'
   | Panic _ => True
   end).
Proof.
  intros referenced impacted reports.
  assert (∀ cache objs, profile_cache ListMetadataWith referenced = Ok cache →
    impacted_notebooks cache referenced = objs → reports objs) as Hfin.
  { intros cache objs Hc Ho. unfold reports, checkHardwareProfiles. fold referenced. rewrite Hc. cbn [res_bind]. rewrite Ho.
    destruct (finish_integrity_spec ConditionTypeHardwareProfileIntegrity "All Notebooks reference existing HardwareProfiles"
      "HardwareProfiles that do not exist on the cluster" profile_remediation (wr_Result req) objs) as (cond & Hf & _).
    unfold newProfileCondition. rewrite Hf. by eexists. }
  split; [intros Hnil; rewrite Hnil in *; by eapply Hfin|]. intros Hne.
  assert (profile_cache ListMetadataWith referenced = match resolveResourceType InfrastructureHardwareProfile with
    | Panic s => Panic s
    | Err e => if IsNotFound e then Ok ∅ else Err (errorf_w "resolving HardwareProfile version" e)
    | Ok hwp => populate_cache ListMetadataWith hwp "HardwareProfiles" (set_range (target_namespaces referenced)) ∅
    end) as Hpc by (unfold profile_cache; by destruct referenced).
  destruct (resolveResourceType InfrastructureHardwareProfile) as [hwp|e|s]; [| |done].
  - intros profiles Hs.
    destruct (populate_cache_spec ListMetadataWith hwp "HardwareProfiles" profiles (set_range (target_namespaces referenced)) ∅)
      as (cache & Hcache & Hc); [by apply Forall_forall|].
    eapply Hfin; [by rewrite Hpc|]. apply (impacted_notebooks_spec profiles _ _ (target_namespaces referenced)).
    + intros nc r. apply target_namespaces_in.
    + intros n. rewrite Hc, elem_of_set_range. set_solver.
  - destruct (IsNotFound e).
    + eapply Hfin; [by rewrite Hpc|]. apply (impacted_notebooks_spec (λ _, []) _ _ (target_namespaces referenced)).
      * intros nc r. apply target_namespaces_in.
      * intros n. set_solver.
    + eexists. unfold checkHardwareProfiles. fold referenced. by rewrite Hpc.
Qed.

(** The report of notebooks that run: each of them is listed once with its
    state, the two counts of the message add up to their number, and the
    condition is met exactly when there are none. *)
Theorem analyzeNonStopped_report `{SV : Semver, JQ : GoJq, CL : Clock} (req : WorkloadRequest (T := json)) :
  let running := List.filter (in_state ContainerStateRunning) (wr_Items req) in
  let waiting := List.filter (in_state ContainerStateWaiting) (wr_Items req) in
  length (wr_Items req) = (length running + length waiting)%nat ∧
  ∃ dr cond, analyzeNonStoppedWorkloads req = Ok dr ∧
    r_Conditions dr = set_condition cond (r_Conditions (wr_Result req)) ∧
    (c_Status cond = ConditionTrue ↔ wr_Items req = []) ∧
    (wr_Items req ≠ [] →
       c_Impact cond = ImpactAdvisory ∧
       r_ImpactedObjects dr = Some (map non_stopped_object (wr_Items req)) ∧
       ∀ nb, nb ∈ wr_Items req →
         po_Annotations (non_stopped_object nb) !! AnnotationCheckContainerState = Some (ns_state (classifyNotebook nb)) ∧
         (ns_state (classifyNotebook nb) = ContainerStateRunning ∨ ns_state (classifyNotebook nb) = ContainerStateWaiting)).
Proof.
  intros running waiting. split; [apply in_state_partition|].
  unfold analyzeNonStoppedWorkloads. destruct (wr_Items req) as [|nb l].
  - do 2 eexists. split; [reflexivity|]. split; [reflexivity|]. by split.
  - do 2 eexists. split; [reflexivity|]. split; [reflexivity|]. split; [done|]. intros _. split; [done|]. split; [done|].
    intros x _. split; [|apply classify_two]. unfold non_stopped_object, state_annotations. cbn [po_Annotations].
    destruct (negb _); [rewrite lookup_insert_ne by done|]; apply lookup_singleton_eq.
Qed.

(** The verbose listing of running notebooks is the same for every map order
    and every sorting algorithm. *)
Theorem non_stopped_verbose_deterministic (O1 O2 : MapOrder) (S1 S2 : SortSlice) requesters (dr : DiagnosticResult) :
  NonStopped_FormatVerboseOutput (MO := O1) (SS := S1) requesters dr =
  NonStopped_FormatVerboseOutput (MO := O2) (SS := S2) requesters dr.
Proof.
  assert (∀ crd objs indent, writeNamespaceGroups (MO := O1) (SS := S1) crd objs indent requesters =
    writeNamespaceGroups (MO := O2) (SS := S2) crd objs indent requesters) as Hw.
  { intros crd objs indent. unfold writeNamespaceGroups. rewrite (sorted_keys_unique O1 O2 S1 S2).
    f_equal. apply map_ext. intros ns. f_equal. f_equal. by apply sort_strings_unique. }
  unfold NonStopped_FormatVerboseOutput. rewrite Hw. f_equal.
  case_bool_decide; [done|]. f_equal.
  - f_equal. f_equal. f_equal. f_equal. apply Permutation_length.
    assert (∀ A (l1 l2 : list (list A)), l1 ≡ₚ l2 → concat l1 ≡ₚ concat l2) as Hcc.
    { intros A l1 l2. induction 1; simpl; [done|by f_equiv|rewrite !app_assoc; f_equiv; apply Permutation_app_comm|by etrans]. }
    apply Hcc, fmap_Permutation, map_range_orders.
  - rewrite (sorted_keys_unique O1 O2 S1 S2). f_equal. apply map_ext. intros reason. by rewrite Hw.
Qed.
End NotebookChecksSpec.
