(* ===== verification/KServeChecks.v ===== *)
(** * KServeChecks: pkg/lint/checks/workloads/kserve

    impacted.go and impacted_support.go (deprecated deployment modes, removed
    runtimes and AcceleratorProfiles), accelerator_migration.go,
    hardwareprofile_migration.go and inferenceservice_config.go.  Decoding the
    JSON document of the configuration ConfigMap is a parameter; the verbose
    table of InferenceServices is its rows. *)
From S2P Require Import Prelude GoStrings Errors Client Version Result Check Verbose Executor Validate CheckKit DepsCheck BackupDeps.
From S2P Require Import WorkloadHelpers NotebookImpacted NotebookChecks.
Open Scope string_scope.
Open Scope Z_scope.
Open Scope go_scope.

(** ** Constants *)
Definition InferenceService : ResourceType :=
  mkResourceType "serving.kserve.io" "v1beta1" "InferenceService" "inferenceservices".
Definition ServingRuntime : ResourceType :=
  mkResourceType "serving.kserve.io" "v1alpha1" "ServingRuntime" "servingruntimes".
Definition annotationDeploymentMode := "serving.kserve.io/deploymentMode".
Definition annotationRuntime := "serving.kserve.io/runtime".
Definition deploymentModeModelMesh := "ModelMesh".
Definition deploymentModeServerless := "Serverless".
Definition ConditionTypeServerlessISVCCompatible := "ServerlessInferenceServicesCompatible".
Definition ConditionTypeModelMeshISVCCompatible := "ModelMeshInferenceServicesCompatible".
Definition ConditionTypeModelMeshSRCompatible := "ModelMeshServingRuntimesCompatible".
Definition ConditionTypeRemovedSRCompatible := "RemovedServingRuntimesCompatible".
Definition ConditionTypeAcceleratorOnlySRCompatible := "AcceleratorOnlyServingRuntimesCompatible".
Definition ConditionTypeAcceleratorAndHWProfileSRCompat := "AcceleratorAndHWProfileServingRuntimesCompatible".
Definition ConditionTypeAcceleratorSRISVCCompatible := "AcceleratorServingRuntimeISVCsCompatible".
Definition ReasonConfigurationUnmanaged := "ConfigurationUnmanaged".
Definition runtime_query := ".spec.predictor.model.runtime".
Definition removed_runtimes := ["ovms"; "caikit-standalone-serving-template"; "caikit-tgis-serving-template"].
Definition impacted_remediation :=
  "Migrate InferenceServices from Serverless/ModelMesh to RawDeployment mode, update ServingRuntimes to supported versions, and review AcceleratorProfile references before upgrading".

(** [dr.ImpactedObjects = append(dr.ImpactedObjects, objs...)]: appending
    nothing leaves a nil slice nil. *)
Definition append_objects (dr : DiagnosticResult) (objs : list PartialObjectMetadata) : DiagnosticResult :=
  match objs with
  | [] => dr
  | _ => with_objects dr (default [] (r_ImpactedObjects dr) ++ objs)%list
  end.

(** ** jq.go: Predicate *)
Definition Predicate `{GoJq} (expression : string) : json → res go_error bool := λ obj,
  match jq_Query false "bool" as_bool obj expression with Ok b => Ok b | _ => Ok false end.

Section KServe.
Context `{SV : Semver, AE : ApiErrors, KE : K8sErrors, SRV : ApiServer, JQ : GoJq, CL : Clock, MO : MapOrder}.
Context (ListWith : ResourceType → ListOptions → res go_error (list json)).
Context (ListMetadataWith : ResourceType → ListOptions → res go_error (list PartialObjectMetadata)).
Notation ListPlain := (ListPlain ListWith).
Notation ListMetadata := (ListMetadata ListMetadataWith).

(** The typed lists: full objects, or metadata. *)
Definition list_objects (rt : ResourceType) (filter : option (json → res go_error bool)) : res go_error (list json) :=
  client_List rt (rt_Kind rt) (ListPlain rt) filter.
Definition list_metadata (rt : ResourceType) (filter : option (PartialObjectMetadata → res go_error bool))
    : res go_error (list PartialObjectMetadata) :=
  client_List rt (rt_Kind rt +:+ " metadata") (ListMetadata rt) filter.

Definition kserve_or_modelmesh_managed (target : Target) : res go_error bool :=
  if negb (IsUpgradeFrom2xTo3x (t_CurrentVersion target) (t_TargetVersion target)) then Ok false
  else
    try! dsc := GetDataScienceCluster ListPlain else errorf_w "getting DataScienceCluster" in
    let! kserve := HasManagementState dsc "kserve" [ManagementStateManaged] in
    if (kserve : bool) then Ok true else HasManagementState dsc "modelmeshserving" [ManagementStateManaged].
Definition kserve_managed (target : Target) : res go_error bool :=
  if negb (IsUpgradeFrom2xTo3x (t_CurrentVersion target) (t_TargetVersion target)) then Ok false
  else
    try! dsc := GetDataScienceCluster ListPlain else errorf_w "getting DataScienceCluster" in
    HasManagementState dsc "kserve" [ManagementStateManaged].

(** *** impacted_support.go *)
Definition mode_is (mode : string) (obj : PartialObjectMetadata) : bool :=
  HasAnnotation (po_Annotations obj) annotationDeploymentMode mode.
Definition isImpactedISVC (obj : PartialObjectMetadata) : res go_error bool :=
  Ok (mode_is deploymentModeServerless obj || mode_is deploymentModeModelMesh obj).

Definition newWorkloadCompatibilityCondition (conditionType : string) (count : nat)
    (workloadDescription targetVersionLabel : string) : res go_error Condition :=
  if (0 <? count)%nat then
    NewCondition conditionType ConditionFalse
      [WithReason ReasonVersionIncompatible;
       WithMessage ("Found " +:+ itoa (Z.of_nat count) +:+ " " +:+ workloadDescription +:+
         " - will be impacted in RHOAI " +:+ targetVersionLabel);
       WithImpact ImpactBlocking; WithRemediation impacted_remediation]
  else
    NewCondition conditionType ConditionTrue
      [WithReason ReasonVersionCompatible;
       WithMessage ("No " +:+ workloadDescription +:+ " found - ready for RHOAI " +:+ targetVersionLabel +:+ " upgrade")].

Definition annotated (rt : ResourceType) (n : NamespacedName) (annotations : gmap string string) : PartialObjectMetadata :=
  mkPartial (ResourceType_TypeMeta rt) (nn_Namespace n) (nn_Name n) annotations.

(** A condition appended, then the objects. *)
Definition report (dr : DiagnosticResult) (cond : res go_error Condition) (objs : list PartialObjectMetadata)
    : res go_error DiagnosticResult :=
  let! c := cond in Ok (append_objects (append_condition dr c) objs).

Definition isvc_objects (mode : string) (isvcs : list PartialObjectMetadata) : list PartialObjectMetadata :=
  map (λ r, annotated InferenceService (ToNamespacedName r) {[annotationDeploymentMode := mode]})
    (List.filter (mode_is mode) isvcs).
Definition appendISVCCondition (dr : DiagnosticResult) (allISVCs : list PartialObjectMetadata)
    (conditionType deploymentMode workloadDescription targetVersionLabel : string) : res go_error DiagnosticResult :=
  report dr
    (newWorkloadCompatibilityCondition conditionType (length (List.filter (mode_is deploymentMode) allISVCs))
       workloadDescription targetVersionLabel)
    (isvc_objects deploymentMode allISVCs).

Definition sr_objects (srs : list json) : list PartialObjectMetadata :=
  map (λ r, annotated ServingRuntime (ToNamespacedName r) ∅) srs.
Definition appendModelMeshSRCondition (dr : DiagnosticResult) (impactedSRs : list json) (tv : string)
    : res go_error DiagnosticResult :=
  report dr
    (newWorkloadCompatibilityCondition ConditionTypeModelMeshSRCompatible (length impactedSRs) "ModelMesh ServingRuntime(s)" tv)
    (sr_objects impactedSRs).

(** The runtime an InferenceService names, with the error of the callers. *)
Definition runtime_error (obj : json) (err : go_error) : go_error :=
  errorf_w ("querying runtime for " +:+ GetNamespace obj +:+ "/" +:+ GetName obj) err.
Definition runtime_of (obj : json) : res go_error (option string) :=
  match jq_Query_string obj runtime_query with
  | Ok runtime => Ok (Some runtime)
  | Panic s => Panic s
  | Err err => if errors_is JqErrNotFound err then Ok None else Err (runtime_error obj err)
  end.
Definition isUsingRemovedRuntime (obj : json) : res go_error bool :=
  let! runtime := runtime_of obj in
  Ok (match runtime with Some r => contains_str removed_runtimes r | None => false end).

(** The loop that turns InferenceServices into objects annotated with their
    runtime; the condition has been appended before it can fail. *)
Fixpoint runtime_objects (items : list json) : res go_error (list PartialObjectMetadata) :=
  match items with
  | [] => Ok []
  | r :: rest =>
      try! runtime := jq_Query_string r runtime_query else runtime_error r in
      let! objs := runtime_objects rest in
      Ok (annotated InferenceService (ToNamespacedName r) {[annotationRuntime := runtime]} :: objs)
  end.
Definition appendRemovedRuntimeISVCCondition (dr : DiagnosticResult) (items : list json) (tv : string)
    : res go_error DiagnosticResult :=
  let! objs := runtime_objects items in
  report dr
    (newWorkloadCompatibilityCondition ConditionTypeRemovedSRCompatible (length items)
       "InferenceService(s) using removed ServingRuntime(s)" tv) objs.

Definition hasAcceleratorAnnotation (obj : PartialObjectMetadata) : res go_error bool := Ok (has_accelerator obj).

Definition newAcceleratorSRCondition (conditionType : string) (count : nat) (workloadDescription : string)
    : res go_error Condition :=
  if (0 <? count)%nat then
    NewCondition conditionType ConditionFalse
      [WithReason ReasonConfigurationInvalid;
       WithMessage ("Found " +:+ itoa (Z.of_nat count) +:+ " " +:+ workloadDescription +:+
         " - AcceleratorProfiles will be auto-migrated to HardwareProfiles during upgrade");
       WithImpact ImpactAdvisory; WithRemediation impacted_remediation]
  else
    NewCondition conditionType ConditionTrue
      [WithReason ReasonVersionCompatible; WithMessage ("No " +:+ workloadDescription +:+ " found")].

Definition accelerator_annotation (r : PartialObjectMetadata) : string :=
  GetAnnotation (po_Annotations r) AnnotationAcceleratorName.
Definition profile_annotation (r : PartialObjectMetadata) : string :=
  GetAnnotation (po_Annotations r) AnnotationHardwareProfileName.
Definition accelerator_only_objects (items : list PartialObjectMetadata) : list PartialObjectMetadata :=
  map (λ r, annotated ServingRuntime (ToNamespacedName r) {[AnnotationAcceleratorName := accelerator_annotation r]}) items.
Definition accelerator_both_objects (items : list PartialObjectMetadata) : list PartialObjectMetadata :=
  map (λ r, annotated ServingRuntime (ToNamespacedName r)
    (<[AnnotationAcceleratorName := accelerator_annotation r]> {[AnnotationHardwareProfileName := profile_annotation r]})) items.
Definition appendAcceleratorOnlySRCondition (dr : DiagnosticResult) (items : list PartialObjectMetadata) :=
  report dr (newAcceleratorSRCondition ConditionTypeAcceleratorOnlySRCompatible (length items)
    "ServingRuntime(s) with AcceleratorProfile annotation only") (accelerator_only_objects items).
Definition appendAcceleratorAndHWProfileSRCondition (dr : DiagnosticResult) (items : list PartialObjectMetadata) :=
  report dr (newAcceleratorSRCondition ConditionTypeAcceleratorAndHWProfileSRCompat (length items)
    "ServingRuntime(s) with both AcceleratorProfile and HardwareProfile annotations") (accelerator_both_objects items).

(** The InferenceServices that name one of the runtimes of their namespace. *)
Fixpoint isvcs_of_runtimes (srSet : gset NamespacedName) (allISVCs : list json) : res go_error (list json) :=
  match allISVCs with
  | [] => Ok []
  | isvc :: rest =>
      let! runtime := runtime_of isvc in
      let! impacted := isvcs_of_runtimes srSet rest in
      Ok (match runtime with
          | Some r => if bool_decide (mkNN (GetNamespace isvc) r ∈ srSet) then isvc :: impacted else impacted
          | None => impacted
          end)
  end.
Definition appendAcceleratorSRISVCCondition (dr : DiagnosticResult) (acceleratorSRs : list PartialObjectMetadata)
    (allISVCs : list json) : res go_error DiagnosticResult :=
  let! impacted := isvcs_of_runtimes (list_to_set (ToNamespacedNames acceleratorSRs)) allISVCs in
  let! objs := runtime_objects impacted in
  report dr (newAcceleratorSRCondition ConditionTypeAcceleratorSRISVCCompatible (length impacted)
    "InferenceService(s) referencing AcceleratorProfile-linked ServingRuntime(s)") objs.

(** *** impacted.go *)
Definition has_profile (sr : PartialObjectMetadata) : bool := negb (String.eqb (profile_annotation sr) "").

Definition KServeImpacted_Validate (c : Check) (target : Target) : res go_error DiagnosticResult :=
  let dr := annotate_target target (NewResult c) in
  let! allISVCs := list_metadata InferenceService (Some isImpactedISVC) in
  let! impactedSRs := list_objects ServingRuntime (Some (Predicate ".spec.multiModel == true")) in
  let! removedRuntimeISVCs := list_objects InferenceService (Some isUsingRemovedRuntime) in
  let! acceleratorSRs := list_metadata ServingRuntime (Some hasAcceleratorAnnotation) in
  let acceleratorAndHWProfileSRs := List.filter has_profile acceleratorSRs in
  let acceleratorOnlySRs := List.filter (λ sr, negb (has_profile sr)) acceleratorSRs in
  let! allISVCsFull := list_objects InferenceService None in
  let tv := MajorMinorLabel (t_TargetVersion target) in
  let! dr := appendISVCCondition dr allISVCs ConditionTypeServerlessISVCCompatible deploymentModeServerless
    "Serverless InferenceService(s)" tv in
  let! dr := appendISVCCondition dr allISVCs ConditionTypeModelMeshISVCCompatible deploymentModeModelMesh
    "ModelMesh InferenceService(s)" tv in
  let! dr := appendModelMeshSRCondition dr impactedSRs tv in
  let! dr := appendRemovedRuntimeISVCCondition dr removedRuntimeISVCs tv in
  let! dr := appendAcceleratorOnlySRCondition dr acceleratorOnlySRs in
  let! dr := appendAcceleratorAndHWProfileSRCondition dr acceleratorAndHWProfileSRs in
  let! dr := appendAcceleratorSRISVCCondition dr acceleratorSRs allISVCsFull in
  Ok (count_annotation dr (length (default [] (r_ImpactedObjects dr)))).

(** The rows of the verbose table. *)
Record inferenceServiceRow := mkRow { row_Name : string; row_Namespace : string; row_DeploymentMode : string }.
Definition isvc_row (deploymentModeFilter : string) (obj : PartialObjectMetadata) : option inferenceServiceRow :=
  if negb (String.eqb (tm_Kind (po_TypeMeta obj)) "InferenceService") then None
  else
    let mode := at_key (po_Annotations obj) annotationDeploymentMode in
    let deploymentMode :=
      if String.eqb mode "" then
        (if negb (String.eqb (at_key (po_Annotations obj) annotationRuntime) "") then "RawDeployment" else "Unknown")
      else mode in
    if negb (String.eqb deploymentModeFilter "all") then
      let filterMode := if String.eqb deploymentModeFilter "serverless" then deploymentModeServerless
                        else if String.eqb deploymentModeFilter "modelmesh" then deploymentModeModelMesh else "" in
      if negb (String.eqb deploymentMode filterMode) then None
      else Some (mkRow (po_Name obj) (po_Namespace obj) deploymentMode)
    else Some (mkRow (po_Name obj) (po_Namespace obj) deploymentMode).
Definition isvc_row_less (a b : inferenceServiceRow) : bool :=
  if negb (String.eqb (row_Namespace a) (row_Namespace b)) then string_less (row_Namespace a) (row_Namespace b)
  else string_less (row_Name a) (row_Name b).
Definition KServe_verbose_rows `{SS : SortSlice} (deploymentModeFilter : string) (dr : DiagnosticResult)
    : list inferenceServiceRow :=
  sort_slice isvc_row_less (omap (isvc_row deploymentModeFilter) (default [] (r_ImpactedObjects dr))).

(** *** accelerator_migration.go *)
Definition newISVCAcceleratorMigrationCondition (totalImpacted totalMissing : Z) : res go_error Condition :=
  let tail := ": AcceleratorProfiles and InferenceService references are automatically migrated to HardwareProfiles (infrastructure.opendatahub.io) during upgrade" in
  if totalImpacted =? 0 then
    NewCondition ConditionTypeAcceleratorProfileCompatible ConditionTrue
      [WithReason ReasonVersionCompatible;
       WithMessage "No InferenceServices found using deprecated AcceleratorProfiles - no migration needed"]
  else if 0 <? totalMissing then
    NewCondition ConditionTypeAcceleratorProfileCompatible ConditionFalse
      [WithReason ReasonResourceNotFound;
       WithMessage ("Found " +:+ itoa totalImpacted +:+ " InferenceService(s) referencing deprecated AcceleratorProfiles (" +:+
         itoa totalMissing +:+ " missing)" +:+ tail);
       WithImpact ImpactAdvisory; WithRemediation accelerator_remediation]
  else
    NewCondition ConditionTypeAcceleratorProfileCompatible ConditionFalse
      [WithReason ReasonConfigurationInvalid;
       WithMessage ("Found " +:+ itoa totalImpacted +:+ " InferenceService(s) using deprecated AcceleratorProfiles" +:+ tail);
       WithImpact ImpactAdvisory; WithRemediation accelerator_remediation].
Definition KServeAccelerator_Validate (c : Check) (target : Target) : res go_error DiagnosticResult :=
  let dr := annotate_target target (NewResult c) in
  try! found := FindWorkloadsWithAcceleratorRefs ListWith ListMetadataWith InferenceService
    else errorf_w "finding InferenceServices with AcceleratorProfiles" in
  let '(impacted, missingCount) := found in
  let dr := count_annotation dr (length impacted) in
  let! cond := newISVCAcceleratorMigrationCondition (Z.of_nat (length impacted)) missingCount in
  let dr := append_condition dr cond in
  Ok (match impacted with [] => dr | _ => SetImpactedObjects dr InferenceService impacted end).

(** *** hardwareprofile_migration.go *)
Definition isvc_profile_remediation :=
  "Update InferenceServices to use current HardwareProfiles and remove the legacy-hardware-profile-name annotation".
Definition newISVCLegacyProfileCondition (req : WorkloadRequest (T := PartialObjectMetadata)) : res go_error (list Condition) :=
  let count := length (wr_Items req) in
  if (count =? 0)%nat then
    let! cond := NewCondition ConditionTypeHardwareProfileCompatible ConditionTrue
      [WithReason ReasonNoMigrationRequired;
       WithMessage "No InferenceServices found with legacy hardware profile annotation - no migration needed"] in
    Ok [cond]
  else
    let! cond := NewCondition ConditionTypeHardwareProfileCompatible ConditionFalse
      [WithReason ReasonMigrationPending;
       WithMessage ("Found " +:+ itoa (Z.of_nat count) +:+
         " InferenceService(s) with legacy hardware profile annotation that may need attention");
       WithImpact ImpactAdvisory;
       WithRemediation isvc_profile_remediation] in
    Ok [cond].
Definition KServeHardwareProfile_Validate (c : Check) (target : Target) : res go_error (option DiagnosticResult) :=
  Workload_Complete ListPlain
    {| wb_check := c; wb_target := target; wb_resourceType := InferenceService; wb_listFn := ListMetadata InferenceService;
       wb_filterFn := Some hasLegacyHardwareProfileAnnotation; wb_componentNames := [] |} newISVCLegacyProfileCondition.

(** *** inferenceservice_config.go *)
Definition requiredDisallowedAnnotations :=
  ["opendatahub.io/hardware-profile-name"; "opendatahub.io/hardware-profile-namespace"].
Definition config_remediation :=
  "Set the annotation opendatahub.io/managed=false on the inferenceservice-config ConfigMap, and add opendatahub.io/hardware-profile-name and opendatahub.io/hardware-profile-namespace to the serviceAnnotationDisallowedList in the inferenceService data key".

(** [json.Unmarshal] into the configuration: the disallowed list. *)
Context (unmarshal_config : string → res go_error (list string)).

Definition findMissingDisallowedAnnotations (configMap : json) (required : list string) : res go_error (list string) :=
  match jq_Query_string configMap ".data.inferenceService" with
  | Ok dataJSON =>
      try! disallowed := unmarshal_config dataJSON else errorf_w "parsing inferenceService JSON" in
      Ok (List.filter (λ annotation, negb (contains_str disallowed annotation)) required)
  | Err _ => Ok required
  | Panic s => Panic s
  end.

(** The accessors of a nil object dereference it. *)
Definition nil_dereference {A} : res go_error A :=
  Panic "runtime error: invalid memory address or nil pointer dereference".

Definition check_inferenceservice_config (req : ComponentRequest) : res go_error DiagnosticResult :=
  let tv := MajorMinorLabel (t_TargetVersion (cr_Target req)) in
  let dr := cr_Result req in
  let set (c : res go_error Condition) := let! c := c in Ok (SetCondition dr c) in
  let not_ready reason message := set (NewCondition ConditionTypeConfigured ConditionFalse
    [WithReason reason; WithMessage message; WithImpact ImpactAdvisory; WithRemediation config_remediation]) in
  match Get ConfigMap "inferenceservice-config" (cr_ApplicationsNamespace req) with
  | Panic s => Panic s
  | Err err =>
      if IsNotFound err then
        set (NewCondition ConditionTypeCompatible ConditionTrue
          [WithReason ReasonVersionCompatible;
           WithMessage ("inferenceservice-config ConfigMap not found in namespace " +:+ cr_ApplicationsNamespace req +:+
             " - no migration needed")])
      else Err (errorf_w "getting inferenceservice-config ConfigMap" err)
  | Ok None => nil_dereference
  | Ok (Some obj) =>
      if IsManaged (GetAnnotations obj) then
        not_ready ReasonConfigurationUnmanaged
          ("inferenceservice-config ConfigMap must have " +:+ AnnotationManaged +:+
           "=false and include hardware-profile annotations in serviceAnnotationDisallowedList, otherwise models may get restarted during upgrade to RHOAI " +:+ tv)
      else
        try! missing := findMissingDisallowedAnnotations obj requiredDisallowedAnnotations
          else errorf_w "checking serviceAnnotationDisallowedList" in
        match missing with
        | _ :: _ =>
            not_ready ReasonConfigurationInvalid
              ("inferenceservice-config ConfigMap must include the following annotations in serviceAnnotationDisallowedList to prevent models from being restarted during upgrade to RHOAI " +:+
               tv +:+ ": " +:+ join ", " missing)
        | [] =>
            set (NewCondition ConditionTypeCompatible ConditionTrue
              [WithReason ReasonVersionCompatible;
               WithMessage ("inferenceservice-config ConfigMap has " +:+ AnnotationManaged +:+
                 "=false and serviceAnnotationDisallowedList includes required hardware-profile annotations - ready for RHOAI " +:+
                 tv +:+ " upgrade")])
        end
  end.
Definition InferenceServiceConfig_Validate (c : Check) (target : Target) : res go_error DiagnosticResult :=
  Component_Run ListPlain (WithApplicationsNamespace (Component c target)) check_inferenceservice_config.

(** *** The four checks *)
Definition kserve_check (id name checkType description remediation : string) (can : Target → res go_error bool)
    (validate : Check → Target → res go_error (option DiagnosticResult)) : Check :=
  embed (mkBaseCheck GroupWorkload "kserve" checkType id name description remediation) can validate.

Definition NewKServeImpactedWorkloadsCheck : Check :=
  kserve_check "workloads.kserve.impacted-workloads" "Workloads :: KServe :: Impacted Workloads (3.x)" "impacted-workloads"
    "Lists InferenceServices and ServingRuntimes using deprecated deployment modes (ModelMesh, Serverless), removed ServingRuntimes, or ServingRuntimes referencing deprecated AcceleratorProfiles that will be impacted in RHOAI 3.x"
    impacted_remediation kserve_or_modelmesh_managed (λ c target, some_result (KServeImpacted_Validate c target)).
Definition NewKServeAcceleratorMigrationCheck : Check :=
  kserve_check "workloads.kserve.accelerator-migration" "Workloads :: KServe :: AcceleratorProfile Migration (3.x)" "impacted-workloads"
    "Detects InferenceService CRs referencing deprecated AcceleratorProfiles that will be auto-migrated to HardwareProfiles (infrastructure.opendatahub.io) during upgrade"
    accelerator_remediation kserve_or_modelmesh_managed (λ c target, some_result (KServeAccelerator_Validate c target)).
Definition NewKServeHardwareProfileMigrationCheck : Check :=
  kserve_check "workloads.kserve.hardwareprofile-migration" "Workloads :: KServe :: Legacy HardwareProfile Migration" "config-migration"
    "Detects InferenceService CRs carrying the legacy opendatahub.io/legacy-hardware-profile-name annotation that may need attention"
    isvc_profile_remediation kserve_managed KServeHardwareProfile_Validate.
Definition NewInferenceServiceConfigCheck : Check :=
  kserve_check "workloads.kserve.inferenceservice-config" "Workloads :: KServe :: InferenceService Config Migration" "impacted-workloads"
    "Validates that inferenceservice-config ConfigMap has opendatahub.io/managed=false and includes hardware-profile annotations in serviceAnnotationDisallowedList before upgrading to RHOAI 3.x"
    config_remediation kserve_managed (λ c target, some_result (InferenceServiceConfig_Validate c target)).
End KServe.

(** ** Lemmas *)
Section KServeLemmas.
Context `{SV : Semver, AE : ApiErrors, KE : K8sErrors, SRV : ApiServer, JQ : GoJq, CL : Clock, MO : MapOrder}.
Context (ListWith : ResourceType → ListOptions → res go_error (list json)).
Context (ListMetadataWith : ResourceType → ListOptions → res go_error (list PartialObjectMetadata)).

Lemma workload_condition_spec ty n what tv :
  ∃ c, newWorkloadCompatibilityCondition ty n what tv = Ok c ∧ c_Type c = ty ∧
    (c_Status c = ConditionTrue ↔ n = 0%nat) ∧ c_Impact c = if (0 <? n)%nat then ImpactBlocking else ImpactNone.
Proof. unfold newWorkloadCompatibilityCondition. destruct n; eexists; (split; [reflexivity|]); by split_and!. Qed.

Lemma accelerator_condition_spec ty n what :
  ∃ c, newAcceleratorSRCondition ty n what = Ok c ∧ c_Type c = ty ∧
    (c_Status c = ConditionTrue ↔ n = 0%nat) ∧ c_Impact c = if (0 <? n)%nat then ImpactAdvisory else ImpactNone.
Proof. unfold newAcceleratorSRCondition. destruct n; eexists; (split; [reflexivity|]); by split_and!. Qed.

Lemma append_objects_fields dr objs :
  r_Conditions (append_objects dr objs) = r_Conditions dr ∧ r_Annotations (append_objects dr objs) = r_Annotations dr ∧
  default [] (r_ImpactedObjects (append_objects dr objs)) = (default [] (r_ImpactedObjects dr) ++ objs)%list.
Proof. destruct objs; simpl; [by rewrite app_nil_r|done]. Qed.

(** One step of the report: a condition more, the objects added, the rest kept. *)
Lemma report_spec dr cond c objs :
  cond = Ok c →
  ∃ dr', report dr cond objs = Ok dr' ∧ r_Conditions dr' = (r_Conditions dr ++ [c])%list ∧
    default [] (r_ImpactedObjects dr') = (default [] (r_ImpactedObjects dr) ++ objs)%list.
Proof.
  intros ->. eexists. split; [reflexivity|].
  destruct (append_objects_fields (append_condition dr c) objs) as (-> & _ & ->). done.
Qed.

Lemma list_objects_ok rt f (p : json → bool) items :
  ListWith rt defaultListOptions = Ok items → (∀ x, x ∈ items → f x = Ok (p x)) →
  list_objects ListWith rt (Some f) = Ok (List.filter p items).
Proof.
  intros Hl Hf. unfold list_objects, client_List, WorkloadHelpers.ListPlain. rewrite Hl. by apply filter_items_total.
Qed.
Lemma list_metadata_ok rt f (p : PartialObjectMetadata → bool) items :
  ListMetadataWith rt defaultListOptions = Ok items → (∀ x, x ∈ items → f x = Ok (p x)) →
  list_metadata ListMetadataWith rt (Some f) = Ok (List.filter p items).
Proof.
  intros Hl Hf. unfold list_metadata, client_List, WorkloadHelpers.ListMetadata. rewrite Hl. by apply filter_items_total.
Qed.

(** What a query that never fails answers. *)
Definition holds (q : string) (obj : json) : bool :=
  match jq_Query false "bool" as_bool obj q with Ok b => b | _ => false end.
Lemma Predicate_holds q obj : Predicate q obj = Ok (holds q obj).
Proof. unfold Predicate, holds. by destruct (jq_Query _ _ _ _ _). Qed.

(** The runtime of an InferenceService whose field is a name or absent. *)
Definition runtime_name (obj : json) : option string :=
  match jq_Query_string obj runtime_query with Ok r => Some r | _ => None end.
Definition runtime_readable (obj : json) : Prop :=
  match jq_Query_string obj runtime_query with
  | Ok _ => True | Err e => errors_is JqErrNotFound e = true | Panic _ => False end.
Lemma runtime_of_readable obj : runtime_readable obj → runtime_of obj = Ok (runtime_name obj).
Proof.
  unfold runtime_readable, runtime_of, runtime_name. destruct (jq_Query_string _ _); [done| |done]. by intros ->.
Qed.

Definition names_removed (obj : json) : bool :=
  match runtime_name obj with Some r => contains_str removed_runtimes r | None => false end.
Definition names_runtime_in (srs : list PartialObjectMetadata) (obj : json) : bool :=
  match runtime_name obj with
  | Some r => bool_decide (mkNN (GetNamespace obj) r ∈ ToNamespacedNames srs) | None => false end.
Definition runtime_object (obj : json) : PartialObjectMetadata :=
  annotated InferenceService (ToNamespacedName obj) {[annotationRuntime := default "" (runtime_name obj)]}.

Lemma runtime_objects_named p items :
  (∀ x, p x = true → is_Some (runtime_name x)) →
  runtime_objects (List.filter p items) = Ok (map runtime_object (List.filter p items)).
Proof.
  intros Hp. induction items as [|x items IH]; [done|]. cbn [List.filter]. destruct (p x) eqn:Hx; [|done].
  cbn [runtime_objects map]. destruct (Hp _ Hx) as [r Hr]. unfold runtime_object at 1. rewrite Hr.
  unfold runtime_name in Hr. destruct (jq_Query_string x runtime_query); simplify_eq. cbn [res_map_err res_bind].
  by rewrite IH.
Qed.
Lemma names_removed_named x : names_removed x = true → is_Some (runtime_name x).
Proof. unfold names_removed. by destruct (runtime_name x). Qed.
Lemma names_runtime_in_named srs x : names_runtime_in srs x = true → is_Some (runtime_name x).
Proof. unfold names_runtime_in. by destruct (runtime_name x). Qed.

Lemma isvcs_of_runtimes_spec srs items :
  Forall runtime_readable items →
  isvcs_of_runtimes (list_to_set (ToNamespacedNames srs)) items = Ok (List.filter (names_runtime_in srs) items).
Proof.
  induction 1 as [|x items Hx _ IH]; [done|]. cbn [isvcs_of_runtimes]. rewrite runtime_of_readable, IH by done.
  cbn [res_bind List.filter].
  assert (∀ r, bool_decide (mkNN (GetNamespace x) r ∈ (list_to_set (ToNamespacedNames srs) : gset NamespacedName)) =
    bool_decide (mkNN (GetNamespace x) r ∈ ToNamespacedNames srs)) as Hset.
  { intros r. apply bool_decide_ext. apply elem_of_list_to_set. }
  assert (names_runtime_in srs x = match runtime_name x with
    | Some r => bool_decide (mkNN (GetNamespace x) r ∈ ToNamespacedNames srs) | None => false end) as -> by done.
  destruct (runtime_name x) as [r|]; [|done]. rewrite Hset.
  by destruct (bool_decide _).
Qed.

Lemma removed_ok items x : Forall runtime_readable items → x ∈ items → isUsingRemovedRuntime x = Ok (names_removed x).
Proof.
  rewrite Forall_forall. intros Hr Hx. unfold isUsingRemovedRuntime, names_removed.
  by rewrite (runtime_of_readable x (Hr x Hx)).
Qed.
End KServeLemmas.

Lemma missing_nil disallowed required :
  List.filter (λ a, negb (contains_str disallowed a)) required = [] ↔ ∀ a, a ∈ required → a ∈ disallowed.
Proof.
  induction required as [|a required IH]; [split; [intros _ ? []%elem_of_nil|done]|]. cbn [List.filter].
  destruct (contains_str disallowed a) eqn:Hc; simpl.
  - apply contains_str_In in Hc. rewrite IH. setoid_rewrite elem_of_cons. naive_solver.
  - split; [done|]. intros H. assert (contains_str disallowed a = true); [|congruence]. apply contains_str_In, H. by left.
Qed.

Lemma filter_filter_implied {A} (p q : A → bool) l :
  (∀ x, p x = true → q x = true) → List.filter p (List.filter q l) = List.filter p l.
Proof.
  intros Hpq. induction l as [|x l IH]; [done|]. cbn [List.filter]. destruct (q x) eqn:Hq; cbn [List.filter]; rewrite IH; [done|].
  destruct (p x) eqn:Hp; [|done]. by rewrite (Hpq _ Hp) in Hq.
Qed.

(** What the report consists of: a condition type, its impact when it has
    objects, and its objects. *)
Definition report_groups `{GoJq} (isvcs : list PartialObjectMetadata) (srs : list json)
    (sr_metas : list PartialObjectMetadata) (isvcs_full : list json) : list (string * Impact * list PartialObjectMetadata) :=
  let accelerated := List.filter has_accelerator sr_metas in
  [(ConditionTypeServerlessISVCCompatible, ImpactBlocking, isvc_objects deploymentModeServerless isvcs);
   (ConditionTypeModelMeshISVCCompatible, ImpactBlocking, isvc_objects deploymentModeModelMesh isvcs);
   (ConditionTypeModelMeshSRCompatible, ImpactBlocking, sr_objects (List.filter (holds ".spec.multiModel == true") srs));
   (ConditionTypeRemovedSRCompatible, ImpactBlocking, map runtime_object (List.filter names_removed isvcs_full));
   (ConditionTypeAcceleratorOnlySRCompatible, ImpactAdvisory,
      accelerator_only_objects (List.filter (λ sr, negb (has_profile sr)) accelerated));
   (ConditionTypeAcceleratorAndHWProfileSRCompat, ImpactAdvisory,
      accelerator_both_objects (List.filter has_profile accelerated));
   (ConditionTypeAcceleratorSRISVCCompatible, ImpactAdvisory,
      map runtime_object (List.filter (names_runtime_in accelerated) isvcs_full))].
Definition condition_of_group (c : Condition) (g : string * Impact * list PartialObjectMetadata) : Prop :=
  c_Type c = g.1.1 ∧ (c_Status c = ConditionTrue ↔ g.2 = []) ∧ c_Impact c = if (0 <? length g.2)%nat then g.1.2 else ImpactNone.
(** Which workload an entry is about. *)
Definition workload_id (o : PartialObjectMetadata) : string * string * string := (tm_Kind (po_TypeMeta o), po_Namespace o, po_Name o).

(** ** A concrete cluster *)
Module KServeRun.
Definition isvc_meta (name mode : string) : PartialObjectMetadata :=
  mkPartial (ResourceType_TypeMeta InferenceService) "ml" name {[annotationDeploymentMode := mode]}.
Definition isvc (name runtime : string) : json :=
  JObj [("metadata", JObj [("name", JStr name); ("namespace", JStr "ml")]);
        ("spec", JObj [("predictor", JObj [("model", JObj [("runtime", JStr runtime)])])])].
Definition sr_meta (name : string) : PartialObjectMetadata :=
  mkPartial (ResourceType_TypeMeta ServingRuntime) "ml" name {[AnnotationAcceleratorName := "gpu"]}.
Definition dsc : json := JObj [("spec", JObj [("components", JObj [("kserve", JObj [("managementState", JStr "Managed")])])])].
Definition lister (rt : ResourceType) (o : ListOptions) : res go_error (list json) :=
  if String.eqb (rt_Kind rt) "InferenceService" then Ok [isvc "old" "ovms"; isvc "fast" "gpu-runtime"]
  else if String.eqb (rt_Kind rt) "DataScienceCluster" then Ok [dsc]
  else if String.eqb (rt_Kind rt) "DSCInitialization" then Ok [ImpactedRun.dsci] else Ok [].
Definition meta_lister (rt : ResourceType) (o : ListOptions) : res go_error (list PartialObjectMetadata) :=
  if String.eqb (rt_Kind rt) "InferenceService" then Ok [isvc_meta "old" "RawDeployment"; isvc_meta "fast" "RawDeployment"]
  else if String.eqb (rt_Kind rt) "ServingRuntime" then Ok [sr_meta "gpu-runtime"] else Ok [].
(** A user who may not read ConfigMaps. *)
Definition forbidding : ApiServer := {|
  srv_list _ _ _ := Ok ([], ""); srv_get _ _ _ := Err (EForeign 1 "forbidden"); srv_discovery := None |}.
Definition target : Target (H := VersionRun.semver) := 
  mkTarget VersionRun.semver (Some (VersionRun.mkVer 2 25 0)) (Some (VersionRun.mkVer 3 0 0)) None false false.
(** A ConfigMap that is ready, and its decoder. *)
Definition config_map : json :=
  JObj [("metadata", JObj [("annotations", JObj [(AnnotationManaged, JStr "false")])]);
        ("data", JObj [("inferenceService", JStr "{...}")])].
Definition serving : ApiServer := {|
  srv_list _ _ _ := Ok ([], ""); srv_get _ _ _ := Ok config_map; srv_discovery := None |}.
Definition unmarshal (document : string) : res go_error (list string) := Ok requiredDisallowedAnnotations.
Definition request : ComponentRequest (SV := VersionRun.semver) :=
  mkComponentRequest (SV := VersionRun.semver) target (New "workload" "kserve" "t" "d") dsc "Managed" "apps".
End KServeRun.
Import (hints) ClientRun VersionRun ImpactedRun.

Section ReportLemmas.
Context `{SV : Semver, AE : ApiErrors, KE : K8sErrors, SRV : ApiServer, JQ : GoJq, CL : Clock, MO : MapOrder}.

(** What the steps of the report have built so far. *)
Definition built (dr : DiagnosticResult) (groups : list (string * Impact * list PartialObjectMetadata)) : Prop :=
  Forall2 condition_of_group (r_Conditions dr) groups ∧
  default [] (r_ImpactedObjects dr) = concat (map snd groups).

Lemma built_report dr groups cond c ty impact objs n :
  built dr groups → cond = Ok c → c_Type c = ty → n = length objs → (c_Status c = ConditionTrue ↔ n = 0%nat) →
  c_Impact c = (if (0 <? n)%nat then impact else ImpactNone) →
  ∃ dr', report dr cond objs = Ok dr' ∧ built dr' (groups ++ [(ty, impact, objs)])%list.
Proof.
  intros [Hc Ho] Hcond Hty -> Hst Hi. destruct (report_spec dr cond c objs Hcond) as (dr' & Hr & Hc' & Ho').
  exists dr'. split; [done|]. split.
  - rewrite Hc'. apply Forall2_app; [done|]. constructor; [|done]. split; [done|]. split; [|done]. rewrite Hst. apply length_zero_iff_nil.
  - rewrite Ho', Ho, map_app, concat_app. simpl. by rewrite app_nil_r.
Qed.

Lemma built_workload dr groups ty n what tv objs :
  built dr groups → n = length objs →
  ∃ dr', report dr (newWorkloadCompatibilityCondition ty n what tv) objs = Ok dr' ∧
    built dr' (groups ++ [(ty, ImpactBlocking, objs)])%list.
Proof.
  intros Hb ->. destruct (workload_condition_spec ty (length objs) what tv) as (c & Hc & Ht & Hst & Hi). by eapply built_report.
Qed.
Lemma built_accelerator dr groups ty n what objs :
  built dr groups → n = length objs →
  ∃ dr', report dr (newAcceleratorSRCondition ty n what) objs = Ok dr' ∧
    built dr' (groups ++ [(ty, ImpactAdvisory, objs)])%list.
Proof.
  intros Hb ->. destruct (accelerator_condition_spec ty (length objs) what) as (c & Hc & Ht & Hst & Hi). by eapply built_report.
Qed.

Lemma built_NewResult c target : built (annotate_target target (NewResult c)) [].
Proof. unfold built, annotate_target. by case_match. Qed.

Lemma mode_is_impacted mode x :
  mode ∈ [deploymentModeServerless; deploymentModeModelMesh] → mode_is mode x = true →
  (mode_is deploymentModeServerless x || mode_is deploymentModeModelMesh x) = true.
Proof. intros [->|[->|[]%elem_of_nil]%elem_of_cons]%elem_of_cons ->; [done|by rewrite orb_true_r]. Qed.

Lemma isvc_objects_impacted mode l :
  mode ∈ [deploymentModeServerless; deploymentModeModelMesh] →
  isvc_objects mode (List.filter (λ x, mode_is deploymentModeServerless x || mode_is deploymentModeModelMesh x) l) =
  isvc_objects mode l.
Proof.
  intros Hm. unfold isvc_objects. f_equal. apply filter_filter_implied. intros x. by apply mode_is_impacted.
Qed.
End ReportLemmas.

(** *** Checks that panic *)
Section Panics.
Context `{SV : Semver, AE : ApiErrors, KE : K8sErrors, SRV : ApiServer, JQ : GoJq, CL : Clock, MO : MapOrder}.

Lemma NewCondition_not_Err {E} ty st opts (e : E) : NewCondition ty st opts ≠ Err e.
Proof. unfold NewCondition. by destruct (Condition_Validate _). Qed.
Lemma error_execution_not_Err check reason message err e : error_execution check reason message err ≠ Err e.
Proof.
  unfold error_execution. destruct (NewCondition _ _ _) as [c|e'|s] eqn:Hc; [done| |done].
  by apply NewCondition_not_Err in Hc.
Qed.
Lemma executeCheck_not_Err io t target check e : executeCheck io t target check ≠ Err e.
Proof.
  unfold executeCheck, buildValidateError. destruct (ck_Validate _ _ _) as [[r|]|err|s]; [|done| |done].
  - destruct (DiagnosticResult_Validate r) as [|m|]; [done| |done].
    destruct (error_execution _ _ _ _) as [x|e'|s] eqn:He; [done| |done]. by apply error_execution_not_Err in He.
  - destruct (classifyValidateError _ _ _) as [[reason message] log].
    destruct (error_execution _ _ _ _) as [x|e'|s] eqn:He; [done| |done]. by apply error_execution_not_Err in He.
Qed.

(** A run panics when one of its checks applies and panics at every instant. *)
Lemma executeChecks_panics io ctx target check checks t :
  (∀ t, ctx t = None) → check ∈ checks →
  (∀ t, ck_CanApply check t target = Ok true ∧ ∃ s, executeCheck io t target check = Panic s) →
  ∃ s, executeChecks io ctx t target checks = Panic s.
Proof.
  intros Hctx Hin Hp. revert t. induction checks as [|c rest IH]; [by apply elem_of_nil in Hin|]. intros t.
  cbn [executeChecks]. unfold CheckContextError. rewrite Hctx.
  apply elem_of_cons in Hin as [<-|Hin].
  { destruct (Hp t) as (-> & s & ->). by eexists. }
  destruct (IH Hin (S t)) as [s Hs]. destruct (ck_CanApply c t target) as [[|]|err|s']; [| | |by eexists].
  - destruct (executeCheck io t target c) as [[x log]|e|s'] eqn:He; [|by apply executeCheck_not_Err in He|by eexists].
    cbn [res_bind]. rewrite Hs. by eexists.
  - rewrite Hs. by eexists.
  - unfold buildCanApplyError. destruct (error_execution _ _ _ _) as [x|e'|s'] eqn:He; [|by apply error_execution_not_Err in He|by eexists].
    cbn [res_bind]. rewrite Hs. by eexists.
Qed.

Lemma kserve_managed_inv ListWith target :
  kserve_managed ListWith target = Ok true →
  ∃ dsc state, GetDataScienceCluster (ListPlain ListWith) = Ok dsc ∧ GetManagementState dsc "kserve" = Ok state.
Proof.
  unfold kserve_managed. destruct (negb _); [done|]. destruct (GetDataScienceCluster _) as [dsc|e|s]; [|done..].
  cbn [res_map_err res_bind]. unfold HasManagementState, state_in. intros H. exists dsc.
  destruct (GetManagementState dsc "kserve") as [state|e|s]; [|done..]. by exists state.
Qed.
End Panics.

(** The next step of the report; [len] shows that it counts its objects. *)
Ltac report_step Hb len :=
  let dr' := fresh "dr" in let Hb' := fresh "Hb" in
  match goal with
  | |- context [report ?dr (newWorkloadCompatibilityCondition ?ty ?n ?what ?tv) ?objs] =>
      destruct (built_workload dr _ ty n what tv objs Hb) as (dr' & -> & Hb'); [len|]
  | |- context [report ?dr (newAcceleratorSRCondition ?ty ?n ?what) ?objs] =>
      destruct (built_accelerator dr _ ty n what objs Hb) as (dr' & -> & Hb'); [len|]
  end; clear Hb; rename Hb' into Hb; cbn [res_bind].

(** ** Properties *)
Module KServeSpec.
(** C32: The KServe report is exact: over a cluster whose four lists are served and
    whose InferenceServices have a readable runtime field, it consists of the
    seven conditions in the order of the code, each true exactly when its group
    is empty (the first four block otherwise, the last three advise), and its
    impacted objects are the seven groups in that order.  When no workload is
    in two of the groups, the count is the number of impacted workloads. *)
Theorem kserve_report `{SV : Semver, AE : ApiErrors, KE : K8sErrors, JQ : GoJq, CL : Clock, MO : MapOrder}
    ListWith ListMetadataWith (c : Check) (target : Target) isvcs srs sr_metas isvcs_full :
  ListMetadataWith InferenceService defaultListOptions = Ok isvcs →
  ListWith ServingRuntime defaultListOptions = Ok srs →
  ListMetadataWith ServingRuntime defaultListOptions = Ok sr_metas →
  ListWith InferenceService defaultListOptions = Ok isvcs_full →
  Forall runtime_readable isvcs_full →
  let groups := report_groups isvcs srs sr_metas isvcs_full in
  let objects := concat (map snd groups) in
  ∃ dr, KServeImpacted_Validate ListWith ListMetadataWith c target = Ok dr ∧
    Forall2 condition_of_group (r_Conditions dr) groups ∧
    default [] (r_ImpactedObjects dr) = objects ∧
    (NoDup (map workload_id objects) →
       r_Annotations dr !! AnnotationImpactedWorkloadCount =
         Some (itoa (Z.of_nat (size (list_to_set (map workload_id objects) : gset (string * string * string)))))).
Proof.
  intros H1 H2 H3 H4 Hr groups objects. unfold KServeImpacted_Validate.
  rewrite (list_metadata_ok ListMetadataWith InferenceService _ _ _ H1) by done.
  rewrite (list_objects_ok ListWith ServingRuntime _ (holds ".spec.multiModel == true") _ H2)
    by (intros; apply Predicate_holds).
  rewrite (list_objects_ok ListWith InferenceService _ names_removed _ H4) by (intros; by apply (removed_ok isvcs_full)).
  rewrite (list_metadata_ok ListMetadataWith ServingRuntime _ has_accelerator _ H3) by done.
  assert (list_objects ListWith InferenceService None = Ok isvcs_full) as ->
    by (unfold list_objects, client_List, WorkloadHelpers.ListPlain; by rewrite H4).
  cbn [res_bind]. set (tv := MajorMinorLabel _).
  set (p := λ x, mode_is deploymentModeServerless x || mode_is deploymentModeModelMesh x).
  pose proof (built_NewResult c target) as Hb. revert Hb. generalize (annotate_target target (NewResult c)). intros dr0 Hb.
  unfold appendISVCCondition. rewrite !isvc_objects_impacted by set_solver.
  assert (∀ mode, mode ∈ [deploymentModeServerless; deploymentModeModelMesh] →
    length (List.filter (mode_is mode) (List.filter p isvcs)) = length (isvc_objects mode isvcs)) as Hlen.
  { intros mode Hm. unfold isvc_objects. rewrite length_map. unfold p. rewrite filter_filter_implied; [done|].
    intros x. by apply mode_is_impacted. }
  report_step Hb ltac:(apply Hlen; set_solver). report_step Hb ltac:(apply Hlen; set_solver).
  unfold appendModelMeshSRCondition. report_step Hb ltac:(by unfold sr_objects; rewrite length_map).
  unfold appendRemovedRuntimeISVCCondition. rewrite (runtime_objects_named _ _ names_removed_named). cbn [res_bind].
  report_step Hb ltac:(by rewrite length_map).
  unfold appendAcceleratorOnlySRCondition. report_step Hb ltac:(by unfold accelerator_only_objects; rewrite length_map).
  unfold appendAcceleratorAndHWProfileSRCondition.
  report_step Hb ltac:(by unfold accelerator_both_objects; rewrite length_map).
  unfold appendAcceleratorSRISVCCondition. rewrite isvcs_of_runtimes_spec by done. cbn [res_bind].
  rewrite (runtime_objects_named _ _ (names_runtime_in_named _)). cbn [res_bind].
  report_step Hb ltac:(by rewrite length_map).
  eexists. split; [reflexivity|]. destruct Hb as [Hc Ho]. split; [exact Hc|].
  split; [exact Ho|]. unfold count_annotation. cbn [r_Annotations with_annotation]. rewrite lookup_insert_eq, Ho.
  intros Hnd. by rewrite size_list_to_set, length_map by done.
Qed.

Lemma kserve_report_witness (clock := 0 : Clock) (O := canonical_MapOrder) :
  ∃ dr, KServeImpacted_Validate KServeRun.lister KServeRun.meta_lister
      (NewKServeImpactedWorkloadsCheck KServeRun.lister KServeRun.meta_lister) KServeRun.target = Ok dr ∧
    map po_Name (default [] (r_ImpactedObjects dr)) = ["old"; "gpu-runtime"; "fast"] ∧
    r_Annotations dr !! AnnotationImpactedWorkloadCount = Some "3".
Proof.
  edestruct (kserve_report KServeRun.lister KServeRun.meta_lister
    (NewKServeImpactedWorkloadsCheck KServeRun.lister KServeRun.meta_lister) KServeRun.target)
    as (dr & Hr & _ & Ho & Hn); [reflexivity..| |].
  - by repeat constructor.
  - exists dr. split; [exact Hr|]. split; [rewrite Ho; by vm_compute|].
    etransitivity; [apply Hn|vm_compute; reflexivity].
    apply (bool_decide_unpack _). vm_compute. exact I.
Defined.

(** The configuration check, over a ConfigMap the user may read: it fails when
    the ConfigMap is marked unmanaged and its document does not parse; in every
    other case it reports one condition, which is met exactly when the ConfigMap
    is marked unmanaged and its document disallows both annotations, and is
    advisory otherwise. *)
Theorem inferenceservice_config_decides `{SV : Semver, AE : ApiErrors, SRV : ApiServer, JQ : GoJq, CL : Clock}
    unmarshal (req : ComponentRequest) (obj : json) :
  Get ConfigMap "inferenceservice-config" (cr_ApplicationsNamespace req) = Ok (Some obj) →
  (∀ d s, unmarshal d ≠ Panic s) →
  let unmanaged := GetAnnotations obj !! AnnotationManaged = Some "false" in
  let document d := jq_Query_string obj ".data.inferenceService" = Ok d in
  (∀ d e, unmanaged → document d → unmarshal d = Err e → ∃ e', check_inferenceservice_config unmarshal req = Err e') ∧
  ((∀ d e, unmanaged → document d → unmarshal d ≠ Err e) →
   ∃ cond, check_inferenceservice_config unmarshal req = Ok (SetCondition (cr_Result req) cond) ∧
     c_Impact cond = (if bool_decide (c_Status cond = ConditionTrue) then ImpactNone else ImpactAdvisory) ∧
     (c_Status cond = ConditionTrue ↔ unmanaged ∧
        ∃ d disallowed, document d ∧ unmarshal d = Ok disallowed ∧ ∀ a, a ∈ requiredDisallowedAnnotations → a ∈ disallowed)).
Proof.
  intros Hget Hnp unmanaged document. unfold check_inferenceservice_config. rewrite Hget.
  assert (IsManaged (GetAnnotations obj) = false ↔ unmanaged) as Hun.
  { unfold IsManaged, at_key, unmanaged. rewrite negb_false_iff, String.eqb_eq.
    destruct (GetAnnotations obj !! AnnotationManaged); simpl; naive_solver. }
  destruct (IsManaged (GetAnnotations obj)).
  { split; [intros d e Hu; by apply Hun in Hu|]. intros _. eexists. split; [reflexivity|]. split; [done|].
    split; [done|]. intros [Hu _]. by apply Hun in Hu. }
  pose proof (proj1 Hun eq_refl) as Hu. unfold findMissingDisallowedAnnotations.
  destruct (jq_Query_string obj ".data.inferenceService") as [d|e|s] eqn:Hd.
  - destruct (unmarshal d) as [l|e|s] eqn:Hl.
    + split; [intros d' e _ [= <-]; by rewrite Hl|]. intros _. cbn [res_map_err res_bind].
      destruct (List.filter _ requiredDisallowedAnnotations) as [|m missing] eqn:Hf; (eexists; split; [reflexivity|]; split; [done|]).
      * split; [|done]. intros _. split; [done|]. exists d, l. do 2 (split; [done|]). intros a Ha.
        by apply (missing_nil l requiredDisallowedAnnotations).
      * split; [done|]. intros [_ (d' & l' & [= <-] & Hl' & Hall)]. rewrite Hl in Hl'. injection Hl' as <-.
        by apply missing_nil in Hall; rewrite Hf in Hall.
    + split; [intros; by eexists|]. intros Hok. by destruct (Hok d e Hu eq_refl).
    + by destruct (Hnp d s).
  - split; [done|]. intros _. eexists. split; [reflexivity|]. split; [done|]. split; [done|].
    by intros [_ (d & l & ? & _)].
  - by destruct (jq_Query_string_no_panic obj ".data.inferenceService" s).
Qed.

Lemma inferenceservice_config_decides_witness (clock := 0 : Clock) :
  ∃ cond, check_inferenceservice_config (SRV := KServeRun.serving) KServeRun.unmarshal KServeRun.request =
      Ok (SetCondition (cr_Result KServeRun.request) cond) ∧ c_Status cond = ConditionTrue.
Proof.
  destruct (inferenceservice_config_decides (SRV := KServeRun.serving) KServeRun.unmarshal KServeRun.request
    KServeRun.config_map eq_refl) as [_ H]; [done|].
  destruct H as (cond & Hr & _ & Hs); [done|]. exists cond. split; [exact Hr|]. apply Hs. split; [by vm_compute|].
  do 2 eexists. do 2 (split; [reflexivity|]). done.
Defined.

(** A user who may not read the ConfigMap makes the check dereference a nil
    object, and the executor, which recovers from nothing, dies with it: a run
    that contains the check, while it applies, reports no result of any check. *)
Theorem forbidden_config_kills_run `{SV : Semver, AE : ApiErrors, KE : K8sErrors, SRV : ApiServer, JQ : GoJq, CL : Clock,
    MO : MapOrder} ListWith unmarshal (io : bool) (ctx : Ctx) (t : instant) (target : Target) ns (checks : list Check) :
  let config := NewInferenceServiceConfigCheck ListWith unmarshal in
  config ∈ checks → (∀ t, ctx t = None) →
  ck_CanApply config t target = Ok true →
  GetApplicationsNamespace (ListPlain ListWith) = Ok ns →
  Get ConfigMap "inferenceservice-config" ns = Ok None →
  ∃ s, executeChecks io ctx t target checks = Panic s.
Proof.
  intros config Hin Hctx Hcan Hns Hget.
  apply (executeChecks_panics io ctx target config); [done..|]. clear Hin. intros t'. split; [exact Hcan|].
  destruct (kserve_managed_inv ListWith target Hcan) as (dsc & state & Hdsc & Hst).
  assert (∀ tgt, ck_Validate config t' tgt = Panic "runtime error: invalid memory address or nil pointer dereference") as Hv.
  { intros tgt. unfold config, NewInferenceServiceConfigCheck, kserve_check, InferenceServiceConfig_Validate, Component_Run.
    cbn. rewrite Hdsc. cbn. rewrite Hst. cbn. rewrite Hns. unfold check_inferenceservice_config. cbn. by rewrite Hget. }
  eexists. unfold executeCheck. by rewrite Hv.
Qed.

Lemma forbidden_config_kills_run_witness (clock := 0 : Clock) (O := canonical_MapOrder) :
  ∃ s, executeChecks (SV := VersionRun.semver) false (λ _, None) 0%nat KServeRun.target
    [NewInferenceServiceConfigCheck (SRV := KServeRun.forbidding) KServeRun.lister KServeRun.unmarshal] = Panic s.
Proof.
  apply (forbidden_config_kills_run (SRV := KServeRun.forbidding) KServeRun.lister KServeRun.unmarshal false (λ _, None) 0%nat KServeRun.target "apps");
    [by left|done|vm_compute; reflexivity..].
Defined.

(** The rows of the verbose table are the InferenceServices that pass the
    filter, in the order of namespace and name whatever the sorting algorithm;
    the table is determined when no InferenceService is listed with two
    different deployment modes. *)
Theorem kserve_rows_sorted (S1 S2 : SortSlice) (filter : string) (dr : DiagnosticResult) :
  let rows SS := KServe_verbose_rows (SS := SS) filter dr in
  rows S1 ≡ₚ omap (isvc_row filter) (default [] (r_ImpactedObjects dr)) ∧
  StronglySorted (λ a b, isvc_row_less b a = false) (rows S1) ∧
  map (λ r, (row_Namespace r, row_Name r)) (rows S1) = map (λ r, (row_Namespace r, row_Name r)) (rows S2) ∧
  ((∀ a b, a ∈ rows S1 → b ∈ rows S1 → row_Namespace a = row_Namespace b → row_Name a = row_Name b →
      row_DeploymentMode a = row_DeploymentMode b) → rows S1 = rows S2).
Proof.
  intros rows. pose proof (string_less2_strict row_Namespace row_Name : StrictWeak isvc_row_less) as Hs.
  split; [apply sort_slice_perm|]. split; [by apply sort_slice_sorted|]. split.
  - by apply (sort_less2_keys S1 S2 row_Namespace row_Name).
  - intros Hmode. apply sort_slice_unique; [done| |done]. intros x y Hx Hy H1 H2.
    destruct (string_less2_eq row_Namespace row_Name x y H1 H2) as [Hns Hn].
    assert (row_DeploymentMode x = row_DeploymentMode y) as Hm by (apply Hmode; unfold rows, KServe_verbose_rows; by rewrite ?sort_slice_perm).
    destruct x, y. simpl in *. by simplify_eq.
Qed.
End KServeSpec.
