(* ===== verification/KueueIntegrity.v ===== *)
(** * KueueIntegrity: pkg/lint/checks/workloads/kueue and checks/kueue/discovery

    The data-integrity check of Kueue labels: the namespaces it looks at, the
    ownership graph of a namespace and its traversal, the three invariants and
    the report.  The metadata of an object is the part the check reads: name,
    namespace, UID, labels and the UIDs of its owners. *)
From S2P Require Import Prelude Errors Client Result Version Check Validate CheckKit BackupDeps WorkloadHelpers KServeChecks.
Open Scope string_scope.
Open Scope Z_scope.
Open Scope go_scope.

(** ** Data *)
Definition LLMInferenceService : ResourceType :=
  mkResourceType "serving.kserve.io" "v1alpha1" "LLMInferenceService" "llminferenceservices".
Definition RayCluster : ResourceType := mkResourceType "ray.io" "v1" "RayCluster" "rayclusters".
Definition RayJob : ResourceType := mkResourceType "ray.io" "v1" "RayJob" "rayjobs".
Definition PyTorchJob : ResourceType := mkResourceType "kubeflow.org" "v1" "PyTorchJob" "pytorchjobs".
Definition StatefulSet : ResourceType := mkResourceType "apps" "v1" "StatefulSet" "statefulsets".
Definition ReplicaSet : ResourceType := mkResourceType "apps" "v1" "ReplicaSet" "replicasets".
Definition DaemonSet : ResourceType := mkResourceType "apps" "v1" "DaemonSet" "daemonsets".
Definition Job : ResourceType := mkResourceType "batch" "v1" "Job" "jobs".
Definition CronJob : ResourceType := mkResourceType "batch" "v1" "CronJob" "cronjobs".
Definition Pod : ResourceType := mkResourceType "" "v1" "Pod" "pods".
Definition NamespaceType : ResourceType := mkResourceType "" "v1" "Namespace" "namespaces".

Definition MonitoredWorkloadTypes : list ResourceType :=
  [Notebook; InferenceService; LLMInferenceService; RayCluster; RayJob; PyTorchJob].
Definition intermediateTypes : list ResourceType :=
  [Deployment; StatefulSet; ReplicaSet; DaemonSet; Job; CronJob; Pod].

Definition LabelKueueManaged := "kueue-managed".
Definition LabelKueueOpenshiftManaged := "kueue.openshift.io/managed".
Definition LabelKueueQueueName := "kueue.x-k8s.io/queue-name".
Definition conditionTypeKueueConsistency := "KueueConsistency".
Definition remediationConsistency :=
  "Ensure kueue-managed namespaces and workload kueue.x-k8s.io/queue-name labels are consistent. Add the kueue-managed or kueue.openshift.io/managed label to namespaces with kueue workloads, or add the kueue.x-k8s.io/queue-name label to all workloads in kueue-enabled namespaces".

Record ObjectMeta := mkMeta {
  om_Namespace : string; om_Name : string; om_UID : string;
  om_Labels : gmap string string; om_Owners : list string;
}.
(** A top-level CR: its metadata under the type it was listed as. *)
Record Workload := mkWorkload { wl_TypeMeta : TypeMeta; wl_Meta : ObjectMeta }.
Definition wl_Kind (w : Workload) : string := tm_Kind (wl_TypeMeta w).

Record graphNode := mkNode {
  gn_UID : string; gn_Name : string; gn_Namespace : string; gn_Kind : string; gn_Labels : gmap string string;
}.
Record ownershipGraph := mkGraph { og_children : gmap string (list graphNode) }.

Record violation := mkViolation {
  vi_Resource : NamespacedName; vi_Kind : string; vi_APIVersion : string; vi_Message : string;
}.
Record impactedResource := mkImpacted {
  ir_Namespace : string; ir_Name : string; ir_Kind : string; ir_APIVersion : string; ir_Message : string;
}.

(** ** graph.go: the traversal *)
Definition children_of (g : ownershipGraph) (uid : string) : list graphNode := default [] (og_children g !! uid).

(** One turn per queue entry; the visited set stops at cycles. *)
Fixpoint walk (fuel : nat) (g : ownershipGraph) (visited : gset string) (queue : list string) (result : list graphNode)
    : option (list graphNode) :=
  match queue with
  | [] => Some result
  | current :: queue =>
      match fuel with
      | O => None
      | S fuel =>
          if bool_decide (current ∈ visited) then walk fuel g visited queue result
          else
            let children := children_of g current in
            walk fuel g ({[current]} ∪ visited) (queue ++ map gn_UID children)%list (result ++ children)%list
      end
  end.
(** The number of entries of the graph, and one for the root. *)
Definition walk_bound (g : ownershipGraph) : nat := S (map_fold (λ _ l n, (length l + n)%nat) 0%nat (og_children g)).
Definition walkSubtree (g : ownershipGraph) (rootUID : string) : list graphNode :=
  default [] (walk (walk_bound g) g ∅ [rootUID] []).

Definition newGraphNode (item : ObjectMeta) (kind : string) : graphNode :=
  mkNode (om_UID item) (om_Name item) (om_Namespace item) kind (om_Labels item).
Definition link_child (node : graphNode) (g : ownershipGraph) (owner : string) : ownershipGraph :=
  mkGraph (<[owner := (children_of g owner ++ [node])%list]> (og_children g)).
Definition add_item (kind : string) (g : ownershipGraph) (item : ObjectMeta) : ownershipGraph :=
  foldl (link_child (newGraphNode item kind)) g (om_Owners item).

(** ** invariants.go *)
Definition queue_label (m : gmap string string) : option string := m !! LabelKueueQueueName.
Definition wl_ref (w : Workload) : NamespacedName := mkNN (om_Namespace (wl_Meta w)) (om_Name (wl_Meta w)).
Definition violated (w : Workload) (message : string) : violation :=
  mkViolation (wl_ref w) (wl_Kind w) (tm_APIVersion (wl_TypeMeta w)) message.
Definition path (kind ns name : string) : string := kind +:+ " " +:+ ns +:+ "/" +:+ name.
Definition wl_path (w : Workload) : string := path (wl_Kind w) (om_Namespace (wl_Meta w)) (om_Name (wl_Meta w)).
Definition gn_path (n : graphNode) : string := path (gn_Kind n) (gn_Namespace n) (gn_Name n).
Definition has_queue (v : string) : string := " has kueue.x-k8s.io/queue-name=" +:+ v.

Definition checkNamespaceToWorkload (w : Workload) (kueueNamespaces : gset string) : option violation :=
  let ns := om_Namespace (wl_Meta w) in
  if negb (bool_decide (ns ∈ kueueNamespaces)) then None
  else match queue_label (om_Labels (wl_Meta w)) with
  | Some _ => None
  | None => Some (violated w (wl_path w +:+ " is in kueue-managed namespace " +:+ ns +:+
                              " but missing kueue.x-k8s.io/queue-name label"))
  end.
Definition checkWorkloadToNamespace (w : Workload) (kueueNamespaces : gset string) : option violation :=
  match queue_label (om_Labels (wl_Meta w)) with
  | None => None
  | Some queueName =>
      if bool_decide (om_Namespace (wl_Meta w) ∈ kueueNamespaces) then None
      else Some (violated w (wl_path w +:+ has_queue queueName +:+ " but namespace is not kueue-managed"))
  end.
(** What one descendant has against the root. *)
Definition disagreement (w : Workload) (n : graphNode) : option violation :=
  match queue_label (om_Labels (wl_Meta w)), queue_label (gn_Labels n) with
  | Some rootValue, None =>
      Some (violated w (wl_path w +:+ has_queue rootValue +:+ " but descendant " +:+ gn_path n +:+ " is missing the label"))
  | None, Some childValue =>
      Some (violated w (gn_path n +:+ has_queue childValue +:+ " but ancestor " +:+ wl_path w +:+ " does not have the label"))
  | Some rootValue, Some childValue =>
      if negb (String.eqb rootValue childValue)
      then Some (violated w (gn_path n +:+ has_queue childValue +:+ " but root " +:+ wl_path w +:+ has_queue rootValue))
      else None
  | None, None => None
  end.
Definition checkOwnerTreeConsistency (w : Workload) (g : ownershipGraph) : option violation :=
  find_map (disagreement w) (walkSubtree g (om_UID (wl_Meta w))).

(** The body of the loop over the CRs of a namespace. *)
Definition check_workload (kueueNamespaces : gset string) (g : ownershipGraph) (w : Workload) : option violation :=
  match checkNamespaceToWorkload w kueueNamespaces with
  | Some v => Some v
  | None =>
      match checkWorkloadToNamespace w kueueNamespaces with
      | Some v => Some v
      | None => checkOwnerTreeConsistency w g
      end
  end.

(** ** check.go: the report *)
Definition violation_key (v : violation) : string * string * NamespacedName := (vi_Kind v, vi_APIVersion v, vi_Resource v).
Definition impacted_of (v : violation) : impactedResource :=
  mkImpacted (nn_Namespace (vi_Resource v)) (nn_Name (vi_Resource v)) (vi_Kind v) (vi_APIVersion v) (vi_Message v).
Fixpoint unique_from (seen : gset (string * string * NamespacedName)) (violations : list violation) : list impactedResource :=
  match violations with
  | [] => []
  | v :: rest =>
      if bool_decide (violation_key v ∈ seen) then unique_from seen rest
      else impacted_of v :: unique_from ({[violation_key v]} ∪ seen) rest
  end.
Definition uniqueResources (violations : list violation) : list impactedResource := unique_from ∅ violations.

Definition buildCRDFQNLookup : gmap string string :=
  foldl (λ m rt, <[APIVersion rt +:+ "/" +:+ rt_Kind rt := CRDFQN rt]> m) ∅ MonitoredWorkloadTypes.
Definition impacted_annotations (r : impactedResource) : gmap string string :=
  let m := if negb (String.eqb (ir_Message r) "") then {[AnnotationObjectContext := ir_Message r]} else ∅ in
  match buildCRDFQNLookup !! (ir_APIVersion r +:+ "/" +:+ ir_Kind r) with
  | Some fqn => <[AnnotationObjectCRDName := fqn]> m
  | None => m
  end.
Definition populateImpactedObjects (dr : DiagnosticResult) (impacted : list impactedResource) : DiagnosticResult :=
  with_objects dr (map (λ r, mkPartial (mkTypeMeta (ir_APIVersion r) (ir_Kind r)) (ir_Namespace r) (ir_Name r)
    (impacted_annotations r)) impacted).

Section Kueue.
Context `{SV : Semver, AE : ApiErrors, KE : K8sErrors, SRV : ApiServer, JQ : GoJq, CL : Clock, SS : SortSlice}.
Context (ListWith : ResourceType → ListOptions → res go_error (list json)).
(** The metadata-only list with options. *)
Context (ListMeta : ResourceType → ListOptions → res go_error (list ObjectMeta)).

Definition with_selector (selector : string) : ListOptions :=
  {| lo_Namespace := ""; lo_LabelSelector := selector; lo_FieldSelector := ""; lo_Limit := 0 |}.

(** A list whose missing CRD counts as empty. *)
Definition list_or_empty (rt : ResourceType) (opts : ListOptions) (context : string) : res go_error (list ObjectMeta) :=
  match ListMeta rt opts with
  | Panic s => Panic s
  | Err err => if IsResourceTypeNotFound err then Ok [] else Err (errorf_w context err)
  | Ok items => Ok items
  end.

(** *** discovery.go *)
Definition insert_all (key : ObjectMeta → string) (items : list ObjectMeta) (s : gset string) : gset string :=
  foldl (λ s o, {[key o]} ∪ s) s items.
Fixpoint enabled_by (selectors : list string) (enabled : gset string) : res go_error (gset string) :=
  match selectors with
  | [] => Ok enabled
  | selector :: rest =>
      try! items := ListMeta NamespaceType (with_selector selector) else errorf_w "listing kueue-enabled namespaces" in
      enabled_by rest (insert_all om_Name items enabled)
  end.
Definition KueueEnabledNamespaces : res go_error (gset string) :=
  enabled_by [LabelKueueManaged +:+ "=true"; LabelKueueOpenshiftManaged +:+ "=true"] ∅.
Fixpoint labeled_by (types : list ResourceType) (namespaces : gset string) : res go_error (gset string) :=
  match types with
  | [] => Ok namespaces
  | rt :: rest =>
      let! items := list_or_empty rt (with_selector LabelKueueQueueName) ("listing " +:+ rt_Kind rt +:+ " with kueue label") in
      labeled_by rest (insert_all om_Namespace items namespaces)
  end.
Definition WorkloadLabeledNamespaces : res go_error (gset string) := labeled_by MonitoredWorkloadTypes ∅.

(** *** graph.go, check.go: one namespace *)
Definition list_context (rt : ResourceType) (namespace : string) : string :=
  "listing " +:+ rt_Kind rt +:+ " in namespace " +:+ namespace.
Fixpoint build_from (types : list ResourceType) (namespace : string) (g : ownershipGraph) : res go_error ownershipGraph :=
  match types with
  | [] => Ok g
  | rt :: rest =>
      let! items := list_or_empty rt (in_namespace namespace) (list_context rt namespace) in
      build_from rest namespace (foldl (add_item (rt_Kind rt)) g items)
  end.
Definition buildGraph (namespace : string) : res go_error ownershipGraph :=
  build_from intermediateTypes namespace (mkGraph ∅).
Fixpoint workloads_of (types : list ResourceType) (namespace : string) : res go_error (list Workload) :=
  match types with
  | [] => Ok []
  | rt :: rest =>
      let! items := list_or_empty rt (in_namespace namespace) (list_context rt namespace) in
      let! all := workloads_of rest namespace in
      Ok (map (mkWorkload (ResourceType_TypeMeta rt)) items ++ all)%list
  end.
Definition listWorkloadsInNamespace (namespace : string) : res go_error (list Workload) :=
  workloads_of MonitoredWorkloadTypes namespace.

Definition checkNamespace (kueueNamespaces : gset string) (namespace : string) : res go_error (list violation) :=
  let! workloads := listWorkloadsInNamespace namespace in
  match workloads with
  | [] => Ok []
  | _ =>
      try! graph := buildGraph namespace else errorf_w "building ownership graph" in
      Ok (omap (check_workload kueueNamespaces graph) workloads)
  end.
Fixpoint check_namespaces (kueueNamespaces : gset string) (namespaces : list string) : res go_error (list violation) :=
  match namespaces with
  | [] => Ok []
  | namespace :: rest =>
      try! vs := checkNamespace kueueNamespaces namespace else errorf_w ("checking namespace " +:+ namespace) in
      let! more := check_namespaces kueueNamespaces rest in
      Ok (vs ++ more)%list
  end.

Definition consistency (dr : DiagnosticResult) (violations : nat) : res go_error DiagnosticResult :=
  let! cond :=
    if (violations =? 0)%nat then
      NewCondition conditionTypeKueueConsistency ConditionTrue
        [WithReason ReasonRequirementsMet;
         WithMessage "All monitored workloads are consistent with kueue namespace configuration"]
    else
      NewCondition conditionTypeKueueConsistency ConditionFalse
        [WithReason ReasonConfigurationInvalid;
         WithMessage ("Found " +:+ itoa (Z.of_nat violations) +:+ " kueue consistency violation(s) across monitored workloads");
         WithImpact ImpactAdvisory; WithRemediation remediationConsistency] in
  Ok (SetCondition dr cond).
Definition with_count (dr : DiagnosticResult) (n : nat) : DiagnosticResult :=
  with_annotation dr AnnotationImpactedWorkloadCount (itoa (Z.of_nat n)).

Definition DataIntegrity_Validate (c : Check) (target : Target) : res go_error DiagnosticResult :=
  let dr := annotate_target target (NewResult c) in
  try! kueueNamespaces := KueueEnabledNamespaces else errorf_w "finding kueue-enabled namespaces" in
  try! workloadNamespaces := WorkloadLabeledNamespaces else errorf_w "finding workload-labeled namespaces" in
  let relevantNamespaces := kueueNamespaces ∪ workloadNamespaces in
  if (size relevantNamespaces =? 0)%nat then
    let! cond := NewCondition conditionTypeKueueConsistency ConditionTrue
      [WithReason ReasonRequirementsMet; WithMessage "No kueue-managed namespaces or kueue-labeled workloads found"] in
    Ok (with_count (SetCondition dr cond) 0)
  else
    let! violations := check_namespaces kueueNamespaces (sets_List relevantNamespaces) in
    let impacted := uniqueResources violations in
    let dr := with_count dr (length impacted) in
    let! dr := consistency dr (length violations) in
    Ok (match violations with [] => dr | _ => populateImpactedObjects dr impacted end).

(** *** support.go *)
Definition IsKueueUnmanaged (target : Target) : res go_error bool :=
  try! dsc := GetDataScienceCluster (ListPlain ListWith) else errorf_w "getting DataScienceCluster" in
  HasManagementState dsc "kueue" [ManagementStateUnmanaged].
Definition DataIntegrity_CanApply (target : Target) : res go_error bool :=
  res_map_err (errorf_w "checking kueue state") (IsKueueUnmanaged target).
Definition NewDataIntegrityCheck : Check :=
  embed (mkBaseCheck GroupWorkload "kueue" "data-integrity" "workloads.kueue.data-integrity"
           "Workloads :: Kueue :: Data Integrity"
           "Verifies that kueue namespace labels and workload queue-name labels are consistent across the cluster"
           remediationConsistency)
    DataIntegrity_CanApply (λ c target, some_result (DataIntegrity_Validate c target)).
End Kueue.

(** ** Lemmas *)
(** *** The ownership relation and its traversal *)
Definition child (g : ownershipGraph) (u : string) (n : graphNode) : Prop := n ∈ children_of g u.
Definition owner_step (g : ownershipGraph) (u v : string) : Prop := ∃ n, child g u n ∧ gn_UID n = v.
(** The nodes below a UID: the specification of the traversal. *)
Definition descendant (g : ownershipGraph) (root : string) (n : graphNode) : Prop :=
  ∃ u, rtc (owner_step g) root u ∧ child g u n.

(** What the traversal still has to append. *)
Definition weight (g : ownershipGraph) (visited : gset string) : nat :=
  map_fold (λ _ l n, (length l + n)%nat) 0%nat (filter (λ kv, kv.1 ∉ visited) (og_children g)).

Lemma weight_visit g visited c :
  c ∉ visited → weight g visited = (length (children_of g c) + weight g ({[c]} ∪ visited))%nat.
Proof.
  intros Hc. unfold weight, children_of.
  set (m := filter (λ kv, kv.1 ∉ visited) (og_children g)).
  assert (filter (λ kv, kv.1 ∉ {[c]} ∪ visited) (og_children g) = delete c m) as ->.
  { apply map_eq. intros i. apply option_eq. intros l. rewrite lookup_delete_Some. unfold m.
    rewrite !map_lookup_filter_Some. simpl. set_solver. }
  assert (m !! c = og_children g !! c) as Hm.
  { unfold m. apply option_eq. intros l. rewrite map_lookup_filter_Some. simpl. naive_solver. }
  rewrite <-Hm. destruct (m !! c) as [l|] eqn:Hl; simpl.
  - apply (map_fold_delete_L (λ _ l n, (length l + n)%nat) 0%nat c l m); [lia|done].
  - by rewrite delete_id.
Qed.

Lemma walk_enough fuel g visited queue result :
  (length queue + weight g visited ≤ fuel)%nat → is_Some (walk fuel g visited queue result).
Proof.
  revert visited queue result. induction fuel as [|fuel IH]; intros visited [|c queue] result Hf; simpl in *; [by eexists|lia|by eexists|].
  case_bool_decide as Hc; apply IH; [lia|]. rewrite length_app, length_map.
  rewrite (weight_visit g visited c Hc) in Hf. lia.
Qed.

Lemma weight_empty g : walk_bound g = S (weight g ∅).
Proof.
  unfold walk_bound, weight. do 2 f_equal. symmetry. apply map_filter_id. intros i l _. simpl. set_solver.
Qed.
Lemma walkSubtree_walk g root : walk (walk_bound g) g ∅ [root] [] = Some (walkSubtree g root).
Proof.
  unfold walkSubtree. destruct (walk_enough (walk_bound g) g ∅ [root] []) as [r ->]; [|done]. rewrite weight_empty. simpl. lia.
Qed.

Lemma walk_sound fuel g root visited queue result r :
  walk fuel g visited queue result = Some r →
  (∀ u, u ∈ queue → rtc (owner_step g) root u) → (∀ n, n ∈ result → descendant g root n) →
  ∀ n, n ∈ r → descendant g root n.
Proof.
  revert visited queue result. induction fuel as [|fuel IH]; intros visited [|c queue] result Hw Hq Hr; simpl in Hw; simplify_eq; [done|done|].
  case_bool_decide as Hc; (eapply IH; [exact Hw|..]).
  - intros u Hu. apply Hq. by right.
  - done.
  - intros u [Hu|(n & -> & Hn)%list_elem_of_fmap]%elem_of_app; [apply Hq; by right|].
    eapply rtc_r; [apply Hq; by left|]. by exists n.
  - intros n [Hn|Hn]%elem_of_app; [by apply Hr|]. exists c. split; [apply Hq; by left|done].
Qed.

Lemma walk_complete fuel g visited queue result r :
  walk fuel g visited queue result = Some r →
  (∀ u n, u ∈ visited → child g u n → n ∈ result ∧ (gn_UID n ∈ visited ∨ gn_UID n ∈ queue)) →
  ∃ visited' : gset string, visited ⊆ visited' ∧ (∀ u, u ∈ queue → u ∈ visited') ∧
    ∀ u n, u ∈ visited' → child g u n → n ∈ r ∧ gn_UID n ∈ visited'.
Proof.
  revert visited queue result. induction fuel as [|fuel IH]; intros visited [|c queue] result Hw Hv; simpl in Hw; simplify_eq.
  1,2: exists visited; split; [done|]; split; [by intros u ?%elem_of_nil|]; intros u n Hu Hn;
    destruct (Hv u n Hu Hn) as [? [?|[]%elem_of_nil]]; done.
  case_bool_decide as Hc.
  - destruct (IH _ _ _ Hw) as (v' & Hsub & Hq & Hcl).
    { intros u n Hu Hn. destruct (Hv u n Hu Hn) as [? [?|[->|?]%elem_of_cons]]; auto. }
    exists v'. split; [done|]. split; [|done]. intros u [->|?]%elem_of_cons; [by apply Hsub|auto].
  - destruct (IH _ _ _ Hw) as (v' & Hsub & Hq & Hcl).
    { intros u n [->%elem_of_singleton|Hu]%elem_of_union Hn.
      - split; [apply elem_of_app; by right|]. right. apply elem_of_app. right. by apply list_elem_of_fmap_2.
      - destruct (Hv u n Hu Hn) as [Hin Hor]. split; [apply elem_of_app; by left|]. rewrite elem_of_union, elem_of_app, elem_of_singleton.
        rewrite elem_of_cons in Hor. tauto. }
    exists v'. split; [set_solver|]. split; [|done]. intros u [->|Hu]%elem_of_cons; [set_solver|].
    apply Hq, elem_of_app. by left.
Qed.

Lemma elem_of_walkSubtree g root n : n ∈ walkSubtree g root ↔ descendant g root n.
Proof.
  pose proof (walkSubtree_walk g root) as Hw. split.
  - eapply (walk_sound _ _ root _ _ _ _ Hw); [intros u ->%list_elem_of_singleton; done|by intros m ?%elem_of_nil].
  - intros (u & Hu & Hn). destruct (walk_complete _ _ _ _ _ _ Hw) as (v & _ & Hq & Hcl); [set_solver|].
    assert (u ∈ v) as Hv; [|by apply (Hcl u)].
    assert (root ∈ v) as Hroot by (apply Hq; by left).
    assert (∀ x y, owner_step g x y → x ∈ v → y ∈ v) as Hstep by (intros x y (m & Hm & <-) Hx; by apply (Hcl x)).
    clear Hw Hq Hn Hcl. induction Hu as [|x y z Hxy _ IH]; eauto.
Qed.

Lemma child_add_child node g o u n : child (link_child node g o) u n ↔ child g u n ∨ (u = o ∧ n = node).
Proof.
  unfold child, link_child. destruct (decide (u = o)) as [->|Hne].
  - unfold children_of at 1. cbn [og_children]. rewrite lookup_insert_eq. cbn [from_option id].
    rewrite elem_of_app, list_elem_of_singleton. tauto.
  - unfold children_of at 1. cbn [og_children]. rewrite lookup_insert_ne by done. naive_solver.
Qed.
Lemma child_add_item kind g item u n :
  child (add_item kind g item) u n ↔ child g u n ∨ (u ∈ om_Owners item ∧ n = newGraphNode item kind).
Proof.
  unfold add_item. generalize (newGraphNode item kind). intros node. revert g.
  induction (om_Owners item) as [|o os IH]; intros g; simpl; [set_solver|].
  rewrite IH, child_add_child, elem_of_cons. tauto.
Qed.
Lemma child_add_items kind g items u n :
  child (foldl (add_item kind) g items) u n ↔
  child g u n ∨ ∃ item, item ∈ items ∧ u ∈ om_Owners item ∧ n = newGraphNode item kind.
Proof.
  revert g. induction items as [|i items IH]; intros g; simpl; [set_solver|].
  rewrite IH, child_add_item. setoid_rewrite elem_of_cons. naive_solver.
Qed.

Lemma disagreement_None w n :
  disagreement w n = None ↔ queue_label (gn_Labels n) = queue_label (om_Labels (wl_Meta w)).
Proof.
  unfold disagreement. destruct (queue_label (om_Labels _)) as [r|], (queue_label (gn_Labels n)) as [c|]; try done.
  destruct (String.eqb_spec r c); simpl; naive_solver.
Qed.

(** What the three invariants ask of a CR. *)
Definition consistent_workload (K : gset string) (g : ownershipGraph) (w : Workload) : Prop :=
  (om_Namespace (wl_Meta w) ∈ K ↔ is_Some (queue_label (om_Labels (wl_Meta w)))) ∧
  ∀ n, descendant g (om_UID (wl_Meta w)) n → queue_label (gn_Labels n) = queue_label (om_Labels (wl_Meta w)).

Lemma checkOwnerTree_None w g :
  checkOwnerTreeConsistency w g = None ↔
  ∀ n, descendant g (om_UID (wl_Meta w)) n → queue_label (gn_Labels n) = queue_label (om_Labels (wl_Meta w)).
Proof.
  unfold checkOwnerTreeConsistency. rewrite find_map_None, Forall_forall.
  setoid_rewrite <-elem_of_walkSubtree. by setoid_rewrite disagreement_None.
Qed.
Lemma check_workload_None K g w : check_workload K g w = None ↔ consistent_workload K g w.
Proof.
  unfold check_workload, checkNamespaceToWorkload, checkWorkloadToNamespace, consistent_workload.
  destruct (queue_label (om_Labels (wl_Meta w))) eqn:Hl; case_bool_decide as Hns; simpl.
  - rewrite checkOwnerTree_None, Hl. split; [|tauto]. intros H. split; [by split; eauto|done].
  - split; [done|]. intros [H _]. destruct Hns. apply H. eauto.
  - split; [done|]. intros [H _]. by apply H, is_Some_None in Hns.
  - rewrite checkOwnerTree_None, Hl. split; [|tauto]. intros H. split; [|done].
    split; [done|]. by intros ?%is_Some_None.
Qed.
Lemma check_workload_ref K g w v :
  check_workload K g w = Some v → violation_key v = (wl_Kind w, tm_APIVersion (wl_TypeMeta w), wl_ref w).
Proof.
  unfold check_workload, checkNamespaceToWorkload, checkWorkloadToNamespace, checkOwnerTreeConsistency.
  assert (∀ n v, disagreement w n = Some v → violation_key v = (wl_Kind w, tm_APIVersion (wl_TypeMeta w), wl_ref w)) as Hd.
  { intros n v'. unfold disagreement. repeat case_match; by intros [= <-]. }
  intros H. repeat case_match; simplify_eq; try done;
    match goal with H : find_map _ _ = Some _ |- _ => apply find_map_elem in H as (n & _ & Hn); by apply (Hd n) end.
Qed.

(** *** Uniqueness of the impacted resources *)
Definition workload_key (w : Workload) : string * string * NamespacedName :=
  (wl_Kind w, tm_APIVersion (wl_TypeMeta w), wl_ref w).
Definition resource_key (r : impactedResource) : string * string * NamespacedName :=
  (ir_Kind r, ir_APIVersion r, mkNN (ir_Namespace r) (ir_Name r)).
Lemma resource_key_of v : resource_key (impacted_of v) = violation_key v.
Proof. by destruct v as [[]]. Qed.
Lemma unique_from_keys seen vs :
  NoDup (map resource_key (unique_from seen vs)) ∧
  ∀ k, k ∈ map resource_key (unique_from seen vs) ↔ k ∉ seen ∧ k ∈ map violation_key vs.
Proof.
  revert seen. induction vs as [|v vs IH]; intros seen; cbn [unique_from map].
  { split; [constructor|]. intros k. rewrite elem_of_nil. tauto. }
  case_bool_decide as Hv.
  - destruct (IH seen) as [Hnd Hk]. split; [done|]. intros k. rewrite Hk, elem_of_cons. naive_solver.
  - destruct (IH ({[violation_key v]} ∪ seen)) as [Hnd Hk]. cbn [map]. rewrite resource_key_of. split.
    + constructor; [|done]. rewrite Hk. set_solver.
    + intros k. rewrite !elem_of_cons, Hk, not_elem_of_union, not_elem_of_singleton.
      destruct (decide (k = violation_key v)) as [->|]; naive_solver.
Qed.

Definition object_key (o : PartialObjectMetadata) : string * string * NamespacedName :=
  (tm_Kind (po_TypeMeta o), tm_APIVersion (po_TypeMeta o), mkNN (po_Namespace o) (po_Name o)).
Lemma populate_keys dr l :
  map object_key (default [] (r_ImpactedObjects (populateImpactedObjects dr l))) = map resource_key l ∧
  length (default [] (r_ImpactedObjects (populateImpactedObjects dr l))) = length l.
Proof. simpl. by rewrite map_map, length_map. Qed.

(** *** A cluster that serves its lists *)
Section Cluster.
Context `{SV : Semver, AE : ApiErrors, KE : K8sErrors, SRV : ApiServer, JQ : GoJq, CL : Clock}.
Context (ListMeta : ResourceType → ListOptions → res go_error (list ObjectMeta)).
Context (objects : ResourceType → string → list ObjectMeta).

Definition serves_in (rt : ResourceType) (ns : string) : Prop :=
  ListMeta rt (in_namespace ns) = Ok (objects rt ns) ∨
  ∃ e, ListMeta rt (in_namespace ns) = Err e ∧ IsResourceTypeNotFound e = true ∧ objects rt ns = [].
Lemma list_or_empty_serves rt ns context : serves_in rt ns → list_or_empty ListMeta rt (in_namespace ns) context = Ok (objects rt ns).
Proof. unfold list_or_empty. intros [-> | (e & -> & -> & ->)]; done. Qed.

(** The nodes a UID owns in a namespace, and those below it. *)
Definition owned (ns u : string) (n : graphNode) : Prop :=
  ∃ rt item, rt ∈ intermediateTypes ∧ item ∈ objects rt ns ∧ u ∈ om_Owners item ∧ n = newGraphNode item (rt_Kind rt).
Definition below (ns root : string) (n : graphNode) : Prop :=
  ∃ u, rtc (λ u v, ∃ m, owned ns u m ∧ gn_UID m = v) root u ∧ owned ns u n.

Lemma build_from_spec ns types g :
  Forall (λ rt, serves_in rt ns) types →
  ∃ g', build_from ListMeta types ns g = Ok g' ∧ ∀ u n, child g' u n ↔ child g u n ∨
    ∃ rt item, rt ∈ types ∧ item ∈ objects rt ns ∧ u ∈ om_Owners item ∧ n = newGraphNode item (rt_Kind rt).
Proof.
  intros Hs. revert g. induction Hs as [|rt types Hrt _ IH]; intros g; simpl; [exists g; split; [done|]; set_solver|].
  rewrite list_or_empty_serves by done. cbn [res_bind].
  destruct (IH (foldl (add_item (rt_Kind rt)) g (objects rt ns))) as (g' & -> & Hg). exists g'. split; [done|].
  intros u n. rewrite Hg, child_add_items. setoid_rewrite elem_of_cons. naive_solver.
Qed.
Lemma buildGraph_spec ns :
  Forall (λ rt, serves_in rt ns) intermediateTypes →
  ∃ g, buildGraph ListMeta ns = Ok g ∧ ∀ root n, descendant g root n ↔ below ns root n.
Proof.
  intros Hs. destruct (build_from_spec ns intermediateTypes (mkGraph ∅) Hs) as (g & Hg & Hc). exists g. split; [done|].
  assert (∀ u n, child g u n ↔ owned ns u n) as Ho.
  { intros u n. rewrite Hc. unfold child, children_of. cbn [og_children]. rewrite lookup_empty. unfold owned.
    cbn [from_option]. rewrite elem_of_nil. naive_solver. }
  intros root n. split; intros (u & Hu & Hn); exists u; (split; [|by apply Ho]).
  all: eapply rtc_subrel; [|exact Hu]; intros x y (m & Hm & Hy); exists m; split; [by apply Ho|done].
Qed.

Definition cluster_workloads (ns : string) : list Workload :=
  concat (map (λ rt, map (mkWorkload (ResourceType_TypeMeta rt)) (objects rt ns)) MonitoredWorkloadTypes).
Lemma listWorkloads_spec ns :
  Forall (λ rt, serves_in rt ns) MonitoredWorkloadTypes → listWorkloadsInNamespace ListMeta ns = Ok (cluster_workloads ns).
Proof.
  unfold listWorkloadsInNamespace, cluster_workloads. induction 1 as [|rt types Hrt _ IH]; [done|].
  cbn [workloads_of map concat]. rewrite list_or_empty_serves by done. cbn [res_bind]. by rewrite IH.
Qed.

(** The specification of the check: the label and the namespace of a CR go
    together, and everything below it has its label. *)
Definition consistent (K : gset string) (ns : string) (w : Workload) : Prop :=
  (om_Namespace (wl_Meta w) ∈ K ↔ is_Some (queue_label (om_Labels (wl_Meta w)))) ∧
  ∀ n, below ns (om_UID (wl_Meta w)) n → queue_label (gn_Labels n) = queue_label (om_Labels (wl_Meta w)).

Lemma consistent_decided K ns w :
  Forall (λ rt, serves_in rt ns) intermediateTypes → consistent K ns w ∨ ¬ consistent K ns w.
Proof.
  intros Hi. destruct (buildGraph_spec ns Hi) as (g & _ & Hd).
  assert (check_workload K g w = None ↔ consistent K ns w) as <-.
  { rewrite check_workload_None. unfold consistent_workload, consistent. by setoid_rewrite Hd. }
  destruct (check_workload K g w); [by right|by left].
Qed.

Lemma checkNamespace_spec K ns :
  Forall (λ rt, serves_in rt ns) (intermediateTypes ++ MonitoredWorkloadTypes)%list →
  ∃ vs, checkNamespace ListMeta K ns = Ok vs ∧
    ∀ k, k ∈ map violation_key vs ↔ ∃ w, w ∈ cluster_workloads ns ∧ ¬ consistent K ns w ∧ k = workload_key w.
Proof.
  intros [Hi Hm]%Forall_app. unfold checkNamespace. rewrite listWorkloads_spec by done. cbn [res_bind].
  destruct (buildGraph_spec ns Hi) as (g & Hg & Hd).
  assert (∀ w, check_workload K g w = None ↔ consistent K ns w) as Hc.
  { intros w. rewrite check_workload_None. unfold consistent_workload, consistent. by setoid_rewrite Hd. }
  destruct (cluster_workloads ns) as [|w0 ws]; [exists []; split; [done|]; set_solver|].
  rewrite Hg. cbn [res_map_err res_bind]. eexists. split; [reflexivity|]. generalize (w0 :: ws). intros l k.
  rewrite list_elem_of_fmap. split.
  - intros (v & -> & (w & Hw & Hv)%list_elem_of_omap). exists w. split; [done|].
    split; [|by apply (check_workload_ref K g)]. rewrite <-Hc. congruence.
  - intros (w & Hw & Hn & ->). destruct (check_workload K g w) as [v|] eqn:Hv; [|by destruct Hn; apply Hc].
    exists v. split; [by rewrite (check_workload_ref K g w v)|]. apply list_elem_of_omap. eauto.
Qed.
Lemma check_namespaces_spec K nss :
  (∀ ns, ns ∈ nss → Forall (λ rt, serves_in rt ns) (intermediateTypes ++ MonitoredWorkloadTypes)%list) →
  ∃ vs, check_namespaces ListMeta K nss = Ok vs ∧
    ∀ k, k ∈ map violation_key vs ↔
      ∃ ns w, ns ∈ nss ∧ w ∈ cluster_workloads ns ∧ ¬ consistent K ns w ∧ k = workload_key w.
Proof.
  induction nss as [|ns nss IH]; intros Hs; [exists []; split; [done|]; set_solver|]. cbn [check_namespaces].
  destruct (checkNamespace_spec K ns) as (vs & -> & Hvs); [apply Hs; by left|].
  destruct IH as (more & -> & Hmore); [intros; apply Hs; by right|]. cbn [res_map_err res_bind].
  eexists. split; [reflexivity|]. intros k. rewrite map_app, elem_of_app, Hvs, Hmore. setoid_rewrite elem_of_cons. naive_solver.
Qed.
End Cluster.

Import (hints) ClientRun VersionRun.

(** ** A concrete cluster *)
Module KueueRun.
(** Deployment, ReplicaSet and Pod below a notebook; the Pod lost its label,
    and owns its own owner. *)
Definition queue (b : bool) : gmap string string := if b then {[LabelKueueQueueName := "q"]} else ∅.
Definition obj (name uid : string) (b : bool) (owners : list string) : ObjectMeta := mkMeta "user" name uid (queue b) owners.
Definition objects (rt : ResourceType) (ns : string) : list ObjectMeta :=
  if String.eqb ns "user" then
    if String.eqb (rt_Kind rt) "Notebook" then [obj "nb" "1" true []; obj "ok" "9" true []]
    else if String.eqb (rt_Kind rt) "Deployment" then [obj "d" "2" true ["1"; "4"]]
    else if String.eqb (rt_Kind rt) "ReplicaSet" then [obj "r" "3" true ["2"]]
    else if String.eqb (rt_Kind rt) "Pod" then [obj "p" "4" false ["3"]]
    else []
  else [].
Definition lister (rt : ResourceType) (o : ListOptions) : res go_error (list ObjectMeta) :=
  if String.eqb (rt_Kind rt) "Namespace" then
    Ok (if String.eqb (lo_LabelSelector o) "kueue-managed=true" then [mkMeta "" "user" "0" ∅ []] else [])
  else if String.eqb (lo_LabelSelector o) "" then Ok (objects rt (lo_Namespace o)) else Ok (objects rt "user").
(** What the client answers to a user who may list nothing. *)
Definition forbidden (rt : ResourceType) (o : ListOptions) : res go_error (list ObjectMeta) := Ok [].
Definition check : Check (H := VersionRun.semver) :=
  embed (H := VersionRun.semver) (mkBaseCheck GroupWorkload "kueue" "data-integrity" "workloads.kueue.data-integrity" "n" "d" "r")
    (λ _, Ok true) (λ _ _, Ok None).
Definition graph : ownershipGraph :=
  default (mkGraph ∅) (match buildGraph lister "user" with Ok g => Some g | _ => None end).
End KueueRun.

(** ** Properties *)
Module KueueSpec.
(** C34: The traversal of the ownership graph ends within its bound on every graph,
    cycles included, and collects exactly the nodes below the root. *)
Theorem walkSubtree_exact (g : ownershipGraph) (root : string) :
  walk (walk_bound g) g ∅ [root] [] = Some (walkSubtree g root) ∧
  ∀ n, n ∈ walkSubtree g root ↔ descendant g root n.
Proof. split; [apply walkSubtree_walk|apply elem_of_walkSubtree]. Qed.

Example walks_a_cycle : map gn_Name (walkSubtree KueueRun.graph "1") = ["d"; "r"; "p"; "d"].
Proof. by vm_compute. Qed.

(** C33: The report is exact: over a cluster that serves its lists, the condition
    is met exactly when every monitored CR of the relevant namespaces has the
    queue label just when its namespace is managed and agrees on it with
    everything below it in the ownership graph; otherwise it is advisory, and
    the impacted objects are, each once, the CRs that are not consistent. *)
Theorem data_integrity_exact `{SV : Semver, AE : ApiErrors, KE : K8sErrors, CL : Clock, SS : SortSlice}
    ListMeta objects (c : Check) (target : Target) (K W : gset string) :
  KueueEnabledNamespaces ListMeta = Ok K → WorkloadLabeledNamespaces ListMeta = Ok W →
  (∀ ns, ns ∈ K ∪ W → Forall (λ rt, serves_in ListMeta objects rt ns) (intermediateTypes ++ MonitoredWorkloadTypes)%list) →
  ∃ dr cond, DataIntegrity_Validate ListMeta c target = Ok dr ∧ r_Conditions dr = [cond] ∧
    let impacted := default [] (r_ImpactedObjects dr) in
    (c_Status cond = ConditionTrue ↔ ∀ ns w, ns ∈ K ∪ W → w ∈ cluster_workloads objects ns → consistent objects K ns w) ∧
    c_Impact cond = (if bool_decide (c_Status cond = ConditionTrue) then ImpactNone else ImpactAdvisory) ∧
    r_Annotations dr !! AnnotationImpactedWorkloadCount = Some (itoa (Z.of_nat (length impacted))) ∧
    NoDup (map object_key impacted) ∧
    ∀ k, k ∈ map object_key impacted ↔ ∃ ns w, ns ∈ K ∪ W ∧ w ∈ cluster_workloads objects ns ∧
      ¬ consistent objects K ns w ∧ k = workload_key w.
Proof.
  intros HK HW Hs. unfold DataIntegrity_Validate. rewrite HK, HW. cbn [res_map_err res_bind].
  assert (∀ t, r_Conditions (annotate_target t (NewResult c)) = [] ∧ r_ImpactedObjects (annotate_target t (NewResult c)) = None) as Hnew
    by (intros t; unfold annotate_target; by case_match).
  destruct (Hnew target) as [Hnc Hno]. clear Hnew. generalize dependent (annotate_target target (NewResult c)). intros dr0 Hnc Hno.
  destruct (Nat.eqb_spec (size (K ∪ W)) 0) as [Hz|Hnz].
  { apply size_empty_inv in Hz. do 2 eexists. split; [reflexivity|]. cbn. rewrite Hnc, Hno. split; [reflexivity|].
    split; [split; [|done]; intros _ ns w Hns; set_solver|]. split; [done|]. split; [apply lookup_insert_eq|].
    split; [constructor|]. intros k. rewrite elem_of_nil. set_solver. }
  destruct (check_namespaces_spec ListMeta objects K (sets_List (K ∪ W))) as (vs & -> & Hvs).
  { intros ns Hns. by apply Hs, elem_of_sets_List. }
  setoid_rewrite elem_of_sets_List in Hvs. cbn [res_bind]. unfold consistency.
  destruct (unique_from_keys ∅ vs) as [Hnd Hk]. destruct vs as [|v vs].
  - do 2 eexists. split; [reflexivity|]. cbn. rewrite Hnc, Hno. split; [reflexivity|]. split.
    + split; [|done]. intros _ ns w Hns Hw.
      destruct (consistent_decided ListMeta objects K ns w) as [Hc|Hc]; [by apply Hs, Forall_app in Hns as []|done|].
      exfalso. apply (not_elem_of_nil (workload_key w)), Hvs. by exists ns, w.
    + split; [done|]. split; [apply lookup_insert_eq|]. split; [constructor|]. intros k. by rewrite <-Hvs.
  - do 2 eexists. split; [reflexivity|]. cbn zeta. set (dr := SetCondition _ _).
    destruct (populate_keys dr (uniqueResources (v :: vs))) as [-> ->]. split; [cbn; by rewrite Hnc|]. split.
    + split; [done|]. intros Hall. exfalso. destruct (proj1 (Hvs (violation_key v))) as (ns & w & Hns & Hw & Hn & _); [by left|].
      by apply Hn, Hall.
    + split; [done|]. split; [apply lookup_insert_eq|]. split; [done|]. intros k. rewrite <-Hvs, Hk. set_solver.
Qed.

Lemma data_integrity_exact_witness (clock := 0 : Clock) (O := insertion_SortSlice) :
  ∃ dr cond, DataIntegrity_Validate (CL := clock) KueueRun.lister KueueRun.check
      (mkTarget VersionRun.semver None None None false false) = Ok dr ∧ r_Conditions dr = [cond] ∧
    NoDup (map object_key (default [] (r_ImpactedObjects dr))).
Proof.
  destruct (data_integrity_exact (CL := clock) KueueRun.lister KueueRun.objects KueueRun.check
    (mkTarget VersionRun.semver None None None false false) {["user"]} {["user"]})
    as (dr & cond & Hr & Hc & _ & _ & _ & Hnd & _); [by vm_compute|by vm_compute| |].
  - intros ns Hns. assert (ns = "user") as -> by set_solver. repeat constructor; by left.
  - exists dr, cond. exact (conj Hr (conj Hc Hnd)).
Defined.

(** The notebook whose Pod lost the label, and no other. *)
Example lost_label_reported (clock := 0 : Clock) (O := insertion_SortSlice) :
  match DataIntegrity_Validate (CL := clock) KueueRun.lister KueueRun.check
      (mkTarget VersionRun.semver None None None false false) with
  | Ok dr => map po_Name (default [] (r_ImpactedObjects dr)) = ["nb"]
  | _ => False
  end.
Proof. by vm_compute. Qed.
End KueueSpec.
