(* ===== verification/ComponentChecks.v ===== *)
(** * ComponentChecks: pkg/lint/checks/components

    The component checks except those of the dashboard: removals, renamings
    and deprecations of components, the management state of Kueue, and the
    checks of KServe's dependencies (serverless, service mesh, Kuadrant,
    Authorino, the workload variant autoscaler). *)
From S2P Require Import Prelude GoStrings Errors Client Version Result Check Validate CheckKit DepsCheck BackupDeps WorkloadHelpers.
From S2P Require Import NotebookImpacted NotebookChecks KServeChecks KueueIntegrity.
Open Scope string_scope.
Open Scope Z_scope.
Open Scope go_scope.

(** ** Constants and resource types *)
Definition CheckTypeRemoval := "removal".
Definition ReasonComponentRenamed := "ComponentRenamed".
Definition ReasonDeprecated := "Deprecated".
Definition ReasonDefaultLocalQueueConflict := "DefaultLocalQueueConflict".
Definition ReasonInsufficientData := "InsufficientData".
Definition ReasonResourceUnavailable := "ResourceUnavailable".
Definition ReasonResourceAvailable := "ResourceAvailable".

Definition LocalQueue : ResourceType := mkResourceType "kueue.x-k8s.io" "v1beta1" "LocalQueue" "localqueues".
Definition Kuadrant : ResourceType := mkResourceType "kuadrant.io" "v1beta1" "Kuadrant" "kuadrants".
Definition Authorino : ResourceType := mkResourceType "operator.authorino.kuadrant.io" "v1beta1" "Authorino" "authorinos".
Definition variantAutoscalingType : ResourceType :=
  mkResourceType "llmd.ai" "v1alpha1" "VariantAutoscaling" "variantautoscalings".

Section Components.
Context `{SV : Semver, AE : ApiErrors, KE : K8sErrors, SRV : ApiServer, JQ : GoJq, CL : Clock}.
Context (ListWith : ResourceType → ListOptions → res go_error (list json)).
(** The metadata-only list with options. *)
Context (ListMeta : ResourceType → ListOptions → res go_error (list ObjectMeta)).
(** OLM: whether its client is there, and the subscriptions of the cluster. *)
Context (olmAvailable : bool) (subscriptions : res go_error (list Subscription)).
Notation ListPlain := (ListPlain ListWith).

(** ** Removals *)
Definition removed_in (remediation : string) (format : string → string → string) : ComponentValidateFn :=
  Removal format [WithImpact ImpactBlocking; WithRemediation remediation].

(** *** modelmesh/modelmesh.go *)
Definition modelmesh_remediation :=
  "Disable ModelMesh Serving by setting managementState to 'Removed' in DataScienceCluster before upgrading".
Definition ModelMeshRemoval_CanApply (target : Target) : res go_error bool :=
  component_gate ListPlain (from_2x_to_3x target) "modelmeshserving" [ManagementStateManaged].
Definition ModelMeshRemoval_Validate (c : Check) (target : Target) : res go_error DiagnosticResult :=
  Component_Run ListPlain (Component c target) (removed_in modelmesh_remediation (λ state tv,
    "ModelMesh Serving is enabled (state: " +:+ state +:+ ") but will be removed in RHOAI " +:+ tv)).
Definition NewModelMeshRemovalCheck : Check :=
  component_check "modelmeshserving" CheckTypeRemoval "components.modelmesh.removal"
    "Components :: ModelMesh Serving :: Removal (3.x)"
    "Validates that ModelMesh Serving is disabled before upgrading from RHOAI 2.x to 3.x (component will be removed)"
    modelmesh_remediation ModelMeshRemoval_CanApply (λ c target, some_result (ModelMeshRemoval_Validate c target)).

(** *** ray/codeflare_removal.go: the DSC knows the component as codeflare *)
Definition codeflare_remediation :=
  "Disable CodeFlare by setting managementState to 'Removed' in DataScienceCluster before upgrading".
Definition CodeFlareRemoval_CanApply (target : Target) : res go_error bool :=
  component_gate ListPlain (from_2x_to_3x target) "codeflare" [ManagementStateManaged].
Definition CodeFlareRemoval_Validate (c : Check) (target : Target) : res go_error DiagnosticResult :=
  Component_Run ListPlain (WithComponentName (Component c target) "codeflare")
    (removed_in codeflare_remediation (λ state tv,
      "CodeFlare is enabled (state: " +:+ state +:+ ") but will be removed in RHOAI " +:+ tv)).
Definition NewCodeFlareRemovalCheck : Check :=
  component_check "ray" CheckTypeRemoval "components.ray.codeflare-removal" "Components :: Ray :: CodeFlare Removal (3.x)"
    "Validates that the CodeFlare security layer is disabled before upgrading from RHOAI 2.x to 3.x"
    codeflare_remediation CodeFlareRemoval_CanApply (λ c target, some_result (CodeFlareRemoval_Validate c target)).

(** *** llamastack/llamastack.go *)
Definition llamastack_remediation :=
  "Disable LlamaStack Operator by setting managementState to 'Removed' in DataScienceCluster before upgrading".
Definition LlamaStackRemoval_CanApply (target : Target) : res go_error bool :=
  component_gate ListPlain (to_new_3x 5 target) "llamastackoperator" [ManagementStateManaged].
Definition LlamaStackRemoval_Validate (c : Check) (target : Target) : res go_error DiagnosticResult :=
  Component_Run ListPlain (Component c target) (removed_in llamastack_remediation (λ state tv,
    "LlamaStack Operator is enabled (state: " +:+ state +:+ ") but is replaced by ogx in RHOAI " +:+ tv)).
Definition NewLlamaStackRemovalCheck : Check :=
  component_check "llamastackoperator" CheckTypeRemoval "components.llamastackoperator.removal"
    "Components :: LlamaStack Operator :: Removal (3.5+)"
    "Validates that LlamaStack Operator is disabled before upgrading to RHOAI 3.5+ (component is replaced by ogx)"
    llamastack_remediation LlamaStackRemoval_CanApply (λ c target, some_result (LlamaStackRemoval_Validate c target)).

(** *** trainingoperator/removal.go, trainingoperator.go *)
Definition trainingoperator_removal_remediation :=
  "Before upgrading, drain active PyTorchJobs then set trainingoperator managementState to 'Removed' in DataScienceCluster and delete the TrainingOperator CR.".
Definition TrainingOperatorRemoval_CanApply (target : Target) : res go_error bool :=
  component_gate ListPlain (IsVersionAtLeast (t_TargetVersion target) 3 6) "trainingoperator" [ManagementStateManaged].
Definition TrainingOperatorRemoval_Validate (c : Check) (target : Target) : res go_error DiagnosticResult :=
  Component_Run ListPlain (Component c target) (removed_in trainingoperator_removal_remediation (λ state tv,
    "TrainingOperator (Kubeflow v1) is enabled (state: " +:+ state +:+ ") but is removed in RHOAI " +:+ tv +:+
    ". Use Trainer v2 instead.")).
Definition NewTrainingOperatorRemovalCheck : Check :=
  component_check "trainingoperator" CheckTypeRemoval "components.trainingoperator.removal"
    "Components :: TrainingOperator :: Removal (3.6)"
    "Validates that TrainingOperator (Kubeflow Training Operator v1) is disabled before upgrading to RHOAI 3.6 (component is removed, use Trainer v2)"
    trainingoperator_removal_remediation TrainingOperatorRemoval_CanApply
    (λ c target, some_result (TrainingOperatorRemoval_Validate c target)).

Definition deprecation_remediation :=
  "Plan migration from TrainingOperator (Kubeflow v1) to Trainer v2 before upgrading to 3.6".
Definition Deprecation_CanApply (target : Target) : res go_error bool :=
  if negb (IsVersionAtLeast (t_TargetVersion target) 3 3) then Ok false
  else component_gate ListPlain (negb (IsVersionAtLeast (t_TargetVersion target) 3 6)) "trainingoperator" [ManagementStateManaged].
Definition newDeprecationCondition : ComponentConditionFn := λ req,
  let! c := NewCondition ConditionTypeCompatible ConditionFalse
    [WithReason ReasonDeprecated;
     WithMessage ("TrainingOperator (Kubeflow Training Operator v1) is enabled (state: " +:+ cr_ManagementState req +:+
       ") but is deprecated since RHOAI 3.3 and removed in 3.6. Migrate to Trainer v2.");
     WithImpact ImpactAdvisory; WithRemediation deprecation_remediation] in
  Ok [c].
Definition Deprecation_Validate (c : Check) (target : Target) : res go_error DiagnosticResult :=
  Component_Complete ListPlain (Component c target) newDeprecationCondition.
Definition NewDeprecationCheck : Check :=
  component_check "trainingoperator" "deprecation" "components.trainingoperator.deprecation"
    "Components :: TrainingOperator :: Deprecation (3.3–3.5)"
    "Validates that TrainingOperator (Kubeflow Training Operator v1) deprecation is acknowledged - removed in RHOAI 3.6, use Trainer v2"
    deprecation_remediation Deprecation_CanApply (λ c target, some_result (Deprecation_Validate c target)).

(** ** Renamings *)
(** *** datasciencepipelines/renaming.go *)
Definition pipelines_renaming_remediation :=
  "No action required - the component will be automatically renamed. Update any automation referencing '.spec.components.datasciencepipelines' to use '.spec.components.aipipelines' after upgrade".
Definition PipelinesRenaming_CanApply (target : Target) : res go_error bool :=
  component_gate ListPlain (from_2x_to_3x target) "datasciencepipelines" [ManagementStateManaged].
Definition newPipelinesRenamingCondition : ComponentConditionFn := λ req,
  let! c := NewCondition ConditionTypeCompatible ConditionFalse
    [WithReason ReasonComponentRenamed;
     WithMessage ("DataSciencePipelines component (state: " +:+ cr_ManagementState req +:+
       ") will be renamed to AIPipelines in DSC v2 (RHOAI " +:+ MajorMinorLabel (t_TargetVersion (cr_Target req)) +:+
       "). The field path changes from '.spec.components.datasciencepipelines' to '.spec.components.aipipelines'");
     WithImpact ImpactAdvisory; WithRemediation pipelines_renaming_remediation] in
  Ok [c].
Definition PipelinesRenaming_Validate (c : Check) (target : Target) : res go_error DiagnosticResult :=
  Component_Complete ListPlain (Component c target) newPipelinesRenamingCondition.
Definition NewPipelinesRenamingCheck : Check :=
  component_check "datasciencepipelines" "renaming" "components.datasciencepipelines.renaming"
    "Components :: DataSciencePipelines :: Component Renaming (3.x)"
    "Informs about DataSciencePipelines component renaming to AIPipelines in DSC v2 (RHOAI 3.x)"
    pipelines_renaming_remediation PipelinesRenaming_CanApply
    (λ c target, some_result (PipelinesRenaming_Validate c target)).

(** *** feastoperator/renaming.go, modelregistry/renaming.go: informational *)
Definition renamed (message remediation : string) : res go_error (list Condition) :=
  let! c := NewCondition ConditionTypeCompatible ConditionTrue
    [WithReason ReasonComponentRenamed; WithMessage message; WithRemediation remediation] in
  Ok [c].
Definition feast_remediation :=
  "No action required - DSC v2 compatibility is retained. From RHOAI 3.6 onward, use DSC v3 '.spec.components.data.featureStore' (and '.spec.components.data.dataRegistry' for Data Registry) instead of '.spec.components.feastoperator' in new or updated configuration".
Definition FeastRenaming_CanApply (target : Target) : res go_error bool :=
  component_gate ListPlain (to_new_3x 6 target) "feastoperator" [ManagementStateManaged].
Definition FeastRenaming_condition : ComponentConditionFn := λ req,
  renamed ("Feature Store component (state: " +:+ cr_ManagementState req +:+
    ") is exposed as components.data.featureStore in DSC v3, available from RHOAI 3.6") feast_remediation.
Definition FeastRenaming_Validate (c : Check) (target : Target) : res go_error DiagnosticResult :=
  Component_Complete ListPlain (InState (Component c target) [ManagementStateManaged]) FeastRenaming_condition.
Definition NewFeastRenamingCheck : Check :=
  component_check "feastoperator" "renaming" "components.feastoperator.renaming"
    "Components :: Feature Store :: Data Renaming (DSC v3)"
    "Informs about Feature Store / Feast Operator exposure under components.data in DSC v3 (RHOAI 3.6+)"
    feast_remediation FeastRenaming_CanApply (λ c target, some_result (FeastRenaming_Validate c target)).

Definition modelregistry_remediation :=
  "No action required - DSC v2 compatibility is retained. From RHOAI 3.6 onward, use DSC v3 '.spec.components.aiHub' instead of '.spec.components.modelregistry' in new or updated configuration".
Definition ModelRegistryRenaming_CanApply (target : Target) : res go_error bool :=
  component_gate ListPlain (to_new_3x 6 target) "modelregistry" [ManagementStateManaged].
Definition ModelRegistryRenaming_condition : ComponentConditionFn := λ req,
  renamed ("Model Registry component (state: " +:+ cr_ManagementState req +:+
    ") is renamed to AI Hub in DSC v3, available from RHOAI 3.6") modelregistry_remediation.
Definition ModelRegistryRenaming_Validate (c : Check) (target : Target) : res go_error DiagnosticResult :=
  Component_Complete ListPlain (InState (Component c target) [ManagementStateManaged]) ModelRegistryRenaming_condition.
Definition NewModelRegistryRenamingCheck : Check :=
  component_check "modelregistry" "renaming" "components.modelregistry.renaming"
    "Components :: Model Registry :: AI Hub Renaming (DSC v3)"
    "Informs about Model Registry component renaming to AI Hub in DSC v3 (RHOAI 3.6+)"
    modelregistry_remediation ModelRegistryRenaming_CanApply
    (λ c target, some_result (ModelRegistryRenaming_Validate c target)).

(** ** aigateway/maas_migration.go *)
Definition kserveMaaSField := ".spec.components.kserve.modelsAsService.managementState".
Definition maas_remediation :=
  "Set spec.components.aigateway.managementState: Managed and spec.components.aigateway.modelsAsAService.managementState: Managed in DataScienceCluster, then set spec.components.kserve.modelsAsService.managementState: Removed to clear the deprecated field".
Definition maas_context := "querying kserve modelsAsService state".
Definition MaaS_CanApply (target : Target) : res go_error bool :=
  if negb (to_new_3x 5 target) then Ok false
  else
    try! dsc := GetDataScienceCluster ListPlain else errorf_w "getting DataScienceCluster" in
    on_query (jq_Query_string dsc kserveMaaSField) maas_context (Ok false) (λ state, Ok (managed_or_unmanaged state)).
Definition MaaS_Validate (c : Check) (target : Target) : res go_error DiagnosticResult :=
  DSC_Run ListPlain c target (λ dr dsc,
    let met message := set_new dr ConditionTypeConfigured ConditionTrue
      [WithReason ReasonRequirementsMet; WithMessage message] in
    on_query (jq_Query_string dsc kserveMaaSField) maas_context
      (met "Models as a Service is not configured via the deprecated kserve.modelsAsService field")
      (λ state,
        if managed_or_unmanaged state then
          set_new dr ConditionTypeCompatible ConditionFalse
            [WithReason ReasonVersionIncompatible;
             WithMessage ("Models as a Service is enabled via the deprecated kserve.modelsAsService field (state: " +:+
               state +:+ "). In RHOAI " +:+ MajorMinorLabel (t_TargetVersion target) +:+
               ", MaaS is configured under aigateway.modelsAsAService");
             WithImpact ImpactAdvisory; WithRemediation maas_remediation]
        else met "Models as a Service is not enabled via the deprecated kserve.modelsAsService field")).
Definition NewMaaSFieldMigrationCheck : Check :=
  component_check "aigateway" "maas-field-migration" "components.aigateway.maas-field-migration"
    "Components :: AIGateway :: MaaS Field Migration (deprecated field)"
    "Detects when Models as a Service is configured via the deprecated kserve.modelsAsService field instead of the canonical aigateway.modelsAsAService location for RHOAI 3.5+ targets; the deprecated stanza is removed in DSC v3"
    maas_remediation MaaS_CanApply (λ c target, some_result (MaaS_Validate c target)).

(** ** kueue/default_queue.go, kueue.go *)
Definition defaultLocalQueueName := "default".
Definition default_name_in_dsc (dsc : json) : bool :=
  match nested ["spec"; "components"; "kueue"; "defaultLocalQueueName"] dsc with
  | Some (JStr name) => String.eqb name defaultLocalQueueName
  | _ => false
  end.
Definition detectDefaultLocalQueue (dsc : json) : res go_error (list string * list NamespacedName) :=
  let dsc_trigger :=
    if default_name_in_dsc dsc
    then ["DSC spec.components.kueue.defaultLocalQueueName is set to " +:+ quote defaultLocalQueueName] else [] in
  let! items := list_or_empty ListMeta LocalQueue defaultListOptions "listing LocalQueues" in
  let impacted := map (λ o, mkNN (om_Namespace o) (om_Name o))
    (List.filter (λ o, String.eqb (om_Name o) defaultLocalQueueName) items) in
  let queue_trigger := match impacted with
    | [] => []
    | _ => ["a LocalQueue named " +:+ quote defaultLocalQueueName +:+ " exists in the cluster"]
    end in
  Ok ((dsc_trigger ++ queue_trigger)%list, impacted).

Definition isKueueInUse : res go_error bool :=
  try! kueueNamespaces := KueueEnabledNamespaces ListMeta else errorf_w "finding kueue-enabled namespaces" in
  if (0 <? size kueueNamespaces)%nat then Ok true
  else
    try! workloadNamespaces := WorkloadLabeledNamespaces ListMeta else errorf_w "finding workload-labeled namespaces" in
    Ok (0 <? size workloadNamespaces)%nat.

Definition remediationManagedMigrate :=
  "Migrate to the Red Hat build of Kueue operator following https://docs.redhat.com/en/documentation/red_hat_openshift_ai_self-managed/2.25/html/managing_openshift_ai/managing-workloads-with-kueue#migrating-to-the-rhbok-operator_kueue before upgrading".
Definition remediationDefaultLocalQueue :=
  "Rename spec.components.kueue.defaultLocalQueueName to a value other than " +:+ quote "default" +:+
  ", drain workloads from the existing " +:+ quote "default" +:+ " LocalQueue, and delete it".

Definition addDefaultLocalQueueWarning (dsc : json) (dr : DiagnosticResult) : res go_error DiagnosticResult :=
  try! found := detectDefaultLocalQueue dsc else errorf_w "detecting default LocalQueue" in
  match found.1 with
  | [] => Ok dr
  | triggers =>
      let! dr := set_new dr ConditionTypeConfigured ConditionFalse
        [WithReason ReasonDefaultLocalQueueConflict;
         WithMessage ("Potential " +:+ quote "default" +:+ " LocalQueue naming conflict detected (" +:+ join "; " triggers +:+
           "). When Kueue is Unmanaged, workloads in kueue-managed namespaces that are not explicitly assigned to a queue are implicitly placed on the LocalQueue named " +:+
           quote "default" +:+ ", which may route them to an unintended queue.");
         WithImpact ImpactAdvisory; WithRemediation remediationDefaultLocalQueue] in
      Ok (match found.2 with [] => dr | impacted => AddImpactedObjects dr LocalQueue impacted end)
  end.

Definition kueue_validateManaged (req : ComponentRequest) (label : string) : res go_error DiagnosticResult :=
  try! kueueInUse := isKueueInUse else errorf_w "checking kueue usage" in
  if negb kueueInUse then
    set_new (cr_Result req) ConditionTypeCompatible ConditionFalse
      [WithReason ReasonVersionIncompatible;
       WithMessage ("The " +:+ label +:+ " upgrade supports the Kueue managementState of Removed or Unmanaged. The Kueue managementState is currently Managed but no workloads on the cluster are using Kueue. Set the Kueue managementState to Removed or Unmanaged and then re-run this check to proceed with migration.");
       WithImpact ImpactBlocking]
  else
    let! dr := set_new (cr_Result req) ConditionTypeCompatible ConditionFalse
      [WithReason ReasonVersionIncompatible;
       WithMessage ("The " +:+ label +:+ " upgrade does not support the Kueue managementState of Managed. Migrate Kueue to Unmanaged with the Red Hat build of Kueue Operator before upgrading.");
       WithImpact ImpactProhibited; WithRemediation remediationManagedMigrate] in
    addDefaultLocalQueueWarning (cr_DSC req) dr.
Definition kueue_validateUnmanaged (req : ComponentRequest) (label : string) : res go_error DiagnosticResult :=
  let! dr := set_new (cr_Result req) ConditionTypeCompatible ConditionTrue
    [WithReason ReasonVersionCompatible;
     WithMessage ("The Kueue managementState is Unmanaged, which is supported for the " +:+ label +:+ " upgrade.")] in
  addDefaultLocalQueueWarning (cr_DSC req) dr.

Definition kueue_states := [ManagementStateManaged; ManagementStateUnmanaged].
Definition ManagementState_CanApply (target : Target) : res go_error bool :=
  component_gate ListPlain (from_2x_to_3x target) "kueue" kueue_states.
Definition ManagementState_Validate (c : Check) (target : Target) : res go_error DiagnosticResult :=
  Component_Run ListPlain (Component c target) (λ req,
    let label := MajorMinorLabel (t_TargetVersion (cr_Target req)) in
    if String.eqb (cr_ManagementState req) ManagementStateManaged then kueue_validateManaged req label
    else if String.eqb (cr_ManagementState req) ManagementStateUnmanaged then kueue_validateUnmanaged req label
    else Err (EString ("unexpected management state " +:+ quote (cr_ManagementState req) +:+ " for kueue"))).
Definition NewManagementStateCheck : Check :=
  component_check "kueue" "management-state" "components.kueue.management-state" "Components :: Kueue :: Management State (3.x)"
    "Validates that Kueue managementState is Removed before upgrading to RHOAI 3.x" ""
    ManagementState_CanApply (λ c target, some_result (ManagementState_Validate c target)).

(** *** kueue/kueue_operator_installed.go *)
Definition OperatorInstalled_CanApply (target : Target) : res go_error bool := component_gate ListPlain true "kueue" kueue_states.
Definition operator_validateManaged (dr : DiagnosticResult) : res go_error DiagnosticResult :=
  set_new dr ConditionTypeCompatible ConditionFalse
    [WithReason ReasonVersionIncompatible;
     WithMessage "Kueue managementState is Managed — migration to the Red Hat build of Kueue operator is required before upgrading";
     WithImpact ImpactProhibited; WithRemediation remediationManagedMigrate].
Definition operator_validateUnmanaged (dr : DiagnosticResult) (info : option SubscriptionInfo) : res go_error DiagnosticResult :=
  if negb (Found info) then
    set_new dr ConditionTypeCompatible ConditionFalse
      [WithReason ReasonVersionIncompatible;
       WithMessage "Red Hat build of Kueue operator is not installed but Kueue managementState is Unmanaged — Red Hat build of Kueue operator is required";
       WithImpact ImpactBlocking]
  else
    set_new dr ConditionTypeCompatible ConditionTrue
      [WithReason ReasonVersionCompatible;
       WithMessage ("Red Hat build of Kueue operator installed: " +:+ GetVersion info)].
Definition OperatorInstalled_Validate (c : Check) (target : Target) : res go_error DiagnosticResult :=
  Component_Run ListPlain (Component c target) (λ req,
    if String.eqb (cr_ManagementState req) ManagementStateManaged then operator_validateManaged (cr_Result req)
    else
      try! info := FindOperator subscriptions (λ sub, String.eqb (sub_Name sub) "kueue-operator")
        else errorf_w "checking Red Hat build of Kueue operator presence" in
      let dr := if negb (String.eqb (GetVersion info) "")
                then with_annotation (cr_Result req) annotationInstalledVersion (GetVersion info) else cr_Result req in
      operator_validateUnmanaged dr info).
Definition NewOperatorInstalledCheck : Check :=
  component_check "kueue" "operator-installed" "components.kueue.operator-installed" "Components :: Kueue :: Operator Installed"
    "Validates Red Hat build of Kueue operator installation is consistent with Kueue management state" ""
    OperatorInstalled_CanApply (λ c target, some_result (OperatorInstalled_Validate c target)).

(** ** kserve *)
(** *** serverless.go *)
Definition serverless_remediation :=
  "Disable KServe serverless mode by setting serving.managementState to 'Removed' in DataScienceCluster before upgrading".
Definition Serverless_CanApply (target : Target) : res go_error bool :=
  component_gate ListPlain (from_2x_to_3x target) "kserve" [ManagementStateManaged].
Definition Serverless_Validate (c : Check) (target : Target) : res go_error DiagnosticResult :=
  Component_Run ListPlain (Component c target) (λ req,
    let tv := MajorMinorLabel (t_TargetVersion (cr_Target req)) in
    let ready message := set_new (cr_Result req) ConditionTypeCompatible ConditionTrue
      [WithReason ReasonVersionCompatible; WithMessage message] in
    on_query (jq_Query_string (cr_DSC req) ".spec.components.kserve.serving.managementState")
      "querying kserve serving managementState"
      (ready ("KServe serverless mode is not configured - ready for RHOAI " +:+ tv +:+ " upgrade"))
      (λ state,
        if managed_or_unmanaged state then
          set_new (cr_Result req) ConditionTypeCompatible ConditionFalse
            [WithReason ReasonVersionIncompatible;
             WithMessage ("KServe serverless mode is enabled (state: " +:+ state +:+ ") but will be removed in RHOAI " +:+ tv);
             WithImpact ImpactBlocking; WithRemediation serverless_remediation]
        else ready ("KServe serverless mode is disabled (state: " +:+ state +:+ ") - ready for RHOAI " +:+ tv +:+ " upgrade"))).
Definition NewServerlessRemovalCheck : Check :=
  component_check "kserve" "serverless-removal" "components.kserve.serverless-removal"
    "Components :: KServe :: Serverless Removal (3.x)"
    "Validates that KServe serverless mode is disabled before upgrading from RHOAI 2.x to 3.x (serverless support will be removed)"
    serverless_remediation Serverless_CanApply (λ c target, some_result (Serverless_Validate c target)).

(** *** servicemesh_operator.go *)
Definition servicemesh_condition (tv : string) : ConditionBuilder := λ found operatorVersion,
  if negb found then
    NewCondition ConditionTypeCompatible ConditionTrue
      [WithReason ReasonVersionCompatible;
       WithMessage ("Service Mesh Operator v2 is not installed - ready for RHOAI " +:+ tv +:+ " upgrade")]
  else
    NewCondition ConditionTypeCompatible ConditionFalse
      [WithReason ReasonVersionIncompatible;
       WithMessage ("Service Mesh Operator v2 (" +:+ operatorVersion +:+ ") is installed but no longer required by RHOAI " +:+ tv +:+
         " and should be removed. OpenShift 4.19+ handles service mesh internally")].
Definition ServiceMeshOperator_CanApply (target : Target) : res go_error bool := Ok (from_2x_to_3x target).
Definition ServiceMeshOperator_Validate (c : Check) (target : Target) : res go_error DiagnosticResult :=
  Operator_Run olmAvailable subscriptions
    {| ob_check := c; ob_target := target; ob_names := ["servicemeshoperator"]; ob_channels := ["stable"; "v2.x"];
       ob_conditionBuilder := servicemesh_condition (MajorMinorLabel (t_TargetVersion target)) |}.
Definition NewServiceMeshOperatorCheck : Check :=
  component_check "kserve" "servicemesh-operator-upgrade" "components.kserve.servicemesh-operator-upgrade"
    "Components :: KServe :: ServiceMesh Operator Upgrade (3.x)"
    "Validates that Service Mesh Operator v2 is not installed when upgrading to RHOAI 3.x (no longer required, OpenShift 4.19+ handles service mesh internally)"
    "" ServiceMeshOperator_CanApply (λ c target, some_result (ServiceMeshOperator_Validate c target)).

(** *** servicemesh_removal.go *)
Definition servicemesh_remediation :=
  "Disable ServiceMesh by setting managementState to 'Removed' in DSCInitialization before upgrading".
Definition ServiceMeshRemoval_CanApply (target : Target) : res go_error bool := Ok (from_2x_to_3x target).
Definition ServiceMeshRemoval_Validate (c : Check) (target : Target) : res go_error DiagnosticResult :=
  let tv := MajorMinorLabel (t_TargetVersion target) in
  DSCI_Run ListPlain c target (λ dr dsci,
    on_query (jq_Query_string dsci ".spec.serviceMesh.managementState") "querying servicemesh managementState"
      (set_new dr ConditionTypeConfigured ConditionFalse
        [WithReason ReasonResourceNotFound; WithMessage "ServiceMesh is not configured in DSCInitialization"])
      (λ managementState,
        if managed_or_unmanaged managementState then
          set_new dr ConditionTypeCompatible ConditionFalse
            [WithReason ReasonVersionIncompatible;
             WithMessage ("ServiceMesh is enabled (state: " +:+ managementState +:+ ") but is no longer required by RHOAI " +:+ tv +:+
               ". OpenShift 4.19+ handles service mesh internally");
             WithImpact ImpactBlocking; WithRemediation servicemesh_remediation]
        else
          set_new dr ConditionTypeCompatible ConditionTrue
            [WithReason ReasonVersionCompatible;
             WithMessage ("ServiceMesh is disabled (state: " +:+ managementState +:+ ") - ready for RHOAI " +:+ tv +:+ " upgrade")])).
Definition NewServiceMeshRemovalCheck : Check :=
  component_check "kserve" "servicemesh-removal" "components.kserve.servicemesh-removal"
    "Components :: KServe :: ServiceMesh Removal (3.x)"
    "Validates that ServiceMesh is disabled before upgrading from RHOAI 2.x to 3.x (no longer required, OpenShift 4.19+ handles service mesh internally)"
    servicemesh_remediation ServiceMeshRemoval_CanApply (λ c target, some_result (ServiceMeshRemoval_Validate c target)).

(** *** support.go, kuadrant_readiness.go, authorino_tls_readiness.go *)
Definition kuadrantNamespace := "kuadrant-system".
Definition hasLLMInferenceServices : res go_error bool :=
  let! items := list_or_empty ListMeta LLMInferenceService
    {| lo_Namespace := ""; lo_LabelSelector := ""; lo_FieldSelector := ""; lo_Limit := 1 |}
    "listing LLMInferenceService resources" in
  Ok (0 <? length items)%nat.
Definition llm_d_gate (target : Target) : res go_error bool :=
  if negb (from_2x_to_3x target) then Ok false else hasLLMInferenceServices.

Definition blocked (dr : DiagnosticResult) (conditionType reason message : string) : res go_error DiagnosticResult :=
  set_new dr conditionType ConditionFalse [WithReason reason; WithMessage message; WithImpact ImpactBlocking].
Definition ready_query : string :=
  ".status.conditions[] | select(.type == " +:+ quote "Ready" +:+ ") | .status".
Definition validateReadyCondition (dr : DiagnosticResult) (obj : json) (resourceName : string) : res go_error DiagnosticResult :=
  on_query (jq_Query_string obj ready_query) ("querying " +:+ resourceName +:+ " Ready condition")
    (blocked dr ConditionTypeReady ReasonInsufficientData (resourceName +:+ " resource found but Ready condition is missing"))
    (λ readyStatus,
      if String.eqb readyStatus "" then
        blocked dr ConditionTypeReady ReasonInsufficientData (resourceName +:+ " resource found but Ready condition status is empty")
      else if negb (String.eqb readyStatus "True") then
        blocked dr ConditionTypeReady ReasonResourceUnavailable
          (resourceName +:+ " is not ready (status: " +:+ readyStatus +:+ "). " +:+ resourceName +:+ " must be ready for llm-d")
      else
        set_new dr ConditionTypeReady ConditionTrue
          [WithReason ReasonResourceAvailable; WithMessage (resourceName +:+ " is installed and ready")]).

(** What both checks do with the resource they need. *)
Definition read_llm_d (c : Check) (rt : ResourceType) (name missing : string)
    (found : DiagnosticResult → json → res go_error DiagnosticResult) : res go_error DiagnosticResult :=
  let dr := NewResult c in
  match Get rt name kuadrantNamespace with
  | Panic s => Panic s
  | Err err =>
      if IsNotFound err then blocked dr ConditionTypeReady ReasonResourceNotFound missing
      else Err (errorf_w ("getting " +:+ rt_Kind rt +:+ " resource") err)
  | Ok None =>
      blocked dr ConditionTypeReady ReasonInsufficientData
        ("Unable to read " +:+ rt_Kind rt +:+ " resource (insufficient permissions)")
  | Ok (Some obj) => found dr obj
  end.
Definition KuadrantReadiness_Validate (c : Check) (target : Target) : res go_error DiagnosticResult :=
  read_llm_d c Kuadrant "kuadrant" "Kuadrant resource not found. Kuadrant must be installed for llm-d"
    (λ dr obj, validateReadyCondition dr obj "Kuadrant").
Definition NewKuadrantReadinessCheck : Check :=
  component_check "kserve" "kuadrant-readiness" "components.kserve.kuadrant-readiness"
    "Components :: KServe :: Kuadrant Readiness"
    "Validates that the Kuadrant resource is present and ready (required for llm-d)" ""
    llm_d_gate (λ c target, some_result (KuadrantReadiness_Validate c target)).

Definition validateAuthorinoTLS (dr : DiagnosticResult) (obj : json) : res go_error DiagnosticResult :=
  let invalid message := blocked dr ConditionTypeConfigured ReasonConfigurationInvalid message in
  match jq_Query false "bool" as_bool obj ".spec.listener.tls.enabled" with
  | Panic s => Panic s
  | Err err =>
      if errors_is JqErrNotFound err
      then invalid "Authorino listener TLS configuration is missing. TLS must be configured for llm-d"
      else Err (errorf_w "querying Authorino TLS enabled" err)
  | Ok false => invalid "Authorino listener TLS is not enabled. TLS must be enabled for llm-d"
  | Ok true =>
      on_query (jq_Query_string obj ".spec.listener.tls.certSecretRef.name") "querying Authorino TLS certSecretRef"
        (invalid "Authorino TLS certSecretRef is not configured. A TLS certificate secret is required for llm-d")
        (λ certSecret,
          if String.eqb certSecret ""
          then invalid "Authorino TLS certSecretRef.name is empty. A TLS certificate secret is required for llm-d"
          else
            set_new dr ConditionTypeConfigured ConditionTrue
              [WithReason ReasonConfigurationValid;
               WithMessage ("Authorino TLS is enabled with certificate secret " +:+ quote certSecret)])
  end.
Definition AuthorinoTLSReadiness_Validate (c : Check) (target : Target) : res go_error DiagnosticResult :=
  read_llm_d c Authorino "authorino" "Authorino resource not found. Authorino with TLS must be installed for llm-d"
    (λ dr obj,
      let! dr := validateAuthorinoTLS dr obj in
      validateReadyCondition dr obj "Authorino").
Definition NewAuthorinoTLSReadinessCheck : Check :=
  component_check "kserve" "authorino-tls-readiness" "components.kserve.authorino-tls-readiness"
    "Components :: KServe :: Authorino TLS Readiness"
    "Validates that Authorino is configured with TLS and ready (required for llm-d)" ""
    llm_d_gate (λ c target, some_result (AuthorinoTLSReadiness_Validate c target)).

(** *** wva_removal.go *)
Definition wvaControllerDeployment := "workload-variant-autoscaler-controller-manager".
Definition wvaConfigMapName := "inferenceservice-config".
Definition wvaConfigMapKey := "autoscaling-wva-controller-config".
Definition variantAutoscalingCRD := "variantautoscalings.llmd.ai".
Definition wva_remediation :=
  "Set spec.components.kserve.wva.managementState to Removed, delete leftover VariantAutoscaling resources, and delete the workload-variant-autoscaler-controller-manager deployment before upgrading. A leftover variantautoscalings.llmd.ai CRD is removed by kserve-module after upgrade.".

Definition WVARemoval_CanApply (target : Target) : res go_error bool :=
  if negb (IsVersionAtLeast (t_TargetVersion target) 3 6) then Ok false
  else Ok (negb (IsVersionAtLeast (t_CurrentVersion target) 3 6)).

Definition wvaManagementStateBlocker (req : ComponentRequest) : res go_error (list string) :=
  on_query (jq_Query_string (cr_DSC req) ".spec.components.kserve.wva.managementState") "querying kserve wva managementState"
    (Ok [])
    (λ state, Ok (if String.eqb state ManagementStateManaged
                  then ["spec.components.kserve.wva.managementState is Managed"] else [])).

Definition namedResourceExists (rt : ResourceType) (name namespace : string) : res go_error bool :=
  match Get rt name namespace with
  | Panic s => Panic s
  | Err err => if IsNotFound err then Ok false else Err (errorf_w ("getting " +:+ rt_Resource rt +:+ " " +:+ name) err)
  | Ok obj => Ok (bool_decide (is_Some obj))
  end.
Definition wvaDeploymentBlocker (req : ComponentRequest) : res go_error (list string) :=
  let ns := cr_ApplicationsNamespace req in
  try! exists_ := namedResourceExists Deployment wvaControllerDeployment ns else errorf_w "checking WVA deployment" in
  Ok (if (exists_ : bool) then ["deployment " +:+ ns +:+ "/" +:+ wvaControllerDeployment +:+ " exists"] else []).

(** Blockers and advisories. *)
Definition wvaCustomResourceFindings : res go_error (list string * list string) :=
  try! crdExists := namedResourceExists CustomResourceDefinition variantAutoscalingCRD ""
    else errorf_w "checking VariantAutoscaling CRD" in
  if negb crdExists then Ok ([], [])
  else
    let! items := match ListPlain variantAutoscalingType with
      | Ok items => Ok items
      | Panic s => Panic s
      | Err err => if IsResourceTypeNotFound err then Ok []
                   else Err (errorf_w "listing VariantAutoscaling resources" err)
      end in
    match items with
    | [] => Ok ([], ["CRD " +:+ variantAutoscalingCRD +:+ " still exists"])
    | _ =>
        Ok (["VariantAutoscaling resources exist: " +:+
             join ", " (map (λ item, GetNamespace item +:+ "/" +:+ GetName item) items)], [])
    end.

Definition wvaConfigMapAdvisory (req : ComponentRequest) : res go_error (list string) :=
  let ns := cr_ApplicationsNamespace req in
  match Get ConfigMap wvaConfigMapName ns with
  | Panic s => Panic s
  | Err err => if IsNotFound err then Ok [] else Err (errorf_w "checking inferenceservice-config" err)
  | Ok None => Ok []
  | Ok (Some cm) =>
      on_query (jq_Query_string cm (".data[" +:+ dquote +:+ wvaConfigMapKey +:+ dquote +:+ "]")) ("querying " +:+ wvaConfigMapKey)
        (Ok [])
        (λ _, Ok ["ConfigMap " +:+ ns +:+ "/" +:+ wvaConfigMapName +:+ " still contains " +:+ wvaConfigMapKey])
  end.

Definition wvaUpgradeFindings (req : ComponentRequest) : res go_error (list string * list string) :=
  let! state := wvaManagementStateBlocker req in
  let! deployment := wvaDeploymentBlocker req in
  let! crd := wvaCustomResourceFindings in
  let! config := wvaConfigMapAdvisory req in
  Ok ((state ++ deployment ++ crd.1)%list, (crd.2 ++ config)%list).

Definition check_wva (req : ComponentRequest) : res go_error DiagnosticResult :=
  let tv := MajorMinorLabel (t_TargetVersion (cr_Target req)) in
  let incompatible impact message := set_new (cr_Result req) ConditionTypeCompatible ConditionFalse
    [WithReason ReasonVersionIncompatible; WithMessage message; WithImpact impact; WithRemediation wva_remediation] in
  let! findings := wvaUpgradeFindings req in
  match findings with
  | ((_ :: _) as blockers, _) =>
      incompatible ImpactBlocking ("WVA is still present and blocks the RHOAI " +:+ tv +:+ " upgrade: " +:+ join "; " blockers)
  | ([], (_ :: _) as advisories) =>
      incompatible ImpactAdvisory ("WVA leftovers will be removed during the RHOAI " +:+ tv +:+ " upgrade: " +:+ join "; " advisories)
  | ([], []) =>
      set_new (cr_Result req) ConditionTypeCompatible ConditionTrue
        [WithReason ReasonVersionCompatible;
         WithMessage "WVA is not enabled and no WVA controller or custom resources were found"]
  end.
Definition WVARemoval_Validate (c : Check) (target : Target) : res go_error DiagnosticResult :=
  Component_Run ListPlain (WithApplicationsNamespace (Component c target)) check_wva.
Definition NewWVARemovalCheck : Check :=
  component_check "kserve" "wva-removal" "components.kserve.wva-removal" "Components :: KServe :: WVA Removal (3.6)"
    "Validates that Workload Variant Autoscaler is turned off and its controller and custom resources are gone before upgrading to RHOAI 3.6"
    wva_remediation WVARemoval_CanApply (λ c target, some_result (WVARemoval_Validate c target)).
End Components.

(** ** Lemmas *)
Section ComponentLemmas.
Context `{SV : Semver, AE : ApiErrors, KE : K8sErrors, SRV : ApiServer, JQ : GoJq, CL : Clock, MO : MapOrder}.
Context (ListWith : ResourceType → ListOptions → res go_error (list json)).
Context (ListMeta : ResourceType → ListOptions → res go_error (list ObjectMeta)).
Context (olmAvailable : bool) (subscriptions : res go_error (list Subscription)).

(** *** Every check here only produces results the executor accepts *)
Definition component_checks : list Check :=
  [NewMaaSFieldMigrationCheck ListWith; NewCodeFlareRemovalCheck ListWith; NewPipelinesRenamingCheck ListWith;
   NewFeastRenamingCheck ListWith; NewServerlessRemovalCheck ListWith; NewWVARemovalCheck ListWith;
   NewKuadrantReadinessCheck ListMeta; NewAuthorinoTLSReadinessCheck ListMeta;
   NewServiceMeshOperatorCheck olmAvailable subscriptions; NewServiceMeshRemovalCheck ListWith;
   NewManagementStateCheck ListWith ListMeta; NewOperatorInstalledCheck ListWith subscriptions;
   NewLlamaStackRemovalCheck ListWith; NewModelMeshRemovalCheck ListWith; NewModelRegistryRenamingCheck ListWith;
   NewDeprecationCheck ListWith; NewTrainingOperatorRemovalCheck ListWith].

Lemma component_checks_sound : Forall sound_check component_checks.
Proof using MO.
  repeat (apply Forall_cons; split; [apply embed_sound; [done..|]; intros c target; accept|]). apply Forall_nil. done.
Qed.
End ComponentLemmas.

(** *** The default LocalQueue *)
Section DefaultQueue.
Context `{SV : Semver, AE : ApiErrors, KE : K8sErrors, SRV : ApiServer, JQ : GoJq, CL : Clock}.
Context (ListMeta : ResourceType → ListOptions → res go_error (list ObjectMeta)).

Definition default_queues (queues : list ObjectMeta) : list NamespacedName :=
  map (λ o, mkNN (om_Namespace o) (om_Name o)) (List.filter (λ o, String.eqb (om_Name o) defaultLocalQueueName) queues).
(** The hazard the advisory is about. *)
Definition default_queue_hazard (dsc : json) (queues : list ObjectMeta) : bool :=
  default_name_in_dsc dsc || negb (bool_decide (default_queues queues = [])).
Definition lists_queues (queues : list ObjectMeta) : Prop :=
  list_or_empty ListMeta LocalQueue defaultListOptions "listing LocalQueues" = Ok queues.

Lemma AddImpactedObjects_objects dr rt names :
  r_Conditions (AddImpactedObjects dr rt names) = r_Conditions dr ∧
  default [] (r_ImpactedObjects (AddImpactedObjects dr rt names)) =
    (default [] (r_ImpactedObjects dr) ++ map (impactedObject rt) names)%list.
Proof.
  unfold AddImpactedObjects. set (dr' := match _ with Some _ => dr | None => _ end).
  assert (r_Conditions dr' = r_Conditions dr ∧ r_ImpactedObjects dr' = r_ImpactedObjects dr) as [Hc Ho]
    by (unfold dr'; by case_match).
  destruct names; [by rewrite app_nil_r, Hc, Ho|]. simpl. by rewrite Hc, Ho.
Qed.

#[local] Arguments AddImpactedObjects : simpl never.
(** The advisory is added to the condition that is there, with the queues. *)
Lemma addDefaultLocalQueueWarning_spec dsc queues dr c0 :
  lists_queues queues → r_Conditions dr = [c0] → c_Type c0 = ConditionTypeCompatible → r_ImpactedObjects dr = None →
  ∃ dr', addDefaultLocalQueueWarning ListMeta dsc dr = Ok dr' ∧
    (if default_queue_hazard dsc queues
     then ∃ c1, r_Conditions dr' = [c0; c1] ∧ c_Type c1 = ConditionTypeConfigured ∧ c_Status c1 = ConditionFalse ∧
            c_Impact c1 = ImpactAdvisory
     else r_Conditions dr' = [c0]) ∧
    default [] (r_ImpactedObjects dr') = map (impactedObject LocalQueue) (default_queues queues).
Proof.
  unfold lists_queues, addDefaultLocalQueueWarning, detectDefaultLocalQueue, default_queue_hazard. intros -> Hc Ht Ho.
  cbn [res_bind res_map_err]. fold (default_queues queues).
  assert (∀ c1, c_Type c1 = ConditionTypeConfigured → r_Conditions (SetCondition dr c1) = [c0; c1]) as Hset.
  { intros c1 H1. unfold SetCondition. simpl. rewrite Hc. simpl. by rewrite Ht, H1. }
  destruct (default_queues queues) as [|q qs] eqn:Hq; destruct (default_name_in_dsc dsc); simpl.
  - eexists. split; [reflexivity|]. split; [|simpl; by rewrite Ho]. eexists. split; [by apply Hset|done].
  - exists dr. by rewrite Ho.
  - eexists. split; [reflexivity|]. edestruct AddImpactedObjects_objects as [-> ->]. split; [|simpl; by rewrite Ho].
    eexists. split; [by apply Hset|done].
  - eexists. split; [reflexivity|]. edestruct AddImpactedObjects_objects as [-> ->]. split; [|simpl; by rewrite Ho].
    eexists. split; [by apply Hset|done].
Qed.
Lemma set_then_warn dsc queues dr status opts cond :
  lists_queues queues → r_Conditions dr = [] → r_ImpactedObjects dr = None →
  NewCondition (E := go_error) ConditionTypeCompatible status opts = Ok cond → c_Type cond = ConditionTypeCompatible →
  ∃ dr', (let! dr := set_new dr ConditionTypeCompatible status opts in addDefaultLocalQueueWarning ListMeta dsc dr) = Ok dr' ∧
    GetImpact dr' = (match c_Impact cond with
                     | ImpactProhibited => ImpactProhibited
                     | ImpactBlocking => ImpactBlocking
                     | _ => if default_queue_hazard dsc queues then ImpactAdvisory else GetImpact (with_conditions dr [cond])
                     end) ∧
    default [] (r_ImpactedObjects dr') = map (impactedObject LocalQueue) (default_queues queues) ∧
    length (r_Conditions dr') = (if default_queue_hazard dsc queues then 2 else 1)%nat.
Proof.
  intros Hq Hc Ho Hn Ht. unfold set_new. rewrite Hn. cbn [res_bind].
  destruct (addDefaultLocalQueueWarning_spec dsc queues (SetCondition dr cond) cond) as (dr' & Hr & Hcs & Hobj); [done| |done|done|].
  { unfold SetCondition. cbn [with_conditions r_Conditions]. by rewrite Hc. }
  exists dr'. split; [exact Hr|]. unfold GetImpact. destruct (default_queue_hazard dsc queues).
  - destruct Hcs as (c1 & -> & _ & _ & Hi). split; [|done]. cbn. rewrite Hi. by destruct (c_Impact cond).
  - rewrite Hcs. split; [|done]. cbn. by destruct (c_Impact cond).
Qed.

Lemma isKueueInUse_spec (K W : gset string) :
  KueueEnabledNamespaces ListMeta = Ok K → WorkloadLabeledNamespaces ListMeta = Ok W →
  isKueueInUse ListMeta = Ok (negb (bool_decide (K ∪ W = ∅))).
Proof.
  intros HK HW. unfold isKueueInUse. rewrite HK, HW. cbn [res_map_err res_bind]. destruct (decide (K ∪ W = ∅)) as [He|He].
  - assert (K = ∅ ∧ W = ∅) as [-> ->] by set_solver. rewrite bool_decide_eq_true_2 by done. by rewrite !size_empty.
  - rewrite bool_decide_eq_false_2 by done. destruct (Nat.ltb_spec 0 (size K)); [done|].
    destruct (Nat.ltb_spec 0 (size W)); [done|]. exfalso. apply He.
    assert (K ≡ ∅) as HK0 by (apply size_empty_inv; lia). assert (W ≡ ∅) by (apply size_empty_inv; lia). set_solver.
Qed.
End DefaultQueue.

(** *** What the API server answers to a read *)
Section Reads.
Context `{AE : ApiErrors, KE : K8sErrors, SRV : ApiServer}.
(** An object, nothing for want of permission, or not found. *)
Inductive settled (rt : ResourceType) (name ns : string) : option json → Prop :=
| settled_answer o : Get rt name ns = Ok o → settled rt name ns o
| settled_absent e : Get rt name ns = Err e → IsNotFound e = true → settled rt name ns None.

Lemma namedResourceExists_settled rt name ns o :
  settled rt name ns o → namedResourceExists rt name ns = Ok (bool_decide (is_Some o)).
Proof. unfold namedResourceExists. intros [? ->|e -> ->]; done. Qed.
End Reads.

(** *** The workload variant autoscaler *)
Section WVA.
Context `{SV : Semver, AE : ApiErrors, KE : K8sErrors, SRV : ApiServer, JQ : GoJq, CL : Clock}.
Context (ListWith : ResourceType → ListOptions → res go_error (list json)).

(** A query that answers, or whose field is absent. *)
Inductive answers (obj : json) (query : string) : option string → Prop :=
| answers_value s : jq_Query_string obj query = Ok s → answers obj query (Some s)
| answers_absent e : jq_Query_string obj query = Err e → errors_is JqErrNotFound e = true → answers obj query None.
Lemma on_query_answers {A} obj query o context (absent : res go_error A) present :
  answers obj query o → on_query (jq_Query_string obj query) context absent present =
    match o with Some s => present s | None => absent end.
Proof. unfold on_query. by intros [s ->|e -> ->]. Qed.

Definition wva_state_query := ".spec.components.kserve.wva.managementState".
Definition wva_config_query := ".data[" +:+ dquote +:+ wvaConfigMapKey +:+ dquote +:+ "]".

(** What is left of WVA on a cluster whose reads all settle. *)
Record wva_leftovers := mkWVA {
  wva_state : option string; wva_deployment : option json; wva_crd : option json; wva_resources : list json;
  wva_config : option json; wva_key : option string;
}.
Definition wva_reads (req : ComponentRequest) (w : wva_leftovers) : Prop :=
  answers (cr_DSC req) wva_state_query (wva_state w) ∧
  settled Deployment wvaControllerDeployment (cr_ApplicationsNamespace req) (wva_deployment w) ∧
  settled CustomResourceDefinition variantAutoscalingCRD "" (wva_crd w) ∧
  ListPlain ListWith variantAutoscalingType = Ok (wva_resources w) ∧
  settled ConfigMap wvaConfigMapName (cr_ApplicationsNamespace req) (wva_config w) ∧
  (∀ cm, wva_config w = Some cm → answers cm wva_config_query (wva_key w)).

(** In use: switched on, its controller running, or resources of its kind. *)
Definition wva_in_use (w : wva_leftovers) : bool :=
  bool_decide (wva_state w = Some ManagementStateManaged) || bool_decide (is_Some (wva_deployment w)) ||
  (bool_decide (is_Some (wva_crd w)) && negb (bool_decide (wva_resources w = []))).
(** Left over: a CRD without resources, or its key in the ConfigMap. *)
Definition wva_left_over (w : wva_leftovers) : bool :=
  bool_decide (is_Some (wva_crd w)) && bool_decide (wva_resources w = []) ||
  bool_decide (is_Some (wva_config w) ∧ is_Some (wva_key w)).

Definition nil_iff {A} (l : list A) (b : bool) : Prop := l = [] ↔ b = false.
Lemma nil_iff_app {A} (l1 l2 : list A) b1 b2 : nil_iff l1 b1 → nil_iff l2 b2 → nil_iff (l1 ++ l2)%list (b1 || b2).
Proof. unfold nil_iff. intros H1 H2. by rewrite app_nil, orb_false_iff, H1, H2. Qed.
Lemma nil_iff_if {A} (b : bool) (x : A) : nil_iff (if b then [x] else []) b.
Proof. by destruct b. Qed.

Lemma wva_state_spec req w :
  wva_reads req w → ∃ l, wvaManagementStateBlocker req = Ok l ∧ nil_iff l (bool_decide (wva_state w = Some ManagementStateManaged)).
Proof.
  intros (Hst & _). unfold wvaManagementStateBlocker. rewrite (on_query_answers _ _ _ _ _ _ Hst).
  destruct (wva_state w) as [st|]; [|by exists []].
  eexists. split; [reflexivity|]. destruct (String.eqb_spec st ManagementStateManaged) as [->|Hne].
  - by rewrite bool_decide_eq_true_2.
  - rewrite bool_decide_eq_false_2; [done|congruence].
Qed.
Lemma wva_deployment_spec req w :
  wva_reads req w → ∃ l, wvaDeploymentBlocker req = Ok l ∧ nil_iff l (bool_decide (is_Some (wva_deployment w))).
Proof.
  intros (_ & Hd & _). unfold wvaDeploymentBlocker. rewrite (namedResourceExists_settled _ _ _ _ Hd).
  cbn [res_map_err res_bind]. eexists. split; [reflexivity|]. apply nil_iff_if.
Qed.
Lemma wva_resources_spec req w :
  wva_reads req w → ∃ l1 l2, wvaCustomResourceFindings ListWith = Ok (l1, l2) ∧
    nil_iff l1 (bool_decide (is_Some (wva_crd w)) && negb (bool_decide (wva_resources w = []))) ∧
    nil_iff l2 (bool_decide (is_Some (wva_crd w)) && bool_decide (wva_resources w = [])).
Proof.
  intros (_ & _ & Hc & Hl & _). unfold wvaCustomResourceFindings. rewrite (namedResourceExists_settled _ _ _ _ Hc).
  cbn [res_map_err res_bind]. destruct (bool_decide (is_Some (wva_crd w))); cbn [negb andb]; [|by exists [], []].
  rewrite Hl. cbn [res_bind]. destruct (wva_resources w) as [|item items].
  - exists []. eexists. split; [reflexivity|]. by rewrite bool_decide_eq_true_2.
  - eexists. exists []. split; [reflexivity|]. by rewrite bool_decide_eq_false_2.
Qed.
Lemma wva_config_spec req w :
  wva_reads req w → ∃ l, wvaConfigMapAdvisory req = Ok l ∧ nil_iff l (bool_decide (is_Some (wva_config w) ∧ is_Some (wva_key w))).
Proof.
  intros (_ & _ & _ & _ & Hcm & Hkey). unfold wvaConfigMapAdvisory. destruct Hcm as [[cm|] Hg|e Hg Hn]; rewrite Hg, ?Hn.
  - fold wva_config_query. rewrite (on_query_answers _ _ _ _ _ _ (Hkey cm eq_refl)).
    destruct (wva_key w).
    + eexists. split; [reflexivity|]. by rewrite bool_decide_eq_true_2.
    + exists []. split; [done|]. rewrite bool_decide_eq_false_2; [done|by intros [_ []]].
  - exists []. split; [done|]. rewrite bool_decide_eq_false_2; [done|by intros [[]]].
  - exists []. split; [done|]. rewrite bool_decide_eq_false_2; [done|by intros [[]]].
Qed.
Lemma wvaUpgradeFindings_spec req w :
  wva_reads req w → ∃ blockers advisories, wvaUpgradeFindings ListWith req = Ok (blockers, advisories) ∧
    nil_iff blockers (wva_in_use w) ∧ nil_iff advisories (wva_left_over w).
Proof.
  intros Hw. unfold wvaUpgradeFindings.
  destruct (wva_state_spec req w Hw) as (l1 & -> & H1), (wva_deployment_spec req w Hw) as (l2 & -> & H2),
    (wva_resources_spec req w Hw) as (l3 & l4 & -> & H3 & H4), (wva_config_spec req w Hw) as (l5 & -> & H5).
  cbn [res_bind]. do 2 eexists. split; [reflexivity|]. cbn [fst snd]. unfold wva_in_use. rewrite <-orb_assoc.
  split; repeat apply nil_iff_app; done.
Qed.
End WVA.

(** ** A concrete cluster *)
Module ComponentRun.
Definition component (state : string) (fields : list (string * json)) : json := JObj (("managementState", JStr state) :: fields).
Definition dsc (kueue : string) : json :=
  JObj [("spec", JObj [("components", JObj [
    ("kueue", component kueue [("defaultLocalQueueName", JStr "default")]);
    ("trainingoperator", component "Managed" []);
    ("modelmeshserving", component "Managed" [])])])].
Definition lister (kueue : string) (rt : ResourceType) (o : ListOptions) : res go_error (list json) :=
  if String.eqb (rt_Kind rt) "DataScienceCluster" then Ok [dsc kueue] else Ok [].
Definition queue (name : string) : ObjectMeta := mkMeta "user" name "1" ∅ [].
Definition meta (rt : ResourceType) (o : ListOptions) : res go_error (list ObjectMeta) :=
  if String.eqb (rt_Kind rt) "LocalQueue" then Ok [queue "default"; queue "other"]
  else if String.eqb (rt_Kind rt) "Notebook" then Ok [queue "nb"] else Ok [].
Definition upgrade (minor : Z) : Target (H := VersionRun.semver) :=
  mkTarget VersionRun.semver (Some (VersionRun.mkVer 2 25 0)) (Some (VersionRun.mkVer 3 minor 0)) None false false.
End ComponentRun.
Import (hints) ClientRun VersionRun.

(** ** Properties *)
Module ComponentSpec.
(** A removal check that applies blocks the upgrade: its result has one
    condition, which is not met and blocking, under the state that made it
    apply. *)
Theorem removal_checks_block `{SV : Semver, AE : ApiErrors, KE : K8sErrors, SRV : ApiServer, JQ : GoJq, CL : Clock}
    ListWith (c : Check) (t : instant) (target : Target) :
  c ∈ [NewModelMeshRemovalCheck ListWith; NewCodeFlareRemovalCheck ListWith; NewLlamaStackRemovalCheck ListWith;
       NewTrainingOperatorRemovalCheck ListWith] →
  ck_CanApply c t target = Ok true →
  ∃ dr cond, ck_Validate c t target = Ok (Some dr) ∧ r_Conditions dr = [cond] ∧ c_Status cond = ConditionFalse ∧
    GetImpact dr = ImpactBlocking ∧ r_Annotations dr !! AnnotationComponentManagementState = Some ManagementStateManaged.
Proof.
  intros Hc Hcan.
  repeat (apply elem_of_cons in Hc as [->|Hc]; [
    apply component_gate_Ok in Hcan as (_ & dsc & state & Hdsc & Hst & [|Hm]); [done|];
    apply list_elem_of_singleton in Hm as ->; cbn; unfold ModelMeshRemoval_Validate, CodeFlareRemoval_Validate,
      LlamaStackRemoval_Validate, TrainingOperatorRemoval_Validate;
    erewrite Component_Run_request by (done || by left); do 2 eexists; split; [reflexivity|];
    unfold GetImpact; cbn [SetCondition with_conditions r_Conditions r_Annotations];
    rewrite component_request_conditions, component_request_state; done|]).
  by apply not_elem_of_nil in Hc.
Qed.

Lemma removal_checks_block_witness (clock := 0 : Clock) :
  ∃ dr cond, ck_Validate (NewModelMeshRemovalCheck (SRV := VersionRun.server) (ComponentRun.lister "Managed")) 0%nat
      (ComponentRun.upgrade 0) = Ok (Some dr) ∧ r_Conditions dr = [cond] ∧ GetImpact dr = ImpactBlocking.
Proof.
  destruct (removal_checks_block (SRV := VersionRun.server) (ComponentRun.lister "Managed")
    (NewModelMeshRemovalCheck (SRV := VersionRun.server) (ComponentRun.lister "Managed")) 0%nat (ComponentRun.upgrade 0))
    as (dr & cond & Hr & Hc & _ & Hi & _); [by left|vm_compute; reflexivity|]. exists dr, cond. exact (conj Hr (conj Hc Hi)).
Defined.

(** The verdict on the management state of Kueue: Managed and in use prohibits
    the upgrade, Managed and unused blocks it, Unmanaged passes; the hazard of
    a LocalQueue named default adds an advisory, and the queues themselves,
    wherever the upgrade leads to Unmanaged, and never changes the verdict. *)
Theorem kueue_management_state_report
    `{SV : Semver, AE : ApiErrors, KE : K8sErrors, SRV : ApiServer, JQ : GoJq, CL : Clock}
    ListWith ListMeta (c : Check) (target : Target) dsc state (K W : gset string) queues :
  ck_CheckKind c = "kueue" →
  GetDataScienceCluster (ListPlain ListWith) = Ok dsc → GetManagementState dsc "kueue" = Ok state → state ∈ kueue_states →
  KueueEnabledNamespaces ListMeta = Ok K → WorkloadLabeledNamespaces ListMeta = Ok W → lists_queues ListMeta queues →
  let in_use := negb (bool_decide (K ∪ W = ∅)) in
  let managed := String.eqb state ManagementStateManaged in
  let warned := negb managed || in_use in
  ∃ dr, ManagementState_Validate ListWith ListMeta c target = Ok dr ∧
    GetImpact dr = (if managed then if in_use then ImpactProhibited else ImpactBlocking
                    else if default_queue_hazard dsc queues then ImpactAdvisory else ImpactNone) ∧
    default [] (r_ImpactedObjects dr) =
      (if warned then map (impactedObject LocalQueue) (default_queues queues) else []) ∧
    length (r_Conditions dr) = (if warned && default_queue_hazard dsc queues then 2 else 1)%nat.
Proof.
  intros Hk Hdsc Hst Hin HK HW Hq in_use managed warned. unfold ManagementState_Validate.
  rewrite (Component_Run_request (ListPlain ListWith) (Component c target) _ dsc state) by (cbn; rewrite ?Hk; done || by left).
  set (req := component_request _ _ _ _ _).
  assert (r_Conditions (cr_Result req) = [] ∧ r_ImpactedObjects (cr_Result req) = None) as [Hc Ho]
    by (split; [apply component_request_conditions|apply component_request_objects]).
  assert (cr_ManagementState req = state ∧ cr_DSC req = dsc) as [-> Hd] by done. cbv zeta. fold managed.
  destruct managed eqn:Hm.
  - unfold kueue_validateManaged. rewrite (isKueueInUse_spec ListMeta K W HK HW). cbn [res_map_err res_bind]. fold in_use. rewrite Hd.
    unfold warned. destruct in_use; cbn [negb orb andb].
    + lazymatch goal with |- context [set_new _ _ ?st ?opts] =>
        edestruct (set_then_warn ListMeta dsc queues (cr_Result req) st opts) as (dr & Hr & Hi & Hobj & Hl);
          [done|exact Hc|exact Ho|reflexivity|reflexivity|] end. exists dr. split; [exact Hr|]. by rewrite Hi, Hobj, Hl.
    + eexists. split; [reflexivity|]. unfold GetImpact, SetCondition. cbn [with_conditions r_Conditions r_ImpactedObjects].
      by rewrite Hc, Ho.
  - assert (state = ManagementStateUnmanaged) as ->.
    { unfold kueue_states in Hin. apply elem_of_cons in Hin as [->|Hin]; [done|]. by apply list_elem_of_singleton in Hin. }
    rewrite String.eqb_refl. unfold warned, kueue_validateUnmanaged. cbn [negb orb andb]. rewrite Hd.
    lazymatch goal with |- context [set_new _ _ ?st ?opts] =>
      edestruct (set_then_warn ListMeta dsc queues (cr_Result req) st opts) as (dr & Hr & Hi & Hobj & Hl);
        [done|exact Hc|exact Ho|reflexivity|reflexivity|] end. exists dr. split; [exact Hr|]. by rewrite Hi, Hobj, Hl.
Qed.

Lemma kueue_management_state_report_witness (clock := 0 : Clock) :
  ∃ dr, ManagementState_Validate (SRV := VersionRun.server) (ComponentRun.lister "Managed") ComponentRun.meta
      (NewManagementStateCheck (SRV := VersionRun.server) (ComponentRun.lister "Managed") ComponentRun.meta)
      (ComponentRun.upgrade 0) = Ok dr ∧ GetImpact dr = ImpactProhibited ∧
    default [] (r_ImpactedObjects dr) = [impactedObject LocalQueue (mkNN "user" "default")].
Proof.
  destruct (kueue_management_state_report (SRV := VersionRun.server) (ComponentRun.lister "Managed") ComponentRun.meta
    (NewManagementStateCheck (SRV := VersionRun.server) (ComponentRun.lister "Managed") ComponentRun.meta)
    (ComponentRun.upgrade 0) (ComponentRun.dsc "Managed") "Managed" ∅ {["user"]}
    [ComponentRun.queue "default"; ComponentRun.queue "other"])
    as (dr & Hr & Hi & Ho & _); [reflexivity|reflexivity|reflexivity|by left|vm_compute; reflexivity|vm_compute; reflexivity|reflexivity|].
  exists dr. exact (conj Hr (conj Hi Ho)).
Defined.

(** The verdict on the workload variant autoscaler: over a cluster whose reads
    settle, the upgrade is blocked exactly when WVA is in use, advised against
    when it has only left something over, and passes otherwise. *)
Theorem wva_verdict `{SV : Semver, AE : ApiErrors, KE : K8sErrors, SRV : ApiServer, JQ : GoJq, CL : Clock}
    ListWith (req : ComponentRequest) (w : wva_leftovers) :
  wva_reads ListWith req w →
  ∃ cond, check_wva ListWith req = Ok (SetCondition (cr_Result req) cond) ∧
    c_Impact cond = (if wva_in_use w then ImpactBlocking else if wva_left_over w then ImpactAdvisory else ImpactNone) ∧
    (c_Status cond = ConditionTrue ↔ wva_in_use w = false ∧ wva_left_over w = false).
Proof.
  intros Hw. destruct (wvaUpgradeFindings_spec ListWith req w Hw) as (blockers & advisories & Hf & Hb & Ha).
  unfold check_wva. rewrite Hf. cbn [res_bind].
  assert (∀ A (l : list A) b, nil_iff l b → b = match l with [] => false | _ => true end) as Hb'
    by (intros A [|] [|] Hn; unfold nil_iff in Hn; naive_solver).
  rewrite (Hb' _ _ _ Hb), (Hb' _ _ _ Ha). destruct blockers; [destruct advisories|];
    (eexists; split; [reflexivity|]; split; [done|]; cbn; naive_solver).
Qed.

Lemma wva_verdict_witness (clock := 0 : Clock) :
  let req := mkComponentRequest (SV := VersionRun.semver) (ComponentRun.upgrade 6) (New "component" "kserve" "t" "d")
    (ComponentRun.dsc "Removed") "Managed" "apps" in
  ∃ cond, check_wva (SRV := VersionRun.server) (ComponentRun.lister "Removed") req = Ok (SetCondition (cr_Result req) cond) ∧
    c_Status cond = ConditionTrue.
Proof.
  intros req. destruct (wva_verdict (SRV := VersionRun.server) (ComponentRun.lister "Removed") req (mkWVA None None None [] None None))
    as (cond & Hr & _ & Hs).
  - split; [by apply (answers_absent _ _ (ESentinel JqErrNotFound))|]. split; [by apply settled_answer|].
    split; [by apply settled_answer|]. split; [done|]. by split; [apply settled_answer|].
  - exists cond. split; [exact Hr|by apply Hs].
Defined.

(** TrainingOperator: the deprecation advice is given for targets from 3.3 on
    and the removal check takes over exactly at 3.6, so that at most one of
    them applies and from 3.3 on one always does. *)
Theorem trainingoperator_handover `{SV : Semver, AE : ApiErrors, KE : K8sErrors, SRV : ApiServer, JQ : GoJq, CL : Clock}
    ListWith (t : instant) (target : Target) tgt dsc :
  t_TargetVersion target = Some tgt → GetDataScienceCluster (ListPlain ListWith) = Ok dsc →
  HasManagementState dsc "trainingoperator" [ManagementStateManaged] = Ok true →
  let from minor := bool_decide (3 < v_Major tgt ∨ v_Major tgt = 3 ∧ minor ≤ v_Minor tgt) in
  ck_CanApply (NewTrainingOperatorRemovalCheck ListWith) t target = Ok (from 6) ∧
  ck_CanApply (NewDeprecationCheck ListWith) t target = Ok (from 3 && negb (from 6)).
Proof.
  intros Htgt Hdsc Hm from. cbn. unfold TrainingOperatorRemoval_CanApply, Deprecation_CanApply, component_gate.
  rewrite Htgt, Hdsc. cbn [res_map_err res_bind]. rewrite Hm.
  assert (∀ m, IsVersionAtLeast (Some tgt) 3 m = from m) as Hat.
  { intros m. unfold IsVersionAtLeast, from. destruct (Z.ltb_spec 3 (v_Major tgt)).
    - by rewrite bool_decide_eq_true_2 by lia.
    - apply eq_true_iff_eq. rewrite bool_decide_eq_true, andb_true_iff, Z.eqb_eq, Z.leb_le. lia. }
  rewrite !Hat. by destruct (from 6), (from 3).
Qed.

Lemma trainingoperator_handover_witness (clock := 0 : Clock) :
  ck_CanApply (NewTrainingOperatorRemovalCheck (SRV := VersionRun.server) (ComponentRun.lister "Removed")) 0%nat
    (ComponentRun.upgrade 4) = Ok false ∧
  ck_CanApply (NewDeprecationCheck (SRV := VersionRun.server) (ComponentRun.lister "Removed")) 0%nat
    (ComponentRun.upgrade 4) = Ok true.
Proof.
  exact (trainingoperator_handover (SRV := VersionRun.server) (ComponentRun.lister "Removed") 0%nat (ComponentRun.upgrade 4)
    (VersionRun.mkVer 3 4 0) (ComponentRun.dsc "Removed") eq_refl eq_refl eq_refl).
Defined.

(** The Kueue operator check asks for no upgrade: with Kueue Managed it
    applies to every target, and its result prohibits; with Kueue Unmanaged
    the result blocks exactly when no kueue-operator is subscribed. *)
Theorem operator_installed_report `{SV : Semver, AE : ApiErrors, KE : K8sErrors, SRV : ApiServer, JQ : GoJq, CL : Clock}
    ListWith subs (t : instant) (target : Target) dsc state :
  let c := NewOperatorInstalledCheck ListWith (Ok subs) in
  GetDataScienceCluster (ListPlain ListWith) = Ok dsc → GetManagementState dsc "kueue" = Ok state → state ∈ kueue_states →
  ck_CanApply c t target = Ok true ∧
  ∃ dr, ck_Validate c t target = Ok (Some dr) ∧
    GetImpact dr = (if String.eqb state ManagementStateManaged then ImpactProhibited
                    else if bool_decide ("kueue-operator" ∈ map sb_Name subs) then ImpactNone else ImpactBlocking).
Proof.
  intros c Hdsc Hst Hin. split.
  { cbn. unfold OperatorInstalled_CanApply, component_gate, HasManagementState, state_in. rewrite Hdsc. cbn [negb res_map_err res_bind].
    rewrite Hst. unfold kueue_states at 1. by rewrite (proj2 (contains_str_In _ _) Hin). }
  cbn. unfold OperatorInstalled_Validate.
  rewrite (Component_Run_request (ListPlain ListWith) _ _ dsc state) by (done || by left). cbn [cr_ManagementState component_request cb_check Component].
  pose proof (component_request_conditions c target dsc state "") as Hc.
  unfold component_request in Hc. cbn [cr_Result] in Hc.
  destruct (String.eqb state ManagementStateManaged).
  { eexists. split; [reflexivity|]. unfold GetImpact. cbn. unfold annotate_target. by case_match. }
  unfold FindOperator. cbn [res_map_err res_bind]. pose proof (find_spec (λ sub, String.eqb (sub_Name sub) "kueue-operator") (map subscription_info subs)) as Hf.
  destruct (find _ _) as [info|] eqn:Hfind; cbn [res_map_err res_bind].
  - destruct Hf as (l1 & l2 & Hl & _ & Hn%String.eqb_eq).
    rewrite bool_decide_eq_true_2.
    2:{ assert (info ∈ map subscription_info subs) as (s & -> & Hs)%list_elem_of_fmap by (rewrite Hl; set_solver).
        apply list_elem_of_fmap. exists s. by split. }
    eexists. split; [reflexivity|]. unfold GetImpact. cbn. case_match; cbn; unfold annotate_target; by case_match.
  - rewrite bool_decide_eq_false_2.
    2:{ intros (s & Hn & Hs)%list_elem_of_fmap. rewrite Forall_forall in Hf. specialize (Hf (subscription_info s)).
        apply String.eqb_neq in Hf; [by rewrite Hn in Hf|]. apply list_elem_of_fmap. eauto. }
    eexists. split; [reflexivity|]. unfold GetImpact. cbn. unfold annotate_target. by case_match.
Qed.

Lemma operator_installed_report_witness (clock := 0 : Clock) :
  let c := NewOperatorInstalledCheck (SRV := VersionRun.server) (ComponentRun.lister "Managed") (Ok []) in
  let lint := mkTarget VersionRun.semver None None None false false in
  ck_CanApply c 0%nat lint = Ok true ∧ ∃ dr, ck_Validate c 0%nat lint = Ok (Some dr) ∧ GetImpact dr = ImpactProhibited.
Proof.
  exact (operator_installed_report (SRV := VersionRun.server) (ComponentRun.lister "Managed") [] 0%nat
    (mkTarget VersionRun.semver None None None false false) (ComponentRun.dsc "Managed") "Managed" eq_refl eq_refl
    ltac:(by left)).
Defined.
End ComponentSpec.
