(* ===== verification/DashboardChecks.v ===== *)
(** * DashboardChecks: pkg/lint/checks/components/dashboard

    The checks of the dashboard: what the upgrade migrates by itself
    (AcceleratorProfiles, HardwareProfiles, the authentication sidecar, the
    routes), its configuration, and whether its pods fit on the nodes
    (resource_capacity.go) and can be rolled out (rollout_strategy.go).

    Quantities are those of k8s.io/apimachinery, a parameter.  A number of the
    model is an integer; the Go type gojq gives it is a parameter as well,
    since the checks distinguish them. *)
From S2P Require Import Prelude GoStrings GoFloat Errors Client Version Result Check Validate CheckKit DepsCheck BackupDeps.
From S2P Require Import WorkloadHelpers NotebookImpacted KueueIntegrity ComponentChecks.
Open Scope string_scope.
Open Scope Z_scope.
Open Scope go_scope.

(** ** Constants and resource types *)
Definition ConditionTypeMigrationRequired := "MigrationRequired".
Definition conditionTypeAuthModel := "AuthModelMigration".
Definition conditionTypeRouteMigration := "RouteMigration".
Definition conditionTypeConfigCompatibility := "ConfigCompatibility".
Definition conditionTypeResourceCapacity := "ResourceCapacity".
Definition conditionTypeRolloutStrategy := "RolloutStrategy".
Definition ReasonInsufficientCapacity := "InsufficientCapacity".
Definition dashboardDeploymentName := "rhods-dashboard".
Definition dashboardLabelSelector := "app=rhods-dashboard".

Definition HardwareProfile : ResourceType :=
  mkResourceType "dashboard.opendatahub.io" "v1alpha1" "HardwareProfile" "hardwareprofiles".
Definition OdhDashboardConfig : ResourceType :=
  mkResourceType "opendatahub.io" "v1alpha" "OdhDashboardConfig" "odhdashboardconfigs".
Definition ClusterAutoscaler : ResourceType :=
  mkResourceType "autoscaling.openshift.io" "v1" "ClusterAutoscaler" "clusterautoscalers".
Definition Node : ResourceType := mkResourceType "" "v1" "Node" "nodes".
Definition Route : ResourceType := mkResourceType "route.openshift.io" "v1" "Route" "routes".

(** ** The libraries *)
(** k8s.io/apimachinery/pkg/api/resource *)
Class Quantities := {
  Quantity : Type;
  ParseQuantity : string → option Quantity;
  NewQuantity : Z → Quantity;
  MilliValue : Quantity → Z;
  QuantityValue : Quantity → Z;
}.
(** The Go type of a number of a query result. *)
Inductive go_number := GoInt64 | GoFloat64 | GoOtherNumber.
Class GoNumbers := number_type : Z → go_number.

Definition as_any (v : json) : res go_error json := Ok v.
Definition as_map (v : json) : res go_error json :=
  match v with
  | JObj _ => Ok v
  | _ => Err (EString "json: cannot unmarshal value into Go value of type map[string]interface {}")
  end.
Definition as_float64 (v : json) : res go_error Z :=
  match v with JNum n => Ok n | _ => Err (EString "json: cannot unmarshal value into Go value of type float64") end.
(** [v, _ := jq.Query[any](...)]: nil when the query fails. *)
Definition query_any `{GoJq} (obj : json) (query : string) : json :=
  match jq_Query JNull "interface {}" as_any obj query with Ok v => v | _ => JNull end.

(** Addition of int64. *)
Definition wrap64 (n : Z) : Z := (n + 2 ^ 63) mod 2 ^ 64 - 2 ^ 63.

(** ** resource_capacity.go: pod requests *)
Record podResources := mkPod { cpuMillis : Z; memoryBytes : Z }.
Record resourceLookupResult := mkLookup { lk_resources : podResources; lk_containerCount : Z; lk_found : bool }.
Definition no_resources : podResources := mkPod 0 0.
Definition no_lookup : resourceLookupResult := mkLookup no_resources 0 false.

Section Quantities.
Context `{QT : Quantities, GN : GoNumbers}.

(** A float64 that is an integer prints its digits. *)
Definition parseQuantityAny (raw : json) : option Quantity :=
  match raw with
  | JStr s => ParseQuantity s
  | JNum n =>
      match number_type n with
      | GoInt64 => Some (NewQuantity n)
      | GoFloat64 => ParseQuantity (itoa n)
      | GoOtherNumber => None
      end
  | _ => None
  end.
Definition quantity_at (read : Quantity → Z) (raw : json) : Z :=
  match parseQuantityAny raw with Some q => read q | None => 0 end.
Definition value_at (key : string) (v : json) : json := default JNull (nested [key] v).

Definition containerRequests (raw : json) : podResources :=
  match nested ["resources"; "requests"] raw with
  | Some ((JObj _) as requests) =>
      mkPod (quantity_at MilliValue (value_at "cpu" requests)) (quantity_at QuantityValue (value_at "memory" requests))
  | _ => no_resources
  end.
Definition isNativeSidecar (raw : json) : bool := String.eqb (str_at "restartPolicy" raw) "Always".

Definition add_requests (total req : podResources) : podResources :=
  mkPod (wrap64 (cpuMillis total + cpuMillis req)) (wrap64 (memoryBytes total + memoryBytes req)).
Definition max_requests (a b : podResources) : podResources :=
  mkPod (Z.max (cpuMillis a) (cpuMillis b)) (Z.max (memoryBytes a) (memoryBytes b)).

(** The loop over the init containers: the running total, the largest single
    request, the number of concurrent containers. *)
Definition init_step (acc : podResources * podResources * Z) (raw : json) : podResources * podResources * Z :=
  let '(total, maxInit, count) := acc in
  let req := containerRequests raw in
  if isNativeSidecar raw then (add_requests total req, maxInit, count + 1)
  else (total, max_requests maxInit req, count).
Definition pod_requests (containers initContainers : list json) : podResources * Z :=
  let total := foldl (λ t raw, add_requests t (containerRequests raw)) no_resources containers in
  let '(total, maxInit, count) := foldl init_step (total, no_resources, Z.of_nat (length containers)) initContainers in
  (max_requests total maxInit, count).
Definition effectivePodRequests `{GoJq} (obj : json) (podSpecPath : string) : res go_error (podResources * Z) :=
  try! spec := jq_Query JNull "map[string]interface {}" as_map obj podSpecPath
    else errorf_w ("querying pod spec at " +:+ podSpecPath) in
  Ok (pod_requests (arr_at "containers" spec) (arr_at "initContainers" spec)).

Definition anyNodeFits (podReq : podResources) (nodes : list podResources) : bool :=
  existsb (λ n, (cpuMillis podReq <=? cpuMillis n) && (memoryBytes podReq <=? memoryBytes n)) nodes.

Definition formatCPU (millis : Z) : string :=
  if Z.rem millis 1000 =? 0 then itoa (Z.quot millis 1000) else itoa millis +:+ "m".
Definition formatMemory (bytes : Z) : string :=
  if Z.rem bytes (1024 * 1024 * 1024) =? 0 then itoa (Z.quot bytes (1024 * 1024 * 1024)) +:+ "Gi"
  else itoa (Z.quot bytes (1024 * 1024)) +:+ "Mi".
End Quantities.

(** ** rollout_strategy.go: fenceposts *)
Section Fenceposts.
Context `{GN : GoNumbers, FN : FloatNotations}.
(** fmt's %v of a value that is neither a string nor a number. *)
Context (format_value : json → string).

Definition resolveFencepost (raw : json) (replicas : Z) (defaultValue : string) (round : Z → Z → Z) : Z :=
  let raw := match raw with JNull => JStr defaultValue | _ => raw end in
  match raw with
  | JNum n => match number_type n with GoFloat64 => n | _ => 1 end
  | JStr v =>
      match cut_suffix "%" v with
      | Some pctStr =>
          match ParseFloat pctStr with
          | None => 1
          | Some pct => int_of_rounded round (f64_mul (f64_div pct (f64_of_int 100)) (f64_of_int replicas))
          end
      | None => match Atoi v with (n, None) => n | (_, Some _) => 1 end
      end
  | _ => 1
  end.
Definition describeFencepost (raw : json) (defaultValue : string) : string :=
  match raw with
  | JNull => defaultValue +:+ " (Kubernetes default)"
  | JStr s => s
  | JNum n => itoa n
  | v => format_value v
  end.
End Fenceposts.

(** ** The checks *)
Definition dashboard_check `{Semver} (checkType id name description remediation : string)
    (validate : Check → Target → res go_error (option DiagnosticResult)) : Check :=
  component_check "dashboard" checkType id name description remediation (λ target, Ok (from_2x_to_3x target)) validate.

Section Dashboard.
Context `{SV : Semver, AE : ApiErrors, KE : K8sErrors, SRV : ApiServer, JQ : GoJq, CL : Clock, SS : SortSlice,
  QT : Quantities, GN : GoNumbers, FN : FloatNotations}.
Context (ListWith : ResourceType → ListOptions → res go_error (list json)).
Context (ListMetadataWith : ResourceType → ListOptions → res go_error (list PartialObjectMetadata)).
Context (format_value : json → string).
Notation ListPlain := (ListPlain ListWith).

(** What every dashboard condition is: met, or not met with an advisory. *)
Definition met (dr : DiagnosticResult) (conditionType reason message : string) : res go_error DiagnosticResult :=
  set_new dr conditionType ConditionTrue [WithReason reason; WithMessage message].
Definition advised (dr : DiagnosticResult) (conditionType reason message remediation : string) : res go_error DiagnosticResult :=
  set_new dr conditionType ConditionFalse
    [WithReason reason; WithMessage message; WithImpact ImpactAdvisory; WithRemediation remediation].
(** The component builder with the applications namespace. *)
Definition in_applications (c : Check) (target : Target) (fn : ComponentValidateFn) : res go_error DiagnosticResult :=
  Component_Run ListPlain (WithApplicationsNamespace (Component c target)) fn.
Definition labeled_in (ns selector : string) : ListOptions :=
  {| lo_Namespace := ns; lo_LabelSelector := selector; lo_FieldSelector := ""; lo_Limit := 0 |}.

(** *** acceleratorprofile_migration.go, hardwareprofile_migration.go *)
Definition migration_condition (none found remediation : string) (items : nat) : res go_error (list Condition) :=
  let! c :=
    if (items =? 0)%nat then
      NewCondition ConditionTypeMigrationRequired ConditionTrue [WithReason ReasonNoMigrationRequired; WithMessage none]
    else
      NewCondition ConditionTypeMigrationRequired ConditionFalse
        [WithReason ReasonMigrationPending; WithMessage ("Found " +:+ itoa (Z.of_nat items) +:+ found);
         WithImpact ImpactAdvisory; WithRemediation remediation] in
  Ok [c].
Definition profiles_builder (c : Check) (target : Target) (rt : ResourceType) : WorkloadBuilder (T := PartialObjectMetadata) :=
  {| wb_check := c; wb_target := target; wb_resourceType := rt; wb_listFn := ListMetadata ListMetadataWith rt;
     wb_filterFn := None; wb_componentNames := [] |}.

Definition acceleratorprofiles_remediation :=
  "Deprecated AcceleratorProfiles will be automatically migrated to HardwareProfiles (infrastructure.opendatahub.io) during upgrade - no manual action required".
Definition AcceleratorProfiles_Validate (c : Check) (target : Target) : res go_error (option DiagnosticResult) :=
  Workload_Complete ListPlain (profiles_builder c target AcceleratorProfile) (λ req,
    migration_condition "No deprecated AcceleratorProfiles found - no migration required"
      " deprecated AcceleratorProfile(s) that will be automatically migrated to HardwareProfiles (infrastructure.opendatahub.io) during upgrade"
      acceleratorprofiles_remediation (length (wr_Items req))).
Definition NewAcceleratorProfileMigrationCheck : Check :=
  dashboard_check "acceleratorprofile-migration" "components.dashboard.acceleratorprofile-migration"
    "Components :: Dashboard :: AcceleratorProfile Migration (3.x)"
    "Lists deprecated AcceleratorProfiles that will be auto-migrated to HardwareProfiles (infrastructure.opendatahub.io) during upgrade"
    acceleratorprofiles_remediation AcceleratorProfiles_Validate.

Definition hardwareprofiles_remediation :=
  "Legacy HardwareProfiles will be automatically migrated to HardwareProfiles (infrastructure.opendatahub.io) during upgrade - no manual action required".
Definition HardwareProfiles_Validate (c : Check) (target : Target) : res go_error (option DiagnosticResult) :=
  Workload_Complete ListPlain (profiles_builder c target HardwareProfile) (λ req,
    migration_condition "No legacy HardwareProfiles found in opendatahub.io API group - no migration required"
      " legacy HardwareProfile(s) (opendatahub.io) that will be automatically migrated to HardwareProfiles (infrastructure.opendatahub.io) during upgrade"
      hardwareprofiles_remediation (length (wr_Items req))).
Definition NewDashboardHardwareProfileCheck : Check :=
  dashboard_check "hardwareprofile-migration" "components.dashboard.hardwareprofile-migration"
    "Components :: Dashboard :: HardwareProfile Migration (3.x)"
    "Lists legacy HardwareProfiles (opendatahub.io) that will be auto-migrated to HardwareProfiles (infrastructure.opendatahub.io) during upgrade"
    hardwareprofiles_remediation HardwareProfiles_Validate.

(** *** auth_model_migration.go *)
Definition hasContainer (pod : json) (containerName : string) : bool :=
  match jq_Query_array pod ".spec.containers" with
  | Ok containers => existsb (λ raw, is_object raw && String.eqb (str_at "name" raw) containerName) containers
  | _ => false
  end.
Definition auth_remediation :=
  "The operator will automatically migrate the auth model during upgrade - no manual action required".
Definition checkAuthModel (req : ComponentRequest) : res go_error DiagnosticResult :=
  try! pods := ListWith Pod (labeled_in (cr_ApplicationsNamespace req) dashboardLabelSelector)
    else errorf_w "listing dashboard pods" in
  match pods with
  | [] => met (cr_Result req) conditionTypeAuthModel ReasonRequirementsMet "No dashboard pods found"
  | _ =>
      let legacyCount := length (List.filter (λ pod, hasContainer pod "oauth-proxy") pods) in
      if (0 <? legacyCount)%nat then
        advised (cr_Result req) conditionTypeAuthModel ReasonMigrationPending
          ("Found " +:+ itoa (Z.of_nat legacyCount) +:+
           " dashboard pod(s) still using oauth-proxy sidecar - operator will migrate automatically") auth_remediation
      else met (cr_Result req) conditionTypeAuthModel ReasonRequirementsMet "No oauth-proxy sidecar found on dashboard pods"
  end.
Definition NewAuthModelMigrationCheck : Check :=
  dashboard_check "auth-model-migration" "components.dashboard.auth-model-migration"
    "Components :: Dashboard :: Auth Model Migration (3.x)"
    "Detects dashboard pods using legacy oauth-proxy sidecar that will be migrated to kube-rbac-proxy"
    auth_remediation (λ c target, some_result (in_applications c target checkAuthModel)).

(** *** route_migration.go *)
Definition legacyDashboardRouteNames := ["rhods-dashboard"; "odh-dashboard"].
Definition quoteAll (names : list string) : list string := map quote names.
Definition route_remediation :=
  "Update any bookmarks, scripts, or integrations referencing the old dashboard URL after upgrade".
Definition checkRoute (req : ComponentRequest) : res go_error DiagnosticResult :=
  try! routes := ListWith Route (in_namespace (cr_ApplicationsNamespace req)) else errorf_w "listing routes" in
  match List.filter (contains_str legacyDashboardRouteNames) (map GetName routes) with
  | [] => met (cr_Result req) conditionTypeRouteMigration ReasonRequirementsMet "No legacy dashboard routes found"
  | found =>
      advised (cr_Result req) conditionTypeRouteMigration ReasonMigrationPending
        ("Dashboard route(s) " +:+ join ", " (quoteAll (sort_strings found)) +:+
         " found - URL will change after upgrade to a gateway-based route") route_remediation
  end.
Definition NewRouteMigrationCheck : Check :=
  dashboard_check "route-migration" "components.dashboard.route-migration" "Components :: Dashboard :: Route Migration (3.x)"
    "Detects legacy dashboard routes that will change during upgrade to gateway-based routing"
    route_remediation (λ c target, some_result (in_applications c target checkRoute)).

(** *** config_compatibility.go *)
Definition odhDashboardConfigName := "odh-dashboard-config".
Definition config_missing_remediation :=
  "If OdhDashboardConfig is missing after upgrade, recreate it with the appropriate settings".
Definition checkConfig (req : ComponentRequest) : res go_error DiagnosticResult :=
  match Get OdhDashboardConfig odhDashboardConfigName (cr_ApplicationsNamespace req) with
  | Panic s => Panic s
  | Err err =>
      if IsNotFound err then
        advised (cr_Result req) conditionTypeConfigCompatibility ReasonResourceNotFound
          "OdhDashboardConfig not found in applications namespace - configuration may need to be recreated after upgrade"
          config_missing_remediation
      else Err (errorf_w "getting OdhDashboardConfig" err)
  | Ok None =>
      advised (cr_Result req) conditionTypeConfigCompatibility ReasonInsufficientData
        "OdhDashboardConfig access restricted - unable to verify" config_missing_remediation
  | Ok (Some config) =>
      let v := at_key (GetAnnotations config) "platform.opendatahub.io/version" in
      met (cr_Result req) conditionTypeConfigCompatibility ReasonResourceFound
        ("OdhDashboardConfig " +:+ quote odhDashboardConfigName +:+ " found (version: " +:+
         (if String.eqb v "" then "unknown" else v) +:+ ")")
  end.
Definition NewConfigCompatibilityCheck : Check :=
  dashboard_check "config-compatibility" "components.dashboard.config-compatibility"
    "Components :: Dashboard :: Config Compatibility (3.x)"
    "Verifies OdhDashboardConfig exists and reports its version annotation"
    config_missing_remediation (λ c target, some_result (in_applications c target checkConfig)).

(** *** rollout_strategy.go *)
Definition getDashboardDeployment (namespace : string) : res go_error (option json) :=
  match Get Deployment dashboardDeploymentName namespace with
  | Err err => if IsNotFound err then Ok None else Err (errorf_w "getting dashboard deployment" err)
  | r => r
  end.
Definition rollout_remediation :=
  "Set maxUnavailable to at least 1 in the deployment rollout strategy, or make sure the cluster has headroom to schedule the surge pods alongside the existing ones".
Definition defaultMaxUnavailable := "25%".
Definition defaultMaxSurge := "25%".
(** A query whose errors leave the zero value. *)
Definition query_string_or (obj : json) (query : string) : string :=
  match jq_Query_string obj query with Ok s => s | _ => "" end.
Definition replicas_of (deploy : json) : Z :=
  match jq_Query 0 "float64" as_float64 deploy ".spec.replicas" with Ok n => n | _ => 0 end.

Definition checkRolloutStrategy (req : ComponentRequest) : res go_error DiagnosticResult :=
  let! deploy := getDashboardDeployment (cr_ApplicationsNamespace req) in
  let ok reason message := met (cr_Result req) conditionTypeRolloutStrategy reason message in
  match deploy with
  | None => ok ReasonResourceNotFound "Dashboard deployment not found - rollout strategy cannot be evaluated"
  | Some deploy =>
      if String.eqb (query_string_or deploy ".spec.strategy.type") "Recreate" then
        ok ReasonRequirementsMet "Deployment uses the Recreate strategy - no rolling update constraints apply"
      else
        let replicas := replicas_of deploy in
        if replicas <? 2 then ok ReasonRequirementsMet "Deployment rollout strategy allows progress"
        else
          let maxUnavailRaw := query_any deploy ".spec.strategy.rollingUpdate.maxUnavailable" in
          let maxSurgeRaw := query_any deploy ".spec.strategy.rollingUpdate.maxSurge" in
          let maxUnavailable := resolveFencepost maxUnavailRaw replicas defaultMaxUnavailable floor_div in
          let maxSurge := resolveFencepost maxSurgeRaw replicas defaultMaxSurge ceil_div in
          if (maxUnavailable =? 0) && (0 <? maxSurge) then
            advised (cr_Result req) conditionTypeRolloutStrategy ReasonWorkloadsImpacted
              ("Deployment " +:+ quote dashboardDeploymentName +:+ " has " +:+ itoa replicas +:+
               " replica(s) with maxUnavailable=" +:+ describeFencepost format_value maxUnavailRaw defaultMaxUnavailable +:+
               ", which resolves to 0 - the rolling update can only progress by surging " +:+ itoa maxSurge +:+
               " extra pod(s), and will stall if the cluster cannot schedule them alongside the existing pods")
              rollout_remediation
          else ok ReasonRequirementsMet "Deployment rollout strategy allows progress"
  end.
Definition NewRolloutStrategyCheck : Check :=
  dashboard_check "rollout-strategy" "components.dashboard.rollout-strategy" "Components :: Dashboard :: Rollout Strategy (3.x)"
    "Detects a dashboard rolling update deadlock caused by an effective maxUnavailable of 0"
    rollout_remediation (λ c target, some_result (in_applications c target checkRolloutStrategy)).

(** *** resource_capacity.go *)
Definition getDeploymentPodResources (namespace : string) : res go_error resourceLookupResult :=
  let! deploy := getDashboardDeployment namespace in
  match deploy with
  | None => Ok no_lookup
  | Some deploy =>
      try! found := effectivePodRequests deploy ".spec.template.spec" else errorf_w "reading deployment container requests" in
      Ok (mkLookup found.1 found.2 true)
  end.
(** The loop over the pods; a pod whose spec cannot be read is skipped. *)
Definition pod_max_step (acc : podResources * Z) (pod : json) : podResources * Z :=
  match effectivePodRequests pod ".spec" with
  | Ok (req, count) => (max_requests acc.1 req, Z.max acc.2 count)
  | _ => acc
  end.
Definition getPodMaxResources (namespace : string) : res go_error resourceLookupResult :=
  try! pods := ListWith Pod (labeled_in namespace dashboardLabelSelector) else errorf_w "listing dashboard pods" in
  match pods with
  | [] => Ok no_lookup
  | _ =>
      let '(maxReq, maxCount) := foldl pod_max_step (no_resources, 0) pods in
      Ok (mkLookup maxReq maxCount ((0 <? cpuMillis maxReq) || (0 <? memoryBytes maxReq)))
  end.
Definition getRequiredResources (namespace : string) : res go_error resourceLookupResult :=
  let! found := getDeploymentPodResources namespace in
  if lk_found found then Ok found else getPodMaxResources namespace.

Definition node_capacity (node : json) : podResources :=
  mkPod (quantity_at MilliValue (query_any node ".status.allocatable.cpu"))
        (quantity_at QuantityValue (query_any node ".status.allocatable.memory")).
Definition getNodeAllocatable : res go_error (list podResources) :=
  try! nodes := ListPlain Node else errorf_w "listing nodes" in
  Ok (List.filter (λ pr, (0 <? cpuMillis pr) || (0 <? memoryBytes pr)) (map node_capacity nodes)).

Definition remediationCapacityAdvisory :=
  "Ensure cluster has nodes with sufficient CPU/memory for dashboard pods. Consider enabling cluster autoscaler with larger instance types".
(** [hasAutoscaler] is unknown when the list failed. *)
Definition setCapacityCondition (dr : DiagnosticResult) (podReq : podResources) (nodes : list podResources) (containerCount : Z)
    (hasAutoscaler : option bool) : res go_error DiagnosticResult :=
  let cpuStr := formatCPU (cpuMillis podReq) in
  let memStr := formatMemory (memoryBytes podReq) in
  if negb (anyNodeFits podReq nodes) then
    let largest := foldl max_requests no_resources nodes in
    set_new dr conditionTypeResourceCapacity ConditionFalse
      [WithReason ReasonInsufficientCapacity;
       WithMessage ("No node has sufficient allocatable resources for dashboard pods (need " +:+ cpuStr +:+ " CPU, " +:+ memStr +:+
         " memory; largest node has " +:+ formatCPU (cpuMillis largest) +:+ " CPU, " +:+ formatMemory (memoryBytes largest) +:+
         " memory). Add larger nodes or reduce pod resource requests");
       WithImpact ImpactBlocking;
       WithRemediation ("Add nodes with at least " +:+ cpuStr +:+ " CPU and " +:+ memStr +:+
         " memory allocatable, or enable cluster autoscaler with a machine pool using larger instance types")]
  else
    match hasAutoscaler with
    | Some false =>
        advised dr conditionTypeResourceCapacity ReasonWorkloadsImpacted
          ("Dashboard pods fit on cluster nodes but no cluster autoscaler detected - ensure sufficient node capacity for " +:+
           itoa containerCount +:+ " container(s) per pod") remediationCapacityAdvisory
    | _ =>
        met dr conditionTypeResourceCapacity ReasonRequirementsMet
          ("Dashboard pods fit on cluster nodes (need " +:+ cpuStr +:+ " CPU, " +:+ memStr +:+ " memory)")
    end.
Definition has_autoscaler : res go_error (option bool) :=
  match ListPlain ClusterAutoscaler with
  | Ok autoscalers => Ok (Some (0 <? length autoscalers)%nat)
  | Err _ => Ok None
  | Panic s => Panic s
  end.
Definition checkCapacity (req : ComponentRequest) : res go_error DiagnosticResult :=
  let! lookup := getRequiredResources (cr_ApplicationsNamespace req) in
  if negb (lk_found lookup) then
    met (cr_Result req) conditionTypeResourceCapacity ReasonRequirementsMet
      "Could not determine dashboard pod resource requirements"
  else
    let! nodes := getNodeAllocatable in
    let! hasAutoscaler := has_autoscaler in
    setCapacityCondition (cr_Result req) (lk_resources lookup) nodes (lk_containerCount lookup) hasAutoscaler.
Definition NewResourceCapacityCheck : Check :=
  dashboard_check "resource-capacity" "components.dashboard.resource-capacity" "Components :: Dashboard :: Resource Capacity (3.x)"
    "Validates that cluster nodes have enough allocatable CPU and memory to schedule the new dashboard pods"
    remediationCapacityAdvisory (λ c target, some_result (in_applications c target checkCapacity)).
End Dashboard.

(** ** Lemmas *)
Section DashboardLemmas.
Context `{SV : Semver, AE : ApiErrors, KE : K8sErrors, SRV : ApiServer, JQ : GoJq, CL : Clock, SS : SortSlice, MO : MapOrder,
  QT : Quantities, GN : GoNumbers, FN : FloatNotations}.
Context (ListWith : ResourceType → ListOptions → res go_error (list json)).
Context (ListMetadataWith : ResourceType → ListOptions → res go_error (list PartialObjectMetadata)).
Context (format_value : json → string).

(** *** Every check here only produces results the executor accepts *)
Definition dashboard_checks : list Check :=
  [NewAcceleratorProfileMigrationCheck ListWith ListMetadataWith; NewDashboardHardwareProfileCheck ListWith ListMetadataWith;
   NewAuthModelMigrationCheck ListWith; NewRouteMigrationCheck ListWith; NewResourceCapacityCheck ListWith;
   NewRolloutStrategyCheck ListWith format_value; NewConfigCompatibilityCheck ListWith].
Lemma dashboard_checks_sound : Forall sound_check dashboard_checks.
Proof using MO.
  repeat (apply Forall_cons; split; [apply embed_sound; [done..|]; intros c target; accept|]). apply Forall_nil. done.
Qed.
End DashboardLemmas.

(** *** The requests of a pod, in one dimension *)
Section PodRequests.
Context `{QT : Quantities, GN : GoNumbers}.

(** A dimension of the resources: CPU or memory. *)
Inductive dimension := CPU | Memory.
Definition along (d : dimension) (r : podResources) : Z := match d with CPU => cpuMillis r | Memory => memoryBytes r end.
Definition asks (d : dimension) (raw : json) : Z := along d (containerRequests raw).

Definition total_of (d : dimension) (l : list json) : Z := foldr (λ raw n, asks d raw + n) 0 l.
Definition largest_of (d : dimension) (l : list json) : Z := foldr (λ raw n, Z.max (asks d raw) n) 0 l.
Definition sidecars (l : list json) : list json := List.filter isNativeSidecar l.
Definition run_first (l : list json) : list json := List.filter (λ raw, negb (isNativeSidecar raw)) l.

(** What the scheduler reserves while the init containers run: each beside the
    sidecars started before it. *)
Fixpoint starting (d : dimension) (running : Z) (inits : list json) : Z :=
  match inits with
  | [] => 0
  | raw :: rest =>
      if isNativeSidecar raw then starting d (running + asks d raw) rest
      else Z.max (running + asks d raw) (starting d running rest)
  end.
Definition scheduler_requests (d : dimension) (containers inits : list json) : Z :=
  Z.max (total_of d containers + total_of d (sidecars inits)) (starting d 0 inits).

Lemma total_of_cons d raw l : total_of d (raw :: l) = asks d raw + total_of d l.
Proof. done. Qed.
Lemma largest_of_cons d raw l : largest_of d (raw :: l) = Z.max (asks d raw) (largest_of d l).
Proof. done. Qed.
Lemma along_max d a b : along d (max_requests a b) = Z.max (along d a) (along d b).
Proof. by destruct d. Qed.
Lemma along_add d a b : along d (add_requests a b) = wrap64 (along d a + along d b).
Proof. by destruct d. Qed.
Lemma wrap64_small n : 0 <= n < 2 ^ 63 → wrap64 n = n.
Proof. intros Hn. unfold wrap64. rewrite Z.mod_small; lia. Qed.

Definition non_negative (d : dimension) (l : list json) : Prop := Forall (λ raw, 0 <= asks d raw) l.
Lemma total_of_nonneg d l : non_negative d l → 0 <= total_of d l.
Proof. induction 1; simpl; lia. Qed.
Lemma non_negative_filter d f l : non_negative d l → non_negative d (List.filter f l).
Proof. induction 1; simpl; [constructor|]. case_match; [by constructor|done]. Qed.

Lemma containers_total d l t :
  non_negative d l → 0 <= along d t → along d t + total_of d l < 2 ^ 63 →
  along d (foldl (λ t raw, add_requests t (containerRequests raw)) t l) = along d t + total_of d l.
Proof.
  intros Hn. revert t. induction Hn as [|raw l Hr Hl IH]; intros t Ht Hb; [simpl; lia|].
  cbn beta in Hr. cbn [foldl]. rewrite total_of_cons in *. pose proof (total_of_nonneg d l Hl).
  assert (along d (add_requests t (containerRequests raw)) = along d t + asks d raw) as Ha
    by (rewrite along_add; apply wrap64_small; unfold asks in *; split; lia).
  rewrite IH; rewrite Ha; lia.
Qed.
Lemma largest_of_nonneg d l : 0 <= largest_of d l.
Proof. induction l; simpl; lia. Qed.
Lemma inits_total d l t m n :
  non_negative d l → 0 <= along d t → 0 <= along d m → along d t + total_of d (sidecars l) < 2 ^ 63 →
  let r := foldl init_step (t, m, n) l in
  along d r.1.1 = along d t + total_of d (sidecars l) ∧
  along d r.1.2 = Z.max (along d m) (largest_of d (run_first l)) ∧
  r.2 = n + Z.of_nat (length (sidecars l)).
Proof.
  intros Hn. revert t m n. induction Hn as [|raw l Hr Hl IH]; intros t m n Ht Hm Hb; [simpl; lia|].
  cbn beta in Hr. cbn [foldl init_step]. unfold sidecars, run_first in *. cbn [List.filter] in *.
  pose proof (total_of_nonneg d _ (non_negative_filter d isNativeSidecar l Hl)).
  destruct (isNativeSidecar raw); cbn [negb length] in *; rewrite ?total_of_cons, ?largest_of_cons in *.
  - assert (along d (add_requests t (containerRequests raw)) = along d t + asks d raw) as Ha
      by (rewrite along_add; apply wrap64_small; unfold asks in *; split; lia).
    destruct (IH (add_requests t (containerRequests raw)) m (n + 1)) as (-> & -> & ->); [lia..|]. rewrite Ha. lia.
  - destruct (IH t (max_requests m (containerRequests raw)) n) as (-> & -> & ->); [done|rewrite along_max; lia|lia|].
    rewrite along_max. unfold asks. lia.
Qed.

(** The request computed is the larger of what runs together and of the
    largest container that runs before. *)
Lemma pod_requests_spec d containers inits :
  non_negative d containers → non_negative d inits →
  total_of d containers + total_of d (sidecars inits) < 2 ^ 63 →
  let r := pod_requests containers inits in
  along d r.1 = Z.max (total_of d containers + total_of d (sidecars inits)) (largest_of d (run_first inits)) ∧
  r.2 = Z.of_nat (length containers + length (sidecars inits)).
Proof.
  intros Hc Hi Hb. unfold pod_requests. pose proof (total_of_nonneg d containers Hc).
  pose proof (total_of_nonneg d _ (non_negative_filter d isNativeSidecar inits Hi)) as Hs. fold (sidecars inits) in Hs.
  assert (along d no_resources = 0) as H0 by by destruct d.
  assert (along d (foldl (λ t raw, add_requests t (containerRequests raw)) no_resources containers) = total_of d containers) as Ht
    by (rewrite containers_total; lia || done).
  destruct (inits_total d inits (foldl (λ t raw, add_requests t (containerRequests raw)) no_resources containers)
    no_resources (Z.of_nat (length containers))) as (H1 & H2 & H3); [done|lia..|].
  destruct (foldl init_step _ inits) as [[total maxInit] count]. cbn [fst snd] in *.
  rewrite along_max, H1, H2, H3, Ht. pose proof (largest_of_nonneg d (run_first inits)). lia.
Qed.

Lemma starting_lower d running inits :
  non_negative d inits → 0 <= running → largest_of d (run_first inits) <= starting d running inits.
Proof.
  intros Hn. revert running. induction Hn as [|raw l Hr Hl IH]; intros running Hrun; [done|].
  cbn beta in Hr. unfold run_first. cbn [List.filter starting]. destruct (isNativeSidecar raw); cbn [negb].
  - apply IH. lia.
  - rewrite largest_of_cons. specialize (IH running Hrun). unfold run_first in *. lia.
Qed.
Lemma starting_ordered d first late :
  Forall (λ raw, isNativeSidecar raw = false) first → Forall (λ raw, isNativeSidecar raw = true) late →
  starting d 0 (first ++ late)%list = largest_of d (run_first (first ++ late)).
Proof.
  intros Hf Hl. unfold run_first. induction Hf as [|raw first Hr Hf IH]; cbn [app List.filter starting].
  - assert (∀ running, starting d running late = 0) as ->.
    { induction Hl as [|raw late Hr _ IH]; intros running; simpl; [done|by rewrite Hr]. }
    induction Hl as [|raw late Hr _ IH]; simpl; [done|by rewrite Hr].
  - rewrite Hr. cbn [negb]. by rewrite largest_of_cons, IH.
Qed.
End PodRequests.

(** *** Capacity *)
Lemma anyNodeFits_spec podReq nodes :
  anyNodeFits podReq nodes = true ↔
  ∃ n, n ∈ nodes ∧ cpuMillis podReq <= cpuMillis n ∧ memoryBytes podReq <= memoryBytes n.
Proof.
  unfold anyNodeFits. rewrite existsb_exists. setoid_rewrite andb_true_iff. setoid_rewrite Z.leb_le.
  setoid_rewrite <-list_elem_of_In. done.
Qed.

(** *** Fenceposts *)
Definition percents : list Z := map Z.of_nat (seq 0 101).
Definition fencepost_agrees `{GoNumbers, FloatNotations} (p r : Z) : bool :=
  Bool.eqb (resolveFencepost (JStr (itoa p +:+ "%")) r "25%" floor_div =? 0) (p * r <? 100).
Lemma fenceposts_agree `{GN : GoNumbers, FN : FloatNotations} :
  forallb (λ p, forallb (λ n, fencepost_agrees p (Z.of_nat n)) (seq 1 100)) percents = true.
Proof. vm_compute. reflexivity. Qed.
Lemma fencepost_percent `{GN : GoNumbers, FN : FloatNotations} p r :
  0 <= p <= 100 → 1 <= r <= 100 → resolveFencepost (JStr (itoa p +:+ "%")) r "25%" floor_div = 0 ↔ p * r < 100.
Proof.
  intros Hp Hr. pose proof fenceposts_agree as Ha. rewrite forallb_forall in Ha.
  specialize (Ha p). rewrite forallb_forall in Ha.
  assert (fencepost_agrees p r = true) as Hb.
  { rewrite <-(Z2Nat.id r) by lia. apply Ha; apply list_elem_of_In.
    - apply list_elem_of_fmap. exists (Z.to_nat p). split; [lia|]. apply elem_of_seq. lia.
    - apply elem_of_seq. lia. }
  unfold fencepost_agrees in Hb. apply Bool.eqb_prop in Hb. rewrite <-Z.eqb_eq, Hb. apply Z.ltb_lt.
Qed.

(** ** Concrete libraries and a cluster *)
Module DashboardRun.
(** Quantities that are whole numbers of units. *)
#[export] Instance quantities : Quantities := {|
  Quantity := Z;
  ParseQuantity s := if digits_plus s then Some (decimal 0 s) else None;
  NewQuantity n := n; MilliValue q := 1000 * q; QuantityValue q := q |}.
#[export] Instance numbers : GoNumbers := λ _, GoInt64.
#[export] Instance notations : FloatNotations := λ _, None.
Definition ctr (cpu : string) (policy : string) : json :=
  JObj [("restartPolicy", JStr policy); ("resources", JObj [("requests", JObj [("cpu", JStr cpu)])])].
Definition deployment (fields : list (string * json)) (init : list json) : json :=
  JObj [("spec", JObj ([("replicas", JNum 2);
    ("template", JObj [("spec", JObj [("containers", JArr [ctr "2" ""]); ("initContainers", JArr init)])])] ++ fields)%list)].
Definition serving (deploy : json) : ApiServer := {|
  srv_list _ _ _ := Ok ([], ""); srv_get _ _ _ := Ok deploy; srv_discovery := None |}.
Definition request : ComponentRequest (SV := VersionRun.semver) :=
  mkComponentRequest (SV := VersionRun.semver) (mkTarget VersionRun.semver None None None false false)
    (New "component" "dashboard" "t" "d") JNull "Managed" "apps".
(** What the client answers to a user who may list nothing. *)
Definition forbidden (rt : ResourceType) (o : ListOptions) : res go_error (list json) := Ok [].
End DashboardRun.
Import (hints) ClientRun VersionRun.

(** ** Properties *)
Module DashboardSpec.
(** The request computed for a pod, in each dimension and while no sum
    overflows an int64: the larger of what its containers and sidecars ask
    together and of its largest ordinary init container.  It never exceeds
    what the scheduler reserves, and is the same when no ordinary init
    container comes after a sidecar. *)
Theorem pod_requests_vs_scheduler `{QT : Quantities, GN : GoNumbers} (d : dimension) (containers inits : list json) :
  non_negative d containers → non_negative d inits →
  total_of d containers + total_of d (sidecars inits) < 2 ^ 63 →
  let '(req, count) := pod_requests containers inits in
  along d req = Z.max (total_of d containers + total_of d (sidecars inits)) (largest_of d (run_first inits)) ∧
  along d req <= scheduler_requests d containers inits ∧
  (∀ first late, inits = (first ++ late)%list → Forall (λ raw, isNativeSidecar raw = false) first →
     Forall (λ raw, isNativeSidecar raw = true) late → along d req = scheduler_requests d containers inits) ∧
  count = Z.of_nat (length containers + length (sidecars inits)).
Proof.
  intros Hc Hi Hb. destruct (pod_requests_spec d containers inits Hc Hi Hb) as [Hr Hn].
  destruct (pod_requests containers inits) as [req count]. cbn [fst snd] in *. split; [done|]. unfold scheduler_requests.
  split; [|split; [|done]].
  - pose proof (starting_lower d 0 inits Hi). lia.
  - intros first late -> Hf Hl. rewrite starting_ordered by done. done.
Qed.

Lemma pod_requests_vs_scheduler_witness :
  let inits := [DashboardRun.ctr "1" "Always"; DashboardRun.ctr "3" ""] in
  let '(req, count) := pod_requests (QT := DashboardRun.quantities) (GN := DashboardRun.numbers) [DashboardRun.ctr "2" ""] inits in
  cpuMillis req = 3000 ∧ count = 2.
Proof.
  pose proof (pod_requests_vs_scheduler (QT := DashboardRun.quantities) (GN := DashboardRun.numbers) CPU [DashboardRun.ctr "2" ""]
    [DashboardRun.ctr "1" "Always"; DashboardRun.ctr "3" ""]) as H.
  destruct H as (H1 & _ & _ & H2); [by repeat constructor|by repeat constructor|done|]. exact (conj H1 H2).
Defined.

(** An ordinary init container after a sidecar: the scheduler reserves 4 CPUs,
    the check asks for 3. *)
Example sidecar_before_init_underestimated :
  let inits := [DashboardRun.ctr "1" "Always"; DashboardRun.ctr "3" ""] in
  scheduler_requests (QT := DashboardRun.quantities) (GN := DashboardRun.numbers) CPU [DashboardRun.ctr "2" ""] inits = 4000.
Proof. reflexivity. Qed.

(** The verdict on capacity: blocking exactly when no node has both the CPU
    and the memory, otherwise an advisory exactly when the cluster is known to
    have no autoscaler. *)
Theorem capacity_verdict `{SV : Semver, AE : ApiErrors, KE : K8sErrors, SRV : ApiServer, JQ : GoJq, CL : Clock, QT : Quantities,
    GN : GoNumbers} ListWith (req : ComponentRequest) lookup nodes autoscaler :
  getRequiredResources ListWith (cr_ApplicationsNamespace req) = Ok lookup → lk_found lookup = true →
  getNodeAllocatable ListWith = Ok nodes → has_autoscaler ListWith = Ok autoscaler →
  ∃ cond, checkCapacity ListWith req = Ok (SetCondition (cr_Result req) cond) ∧
    (c_Impact cond = ImpactBlocking ↔
       ∀ n, n ∈ nodes → cpuMillis n < cpuMillis (lk_resources lookup) ∨ memoryBytes n < memoryBytes (lk_resources lookup)) ∧
    (c_Impact cond = ImpactAdvisory ↔
       autoscaler = Some false ∧ ∃ n, n ∈ nodes ∧ cpuMillis (lk_resources lookup) <= cpuMillis n ∧
         memoryBytes (lk_resources lookup) <= memoryBytes n) ∧
    (c_Status cond = ConditionTrue ↔ c_Impact cond = ImpactNone).
Proof.
  intros Hl Hf Hn Ha. unfold checkCapacity. rewrite Hl. cbn [res_bind]. rewrite Hf, Hn, Ha. cbn [negb res_bind].
  unfold setCapacityCondition. pose proof (anyNodeFits_spec (lk_resources lookup) nodes) as Hfit.
  destruct (anyNodeFits (lk_resources lookup) nodes); cbn [negb].
  - destruct (proj1 Hfit eq_refl) as (n & Hin & Hc & Hm).
    destruct autoscaler as [[|]|]; (eexists; split; [reflexivity|]); cbn; (split; [|split; [naive_solver|done]]);
      (split; [done|]); intros Hall; destruct (Hall n Hin); lia.
  - eexists. split; [reflexivity|]. cbn. split; [|split; [|done]].
    + split; [|done]. intros _ n Hin. destruct (Z.lt_ge_cases (cpuMillis n) (cpuMillis (lk_resources lookup))); [by left|].
      destruct (Z.lt_ge_cases (memoryBytes n) (memoryBytes (lk_resources lookup))); [by right|].
      assert (false = true) by (apply Hfit; eauto). done.
    + split; [done|]. intros [_ Hex]. by apply Hfit in Hex.
Qed.

Lemma capacity_verdict_witness (clock := 0 : Clock) :
  ∃ cond, checkCapacity (SRV := DashboardRun.serving (DashboardRun.deployment [] [])) (QT := DashboardRun.quantities)
      (GN := DashboardRun.numbers) DashboardRun.forbidden DashboardRun.request
      = Ok (SetCondition (cr_Result DashboardRun.request) cond) ∧ c_Impact cond = ImpactBlocking.
Proof.
  destruct (capacity_verdict (SRV := DashboardRun.serving (DashboardRun.deployment [] [])) (QT := DashboardRun.quantities)
    (GN := DashboardRun.numbers) DashboardRun.forbidden DashboardRun.request (mkLookup (mkPod 2000 0) 1 true) [] (Some false))
    as (cond & Hr & Hb & _); [vm_compute; reflexivity|done|done|done|].
  exists cond. split; [exact Hr|]. apply Hb. intros n Hn. by apply not_elem_of_nil in Hn.
Defined.

(** A user who may not list nodes is told that no node is large enough,
    whatever the cluster. *)
Theorem forbidden_nodes_block `{SV : Semver, AE : ApiErrors, KE : K8sErrors, SRV : ApiServer, JQ : GoJq, CL : Clock, QT : Quantities,
    GN : GoNumbers} ListWith (req : ComponentRequest) deploy (spec : json) autoscalers :
  getDashboardDeployment (cr_ApplicationsNamespace req) = Ok (Some deploy) →
  jq_Query JNull "map[string]interface {}" as_map deploy ".spec.template.spec" = Ok spec →
  ListWith Node defaultListOptions = Ok [] → ListWith ClusterAutoscaler defaultListOptions = Ok autoscalers →
  ∃ cond, checkCapacity ListWith req = Ok (SetCondition (cr_Result req) cond) ∧ c_Impact cond = ImpactBlocking.
Proof.
  intros Hd Hs Hn Ha. unfold checkCapacity, getRequiredResources, getDeploymentPodResources, effectivePodRequests.
  rewrite Hd. cbn [res_bind]. rewrite Hs. cbn [res_map_err res_bind lk_found negb].
  unfold getNodeAllocatable, has_autoscaler, ListPlain. rewrite Hn, Ha. cbn.
  eexists. split; [reflexivity|done].
Qed.

Lemma forbidden_nodes_block_witness (clock := 0 : Clock) :
  ∃ cond, checkCapacity (SRV := DashboardRun.serving (DashboardRun.deployment [] [])) (QT := DashboardRun.quantities)
      (GN := DashboardRun.numbers) DashboardRun.forbidden DashboardRun.request
      = Ok (SetCondition (cr_Result DashboardRun.request) cond) ∧ c_Impact cond = ImpactBlocking.
Proof.
  apply (forbidden_nodes_block (SRV := DashboardRun.serving (DashboardRun.deployment [] [])) (QT := DashboardRun.quantities)
    (GN := DashboardRun.numbers) DashboardRun.forbidden DashboardRun.request (DashboardRun.deployment [] [])
    (JObj [("containers", JArr [DashboardRun.ctr "2" ""]); ("initContainers", JArr [])]) []); vm_compute; reflexivity.
Defined.

(** The verdict on a rolling update whose maxUnavailable is a percentage, of
    at most a hundred replicas, with a maxSurge that adds pods: the check
    advises exactly when that percentage of the replicas is less than one
    pod, floating point notwithstanding. *)
Theorem rollout_percentage_verdict `{SV : Semver, AE : ApiErrors, KE : K8sErrors, SRV : ApiServer, JQ : GoJq, CL : Clock,
    GN : GoNumbers, FN : FloatNotations} format_value (req : ComponentRequest) deploy p :
  getDashboardDeployment (cr_ApplicationsNamespace req) = Ok (Some deploy) →
  query_string_or deploy ".spec.strategy.type" ≠ "Recreate" →
  1 <= replicas_of deploy <= 100 → 0 <= p <= 100 →
  query_any deploy ".spec.strategy.rollingUpdate.maxUnavailable" = JStr (itoa p +:+ "%") →
  0 < resolveFencepost (query_any deploy ".spec.strategy.rollingUpdate.maxSurge") (replicas_of deploy) defaultMaxSurge ceil_div →
  ∃ cond, checkRolloutStrategy format_value req = Ok (SetCondition (cr_Result req) cond) ∧
    c_Impact cond = (if (2 <=? replicas_of deploy) && (p * replicas_of deploy <? 100) then ImpactAdvisory else ImpactNone) ∧
    (c_Status cond = ConditionTrue ↔ c_Impact cond = ImpactNone).
Proof.
  intros Hd Hst Hr Hp Hmu Hms. unfold checkRolloutStrategy. rewrite Hd. cbn [res_bind].
  rewrite (proj2 (String.eqb_neq _ _) Hst), Hmu. pose proof (fencepost_percent p (replicas_of deploy) Hp Hr) as Hz.
  change "25%" with defaultMaxUnavailable in Hz.
  destruct (Z.ltb_spec (replicas_of deploy) 2).
  { rewrite (proj2 (Z.leb_gt _ _)) by lia. eexists. split; [reflexivity|done]. }
  rewrite (proj2 (Z.leb_le 2 _)) by lia. rewrite (proj2 (Z.ltb_lt _ _) Hms), andb_true_r. cbn [andb].
  destruct (Z.ltb_spec (p * replicas_of deploy) 100) as [Hlt|Hge].
  - rewrite (proj2 Hz Hlt). eexists. split; [reflexivity|done].
  - rewrite (proj2 (Z.eqb_neq _ _)) by (rewrite Hz; lia). eexists. split; [reflexivity|done].
Qed.

Lemma rollout_percentage_verdict_witness (clock := 0 : Clock) :
  let deploy := DashboardRun.deployment [("strategy", JObj [("rollingUpdate", JObj [("maxUnavailable", JStr "40%")])])] [] in
  ∃ cond, checkRolloutStrategy (SRV := DashboardRun.serving deploy) (GN := DashboardRun.numbers) (FN := DashboardRun.notations)
      (λ _, "") DashboardRun.request = Ok (SetCondition (cr_Result DashboardRun.request) cond) ∧ c_Impact cond = ImpactAdvisory.
Proof.
  intros deploy. destruct (rollout_percentage_verdict (SRV := DashboardRun.serving deploy) (GN := DashboardRun.numbers)
    (FN := DashboardRun.notations) (λ _, "") DashboardRun.request deploy 40) as (cond & Hr & Hi & _);
    [reflexivity|vm_compute; discriminate|vm_compute; split; discriminate|lia|reflexivity|vm_compute; reflexivity|].
  exists cond. exact (conj Hr Hi).
Defined.

(** A maxUnavailable written as an integer is not seen when the query answers
    it in another type than float64: it counts as one, and a rollout with
    maxUnavailable 0 is never advised against. *)
Theorem integer_fencepost_ignored `{SV : Semver, AE : ApiErrors, KE : K8sErrors, SRV : ApiServer, JQ : GoJq, CL : Clock,
    GN : GoNumbers, FN : FloatNotations} format_value (req : ComponentRequest) deploy n :
  getDashboardDeployment (cr_ApplicationsNamespace req) = Ok (Some deploy) → number_type n ≠ GoFloat64 →
  query_any deploy ".spec.strategy.rollingUpdate.maxUnavailable" = JNum n →
  ∃ cond, checkRolloutStrategy format_value req = Ok (SetCondition (cr_Result req) cond) ∧ c_Status cond = ConditionTrue.
Proof.
  intros Hd Hn Hmu. unfold checkRolloutStrategy. rewrite Hd. cbn [res_bind]. rewrite Hmu. cbn [resolveFencepost].
  destruct (String.eqb _ _); [eexists; split; reflexivity|].
  destruct (replicas_of deploy <? 2); [eexists; split; reflexivity|].
  destruct (number_type n); [eexists; split; reflexivity|by destruct Hn|eexists; split; reflexivity].
Qed.

Lemma integer_fencepost_ignored_witness (clock := 0 : Clock) :
  let deploy := DashboardRun.deployment [("strategy", JObj [("rollingUpdate", JObj [("maxUnavailable", JNum 0)])])] [] in
  ∃ cond, checkRolloutStrategy (SRV := DashboardRun.serving deploy) (GN := DashboardRun.numbers) (FN := DashboardRun.notations)
      (λ _, "") DashboardRun.request = Ok (SetCondition (cr_Result DashboardRun.request) cond) ∧ c_Status cond = ConditionTrue.
Proof.
  intros deploy. apply (integer_fencepost_ignored (SRV := DashboardRun.serving deploy) (GN := DashboardRun.numbers)
    (FN := DashboardRun.notations) (λ _, "") DashboardRun.request deploy 0); [reflexivity|done|reflexivity].
Defined.

(** 28% of 25 replicas are 7 pods; the ceiling of the floating-point product
    is 8. *)
Example surge_rounding_error `{GoNumbers} :
  resolveFencepost (FN := DashboardRun.notations) (JStr "28%") 25 defaultMaxSurge ceil_div = 8.
Proof. by vm_compute. Qed.
End DashboardSpec.
