(* ===== verification/DependencyChecks.v ===== *)
(** * DependencyChecks: pkg/lint/checks/dependencies

    The checks of what the platform depends on: cert-manager and the version
    of OpenShift, Service Mesh v3 in the catalog of the cluster and its
    installed version, what Service Mesh v2 leaves behind, and the service
    mesh and serverless resources shared with other workloads.

    A subscription of OLM is the part the checks read; [semver.Version]
    literals are a parameter, like the rest of the version library. *)
From S2P Require Import Prelude GoStrings Errors Client Version Result Check Validate CheckKit DepsCheck BackupDeps WorkloadHelpers.
From S2P Require Import NotebookChecks KueueIntegrity ComponentChecks DashboardChecks.
Open Scope string_scope.
Open Scope Z_scope.
Open Scope go_scope.

(** ** Constants and resource types *)
Definition CheckTypeInstalled := "installed".
Definition CheckTypeReadiness := "readiness".
Definition ReasonDependencyUnavailable := "DependencyUnavailable".
Definition ReasonCheckSkipped := "CheckSkipped".

Definition ServiceMeshControlPlane : ResourceType :=
  mkResourceType "maistra.io" "v2" "ServiceMeshControlPlane" "servicemeshcontrolplanes".
Definition ServiceMeshMemberRoll : ResourceType :=
  mkResourceType "maistra.io" "v1" "ServiceMeshMemberRoll" "servicemeshmemberrolls".
Definition ServiceMeshMember : ResourceType := mkResourceType "maistra.io" "v1" "ServiceMeshMember" "servicemeshmembers".
Definition KnativeService : ResourceType := mkResourceType "serving.knative.dev" "v1" "Service" "services".
Definition KnativeServing : ResourceType :=
  mkResourceType "operator.knative.dev" "v1beta1" "KnativeServing" "knativeservings".
Definition KnativeEventing : ResourceType :=
  mkResourceType "operator.knative.dev" "v1beta1" "KnativeEventing" "knativeeventings".
Definition PackageManifest : ResourceType :=
  mkResourceType "packages.operators.coreos.com" "v1" "PackageManifest" "packagemanifests".

(** ** The libraries *)
(** [semver.Version{Major: a, Minor: b, Patch: c}] *)
Class SemverLiteral `{SV : Semver} := semver_literal : Z → Z → Z → Version.
(** The comparison of the library. *)
Definition v_GTE `{Semver} (a b : Version) : bool := negb (v_LT a b).

(** A subscription: name, spec (which may be nil), installed CSV. *)
Record SubscriptionItemSpec := mkItemSpec { is_Package : string; is_Channel : string; is_StartingCSV : string }.
Record SubscriptionItem := mkItem { si_Name : string; si_Spec : option SubscriptionItemSpec; si_InstalledCSV : string }.
(** The part of it the operator builder reads. *)
Definition operator_view (sub : SubscriptionItem) : Subscription :=
  mkSubscription (si_Name sub) (is_Channel <$> si_Spec sub) (si_InstalledCSV sub).

Definition as_strings (v : json) : res go_error (list string) :=
  match v with
  | JArr l =>
      match mapM (λ x, match x with JStr s => Some s | JNull => Some "" | _ => None end) l with
      | Some ss => Ok ss
      | None => Err (EString "json: cannot unmarshal value into Go value of type string")
      end
  | _ => Err (EString "json: cannot unmarshal value into Go value of type []string")
  end.
Definition jq_Query_strings `{GoJq} : json → string → res go_error (list string) := jq_Query [] "[]string" as_strings.

Definition dependency_check `{Semver} (kind checkType id name description remediation : string)
    (can : Target → bool) (validate : Check → Target → res go_error DiagnosticResult) : Check :=
  embed (mkBaseCheck GroupDependency kind checkType id name description remediation) (λ target, Ok (can target))
    (λ c target, some_result (validate c target)).

Section Dependencies.
Context `{SV : Semver, AE : ApiErrors, KE : K8sErrors, SRV : ApiServer, JQ : GoJq, CL : Clock, SS : SortSlice, SL : !SemverLiteral}.
Context (ListWith : ResourceType → ListOptions → res go_error (list json)).
(** OLM: whether its client is there, and the subscriptions of all namespaces. *)
Context (olmAvailable : bool) (subscriptions : res go_error (list SubscriptionItem)).
Notation ListPlain := (ListPlain ListWith).

(** ** shared/shared.go *)
(** [client.List] with a filter. *)
Definition list_filtered (rt : ResourceType) (keep : json → bool) : res go_error (list json) :=
  client_List rt (rt_Kind rt) (ListPlain rt) (Some (λ item, Ok (keep item))).

Definition RHOAIManagedNamespaces (wellKnown : list string) : res go_error (list string) :=
  match GetDSCINamespaces ListPlain with
  | Panic s => Panic s
  | Err _ => Ok wellKnown
  | Ok dsciNS =>
      let add ns := if String.eqb ns "" then [] else [ns] in
      Ok (wellKnown ++ add (dn_Applications dsciNS) ++ add (dn_Monitoring dsciNS))%list
  end.
Definition CollectNamespaces (resourceSlices : list (list json)) : list string :=
  sets_List (list_to_set (map GetNamespace (List.concat resourceSlices))).
Record ImpactedEntry := mkEntry { ie_ResourceType : ResourceType; ie_Items : list json }.
Definition AddAllImpactedObjects (dr : DiagnosticResult) (entries : list ImpactedEntry) : DiagnosticResult :=
  foldl (λ dr e, match ie_Items e with
                 | [] => dr
                 | items => AddImpactedObjects dr (ie_ResourceType e) (ToNamespacedNames items)
                 end) dr entries.
Definition IsNonRHOAIFilter (managedNamespaces : list string) (item : json) : bool :=
  negb (contains_str managedNamespaces (GetNamespace item)).

(** ** sharedossm/sharedossm.go, sharedserverless/sharedserverless.go: the
    same function over other types and texts *)
Record shared_texts := mkShared { sh_none : string; sh_what : string; sh_remediation : string }.
Definition shared_message (what : string) (totalCount : Z) (namespaces : list string) : string :=
  "Found " +:+ itoa totalCount +:+ " " +:+ what +:+ " resource(s) outside RHOAI-managed namespaces in: " +:+
  join ", " namespaces +:+ ". These may be impacted by the RHOAI migration".
Definition shared_report (texts : shared_texts) (dr : DiagnosticResult) (entries : list ImpactedEntry)
    : res go_error DiagnosticResult :=
  let items := List.concat (map ie_Items entries) in
  if (length items =? 0)%nat then
    set_new dr ConditionTypeValidated ConditionTrue [WithReason ReasonRequirementsMet; WithMessage (sh_none texts)]
  else
    let! dr := set_new dr ConditionTypeValidated ConditionFalse
      [WithReason ReasonWorkloadsImpacted;
       WithMessage (shared_message (sh_what texts) (Z.of_nat (length items)) (CollectNamespaces (map ie_Items entries)));
       WithRemediation (sh_remediation texts)] in
    Ok (AddAllImpactedObjects dr entries).
Definition shared_Validate (texts : shared_texts) (managed : list string) (rt1 rt2 rt3 : ResourceType * string)
    (c : Check) (target : Target) : res go_error DiagnosticResult :=
  let! rhoaiNS := RHOAIManagedNamespaces managed in
  try! l1 := list_filtered rt1.1 (IsNonRHOAIFilter rhoaiNS) else errorf_w ("listing " +:+ rt1.2) in
  try! l2 := list_filtered rt2.1 (IsNonRHOAIFilter rhoaiNS) else errorf_w ("listing " +:+ rt2.2) in
  try! l3 := list_filtered rt3.1 (IsNonRHOAIFilter rhoaiNS) else errorf_w ("listing " +:+ rt3.2) in
  shared_report texts (NewResult c) [mkEntry rt1.1 l1; mkEntry rt2.1 l2; mkEntry rt3.1 l3].

Definition sharedossm_managed := ["istio-system"; "openshift-operators"].
Definition sharedossm_remediation :=
  "Review the identified Service Mesh resources before migration. Non-AI workloads sharing OSSM may be impacted by the RHOAI 2.x to 3.x migration.".
Definition sharedossm_Validate : Check → Target → res go_error DiagnosticResult :=
  shared_Validate
    (mkShared "No shared OSSM resources detected outside RHOAI-managed namespaces" "OSSM" sharedossm_remediation)
    sharedossm_managed (ServiceMeshControlPlane, "ServiceMeshControlPlanes") (ServiceMeshMemberRoll, "ServiceMeshMemberRolls")
    (ServiceMeshMember, "ServiceMeshMembers").
Definition NewSharedOSSMCheck : Check :=
  dependency_check "shared-ossm" "shared-usage" "dependencies.shared-ossm.shared-usage"
    "Dependencies :: Shared OSSM :: Shared Usage Detection"
    "Detects OpenShift Service Mesh resources shared between RHOAI and non-AI workloads"
    sharedossm_remediation from_2x_to_3x sharedossm_Validate.

Definition sharedserverless_managed :=
  ["istio-system"; "knative-serving"; "knative-eventing"; "openshift-serverless"; "openshift-operators"].
Definition sharedserverless_remediation :=
  "Review the identified Knative/Serverless resources before migration. Non-AI workloads using OpenShift Serverless may be impacted by the RHOAI 2.x to 3.x migration.".
Definition sharedserverless_Validate : Check → Target → res go_error DiagnosticResult :=
  shared_Validate
    (mkShared "No shared Serverless resources detected outside RHOAI-managed namespaces" "Serverless" sharedserverless_remediation)
    sharedserverless_managed (KnativeService, "Knative Services") (KnativeServing, "KnativeServings")
    (KnativeEventing, "KnativeEventings").
Definition NewSharedServerlessCheck : Check :=
  dependency_check "shared-serverless" "shared-usage" "dependencies.shared-serverless.shared-usage"
    "Dependencies :: Shared Serverless :: Shared Usage Detection"
    "Detects Knative/Serverless resources shared between RHOAI and non-AI workloads"
    sharedserverless_remediation from_2x_to_3x sharedserverless_Validate.

(** ** certmanager/certmanager.go *)
Definition certmanager_displayName := "cert-manager Operator for Red Hat OpenShift".
Definition certmanager_condition : ConditionBuilder := λ found version,
  if negb found then
    NewCondition ConditionTypeAvailable ConditionFalse
      [WithReason ReasonResourceNotFound; WithMessage (certmanager_displayName +:+ " is not installed"); WithImpact ImpactBlocking]
  else
    NewCondition ConditionTypeAvailable ConditionTrue
      [WithReason ReasonResourceFound; WithMessage (certmanager_displayName +:+ " installed: " +:+ version)].
Definition certmanager_Validate (c : Check) (target : Target) : res go_error DiagnosticResult :=
  Operator_Run olmAvailable (let! items := subscriptions in Ok (map operator_view items))
    (mkOperatorBuilder c target ["cert-manager"; "openshift-cert-manager-operator"] [] certmanager_condition).
Definition NewCertManagerCheck : Check :=
  dependency_check "cert-manager" CheckTypeInstalled "dependencies.certmanager.installed"
    "Dependencies :: cert-manager :: Installed"
    "Reports the cert-manager operator installation status and version" "" (λ _, true) certmanager_Validate.

(** ** openshift/openshift.go *)
(** [semver.MustParse("4.19.9")], evaluated when the program starts. *)
Context (minVersion : Version).
Definition openshift_CanApply (target : Target) : bool :=
  IsVersion3x (t_CurrentVersion target) || IsVersion3x (t_TargetVersion target).
Definition openshift_Validate (c : Check) (target : Target) : res go_error DiagnosticResult :=
  let dr := NewResult c in
  let tv := MajorMinorLabel (t_TargetVersion target) in
  let rejected reason message :=
    set_new dr ConditionTypeCompatible ConditionFalse [WithReason reason; WithMessage message; WithImpact ImpactBlocking] in
  match DetectOpenShiftVersion false with
  | Panic s => Panic s
  | Err err =>
      rejected ReasonInsufficientData
        ("Unable to detect OpenShift version: " +:+ error_string err +:+ ". RHOAI " +:+ tv +:+ " requires OpenShift " +:+
         v_String minVersion +:+ " or later")
  | Ok ver =>
      if v_GTE ver minVersion then
        set_new dr ConditionTypeCompatible ConditionTrue
          [WithReason ReasonVersionCompatible;
           WithMessage ("OpenShift " +:+ v_String ver +:+ " meets RHOAI " +:+ tv +:+ " minimum version requirement (" +:+
             v_String minVersion +:+ "+)")]
      else
        rejected ReasonVersionIncompatible
          ("OpenShift " +:+ v_String ver +:+ " does not meet RHOAI " +:+ tv +:+ " minimum version requirement (" +:+
           v_String minVersion +:+ "+). Upgrade OpenShift to " +:+ v_String minVersion +:+ " or later before upgrading RHOAI")
  end.
Definition NewOpenShiftCheck : Check :=
  dependency_check "openshift-platform" "version-requirement" "dependencies.openshift.version-requirement"
    "Dependencies :: OpenShift :: Version Requirement (3.x)"
    "Validates that OpenShift is at least version 4.19.9 when upgrading to RHOAI 3.x" "" openshift_CanApply openshift_Validate.

(** ** orphanedcrds/orphanedcrds.go *)
Definition labelMaistraVersion := "maistra-version".
Definition crdSuffixIstio := ".istio.io".
Definition packageSM2Operator := "servicemeshoperator".
Definition remediationOrphaned :=
  "Delete the orphaned CRDs before upgrading: oc get crd -l maistra-version -o name | grep -E '\.istio\.io$' | xargs oc delete crd".
Definition remediationActiveResources :=
  "Review and remove active custom resources before deleting the orphaned CRDs. Run: for crd in $(oc get crd -l maistra-version -o custom-columns=NAME:.metadata.name --no-headers | grep -E '\.istio\.io$'); do echo " +:+
  dquote +:+ "$crd: $(oc get $crd -A --no-headers 2>/dev/null | wc -l) instances" +:+ dquote +:+ "; done".
Definition remediationInspectionFailed :=
  "Verify RBAC permissions allow listing custom resources, then re-run the check. Do not delete CRDs until active resource count is confirmed to be zero".

Definition filterIstioCRDs (crds : list json) : list json :=
  List.filter (λ crd, has_suffix crdSuffixIstio (GetName crd)) crds.
Definition is_sm2 (sub : SubscriptionItem) : bool :=
  match si_Spec sub with Some spec => String.eqb (is_Package spec) packageSM2Operator | None => false end.
Definition isSM2OperatorInstalled : res go_error bool :=
  if negb olmAvailable then Ok false
  else
    try! items := subscriptions else errorf_w "listing subscriptions" in
    Ok (existsb is_sm2 items).

Definition served_version_query := "[.spec.versions[]? | select(.served == true) | .name] | first".
(** The type to list; its kind is not known. *)
Definition extractGVR (crd : json) : option ResourceType :=
  match jq_Query_string crd ".spec.group", jq_Query_string crd ".spec.names.plural", jq_Query_string crd served_version_query with
  | Ok group, Ok resource, Ok ver => if String.eqb ver "" then None else Some (mkResourceType group ver "" resource)
  | _, _, _ => None
  end.
Fixpoint countActiveResources (total : Z) (crds : list json) : res go_error Z :=
  match crds with
  | [] => Ok total
  | crd :: rest =>
      match extractGVR crd with
      | None => countActiveResources total rest
      | Some gvr =>
          try! items := ListPlain gvr else errorf_w ("listing resources for CRD " +:+ quote (GetName crd)) in
          countActiveResources (total + Z.of_nat (length items)) rest
      end
  end.
Definition collectCRDNames (crds : list json) : list string := map GetName crds.
Definition populate_orphaned (dr : DiagnosticResult) (crds : list json) : DiagnosticResult :=
  AddAllImpactedObjects dr [mkEntry CustomResourceDefinition crds].

Definition found_orphaned (crds : list json) : string :=
  "Found " +:+ itoa (Z.of_nat (length crds)) +:+ " orphaned *.istio.io CRD(s) from Service Mesh v2".
(** The verdict once the CRDs are known to be orphaned. *)
Definition orphaned_verdict (dr : DiagnosticResult) (crds : list json) : res go_error DiagnosticResult :=
  let report status reason message remediation :=
    let! dr := set_new dr ConditionTypeAvailable status
      [WithReason reason; WithMessage message; WithRemediation remediation; WithImpact ImpactBlocking] in
    Ok (populate_orphaned dr crds) in
  match countActiveResources 0 crds with
  | Panic s => Panic s
  | Err err =>
      report ConditionUnknown ReasonInsufficientData
        (found_orphaned crds +:+ " but unable to verify whether active custom resources exist: " +:+ error_string err +:+
         ". Manual inspection required before deletion") remediationInspectionFailed
  | Ok activeCount =>
      if 0 <? activeCount then
        report ConditionFalse ReasonDependencyUnavailable
          (found_orphaned crds +:+ " with " +:+ itoa activeCount +:+
           " active custom resource instance(s) across them. Manual review required before deletion") remediationActiveResources
      else
        report ConditionFalse ReasonDependencyUnavailable
          (found_orphaned crds +:+ " (label " +:+ quote labelMaistraVersion +:+ "): " +:+ join ", " (collectCRDNames crds) +:+
           ". These stale CRDs block the Data Science Gateway post-upgrade") remediationOrphaned
  end.
Definition orphanedcrds_Validate (c : Check) (target : Target) : res go_error DiagnosticResult :=
  let dr := NewResult c in
  let ok message := set_new dr ConditionTypeAvailable ConditionTrue [WithReason ReasonRequirementsMet; WithMessage message] in
  try! crds := ListWith CustomResourceDefinition (labeled_in "" labelMaistraVersion)
    else errorf_w ("listing CRDs with label " +:+ quote labelMaistraVersion) in
  match filterIstioCRDs crds with
  | [] => ok "No orphaned Service Mesh v2 *.istio.io CRDs detected"
  | istioCRDs =>
      try! sm2Installed := isSM2OperatorInstalled else errorf_w "checking SM2 operator subscription" in
      if (sm2Installed : bool) then
        ok ("Service Mesh v2 operator subscription found; *.istio.io CRDs with label " +:+ quote labelMaistraVersion +:+
            " are managed by the operator, not orphaned")
      else orphaned_verdict dr istioCRDs
  end.
Definition NewOrphanedCRDsCheck : Check :=
  dependency_check "orphaned-sm2-crds" CheckTypeReadiness "dependencies.orphaned-sm2-crds.readiness"
    "Dependencies :: Orphaned SM2 CRDs :: Readiness"
    "Detects orphaned *.istio.io CRDs from Service Mesh v2 that block Data Science Gateway post-upgrade"
    remediationOrphaned from_2x_to_3x orphanedcrds_Validate.

(** ** ossm34/ossm34.go *)
Definition subscriptionName := "servicemeshoperator3".
Definition csvPrefix := "servicemeshoperator3.v".
Definition minAffectedVersion : Version := semver_literal 3 4 0.
Definition minFixedOCPVersion : Version := semver_literal 4 21 22.
Definition ossm34_remediation :=
  "Do not approve servicemeshoperator3 InstallPlans beyond v3.3.x on OCP 4.19-4.21. Upgrade to OpenShift Container Platform 4.21.22 or higher to resolve via the Sail Library (no OLM dependency). See https://access.redhat.com/solutions/7145505 for details.".
Definition findSubscription (items : list SubscriptionItem) : option SubscriptionItem :=
  find (λ sub, String.eqb (si_Name sub) subscriptionName) items.
Definition buildDriftMessage (installedVersion : Version) (installedCSV startingCSV : string) : string :=
  "servicemeshoperator3 is installed at " +:+ v_String installedVersion +:+ " (CSV: " +:+ installedCSV +:+
  "), which is affected by a known issue: OSSM v3.4.0+ rejects Istio v1.26.2 as end-of-life on OCP 4.19-4.21, causing GatewayConfig to get stuck NotReady" +:+
  (if negb (String.eqb startingCSV "") && negb (String.eqb startingCSV installedCSV)
   then ". Subscription has drifted from pinned version " +:+ startingCSV else "").
Definition parseCSVVersion (csv : string) : res go_error Version :=
  let versionStr := trim_prefix csvPrefix csv in
  if String.eqb versionStr csv
  then Err (EString ("CSV " +:+ quote csv +:+ " does not start with expected prefix " +:+ quote csvPrefix))
  else res_map_err (errorf_w ("parsing version " +:+ quote versionStr)) (semver_Parse versionStr).

(** The verdict on an affected version. *)
Definition affected_verdict (dr : DiagnosticResult) (sub : SubscriptionItem) (installed : Version) : res go_error DiagnosticResult :=
  let blocked :=
    set_new dr ConditionTypeCompatible ConditionFalse
      [WithReason ReasonVersionIncompatible;
       WithMessage (buildDriftMessage installed (si_InstalledCSV sub)
         (match si_Spec sub with Some spec => is_StartingCSV spec | None => "" end));
       WithRemediation ossm34_remediation; WithImpact ImpactBlocking] in
  match DetectOpenShiftVersion false with
  | Panic s => Panic s
  | Err _ => blocked
  | Ok ocpVersion =>
      if v_GTE ocpVersion minFixedOCPVersion then
        set_new dr ConditionTypeCompatible ConditionTrue
          [WithReason ReasonVersionCompatible;
           WithMessage ("servicemeshoperator3 is at " +:+ v_String installed +:+ " (affected), but OCP " +:+ v_String ocpVersion +:+
             " includes the fix (Sail Library); no action required")]
      else blocked
  end.
Definition ossm34_Validate (c : Check) (target : Target) : res go_error DiagnosticResult :=
  let dr := NewResult c in
  let ok reason message := set_new dr ConditionTypeCompatible ConditionTrue [WithReason reason; WithMessage message] in
  if negb olmAvailable then ok ReasonCheckSkipped "OLM client not available; skipping OSSM v3 compatibility check"
  else
    try! items := subscriptions else errorf_w "listing subscriptions" in
    match findSubscription items with
    | None => ok ReasonRequirementsMet "servicemeshoperator3 subscription not found; OSSM v3 is not installed via OLM"
    | Some sub =>
        if String.eqb (si_InstalledCSV sub) "" then
          ok ReasonRequirementsMet "servicemeshoperator3 subscription has no installed CSV; operator may be pending installation"
        else
          match parseCSVVersion (si_InstalledCSV sub) with
          | Panic s => Panic s
          | Err err =>
              set_new dr ConditionTypeCompatible ConditionUnknown
                [WithReason ReasonInsufficientData;
                 WithMessage ("Unable to parse version from installed CSV " +:+ quote (si_InstalledCSV sub) +:+ ": " +:+ error_string err)]
          | Ok installed =>
              if v_GTE installed minAffectedVersion then affected_verdict dr sub installed
              else
                ok ReasonVersionCompatible ("servicemeshoperator3 is installed at " +:+ v_String installed +:+
                  ", which is not affected by the OSSM v3.4 compatibility issue")
          end
    end.
Definition NewOSSM34Check : Check :=
  dependency_check "ossm-v3-compatibility" "compatibility" "dependencies.ossm-v3-compatibility.compatibility"
    "Dependencies :: OSSM v3 Compatibility :: Version Compatibility"
    "Detects servicemeshoperator3 subscription drift to v3.4.0+ which causes GatewayConfig failures on unpatched OCP 4.19-4.21"
    ossm34_remediation (λ target, IsVersion3x (t_TargetVersion target)) ossm34_Validate.

(** ** servicemesh/servicemesh.go *)
Definition servicemesh_displayName := "Red Hat Service Mesh v3".
Definition mirror_remediation (csv channel : string) : string :=
  "Mirror " +:+ csv +:+ " into the '" +:+ channel +:+
  "' channel of the redhat-operators catalog source in the openshift-marketplace namespace. See the pre-requisite instructions in the RHOAI 2.x to 3.x upgrade guide.".
Definition available (dr : DiagnosticResult) (reason message : string) : res go_error DiagnosticResult :=
  set_new dr ConditionTypeAvailable ConditionTrue [WithReason reason; WithMessage message].
Definition not_available (dr : DiagnosticResult) (reason message remediation : string) (impact : Impact)
    : res go_error DiagnosticResult :=
  set_new dr ConditionTypeAvailable ConditionFalse
    [WithReason reason; WithMessage message; WithRemediation remediation; WithImpact impact].

Definition env_query (envName : string) : string :=
  "[.spec.template.spec.containers[].env[]? | select(.name == " +:+ dquote +:+ envName +:+ dquote +:+ ") | .value] | first".
(** The value, or the result to return at once. *)
Definition extractEnvVar (deploy : json) (dr : DiagnosticResult) (envName : string) : res go_error (string + DiagnosticResult) :=
  let missing what has :=
    let! dr := not_available dr ReasonDependencyUnavailable
      (envName +:+ " env var " +:+ what +:+ " on ingress-operator deployment")
      ("Verify the ingress-operator deployment in the openshift-ingress-operator namespace has " +:+ has +:+ " " +:+ envName +:+
       " environment variable.") ImpactBlocking in
    Ok (inr dr) in
  on_query (jq_Query_string deploy (env_query envName)) ("querying " +:+ envName) (missing "not found" "the")
    (λ value, if String.eqb value "" then missing "is empty" "a non-empty" else Ok (inl value)).

Definition isNoOLMMode : res go_error bool :=
  if negb olmAvailable then Ok true
  else match subscriptions with
       | Panic s => Panic s
       | Err _ => Ok false
       | Ok items => Ok (match findSubscription items with Some _ => false | None => true end)
       end.
Definition is_catalog_entry (pm : json) : bool :=
  String.eqb (GetName pm) "servicemeshoperator3" && String.eqb (GetNamespace pm) "openshift-marketplace" &&
  match jq_Query_string pm ".status.catalogSource" with
  | Ok catalogSource => String.eqb catalogSource "redhat-operators"
  | _ => false
  end.
Definition channel_query (channel : string) : string :=
  "[.status.channels[]? | select(.name == " +:+ dquote +:+ channel +:+ dquote +:+ ") | .entries[]?.name]".
Definition validateCatalogCSV (dr : DiagnosticResult) (requiredCSV requiredChannel displayVersion : string)
    : res go_error DiagnosticResult :=
  try! manifests := list_filtered PackageManifest is_catalog_entry else errorf_w "listing PackageManifests" in
  match manifests with
  | [] =>
      not_available dr ReasonResourceNotFound
        ("servicemeshoperator3 PackageManifest not found in redhat-operators catalog (required: " +:+ requiredCSV +:+ " in '" +:+
         requiredChannel +:+ "' channel)") (mirror_remediation requiredCSV requiredChannel) ImpactBlocking
  | pm :: _ =>
      try! availableCSVs := jq_Query_strings pm (channel_query requiredChannel) else errorf_w "querying available CSVs" in
      if contains_str availableCSVs requiredCSV then
        available dr ReasonResourceFound
          (servicemesh_displayName +:+ " (" +:+ requiredCSV +:+ ") is available in the '" +:+ requiredChannel +:+
           "' channel of the 'redhat-operators' cluster catalog")
      else
        not_available dr ReasonDependencyUnavailable
          (servicemesh_displayName +:+ " version " +:+ displayVersion +:+ " is not available in the '" +:+ requiredChannel +:+
           "' channel of the cluster catalog") (mirror_remediation requiredCSV requiredChannel) ImpactBlocking
  end.
(** Steps 2 to 6, on the deployment of the ingress operator. *)
Definition servicemesh_on_deployment (dr : DiagnosticResult) (deploy : json) : res go_error DiagnosticResult :=
  let! noOLM := isNoOLMMode in
  if (noOLM : bool) then
    available dr ReasonRequirementsMet
      ("Gateway API is managed by the Cluster Ingress Operator (noOLM mode); " +:+ subscriptionName +:+ " catalog entry not required")
  else
    let! requiredVersion := extractEnvVar deploy dr "GATEWAY_API_OPERATOR_VERSION" in
    match requiredVersion with
    | inr early => Ok early
    | inl requiredCSV =>
        let! requiredChannel := extractEnvVar deploy dr "GATEWAY_API_OPERATOR_CHANNEL" in
        match requiredChannel with
        | inr early => Ok early
        | inl channel => validateCatalogCSV dr requiredCSV channel (trim_prefix csvPrefix requiredCSV)
        end
    end.
Definition servicemesh_Validate (c : Check) (target : Target) : res go_error DiagnosticResult :=
  let dr := NewResult c in
  match Get Deployment "ingress-operator" "openshift-ingress-operator" with
  | Panic s => Panic s
  | Err err =>
      if IsNotFound err then
        not_available dr ReasonResourceNotFound
          "ingress-operator deployment not found in openshift-ingress-operator namespace; unable to determine required OSSM version (expected on HCP clusters)"
          "If this is a Hosted Control Plane (HCP) cluster, this check can be safely ignored. Otherwise, verify that the openshift-ingress-operator namespace and ingress-operator deployment exist."
          ImpactAdvisory
      else Err (errorf_w "getting ingress-operator deployment" err)
  | Ok None =>
      not_available dr ReasonInsufficientData "Unable to read ingress-operator deployment (insufficient permissions)"
        "Grant read access to deployments in the openshift-ingress-operator namespace." ImpactBlocking
  | Ok (Some deploy) => servicemesh_on_deployment dr deploy
  end.
Definition NewServiceMeshCheck : Check :=
  dependency_check "servicemesh-v3" CheckTypeInstalled "dependencies.servicemesh.installed"
    "Dependencies :: Service Mesh v3 :: Installed"
    "Validates that the required Service Mesh v3 version is available to install from the cluster's operator catalog"
    "" from_2x_to_3x servicemesh_Validate.
End Dependencies.

(** ** Lemmas *)
Section DependencyLemmas.
Context `{SV : Semver, AE : ApiErrors, KE : K8sErrors, SRV : ApiServer, JQ : GoJq, CL : Clock, SS : SortSlice, MO : MapOrder,
  SL : !SemverLiteral}.
Context (ListWith : ResourceType → ListOptions → res go_error (list json)).
Context (olmAvailable : bool) (subscriptions : res go_error (list SubscriptionItem)) (minVersion : Version).

(** *** Every check here only produces results the executor accepts *)
Lemma AddAllImpactedObjects_accepted c dr entries : accepted c dr → accepted c (AddAllImpactedObjects dr entries).
Proof.
  revert dr. induction entries as [|e entries IH]; intros dr Hd; [done|].
  unfold AddAllImpactedObjects in *. cbn [foldl]. apply IH.
  case_match; [done|by apply accepted_AddImpactedObjects].
Qed.
Lemma populate_orphaned_accepted c dr crds : accepted c dr → accepted c (populate_orphaned dr crds).
Proof. apply AddAllImpactedObjects_accepted. Qed.
#[local] Hint Resolve AddAllImpactedObjects_accepted populate_orphaned_accepted : go_accept.

Lemma not_available_accepted c dr reason message remediation impact :
  pending c dr → reason ≠ "" → yields (accepted c) (not_available dr reason message remediation impact).
Proof.
  intros Hp Hr. apply set_new_accepted; [done|]. intros cond Hc. unfold NewCondition in Hc. repeat case_match; try done.
  injection Hc as <-. unfold validateCondition. cbn.
  by rewrite (proj2 (String.eqb_neq _ _) Hr).
Qed.
Lemma extractEnvVar_accepted c deploy dr envName :
  pending c dr → yields (λ r, match r with inl _ => True | inr early => accepted c early end) (extractEnvVar deploy dr envName).
Proof.
  intros Hp. unfold extractEnvVar.
  assert (∀ what has, yields (λ r : string + DiagnosticResult, match r with inl _ => True | inr early => accepted c early end)
    (let! dr := not_available dr ReasonDependencyUnavailable
      (envName +:+ " env var " +:+ what +:+ " on ingress-operator deployment")
      ("Verify the ingress-operator deployment in the openshift-ingress-operator namespace has " +:+ has +:+ " " +:+ envName +:+
       " environment variable.") ImpactBlocking in Ok (inr dr))) as Hmiss.
  { intros what has. eapply yields_step; [by apply not_available_accepted|]. intros early He. by apply yields_Ok. }
  apply on_query_yields; [apply Hmiss|]. intros v. case_match; [apply Hmiss|]. by apply yields_Ok.
Qed.
Lemma servicemesh_accepted c dr deploy :
  pending c dr → yields (accepted c) (servicemesh_on_deployment ListWith olmAvailable subscriptions dr deploy).
Proof.
  intros Hp. unfold servicemesh_on_deployment. apply yields_bind. intros [] _; [by accept|].
  eapply yields_step; [by apply extractEnvVar_accepted|]. intros [csv|early] Hv; [|by apply yields_Ok].
  eapply yields_step; [by apply extractEnvVar_accepted|]. intros [channel|early] Hc; [|by apply yields_Ok].
  unfold validateCatalogCSV. apply yields_bind. intros manifests _.
  destruct manifests; [by apply not_available_accepted|]. apply yields_bind. intros csvs _.
  case_match; [by accept|by apply not_available_accepted].
Qed.

Definition dependency_checks : list Check :=
  [NewCertManagerCheck olmAvailable subscriptions; NewOpenShiftCheck minVersion;
   NewOrphanedCRDsCheck ListWith olmAvailable subscriptions; NewOSSM34Check olmAvailable subscriptions;
   NewServiceMeshCheck ListWith olmAvailable subscriptions; NewSharedOSSMCheck ListWith; NewSharedServerlessCheck ListWith].
Lemma dependency_checks_sound : Forall sound_check dependency_checks.
Proof using MO.
  repeat (apply Forall_cons; split; [apply embed_sound; [done..|]; intros c target; apply some_result_accepted|]);
    [accept| | |accept| | | |by apply Forall_nil].
  - unfold openshift_Validate. repeat case_match; accept.
  - unfold orphanedcrds_Validate. apply yields_bind. intros crds _. case_match; [accept|].
    apply yields_bind. intros [] _; [accept|]. unfold orphaned_verdict. case_match; [case_match; accept|accept|done].
  - unfold servicemesh_Validate. destruct (Get _ _ _) as [[deploy|]|err|s]; [| |case_match; [|done]|done];
      first [by apply servicemesh_accepted, pending_New|by apply not_available_accepted; [apply pending_New|]].
  - unfold sharedossm_Validate, shared_Validate, shared_report. accept.
  - unfold sharedserverless_Validate, shared_Validate, shared_report. accept.
Qed.
End DependencyLemmas.

(** *** Shared resources *)
Section SharedLemmas.
Context `{SV : Semver, AE : ApiErrors, KE : K8sErrors, SRV : ApiServer, JQ : GoJq, CL : Clock, SS : SortSlice}.
Context (ListWith : ResourceType → ListOptions → res go_error (list json)).

Lemma list_filtered_Ok rt keep items :
  ListWith rt defaultListOptions = Ok items → list_filtered ListWith rt keep = Ok (List.filter keep items).
Proof. intros Hl. unfold list_filtered, client_List, ListPlain. rewrite Hl. cbn [res_map_err]. by apply filter_items_total. Qed.

Definition entry_objects (e : ImpactedEntry) : list PartialObjectMetadata :=
  map (impactedObject (ie_ResourceType e)) (ToNamespacedNames (ie_Items e)).
Lemma AddAllImpactedObjects_objects dr entries :
  default [] (r_ImpactedObjects (AddAllImpactedObjects dr entries)) =
  (default [] (r_ImpactedObjects dr) ++ flat_map entry_objects entries)%list.
Proof.
  revert dr. induction entries as [|e entries IH]; intros dr; [by rewrite app_nil_r|].
  unfold AddAllImpactedObjects in *. cbn [foldl flat_map]. rewrite IH. unfold entry_objects at 2.
  case_match eqn:Hi; [done|]. by rewrite (proj2 (AddImpactedObjects_objects _ _ _)), (assoc_L (++)%list).
Qed.
Lemma AddAllImpactedObjects_conditions dr entries : r_Conditions (AddAllImpactedObjects dr entries) = r_Conditions dr.
Proof.
  revert dr. induction entries as [|e entries IH]; intros dr; [done|].
  unfold AddAllImpactedObjects in *. cbn [foldl]. rewrite IH. case_match; [done|apply AddImpactedObjects_objects].
Qed.

(** What the namespaces of the platform are. *)
Lemma RHOAIManagedNamespaces_spec wellKnown :
  (∀ s, GetDSCINamespaces (ListPlain ListWith) ≠ Panic s) →
  ∃ managed, RHOAIManagedNamespaces ListWith wellKnown = Ok managed ∧
    ∀ ns, ns ∈ managed ↔ ns ∈ wellKnown ∨
      ∃ dsciNS, GetDSCINamespaces (ListPlain ListWith) = Ok dsciNS ∧ ns ≠ "" ∧ (ns = dn_Applications dsciNS ∨ ns = dn_Monitoring dsciNS).
Proof.
  intros Hp. unfold RHOAIManagedNamespaces. destruct (GetDSCINamespaces _) as [d|e|s]; [| |by destruct (Hp s)].
  - eexists. split; [reflexivity|]. intros ns. rewrite !elem_of_app.
    assert (∀ x, ns ∈ (if String.eqb x "" then [] else [x]) ↔ ns ≠ "" ∧ ns = x) as Hx.
    { intros x. destruct (String.eqb_spec x "") as [->|Hne]; [set_solver|]. set_solver. }
    rewrite !Hx. naive_solver.
  - exists wellKnown. split; [done|]. naive_solver.
Qed.

Definition outside (managed : list string) (items : list json) : list json :=
  List.filter (λ item, bool_decide (GetNamespace item ∉ managed)) items.
Lemma IsNonRHOAIFilter_outside managed items : List.filter (IsNonRHOAIFilter managed) items = outside managed items.
Proof.
  apply List.filter_ext. intros item. unfold IsNonRHOAIFilter. rewrite bool_decide_not. f_equal.
  apply eq_true_iff_eq. by rewrite contains_str_In, bool_decide_eq_true.
Qed.
Lemma elem_of_outside managed items item : item ∈ outside managed items ↔ item ∈ items ∧ GetNamespace item ∉ managed.
Proof. unfold outside. rewrite list_elem_of_In, filter_In, <-list_elem_of_In. by rewrite bool_decide_eq_true. Qed.
End SharedLemmas.

(** *** Orphaned CRDs *)
Section OrphanedLemmas.
Context `{SV : Semver, AE : ApiErrors, KE : K8sErrors, SRV : ApiServer, JQ : GoJq, CL : Clock}.
Context (ListWith : ResourceType → ListOptions → res go_error (list json)).

(** The instances of a CRD, none when its type cannot be read. *)
Definition instances_of (instances : ResourceType → list json) (crd : json) : list json :=
  match extractGVR crd with Some gvr => instances gvr | None => [] end.
Lemma countActiveResources_sum instances total crds :
  (∀ crd gvr, crd ∈ crds → extractGVR crd = Some gvr → ListWith gvr defaultListOptions = Ok (instances gvr)) →
  countActiveResources ListWith total crds = Ok (total + Z.of_nat (length (flat_map (instances_of instances) crds))).
Proof.
  revert total. induction crds as [|crd crds IH]; intros total Hl; [cbn; f_equal; lia|].
  cbn [countActiveResources flat_map]. rewrite length_app. unfold instances_of at 1.
  destruct (extractGVR crd) as [gvr|] eqn:Hg.
  - unfold ListPlain. rewrite (Hl crd gvr) by (done || left). cbn [res_map_err res_bind].
    rewrite IH by (intros c' g' Hc'; apply Hl; by right). f_equal. lia.
  - rewrite IH by (intros c' g' Hc'; apply Hl; by right). f_equal.
Qed.
End OrphanedLemmas.

(** ** A concrete cluster *)
Module DependencyRun.
#[export] Instance literals : SemverLiteral (SV := VersionRun.semver) := VersionRun.mkVer.
(** Paths, and the version a CRD serves. *)
#[export] Instance queries : GoJq := {|
  gojq_run obj q :=
    if String.eqb q served_version_query then JqValue (JStr "v1")
    else match nested (tail (split_on dot q)) obj with Some v => JqValue v | None => JqValue JNull end |}.
Definition obj (ns name : string) : json := JObj [("metadata", JObj [("namespace", JStr ns); ("name", JStr name)])].
Definition crd : json :=
  JObj [("metadata", JObj [("name", JStr "gateways.networking.istio.io")]);
        ("spec", JObj [("group", JStr "networking.istio.io"); ("names", JObj [("plural", JStr "gateways")])])].
Definition gateways : ResourceType := mkResourceType "networking.istio.io" "v1" "" "gateways".
Definition forbidden : go_error := EForeign 1 "forbidden".
(** The user may list CRDs, and nothing else. *)
Definition server : ApiServer := {|
  srv_list rt _ _ := if String.eqb (rt_Kind rt) "CustomResourceDefinition" then Ok ([crd], "") else Err forbidden;
  srv_get _ _ _ := Err forbidden; srv_discovery := None |}.
(** The client of a server. *)
Definition client (SRV : ApiServer) (rt : ResourceType) (o : ListOptions) : res go_error (list json) :=
  default (Err (EString "timeout")) (ListResources (AE := ClientRun.api) 1 rt o).
Definition ossm (rt : ResourceType) (o : ListOptions) : res go_error (list json) :=
  if String.eqb (rt_Kind rt) "ServiceMeshMember" then Ok [obj "istio-system" "default"; obj "team-a" "default"] else Ok [].
Definition drifted : SubscriptionItem := mkItem "servicemeshoperator3" None "servicemeshoperator3.v3.4.1".
Definition target := mkTarget VersionRun.semver (Some (VersionRun.mkVer 2 25 1)) (Some (VersionRun.mkVer 3 3 0)) None false false.
Definition ocp (v : string) : ApiServer := {|
  srv_list _ _ _ := Ok ([], "");
  srv_get _ _ _ := Ok (JObj [("status", JObj [("desired", JObj [("version", JStr v)])])]);
  srv_discovery := None |}.
End DependencyRun.
Import (hints) ClientRun VersionRun.

(** ** Properties *)
Module DependencySpec.
(** The shared-usage checks report exactly the resources outside the
    well-known namespaces and those of the platform, of the three types in
    turn; they are an advisory, and nothing is reported when there are none. *)
Theorem shared_usage_exact `{SV : Semver, AE : ApiErrors, KE : K8sErrors, SRV : ApiServer, JQ : GoJq, CL : Clock, SS : SortSlice}
    ListWith texts wellKnown managed rt1 rt2 rt3 l1 l2 l3 (c : Check) (target : Target) :
  RHOAIManagedNamespaces ListWith wellKnown = Ok managed →
  ListWith rt1.1 defaultListOptions = Ok l1 → ListWith rt2.1 defaultListOptions = Ok l2 → ListWith rt3.1 defaultListOptions = Ok l3 →
  ∃ dr, shared_Validate ListWith texts wellKnown rt1 rt2 rt3 c target = Ok dr ∧
    default [] (r_ImpactedObjects dr) =
      flat_map entry_objects [mkEntry rt1.1 (outside managed l1); mkEntry rt2.1 (outside managed l2); mkEntry rt3.1 (outside managed l3)] ∧
    (GetImpact dr = ImpactNone ∧ (∀ item, item ∈ (l1 ++ l2 ++ l3)%list → GetNamespace item ∈ managed) ∨
     GetImpact dr = ImpactAdvisory ∧ ∃ item, item ∈ (l1 ++ l2 ++ l3)%list ∧ GetNamespace item ∉ managed).
Proof.
  intros Hm H1 H2 H3. unfold shared_Validate. rewrite Hm. cbn [res_bind].
  rewrite (list_filtered_Ok _ _ _ _ H1). cbn [res_map_err res_bind].
  rewrite (list_filtered_Ok _ _ _ _ H2). cbn [res_map_err res_bind].
  rewrite (list_filtered_Ok _ _ _ _ H3). cbn [res_map_err res_bind]. rewrite !IsNonRHOAIFilter_outside.
  unfold shared_report. cbn [map ie_Items List.concat]. rewrite app_nil_r.
  assert (∀ item, item ∈ (outside managed l1 ++ outside managed l2 ++ outside managed l3)%list ↔
    item ∈ (l1 ++ l2 ++ l3)%list ∧ GetNamespace item ∉ managed) as Hin.
  { intros item. rewrite !elem_of_app, !elem_of_outside. tauto. }
  set (found := (outside managed l1 ++ outside managed l2 ++ outside managed l3)%list) in *.
  destruct (Nat.eqb_spec (length found) 0) as [H0|H0].
  - apply length_zero_iff_nil in H0. eexists. split; [reflexivity|]. split.
    + unfold found in H0. apply app_eq_nil in H0 as [-> H0]. by apply app_eq_nil in H0 as [-> ->].
    + left. split; [done|]. intros item Hi. destruct (decide (GetNamespace item ∈ managed)); [done|].
      exfalso. rewrite H0 in Hin. by apply (not_elem_of_nil item), Hin.
  - eexists. split; [reflexivity|]. rewrite AddAllImpactedObjects_objects. split; [done|]. right.
    unfold GetImpact. rewrite AddAllImpactedObjects_conditions. split; [done|].
    destruct found as [|item found']; [done|]. exists item. apply Hin. by left.
Qed.

Lemma shared_usage_exact_witness (clock := 0 : Clock) :
  ∃ dr, sharedossm_Validate (SRV := ClientRun.server) (SS := insertion_SortSlice) DependencyRun.ossm
      (NewSharedOSSMCheck (SRV := ClientRun.server) (SS := insertion_SortSlice) DependencyRun.ossm) DependencyRun.target = Ok dr ∧
    default [] (r_ImpactedObjects dr) = [impactedObject ServiceMeshMember (mkNN "team-a" "default")].
Proof.
  destruct (shared_usage_exact (SRV := ClientRun.server) (SS := insertion_SortSlice) DependencyRun.ossm
    (mkShared "No shared OSSM resources detected outside RHOAI-managed namespaces" "OSSM" sharedossm_remediation)
    sharedossm_managed sharedossm_managed (ServiceMeshControlPlane, "ServiceMeshControlPlanes")
    (ServiceMeshMemberRoll, "ServiceMeshMemberRolls") (ServiceMeshMember, "ServiceMeshMembers") [] []
    [DependencyRun.obj "istio-system" "default"; DependencyRun.obj "team-a" "default"]
    (NewSharedOSSMCheck (SRV := ClientRun.server) (SS := insertion_SortSlice) DependencyRun.ossm) DependencyRun.target)
    as (dr & Hr & Ho & _); [vm_compute; reflexivity|reflexivity|reflexivity|reflexivity|].
  exists dr. split; [exact Hr|]. rewrite Ho. vm_compute. reflexivity.
Defined.

(** The verdict on orphaned CRDs when every list succeeds: it blocks, and its
    remediation is to delete them exactly when no instance was found. *)
Theorem orphanedcrds_verdict `{SV : Semver, AE : ApiErrors, KE : K8sErrors, SRV : ApiServer, JQ : GoJq, CL : Clock}
    ListWith olmAvailable subscriptions crds instances (c : Check) (target : Target) :
  ListWith CustomResourceDefinition (labeled_in "" labelMaistraVersion) = Ok crds → filterIstioCRDs crds ≠ [] →
  isSM2OperatorInstalled olmAvailable subscriptions = Ok false →
  (∀ crd gvr, crd ∈ filterIstioCRDs crds → extractGVR crd = Some gvr → ListWith gvr defaultListOptions = Ok (instances gvr)) →
  ∃ dr, orphanedcrds_Validate ListWith olmAvailable subscriptions c target = Ok dr ∧
    GetImpact dr = ImpactBlocking ∧
    default [] (r_ImpactedObjects dr) = entry_objects (mkEntry CustomResourceDefinition (filterIstioCRDs crds)) ∧
    (GetRemediation dr = remediationOrphaned ↔ flat_map (instances_of instances) (filterIstioCRDs crds) = []).
Proof.
  intros Hl Hne Hsm2 Hin. unfold orphanedcrds_Validate. rewrite Hl. cbn [res_map_err res_bind].
  destruct (filterIstioCRDs crds) as [|crd rest] eqn:Hf; [done|]. rewrite <-Hf in *. rewrite Hsm2. cbn [res_map_err res_bind].
  unfold orphaned_verdict. rewrite (countActiveResources_sum ListWith instances 0 _ Hin), Z.add_0_l.
  destruct (Z.ltb_spec 0 (Z.of_nat (length (flat_map (instances_of instances) (filterIstioCRDs crds))))) as [H0|H0].
  - eexists. split; [reflexivity|]. unfold populate_orphaned, GetImpact, GetRemediation.
    rewrite AddAllImpactedObjects_conditions, AddAllImpactedObjects_objects. cbn [flat_map]. rewrite app_nil_r.
    do 2 (split; [done|]). split; [done|]. intros He. by rewrite He in H0.
  - eexists. split; [reflexivity|]. unfold populate_orphaned, GetImpact, GetRemediation.
    rewrite AddAllImpactedObjects_conditions, AddAllImpactedObjects_objects. cbn [flat_map]. rewrite app_nil_r.
    do 2 (split; [done|]). split; [|done]. intros _. apply nil_length_inv. lia.
Qed.

Lemma orphanedcrds_verdict_witness (clock := 0 : Clock) :
  let ListWith rt (o : ListOptions) :=
    if String.eqb (rt_Kind rt) "CustomResourceDefinition" then Ok [DependencyRun.crd] else Ok [DependencyRun.obj "a" "b"] in
  ∃ dr, orphanedcrds_Validate (JQ := DependencyRun.queries) ListWith false (Ok [])
      (NewOrphanedCRDsCheck (JQ := DependencyRun.queries) ListWith false (Ok [])) DependencyRun.target = Ok dr ∧
    GetRemediation dr ≠ remediationOrphaned.
Proof.
  intros ListWith. destruct (orphanedcrds_verdict (SRV := ClientRun.server) (JQ := DependencyRun.queries) ListWith false (Ok []) [DependencyRun.crd]
    (λ _, [DependencyRun.obj "a" "b"])
    (NewOrphanedCRDsCheck (JQ := DependencyRun.queries) ListWith false (Ok [])) DependencyRun.target)
    as (dr & Hr & _ & _ & Hd); [reflexivity|vm_compute; discriminate|reflexivity| |].
  - intros crd gvr Hc Hg. vm_compute in Hc. apply list_elem_of_singleton in Hc as ->. vm_compute in Hg. by injection Hg as <-.
  - exists dr. split; [exact Hr|]. rewrite Hd. vm_compute. discriminate.
Defined.

(** To a user who may list the CRDs but none of their instances, the client
    answers that there are none: the check then recommends deleting the CRDs,
    whatever instances there are. *)
Theorem forbidden_instances_deleted `{SV : Semver, AE : ApiErrors, KE : K8sErrors, SRV : ApiServer, JQ : GoJq, CL : Clock}
    fuel ListWith olmAvailable subscriptions crds (c : Check) (target : Target) :
  (∀ rt o r, ListResources (S fuel) rt o = Some r → ListWith rt o = r) →
  ListWith CustomResourceDefinition (labeled_in "" labelMaistraVersion) = Ok crds → filterIstioCRDs crds ≠ [] →
  isSM2OperatorInstalled olmAvailable subscriptions = Ok false →
  (∀ crd gvr, crd ∈ filterIstioCRDs crds → extractGVR crd = Some gvr →
     ∃ e, srv_list gvr defaultListOptions "" = Err e ∧ IsPermissionError e = true) →
  ∃ dr, orphanedcrds_Validate ListWith olmAvailable subscriptions c target = Ok dr ∧ GetRemediation dr = remediationOrphaned.
Proof.
  intros Hr Hl Hne Hsm2 Hforb. unfold orphanedcrds_Validate. rewrite Hl. cbn [res_map_err res_bind].
  destruct (filterIstioCRDs crds) as [|crd rest] eqn:Hf; [done|]. rewrite <-Hf in *. rewrite Hsm2. cbn [res_map_err res_bind].
  unfold orphaned_verdict. rewrite (countActiveResources_sum ListWith (λ _, []) 0).
  - replace (flat_map _ _) with (@nil json); [change (0 <? 0 + Z.of_nat (length (@nil json))) with false; cbv iota|].
    { eexists. split; [reflexivity|]. unfold populate_orphaned, GetRemediation. by rewrite AddAllImpactedObjects_conditions. }
    symmetry. clear. induction (filterIstioCRDs crds) as [|x l IH]; [done|]. cbn. rewrite IH. unfold instances_of. by case_match.
  - intros x gvr Hx Hg. destruct (Hforb x gvr Hx Hg) as (e & He & Hp). apply Hr. unfold ListResources. cbn. by rewrite He, Hp.
Qed.

Lemma forbidden_instances_deleted_witness (clock := 0 : Clock) :
  let ListWith := DependencyRun.client DependencyRun.server in
  ∃ dr, orphanedcrds_Validate (JQ := DependencyRun.queries) ListWith false (Ok [])
      (NewOrphanedCRDsCheck (JQ := DependencyRun.queries) ListWith false (Ok [])) DependencyRun.target = Ok dr ∧
    GetRemediation dr = remediationOrphaned.
Proof.
  intros ListWith. apply (forbidden_instances_deleted (SRV := DependencyRun.server) (JQ := DependencyRun.queries) 0 ListWith false
    (Ok []) [DependencyRun.crd]); [|vm_compute; reflexivity|vm_compute; discriminate|reflexivity|].
  - intros rt o r Hlist. unfold ListWith, DependencyRun.client. by rewrite Hlist.
  - intros crd gvr Hc Hg. vm_compute in Hc. apply list_elem_of_singleton in Hc as ->. vm_compute in Hg. injection Hg as <-.
    exists DependencyRun.forbidden. by vm_compute.
Defined.

(** The compatibility check of Service Mesh v3 blocks exactly when the
    subscription has a CSV of version 3.4.0 or later and OpenShift is not
    known to be 4.21.22 or later. *)
Theorem ossm34_verdict `{SV : Semver, AE : ApiErrors, KE : K8sErrors, SRV : ApiServer, JQ : GoJq, CL : Clock, SL : !SemverLiteral}
    olmAvailable subscriptions items (c : Check) (target : Target) :
  subscriptions = Ok items → (∀ s, DetectOpenShiftVersion false ≠ Panic s) → (∀ s p, semver_Parse s ≠ Panic p) →
  ∃ cond, ossm34_Validate olmAvailable subscriptions c target = Ok (SetCondition (NewResult c) cond) ∧
    (c_Impact cond = ImpactBlocking ↔
       olmAvailable = true ∧ ∃ sub installed, findSubscription items = Some sub ∧
         parseCSVVersion (si_InstalledCSV sub) = Ok installed ∧ v_GTE installed minAffectedVersion = true ∧
         ∀ ocp, DetectOpenShiftVersion false = Ok ocp → v_GTE ocp minFixedOCPVersion = false).
Proof.
  intros -> Hd Hp. unfold ossm34_Validate. destruct olmAvailable; [|eexists; split; [reflexivity|cbn; naive_solver]].
  cbn [negb res_map_err res_bind]. destruct (findSubscription items) as [sub|]; [|eexists; split; [reflexivity|cbn; naive_solver]].
  destruct (String.eqb_spec (si_InstalledCSV sub) "") as [He|_].
  { eexists. split; [reflexivity|]. split; [done|]. intros (_ & sub' & installed & [= <-] & Hc & _). by rewrite He in Hc. }
  destruct (parseCSVVersion (si_InstalledCSV sub)) as [installed|e|s] eqn:Hc.
  - destruct (v_GTE installed minAffectedVersion) eqn:Hg.
    2: { eexists. split; [reflexivity|]. split; [done|]. intros (_ & sub' & v & [= <-] & Hv & Hg' & _).
         rewrite Hc in Hv. injection Hv as <-. by rewrite Hg in Hg'. }
    unfold affected_verdict. destruct (DetectOpenShiftVersion false) as [ocp|e|s]; [| |by destruct (Hd s)].
    2: { eexists. split; [reflexivity|]. split; [|done]. intros _. split; [done|]. by exists sub, installed. }
    destruct (v_GTE ocp minFixedOCPVersion) eqn:Ho; (eexists; split; [reflexivity|]).
    2: { split; [|done]. intros _. split; [done|]. exists sub, installed. do 3 (split; [done|]). by intros ? [= <-]. }
    split; [done|]. intros (_ & _ & _ & _ & _ & _ & Hall). by rewrite (Hall ocp eq_refl) in Ho.
  - eexists. split; [reflexivity|]. split; [done|]. intros (_ & sub' & v & [= <-] & Hv & _). by rewrite Hc in Hv.
  - exfalso. unfold parseCSVVersion in Hc. case_match; [done|]. destruct (semver_Parse _) eqn:Hs; try done. by apply Hp in Hs.
Qed.

Lemma ossm34_verdict_witness (clock := 0 : Clock) :
  let srv := DependencyRun.ocp "4.20.3" in
  ∃ cond, ossm34_Validate (SRV := srv) (SL := DependencyRun.literals) true (Ok [DependencyRun.drifted])
      (NewOSSM34Check (SRV := srv) (SL := DependencyRun.literals) true (Ok [DependencyRun.drifted])) DependencyRun.target =
      Ok (SetCondition (NewResult (NewOSSM34Check (SRV := srv) (SL := DependencyRun.literals) true (Ok [DependencyRun.drifted]))) cond) ∧
    c_Impact cond = ImpactBlocking.
Proof.
  intros srv. destruct (ossm34_verdict (SRV := srv) (SL := DependencyRun.literals) true (Ok [DependencyRun.drifted]) [DependencyRun.drifted]
    (NewOSSM34Check (SRV := srv) (SL := DependencyRun.literals) true (Ok [DependencyRun.drifted])) DependencyRun.target)
    as (cond & Hr & Hi); [reflexivity|intros s; vm_compute; discriminate| |].
  - intros s p. cbn. unfold VersionRun.parse. by repeat case_match.
  - exists cond. split; [exact Hr|]. apply Hi. split; [done|].
    exists DependencyRun.drifted, (VersionRun.mkVer 3 4 1). split; [done|]. split; [by vm_compute|]. split; [by vm_compute|].
    intros ocp Ho. vm_compute in Ho. by injection Ho as <-.
Defined.
End DependencySpec.
