(* ===== verification/PlatformChecks.v ===== *)
(** * PlatformChecks: pkg/lint/checks/platform

    The readiness of the DataScienceCluster (datasciencecluster/) and of the
    DSCInitialization (dscinitialization/), with the conditions that may be
    false because nothing asks for what they report, and the stored versions
    of the DataScienceCluster CRD.

    Decoding a condition into its Kubernetes type is a parameter. *)
From S2P Require Import Prelude GoStrings Errors Client Version Result Check Validate CheckKit DepsCheck BackupDeps WorkloadHelpers.
From S2P Require Import NotebookChecks KueueIntegrity ComponentChecks DashboardChecks DependencyChecks.
Open Scope string_scope.
Open Scope Z_scope.
Open Scope go_scope.

(** [metav1.Condition], as far as it is read. *)
Record StatusCondition := mkStatusCondition { k_Type : string; k_Status : string; k_Reason : string; k_Message : string }.
Definition zero_condition := mkStatusCondition "" "" "" "".
(** [json.Unmarshal] into it. *)
Class ConditionDecoder := unmarshal_condition : json → res go_error StatusCondition.

Definition platform_check `{Semver} (kind checkType id name description remediation : string)
    (can : Target → bool) (validate : Check → Target → res go_error DiagnosticResult) : Check :=
  embed (mkBaseCheck GroupPlatform kind checkType id name description remediation) (λ target, Ok (can target))
    (λ c target, some_result (validate c target)).

Definition jq_Matches `{GoJq} (obj : json) (expression : string) : bool :=
  match jq_Query false "bool" as_bool obj expression with Ok matched => matched | _ => false end.

Section Platform.
Context `{SV : Semver, AE : ApiErrors, KE : K8sErrors, SRV : ApiServer, JQ : GoJq, CL : Clock, CD : ConditionDecoder}.
Context (ListWith : ResourceType → ListOptions → res go_error (list json)).
Notation ListPlain := (ListPlain ListWith).

(** What both readiness checks say. *)
Definition not_ready (dr : DiagnosticResult) (reason message : string) : res go_error DiagnosticResult :=
  set_new dr ConditionTypeReady ConditionFalse [WithReason reason; WithMessage message; WithImpact ImpactBlocking].
Definition ready (dr : DiagnosticResult) (resourceName : string) : res go_error DiagnosticResult :=
  set_new dr ConditionTypeReady ConditionTrue [WithReason ReasonResourceAvailable; WithMessage (resourceName +:+ " is ready")].

(** ** datasciencecluster/support.go *)
Definition ready_condition_query :=
  ".status.conditions // [] | .[] | select(.type == " +:+ dquote +:+ "Ready" +:+ dquote +:+ ")".
Definition dsc_validateReadyCondition (dr : DiagnosticResult) (obj : json) (resourceName expectedStatus : string)
    : res go_error DiagnosticResult :=
  let missing := not_ready dr ReasonInsufficientData (resourceName +:+ " resource found but Ready condition is missing") in
  match jq_Query zero_condition "v1.Condition" unmarshal_condition obj ready_condition_query with
  | Panic s => Panic s
  | Err err =>
      if negb (errors_is JqErrNotFound err) then Err (errorf_w ("querying " +:+ resourceName +:+ " ready condition") err)
      else missing
  | Ok readyCondition =>
      if String.eqb (k_Type readyCondition) "" then missing
      else if negb (String.eqb (k_Status readyCondition) expectedStatus) then
        not_ready dr ReasonResourceUnavailable
          (resourceName +:+ " is not ready (status: " +:+ k_Status readyCondition +:+ ") due to '" +:+ k_Message readyCondition +:+
           "'. " +:+ resourceName +:+ " must be ready before upgrading")
      else ready dr resourceName
  end.
(** *** datasciencecluster_readiness.go *)
Definition dsc_readiness_Validate (c : Check) (target : Target) : res go_error DiagnosticResult :=
  DSC_Run ListPlain c target (λ dr dsc, dsc_validateReadyCondition dr dsc "DataScienceCluster" "True").
Definition NewDataScienceClusterReadinessCheck : Check :=
  platform_check "dsc" CheckTypeReadiness "platform.dsc.readiness" "Platform :: DSC :: Readiness Check"
    "Validates that DataScienceCluster is in Ready state" "" (λ _, true) dsc_readiness_Validate.

(** *** storage_version.go *)
Definition ConditionTypeStorageVersionMigrated := "StorageVersionMigrated".
Definition storageVersionRemediation :=
  "Run odh migrate run --migration dsc.storage-version.migrate --target-version 3.6.0 before removing v1 from the DataScienceCluster CRD.".
Definition storage_version_Validate (c : Check) (target : Target) : res go_error DiagnosticResult :=
  let name := CRDFQN DataScienceCluster in
  try! crd := Get CustomResourceDefinition name "" else errorf_w "reading DataScienceCluster CRD" in
  match crd with
  | None => Err (EString ("reading DataScienceCluster CRD " +:+ name +:+ ": no resource returned"))
  | Some crd =>
      try! storedVersions := jq_Query_strings crd ".status.storedVersions"
        else errorf_w "reading DataScienceCluster storedVersions" in
      if (length storedVersions =? 0)%nat || contains_str storedVersions ""
      then Err (EString ("DataScienceCluster CRD " +:+ name +:+ " has invalid storedVersions"))
      else
        let dr := annotate_target target (NewResult c) in
        if contains_str storedVersions "v1" then
          set_new dr ConditionTypeStorageVersionMigrated ConditionFalse
            [WithReason ReasonMigrationPending;
             WithMessage "DataScienceCluster CRD storedVersions contains v1; migrate stored objects before retiring v1";
             WithImpact ImpactBlocking; WithRemediation storageVersionRemediation]
        else
          set_new dr ConditionTypeStorageVersionMigrated ConditionTrue
            [WithReason ReasonNoMigrationRequired; WithMessage "DataScienceCluster CRD storedVersions does not contain v1"]
  end.
Definition NewStorageVersionCheck : Check :=
  platform_check "dsc" "storage-version" "platform.dsc.storage-version" "Platform :: DSC :: Storage Version"
    "Validates that DataScienceCluster v1 is absent from CRD storedVersions" storageVersionRemediation
    (λ target, IsVersionAtLeast (t_TargetVersion target) 3 6) storage_version_Validate.

(** ** dscinitialization/support.go *)
Definition conditionTypeMonitoringReady := "MonitoringReady".
Definition reasonRemoved := "Removed".
Definition conditionTypeMonitoringStackAvailable := "MonitoringStackAvailable".
Definition conditionTypeThanosQuerierAvailable := "ThanosQuerierAvailable".
Definition conditionTypeNodeMetricsEndpointAvailable := "NodeMetricsEndpointAvailable".
Definition conditionTypePersesPrometheusDSAvailable := "PersesPrometheusDataSourceAvailable".
Definition conditionTypeTempoAvailable := "TempoAvailable".
Definition conditionTypePersesTempoDSAvailable := "PersesTempoDataSourceAvailable".
Definition conditionTypeOTelCollectorAvailable := "OpenTelemetryCollectorAvailable".
Definition conditionTypePersesAvailable := "PersesAvailable".
Definition conditionTypeAlertingAvailable := "AlertingAvailable".
Definition monitoringNotManagedExpr := ".spec.monitoring.managementState != " +:+ dquote +:+ "Managed" +:+ dquote.
Definition metricsUnconfiguredExpr :=
  ".spec.monitoring.metrics.storage == null and (.spec.monitoring.metrics.exporters | length) == 0".
Definition tracesUnconfiguredExpr :=
  ".spec.monitoring.traces.storage == null and (.spec.monitoring.traces.exporters | length) == 0".
Definition alertingUnconfiguredExpr := ".spec.monitoring.alerting == null".

Definition isExpectedUnconfiguredMonitoringFalse (cond : StatusCondition) (obj : json) : bool :=
  let typed t := String.eqb (k_Type cond) t in
  let notManaged := jq_Matches obj monitoringNotManagedExpr in
  let metricsUnconfigured := jq_Matches obj metricsUnconfiguredExpr in
  let tracesUnconfigured := jq_Matches obj tracesUnconfiguredExpr in
  if negb (String.eqb (k_Status cond) "False") then false
  else if typed conditionTypeMonitoringStackAvailable then notManaged || metricsUnconfigured
  else if typed conditionTypeThanosQuerierAvailable then notManaged || metricsUnconfigured
  else if typed conditionTypeNodeMetricsEndpointAvailable then notManaged || metricsUnconfigured
  else if typed conditionTypePersesPrometheusDSAvailable then notManaged || metricsUnconfigured
  else if typed conditionTypeTempoAvailable then notManaged || tracesUnconfigured
  else if typed conditionTypePersesTempoDSAvailable then notManaged || tracesUnconfigured
  else if typed conditionTypeOTelCollectorAvailable then notManaged || (metricsUnconfigured && tracesUnconfigured)
  else if typed conditionTypePersesAvailable then notManaged || (metricsUnconfigured && tracesUnconfigured)
  else if typed conditionTypeAlertingAvailable then notManaged || jq_Matches obj alertingUnconfiguredExpr
  else if typed conditionTypeMonitoringReady then String.eqb (k_Reason cond) reasonRemoved && notManaged
  else false.
Definition isExpectedCapabilityServiceMeshFalse (cond : StatusCondition) : bool :=
  String.eqb (k_Type cond) "CapabilityServiceMesh" && String.eqb (k_Status cond) "False" &&
  (String.eqb (k_Reason cond) reasonRemoved || String.eqb (k_Reason cond) "Unmanaged").
Definition isExpectedCapabilityServiceMeshAuthFalse (cond : StatusCondition) : bool :=
  String.eqb (k_Type cond) "CapabilityServiceMeshAuthorization" && String.eqb (k_Status cond) "False" &&
  negb (String.eqb (k_Reason cond) "NotReady").

(** The body of the loop: whether the condition counts. *)
Definition unhappy (obj : json) (cond : StatusCondition) : bool :=
  let expectFalse := String.eqb (k_Type cond) "Progressing" || String.eqb (k_Type cond) "Degraded" in
  let unhappy := (expectFalse && negb (String.eqb (k_Status cond) "False")) ||
                 (negb expectFalse && negb (String.eqb (k_Status cond) "True")) in
  if isExpectedCapabilityServiceMeshFalse cond || isExpectedCapabilityServiceMeshAuthFalse cond ||
     isExpectedUnconfiguredMonitoringFalse cond obj
  then false else unhappy.
Definition condition_message (cond : StatusCondition) : string := k_Type cond +:+ ": " +:+ k_Message cond.
Definition unhappy_messages (obj : json) (conditions : list StatusCondition) : list string :=
  map condition_message
    (List.filter (λ cond, unhappy obj cond && negb (String.eqb (k_Message cond) "")) conditions).

(** A null element of the array is the zero value. *)
Fixpoint unmarshal_elements (l : list json) : res go_error (list StatusCondition) :=
  match l with
  | [] => Ok []
  | v :: rest =>
      let! cond := match v with JNull => Ok zero_condition | _ => unmarshal_condition v end in
      let! conds := unmarshal_elements rest in
      Ok (cond :: conds)
  end.
Definition unmarshal_conditions (v : json) : res go_error (list StatusCondition) :=
  match v with
  | JArr l => unmarshal_elements l
  | _ => Err (EString "json: cannot unmarshal value into Go value of type []v1.Condition")
  end.
Definition collectUnhappyDSCIConditionMessages (obj : json) : res go_error (list string) :=
  match jq_Query [] "[]v1.Condition" unmarshal_conditions obj ".status.conditions" with
  | Panic s => Panic s
  | Err err => if errors_is JqErrNotFound err then Ok [] else Err (errorf_w "querying DSCI conditions" err)
  | Ok conditions => Ok (unhappy_messages obj conditions)
  end.

Definition validatePhaseReady (dr : DiagnosticResult) (obj : json) (resourceName : string) : res go_error DiagnosticResult :=
  let collect := res_map_err (errorf_w ("collecting conditions from " +:+ resourceName)) (collectUnhappyDSCIConditionMessages obj) in
  on_query (jq_Query_string obj ".status.phase") ("querying " +:+ resourceName +:+ " phase")
    (not_ready dr ReasonInsufficientData (resourceName +:+ " resource found but phase field is missing"))
    (λ phaseStatus,
      if String.eqb phaseStatus "" then
        not_ready dr ReasonInsufficientData (resourceName +:+ " resource found but phase is empty")
      else if negb (String.eqb phaseStatus "Ready") then
        let! condMessages := collect in
        not_ready dr ReasonResourceUnavailable
          (resourceName +:+ " is not ready (phase: " +:+ phaseStatus +:+ "). " +:+ resourceName +:+ " must be ready before upgrading" +:+
           (if (0 <? length condMessages)%nat then ". Conditions: " +:+ join "; " condMessages else ""))
      else
        let! condMessages := collect in
        if (0 <? length condMessages)%nat then
          not_ready dr ReasonResourceUnavailable
            (resourceName +:+ " phase is Ready but some conditions are not expected. Conditions: " +:+ join "; " condMessages)
        else ready dr resourceName).
(** *** dscinitialization_readiness.go *)
Definition dsci_readiness_Validate (c : Check) (target : Target) : res go_error DiagnosticResult :=
  DSCI_Run ListPlain c target (λ dr dsci, validatePhaseReady dr dsci "DSCInitialization").
Definition NewDSCInitializationReadinessCheck : Check :=
  platform_check "dsci" CheckTypeReadiness "platform.dsci.readiness" "Platform :: DSCI :: Readiness Check"
    "Validates that DSCInitialization is in Ready state before upgrading to RHOAI 3.x" "" (λ _, true) dsci_readiness_Validate.
End Platform.

(** ** Lemmas *)
Section PlatformLemmas.
Context `{SV : Semver, AE : ApiErrors, KE : K8sErrors, SRV : ApiServer, JQ : GoJq, CL : Clock, CD : ConditionDecoder, MO : MapOrder}.
Context (ListWith : ResourceType → ListOptions → res go_error (list json)).

(** *** Every check here only produces results the executor accepts *)
Definition platform_checks : list Check :=
  [NewDSCInitializationReadinessCheck ListWith; NewDataScienceClusterReadinessCheck ListWith; NewStorageVersionCheck].
Lemma platform_checks_sound : Forall sound_check platform_checks.
Proof using MO.
  repeat (apply Forall_cons; split; [apply embed_sound; [done..|]; intros c target; accept|]). apply Forall_nil. done.
Qed.

(** *** The conditions that may be false *)
(** What a capability of the monitoring stack needs to be configured. *)
Inductive feature := Metrics | Traces | Alerting.
Definition needs : list (string * list feature) :=
  [("MonitoringStackAvailable", [Metrics]); ("ThanosQuerierAvailable", [Metrics]); ("NodeMetricsEndpointAvailable", [Metrics]);
   ("PersesPrometheusDataSourceAvailable", [Metrics]); ("TempoAvailable", [Traces]); ("PersesTempoDataSourceAvailable", [Traces]);
   ("OpenTelemetryCollectorAvailable", [Metrics; Traces]); ("PersesAvailable", [Metrics; Traces]); ("AlertingAvailable", [Alerting])].
Definition unconfigured (obj : json) (f : feature) : bool :=
  jq_Matches obj (match f with Metrics => metricsUnconfiguredExpr | Traces => tracesUnconfiguredExpr | Alerting => alertingUnconfiguredExpr end).
Definition not_managed (obj : json) : bool := jq_Matches obj monitoringNotManagedExpr.

(** The case analysis of the source is a lookup in that table. *)
Lemma monitoring_table cond obj :
  isExpectedUnconfiguredMonitoringFalse cond obj =
  String.eqb (k_Status cond) "False" &&
  match find (λ n, String.eqb (k_Type cond) n.1) needs with
  | Some n => not_managed obj || forallb (unconfigured obj) n.2
  | None => String.eqb (k_Type cond) conditionTypeMonitoringReady && String.eqb (k_Reason cond) reasonRemoved && not_managed obj
  end.
Proof.
  unfold isExpectedUnconfiguredMonitoringFalse, not_managed, needs, conditionTypeMonitoringStackAvailable,
    conditionTypeThanosQuerierAvailable, conditionTypeNodeMetricsEndpointAvailable, conditionTypePersesPrometheusDSAvailable,
    conditionTypeTempoAvailable, conditionTypePersesTempoDSAvailable, conditionTypeOTelCollectorAvailable,
    conditionTypePersesAvailable, conditionTypeAlertingAvailable. cbn [find fst snd].
  destruct (String.eqb (k_Status cond) "False"); [|done]. cbn [negb andb].
  repeat (match goal with |- (if ?b then _ else _) = _ => destruct b end; [cbn [forallb unconfigured snd]; by rewrite ?andb_true_r|]).
  by destruct (String.eqb (k_Type cond) conditionTypeMonitoringReady).
Qed.
Lemma needs_functional t fs fs' : In (t, fs) needs → In (t, fs') needs → fs' = fs.
Proof.
  unfold needs. cbn [In]. intros H1 H2.
  repeat (destruct H1 as [H1|H1]; [injection H1 as <- <-;
    repeat (destruct H2 as [H2|H2]; [discriminate H2 || by injection H2 as <-|]); done|]). done.
Qed.
Lemma unhappy_messages_nil obj conds :
  unhappy_messages obj conds = [] ↔ ∀ cond, cond ∈ conds → unhappy obj cond = true → k_Message cond = "".
Proof.
  unfold unhappy_messages. induction conds as [|cond conds IH]; [split; [|done]; by intros _ cond Hc%not_elem_of_nil|].
  setoid_rewrite elem_of_cons. cbn [List.filter].
  destruct (unhappy obj cond) eqn:Hu; cbn [andb]; [destruct (String.eqb_spec (k_Message cond) "") as [He|He]; cbn [negb map]|].
  - rewrite IH. split; [intros H k [->|Hk]; [done|by apply H]|intros H k Hk; apply H; by right].
  - split; [done|]. intros Hall. exfalso. apply He, Hall; [by left|done].
  - rewrite IH. split; [intros H k [->|Hk]; [by rewrite Hu|by apply H]|intros H k Hk; apply H; by right].
Qed.
End PlatformLemmas.

(** ** A concrete cluster *)
Module PlatformRun.
(** Conditions whose fields are all strings. *)
#[export] Instance decoder : ConditionDecoder := λ v,
  Ok (mkStatusCondition (str_at "type" v) (str_at "status" v) (str_at "reason" v) (str_at "message" v)).
Definition condition (type status message : string) : json :=
  JObj [("type", JStr type); ("status", JStr status); ("message", JStr message)].
Definition dsci (phase : string) (conditions : list json) : json :=
  JObj [("status", JObj [("phase", JStr phase); ("conditions", JArr conditions)])].
(** Paths; the monitoring is not managed. *)
#[export] Instance queries : GoJq := {|
  gojq_run obj q :=
    if String.eqb q monitoringNotManagedExpr then JqValue (JBool true)
    else match nested (tail (split_on dot q)) obj with Some v => JqValue v | None => JqValue JNull end |}.
Definition crd (versions : list string) : ApiServer := {|
  srv_list _ _ _ := Ok ([], "");
  srv_get _ _ _ := Ok (JObj [("status", JObj [("storedVersions", JArr (map JStr versions))])]);
  srv_discovery := None |}.
Definition new_result : DiagnosticResult := New "platform" "dsci" "readiness" "d".
End PlatformRun.
Import (hints) ClientRun VersionRun.

(** ** Properties *)
Module PlatformSpec.
(** The DSCInitialization passes exactly when its phase is Ready and no
    condition with a message deviates from what is expected of it; otherwise
    the check blocks. *)
Theorem dsci_readiness_verdict `{JQ : GoJq, CL : Clock, CD : ConditionDecoder} (dr : DiagnosticResult) obj name phase conds :
  jq_Query_string obj ".status.phase" = Ok phase →
  jq_Query [] "[]v1.Condition" unmarshal_conditions obj ".status.conditions" = Ok conds →
  ∃ cond, validatePhaseReady dr obj name = Ok (SetCondition dr cond) ∧
    (c_Status cond = ConditionTrue ↔
       phase = "Ready" ∧ ∀ k, k ∈ conds → unhappy obj k = true → k_Message k = "") ∧
    (c_Status cond ≠ ConditionTrue → c_Impact cond = ImpactBlocking).
Proof.
  intros Hp Hc. unfold validatePhaseReady, on_query. rewrite Hp. unfold collectUnhappyDSCIConditionMessages. rewrite Hc.
  cbn [res_map_err res_bind]. pose proof (unhappy_messages_nil obj conds) as Hn.
  destruct (String.eqb_spec phase "") as [->|_]; [eexists; split; [reflexivity|]; cbn; naive_solver|].
  destruct (String.eqb_spec phase "Ready") as [->|Hne]; cbn [negb]; [|eexists; split; [reflexivity|]; cbn; naive_solver].
  destruct (unhappy_messages obj conds) as [|m l]; cbn [length Nat.ltb]; (eexists; split; [reflexivity|]); cbn.
  - split; [|done]. split; [|done]. intros _. split; [done|]. by apply Hn.
  - split; [|done]. split; [done|]. intros [_ Hall]. by apply Hn in Hall.
Qed.

Lemma dsci_readiness_verdict_witness (clock := 0 : Clock) :
  let obj := PlatformRun.dsci "Ready"
    [PlatformRun.condition "TempoAvailable" "False" "not configured"; PlatformRun.condition "Degraded" "True" "broken"] in
  ∃ cond, validatePhaseReady (JQ := PlatformRun.queries) (CD := PlatformRun.decoder) PlatformRun.new_result obj "DSCInitialization" =
      Ok (SetCondition PlatformRun.new_result cond) ∧ c_Impact cond = ImpactBlocking.
Proof.
  intros obj. destruct (dsci_readiness_verdict (JQ := PlatformRun.queries) (CD := PlatformRun.decoder) PlatformRun.new_result obj
    "DSCInitialization" "Ready" [mkStatusCondition "TempoAvailable" "False" "" "not configured"; mkStatusCondition "Degraded" "True" "" "broken"])
    as (cond & Hr & Hs & Hi); [vm_compute; reflexivity|vm_compute; reflexivity|].
  exists cond. split; [exact Hr|]. apply Hi. intros Ht. apply Hs in Ht as [_ Hall].
  specialize (Hall (mkStatusCondition "Degraded" "True" "" "broken")). discriminate Hall; [right; left|vm_compute; reflexivity].
Defined.

(** A deviating condition without a message goes unnoticed. *)
Example degraded_without_message_passes (clock := 0 : Clock) :
  validatePhaseReady (JQ := PlatformRun.queries) (CD := PlatformRun.decoder) PlatformRun.new_result
      (PlatformRun.dsci "Ready" [PlatformRun.condition "Degraded" "True" ""]) "DSCInitialization" =
  ready PlatformRun.new_result "DSCInitialization".
Proof. vm_compute. reflexivity. Qed.

(** A false condition of a monitoring capability is excused exactly when
    monitoring is not managed or none of what the capability needs is
    configured; MonitoringReady exactly when monitoring was removed. *)
Theorem monitoring_false_excused `{JQ : GoJq} cond obj :
  isExpectedUnconfiguredMonitoringFalse cond obj = true ↔
  k_Status cond = "False" ∧
  ((∃ features, (k_Type cond, features) ∈ needs ∧
      (not_managed obj = true ∨ ∀ f, f ∈ features → unconfigured obj f = true)) ∨
   k_Type cond = conditionTypeMonitoringReady ∧ k_Reason cond = reasonRemoved ∧ not_managed obj = true).
Proof.
  rewrite monitoring_table, andb_true_iff, String.eqb_eq. apply and_iff_compat_l.
  destruct (find _ needs) as [[t fs]|] eqn:Hf.
  - apply find_some in Hf as [Hin He]. apply String.eqb_eq in He. cbn [fst snd] in He. subst t.
    rewrite orb_true_iff, forallb_forall. setoid_rewrite <-list_elem_of_In. cbn [snd]. split; [intros H; left; exists fs; by rewrite list_elem_of_In|].
    intros [(fs' & Hin' & H)|(Ht & _ & _)].
    + assert (fs' = fs) as ->; [|done]. apply list_elem_of_In in Hin'. apply (needs_functional (k_Type cond)); done.
    + exfalso. rewrite Ht in Hin. vm_compute in Hin. naive_solver.
  - split.
    + rewrite !andb_true_iff, !String.eqb_eq. tauto.
    + intros [(fs & Hin & _)|(Ht & Hr & Hm)]; [|by rewrite Ht, Hr, Hm].
      exfalso. apply list_elem_of_In in Hin. pose proof (find_none _ _ Hf _ Hin) as Hn. cbn in Hn. by rewrite String.eqb_refl in Hn.
Qed.

(** The storage check blocks exactly when v1 is among the stored versions,
    and reports no verdict on a history it cannot trust. *)
Theorem storage_version_verdict `{SV : Semver, AE : ApiErrors, KE : K8sErrors, SRV : ApiServer, JQ : GoJq, CL : Clock}
    (c : Check) (target : Target) crd versions :
  Get CustomResourceDefinition (CRDFQN DataScienceCluster) "" = Ok (Some crd) →
  jq_Query_strings crd ".status.storedVersions" = Ok versions →
  ((versions = [] ∨ "" ∈ versions) ∧ (∃ e, storage_version_Validate c target = Err e)) ∨
  (versions ≠ [] ∧ "" ∉ versions ∧
   ∃ dr, storage_version_Validate c target = Ok dr ∧
     (GetImpact dr = ImpactBlocking ∧ "v1" ∈ versions ∨ GetImpact dr = ImpactNone ∧ "v1" ∉ versions)).
Proof.
  intros Hg Hq. unfold storage_version_Validate. rewrite Hg. cbn [res_map_err res_bind]. rewrite Hq. cbn [res_map_err res_bind].
  destruct (Nat.eqb_spec (length versions) 0) as [H0|H0]; cbn [orb].
  { left. split; [left; by apply nil_length_inv|by eexists]. }
  assert (versions ≠ []) as Hne by (by intros ->).
  destruct (contains_str versions "") eqn:He.
  { left. split; [right; by apply contains_str_In|by eexists]. }
  right. split; [done|]. split; [by rewrite <-contains_str_In, He|].
  assert (r_Conditions (annotate_target target (NewResult c)) = []) as Hc by (unfold annotate_target; by case_match).
  destruct (contains_str versions "v1") eqn:H1; (eexists; split; [reflexivity|]); unfold GetImpact; cbn [SetCondition with_conditions r_Conditions].
  - left. rewrite Hc. split; [done|by apply contains_str_In].
  - right. rewrite Hc. split; [done|]. by rewrite <-contains_str_In, H1.
Qed.

Lemma storage_version_verdict_witness (clock := 0 : Clock) :
  let c := NewStorageVersionCheck (SRV := PlatformRun.crd ["v1"; "v2"]) in
  ∃ dr, storage_version_Validate (SRV := PlatformRun.crd ["v1"; "v2"]) c DependencyRun.target = Ok dr ∧ GetImpact dr = ImpactBlocking.
Proof.
  intros c. destruct (storage_version_verdict (SRV := PlatformRun.crd ["v1"; "v2"]) c DependencyRun.target
    (JObj [("status", JObj [("storedVersions", JArr (map JStr ["v1"; "v2"]))])]) ["v1"; "v2"])
    as [[[|H] _]|(_ & _ & dr & Hr & [[Hi _]|[_ Hn]])]; [vm_compute; reflexivity|vm_compute; reflexivity|done| | |].
  - exfalso. by repeat (apply elem_of_cons in H as [?|H]; [done|]); apply not_elem_of_nil in H.
  - by exists dr.
  - exfalso. apply Hn. left.
Defined.
End PlatformSpec.
