(* ===== verification/AIPipelines.v ===== *)
(** * AIPipelines: pkg/aipipelines

    What the checks and migrations of AI Pipelines share: the state of the
    component under its two DSC keys (component.go), its applications under
    two API versions (dspa.go), and the Roles that miss the subresource the
    new proxy asks for (rbac/). *)
From S2P Require Import Prelude GoStrings Errors Client Version Result Check Validate CheckKit DepsCheck BackupDeps WorkloadHelpers.
From S2P Require Import NotebookChecks KueueIntegrity ComponentChecks DashboardChecks.
Open Scope string_scope.
Open Scope Z_scope.
Open Scope go_scope.

Definition DataSciencePipelinesApplicationV1Alpha1 : ResourceType :=
  mkResourceType "datasciencepipelinesapplications.opendatahub.io" "v1alpha1" "DataSciencePipelinesApplication"
    "datasciencepipelinesapplications".
Definition Role : ResourceType := mkResourceType "rbac.authorization.k8s.io" "v1" "Role" "roles".

(** [jq.Query[any]] *)
Definition jq_Query_any `{GoJq} : json → string → res go_error json := jq_Query JNull "interface {}" as_any.

Section AIPipelines.
Context `{AE : ApiErrors, KE : K8sErrors, SRV : ApiServer, JQ : GoJq}.
Context (List : ResourceType → res go_error (list json)).

(** ** dspa.go *)
Definition ListDSPAs : res go_error (list json * ResourceType) :=
  match List DataSciencePipelinesApplicationV1 with
  | Ok dspas => Ok (dspas, DataSciencePipelinesApplicationV1)
  | Panic s => Panic s
  | Err err =>
      if negb (IsNotFound err) then Err (errorf_w "listing DataSciencePipelinesApplications v1" err)
      else
        try! dspas := List DataSciencePipelinesApplicationV1Alpha1
          else errorf_w "listing DataSciencePipelinesApplications v1alpha1" in
        Ok (dspas, DataSciencePipelinesApplicationV1Alpha1)
  end.
Definition HasDSPAs : res go_error bool :=
  let! found := ListDSPAs in Ok (0 <? length found.1)%nat.

(** ** component.go *)
Definition ComponentKeyV1 := "datasciencepipelines".
Definition ComponentKeyV2 := "aipipelines".
Definition ShouldApplyChecks (dsc : json) : res go_error bool :=
  let! v2 := HasManagementState dsc ComponentKeyV2 [ManagementStateManaged] in
  let! v1 := if (v2 : bool) then Ok false else HasManagementState dsc ComponentKeyV1 [ManagementStateManaged] in
  if v2 || v1 then Ok true
  else res_map_err (errorf_w "checking for DataSciencePipelinesApplications") HasDSPAs.
Definition HasComponentKey (dsc : json) (componentKey : string) : res go_error bool :=
  let path := ".spec.components." +:+ componentKey in
  match jq_Query_any dsc path with
  | Ok _ => Ok true
  | Panic s => Panic s
  | Err err => if errors_is JqErrNotFound err then Ok false else Err (errorf_w ("querying " +:+ path) err)
  end.
Definition UsesComponentKeyV2 (dsc : json) : res go_error bool := HasComponentKey dsc ComponentKeyV2.
Definition EffectiveManagementState (dsc : json) : res go_error string :=
  try! usesV2 := UsesComponentKeyV2 dsc else errorf_w "checking AI Pipelines v2 component key" in
  let key := if (usesV2 : bool) then ComponentKeyV2 else ComponentKeyV1 in
  res_map_err (errorf_w ("querying " +:+ key +:+ " management state")) (GetManagementState dsc key).
End AIPipelines.

(** ** rbac/classifier.go *)
Definition dspaAPIGroup := "datasciencepipelinesapplications.opendatahub.io".
Definition dspaAPISubresource := "datasciencepipelinesapplications/api".
Definition routeAPIGroup := "route.openshift.io".

(** The regular expression [^p.*], and the two of the package; [.] matches
    every byte but a newline. *)
Definition newline_byte : Ascii.ascii := Ascii.ascii_of_nat 10.
Definition prefix_line (p s : string) : bool :=
  match cut_prefix p s with Some rest => negb (contains_byte newline_byte rest) | None => false end.
Definition IsSystemNamespace (ns : string) : bool :=
  String.eqb ns "kube-system" || String.eqb ns "default" || prefix_line "openshift" ns || prefix_line "redhat-ods-" ns.
Definition operatorManagedRole (name : string) : bool :=
  has_prefix "ds-pipeline-" name || has_prefix "pipeline-runner-" name.

Record Classification := mkClassification {
  cl_NeedsFix : bool;
  cl_RoleName : string;
  cl_Namespace : string;
  cl_RouteVerbs : list string;
}.

Definition string_of (v : json) : option string := match v with JStr s => Some s | _ => None end.
Definition ExtractStringSlice (obj : json) (key : string) : list string * bool :=
  match nested [key] obj with
  | Some (JArr slice) => let out := omap string_of slice in (out, (0 <? length out)%nat)
  | _ => ([], false)
  end.
Definition containsStringOrWildcard (values : list string) (target : string) : bool :=
  existsb (λ v, String.eqb v target || String.eqb v "*") values.
Definition merge_step (acc : list string * gset string) (v : string) : list string * gset string :=
  if bool_decide (v ∈ acc.2) then acc else ((acc.1 ++ [v])%list, {[v]} ∪ acc.2).
Definition mergeStringSlices (a b : list string) : list string := (foldl merge_step (a, list_to_set a) b).1.

(** The three results of the loop over the rules. *)
Definition rule_step (acc : bool * bool * list string) (rule : json) : bool * bool * list string :=
  let '(hasRouteAPIGroup, hasDSPASubresource, routeVerbs) := acc in
  if negb (is_object rule) then acc
  else
    let apiGroups := (ExtractStringSlice rule "apiGroups").1 in
    let ruleResources := (ExtractStringSlice rule "resources").1 in
    let verbs := (ExtractStringSlice rule "verbs").1 in
    let route := containsStringOrWildcard apiGroups routeAPIGroup in
    (hasRouteAPIGroup || route,
     hasDSPASubresource ||
       (containsStringOrWildcard apiGroups dspaAPIGroup && containsStringOrWildcard ruleResources dspaAPISubresource),
     if route then mergeStringSlices routeVerbs verbs else routeVerbs).
Definition ClassifyRole (role : json) : Classification :=
  let name := GetName role in
  let ns := GetNamespace role in
  let plain := mkClassification false name ns [] in
  if IsSystemNamespace ns then plain
  else if operatorManagedRole name then plain
  else
    match nested ["rules"] role with
    | Some (JArr rules) =>
        let '(hasRouteAPIGroup, hasDSPASubresource, routeVerbs) := foldl rule_step (false, false, []) rules in
        mkClassification (hasRouteAPIGroup && negb hasDSPASubresource) name ns routeVerbs
    | _ => plain
    end.

(** *** rbac/scan.go *)
Definition FindRolesNeedingFix (List : ResourceType → res go_error (list json)) : res go_error (list Classification) :=
  try! roleList := List Role else errorf_w "listing roles" in
  Ok (List.filter cl_NeedsFix (map ClassifyRole roleList)).

(** ** Lemmas *)
(** *** Merging *)
Lemma merge_step_spec l acc (seen : gset string) :
  seen = list_to_set acc → NoDup acc →
  let out := (foldl merge_step (acc, seen) l).1 in
  NoDup out ∧ (∀ x, x ∈ out ↔ x ∈ acc ∨ x ∈ l) ∧ ∃ more, out = (acc ++ more)%list.
Proof.
  revert acc seen. induction l as [|v l IH]; intros acc seen -> Hn; cbn [foldl].
  { split; [done|]. split; [set_solver|]. exists []. by rewrite app_nil_r. }
  destruct (decide (v ∈ (list_to_set acc : gset string))) as [Hv|Hv].
  - replace (merge_step (acc, list_to_set acc) v) with (acc, list_to_set acc : gset string)
      by (unfold merge_step; cbn [snd]; by rewrite bool_decide_true).
    destruct (IH acc _ eq_refl Hn) as (Hd & Hi & Hp). split; [exact Hd|]. split; [|exact Hp].
    intros x. rewrite Hi. apply elem_of_list_to_set in Hv. set_solver.
  - replace (merge_step (acc, list_to_set acc) v) with ((acc ++ [v])%list, {[v]} ∪ list_to_set acc : gset string)
      by (unfold merge_step; cbn [fst snd]; by rewrite bool_decide_false).
    destruct (IH (acc ++ [v])%list ({[v]} ∪ list_to_set acc)) as (Hd & Hi & more & Hp).
    + rewrite list_to_set_app_L. set_solver.
    + apply NoDup_app. split; [done|]. split; [|apply NoDup_singleton].
      intros x Hx ->%list_elem_of_singleton. by apply Hv, elem_of_list_to_set.
    + split; [done|]. split; [intros x; rewrite Hi; set_solver|].
      exists (v :: more). by rewrite Hp, <-(assoc_L (++)%list).
Qed.
Lemma mergeStringSlices_NoDup a b : NoDup a → NoDup (mergeStringSlices a b).
Proof. intros Ha. by apply (merge_step_spec b a). Qed.
Lemma elem_of_mergeStringSlices a b x : NoDup a → x ∈ mergeStringSlices a b ↔ x ∈ a ∨ x ∈ b.
Proof. intros Ha. by apply (merge_step_spec b a). Qed.

(** *** Rules *)
(** What a rule grants, as the classifier reads it. *)
Definition names (rule : json) (key target : string) : Prop :=
  ∃ v, v ∈ (ExtractStringSlice rule key).1 ∧ (v = target ∨ v = "*").
Definition grants_routes (rule : json) : Prop := is_object rule = true ∧ names rule "apiGroups" routeAPIGroup.
Definition grants_api (rule : json) : Prop :=
  is_object rule = true ∧ names rule "apiGroups" dspaAPIGroup ∧ names rule "resources" dspaAPISubresource.

Lemma containsStringOrWildcard_iff rule key target :
  containsStringOrWildcard (ExtractStringSlice rule key).1 target = true ↔ names rule key target.
Proof.
  unfold containsStringOrWildcard, names. rewrite existsb_exists. setoid_rewrite orb_true_iff. setoid_rewrite String.eqb_eq.
  by setoid_rewrite list_elem_of_In.
Qed.
Lemma elem_of_cons_such {A} (P : A → Prop) x (l : list A) : (∃ y, (y = x ∨ y ∈ l) ∧ P y) ↔ P x ∨ ∃ y, y ∈ l ∧ P y.
Proof. naive_solver. Qed.
Lemma rules_spec rules route dspa verbs :
  NoDup verbs →
  let r := foldl rule_step (route, dspa, verbs) rules in
  (r.1.1 = true ↔ route = true ∨ Exists grants_routes rules) ∧
  (r.1.2 = true ↔ dspa = true ∨ Exists grants_api rules) ∧
  NoDup r.2 ∧
  (∀ v, v ∈ r.2 ↔ v ∈ verbs ∨ ∃ rule, rule ∈ rules ∧ grants_routes rule ∧ v ∈ (ExtractStringSlice rule "verbs").1).
Proof.
  revert route dspa verbs. induction rules as [|rule rules IH]; intros route dspa verbs Hn; cbn [foldl].
  { rewrite !Exists_nil. split; [naive_solver|]. split; [naive_solver|]. split; [done|]. intros v. split; [by left|].
    intros [?|(rule & Hin%not_elem_of_nil & _)]; done. }
  rewrite !Exists_cons. setoid_rewrite elem_of_cons.
  pose proof (λ v, elem_of_cons_such (λ r, grants_routes r ∧ v ∈ (ExtractStringSlice r "verbs").1) rule rules) as Hcons.
  cbn beta in Hcons.
  set (acc := rule_step (route, dspa, verbs) rule). unfold rule_step in acc. destruct (is_object rule) eqn:Ho; cbn [negb] in acc; subst acc.
  - pose proof (containsStringOrWildcard_iff rule "apiGroups" routeAPIGroup) as Hr.
    pose proof (containsStringOrWildcard_iff rule "apiGroups" dspaAPIGroup) as Hd.
    pose proof (containsStringOrWildcard_iff rule "resources" dspaAPISubresource) as Hs.
    destruct (IH (route || containsStringOrWildcard (ExtractStringSlice rule "apiGroups").1 routeAPIGroup)
      (dspa || (containsStringOrWildcard (ExtractStringSlice rule "apiGroups").1 dspaAPIGroup &&
                containsStringOrWildcard (ExtractStringSlice rule "resources").1 dspaAPISubresource))
      (if containsStringOrWildcard (ExtractStringSlice rule "apiGroups").1 routeAPIGroup
       then mergeStringSlices verbs (ExtractStringSlice rule "verbs").1 else verbs)) as (H1 & H2 & H3 & H4).
    { case_match; [by apply mergeStringSlices_NoDup|done]. }
    rewrite H1, H2, !orb_true_iff, andb_true_iff, Hr, Hd, Hs. unfold grants_routes at 2, grants_api at 2. rewrite Ho.
    split; [tauto|]. split; [tauto|]. split; [done|]. intros v. rewrite H4, Hcons.
    destruct (containsStringOrWildcard (ExtractStringSlice rule "apiGroups").1 routeAPIGroup).
    + rewrite elem_of_mergeStringSlices by done. assert (grants_routes rule) by (split; [done|by apply Hr]). tauto.
    + assert (¬ grants_routes rule) by (intros [_ Hg]; by apply Hr in Hg). tauto.
  - destruct (IH route dspa verbs Hn) as (H1 & H2 & H3 & H4).
    assert (¬ grants_routes rule ∧ ¬ grants_api rule) as [Hg Ha] by (unfold grants_routes, grants_api; rewrite Ho; naive_solver).
    rewrite H1, H2. split; [tauto|]. split; [tauto|]. split; [done|]. intros v. rewrite H4, Hcons. tauto.
Qed.

(** ** A concrete cluster *)
Module AIPipelinesRun.
Definition strings (l : list string) : json := JArr (map JStr l).
Definition rule (apiGroups resources verbs : list string) : json :=
  JObj [("apiGroups", strings apiGroups); ("resources", strings resources); ("verbs", strings verbs)].
Definition role (ns name : string) (rules : list json) : json :=
  JObj [("metadata", JObj [("namespace", JStr ns); ("name", JStr name)]); ("rules", JArr rules)].
Definition routes : json := rule [routeAPIGroup] ["routes"] ["get"; "list"].
Definition api : json := rule [dspaAPIGroup] [dspaAPISubresource] ["get"].
Definition roles : list json :=
  [role "team" "custom" [routes; rule ["*"] ["pods"] ["get"; "watch"]]; role "team" "fixed" [routes; api];
   role "openshift-ingress" "router" [routes]; role "team" "ds-pipeline-sample" [routes]].
Definition only_v1alpha1 (rt : ResourceType) : res go_error (list json) :=
  if String.eqb (rt_Version rt) "v1" then Err (NewNotFound (K8sErrors := ClientRun.k8s) (rt_Group rt) (rt_Resource rt) "") else Ok [JObj []].
End AIPipelinesRun.
Import (hints) ClientRun VersionRun.

(** ** Properties *)
Module AIPipelinesSpec.
(** A Role is patched exactly when it is a user's, some rule of it grants
    routes and none grants the subresource of the applications; the verbs that
    are copied are those of its route rules, each once. *)
Theorem ClassifyRole_exact (role : json) :
  let c := ClassifyRole role in
  cl_RoleName c = GetName role ∧ cl_Namespace c = GetNamespace role ∧
  (cl_NeedsFix c = true ↔
     IsSystemNamespace (GetNamespace role) = false ∧ operatorManagedRole (GetName role) = false ∧
     ∃ rules, nested ["rules"] role = Some (JArr rules) ∧
       Exists grants_routes rules ∧ Forall (λ rule, ¬ grants_api rule) rules) ∧
  (cl_NeedsFix c = true → NoDup (cl_RouteVerbs c) ∧ ∀ rules, nested ["rules"] role = Some (JArr rules) →
     ∀ v, v ∈ cl_RouteVerbs c ↔
       ∃ rule, rule ∈ rules ∧ grants_routes rule ∧ v ∈ (ExtractStringSlice rule "verbs").1).
Proof.
  unfold ClassifyRole. cbv zeta. destruct (IsSystemNamespace _); [cbn; naive_solver|].
  destruct (operatorManagedRole _); [cbn; naive_solver|].
  destruct (nested ["rules"] role) as [[]|] eqn:Hr; try (cbn; naive_solver).
  destruct (rules_spec l false false [] (NoDup_nil_2)) as (H1 & H2 & H3 & H4).
  destruct (foldl rule_step (false, false, []) l) as [[route dspa] verbs]. cbn [fst snd] in *.
  cbn [cl_NeedsFix cl_RoleName cl_Namespace cl_RouteVerbs]. split; [done|]. split; [done|].
  assert (Forall (λ rule, ¬ grants_api rule) l ↔ ¬ Exists grants_api l) as Hfe by apply Forall_Exists_neg.
  rewrite andb_true_iff, negb_true_iff, <-not_true_iff_false, H1, H2. split.
  - split; [|intros (_ & _ & rules & [= <-] & Hg & Ha); apply Hfe in Ha; split; [by right|by intros [?|?]]].
    intros [[?|Hx] Hn]; [done|]. split; [done|]. split; [done|]. exists l. tauto.
  - intros _. split; [done|]. intros rules [= <-] v. rewrite H4. split; [|by right].
    intros [Hin%not_elem_of_nil|]; done.
Qed.

Lemma ClassifyRole_exact_witness :
  cl_NeedsFix (ClassifyRole (AIPipelinesRun.role "team" "custom" [AIPipelinesRun.routes])) = true ∧
  NoDup (cl_RouteVerbs (ClassifyRole (AIPipelinesRun.role "team" "custom" [AIPipelinesRun.routes]))).
Proof.
  destruct (ClassifyRole_exact (AIPipelinesRun.role "team" "custom" [AIPipelinesRun.routes])) as (_ & _ & _ & Hv).
  split; [vm_compute; reflexivity|]. apply Hv. vm_compute. reflexivity.
Defined.

(** The scan returns, in the order of the list, the Roles to patch and no
    other. *)
Theorem FindRolesNeedingFix_exact (List : ResourceType → res go_error (list json)) roles :
  List Role = Ok roles →
  ∃ found, FindRolesNeedingFix List = Ok found ∧
    found = map ClassifyRole (List.filter (λ role, cl_NeedsFix (ClassifyRole role)) roles) ∧
    ∀ c, c ∈ found ↔ ∃ role, role ∈ roles ∧ c = ClassifyRole role ∧ cl_NeedsFix c = true.
Proof.
  intros Hl. unfold FindRolesNeedingFix. rewrite Hl. cbn [res_map_err res_bind].
  eexists. split; [reflexivity|]. split.
  - clear Hl. induction roles as [|r roles IH]; [done|]. cbn [map List.filter]. destruct (cl_NeedsFix (ClassifyRole r)); cbn [map]; by rewrite IH.
  - intros c. rewrite list_elem_of_In, filter_In, in_map_iff. setoid_rewrite list_elem_of_In. naive_solver.
Qed.

Lemma FindRolesNeedingFix_exact_witness :
  ∃ found, FindRolesNeedingFix (λ _, Ok AIPipelinesRun.roles) = Ok found ∧ map cl_RoleName found = ["custom"] ∧
    map cl_RouteVerbs found = [["get"; "list"; "watch"]].
Proof.
  destruct (FindRolesNeedingFix_exact (λ _, Ok AIPipelinesRun.roles) AIPipelinesRun.roles eq_refl) as (found & Hf & -> & _).
  eexists. split; [exact Hf|]. vm_compute. split; reflexivity.
Defined.

(** A Role that reaches the subresource through the wildcard of subresources
    is classified as missing it. *)
Example subresource_wildcard_not_recognised :
  cl_NeedsFix (ClassifyRole (AIPipelinesRun.role "team" "wild"
    [AIPipelinesRun.routes; AIPipelinesRun.rule [dspaAPIGroup] ["*/api"] ["get"]])) = true.
Proof. vm_compute. reflexivity. Qed.

(** The applications are those of v1, of v1alpha1 where v1 is not served, and
    the type returned is the one they were listed with. *)
Theorem ListDSPAs_version `{AE : ApiErrors} (List : ResourceType → res go_error (list json)) dspas rt :
  ListDSPAs List = Ok (dspas, rt) ↔
  (rt = DataSciencePipelinesApplicationV1 ∧ List DataSciencePipelinesApplicationV1 = Ok dspas) ∨
  (rt = DataSciencePipelinesApplicationV1Alpha1 ∧ List DataSciencePipelinesApplicationV1Alpha1 = Ok dspas ∧
   ∃ e, List DataSciencePipelinesApplicationV1 = Err e ∧ IsNotFound e = true).
Proof.
  unfold ListDSPAs. destruct (List DataSciencePipelinesApplicationV1) as [l|e|s].
  - split; [intros [= <- <-]; by left|]. intros [[-> [= ->]]|(_ & _ & e & He & _)]; done.
  - destruct (IsNotFound e) eqn:Hn; cbn [negb].
    + destruct (List DataSciencePipelinesApplicationV1Alpha1) as [l|e'|s']; cbn [res_map_err res_bind]; (split; [|naive_solver]); try done.
      intros [= <- <-]. right. split; [done|]. split; [done|]. by exists e.
    + split; [done|]. intros [[_ [=]]|(_ & _ & e' & [= <-] & He)]. by rewrite He in Hn.
  - split; [done|]. intros [[_ [=]]|(_ & _ & e' & [=] & _)].
Qed.

(** The checks apply exactly when the component is managed under one of its
    two keys or applications remain, and the second key hides the first. *)
Theorem ShouldApplyChecks_decides `{AE : ApiErrors, JQ : GoJq} (List : ResourceType → res go_error (list json)) dsc s1 s2 dspas rt :
  GetManagementState dsc ComponentKeyV2 = Ok s2 → GetManagementState dsc ComponentKeyV1 = Ok s1 →
  ListDSPAs List = Ok (dspas, rt) →
  ∃ b, ShouldApplyChecks List dsc = Ok b ∧
    (b = true ↔ s2 = ManagementStateManaged ∨ s1 = ManagementStateManaged ∨ dspas ≠ []).
Proof.
  intros H2 H1 Hl. unfold ShouldApplyChecks, HasManagementState, state_in, HasDSPAs. rewrite H2, Hl. cbn [res_bind res_map_err].
  unfold contains_str. cbn [existsb]. rewrite orb_false_r. destruct (String.eqb_spec s2 ManagementStateManaged) as [->|Hn2]; cbn [res_bind orb].
  - exists true. split; [done|]. split; [intros _; by left|done].
  - rewrite H1. cbn [res_bind]. destruct (String.eqb_spec s1 ManagementStateManaged) as [->|Hn1]; cbn [orb].
    + exists true. split; [done|]. split; [intros _; right; by left|done].
    + eexists. split; [reflexivity|]. destruct dspas; cbn [fst length Nat.ltb Nat.leb]; naive_solver.
Qed.

Lemma ShouldApplyChecks_decides_witness :
  ∃ b, ShouldApplyChecks (AE := ClientRun.api) (JQ := VersionRun.path_jq) AIPipelinesRun.only_v1alpha1 (JObj []) = Ok b ∧ b = true.
Proof.
  destruct (ShouldApplyChecks_decides (AE := ClientRun.api) (JQ := VersionRun.path_jq) AIPipelinesRun.only_v1alpha1 (JObj []) "Removed" "Removed" [JObj []]
    DataSciencePipelinesApplicationV1Alpha1) as (b & Hb & Hi); [vm_compute; reflexivity..|].
  exists b. split; [exact Hb|]. apply Hi. right. right. done.
Defined.
End AIPipelinesSpec.
