(* ===== verification/WorkloadChecks.v ===== *)
(** * WorkloadChecks: pkg/lint/checks/workloads, the smaller packages

    AI pipelines (datasciencepipelines/), the orchestrators of guardrails
    (guardrails/), LlamaStack (llamastack/) and its successor (ogx/), Ray
    (ray/) and the two trainers (trainer/, trainingoperator/).

    The decoder of the YAML document in a ConfigMap is a parameter, and so is
    the list of RayClusters with their finalizers, which no other check
    reads. *)
From S2P Require Import Prelude GoStrings Errors Client Version Result Check Validate CheckKit DepsCheck BackupDeps WorkloadHelpers.
From S2P Require Import NotebookChecks KueueIntegrity ComponentChecks DashboardChecks KServeChecks DependencyChecks AIPipelines.
Open Scope string_scope.
Open Scope Z_scope.
Open Scope go_scope.

Definition ReasonFeatureRemoved := "FeatureRemoved".
Definition TrainJob : ResourceType := mkResourceType "trainer.kubeflow.org" "v1alpha1" "TrainJob" "trainjobs".
Definition GuardrailsOrchestrator : ResourceType :=
  mkResourceType "trustyai.opendatahub.io" "v1alpha1" "GuardrailsOrchestrator" "guardrailsorchestrators".
Definition AppWrapper : ResourceType := mkResourceType "workload.codeflare.dev" "v1beta2" "AppWrapper" "appwrappers".
Definition LlamaStackDistribution : ResourceType :=
  mkResourceType "llamastack.io" "v1alpha1" "LlamaStackDistribution" "llamastackdistributions".
Definition OGXServer : ResourceType := mkResourceType "ogx.io" "v1beta1" "OGXServer" "ogxservers".

(** A RayCluster as its metadata shows it. *)
Record RayClusterMetadata := mkRayCluster { rc_Object : PartialObjectMetadata; rc_Finalizers : list string }.
#[export] Instance ray_NamespacedNamer : NamespacedNamer RayClusterMetadata := λ rc, ToNamespacedName (rc_Object rc).

Definition workload_check `{Semver} (kind checkType id name description remediation : string)
    (can : Target → res go_error bool) (validate : Check → Target → res go_error (option DiagnosticResult)) : Check :=
  embed (mkBaseCheck GroupWorkload kind checkType id name description remediation) can validate.
Definition builder_for `{Semver} {T} (c : Check) (target : Target) (rt : ResourceType) (listFn : res go_error (list T))
    (filter : option (T → res go_error bool)) (components : list string) : WorkloadBuilder (T := T) :=
  {| wb_check := c; wb_target := target; wb_resourceType := rt; wb_listFn := listFn; wb_filterFn := filter;
     wb_componentNames := components |}.
Definition one_of (cond : res go_error Condition) : res go_error (list Condition) := let! c := cond in Ok [c].
(** [jq.Query] of an optional field: absence is the zero value. *)
Definition optional {A} (zero : A) (queried : res go_error A) : res go_error A :=
  match queried with
  | Err err => if errors_is JqErrNotFound err then Ok zero else Err err
  | other => other
  end.

Section Workloads.
Context `{SV : Semver, AE : ApiErrors, KE : K8sErrors, SRV : ApiServer, JQ : GoJq, CL : Clock}.
Context (ListWith : ResourceType → ListOptions → res go_error (list json)).
Context (ListMetadataWith : ResourceType → ListOptions → res go_error (list PartialObjectMetadata)).
Notation ListPlain := (ListPlain ListWith).
Notation JsonRequest := (WorkloadRequest (T := json)).

(** ** The gates *)
Definition removed_in_3x (component : string) (target : Target) : res go_error bool :=
  component_gate ListPlain (from_2x_to_3x target) component [ManagementStateManaged].
Definition crossing_3_6 (component : string) (target : Target) : res go_error bool :=
  component_gate ListPlain (IsVersionAtLeast (t_TargetVersion target) 3 6 && negb (IsVersionAtLeast (t_CurrentVersion target) 3 6))
    component [ManagementStateManaged].

(** ** trainer *)
Definition ComponentTrainer := "trainer".
(** *** podtemplateoverrides.go, podtemplateoverrides_support.go *)
Definition ConditionTypePodTemplateOverridesCompatible := "PodTemplateOverridesCompatible".
Definition kbArticleURL := "https://access.redhat.com/articles/7146204".
Definition overrides_remediation :=
  "We recommend waiting for TrainJobs that use podTemplateOverrides to complete before upgrading when possible. After upgrade, recreate TrainJobs using runtimePatches. See "
    +:+ kbArticleURL.
Definition hasPodTemplateOverrides (obj : json) : res go_error bool :=
  let! val := optional [] (jq_Query_array obj ".spec.podTemplateOverrides") in Ok (0 <? length val)%nat.
Definition newPodTemplateOverridesCondition (req : JsonRequest) : res go_error (list Condition) :=
  let count := length (wr_Items req) in
  if (count =? 0)%nat then
    one_of (NewCondition ConditionTypePodTemplateOverridesCompatible ConditionTrue
      [WithReason ReasonVersionCompatible;
       WithMessage "No TrainJob(s) with podTemplateOverrides found - ready for OpenShift AI 3.6 Trainer upgrade"])
  else
    one_of (NewCondition ConditionTypePodTemplateOverridesCompatible ConditionFalse
      [WithReason ReasonWorkloadsImpacted;
       WithMessage ("Found " +:+ itoa (Z.of_nat count) +:+
         " TrainJob(s) that use podTemplateOverrides. In OpenShift AI 3.6, Trainer v2.3 removes podTemplateOverrides and replaces it with runtimePatches. Pause and resume of these pre-upgrade TrainJobs may fail after upgrade, including when managed by Kueue. We recommend waiting for these jobs to complete before upgrading when possible. After upgrade, recreate TrainJobs using runtimePatches. See "
         +:+ kbArticleURL);
       WithImpact ImpactAdvisory; WithRemediation overrides_remediation]).
Definition overrides_Validate (c : Check) (target : Target) : res go_error (option DiagnosticResult) :=
  Workload_Complete ListPlain
    (builder_for c target TrainJob (ListPlain TrainJob) (Some hasPodTemplateOverrides) [ComponentTrainer])
    newPodTemplateOverridesCondition.
Definition overrides_CanApply : Target → res go_error bool := crossing_3_6 ComponentTrainer.
Definition NewPodTemplateOverridesCheck : Check :=
  workload_check ComponentTrainer "impacted-workloads" "workloads.trainer.podtemplateoverrides"
    "Workloads :: Trainer :: PodTemplateOverrides (3.6+)"
    "Detects TrainJobs using podTemplateOverrides that may fail pause/resume after upgrading to OpenShift AI 3.6"
    overrides_remediation overrides_CanApply overrides_Validate.

(** *** numprocpernode.go *)
Definition conditionTypeNumProcPerNodeCompatible := "NumProcPerNodeCompatible".
Definition numproc_remediation :=
  "Delete TrainJobs with a string spec.trainer.numProcPerNode value before upgrading. The field is immutable. Consult the TrainJob owner before deletion; recreate the TrainJob after the upgrade, if desired, with a nil value, which is equivalent to auto.".
Definition hasStringNumProcPerNode (obj : json) : res go_error bool :=
  let! value := optional JNull (jq_Query_any obj ".spec.trainer.numProcPerNode") in
  Ok (match value with JStr _ => true | _ => false end).
Definition newNumProcPerNodeCondition (req : JsonRequest) : res go_error (list Condition) :=
  let count := length (wr_Items req) in
  if (count =? 0)%nat then
    one_of (NewCondition conditionTypeNumProcPerNodeCompatible ConditionTrue
      [WithReason ReasonVersionCompatible;
       WithMessage "No TrainJob(s) with a string numProcPerNode value found - ready for OpenShift AI 3.6 Trainer upgrade"])
  else
    one_of (NewCondition conditionTypeNumProcPerNodeCompatible ConditionFalse
      [WithReason ReasonWorkloadsImpacted;
       WithMessage ("Found " +:+ itoa (Z.of_nat count) +:+
         " TrainJob(s) with a string spec.trainer.numProcPerNode value. These TrainJobs must be deleted before upgrading to OpenShift AI 3.6 or the Trainer controller will not start. Consult the TrainJob owner before deleting them.");
       WithImpact ImpactBlocking; WithRemediation numproc_remediation]).
Definition numproc_Validate (c : Check) (target : Target) : res go_error (option DiagnosticResult) :=
  Workload_Complete ListPlain
    (builder_for c target TrainJob (ListPlain TrainJob) (Some hasStringNumProcPerNode) [ComponentTrainer])
    newNumProcPerNodeCondition.
Definition numproc_CanApply : Target → res go_error bool := crossing_3_6 ComponentTrainer.
Definition NewNumProcPerNodeCheck : Check :=
  workload_check ComponentTrainer "impacted-workloads" "workloads.trainer.numprocpernode"
    "Workloads :: Trainer :: numProcPerNode (3.6+)"
    "Detects TrainJobs with a string numProcPerNode value that prevents the Trainer controller from starting after an OpenShift AI 3.6 upgrade"
    numproc_remediation numproc_CanApply numproc_Validate.

(** ** ogx/externalaccess.go *)
Definition conditionTypeExternalAccessTLSConfigured := "ExternalAccessTLSConfigured".
Definition externalaccess_remediation :=
  "After upgrading, set spec.network.externalAccess.hostname and spec.network.externalAccess.tls.secretName on each listed OGXServer. The Secret must be a TLS Secret for that hostname in the OGXServer's namespace. If an OGXServer does not need external access, set spec.network.externalAccess.enabled to false before upgrading instead.".
Definition queryOptionalString (obj : json) (query : string) : res go_error string := optional "" (jq_Query_string obj query).
Definition lacksExternalAccessTLS (obj : json) : res go_error bool :=
  let! enabled := optional false (jq_Query false "bool" as_bool obj ".spec.network.externalAccess.enabled") in
  if negb enabled then Ok false
  else
    let! hostname := queryOptionalString obj ".spec.network.externalAccess.hostname" in
    let! secretName := queryOptionalString obj ".spec.network.externalAccess.tls.secretName" in
    Ok (String.eqb hostname "" || String.eqb secretName "").
Definition msgNoImpactedOGXServers :=
  "No OGXServer(s) with external access enabled and a missing hostname or TLS Secret found - ready for OpenShift AI 3.6".
Definition msgImpactedOGXServers (n : nat) : string :=
  "Found " +:+ itoa (Z.of_nat n) +:+ " OGXServer(s) with external access enabled and a missing hostname or TLS Secret." +:+
  " OpenShift AI 3.6 requires both when external access is enabled, and rejects changes to these" +:+
  " OGXServer(s) that leave external access enabled without both".
Definition newExternalAccessTLSCondition (req : JsonRequest) : res go_error (list Condition) :=
  let count := length (wr_Items req) in
  if (count =? 0)%nat then
    one_of (NewCondition conditionTypeExternalAccessTLSConfigured ConditionTrue
      [WithReason ReasonVersionCompatible; WithMessage msgNoImpactedOGXServers])
  else
    one_of (NewCondition conditionTypeExternalAccessTLSConfigured ConditionFalse
      [WithReason ReasonWorkloadsImpacted; WithMessage (msgImpactedOGXServers count);
       WithImpact ImpactAdvisory; WithRemediation externalaccess_remediation]).
Definition externalaccess_Validate (c : Check) (target : Target) : res go_error (option DiagnosticResult) :=
  Workload_Complete ListPlain
    (builder_for c target OGXServer (ListPlain OGXServer) (Some lacksExternalAccessTLS) ["ogx"])
    newExternalAccessTLSCondition.
Definition externalaccess_CanApply : Target → res go_error bool := crossing_3_6 "ogx".
Definition NewExternalAccessTLSCheck : Check :=
  workload_check "ogx" "impacted-workloads" "workloads.ogx.externalaccess-tls" "Workloads :: OGX :: External Access TLS (3.6+)"
    "Detects OGXServers with external access enabled and no hostname or TLS Secret, which OpenShift AI 3.6 requires"
    externalaccess_remediation externalaccess_CanApply externalaccess_Validate.

(** ** trainingoperator/impacted.go, impacted_support.go *)
Definition ConditionTypePyTorchJobsCompatible := "PyTorchJobsCompatible".
Definition pytorch_remediation :=
  "Complete or delete active PyTorchJobs before upgrading; migrate to Trainer v2 TrainJob API".
Definition is_completion (condition : json) : bool :=
  is_object condition &&
  ((String.eqb (str_at "type" condition) "Succeeded" || String.eqb (str_at "type" condition) "Failed") &&
   String.eqb (str_at "status" condition) "True").
Definition isJobCompleted (job : json) : res go_error bool :=
  match jq_Query_array job ".status.conditions" with
  | Panic s => Panic s
  | Err err => if errors_is JqErrNotFound err then Ok false else Err (errorf_w "querying job conditions" err)
  | Ok conditions => Ok (existsb is_completion conditions)
  end.
Definition newPyTorchJobCondition (activeCount completedCount : nat) (isRemoval : bool) : res go_error Condition :=
  let totalCount := (activeCount + completedCount)%nat in
  let count n := itoa (Z.of_nat n) in
  let impact := if isRemoval then ImpactBlocking else ImpactAdvisory in
  let verb := if isRemoval then "removed in 3.6" else "deprecated" in
  if (totalCount =? 0)%nat then
    NewCondition ConditionTypePyTorchJobsCompatible ConditionTrue
      [WithReason ReasonVersionCompatible;
       WithMessage "No PyTorchJob(s) found - no workloads impacted by TrainingOperator removal"]
  else if (0 <? activeCount)%nat && (0 <? completedCount)%nat then
    NewCondition ConditionTypePyTorchJobsCompatible ConditionFalse
      [WithReason ReasonWorkloadsImpacted;
       WithMessage ("Found " +:+ count totalCount +:+ " PyTorchJob(s) (" +:+ count activeCount +:+ " active, " +:+
         count completedCount +:+ " completed) - TrainingOperator (Kubeflow v1) is " +:+ verb +:+ ", migrate to Trainer v2");
       WithImpact impact; WithRemediation pytorch_remediation]
  else if (0 <? activeCount)%nat then
    NewCondition ConditionTypePyTorchJobsCompatible ConditionFalse
      [WithReason ReasonWorkloadsImpacted;
       WithMessage ("Found " +:+ count activeCount +:+ " active PyTorchJob(s) - TrainingOperator (Kubeflow v1) is " +:+ verb +:+
         ", drain and migrate to Trainer v2");
       WithImpact impact; WithRemediation pytorch_remediation]
  else
    NewCondition ConditionTypePyTorchJobsCompatible ConditionTrue
      [WithReason ReasonVersionCompatible;
       WithMessage ("Found " +:+ count completedCount +:+
         " completed PyTorchJob(s) - workloads previously used TrainingOperator (Kubeflow v1)")].
(** The loop: the jobs that are active and those that are completed. *)
Fixpoint split_jobs (jobs : list json) : res go_error (list NamespacedName * list NamespacedName) :=
  match jobs with
  | [] => Ok ([], [])
  | job :: rest =>
      let nsName := ToNamespacedName job in
      try! completed := isJobCompleted job
        else errorf_w ("checking job " +:+ nn_Namespace nsName +:+ "/" +:+ nn_Name nsName +:+ " completion") in
      let! found := split_jobs rest in
      Ok (if (completed : bool) then (found.1, nsName :: found.2) else (nsName :: found.1, found.2))
  end.
Definition report_jobs (target : Target) (req : JsonRequest) : res go_error DiagnosticResult :=
  let! jobs := split_jobs (wr_Items req) in
  let isRemoval := IsVersionAtLeast (t_TargetVersion target) 3 6 in
  let! cond := newPyTorchJobCondition (length jobs.1) (length jobs.2) isRemoval in
  Ok (SetCondition (wr_Result req) cond).
Definition pytorch_CanApply (target : Target) : res go_error bool :=
  component_gate ListPlain (IsVersionAtLeast (t_TargetVersion target) 3 3) "trainingoperator" [ManagementStateManaged].
Definition pytorch_Validate (c : Check) (target : Target) : res go_error (option DiagnosticResult) :=
  Workload_Run ListPlain (builder_for c target PyTorchJob (ListPlain PyTorchJob) None []) (report_jobs target).
Definition NewPyTorchImpactedCheck : Check :=
  workload_check "trainingoperator" "impacted-workloads" "workloads.trainingoperator.impacted-workloads"
    "Workloads :: TrainingOperator :: Impacted Workloads (3.3+)"
    "Lists PyTorchJobs using deprecated TrainingOperator (Kubeflow v1) that will be impacted by removal in 3.6 and transition to Trainer v2"
    pytorch_remediation pytorch_CanApply pytorch_Validate.

(** ** llamastack *)
Definition upgrade_action (action : string) (llsd : json) : PartialObjectMetadata :=
  mkPartial (ResourceType_TypeMeta LlamaStackDistribution) (GetNamespace llsd) (GetName llsd) {["upgrade.action" := action]}.
(** What the two checks share: all distributions are impacted. *)
Definition all_distributions (conditionType none reason message remediation action : string) (req : JsonRequest)
    : res go_error DiagnosticResult :=
  match wr_Items req with
  | [] => set_new (wr_Result req) conditionType ConditionTrue [WithReason ReasonResourceNotFound; WithMessage none]
  | items =>
      let! dr := set_new (wr_Result req) conditionType ConditionFalse
        [WithReason reason; WithMessage ("Found " +:+ itoa (Z.of_nat (length items)) +:+ message);
         WithImpact ImpactBlocking; WithRemediation remediation] in
      Ok (with_objects dr (map (upgrade_action action) items))
  end.
(** *** llamastack.go *)
Definition ConditionTypeRequiresRecreation := "RequiresRecreation".
Definition recreation_remediation :=
  "1. Run 'kubectl odh migrate prepare' to back up existing LlamaStack configurations and pod data. 2. Coordinate with LLSD owners about data loss and recreation requirements. 3. After RHOAI 3.3+ upgrade, delete old LLSDs and create new ones following RHOAI 3.3+ documentation.".
Definition llamastack_config_distributions : JsonRequest → res go_error DiagnosticResult :=
  all_distributions ConditionTypeRequiresRecreation
    "No LlamaStackDistribution resources found - upgrade can proceed without LlamaStack-specific actions"
    "ArchitecturalIncompatibility"
    " LlamaStackDistribution(s) that must be deleted and recreated after RHOAI 3.3+ upgrade. In-place upgrade is not supported. ALL DATA WILL BE LOST - Archive data before upgrade."
    recreation_remediation "requires-recreation".
Definition llamastack_config_Validate (c : Check) (target : Target) : res go_error (option DiagnosticResult) :=
  Workload_Run ListPlain (builder_for c target LlamaStackDistribution (ListPlain LlamaStackDistribution) None [])
    llamastack_config_distributions.
Definition llamastack_config_CanApply : Target → res go_error bool := removed_in_3x "llamastackoperator".
Definition NewConfigCheck : Check :=
  workload_check "llamastackdistribution" "config" "workloads.llamastack.config"
    "Workloads :: LlamaStack :: Upgrade Preparation (2.x to 3.3+)"
    "Identifies LlamaStackDistribution resources that require deletion and recreation for RHOAI 3.3+ upgrade"
    "Run 'kubectl odh migrate prepare' to back up LlamaStack resources, coordinate with owners about data loss, then delete and recreate LlamaStackDistributions after upgrade following RHOAI 3.3+ documentation"
    llamastack_config_CanApply llamastack_config_Validate.

(** *** migration.go *)
Definition ConditionTypeRequiresMigration := "RequiresMigration".
Definition llamastack_migration_remediation :=
  "Back up LlamaStack resources using 'odh-cli migrate prepare --migration llamastack.backup', then recreate as OGXServer v1beta1 CRs after upgrade following the OGX migration guide".
Definition llamastack_migration_distributions : JsonRequest → res go_error DiagnosticResult :=
  all_distributions ConditionTypeRequiresMigration
    "No LlamaStackDistribution resources found - no CR migration needed for 3.5 upgrade" "CRTypeMigration"
    " LlamaStackDistribution(s) that must be migrated to OGXServer v1beta1 after RHOAI 3.5 upgrade. The LlamaStackDistribution CRD is removed in 3.5 and replaced by OGXServer."
    llamastack_migration_remediation "requires-migration-to-ogxserver".
Definition llamastack_migration_CanApply (target : Target) : res go_error bool :=
  component_gate ListPlain (IsUpgradeFrom34To35 (t_CurrentVersion target) (t_TargetVersion target)) "llamastackoperator"
    [ManagementStateManaged].
Definition llamastack_migration_Validate (c : Check) (target : Target) : res go_error (option DiagnosticResult) :=
  Workload_Run ListPlain (builder_for c target LlamaStackDistribution (ListPlain LlamaStackDistribution) None [])
    llamastack_migration_distributions.
Definition NewMigrationCheck : Check :=
  workload_check "llamastackdistribution" "migration" "workloads.llamastack.migration"
    "Workloads :: LlamaStack :: CR Migration (3.4 to 3.5)"
    "Identifies LlamaStackDistribution resources that must be migrated to OGXServer v1beta1 for RHOAI 3.5 upgrade"
    llamastack_migration_remediation llamastack_migration_CanApply llamastack_migration_Validate.

(** ** ray *)
Definition finalizerCodeFlareOAuth := "ray.openshift.ai/oauth-finalizer".
Definition RayPreUpgradeBackupAnnotation := "odh.ray.io/pre-upgrade-backup-taken".
Definition dscComponent := "codeflare".
(** *** appwrapper_cleanup.go *)
Definition ConditionTypeAppWrapperCompatible := "AppWrapperCompatible".
Definition appwrapper_remediation :=
  "Remove redundant AppWrapper CRs or install the AppWrapper controller separately before upgrading".
Definition newAppWrapperCondition (req : WorkloadRequest (T := PartialObjectMetadata)) : res go_error (list Condition) :=
  let count := length (wr_Items req) in
  if (0 <? count)%nat then
    one_of (NewCondition ConditionTypeAppWrapperCompatible ConditionFalse
      [WithReason ReasonVersionIncompatible;
       WithMessage ("Found " +:+ itoa (Z.of_nat count) +:+
         " AppWrapper workload CRs. The AppWrapper controller has been removed from OpenShift AI as part of the broader CodeFlare Operator removal process. Please remove any redundant CRs or install AppWrapper separately");
       WithImpact ImpactAdvisory; WithRemediation appwrapper_remediation])
  else
    one_of (NewCondition ConditionTypeAppWrapperCompatible ConditionTrue
      [WithReason ReasonVersionCompatible;
       WithMessage ("No AppWrapper(s) found - ready for RHOAI " +:+ MajorMinorLabel (t_TargetVersion (wr_Target req)) +:+ " upgrade")]).
Definition appwrapper_Validate (c : Check) (target : Target) : res go_error (option DiagnosticResult) :=
  Workload_Complete ListPlain (builder_for c target AppWrapper (ListMetadata ListMetadataWith AppWrapper) None [])
    newAppWrapperCondition.
Definition appwrapper_CanApply : Target → res go_error bool := removed_in_3x dscComponent.
Definition NewAppWrapperCleanupCheck : Check :=
  workload_check "ray" "impacted-workloads" "workloads.ray.appwrapper-cleanup" "Workloads :: Ray :: AppWrapper Cleanup (3.x)"
    "Lists AppWrappers managed by CodeFlare that will be impacted in RHOAI 3.x"
    appwrapper_remediation appwrapper_CanApply appwrapper_Validate.

(** *** impacted.go, impacted_support.go *)
Context (ListRayClusters : res go_error (list RayClusterMetadata)).
Definition ConditionTypeCodeFlareRayClusterCompatible := "CodeFlareRayClustersCompatible".
Definition ray_remediation :=
  "Delete or back up CodeFlare-managed RayClusters before upgrading, as CodeFlare will not be available in RHOAI 3.x".
Definition backed_up (obj : PartialObjectMetadata) : bool :=
  negb (String.eqb (at_key (po_Annotations obj) RayPreUpgradeBackupAnnotation) "").
Definition newCodeFlareRayClusterCondition (req : WorkloadRequest (T := RayClusterMetadata)) : res go_error Condition :=
  let total := length (wr_Items req) in
  let targetLabel := MajorMinorLabel (t_TargetVersion (wr_Target req)) in
  let withAnnotation := length (List.filter (λ rc, backed_up (rc_Object rc)) (wr_Items req)) in
  if (total =? 0)%nat then
    NewCondition ConditionTypeCodeFlareRayClusterCompatible ConditionTrue
      [WithReason ReasonVersionCompatible;
       WithMessage ("No CodeFlare-managed RayCluster(s) found - ready for RHOAI " +:+ targetLabel +:+ " upgrade")]
  else if (withAnnotation =? total)%nat then
    NewCondition ConditionTypeCodeFlareRayClusterCompatible ConditionTrue
      [WithReason ReasonVersionCompatible;
       WithMessage ("All " +:+ itoa (Z.of_nat total) +:+
         " CodeFlare-managed RayCluster(s) have completed pre-upgrade steps - ready for RHOAI " +:+ targetLabel)]
  else
    NewCondition ConditionTypeCodeFlareRayClusterCompatible ConditionFalse
      [WithReason ReasonVersionIncompatible;
       WithMessage ("Found " +:+ itoa (Z.of_nat (total - withAnnotation)) +:+
         " CodeFlare-managed RayCluster(s) which have not had pre-upgrade steps completed, not ready for RHOAI " +:+ targetLabel +:+ " upgrade");
       WithImpact ImpactAdvisory; WithRemediation ray_remediation].
(** The copy of an item, its type filled in where the server left it out. *)
Definition typed_cluster (obj : PartialObjectMetadata) : PartialObjectMetadata :=
  let tm := po_TypeMeta obj in
  let dflt := ResourceType_TypeMeta RayCluster in
  mkPartial
    (mkTypeMeta (if String.eqb (tm_APIVersion tm) "" then tm_APIVersion dflt else tm_APIVersion tm)
                (if String.eqb (tm_Kind tm) "" then tm_Kind dflt else tm_Kind tm))
    (po_Namespace obj) (po_Name obj) (po_Annotations obj).
Definition validateRayClustersWithBackupStatus (req : WorkloadRequest (T := RayClusterMetadata)) : res go_error DiagnosticResult :=
  let! cond := newCodeFlareRayClusterCondition req in
  Ok (with_objects (SetCondition (wr_Result req) cond) (map (λ rc, typed_cluster (rc_Object rc)) (wr_Items req))).
Definition codeflare_owned (rc : RayClusterMetadata) : res go_error bool :=
  Ok (contains_str (rc_Finalizers rc) finalizerCodeFlareOAuth).
Definition ray_Validate (c : Check) (target : Target) : res go_error (option DiagnosticResult) :=
  Workload_Run ListPlain (builder_for c target RayCluster ListRayClusters (Some codeflare_owned) [])
    validateRayClustersWithBackupStatus.
Definition ray_CanApply : Target → res go_error bool := removed_in_3x "ray".
Definition NewRayImpactedCheck : Check :=
  workload_check "ray" "impacted-workloads" "workloads.ray.impacted-workloads" "Workloads :: Ray :: Impacted Workloads (3.x)"
    "Lists RayClusters managed by CodeFlare that will be impacted in RHOAI 3.x (CodeFlare not available)"
    ray_remediation ray_CanApply ray_Validate.
Definition formatRayImpactedObject (obj : PartialObjectMetadata) : string :=
  let name := if negb (String.eqb (po_Namespace obj) "") then po_Namespace obj +:+ "/" +:+ po_Name obj else po_Name obj in
  let kind := if String.eqb (tm_Kind (po_TypeMeta obj)) "" then "RayCluster" else tm_Kind (po_TypeMeta obj) in
  if backed_up obj then "    - [INFO] " +:+ name +:+ " (" +:+ kind +:+ ") - pre-upgrade steps completed"
  else "    - [WARNING] " +:+ name +:+ " (" +:+ kind +:+ ") - pre-upgrade steps not complete".
Definition formatRayImpactedObjects (objects : list PartialObjectMetadata) : list string := map formatRayImpactedObject objects.
Definition Ray_FormatVerboseOutput (dr : DiagnosticResult) : list string :=
  formatRayImpactedObjects (default [] (r_ImpactedObjects dr)).

(** ** datasciencepipelines *)
Definition dsp_gate (target : Target) : res go_error bool :=
  if negb (from_2x_to_3x target) then Ok false
  else
    try! dsc := GetDataScienceCluster ListPlain else errorf_w "getting DataScienceCluster" in
    res_map_err (errorf_w "checking AI Pipelines component applicability") (ShouldApplyChecks ListPlain dsc).
(** *** custom_rbac_api_subresource.go *)
Definition checkTypeCustomRBACAPISubresource := "custom-rbac-api-subresource".
Definition rbac_remediation := "Run 'kubectl odh migrate run -m ai-pipelines.update-dsp-role' to patch affected Roles".
Definition role_name (c : Classification) : NamespacedName := mkNN (cl_Namespace c) (cl_RoleName c).
Definition custom_rbac_Validate (c : Check) (target : Target) : res go_error DiagnosticResult :=
  let tv := MajorMinorLabel (t_TargetVersion target) in
  let dr := annotate_target target (NewResult c) in
  try! roles := FindRolesNeedingFix ListPlain else errorf_w "scanning roles for DSPA API subresource gaps" in
  let dr := count_annotation dr (length roles) in
  if (0 <? length roles)%nat then
    set_new (SetImpactedObjects dr Role (map role_name roles)) ConditionTypeCompatible ConditionFalse
      [WithReason ReasonVersionIncompatible;
       WithMessage ("Found " +:+ itoa (Z.of_nat (length roles)) +:+
         " custom Role(s) with route.openshift.io permissions missing the datasciencepipelinesapplications/api subresource required in RHOAI "
         +:+ tv);
       WithImpact ImpactBlocking; WithRemediation rbac_remediation]
  else
    set_new dr ConditionTypeCompatible ConditionTrue
      [WithReason ReasonVersionCompatible;
       WithMessage ("No custom Roles missing datasciencepipelinesapplications/api subresource - ready for RHOAI " +:+ tv +:+ " upgrade")].
Definition custom_rbac_CanApply : Target → res go_error bool := dsp_gate.
Definition NewCustomRBACAPISubresourceCheck : Check :=
  workload_check "datasciencepipelines" checkTypeCustomRBACAPISubresource "workloads.datasciencepipelines.custom-rbac-api-subresource"
    "Workloads :: DataSciencePipelines :: Custom RBAC API Subresource (3.x)"
    "Validates that custom Roles with route.openshift.io permissions also grant the datasciencepipelinesapplications/api subresource required after the kube-rbac-proxy migration in RHOAI 3.x"
    rbac_remediation custom_rbac_CanApply (λ c target, some_result (custom_rbac_Validate c target)).

(** *** pkg/util/inspect *)
Fixpoint HasFields (value : json) (expressions : list string) : res go_error (list json) :=
  match expressions with
  | [] => Ok []
  | expr :: rest =>
      match jq_Query_any value expr with
      | Panic s => Panic s
      | Err err => if errors_is JqErrNotFound err then HasFields value rest else Err (errorf_w ("querying " +:+ expr) err)
      | Ok result => let! found := HasFields value rest in Ok (result :: found)
      end
  end.
(** *** instructlab_removal.go *)
Definition checkTypeInstructLabRemoval := "instructlab-removal".
Definition deprecatedAPIServerFieldPaths : list string :=
  [".spec.apiServer.managedPipelines.instructLab"; ".spec.apiServer.runtimeGenericImage"; ".spec.apiServer.toolboxImage";
   ".spec.apiServer.rhelAIImage"; ".spec.apiServer.initResources"].
Definition instructlab_remediation :=
  "Remove .spec.apiServer.managedPipelines.instructLab and the deprecated .spec.apiServer fields runtimeGenericImage, toolboxImage, rhelAIImage, and initResources from affected DSPA objects before upgrading".
Fixpoint impacted_dspas (dspas : list json) : res go_error (list NamespacedName) :=
  match dspas with
  | [] => Ok []
  | dspa :: rest =>
      try! found := HasFields dspa deprecatedAPIServerFieldPaths
        else errorf_w ("querying deprecated apiServer fields for DSPA " +:+ GetNamespace dspa +:+ "/" +:+ GetName dspa) in
      let! impacted := impacted_dspas rest in
      Ok (if (length found =? 0)%nat then impacted else mkNN (GetNamespace dspa) (GetName dspa) :: impacted)
  end.
Definition instructlab_Validate (c : Check) (target : Target) : res go_error DiagnosticResult :=
  let tv := MajorMinorLabel (t_TargetVersion target) in
  let dr := annotate_target target (NewResult c) in
  try! dsc := GetDataScienceCluster ListPlain else errorf_w "getting DataScienceCluster" in
  try! state := EffectiveManagementState dsc else errorf_w "resolving AI Pipelines management state" in
  let dr := with_annotation dr AnnotationComponentManagementState state in
  try! found := ListDSPAs ListPlain else errorf_w "listing DataSciencePipelinesApplications" in
  let! impactedDSPAs := impacted_dspas found.1 in
  let dr := count_annotation dr (length impactedDSPAs) in
  if (0 <? length impactedDSPAs)%nat then
    set_new (SetImpactedObjects dr found.2 impactedDSPAs) ConditionTypeCompatible ConditionFalse
      [WithReason ReasonFeatureRemoved;
       WithMessage ("Found " +:+ itoa (Z.of_nat (length impactedDSPAs)) +:+
         " DataSciencePipelinesApplication(s) with deprecated apiServer managed-pipelines fields removed in RHOAI " +:+ tv);
       WithImpact ImpactAdvisory; WithRemediation instructlab_remediation]
  else
    set_new dr ConditionTypeCompatible ConditionTrue
      [WithReason ReasonVersionCompatible;
       WithMessage ("No DataSciencePipelinesApplications found using deprecated apiServer managed-pipelines fields - ready for RHOAI "
         +:+ tv +:+ " upgrade")].
Definition instructlab_CanApply : Target → res go_error bool := dsp_gate.
Definition NewInstructLabRemovalCheck : Check :=
  workload_check "datasciencepipelines" checkTypeInstructLabRemoval "workloads.datasciencepipelines.instructlab-removal"
    "Workloads :: DataSciencePipelines :: Deprecated apiServer Managed-Pipelines Fields (3.x)"
    "Validates that DSPA objects do not use deprecated apiServer fields before upgrading to RHOAI 3.x"
    instructlab_remediation instructlab_CanApply (λ c target, some_result (instructlab_Validate c target)).

(** *** stored_version_removal.go *)
Definition checkTypeStoredVersionRemoval := "stored-version-removal".
Definition dspaCRDName := "datasciencepipelinesapplications.datasciencepipelinesapplications.opendatahub.io".
Definition deprecatedStoredVersion := "v1alpha1".
Definition stored_remediation := "Migrate all DataSciencePipelinesApplication resources from v1alpha1 to v1".
Definition hasDeprecatedVersion (storedVersions : list json) : bool :=
  existsb (λ v, match v with JStr s => String.eqb s deprecatedStoredVersion | _ => false end) storedVersions.
Definition stored_version_removal_Validate (c : Check) (target : Target) : res go_error DiagnosticResult :=
  let tv := MajorMinorLabel (t_TargetVersion target) in
  let dr := annotate_target target (NewResult c) in
  match Get CustomResourceDefinition dspaCRDName "" with
  | Panic s => Panic s
  | Err err =>
      if IsNotFound err then
        set_new dr ConditionTypeCompatible ConditionTrue
          [WithReason ReasonResourceNotFound;
           WithMessage "DataSciencePipelinesApplication CRD not found - DataSciencePipelines may not be installed"]
      else Err (errorf_w ("getting CRD " +:+ dspaCRDName) err)
  | Ok None =>
      set_new dr ConditionTypeCompatible ConditionUnknown
        [WithReason ReasonAPIAccessDenied;
         WithMessage ("Unable to access CRD " +:+ dspaCRDName +:+ " - insufficient permissions")]
  | Ok (Some crd) =>
      try! storedVersions := jq_Query_array crd ".status.storedVersions"
        else errorf_w ("querying status.storedVersions for CRD " +:+ dspaCRDName) in
      if hasDeprecatedVersion storedVersions then
        set_new dr ConditionTypeCompatible ConditionFalse
          [WithReason ReasonVersionIncompatible;
           WithMessage ("Some DataSciencePipelinesApplication resources still use the deprecated " +:+ deprecatedStoredVersion +:+
             " API version which will be removed in RHOAI " +:+ tv);
           WithImpact ImpactBlocking; WithRemediation stored_remediation]
      else
        set_new dr ConditionTypeCompatible ConditionTrue
          [WithReason ReasonVersionCompatible;
           WithMessage ("No DataSciencePipelinesApplication resources using deprecated " +:+ deprecatedStoredVersion +:+
             " API version - ready for RHOAI " +:+ tv +:+ " upgrade")]
  end.
Definition stored_CanApply : Target → res go_error bool := λ target, Ok (from_2x_to_3x target).
Definition NewStoredVersionRemovalCheck : Check :=
  workload_check "datasciencepipelines" checkTypeStoredVersionRemoval "workloads.datasciencepipelines.stored-version-removal"
    "Workloads :: DataSciencePipelines :: v1alpha1 StoredVersion Removal (3.x)"
    "Validates that the DataSciencePipelinesApplication CRD does not have v1alpha1 in status.storedVersions before upgrading to RHOAI 3.x"
    stored_remediation stored_CanApply (λ c target, some_result (stored_version_removal_Validate c target)).

(** ** guardrails *)
(** [yaml.Unmarshal] into a map. *)
Context (unmarshal_yaml : string → option json).
(** *** otel_migration.go, otel_migration_support.go *)
Definition ConditionTypeOtelConfigCompatible := "OtelConfigCompatible".
Definition fields_of (v : json) : list (string * json) := match v with JObj fields => fields | _ => [] end.
Definition hasDeprecatedOtelFields (obj : json) : res go_error bool :=
  let! val := optional JNull (jq_Query JNull "map[string]interface {}" as_map obj ".spec.otelExporter") in
  Ok (0 <? length (fields_of val))%nat.
Definition newOtelMigrationCondition (req : JsonRequest) : res go_error (list Condition) :=
  let count := length (wr_Items req) in
  if (count =? 0)%nat then
    one_of (NewCondition ConditionTypeOtelConfigCompatible ConditionTrue
      [WithReason ReasonVersionCompatible; WithMessage "No GuardrailsOrchestrators found using deprecated otelExporter fields"])
  else
    one_of (NewCondition ConditionTypeOtelConfigCompatible ConditionFalse
      [WithReason ReasonConfigurationInvalid;
       WithMessage ("Found " +:+ itoa (Z.of_nat count) +:+
         " GuardrailsOrchestrator(s) using deprecated otelExporter fields - migrate to new format before upgrading");
       WithImpact ImpactAdvisory]).
Definition otel_Validate (c : Check) (target : Target) : res go_error (option DiagnosticResult) :=
  Workload_Complete ListPlain
    (builder_for c target GuardrailsOrchestrator (ListPlain GuardrailsOrchestrator) (Some hasDeprecatedOtelFields) [])
    newOtelMigrationCondition.
Definition otel_CanApply : Target → res go_error bool := removed_in_3x "trustyai".
Definition NewOtelMigrationCheck : Check :=
  workload_check "guardrails" "config-migration" "workloads.guardrails.otel-config-migration"
    "Workloads :: Guardrails :: OTEL Config Migration (3.x)"
    "Detects GuardrailsOrchestrator CRs using deprecated otelExporter configuration fields that need migration"
    "" otel_CanApply otel_Validate.

(** *** impacted.go, impacted_support.go *)
Definition ConditionTypeConfigurationValid := "ConfigurationValid".
Definition annotationOrchestratorConfig := "guardrails.opendatahub.io/orchestrator-config".
Definition annotationGatewayConfig := "guardrails.opendatahub.io/gateway-config".
Definition annotationBuiltinDetectors := "guardrails.opendatahub.io/builtin-detectors".
Definition annotationOrchestratorCM := "guardrails.opendatahub.io/orchestrator-configmap".
Definition annotationGatewayCM := "guardrails.opendatahub.io/gateway-configmap".
Definition annotationIssues := "guardrails.opendatahub.io/issues".
Record crConfig := mkCrConfig { orchestratorConfigName : string; gatewayConfigName : string }.
Record specResult := mkSpecResult {
  sr_config : crConfig;
  orchConfigFail : bool;
  gatewayFail : bool;
  detectorsFail : bool;
  gatewayConfigFail : bool;
}.
(** A nil map of annotations is the empty one. *)
Record crResult := mkCrResult { orchCMName : string; gatewayCMName : string; cr_annotations : gmap string string }.

Definition checkStringFieldMissing (obj : json) (query : string) : string * bool :=
  match jq_Query_string obj query with
  | Ok val => if String.eqb val "" then ("", true) else (val, false)
  | _ => ("", true)
  end.
Definition checkBoolNotTrue (obj : json) (query : string) : bool :=
  match jq_Query false "bool" as_bool obj query with Ok val => negb val | _ => true end.
Definition validateCRSpec (obj : json) : specResult :=
  let orch := checkStringFieldMissing obj ".spec.orchestratorConfig" in
  let gateway := checkStringFieldMissing obj ".spec.guardrailsGatewayConfig" in
  mkSpecResult (mkCrConfig orch.1 gateway.1) orch.2 (checkBoolNotTrue obj ".spec.enableGuardrailsGateway")
    (checkBoolNotTrue obj ".spec.enableBuiltInDetectors") gateway.2.

(** [fmt.Sprintf("%v", port)] is empty for the empty string only. *)
Definition prints_nothing (v : json) : bool := match v with JStr s => String.eqb s "" | _ => false end.
Definition validateOrchestratorConfigData (configData : json) : list string :=
  let hostnameIssue := match jq_Query_string configData ".chat_generation.service.hostname" with
    | Ok hostname => String.eqb hostname "" | _ => true end in
  let portIssue := match jq_Query_any configData ".chat_generation.service.port" with
    | Ok port => prints_nothing port | _ => true end in
  let detectorsIssue := match jq_Query_any configData ".detectors" with
    | Ok (JArr []) => true | Ok _ => false | _ => true end in
  ((if hostnameIssue || portIssue then ["chat_generation.service misconfiguration"] else []) ++
   (if detectorsIssue then ["detectors misconfiguration"] else []))%list.
Definition config_yaml_query : string := ".data[" +:+ dquote +:+ "config.yaml" +:+ dquote +:+ "]".
Definition validateOrchestratorConfigMap (namespace name : string) : res go_error (list string) :=
  match Get ConfigMap name namespace with
  | Panic s => Panic s
  | Err _ => Ok ["orchestrator ConfigMap not found"]
  | Ok None => Ok ["orchestrator ConfigMap not found"]
  | Ok (Some cm) =>
      match jq_Query_string cm config_yaml_query with
      | Panic s => Panic s
      | Err err =>
          if errors_is JqErrNotFound err then Ok ["orchestrator ConfigMap missing config.yaml"]
          else Ok ["failed to query config.yaml from orchestrator ConfigMap: " +:+ error_string err]
      | Ok configYAML =>
          if String.eqb configYAML "" then Ok ["orchestrator ConfigMap has empty config.yaml"]
          else match unmarshal_yaml configYAML with
            | None => Ok ["orchestrator ConfigMap has invalid config.yaml"]
            | Some configData => Ok (validateOrchestratorConfigData configData)
            end
      end
  end.
Definition validateGatewayConfigMap (namespace name : string) : res go_error (list string) :=
  match Get ConfigMap name namespace with
  | Panic s => Panic s
  | Err _ => Ok ["gateway ConfigMap not found"]
  | Ok None => Ok ["gateway ConfigMap not found"]
  | Ok (Some _) => Ok []
  end.

(** An annotation is set when there is something to say. *)
Definition annotate (key : string) (details : list string) (m : gmap string string) : gmap string string :=
  match details with [] => m | _ => <[key := join "; " details]> m end.
Definition said (b : bool) (detail : string) : list string := if b then [detail] else [].
Definition issues_of (configured : string) (found : res go_error (list string)) : res go_error (list string) :=
  if String.eqb configured "" then Ok [] else found.
Definition validateCR (obj : json) : res go_error crResult :=
  let sr := validateCRSpec obj in
  let orchCM := orchestratorConfigName (sr_config sr) in
  let gatewayCM := gatewayConfigName (sr_config sr) in
  let annotations := annotate annotationOrchestratorConfig (said (orchConfigFail sr) "not set") ∅ in
  let annotations := annotate annotationGatewayConfig
    (said (gatewayFail sr) "enableGuardrailsGateway not enabled" ++
     said (gatewayConfigFail sr) "guardrailsGatewayConfig not set")%list annotations in
  let annotations := annotate annotationBuiltinDetectors (said (detectorsFail sr) "not enabled") annotations in
  let! orchIssues := issues_of orchCM (validateOrchestratorConfigMap (GetNamespace obj) orchCM) in
  let annotations := annotate annotationOrchestratorCM orchIssues annotations in
  let! gatewayIssues := issues_of gatewayCM (validateGatewayConfigMap (GetNamespace obj) gatewayCM) in
  let annotations := annotate annotationGatewayCM gatewayIssues annotations in
  Ok (mkCrResult orchCM gatewayCM annotations).

(** *** What is added to the impacted objects for a resource *)
Definition impacted_orchestrator (obj : json) (cr : crResult) : list PartialObjectMetadata :=
  if bool_decide (cr_annotations cr = ∅) then []
  else [mkPartial (ResourceType_TypeMeta GuardrailsOrchestrator) (GetNamespace obj) (GetName obj) (cr_annotations cr)].
Definition impacted_configmap (obj : json) (key cmName : string) (cr : crResult) : list PartialObjectMetadata :=
  match cr_annotations cr !! key with
  | Some issues =>
      if String.eqb cmName "" then []
      else [mkPartial (ResourceType_TypeMeta ConfigMap) (GetNamespace obj) cmName {[annotationIssues := issues]}]
  | None => []
  end.
Definition appendImpactedConfigMaps (obj : json) (cr : crResult) : list PartialObjectMetadata :=
  (impacted_configmap obj annotationOrchestratorCM (orchCMName cr) cr ++
   impacted_configmap obj annotationGatewayCM (gatewayCMName cr) cr)%list.
Fixpoint guardrails_loop (orchestrators : list json) (impactedCRs : nat) (objs : list PartialObjectMetadata)
    : res go_error (nat * list PartialObjectMetadata) :=
  match orchestrators with
  | [] => Ok (impactedCRs, objs)
  | orch :: rest =>
      let! cr := validateCR orch in
      let own := impacted_orchestrator orch cr in
      guardrails_loop rest (impactedCRs + length own)%nat (objs ++ own ++ appendImpactedConfigMaps orch cr)%list
  end.
Definition guardrails_remediation :=
  "Review and fix GuardrailsOrchestrator configuration before upgrading to ensure correct operation in RHOAI 3.x".
Definition newConfigurationCondition (total impacted : nat) : res go_error Condition :=
  if (total =? 0)%nat then
    NewCondition ConditionTypeConfigurationValid ConditionTrue
      [WithReason ReasonVersionCompatible; WithMessage "No GuardrailsOrchestrators found"]
  else if (impacted =? 0)%nat then
    NewCondition ConditionTypeConfigurationValid ConditionTrue
      [WithReason ReasonConfigurationValid;
       WithMessage ("All " +:+ itoa (Z.of_nat total) +:+ " GuardrailsOrchestrator(s) configured correctly")]
  else
    NewCondition ConditionTypeConfigurationValid ConditionFalse
      [WithReason ReasonConfigurationInvalid;
       WithMessage ("Found " +:+ itoa (Z.of_nat impacted) +:+ " misconfigured GuardrailsOrchestrator(s)");
       WithImpact ImpactAdvisory; WithRemediation guardrails_remediation].
Definition guardrails_Validate (c : Check) (target : Target) : res go_error DiagnosticResult :=
  let dr := annotate_target target (NewResult c) in
  try! orchestrators := client_List GuardrailsOrchestrator (rt_Kind GuardrailsOrchestrator)
    (ListPlain GuardrailsOrchestrator) None else errorf_w "listing GuardrailsOrchestrators" in
  let! found := guardrails_loop orchestrators 0 [] in
  let dr := append_objects dr found.2 in
  let! cond := newConfigurationCondition (length orchestrators) found.1 in
  let dr := append_condition dr cond in
  Ok (count_annotation dr (length (default [] (r_ImpactedObjects dr)))).
Definition guardrails_CanApply : Target → res go_error bool := removed_in_3x "trustyai".
Definition NewGuardrailsImpactedCheck : Check :=
  workload_check "guardrails" "impacted-workloads" "workloads.guardrails.impacted-workloads"
    "Workloads :: Guardrails :: Impacted Workloads (3.x)"
    "Detects GuardrailsOrchestrator CRs with configuration that will be impacted in RHOAI 3.x upgrade"
    guardrails_remediation guardrails_CanApply (λ c target, some_result (guardrails_Validate c target)).
End Workloads.

(** ** Lemmas *)
Lemma accepted_append_condition `{SV : Semver} c dr cond :
  pending c dr → validateCondition cond = Ok () → accepted c (append_condition dr cond).
Proof.
  intros [Hp Hv] Hc. split; [split|].
  - by apply prepared_conditions.
  - apply Forall_app. split; [done|by repeat constructor].
  - unfold append_condition. cbn [r_Conditions with_conditions]. by destruct (r_Conditions dr).
Qed.
Lemma accepted_append_objects `{SV : Semver} c dr objs : accepted c dr → accepted c (append_objects dr objs).
Proof. intros Ha. by destruct objs. Qed.
Lemma pending_append_objects `{SV : Semver} c dr objs : pending c dr → pending c (append_objects dr objs).
Proof. intros Ha. by destruct objs. Qed.
Lemma pending_SetImpactedObjects `{SV : Semver} c dr rt names : pending c dr → pending c (SetImpactedObjects dr rt names).
Proof. intros []. split; [by apply prepared_SetImpactedObjects|done]. Qed.
Lemma pending_count_annotation `{SV : Semver} c dr n : pending c dr → pending c (count_annotation dr n).
Proof. by apply pending_annotation. Qed.
Lemma accepted_count_annotation `{SV : Semver} c dr n : accepted c dr → accepted c (count_annotation dr n).
Proof. by apply accepted_annotation. Qed.
#[export] Hint Resolve accepted_append_condition accepted_append_objects pending_append_objects pending_SetImpactedObjects
  pending_count_annotation accepted_count_annotation accepted_SetCondition : go_accept.

Section WorkloadLemmas.
Context `{SV : Semver, AE : ApiErrors, KE : K8sErrors, SRV : ApiServer, JQ : GoJq, CL : Clock, MO : MapOrder}.
Context (ListWith : ResourceType → ListOptions → res go_error (list json)).
Context (ListMetadataWith : ResourceType → ListOptions → res go_error (list PartialObjectMetadata)).
Context (ListRayClusters : res go_error (list RayClusterMetadata)).
Context (unmarshal_yaml : string → option json).

(** *** Every check here only produces results the executor accepts *)
Definition workload_checks : list Check :=
  [NewAppWrapperCleanupCheck ListWith ListMetadataWith; NewCustomRBACAPISubresourceCheck ListWith;
   NewInstructLabRemovalCheck ListWith; NewStoredVersionRemovalCheck; NewGuardrailsImpactedCheck ListWith unmarshal_yaml;
   NewOtelMigrationCheck ListWith; NewConfigCheck ListWith; NewMigrationCheck ListWith; NewExternalAccessTLSCheck ListWith;
   NewRayImpactedCheck ListWith ListRayClusters; NewNumProcPerNodeCheck ListWith; NewPodTemplateOverridesCheck ListWith;
   NewPyTorchImpactedCheck ListWith].
Lemma workload_checks_sound : Forall sound_check workload_checks.
Proof using MO.
  repeat (apply Forall_cons; split; [apply embed_sound; [done..|]; intros c target; accept|]). apply Forall_nil. done.
Qed.
End WorkloadLemmas.

(** *** Jobs *)
Lemma split_jobs_spec `{JQ : GoJq} jobs :
  Forall (λ job, is_Some (match isJobCompleted job with Ok b => Some b | _ => None end)) jobs →
  ∃ active completed, split_jobs jobs = Ok (active, completed) ∧
    (length active + length completed = length jobs)%nat ∧
    (active = [] ↔ Forall (λ job, isJobCompleted job = Ok true) jobs).
Proof.
  induction 1 as [|job jobs [b Hb] _ (active & completed & IH & Hl & Ha)]; [by exists [], []|].
  cbn [split_jobs]. destruct (isJobCompleted job) as [b'|e|s] eqn:Hj; [|done..]. rewrite IH. cbn [res_map_err res_bind fst snd].
  destruct b'; (eexists _, _; split; [reflexivity|]; cbn [length]; split; [lia|]; rewrite Forall_cons, Hj).
  - rewrite Ha. naive_solver.
  - naive_solver.
Qed.

(** *** Fields *)
Lemma HasFields_empty `{JQ : GoJq} value expressions found :
  HasFields value expressions = Ok found →
  (found = [] ↔ ∀ expr, expr ∈ expressions → ∃ err, jq_Query_any value expr = Err err ∧ errors_is JqErrNotFound err = true).
Proof.
  revert found. induction expressions as [|expr rest IH]; intros found.
  { intros [= <-]. split; [|done]. intros _ expr []%not_elem_of_nil. }
  cbn [HasFields]. setoid_rewrite elem_of_cons. destruct (jq_Query_any value expr) as [v|err|s] eqn:Hq; [| |done].
  - destruct (HasFields value rest); [|done..]. intros [= <-]. split; [done|]. intros Hall.
    destruct (Hall expr) as (err & He & _); [by left|]. by rewrite Hq in He.
  - destruct (errors_is JqErrNotFound err) eqn:Hn; [|done]. intros Hf. rewrite (IH _ Hf). split.
    + intros Hall e [->|Hin]; [by exists err|by apply Hall].
    + intros Hall e Hin. apply Hall. by right.
Qed.

(** *** Guardrails *)
Lemma annotate_empty key details m : annotate key details m = ∅ ↔ details = [] ∧ m = ∅.
Proof. destruct details as [|d l]; [naive_solver|]. split; [unfold annotate; intros H; by apply insert_non_empty in H|by intros []]. Qed.
Lemma said_nil b d : said b d = [] ↔ b = false.
Proof. by destruct b. Qed.
Lemma app_nil_iff {A} (l1 l2 : list A) : (l1 ++ l2)%list = [] ↔ l1 = [] ∧ l2 = [].
Proof. split; [apply app_eq_nil|by intros [-> ->]]. Qed.
Section GuardrailsLemmas.
Context `{AE : ApiErrors, SRV : ApiServer, JQ : GoJq}.

Definition has_issues (cr : crResult) : bool := negb (bool_decide (cr_annotations cr = ∅)).
Definition objects_of_cr (obj : json) (cr : crResult) : list PartialObjectMetadata :=
  (impacted_orchestrator obj cr ++ appendImpactedConfigMaps obj cr)%list.
Lemma checkStringFieldMissing_cases obj q :
  (∃ name, checkStringFieldMissing obj q = (name, false) ∧ jq_Query_string obj q = Ok name ∧ name ≠ "") ∨
  checkStringFieldMissing obj q = ("", true) ∧ ¬ ∃ name, jq_Query_string obj q = Ok name ∧ name ≠ "".
Proof.
  unfold checkStringFieldMissing. destruct (jq_Query_string obj q) as [v|e|s]; [|right; split; [done|by intros (? & ? & _)]..].
  destruct (String.eqb_spec v "") as [->|Hne]; [right|left; by exists v]. split; [done|]. by intros (? & [= <-] & ?).
Qed.
Lemma checkBoolNotTrue_false obj q : checkBoolNotTrue obj q = false ↔ jq_Query false "bool" as_bool obj q = Ok true.
Proof. unfold checkBoolNotTrue. destruct (jq_Query _ _ _ _ _) as [[]|e|s]; cbn; naive_solver. Qed.

(** What the configuration of an orchestrator has to define. *)
Definition configuration_complete (data : json) : Prop :=
  (∃ hostname, jq_Query_string data ".chat_generation.service.hostname" = Ok hostname ∧ hostname ≠ "") ∧
  (∃ port, jq_Query_any data ".chat_generation.service.port" = Ok port ∧ port ≠ JStr "") ∧
  (∃ detectors, jq_Query_any data ".detectors" = Ok detectors ∧ detectors ≠ JArr []).
Lemma validateOrchestratorConfigData_nil data : validateOrchestratorConfigData data = [] ↔ configuration_complete data.
Proof.
  unfold validateOrchestratorConfigData, configuration_complete. rewrite app_nil_iff.
  assert (∀ (b : bool) (x : string), (if b then [x] else []) = [] ↔ b = false) as Hif by (by intros []).
  rewrite !Hif, orb_false_iff.
  assert (∀ A B C A' B' C' : Prop, (A ↔ A') → (B ↔ B') → (C ↔ C') → (A ∧ B) ∧ C ↔ A' ∧ B' ∧ C') as Hiff by tauto. apply Hiff; clear Hif Hiff.
  - destruct (jq_Query_string data _) as [h|e|s]; [|naive_solver..]. destruct (String.eqb_spec h ""); naive_solver.
  - destruct (jq_Query_any data _) as [p|e|s]; [|naive_solver..].
    destruct p; cbn; try naive_solver. destruct (String.eqb_spec s ""); naive_solver.
  - destruct (jq_Query_any data ".detectors") as [[| | | |[]|]|e|s]; naive_solver.
Qed.
Lemma validateGatewayConfigMap_nil ns name :
  validateGatewayConfigMap ns name = Ok [] ↔ ∃ cm, Get ConfigMap name ns = Ok (Some cm).
Proof. unfold validateGatewayConfigMap. destruct (Get ConfigMap name ns) as [[cm|]|e|s]; naive_solver. Qed.
Context (unmarshal_yaml : string → option json).
(** The ConfigMap of the orchestrator, read and decoded. *)
Definition orchestrator_configured (ns name : string) : Prop :=
  ∃ cm document data, Get ConfigMap name ns = Ok (Some cm) ∧ jq_Query_string cm config_yaml_query = Ok document ∧
    document ≠ "" ∧ unmarshal_yaml document = Some data ∧ configuration_complete data.
Lemma validateOrchestratorConfigMap_nil ns name :
  validateOrchestratorConfigMap unmarshal_yaml ns name = Ok [] ↔ orchestrator_configured ns name.
Proof.
  unfold validateOrchestratorConfigMap, orchestrator_configured.
  destruct (Get ConfigMap name ns) as [[cm|]|e|s]; [|split; [done|by intros (?&?&?&?&_)]..].
  destruct (jq_Query_string cm config_yaml_query) as [doc|e|s] eqn:Hq;
    [|split; [by repeat case_match|intros (?&?&?&Hcm&?&_); congruence]..].
  destruct (String.eqb_spec doc "") as [->|Hne]; [split; [done|intros (?&?&?&Hcm&?&?&_); congruence]|].
  destruct (unmarshal_yaml doc) as [data|] eqn:Hu; [|split; [done|intros (?&?&?&Hcm&?&_&?&_); congruence]].
  split.
  - intros Hn. assert (validateOrchestratorConfigData data = []) as Hn' by congruence.
    apply validateOrchestratorConfigData_nil in Hn'. by exists cm, doc, data.
  - intros (cm' & doc' & data' & Hcm & Hq' & _ & Hu' & Hc). f_equal. apply validateOrchestratorConfigData_nil.
    assert (data' = data) as -> by congruence. done.
Qed.
Lemma guardrails_loop_spec os crs n objs :
  Forall2 (λ o cr, validateCR unmarshal_yaml o = Ok cr) os crs →
  guardrails_loop unmarshal_yaml os n objs =
  Ok (n + length (List.filter has_issues crs), objs ++ concat (zip_with objects_of_cr os crs))%nat%list.
Proof.
  intros Hall. revert n objs. induction Hall as [|o cr os crs Ho _ IH]; intros n objs; cbn [guardrails_loop].
  { cbn. by rewrite app_nil_r, Nat.add_0_r. }
  rewrite Ho. cbn [res_bind]. rewrite IH. cbn [List.filter zip_with concat]. unfold objects_of_cr.
  assert (length (impacted_orchestrator o cr) = if has_issues cr then 1%nat else 0%nat) as ->
    by (unfold impacted_orchestrator, has_issues; by case_bool_decide).
  rewrite <-!app_assoc. destruct (has_issues cr); cbn [length]; by rewrite ?Nat.add_0_r, ?Nat.add_succ_r, <-?plus_n_Sm, ?Nat.add_0_r.
Qed.

(** What is said about an orchestrator. *)
Lemma validateCR_annotations obj cr :
  validateCR unmarshal_yaml obj = Ok cr →
  let sr := validateCRSpec obj in
  let orch := orchestratorConfigName (sr_config sr) in
  let gateway := gatewayConfigName (sr_config sr) in
  orchCMName cr = orch ∧ gatewayCMName cr = gateway ∧
  ∃ orchIssues gatewayIssues,
    issues_of orch (validateOrchestratorConfigMap unmarshal_yaml (GetNamespace obj) orch) = Ok orchIssues ∧
    issues_of gateway (validateGatewayConfigMap (GetNamespace obj) gateway) = Ok gatewayIssues ∧
    (cr_annotations cr = ∅ ↔
       orchConfigFail sr = false ∧ gatewayConfigFail sr = false ∧ gatewayFail sr = false ∧ detectorsFail sr = false ∧
       orchIssues = [] ∧ gatewayIssues = []).
Proof.
  unfold validateCR. cbv zeta. destruct (issues_of _ _) as [oi|e|s]; [|done..]. cbn [res_bind].
  destruct (issues_of _ _) as [gi|e|s]; [|done..]. cbn [res_bind]. intros [= <-]. cbn [orchCMName gatewayCMName cr_annotations].
  split; [done|]. split; [done|]. exists oi, gi. do 2 (split; [done|]). rewrite !annotate_empty, app_nil_iff, !said_nil. tauto.
Qed.
End GuardrailsLemmas.

(** *** Reports *)
Lemma newConfigurationCondition_spec `{CL : Clock} total impacted :
  (total = 0%nat → impacted = 0%nat) →
  ∃ cond, newConfigurationCondition total impacted = Ok cond ∧
    (c_Status cond = ConditionTrue ↔ impacted = 0%nat) ∧ (c_Status cond ≠ ConditionTrue → c_Impact cond = ImpactAdvisory).
Proof.
  intros H0. unfold newConfigurationCondition. destruct (Nat.eqb_spec total 0) as [->|Ht]; [|destruct (Nat.eqb_spec impacted 0) as [->|Hi]];
    (eexists; split; [reflexivity|]); cbn; naive_solver.
Qed.
Lemma no_issues crs : length (List.filter has_issues crs) = 0%nat ↔ Forall (λ cr, cr_annotations cr = ∅) crs.
Proof.
  induction crs as [|cr crs IH]; [by split|]. rewrite Forall_cons, <-IH. cbn [List.filter]. unfold has_issues at 1.
  case_bool_decide; cbn [negb length]; naive_solver.
Qed.
Lemma append_objects_nil dr objs :
  r_ImpactedObjects dr = None →
  r_Conditions (append_objects dr objs) = r_Conditions dr ∧ default [] (r_ImpactedObjects (append_objects dr objs)) = objs.
Proof. intros Hn. unfold append_objects. destruct objs; cbn; by rewrite Hn. Qed.
Lemma filter_all {A} (p : A → bool) l : length (List.filter p l) = length l ↔ Forall (λ x, p x = true) l.
Proof.
  induction l as [|x l IH]; [by split|]. rewrite Forall_cons, <-IH. cbn [List.filter length].
  pose proof (List.filter_length_le p l). destruct (p x); cbn [length]; [|split; [lia|by intros []]].
  split; [by intros [= ->]|by intros [_ ->]].
Qed.

(** ** A concrete cluster *)
Module WorkloadRun.
Definition orchestrator (name config : string) : json :=
  JObj [("metadata", JObj [("namespace", JStr "team"); ("name", JStr name)]);
        ("spec", JObj [("orchestratorConfig", JStr config); ("guardrailsGatewayConfig", JStr "gw");
                       ("enableGuardrailsGateway", JBool true); ("enableBuiltInDetectors", JBool true)])].
(** Paths, and the key that needs quoting. *)
#[export] Instance queries : GoJq := {|
  gojq_run obj q :=
    let path := if String.eqb q config_yaml_query then ["data"; "config.yaml"] else tail (split_on dot q) in
    match nested path obj with Some v => JqValue v | None => JqValue JNull end |}.
Definition document : json :=
  JObj [("chat_generation", JObj [("service", JObj [("hostname", JStr "llm"); ("port", JNum 8080)])]); ("detectors", JObj [])].
Definition yaml (s : string) : option json := if String.eqb s "good" then Some document else None.
Definition configmap (text : string) : json := JObj [("data", JObj [("config.yaml", JStr text)])].
Definition server : ApiServer := {|
  srv_list _ _ _ := Ok ([], "");
  srv_get _ _ name := Ok (configmap (if String.eqb name "broken" then "}" else "good"));
  srv_discovery := None |}.
Definition lister (rt : ResourceType) (o : ListOptions) : res go_error (list json) :=
  Ok [orchestrator "fine" "cm"; orchestrator "bad" "broken"].
Definition job (name : string) (conditions : list json) : json :=
  JObj [("metadata", JObj [("namespace", JStr "team"); ("name", JStr name)]); ("status", JObj [("conditions", JArr conditions)])].
Definition succeeded : json := JObj [("type", JStr "Succeeded"); ("status", JStr "True")].
Definition new_result : DiagnosticResult := New "workload" "trainingoperator" "impacted-workloads" "d".
Definition target (minor : Z) : Target :=
  mkTarget VersionRun.semver (Some (VersionRun.mkVer 2 25 1)) (Some (VersionRun.mkVer 3 minor 0)) None false false.
Definition ogx (hostname : string) : json :=
  JObj [("spec", JObj [("network", JObj [("externalAccess", JObj [("enabled", JBool true); ("hostname", JStr hostname)])])])].
Definition cluster (name backup : string) : RayClusterMetadata :=
  mkRayCluster (mkPartial (mkTypeMeta "" "") "team" name {[RayPreUpgradeBackupAnnotation := backup]}) [finalizerCodeFlareOAuth].
End WorkloadRun.
Import (hints) ClientRun VersionRun.

(** ** Properties *)
Module WorkloadSpec.
(** An orchestrator has no issue exactly when both its ConfigMaps are named,
    the gateway and the detectors enabled, the gateway's ConfigMap exists and
    the orchestrator's holds a complete configuration. *)
Theorem validateCR_clean_iff `{AE : ApiErrors, SRV : ApiServer, JQ : GoJq} unmarshal_yaml obj cr :
  validateCR unmarshal_yaml obj = Ok cr →
  (cr_annotations cr = ∅ ↔
     jq_Query false "bool" as_bool obj ".spec.enableGuardrailsGateway" = Ok true ∧
     jq_Query false "bool" as_bool obj ".spec.enableBuiltInDetectors" = Ok true ∧
     (∃ name, jq_Query_string obj ".spec.orchestratorConfig" = Ok name ∧ name ≠ "" ∧
        orchestrator_configured unmarshal_yaml (GetNamespace obj) name) ∧
     (∃ name, jq_Query_string obj ".spec.guardrailsGatewayConfig" = Ok name ∧ name ≠ "" ∧
        ∃ cm, Get ConfigMap name (GetNamespace obj) = Ok (Some cm))).
Proof.
  intros Hcr. destruct (validateCR_annotations unmarshal_yaml obj cr Hcr) as (_ & _ & oi & gi & Hoi & Hgi & ->). clear Hcr.
  unfold validateCRSpec in *. cbn [sr_config orchestratorConfigName gatewayConfigName orchConfigFail gatewayFail detectorsFail gatewayConfigFail] in *.
  rewrite !checkBoolNotTrue_false. unfold issues_of in *.
  destruct (checkStringFieldMissing_cases obj ".spec.orchestratorConfig") as [(orch & Ho & Hq & Hne)|[Ho Hn]]; rewrite Ho in *; cbn [fst snd] in *.
  2: { split; [by intros []|]. intros (_ & _ & (name & Hq & Hne & _) & _). destruct Hn. by exists name. }
  destruct (checkStringFieldMissing_cases obj ".spec.guardrailsGatewayConfig") as [(gw & Hg & Hq' & Hne')|[Hg Hn]]; rewrite Hg in *; cbn [fst snd] in *.
  2: { split; [intros (_ & Hgm & _); discriminate Hgm|]. intros (_ & _ & _ & (name & Hq' & Hne' & _)). destruct Hn. by exists name. }
  apply String.eqb_neq in Hne as Hb, Hne' as Hb'. rewrite Hb in Hoi. rewrite Hb' in Hgi.
  assert (oi = [] ↔ orchestrator_configured unmarshal_yaml (GetNamespace obj) orch) as -> by (rewrite <-validateOrchestratorConfigMap_nil, Hoi; naive_solver).
  assert (gi = [] ↔ ∃ cm, Get ConfigMap gw (GetNamespace obj) = Ok (Some cm)) as -> by (rewrite <-validateGatewayConfigMap_nil, Hgi; naive_solver).
  split.
  - intros (_ & _ & He & Hd & Hc & Hcm). split; [done|]. split; [done|]. split; [by exists orch|by exists gw].
  - intros (He & Hd & (n1 & Hn1 & _ & Hc) & (n2 & Hn2 & _ & Hcm)).
    assert (n1 = orch) as -> by congruence. assert (n2 = gw) as -> by congruence. done.
Qed.

Lemma validateCR_clean_iff_witness :
  ∃ cr, validateCR (AE := ClientRun.api) (SRV := WorkloadRun.server) (JQ := WorkloadRun.queries) WorkloadRun.yaml
      (WorkloadRun.orchestrator "fine" "cm") = Ok cr ∧
    orchestrator_configured (AE := ClientRun.api) (SRV := WorkloadRun.server) (JQ := WorkloadRun.queries) WorkloadRun.yaml "team" "cm".
Proof.
  exists (mkCrResult "cm" "gw" ∅). split; [vm_compute; reflexivity|].
  destruct (validateCR_clean_iff (AE := ClientRun.api) (SRV := WorkloadRun.server) (JQ := WorkloadRun.queries) WorkloadRun.yaml
    (WorkloadRun.orchestrator "fine" "cm") (mkCrResult "cm" "gw" ∅)) as [Hc _]; [vm_compute; reflexivity|].
  destruct (Hc eq_refl) as (_ & _ & (name & Hq & _ & Ho) & _). vm_compute in Hq. injection Hq as <-. exact Ho.
Defined.

(** The check reports every orchestrator with issues and every ConfigMap it
    blames, in the order of the list, counts them all, and passes exactly
    when no orchestrator has an issue. *)
Theorem guardrails_report `{SV : Semver, AE : ApiErrors, KE : K8sErrors, SRV : ApiServer, JQ : GoJq, CL : Clock}
    ListWith unmarshal_yaml (c : Check) (target : Target) orchestrators crs :
  ListWith GuardrailsOrchestrator defaultListOptions = Ok orchestrators →
  Forall2 (λ o cr, validateCR unmarshal_yaml o = Ok cr) orchestrators crs →
  let objects := concat (zip_with objects_of_cr orchestrators crs) in
  ∃ dr cond, guardrails_Validate ListWith unmarshal_yaml c target = Ok dr ∧
    default [] (r_ImpactedObjects dr) = objects ∧
    r_Annotations dr !! AnnotationImpactedWorkloadCount = Some (itoa (Z.of_nat (length objects))) ∧
    r_Conditions dr = [cond] ∧
    (c_Status cond = ConditionTrue ↔ Forall (λ cr, cr_annotations cr = ∅) crs) ∧
    (c_Status cond ≠ ConditionTrue → c_Impact cond = ImpactAdvisory).
Proof.
  intros Hl Hall objects. unfold guardrails_Validate, client_List, ListPlain. rewrite Hl. cbn [res_map_err res_bind].
  rewrite (guardrails_loop_spec unmarshal_yaml _ _ _ _ Hall). cbn [res_bind fst snd app Nat.add]. fold objects.
  destruct (newConfigurationCondition_spec (length orchestrators) (length (List.filter has_issues crs))) as (cond & -> & Hs & Hi).
  { intros H0. apply nil_length_inv in H0 as ->. by inversion Hall. }
  cbn [res_bind]. set (dr0 := annotate_target target (NewResult c)).
  assert (r_Conditions dr0 = [] ∧ r_ImpactedObjects dr0 = None) as [Hc0 Ho0] by (unfold dr0, annotate_target; by case_match).
  destruct (append_objects_nil dr0 objects Ho0) as [Hc Ho]. rewrite Hc0 in Hc.
  eexists _, cond. split; [reflexivity|]. cbn [count_annotation with_annotation append_condition with_conditions r_ImpactedObjects r_Annotations r_Conditions].
  rewrite Ho, Hc, Hs, no_issues. split; [done|]. split; [by rewrite lookup_insert_eq|].
  rewrite Hs, no_issues in Hi. done.
Qed.

Lemma guardrails_report_witness (clock := 0 : Clock) :
  let c := NewGuardrailsImpactedCheck (AE := ClientRun.api) (SRV := WorkloadRun.server) (JQ := WorkloadRun.queries) WorkloadRun.lister
    WorkloadRun.yaml in
  ∃ dr, guardrails_Validate (SRV := WorkloadRun.server) (JQ := WorkloadRun.queries) WorkloadRun.lister WorkloadRun.yaml c
      (WorkloadRun.target 3) = Ok dr ∧
    map po_Name (default [] (r_ImpactedObjects dr)) = ["bad"; "broken"] ∧
    r_Annotations dr !! AnnotationImpactedWorkloadCount = Some "2".
Proof.
  intros c. destruct (guardrails_report (SRV := WorkloadRun.server) (JQ := WorkloadRun.queries) WorkloadRun.lister WorkloadRun.yaml c
    (WorkloadRun.target 3) [WorkloadRun.orchestrator "fine" "cm"; WorkloadRun.orchestrator "bad" "broken"]
    [mkCrResult "cm" "gw" ∅; mkCrResult "broken" "gw" {[annotationOrchestratorCM := "orchestrator ConfigMap has invalid config.yaml"]}])
    as (dr & cond & Hr & Ho & Hn & _); [reflexivity|repeat constructor; vm_compute; reflexivity|].
  exists dr. split; [exact Hr|]. rewrite Ho, Hn. split; vm_compute; reflexivity.
Defined.

(** A ConfigMap that the user may not read is reported as missing. *)
Theorem forbidden_configmap_reported_missing `{AE : ApiErrors, SRV : ApiServer, JQ : GoJq} unmarshal_yaml ns name err :
  srv_get ConfigMap ns name = Err err → IsPermissionError err = true →
  validateOrchestratorConfigMap unmarshal_yaml ns name = Ok ["orchestrator ConfigMap not found"] ∧
  validateGatewayConfigMap ns name = Ok ["gateway ConfigMap not found"].
Proof.
  intros Hg Hp. unfold validateOrchestratorConfigMap, validateGatewayConfigMap, Get. by rewrite Hg, Hp.
Qed.

Lemma forbidden_configmap_reported_missing_witness :
  validateGatewayConfigMap (AE := ClientRun.api) (SRV := DependencyRun.server) "team" "gw" = Ok ["gateway ConfigMap not found"].
Proof.
  apply (forbidden_configmap_reported_missing (JQ := WorkloadRun.queries) WorkloadRun.yaml "team" "gw" DependencyRun.forbidden);
    vm_compute; reflexivity.
Defined.

(** PyTorchJobs pass exactly when all are completed; otherwise the check
    blocks where the operator is removed and advises before. *)
Theorem pytorch_verdict `{SV : Semver, JQ : GoJq, CL : Clock} (target : Target) (req : WorkloadRequest (T := json)) :
  Forall (λ job, is_Some (match isJobCompleted job with Ok b => Some b | _ => None end)) (wr_Items req) →
  ∃ cond, report_jobs target req = Ok (SetCondition (wr_Result req) cond) ∧
    (c_Status cond = ConditionTrue ↔ Forall (λ job, isJobCompleted job = Ok true) (wr_Items req)) ∧
    (c_Status cond ≠ ConditionTrue →
       c_Impact cond = if IsVersionAtLeast (t_TargetVersion target) 3 6 then ImpactBlocking else ImpactAdvisory).
Proof.
  intros Hr. unfold report_jobs. destruct (split_jobs_spec _ Hr) as (active & completed & -> & Hl & Ha). cbn [res_bind fst snd]. setoid_rewrite <-Ha.
  unfold newPyTorchJobCondition. cbv zeta. destruct (Nat.eqb_spec (length active + length completed) 0) as [H0|H0].
  - eexists. split; [reflexivity|]. cbn. split; [|done]. split; [|done]. intros _. apply nil_length_inv. lia.
  - destruct active as [|a active]; cbn [length Nat.ltb Nat.leb andb].
    + eexists. split; [reflexivity|]. by cbn.
    + destruct completed; cbn [length]; destruct (IsVersionAtLeast _ 3 6); (eexists; split; [reflexivity|]); by cbn.
Qed.

Lemma pytorch_verdict_witness (clock := 0 : Clock) :
  let req := mkWorkloadRequest (WorkloadRun.target 6) WorkloadRun.new_result
    [WorkloadRun.job "done" [WorkloadRun.succeeded]; WorkloadRun.job "running" []] in
  ∃ cond, report_jobs (JQ := VersionRun.path_jq) (WorkloadRun.target 6) req = Ok (SetCondition WorkloadRun.new_result cond) ∧
    c_Impact cond = ImpactBlocking.
Proof.
  intros req. destruct (pytorch_verdict (JQ := VersionRun.path_jq) (WorkloadRun.target 6) req) as (cond & Hr & Hs & Hi).
  { repeat constructor; vm_compute; by eexists. }
  exists cond. split; [exact Hr|]. apply Hi. intros Ht%Hs. inversion_clear Ht as [|? ? _ Hb]. inversion_clear Hb as [|? ? Hf]. discriminate Hf.
Defined.

(** An OGXServer is impacted exactly when its external access is enabled and
    its hostname or the name of its Secret is absent or empty. *)
Theorem lacksExternalAccessTLS_iff `{JQ : GoJq} obj lacks :
  lacksExternalAccessTLS obj = Ok lacks →
  (lacks = true ↔
     jq_Query false "bool" as_bool obj ".spec.network.externalAccess.enabled" = Ok true ∧
     ∃ q, q ∈ [".spec.network.externalAccess.hostname"; ".spec.network.externalAccess.tls.secretName"] ∧
       (jq_Query_string obj q = Ok "" ∨ ∃ e, jq_Query_string obj q = Err e ∧ errors_is JqErrNotFound e = true)).
Proof.
  unfold lacksExternalAccessTLS. destruct (jq_Query _ _ _ _ _) as [[]|e|s]; cbn [optional res_bind negb].
  2: { intros [= <-]. naive_solver. }
  2: { destruct (errors_is _ e); [|done]. intros [= <-]. naive_solver. }
  2: done.
  assert (∀ q v, queryOptionalString obj q = Ok v →
    (v = "" ↔ jq_Query_string obj q = Ok "" ∨ ∃ e, jq_Query_string obj q = Err e ∧ errors_is JqErrNotFound e = true)) as Hq.
  { intros q v. unfold queryOptionalString, optional. destruct (jq_Query_string obj q) as [x|e|s]; [naive_solver| |done].
    destruct (errors_is _ e) eqn:He; naive_solver. }
  destruct (queryOptionalString _ _) as [h|e|s] eqn:Hh; [|done..]. cbn [res_bind].
  destruct (queryOptionalString obj ".spec.network.externalAccess.tls.secretName") as [t|e|s] eqn:Ht; [|done..]. cbn [res_bind].
  intros [= <-]. rewrite orb_true_iff, !String.eqb_eq, (Hq _ _ Hh), (Hq _ _ Ht). setoid_rewrite elem_of_cons. setoid_rewrite list_elem_of_singleton.
  split; [intros [H|H]; (split; [done|]); eexists; (split; [|exact H]); [by left|by right]|]. intros (_ & q & [->| ->] & H); [by left|by right].
Qed.

Lemma lacksExternalAccessTLS_iff_witness :
  lacksExternalAccessTLS (JQ := VersionRun.path_jq) (WorkloadRun.ogx "models.example.com") = Ok true ∧
  ∃ q, q ∈ [".spec.network.externalAccess.hostname"; ".spec.network.externalAccess.tls.secretName"].
Proof.
  split; [vm_compute; reflexivity|].
  destruct (lacksExternalAccessTLS_iff (JQ := VersionRun.path_jq) (WorkloadRun.ogx "models.example.com") true) as [Hl _];
    [vm_compute; reflexivity|].
  destruct (Hl eq_refl) as (_ & q & Hin & _). by exists q.
Defined.

(** RayClusters pass exactly when every one of them carries the annotation of
    its backup, and all are listed, typed, in order. *)
Theorem rayclusters_verdict `{SV : Semver, CL : Clock} (req : WorkloadRequest (T := RayClusterMetadata)) :
  ∃ dr cond, validateRayClustersWithBackupStatus req = Ok dr ∧
    r_Conditions dr = set_condition cond (r_Conditions (wr_Result req)) ∧
    r_ImpactedObjects dr = Some (map (λ rc, typed_cluster (rc_Object rc)) (wr_Items req)) ∧
    (c_Status cond = ConditionTrue ↔ Forall (λ rc, backed_up (rc_Object rc) = true) (wr_Items req)).
Proof.
  unfold validateRayClustersWithBackupStatus, newCodeFlareRayClusterCondition.
  pose proof (filter_all (λ rc, backed_up (rc_Object rc)) (wr_Items req)) as Hf.
  destruct (Nat.eqb_spec (length (wr_Items req)) 0) as [H0|H0].
  - apply nil_length_inv in H0 as ->. eexists _, _. split; [reflexivity|]. split; [reflexivity|]. split; [done|]. cbn. split; [constructor|done].
  - destruct (Nat.eqb_spec (length (List.filter (λ rc, backed_up (rc_Object rc)) (wr_Items req))) (length (wr_Items req))) as [He|He];
      (eexists _, _; split; [reflexivity|]; split; [reflexivity|]; split; [done|]; cbn; rewrite <-Hf; naive_solver).
Qed.

(** A cluster is listed with a warning exactly when the annotation is missing
    or empty. *)
Example ray_verbose :
  Ray_FormatVerboseOutput (with_objects WorkloadRun.new_result
    (map (λ rc, typed_cluster (rc_Object rc)) [WorkloadRun.cluster "a" "2026-01-01T00:00:00Z"; WorkloadRun.cluster "b" ""])) =
  ["    - [INFO] team/a (RayCluster) - pre-upgrade steps completed";
   "    - [WARNING] team/b (RayCluster) - pre-upgrade steps not complete"].
Proof. vm_compute. reflexivity. Qed.

(** The fields that were removed: the check reports, under the version the
    applications were listed with, exactly those that define one of them. *)
Theorem impacted_dspas_exact `{JQ : GoJq} dspas names :
  impacted_dspas dspas = Ok names →
  ∃ flags, length flags = length dspas ∧
    names = map (λ p, mkNN (GetNamespace p.1) (GetName p.1)) (List.filter snd (zip dspas flags)) ∧
    ∀ dspa flag, (dspa, flag) ∈ zip dspas flags →
      (flag = false ↔ ∀ path, path ∈ deprecatedAPIServerFieldPaths →
         ∃ e, jq_Query_any dspa path = Err e ∧ errors_is JqErrNotFound e = true).
Proof.
  revert names. induction dspas as [|dspa dspas IH]; intros names; cbn [impacted_dspas].
  { intros [= <-]. exists []. split; [done|]. split; [done|]. intros ? ? []%not_elem_of_nil. }
  destruct (HasFields dspa deprecatedAPIServerFieldPaths) as [found|e|s] eqn:Hf; [|done..]. cbn [res_map_err res_bind].
  destruct (impacted_dspas dspas) as [rest|e|s]; [|done..]. cbn [res_bind]. intros [= <-].
  destruct (IH _ eq_refl) as (flags & Hl & -> & Hex). exists (negb (length found =? 0)%nat :: flags).
  split; [cbn [length]; by rewrite Hl|]. cbn [zip_with List.filter snd]. split; [by destruct (length found =? 0)%nat|].
  intros d f [[= -> ->]|Hin]%elem_of_cons; [|by apply Hex].
  rewrite <-(HasFields_empty _ _ _ Hf), negb_false_iff, Nat.eqb_eq. split; [apply nil_length_inv|by intros ->].
Qed.
End WorkloadSpec.
