(* ===== verification/Registry.v ===== *)
(** * Registry: the registry of pkg/lint/command.go

    The checks of the program in the order [NewCommand] registers them, on the
    components the other files model: registration never panics, every check
    produces well-formed results only, and the executor therefore reports what
    each check says. *)
From S2P Require Import Prelude GoStrings GoFloat Errors Client Version Result Check Executor Validate CheckKit DepsCheck BackupDeps WorkloadHelpers.
From S2P Require Import NotebookImpacted NotebookChecks KServeChecks KueueIntegrity ComponentChecks DashboardChecks DependencyChecks.
From S2P Require Import PlatformChecks AIPipelines WorkloadChecks.
Open Scope string_scope.
Open Scope Z_scope.
Open Scope go_scope.

(** Impacted objects do not change whether a result is accepted. *)
Lemma accepted_SetImpactedObjects `{SV : Semver} c dr rt names : accepted c dr → accepted c (SetImpactedObjects dr rt names).
Proof. intros [[Hp Hv] Hne]. split; [split; [by apply prepared_SetImpactedObjects|done]|done]. Qed.
Lemma accepted_populateImpactedObjects `{SV : Semver} c dr impacted : accepted c dr → accepted c (populateImpactedObjects dr impacted).
Proof. done. Qed.
Lemma accepted_setImpactedObjects `{SV : Semver} c dr analyses : accepted c dr → accepted c (setImpactedObjects dr analyses).
Proof. intros Ha. by apply accepted_objects, accepted_annotation. Qed.
Lemma pending_with_count `{SV : Semver} c dr n : pending c dr → pending c (with_count dr n).
Proof. by apply pending_annotation. Qed.
Lemma accepted_with_count `{SV : Semver} c dr n : accepted c dr → accepted c (with_count dr n).
Proof. by apply accepted_annotation. Qed.
#[export] Hint Resolve accepted_SetImpactedObjects accepted_populateImpactedObjects accepted_setImpactedObjects
  pending_with_count accepted_with_count : go_accept.

Section Registry.
Context `{SV : Semver, AE : ApiErrors, KE : K8sErrors, SRV : ApiServer, JQ : GoJq, CL : Clock, SS : SortSlice, MO : MapOrder,
  QT : Quantities, GN : GoNumbers, FN : FloatNotations, SL : !SemverLiteral, CD : ConditionDecoder}.
Context (ListWith : ResourceType → ListOptions → res go_error (list json)).
Context (ListMetadataWith : ResourceType → ListOptions → res go_error (list PartialObjectMetadata)).
Context (ListMeta : ResourceType → ListOptions → res go_error (list ObjectMeta)).
Context (ListRayClusters : res go_error (list RayClusterMetadata)).
Context (olmAvailable : bool) (subscriptions : res go_error (list SubscriptionItem)) (minVersion : Version).
Context (format_value : json → string).
Context (unmarshal_config : string → res go_error (list string)) (unmarshal_yaml : string → option json).

Definition operators : res go_error (list Subscription) := let! items := subscriptions in Ok (map operator_view items).

(** ** NewCommand *)
Definition registered_checks : list Check :=
  [NewDSCInitializationReadinessCheck ListWith; NewDataScienceClusterReadinessCheck ListWith; NewStorageVersionCheck;

   NewMaaSFieldMigrationCheck ListWith; NewCodeFlareRemovalCheck ListWith;
   NewAcceleratorProfileMigrationCheck ListWith ListMetadataWith; NewDashboardHardwareProfileCheck ListWith ListMetadataWith;
   NewAuthModelMigrationCheck ListWith; NewRouteMigrationCheck ListWith; NewResourceCapacityCheck ListWith;
   NewRolloutStrategyCheck ListWith format_value; NewConfigCompatibilityCheck ListWith;
   NewPipelinesRenamingCheck ListWith; NewFeastRenamingCheck ListWith; NewServerlessRemovalCheck ListWith; NewWVARemovalCheck ListWith;
   NewKuadrantReadinessCheck ListMeta; NewAuthorinoTLSReadinessCheck ListMeta;
   NewServiceMeshOperatorCheck olmAvailable operators; NewServiceMeshRemovalCheck ListWith;
   NewManagementStateCheck ListWith ListMeta; NewOperatorInstalledCheck ListWith operators;
   NewLlamaStackRemovalCheck ListWith; NewModelMeshRemovalCheck ListWith; NewModelRegistryRenamingCheck ListWith;
   NewDeprecationCheck ListWith; NewTrainingOperatorRemovalCheck ListWith;

   NewCertManagerCheck olmAvailable subscriptions; NewOpenShiftCheck minVersion;
   NewOrphanedCRDsCheck ListWith olmAvailable subscriptions; NewOSSM34Check olmAvailable subscriptions;
   NewServiceMeshCheck ListWith olmAvailable subscriptions; NewSharedOSSMCheck ListWith; NewSharedServerlessCheck ListWith;

   NewAppWrapperCleanupCheck ListWith ListMetadataWith; NewCustomRBACAPISubresourceCheck ListWith;
   NewInstructLabRemovalCheck ListWith; NewStoredVersionRemovalCheck; NewGuardrailsImpactedCheck ListWith unmarshal_yaml;
   NewOtelMigrationCheck ListWith; NewInferenceServiceConfigCheck ListWith unmarshal_config;
   NewKServeAcceleratorMigrationCheck ListWith ListMetadataWith; NewKServeHardwareProfileMigrationCheck ListWith ListMetadataWith;
   NewKServeImpactedWorkloadsCheck ListWith ListMetadataWith; NewDataIntegrityCheck ListWith ListMeta;
   NewConfigCheck ListWith; NewMigrationCheck ListWith; NewExternalAccessTLSCheck ListWith;
   NewAcceleratorMigrationCheck ListWith ListMetadataWith; NewContainerNameCheck ListWith;
   NewHardwareProfileMigrationCheck ListWith ListMetadataWith; NewConnectionIntegrityCheck ListWith ListMetadataWith;
   NewHardwareProfileIntegrityCheck ListWith ListMetadataWith; NewImpactedWorkloadsCheck ListWith; NewNonStoppedWorkloadsCheck ListWith;
   NewRayImpactedCheck ListWith ListRayClusters; NewNumProcPerNodeCheck ListWith; NewPodTemplateOverridesCheck ListWith;
   NewPyTorchImpactedCheck ListWith].

Fixpoint register_all (r : gmap string Check) (checks : list Check) : res string (gmap string Check) :=
  match checks with
  | [] => Ok r
  | check :: rest => let! r := MustRegister r check in register_all r rest
  end.
Definition NewCommand_registry : res string (gmap string Check) := register_all NewRegistry registered_checks.

(** ** Lemmas *)
(** *** The checks of notebooks, KServe and Kueue *)
Definition notebook_checks : list Check :=
  [NewAcceleratorMigrationCheck ListWith ListMetadataWith; NewContainerNameCheck ListWith;
   NewHardwareProfileMigrationCheck ListWith ListMetadataWith; NewConnectionIntegrityCheck ListWith ListMetadataWith;
   NewHardwareProfileIntegrityCheck ListWith ListMetadataWith; NewImpactedWorkloadsCheck ListWith; NewNonStoppedWorkloadsCheck ListWith].
Definition serving_checks : list Check :=
  [NewInferenceServiceConfigCheck ListWith unmarshal_config; NewKServeAcceleratorMigrationCheck ListWith ListMetadataWith;
   NewKServeHardwareProfileMigrationCheck ListWith ListMetadataWith; NewKServeImpactedWorkloadsCheck ListWith ListMetadataWith;
   NewDataIntegrityCheck ListWith ListMeta].

Lemma notebook_checks_sound : Forall sound_check notebook_checks.
Proof using MO.
  repeat (apply Forall_cons; split; [apply embed_sound; [done..|]; intros c target; accept|]). apply Forall_nil. done.
Qed.
Lemma serving_checks_sound : Forall sound_check serving_checks.
Proof using MO.
  repeat (apply Forall_cons; split; [apply embed_sound; [done..|]; intros c target; accept|]). apply Forall_nil. done.
Qed.
Lemma registered_checks_sound : Forall sound_check registered_checks.
Proof using MO.
  pose proof notebook_checks_sound as H1. pose proof serving_checks_sound as H2.
  pose proof (platform_checks_sound ListWith) as H3. pose proof (component_checks_sound ListWith ListMeta olmAvailable operators) as H4.
  pose proof (dashboard_checks_sound ListWith ListMetadataWith format_value) as H5.
  pose proof (dependency_checks_sound ListWith olmAvailable subscriptions minVersion) as H6.
  pose proof (workload_checks_sound ListWith ListMetadataWith ListRayClusters unmarshal_yaml) as H7.
  unfold notebook_checks, serving_checks, platform_checks, component_checks, dashboard_checks, dependency_checks, workload_checks in *.
  unfold registered_checks. rewrite !Forall_cons in *. destruct_and!. split_and!; (assumption || by apply Forall_nil).
Qed.

(** *** Registration *)
Lemma register_all_spec r checks :
  NoDup (map ck_ID checks) → (∀ c, c ∈ checks → r !! ck_ID c = None) →
  ∃ r', register_all r checks = Ok r' ∧
    ∀ id, r' !! id = match find (λ c, String.eqb (ck_ID c) id) checks with Some c => Some c | None => r !! id end.
Proof.
  revert r. induction checks as [|c checks IH]; intros r Hnd Hfree; [by exists r|].
  apply NoDup_cons in Hnd as [Hc Hnd]. cbn [register_all]. unfold MustRegister, Register. rewrite (Hfree c) by (by left). cbn [res_bind].
  destruct (IH (<[ck_ID c := c]> r) Hnd) as (r' & Hr & Hlook).
  { intros d Hd. rewrite lookup_insert_ne; [apply Hfree; by right|]. intros He. apply Hc. rewrite He.
    apply list_elem_of_In, in_map, list_elem_of_In, Hd. }
  exists r'. split; [exact Hr|]. intros id. rewrite Hlook. cbn [find].
  destruct (String.eqb_spec (ck_ID c) id) as [<-|Hne]; [|by rewrite lookup_insert_ne].
  destruct (find _ checks) as [d|] eqn:Hf; [|apply lookup_insert_eq]. apply find_some in Hf as [Hin He%String.eqb_eq].
  destruct Hc. rewrite <-He. by apply list_elem_of_In, in_map.
Qed.
Lemma find_ck_ID checks c :
  NoDup (map ck_ID checks) → c ∈ checks → find (λ d, String.eqb (ck_ID d) (ck_ID c)) checks = Some c.
Proof.
  induction checks as [|d checks IH]; intros Hnd Hin; [by apply not_elem_of_nil in Hin|].
  apply NoDup_cons in Hnd as [Hd Hnd]. cbn [find]. apply elem_of_cons in Hin as [->|Hin]; [by rewrite String.eqb_refl|].
  destruct (String.eqb_spec (ck_ID d) (ck_ID c)) as [He|]; [|by apply IH]. destruct Hd. rewrite He.
  by apply list_elem_of_In, in_map, list_elem_of_In.
Qed.
Lemma registry_size checks (r : gmap string Check) :
  NoDup (map ck_ID checks) → (∀ id c, r !! id = Some c ↔ c ∈ checks ∧ ck_ID c = id) → size r = length checks.
Proof.
  intros Hnd Hr. rewrite <-size_dom. replace (dom r) with (list_to_set (map ck_ID checks) : gset string).
  { rewrite size_list_to_set by done. apply length_map. }
  apply set_eq. intros id. rewrite elem_of_list_to_set, elem_of_dom, list_elem_of_In, in_map_iff. split.
  - intros (c & He & Hin). exists c. by rewrite Hr, list_elem_of_In.
  - intros [c Hc]. apply Hr in Hc as [Hin He]. exists c. by rewrite <-list_elem_of_In.
Qed.
(** What can be read off the table of checks. *)
Definition in_canonical_group (c : Check) : bool := contains_str CanonicalGroupOrder (ck_Group c).
Definition shortcuts : list string := [SelectorComponents; SelectorDependencies; SelectorPlatform; SelectorServices; SelectorWorkloads].
Definition matches (c : Check) (pattern : string) : bool :=
  match matchesPattern c pattern with Ok b => b | _ => false end.
Definition shortcut_is_glob (c : Check) : bool :=
  forallb (λ s, match matchesPattern c (s +:+ ".*") with Ok b => Bool.eqb b (matches c s) | _ => false end) shortcuts.
Lemma registered_groups : forallb in_canonical_group registered_checks = true.
Proof. vm_compute. reflexivity. Qed.
Lemma registered_shortcuts : forallb shortcut_is_glob registered_checks = true.
Proof. vm_compute. reflexivity. Qed.
Lemma registered_ids_distinct : NoDup (map ck_ID registered_checks).
Proof. apply (bool_decide_unpack _). vm_compute. exact I. Qed.
End Registry.

(** ** A concrete cluster *)
Module RegistryRun.
Import (hints) ClientRun VersionRun.
Definition crds : ApiServer := PlatformRun.crd ["v1"; "v2"].
Definition nothing {A} (rt : ResourceType) (o : ListOptions) : res go_error (list A) := Ok [].
Definition checks (clock : Clock) : list Check :=
  registered_checks (SRV := crds) (JQ := PlatformRun.queries) (CL := clock) (SS := insertion_SortSlice) (MO := canonical_MapOrder)
    (QT := DashboardRun.quantities) (GN := DashboardRun.numbers) (FN := DashboardRun.notations) (SL := DependencyRun.literals)
    (CD := PlatformRun.decoder) nothing nothing nothing (Ok []) false (Ok []) (VersionRun.mkVer 4 19 9) (λ _, "") (λ _, Ok []) (λ _, None).
Definition storage (clock : Clock) : Check := NewStorageVersionCheck (SRV := crds) (JQ := PlatformRun.queries) (CL := clock).
Lemma storage_registered clock : storage clock ∈ checks clock.
Proof. do 2 right. left. Qed.
End RegistryRun.
Import (hints) ClientRun VersionRun.

(** ** Properties *)
Module RegistrySpec.
Section Properties.
Context `{SV : Semver, AE : ApiErrors, KE : K8sErrors, SRV : ApiServer, JQ : GoJq, CL : Clock, SS : SortSlice, MO : MapOrder,
  QT : Quantities, GN : GoNumbers, FN : FloatNotations, SL : !SemverLiteral, CD : ConditionDecoder}.
Context (ListWith : ResourceType → ListOptions → res go_error (list json)).
Context (ListMetadataWith : ResourceType → ListOptions → res go_error (list PartialObjectMetadata)).
Context (ListMeta : ResourceType → ListOptions → res go_error (list ObjectMeta)).
Context (ListRayClusters : res go_error (list RayClusterMetadata)).
Context (olmAvailable : bool) (subscriptions : res go_error (list SubscriptionItem)) (minVersion : Version).
Context (format_value : json → string).
Context (unmarshal_config : string → res go_error (list string)) (unmarshal_yaml : string → option json).
Notation registered := (registered_checks ListWith ListMetadataWith ListMeta ListRayClusters olmAvailable subscriptions minVersion
  format_value unmarshal_config unmarshal_yaml).

(** The program starts: no registration panics, and the registry holds
    exactly the checks that were registered, each under its identifier. *)
Theorem NewCommand_registry_exact :
  ∃ r, NewCommand_registry ListWith ListMetadataWith ListMeta ListRayClusters olmAvailable subscriptions minVersion
      format_value unmarshal_config unmarshal_yaml = Ok r ∧
    size r = 59%nat ∧ ∀ id c, r !! id = Some c ↔ c ∈ registered ∧ ck_ID c = id.
Proof using All.
  pose proof (registered_ids_distinct ListWith ListMetadataWith ListMeta ListRayClusters olmAvailable subscriptions minVersion
    format_value unmarshal_config unmarshal_yaml) as Hnd.
  destruct (register_all_spec NewRegistry registered Hnd) as (r & Hr & Hl); [done|].
  exists r. split; [exact Hr|]. assert (∀ id c, r !! id = Some c ↔ c ∈ registered ∧ ck_ID c = id) as Hiff.
  { intros id c. rewrite Hl. split.
    - destruct (find _ registered) as [d|] eqn:Hf; [|done]. intros [= <-]. apply find_some in Hf as [Hin He%String.eqb_eq].
      split; [by apply list_elem_of_In|done].
    - intros [Hin <-]. by rewrite (find_ck_ID registered c Hnd Hin). }
  split; [|exact Hiff]. by apply (registry_size registered r).
Qed.

(** C40: Every check of the program belongs to one of the groups of the report,
    and whatever cluster it is run on, a result it returns is well-formed. *)
Theorem registered_results_wellformed (c : Check) t target dr :
  c ∈ registered → ck_Validate c t target = Ok (Some dr) →
  DiagnosticResult_Validate dr = Ok () ∧ ck_Group c ∈ CanonicalGroupOrder.
Proof using All.
  intros Hin Hdr. pose proof (registered_checks_sound ListWith ListMetadataWith ListMeta ListRayClusters olmAvailable subscriptions
    minVersion format_value unmarshal_config unmarshal_yaml) as Hs.
  rewrite Forall_forall in Hs. destruct (Hs c Hin) as [_ Hv]. split; [by apply (Hv t target)|].
  pose proof (registered_groups ListWith ListMetadataWith ListMeta ListRayClusters olmAvailable subscriptions
    minVersion format_value unmarshal_config unmarshal_yaml) as Hg.
  rewrite forallb_forall in Hg. by apply contains_str_In, Hg, list_elem_of_In.
Qed.

(** The executor passes on what a check of the program says: it never finds
    its result invalid. *)
Theorem registered_results_reported (c : Check) io t target dr :
  c ∈ registered → ck_Validate c t (with_io io target) = Ok (Some dr) →
  executeCheck io t target c = Ok ({| ce_Check := c; ce_Result := Some dr; ce_Error := None |}, []).
Proof using All.
  intros Hin Hdr. pose proof (registered_checks_sound ListWith ListMetadataWith ListMeta ListRayClusters olmAvailable subscriptions
    minVersion format_value unmarshal_config unmarshal_yaml) as Hs.
  rewrite Forall_forall in Hs. destruct (Hs c Hin) as [_ Hv]. unfold executeCheck. rewrite Hdr. by rewrite (Hv t _ dr Hdr).
Qed.

(** For the checks of the program, selecting a group by its shortcut and by
    the pattern of its identifiers is the same. *)
Theorem shortcut_selects_prefix (c : Check) shortcut :
  c ∈ registered → shortcut ∈ shortcuts → matchesPattern c (shortcut +:+ ".*") = matchesPattern c shortcut.
Proof using All.
  intros Hin Hs. pose proof (registered_shortcuts ListWith ListMetadataWith ListMeta ListRayClusters olmAvailable subscriptions
    minVersion format_value unmarshal_config unmarshal_yaml) as Hg.
  rewrite forallb_forall in Hg. apply list_elem_of_In in Hin, Hs. specialize (Hg c Hin). unfold shortcut_is_glob in Hg.
  rewrite forallb_forall in Hg. specialize (Hg _ Hs).
  assert (∃ b, matchesPattern c shortcut = Ok b) as [b Hb].
  { clear -Hs. cbn in Hs. by repeat (destruct Hs as [<-|Hs]; [eexists; reflexivity|]). }
  unfold matches in Hg. rewrite Hb in *. destruct (matchesPattern c (shortcut +:+ ".*")) as [b'|e|s]; [|done..].
  by apply Bool.eqb_prop in Hg as ->.
Qed.
End Properties.

Lemma registered_results_wellformed_witness (clock := 0 : Clock) (O := canonical_MapOrder) :
  ∃ dr, ck_Validate (RegistryRun.storage clock) 0%nat DependencyRun.target = Ok (Some dr) ∧ DiagnosticResult_Validate dr = Ok ().
Proof.
  eexists. split; [vm_compute; reflexivity|].
  refine (proj1 (registered_results_wellformed (SRV := RegistryRun.crds) (JQ := PlatformRun.queries) (SS := insertion_SortSlice)
    (MO := O) (QT := DashboardRun.quantities) (GN := DashboardRun.numbers) (FN := DashboardRun.notations) (SL := DependencyRun.literals)
    (CD := PlatformRun.decoder) _ _ _ _ _ _ _ _ _ _ (RegistryRun.storage clock) 0%nat DependencyRun.target _
    (RegistryRun.storage_registered clock) _)).
  vm_compute. reflexivity.
Defined.
Lemma registered_results_reported_witness (clock := 0 : Clock) (O := canonical_MapOrder) :
  ∃ dr, executeCheck (AE := ClientRun.api) (MO := O) true 0%nat DependencyRun.target (RegistryRun.storage clock) =
    Ok ({| ce_Check := RegistryRun.storage clock; ce_Result := Some dr; ce_Error := None |}, []) ∧ GetImpact dr = ImpactBlocking.
Proof.
  eexists. split; [|].
  - refine (registered_results_reported (SRV := RegistryRun.crds) (JQ := PlatformRun.queries) (SS := insertion_SortSlice)
    (MO := O) (QT := DashboardRun.quantities) (GN := DashboardRun.numbers) (FN := DashboardRun.notations) (SL := DependencyRun.literals)
    (CD := PlatformRun.decoder) _ _ _ _ _ _ _ _ _ _ (RegistryRun.storage clock) true 0%nat DependencyRun.target _
    (RegistryRun.storage_registered clock) _). vm_compute. reflexivity.
  - vm_compute. reflexivity.
Defined.
Lemma shortcut_selects_prefix_witness (clock := 0 : Clock) :
  matchesPattern (RegistryRun.storage clock) "platform.*" = Ok true.
Proof.
  exact (shortcut_selects_prefix (SRV := RegistryRun.crds) (JQ := PlatformRun.queries) (SS := insertion_SortSlice)
    (MO := canonical_MapOrder) (QT := DashboardRun.quantities) (GN := DashboardRun.numbers) (FN := DashboardRun.notations)
    (SL := DependencyRun.literals) (CD := PlatformRun.decoder) _ _ _ _ _ _ _ _ _ _ (RegistryRun.storage clock) "platform"
    (RegistryRun.storage_registered clock) ltac:(right; right; left)).
Defined.
End RegistrySpec.
