(* ===== verification/Programs.v ===== *)
(** * Programs: interaction with an environment

    The migration actions talk to the cluster, the terminal and the disk and
    decide what to do next from the answers.  A program is the tree of its
    questions: [Ask c k] asks [c] and goes on with the answer.  An environment
    runs a program to its result and transcript.  A monitor is an automaton
    over questions and answers; [obeys] says that a program never asks what
    the monitor forbids, whatever the answers, and what its result satisfies. *)
From S2P Require Import Prelude.

Section Programs.
Context {command : Type} {answer : command → Type}.

(** [Diverge] is a loop that ran out of fuel. *)
Inductive Prog (A : Type) : Type :=
| Ret (a : A)
| Ask (c : command) (k : answer c → Prog A)
| Diverge.
Arguments Ret {A} a.
Arguments Ask {A} c k.
Arguments Diverge {A}.

Fixpoint prog_bind {A B} (p : Prog A) (f : A → Prog B) : Prog B :=
  match p with
  | Ret a => f a
  | Ask c k => Ask c (λ x, prog_bind (k x) f)
  | Diverge => Diverge
  end.

Definition ask (c : command) : Prog (answer c) := Ask c Ret.

(** ** Running *)
Definition exchange : Type := { c : command & answer c }.

Section Run.
Context {S : Type} (env : ∀ c, S → answer c * S).

(** The result, if the program does not diverge, the exchanges in order and
    the state of the environment afterwards. *)
Fixpoint exec {A} (p : Prog A) (s : S) : option A * list exchange * S :=
  match p with
  | Ret a => (Some a, [], s)
  | Diverge => (None, [], s)
  | Ask c k =>
      let '(x, s') := env c s in
      let '(r, tr, s'') := exec (k x) s' in
      (r, existT c x :: tr, s'')
  end.
Definition result_of {A} (p : Prog A) (s : S) : option A := (exec p s).1.1.
Definition transcript {A} (p : Prog A) (s : S) : list exchange := (exec p s).1.2.
Definition final_state {A} (p : Prog A) (s : S) : S := (exec p s).2.
End Run.

(** ** Monitors *)
Section Monitor.
Context {T : Type} (allowed : T → command → Prop) (next : T → ∀ c, answer c → T).

Fixpoint obeys {A} (p : Prog A) (t : T) (Q : A → T → Prop) : Prop :=
  match p with
  | Ret a => Q a t
  | Ask c k => allowed t c ∧ ∀ x, obeys (k x) (next t c x) Q
  | Diverge => True
  end.

(** A transcript the monitor accepts, and the state it ends in. *)
Fixpoint accepts (t : T) (tr : list exchange) : Prop :=
  match tr with
  | [] => True
  | existT c x :: tr' => allowed t c ∧ accepts (next t c x) tr'
  end.
Definition observe (t : T) (tr : list exchange) : T := foldl (λ t e, next t (projT1 e) (projT2 e)) t tr.

Lemma obeys_mono {A} (p : Prog A) t (Q Q' : A → T → Prop) :
  obeys p t Q → (∀ a t', Q a t' → Q' a t') → obeys p t Q'.
Proof.
  revert t. induction p as [a|c k IH|]; intros t Hp HQ; simpl in *; [auto| |done].
  destruct Hp as [Ha Hk]. split; [done|]. intros x. by apply IH.
Qed.

Lemma obeys_bind {A B} (p : Prog A) (f : A → Prog B) t Q :
  obeys p t (λ a t', obeys (f a) t' Q) → obeys (prog_bind p f) t Q.
Proof.
  revert t. induction p as [a|c k IH|]; intros t Hp; simpl in *; [done| |done].
  destruct Hp as [Ha Hk]. split; [done|]. intros x. by apply IH.
Qed.

(** Obedience is about every run: the transcript is accepted, and the result
    satisfies the postcondition in the state the monitor reaches. *)
Lemma obeys_exec {S A} (env : ∀ c, S → answer c * S) (p : Prog A) t Q s :
  obeys p t Q →
  accepts t (transcript env p s) ∧
  ∀ a, result_of env p s = Some a → Q a (observe t (transcript env p s)).
Proof.
  unfold transcript, result_of. revert t s.
  induction p as [a|c k IH|]; intros t s Hp; simpl in *; [by split; [|intros ? [= <-]]| |done].
  destruct Hp as [Ha Hk]. destruct (env c s) as [x s'].
  specialize (IH x (next t c x) s' (Hk x)). destruct (exec env (k x) s') as [[r tr] s'']. simpl in *.
  destruct IH as [Hacc HQ]. by split.
Qed.
End Monitor.

Lemma accepts_Forall {T} (allowed : T → command → Prop) (next : T → ∀ c, answer c → T) (P : command → Prop) t (tr : list exchange) :
  (∀ t c, allowed t c → P c) → accepts allowed next t tr → Forall (λ e, P (projT1 e)) tr.
Proof.
  intros HP. revert t. induction tr as [|[c x] tr IH]; intros t Hacc; [constructor|]. destruct Hacc as [Hc Hacc].
  constructor; [by eapply HP|by eapply IH].
Qed.

(** The monitor without memory: every question the program can ask
    satisfies [P]. *)
Definition asks_only {A} (P : command → Prop) (p : Prog A) : Prop :=
  obeys (λ _, P) (λ _ _ _, ()) p () (λ _ _, True).

Lemma asks_only_transcript {S A} (env : ∀ c, S → answer c * S) P (p : Prog A) s :
  asks_only P p → Forall (λ e, P (projT1 e)) (transcript env p s).
Proof.
  intros Hp. destruct (obeys_exec _ _ env p () _ s Hp) as [Hacc _]. revert Hacc. generalize (transcript env p s).
  induction l as [|[c x] tr IH]; [done|]. simpl. intros [Hc Hacc]. constructor; [done|by apply IH].
Qed.

(** Programs that always return: they have no [Diverge]. *)
Fixpoint converges {A} (p : Prog A) : Prop :=
  match p with
  | Ret _ => True
  | Ask c k => ∀ x, converges (k x)
  | Diverge => False
  end.

Lemma converges_exec {S A} (env : ∀ c, S → answer c * S) (p : Prog A) s :
  converges p → is_Some (result_of env p s).
Proof.
  unfold result_of. revert s. induction p as [a|c k IH|]; intros s Hp; simpl in *; [by eexists| |done].
  destruct (env c s) as [x s']. specialize (IH x s' (Hp x)). by destruct (exec env (k x) s') as [[r tr] s''].
Qed.

Lemma converges_bind {A B} (p : Prog A) (f : A → Prog B) :
  converges p → (∀ a, converges (f a)) → converges (prog_bind p f).
Proof. induction p; simpl; auto. Qed.

Lemma exec_bind {S A B} (env : ∀ c, S → answer c * S) (p : Prog A) (f : A → Prog B) s :
  exec env (prog_bind p f) s =
  match exec env p s with
  | (Some a, tr, s') => let '(r, tr', s'') := exec env (f a) s' in (r, (tr ++ tr')%list, s'')
  | (None, tr, s') => (None, tr, s')
  end.
Proof.
  revert s. induction p as [a|c k IH|]; intros s; simpl; [by destruct (exec env (f a) s) as [[??]?]| |done].
  destruct (env c s) as [x s']. rewrite IH. destruct (exec env (k x) s') as [[[a|] tr] s'']; [|done].
  by destruct (exec env (f a) s'') as [[??]?].
Qed.
End Programs.
Arguments Prog {command} answer A.
Arguments Ret {command answer A} a.
Arguments Ask {command answer A} c k.
Arguments Diverge {command answer A}.
