(* ===== verification/Cluster.v ===== *)
(** * Cluster: what the migration actions do to the world

    The questions of an action ([command]: requests to the API server, the
    terminal, the disk, the timers), the monad [M] its code is written in
    (programs over the heap of step recorders that may fail), the helpers of
    k8s.io/apimachinery it calls, and the prompt of pkg/util/confirmation.
    The lines a verbose recorder prints are not modelled. *)
From stdpp Require Import countable.
From Stdlib Require Import Ascii.
From S2P Require Import Prelude GoStrings Errors Client Version Check DepsCheck Recorder Action Programs.
Open Scope string_scope.
Open Scope Z_scope.

(** ** Questions and answers *)
(** The fields of a typed CRD the code reads; the others, its resource version
    among them, go back as they came. *)
Record CRDVersion := mkCRDVersion { cv_Name : string; cv_Served : bool; cv_Storage : bool }.
Record TypedCRD := mkTypedCRD {
  tc_Versions : list CRDVersion;
  tc_StoredVersions : list string;
  tc_Rest : json;
}.

Inductive PatchType := JSONPatchType | MergePatchType | StrategicMergePatchType | ApplyPatchType.

(** Which case of a [select] over a context, a deadline and a ticker fired. *)
Inductive select_case := CtxDone | DeadlineFired | Ticked.

(** What [os.Stat] says of a path, as far as the code asks. *)
Inductive file_stat := StatMissing | StatDenied | StatRegular | StatDir | StatOther.
#[export] Instance file_stat_eq_dec : EqDecision file_stat.
Proof. solve_decision. Defined.

(** What [OperatorExists] of odh-platform-utilities/pkg/cluster/olm says. *)
Inductive operator_lookup := OperatorFound | OperatorNotInstalled | OperatorLookupFailed (err : go_error).

(** [dry] is [DryRun: []string{metav1.DryRunAll}] in the options.
    [KDiscovery] is what the discovery endpoint of the client serves;
    [KCancelled] and [KSleep] answer with the error of a context that has
    ended, the latter when it ends before the timer; [KReadDir] gives names
    and whether they are directories.  [KAPIResources] is
    [ServerResourcesForGroupVersion], whose list may come with an error;
    [KExtensionInstallsPackage], [KOperatorExists] and
    [KOperatorPackageRequested] are functions of odh-platform-utilities, and
    [KServiceProxy] reads a service through the API server to its end.
    Objects of typed clients are given as their JSON. *)
Inductive command :=
| KList (rt : ResourceType) (namespace labelSelector : string)
| KListAll (rt : ResourceType) (opts : ListOptions)
| KGet (rt : ResourceType) (namespace name : string)
| KCreate (rt : ResourceType) (namespace : string) (obj : json) (dry : bool)
| KUpdate (rt : ResourceType) (namespace : string) (obj : json) (dry : bool)
| KUpdateStatus (rt : ResourceType) (obj : json)
| KPatch (rt : ResourceType) (namespace name : string) (pt : PatchType) (data : json) (dry : bool)
| KDelete (rt : ResourceType) (namespace name : string)
| KServerResources (groupVersion : string)
| KGetCRD (name : string)
| KUpdateCRDStatus (crd : TypedCRD)
| KReadLine
| KErrOut (s : string)
| KSelect
| KNow
| KReadFile (path : string)
| KMkdirAll (path : string)
| KWriteFile (path data : string)
| KOut (s : string)
| KDiscovery
| KStat (path : string)
| KReadDir (path : string)
| KRemove (path : string)
| KCancelled
| KSleep (duration : Z)
| KListMetadata (rt : ResourceType) (opts : ListOptions)
| KAPIResources (groupVersion : string)
| KAccessReview (verb group resource namespace : string)
| KExtensionInstallsPackage (package namespace : string)
| KOperatorExists (package : string)
| KOperatorPackageRequested (package : string)
| KServiceProxy (namespace scheme service port path : string).

Definition answer (c : command) : Type :=
  match c with
  | KList _ _ _ | KListAll _ _ => res go_error (list json)
  | KGet _ _ _ | KCreate _ _ _ _ | KUpdate _ _ _ _ | KUpdateStatus _ _ | KPatch _ _ _ _ _ _ => res go_error json
  | KDelete _ _ _ => res go_error ()
  | KServerResources _ => res go_error (list string)
  | KGetCRD _ => res go_error (option TypedCRD)
  | KUpdateCRDStatus _ => res go_error ()
  | KReadLine => option string
  | KErrOut _ => ()
  | KSelect => select_case
  | KNow => string
  | KReadFile _ => res go_error string
  | KMkdirAll _ | KWriteFile _ _ | KRemove _ => res go_error ()
  | KOut _ => ()
  | KDiscovery => option (option (list (string * nat)))
  | KStat _ => file_stat
  | KReadDir _ => list (string * bool)
  | KCancelled | KSleep _ => option go_error
  | KListMetadata _ _ => res go_error (list json)
  | KAPIResources _ => option (list string) * option go_error
  | KAccessReview _ _ _ _ => res go_error bool
  | KExtensionInstallsPackage _ _ | KOperatorPackageRequested _ => bool * option go_error
  | KOperatorExists _ => operator_lookup
  | KServiceProxy _ _ _ _ _ => res go_error string
  end.

(** Requests that change the cluster, and those that change the disk. *)
Definition mutates (c : command) : bool :=
  match c with
  | KCreate _ _ _ dry | KUpdate _ _ _ dry | KPatch _ _ _ _ _ dry => negb dry
  | KUpdateStatus _ _ | KDelete _ _ _ | KUpdateCRDStatus _ => true
  | _ => false
  end.
Definition writes_disk (c : command) : bool :=
  match c with KMkdirAll _ | KWriteFile _ _ | KRemove _ => true | _ => false end.

Definition harmless (c : command) : Prop := mutates c = false ∧ writes_disk c = false.

(** ** The monad *)
Notation PR A := (Prog answer A).
Definition M (A : Type) : Type := heap → PR (res go_error A * heap).

Definition m_ret {A} (a : A) : M A := λ h, Ret (Ok a, h).
Definition m_lift {A} (r : res go_error A) : M A := λ h, Ret (r, h).
Definition m_throw {A} (e : go_error) : M A := m_lift (Err e).
Definition m_bind {A B} (m : M A) (k : A → M B) : M B := λ h,
  prog_bind (m h) (λ rh, match rh.1 with
                         | Ok a => k a rh.2
                         | Err e => Ret (Err e, rh.2)
                         | Panic s => Ret (Panic s, rh.2)
                         end).
(** The error as a value, for code that inspects it. *)
Definition attempt {A} (m : M A) : M (go_error + A) := λ h,
  prog_bind (m h) (λ rh, match rh.1 with
                         | Ok a => Ret (Ok (inr a), rh.2)
                         | Err e => Ret (Ok (inl e), rh.2)
                         | Panic s => Ret (Panic s, rh.2)
                         end).
Definition m_map_err {A} (f : go_error → go_error) (m : M A) : M A := λ h,
  prog_bind (m h) (λ rh, Ret (res_map_err f rh.1, rh.2)).
Definition call (c : command) : M (answer c) := λ h, Ask c (λ x, Ret (Ok x, h)).
Definition m_diverge {A} : M A := λ _, Diverge.

Declare Scope prog_scope.
Delimit Scope prog_scope with prog.
Notation "'let*' x := m 'in' k" := (m_bind m (λ x, k))
  (at level 10, x name, m at level 100, k at level 200) : prog_scope.
Notation "'let*' ' p := m 'in' k" := (m_bind m (λ x, match x with p => k end))
  (at level 10, p strict pattern, m at level 100, k at level 200) : prog_scope.
Notation "'try*' x := m 'else' f 'in' k" := (m_bind (m_map_err f m) (λ x, k))
  (at level 10, x name, m at level 100, f at level 100, k at level 200) : prog_scope.
Notation "m ';;' k" := (m_bind m (λ _, k)) (at level 100, k at level 200, right associativity) : prog_scope.
Open Scope prog_scope.

(** [for _, x := range l], with the variables the body assigns. *)
Fixpoint m_fold {A S} (f : S → A → M S) (l : list A) (s : S) : M S :=
  match l with
  | [] => m_ret s
  | x :: l' => let* s' := f s x in m_fold f l' s'
  end.
Fixpoint m_each {A} (f : A → M ()) (l : list A) : M () :=
  match l with
  | [] => m_ret ()
  | x :: l' => f x ;; m_each f l'
  end.

(** Requests that may fail. *)
Definition kList rt ns sel : M (list json) := let* r := call (KList rt ns sel) in m_lift r.
Definition kListAll rt opts : M (list json) := let* r := call (KListAll rt opts) in m_lift r.
Definition kGet rt ns name : M json := let* r := call (KGet rt ns name) in m_lift r.
Definition kCreate rt ns obj dry : M json := let* r := call (KCreate rt ns obj dry) in m_lift r.
Definition kUpdate rt ns obj dry : M json := let* r := call (KUpdate rt ns obj dry) in m_lift r.
Definition kUpdateStatus rt obj : M json := let* r := call (KUpdateStatus rt obj) in m_lift r.
Definition kPatch rt ns name pt data dry : M json := let* r := call (KPatch rt ns name pt data dry) in m_lift r.
Definition kDelete rt ns name : M () := let* r := call (KDelete rt ns name) in m_lift r.
Definition kServerResources gv : M (list string) := let* r := call (KServerResources gv) in m_lift r.
Definition kGetCRD name : M (option TypedCRD) := let* r := call (KGetCRD name) in m_lift r.
Definition kUpdateCRDStatus crd : M () := let* r := call (KUpdateCRDStatus crd) in m_lift r.
Definition kReadFile path : M string := let* r := call (KReadFile path) in m_lift r.
Definition kMkdirAll path : M () := let* r := call (KMkdirAll path) in m_lift r.
Definition kWriteFile path data : M () := let* r := call (KWriteFile path data) in m_lift r.
Definition kErrOut s : M () := let* _u := call (KErrOut s) in m_ret ().
Definition kOut s : M () := let* _u := call (KOut s) in m_ret ().
Definition kListMetadata rt opts : M (list json) := let* r := call (KListMetadata rt opts) in m_lift r.
Definition kAccessReview verb group resource ns : M bool := let* r := call (KAccessReview verb group resource ns) in m_lift r.
Definition kServiceProxy ns scheme service port path : M string :=
  let* r := call (KServiceProxy ns scheme service port path) in m_lift r.
Definition kRemove path : M () := let* r := call (KRemove path) in m_lift r.

(** [client.GetResource] over the answer of the API server: a permission
    error gives a nil object. *)
Definition GetResource `{AE : ApiErrors} (rt : ResourceType) (name namespace : string) : M (option json) :=
  let* r := call (KGet rt namespace name) in
  m_lift (Get (SRV := {| srv_list _ _ _ := Ok ([], ""); srv_get _ _ _ := r; srv_discovery := None |}) rt name namespace).

(** [client.GetDataScienceCluster] (helpers.go), with the lists it asks for. *)
Section Singletons.
Context `{AE : ApiErrors, KE : K8sErrors}.
Definition kSingleton (rt : ResourceType) : M json :=
  let* listed := call (KListAll rt defaultListOptions) in
  m_lift (GetSingleton (λ _, listed) rt).
Definition kSingletonWithDiscovery (v2Resource v1Resource : ResourceType) : M json :=
  let* discovered := call KDiscovery in
  match discovered with
  | None => kSingleton v2Resource
  | Some disc =>
      let* obj :=
        if negb (hasGroupVersion disc v2Resource) then m_ret None
        else
          let* got := attempt (kSingleton v2Resource) in
          match got with
          | inr obj => m_ret (Some obj)
          | inl err =>
              if IsResourceTypeNotFound err then m_ret None
              else m_throw (errorf_w ("getting " +:+ rt_Kind v2Resource +:+ " (v2)") (errorf_w "getting v2 singleton" err))
          end in
      match obj with
      | Some obj => m_ret obj
      | None => m_map_err (errorf_w ("getting " +:+ rt_Kind v1Resource +:+ " (v1)")) (kSingleton v1Resource)
      end
  end.
Definition kGetDataScienceCluster : M json := kSingletonWithDiscovery DataScienceCluster DataScienceClusterV1.
End Singletons.

(** *** The step recorders *)
Section RecorderCalls.
Context `{CL : Clock}.

Definition child (r : loc) (name description : string) : M loc := λ h,
  let '(h', c) := Child h r name description in Ret (Ok c, h').
Definition completef (r : loc) (status : StepStatus) (message : string) : M () := λ h,
  Ret (Ok (), Completef h r status message).
Definition recordf (r : loc) (name message : string) (status : StepStatus) : M () := λ h,
  Ret (Ok (), Recordf h r name message status).
Definition add_step_detail (r : loc) (key value : string) : M () := λ h, Ret (Ok (), AddDetail h r key value).
Definition build : M ActionResult := λ h, Ret (Ok (Build h), h).
End RecorderCalls.
(** The root recorder of a task. *)
Definition root : loc := 0%nat.

(** What [Execute] returns: a result, and an error beside it. *)
Definition execution : Type := option ActionResult * option go_error.
Definition built `{CL : Clock} (err : option go_error) : M execution := let* r := build in m_ret (Some r, err).

(** *** Actions over an environment *)
Section AsTask.
Context `{SV : Semver} {S : Type} (env : ∀ c, S → answer c * S).

(** [Execute] with a recorder of its own; a program that does not return
    leaves the task without a result, which no theorem is about. *)
Definition as_task (execute : ActionTarget → M execution) : Task S := λ target s,
  let '(r, _, s') := exec env (execute target NewRootRecorder) s in
  (match r with
   | Some (Ok (result, None), _) => Ok result
   | Some (Ok (_, Some err), _) => Err err
   | Some (Err err, _) => Err err
   | Some (Panic msg, _) => Panic msg
   | None => Panic "fuel"
   end, s').
End AsTask.
(** action.go *)
Definition GroupMigration := "migration".
Definition GroupBackup := "backup".
Definition GroupValidation := "validation".

(** ** confirmation.go

    [KReadLine] is the [ReadString] of a reader made for this one prompt:
    a line that ends in a newline, or nothing. *)
Definition confirmed (response : option string) : bool :=
  match response with
  | None => false
  | Some line => let response := trim_space (to_lower line) in String.eqb response "y" || String.eqb response "yes"
  end.
Definition Prompt (message : string) : M bool :=
  kErrOut (message +:+ " [y/N]: ") ;;
  let* response := call KReadLine in
  m_ret (confirmed response).

(** ** k8s.io/apimachinery: nested fields of unstructured objects *)
Definition without_key (k : string) (fields : list (string * json)) : list (string * json) :=
  List.filter (λ kv, negb (String.eqb kv.1 k)) fields.
Fixpoint with_key (k : string) (v : json) (fields : list (string * json)) : list (string * json) :=
  match fields with
  | [] => [(k, v)]
  | kv :: rest => if String.eqb kv.1 k then (k, v) :: rest else kv :: with_key k v rest
  end.

Fixpoint RemoveNestedField (path : list string) (obj : json) : json :=
  match obj, path with
  | JObj fields, [k] => JObj (without_key k fields)
  | JObj fields, k :: path' =>
      match field k obj with
      | Some (JObj inner) => JObj (with_key k (RemoveNestedField path' (JObj inner)) fields)
      | _ => obj
      end
  | _, _ => obj
  end.

(** [SetNestedField]: the maps on the way are made when they are missing, and
    a value on the way that is not a map is an error; [seen] is the path so far. *)
Fixpoint set_nested (seen path : list string) (v : json) (obj : json) : res go_error json :=
  match obj, path with
  | JObj fields, [k] => Ok (JObj (with_key k v fields))
  | JObj fields, k :: path' =>
      let seen' := (seen ++ [k])%list in
      match field k obj with
      | None => res_bind (set_nested seen' path' v (JObj [])) (λ inner, Ok (JObj (with_key k inner fields)))
      | Some (JObj inner) =>
          res_bind (set_nested seen' path' v (JObj inner)) (λ inner', Ok (JObj (with_key k inner' fields)))
      | Some _ =>
          Err (EString ("value cannot be set because ." +:+ join "." seen' +:+ " is not a map[string]interface{}"))
      end
  | _, _ => Ok obj
  end.
Definition SetNestedField (path : list string) (v obj : json) : res go_error json := set_nested [] path v obj.

(** ** k8s.io/apimachinery/pkg/util/wait *)
(** [n] tries of a condition over the variables it assigns. *)
Fixpoint retry {S} (n : nat) (timeout : go_error) (cond : S → M (bool * S)) (s : S) : M S :=
  match n with
  | O => m_throw timeout
  | Datatypes.S n' =>
      let* '(finished, s') := cond s in
      if (finished : bool) then m_ret s' else retry n' timeout cond s'
  end.

Record Backoff := mkBackoff {
  bo_Duration : Z;
  bo_Steps : nat;
  bo_Cap : Z;
}.

Class Wait := {
  ExponentialBackoff {S : Type} : Backoff → (S → M (bool * S)) → S → M S;
  PollUntilContextCancel {S : Type} : Z → (S → M (bool * S)) → S → M S;
  (** interval and timeout; the polls are immediate *)
  PollUntilContextTimeout {S : Type} : Z → Z → (S → M (bool * S)) → S → M S;
}.
(** Documented behaviour: the condition is tried until it is true or fails, at
    least once (a poll here is immediate) and, for a backoff, at most [Steps]
    times; the context of a poll ends eventually. *)
Class WaitLaws `{WT : Wait} : Prop := {
  ExponentialBackoff_retries b : (0 < bo_Steps b)%nat →
    ∃ n timeout, (0 < n ≤ bo_Steps b)%nat ∧ ∀ S (cond : S → M (bool * S)), ExponentialBackoff b cond = retry n timeout cond;
  PollUntilContextCancel_retries i :
    ∃ n timeout, (0 < n)%nat ∧ ∀ S (cond : S → M (bool * S)), PollUntilContextCancel i cond = retry n timeout cond;
  PollUntilContextTimeout_retries i d :
    ∃ n timeout, (0 < n)%nat ∧ ∀ S (cond : S → M (bool * S)), PollUntilContextTimeout i d cond = retry n timeout cond;
}.

(** ** encoding/json: the text of a value, and the error of a wrong type *)
Class JsonText := {
  json_Marshal : json → res go_error string;
  json_MarshalIndent : json → res go_error string;
  json_Parse : string → res go_error json;
  (** an [UnmarshalTypeError] *)
  json_Mismatch : string → json → go_error;
}.
Class JsonTextLaws `{JT : JsonText} : Prop := {
  json_MarshalIndent_parse v : ∃ s, json_MarshalIndent v = Ok s ∧ json_Parse s = Ok v;
}.

(** sigs.k8s.io/yaml, and the [%T] of a value in an error message *)
Class YamlText := {
  yaml_Marshal : json → res go_error string;
  yaml_Unmarshal : string → res go_error json;
}.
Class YamlTextLaws `{YT : YamlText} : Prop := {
  yaml_Marshal_parse v : ∃ s, yaml_Marshal v = Ok s ∧ yaml_Unmarshal s = Ok v;
}.
Class GoTypes := { go_type : json → string }.

(** ** Rules for the questions an action asks *)
Definition only {A} (P : command → Prop) (m : M A) : Prop := ∀ h, asks_only P (m h).

Section Only.
Context (P : command → Prop).

Lemma only_lift {A} (r : res go_error A) : only P (m_lift r).
Proof. done. Qed.
Lemma only_ret {A} (a : A) : only P (m_ret a).
Proof. done. Qed.
Lemma only_call c : P c → only P (call c).
Proof. done. Qed.
Lemma only_diverge {A} : only P (@m_diverge A).
Proof. done. Qed.
Lemma only_bind {A B} (m : M A) (k : A → M B) : only P m → (∀ a, only P (k a)) → only P (m_bind m k).
Proof.
  intros Hm Hk h. apply obeys_bind. eapply obeys_mono; [apply Hm|]. intros [[a|e|s] h'] [] _; [apply Hk|done..].
Qed.
Lemma only_attempt {A} (m : M A) : only P m → only P (attempt m).
Proof.
  intros Hm h. apply obeys_bind. eapply obeys_mono; [apply Hm|]. by intros [[a|e|s] h'] [] _.
Qed.
Lemma only_map_err {A} f (m : M A) : only P m → only P (m_map_err f m).
Proof. intros Hm h. apply obeys_bind. eapply obeys_mono; [apply Hm|]. by intros [r h'] [] _. Qed.

Lemma only_fold {A S} (f : S → A → M S) l s : (∀ s x, only P (f s x)) → only P (m_fold f l s).
Proof. intros Hf. revert s. induction l as [|x l IH]; intros s; [apply only_ret|]. apply only_bind; auto. Qed.
Lemma only_each {A} (f : A → M ()) l : (∀ x, only P (f x)) → only P (m_each f l).
Proof. intros Hf. induction l as [|x l IH]; [apply only_ret|]. apply only_bind; auto. Qed.
Lemma only_retry {S} n timeout (cond : S → M (bool * S)) s : (∀ s, only P (cond s)) → only P (retry n timeout cond s).
Proof.
  intros Hc. revert s. induction n as [|n IH]; intros s; [done|]. apply only_bind; [done|].
  intros [[] s']; [apply only_ret|apply IH].
Qed.

Lemma only_child `{CL : Clock} r name description : only P (child r name description).
Proof. done. Qed.
Lemma only_completef r st msg : only P (completef r st msg).
Proof. done. Qed.
Lemma only_recordf `{CL : Clock} r name msg st : only P (recordf r name msg st).
Proof. done. Qed.
Lemma only_detail r k v : only P (add_step_detail r k v).
Proof. done. Qed.
Lemma only_build : only P build.
Proof. done. Qed.
End Only.

Lemma only_weaken {A} (P P' : command → Prop) (m : M A) : (∀ c, P c → P' c) → only P m → only P' m.
Proof.
  intros HP Hm h. specialize (Hm h). revert Hm. unfold asks_only.
  induction (m h) as [a|c k IH|]; simpl; [done| |done]. intros [Hc Hk]. split; [auto|]. intros x. apply IH, Hk.
Qed.

Create HintDb only discriminated.
#[export] Hint Resolve only_lift only_ret only_call only_diverge only_child only_completef only_recordf only_detail only_build : only.
(** One constructor of the monad, or a test of the program. *)
Ltac only_step :=
  first
    [ solve [auto with only nocore]
    | apply only_fold; intros ? ? | apply only_each; intros ? | apply only_retry; intros ?
    | apply only_bind; [|intros ?]
    | apply only_attempt | apply only_map_err
    | apply only_call; done
    | progress unfold m_throw, built, Prompt, GetResource, kList, kListAll, kGet, kCreate, kUpdate, kUpdateStatus, kPatch,
        kDelete, kServerResources, kGetCRD, kUpdateCRDStatus, kReadFile, kMkdirAll, kWriteFile, kErrOut, kOut, kRemove, kListMetadata, kAccessReview, kServiceProxy,
        kSingleton, kSingletonWithDiscovery, kGetDataScienceCluster
    | progress cbv beta iota
    | case_match ].
Ltac only_auto := repeat only_step.

(** ** Rules for monitors *)
Section Spec.
Context {T : Type} (allowed : T → command → Prop) (next : T → ∀ c, answer c → T).

Definition spec {A} (t : T) (m : M A) (Q : res go_error A → T → Prop) : Prop :=
  ∀ h, obeys allowed next (m h) t (λ rh t', Q rh.1 t').

Lemma spec_mono {A} t (m : M A) (Q Q' : res go_error A → T → Prop) :
  spec t m Q → (∀ r t', Q r t' → Q' r t') → spec t m Q'.
Proof. intros Hm HQ h. eapply obeys_mono; [apply Hm|]. intros [r h'] t'. apply HQ. Qed.

Lemma spec_and {A} t (m : M A) (Q Q' : res go_error A → T → Prop) :
  spec t m Q → spec t m Q' → spec t m (λ r t', Q r t' ∧ Q' r t').
Proof.
  intros H1 H2 h. specialize (H1 h). specialize (H2 h). revert t H1 H2.
  induction (m h) as [[r h']|c k IH|]; simpl; intros t H1 H2; [done| |done].
  destruct H1 as [Hc H1], H2 as [_ H2]. split; [done|]. intros x. apply IH; auto.
Qed.
Lemma spec_lift {A} t (r : res go_error A) (Q : res go_error A → T → Prop) : Q r t → spec t (m_lift r) Q.
Proof. by intros HQ h. Qed.
Lemma spec_ret {A} t (a : A) (Q : res go_error A → T → Prop) : Q (Ok a) t → spec t (m_ret a) Q.
Proof. by intros HQ h. Qed.
Lemma spec_call t c (Q : res go_error (answer c) → T → Prop) :
  allowed t c → (∀ x, Q (Ok x) (next t c x)) → spec t (call c) Q.
Proof. by intros Hc HQ h. Qed.

Lemma spec_bind {A B} t (m : M A) (k : A → M B) (Q : res go_error B → T → Prop) :
  spec t m (λ r t', match r with
                    | Ok a => spec t' (k a) Q
                    | Err e => Q (Err e) t'
                    | Panic s => Q (Panic s) t'
                    end) →
  spec t (m_bind m k) Q.
Proof.
  intros Hm h. apply obeys_bind. eapply obeys_mono; [apply Hm|]. intros [[a|e|s] h'] t'; simpl; [|done..].
  intros Hk. apply Hk.
Qed.
Lemma spec_attempt {A} t (m : M A) (Q : res go_error (go_error + A) → T → Prop) :
  spec t m (λ r t', match r with
                    | Ok a => Q (Ok (inr a)) t'
                    | Err e => Q (Ok (inl e)) t'
                    | Panic s => Q (Panic s) t'
                    end) →
  spec t (attempt m) Q.
Proof. intros Hm h. apply obeys_bind. eapply obeys_mono; [apply Hm|]. by intros [[a|e|s] h'] t'. Qed.
Lemma spec_map_err {A} t f (m : M A) (Q : res go_error A → T → Prop) :
  spec t m (λ r t', Q (res_map_err f r) t') → spec t (m_map_err f m) Q.
Proof. intros Hm h. apply obeys_bind. eapply obeys_mono; [apply Hm|]. by intros [r h'] t'. Qed.

Lemma spec_child `{CL : Clock} t r name description (Q : res go_error loc → T → Prop) :
  (∀ c, Q (Ok c) t) → spec t (child r name description) Q.
Proof. intros HQ h. apply HQ. Qed.
Lemma spec_completef t r st msg (Q : res go_error () → T → Prop) : Q (Ok ()) t → spec t (completef r st msg) Q.
Proof. by intros HQ h. Qed.
Lemma spec_recordf `{CL : Clock} t r name msg st (Q : res go_error () → T → Prop) :
  Q (Ok ()) t → spec t (recordf r name msg st) Q.
Proof. by intros HQ h. Qed.
Lemma spec_detail t r k v (Q : res go_error () → T → Prop) : Q (Ok ()) t → spec t (add_step_detail r k v) Q.
Proof. by intros HQ h. Qed.
Lemma spec_build t (Q : res go_error ActionResult → T → Prop) : (∀ r, Q (Ok r) t) → spec t build Q.
Proof. intros HQ h. apply HQ. Qed.

(** Loops keep an invariant of the elements behind them, their variables and
    the monitor; failures of the body satisfy [E]. *)
Lemma spec_fold {A S} (I : list A → S → T → Prop) (E : res go_error S → T → Prop) (f : S → A → M S) l s t :
  (∀ past s t x, x ∈ l → I past s t →
     spec t (f s x) (λ r t', match r with Ok s' => I (past ++ [x])%list s' t' | _ => E r t' end)) →
  I [] s t →
  spec t (m_fold f l s) (λ r t', match r with Ok s' => I l s' t' | _ => E r t' end).
Proof.
  intros Hf HI. assert (∀ past rest s t, (∀ x, x ∈ rest → x ∈ l) → I past s t →
    spec t (m_fold f rest s) (λ r t', match r with Ok s' => I (past ++ rest)%list s' t' | _ => E r t' end)) as Hgo.
  { clear HI s t. intros past rest. revert past. induction rest as [|x rest IH]; intros past s t Hin HI.
    - apply spec_ret. by rewrite app_nil_r.
    - apply spec_bind. eapply spec_mono; [apply (Hf past s t x); [apply Hin; by left|done]|].
      intros [s'|e|m] t' H; [|done..]. eapply spec_mono; [apply (IH (past ++ [x])%list s' t'); [|done]|].
      + intros y Hy. apply Hin. by right.
      + intros [s''|e|m] t'' H''; [|done..]. by rewrite <-(assoc_L (++)%list) in H''. }
  by apply (Hgo [] l s t).
Qed.
Lemma spec_each {A} (I : T → Prop) (f : A → M ()) l t :
  (∀ t x, x ∈ l → I t → spec t (f x) (λ r t', is_Some (res_opt r) ∧ I t')) →
  I t → spec t (m_each f l) (λ r t', r = Ok () ∧ I t').
Proof.
  revert t. induction l as [|x l IH]; intros t Hf HI; [by apply spec_ret|]. apply spec_bind.
  eapply spec_mono; [apply Hf; [by left|done]|]. intros [[]|e|m] t' [Hr HI']; [|by destruct Hr..].
  apply IH; [|done]. intros t0 y Hy. apply Hf. by right.
Qed.
(** Code whose questions are allowed, with nothing said of its result. *)
Definition allows {A} (m : M A) : Prop := ∀ t, spec t m (λ _ _, True).
Lemma allows_bind {A B} t (m : M A) (k : A → M B) :
  spec t m (λ _ _, True) → (∀ a, allows (k a)) → spec t (m_bind m k) (λ _ _, True).
Proof. intros Hm Hk. apply spec_bind. eapply spec_mono; [exact Hm|]. intros [a|e|s] t' _; [apply Hk|done..]. Qed.
Lemma allows_attempt {A} t (m : M A) : spec t m (λ _ _, True) → spec t (attempt m) (λ _ _, True).
Proof. intros Hm. apply spec_attempt. eapply spec_mono; [exact Hm|]. by intros [a|e|s] t' _. Qed.
Lemma allows_each {A} (f : A → M ()) l : (∀ x, allows (f x)) → allows (m_each f l).
Proof. intros Hf. induction l as [|x l IH]; intros t; [by apply spec_ret|]. apply allows_bind; [apply Hf|done]. Qed.
Lemma spec_retry {S} (I : S → T → Prop) (E : res go_error S → T → Prop) n timeout (cond : S → M (bool * S)) s t
    (Q : S → T → Prop) :
  (∀ s t, I s t →
     spec t (cond s) (λ r t', match r with
                              | Ok (true, s') => Q s' t'
                              | Ok (false, s') => I s' t'
                              | Err e => E (Err e) t'
                              | Panic m => E (Panic m) t'
                              end)) →
  (∀ s t, I s t → E (Err timeout) t) → I s t →
  spec t (retry n timeout cond s) (λ r t', match r with Ok s' => Q s' t' | _ => E r t' end).
Proof.
  intros Hc Ht. revert s t. induction n as [|n IH]; intros s t HI; [apply spec_lift; eauto|]. apply spec_bind.
  eapply spec_mono; [by apply Hc|]. intros [[[] s']|e|m] t' H; [by apply spec_ret|by apply IH|done..].
Qed.
(** Code whose questions satisfy [P], under a monitor that lets them pass and
    keeps [I]. *)
Lemma spec_only {A} (P : command → Prop) (I : T → Prop) (m : M A) t :
  (∀ t c, P c → I t → allowed t c) → (∀ t c x, P c → I t → I (next t c x)) → only P m → I t → spec t m (λ _ t', I t').
Proof.
  intros Ha Hn Hm HI h. specialize (Hm h). revert t HI Hm. unfold asks_only.
  induction (m h) as [a|c k IH|]; simpl; intros t HI Hm; [done| |done]. destruct Hm as [Hc Hk].
  split; [by apply Ha|]. intros x. apply IH; [by apply Hn|apply Hk].
Qed.

Lemma spec_each_any {A} (I : T → Prop) (f : A → M ()) l t :
  (∀ t x, x ∈ l → I t → spec t (f x) (λ _ t', I t')) → I t → spec t (m_each f l) (λ _ t', I t').
Proof.
  revert t. induction l as [|x l IH]; intros t Hf HI; [by apply spec_ret|]. apply spec_bind.
  eapply spec_mono; [apply Hf; [by left|done]|]. intros [[]|e|m] t' HI'; [|done..].
  apply IH; [|done]. intros t0 y Hy. apply Hf. by right.
Qed.
Lemma spec_fold_any {A S} (I : T → Prop) (f : S → A → M S) l s t :
  (∀ s t x, x ∈ l → I t → spec t (f s x) (λ _ t', I t')) → I t → spec t (m_fold f l s) (λ _ t', I t').
Proof.
  revert t s. induction l as [|x l IH]; intros t s Hf HI; [by apply spec_ret|]. apply spec_bind.
  eapply spec_mono; [apply Hf; [by left|done]|]. intros [s'|e|m] t' HI'; [|done..].
  apply IH; [|done]. intros s0 t0 y Hy. apply Hf. by right.
Qed.

(** A specification of a part, against a monitor that watches more. *)
Lemma spec_view {T' A} (allowed' : T' → command → Prop) (next' : T' → ∀ c, answer c → T') (view : T' → T) (I : T' → Prop)
    t (m : M A) (Q : res go_error A → T → Prop) :
  (∀ t c, I t → allowed (view t) c →
     allowed' t c ∧ ∀ x, view (next' t c x) = next (view t) c x ∧ I (next' t c x)) →
  I t → spec (view t) m Q →
  ∀ h, obeys allowed' next' (m h) t (λ rh t', Q rh.1 (view t') ∧ I t').
Proof.
  intros Hv HI Hm h. specialize (Hm h). revert t HI Hm. induction (m h) as [[r h']|c k IH|]; intros t HI Hm; simpl in *; [done| |done].
  destruct Hm as [Hc Hk]. destruct (Hv t c HI Hc) as [Ha Hn]. split; [done|]. intros x. destruct (Hn x) as [Hvx HIx].
  apply IH; [done|]. rewrite Hvx. apply Hk.
Qed.
End Spec.

Create HintDb spec discriminated.
Ltac spec_step :=
  first
    [ apply spec_bind | apply spec_attempt | apply spec_map_err
    | apply spec_child; intros ? | apply spec_completef | apply spec_recordf | apply spec_detail | apply spec_build; intros ?
    | apply spec_ret | apply spec_lift
    | apply spec_call; [|intros ?]
    | progress unfold m_throw, built, Prompt, GetResource, kList, kListAll, kGet, kCreate, kUpdate, kUpdateStatus, kPatch,
        kDelete, kServerResources, kGetCRD, kUpdateCRDStatus, kReadFile, kMkdirAll, kWriteFile, kErrOut, kOut, kRemove, kListMetadata, kAccessReview, kServiceProxy ].

(** The laws of the retrying helpers, as rules. *)
Section WaitRules.
Context `{WT : Wait, WL : !WaitLaws}.

Lemma only_backoff {S} P b (cond : S → M (bool * S)) s :
  (0 < bo_Steps b)%nat → (∀ s, only P (cond s)) → only P (ExponentialBackoff b cond s).
Proof using WL.
  intros Hb Hc. destruct (ExponentialBackoff_retries b Hb) as (n & timeout & _ & ->). by apply only_retry.
Qed.
Lemma only_poll {S} P i (cond : S → M (bool * S)) s :
  (∀ s, only P (cond s)) → only P (PollUntilContextCancel i cond s).
Proof using WL.
  intros Hc. destruct (PollUntilContextCancel_retries i) as (n & timeout & _ & ->). by apply only_retry.
Qed.
Lemma only_poll_timeout {S} P i d (cond : S → M (bool * S)) s :
  (∀ s, only P (cond s)) → only P (PollUntilContextTimeout i d cond s).
Proof using WL.
  intros Hc. destruct (PollUntilContextTimeout_retries i d) as (n & timeout & _ & ->). by apply only_retry.
Qed.
End WaitRules.

(** ** Runs
    [runs env m h s a h' s']: from the recorders [h] and the environment state
    [s] the code returns [a], leaving [h'] and [s']. *)
Section Runs.
Context {S : Type} (env : ∀ c, S → answer c * S).

Definition ends {A} (m : M A) (h : heap) (s : S) (r : res go_error A) (h' : heap) (s' : S) : Prop :=
  ∃ tr, exec env (m h) s = (Some (r, h'), tr, s').
Definition runs {A} (m : M A) (h : heap) (s : S) (a : A) (h' : heap) (s' : S) : Prop := ends m h s (Ok a) h' s'.

Lemma ends_lift {A} (r : res go_error A) h s : ends (m_lift r) h s r h s.
Proof. by exists []. Qed.
Lemma runs_ret {A} (a : A) h s : runs (m_ret a) h s a h s.
Proof. by exists []. Qed.
Lemma runs_call c h s : runs (call c) h s (env c s).1 h (env c s).2.
Proof. unfold runs, ends, call. simpl. destruct (env c s) as [x s']. by eexists. Qed.
Lemma ends_bind {A B} (m : M A) (k : A → M B) h s a h1 s1 r h2 s2 :
  runs m h s a h1 s1 → ends (k a) h1 s1 r h2 s2 → ends (m_bind m k) h s r h2 s2.
Proof.
  intros [tr1 H1] [tr2 H2]. exists (tr1 ++ tr2)%list. unfold m_bind. rewrite exec_bind, H1. cbn [fst snd]. by rewrite H2.
Qed.
Lemma ends_bind_err {A B} (m : M A) (k : A → M B) h s e h' s' :
  ends m h s (Err e) h' s' → ends (m_bind m k) h s (Err e) h' s'.
Proof. intros [tr H]. exists tr. unfold m_bind. rewrite exec_bind, H. cbn. by rewrite app_nil_r. Qed.
Lemma ends_bind_panic {A B} (m : M A) (k : A → M B) h s p h' s' :
  ends m h s (Panic p) h' s' → ends (m_bind m k) h s (Panic p) h' s'.
Proof. intros [tr H]. exists tr. unfold m_bind. rewrite exec_bind, H. cbn. by rewrite app_nil_r. Qed.
Lemma ends_attempt {A} (m : M A) h s r h' s' :
  ends m h s r h' s' →
  ends (attempt m) h s (match r with Ok a => Ok (inr a) | Err e => Ok (inl e) | Panic p => Panic p end) h' s'.
Proof.
  intros [tr H]. exists tr. unfold attempt. rewrite exec_bind, H. cbn [fst snd]. destruct r; cbn; by rewrite app_nil_r.
Qed.
Lemma ends_map_err {A} f (m : M A) h s r h' s' : ends m h s r h' s' → ends (m_map_err f m) h s (res_map_err f r) h' s'.
Proof. intros [tr H]. exists tr. unfold m_map_err. rewrite exec_bind, H. cbn. by rewrite app_nil_r. Qed.
(** A loop whose steps leave the environment as it is. *)
Lemma runs_fold {A B} (f : B → A → M B) (g : B → A → B) l b h s :
  (∀ b x, x ∈ l → runs (f b x) h s (g b x) h s) → runs (m_fold f l b) h s (foldl g b l) h s.
Proof.
  revert b. induction l as [|x l IH]; intros b Hf; [apply runs_ret|]. cbn [m_fold foldl].
  eapply ends_bind; [apply Hf; by left|]. apply IH. intros b' y Hy. apply Hf. by right.
Qed.
Lemma runs_err_out text h s : runs (kErrOut text) h s () h (env (KErrOut text) s).2.
Proof. eapply ends_bind; [apply runs_call|apply runs_ret]. Qed.
Lemma ends_lifted {A} (c : command) (f : answer c → res go_error A) h s :
  ends (m_bind (call c) (λ x, m_lift (f x))) h s (f (env c s).1) h (env c s).2.
Proof. eapply ends_bind; [apply runs_call|apply ends_lift]. Qed.
Lemma ends_ask {A} (c : command) (f : answer c → res go_error A) h s x s' :
  env c s = (x, s') → ends (m_bind (call c) (λ r, m_lift (f r))) h s (f x) h s'.
Proof. intros Hc. pose proof (ends_lifted c f h s) as H. by rewrite Hc in H. Qed.
Lemma runs_pure {A} (m : M A) h s a h' : m h = Ret (Ok a, h') → runs m h s a h' s.
Proof. intros Hm. exists []. by rewrite Hm. Qed.

Lemma ends_result {A} (m : M A) h s r h' s' : ends m h s r h' s' → result_of env (m h) s = Some (r, h').
Proof. intros [tr H]. unfold result_of. by rewrite H. Qed.
End Runs.

(** ** What a piece of code records

    [grows h h' F]: the recorders of [h] keep their outcome, and some of the
    new ones has failed iff [F]. *)
Definition grows (h h' : heap) (F : Prop) : Prop :=
  heap_ok h' ∧ (length h ≤ length h')%nat ∧
  (∀ st c, (c < length h)%nat → has_done h' st c ↔ has_done h st c) ∧
  ((∃ c, (length h ≤ c)%nat ∧ has_done h' StepFailed c) ↔ F).

Lemma has_done_lt h st c : has_done h st c → (c < length h)%nat.
Proof. intros (node & d & Hc & _). by apply lookup_lt_Some in Hc. Qed.

Lemma has_done_Completef h r st msg st' c :
  heap_ok h → (0 < r < length h)%nat →
  has_done (Completef h r st msg) st' c ↔ (c = r ∧ st' = st) ∨ (c ≠ r ∧ has_done h st' c).
Proof.
  intros Hok [Hpos Hr]. unfold has_done, Completef. destruct (decide (c = r)) as [->|Hne].
  - destruct (lookup_lt_is_Some_2 h r Hr) as [n Hn]. destruct (ho_step h Hok r n Hn Hpos) as [d Hd].
    rewrite list_lookup_alter_eq, Hn. simpl. split.
    + intros (node & d' & [= <-] & Hd' & <-). left. simpl in Hd'. rewrite Hd in Hd'. simpl in Hd'. by injection Hd' as <-.
    + intros [[_ ->]|[[] _]]; [|done]. eexists _, _. split; [done|]. simpl. rewrite Hd. done.
  - rewrite list_lookup_alter_ne by done. naive_solver.
Qed.

Lemma has_done_Child `{CL : Clock} h r name description st c :
  (r < length h)%nat →
  has_done (Child h r name description).1 st c ↔ has_done h st c ∨ (c = length h ∧ st = StepRunning).
Proof.
  intros Hr. unfold has_done, Child. cbn [fst]. destruct (Nat.lt_trichotomy c (length h)) as [Hc|[->|Hc]].
  - rewrite lookup_app_l by (by rewrite length_alter). destruct (decide (c = r)) as [->|Hne].
    + rewrite list_lookup_alter_eq. destruct (lookup_lt_is_Some_2 h r Hr) as [n Hn]. rewrite Hn. simpl. split.
      * intros (node & d & [= <-] & Hd & Hs). left. by exists n, d.
      * intros [(node & d & [= <-] & Hd & Hs)|[-> _]]; [|lia]. by exists (add_child (length h) n), d.
    + rewrite list_lookup_alter_ne by done. split; [by left|]. intros [?|[-> _]]; [done|lia].
  - rewrite lookup_app_r by (by rewrite length_alter). rewrite length_alter, Nat.sub_diag. simpl. split.
    + intros (node & d & [= <-] & [= <-] & <-). by right.
    + intros [(node & d & Hn & _)|[_ ->]]; [apply lookup_lt_Some in Hn; lia|]. by eexists _, _.
  - rewrite lookup_ge_None_2 by (rewrite length_app, length_alter; simpl; lia). split; [naive_solver|].
    intros [(node & d & Hn & _)|[-> _]]; [apply lookup_lt_Some in Hn; lia|lia].
Qed.

Lemma length_Child `{CL : Clock} h r name description : length (Child h r name description).1 = Datatypes.S (length h).
Proof. unfold Child. cbn [fst]. rewrite length_app, length_alter. simpl. lia. Qed.

Lemma grows_refl h : heap_ok h → grows h h False.
Proof.
  intros Hok. split; [done|]. split; [lia|]. split; [done|]. split; [|done].
  intros (c & Hc & Hd%has_done_lt). lia.
Qed.
Lemma grows_trans h1 h2 h3 F1 F2 : grows h1 h2 F1 → grows h2 h3 F2 → grows h1 h3 (F1 ∨ F2).
Proof.
  intros (_ & Hl1 & Hf1 & H1) (Hok & Hl2 & Hf2 & H2). split; [done|]. split; [lia|]. split.
  { intros st c Hc. rewrite Hf2 by lia. by apply Hf1. }
  rewrite <-H1, <-H2. split.
  - intros (c & Hc & Hd). destruct (decide (c < length h2)%nat) as [Hlt|Hge].
    + left. exists c. split; [done|]. by apply Hf2.
    + right. exists c. split; [lia|done].
  - intros [(c & Hc & Hd)|(c & Hc & Hd)]; exists c; (split; [lia|]); [|done].
    apply Hf2; [|done]. by apply has_done_lt in Hd.
Qed.
Lemma grows_iff h h' F F' : (F ↔ F') → grows h h' F → grows h h' F'.
Proof. intros HF (H1 & H2 & H3 & H4). split; [done|]. split; [done|]. split; [done|]. by rewrite H4. Qed.

(** A step opened, filled in and completed. *)
Lemma grows_scope `{CL : Clock} h r name description h2 st msg F :
  heap_ok h → (r < length h)%nat → grows (Child h r name description).1 h2 F →
  grows h (Completef h2 (length h) st msg) (F ∨ st = StepFailed).
Proof.
  intros Hok Hr (Hok2 & Hl & Hf & HF). rewrite length_Child in Hl, Hf, HF.
  pose proof (ho_root h Hok) as [n Hroot]. apply lookup_lt_Some in Hroot.
  assert (length (Completef h2 (length h) st msg) = length h2) as Hlen by apply length_alter.
  split; [by apply heap_ok_Completef|]. split; [lia|]. split.
  - intros st' c Hc. rewrite has_done_Completef by (done || lia). split.
    + intros [[-> _]|[_ Hd]]; [lia|]. apply Hf in Hd; [|lia]. apply has_done_Child in Hd as [?|[-> _]]; [done|lia|done].
    + intros Hd. right. split; [lia|]. apply Hf; [lia|]. apply has_done_Child; [done|by left].
  - rewrite <-HF. split.
    + intros (c & Hc & Hd). apply has_done_Completef in Hd as [[-> <-]|[Hne Hd]]; [by right| |done|lia].
      left. exists c. split; [lia|done].
    + intros [(c & Hc & Hd)| ->].
      * exists c. split; [lia|]. apply has_done_Completef; [done|lia|]. right. split; [lia|done].
      * exists (length h). split; [lia|]. apply has_done_Completef; [done|lia|by left].
Qed.

(** Code that only records, on the recorder [r]. *)
Definition records (r : loc) (m : M ()) (F : Prop) : Prop :=
  ∀ h, heap_ok h → (r < length h)%nat → ∃ h', m h = Ret (Ok (), h') ∧ grows h h' F.

Lemma records_iff r m F F' : records r m F → (F ↔ F') → records r m F'.
Proof. intros Hm HF h Hok Hr. destruct (Hm h Hok Hr) as (h' & H1 & H2). exists h'. split; [exact H1|]. by apply (grows_iff _ _ F). Qed.
Lemma records_ret r : records r (m_ret ()) False.
Proof. intros h Hok Hr. exists h. split; [done|]. by apply grows_refl. Qed.
Lemma records_recordf `{CL : Clock} r name msg st : records r (recordf r name msg st) (st = StepFailed).
Proof.
  intros h Hok Hr. eexists. split; [reflexivity|].
  unfold Recordf. destruct (Child h r name msg) as [h' c] eqn:Hc.
  assert (c = length h) as -> by (unfold Child in Hc; by injection Hc as _ <-).
  apply (grows_iff _ _ (False ∨ st = StepFailed)); [tauto|]. eapply (grows_scope h r name msg); [done..|].
  rewrite Hc. apply grows_refl. change h' with (h', length h).1. rewrite <-Hc. by apply heap_ok_Child.
Qed.
Lemma records_seq r (m k : M ()) F1 F2 : records r m F1 → records r k F2 → records r (m ;; k) (F1 ∨ F2).
Proof.
  intros Hm Hk h Hok Hr. destruct (Hm h Hok Hr) as (h1 & Hm1 & Hg1). pose proof Hg1 as (Hok1 & Hl1 & _).
  destruct (Hk h1 Hok1 ltac:(lia)) as (h2 & Hk2 & Hg2). exists h2. split; [|by eapply grows_trans].
  unfold m_bind. rewrite Hm1. simpl. done.
Qed.
Lemma records_each {A} r (f : A → M ()) (F : A → Prop) l :
  (∀ x, x ∈ l → records r (f x) (F x)) → records r (m_each f l) (Exists F l).
Proof.
  induction l as [|x l IH]; intros Hf.
  - eapply records_iff; [apply records_ret|]. by rewrite Exists_nil.
  - eapply records_iff; [apply (records_seq r (f x) (m_each f l)); [apply Hf; by left|apply IH; intros y Hy; apply Hf; by right]|].
    by rewrite Exists_cons.
Qed.
Lemma records_scope `{CL : Clock} r name description (body : loc → M ()) st msg F :
  (∀ c, records c (body c) F) →
  records r (let* c := child r name description in body c ;; completef c st msg) (F ∨ st = StepFailed).
Proof.
  intros Hb h Hok Hr. destruct (Child h r name description) as [h1 c] eqn:Hc.
  assert (c = length h) as -> by (unfold Child in Hc; by injection Hc as _ <-).
  assert (heap_ok h1) as Hok1 by (change h1 with (h1, length h).1; rewrite <-Hc; by apply heap_ok_Child).
  assert (length h1 = Datatypes.S (length h)) as Hl1 by (change h1 with (h1, length h).1; rewrite <-Hc; apply length_Child).
  destruct (Hb (length h) h1 Hok1 ltac:(lia)) as (h2 & Hb2 & Hg). exists (Completef h2 (length h) st msg). split.
  - unfold m_bind, child. rewrite Hc. cbn [prog_bind fst snd]. rewrite Hb2. done.
  - eapply (grows_scope h r name description); [done..|]. by rewrite Hc.
Qed.
(** The report after such code. *)
Lemma records_report r m F h :
  records r m F → heap_ok h → (r < length h)%nat →
  ∃ h', m h = Ret (Ok (), h') ∧ (HasFailedSteps (Build h') = true ↔ HasFailedSteps (Build h) = true ∨ F).
Proof.
  intros Hm Hok Hr. destruct (Hm h Hok Hr) as (h' & Hm' & Hok' & Hl & Hf & HF). exists h'. split; [done|].
  pose proof (ho_root h Hok) as [n Hroot]. apply lookup_lt_Some in Hroot.
  unfold HasFailedSteps, hasFailed. rewrite !Build_status by done. rewrite <-HF. split.
  - intros (c & Hc & Hd). destruct (decide (c < length h)%nat) as [Hlt|Hge].
    + left. exists c. split; [done|]. by apply Hf.
    + right. exists c. split; [lia|done].
  - intros [(c & Hc & Hd)|(c & Hc & Hd)]; exists c; (split; [lia|]); [|done]. apply Hf; [by apply has_done_lt in Hd|done].
Qed.

(** ** Lemmas on nested fields *)
Lemma field_with_key k k' v fields :
  field k (JObj (with_key k' v fields)) = if String.eqb k' k then Some v else field k (JObj fields).
Proof.
  unfold field. induction fields as [|[q w] fields IH]; simpl in *; [by destruct (String.eqb k' k)|].
  destruct (String.eqb_spec q k') as [->|Hq]; simpl.
  - by destruct (String.eqb k' k).
  - destruct (String.eqb_spec q k) as [->|Hqk]; simpl.
    + rewrite (proj2 (String.eqb_neq k' k)) by congruence. done.
    + rewrite IH. done.
Qed.

Lemma field_without_key k k' fields :
  field k (JObj (without_key k' fields)) = if String.eqb k' k then None else field k (JObj fields).
Proof.
  unfold field, without_key. induction fields as [|[q w] fields IH]; simpl in *; [by destruct (String.eqb k' k)|].
  destruct (String.eqb_spec q k') as [->|Hq]; simpl.
  - rewrite IH. by destruct (String.eqb k' k).
  - destruct (String.eqb_spec q k) as [->|Hqk]; simpl.
    + rewrite (proj2 (String.eqb_neq k' k)) by congruence. done.
    + rewrite IH. done.
Qed.

(** ** Standard input

    A reader over a pipe that has everything ready: [Read] gives what is left,
    up to the 4096 bytes of the buffer.  [ReadString] of a fresh reader
    returns the first line; what else was buffered is lost with the reader. *)
Fixpoint take_bytes (n : nat) (s : string) : string :=
  match n, s with Datatypes.S n', String a s' => String a (take_bytes n' s') | _, _ => "" end.
Fixpoint fresh_ReadString (fuel : nat) (acc stdin : string) : option string * string :=
  match fuel with
  | O => (None, stdin)
  | Datatypes.S fuel' =>
      if String.eqb stdin "" then (None, "")
      else
        let chunk := take_bytes 4096 stdin in
        let rest := drop_bytes 4096 stdin in
        match cut_first (Ascii.ascii_of_nat 10) chunk with
        | Some (line, _) => (Some (acc +:+ line +:+ newline), rest)
        | None => fresh_ReadString fuel' (acc +:+ chunk) rest
        end
  end.
Definition read_prompt (stdin : string) : option string * string := fresh_ReadString (Datatypes.S (String.length stdin)) "" stdin.

Lemma take_bytes_all n s : (String.length s ≤ n)%nat → take_bytes n s = s.
Proof. revert n. induction s as [|a s IH]; intros [|n] Hl; simpl in *; [done..|lia|]. rewrite IH by lia. done. Qed.
Lemma drop_bytes_all n s : (String.length s ≤ n)%nat → drop_bytes n s = "".
Proof. revert n. induction s as [|a s IH]; intros [|n] Hl; simpl in *; [done..|lia|]. apply IH. lia. Qed.

Lemma read_prompt_line line rest :
  contains_byte (Ascii.ascii_of_nat 10) line = false →
  (String.length (line +:+ newline +:+ rest) ≤ 4096)%nat →
  read_prompt (line +:+ newline +:+ rest) = (Some (line +:+ newline), "").
Proof.
  intros Hn Hl. unfold read_prompt. cbn [fresh_ReadString].
  rewrite take_bytes_all, drop_bytes_all by done.
  assert (line +:+ newline +:+ rest ≠ "") as Hne by (destruct line; done).
  rewrite (proj2 (String.eqb_neq _ _) Hne). change (newline +:+ rest) with (String (Ascii.ascii_of_nat 10) rest).
  by rewrite cut_first_concat.
Qed.

(** ** Concrete environments, for the witnesses *)
Module ClusterRun.
(** A text for every value: its tree, in binary. *)
Fixpoint json_tree (v : json) : gen_tree (string + Z + bool) :=
  match v with
  | JNull => GenNode 0 []
  | JBool b => GenLeaf (inr b)
  | JNum n => GenLeaf (inl (inr n))
  | JStr s => GenLeaf (inl (inl s))
  | JArr l => GenNode 1 (map json_tree l)
  | JObj fields => GenNode 2 (map (λ kv, GenNode 3 [GenLeaf (inl (inl kv.1)); json_tree kv.2]) fields)
  end.
Fixpoint tree_json (t : gen_tree (string + Z + bool)) : json :=
  match t with
  | GenLeaf (inr b) => JBool b
  | GenLeaf (inl (inr n)) => JNum n
  | GenLeaf (inl (inl s)) => JStr s
  | GenNode 1 l => JArr (map tree_json l)
  | GenNode 2 l =>
      JObj (map (λ e, match e with
                      | GenNode _ [GenLeaf (inl (inl k)); v] => (k, tree_json v)
                      | _ => ("", JNull)
                      end) l)
  | GenNode _ _ => JNull
  end.
Fixpoint bits (p : positive) : string :=
  match p with xH => "" | xO p => String "0"%char (bits p) | xI p => String "1"%char (bits p) end.
Fixpoint of_bits (s : string) : positive :=
  match s with
  | EmptyString => xH
  | String c s => if Ascii.eqb c "0"%char then xO (of_bits s) else xI (of_bits s)
  end.
Lemma of_bits_bits p : of_bits (bits p) = p.
Proof. induction p; simpl; congruence. Qed.
Lemma tree_json_tree : ∀ v, tree_json (json_tree v) = v.
Proof.
  fix IH 1. intros [| | | |l|fields]; [done..| |]; simpl; f_equal.
  - induction l as [|v l IHl]; simpl; [done|]. by rewrite IH, IHl.
  - induction fields as [|[k v] fields IHf]; simpl; [done|]. by rewrite IH, IHf.
Qed.
#[export] Instance binary_JsonText : JsonText := {|
  json_Marshal v := Ok (bits (encode (json_tree v)));
  json_MarshalIndent v := Ok (bits (encode (json_tree v)));
  json_Parse s := match decode (of_bits s) with
                  | Some t => Ok (tree_json t)
                  | None => Err (EString "invalid character looking for beginning of value")
                  end;
  json_Mismatch t _ := EString ("json: cannot unmarshal value into Go value of type " +:+ t);
|}.
#[export] Instance binary_laws : JsonTextLaws (JT := binary_JsonText).
Proof.
  split. intros v. eexists. split; [reflexivity|]. cbn [json_Parse binary_JsonText].
  by rewrite of_bits_bits, decode_encode, tree_json_tree.
Qed.

(** An answer that says nothing. *)
Definition idle (c : command) : answer c :=
  match c return answer c with
  | KList _ _ _ | KListAll _ _ => Ok []
  | KGet _ _ _ | KCreate _ _ _ _ | KUpdate _ _ _ _ | KUpdateStatus _ _ | KPatch _ _ _ _ _ _ => Ok (JObj [])
  | KDelete _ _ _ => Ok ()
  | KServerResources _ => Ok []
  | KGetCRD _ => Ok None
  | KUpdateCRDStatus _ => Ok ()
  | KReadLine => None
  | KErrOut _ => ()
  | KSelect => CtxDone
  | KNow => "2025-01-01T00:00:00Z"
  | KReadFile p => Err (EString ("open " +:+ p +:+ ": no such file or directory"))
  | KMkdirAll _ | KWriteFile _ _ | KRemove _ => Ok ()
  | KOut _ => ()
  | KDiscovery => None
  | KStat _ => StatMissing
  | KReadDir _ => []
  | KCancelled | KSleep _ => None
  | KListMetadata _ _ => Ok []
  | KAPIResources _ => (None, None)
  | KAccessReview _ _ _ _ => Ok true
  | KExtensionInstallsPackage _ _ | KOperatorPackageRequested _ => (false, None)
  | KOperatorExists _ => OperatorNotInstalled
  | KServiceProxy _ _ _ _ _ => Ok ""
  end.
(** A disk; everything else is idle. *)
Definition disk (c : command) (files : gmap string string) : answer c * gmap string string :=
  match c return answer c * gmap string string with
  | KReadFile p =>
      (match files !! p with Some data => Ok data | None => Err (EString ("open " +:+ p +:+ ": no such file or directory")) end, files)
  | KWriteFile p data => (Ok (), <[p := data]> files)
  | c => (idle c, files)
  end.
(** A terminal fed by a pipe. *)
Definition piped (c : command) (stdin : string) : answer c * string :=
  match c return answer c * string with
  | KReadLine => read_prompt stdin
  | c => (idle c, stdin)
  end.

#[export] Instance binary_YamlText : YamlText := {|
  yaml_Marshal v := Ok (bits (encode (json_tree v)));
  yaml_Unmarshal s := json_Parse s;
|}.
#[export] Instance binary_yaml_laws : YamlTextLaws (YT := binary_YamlText).
Proof. split. intros v. destruct (json_MarshalIndent_parse v) as (s & Hs & Hp). exists s. by split. Qed.
#[export] Instance no_GoTypes : GoTypes := {| go_type _ := "[]interface {}" |}.

#[export] Instance steps_Wait : Wait := {|
  ExponentialBackoff S b cond s := retry (bo_Steps b) (EString "timed out waiting for the condition") cond s;
  PollUntilContextCancel S i cond s := retry 3 (EString "context deadline exceeded") cond s;
  PollUntilContextTimeout S i d cond s := retry 3 (EString "context deadline exceeded") cond s;
|}.
#[export] Instance steps_laws : WaitLaws (WT := steps_Wait).
Proof.
  split.
  - intros b Hb. exists (bo_Steps b), (EString "timed out waiting for the condition"). split; [lia|done].
  - intros i. exists 3%nat, (EString "context deadline exceeded"). split; [lia|done].
  - intros i d. exists 3%nat, (EString "context deadline exceeded"). split; [lia|done].
Qed.
End ClusterRun.

(** ** Properties *)
Module ClusterSpec.
(** A second prompt cannot be answered from a pipe: the reader of the first
    one has taken what was ready. *)
Theorem piped_answers_are_lost (line rest m1 m2 : string) h :
  contains_byte (Ascii.ascii_of_nat 10) line = false →
  (String.length (line +:+ newline +:+ rest) ≤ 4096)%nat →
  result_of ClusterRun.piped ((let* a := Prompt m1 in let* b := Prompt m2 in m_ret (a, b)) h) (line +:+ newline +:+ rest) =
  Some (Ok (confirmed (Some (line +:+ newline)), false), h).
Proof.
  intros Hn Hl. unfold result_of, Prompt, kErrOut.
  cbn -[read_prompt]. rewrite (read_prompt_line line rest Hn Hl). reflexivity.
Qed.

Lemma piped_answers_are_lost_witness :
  result_of ClusterRun.piped ((let* a := Prompt "First?" in let* b := Prompt "Second?" in m_ret (a, b)) NewRootRecorder)
    ("y" +:+ newline +:+ "y" +:+ newline) = Some (Ok (true, false), NewRootRecorder).
Proof. rewrite (piped_answers_are_lost "y" ("y" +:+ newline) "First?" "Second?" NewRootRecorder); [reflexivity..|simpl; lia]. Defined.
(** The singleton of the actions is that of the client: with lists and a
    discovery that do not change, the monadic lookup of the
    DataScienceCluster returns what [client.GetDataScienceCluster] returns,
    errors included. *)
Theorem kGetDataScienceCluster_refines `{AE : ApiErrors, KE : K8sErrors, SRV : ApiServer} {S} (env : ∀ c, S → answer c * S) List h s :
  (∀ rt s, (env (KListAll rt defaultListOptions) s).1 = List rt) → (∀ s, (env KDiscovery s).1 = srv_discovery) →
  ∃ s', ends env kGetDataScienceCluster h s (GetDataScienceCluster List) h s'.
Proof.
  intros HL HD. unfold kGetDataScienceCluster, GetDataScienceCluster, kSingletonWithDiscovery, getSingletonWithDiscovery, tryGetV2Singleton.
  assert (∀ rt s, ∃ s', ends env (kSingleton rt) h s (GetSingleton List rt) h s') as Hone.
  { intros rt s0. eexists. unfold kSingleton. pose proof (ends_lifted env (KListAll rt defaultListOptions) (λ l, GetSingleton (λ _, l) rt) h s0) as H.
    cbv beta in H. rewrite HL in H. exact H. }
  pose proof (runs_call env KDiscovery h s) as Hd. rewrite HD in Hd. set (s0 := (env KDiscovery s).2) in *.
  destruct srv_discovery as [disc|].
  2: { destruct (Hone DataScienceCluster s0) as [s1 H1]. exists s1. by eapply ends_bind. }
  assert (∀ f s, ∃ s', ends env (m_map_err f (kSingleton DataScienceClusterV1)) h s (res_map_err f (GetSingleton List DataScienceClusterV1)) h s') as Hold.
  { intros f s1. destruct (Hone DataScienceClusterV1 s1) as [s2 H2]. exists s2. by apply ends_map_err. }
  destruct (negb (hasGroupVersion disc DataScienceCluster)) eqn:Hg.
  { destruct (Hold (errorf_w ("getting " +:+ rt_Kind DataScienceClusterV1 +:+ " (v1)")) s0) as [s1 H1]. exists s1.
    eapply ends_bind; [exact Hd|]. cbv iota. rewrite Hg. eapply ends_bind; [apply runs_ret|]. exact H1. }
  destruct (Hone DataScienceCluster s0) as [s1 H1]. pose proof (ends_attempt _ _ _ _ _ _ _ H1) as Ha.
  destruct (GetSingleton List DataScienceCluster) as [obj|err|p]; cbn [res_bind res_map_err] in *.
  - exists s1. eapply ends_bind; [exact Hd|]. cbv iota. rewrite Hg. eapply ends_bind; [eapply ends_bind; [exact Ha|apply runs_ret]|]. apply runs_ret.
  - destruct (IsResourceTypeNotFound err) eqn:He; cbn [res_bind res_map_err].
    + destruct (Hold (errorf_w ("getting " +:+ rt_Kind DataScienceClusterV1 +:+ " (v1)")) s1) as [s2 H2]. exists s2.
      eapply ends_bind; [exact Hd|]. cbv iota. rewrite Hg.
      eapply ends_bind; [eapply ends_bind; [exact Ha|cbv iota beta; rewrite He; apply runs_ret]|]. exact H2.
    + exists s1. eapply ends_bind; [exact Hd|]. cbv iota. rewrite Hg. apply ends_bind_err.
      eapply ends_bind; [exact Ha|]. cbv iota beta. rewrite He. apply ends_lift.
  - exists s1. eapply ends_bind; [exact Hd|]. cbv iota. rewrite Hg. apply ends_bind_panic, ends_bind_panic, Ha.
Qed.

Lemma kGetDataScienceCluster_refines_witness :
  ∃ s', ends (λ c (s : ()), (ClusterRun.idle c, s)) (kGetDataScienceCluster (AE := ClientRun.api) (KE := ClientRun.k8s)) NewRootRecorder ()
    (Err (@NewNotFound ClientRun.k8s "datasciencecluster.opendatahub.io" "datascienceclusters" "")) NewRootRecorder s'.
Proof.
  destruct (kGetDataScienceCluster_refines (AE := ClientRun.api) (KE := ClientRun.k8s)
    (SRV := {| srv_list _ _ _ := Ok ([], ""); srv_get _ _ _ := Ok (JObj []); srv_discovery := None |})
    (λ c (s : ()), (ClusterRun.idle c, s)) (λ _, Ok []) NewRootRecorder ()) as [s' H]; [done..|].
  exists s'. exact H.
Defined.
End ClusterSpec.
