(* ===== verification/PipelineActions.v ===== *)
(** * PipelineActions: pkg/migrate/actions/aipipelines

    The three actions of AI Pipelines: the pre-upgrade check, which records the
    health of the pipeline servers and rewrites their applications at v1
    (precheck.go, dspa.go), the patch of custom Roles (updatedsprole.go,
    role_classifier.go) and the comparison after the upgrade (postcheck.go,
    pod_health.go). *)
From S2P Require Import Prelude GoStrings FilePath Errors Client Version Result Check DepsCheck BackupDeps WorkloadHelpers.
From S2P Require Import KueueIntegrity NotebookChecks AIPipelines Recorder Action Programs Cluster.
Open Scope string_scope.
Open Scope Z_scope.
Open Scope prog_scope.

(** ** constants.go *)
Definition preUpgradeCheckID := "ai-pipelines.pre-upgrade-check".
Definition preUpgradeCheckName := "AI Pipelines pre-upgrade check".
Definition preUpgradeCheckDescription := "Captures DSPA pod health, migrates v1alpha1 resources to v1, and detects RBAC gaps".
Definition updateDSPRoleID := "ai-pipelines.update-dsp-role".
Definition updateDSPRoleName := "Update custom DSP roles".
Definition updateDSPRoleDescription := "Patches custom RBAC roles to add datasciencepipelinesapplications/api subresource".
Definition postUpgradeCheckID := "ai-pipelines.post-upgrade-check".
Definition postUpgradeCheckName := "AI Pipelines post-upgrade check".
Definition postUpgradeCheckDescription := "Verifies pipeline server pods are healthy post-upgrade against pre-upgrade baseline".
Definition podPrefixDSPipeline := "ds-pipeline-".
Definition podPrefixMariaDB := "mariadb-".
Definition defaultStateDir := "/tmp/rhoai-upgrade-backup/ai_pipelines".
Definition stateFileName := "dspa_pre_upgrade_pods.json".
Definition backoff : Backoff := mkBackoff (1 * second) 10 (30 * second).
Definition dspaCRDName := "datasciencepipelinesapplications.datasciencepipelinesapplications.opendatahub.io".
Definition defaultStatePath : string := path_Join [defaultStateDir; stateFileName].

(** [filepath.Dir] *)
Definition path_Dir (path : string) : string :=
  path_Clean (match cut_last slash path with Some (dir, _) => dir +:+ "/" | None => "" end).

(** [%v] of a slice of strings *)
Definition show_strings (l : list string) : string := "[" +:+ join " " l +:+ "]".
Definition show_nat (n : nat) : string := itoa (Z.of_nat n).

(** ** pod_health.go: the snapshot *)
Record PodInfo := mkPodInfo { pi_Name : string; pi_Phase : string; pi_Ready : string; pi_Healthy : bool }.
Record PodGroup := mkPodGroup { pg_Prefix : string; pg_PodsFound : bool; pg_AllHealthy : bool; pg_Pods : list PodInfo }.
Record DSPAState := mkDSPAState { ds_Name : string; ds_Namespace : string; ds_PodGroups : list PodGroup }.
Record PodHealthState := mkPodHealth { ph_CapturedAt : string; ph_DSPAs : list DSPAState }.

Inductive podGroupStatus := podGroupOK | podGroupFail | podGroupImproved | podGroupWarn.
#[export] Instance podGroupStatus_eq_dec : EqDecision podGroupStatus.
Proof. solve_decision. Defined.
Record podGroupComparison := mkComparison {
  pc_DSPAName : string;
  pc_Namespace : string;
  pc_Prefix : string;
  pc_Status : podGroupStatus;
  pc_Current : PodGroup;
}.

(** [unstructured.NestedString], nothing for the empty string. *)
Definition nested_string (path : list string) (obj : json) : string :=
  match nested path obj with Some (JStr s) => s | _ => "" end.
Definition nonempty (s default : string) : string := if String.eqb s "" then default else s.

(** The first condition of type Ready decides. *)
Definition pod_ready (pod : json) : string :=
  match nested ["status"; "conditions"] pod with
  | Some (JArr conditions) =>
      match find (λ c, is_object c && String.eqb (str_at "type" c) "Ready") conditions with
      | Some cond => nonempty (str_at "status" cond) "Unknown"
      | None => "Unknown"
      end
  | _ => "Unknown"
  end.
Definition pod_info (pod : json) : PodInfo :=
  let phase := nonempty (nested_string ["status"; "phase"] pod) "Unknown" in
  let ready := pod_ready pod in
  mkPodInfo (GetName pod) phase ready (String.eqb phase "Running" && String.eqb ready "True").

Definition getPodGroup (pods : list json) (prefix : string) : PodGroup :=
  let infos := map pod_info (List.filter (λ pod, has_prefix prefix (GetName pod)) pods) in
  let found := (0 <? length infos)%nat in
  mkPodGroup prefix found (found && forallb pi_Healthy infos) infos.

(** *** The file: fields by their JSON names *)
Definition encode_pod (p : PodInfo) : json :=
  JObj [("name", JStr (pi_Name p)); ("phase", JStr (pi_Phase p)); ("ready", JStr (pi_Ready p)); ("healthy", JBool (pi_Healthy p))].
Definition encode_group (g : PodGroup) : json :=
  JObj [("prefix", JStr (pg_Prefix g)); ("podsFound", JBool (pg_PodsFound g)); ("allHealthy", JBool (pg_AllHealthy g));
        ("pods", JArr (map encode_pod (pg_Pods g)))].
Definition encode_dspa (d : DSPAState) : json :=
  JObj [("dspaName", JStr (ds_Name d)); ("namespace", JStr (ds_Namespace d)); ("podGroups", JArr (map encode_group (ds_PodGroups d)))].
Definition encode_state (s : PodHealthState) : json :=
  JObj [("capturedAt", JStr (ph_CapturedAt s)); ("dspas", JArr (map encode_dspa (ph_DSPAs s)))].

Section Decode.
Context `{JT : JsonText}.

(** [json.Unmarshal] into a field: null leaves it as it is. *)
Definition decode_string (v : json) (old : string) : res go_error string :=
  match v with JNull => Ok old | JStr s => Ok s | _ => Err (json_Mismatch "string" v) end.
Definition decode_bool (v : json) (old : bool) : res go_error bool :=
  match v with JNull => Ok old | JBool b => Ok b | _ => Err (json_Mismatch "bool" v) end.
Fixpoint decode_all {A} (f : json → res go_error A) (l : list json) : res go_error (list A) :=
  match l with
  | [] => Ok []
  | v :: l' => res_bind (f v) (λ a, res_bind (decode_all f l') (λ l'', Ok (a :: l'')))
  end.
Definition decode_slice {A} (f : json → res go_error A) (v : json) (old : list A) : res go_error (list A) :=
  match v with JNull => Ok [] | JArr l => decode_all f l | _ => Err (json_Mismatch "slice" v) end.

(** Into a struct: keys match field names up to case, unknown keys are
    skipped, and the last of repeated keys wins. *)
Fixpoint decode_fields {A} (set : string → json → A → option (res go_error A)) (fields : list (string * json)) (old : A)
    : res go_error A :=
  match fields with
  | [] => Ok old
  | (k, v) :: rest =>
      match set k v old with
      | Some r => res_bind r (λ new, decode_fields set rest new)
      | None => decode_fields set rest old
      end
  end.
Definition decode_struct {A} (name : string) (set : string → json → A → option (res go_error A)) (v : json) (old : A)
    : res go_error A :=
  match v with
  | JNull => Ok old
  | JObj fields => decode_fields set fields old
  | _ => Err (json_Mismatch name v)
  end.

Definition set_pod (k : string) (v : json) (p : PodInfo) : option (res go_error PodInfo) :=
  if equal_fold k "name" then
    Some (res_bind (decode_string v (pi_Name p)) (λ x, Ok (mkPodInfo x (pi_Phase p) (pi_Ready p) (pi_Healthy p))))
  else if equal_fold k "phase" then
    Some (res_bind (decode_string v (pi_Phase p)) (λ x, Ok (mkPodInfo (pi_Name p) x (pi_Ready p) (pi_Healthy p))))
  else if equal_fold k "ready" then
    Some (res_bind (decode_string v (pi_Ready p)) (λ x, Ok (mkPodInfo (pi_Name p) (pi_Phase p) x (pi_Healthy p))))
  else if equal_fold k "healthy" then
    Some (res_bind (decode_bool v (pi_Healthy p)) (λ x, Ok (mkPodInfo (pi_Name p) (pi_Phase p) (pi_Ready p) x)))
  else None.
Definition decode_pod (v : json) : res go_error PodInfo := decode_struct "PodInfo" set_pod v (mkPodInfo "" "" "" false).

Definition set_group (k : string) (v : json) (g : PodGroup) : option (res go_error PodGroup) :=
  if equal_fold k "prefix" then
    Some (res_bind (decode_string v (pg_Prefix g)) (λ x, Ok (mkPodGroup x (pg_PodsFound g) (pg_AllHealthy g) (pg_Pods g))))
  else if equal_fold k "podsFound" then
    Some (res_bind (decode_bool v (pg_PodsFound g)) (λ x, Ok (mkPodGroup (pg_Prefix g) x (pg_AllHealthy g) (pg_Pods g))))
  else if equal_fold k "allHealthy" then
    Some (res_bind (decode_bool v (pg_AllHealthy g)) (λ x, Ok (mkPodGroup (pg_Prefix g) (pg_PodsFound g) x (pg_Pods g))))
  else if equal_fold k "pods" then
    Some (res_bind (decode_slice decode_pod v (pg_Pods g)) (λ x, Ok (mkPodGroup (pg_Prefix g) (pg_PodsFound g) (pg_AllHealthy g) x)))
  else None.
Definition decode_group (v : json) : res go_error PodGroup := decode_struct "PodGroup" set_group v (mkPodGroup "" false false []).

Definition set_dspa (k : string) (v : json) (d : DSPAState) : option (res go_error DSPAState) :=
  if equal_fold k "dspaName" then
    Some (res_bind (decode_string v (ds_Name d)) (λ x, Ok (mkDSPAState x (ds_Namespace d) (ds_PodGroups d))))
  else if equal_fold k "namespace" then
    Some (res_bind (decode_string v (ds_Namespace d)) (λ x, Ok (mkDSPAState (ds_Name d) x (ds_PodGroups d))))
  else if equal_fold k "podGroups" then
    Some (res_bind (decode_slice decode_group v (ds_PodGroups d)) (λ x, Ok (mkDSPAState (ds_Name d) (ds_Namespace d) x)))
  else None.
Definition decode_dspa (v : json) : res go_error DSPAState := decode_struct "DSPAState" set_dspa v (mkDSPAState "" "" []).

Definition set_state (k : string) (v : json) (s : PodHealthState) : option (res go_error PodHealthState) :=
  if equal_fold k "capturedAt" then
    Some (res_bind (decode_string v (ph_CapturedAt s)) (λ x, Ok (mkPodHealth x (ph_DSPAs s))))
  else if equal_fold k "dspas" then
    Some (res_bind (decode_slice decode_dspa v (ph_DSPAs s)) (λ x, Ok (mkPodHealth (ph_CapturedAt s) x)))
  else None.
Definition decode_state (v : json) : res go_error PodHealthState := decode_struct "PodHealthState" set_state v (mkPodHealth "" []).
End Decode.

(** ** Operations *)
Record dspaInfo := mkDSPA { dspa_Name : string; dspa_Namespace : string }.
Definition dspa_key (d : dspaInfo) : string := dspa_Namespace d +:+ "/" +:+ dspa_Name d.

Section Actions.
Context `{AE : ApiErrors, KE : K8sErrors, JQ : GoJq, CL : Clock, JT : JsonText, WT : Wait}.

(** *** dspa.go *)
Definition listDSPAsInNamespace (rt : ResourceType) (namespace : string) : M (list dspaInfo) :=
  try* items := kList rt namespace "" else errorf_w ("listing " +:+ rt_Kind rt) in
  m_ret (map (λ item, mkDSPA (GetName item) (GetNamespace item)) items).
Definition listDSPAs (rt : ResourceType) : M (list dspaInfo) := listDSPAsInNamespace rt "".

(** The object as it is sent back: without what the server sets. *)
Definition rewritten (obj : json) : json :=
  RemoveNestedField ["status"]
    (RemoveNestedField ["metadata"; "uid"]
      (RemoveNestedField ["metadata"; "managedFields"]
        (RemoveNestedField ["metadata"; "generation"]
          (RemoveNestedField ["metadata"; "creationTimestamp"] obj)))).
Definition migrateDSPAToV1 (dspa : dspaInfo) (dryRun : bool) : M () :=
  try* obj := kGet DataSciencePipelinesApplicationV1 (dspa_Namespace dspa) (dspa_Name dspa)
    else errorf_w ("getting DSPA " +:+ dspa_key dspa) in
  try* _u := kUpdate DataSciencePipelinesApplicationV1 (dspa_Namespace dspa) (rewritten obj) dryRun
    else errorf_w ("updating DSPA " +:+ dspa_key dspa) in
  m_ret ().

Definition is_v1alpha1 (v : json) : bool := match v with JStr s => String.eqb s "v1alpha1" | _ => false end.
Definition stored_versions (crd : json) : res go_error (list json) := jq_Query_array crd ".status.storedVersions".

Definition hasV1Alpha1StoredVersion : M bool :=
  let* got := attempt (GetResource CustomResourceDefinition dspaCRDName "") in
  match got with
  | inl err => if IsNotFound err then m_ret false else m_throw (errorf_w ("getting CRD " +:+ dspaCRDName) err)
  | inr None => m_ret true
  | inr (Some crd) =>
      try* storedVersions := m_lift (stored_versions crd)
        else errorf_w ("querying status.storedVersions for CRD " +:+ dspaCRDName) in
      m_ret (existsb is_v1alpha1 storedVersions)
  end.

Definition removeV1Alpha1StoredVersion : M () :=
  let* got := attempt (GetResource CustomResourceDefinition dspaCRDName "") in
  match got with
  | inl err => if IsNotFound err then m_ret () else m_throw (errorf_w ("getting CRD " +:+ dspaCRDName) err)
  | inr None => m_ret ()
  | inr (Some crd) =>
      try* storedVersions := m_lift (stored_versions crd) else errorf_w "querying status.storedVersions" in
      let filtered := List.filter (λ v, negb (is_v1alpha1 v)) storedVersions in
      if (length filtered =? length storedVersions)%nat then m_ret ()
      else
        try* crd' := m_lift (SetNestedField ["status"; "storedVersions"] (JArr filtered) crd)
          else errorf_w "setting status.storedVersions" in
        try* _u := kUpdateStatus CustomResourceDefinition crd' else errorf_w "updating CRD status" in
        m_ret ()
  end.

(** One DSPA of one try; the state is [allSucceeded] and [migrated]. *)
Definition migrate_one (step : loc) (s : bool * gset string) (dspa : dspaInfo) : M (bool * gset string) :=
  let '(allSucceeded, migrated) := s in
  let key := dspa_key dspa in
  if bool_decide (key ∈ migrated) then m_ret s
  else
    let* got := attempt (migrateDSPAToV1 dspa false) in
    match got with
    | inl migrateErr =>
        recordf step (dspa_Name dspa) ("Migration attempt failed: " +:+ error_string migrateErr +:+ " (will retry)") StepFailed ;;
        m_ret (false, migrated)
    | inr _ =>
        recordf step (dspa_Name dspa) ("Migrated " +:+ key +:+ " to v1") StepCompleted ;;
        m_ret (allSucceeded, {[key]} ∪ migrated)
    end.
Definition migrate_pass (step : loc) (dspas : list dspaInfo) (migrated : gset string) : M (bool * gset string) :=
  m_fold (migrate_one step) dspas (true, migrated).

Definition fail_step (step : loc) (message : string) (err : go_error) : M () :=
  completef step StepFailed (message +:+ ": " +:+ error_string err).

Definition migrateAllDSPAsToV1 (recorder : loc) (dryRun : bool) : M () :=
  let* step := child recorder "migrate-v1alpha1-to-v1" "Migrate v1alpha1 DSPAs to v1" in
  let* needed := attempt hasV1Alpha1StoredVersion in
  match needed with
  | inl err => fail_step step "Failed to check CRD stored versions" err ;; m_throw err
  | inr false => completef step StepCompleted "All DSPAs already stored as v1"
  | inr true =>
      let* listed := attempt (listDSPAs DataSciencePipelinesApplicationV1) in
      match listed with
      | inl err => fail_step step "Failed to list DSPAs" err ;; m_throw err
      | inr [] =>
          let* cleaned := attempt (if dryRun then m_ret () else removeV1Alpha1StoredVersion) in
          match cleaned with
          | inl err =>
              fail_step step "Failed to clean up storedVersions" err ;;
              m_throw (errorf_w "removing v1alpha1 from storedVersions" err)
          | inr _ => completef step StepCompleted "No DSPAs found"
          end
      | inr dspas =>
          recordf step "detected" ("Found " +:+ show_nat (length dspas) +:+ " DSPA(s) to migrate") StepCompleted ;;
          if dryRun then
            m_each (λ dspa, recordf step (dspa_Name dspa) ("Would migrate " +:+ dspa_key dspa +:+ " from v1alpha1 to v1") StepSkipped)
              dspas ;;
            completef step StepSkipped ("Dry-run: " +:+ show_nat (length dspas) +:+ " DSPA(s) would be migrated")
          else
            let* retried := attempt (ExponentialBackoff backoff (migrate_pass step dspas) ∅) in
            match retried with
            | inl retryErr =>
                fail_step step "Failed to migrate all v1alpha1 DSPAs" retryErr ;;
                m_throw (errorf_w "migrating v1alpha1 DSPAs" retryErr)
            | inr _ =>
                let* removed := attempt removeV1Alpha1StoredVersion in
                match removed with
                | inl err =>
                    fail_step step "Failed to remove v1alpha1 from CRD storedVersions" err ;;
                    m_throw (errorf_w "removing v1alpha1 from storedVersions" err)
                | inr _ => completef step StepCompleted "All v1alpha1 DSPAs migrated to v1"
                end
            end
      end
  end.

(** *** pod_health.go *)
Definition record_group (step : loc) (group : PodGroup) : M () :=
  if negb (pg_PodsFound group) then recordf step (pg_Prefix group) "[WARN] No pods found" StepCompleted
  else if pg_AllHealthy group then recordf step (pg_Prefix group) "[OK] All pods healthy" StepCompleted
  else
    m_each (λ pod,
      if pi_Healthy pod then recordf step (pi_Name pod) "[OK] Running, Ready" StepCompleted
      else recordf step (pi_Name pod) ("[FAIL] Phase: " +:+ pi_Phase pod +:+ ", Ready: " +:+ pi_Ready pod) StepFailed)
      (pg_Pods group).

Definition capture_dspa (recorder : loc) (states : list DSPAState) (dspa : dspaInfo) : M (list DSPAState) :=
  let* step := child recorder ("capture-" +:+ dspa_Namespace dspa +:+ "-" +:+ dspa_Name dspa)
    ("DSPA: " +:+ dspa_Name dspa +:+ " | Namespace: " +:+ dspa_Namespace dspa) in
  let* got := attempt (kList Pod (dspa_Namespace dspa) "") in
  match got with
  | inl err =>
      fail_step step "Failed to list pods" err ;;
      m_throw (errorf_w ("listing pods in " +:+ dspa_Namespace dspa) err)
  | inr pods =>
      let groups := map (getPodGroup pods) [podPrefixDSPipeline +:+ dspa_Name dspa; podPrefixMariaDB +:+ dspa_Name dspa] in
      m_each (record_group step) groups ;;
      completef step StepCompleted ("Captured " +:+ show_nat (length groups) +:+ " pod groups") ;;
      m_ret (states ++ [mkDSPAState (dspa_Name dspa) (dspa_Namespace dspa) groups])%list
  end.
Definition capturePodHealth (recorder : loc) (dspas : list dspaInfo) : M PodHealthState :=
  let* capturedAt := call KNow in
  let* states := m_fold (capture_dspa recorder) dspas [] in
  m_ret (mkPodHealth capturedAt states).

Definition group_verdict (cur pre : PodGroup) : podGroupStatus :=
  match pg_AllHealthy cur, pg_AllHealthy pre with
  | true, true => podGroupOK
  | true, false => podGroupImproved
  | false, false => podGroupWarn
  | false, true => podGroupFail
  end.
Definition compare_dspa (comparisons : list podGroupComparison) (dspa : DSPAState) : M (list podGroupComparison) :=
  try* pods := kList Pod (ds_Namespace dspa) "" else errorf_w ("listing pods in " +:+ ds_Namespace dspa) in
  m_ret (comparisons ++
    map (λ preGroup,
      let curGroup := getPodGroup pods (pg_Prefix preGroup) in
      mkComparison (ds_Name dspa) (ds_Namespace dspa) (pg_Prefix preGroup) (group_verdict curGroup preGroup) curGroup)
      (ds_PodGroups dspa))%list.
Definition comparePodHealth (pre : PodHealthState) : M (list podGroupComparison) := m_fold compare_dspa (ph_DSPAs pre) [].
Definition hasAnyDegradation (comparisons : list podGroupComparison) : bool :=
  existsb (λ c, bool_decide (pc_Status c = podGroupFail)) comparisons.

Definition savePodHealthState (state : PodHealthState) (paths : list string) : M () :=
  try* data := m_lift (json_MarshalIndent (encode_state state)) else errorf_w "marshaling state" in
  m_each (λ p,
    try* _u := kMkdirAll (path_Dir p) else errorf_w ("creating directory " +:+ path_Dir p) in
    try* _v := kWriteFile p data else errorf_w ("writing state to " +:+ p) in
    m_ret ()) paths.
Definition loadPodHealthState (path : string) : M PodHealthState :=
  try* data := kReadFile path else errorf_w ("reading state from " +:+ path) in
  m_map_err (errorf_w ("unmarshaling state from " +:+ path))
    (m_lift (res_bind (json_Parse data) decode_state)).

(** *** role_classifier.go *)
Definition findRolesNeedingFix (recorder : loc) : M (list Classification) :=
  let* step := child recorder "scan-roles" "Scan custom roles for RBAC gaps" in
  let* listed := call (KListAll Role defaultListOptions) in
  match FindRolesNeedingFix (λ _, listed) with
  | Panic s => m_lift (Panic s)
  | Err err =>
      fail_step step "Failed to list roles" err ;; m_throw (errorf_w "scanning roles for RBAC gaps" err)
  | Ok [] => completef step StepCompleted "No custom roles need updating" ;; m_ret []
  | Ok roles =>
      m_each (λ r, recordf step (cl_RoleName r)
        ("Role " +:+ cl_RoleName r +:+ " in namespace " +:+ cl_Namespace r +:+
         " needs datasciencepipelinesapplications/api subresource") StepCompleted) roles ;;
      completef step StepCompleted ("Found " +:+ show_nat (length roles) +:+ " role(s) needing update") ;;
      m_ret roles
  end.
(** [_, _ = f(...)] *)
Definition ignore {A} (m : M A) : M () := let* _r := attempt m in m_ret ().

(** *** precheck.go *)
Definition captureAndSavePodHealth (dryRun skipIfExists : bool) : M () :=
  let statePath := defaultStatePath in
  let* existing := if skipIfExists then attempt (loadPodHealthState statePath) else m_ret (inl (EString "")) in
  match existing with
  | inr _ =>
      recordf root "pod-health-state" ("Pre-upgrade pod health state already exists at " +:+ statePath) StepCompleted
  | inl _ =>
      let* healthStep := child root "capture-pod-health" "Capture pre-upgrade DSPA pod health" in
      let* listed := attempt (listDSPAs DataSciencePipelinesApplicationV1) in
      match listed with
      | inl err => fail_step healthStep "Failed to list v1 DSPAs" err
      | inr v1DSPAs =>
          let* captured :=
            match v1DSPAs with
            | [] =>
                completef healthStep StepCompleted "No v1 DSPAs found" ;;
                let* capturedAt := call KNow in
                m_ret (Some (mkPodHealth capturedAt []))
            | _ =>
                let* got := attempt (capturePodHealth healthStep v1DSPAs) in
                match got with
                | inl captureErr => fail_step healthStep "Failed to capture pod health" captureErr ;; m_ret None
                | inr state =>
                    completef healthStep StepCompleted
                      ("Captured pod health for " +:+ show_nat (length v1DSPAs) +:+ " DSPA(s)") ;;
                    m_ret (Some state)
                end
            end in
          match captured with
          | None => m_ret ()
          | Some state =>
              let* saveStep := child root "save-state" "Save pre-upgrade state" in
              if dryRun then completef saveStep StepSkipped "Would save pre-upgrade pod health state"
              else
                let* saved := attempt (savePodHealthState state [statePath]) in
                match saved with
                | inl err => fail_step saveStep "Failed to save state" err
                | inr _ => completef saveStep StepCompleted ("State saved to " +:+ statePath)
                end
          end
      end
  end.

Definition discover (dryRun : bool) : M () :=
  captureAndSavePodHealth dryRun false ;;
  let* v1alpha1Step := child root "detect-v1alpha1" "Detect deprecated v1alpha1 DSPAs" in
  let* needed := attempt hasV1Alpha1StoredVersion in
  match needed with
  | inl err => fail_step v1alpha1Step "Failed to check CRD stored versions" err
  | inr needsMigration =>
      completef v1alpha1Step StepCompleted
        (if (needsMigration : bool) then "v1alpha1 is in CRD storedVersions — migration required"
         else "No deprecated v1alpha1 DSPAs found") ;;
      ignore (findRolesNeedingFix root)
  end.

Definition preUpgradeCheckPrepareTask_Execute (dryRun : bool) : M execution := discover dryRun ;; built None.
Definition preUpgradeCheckPrepareTask_Validate : M execution := preUpgradeCheckPrepareTask_Execute true.
Definition preUpgradeCheckRunTask_Validate : M execution :=
  let* step := child root "check-v1alpha1" "Check for v1alpha1 DSPAs" in
  let* needed := attempt hasV1Alpha1StoredVersion in
  match needed with
  | inl err => fail_step step "Failed to check CRD stored versions" err ;; built None
  | inr needsMigration =>
      completef step StepCompleted
        (if (needsMigration : bool) then "v1alpha1 is in CRD storedVersions — migration needed"
         else "No v1alpha1 DSPAs found — nothing to migrate") ;;
      built None
  end.
Definition preUpgradeCheckRunTask_Execute (dryRun : bool) : M execution :=
  captureAndSavePodHealth dryRun true ;;
  let* migrated := attempt (migrateAllDSPAsToV1 root dryRun) in
  match migrated with
  | inl err => built (Some (errorf_w "v1alpha1 migration failed" err))
  | inr _ => built None
  end.

(** *** postcheck.go *)
Definition postUpgradePollInterval := "15s".
Definition postUpgradeTimeout := "2m0s".
Definition state_not_found : string :=
  "Pre-upgrade state not found at " +:+ defaultStatePath +:+ ". Run 'migrate prepare -m " +:+ preUpgradeCheckID +:+
  "' before upgrading".

Definition postUpgradeCheckRunTask_Validate : M execution :=
  let* step := child root "check-state-file" "Check for pre-upgrade state file" in
  let* loaded := attempt (loadPodHealthState defaultStatePath) in
  completef step (if loaded is inl _ then StepFailed else StepCompleted)
    (if loaded is inl _ then state_not_found else "Pre-upgrade state file found at " +:+ defaultStatePath) ;;
  built None.

(** One turn of the loop per case that fires; a comparison under a fresh
    context asks the same questions. *)
Definition comparePodHealthFreshCtx : PodHealthState → M (list podGroupComparison) := comparePodHealth.
Fixpoint pollForRecovery (fuel : nat) (preState : PodHealthState) : M (list podGroupComparison) :=
  match fuel with
  | O => m_diverge
  | S fuel' =>
      let* fired := call KSelect in
      match fired with
      | CtxDone => m_map_err (errorf_w "final comparison after context cancellation") (comparePodHealthFreshCtx preState)
      | DeadlineFired =>
          kErrOut ("Wait timeout reached (" +:+ postUpgradeTimeout +:+ "). Running final comparison..." +:+ newline) ;;
          m_map_err (errorf_w "final comparison after timeout") (comparePodHealth preState)
      | Ticked =>
          let* compared := attempt (comparePodHealth preState) in
          match compared with
          | inl err =>
              kErrOut ("Comparison failed: " +:+ error_string err +:+ ", retrying..." +:+ newline) ;;
              pollForRecovery fuel' preState
          | inr comparisons =>
              if negb (hasAnyDegradation comparisons) then
                kErrOut ("All previously-healthy pods recovered" +:+ newline) ;; m_ret comparisons
              else
                kErrOut ("Not yet fully recovered, retrying..." +:+ newline) ;; pollForRecovery fuel' preState
          end
      end
  end.

Definition recordFailedPodGroup (groupStep : loc) (current : PodGroup) : M () :=
  if negb (pg_PodsFound current) then recordf groupStep "missing" "[MISSING] No pods found post-upgrade" StepFailed
  else
    m_each (λ pod,
      if pi_Healthy pod then recordf groupStep (pi_Name pod) ("[OK] " +:+ pi_Name pod +:+ " (Running, Ready)") StepCompleted
      else recordf groupStep (pi_Name pod)
        ("[FAIL] " +:+ pi_Name pod +:+ " (Phase: " +:+ pi_Phase pod +:+ ", Ready: " +:+ pi_Ready pod +:+ ")") StepFailed)
      (pg_Pods current).

Definition comparison_line (comp : podGroupComparison) : StepStatus * string :=
  match pc_Status comp with
  | podGroupOK => (StepCompleted, "[OK] " +:+ pc_Prefix comp)
  | podGroupImproved => (StepCompleted, "[IMPROVED] " +:+ pc_Prefix comp +:+ " (was unhealthy, now healthy)")
  | podGroupWarn => (StepCompleted, "[WARN] " +:+ pc_Prefix comp +:+ " (unchanged unhealthy state, pre-existing issue)")
  | podGroupFail => (StepFailed, "[FAIL] " +:+ pc_Prefix comp +:+ " (was healthy, now unhealthy)")
  end.
Definition record_comparison (step : loc) (comp : podGroupComparison) : M () :=
  let '(status, msg) := comparison_line comp in
  let* groupStep := child step (pc_Prefix comp) msg in
  (if bool_decide (pc_Status comp = podGroupFail) then recordFailedPodGroup groupStep (pc_Current comp) else m_ret ()) ;;
  completef groupStep status msg.
Definition recordComparisons (comparisons : list podGroupComparison) : M () :=
  let* step := child root "comparison" "Pre vs Post-Upgrade Comparison" in
  m_each (record_comparison step) comparisons ;;
  if hasAnyDegradation comparisons then
    completef step StepFailed "One or more DSPA pods degraded compared to pre-upgrade state"
  else completef step StepCompleted "All DSPA pods are in an equal or better state than before upgrade".

(** What [Execute] does once the state is loaded. *)
Definition check_against (fuel : nat) (preState : PodHealthState) : M execution :=
  match ph_DSPAs preState with
  | [] => recordf root "no-dspas" "No DSPAs were tracked pre-upgrade" StepCompleted ;; built None
  | _ =>
      let* compared := attempt (comparePodHealth preState) in
      match compared with
      | inl err =>
          recordf root "compare-failed" ("Failed to compare pod health: " +:+ error_string err) StepFailed ;;
          built (Some (errorf_w "comparing pod health" err))
      | inr comparisons =>
          if negb (hasAnyDegradation comparisons) then recordComparisons comparisons ;; built None
          else
            kErrOut ("Degradation detected. Waiting up to " +:+ postUpgradeTimeout +:+ " for pods to recover..." +:+ newline) ;;
            let* polled := attempt (pollForRecovery fuel preState) in
            match polled with
            | inl err =>
                recordf root "poll-failed" ("Failed during recovery polling: " +:+ error_string err) StepFailed ;;
                built (Some (errorf_w "polling for recovery" err))
            | inr comparisons => recordComparisons comparisons ;; built None
            end
      end
  end.
Definition postUpgradeCheckRunTask_Execute (fuel : nat) : M execution :=
  let* loadStep := child root "load-state" "Load pre-upgrade state" in
  let* loaded := attempt (loadPodHealthState defaultStatePath) in
  match loaded with
  | inl err => completef loadStep StepFailed state_not_found ;; built (Some (errorf_w "loading pre-upgrade state" err))
  | inr preState =>
      completef loadStep StepCompleted ("Loaded state captured at " +:+ ph_CapturedAt preState) ;; check_against fuel preState
  end.

(** *** updatedsprole.go *)
Definition updateDSPRole_scan : M execution := ignore (findRolesNeedingFix root) ;; built None.
Definition updateDSPRolePrepareTask_Execute : M execution := updateDSPRole_scan.
Definition updateDSPRolePrepareTask_Validate : M execution := updateDSPRolePrepareTask_Execute.
Definition updateDSPRoleRunTask_Validate : M execution := updateDSPRole_scan.

(** The rule the patch appends, and the patch. *)
Definition dspa_rule (dspa : string) (verbs : list string) : json :=
  JObj [("apiGroups", JArr [JStr dspaAPIGroup]); ("resources", JArr [JStr "datasciencepipelinesapplications/api"]);
        ("resourceNames", JArr [JStr dspa]); ("verbs", JArr (map JStr verbs))].
Definition patch_ops (dspa : string) (verbs : list string) : json :=
  JArr [JObj [("op", JStr "add"); ("path", JStr "/rules/-"); ("value", dspa_rule dspa verbs)]].
Definition inferred_verbs (role : Classification) : list string :=
  match cl_RouteVerbs role with [] => ["get"; "list"; "watch"] | verbs => verbs end.

Definition patchRoleForDSPA (dryRun skipConfirm : bool) (recorder : loc) (role : Classification) (dspa : dspaInfo) : M () :=
  let* step := child recorder ("add-rule-" +:+ dspa_Name dspa)
    ("Add datasciencepipelinesapplications/api rule for DSPA " +:+ dspa_Name dspa) in
  let verbs := inferred_verbs role in
  let rule := "datasciencepipelinesapplications/api rule for DSPA " +:+ dspa_Name dspa +:+
    " (verbs: " +:+ show_strings verbs +:+ ")" in
  let* proceed :=
    if negb dryRun && negb skipConfirm then
      kErrOut (newline +:+ "About to patch role " +:+ cl_Namespace role +:+ "/" +:+ cl_RoleName role +:+
        " to add datasciencepipelinesapplications/api for DSPA " +:+ dspa_Name dspa +:+
        " (verbs: " +:+ show_strings verbs +:+ ")" +:+ newline) ;;
      Prompt "Proceed with role patch?"
    else m_ret true in
  if negb proceed then completef step StepSkipped "User cancelled patch"
  else
    let* patched := attempt (kPatch Role (cl_Namespace role) (cl_RoleName role) JSONPatchType
      (patch_ops (dspa_Name dspa) verbs) dryRun) in
    match patched with
    | inl err => fail_step step "Failed to patch role" err
    | inr _ =>
        if dryRun then completef step StepSkipped ("Would add " +:+ rule)
        else
          let* reread := attempt (kGet Role (cl_Namespace role) (cl_RoleName role)) in
          match reread with
          | inl err => fail_step step "Patch succeeded but validation failed — could not re-read role" err
          | inr updatedRole =>
              if cl_NeedsFix (ClassifyRole updatedRole) then
                completef step StepFailed
                  "Patch succeeded but validation failed — datasciencepipelinesapplications/api rule not found in re-read"
              else completef step StepCompleted ("Added " +:+ rule)
          end
    end.

Definition patchRole (dryRun skipConfirm : bool) (recorder : loc) (role : Classification) : M () :=
  let* step := child recorder ("patch-" +:+ cl_Namespace role +:+ "-" +:+ cl_RoleName role)
    ("Patch role " +:+ cl_Namespace role +:+ "/" +:+ cl_RoleName role) in
  let* listed := attempt (listDSPAsInNamespace DataSciencePipelinesApplicationV1 (cl_Namespace role)) in
  match listed with
  | inl err => fail_step step ("Failed to list DSPAs in " +:+ cl_Namespace role) err
  | inr [] =>
      completef step StepCompleted ("No DSPAs found in namespace " +:+ cl_Namespace role +:+ " — skipping")
  | inr namespaceDSPAs =>
      m_each (patchRoleForDSPA dryRun skipConfirm step role) namespaceDSPAs ;;
      completef step StepCompleted ("Role " +:+ cl_Namespace role +:+ "/" +:+ cl_RoleName role +:+ " processed")
  end.

Definition updateDSPRoleRunTask_Execute (dryRun skipConfirm : bool) : M execution :=
  let* found := attempt (findRolesNeedingFix root) in
  match found with
  | inl err => built (Some (errorf_w "scanning roles" err))
  | inr [] => built None
  | inr roles =>
      let* patchStep := child root "patch-roles" "Patch custom roles" in
      m_each (patchRole dryRun skipConfirm patchStep) roles ;;
      completef patchStep StepCompleted ("Processed " +:+ show_nat (length roles) +:+ " role(s)") ;;
      built None
  end.
End Actions.

(** *** The actions *)
Section AsActions.
Context `{SV : Semver, AE : ApiErrors, KE : K8sErrors, JQ : GoJq, CL : Clock, JT : JsonText, WT : Wait}.
Context {S : Type} (env : ∀ c, S → answer c * S).

Definition current_is_2x (target : ActionTarget) : bool :=
  match at_CurrentVersion target with Some v => v_Major v =? 2 | None => false end.

Definition PreUpgradeCheckAction : Action S :=
  mkAction _ S preUpgradeCheckID preUpgradeCheckName preUpgradeCheckDescription GroupMigration PhasePreUpgrade
    (λ target _, current_is_2x target)
    (Some (as_task env (λ target, preUpgradeCheckPrepareTask_Execute (at_DryRun target))))
    (Some (as_task env (λ target, preUpgradeCheckRunTask_Execute (at_DryRun target)))).
Definition UpdateDSPRoleAction : Action S :=
  mkAction _ S updateDSPRoleID updateDSPRoleName updateDSPRoleDescription GroupMigration PhasePreUpgrade
    (λ target _, current_is_2x target)
    (Some (as_task env (λ _, updateDSPRolePrepareTask_Execute)))
    (Some (as_task env (λ target, updateDSPRoleRunTask_Execute (at_DryRun target) (at_SkipConfirm target)))).
Definition PostUpgradeCheckAction (fuel : nat) : Action S :=
  mkAction _ S postUpgradeCheckID postUpgradeCheckName postUpgradeCheckDescription GroupValidation PhasePostUpgrade
    (λ target _, current_is_2x target)
    None
    (Some (as_task env (λ _, postUpgradeCheckRunTask_Execute fuel))).
End AsActions.

(** ** Lemmas *)
(** *** Pod groups *)
Lemma getPodGroup_found pods prefix :
  pg_PodsFound (getPodGroup pods prefix) = true ↔ ∃ pod, pod ∈ pods ∧ has_prefix prefix (GetName pod) = true.
Proof.
  unfold getPodGroup. cbn [pg_PodsFound]. rewrite Nat.ltb_lt, length_map.
  setoid_rewrite list_elem_of_In. split.
  - intros Hl. destruct (List.filter _ pods) as [|pod l] eqn:Hf; [simpl in Hl; lia|].
    exists pod. apply (filter_In (λ pod, has_prefix prefix (GetName pod))). rewrite Hf. by left.
  - intros (pod & Hin). apply (filter_In (λ pod, has_prefix prefix (GetName pod))) in Hin.
    by destruct (List.filter _ pods); [|simpl; lia].
Qed.
Lemma getPodGroup_healthy pods prefix :
  pg_AllHealthy (getPodGroup pods prefix) = true ↔
  (∃ pod, pod ∈ pods ∧ has_prefix prefix (GetName pod) = true) ∧
  ∀ pod, pod ∈ pods → has_prefix prefix (GetName pod) = true → pi_Healthy (pod_info pod) = true.
Proof.
  rewrite <-getPodGroup_found. unfold getPodGroup. cbn [pg_PodsFound pg_AllHealthy].
  rewrite andb_true_iff, forallb_forall. setoid_rewrite in_map_iff. setoid_rewrite filter_In.
  setoid_rewrite list_elem_of_In. naive_solver.
Qed.

(** *** Questions *)
Create HintDb pipelines discriminated.
Section Quiet.
Context `{AE : ApiErrors, KE : K8sErrors, JQ : GoJq, CL : Clock, JT : JsonText, WT : Wait}.

Lemma only_listDSPAs rt ns : only harmless (listDSPAsInNamespace rt ns).
Proof. unfold listDSPAsInNamespace. only_auto. Qed.
Lemma only_hasV1Alpha1 : only harmless hasV1Alpha1StoredVersion.
Proof. unfold hasV1Alpha1StoredVersion. only_auto. Qed.
Lemma only_capture_dspa r states d : only harmless (capture_dspa r states d).
Proof. unfold capture_dspa, fail_step, record_group. only_auto. Qed.
Lemma only_load path : only harmless (loadPodHealthState path).
Proof. unfold loadPodHealthState. only_auto. Qed.
Lemma only_compare pre : only harmless (comparePodHealth pre).
Proof. unfold comparePodHealth, compare_dspa. only_auto. Qed.
Lemma only_findRoles r : only harmless (findRolesNeedingFix r).
Proof. unfold findRolesNeedingFix, fail_step. only_auto. Qed.
End Quiet.
#[export] Hint Resolve only_listDSPAs only_hasV1Alpha1 only_capture_dspa only_load only_compare only_findRoles : only.

Section QuietTasks.
Context `{AE : ApiErrors, KE : K8sErrors, JQ : GoJq, CL : Clock, JT : JsonText, WT : Wait}.
Lemma only_captureAndSave skip : only harmless (captureAndSavePodHealth true skip).
Proof. unfold captureAndSavePodHealth, capturePodHealth, listDSPAs, fail_step. only_auto. Qed.
Lemma only_migrateAll r : only harmless (migrateAllDSPAsToV1 r true).
Proof. unfold migrateAllDSPAsToV1, listDSPAs, fail_step. only_auto. Qed.
Lemma only_patchRoleForDSPA skip r role d : only harmless (patchRoleForDSPA true skip r role d).
Proof. unfold patchRoleForDSPA, fail_step. cbn [negb andb]. only_auto. Qed.
Lemma only_poll_recovery fuel pre : only harmless (pollForRecovery fuel pre).
Proof.
  induction fuel as [|fuel IH]; cbn [pollForRecovery]; [only_auto|]. unfold comparePodHealthFreshCtx.
  apply only_bind; [by apply only_call|]. intros [].
  - apply only_map_err, only_compare.
  - only_auto.
  - apply only_bind; [apply only_attempt, only_compare|]. intros [e|cs]; [only_auto; exact IH|].
    destruct (negb (hasAnyDegradation cs)); only_auto; exact IH.
Qed.
End QuietTasks.
#[export] Hint Resolve only_captureAndSave only_migrateAll only_patchRoleForDSPA only_poll_recovery : only.

(** *** The order of the migration

    What a monitor of the migration remembers: the applications listed, the
    one last read, those rewritten so far, the last answer to a read of the CRD
    and whether the CRD has been pruned since. *)
Record migration := mkMigration {
  mg_Listed : option (list string);
  mg_Read : option (string * json);
  mg_Done : gset string;
  mg_CRD : option (res go_error json);
  mg_Pruned : bool;
}.
Definition migration_start : migration := mkMigration None None ∅ None false.
Definition is_crd (rt : ResourceType) : bool := String.eqb (rt_Resource rt) "customresourcedefinitions".
Definition item_key (item : json) : string := dspa_key (mkDSPA (GetName item) (GetNamespace item)).

Definition migration_next (t : migration) (c : command) : answer c → migration :=
  match c return answer c → migration with
  | KList rt ns sel => λ x,
      match x with Ok items => mkMigration (Some (map item_key items)) None ∅ (mg_CRD t) (mg_Pruned t) | _ => t end
  | KGet rt ns name => λ x,
      if is_crd rt then mkMigration (mg_Listed t) (mg_Read t) (mg_Done t) (Some x) false
      else
        match x with
        | Ok o => mkMigration (mg_Listed t) (Some (dspa_key (mkDSPA name ns), o)) (mg_Done t) (mg_CRD t) (mg_Pruned t)
        | _ => t
        end
  | KUpdate rt ns obj dry => λ x,
      match x, mg_Read t with
      | Ok _, Some (key, _) => mkMigration (mg_Listed t) None ({[key]} ∪ mg_Done t) (mg_CRD t) (mg_Pruned t)
      | _, _ => t
      end
  | KUpdateStatus rt obj => λ x,
      match x with Ok _ => mkMigration (mg_Listed t) (mg_Read t) (mg_Done t) (mg_CRD t) true | _ => t end
  | _ => λ _, t
  end.
(** All the applications listed have been rewritten. *)
Definition all_rewritten (t : migration) : Prop := ∃ l, mg_Listed t = Some l ∧ ∀ k, k ∈ l → k ∈ mg_Done t.
Definition without_v1alpha1 (l : list json) : list json := List.filter (λ v, negb (is_v1alpha1 v)) l.
Definition migration_allowed `{JQ : GoJq} (t : migration) (c : command) : Prop :=
  match c with
  | KUpdate rt ns obj dry =>
      rt = DataSciencePipelinesApplicationV1 ∧
      ∃ key o l, mg_Read t = Some (key, o) ∧ obj = rewritten o ∧ key ∉ mg_Done t ∧ mg_Listed t = Some l ∧ key ∈ l
  | KUpdateStatus rt obj =>
      rt = CustomResourceDefinition ∧ all_rewritten t ∧
      ∃ crd stored, mg_CRD t = Some (Ok crd) ∧ stored_versions crd = Ok stored ∧
        SetNestedField ["status"; "storedVersions"] (JArr (without_v1alpha1 stored)) crd = Ok obj
  | _ => mutates c = false
  end.

(** What the last read of the CRD says: no stored version is v1alpha1, or
    there is no CRD at all; or the user may not read it. *)
Definition not_stored `{AE : ApiErrors, JQ : GoJq} (t : migration) : Prop :=
  match mg_CRD t with
  | Some (Ok crd) => ∃ stored, stored_versions crd = Ok stored ∧ JStr "v1alpha1" ∉ stored
  | Some (Err e) => IsPermissionError e = false ∧ IsNotFound (errorf_w "getting resource" e) = true
  | _ => False
  end.
Definition crd_unreadable `{AE : ApiErrors} (t : migration) : Prop :=
  ∃ e, mg_CRD t = Some (Err e) ∧ IsPermissionError e = true.

Section MigrationOrder.
Context `{AE : ApiErrors, KE : K8sErrors, JQ : GoJq, CL : Clock, JT : JsonText, WT : Wait}.
Notation spec := (spec migration_allowed migration_next).
Definition same_work (t t' : migration) : Prop := mg_Listed t' = mg_Listed t ∧ mg_Done t' = mg_Done t.

(** The two reads of the CRD. *)
Definition crd_answer (r : res go_error (go_error + option json)) (t : migration) : Prop :=
  match r with
  | Ok (inr (Some crd)) => mg_CRD t = Some (Ok crd)
  | Ok (inr None) => crd_unreadable t
  | Ok (inl err) => IsNotFound err = true → not_stored t
  | _ => True
  end.
Lemma spec_get_crd t (Q : res go_error (go_error + option json) → migration → Prop) :
  (∀ r t', same_work t t' → crd_answer r t' → Q r t') →
  spec t (attempt (GetResource CustomResourceDefinition dspaCRDName "")) Q.
Proof.
  intros HQ. apply spec_attempt. unfold GetResource. apply spec_bind, spec_call; [done|]. intros x. apply spec_lift.
  unfold Get. cbn [srv_get]. destruct x as [o|e|m].
  - by apply HQ.
  - destruct (IsPermissionError e) eqn:He; (apply HQ; [done|]); [by exists e|by split].
  - by apply HQ.
Qed.

Lemma v1alpha1_spec v : is_v1alpha1 v = true ↔ v = JStr "v1alpha1".
Proof. destruct v as [| | |v| |]; cbn [is_v1alpha1]; try done. rewrite String.eqb_eq. by split; [intros ->|intros [= ->]]. Qed.
Lemma no_v1alpha1 (stored : list json) : (∀ v, v ∈ stored → is_v1alpha1 v = false) → JStr "v1alpha1" ∉ stored.
Proof. by intros H Hin%H. Qed.

Lemma spec_hasV1Alpha1 t :
  spec t hasV1Alpha1StoredVersion (λ r t', same_work t t' ∧ (r = Ok false → not_stored t')).
Proof.
  unfold hasV1Alpha1StoredVersion. apply spec_bind, spec_get_crd. intros [[e|[crd|]]|e|m] t' Hw Hc; [..|done|done]; cbn in Hc.
  - destruct (IsNotFound e); [apply spec_ret; split; [done|]; auto|by repeat spec_step].
  - apply spec_bind, spec_map_err, spec_lift. destruct (stored_versions crd) as [stored|e|m] eqn:Hs; [|by repeat spec_step..].
    apply spec_ret. split; [done|]. intros [= Hno]. unfold not_stored. rewrite Hc. exists stored. split; [done|].
    intros Hin. assert (existsb is_v1alpha1 stored = true) by (apply existsb_exists; exists (JStr "v1alpha1"); by rewrite <-list_elem_of_In).
    congruence.
  - by apply spec_ret.
Qed.

(** Nothing is left to prune when filtering removes nothing. *)
Lemma filtered_all (stored : list json) :
  length (without_v1alpha1 stored) = length stored → JStr "v1alpha1" ∉ stored.
Proof.
  intros Hlen (l1 & l2 & ->)%list_elem_of_split. unfold without_v1alpha1 in Hlen.
  rewrite List.filter_app, !length_app in Hlen. cbn [List.filter is_v1alpha1 length] in Hlen. rewrite String.eqb_refl in Hlen.
  cbn [negb length] in Hlen. pose proof (List.filter_length_le (λ v, negb (is_v1alpha1 v)) l1).
  pose proof (List.filter_length_le (λ v, negb (is_v1alpha1 v)) l2). lia.
Qed.

Lemma spec_removeV1Alpha1 t :
  all_rewritten t →
  spec t removeV1Alpha1StoredVersion
    (λ r t', same_work t t' ∧ (r = Ok () → mg_Pruned t' = true ∨ not_stored t' ∨ crd_unreadable t')).
Proof.
  intros (l & Hl & Hall). unfold removeV1Alpha1StoredVersion. apply spec_bind, spec_get_crd.
  intros [[e|[crd|]]|e|m] t' [Hw1 Hw2] Hcrd; [..|done|done]; cbn in Hcrd.
  - destruct (IsNotFound e); [apply spec_ret; split; [done|]; auto|by repeat spec_step].
  - apply spec_bind, spec_map_err, spec_lift. destruct (stored_versions crd) as [stored|e|m] eqn:Hs; [|done..].
    cbn [res_map_err]. fold (without_v1alpha1 stored). destruct (_ =? _)%nat eqn:Hlen.
    { apply spec_ret. split; [done|]. intros _. right. left. unfold not_stored. rewrite Hcrd. exists stored.
      split; [done|]. by apply filtered_all, Nat.eqb_eq. }
    apply spec_bind, spec_map_err, spec_lift. destruct (SetNestedField _ _ crd) as [obj|e|m] eqn:Hset; [|done..].
    cbn [res_map_err]. unfold kUpdateStatus. apply spec_bind, spec_map_err, spec_bind, spec_call.
    + split; [done|]. split; [exists l; split; [congruence|]; rewrite Hw2; exact Hall|]. exists crd, stored. auto.
    + intros x. apply spec_lift. destruct x; [apply spec_ret; split; [done|auto]|done..].
  - apply spec_ret. split; [done|auto].
Qed.

Lemma spec_migrateDSPA t dspa l :
  mg_Listed t = Some l → dspa_key dspa ∈ l → dspa_key dspa ∉ mg_Done t →
  spec t (migrateDSPAToV1 dspa false)
    (λ r t', mg_Listed t' = Some l ∧
             mg_Done t' = match r with Ok _ => {[dspa_key dspa]} ∪ mg_Done t | _ => mg_Done t end).
Proof.
  intros Hl Hin Hnot. unfold migrateDSPAToV1, kGet, kUpdate.
  apply spec_bind, spec_map_err, spec_bind, spec_call; [done|]. intros x. apply spec_lift.
  destruct x as [o|e|m]; [|done..]. cbn [res_map_err migration_next].
  replace (dspa_key (mkDSPA (dspa_Name dspa) (dspa_Namespace dspa))) with (dspa_key dspa) by done.
  apply spec_bind, spec_map_err, spec_bind, spec_call.
  - split; [done|]. by exists (dspa_key dspa), o, l.
  - intros y. apply spec_lift. by destruct y as [o'|e|m]; [apply spec_ret|..].
Qed.

(** One try leaves done what it has rewritten; it reports success only when
    everything listed is done. *)
Lemma spec_migrate_pass t step dspas migrated :
  mg_Listed t = Some (map dspa_key dspas) → mg_Done t = migrated →
  spec t (migrate_pass step dspas migrated)
    (λ r t', match r with
             | Ok (succeeded, migrated') =>
                 mg_Listed t' = Some (map dspa_key dspas) ∧ mg_Done t' = migrated' ∧
                 (succeeded = true → ∀ k, k ∈ map dspa_key dspas → k ∈ migrated')
             | Err _ => False
             | Panic _ => True
             end).
Proof.
  intros Hl Hd. unfold migrate_pass.
  eapply spec_mono; [apply (spec_fold _ _
    (λ past (s : bool * gset string) t, mg_Listed t = Some (map dspa_key dspas) ∧ mg_Done t = s.2 ∧
       (s.1 = true → ∀ d, d ∈ past → dspa_key d ∈ s.2))
    (λ r _, if r is Panic _ then True else False))|].
  - clear t migrated Hl Hd. intros past [ok migrated] t d Hin (Hl & Hd & Hp). cbn [fst snd] in *. unfold migrate_one.
    case_bool_decide as Hk.
    + apply spec_ret. cbn [fst snd]. split; [done|]. split; [done|]. intros Hok d'.
      rewrite elem_of_app, list_elem_of_singleton. intros [?| ->]; auto.
    + apply spec_bind, spec_attempt. eapply spec_mono.
      * apply (spec_migrateDSPA t d _ Hl); [|by rewrite Hd]. apply (list_elem_of_fmap_2 dspa_key), Hin.
      * intros [[]|e|m] t' [Hl' Hd']; [..|done].
        -- apply spec_bind, spec_recordf, spec_ret. cbn [fst snd]. split; [done|]. split; [congruence|].
           intros Hok d'. rewrite elem_of_app, list_elem_of_singleton. intros [Hin'| ->]; [|set_solver].
           apply elem_of_union_r. auto.
        -- apply spec_bind, spec_recordf, spec_ret. cbn [fst snd]. split; [done|]. split; [congruence|done].
  - split; [done|]. split; [done|]. by intros _ d Hin%elem_of_nil.
  - intros [[ok migrated']|e|m] t'; [|done..]. cbn [fst snd]. intros (Hl' & Hd' & Hp). split; [done|]. split; [done|].
    intros Hok k (d & -> & Hin)%list_elem_of_fmap. auto.
Qed.

(** The end of a successful migration: the CRD says that nothing is stored as
    v1alpha1, and nothing was listed; or everything listed is rewritten, and
    v1alpha1 has left the stored versions unless the CRD may not be read. *)
Definition migration_end (r : res go_error ()) (t : migration) : Prop :=
  r = Ok () →
  (mg_Listed t = None ∧ not_stored t) ∨
  (all_rewritten t ∧ (mg_Pruned t = true ∨ not_stored t ∨ crd_unreadable t)).

Lemma spec_migrateAll `{WL : !WaitLaws} recorder dryRun :
  spec migration_start (migrateAllDSPAsToV1 recorder dryRun) (λ r t, dryRun = false → migration_end r t).
Proof.
  unfold migrateAllDSPAsToV1, fail_step. apply spec_bind, spec_child. intros step.
  apply spec_bind, spec_attempt. eapply spec_mono; [apply spec_hasV1Alpha1|].
  intros [[]|e|m] t [[Hl Hd] Hno]; [..|done].
  2: { apply spec_completef. intros _ _. left. auto. }
  2: { by repeat spec_step. }
  apply spec_bind, spec_attempt. unfold listDSPAs, listDSPAsInNamespace, kList.
  apply spec_bind, spec_map_err, spec_bind, spec_call; [done|]. intros x. apply spec_lift.
  destruct x as [items|e|m]; [|by repeat spec_step|done]. cbn [res_map_err migration_next]. apply spec_ret.
  set (dspas := map (λ item, mkDSPA (GetName item) (GetNamespace item)) items).
  assert (map item_key items = map dspa_key dspas) as Hkeys by (unfold dspas; rewrite map_map; done).
  rewrite Hkeys. destruct dspas as [|d ds].
  - apply spec_bind, spec_attempt. destruct dryRun; [by repeat spec_step|]. eapply spec_mono.
    + apply spec_removeV1Alpha1. exists []. split; [done|]. by intros k Hk%elem_of_nil.
    + intros [[]|e|m] t' [[Hl' Hd'] Hend]; [..|done]; repeat spec_step; [|done].
      intros _ _. right. split; [|auto]. exists []. split; [done|]. by intros k Hk%elem_of_nil.
  - apply spec_bind, spec_recordf. destruct dryRun.
    { apply spec_bind. eapply spec_mono; [apply (spec_each _ _ (λ _, True)); [|done]|].
      - intros t' x _ _. by apply spec_recordf.
      - intros [[]|e|m] t' [Hr _]; [by apply spec_completef|done..]. }
    apply spec_bind, spec_attempt. destruct (ExponentialBackoff_retries backoff) as (n & timeout & _ & ->); [simpl; lia|].
    eapply spec_mono; [apply (spec_retry _ _
      (λ migrated t, mg_Listed t = Some (map dspa_key (d :: ds)) ∧ mg_Done t = migrated) (λ _ _, True) _ _ _ _ _
      (λ _ t, all_rewritten t))|].
    + intros migrated t' [Hl' Hd']. eapply spec_mono; [by apply spec_migrate_pass|].
      intros [[[] migrated']|e|m] t''; [|tauto|done|done]. intros (Hl'' & Hd'' & Hp). eexists. split; [exact Hl''|].
      rewrite Hd''. auto.
    + done.
    + by split.
    + intros [s|e|m] t' Ha; [|by repeat spec_step|done]. apply spec_bind, spec_attempt.
      eapply spec_mono; [by apply spec_removeV1Alpha1|]. intros [[]|e|m] t'' [[Hl'' Hd''] Hend]; [..|done]; repeat spec_step; [|done].
      intros _ _. right. split; [|auto]. destruct Ha as (l & Hl' & Hall). exists l. split; [congruence|]. by rewrite Hd''.
Qed.
End MigrationOrder.

(** *** Prompts

    The monitor remembers whether the last prompt was answered with yes, and
    forgets it once a patch has been sent. *)
Definition consent_next (t : bool) (c : command) : answer c → bool :=
  match c return answer c → bool with
  | KReadLine => λ x, confirmed x
  | KPatch _ _ _ _ _ _ => λ _, false
  | _ => λ _, t
  end.
Definition consent_allowed (t : bool) (c : command) : Prop :=
  match c with
  | KPatch rt ns name pt data dry =>
      t = true ∧ rt = Role ∧ pt = JSONPatchType ∧ ∃ dspa verbs, data = patch_ops dspa verbs ∧ verbs ≠ []
  | _ => mutates c = false
  end.

Section Consent.
Context `{AE : ApiErrors, KE : K8sErrors, CL : Clock}.
Notation spec := (spec consent_allowed consent_next).

Lemma allows_patchRoleForDSPA r role d : allows consent_allowed consent_next (patchRoleForDSPA false false r role d).
Proof.
  intros t. unfold patchRoleForDSPA, fail_step, Prompt, kErrOut. apply spec_bind, spec_child. intros step. cbn [negb andb].
  apply spec_bind, spec_bind. apply spec_bind, spec_call; [done|]. intros ?. apply spec_ret.
  apply spec_bind, spec_bind, spec_call; [done|]. intros ?. apply spec_ret.
  apply spec_bind, spec_call; [done|]. intros resp. apply spec_ret. cbn [consent_next].
  destruct (confirmed resp) eqn:Hc; cbn [negb]; [|by apply spec_completef].
  unfold kPatch, kGet. apply spec_bind, spec_attempt, spec_bind, spec_call.
  { split; [done|]. split; [done|]. split; [done|]. eexists _, _. split; [done|].
    unfold inferred_verbs. by destruct (cl_RouteVerbs role). }
  intros patched. apply spec_lift. destruct patched; [|by apply spec_completef|done].
  apply spec_bind, spec_attempt, spec_bind, spec_call; [done|]. intros y. apply spec_lift.
  destruct y; [case_match; by apply spec_completef|by apply spec_completef|done].
Qed.
Lemma allows_patchRole r role : allows consent_allowed consent_next (patchRole false false r role).
Proof.
  intros t. unfold patchRole, listDSPAsInNamespace, kList, fail_step. apply spec_bind, spec_child. intros c.
  apply spec_bind, spec_attempt, spec_bind, spec_map_err, spec_bind, spec_call; [done|]. intros items. apply spec_lift.
  destruct items as [items|e|m]; [|by apply spec_completef|done]. apply spec_ret. case_match; [by apply spec_completef|].
  apply allows_bind; [apply allows_each; intros; apply allows_patchRoleForDSPA|]. intros [] t'. by apply spec_completef.
Qed.
End Consent.

(** *** What the comparison records *)
Section Reports.
Context `{CL : Clock}.

Lemma records_failed_group r current :
  records r (recordFailedPodGroup r current) (pg_PodsFound current = false ∨ ∃ pod, pod ∈ pg_Pods current ∧ pi_Healthy pod = false).
Proof.
  unfold recordFailedPodGroup. destruct (pg_PodsFound current); cbn [negb].
  - eapply records_iff.
    + apply (records_each r _ (λ pod, pi_Healthy pod = false)). intros pod _.
      destruct (pi_Healthy pod); (eapply records_iff; [apply records_recordf|done]).
    + rewrite Exists_exists. naive_solver.
  - eapply records_iff; [apply records_recordf|]. naive_solver.
Qed.

Lemma records_comparison r comp : records r (record_comparison r comp) (pc_Status comp = podGroupFail).
Proof.
  unfold record_comparison. destruct (comparison_line comp) as [status msg] eqn:Hl. eapply records_iff.
  - apply (records_scope r (pc_Prefix comp) msg
      (λ c, if bool_decide (pc_Status comp = podGroupFail) then recordFailedPodGroup c (pc_Current comp) else m_ret ()) status msg
      (pc_Status comp = podGroupFail ∧
       (pg_PodsFound (pc_Current comp) = false ∨ ∃ pod, pod ∈ pg_Pods (pc_Current comp) ∧ pi_Healthy pod = false))).
    intros c. case_bool_decide as Hf; eapply records_iff; [apply records_failed_group|tauto|apply records_ret|tauto].
  - unfold comparison_line in Hl. destruct (pc_Status comp); injection Hl as <- _; naive_solver.
Qed.

Lemma hasAnyDegradation_iff comparisons :
  hasAnyDegradation comparisons = true ↔ ∃ c, c ∈ comparisons ∧ pc_Status c = podGroupFail.
Proof.
  unfold hasAnyDegradation. rewrite existsb_exists. setoid_rewrite list_elem_of_In. setoid_rewrite bool_decide_eq_true. done.
Qed.

Lemma records_comparisons comparisons : records root (recordComparisons comparisons) (hasAnyDegradation comparisons = true).
Proof.
  intros h Hok Hr. unfold recordComparisons.
  destruct (records_scope root "comparison" "Pre vs Post-Upgrade Comparison" (λ c, m_each (record_comparison c) comparisons)
    (if hasAnyDegradation comparisons then StepFailed else StepCompleted)
    (if hasAnyDegradation comparisons then "One or more DSPA pods degraded compared to pre-upgrade state"
     else "All DSPA pods are in an equal or better state than before upgrade")
    (Exists (λ c, pc_Status c = podGroupFail) comparisons)) with (h := h) as (h' & Hm & Hg); [|done..|].
  - intros c. apply records_each. intros x _. apply records_comparison.
  - exists h'. split.
    + rewrite <-Hm. destruct (hasAnyDegradation comparisons); reflexivity.
    + revert Hg. apply grows_iff. rewrite Exists_exists, <-hasAnyDegradation_iff. destruct (hasAnyDegradation comparisons); naive_solver.
Qed.
End Reports.

(** *** The comparison over a cluster that answers *)
Section Comparison.
Context `{JQ : GoJq, CL : Clock, JT : JsonText} {S : Type} (env : ∀ c, S → answer c * S).
Context (pods : string → list json) (ticks : S → nat).
(** Pods are listed without errors; the ticker fires a bounded number of
    times before the deadline or the end of the context. *)
Hypothesis listing : ∀ ns s, (env (KList Pod ns "") s).1 = Ok (pods ns).
Hypothesis no_later : ∀ c s, (ticks (env c s).2 ≤ ticks s)%nat.
Hypothesis ticking : ∀ s, (env KSelect s).1 = Ticked → (ticks (env KSelect s).2 < ticks s)%nat.

Definition compared (d : DSPAState) : list podGroupComparison :=
  map (λ g, mkComparison (ds_Name d) (ds_Namespace d) (pg_Prefix g)
        (group_verdict (getPodGroup (pods (ds_Namespace d)) (pg_Prefix g)) g) (getPodGroup (pods (ds_Namespace d)) (pg_Prefix g)))
      (ds_PodGroups d).
Definition comparisons_of (pre : PodHealthState) : list podGroupComparison := concat (map compared (ph_DSPAs pre)).

Lemma runs_compare pre h s : ∃ s', runs env (comparePodHealth pre) h s (comparisons_of pre) h s' ∧ (ticks s' ≤ ticks s)%nat.
Proof using listing no_later.
  unfold comparePodHealth, comparisons_of.
  assert (∀ ds acc s, ∃ s', runs env (m_fold compare_dspa ds acc) h s (acc ++ concat (map compared ds))%list h s' ∧ (ticks s' ≤ ticks s)%nat)
    as Hgo; [|apply (Hgo (ph_DSPAs pre) [] s)].
  intros ds. induction ds as [|d ds IH]; intros acc s0; cbn [m_fold map concat].
  - exists s0. split; [|done]. rewrite app_nil_r. apply runs_ret.
  - destruct (IH (acc ++ compared d)%list (env (KList Pod (ds_Namespace d) "") s0).2) as (s' & Hr & Ht).
    exists s'. rewrite (assoc_L (++)%list). split; [|pose proof (no_later (KList Pod (ds_Namespace d) "") s0); lia].
    eapply ends_bind; [|exact Hr]. unfold compare_dspa, kList.
    eapply ends_bind; [|apply runs_ret].
    pose proof (ends_lifted env (KList Pod (ds_Namespace d) "") (λ x, x) h s0) as Hl. rewrite listing in Hl.
    apply (ends_map_err env (errorf_w ("listing pods in " +:+ ds_Namespace d))) in Hl. exact Hl.
Qed.

(** Whether a group that was healthy is not any more. *)
Definition degraded (pre : PodHealthState) : Prop :=
  ∃ d g, d ∈ ph_DSPAs pre ∧ g ∈ ds_PodGroups d ∧ pg_AllHealthy g = true ∧
    pg_AllHealthy (getPodGroup (pods (ds_Namespace d)) (pg_Prefix g)) = false.

Lemma comparisons_degraded pre : hasAnyDegradation (comparisons_of pre) = true ↔ degraded pre.
Proof using.
  rewrite hasAnyDegradation_iff. unfold comparisons_of, degraded. split.
  - intros (c & Hc & Hs). apply list_elem_of_In, in_concat in Hc as (l & Hl & Hc). apply in_map_iff in Hl as (d & <- & Hd).
    apply in_map_iff in Hc as (g & <- & Hg). cbn [pc_Status] in Hs. exists d, g. rewrite !list_elem_of_In.
    unfold group_verdict in Hs. do 2 (split; [done|]). repeat case_match; done.
  - intros (d & g & Hd & Hg & Hpre & Hcur). eexists. split.
    + apply list_elem_of_In, in_concat. exists (compared d). split; [by apply in_map, list_elem_of_In|].
      apply in_map_iff. exists g. split; [done|by apply list_elem_of_In].
    + cbn [pc_Status]. unfold group_verdict. by rewrite Hpre, Hcur.
Qed.

(** Enough fuel for the ticks to come: the loop ends, with the comparison. *)
Lemma runs_poll fuel pre h s :
  (ticks s < fuel)%nat → ∃ s', runs env (pollForRecovery fuel pre) h s (comparisons_of pre) h s'.
Proof using listing no_later ticking.
  revert s. induction fuel as [|fuel IH]; intros s Hf; [lia|]. cbn [pollForRecovery].
  destruct (env KSelect s).1 eqn:Hsel.
  - destruct (runs_compare pre h (env KSelect s).2) as (s' & Hr & _). exists s'. eapply ends_bind; [apply runs_call|].
    rewrite Hsel. apply (ends_map_err env (errorf_w "final comparison after context cancellation")) in Hr. exact Hr.
  - destruct (runs_compare pre h
      (env (KErrOut ("Wait timeout reached (" +:+ postUpgradeTimeout +:+ "). Running final comparison..." +:+ newline))
        (env KSelect s).2).2) as (s' & Hr & _).
    exists s'. eapply ends_bind; [apply runs_call|]. rewrite Hsel. eapply ends_bind; [apply runs_err_out|].
    apply (ends_map_err env (errorf_w "final comparison after timeout")) in Hr. exact Hr.
  - pose proof (ticking s Hsel) as Ht. destruct (runs_compare pre h (env KSelect s).2) as (s1 & Hr & Hle).
    apply ends_attempt in Hr. destruct (negb (hasAnyDegradation (comparisons_of pre))) eqn:Hd.
    + eexists. eapply ends_bind; [apply runs_call|]. rewrite Hsel. eapply ends_bind; [exact Hr|]. cbv beta iota. rewrite Hd.
      eapply ends_bind; [apply runs_err_out|apply runs_ret].
    + destruct (IH (env (KErrOut ("Not yet fully recovered, retrying..." +:+ newline)) s1).2) as (s' & Hr').
      { pose proof (no_later (KErrOut ("Not yet fully recovered, retrying..." +:+ newline)) s1). lia. }
      exists s'. eapply ends_bind; [apply runs_call|]. rewrite Hsel. eapply ends_bind; [exact Hr|]. cbv beta iota. rewrite Hd.
      eapply ends_bind; [apply runs_err_out|exact Hr'].
Qed.

(** *** The steps of the check *)
Definition opened : heap := (Child NewRootRecorder root "load-state" "Load pre-upgrade state").1.
Definition loaded (pre : PodHealthState) : heap :=
  Completef opened 1%nat StepCompleted ("Loaded state captured at " +:+ ph_CapturedAt pre).

Lemma ends_load data pre s :
  (∀ s, (env (KReadFile defaultStatePath) s).1 = Ok data) → res_bind (json_Parse data) decode_state = Ok pre →
  ends env (loadPodHealthState defaultStatePath) opened s (Ok pre) opened (env (KReadFile defaultStatePath) s).2.
Proof using.
  intros Hfile Hpre. unfold loadPodHealthState, kReadFile. eapply ends_bind.
  - pose proof (ends_lifted env (KReadFile defaultStatePath) (λ x, x) opened s) as Hk. rewrite Hfile in Hk.
    apply (ends_map_err env (errorf_w ("reading state from " +:+ defaultStatePath))) in Hk. exact Hk.
  - rewrite Hpre. apply (ends_map_err env (errorf_w ("unmarshaling state from " +:+ defaultStatePath)) _ _ _ (Ok pre)), ends_lift.
Qed.

(** After the load, code that records [F] gives the result that says so. *)
Lemma ends_report pre (m : M ()) F s :
  records root m F → ∃ r h', ends env (m ;; built None) (loaded pre) s (Ok (Some r, None)) h' s ∧ (HasFailedSteps r = true ↔ F).
Proof using.
  intros Hm. assert (length (loaded pre) = 2%nat) as Hlen by (unfold loaded, Completef; by rewrite length_alter).
  destruct (records_report root m F (loaded pre) Hm) as (h' & Hh' & HF).
  { apply heap_ok_Completef, heap_ok_Child; [simpl; unfold root; lia|apply heap_ok_root]. }
  { unfold root. lia. }
  exists (Build h'), h'. split.
  - eapply ends_bind; [by apply runs_pure|]. by exists [].
  - rewrite HF. assert (HasFailedSteps (Build (loaded pre)) = false) as -> by reflexivity. naive_solver.
Qed.

Lemma ends_after_load fuel pre s :
  (ticks s < fuel)%nat →
  ∃ r h' s', ends env (check_against fuel pre) (loaded pre) s (Ok (Some r, None)) h' s' ∧
    (HasFailedSteps r = true ↔ hasAnyDegradation (comparisons_of pre) = true).
Proof using listing no_later ticking.
  intros Hfuel. unfold check_against. destruct (ph_DSPAs pre) as [|d ds] eqn:Hds.
  { destruct (ends_report pre _ _ s (records_recordf root "no-dspas" "No DSPAs were tracked pre-upgrade" StepCompleted))
      as (r & h' & He & HF). exists r, h', s. split; [exact He|]. rewrite HF. unfold comparisons_of. by rewrite Hds. }
  destruct (runs_compare pre (loaded pre) s) as (s1 & Hc & Hle). apply ends_attempt in Hc.
  destruct (hasAnyDegradation (comparisons_of pre)) eqn:Hd.
  - set (wait := "Degradation detected. Waiting up to " +:+ postUpgradeTimeout +:+ " for pods to recover..." +:+ newline).
    destruct (runs_poll fuel pre (loaded pre) (env (KErrOut wait) s1).2) as (s2 & Hp).
    { pose proof (no_later (KErrOut wait) s1). lia. }
    apply ends_attempt in Hp. destruct (ends_report pre _ _ s2 (records_comparisons (comparisons_of pre))) as (r & h' & He & HF).
    exists r, h', s2. split; [|by rewrite HF, Hd]. eapply ends_bind; [exact Hc|]. cbv beta iota. rewrite Hd. cbn [negb].
    eapply ends_bind; [apply runs_err_out|]. eapply ends_bind; [exact Hp|]. exact He.
  - destruct (ends_report pre _ _ s1 (records_comparisons (comparisons_of pre))) as (r & h' & He & HF).
    exists r, h', s1. split; [|by rewrite HF, Hd]. eapply ends_bind; [exact Hc|]. cbv beta iota. rewrite Hd. exact He.
Qed.
End Comparison.

(** *** The saved state *)
Section RoundTrip.
Context `{JT : JsonText}.

Lemma decode_all_map {A} (enc : A → json) (dec : json → res go_error A) l :
  (∀ a, dec (enc a) = Ok a) → decode_all dec (map enc l) = Ok l.
Proof. intros Hd. induction l as [|a l IH]; [done|]. cbn [map decode_all]. by rewrite Hd, IH. Qed.
Lemma decode_pod_encode p : decode_pod (encode_pod p) = Ok p.
Proof. by destruct p. Qed.
Lemma decode_group_encode g : decode_group (encode_group g) = Ok g.
Proof.
  destruct g as [x f a ps].
  change (decode_group _) with (res_bind (res_bind (decode_all decode_pod (map encode_pod ps)) (λ l, Ok (mkPodGroup x f a l)))
    (λ g : PodGroup, Ok g)).
  by rewrite (decode_all_map encode_pod decode_pod ps decode_pod_encode).
Qed.
Lemma decode_dspa_encode d : decode_dspa (encode_dspa d) = Ok d.
Proof.
  destruct d as [n ns gs].
  change (decode_dspa _) with (res_bind (res_bind (decode_all decode_group (map encode_group gs)) (λ l, Ok (mkDSPAState n ns l)))
    (λ d : DSPAState, Ok d)).
  by rewrite (decode_all_map encode_group decode_group gs decode_group_encode).
Qed.
Lemma decode_state_encode s : decode_state (encode_state s) = Ok s.
Proof.
  destruct s as [at_ ds].
  change (decode_state _) with (res_bind (res_bind (decode_all decode_dspa (map encode_dspa ds)) (λ l, Ok (mkPodHealth at_ l)))
    (λ s : PodHealthState, Ok s)).
  by rewrite (decode_all_map encode_dspa decode_dspa ds decode_dspa_encode).
Qed.
End RoundTrip.

Lemma runs_save `{JT : JsonText} state paths data h files :
  json_MarshalIndent (encode_state state) = Ok data →
  ∃ files', runs ClusterRun.disk (savePodHealthState state paths) h files () h files' ∧
    ∀ p, p ∈ paths ∨ files !! p = Some data → files' !! p = Some data.
Proof.
  intros Hdata. unfold savePodHealthState. rewrite Hdata.
  assert (∀ files, ∃ files', runs ClusterRun.disk (m_each (λ p,
    try* _u := kMkdirAll (path_Dir p) else errorf_w ("creating directory " +:+ path_Dir p) in
    try* _v := kWriteFile p data else errorf_w ("writing state to " +:+ p) in m_ret ()) paths) h files () h files' ∧
    ∀ p, p ∈ paths ∨ files !! p = Some data → files' !! p = Some data) as Hgo.
  2: { destruct (Hgo files) as (files' & Hr & Hf). exists files'. split; [|exact Hf].
       eapply ends_bind; [by apply runs_pure|exact Hr]. }
  induction paths as [|p paths IH]; intros fs.
  - exists fs. split; [apply runs_ret|]. by intros q [Hq%elem_of_nil|?].
  - destruct (IH (<[p := data]> fs)) as (files' & Hr & Hf). exists files'. split.
    + eapply ends_bind; [|exact Hr]. by eexists.
    + intros q Hq. apply Hf. rewrite lookup_insert. case_decide; [by right|]. set_solver.
Qed.

(** *** Rules and the patch *)
Lemma dspa_rule_grants dspa verbs : grants_api (dspa_rule dspa verbs).
Proof.
  split; [done|]. split; (eexists; split; [|by left]); cbn; by left.
Qed.
(** A rule appended to the rules of a Role. *)
Definition with_rule (value : json) (fields : list (string * json)) (rules : list json) : json :=
  JObj (with_key "rules" (JArr (rules ++ [value])) fields).
Lemma with_rule_classified value fields rules :
  grants_api value → cl_NeedsFix (ClassifyRole (with_rule value fields rules)) = false.
Proof.
  intros Hg. unfold ClassifyRole. repeat (case_match; [done|]). unfold with_rule, nested.
  pose proof (field_with_key "rules" "rules" (JArr (rules ++ [value])) fields) as Hf. unfold field in Hf.
  destruct (find _ (with_key _ _ fields)) as [[k v]|]; [|done]. simpl in Hf. injection Hf as ->. cbn [snd].
  destruct (rules_spec (rules ++ [value]) false false [] (NoDup_nil_2)) as (_ & H2 & _).
  destruct (foldl rule_step _ _) as [[route dspa] verbs]. cbn [fst snd cl_NeedsFix] in *.
  rewrite (proj2 H2); [by rewrite andb_false_r|]. right. apply Exists_app. right. by constructor.
Qed.

(** ** Concrete runs *)
Module PipelineRun.
Definition meta (ns name : string) : string * json := ("metadata", JObj [("namespace", JStr ns); ("name", JStr name)]).
Definition pod (name phase ready : string) : json :=
  JObj [meta "team" name;
        ("status", JObj [("phase", JStr phase); ("conditions", JArr [JObj [("type", JStr "Ready"); ("status", JStr ready)]])])].
Definition crd (versions : list string) : json :=
  JObj [meta "" dspaCRDName; ("status", JObj [("storedVersions", JArr (map JStr versions))])].
Definition dspa (name : string) : json := JObj [meta "team" name; ("spec", JObj [])].

(** Two applications; the first update fails once.  The state counts the
    updates sent. *)
Definition flaky (c : command) (updates : nat) : answer c * nat :=
  match c return answer c * nat with
  | KList rt _ _ => (if is_crd rt then Ok [] else Ok [dspa "a"; dspa "b"], updates)
  | KGet rt _ name => (Ok (if is_crd rt then crd ["v1alpha1"; "v1"] else dspa name), updates)
  | KUpdate _ _ obj _ => (match updates with O => Err (EString "conflict") | _ => Ok obj end, S updates)
  | c => (ClusterRun.idle c, updates)
  end.

(** An API server with one Role, to which a JSON patch that appends a rule is
    applied. *)
Definition role_server (c : command) (role : json) : answer c * json :=
  match c return answer c * json with
  | KGet _ _ _ => (Ok role, role)
  | KPatch _ _ _ _ (JArr [JObj [_; _; (_, value)]]) false =>
      match role with
      | JObj fields =>
          match field "rules" role with
          | Some (JArr rules) => (Ok (with_rule value fields rules), with_rule value fields rules)
          | _ => (Err (EString "doc is missing path: /rules/-"), role)
          end
      | _ => (Err (EString "doc is not an object"), role)
      end
  | c => (ClusterRun.idle c, role)
  end.

(** The state file of one application whose two groups were healthy, and pods
    that are not any more; the ticker fires as often as the state says. *)
Definition healthy (prefix : string) : PodGroup := mkPodGroup prefix true true [mkPodInfo (prefix +:+ "-0") "Running" "True" true].
Definition before : PodHealthState :=
  mkPodHealth "2025-01-01T00:00:00Z" [mkDSPAState "sample" "team" [healthy "ds-pipeline-sample"; healthy "mariadb-sample"]].
Definition after (ns : string) : list json := [pod "ds-pipeline-sample-1" "Running" "True"; pod "mariadb-sample-1" "Pending" "False"].
Definition upgraded (c : command) (ticks : nat) : answer c * nat :=
  match c return answer c * nat with
  | KReadFile _ => (json_MarshalIndent (JsonText := ClusterRun.binary_JsonText) (encode_state before), ticks)
  | KList _ ns _ => (Ok (after ns), ticks)
  | KSelect => match ticks with O => (DeadlineFired, O) | S n => (Ticked, n) end
  | c => (ClusterRun.idle c, ticks)
  end.
Lemma upgraded_no_later c s : ((upgraded c s).2 ≤ s)%nat.
Proof. destruct c; simpl; try lia; destruct s; simpl; lia. Qed.
Lemma upgraded_ticking s : (upgraded KSelect s).1 = Ticked → ((upgraded KSelect s).2 < s)%nat.
Proof. destruct s; simpl; [done|lia]. Qed.
End PipelineRun.
Import (hints) ClientRun VersionRun ClusterRun.

(** ** Properties *)
Module PipelineActionsSpec.
Section Statements.
Context `{AE : ApiErrors, KE : K8sErrors, JQ : GoJq, CL : Clock, JT : JsonText, WT : Wait}.

(** A dry run of the three actions, their preparation and their validations
    send nothing that changes the cluster and write nothing to the disk,
    whatever the environment answers. *)
Theorem pipeline_dry_run_is_harmless {S} (env : ∀ c, S → answer c * S) s skipConfirm fuel :
  let quiet (m : M execution) := Forall (λ e, harmless (projT1 e)) (transcript env (m NewRootRecorder) s) in
  quiet (preUpgradeCheckPrepareTask_Execute true) ∧ quiet preUpgradeCheckPrepareTask_Validate ∧
  quiet (preUpgradeCheckRunTask_Execute true) ∧ quiet preUpgradeCheckRunTask_Validate ∧
  quiet (updateDSPRoleRunTask_Execute true skipConfirm) ∧ quiet updateDSPRoleRunTask_Validate ∧
  quiet updateDSPRolePrepareTask_Execute ∧ quiet updateDSPRolePrepareTask_Validate ∧
  quiet (postUpgradeCheckRunTask_Execute fuel) ∧ quiet postUpgradeCheckRunTask_Validate.
Proof.
  intros quiet. assert (∀ m, only harmless m → quiet m) as Hq by (intros m Hm; apply asks_only_transcript, Hm).
  unfold preUpgradeCheckPrepareTask_Validate, updateDSPRolePrepareTask_Validate, updateDSPRolePrepareTask_Execute,
    preUpgradeCheckPrepareTask_Execute, preUpgradeCheckRunTask_Execute, preUpgradeCheckRunTask_Validate, updateDSPRoleRunTask_Execute,
    updateDSPRoleRunTask_Validate, updateDSPRole_scan, postUpgradeCheckRunTask_Execute, check_against, postUpgradeCheckRunTask_Validate,
    discover, ignore, recordComparisons, record_comparison, recordFailedPodGroup, patchRole, fail_step.
  repeat split; apply Hq; only_auto.
Qed.

(** C4: Before v1alpha1 leaves the stored versions of the CRD, every application
    listed has been read and sent back without the fields of the server; none
    is sent twice once the server has accepted it, and nothing else is changed:
    an object stored as v1alpha1 is never orphaned, whatever fails on the way.
    A run that reports success has listed nothing only when the CRD showed no
    v1alpha1 (or there is no CRD); otherwise everything listed is rewritten and
    either the server has accepted the CRD without v1alpha1, or the CRD, read
    again, has none.  One exception is the code's: a user who may not read the
    CRD still gets success, with the applications rewritten and the CRD left
    as it is. *)
Theorem migration_rewrites_before_pruning `{WL : !WaitLaws} {S} (env : ∀ c, S → answer c * S) s recorder dryRun h :
  let p := migrateAllDSPAsToV1 recorder dryRun h in
  let t := observe migration_next migration_start (transcript env p s) in
  accepts migration_allowed migration_next migration_start (transcript env p s) ∧
  (dryRun = false → ∀ h', result_of env p s = Some (Ok (), h') →
     (mg_Listed t = None ∧ not_stored t) ∨
     (all_rewritten t ∧ (mg_Pruned t = true ∨ not_stored t ∨ crd_unreadable t))).
Proof.
  cbv zeta. destruct (obeys_exec _ _ env _ _ _ s (spec_migrateAll recorder dryRun h)) as [Ha Hq].
  split; [exact Ha|]. intros Hd h' Hr. exact (Hq _ Hr Hd eq_refl).
Qed.

(** Interactively, a Role is only patched after the user has said yes to this
    very patch, and a patch only appends a rule for one application with some
    verb. *)
Theorem roles_patched_with_consent {S} (env : ∀ c, S → answer c * S) s h :
  accepts consent_allowed consent_next false (transcript env (updateDSPRoleRunTask_Execute false false h) s).
Proof.
  eapply obeys_exec with (Q := λ _ _, True).
  assert (spec consent_allowed consent_next false (updateDSPRoleRunTask_Execute false false) (λ _ _, True)) as Hs;
    [|eapply obeys_mono; [apply Hs|done]].
  unfold updateDSPRoleRunTask_Execute, findRolesNeedingFix, built, fail_step.
  apply spec_bind, spec_attempt, spec_bind, spec_child. intros step. apply spec_bind, spec_call; [done|]. intros listed.
  destruct (FindRolesNeedingFix (λ _, listed)) as [[|r rs]|e|m].
  1, 3, 4: by repeat (spec_step; try done).
  apply spec_bind. eapply spec_mono; [apply (spec_each _ _ (λ _, True)); [|done]|].
  { intros t x _ _. by apply spec_recordf. }
  intros [[]|e|m] t [Hr _]; [|done..]. apply spec_bind, spec_completef, spec_ret.
  apply spec_bind, spec_child. intros patchStep. apply allows_bind.
  - apply allows_each. intros x. apply allows_patchRole.
  - intros [] t'. by repeat spec_step.
Qed.

(** A Role with a list of rules, whatever they are: after the patch its
    re-read copy passes the classifier, so the step completes, and the Role has
    one more rule that grants the subresource to this one application. *)
Theorem patched_role_is_validated fields rules recorder role dspa h :
  field "rules" (JObj fields) = Some (JArr rules) → heap_ok h → (recorder < length h)%nat →
  let verbs := inferred_verbs role in
  ∃ h', runs PipelineRun.role_server (patchRoleForDSPA false true recorder role dspa) h (JObj fields) () h'
          (with_rule (dspa_rule (dspa_Name dspa) verbs) fields rules) ∧
    has_done h' StepCompleted (length h) ∧
    ∃ f, grants_api (dspa_rule (dspa_Name dspa) verbs) ∧
      field "rules" (with_rule (dspa_rule (dspa_Name dspa) verbs) fields rules) = Some (JArr (rules ++ [f])) ∧
      nested ["resourceNames"] f = Some (JArr [JStr (dspa_Name dspa)]).
Proof.
  intros Hf Hok Hr verbs. destruct (Child h recorder ("add-rule-" +:+ dspa_Name dspa)
    ("Add datasciencepipelinesapplications/api rule for DSPA " +:+ dspa_Name dspa)) as [h1 c] eqn:Hc.
  assert (c = length h) as -> by (unfold Child in Hc; by injection Hc as _ <-).
  assert (heap_ok h1 ∧ length h1 = Datatypes.S (length h)) as [Hok1 Hl1].
  { change h1 with (h1, length h).1. rewrite <-Hc. split; [by apply heap_ok_Child|apply length_Child]. }
  pose proof (ho_root h Hok) as [n Hroot]. apply lookup_lt_Some in Hroot.
  eexists. split; [|split].
  - eexists. unfold patchRoleForDSPA, child. unfold m_bind at 1. rewrite Hc. cbn [prog_bind fst snd negb andb].
    cbn -[ClassifyRole with_rule field completef length]. cbn [PipelineRun.role_server]. rewrite Hf.
    cbn -[ClassifyRole with_rule completef length]. rewrite with_rule_classified by apply dspa_rule_grants. reflexivity.
  - apply has_done_Completef; [done|lia|by left].
  - exists (dspa_rule (dspa_Name dspa) verbs). split; [apply dspa_rule_grants|]. split; [|done].
    unfold with_rule. by rewrite field_with_key.
Qed.

(** The verdict on every group tracked before the upgrade, in order; the
    check sees a degradation iff a group whose pods were all running and ready
    now has none, or one that is not running and ready. *)
Theorem comparePodHealth_exact {S} (env : ∀ c, S → answer c * S) (pods : string → list json) pre h s :
  (∀ ns s, (env (KList Pod ns "") s).1 = Ok (pods ns)) →
  let now_healthy d g :=
    (∃ pod, pod ∈ pods (ds_Namespace d) ∧ has_prefix (pg_Prefix g) (GetName pod) = true) ∧
    ∀ pod, pod ∈ pods (ds_Namespace d) → has_prefix (pg_Prefix g) (GetName pod) = true → pi_Healthy (pod_info pod) = true in
  ∃ cs, result_of env (comparePodHealth pre h) s = Some (Ok cs, h) ∧
    map pc_Prefix cs = concat (map (λ d, map pg_Prefix (ds_PodGroups d)) (ph_DSPAs pre)) ∧
    (hasAnyDegradation cs = true ↔
       ∃ d g, d ∈ ph_DSPAs pre ∧ g ∈ ds_PodGroups d ∧ pg_AllHealthy g = true ∧ ¬ now_healthy d g).
Proof.
  intros Hl now_healthy. destruct (runs_compare env pods (λ _, 0%nat) Hl ltac:(done) pre h s) as (s' & Hr & _).
  eexists. split; [by eapply ends_result|]. split.
  - unfold comparisons_of. rewrite concat_map, map_map. f_equal. apply map_ext. intros d. unfold compared. by rewrite map_map.
  - rewrite comparisons_degraded. unfold degraded, now_healthy. setoid_rewrite <-getPodGroup_healthy.
    setoid_rewrite not_true_iff_false. done.
Qed.

(** The post-upgrade check: with a readable state file and pods that can be
    listed it returns a result, polling no longer than the deadline lets it,
    and the result has a failed step iff a group has degraded. *)
Theorem postUpgradeCheck_reports_degradation {S} (env : ∀ c, S → answer c * S) pods ticks data pre fuel s :
  (∀ ns s, (env (KList Pod ns "") s).1 = Ok (pods ns)) →
  (∀ c s, (ticks (env c s).2 ≤ ticks s)%nat) →
  (∀ s, (env KSelect s).1 = Ticked → (ticks (env KSelect s).2 < ticks s)%nat) →
  (∀ s, (env (KReadFile defaultStatePath) s).1 = Ok data) → res_bind (json_Parse data) decode_state = Ok pre →
  (ticks s < fuel)%nat →
  ∃ r h', result_of env (postUpgradeCheckRunTask_Execute fuel NewRootRecorder) s = Some (Ok (Some r, None), h') ∧
    (HasFailedSteps r = true ↔ degraded pods pre).
Proof.
  intros Hl Hlater Htick Hfile Hpre Hfuel. setoid_rewrite <-(comparisons_degraded pods pre).
  set (s0 := (env (KReadFile defaultStatePath) s).2).
  destruct (ends_after_load env pods ticks Hl Hlater Htick fuel pre s0) as (r & h' & s' & Hend & HF).
  { pose proof (Hlater (KReadFile defaultStatePath) s) as H0. fold s0 in H0. lia. }
  pose proof (ends_attempt env _ _ _ _ _ _ (ends_load env data pre s Hfile Hpre)) as Hload. cbv beta iota in Hload.
  exists r, h'. split; [|exact HF]. eapply ends_result, ends_bind; [by apply runs_pure|]. eapply ends_bind; [exact Hload|].
  apply (ends_bind _ _ _ _ _ () (loaded pre) s0 _ _ _ (runs_pure _ _ _ _ _ _ eq_refl) Hend).
Qed.

(** What is saved before the upgrade is what is loaded after it, from each of
    the paths it was written to. *)
Theorem saved_state_is_loaded `{JTL : !JsonTextLaws} state paths p files h :
  p ∈ paths →
  result_of ClusterRun.disk ((savePodHealthState state paths ;; loadPodHealthState p) h) files = Some (Ok state, h).
Proof.
  intros Hp. destruct (json_MarshalIndent_parse (encode_state state)) as (data & Hdata & Hparse).
  destruct (runs_save state paths data h files Hdata) as (files' & Hr & Hf).
  assert (ends ClusterRun.disk (loadPodHealthState p) h files' (Ok state) h files') as He.
  { eexists. unfold loadPodHealthState, kReadFile. cbn -[decode_state json_Parse]. rewrite (Hf p (or_introl Hp)).
    cbn -[decode_state json_Parse]. rewrite Hparse. cbn [res_bind]. rewrite decode_state_encode. reflexivity. }
  eapply ends_result, ends_bind; [exact Hr|exact He].
Qed.
End Statements.

(** *** Witnesses *)
#[local] Instance witness_clock : Clock := { now := 0 }.
Notation api := ClientRun.api.
Notation k8s := ClientRun.k8s.

(** Three updates: the first one fails, is retried, and the CRD is pruned at
    the end. *)
Definition migration_run : list exchange :=
  transcript PipelineRun.flaky (migrateAllDSPAsToV1 (AE := api) (JQ := VersionRun.path_jq) (WT := ClusterRun.steps_Wait)
    0%nat false NewRootRecorder) 0%nat.
Lemma migration_rewrites_before_pruning_witness :
  let t := observe migration_next migration_start migration_run in
  accepts (migration_allowed (JQ := VersionRun.path_jq)) migration_next migration_start migration_run ∧
  (all_rewritten t ∧ (mg_Pruned t = true ∨ not_stored (AE := api) (JQ := VersionRun.path_jq) t ∨ crd_unreadable (AE := api) t)) ∧
  length (List.filter (λ e : exchange, mutates (projT1 e)) migration_run) = 4%nat ∧
  elements (mg_Done t) = ["team/a"; "team/b"] ∧ mg_Pruned t = true.
Proof.
  destruct (migration_rewrites_before_pruning (AE := api) (JQ := VersionRun.path_jq)
    (WL := ClusterRun.steps_laws) PipelineRun.flaky 0%nat 0%nat false NewRootRecorder) as [Ha Hend].
  split; [exact Ha|]. split; [|vm_compute; repeat split; reflexivity].
  edestruct (Hend eq_refl) as [[Hl _]|H]; [vm_compute; reflexivity|vm_compute in Hl; discriminate Hl|exact H].
Defined.

Lemma patched_role_is_validated_witness :
  ∃ h', has_done h' StepCompleted 1%nat ∧
    runs PipelineRun.role_server (patchRoleForDSPA false true 0%nat
      (ClassifyRole (AIPipelinesRun.role "team" "custom" [AIPipelinesRun.routes])) (mkDSPA "a" "team")) NewRootRecorder
      (AIPipelinesRun.role "team" "custom" [AIPipelinesRun.routes]) () h'
      (AIPipelinesRun.role "team" "custom" [AIPipelinesRun.routes; dspa_rule "a" ["get"; "list"]]).
Proof.
  destruct (patched_role_is_validated
    [PipelineRun.meta "team" "custom"; ("rules", JArr [AIPipelinesRun.routes])] [AIPipelinesRun.routes] 0%nat
    (ClassifyRole (AIPipelinesRun.role "team" "custom" [AIPipelinesRun.routes])) (mkDSPA "a" "team") NewRootRecorder
    eq_refl heap_ok_root ltac:(simpl; lia)) as (h' & Hr & Hd & _).
  exists h'. split; [exact Hd|exact Hr].
Defined.

Lemma comparePodHealth_exact_witness :
  ∃ cs, result_of PipelineRun.upgraded (comparePodHealth PipelineRun.before NewRootRecorder) 0%nat = Some (Ok cs, NewRootRecorder) ∧
    map pc_Status cs = [podGroupOK; podGroupFail].
Proof.
  destruct (comparePodHealth_exact PipelineRun.upgraded PipelineRun.after PipelineRun.before NewRootRecorder 0%nat ltac:(done))
    as (cs & Hr & _).
  exists cs. split; [exact Hr|]. assert (Hc : Some (Ok cs, NewRootRecorder) = result_of PipelineRun.upgraded
    (comparePodHealth PipelineRun.before NewRootRecorder) 0%nat) by (symmetry; exact Hr).
  vm_compute in Hc. injection Hc as ->. reflexivity.
Defined.

Lemma postUpgradeCheck_reports_degradation_witness :
  ∃ r h', result_of PipelineRun.upgraded (postUpgradeCheckRunTask_Execute (JT := ClusterRun.binary_JsonText) 9 NewRootRecorder) 8%nat =
      Some (Ok (Some r, None), h') ∧ HasFailedSteps r = true.
Proof.
  destruct (postUpgradeCheck_reports_degradation (JT := ClusterRun.binary_JsonText) PipelineRun.upgraded PipelineRun.after (λ n, n)
    (ClusterRun.bits (encode (ClusterRun.json_tree (encode_state PipelineRun.before)))) PipelineRun.before 9 8%nat ltac:(done) PipelineRun.upgraded_no_later PipelineRun.upgraded_ticking
    ltac:(done)) as (r & h' & Hr & HF); [vm_compute; reflexivity|lia|].
  exists r, h'. split; [exact Hr|]. apply HF. exists (mkDSPAState "sample" "team" [PipelineRun.healthy "ds-pipeline-sample"; PipelineRun.healthy "mariadb-sample"]),
    (PipelineRun.healthy "mariadb-sample"). split; [by left|]. split; [right; by left|]. split; reflexivity.
Defined.

Lemma saved_state_is_loaded_witness :
  result_of ClusterRun.disk ((savePodHealthState (JT := ClusterRun.binary_JsonText) PipelineRun.before [defaultStatePath] ;;
    loadPodHealthState (JT := ClusterRun.binary_JsonText) defaultStatePath) NewRootRecorder) ∅ = Some (Ok PipelineRun.before, NewRootRecorder).
Proof. apply (saved_state_is_loaded (JTL := ClusterRun.binary_laws)). by left. Defined.

(** *** Behaviour at the edges *)
(** The pods of the application "sample-2" count as pods of "sample": its
    unhealthy pod makes the group of "sample" unhealthy. *)
Example pods_of_another_application_count :
  let g := getPodGroup [PipelineRun.pod "ds-pipeline-sample-0" "Running" "True"; PipelineRun.pod "ds-pipeline-sample-2-0" "Pending" "False"]
    (podPrefixDSPipeline +:+ "sample") in
  map pi_Name (pg_Pods g) = ["ds-pipeline-sample-0"; "ds-pipeline-sample-2-0"] ∧ pg_AllHealthy g = false.
Proof. vm_compute. split; reflexivity. Qed.

(** A rule for one application of the namespace is enough for the classifier:
    when the patch for the next application fails, no later run repeats it. *)
Example rule_for_one_application_hides_the_others :
  cl_NeedsFix (ClassifyRole (AIPipelinesRun.role "team" "custom" [AIPipelinesRun.routes; dspa_rule "a" ["get"]])) = false ∧
  nested ["resourceNames"] (dspa_rule "a" ["get"]) = Some (JArr [JStr "a"]).
Proof. vm_compute. split; reflexivity. Qed.

(** A CRD that may not be read counts as holding v1alpha1, and as pruned once
    the applications are rewritten: the migration reports success though
    nothing was removed from the stored versions. *)
Definition unreadable_crd (c : command) (n : nat) : answer c * nat :=
  match c return answer c * nat with
  | KGet rt _ name => (if is_crd rt then Err (EForeign 1 "forbidden") else Ok (PipelineRun.dspa name), n)
  | KList _ _ _ => (Ok [PipelineRun.dspa "a"], n)
  | c => (ClusterRun.idle c, n)
  end.
Example unreadable_crd_counts_as_pruned :
  let p := migrateAllDSPAsToV1 (AE := api) (JQ := VersionRun.path_jq) (WT := ClusterRun.steps_Wait) 0%nat false NewRootRecorder in
  let pruned := List.filter (λ e : exchange, match projT1 e with KUpdateStatus _ _ => true | _ => false end) in
  (∃ h, result_of unreadable_crd p 0%nat = Some (Ok (), h) ∧ has_done h StepCompleted 1%nat) ∧
  pruned (transcript unreadable_crd p 0%nat) = [].
Proof.
  split; [|vm_compute; reflexivity]. eexists. split; [vm_compute; reflexivity|].
  eexists _, _. split; [reflexivity|]. split; reflexivity.
Qed.
End PipelineActionsSpec.
