(* ===== verification/StorageVersion.v ===== *)
(** * StorageVersion: pkg/migrate/actions/datasciencecluster

    The migration of the storage version of DataScienceClusters: a request to
    the storage migration controller of the cluster, the wait for its verdict,
    and the removal of the older versions from the stored versions of the CRD
    (storage_version.go, storage_version_task.go, storage_version_migration.go). *)
From S2P Require Import Prelude GoStrings Errors Client Version Result Check DepsCheck BackupDeps WorkloadHelpers PlatformChecks.
From S2P Require Import Recorder Action Programs Cluster.
Open Scope string_scope.
Open Scope Z_scope.
Open Scope prog_scope.

(** ** Constants *)
Definition actionID := "dsc.storage-version.migrate".
Definition actionName := "Migrate DataScienceCluster storage version".
Definition actionDescription := "Rewrite stored DataScienceClusters and remove obsolete CRD storage history".
Definition requestName := "dsc-storage-migration".
Definition storageVersionAnnotation := "odh-cli.opendatahub.io/storage-version".
Definition pollInterval : Z := second.
Definition msgNoMigrationAPI :=
  "no supported StorageVersionMigration API is available; enable the cluster storage migration API and controller before retrying".
Definition msgStaleRequest (name existing storage : string) : string :=
  "existing migration request " +:+ name +:+ " is for storage version " +:+ quote existing +:+ ", not " +:+ quote storage +:+
  "; review it, delete it, and retry".
Definition msgStorageChanged := "DataScienceCluster storage version changed during migration; rerun on a stable cluster".
Definition msgInvalidStoredVersions := "DataScienceCluster CRD has missing or invalid storedVersions".
Definition confirmPrompt := "Request DataScienceCluster storage migration and prune obsolete storage history?".

(** pkg/resources/types.go *)
Definition StorageVersionMigration : ResourceType :=
  mkResourceType "storagemigration.k8s.io" "v1" "StorageVersionMigration" "storageversionmigrations".
Definition StorageVersionMigrationBeta : ResourceType :=
  mkResourceType "storagemigration.k8s.io" "v1beta1" "StorageVersionMigration" "storageversionmigrations".
Definition StorageVersionMigrationAlpha : ResourceType :=
  mkResourceType "storagemigration.k8s.io" "v1alpha1" "StorageVersionMigration" "storageversionmigrations".
Definition OpenShiftStorageVersionMigration : ResourceType :=
  mkResourceType "migration.k8s.io" "v1alpha1" "StorageVersionMigration" "storageversionmigrations".

(** ** storage_version_task.go: the storage state of the CRD *)
Fixpoint storage_loop (versions : list CRDVersion) (storage : string) : res go_error string :=
  match versions with
  | [] => Ok storage
  | v :: rest =>
      if negb (cv_Storage v) then storage_loop rest storage
      else if negb (String.eqb storage "") || negb (cv_Served v) || String.eqb (cv_Name v) "" then
        Err (EString "DataScienceCluster CRD has invalid storage configuration")
      else storage_loop rest (cv_Name v)
  end.
(** The checks of [readStorage] on a CRD. *)
Definition storage_of (crd : TypedCRD) : res go_error string :=
  let stored := tc_StoredVersions crd in
  if (length stored =? 0)%nat || bool_decide ("" ∈ stored) then Err (EString msgInvalidStoredVersions)
  else
    res_bind (storage_loop (tc_Versions crd) "") (λ storage,
      if String.eqb storage "" || negb (bool_decide (storage ∈ stored)) then
        Err (EString "DataScienceCluster CRD storage version is missing from storedVersions")
      else Ok storage).
Definition readStorage : M (TypedCRD * string) :=
  try* crd := kGetCRD (CRDFQN DataScienceCluster) else errorf_w "reading DataScienceCluster CRD" in
  match crd with
  | None => m_throw (EString msgInvalidStoredVersions)
  | Some crd => let* storage := m_lift (storage_of crd) in m_ret (crd, storage)
  end.

Section StorageVersion.
Context `{AE : ApiErrors, KE : K8sErrors, JQ : GoJq, CL : Clock, CD : ConditionDecoder, WT : Wait}.

(** ** storage_version_migration.go *)
Definition candidates : list ResourceType :=
  [StorageVersionMigration; StorageVersionMigrationBeta; StorageVersionMigrationAlpha; OpenShiftStorageVersionMigration].
Fixpoint served_api (l : list ResourceType) : M (option ResourceType) :=
  match l with
  | [] => m_ret None
  | candidate :: rest =>
      let* got := attempt (kServerResources (APIVersion candidate)) in
      match got with
      | inl err =>
          if IsNotFound err then served_api rest else m_throw (errorf_w "discovering storage migration APIs" err)
      | inr names => if bool_decide (rt_Resource candidate ∈ names) then m_ret (Some candidate) else served_api rest
      end
  end.
Definition servedAPI : M (option ResourceType) := served_api candidates.

Definition newRequest (api : ResourceType) (storage : string) : json :=
  JObj [("apiVersion", JStr (APIVersion api)); ("kind", JStr (rt_Kind api));
        ("metadata", JObj [("name", JStr requestName); ("annotations", JObj [(storageVersionAnnotation, JStr storage)])]);
        ("spec", JObj [("resource", JObj (
          [("group", JStr (rt_Group DataScienceCluster)); ("resource", JStr (rt_Resource DataScienceCluster))] ++
          (if String.eqb (rt_Version api) "v1alpha1" then [("version", JStr storage)] else []))%list)])].

Definition request_storage (request : json) : string := at_key (GetAnnotations request) storageVersionAnnotation.
Definition checkExistingRequest (api : ResourceType) (storage : string) : M () :=
  try* existing := kGet api "" requestName else errorf_w ("reading existing migration request " +:+ requestName) in
  let existingStorage := request_storage existing in
  if negb (String.eqb existingStorage storage) then m_throw (EString (msgStaleRequest requestName existingStorage storage))
  else m_ret ().

(** The outcome the conditions report; a failure wins. *)
Fixpoint request_verdict (conditions : list StatusCondition) (succeeded : bool) : res go_error bool :=
  match conditions with
  | [] => Ok succeeded
  | c :: rest =>
      if negb (String.eqb (k_Status c) "True") then request_verdict rest succeeded
      else if String.eqb (k_Type c) "Failed" then Err (EString ("migration failed: " +:+ k_Reason c +:+ ": " +:+ k_Message c))
      else request_verdict rest (succeeded || String.eqb (k_Type c) "Succeeded")
  end.
Definition request_outcome (request : json) : res go_error bool :=
  res_bind (res_map_err (errorf_w "reading migration conditions")
    (jq_Query [] "[]v1.Condition" unmarshal_conditions request ".status.conditions // []"))
    (λ conditions, request_verdict conditions false).
Definition waitForRequest (api : ResourceType) : M () :=
  PollUntilContextCancel pollInterval (λ _ : (),
    try* request := kGet api "" requestName else errorf_w "reading migration request" in
    let* succeeded := m_lift (request_outcome request) in
    m_ret (succeeded, ())) ().

Definition pruned (crd : TypedCRD) (storage : string) : TypedCRD := mkTypedCRD (tc_Versions crd) [storage] (tc_Rest crd).
Definition pruneStoredVersions (storage : string) : M () :=
  let* '(crd, current) := readStorage in
  if negb (String.eqb current storage) then m_throw (EString msgStorageChanged)
  else if bool_decide (tc_StoredVersions crd = [storage]) then m_ret ()
  else m_map_err (errorf_w "updating DataScienceCluster CRD storedVersions") (kUpdateCRDStatus (pruned crd storage)).

Definition run (step : loc) (storage : string) : M () :=
  let* api := servedAPI in
  match api with
  | None => m_throw (EString msgNoMigrationAPI)
  | Some api =>
      let* created := attempt (kCreate api "" (newRequest api storage) false) in
      match created with
      | inl err =>
          if IsAlreadyExists err then checkExistingRequest api storage
          else m_throw (errorf_w ("creating " +:+ APIVersion api +:+ " migration request") err)
      | inr _ => m_ret ()
      end ;;
      recordf step "migration-request" ("Using " +:+ APIVersion api +:+ " " +:+ requestName) StepCompleted ;;
      add_step_detail step "migrationRequest" requestName ;;
      m_map_err (errorf_w ("waiting for migration request " +:+ requestName +:+ " (retained for diagnosis)")) (waitForRequest api) ;;
      m_map_err (errorf_w ("pruning storage history (migration request " +:+ quote requestName +:+ " retained)"))
        (pruneStoredVersions storage) ;;
      m_map_err (errorf_w ("deleting completed migration request " +:+ requestName)) (kDelete api "" requestName)
  end.

(** ** The task *)
Definition show_versions (l : list string) : string := "[" +:+ join " " l +:+ "]".
Definition storageVersionTask_Validate : M execution :=
  let* step := child root "check-storage-version" "Read DataScienceCluster CRD storage state" in
  let* got := attempt readStorage in
  match got with
  | inl err => completef step StepFailed (error_string err)
  | inr (crd, storage) =>
      completef step StepCompleted ("Storage version " +:+ storage +:+ "; storedVersions " +:+ show_versions (tc_StoredVersions crd))
  end ;;
  built None.
Definition storageVersionTask_Execute (dryRun skipConfirm : bool) : M execution :=
  let* step := child root "migrate-storage-version" "Migrate DataScienceCluster storage" in
  let* got := attempt readStorage in
  match got with
  | inl err => completef step StepFailed (error_string err) ;; built (Some err)
  | inr (crd, storage) =>
      if bool_decide (tc_StoredVersions crd = [storage]) then
        completef step StepCompleted ("No migration needed: storedVersions is [" +:+ storage +:+ "]") ;; built None
      else if dryRun then
        completef step StepSkipped ("Would request DataScienceCluster storage migration to " +:+ storage +:+
          " and prune storedVersions " +:+ show_versions (tc_StoredVersions crd)) ;;
        built None
      else
        let* confirmed := if negb skipConfirm then Prompt confirmPrompt else m_ret true in
        if negb confirmed then completef step StepSkipped "User cancelled storage migration" ;; built None
        else
          let* migrated := attempt (run step storage) in
          match migrated with
          | inl err => completef step StepFailed (error_string err) ;; built (Some err)
          | inr _ => completef step StepCompleted "DataScienceCluster storage migration completed" ;; built None
          end
  end.

(** ** storage_version.go *)
Definition StorageVersionAction `{SV : Semver} {S : Type} (env : ∀ c, S → answer c * S) : Action S :=
  mkAction _ S actionID actionName actionDescription GroupMigration PhasePreUpgrade
    (λ target _, IsVersionAtLeast (at_TargetVersion target) 3 6)
    None
    (Some (as_task env (λ target, storageVersionTask_Execute (at_DryRun target) (at_SkipConfirm target)))).
End StorageVersion.

(** ** Lemmas *)
(** *** The storage configuration *)
Lemma storage_loop_filter versions acc : storage_loop versions acc = storage_loop (List.filter cv_Storage versions) acc.
Proof.
  revert acc. induction versions as [|v vs IH]; intros acc; [done|]. cbn [storage_loop List.filter].
  destruct (cv_Storage v) eqn:Hs; cbn [negb]; [|done]. cbn [storage_loop]. rewrite Hs. cbn [negb]. by rewrite IH.
Qed.
Lemma storage_loop_ok versions s :
  s ≠ "" →
  storage_loop versions "" = Ok s ↔
  ∃ v, List.filter cv_Storage versions = [v] ∧ cv_Served v = true ∧ cv_Name v = s.
Proof.
  intros Hs. rewrite storage_loop_filter.
  assert (∀ v, v ∈ List.filter cv_Storage versions → cv_Storage v = true) as Hall.
  { intros v Hv. apply list_elem_of_In, filter_In in Hv. tauto. }
  destruct (List.filter cv_Storage versions) as [|v [|w l]]; cbn [storage_loop].
  - split; [congruence|]. by intros (v & ? & _).
  - rewrite (Hall v) by by left. cbn [negb orb String.eqb].
    destruct (cv_Served v) eqn:Hserved, (String.eqb_spec (cv_Name v) "") as [Hn|Hn]; cbn [negb orb].
    all: split; [intros [= <-]; eauto|intros (v' & [= <-] & Hv & <-); congruence].
  - rewrite (Hall v), (Hall w) by (by left || (right; by left)). cbn [negb orb String.eqb].
    split; [|by intros (v' & ? & _)].
    by destruct (cv_Served v), (String.eqb_spec (cv_Name v) "") as [Hn|Hn]; cbn [negb orb].
Qed.

(** *** The order of the requests

    What a monitor of the task remembers: the storage version first read, the
    consent (a flag or an answered prompt), the CRD last read, and how far the
    migration has come. *)
Record progress := mkProgress {
  sp_Storage : option string;
  sp_Consent : bool;
  sp_CRD : option TypedCRD;
  sp_Created : bool;     (* a request was sent to the controller *)
  sp_Ours : bool;        (* the request in the cluster is for this storage version *)
  sp_Succeeded : bool;   (* it was last read as succeeded *)
  sp_Pruned : bool;      (* the stored versions are the storage version alone *)
  sp_Deleted : bool;
}.
Definition before (consent : bool) : progress := mkProgress None consent None false false false false false.

Section Order.
Context `{AE : ApiErrors, KE : K8sErrors, JQ : GoJq, CL : Clock, CD : ConditionDecoder, WT : Wait}.

Definition is_current (crd : TypedCRD) (storage : string) : bool :=
  match storage_of crd with Ok s => String.eqb s storage && bool_decide (tc_StoredVersions crd = [storage]) | _ => false end.
Definition for_storage (t : progress) (request : json) : bool := bool_decide (sp_Storage t = Some (request_storage request)).

Definition progress_next (t : progress) (c : command) : answer c → progress :=
  match c return answer c → progress with
  | KGetCRD _ => λ x,
      match x with
      | Ok (Some crd) =>
          let storage := match sp_Storage t with Some s => Some s | None => res_opt (storage_of crd) end in
          mkProgress storage (sp_Consent t) (Some crd) (sp_Created t) (sp_Ours t) (sp_Succeeded t)
            (sp_Pruned t || match storage with Some s => is_current crd s | None => false end) (sp_Deleted t)
      | _ => t
      end
  | KReadLine => λ x,
      mkProgress (sp_Storage t) (confirmed x) (sp_CRD t) (sp_Created t) (sp_Ours t) (sp_Succeeded t) (sp_Pruned t) (sp_Deleted t)
  | KCreate _ _ _ _ => λ x,
      mkProgress (sp_Storage t) (sp_Consent t) (sp_CRD t) true (is_ok x) false (sp_Pruned t) (sp_Deleted t)
  | KGet _ _ _ => λ x,
      match x with
      | Ok request =>
          mkProgress (sp_Storage t) (sp_Consent t) (sp_CRD t) (sp_Created t) (sp_Ours t || for_storage t request)
            (match request_outcome request with Ok b => b | _ => false end) (sp_Pruned t) (sp_Deleted t)
      | _ => t
      end
  | KUpdateCRDStatus _ => λ x,
      mkProgress (sp_Storage t) (sp_Consent t) (sp_CRD t) (sp_Created t) (sp_Ours t) (sp_Succeeded t)
        (sp_Pruned t || is_ok x) (sp_Deleted t)
  | KDelete _ _ _ => λ x,
      mkProgress (sp_Storage t) (sp_Consent t) (sp_CRD t) (sp_Created t) (sp_Ours t) (sp_Succeeded t) (sp_Pruned t) (is_ok x)
  | _ => λ _, t
  end.
Definition progress_allowed (t : progress) (c : command) : Prop :=
  match c with
  | KCreate rt ns obj dry =>
      sp_Consent t = true ∧ sp_Created t = false ∧ rt ∈ candidates ∧
      ∃ storage, sp_Storage t = Some storage ∧ obj = newRequest rt storage
  | KUpdateCRDStatus crd =>
      sp_Ours t = true ∧ sp_Succeeded t = true ∧
      ∃ storage crd0, sp_Storage t = Some storage ∧ sp_CRD t = Some crd0 ∧ storage_of crd0 = Ok storage ∧ crd = pruned crd0 storage
  | KDelete rt ns name => rt ∈ candidates ∧ name = requestName ∧ sp_Ours t = true ∧ sp_Succeeded t = true ∧ sp_Pruned t = true
  | _ => mutates c = false
  end.
Notation spec := (spec progress_allowed progress_next).
Lemma served_api_spec t l :
  spec t (served_api l) (λ r t', t' = t ∧ match r with Ok (Some api) => api ∈ l | _ => True end).
Proof.
  induction l as [|c l IH]; cbn [served_api]; [by apply spec_ret|]. unfold kServerResources.
  assert (spec t (served_api l) (λ r t', t' = t ∧ match r with Ok (Some api) => api ∈ c :: l | _ => True end)) as IH'.
  { eapply spec_mono; [exact IH|]. intros [[api|]|e|m] t' [-> H]; (split; [done|]); [by right|done..]. }
  apply spec_bind, spec_attempt, spec_bind, spec_call; [done|]. intros x. apply spec_lift. destruct x as [names|e|m]; [..|done].
  - case_bool_decide; [apply spec_ret; split; [done|by left]|exact IH'].
  - destruct (IsNotFound e); [exact IH'|by apply spec_lift].
Qed.

(** Reading the CRD leaves the migration where it is, and tells whether the
    stored versions are already pruned. *)
Lemma readStorage_spec t :
  spec t readStorage (λ r t',
    sp_Consent t' = sp_Consent t ∧ sp_Created t' = sp_Created t ∧ sp_Ours t' = sp_Ours t ∧ sp_Succeeded t' = sp_Succeeded t ∧
    sp_Deleted t' = sp_Deleted t ∧ (∀ s, sp_Storage t = Some s → sp_Storage t' = Some s) ∧
    match r with
    | Ok (crd, storage) =>
        storage_of crd = Ok storage ∧ sp_CRD t' = Some crd ∧ (sp_Storage t = None → sp_Storage t' = Some storage) ∧
        (sp_Storage t' = Some storage → tc_StoredVersions crd = [storage] → sp_Pruned t' = true)
    | _ => True
    end).
Proof.
  unfold readStorage, kGetCRD. apply spec_bind, spec_map_err, spec_bind, spec_call; [done|]. intros x. apply spec_lift.
  destruct x as [[crd|]|e|m]; cbn [res_map_err progress_next]; [|by apply spec_lift|done..].
  apply spec_bind, spec_lift. destruct (storage_of crd) as [storage|e|m] eqn:Hs; cbn [res_opt].
  2,3: cbn; destruct (sp_Storage t); naive_solver.
  apply spec_ret. cbn. do 5 (split; [done|]). destruct (sp_Storage t) as [s|] eqn:Ht; cbn.
  - split; [done|]. split; [done|]. split; [done|]. split; [done|]. intros [= ->] Hst.
    unfold is_current. rewrite Hs, String.eqb_refl, Hst, bool_decide_true by done. apply orb_true_r.
  - split; [done|]. split; [done|]. split; [done|]. split; [done|]. intros _ Hst.
    unfold is_current. rewrite Hs, String.eqb_refl, Hst, bool_decide_true by done. apply orb_true_r.
Qed.

Context `{WL : !WaitLaws}.

Lemma waitForRequest_spec t api :
  sp_Ours t = true →
  spec t (waitForRequest api) (λ r t',
    sp_Storage t' = sp_Storage t ∧ sp_Ours t' = true ∧ sp_Deleted t' = sp_Deleted t ∧ (r = Ok () → sp_Succeeded t' = true)).
Proof using WL.
  intros Ho. unfold waitForRequest. destruct (PollUntilContextCancel_retries pollInterval) as (n & timeout & _ & ->).
  set (I (t' : progress) := sp_Storage t' = sp_Storage t ∧ sp_Ours t' = true ∧ sp_Deleted t' = sp_Deleted t).
  eapply spec_mono; [apply (spec_retry _ _ (λ _ : (), I) (λ _, I) _ _ _ _ _ (λ _ t', I t' ∧ sp_Succeeded t' = true))|].
  - intros [] t' HI. unfold kGet. apply spec_bind, spec_map_err, spec_bind, spec_call; [done|]. intros x. apply spec_lift.
    destruct x as [request|e|m]; cbn [res_map_err progress_next]; [|done..].
    assert (∀ b, I (mkProgress (sp_Storage t') (sp_Consent t') (sp_CRD t') (sp_Created t') (sp_Ours t' || for_storage t' request) b
      (sp_Pruned t') (sp_Deleted t'))) as HI'.
    { intros b. destruct HI as (H1 & H2 & H3). split; [done|]. split; [by cbn; rewrite H2|done]. }
    apply spec_bind, spec_lift. destruct (request_outcome request) as [[]|e|m]; [apply spec_ret..|apply HI'|apply HI'].
    + split; [apply HI'|done].
    + apply HI'.
  - done.
  - done.
  - unfold I. intros [[]|e|m] t'; [tauto|intros (? & ? & ?); by repeat split..].
Qed.

Lemma pruneStoredVersions_spec t storage :
  sp_Storage t = Some storage → sp_Ours t = true → sp_Succeeded t = true →
  spec t (pruneStoredVersions storage) (λ r t',
    sp_Ours t' = true ∧ sp_Succeeded t' = true ∧ (r = Ok () → sp_Pruned t' = true)).
Proof using.
  intros Hs Ho Hsu. unfold pruneStoredVersions, kUpdateCRDStatus. apply spec_bind. eapply spec_mono; [apply readStorage_spec|].
  intros [[crd current]|e|m] t' (H1 & H2 & H3 & H4 & H5 & H6 & H7); [|rewrite H3, H4; done..].
  specialize (H6 storage Hs). destruct H7 as (Hc & Hcrd & _ & Hp).
  destruct (String.eqb_spec current storage) as [->|Hne]; cbn [negb]; [|apply spec_lift; rewrite H3, H4; done].
  case_bool_decide as Hst; [apply spec_ret; rewrite H3, H4; auto|].
  apply spec_map_err, spec_bind, spec_call.
  { split; [congruence|]. split; [congruence|]. by exists storage, crd. }
  intros x. apply spec_lift. cbn [progress_next sp_Ours sp_Succeeded sp_Pruned]. rewrite H3, H4. split; [done|]. split; [done|].
  destruct x; [intros _; apply orb_true_r|done..].
Qed.

Lemma checkExisting_spec t api storage :
  sp_Storage t = Some storage →
  spec t (checkExistingRequest api storage) (λ r t', sp_Storage t' = Some storage ∧ (r = Ok () → sp_Ours t' = true)).
Proof using.
  intros Hs. unfold checkExistingRequest, kGet. apply spec_bind, spec_map_err, spec_bind, spec_call; [done|]. intros x. apply spec_lift.
  destruct x as [o|e|m]; cbn [res_map_err progress_next]; [|done..].
  destruct (String.eqb_spec (request_storage o) storage) as [Heq|Hne]; cbn [negb]; [|by apply spec_lift].
  apply spec_ret. cbn [sp_Storage sp_Ours]. split; [done|]. intros _. unfold for_storage.
  rewrite bool_decide_true by congruence. apply orb_true_r.
Qed.

Lemma run_spec t step storage :
  sp_Storage t = Some storage → sp_Consent t = true → sp_Created t = false →
  spec t (run step storage) (λ r t', r = Ok () → sp_Pruned t' = true ∧ sp_Deleted t' = true).
Proof using WL.
  intros Hs Hc Hn. unfold run, servedAPI. apply spec_bind. eapply spec_mono; [apply served_api_spec|].
  intros [[api|]|e|m] t' [-> Hapi]; [|by apply spec_lift|done..]. unfold kCreate.
  apply spec_bind, spec_attempt, spec_bind, spec_call.
  { do 3 (split; [done|]). by exists storage. }
  intros x. apply spec_lift. set (t1 := progress_next t (KCreate api "" (newRequest api storage) false) x).
  assert (∀ r : go_error + json, match r with inl _ => x = Err (from_option id (EString "") (match r with inl e => Some e | _ => None end)) | inr o => x = Ok o end →
    spec t1 (match r with inl err => if IsAlreadyExists err then checkExistingRequest api storage
      else m_throw (errorf_w ("creating " +:+ APIVersion api +:+ " migration request") err) | inr _ => m_ret () end)
      (λ r t', sp_Storage t' = Some storage ∧ (r = Ok () → sp_Ours t' = true))) as Hcreated.
  { intros [e|o] Hx; [destruct (IsAlreadyExists e); [by apply checkExisting_spec|by apply spec_lift]|].
    apply spec_ret. unfold t1. by rewrite Hx. }
  destruct x as [o|e|m]; [specialize (Hcreated (inr o) eq_refl)|specialize (Hcreated (inl e) eq_refl)|done].
  all: apply spec_bind.
  all: eapply spec_mono; [exact Hcreated|]; intros [[]|e'|m'] t2 [Hs2 Ho2]; [|done..].
  all: specialize (Ho2 eq_refl); apply spec_bind, spec_recordf, spec_bind, spec_detail, spec_bind, spec_map_err.
  all: eapply spec_mono; [by apply waitForRequest_spec|]; intros [[]|e'|m'] t3 (Hs3 & Ho3 & Hd3 & Hok3); [|done..].
  all: specialize (Hok3 eq_refl); apply spec_bind, spec_map_err; eapply spec_mono;
    [apply pruneStoredVersions_spec; [congruence|done..]|]; intros [[]|e'|m'] t4 (Ho4 & Hsu4 & Hp4); [|done..].
  all: specialize (Hp4 eq_refl); unfold kDelete; apply spec_map_err, spec_bind, spec_call; [by do 4 (split; [done|])|].
  all: intros y; apply spec_lift; cbn [progress_next sp_Pruned sp_Deleted]; destruct y; [intros _; by split|done..].
Qed.

(** A task that reports no error has either sent nothing, or finished. *)
Lemma execute_spec dryRun skipConfirm :
  spec (before skipConfirm) (storageVersionTask_Execute dryRun skipConfirm) (λ r t',
    ∀ result err, r = Ok (result, err) → dryRun = true ∨ err = None →
      sp_Created t' = false ∨ (sp_Pruned t' = true ∧ sp_Deleted t' = true)).
Proof using WL.
  unfold storageVersionTask_Execute, built. apply spec_bind, spec_child. intros step. apply spec_bind, spec_attempt.
  eapply spec_mono; [apply readStorage_spec|]. intros [[crd storage]|e|m] t (Hc & Hn & Ho & Hsu & Hd & _ & Hr); [..|done].
  2: { repeat spec_step. intros. by left. }
  destruct Hr as (Hst & Hcrd & Hsto & Hp). specialize (Hsto eq_refl). case_bool_decide; [repeat spec_step; intros; by left|].
  destruct dryRun; [repeat spec_step; intros; by left|].
  apply spec_bind. apply (spec_mono _ _ _ _ (λ r t', match r with
    | Ok true => sp_Storage t' = Some storage ∧ sp_Consent t' = true ∧ sp_Created t' = false
    | Ok false => sp_Created t' = false
    | _ => True end)).
  { destruct skipConfirm; cbn [negb]; [by apply spec_ret|]. unfold Prompt, kErrOut. apply spec_bind, spec_bind, spec_call; [done|].
    intros ?. apply spec_ret, spec_bind, spec_call; [done|]. intros resp. apply spec_ret. cbn [progress_next sp_Storage sp_Consent sp_Created].
    by destruct (confirmed resp). }
  intros [[]|e|m] t' Hpr; cbn [negb]; [| |done..].
  - destruct Hpr as (Hs' & Hc' & Hn'). apply spec_bind, spec_attempt. eapply spec_mono; [by apply run_spec|].
    intros [[]|e|m] t'' Hr; [..|done]; repeat spec_step; [intros; right; by apply Hr|].
    by intros ? ? [= _ <-] [?|?].
  - repeat spec_step. intros. by left.
Qed.
End Order.

(** ** A cluster with a storage migration controller *)
Section Controlled.
Context `{AE : ApiErrors, KE : K8sErrors, JQ : GoJq, CL : Clock, CD : ConditionDecoder, WT : Wait, KL : !K8sLaws, WL : !WaitLaws}.
(** The API the cluster serves, what the controller makes of a request, and
    the error of a name that is taken. *)
Context (api : ResourceType) (mark : json → json) (taken : go_error).
Hypothesis served : api ∈ candidates.
Hypothesis marks : ∀ o, request_outcome (mark o) = Ok true.
Hypothesis taken_exists : IsAlreadyExists taken = true.

Record cluster := mkCluster { cl_CRD : TypedCRD; cl_Request : option json }.
Definition missing (name : string) : go_error := NewNotFound (rt_Group api) (rt_Resource api) name.
Definition controlled (c : command) (s : cluster) : answer c * cluster :=
  match c return answer c * cluster with
  | KServerResources gv => (if String.eqb gv (APIVersion api) then Ok [rt_Resource api] else Err (missing ""), s)
  | KCreate _ _ obj false =>
      match cl_Request s with
      | Some _ => (Err taken, s)
      | None => (Ok (mark obj), mkCluster (cl_CRD s) (Some (mark obj)))
      end
  | KGet _ _ name => (match cl_Request s with Some o => Ok o | None => Err (missing name) end, s)
  | KDelete _ _ name =>
      match cl_Request s with
      | Some _ => (Ok (), mkCluster (cl_CRD s) None)
      | None => (Err (missing name), s)
      end
  | KGetCRD _ => (Ok (Some (cl_CRD s)), s)
  | KUpdateCRDStatus crd => (Ok (), mkCluster crd (cl_Request s))
  | c => (ClusterRun.idle c, s)
  end.

Lemma runs_servedAPI h s : runs controlled servedAPI h s (Some api) h s.
Proof using served KL.
  assert (∀ gv, gv ≠ APIVersion api → (controlled (KServerResources gv) s) = (Err (missing ""), s)) as Hmiss.
  { intros gv Hgv. cbn. by rewrite (proj2 (String.eqb_neq _ _) Hgv). }
  unfold servedAPI, candidates in *.
  assert (∀ l, api ∈ l → (∀ c, c ∈ l → APIVersion c = APIVersion api → c = api) → runs controlled (served_api l) h s (Some api) h s) as Hgo.
  { induction l as [|c l IH]; [by intros ?%elem_of_nil|]. intros Hin Hdist. cbn [served_api].
    destruct (decide (APIVersion c = APIVersion api)) as [Heq|Hne].
    - rewrite (Hdist c) by (done || by left). eexists. unfold kServerResources. cbn. rewrite String.eqb_refl. cbn.
      rewrite bool_decide_true by by left. reflexivity.
    - assert (api ∈ l) as Hin' by (apply elem_of_cons in Hin as [->|?]; done).
      destruct (IH Hin' ltac:(intros; apply Hdist; [by right|done])) as [tr Hr].
      eexists. unfold kServerResources. cbn -[controlled]. rewrite Hmiss by done. cbn -[controlled].
      unfold missing. rewrite IsNotFound_new. cbn -[controlled]. rewrite Hr. reflexivity. }
  apply Hgo; [done|]. intros c Hc Heq. clear -served Hc Heq. unfold candidates in served.
  rewrite !elem_of_cons in Hc, served. destruct Hc as [->|[->|[->|[->|[]%elem_of_nil]]]], served as [->|[->|[->|[->|[]%elem_of_nil]]]]; done.
Qed.

(** The first try of the wait sees the request succeeded. *)
Lemma runs_wait h s o :
  cl_Request s = Some o → request_outcome o = Ok true → runs controlled (waitForRequest api) h s () h s.
Proof using WL.
  intros Hq Ho. unfold waitForRequest. destruct (PollUntilContextCancel_retries pollInterval) as (n & timeout & Hn & ->).
  destruct n as [|n]; [lia|]. cbn [retry]. eexists. unfold kGet. cbn -[request_outcome]. rewrite Hq. cbn -[request_outcome].
  rewrite Ho. reflexivity.
Qed.

Lemma runs_prune h s storage :
  storage_of (cl_CRD s) = Ok storage → tc_StoredVersions (cl_CRD s) ≠ [storage] →
  runs controlled (pruneStoredVersions storage) h s () h (mkCluster (pruned (cl_CRD s) storage) (cl_Request s)).
Proof using.
  intros Hs Hne. eexists. unfold pruneStoredVersions, readStorage, kGetCRD, kUpdateCRDStatus. cbn -[storage_of]. rewrite Hs.
  cbn -[storage_of]. rewrite String.eqb_refl, bool_decide_false by done. reflexivity.
Qed.

(** A request of an earlier run for the same storage version, if any. *)
Definition resumable (storage : string) (s : cluster) : Prop :=
  ∀ o, cl_Request s = Some o → request_storage o = storage ∧ request_outcome o = Ok true.

Lemma runs_run h s step storage :
  storage_of (cl_CRD s) = Ok storage → tc_StoredVersions (cl_CRD s) ≠ [storage] → resumable storage s →
  runs controlled (run step storage) h s ()
    (AddDetail (Recordf h step "migration-request" ("Using " +:+ APIVersion api +:+ " " +:+ requestName) StepCompleted) step
       "migrationRequest" requestName)
    (mkCluster (pruned (cl_CRD s) storage) None).
Proof using All.
  intros Hs Hne Hres. unfold run. eapply ends_bind; [apply runs_servedAPI|]. cbv beta iota.
  assert (∃ s1 r, runs controlled (attempt (kCreate api "" (newRequest api storage) false)) h s r h s1 ∧
    runs controlled (match r with inl err => if IsAlreadyExists err then checkExistingRequest api storage
      else m_throw (errorf_w ("creating " +:+ APIVersion api +:+ " migration request") err) | inr _ => m_ret () end) h s1 () h s1 ∧
    cl_CRD s1 = cl_CRD s ∧ ∃ o, cl_Request s1 = Some o ∧ request_outcome o = Ok true) as (s1 & r & Hc & Hx & Hcrd & o & Hq & Ho).
  { destruct (cl_Request s) as [o|] eqn:Hq.
    - destruct (Hres o Hq) as [Hr Ho]. exists s, (inl taken). split; [|split; [|by split; [|exists o]]].
      + eexists. unfold kCreate. cbn. rewrite Hq. reflexivity.
      + rewrite taken_exists. eexists. unfold checkExistingRequest, kGet. cbn. rewrite Hq. cbn. rewrite Hr, String.eqb_refl. reflexivity.
    - exists (mkCluster (cl_CRD s) (Some (mark (newRequest api storage)))), (inr (mark (newRequest api storage))).
      split; [|split; [apply runs_ret|split; [done|by eexists]]].
      eexists. unfold kCreate. cbn. rewrite Hq. reflexivity. }
  eapply ends_bind; [exact Hc|]. eapply ends_bind; [exact Hx|]. eapply ends_bind; [by apply runs_pure|].
  eapply ends_bind; [by apply runs_pure|].
  eapply ends_bind; [apply (ends_map_err controlled _ _ _ _ (Ok ())), (runs_wait _ _ o Hq Ho)|].
  eapply ends_bind; [apply (ends_map_err controlled _ _ _ _ (Ok ())), (runs_prune _ s1 storage); by rewrite Hcrd|].
  apply (ends_map_err controlled _ _ _ _ (Ok ())). eexists. unfold kDelete. cbn. rewrite Hq, Hcrd. reflexivity.
Qed.
End Controlled.

(** ** A concrete controller *)
Module StorageRun.
Definition condition (type status : string) : json := JObj [("type", JStr type); ("status", JStr status)].
Definition mark (request : json) : json :=
  match request with JObj fields => JObj (("status", JObj [("conditions", JArr [condition "Succeeded" "True"])]) :: without_key "status" fields) | v => v end.
(** The one query of the wait. *)
#[export] Instance conditions_jq : GoJq := {|
  gojq_run obj q := match nested ["status"; "conditions"] obj with Some v => JqValue v | None => JqValue (JArr []) end |}.
Definition marked (v : json) : json := match v with JObj _ => mark v | _ => mark (JObj []) end.
Definition crd (stored : list string) : TypedCRD :=
  mkTypedCRD [mkCRDVersion "v1" true false; mkCRDVersion "v2" true true] stored (JObj [("resourceVersion", JStr "7")]).
Definition taken : go_error := EForeign 3 "already exists".
End StorageRun.
Import (hints) ClientRun VersionRun ClusterRun StorageRun.

(** ** Properties *)
Module StorageVersionSpec.
(** The storage version read from a CRD: its one version with the storage
    flag, which is served and named, and the stored versions hold it and no
    empty name; any other configuration is an error and never a panic. *)
Theorem storage_of_exact crd storage :
  (storage_of crd = Ok storage ↔
     storage ≠ "" ∧ storage ∈ tc_StoredVersions crd ∧ "" ∉ tc_StoredVersions crd ∧
     ∃ v, List.filter cv_Storage (tc_Versions crd) = [v] ∧ cv_Served v = true ∧ cv_Name v = storage) ∧
  ∀ s, storage_of crd ≠ Panic s.
Proof.
  assert (∀ vs acc s, storage_loop vs acc ≠ Panic s) as Hnp.
  { induction vs as [|v vs IH]; intros acc s; cbn [storage_loop]; [done|]. repeat case_match; done. }
  unfold storage_of. split.
  - destruct (Nat.eqb_spec (length (tc_StoredVersions crd)) 0) as [H0|H0]; cbn [orb].
    { split; [done|]. intros (_ & Hin & _). apply length_zero_iff_nil in H0. rewrite H0 in Hin. by apply elem_of_nil in Hin. }
    case_bool_decide as He; [naive_solver|].
    split.
    + intros (s & Hs & Hr)%res_bind_Ok_inv. destruct (String.eqb_spec s "") as [->|Hne]; [done|]. cbn [orb] in Hr.
      case_bool_decide as Hin; [|done]. injection Hr as <-. apply storage_loop_ok in Hs; [|done]. naive_solver.
    + intros (Hne & Hin & _ & Hv). apply storage_loop_ok in Hv; [|done]. rewrite Hv. cbn [res_bind].
      rewrite (proj2 (String.eqb_neq _ _) Hne), bool_decide_true by done. done.
  - intros s. case_match; [done|]. destruct (storage_loop _ _) eqn:Hl; cbn [res_bind]; [by case_match|done|by apply Hnp in Hl].
Qed.

Section Statements.
Context `{AE : ApiErrors, KE : K8sErrors, JQ : GoJq, CL : Clock, CD : ConditionDecoder, WT : Wait, WL : !WaitLaws}.

(** C5: Whatever the cluster answers: at most one request is created, with the
    consent of the user and for the storage version first read; the stored
    versions are pruned only while the last reading of a request for that
    version said it succeeded and not failed, on top of the CRD last read with
    the same storage version; the request is deleted only after that.  A task
    that reports no error has created nothing or has done all of it. *)
Theorem storage_migration_order {S} (env : ∀ c, S → answer c * S) s dryRun skipConfirm h :
  let p := storageVersionTask_Execute dryRun skipConfirm h in
  let t := observe progress_next (before skipConfirm) (transcript env p s) in
  accepts progress_allowed progress_next (before skipConfirm) (transcript env p s) ∧
  ∀ result h', result_of env p s = Some (Ok (result, None), h') →
    sp_Created t = false ∨ (sp_Pruned t = true ∧ sp_Deleted t = true).
Proof using WL.
  cbv zeta. destruct (obeys_exec _ _ env _ _ _ s (execute_spec dryRun skipConfirm h)) as [Ha Hq].
  split; [exact Ha|]. intros result h' Hr. exact (Hq _ Hr _ _ eq_refl (or_intror eq_refl)).
Qed.

(** A dry run and a validation change nothing. *)
Theorem storage_migration_dry_run {S} (env : ∀ c, S → answer c * S) s skipConfirm h :
  let quiet (m : M execution) := Forall (λ e, harmless (projT1 e)) (transcript env (m h) s) in
  quiet (storageVersionTask_Execute true skipConfirm) ∧ quiet storageVersionTask_Validate.
Proof using.
  intros quiet. assert (∀ m, only harmless m → quiet m) as Hq by (intros m Hm; apply asks_only_transcript, Hm).
  split; apply Hq; unfold storageVersionTask_Execute, storageVersionTask_Validate, readStorage; only_auto.
Qed.

(** On a cluster that serves one of the four APIs and whose controller
    rewrites the objects, the task ends without error: the stored versions of
    the CRD are the storage version alone, everything else of it is as before,
    and no request is left, also when an interrupted run had left one. *)
Theorem storage_migration_completes `{KL : !K8sLaws} api mark taken s storage :
  api ∈ candidates → (∀ o, request_outcome (mark o) = Ok true) → IsAlreadyExists taken = true →
  storage_of (cl_CRD s) = Ok storage → tc_StoredVersions (cl_CRD s) ≠ [storage] → resumable storage s →
  ∃ r h, exec (controlled api mark taken) (storageVersionTask_Execute false true NewRootRecorder) s =
      (Some (Ok (Some r, None), h), transcript (controlled api mark taken) (storageVersionTask_Execute false true NewRootRecorder) s,
       mkCluster (mkTypedCRD (tc_Versions (cl_CRD s)) [storage] (tc_Rest (cl_CRD s))) None) ∧
    HasFailedSteps r = false.
Proof using WL.
  intros Hserved Hmark Htaken Hs Hne Hres.
  set (h1 := (Child NewRootRecorder root "migrate-storage-version" "Migrate DataScienceCluster storage").1).
  pose proof (runs_run api mark taken Hserved Hmark Htaken h1 s 1%nat storage Hs Hne Hres) as Hrun.
  apply ends_attempt in Hrun. cbv beta iota in Hrun.
  assert (∃ h', runs (controlled api mark taken) (storageVersionTask_Execute false true) NewRootRecorder s
    (Some (Build h'), None) h' (mkCluster (pruned (cl_CRD s) storage) None) ∧ HasFailedSteps (Build h') = false) as (h' & [tr Hr] & HF).
  { eexists. split.
    - unfold storageVersionTask_Execute. eapply ends_bind; [by apply runs_pure|].
      eapply ends_bind; [apply (ends_attempt _ _ _ _ (Ok (cl_CRD s, storage)) h1 s)|].
      { eexists. unfold readStorage, kGetCRD. cbn -[storage_of]. rewrite Hs. reflexivity. }
      cbv beta iota. rewrite bool_decide_false by done. cbv iota. cbn [negb].
      eapply ends_bind; [apply runs_ret|]. cbn [negb]. eapply ends_bind; [exact Hrun|]. cbv beta iota.
      eapply ends_bind; [by apply runs_pure|]. by exists [].
    - reflexivity. }
  exists (Build h'), h'. split; [|exact HF]. unfold transcript. by rewrite Hr.
Qed.
End Statements.

#[local] Instance witness_clock : Clock := { now := 0 }.
Notation api := ClientRun.api.
Notation k8s := ClientRun.k8s.
Notation decoder := PlatformRun.decoder.

Lemma storage_of_exact_witness : storage_of (StorageRun.crd ["v1"; "v2"]) = Ok "v2" ∧ "" ∉ tc_StoredVersions (StorageRun.crd ["v1"; "v2"]).
Proof.
  assert (storage_of (StorageRun.crd ["v1"; "v2"]) = Ok "v2") as H by reflexivity. split; [exact H|].
  destruct (storage_of_exact (StorageRun.crd ["v1"; "v2"]) "v2") as [[Hf _] _]. by destruct (Hf H) as (_ & _ & Hn & _).
Defined.

Definition interrupted : cluster :=
  mkCluster (StorageRun.crd ["v1"; "v2"]) (Some (StorageRun.mark (newRequest StorageVersionMigrationBeta "v2"))).
Lemma storage_migration_order_witness :
  accepts progress_allowed (progress_next (JQ := StorageRun.conditions_jq) (CD := decoder))
    (before true)
    (transcript (controlled (KE := k8s) StorageVersionMigrationBeta StorageRun.mark StorageRun.taken)
      (storageVersionTask_Execute (AE := api) (JQ := StorageRun.conditions_jq) (CD := decoder) (WT := ClusterRun.steps_Wait) false true NewRootRecorder)
      interrupted).
Proof.
  destruct (storage_migration_order (AE := api) (JQ := StorageRun.conditions_jq) (CD := decoder) (WL := ClusterRun.steps_laws)
    (controlled (KE := k8s) StorageVersionMigrationBeta StorageRun.mark StorageRun.taken) interrupted false true NewRootRecorder) as [H _].
  exact H.
Defined.

Lemma storage_migration_completes_witness :
  ∃ r h tr, exec (controlled (KE := k8s) StorageVersionMigrationBeta StorageRun.marked StorageRun.taken)
      (storageVersionTask_Execute (AE := api) (JQ := StorageRun.conditions_jq) (CD := decoder) (WT := ClusterRun.steps_Wait) false true NewRootRecorder)
      interrupted = (Some (Ok (Some r, None), h), tr, mkCluster (StorageRun.crd ["v2"]) None) ∧ HasFailedSteps r = false.
Proof.
  destruct (storage_migration_completes (AE := api) (KE := k8s) (JQ := StorageRun.conditions_jq) (CD := decoder)
    (WL := ClusterRun.steps_laws) (KL := ClientRun.k8s_laws) StorageVersionMigrationBeta StorageRun.marked StorageRun.taken interrupted "v2")
    as (r & h & He & HF).
  - right. by left.
  - intros []; reflexivity.
  - reflexivity.
  - reflexivity.
  - discriminate.
  - intros o [= <-]. split; reflexivity.
  - exists r, h. eexists. split; [exact He|exact HF].
Defined.
End StorageVersionSpec.
