(* ===== verification/RayClusters.v ===== *)
(** * RayClusters: the objects of pkg/migrate/raycluster

    What the migration of RayClusters does to one object (process.go,
    constants.go): the fields a backup leaves out, the TLS and OAuth parts of
    a pod specification and their removal, and the verdict on a cluster. *)
From S2P Require Import Prelude GoStrings FilePath Errors Client Version Result Check DepsCheck BackupDeps WorkloadHelpers.
From S2P Require Import KueueIntegrity NotebookChecks DashboardChecks Recorder Action Programs Cluster PipelineActions.
Open Scope string_scope.
Open Scope Z_scope.
Open Scope prog_scope.

(** ** constants.go *)
Definition SecureNetworkAnnotation := "odh.ray.io/secure-trusted-network".
Definition DefaultNamespace := "default".
Definition DefaultBackupDir := "./raycluster-backups".
Definition BackupSubdirRHOAI2x := "rhoai-2.x".
Definition BackupSubdirRHOAI3x := "rhoai-3.x".
Definition DefaultRouteTimeout : Z := 120 * second.
Definition stateReady := "ready".
Definition yamlExt := ".yaml".
Definition ymlExt := ".yml".
Definition TLSEnvVars := ["RAY_USE_TLS"; "RAY_TLS_SERVER_CERT"; "RAY_TLS_SERVER_KEY"; "RAY_TLS_CA_CERT"].
Definition VolumesToRemove := ["ca-vol"; "proxy-tls-secret"; "server-cert"].
Definition VolumeMountsToRemove := ["ca-vol"; "server-cert"].
Definition ContainersToRemove := ["oauth-proxy"].
Definition CodeFlareInitContainers := ["create-cert"].
Definition KueueAnnotationsToStrip := ["kueue.x-k8s.io/workload"; "kueue.x-k8s.io/podset"].
Definition AutogeneratedFields :=
  ["creationTimestamp"; "resourceVersion"; "uid"; "selfLink"; "managedFields"; "finalizers"; "generation"; "status";
   "workload.codeflare.dev/user"; "workload.codeflare.dev/userid"; "podSetInfos"].

(** pkg/resources/types.go *)
Definition ServiceAccount : ResourceType := mkResourceType "" "v1" "ServiceAccount" "serviceaccounts".
Definition HTTPRoute : ResourceType := mkResourceType "gateway.networking.k8s.io" "v1" "HTTPRoute" "httproutes".
Definition Gateway : ResourceType := mkResourceType "gateway.networking.k8s.io" "v1" "Gateway" "gateways".

(** ** Nested fields, with errors ignored

    [put] is a [SetNestedField] whose error is dropped. *)
Definition nested_map (path : list string) (obj : json) : option json :=
  match nested path obj with Some (JObj fields) => Some (JObj fields) | _ => None end.
Definition nested_slice (path : list string) (obj : json) : option (list json) :=
  match nested path obj with Some (JArr l) => Some l | _ => None end.
Definition nested_true (path : list string) (obj : json) : bool :=
  match nested path obj with Some (JBool b) => b | _ => false end.
Definition put (path : list string) (v obj : json) : json :=
  match SetNestedField path v obj with Ok obj' => obj' | _ => obj end.
(** An assertion to a map that fails gives a nil map, which is null. *)
Definition as_map (v : json) : json := match v with JObj _ => v | _ => JNull end.
(** A slice that nothing was appended to is nil, which is null. *)
Definition appended (kept : list json) : json := match kept with [] => JNull | _ => JArr kept end.
Definition named_in (table : list string) (v : json) : bool := bool_decide (nested_string ["name"] v ∈ table).

(** ** process.go *)
Definition autogenerated (k : string) : bool := bool_decide (k ∈ AutogeneratedFields).
Fixpoint RemoveAutogeneratedFields (obj : json) : json :=
  match obj with
  | JObj fields =>
      JObj ((fix go (fields : list (string * json)) : list (string * json) :=
        match fields with
        | [] => []
        | (k, v) :: rest =>
            if autogenerated k then go rest
            else (k, match v with
                     | JArr l => JArr (map (λ item, match item with JArr _ => item | _ => RemoveAutogeneratedFields item end) l)
                     | _ => RemoveAutogeneratedFields v
                     end) :: go rest
        end) fields)
  | _ => obj
  end.

Definition stripFromMap (ann : json) : json :=
  match ann with
  | JObj fields => JObj (foldr without_key fields KueueAnnotationsToStrip)
  | _ => ann
  end.
(** The annotations of the template of a group. *)
Definition strip_template (group : json) : json :=
  match nested_map ["template"; "metadata"] group with
  | Some meta =>
      match nested_map ["annotations"] meta with
      | Some ann => put ["template"; "metadata"] (put ["annotations"] (stripFromMap ann) meta) group
      | None => group
      end
  | None => group
  end.
Definition RemoveKueueWorkloadAnnotations (rc : json) : json :=
  let rc := match nested_map ["metadata"; "annotations"] rc with
            | Some ann => put ["metadata"; "annotations"] (stripFromMap ann) rc
            | None => rc
            end in
  match nested_map ["spec"] rc with
  | None => rc
  | Some spec =>
      let spec := match nested_map ["headGroupSpec"] spec with
                  | Some head => put ["headGroupSpec"] (strip_template head) spec
                  | None => spec
                  end in
      let spec := match nested_slice ["workerGroupSpecs"] spec with
                  | Some workers => put ["workerGroupSpecs"] (JArr (map strip_template workers)) spec
                  | None => spec
                  end in
      put ["spec"] spec rc
  end.

(** *** Detection *)
Definition container_components (group : string) (c : json) : list string :=
  ((if named_in ContainersToRemove c then [group +:+ ": oauth-proxy sidecar container"] else []) ++
   match find (named_in TLSEnvVars) (arr_at "env" c) with
   | Some e => [group +:+ ": TLS env var " +:+ nested_string ["name"] e]
   | None => []
   end)%list.
Definition checkPodSpecForTLSOAuth (podSpec : json) (group : string) : list string :=
  (flat_map (container_components group) (arr_at "containers" podSpec) ++
   flat_map (λ c, if named_in CodeFlareInitContainers c
                  then [group +:+ ": initContainer '" +:+ nested_string ["name"] c +:+ "' (cert generation)"] else [])
     (arr_at "initContainers" podSpec) ++
   flat_map (λ v, if named_in VolumesToRemove v then [group +:+ ": TLS volume " +:+ nested_string ["name"] v] else [])
     (arr_at "volumes" podSpec))%list.

Definition template_components (group : string) (v : json) : list string :=
  match nested_map ["template"; "spec"] v with
  | Some template => checkPodSpecForTLSOAuth template group
  | None => []
  end.
Definition worker_label (i : nat) : string := "worker[" +:+ show_nat i +:+ "]".
Definition HasTLSOAuthComponents (rc : json) : bool * list string :=
  match nested_map ["spec"] rc with
  | None => (false, [])
  | Some spec =>
      let head_components :=
        match nested_map ["headGroupSpec"] spec with
        | Some head =>
            ((if nested_true ["enableIngress"] head then ["head: enableIngress=true"] else []) ++
             template_components "head" head)%list
        | None => []
        end in
      let worker_components :=
        concat (imap (λ i w, template_components (worker_label i) w) (arr_at "workerGroupSpecs" spec)) in
      let components := (head_components ++ worker_components)%list in
      ((0 <? length components)%nat, components)
  end.

(** *** Removal *)
(** The list under a key, less the elements named in the table; an empty
    list goes away. *)
Definition prune_list (key : string) (table : list string) (obj : json) : json :=
  match nested_slice [key] obj with
  | Some l =>
      match List.filter (λ v, negb (named_in table v)) l with
      | [] => RemoveNestedField [key] obj
      | kept => put [key] (JArr kept) obj
      end
  | None => obj
  end.
Definition cleanContainerTLSComponents (container : json) : json :=
  prune_list "volumeMounts" VolumeMountsToRemove (prune_list "env" TLSEnvVars container).

Definition kept_containers (l : list json) : list json :=
  map cleanContainerTLSComponents (List.filter (λ c, negb (named_in ContainersToRemove c)) l).
(** The list under a key, less what [keep] leaves out. *)
Definition rewrite_list (key : string) (keep : list json → list json) (obj : json) : json :=
  match nested_slice [key] obj with
  | Some l => put [key] (appended (keep l)) obj
  | None => obj
  end.
Definition kept_volumes : list json → list json := List.filter (λ v, negb (named_in VolumesToRemove v)).
Definition cleanPodSpecTLSComponents (podSpec : json) : json :=
  let removedOAuthProxy := existsb (named_in ContainersToRemove) (arr_at "containers" podSpec) in
  let podSpec := rewrite_list "containers" kept_containers podSpec in
  let podSpec := prune_list "initContainers" CodeFlareInitContainers podSpec in
  let podSpec := if removedOAuthProxy then RemoveNestedField ["serviceAccountName"] podSpec else podSpec in
  rewrite_list "volumes" kept_volumes podSpec.

(** The pod template of a head or worker group. *)
Definition clean_template (group : json) : json :=
  match nested_map ["template"; "spec"] group with
  | Some template => put ["template"; "spec"] (cleanPodSpecTLSComponents template) group
  | None => group
  end.
Definition clean_head (head : json) : json :=
  clean_template (if nested_true ["enableIngress"] head then put ["enableIngress"] (JBool false) head else head).
Definition process_spec (spec : json) : json :=
  let spec := match nested_map ["headGroupSpec"] spec with
              | Some head => put ["headGroupSpec"] (clean_head head) spec
              | None => spec
              end in
  match nested_slice ["workerGroupSpecs"] spec with
  | Some workers => put ["workerGroupSpecs"] (JArr (map (λ w, clean_template (as_map w)) workers)) spec
  | None => spec
  end.
Definition ProcessRayClusterYAML (rc : json) : json :=
  match nested_map ["spec"] rc with
  | None => rc
  | Some spec => put ["spec"] (process_spec spec) rc
  end.

(** *** The verdict *)
Definition some_components (components : list string) : string := join ", " (take 3 components).
Definition IsClusterMigrated (rc : json) : bool * string :=
  let hasAnnotation := String.eqb (at_key (GetAnnotations rc) SecureNetworkAnnotation) "true" in
  let '(hasTLS, components) := HasTLSOAuthComponents rc in
  match hasAnnotation, hasTLS with
  | true, false => (true, "Already migrated (has annotation, no TLS/OAuth components)")
  | true, true => (false, "Partially migrated (has annotation but still has: " +:+ some_components components +:+ ")")
  | false, false => (false, "Needs annotation only (no TLS/OAuth components found)")
  | false, true => (false, "Needs migration (has: " +:+ some_components components +:+ ")")
  end.

(** ** Lemmas on nested fields *)
Lemma nested_cons k path obj : nested (k :: path) obj = field k obj ≫= nested path.
Proof. destruct obj as [| | | | |fields]; [done..|]. unfold field. cbn [nested]. by destruct (find _ fields). Qed.

Lemma field_some_obj k obj v : field k obj = Some v → ∃ fields, obj = JObj fields.
Proof. destruct obj; [done..|]. by eexists. Qed.

Lemma with_key_same k v fields : field k (JObj fields) = Some v → with_key k v fields = fields.
Proof.
  unfold field. induction fields as [|[q w] fields IH]; simpl; [done|].
  destruct (String.eqb_spec q k) as [->|Hq]; simpl; [by intros [= ->]|]. intros H. by rewrite IH.
Qed.

(** Replacing a field that is there. *)
Lemma set_nested_spec path seen v obj w :
  path ≠ [] → nested path obj = Some w →
  ∃ obj', set_nested seen path v obj = Ok obj' ∧ nested path obj' = Some v ∧
          (∀ k p, head path ≠ Some k → nested (k :: p) obj' = nested (k :: p) obj) ∧ (v = w → obj' = obj).
Proof.
  revert seen obj. induction path as [|k path IH]; intros seen obj Hne Hn; [done|].
  rewrite nested_cons in Hn. destruct (field k obj) as [inner|] eqn:Hf; [|done]. cbn in Hn.
  destruct (field_some_obj _ _ _ Hf) as [fields ->]. destruct path as [|k2 path].
  - cbn in Hn. injection Hn as ->. eexists. split; [reflexivity|]. split; [|split].
    + rewrite nested_cons, field_with_key, String.eqb_refl. done.
    + intros k' p Hk. rewrite !nested_cons, field_with_key. cbn in Hk. by rewrite (proj2 (String.eqb_neq k k')) by congruence.
    + intros ->. by rewrite with_key_same.
  - destruct (field_some_obj k2 inner) with (v := default w (field k2 inner)) as [ifields ->].
    { rewrite nested_cons in Hn. by destruct (field k2 inner). }
    destruct (IH (seen ++ [k])%list (JObj ifields)) as (inner' & Hs & Hv & _ & Hsame); [done|done|].
    cbn [set_nested]. rewrite Hf. cbn [set_nested] in Hs. rewrite Hs. cbn [res_bind]. eexists. split; [reflexivity|]. split; [|split].
    + rewrite nested_cons, field_with_key, String.eqb_refl. done.
    + intros k' p Hk. rewrite !nested_cons, field_with_key. cbn in Hk. by rewrite (proj2 (String.eqb_neq k k')) by congruence.
    + intros Hvw. rewrite (Hsame Hvw). by rewrite with_key_same.
Qed.

Section Put.
Context (path : list string) (v obj w : json) (Hpath : path ≠ []) (Hw : nested path obj = Some w).
Lemma nested_put : nested path (put path v obj) = Some v.
Proof using Hpath Hw. unfold put, SetNestedField. by destruct (set_nested_spec path [] v obj w) as (obj' & -> & ? & _). Qed.
Lemma nested_put_other k p : head path ≠ Some k → nested (k :: p) (put path v obj) = nested (k :: p) obj.
Proof using Hpath Hw. unfold put, SetNestedField. destruct (set_nested_spec path [] v obj w) as (obj' & -> & ? & H & _); auto. Qed.
Lemma put_same : v = w → put path v obj = obj.
Proof using Hpath Hw. unfold put, SetNestedField. destruct (set_nested_spec path [] v obj w) as (obj' & -> & ? & _ & H); auto. Qed.
End Put.

Lemma nested_map_some path obj m : nested_map path obj = Some m → nested path obj = Some m ∧ ∃ fields, m = JObj fields.
Proof. unfold nested_map. destruct (nested path obj) as [[]|]; naive_solver. Qed.
Lemma nested_slice_some path obj l : nested_slice path obj = Some l → nested path obj = Some (JArr l).
Proof. unfold nested_slice. destruct (nested path obj) as [[]|]; naive_solver. Qed.
Lemma arr_at_slice k obj : arr_at k obj = default [] (nested_slice [k] obj).
Proof. unfold arr_at, nested_slice. by destruct (nested [k] obj) as [[]|]. Qed.
Lemma arr_at_nested k obj obj' : nested [k] obj' = nested [k] obj → arr_at k obj' = arr_at k obj.
Proof. unfold arr_at. by intros ->. Qed.
Lemma nested_slice_nested path obj obj' : nested path obj' = nested path obj → nested_slice path obj' = nested_slice path obj.
Proof. unfold nested_slice. by intros ->. Qed.

Lemma nested_remove k k' p obj :
  nested (k' :: p) (RemoveNestedField [k] obj) = if String.eqb k k' then None else nested (k' :: p) obj.
Proof.
  destruct obj as [| | | | |fields]; [by cbn; destruct (String.eqb k k')..|].
  rewrite !nested_cons. cbn [RemoveNestedField]. rewrite field_without_key. by destruct (String.eqb k k').
Qed.

(** ** Lemmas on the removal *)
Lemma filter_idem {A} (f : A → bool) l : List.filter f (List.filter f l) = List.filter f l.
Proof. induction l as [|x l IH]; [done|]. cbn. destruct (f x) eqn:Hx; cbn; [by rewrite Hx, IH|done]. Qed.

Lemma prune_other k t k' p obj : k ≠ k' → nested (k' :: p) (prune_list k t obj) = nested (k' :: p) obj.
Proof.
  intros Hk. unfold prune_list. destruct (nested_slice [k] obj) as [l|] eqn:Hl; [|done]. apply nested_slice_some in Hl.
  case_match; [by rewrite nested_remove, (proj2 (String.eqb_neq k k'))|].
  eapply nested_put_other; [done|exact Hl|]. cbn. congruence.
Qed.
Lemma prune_arr k t obj : arr_at k (prune_list k t obj) = List.filter (λ v, negb (named_in t v)) (arr_at k obj).
Proof.
  unfold prune_list. rewrite (arr_at_slice k obj). destruct (nested_slice [k] obj) as [l|] eqn:Hl; cbn [default from_option id].
  - apply nested_slice_some in Hl. destruct (List.filter _ l) as [|v kept] eqn:Hkept; unfold arr_at.
    + by rewrite nested_remove, String.eqb_refl.
    + by rewrite (nested_put [k] _ obj (JArr l)).
  - rewrite arr_at_slice, Hl. done.
Qed.
Lemma prune_id k t obj :
  (∀ l, nested_slice [k] obj = Some l → l ≠ [] ∧ List.filter (λ v, negb (named_in t v)) l = l) → prune_list k t obj = obj.
Proof.
  intros Hl. unfold prune_list. destruct (nested_slice [k] obj) as [l|] eqn:Hs; [|done].
  destruct (Hl l eq_refl) as [Hne ->]. apply nested_slice_some in Hs. destruct l as [|v l]; [done|].
  by apply (put_same [k] _ obj (JArr (v :: l))).
Qed.
Lemma prune_kept k t obj l :
  nested_slice [k] (prune_list k t obj) = Some l → l ≠ [] ∧ List.filter (λ v, negb (named_in t v)) l = l.
Proof.
  unfold prune_list. destruct (nested_slice [k] obj) as [l0|] eqn:Hs; [|congruence]. apply nested_slice_some in Hs.
  destruct (List.filter _ l0) as [|v kept] eqn:Hkept; unfold nested_slice.
  - by rewrite nested_remove, String.eqb_refl.
  - rewrite (nested_put [k] _ obj (JArr l0)) by done. intros [= <-]. split; [done|]. by rewrite <-Hkept, filter_idem.
Qed.

Section RewriteList.
Context (k : string) (keep : list json → list json).
Lemma rewrite_other k' p obj : k ≠ k' → nested (k' :: p) (rewrite_list k keep obj) = nested (k' :: p) obj.
Proof.
  intros Hk. unfold rewrite_list. destruct (nested_slice [k] obj) as [l|] eqn:Hl; [|done]. apply nested_slice_some in Hl.
  eapply nested_put_other; [done|exact Hl|]. cbn. congruence.
Qed.
Lemma rewrite_arr obj : keep [] = [] → arr_at k (rewrite_list k keep obj) = keep (arr_at k obj).
Proof.
  intros Hnil. unfold rewrite_list. rewrite (arr_at_slice k obj). destruct (nested_slice [k] obj) as [l|] eqn:Hl; cbn [default from_option id].
  - apply nested_slice_some in Hl. unfold arr_at. rewrite (nested_put [k] _ obj (JArr l)) by done. by destruct (keep l).
  - by rewrite arr_at_slice, Hl.
Qed.
Lemma rewrite_id obj : (∀ l, nested_slice [k] obj = Some l → l ≠ [] ∧ keep l = l) → rewrite_list k keep obj = obj.
Proof.
  intros Hl. unfold rewrite_list. destruct (nested_slice [k] obj) as [l|] eqn:Hs; [|done].
  destruct (Hl l eq_refl) as [Hne ->]. apply nested_slice_some in Hs. destruct l as [|v l]; [done|].
  by apply (put_same [k] _ obj (JArr (v :: l))).
Qed.
Lemma rewrite_kept obj l :
  (∀ l, keep (keep l) = keep l) → nested_slice [k] (rewrite_list k keep obj) = Some l → l ≠ [] ∧ keep l = l.
Proof.
  intros Hidem. unfold rewrite_list. destruct (nested_slice [k] obj) as [l0|] eqn:Hs; [|congruence]. apply nested_slice_some in Hs.
  unfold nested_slice. rewrite (nested_put [k] _ obj (JArr l0)) by done.
  destruct (keep l0) as [|v kept] eqn:Hk; cbn; [done|]. intros [= <-]. split; [done|]. by rewrite <-Hk, Hidem.
Qed.
End RewriteList.

(** Containers. *)
Lemma clean_container_other k p c :
  k ≠ "env" → k ≠ "volumeMounts" → nested (k :: p) (cleanContainerTLSComponents c) = nested (k :: p) c.
Proof. intros H1 H2. unfold cleanContainerTLSComponents. rewrite prune_other by (by intros <-). by rewrite prune_other by (by intros <-). Qed.
Lemma clean_container_env c :
  arr_at "env" (cleanContainerTLSComponents c) = List.filter (λ v, negb (named_in TLSEnvVars v)) (arr_at "env" c).
Proof. unfold cleanContainerTLSComponents. rewrite <-prune_arr. apply arr_at_nested, prune_other. done. Qed.
Lemma named_clean_container t c : named_in t (cleanContainerTLSComponents c) = named_in t c.
Proof. unfold named_in, nested_string. by rewrite clean_container_other. Qed.
Lemma clean_container_idem c : cleanContainerTLSComponents (cleanContainerTLSComponents c) = cleanContainerTLSComponents c.
Proof.
  unfold cleanContainerTLSComponents at 1. rewrite (prune_id "env").
  - apply prune_id. intros l. unfold cleanContainerTLSComponents. apply prune_kept.
  - intros l. unfold cleanContainerTLSComponents. rewrite (nested_slice_nested ["env"] (prune_list "env" TLSEnvVars c)) by (by apply prune_other).
    apply prune_kept.
Qed.
Lemma kept_containers_none l : Forall (λ c, named_in ContainersToRemove c = false) (kept_containers l).
Proof.
  unfold kept_containers. apply Forall_map, list.Forall_forall. intros c [_ Hc]%list_elem_of_In%filter_In.
  cbn. rewrite named_clean_container. by apply negb_true_iff.
Qed.
Lemma kept_containers_idem l : kept_containers (kept_containers l) = kept_containers l.
Proof.
  unfold kept_containers. induction l as [|c l IH]; [done|]. cbn. destruct (named_in ContainersToRemove c) eqn:Hc; cbn; [done|].
  rewrite named_clean_container, Hc. cbn. by rewrite clean_container_idem, IH.
Qed.

(** Pod specifications. *)
Lemma clean_spec_exact ps :
  let ps' := cleanPodSpecTLSComponents ps in
  arr_at "containers" ps' = kept_containers (arr_at "containers" ps) ∧
  arr_at "initContainers" ps' = List.filter (λ c, negb (named_in CodeFlareInitContainers c)) (arr_at "initContainers" ps) ∧
  arr_at "volumes" ps' = kept_volumes (arr_at "volumes" ps) ∧
  (∀ p, nested ("serviceAccountName" :: p) ps' =
    if existsb (named_in ContainersToRemove) (arr_at "containers" ps) then None else nested ("serviceAccountName" :: p) ps) ∧
  (∀ k p, k ∉ ["containers"; "initContainers"; "volumes"; "serviceAccountName"] → nested (k :: p) ps' = nested (k :: p) ps).
Proof.
  cbv zeta. unfold cleanPodSpecTLSComponents. set (b := existsb _ _).
  assert (∀ k p o, k ≠ "serviceAccountName" →
    nested (k :: p) (if b then RemoveNestedField ["serviceAccountName"] o else o) = nested (k :: p) o) as Hsa.
  { intros k p o Hk. destruct b; [|done]. by rewrite nested_remove, (proj2 (String.eqb_neq "serviceAccountName" k)). }
  assert (∀ k o, k ≠ "serviceAccountName" → arr_at k (if b then RemoveNestedField ["serviceAccountName"] o else o) = arr_at k o) as Hsa'.
  { intros k o Hk. by apply arr_at_nested, Hsa. }
  split; [|split; [|split; [|split]]].
  - rewrite <-rewrite_arr by done. apply arr_at_nested. rewrite rewrite_other, Hsa, prune_other by done. done.
  - rewrite (arr_at_nested "initContainers" (prune_list "initContainers" CodeFlareInitContainers (rewrite_list "containers" kept_containers ps))).
    { rewrite prune_arr. f_equal. apply arr_at_nested. by rewrite rewrite_other. }
    by rewrite rewrite_other, Hsa.
  - rewrite rewrite_arr by done. f_equal. apply arr_at_nested. by rewrite Hsa, prune_other, rewrite_other.
  - intros p. rewrite rewrite_other by done. destruct b; [by rewrite nested_remove|]. by rewrite prune_other, rewrite_other.
  - intros k p Hk. rewrite rewrite_other, Hsa, prune_other, rewrite_other; [done|set_solver..].
Qed.

Lemma clean_spec_idem ps : cleanPodSpecTLSComponents (cleanPodSpecTLSComponents ps) = cleanPodSpecTLSComponents ps.
Proof.
  destruct (clean_spec_exact ps) as (Hc & _). cbv zeta in Hc. set (ps' := cleanPodSpecTLSComponents ps) in *.
  unfold cleanPodSpecTLSComponents at 1. rewrite Hc.
  assert (existsb (named_in ContainersToRemove) (kept_containers (arr_at "containers" ps)) = false) as ->.
  { apply not_true_is_false. rewrite existsb_exists. intros (c & Hin%list_elem_of_In & Hb).
    pose proof (kept_containers_none (arr_at "containers" ps)) as Hn. rewrite list.Forall_forall in Hn. rewrite Hn in Hb; done. }
  assert (∀ k p o, k ≠ "serviceAccountName" → ∀ b : bool,
    nested (k :: p) (if b then RemoveNestedField ["serviceAccountName"] o else o) = nested (k :: p) o) as Hsa.
  { intros k p o Hk []; [|done]. by rewrite nested_remove, (proj2 (String.eqb_neq "serviceAccountName" k)). }
  rewrite (rewrite_id "containers" kept_containers ps'), (prune_id "initContainers"), (rewrite_id "volumes"); [done|..]; intros l.
  - apply rewrite_kept, filter_idem.
  - unfold ps', cleanPodSpecTLSComponents. erewrite nested_slice_nested; [apply prune_kept|]. rewrite rewrite_other, Hsa; done.
  - unfold ps', cleanPodSpecTLSComponents. erewrite nested_slice_nested; [apply (rewrite_kept "containers"), kept_containers_idem|].
    rewrite rewrite_other, Hsa, prune_other; done.
Qed.

(** Objects stay objects. *)
Lemma set_nested_object seen path v obj obj' : set_nested seen path v obj = Ok obj' → is_object obj' = is_object obj.
Proof.
  destruct obj as [| | | | |fields]; [by destruct path; intros [= <-]..|]. destruct path as [|k [|k2 path]]; [by intros [= <-]..|].
  cbn [set_nested]. destruct (field k (JObj fields)) as [[]|]; intros H; simplify_eq; by apply res_bind_Ok_inv in H as (? & _ & [= <-]).
Qed.
Lemma is_object_put path v obj : is_object (put path v obj) = is_object obj.
Proof. unfold put, SetNestedField. destruct (set_nested [] path v obj) eqn:H; [|done..]. by apply set_nested_object in H. Qed.
Lemma is_object_remove k obj : is_object (RemoveNestedField [k] obj) = is_object obj.
Proof. by destruct obj. Qed.
Lemma is_object_rewrite k keep obj : is_object (rewrite_list k keep obj) = is_object obj.
Proof. unfold rewrite_list. case_match; [apply is_object_put|done]. Qed.
Lemma is_object_prune k t obj : is_object (prune_list k t obj) = is_object obj.
Proof. unfold prune_list. repeat case_match; [apply is_object_remove|apply is_object_put|done]. Qed.
Lemma is_object_clean ps : is_object (cleanPodSpecTLSComponents ps) = is_object ps.
Proof.
  unfold cleanPodSpecTLSComponents. rewrite is_object_rewrite.
  case_match; [rewrite is_object_remove|]; by rewrite is_object_prune, is_object_rewrite.
Qed.
Lemma nested_map_intro path obj v : nested path obj = Some v → is_object v = true → nested_map path obj = Some v.
Proof. unfold nested_map. intros ->. by destruct v. Qed.
Lemma nested_map_nested path obj obj' : nested path obj' = nested path obj → nested_map path obj' = nested_map path obj.
Proof. unfold nested_map. by intros ->. Qed.

(** A field of objects under [put]. *)
Section PutMap.
Context (path : list string) (obj old new : json) (Hpath : path ≠ []).
Hypothesis Hold : nested_map path obj = Some old.
Lemma nested_map_put : is_object new = true → nested_map path (put path new obj) = Some new.
Proof using Hpath Hold. intros Hn. apply nested_map_some in Hold as [Ho _]. by apply nested_map_intro; [apply (nested_put path new obj old)|]. Qed.
Lemma nested_put_map_other k p : head path ≠ Some k → nested (k :: p) (put path new obj) = nested (k :: p) obj.
Proof using Hpath Hold. intros Hk. apply nested_map_some in Hold as [Ho _]. by apply (nested_put_other path new obj old). Qed.
Lemma put_map_same : new = old → put path new obj = obj.
Proof using Hpath Hold. intros Hn. apply nested_map_some in Hold as [Ho _]. by apply (put_same path new obj old). Qed.
Lemma nested_map_object : is_object old = true.
Proof using Hold. by apply nested_map_some in Hold as [_ [? ->]]. Qed.
End PutMap.

Lemma clean_template_other k p w : k ≠ "template" → nested (k :: p) (clean_template w) = nested (k :: p) w.
Proof.
  intros Hk. unfold clean_template. destruct (nested_map ["template"; "spec"] w) as [t|] eqn:Ht; [|done].
  eapply nested_put_map_other; [done|exact Ht|cbn; congruence].
Qed.
Lemma is_object_template w : is_object (clean_template w) = is_object w.
Proof. unfold clean_template. case_match; [apply is_object_put|done]. Qed.
Lemma clean_template_spec w :
  nested_map ["template"; "spec"] (clean_template w) = cleanPodSpecTLSComponents <$> nested_map ["template"; "spec"] w.
Proof.
  unfold clean_template. destruct (nested_map ["template"; "spec"] w) as [t|] eqn:Ht; [|done].
  rewrite (nested_map_put _ _ t); [done..|]. rewrite is_object_clean. by apply nested_map_object in Ht.
Qed.
Lemma clean_template_idem w : clean_template (clean_template w) = clean_template w.
Proof.
  unfold clean_template at 1. rewrite clean_template_spec. destruct (nested_map ["template"; "spec"] w) as [t|] eqn:Ht; [|done].
  cbn [fmap option_fmap option_map]. eapply put_map_same; [done|by rewrite clean_template_spec, Ht|apply clean_spec_idem].
Qed.

Lemma clean_head_ingress head : nested_true ["enableIngress"] (clean_head head) = false.
Proof.
  unfold nested_true at 1. unfold clean_head. rewrite clean_template_other by done. unfold nested_true.
  destruct (nested ["enableIngress"] head) as [[| [] | | | |]|] eqn:H; rewrite ?H; try done.
  by erewrite nested_put by (done || exact H).
Qed.
Lemma clean_head_idem head : clean_head (clean_head head) = clean_head head.
Proof. unfold clean_head at 1. rewrite clean_head_ingress. unfold clean_head. by rewrite clean_template_idem. Qed.
Lemma is_object_head head : is_object (clean_head head) = is_object head.
Proof. unfold clean_head. rewrite is_object_template. case_match; [apply is_object_put|done]. Qed.

(** *** The whole specification *)
Lemma process_spec_head spec :
  nested_map ["headGroupSpec"] (process_spec spec) = clean_head <$> nested_map ["headGroupSpec"] spec.
Proof.
  unfold process_spec. set (s1 := match nested_map ["headGroupSpec"] spec with Some _ => _ | None => spec end).
  assert (nested_map ["headGroupSpec"] s1 = clean_head <$> nested_map ["headGroupSpec"] spec) as Hs1.
  { unfold s1. destruct (nested_map ["headGroupSpec"] spec) as [head|] eqn:Hh; [|by rewrite Hh]. cbn.
    rewrite (nested_map_put _ _ head); [done..|]. rewrite is_object_head. by apply nested_map_object in Hh. }
  rewrite <-Hs1. destruct (nested_slice ["workerGroupSpecs"] s1) as [ws|] eqn:Hw; [|done]. apply nested_slice_some in Hw.
  apply nested_map_nested. by (eapply nested_put_other; [done|exact Hw|cbn; congruence]).
Qed.
Lemma process_spec_workers spec :
  nested_slice ["workerGroupSpecs"] (process_spec spec) =
  map (λ w, clean_template (as_map w)) <$> nested_slice ["workerGroupSpecs"] spec.
Proof.
  unfold process_spec. set (s1 := match nested_map ["headGroupSpec"] spec with Some _ => _ | None => spec end).
  assert (nested_slice ["workerGroupSpecs"] s1 = nested_slice ["workerGroupSpecs"] spec) as <-.
  { unfold s1. destruct (nested_map ["headGroupSpec"] spec) as [head|] eqn:Hh; [|done].
    apply nested_slice_nested. by (eapply nested_put_map_other; [done|exact Hh|cbn; congruence]). }
  destruct (nested_slice ["workerGroupSpecs"] s1) as [ws|] eqn:Hw; [|by rewrite Hw]. apply nested_slice_some in Hw.
  unfold nested_slice. by erewrite nested_put by (done || exact Hw).
Qed.
Lemma is_object_process spec : is_object (process_spec spec) = is_object spec.
Proof. unfold process_spec. repeat case_match; rewrite ?is_object_put; done. Qed.
Lemma process_spec_idem spec : process_spec (process_spec spec) = process_spec spec.
Proof.
  pose proof (process_spec_head spec) as Hh. pose proof (process_spec_workers spec) as Hw. set (s := process_spec spec) in *.
  unfold process_spec. assert ((match nested_map ["headGroupSpec"] s with Some head => put ["headGroupSpec"] (clean_head head) s | None => s end) = s) as ->.
  { destruct (nested_map ["headGroupSpec"] spec) as [head|]; cbn in Hh; rewrite Hh; [|done].
    eapply put_map_same; [done|exact Hh|apply clean_head_idem]. }
  destruct (nested_slice ["workerGroupSpecs"] spec) as [ws|]; cbn in Hw; rewrite Hw; [|done]. apply nested_slice_some in Hw.
  eapply put_same; [done|exact Hw|]. f_equal. rewrite map_map. apply map_ext. intros w.
  assert (as_map (clean_template (as_map w)) = clean_template (as_map w)) as ->; [|apply clean_template_idem].
  pose proof (is_object_template (as_map w)) as Ho. unfold as_map at 1.
  destruct w as [| | | | |fields]; [done..|]. cbn [as_map] in *. by destruct (clean_template (JObj fields)).
Qed.
Lemma process_spec_at rc : nested_map ["spec"] (ProcessRayClusterYAML rc) = process_spec <$> nested_map ["spec"] rc.
Proof.
  unfold ProcessRayClusterYAML. destruct (nested_map ["spec"] rc) as [spec|] eqn:Hs; [|by rewrite Hs].
  rewrite (nested_map_put _ _ spec); [done..|]. rewrite is_object_process. by apply nested_map_object in Hs.
Qed.
Lemma process_other k p rc : k ≠ "spec" → nested (k :: p) (ProcessRayClusterYAML rc) = nested (k :: p) rc.
Proof.
  intros Hk. unfold ProcessRayClusterYAML. destruct (nested_map ["spec"] rc) as [spec|] eqn:Hs; [|done].
  eapply nested_put_map_other; [done|exact Hs|cbn; congruence].
Qed.

(** *** Autogenerated fields *)
Definition strip_value (v : json) : json :=
  match v with
  | JArr l => JArr (map (λ item, match item with JArr _ => item | _ => RemoveAutogeneratedFields item end) l)
  | _ => RemoveAutogeneratedFields v
  end.
Lemma strip_fields fields :
  RemoveAutogeneratedFields (JObj fields) =
  JObj (map (λ kv, (kv.1, strip_value kv.2)) (List.filter (λ kv, negb (autogenerated kv.1)) fields)).
Proof.
  cbn [RemoveAutogeneratedFields]. f_equal. induction fields as [|[k v] fields IH]; [done|].
  cbn [List.filter fst]. destruct (autogenerated k); cbn [negb map fst snd]; [exact IH|]. by rewrite IH.
Qed.

(** A key at a place the traversal reaches: maps in maps, and maps in the
    lists that are fields. *)
Inductive occurs (k : string) : json → Prop :=
| occurs_here fields v : (k, v) ∈ fields → occurs k (JObj fields)
| occurs_field fields k' v : (k', v) ∈ fields → occurs k v → occurs k (JObj fields)
| occurs_item fields k' l item :
    (k', JArr l) ∈ fields → item ∈ l → occurs k item → occurs k (JObj fields).

Lemma json_deep_ind (P : json → Prop) :
  P JNull → (∀ b, P (JBool b)) → (∀ n, P (JNum n)) → (∀ s, P (JStr s)) →
  (∀ l, Forall P l → P (JArr l)) → (∀ fields, Forall (λ kv, P kv.2) fields → P (JObj fields)) → ∀ v, P v.
Proof.
  intros Hnull Hb Hn Hs Ha Ho. fix IH 1. intros [| | | |l|fields]; [done|apply Hb|apply Hn|apply Hs|apply Ha|apply Ho].
  - induction l; constructor; auto.
  - induction fields as [|[k v] fields IHf]; constructor; [apply IH|apply IHf].
Qed.

Lemma stripped_occurs k v : occurs k (RemoveAutogeneratedFields v) → autogenerated k = false.
Proof.
  revert v. assert (∀ v, (occurs k (RemoveAutogeneratedFields v) → autogenerated k = false) ∧
    match v with JArr l => Forall (λ i, occurs k (RemoveAutogeneratedFields i) → autogenerated k = false) l | _ => True end) as H;
    [|apply H].
  induction v as [| | | |l IH|fields IH] using json_deep_ind; (split; [|try done]); [intros H; inversion H..| |].
  { eapply Forall_impl; [exact IH|]. by intros i [Hi _]. }
  rewrite strip_fields.
  assert (∀ k' v', (k', v') ∈ map (λ kv, (kv.1, strip_value kv.2)) (List.filter (λ kv, negb (autogenerated kv.1)) fields) →
    autogenerated k' = false ∧ ∃ v, (k', v) ∈ fields ∧ v' = strip_value v) as Hin.
  { intros k' v' ([q v] & [= -> ->] & Hq)%list_elem_of_fmap. apply list_elem_of_In, filter_In in Hq as [Hq Hn%negb_true_iff].
    split; [exact Hn|]. exists v. split; [by apply list_elem_of_In|done]. }
  rewrite list.Forall_forall in IH. intros H. inversion H as [? v' Hv|? k' v' Hv Ho|? k' l item Hv Hi Ho]; subst.
  - by apply Hin in Hv as [? _].
  - apply Hin in Hv as (_ & v & Hv & ->). specialize (IH _ Hv) as [IH1 _]. cbn in IH1.
    destruct v; try (by apply IH1). inversion Ho.
  - apply Hin in Hv as (_ & v & Hv & Heq). specialize (IH _ Hv) as [_ IH2]. cbn in IH2.
    destruct v as [| | | |l0|fs]; cbn [strip_value] in Heq; try done.
    injection Heq as ->. apply list_elem_of_fmap in Hi as (i & -> & Hi). rewrite list.Forall_forall in IH2.
    destruct i as [| | | | |fs]; try (inversion Ho; fail). by apply (IH2 _ Hi).
Qed.

Lemma strip_field k fields :
  autogenerated k = false → field k (RemoveAutogeneratedFields (JObj fields)) = strip_value <$> field k (JObj fields).
Proof.
  intros Hk. rewrite strip_fields. unfold field. induction fields as [|[q v] fields IH]; [done|]. cbn [List.filter fst].
  destruct (autogenerated q) eqn:Hq; cbn [negb map List.find fst snd]; destruct (String.eqb_spec q k) as [->|Hne]; try done; congruence.
Qed.
Lemma strip_field_gone k fields : autogenerated k = true → field k (RemoveAutogeneratedFields (JObj fields)) = None.
Proof.
  intros Hk. rewrite strip_fields. unfold field. induction fields as [|[q v] fields IH]; [done|]. cbn [List.filter fst].
  destruct (autogenerated q) eqn:Hq; cbn [negb map List.find fst snd]; [done|]. destruct (String.eqb_spec q k); [congruence|done].
Qed.
Lemma strip_nested k v : nested [k] (strip_value v) = nested [k] (RemoveAutogeneratedFields v).
Proof. by destruct v. Qed.
Lemma strip_path path obj :
  Forall (λ k, autogenerated k = false) path → path ≠ [] →
  nested path (RemoveAutogeneratedFields obj) = strip_value <$> nested path obj.
Proof.
  revert obj. induction path as [|k path IH]; intros obj Hp Hne; [done|]. inversion Hp as [|? ? Hk Hp']; subst.
  rewrite !nested_cons. destruct obj as [| | | | |fields]; [done..|]. rewrite strip_field by done.
  destruct (field k (JObj fields)) as [inner|]; [|done]. cbn. destruct path as [|k2 path]; [done|].
  rewrite <-(IH inner) by done. by destruct inner.
Qed.
Lemma strip_metadata_gone k obj : autogenerated k = true → nested ["metadata"; k] (RemoveAutogeneratedFields obj) = None.
Proof.
  intros Hk. rewrite nested_cons. destruct obj as [| | | | |fields]; [done..|]. rewrite strip_field by done.
  destruct (field "metadata" (JObj fields)) as [meta|]; [|done]. cbn [fmap option_fmap option_map mbind option_bind].
  rewrite nested_cons. destruct meta as [| | | | |mf]; [done..|]. cbn [strip_value]. by rewrite strip_field_gone.
Qed.
Lemma strip_text path obj :
  Forall (λ k, autogenerated k = false) path → path ≠ [] →
  nested_string path (RemoveAutogeneratedFields obj) = nested_string path obj.
Proof. intros Hp Hne. unfold nested_string. rewrite strip_path by done. by destruct (nested path obj) as [[]|]. Qed.

(** A key of the metadata, there or not. *)
Lemma put_metadata k v obj m :
  nested_map ["metadata"] obj = Some m →
  nested ["metadata"; k] (put ["metadata"; k] v obj) = Some v ∧
  (∀ k' p, k' ≠ k → nested ("metadata" :: k' :: p) (put ["metadata"; k] v obj) = nested ("metadata" :: k' :: p) obj) ∧
  (∀ k' p, k' ≠ "metadata" → nested (k' :: p) (put ["metadata"; k] v obj) = nested (k' :: p) obj).
Proof.
  intros [Hm [mf ->]]%nested_map_some. destruct obj as [| | | | |fields]; [done..|].
  rewrite nested_cons in Hm. destruct (field "metadata" (JObj fields)) as [m|] eqn:Hf; cbn in Hm; [|done]. injection Hm as ->.
  unfold put, SetNestedField. cbn [set_nested]. rewrite Hf. cbn [res_bind]. split; [|split].
  - rewrite nested_cons, field_with_key, String.eqb_refl. cbn [mbind option_bind].
    by rewrite nested_cons, field_with_key, String.eqb_refl.
  - intros k' p Hk. rewrite !(nested_cons "metadata"), field_with_key, String.eqb_refl, Hf. cbn [mbind option_bind].
    by rewrite !nested_cons, field_with_key, (proj2 (String.eqb_neq k k')) by congruence.
  - intros k' p Hk. by rewrite !nested_cons, field_with_key, (proj2 (String.eqb_neq "metadata" k')) by congruence.
Qed.
Lemma HasTLS_nested rc rc' : nested ["spec"] rc' = nested ["spec"] rc → HasTLSOAuthComponents rc' = HasTLSOAuthComponents rc.
Proof. intros H. unfold HasTLSOAuthComponents. by rewrite (nested_map_nested _ _ _ H). Qed.
Lemma GetName_nested obj : GetName obj = nested_string ["metadata"; "name"] obj.
Proof.
  unfold GetName, nested_string, string_field. rewrite nested_cons. destruct (field "metadata" obj) as [m|]; [|done].
  cbn [mbind option_bind]. rewrite nested_cons. by destruct (field "name" m).
Qed.

(** ** Properties *)
Module RayClustersSpec.
Lemma no_components {A} (f : A → list string) l : Forall (λ x, f x = []) l → flat_map f l = [].
Proof. induction 1 as [|x l Hx _ IH]; [done|]. cbn. by rewrite Hx, IH. Qed.
Lemma filtered_none t l : Forall (λ v, named_in t v = false) (List.filter (λ v, negb (named_in t v)) l).
Proof. apply list.Forall_forall. intros v [_ Hv]%list_elem_of_In%filter_In. by apply negb_true_iff. Qed.

Lemma clean_spec_components ps group : checkPodSpecForTLSOAuth (cleanPodSpecTLSComponents ps) group = [].
Proof.
  destruct (clean_spec_exact ps) as (Hc & Hi & Hv & _). cbv zeta in *. unfold checkPodSpecForTLSOAuth. rewrite Hc, Hi, Hv.
  rewrite !no_components; [done|..].
  - eapply Forall_impl; [apply filtered_none|]. by intros v ->.
  - eapply Forall_impl; [apply filtered_none|]. by intros v ->.
  - unfold kept_containers. apply Forall_map, list.Forall_forall. intros c [_ Hn%negb_true_iff]%list_elem_of_In%filter_In.
    cbn. unfold container_components. rewrite named_clean_container, Hn, clean_container_env.
    destruct (find _ _) as [e|] eqn:He; [|done]. apply find_some in He as [He1 He2].
    apply list_elem_of_In in He1. pose proof (filtered_none TLSEnvVars (arr_at "env" c)) as Hf.
    rewrite list.Forall_forall in Hf. rewrite (Hf _ He1) in He2. done.
Qed.
Lemma clean_template_components group w : template_components group (clean_template w) = [].
Proof.
  unfold template_components. rewrite clean_template_spec. destruct (nested_map _ w); [|done]. apply clean_spec_components.
Qed.

Lemma processed_no_tls rc : HasTLSOAuthComponents (ProcessRayClusterYAML rc) = (false, []).
Proof.
  unfold HasTLSOAuthComponents. rewrite process_spec_at. destruct (nested_map ["spec"] rc) as [spec|]; [|done].
  cbn [fmap option_fmap option_map]. rewrite process_spec_head, arr_at_slice, process_spec_workers.
  assert ((match clean_head <$> nested_map ["headGroupSpec"] spec with
    | Some head => ((if nested_true ["enableIngress"] head then ["head: enableIngress=true"] else []) ++ template_components "head" head)%list
    | None => [] end) = []) as ->.
  { destruct (nested_map ["headGroupSpec"] spec) as [head|]; [|done]. cbn [fmap option_fmap option_map].
    rewrite clean_head_ingress. unfold clean_head. by rewrite clean_template_components. }
  assert (∀ ws (f : nat → string), concat (imap (λ i w, template_components (f i) w) (map (λ w, clean_template (as_map w)) ws)) = []) as Hws.
  { induction ws as [|w ws IH]; intros f; [done|]. cbn. rewrite clean_template_components. apply (IH (λ i, f (Datatypes.S i))). }
  destruct (nested_slice ["workerGroupSpecs"] spec) as [ws|]; cbn [fmap option_fmap option_map default from_option id]; [|done].
  by rewrite Hws.
Qed.

(** A processed cluster has no TLS or OAuth component left, by the
    detection the migration itself uses. *)
Theorem processed_has_no_tls rc : HasTLSOAuthComponents (ProcessRayClusterYAML rc) = (false, []).
Proof. apply processed_no_tls. Qed.

(** Processing a second time changes nothing. *)
Theorem process_idempotent rc : ProcessRayClusterYAML (ProcessRayClusterYAML rc) = ProcessRayClusterYAML rc.
Proof.
  unfold ProcessRayClusterYAML at 1. rewrite process_spec_at. destruct (nested_map ["spec"] rc) as [spec|] eqn:Hs; [|done].
  cbn [fmap option_fmap option_map].
  eapply put_map_same; [done|by rewrite process_spec_at, Hs|apply process_spec_idem].
Qed.

(** What processing does to a pod specification: the sidecar containers,
    the certificate init containers and the TLS volumes go, in order and
    nothing else of these lists; the service account goes with a sidecar;
    every other field stays.  A container that stays loses its TLS variables
    and mounts and keeps every other field. *)
Theorem cleaned_pod_spec_exact ps :
  let ps' := cleanPodSpecTLSComponents ps in
  arr_at "containers" ps' =
    map cleanContainerTLSComponents (List.filter (λ c, negb (named_in ContainersToRemove c)) (arr_at "containers" ps)) ∧
  arr_at "initContainers" ps' = List.filter (λ c, negb (named_in CodeFlareInitContainers c)) (arr_at "initContainers" ps) ∧
  arr_at "volumes" ps' = List.filter (λ v, negb (named_in VolumesToRemove v)) (arr_at "volumes" ps) ∧
  (∀ p, nested ("serviceAccountName" :: p) ps' =
    if existsb (named_in ContainersToRemove) (arr_at "containers" ps) then None else nested ("serviceAccountName" :: p) ps) ∧
  (∀ k p, k ∉ ["containers"; "initContainers"; "volumes"; "serviceAccountName"] → nested (k :: p) ps' = nested (k :: p) ps) ∧
  (∀ c, let c' := cleanContainerTLSComponents c in
    arr_at "env" c' = List.filter (λ v, negb (named_in TLSEnvVars v)) (arr_at "env" c) ∧
    arr_at "volumeMounts" c' = List.filter (λ v, negb (named_in VolumeMountsToRemove v)) (arr_at "volumeMounts" c) ∧
    ∀ k p, k ∉ ["env"; "volumeMounts"] → nested (k :: p) c' = nested (k :: p) c).
Proof.
  cbv zeta. destruct (clean_spec_exact ps) as (Hc & Hi & Hv & Hsa & Ho). do 5 (split; [done|]). intros c.
  split; [apply clean_container_env|]. split.
  - unfold cleanContainerTLSComponents. rewrite prune_arr. f_equal. by apply arr_at_nested, prune_other.
  - intros k p Hk. apply clean_container_other; set_solver.
Qed.

(** The verdict after processing is the annotation's: without it the
    cluster still counts as not migrated. *)
Theorem verdict_after_processing rc :
  IsClusterMigrated (ProcessRayClusterYAML rc) =
  if String.eqb (at_key (GetAnnotations rc) SecureNetworkAnnotation) "true"
  then (true, "Already migrated (has annotation, no TLS/OAuth components)")
  else (false, "Needs annotation only (no TLS/OAuth components found)").
Proof.
  unfold IsClusterMigrated. rewrite processed_no_tls.
  assert (GetAnnotations (ProcessRayClusterYAML rc) = GetAnnotations rc) as -> by (unfold GetAnnotations; by rewrite process_other).
  by destruct (String.eqb _ "true").
Qed.

(** A backup keeps no autogenerated key anywhere in maps or in the lists
    that are their fields. *)
Theorem autogenerated_fields_are_gone k rc : occurs k (RemoveAutogeneratedFields rc) → autogenerated k = false.
Proof. apply stripped_occurs. Qed.

Lemma autogenerated_fields_are_gone_witness : autogenerated "metadata" = false.
Proof.
  apply (autogenerated_fields_are_gone "metadata" (JObj [("status", JNull); ("metadata", JObj [("uid", JStr "7")])])).
  apply (occurs_here _ _ (JObj [])). left.
Defined.

(** And every text under other keys is there as it was. *)
Theorem backup_keeps_texts path rc s :
  Forall (λ k, autogenerated k = false) path → path ≠ [] → nested path rc = Some (JStr s) →
  nested path (RemoveAutogeneratedFields rc) = Some (JStr s).
Proof. intros Hp Hne Hn. by rewrite strip_path, Hn. Qed.

Lemma backup_keeps_texts_witness :
  nested ["metadata"; "name"] (RemoveAutogeneratedFields (JObj [("metadata", JObj [("name", JStr "a"); ("uid", JStr "7")])])) = Some (JStr "a").
Proof. apply (backup_keeps_texts ["metadata"; "name"]); [by repeat constructor|done|reflexivity]. Defined.

(** A label of the user called [status] is no part of the status, and is
    left out of the backup all the same. *)
Example backup_drops_user_keys :
  RemoveAutogeneratedFields (JObj [("metadata", JObj [("labels", JObj [("status", JStr "prod"); ("team", JStr "a")])])]) =
  JObj [("metadata", JObj [("labels", JObj [("team", JStr "a")])])].
Proof. reflexivity. Qed.
End RayClustersSpec.
