(* ===== verification/RayMigration.v ===== *)
(** * RayMigration: pkg/migrate/raycluster and its actions

    The checks before the upgrade (preflight.go), the backup (backup.go), the
    listing (list.go, clusters.go, route.go), the migration in place or from a
    backup (migrate.go), and the two actions that run them
    (pkg/migrate/actions/raycluster). *)
From Stdlib Require Import Ascii.
From S2P Require Import Prelude GoStrings FilePath Errors Client Version Result Check DepsCheck BackupDeps Backup WorkloadHelpers.
From S2P Require Import KueueIntegrity NotebookChecks DashboardChecks Recorder Action Programs Cluster PipelineActions RayClusters.
Open Scope string_scope.
Open Scope Z_scope.
Open Scope prog_scope.

(** ** Paths *)
(** [filepath.Ext] and [filepath.Base] *)
Definition path_Ext (name : string) : string :=
  match cut_last "."%char name with
  | Some (_, ext) => if contains_byte "/"%char ext then "" else "." +:+ ext
  | None => ""
  end.
Fixpoint trim_slashes (s : string) : string :=
  match s with
  | EmptyString => EmptyString
  | String a s' => let t := trim_slashes s' in if String.eqb t "" && Ascii.eqb a "/"%char then "" else String a t
  end.
Definition path_Base (path : string) : string :=
  if String.eqb path "" then "."
  else
    let path := trim_slashes path in
    let base := match cut_last "/"%char path with Some (_, b) => b | None => path end in
    if String.eqb base "" then "/" else base.

(** [%-ns] of a text of one-byte characters *)
Fixpoint pad (n : nat) (s : string) : string :=
  match n, s with
  | O, _ => s
  | Datatypes.S n', EmptyString => String " " (pad n' EmptyString)
  | Datatypes.S n', String a s' => String a (pad n' s')
  end.

(** ** Lists with options *)
Definition list_in (rt : ResourceType) (namespace labelSelector : string) : M (list json) :=
  kListAll rt {| lo_Namespace := namespace; lo_LabelSelector := labelSelector; lo_FieldSelector := ""; lo_Limit := 0 |}.

(** A method of a nil object. *)
Definition nil_dereference := "runtime error: invalid memory address or nil pointer dereference".
Definition deref {A} (rc : option json) (k : json → M A) : M A :=
  match rc with Some rc => k rc | None => m_lift (Panic nil_dereference) end.
Definition namespace_of (rc : json) : string := nonempty (GetNamespace rc) DefaultNamespace.
Definition object_title (rc : json) : string := GetName rc +:+ " (ns: " +:+ namespace_of rc +:+ ")".

(** ** Polling

    The loops of migrate.go: the context is looked at before each attempt and
    during the wait after it. *)
Fixpoint poll {A} (n : nat) (interval : Z) (body : M (option A)) (cancelled : go_error → M A) (exhausted : M A) : M A :=
  match n with
  | O => exhausted
  | Datatypes.S n' =>
      let* ended := call KCancelled in
      match ended with
      | Some err => cancelled err
      | None =>
          let* got := body in
          match got with
          | Some a => m_ret a
          | None =>
              let* ended := call (KSleep interval) in
              match ended with
              | Some err => cancelled err
              | None => poll n' interval body cancelled exhausted
              end
          end
      end
  end.

(** ** Constants *)
Definition routeWaitInterval : Z := 2 * second.
Definition deletionWaitMaxAttempts : nat := 60.
Definition deletionWaitInterval : Z := 2 * second.
Definition healthCheckWaitInterval : Z := 2 * second.
Definition attempts (timeout interval : Z) : nat := Z.to_nat (Z.max (Z.quot timeout interval) 1).

(** ** preflight.go: data *)
Record PreflightCheck := mkPreflight {
  pf_Name : string;
  pf_Passed : bool;
  pf_Message : string;
  pf_Required : bool;
  pf_Help : string;
  pf_Details : list string;
}.
Definition preflight_backoff : Backoff := mkBackoff (second / 2) 5 0.
Definition certManagerHelp :=
  "cert-manager is required for RHOAI 3.x. Install it via OperatorHub before proceeding with the upgrade.".
Definition codeflareHelp :=
  "Set codeflare to Removed in your DataScienceCluster before upgrading: oc patch datasciencecluster <name> --type merge -p '{" +:+
  dquote +:+ "spec" +:+ dquote +:+ ":{" +:+ dquote +:+ "components" +:+ dquote +:+ ":{" +:+ dquote +:+ "codeflare" +:+ dquote +:+
  ":{" +:+ dquote +:+ "managementState" +:+ dquote +:+ ":" +:+ dquote +:+ "Removed" +:+ dquote +:+ "}}}}'".

(** [schema.ParseGroupVersion]; a malformed one gives an empty kind. *)
Definition group_version (apiVersion : string) : string * string :=
  match split_on "/"%char apiVersion with
  | [version] => ("", version)
  | [group; version] => (group, version)
  | _ => ("", "")
  end.
Definition resource_of (obj : json) (resource : string) : ResourceType :=
  let '(group, version) := group_version (nested_string ["apiVersion"] obj) in
  mkResourceType group version (nested_string ["kind"] obj) resource.

(** ** migrate.go: data *)
Record PostUpgradeResult := mkPost { pu_Migrated : nat; pu_Skipped : nat; pu_Failed : nat }.
Record PostUpgradeOptions := mkPostOptions {
  po_ClusterName : string;
  po_Namespace : string;
  po_DryRun : bool;
  po_SkipConfirm : bool;
  po_FromBackup : string;
  po_RouteTimeout : Z;
}.
Record migrateOptions := mkMigrateOptions { mo_dryRun : bool; mo_skipConfirm : bool; mo_routeTimeout : Z }.
Record backupItem := mkItem { bi_u : json; bi_file : string }.

(** ** list.go: data *)
Record ClusterInfo := mkInfo {
  ci_Name : string;
  ci_Namespace : string;
  ci_Status : string;
  ci_NumWorkers : Z;
  ci_Migrated : bool;
  ci_MigrationStatus : string;
  ci_TLSOAuthComponents : list string;
}.
Definition encode_info (i : ClusterInfo) : json :=
  JObj ([("name", JStr (ci_Name i)); ("namespace", JStr (ci_Namespace i)); ("status", JStr (ci_Status i));
         ("numWorkers", JNum (ci_NumWorkers i)); ("migrated", JBool (ci_Migrated i));
         ("migrationStatus", JStr (ci_MigrationStatus i))] ++
        (match ci_TLSOAuthComponents i with [] => [] | l => [("tlsOauthComponents", JArr (map JStr l))] end))%list.

(** ** The object that is sent *)
Definition set_or_remove (path : list string) (s : string) (obj : json) : json :=
  if String.eqb s "" then RemoveNestedField path obj else put path (JStr s) obj.
Definition SetResourceVersion : string → json → json := set_or_remove ["metadata"; "resourceVersion"].
Definition SetUID : string → json → json := set_or_remove ["metadata"; "uid"].
(** The update of a cluster in place: the identity of the latest object on
    the processed one. *)
Definition migrated_object (latest : json) : json :=
  let cleaned := ProcessRayClusterYAML (RemoveAutogeneratedFields latest) in
  let rv := nested_string ["metadata"; "resourceVersion"] latest in
  let cleaned := if String.eqb rv "" then cleaned else SetResourceVersion rv cleaned in
  let uid := nested_string ["metadata"; "uid"] latest in
  if String.eqb uid "" then cleaned else SetUID uid cleaned.
Definition restored_object (u : json) : json := SetUID "" (SetResourceVersion "" (RemoveKueueWorkloadAnnotations u)).

Definition isYAMLFile (name : string) : bool := let ext := path_Ext name in String.eqb ext yamlExt || String.eqb ext ymlExt.
Definition clusterStateMessage (state : string) : string :=
  if String.eqb state stateReady then stateReady
  else if String.eqb state "" then "not yet ready (timeout)"
  else state +:+ " (not yet ready)".
Definition formatScopeMsg (clusterName namespace : string) : string :=
  if negb (String.eqb clusterName "") && negb (String.eqb namespace "") then
    "cluster '" +:+ clusterName +:+ "' in namespace '" +:+ namespace +:+ "'"
  else if negb (String.eqb namespace "") then "all clusters in namespace '" +:+ namespace +:+ "'"
  else "all clusters across all namespaces".
Definition line60 := "------------------------------------------------------------".
Definition double60 := "============================================================".

Section Ray.
Context `{AE : ApiErrors, KE : K8sErrors, JQ : GoJq, CL : Clock, WT : Wait, JT : JsonText, YT : YamlText, GT : GoTypes}.

(** A string query with its error ignored. *)
Definition query_text (obj : json) (query : string) : string :=
  match jq_Query_string obj query with Ok s => s | _ => "" end.

(** ** clusters.go *)
Definition GetClusters (clusterName namespace : string) : M (list (option json)) :=
  if negb (String.eqb clusterName "") && String.eqb namespace "" then
    m_throw (EString "namespace must be specified when targeting a specific cluster")
  else if negb (String.eqb clusterName "") then
    let* got := attempt (GetResource RayCluster clusterName namespace) in
    match got with
    | inl err =>
        if IsNotFound err then m_ret []
        else m_throw (errorf_w ("getting RayCluster " +:+ clusterName +:+ " in " +:+ namespace) err)
    | inr rc => m_ret [rc]
    end
  else
    let* namespaces :=
      if negb (String.eqb namespace "") then m_ret [namespace]
      else
        try* nsList := kListAll NamespaceType defaultListOptions else errorf_w "listing namespaces" in
        m_ret (map GetName nsList) in
    m_fold (λ out ns,
      let* got := attempt (list_in RayCluster ns "") in
      match got with
      | inl err =>
          if negb (String.eqb namespace "") then m_throw (errorf_w ("listing RayClusters in namespace " +:+ ns) err)
          else m_ret out
      | inr l => m_ret (out ++ map Some l)%list
      end) namespaces [].

(** ** route.go *)
Fixpoint first_routes (labelSelector : string) (namespaces : list string) : M (list json) :=
  match namespaces with
  | [] => m_ret []
  | ns :: rest =>
      let* got := attempt (list_in HTTPRoute ns labelSelector) in
      match got with
      | inr (route :: routes) => m_ret (route :: routes)
      | _ => first_routes labelSelector rest
      end
  end.
Definition route_url (hostname namespace clusterName : string) : string :=
  if String.eqb hostname "" then "" else "https://" +:+ hostname +:+ "/ray/" +:+ namespace +:+ "/" +:+ clusterName.
Definition GetClusterRoute (clusterName namespace : string) : M string :=
  let labelSelector := "ray.io/cluster-name=" +:+ clusterName +:+ ",ray.io/cluster-namespace=" +:+ namespace in
  let* routes := first_routes labelSelector [""; "redhat-ods-applications"; "opendatahub"; "default"; "ray-system"] in
  match routes with
  | [] => m_ret ""
  | httpRoute :: _ =>
      let gatewayName := query_text httpRoute ".spec.parentRefs[0].name" in
      let gatewayNS := query_text httpRoute ".spec.parentRefs[0].namespace" in
      if String.eqb gatewayName "" || String.eqb gatewayNS "" then m_ret ""
      else
        let* gateway := attempt (GetResource Gateway gatewayName gatewayNS) in
        match gateway with
        | inl _ => m_ret ""
        | inr gateway =>
            let hostname := query_text (default JNull gateway) ".spec.listeners[0].hostname" in
            if negb (String.eqb hostname "") then m_ret (route_url hostname namespace clusterName)
            else
              let* route := attempt (GetResource Route gatewayName gatewayNS) in
              match route with
              | inl _ => m_ret ""
              | inr route => m_ret (route_url (query_text (default JNull route) ".spec.host") namespace clusterName)
              end
        end
  end.

(** ** preflight.go *)
Definition checkPermissions : M (bool * list string) :=
  let* errNS := attempt (kListAll NamespaceType defaultListOptions) in
  let* errRC := attempt (kListAll RayCluster defaultListOptions) in
  let okNS := match errNS with inl _ => false | inr _ => true end in
  let okRC := match errRC with inl _ => false | inr _ => true end in
  m_ret (okNS && okRC,
    ["List namespaces: " +:+ (if okNS then "OK" else "DENIED"); "List RayClusters: " +:+ (if okRC then "OK" else "DENIED")]).

Fixpoint find_namespace (names : list string) : M (bool * string) :=
  match names with
  | [] => m_ret (false, "cert-manager not detected")
  | name :: rest =>
      let* got := attempt (GetResource NamespaceType name "") in
      match got with
      | inr _ => m_ret (true, name +:+ " namespace found")
      | inl err =>
          if negb (IsNotFound err) then
            m_ret (false, "could not check " +:+ name +:+ " namespace: " +:+ error_string err)
          else find_namespace rest
      end
  end.
Definition checkCertManager : M (bool * string) :=
  let* got := attempt (kGetCRD "certificates.cert-manager.io") in
  match got with
  | inr _ => m_ret (true, "cert-manager CRD found")
  | inl err =>
      if negb (IsNotFound err) then m_ret (false, "could not check cert-manager CRD: " +:+ error_string err)
      else find_namespace ["cert-manager"; "openshift-cert-manager"]
  end.

Definition codeflare_state (dsc : json) : string := to_lower (query_text dsc ".spec.components.codeflare.managementState").
Definition patch_codeflare_once (_ : ()) : M (bool * ()) :=
  try* latestDSC := kGetDataScienceCluster else errorf_w "getting DataScienceCluster" in
  let currentState := codeflare_state latestDSC in
  if String.eqb currentState "removed" || String.eqb currentState "unmanaged" then m_ret (true, ())
  else
    try* latestDSC := m_lift (Transform go_type latestDSC
        (".spec.components.codeflare.managementState = " +:+ dquote +:+ "Removed" +:+ dquote))
      else errorf_w "setting codeflare managementState" in
    let* updated := attempt (kUpdate (resource_of latestDSC (rt_Resource DataScienceCluster)) "" latestDSC false) in
    match updated with
    | inl err => if IsConflict err then m_ret (false, ()) else m_throw (errorf_w "updating DataScienceCluster" err)
    | inr _ => m_ret (true, ())
    end.
Definition patchCodeflareToRemoved : M () :=
  m_map_err (errorf_w "patching codeflare to Removed") (ExponentialBackoff preflight_backoff patch_codeflare_once ()).

Definition checkCodeflareOperator (autoRemove : bool) : M (bool * string) :=
  let* got := attempt kGetDataScienceCluster in
  match got with
  | inl err =>
      m_ret (if IsNotFound err then (true, "DataScienceCluster CRD not found (OK to proceed)")
             else (false, "Could not check DataScienceCluster: " +:+ error_string err))
  | inr dsc =>
      let dscName := nonempty (query_text dsc ".metadata.name") "unknown" in
      match gojq_run dsc ".spec.components" with
      | JqValue (JObj components) =>
          match field "codeflare" (JObj components) with
          | Some (JObj codeflare) =>
              let state := to_lower (str_at "managementState" (JObj codeflare)) in
              if String.eqb state "removed" then m_ret (true, "codeflare is Removed in DSC '" +:+ dscName +:+ "'")
              else if String.eqb state "unmanaged" then m_ret (true, "codeflare is Unmanaged in DSC '" +:+ dscName +:+ "'")
              else if String.eqb state "managed" then
                if autoRemove then
                  let* patched := attempt patchCodeflareToRemoved in
                  match patched with
                  | inl err => m_ret (false, "failed to auto-remove codeflare in DSC '" +:+ dscName +:+ "': " +:+ error_string err)
                  | inr _ => m_ret (true, "Set codeflare to Removed in DataScienceCluster '" +:+ dscName +:+ "'")
                  end
                else m_ret (false, "codeflare is Managed in DSC '" +:+ dscName +:+ "' (should be Removed)")
              else if String.eqb state "" then
                m_ret (true, "codeflare present without managementState in DSC '" +:+ dscName +:+ "' (OK to proceed)")
              else m_ret (false, "codeflare is '" +:+ state +:+ "' in DSC '" +:+ dscName +:+ "'")
          | _ => m_ret (true, "codeflare not present in DSC '" +:+ dscName +:+ "' (OK to proceed)")
          end
      | _ => m_ret (true, "No components in DSC (OK to proceed)")
      end
  end.

Definition RunPreUpgradeChecks (autoRemoveCodeflare : bool) : M (list PreflightCheck) :=
  let* '(permOK, permDetails) := checkPermissions in
  let permMsg := if permOK then "All required permissions granted" else "Missing permissions" in
  let* '(certOK, certMsg) := checkCertManager in
  let* '(cfOK, cfMsg) := checkCodeflareOperator autoRemoveCodeflare in
  m_ret [mkPreflight "Permissions" permOK permMsg true "" permDetails;
         mkPreflight "cert-manager" certOK certMsg true certManagerHelp [];
         mkPreflight "codeflare-operator" cfOK cfMsg true codeflareHelp []].

(** ** backup.go *)
Definition report_check (chk : PreflightCheck) : M () :=
  kErrOut ("  " +:+ (if pf_Passed chk then "[OK]" else "[FAIL]") +:+ " " +:+ pf_Name chk +:+ ": " +:+ pf_Message chk) ;;
  (if pf_Passed chk then m_ret () else m_each (λ d, kErrOut ("       - " +:+ d)) (pf_Details chk)) ;;
  (if negb (pf_Passed chk) && pf_Required chk && negb (String.eqb (pf_Help chk) "") then kErrOut ("       " +:+ pf_Help chk)
   else m_ret ()).
Definition required_failure (checks : list PreflightCheck) : bool := existsb (λ c, negb (pf_Passed c) && pf_Required c) checks.
Definition all_passed (checks : list PreflightCheck) : bool := forallb pf_Passed checks.
Definition reportPreflightChecks (checks : list PreflightCheck) : M () :=
  kErrOut "Running pre-upgrade checks..." ;;
  kErrOut line60 ;;
  m_each report_check checks ;;
  kErrOut line60 ;;
  if required_failure checks then
    kErrOut "" ;;
    kErrOut "Pre-upgrade checks failed. Please resolve the issues above before proceeding with the RHOAI upgrade." ;;
    m_throw (EString "pre-upgrade checks failed")
  else
    kErrOut (if all_passed checks then "All pre-upgrade checks passed." else "Pre-upgrade checks completed with warnings.") ;;
    kErrOut "".

Definition ensureBackupDirs (outputDir : string) : M (string * string) :=
  let* stat := call (KStat outputDir) in
  (try* _u := kMkdirAll outputDir else errorf_w "create backup directory" in m_ret ()) ;;
  (if bool_decide (stat = StatMissing) then kErrOut ("Created backup directory: " +:+ outputDir) else m_ret ()) ;;
  let rhoai2Dir := path_Join [outputDir; BackupSubdirRHOAI2x] in
  let rhoai3Dir := path_Join [outputDir; BackupSubdirRHOAI3x] in
  m_each (λ d, m_map_err (errorf_w ("create backup subdirectory " +:+ d)) (kMkdirAll d)) [rhoai2Dir; rhoai3Dir] ;;
  m_ret (rhoai2Dir, rhoai3Dir).

Definition logBackupScope (clusterName namespace : string) (count : nat) : M () :=
  kErrOut ("Backing up " +:+ show_nat count +:+ " RayCluster(s) (" +:+ formatScopeMsg clusterName namespace +:+ ")") ;;
  kErrOut "".

Definition writeUnstructuredToFile (u : json) (path : string) : M () :=
  try* data := m_lift (yaml_Marshal u) else errorf_w "marshaling YAML" in
  m_map_err (errorf_w ("writing file " +:+ path)) (kWriteFile path data).

Definition backup_file (rc : json) : string := "raycluster-" +:+ GetName rc +:+ "-" +:+ namespace_of rc +:+ yamlExt.
Definition backed_2x (rc : json) : json := RemoveAutogeneratedFields rc.
Definition backed_3x (rc : json) : json := ProcessRayClusterYAML (RemoveAutogeneratedFields rc).
Definition backup_error (rc : json) (version : string) : go_error → go_error :=
  errorf_w ("backing up " +:+ namespace_of rc +:+ "/" +:+ GetName rc +:+ " (RHOAI " +:+ version +:+ ")").
Definition backupCluster (rc : json) (rhoai2Dir rhoai3Dir : string) : M string :=
  let f2x := path_Join [rhoai2Dir; backup_file rc] in
  let f3x := path_Join [rhoai3Dir; backup_file rc] in
  try* _u := writeUnstructuredToFile (backed_2x rc) f2x else backup_error rc "2.x" in
  let* written := attempt (writeUnstructuredToFile (backed_3x rc) f3x) in
  match written with
  | inl err => attempt (kRemove f2x) ;; m_throw (backup_error rc "3.x" err)
  | inr _ => kErrOut ("  Backed up: " +:+ GetName rc +:+ " (namespace: " +:+ namespace_of rc +:+ ")") ;; m_ret f3x
  end.

(** The files saved before a failure are not returned: no caller reads them. *)
Definition PreUpgrade (outputDir clusterName namespace : string) (checks : list PreflightCheck) : M (list string) :=
  if String.eqb outputDir "" then m_throw (EString "output directory is required")
  else
    reportPreflightChecks checks ;;
    let* '(rhoai2Dir, rhoai3Dir) := ensureBackupDirs outputDir in
    let* clusters := GetClusters clusterName namespace in
    match clusters with
    | [] => kErrOut "No RayClusters found to backup" ;; m_ret []
    | _ =>
        logBackupScope clusterName namespace (length clusters) ;;
        m_fold (λ savedFiles rc,
          let* f := deref rc (λ rc, backupCluster rc rhoai2Dir rhoai3Dir) in
          m_ret (if negb (String.eqb f "") then savedFiles ++ [f] else savedFiles)%list) clusters []
    end.

(** ** list.go *)
Definition clusterInfoFrom (rc : json) : ClusterInfo :=
  let '(migrated, migrationStatus) := IsClusterMigrated rc in
  mkInfo (GetName rc) (namespace_of rc) (nonempty (query_text rc ".status.state") "unknown")
    (match nested_slice ["spec"; "workerGroupSpecs"] rc with
     | Some (w :: _) => match nested ["replicas"] w with Some (JNum r) => r | _ => 0 end
     | _ => 0
     end)
    migrated migrationStatus (HasTLSOAuthComponents rc).2.

Definition info_row (c : ClusterInfo) : string :=
  pad 25 (ci_Name c) +:+ " " +:+ pad 18 (ci_Namespace c) +:+ " " +:+ pad 12 (ci_Status c) +:+ " " +:+
  pad 8 (itoa (ci_NumWorkers c)) +:+ " " +:+ (if ci_Migrated c then "[MIGRATED]" else "[NEEDS MIGRATION]").
Definition printTable (infos : list ClusterInfo) : M () :=
  kOut "RayCluster Migration Status:" ;;
  kOut "" ;;
  kOut (pad 25 "Name" +:+ " " +:+ pad 18 "Namespace" +:+ " " +:+ pad 12 "Status" +:+ " " +:+ pad 8 "Workers" +:+ " " +:+
        pad 30 "Migration Status") ;;
  kOut "----------------------------------------------------------------------------------------------------" ;;
  m_each (λ c, kOut (info_row c)) infos ;;
  kOut "" ;;
  let migratedCount := length (List.filter ci_Migrated infos) in
  let needsCount := length (List.filter (λ c, negb (ci_Migrated c)) infos) in
  kOut ("Migration Summary: " +:+ show_nat migratedCount +:+ " migrated, " +:+ show_nat needsCount +:+ " need migration").

(** [l] with the number of each element, from one. *)
Definition numbered {A} (l : list A) : list (nat * A) := imap (λ i x, (Datatypes.S i, x)) l.
Definition progress_label (total idx : nat) : string := "  [" +:+ show_nat idx +:+ "/" +:+ show_nat total +:+ "] ".

Definition marshalled (what : string) (r : res go_error string) : M () :=
  match r with
  | Ok text => kOut text
  | Err err => kErrOut ("failed to marshal output: " +:+ error_string err) ;; m_throw (errorf_w what err)
  | Panic s => m_lift (Panic s)
  end.
Definition ListRayClusters (namespace outputFormat : string) : M (list ClusterInfo) :=
  let scopeMsg := if negb (String.eqb namespace "") then "namespace '" +:+ namespace +:+ "'" else "all namespaces" in
  kErrOut ("Fetching RayClusters (" +:+ scopeMsg +:+ ")...") ;;
  let* clusters := GetClusters "" namespace in
  match clusters with
  | [] => kErrOut "No RayClusters found" ;; m_ret []
  | _ =>
      kErrOut ("Found " +:+ show_nat (length clusters) +:+ " RayCluster(s)") ;;
      kErrOut "Analyzing clusters..." ;;
      let* infos := m_fold (λ infos '(idx, rc), deref rc (λ rc,
        kErrOut (progress_label (length clusters) idx +:+ "Analyzing " +:+ object_title rc +:+ "...") ;;
        m_ret (infos ++ [clusterInfoFrom rc])%list)) (numbered clusters) [] in
      kErrOut "Analysis complete." ;;
      kErrOut "" ;;
      let encoded := JArr (map encode_info infos) in
      (if String.eqb outputFormat "yaml" then marshalled "marshal YAML" (yaml_Marshal encoded)
       else if String.eqb outputFormat "json" then marshalled "marshal JSON" (json_MarshalIndent encoded)
       else if String.eqb outputFormat "table" || String.eqb outputFormat "" then printTable infos
       else m_throw (EString ("unsupported output format: " +:+ outputFormat))) ;;
      m_ret infos
  end.

(** ** migrate.go: waiting *)
Definition cancelled_deletion (name : string) (err : go_error) : go_error :=
  errorf_w ("context cancelled waiting for deletion of " +:+ name) err.
(** Returns when the cluster is gone; every other end is an error. *)
Definition waitForDeletion (ns name : string) : M () :=
  kErrOut ("  [" +:+ name +:+ "] Waiting for cluster deletion to complete...") ;;
  poll deletionWaitMaxAttempts deletionWaitInterval
    (let* got := attempt (kGet RayCluster ns name) in
     match got with
     | inl err =>
         if IsNotFound err then kErrOut ("  [" +:+ name +:+ "] Cluster deleted successfully") ;; m_ret (Some ())
         else m_throw (errorf_w ("checking deletion status of " +:+ name) err)
     | inr _ => m_ret None
     end)
    (λ err, m_throw (cancelled_deletion name err))
    (m_throw (EString "timeout waiting for cluster deletion")).

Definition waitForClusterRoute (name ns : string) (timeout : Z) : M string :=
  kErrOut ("  [" +:+ name +:+ "] Waiting for cluster route to become available...") ;;
  poll (attempts timeout routeWaitInterval) routeWaitInterval
    (let* url := GetClusterRoute name ns in m_ret (if negb (String.eqb url "") then Some url else None))
    (λ _, m_ret "") (m_ret "").

(** The object may be nil, as a permission error leaves it. *)
Definition getClusterState (name ns : string) : M string :=
  let* got := attempt (GetResource RayCluster name ns) in
  m_ret (match got with
         | inl _ => ""
         | inr rc => query_text (default JNull rc) ".status.state"
         end).
Definition waitForClusterReady (name ns : string) (timeout : Z) : M string :=
  kErrOut ("  [" +:+ name +:+ "] Waiting for cluster pods to become healthy...") ;;
  poll (attempts timeout healthCheckWaitInterval) healthCheckWaitInterval
    (let* state := getClusterState name ns in m_ret (if String.eqb state stateReady then Some state else None))
    (λ _, m_ret "") (getClusterState name ns).

(** What is said of a cluster that was migrated or restored. *)
Definition report_cluster (verb name ns : string) (timeout : Z) : M () :=
  let* state := waitForClusterReady name ns timeout in
  let* url := waitForClusterRoute name ns timeout in
  kErrOut ("  [OK] " +:+ verb +:+ ": " +:+ name +:+ " (ns: " +:+ ns +:+ ")") ;;
  kErrOut ("       Status: " +:+ clusterStateMessage state) ;;
  kErrOut (if negb (String.eqb url "") then "       Dashboard: " +:+ url else "       Dashboard: route not yet available (timeout)").

(** ** migrate.go: in place *)
Definition old_service_account (clusterName name : string) : bool :=
  has_prefix (clusterName +:+ "-oauth-proxy-") name && negb (String.eqb name (clusterName +:+ "-oauth-proxy-sa")).
Definition cleanupOldServiceAccounts (namespace clusterName : string) : M () :=
  let* listed := attempt (list_in ServiceAccount namespace "") in
  match listed with
  | inl _ => m_ret ()
  | inr sas =>
      m_each (λ sa,
        let name := GetName sa in
        if old_service_account clusterName name then
          attempt (kDelete ServiceAccount namespace name) ;;
          kErrOut ("  [" +:+ clusterName +:+ "] Deleting old ServiceAccount: " +:+ name)
        else m_ret ()) sas
  end.

Definition migrateSingleClusterLive (name ns : string) (routeTimeout : Z) : M () :=
  kErrOut ("  [" +:+ name +:+ "] Fetching current cluster state...") ;;
  try* latest := kGet RayCluster ns name else errorf_w ("fetching cluster " +:+ name) in
  kErrOut ("  [" +:+ name +:+ "] Cleaning up old CodeFlare ServiceAccounts...") ;;
  cleanupOldServiceAccounts ns name ;;
  kErrOut ("  [" +:+ name +:+ "] Applying migration changes...") ;;
  try* _u := kUpdate RayCluster ns (migrated_object latest) false else errorf_w ("updating cluster " +:+ name) in
  report_cluster "Migrated" name ns routeTimeout.

Definition analyzeClusters (clusters : list (option json)) : M (list json * list json) :=
  kErrOut ("Found " +:+ show_nat (length clusters) +:+ " RayCluster(s)") ;;
  kErrOut "" ;;
  kErrOut "Analyzing clusters for migration status..." ;;
  m_fold (λ '(toMigrate, alreadyMigrated) '(idx, rc), deref rc (λ rc,
    let checking := progress_label (length clusters) idx +:+ "Checking " +:+ object_title rc +:+ "... " in
    if (IsClusterMigrated rc).1 then
      kErrOut (checking +:+ "already migrated") ;; m_ret (toMigrate, alreadyMigrated ++ [rc])%list
    else
      kErrOut (checking +:+ "needs migration") ;; m_ret (toMigrate ++ [rc], alreadyMigrated)%list))
    (numbered clusters) ([], []).

Definition live_warning (toMigrate : list json) (clusterName namespace : string) : list string :=
  ((if String.eqb clusterName "" then
      [""; double60;
       if negb (String.eqb namespace "") then "WARNING: You are about to migrate ALL clusters in namespace '" +:+ namespace +:+ "'"
       else "WARNING: You are about to migrate ALL clusters across ALL namespaces";
       double60]
    else []) ++
   [""; "The following " +:+ show_nat (length toMigrate) +:+ " cluster(s) will be migrated:"] ++
   map (λ rc, "  - " +:+ GetName rc +:+ " (namespace: " +:+ namespace_of rc +:+ ")") toMigrate ++
   [""; "IMPORTANT: Migration will cause temporary downtime for each RayCluster.";
    "  - Pods will be restarted as the KubeRay operator recreates them with the new configuration.";
    "  - Existing job state and logs will be lost.";
    "  - Currently running workloads/jobs will be interrupted and progress lost."; ""])%list.
(** The prompt of both migrations, after its warning. *)
Definition confirm (opts : migrateOptions) (warning : list string) (question cancelled : string) : M bool :=
  if mo_dryRun opts || mo_skipConfirm opts then m_ret true
  else
    m_each kErrOut warning ;;
    let* ok := Prompt question in
    kErrOut (if (ok : bool) then "" else cancelled) ;;
    m_ret ok.
Definition confirmLiveMigration (toMigrate : list json) (clusterName namespace : string) (opts : migrateOptions) : M bool :=
  confirm opts (live_warning toMigrate clusterName namespace) "Proceed with migration?" "Migration cancelled.".

(** The loops over the clusters: the counts, and the failures that are
    reported and passed over. *)
Definition count_one (title : string) (m : M ()) (counts : nat * nat) : M (nat * nat) :=
  let '(migrated, failed) := counts in
  let* done := attempt m in
  match done with
  | inl err => kErrOut ("  [FAIL] " +:+ title +:+ ": " +:+ error_string err) ;; m_ret (migrated, Datatypes.S failed)
  | inr _ => m_ret (Datatypes.S migrated, failed)
  end.
Definition executeLiveMigration (toMigrate : list json) (opts : migrateOptions) : M (nat * nat) :=
  m_fold (λ counts rc,
    if mo_dryRun opts then
      kErrOut ("  [DRY RUN] Would migrate: " +:+ object_title rc) ;; m_ret (Datatypes.S counts.1, counts.2)
    else count_one (object_title rc) (migrateSingleClusterLive (GetName rc) (namespace_of rc) (mo_routeTimeout opts)) counts)
    toMigrate (0%nat, 0%nat).

Definition postUpgradeLive (clusterName namespace : string) (opts : migrateOptions) : M PostUpgradeResult :=
  if negb (String.eqb clusterName "") && String.eqb namespace "" then
    m_throw (EString "namespace must be specified when migrating a specific cluster")
  else
    (if mo_dryRun opts then kErrOut "=== DRY RUN MODE - No changes will be made ===" ;; kErrOut "" else m_ret ()) ;;
    kErrOut ("Fetching RayClusters (" +:+ formatScopeMsg clusterName namespace +:+ ")...") ;;
    let* clusters := GetClusters clusterName namespace in
    match clusters with
    | [] => kErrOut "No RayClusters found to migrate" ;; m_ret (mkPost 0 0 0)
    | _ =>
        let* '(toMigrate, alreadyMigrated) := analyzeClusters clusters in
        kErrOut "" ;;
        kErrOut ("Summary: " +:+ show_nat (length toMigrate) +:+ " to migrate, " +:+ show_nat (length alreadyMigrated) +:+
          " already migrated") ;;
        match toMigrate with
        | [] =>
            kErrOut "" ;; kErrOut "All clusters are already migrated. Nothing to do." ;;
            m_ret (mkPost 0 (length alreadyMigrated) 0)
        | _ =>
            let* ok := confirmLiveMigration toMigrate clusterName namespace opts in
            if negb ok then m_ret (mkPost 0 (length alreadyMigrated) 0)
            else
              let* '(migrated, failed) := executeLiveMigration toMigrate opts in
              m_each kErrOut [""; double60; "Migration Summary:"; "  Migrated: " +:+ show_nat migrated;
                "  Skipped (already migrated): " +:+ show_nat (length alreadyMigrated); "  Failed: " +:+ show_nat failed] ;;
              m_ret (mkPost migrated (length alreadyMigrated) failed)
        end
    end.

(** ** migrate.go: from a backup *)
Definition collectYAMLFromDir (dir : string) : M (list string) :=
  let* entries := call (KReadDir dir) in
  m_ret (map (λ e, path_Join [dir; e.1]) (List.filter (λ e, negb e.2 && isYAMLFile e.1) entries)).
Definition collectYAMLFiles (backupPath : string) : M (list string) :=
  let* info := call (KStat backupPath) in
  if bool_decide (info = StatRegular) then m_ret (if isYAMLFile backupPath then [backupPath] else [])
  else
    let* yamlFiles := collectYAMLFromDir backupPath in
    match yamlFiles with
    | [] =>
        let rhoai3 := path_Join [backupPath; BackupSubdirRHOAI3x] in
        let* st := call (KStat rhoai3) in
        if bool_decide (st = StatDir) then
          kErrOut ("No YAML files in '" +:+ backupPath +:+ "', using '" +:+ rhoai3 +:+ "' subdirectory...") ;;
          collectYAMLFromDir rhoai3
        else m_ret []
    | _ => m_ret yamlFiles
    end.

(** [yaml.Unmarshal] into a map: null leaves the map nil. *)
Definition yaml_map (data : string) : res go_error json :=
  res_bind (yaml_Unmarshal data) (λ v, match v with
    | JNull | JObj _ => Ok v
    | _ => Err (json_Mismatch "map[string]interface {}" v)
    end).
Definition selected (clusterName namespace : string) (obj : json) : bool :=
  String.eqb (str_at "kind" obj) "RayCluster" &&
  (String.eqb clusterName "" || String.eqb (nested_string ["metadata"; "name"] obj) clusterName) &&
  (String.eqb namespace "" || String.eqb (nonempty (nested_string ["metadata"; "namespace"] obj) DefaultNamespace) namespace).
Definition parseOneBackupFile (f clusterName namespace : string) : M (option backupItem) :=
  let* data := attempt (kReadFile (path_Clean f)) in
  match data with
  | inl err => kErrOut ("failed to read file " +:+ f +:+ ": " +:+ error_string err) ;; m_ret None
  | inr data =>
      match yaml_map data with
      | Err err => kErrOut ("failed to parse YAML " +:+ f +:+ ": " +:+ error_string err) ;; m_ret None
      | Panic s => m_lift (Panic s)
      | Ok obj => m_ret (if selected clusterName namespace obj then Some (mkItem obj f) else None)
      end
  end.
Definition parseBackupItems (yamlFiles : list string) (clusterName namespace : string) : M (list backupItem) :=
  m_fold (λ items f,
    let* item := parseOneBackupFile f clusterName namespace in
    m_ret (items ++ match item with Some i => [i] | None => [] end)%list) yamlFiles [].

Definition reportNoYAMLFiles (backupPath : string) : M () :=
  kErrOut ("No YAML files found in: " +:+ backupPath) ;;
  let* info := call (KStat backupPath) in
  if negb (bool_decide (info = StatDir)) then m_ret ()
  else
    let* entries := call (KReadDir backupPath) in
    match map fst (List.filter snd entries) with
    | [] => m_ret ()
    | subdirs =>
        kErrOut ("Found subdirectories: " +:+ join ", " subdirs) ;;
        kErrOut ("Hint: Use --from-backup " +:+ backupPath +:+ "/rhoai-3.x for RHOAI 3.x migration") ;;
        kErrOut ("      or --from-backup " +:+ backupPath +:+ "/rhoai-2.x for RHOAI 2.x rollback")
    end.

Definition restore_warning : list string :=
  [""; "WARNING: Restore from backup will DELETE and RECREATE each RayCluster.";
   "  - If a cluster currently exists, it will be deleted first.";
   "  - All running pods, jobs, and workloads will be terminated.";
   "  - Existing job state and logs will be lost.";
   "  - The cluster will be recreated from the backup configuration."; ""].
Definition confirmBackupRestore (opts : migrateOptions) : M bool :=
  confirm opts restore_warning "Proceed with restore from backup?" "Restore cancelled.".

Definition restoreSingleCluster (u : json) (name ns : string) (routeTimeout : Z) : M () :=
  let* got := attempt (kGet RayCluster ns name) in
  match got with
  | inl err => if IsNotFound err then m_ret () else m_throw (errorf_w ("checking existing cluster " +:+ name) err)
  | inr _ =>
      kErrOut ("  [" +:+ name +:+ "] Deleting existing cluster...") ;;
      m_map_err (errorf_w "delete failed") (kDelete RayCluster ns name) ;;
      waitForDeletion ns name
  end ;;
  kErrOut ("  [" +:+ name +:+ "] Creating cluster from backup...") ;;
  try* _u := kCreate RayCluster ns (restored_object u) false else errorf_w ("creating cluster " +:+ name) in
  report_cluster "Restored from backup" name ns routeTimeout.

Definition executeBackupRestore (toApply : list backupItem) (opts : migrateOptions) : M (nat * nat) :=
  m_fold (λ counts item,
    let u := bi_u item in
    if mo_dryRun opts then
      kErrOut ("  [DRY RUN] Would restore from backup: " +:+ object_title u) ;;
      kErrOut "            (will delete existing cluster if present, then create from backup)" ;;
      m_ret (Datatypes.S counts.1, counts.2)
    else count_one (object_title u) (restoreSingleCluster u (GetName u) (namespace_of u) (mo_routeTimeout opts)) counts)
    toApply (0%nat, 0%nat).

Definition postUpgradeFromBackup (backupPath clusterName namespace : string) (opts : migrateOptions) : M PostUpgradeResult :=
  let* stat := call (KStat backupPath) in
  if bool_decide (stat = StatMissing) then m_throw (EString ("backup path does not exist: " +:+ backupPath))
  else
    let* yamlFiles := collectYAMLFiles backupPath in
    match yamlFiles with
    | [] => reportNoYAMLFiles backupPath ;; m_ret (mkPost 0 0 0)
    | _ =>
        let* toApply := parseBackupItems yamlFiles clusterName namespace in
        match toApply with
        | [] => kErrOut "No matching RayClusters found in backup" ;; m_ret (mkPost 0 0 0)
        | _ =>
            (if mo_dryRun opts then kErrOut "=== DRY RUN MODE - No changes will be made ===" ;; kErrOut "" else m_ret ()) ;;
            kErrOut ("Found " +:+ show_nat (length toApply) +:+ " RayCluster(s) in backup to migrate (" +:+
              formatScopeMsg clusterName namespace +:+ "):") ;;
            kErrOut "" ;;
            m_each (λ item, kErrOut ("  - " +:+ object_title (bi_u item) +:+ " from " +:+ path_Base (bi_file item))) toApply ;;
            let* ok := confirmBackupRestore opts in
            if negb ok then m_ret (mkPost 0 0 0)
            else
              let* '(migrated, failed) := executeBackupRestore toApply opts in
              m_each kErrOut (["" ; double60] ++
                (if mo_dryRun opts then ["DRY RUN Summary:"; "  Would restore: " +:+ show_nat migrated]
                 else ["Restore from Backup Summary:"; "  Restored: " +:+ show_nat migrated]) ++
                ["  Failed: " +:+ show_nat failed])%list ;;
              m_ret (mkPost migrated 0 failed)
        end
    end.

Definition PostUpgrade (popts : PostUpgradeOptions) : M PostUpgradeResult :=
  let routeTimeout := if po_RouteTimeout popts <=? 0 then DefaultRouteTimeout else po_RouteTimeout popts in
  let opts := mkMigrateOptions (po_DryRun popts) (po_SkipConfirm popts) routeTimeout in
  if negb (String.eqb (po_FromBackup popts) "") then
    postUpgradeFromBackup (po_FromBackup popts) (po_ClusterName popts) (po_Namespace popts) opts
  else postUpgradeLive (po_ClusterName popts) (po_Namespace popts) opts.

(** ** The actions (pkg/migrate/actions/raycluster) *)
Record sharedOptions := mkShared {
  so_ClusterName : string;
  so_Namespace : string;
  so_OutputDir : string;
  so_FromBackup : string;
  so_RouteTimeout : Z;
}.
(** The options both actions of [NewActions] share, before flags are parsed. *)
Definition default_options : sharedOptions := mkShared "" "" DefaultBackupDir "" DefaultRouteTimeout.

(** *** Flags (raycluster.go): a flag is its name and the field it sets *)
Definition define_flag (name : string) (var : nat) (fs : gmap string nat) : res go_error (gmap string nat) :=
  match fs !! name with Some _ => Panic ("flag redefined: " +:+ name) | None => Ok (<[name := var]> fs) end.
Definition define_once (name : string) (var : nat) (fs : gmap string nat) : gmap string nat :=
  match fs !! name with Some _ => fs | None => <[name := var]> fs end.
Definition addScopeFlags (fs : gmap string nat) : gmap string nat :=
  define_once "raycluster-namespace" 1 (define_once "raycluster-cluster" 0 fs).
Definition addBackupFlags (fs : gmap string nat) : res go_error (gmap string nat) :=
  define_flag "raycluster-output-dir" 2 (addScopeFlags fs).
Definition addMigrateFlags (fs : gmap string nat) : res go_error (gmap string nat) :=
  let! fs := define_flag "raycluster-from-backup" 3 (addScopeFlags fs) in
  define_flag "raycluster-timeout" 4 fs.

Definition check_status (chk : PreflightCheck) : StepStatus :=
  if pf_Passed chk then StepCompleted else if pf_Required chk then StepFailed else StepSkipped.
Definition runPreflightChecks : M () :=
  let* step := child root "preflight-checks" "Run RayCluster pre-upgrade checks" in
  let* checks := RunPreUpgradeChecks false in
  m_each (λ chk, recordf step (pf_Name chk) (pf_Message chk) (check_status chk)) checks ;;
  if required_failure checks then
    completef step StepFailed "Pre-upgrade checks failed — resolve issues before proceeding"
  else if all_passed checks then completef step StepCompleted "All pre-upgrade checks passed"
  else completef step StepCompleted "Pre-upgrade checks completed with warnings".
Definition backupPrepareTask_Execute : M execution := runPreflightChecks ;; built None.

Definition backupRunTask_Execute (opts : sharedOptions) (target_OutputDir : string) (dryRun : bool) : M execution :=
  let outputDir := nonempty target_OutputDir (so_OutputDir opts) in
  let* step := child root "backup-rayclusters" "Backup RayCluster configurations" in
  let* checks := RunPreUpgradeChecks (negb dryRun) in
  if dryRun then
    let* clusters := attempt (GetClusters (so_ClusterName opts) (so_Namespace opts)) in
    match clusters with
    | inl err => completef step StepFailed ("Failed to list RayClusters: " +:+ error_string err)
    | inr [] => completef step StepSkipped "Dry-run: no RayClusters found to backup"
    | inr clusters =>
        completef step StepSkipped ("Dry-run: would backup " +:+ show_nat (length clusters) +:+ " RayCluster(s) to " +:+ outputDir)
    end ;;
    built None
  else
    let* saved := attempt (PreUpgrade outputDir (so_ClusterName opts) (so_Namespace opts) checks) in
    match saved with
    | inl err => completef step StepFailed ("Pre-upgrade backup failed: " +:+ error_string err)
    | inr [] => completef step StepSkipped "No RayClusters found to backup"
    | inr saved =>
        completef step StepCompleted ("Backed up " +:+ show_nat (length saved) +:+ " RayCluster(s) to " +:+ outputDir)
    end ;;
    built None.

Definition migrateRunTask_Execute (opts : sharedOptions) (dryRun skipConfirm : bool) : M execution :=
  let* step := child root "post-upgrade-migration" "Migrate RayClusters to RHOAI 3.x" in
  let popts := mkPostOptions (so_ClusterName opts) (so_Namespace opts) dryRun skipConfirm (so_FromBackup opts) (so_RouteTimeout opts) in
  let* res := attempt (PostUpgrade popts) in
  match res with
  | inl err => completef step StepFailed ("Post-upgrade migration failed: " +:+ error_string err)
  | inr res =>
      if dryRun then
        completef step StepSkipped ("Dry-run: " +:+ show_nat (pu_Migrated res) +:+ " would be migrated, " +:+
          show_nat (pu_Skipped res) +:+ " skipped")
      else
        completef step StepCompleted ("Migrated: " +:+ show_nat (pu_Migrated res) +:+ ", Skipped: " +:+ show_nat (pu_Skipped res) +:+
          ", Failed: " +:+ show_nat (pu_Failed res))
  end ;;
  built None.

Definition backupActionID := "raycluster.backup".
Definition backupActionName := "Backup RayClusters for RHOAI 3.x migration".
Definition backupActionDescription := "Backup RayCluster configurations and run pre-flight checks before RHOAI upgrade".
Definition migrateActionID := "raycluster.migrate".
Definition migrateActionName := "Migrate RayClusters to RHOAI 3.x".
Definition migrateActionDescription := "Migrate RayClusters after RHOAI upgrade (live in-place or from backup)".

Section RayActions.
Context `{SV : Semver} {S : Type} (env : ∀ c, S → answer c * S).
Definition BackupAction (opts : sharedOptions) : Action S :=
  mkAction _ S backupActionID backupActionName backupActionDescription GroupBackup PhasePreUpgrade
    (λ target _, match at_CurrentVersion target with Some v => v_Major v =? 2 | None => false end)
    (Some (as_task env (λ _, backupPrepareTask_Execute)))
    (Some (as_task env (λ target, backupRunTask_Execute opts (at_OutputDir target) (at_DryRun target)))).
Definition MigrateAction (opts : sharedOptions) : Action S :=
  mkAction _ S migrateActionID migrateActionName migrateActionDescription GroupMigration PhasePostUpgrade
    (λ target _, match at_TargetVersion target with Some v => 3 <=? v_Major v | None => false end)
    None
    (Some (as_task env (λ target, migrateRunTask_Execute opts (at_DryRun target) (at_SkipConfirm target)))).
End RayActions.
End Ray.

(** ** Rules *)
Lemma only_poll_loop {A} P n i (body : M (option A)) cancelled exhausted :
  P KCancelled → P (KSleep i) → only P body → (∀ e, only P (cancelled e)) → only P exhausted →
  only P (poll n i body cancelled exhausted).
Proof.
  intros H1 H2 Hb Hc He. induction n as [|n IH]; [done|]. cbn [poll].
  apply only_bind; [by apply only_call|]. intros [e|]; [done|]. apply only_bind; [done|]. intros [a|]; [done|].
  apply only_bind; [by apply only_call|]. by intros [e|].
Qed.

Section MonitorRules.
Context {T : Type} (allowed : T → command → Prop) (next : T → ∀ c, answer c → T).
Notation spec := (spec allowed next).

(** A poll whose own questions the monitor ignores. *)
Lemma spec_poll {A} (I : T → Prop) (Q : res go_error A → T → Prop) n i (body : M (option A)) cancelled exhausted t :
  (∀ t c x, c = KCancelled ∨ c = KSleep i → I t → allowed t c ∧ next t c x = t) →
  (∀ t, I t → spec t body (λ r t', match r with
                                   | Ok None => I t'
                                   | Ok (Some a) => Q (Ok a) t'
                                   | Err e => Q (Err e) t'
                                   | Panic p => Q (Panic p) t'
                                   end)) →
  (∀ t e, I t → spec t (cancelled e) Q) → (∀ t, I t → spec t exhausted Q) →
  I t → spec t (poll n i body cancelled exhausted) Q.
Proof.
  intros Hq Hb Hc He. revert t. induction n as [|n IH]; intros t HI; [by apply He|]. cbn [poll].
  apply spec_bind, spec_call; [by apply (Hq t KCancelled None (or_introl eq_refl))|]. intros [e|].
  all: rewrite (proj2 (Hq t KCancelled _ (or_introl eq_refl) HI)).
  { by apply Hc. }
  apply spec_bind. eapply spec_mono; [by apply Hb|]. intros [[a|]|e|p] t' H; [by apply spec_ret| |done..].
  apply spec_bind, spec_call; [by apply (Hq t' (KSleep i) None (or_intror eq_refl))|]. intros [e|].
  all: rewrite (proj2 (Hq t' (KSleep i) _ (or_intror eq_refl) H)).
  - by apply Hc.
  - by apply IH.
Qed.
End MonitorRules.

(** ** Results, whatever the answers *)
Section Results.
Notation spec := (spec (λ _ _, True) (λ _ _ _, ()) ()).
Lemma spec_trivial {A} (m : M A) : spec m (λ _ _, True).
Proof. intros h. induction (m h) as [a|c k IH|]; simpl; auto. Qed.
Lemma spec_result {A S} (env : ∀ c, S → answer c * S) (m : M A) (Q : res go_error A → Prop) h s r h' :
  spec m (λ r _, Q r) → result_of env (m h) s = Some (r, h') → Q r.
Proof. intros Hm Hr. destruct (obeys_exec _ _ env _ _ _ s (Hm h)) as [_ H]. exact (H _ Hr). Qed.

(** A loop that counts: each element adds one to the sum. *)
Lemma count_one_sum `{AE : ApiErrors} title (m : M ()) c :
  spec (count_one title m c) (λ r _, match r with Ok c' => (c'.1 + c'.2 = Datatypes.S (c.1 + c.2))%nat | _ => True end).
Proof.
  destruct c as [a b]. unfold count_one, kErrOut. apply spec_bind, spec_attempt.
  eapply spec_mono; [apply spec_trivial|]. intros [[]|e|msg] [] _; [apply spec_ret; cbn; lia| |done].
  apply spec_bind, spec_bind, spec_call; [done|]. intros []. apply spec_ret, spec_ret. cbn. lia.
Qed.
Lemma counts_sum {A} (f : nat * nat → A → M (nat * nat)) l :
  (∀ c x, spec (f c x) (λ r _, match r with Ok c' => (c'.1 + c'.2 = Datatypes.S (c.1 + c.2))%nat | _ => True end)) →
  spec (m_fold f l (0%nat, 0%nat)) (λ r _, match r with Ok c => (c.1 + c.2)%nat = length l | _ => True end).
Proof.
  intros Hf. apply (spec_fold _ _ (λ past (c : nat * nat) _, (c.1 + c.2)%nat = length past) (λ _ _, True)); [|done].
  intros past c [] x _ Hc. eapply spec_mono; [apply Hf|]. intros [c'|e|m] []; [|done..]. rewrite length_app. cbn. lia.
Qed.
End Results.

(** ** The order of the requests of the migration

    The monitor remembers the consent (a flag, or the answer to the last
    prompt) and the last cluster read, with the answer. *)
Record seen := mkSeen { se_Consent : bool; se_Last : option (string * string * res go_error json) }.
Definition is_cluster_type (rt : ResourceType) : bool := String.eqb (rt_Resource rt) (rt_Resource RayCluster).

Section Order.
Context `{AE : ApiErrors, KE : K8sErrors, JQ : GoJq, CL : Clock, WT : Wait, JT : JsonText, YT : YamlText, GT : GoTypes}.

Definition seen_next (t : seen) (c : command) : answer c → seen :=
  match c return answer c → seen with
  | KGet rt ns name => λ x, if is_cluster_type rt then mkSeen (se_Consent t) (Some (ns, name, x)) else t
  | KReadLine => λ x, mkSeen (confirmed x) (se_Last t)
  | _ => λ _, t
  end.
Definition seen_allowed (t : seen) (c : command) : Prop :=
  match c with
  | KUpdate rt ns obj false =>
      se_Consent t = true ∧ rt = RayCluster ∧
      ∃ name latest, se_Last t = Some (ns, name, Ok latest) ∧ obj = migrated_object latest
  | KCreate rt ns obj false =>
      se_Consent t = true ∧ rt = RayCluster ∧
      ∃ u err, ns = namespace_of u ∧ se_Last t = Some (ns, GetName u, Err err) ∧ IsNotFound err = true ∧ obj = restored_object u
  | KDelete rt ns name =>
      se_Consent t = true ∧
      if is_cluster_type rt then ∃ o, se_Last t = Some (ns, name, Ok o)
      else rt = ServiceAccount ∧
           ∃ cluster latest, se_Last t = Some (ns, cluster, Ok latest) ∧ old_service_account cluster name = true
  | _ => mutates c = false ∧ writes_disk c = false
  end.
Notation spec := (spec seen_allowed seen_next).

(** Questions that leave the consent as it is. *)
Definition calm (c : command) : Prop := mutates c = false ∧ writes_disk c = false ∧ c ≠ KReadLine.
(** Those that leave everything as it is. *)
Definition silent (c : command) : Prop :=
  calm c ∧ match c with KGet rt _ _ => is_cluster_type rt = false | _ => True end.

#[local] Hint Extern 1 (calm _) => (repeat split; done) : only.
#[local] Hint Extern 1 (silent _) => (repeat split; done) : only.

Lemma calm_allowed t c : calm c → seen_allowed t c.
Proof. intros (Hm & Hd & _). destruct c; simpl in *; try done. all: by destruct dry. Qed.
Lemma calm_spec {A} (m : M A) b t : only calm m → se_Consent t = b → spec t m (λ _ t', se_Consent t' = b).
Proof.
  intros Hm Hb. apply (spec_only _ _ calm (λ t, se_Consent t = b)); [|..|done|done].
  - intros t' c Hc _. by apply calm_allowed.
  - intros t' c x (_ & _ & Hr) Ht'. destruct c; simpl; try done. by destruct (is_cluster_type rt).
Qed.
Lemma silent_spec {A} (m : M A) t : only silent m → spec t m (λ _ t', t' = t).
Proof.
  intros Hm. apply (spec_only _ _ silent (λ t', t' = t)); [|..|done|done].
  - intros t' c [Hc _] _. by apply calm_allowed.
  - intros t' c x [(_ & _ & Hr) Hs] ->. destruct c; simpl in *; try done. by rewrite Hs.
Qed.

Lemma calm_report verb name ns timeout : only calm (report_cluster verb name ns timeout).
Proof.
  assert (∀ sel l, only calm (first_routes sel l)) as Hr.
  { intros sel l. induction l as [|n l IH]; cbn [first_routes]; unfold list_in; only_auto; apply IH. }
  assert (∀ n ns, only calm (GetClusterRoute n ns)) as Hroute.
  { intros. unfold GetClusterRoute. apply only_bind; [apply Hr|]. intros routes. only_auto. }
  assert (∀ n ns, only calm (getClusterState n ns)) as Hstate by (intros; unfold getClusterState; only_auto).
  unfold report_cluster, waitForClusterReady, waitForClusterRoute. apply only_bind; [|intros state; apply only_bind; [|intros url]].
  - apply only_bind; [only_auto|intros _]. apply only_poll_loop; [by repeat split..| | |apply Hstate]; [|intros _; only_auto].
    apply only_bind; [apply Hstate|]. intros s. only_auto.
  - apply only_bind; [only_auto|intros _]. apply only_poll_loop; [by repeat split..| | |only_auto]; [|intros _; only_auto].
    apply only_bind; [apply Hroute|]. intros s. only_auto.
  - only_auto.
Qed.
Lemma calm_GetClusters clusterName namespace : only calm (GetClusters clusterName namespace).
Proof. unfold GetClusters, list_in. only_auto. Qed.
Lemma silent_GetClusters clusterName namespace : String.eqb clusterName "" = true → only silent (GetClusters clusterName namespace).
Proof. intros Hc. unfold GetClusters, list_in. rewrite Hc. cbn [negb andb]. only_auto. Qed.
Lemma calm_analyze clusters : only calm (analyzeClusters clusters).
Proof. unfold analyzeClusters, deref. only_auto. Qed.

(** *** In place *)
Lemma cleanup_spec t ns name latest :
  se_Consent t = true → se_Last t = Some (ns, name, Ok latest) →
  spec t (cleanupOldServiceAccounts ns name) (λ _ t', t' = t).
Proof.
  intros Hc Hl. unfold cleanupOldServiceAccounts, list_in, kListAll. apply spec_bind, spec_attempt, spec_bind, spec_call; [done|].
  intros x. apply spec_lift. destruct x as [sas|e|m]; cbn [seen_next]; [|by apply spec_ret|done].
  apply spec_each_any; [|done]. intros t' sa _ ->.
  destruct (old_service_account name (GetName sa)) eqn:Hsa; [|by apply spec_ret].
  unfold kDelete. apply spec_bind, spec_attempt, spec_bind, spec_call.
  { split; [done|]. cbn. split; [done|]. by exists name, latest. }
  intros y. apply spec_lift. destruct y as [[]|e|m]; [..|done].
  all: unfold kErrOut; apply spec_bind, spec_call; [done|]; intros ?u; by apply spec_ret.
Qed.

Lemma migrate_single_spec t name ns timeout :
  se_Consent t = true → spec t (migrateSingleClusterLive name ns timeout) (λ _ t', se_Consent t' = true).
Proof.
  intros Hc. unfold migrateSingleClusterLive, kErrOut, kGet, kUpdate.
  apply spec_bind, spec_bind, spec_call; [done|]. intros ?u. apply spec_ret. cbn [seen_next].
  apply spec_bind, spec_map_err, spec_bind, spec_call; [done|]. intros x. apply spec_lift. cbn [seen_next].
  destruct x as [latest|e|m]; cbn [res_map_err]; [|done..].
  set (t1 := if is_cluster_type RayCluster then _ else _).
  assert (se_Consent t1 = true ∧ se_Last t1 = Some (ns, name, Ok latest)) as [Hc1 Hl1] by done.
  apply spec_bind, spec_bind, spec_call; [done|]. intros ?u. apply spec_ret. cbn [seen_next].
  apply spec_bind. eapply spec_mono; [by apply (cleanup_spec t1 ns name latest)|]. intros [[]|e|m] t2 ->; [|done..].
  apply spec_bind, spec_bind, spec_call; [done|]. intros ?u. apply spec_ret. cbn [seen_next].
  apply spec_bind, spec_map_err, spec_bind, spec_call; [by split; [|split; [|exists name, latest]]|]. intros y. apply spec_lift.
  destruct y; [|done..]. apply calm_spec; [apply calm_report|done].
Qed.

(** *** From a backup *)
Lemma deletion_spec t ns name :
  se_Consent t = true →
  spec t (waitForDeletion ns name) (λ r t', se_Consent t' = true ∧
    (r = Ok () → ∃ err, se_Last t' = Some (ns, name, Err err) ∧ IsNotFound err = true)).
Proof.
  intros Hc. unfold waitForDeletion, kErrOut. apply spec_bind, spec_bind, spec_call; [done|]. intros ?u. apply spec_ret. cbn [seen_next].
  apply (spec_poll _ _ (λ t, se_Consent t = true)); [by intros t' c x [-> | ->]|..|done].
  - intros t' Ht'. unfold kGet. apply spec_bind, spec_attempt, spec_bind, spec_call; [done|]. intros x. apply spec_lift.
    destruct x as [o|e|m]; [by apply spec_ret| |done].
    destruct (IsNotFound e) eqn:He; [|by apply spec_lift].
    apply spec_bind, spec_bind, spec_call; [done|]. intros ?u. apply spec_ret, spec_ret. split; [done|]. intros _. by exists e.
  - intros t' e Ht'. by apply spec_lift.
  - intros t' Ht'. by apply spec_lift.
Qed.

Lemma restore_single_spec t u timeout :
  se_Consent t = true →
  spec t (restoreSingleCluster u (GetName u) (namespace_of u) timeout) (λ _ t', se_Consent t' = true).
Proof.
  intros Hc. unfold restoreSingleCluster. set (name := GetName u). set (ns := namespace_of u).
  apply spec_bind, spec_attempt. unfold kGet. apply spec_bind, spec_call; [done|]. intros x. apply spec_lift. cbn [seen_next].
  set (t1 := if is_cluster_type RayCluster then _ else _).
  assert (se_Consent t1 = true ∧ se_Last t1 = Some (ns, name, x)) as [Hc1 Hl1] by done.
  set (free := λ t' : seen, se_Consent t' = true ∧ ∃ err, se_Last t' = Some (ns, name, Err err) ∧ IsNotFound err = true).
  assert (∀ t', free t' → spec t' (kErrOut ("  [" +:+ name +:+ "] Creating cluster from backup...") ;;
    try* _u := kCreate RayCluster ns (restored_object u) false else errorf_w ("creating cluster " +:+ name) in
    report_cluster "Restored from backup" name ns timeout) (λ _ t', se_Consent t' = true)) as Hrest.
  { intros t' (Hc' & err & Hl' & He). unfold kErrOut, kCreate. apply spec_bind, spec_bind, spec_call; [done|]. intros ?u.
    apply spec_ret. cbn [seen_next]. apply spec_bind, spec_map_err, spec_bind, spec_call.
    { split; [done|]. split; [done|]. by exists u, err. }
    intros y. apply spec_lift. destruct y; [|done..]. apply calm_spec; [apply calm_report|done]. }
  destruct x as [o|e|m]; [..|done].
  - apply spec_bind. unfold kErrOut, kDelete. apply spec_bind, spec_bind, spec_call; [done|]. intros ?u. apply spec_ret. cbn [seen_next].
    apply spec_bind, spec_map_err, spec_bind, spec_call; [by split; [|exists o]|]. intros y. apply spec_lift.
    destruct y as [[]|e|m]; cbn [res_map_err seen_next]; [|done..]. eapply spec_mono; [by apply deletion_spec|].
    intros [[]|e|m] t' [Hc' Hd]; [|done..]. apply Hrest. split; [done|]. by apply Hd.
  - destruct (IsNotFound e) eqn:He; [|by apply spec_bind, spec_lift]. apply spec_bind, spec_ret, Hrest.
    split; [done|]. by exists e.
Qed.

(** *** The whole task *)
Definition agreed (opts : migrateOptions) (t : seen) : Prop := mo_dryRun opts = true ∨ se_Consent t = true.
Lemma silent_each_print l : only silent (m_each kErrOut l).
Proof. only_auto. Qed.
Lemma confirm_spec t opts warning question cancelled :
  (mo_skipConfirm opts = true → se_Consent t = true) →
  spec t (confirm opts warning question cancelled) (λ r t', r = Ok true → agreed opts t').
Proof.
  intros Hskip. unfold confirm, agreed. destruct (mo_dryRun opts); [apply spec_ret; by left|].
  destruct (mo_skipConfirm opts); [apply spec_ret; right; auto|]. cbn [orb].
  apply spec_bind. eapply spec_mono; [apply silent_spec, silent_each_print|]. intros [[]|e|m] t' ->; [|done..].
  unfold Prompt, kErrOut. apply spec_bind, spec_bind, spec_bind, spec_call; [done|]. intros ?u. apply spec_ret. cbn [seen_next].
  apply spec_bind, spec_call; [done|]. intros resp. apply spec_ret. cbn [seen_next].
  apply spec_bind, spec_bind, spec_call; [done|]. intros ?u. apply spec_ret, spec_ret. cbn [seen_next]. intros [= Hr]. by right.
Qed.

Lemma count_one_spec t title (m : M ()) counts (I : seen → Prop) :
  (∀ t c, I t → I (seen_next t (KErrOut c) ())) → spec t m (λ _ t', I t') → spec t (count_one title m counts) (λ _ t', I t').
Proof.
  intros HI Hm. unfold count_one. destruct counts as [a b]. apply spec_bind, spec_attempt. eapply spec_mono; [exact Hm|].
  intros [[]|e|msg] t' Ht'; [by apply spec_ret| |done]. unfold kErrOut.
  apply spec_bind, spec_bind, spec_call; [done|]. intros []. by apply spec_ret, spec_ret, (HI t').
Qed.

(** The two loops, which are alike. *)
Lemma execute_loop_spec {A} t opts (l : list A) (dry real : nat * nat → A → M (nat * nat)) :
  agreed opts t → (∀ counts x, only silent (dry counts x)) →
  (∀ t counts x, se_Consent t = true → spec t (real counts x) (λ _ t', se_Consent t' = true)) →
  spec t (m_fold (λ counts x, if mo_dryRun opts then dry counts x else real counts x) l (0%nat, 0%nat)) (λ _ _, True).
Proof.
  intros Hag Hdry Hreal. destruct (mo_dryRun opts) eqn:Hd.
  - eapply spec_mono; [apply silent_spec, only_fold; intros counts x; apply Hdry|done].
  - destruct Hag as [?|Hc]; [congruence|].
    eapply spec_mono; [apply (spec_fold_any _ _ (λ t, se_Consent t = true)); [|done]|done]. intros counts t' x _ Ht'. by apply Hreal.
Qed.
Lemma live_spec t clusterName namespace opts :
  (mo_skipConfirm opts = true → se_Consent t = true) → spec t (postUpgradeLive clusterName namespace opts) (λ _ _, True).
Proof.
  intros Hskip. unfold postUpgradeLive. case_match; [by apply spec_lift|].
  set (b := se_Consent t) in *. assert (se_Consent t = b) as Hb by done. clearbody b.
  apply spec_bind. eapply spec_mono; [apply (calm_spec _ b); [only_auto|done]|]. intros [[]|e|m] t1 H1; [|done..].
  apply spec_bind. eapply spec_mono; [apply (calm_spec _ b); [only_auto|done]|]. intros [[]|e|m] t2 H2; [|done..].
  apply spec_bind. eapply spec_mono; [apply (calm_spec _ b); [apply calm_GetClusters|done]|]. intros [clusters|e|m] t3 H3; [|done..].
  destruct clusters as [|rc rcs]; [eapply spec_mono; [apply (calm_spec _ b); [only_auto|done]|done]|].
  apply spec_bind. eapply spec_mono; [apply (calm_spec _ b); [apply calm_analyze|done]|]. intros [[toMigrate already]|e|m] t4 H4; [|done..].
  apply spec_bind. eapply spec_mono; [apply (calm_spec _ b); [only_auto|done]|]. intros [[]|e|m] t5 H5; [|done..].
  apply spec_bind. eapply spec_mono; [apply (calm_spec _ b); [only_auto|done]|]. intros [[]|e|m] t6 H6; [|done..].
  destruct toMigrate as [|x xs]; [eapply spec_mono; [apply (calm_spec _ b); [only_auto|done]|done]|].
  apply spec_bind. eapply spec_mono; [apply confirm_spec; rewrite H6; exact Hskip|]. intros [[]|e|m] t7 H7; [| |done..]; cbn [negb].
  2: by apply spec_ret.
  apply spec_bind. eapply spec_mono; [apply execute_loop_spec; [by apply H7| |]|].
  - intros counts y. only_auto.
  - intros t' counts y Ht'. apply count_one_spec; [done|]. by apply migrate_single_spec.
  - intros [[a c]|e|m] t8 _; [|done..]. eapply spec_mono; [apply (calm_spec _ (se_Consent t8)); [only_auto|done]|done].
Qed.
Lemma backup_spec t path clusterName namespace opts :
  (mo_skipConfirm opts = true → se_Consent t = true) → spec t (postUpgradeFromBackup path clusterName namespace opts) (λ _ _, True).
Proof.
  intros Hskip. unfold postUpgradeFromBackup. set (b := se_Consent t) in *. assert (se_Consent t = b) as Hb by done. clearbody b.
  apply spec_bind, spec_call; [done|]. intros stat. cbn [seen_next]. case_match; [by apply spec_lift|].
  apply spec_bind. eapply spec_mono; [apply (calm_spec _ b); [unfold collectYAMLFiles, collectYAMLFromDir; only_auto|done]|].
  intros [files|e|m] t1 H1; [|done..].
  destruct files as [|f fs]; [eapply spec_mono; [apply (calm_spec _ b); [unfold reportNoYAMLFiles; only_auto|done]|done]|].
  apply spec_bind. eapply spec_mono; [apply (calm_spec _ b); [unfold parseBackupItems, parseOneBackupFile; only_auto|done]|].
  intros [items|e|m] t2 H2; [|done..].
  destruct items as [|x xs]; [eapply spec_mono; [apply (calm_spec _ b); [only_auto|done]|done]|].
  do 4 (apply spec_bind; eapply spec_mono; [apply (calm_spec _ b); [only_auto|done]|]; intros [[]|e|m] ?t ?H; [|done..]).
  apply spec_bind. eapply spec_mono; [apply confirm_spec|].
  { intros Hs. specialize (Hskip Hs). congruence. }
  intros [[]|e|m] t7 H7; [| |done..]; cbn [negb]; [|by apply spec_ret].
  apply spec_bind. eapply spec_mono; [apply execute_loop_spec; [by apply H7| |]|].
  - intros counts y. only_auto.
  - intros t' counts y Ht'. apply count_one_spec; [done|]. by apply restore_single_spec.
  - intros [[a c]|e|m] t8 _; [|done..]. eapply spec_mono; [apply (calm_spec _ (se_Consent t8)); [only_auto|done]|done].
Qed.
Lemma task_spec opts dryRun skipConfirm :
  spec (mkSeen skipConfirm None) (migrateRunTask_Execute opts dryRun skipConfirm) (λ _ _, True).
Proof.
  unfold migrateRunTask_Execute, built. apply spec_bind, spec_child. intros step. apply spec_bind, spec_attempt.
  eapply (spec_mono _ _ _ _ (λ _ _, True)).
  - unfold PostUpgrade. case_match; [by apply backup_spec|by apply live_spec].
  - intros [res|e|m] t' _; [..|done].
    + destruct dryRun; repeat spec_step; done.
    + repeat spec_step; done.
Qed.
End Order.

(** ** The migrated object *)
Lemma nested_string_nested path obj obj' : nested path obj' = nested path obj → nested_string path obj' = nested_string path obj.
Proof. unfold nested_string. by intros ->. Qed.
Lemma nested_string_metadata k obj : nested_string ["metadata"; k] obj ≠ "" → ∃ m, nested_map ["metadata"] obj = Some m.
Proof.
  unfold nested_string, nested_map. rewrite nested_cons, (nested_cons "metadata" []). destruct (field "metadata" obj) as [m|]; [|done].
  destruct m; [done..|]. cbn. by eexists.
Qed.

(** An identifying field put back: it is as it was, and nothing else moved. *)
Lemma restore_identity k s latest obj :
  s = nested_string ["metadata"; k] latest →
  nested_map ["metadata"] latest ≠ None → is_Some (nested_map ["metadata"] obj) →
  nested_string ["metadata"; k] obj = "" →
  let obj' := if String.eqb s "" then obj else set_or_remove ["metadata"; k] s obj in
  nested_string ["metadata"; k] obj' = s ∧
  (∀ k' p, k' ≠ k → nested ("metadata" :: k' :: p) obj' = nested ("metadata" :: k' :: p) obj) ∧
  (∀ k' p, k' ≠ "metadata" → nested (k' :: p) obj' = nested (k' :: p) obj) ∧
  is_Some (nested_map ["metadata"] obj').
Proof.
  intros Hs _ [m Hm] He. cbv zeta. unfold set_or_remove. destruct (String.eqb_spec s "") as [->|Hne].
  { split; [done|]. split; [done|]. split; [done|]. by exists m. }
  destruct (put_metadata k (JStr s) obj m Hm) as (H1 & H2 & H3).
  split; [by unfold nested_string; rewrite H1|]. split; [done|]. split; [done|].
  unfold nested_map. rewrite nested_cons in H1. rewrite nested_cons.
  destruct (field "metadata" (put ["metadata"; k] (JStr s) obj)) as [[]|]; cbn in *; try done.
Qed.

Lemma migrated_object_facts latest :
  (∀ k, k ∈ ["resourceVersion"; "uid"; "name"; "namespace"] →
     nested_string ["metadata"; k] (migrated_object latest) = nested_string ["metadata"; k] latest) ∧
  (∀ k p, k ≠ "metadata" → nested (k :: p) (migrated_object latest) = nested (k :: p) (ProcessRayClusterYAML (RemoveAutogeneratedFields latest))) ∧
  nested ["metadata"; "annotations"] (migrated_object latest) = strip_value <$> nested ["metadata"; "annotations"] latest.
Proof.
  unfold migrated_object. set (cleaned := ProcessRayClusterYAML (RemoveAutogeneratedFields latest)).
  assert (∀ p, nested ("metadata" :: p) cleaned = nested ("metadata" :: p) (RemoveAutogeneratedFields latest)) as Hmeta
    by (intros p; by apply process_other).
  assert (∀ k, autogenerated k = true → nested_string ["metadata"; k] cleaned = "") as Hgone.
  { intros k Hk. unfold nested_string. by rewrite Hmeta, strip_metadata_gone. }
  assert (∀ k, autogenerated k = false → nested_string ["metadata"; k] cleaned = nested_string ["metadata"; k] latest) as Hkept.
  { intros k Hk. rewrite (nested_string_nested _ _ _ (Hmeta [k])). apply strip_text; [by repeat constructor|done]. }
  assert (nested ["metadata"; "annotations"] cleaned = strip_value <$> nested ["metadata"; "annotations"] latest) as Hann.
  { rewrite Hmeta. apply strip_path; [by repeat constructor|done]. }
  destruct (nested_map ["metadata"] latest) as [m|] eqn:Hm.
  2: { assert (∀ k, nested_string ["metadata"; k] latest = "") as Hnone.
    { intros k. destruct (String.eqb_spec (nested_string ["metadata"; k] latest) "") as [?|[m' Hm']%nested_string_metadata]; congruence. }
    rewrite !Hnone. cbn [String.eqb]. split; [|done]. intros k Hk. rewrite Hnone.
    destruct (autogenerated k) eqn:Ha; [by apply Hgone|]. by rewrite Hkept. }
  assert (is_Some (nested_map ["metadata"] cleaned)) as Hobj.
  { unfold nested_map. rewrite Hmeta, strip_path by (done || by repeat constructor).
    apply nested_map_some in Hm as [-> [mf ->]]. cbn. by eexists. }
  destruct (restore_identity "resourceVersion" _ latest cleaned eq_refl ltac:(congruence) Hobj (Hgone "resourceVersion" eq_refl)) as (A1 & A2 & A3 & A4).
  fold (SetResourceVersion (nested_string ["metadata"; "resourceVersion"] latest) cleaned) in *.
  set (o1 := if String.eqb (nested_string ["metadata"; "resourceVersion"] latest) "" then _ else _) in *.
  assert (nested_string ["metadata"; "uid"] o1 = "") as Huid.
  { unfold nested_string. rewrite A2 by done. apply Hgone. done. }
  destruct (restore_identity "uid" _ latest o1 eq_refl ltac:(congruence) A4 Huid) as (B1 & B2 & B3 & _).
  fold (SetUID (nested_string ["metadata"; "uid"] latest) o1) in *.
  split; [|split].
  - intros k Hk. destruct (String.eqb_spec k "uid") as [->|Hku]; [exact B1|]. rewrite (nested_string_nested _ _ _ (B2 k [] Hku)).
    destruct (String.eqb_spec k "resourceVersion") as [->|Hkr]; [exact A1|]. rewrite (nested_string_nested _ _ _ (A2 k [] Hkr)).
    apply Hkept. unfold autogenerated. apply bool_decide_eq_false. set_solver.
  - intros k p Hk. by rewrite B3, A3.
  - by rewrite B2, A2.
Qed.

Lemma migrated_object_clean latest : HasTLSOAuthComponents (migrated_object latest) = (false, []).
Proof.
  destruct (migrated_object_facts latest) as (_ & H & _). rewrite (HasTLS_nested _ _ (H "spec" [] ltac:(done))).
  apply RayClustersSpec.processed_no_tls.
Qed.

Lemma remove_metadata k k' p obj :
  k' ≠ k → nested ("metadata" :: k' :: p) (RemoveNestedField ["metadata"; k] obj) = nested ("metadata" :: k' :: p) obj.
Proof.
  intros Hk. destruct obj as [| | | | |fields]; [done..|]. cbn [RemoveNestedField].
  destruct (field "metadata" (JObj fields)) as [[| | | | |inner]|] eqn:Hf; [done..| |done].
  rewrite !(nested_cons "metadata"), field_with_key, String.eqb_refl, Hf. cbn [mbind option_bind].
  by rewrite !nested_cons, field_without_key, (proj2 (String.eqb_neq k k')) by congruence.
Qed.
Lemma kueue_metadata k u : k ≠ "annotations" → nested ["metadata"; k] (RemoveKueueWorkloadAnnotations u) = nested ["metadata"; k] u.
Proof.
  intros Hk. unfold RemoveKueueWorkloadAnnotations.
  set (u1 := match nested_map ["metadata"; "annotations"] u with Some _ => _ | None => u end).
  assert (nested ["metadata"; k] u1 = nested ["metadata"; k] u) as Hu1.
  { unfold u1. destruct (nested_map ["metadata"; "annotations"] u) as [ann|] eqn:Ha; [|done].
    apply nested_map_some in Ha as [Ha _]. rewrite nested_cons in Ha.
    destruct (field "metadata" u) as [[| | | | |mf]|] eqn:Hf; try done.
    destruct (put_metadata "annotations" (stripFromMap ann) u (JObj mf)) as (_ & H & _); [|by apply (H k [])].
    unfold nested_map. by rewrite nested_cons, Hf. }
  destruct (nested_map ["spec"] u1) as [spec|] eqn:Hs; [|done].
  rewrite <-Hu1. eapply nested_put_map_other; [done|exact Hs|done].
Qed.
Lemma restored_name u : GetName (restored_object u) = GetName u.
Proof.
  rewrite !GetName_nested. apply nested_string_nested. unfold restored_object, SetUID, SetResourceVersion, set_or_remove. cbn [String.eqb].
  rewrite !remove_metadata by done. by apply kueue_metadata.
Qed.

(** ** Runs against a cluster

    The RayClusters of a server with optimistic locking, by namespace and
    name; every other question goes to an oracle. *)
Section Store.
Context {R : Type} (missing conflict : go_error) (oracle : ∀ c, R → answer c * R).
Notation store := (gmap (string * string) json).
Definition version_of (o : json) : string := nested_string ["metadata"; "resourceVersion"] o.
Definition ask_oracle (c : command) (s : store * R) : answer c * (store * R) :=
  let '(x, r) := oracle c s.2 in (x, (s.1, r)).
Definition ray_server (c : command) (s : store * R) : answer c * (store * R) :=
  match c return answer c * (store * R) with
  | KGet rt ns name =>
      if is_cluster_type rt then (from_option Ok (Err missing) (s.1 !! (ns, name)), s) else ask_oracle (KGet rt ns name) s
  | KUpdate rt ns obj dry =>
      if is_cluster_type rt then
        match s.1 !! (ns, GetName obj) with
        | Some o =>
            if String.eqb (version_of obj) (version_of o) then (Ok obj, (<[(ns, GetName obj) := obj]> s.1, s.2)) else (Err conflict, s)
        | None => (Err missing, s)
        end
      else ask_oracle (KUpdate rt ns obj dry) s
  | KCreate rt ns obj dry =>
      if is_cluster_type rt then
        match s.1 !! (ns, GetName obj) with
        | Some _ => (Err conflict, s)
        | None => (Ok obj, (<[(ns, GetName obj) := obj]> s.1, s.2))
        end
      else ask_oracle (KCreate rt ns obj dry) s
  | KDelete rt ns name =>
      if is_cluster_type rt then
        match s.1 !! (ns, name) with
        | Some _ => (Ok (), (delete (ns, name) s.1, s.2))
        | None => (Err missing, s)
        end
      else ask_oracle (KDelete rt ns name) s
  | c => ask_oracle c s
  end.

(** An oracle that answers without panics. *)
Definition sound_oracle : Prop :=
  (∀ rt o r p, (oracle (KListAll rt o) r).1 ≠ Panic p) ∧ (∀ rt ns n r p, (oracle (KGet rt ns n) r).1 ≠ Panic p) ∧
  (∀ rt ns n r p, (oracle (KDelete rt ns n) r).1 ≠ Panic p).
Context (sound : sound_oracle).
Context `{AE : ApiErrors, KE : K8sErrors, JQ : GoJq, CL : Clock, WT : Wait, JT : JsonText, YT : YamlText, GT : GoTypes}.

(** Code that returns and leaves the clusters alone. *)
Definition settled {A} (m : M A) : Prop := ∀ h s, ∃ a s', runs ray_server m h s a h s' ∧ s'.1 = s.1.

Lemma settled_ret {A} (a : A) : settled (m_ret a).
Proof using. intros h s. exists a, s. split; [apply runs_ret|done]. Qed.
Lemma settled_bind {A B} (m : M A) (k : A → M B) : settled m → (∀ a, settled (k a)) → settled (m_bind m k).
Proof using.
  intros Hm Hk h s. destruct (Hm h s) as (a & s1 & H1 & E1). destruct (Hk a h s1) as (b & s2 & H2 & E2).
  exists b, s2. split; [by eapply ends_bind|congruence].
Qed.
Lemma settled_call c : (∀ s, (ray_server c s).2.1 = s.1) → settled (call c).
Proof using. intros Hc h s. eexists _, _. split; [apply runs_call|apply Hc]. Qed.
Lemma asked_store c s : (ask_oracle c s).2.1 = s.1.
Proof using. unfold ask_oracle. by destruct (oracle c s.2). Qed.
Lemma settled_attempt_call {A} c (f : answer c → res go_error A) :
  (∀ s, (ray_server c s).2.1 = s.1) → (∀ s p, f (ray_server c s).1 ≠ Panic p) → settled (attempt (m_bind (call c) (λ x, m_lift (f x)))).
Proof using.
  intros Hc Hp h s. pose proof (ends_attempt ray_server _ h s _ _ _ (ends_lifted ray_server c f h s)) as H.
  specialize (Hp s). destruct (f (ray_server c s).1) as [a|e|p]; [..|by destruct (Hp p)]; eexists _, _; split; [exact H|apply Hc|exact H|apply Hc].
Qed.
Lemma settled_err_out text : settled (kErrOut text).
Proof using. apply settled_bind; [apply settled_call, asked_store|intros u; apply settled_ret]. Qed.
Lemma settled_each {A} (f : A → M ()) l : (∀ x, settled (f x)) → settled (m_each f l).
Proof using. intros Hf. induction l as [|x l IH]; [apply settled_ret|]. by apply settled_bind. Qed.
Lemma settled_list rt ns sel : settled (attempt (list_in rt ns sel)).
Proof using sound.
  apply settled_attempt_call; [intros s; apply asked_store|]. intros s p. cbn [ray_server]. unfold ask_oracle.
  destruct sound as (H & _). specialize (H rt {| lo_Namespace := ns; lo_LabelSelector := sel; lo_FieldSelector := ""; lo_Limit := 0 |} s.2 p).
  by destruct (oracle _ s.2).
Qed.
Lemma settled_get rt name ns : settled (attempt (GetResource rt name ns)).
Proof using sound.
  apply (settled_attempt_call (KGet rt ns name)); intros s; cbn [ray_server]; destruct (is_cluster_type rt); [done|apply asked_store|..].
  - intros p. unfold Get. cbn. destruct (s.1 !! (ns, name)); cbn; [done|]. by destruct (IsPermissionError missing).
  - intros p. unfold ask_oracle. destruct sound as (_ & H & _). specialize (H rt ns name s.2). destruct (oracle _ s.2) as [[o|e|m] r]; cbn in *.
    + done.
    + unfold Get. cbn. by destruct (IsPermissionError e).
    + by destruct (H m).
Qed.
Lemma settled_poll {A} n i (body : M (option A)) cancelled exhausted :
  settled body → (∀ e, settled (cancelled e)) → settled exhausted → settled (poll n i body cancelled exhausted).
Proof using.
  intros Hb Hc He. induction n as [|n IH]; [done|]. cbn [poll].
  apply settled_bind; [apply settled_call, asked_store|]. intros [e|]; [done|]. apply settled_bind; [done|].
  intros [a|]; [apply settled_ret|]. apply settled_bind; [apply settled_call, asked_store|]. by intros [e|].
Qed.

Lemma settled_route name ns : settled (GetClusterRoute name ns).
Proof using sound.
  unfold GetClusterRoute. apply settled_bind.
  - generalize [""; "redhat-ods-applications"; "opendatahub"; "default"; "ray-system"]. intros l.
    induction l as [|n l IH]; [apply settled_ret|]. cbn [first_routes]. apply settled_bind; [apply settled_list|].
    intros [e|[|x xs]]; [done..|apply settled_ret].
  - intros [|route routes]; [apply settled_ret|]. case_match; [apply settled_ret|]. apply settled_bind; [apply settled_get|].
    intros [e|gw]; [apply settled_ret|]. case_match; [apply settled_ret|]. apply settled_bind; [apply settled_get|].
    intros [e|rt]; apply settled_ret.
Qed.
Lemma settled_report verb name ns timeout : settled (report_cluster verb name ns timeout).
Proof using sound.
  assert (settled (getClusterState name ns)) as Hstate by (apply settled_bind; [apply settled_get|intros a; apply settled_ret]).
  unfold report_cluster, waitForClusterReady, waitForClusterRoute. apply settled_bind; [|intros state; apply settled_bind].
  - apply settled_bind; [apply settled_err_out|intros _]. apply settled_poll; [|intros _; apply settled_ret|exact Hstate].
    apply settled_bind; [exact Hstate|intros a; apply settled_ret].
  - apply settled_bind; [apply settled_err_out|intros _]. apply settled_poll; [|intros _; apply settled_ret|apply settled_ret].
    apply settled_bind; [apply settled_route|intros a; apply settled_ret].
  - intros url. repeat (apply settled_bind; [apply settled_err_out|intros _]). apply settled_err_out.
Qed.
Lemma settled_cleanup ns name : settled (cleanupOldServiceAccounts ns name).
Proof using sound.
  apply settled_bind; [apply settled_list|]. intros [e|sas]; [apply settled_ret|]. apply settled_each. intros sa. cbv zeta.
  destruct (old_service_account name (GetName sa)); [|apply settled_ret]. apply settled_bind; [|intros _; apply settled_err_out].
  apply (settled_attempt_call (KDelete ServiceAccount ns (GetName sa))); [intros s; apply asked_store|].
  intros s p. cbn. unfold ask_oracle. destruct sound as (_ & _ & H). specialize (H ServiceAccount ns (GetName sa) s.2 p).
  by destruct (oracle _ s.2).
Qed.

(** *** One cluster, in place *)
Lemma migrate_single_run ns name timeout o h s :
  s.1 !! (ns, name) = Some o → GetName o = name →
  ∃ s', runs ray_server (migrateSingleClusterLive name ns timeout) h s () h s' ∧ s'.1 = <[(ns, name) := migrated_object o]> s.1.
Proof using sound.
  intros Hs Hn. unfold migrateSingleClusterLive. destruct (settled_err_out ("  [" +:+ name +:+ "] Fetching current cluster state...") h s) as ([] & s1 & H1 & E1).
  assert (ray_server (KGet RayCluster ns name) s1 = (Ok o, s1)) as Hget by (cbn; by rewrite E1, Hs).
  destruct (settled_err_out ("  [" +:+ name +:+ "] Cleaning up old CodeFlare ServiceAccounts...") h s1) as ([] & s2 & H2 & E2).
  destruct (settled_cleanup ns name h s2) as ([] & s3 & H3 & E3).
  destruct (settled_err_out ("  [" +:+ name +:+ "] Applying migration changes...") h s3) as ([] & s4 & H4 & E4).
  destruct (migrated_object_facts o) as (Hid & _). rewrite GetName_nested in Hn.
  assert (GetName (migrated_object o) = name) as Hname by (rewrite GetName_nested, Hid; [done|set_solver]).
  set (s5 := (<[(ns, name) := migrated_object o]> s4.1, s4.2) : store * R).
  assert (ray_server (KUpdate RayCluster ns (migrated_object o) false) s4 = (Ok (migrated_object o), s5)) as Hup.
  { assert (s4.1 !! (ns, name) = Some o) as Hs4 by congruence.
    cbn. rewrite Hname, Hs4. unfold version_of. rewrite Hid by set_solver. by rewrite String.eqb_refl. }
  destruct (settled_report "Migrated" name ns timeout h s5) as ([] & s6 & H6 & E6).
  exists s6. split; [|rewrite E6; cbn; congruence]. unfold kGet, kUpdate.
  eapply ends_bind; [exact H1|]. eapply (ends_bind _ _ _ h s1 o h s1).
  { apply (ends_map_err _ _ _ _ _ (Ok o)), (ends_ask _ (KGet RayCluster ns name) id _ _ (Ok o)). exact Hget. }
  eapply ends_bind; [exact H2|]. eapply ends_bind; [exact H3|]. eapply ends_bind; [exact H4|].
  eapply (ends_bind _ _ _ h s4 (migrated_object o) h s5); [|exact H6].
  apply (ends_map_err _ _ _ _ _ (Ok (migrated_object o))).
  apply (ends_ask _ (KUpdate RayCluster ns (migrated_object o) false) id _ _ (Ok (migrated_object o))). exact Hup.
Qed.

(** What runs before something else; printing in particular. *)
Lemma after_run {A B} (m : M A) (k : A → M B) (h : heap) (s : store * R) (a : A) (h1 : heap) (s1 : store * R) (b : B) (h' : heap)
    (P : store * R → Prop) :
  runs ray_server m h s a h1 s1 → (∃ s', runs ray_server (k a) h1 s1 b h' s' ∧ P s') →
  ∃ s', runs ray_server (m_bind m k) h s b h' s' ∧ P s'.
Proof using. intros Hm (s' & Hk & HP). exists s'. split; [by eapply ends_bind|done]. Qed.
Lemma printed {A} (text : string) (k : M A) (h : heap) (s : store * R) (a : A) (P : store * R → Prop) :
  (∀ s1, s1.1 = s.1 → ∃ s', runs ray_server k h s1 a h s' ∧ P s') →
  ∃ s', runs ray_server (kErrOut text ;; k) h s a h s' ∧ P s'.
Proof using.
  intros Hk. destruct (settled_err_out text h s) as ([] & s1 & H1 & E1). destruct (Hk s1 E1) as (s2 & H2 & HP).
  exists s2. split; [by eapply ends_bind|done].
Qed.

(** *** One cluster, from a backup *)
Definition alive : Prop := ∀ r, (oracle KCancelled r).1 = None.
Lemma restore_single_run u timeout h s :
  alive → IsNotFound missing = true →
  ∃ s', runs ray_server (restoreSingleCluster u (GetName u) (namespace_of u) timeout) h s () h s' ∧
    s'.1 = <[(namespace_of u, GetName u) := restored_object u]> s.1.
Proof using sound.
  intros Halive Hmissing. set (ns := namespace_of u). set (name := GetName u). unfold restoreSingleCluster.
  assert (∀ s1, s1.1 !! (ns, name) = None →
    ∃ s', runs ray_server (kErrOut ("  [" +:+ name +:+ "] Creating cluster from backup...") ;;
      try* _u := kCreate RayCluster ns (restored_object u) false else errorf_w ("creating cluster " +:+ name) in
      report_cluster "Restored from backup" name ns timeout) h s1 () h s' ∧ s'.1 = <[(ns, name) := restored_object u]> s1.1) as Hcreate.
  { intros s1 Hs1. destruct (settled_err_out ("  [" +:+ name +:+ "] Creating cluster from backup...") h s1) as ([] & s2 & H2 & E2).
    set (s3 := (<[(ns, name) := restored_object u]> s2.1, s2.2) : store * R).
    assert (ray_server (KCreate RayCluster ns (restored_object u) false) s2 = (Ok (restored_object u), s3)) as Hc.
    { cbn -[restored_object]. rewrite restored_name. fold name. by rewrite E2, Hs1, <-E2. }
    destruct (settled_report "Restored from backup" name ns timeout h s3) as ([] & s4 & H4 & E4).
    exists s4. split; [|rewrite E4, <-E2; done]. eapply ends_bind; [exact H2|].
    eapply (ends_bind _ _ _ h s2 (restored_object u) h s3); [|exact H4]. apply (ends_map_err _ _ _ _ _ (Ok (restored_object u))).
    apply (ends_ask _ (KCreate RayCluster ns (restored_object u) false) id _ _ (Ok (restored_object u))). exact Hc. }
  assert (ends ray_server (kGet RayCluster ns name) h s (from_option Ok (Err missing) (s.1 !! (ns, name))) h s) as Hget.
  { unfold kGet. by apply (ends_ask _ (KGet RayCluster ns name) id). }
  apply ends_attempt in Hget. destruct (s.1 !! (ns, name)) as [o|] eqn:Ho; cbn in Hget.
  - eapply after_run; [exact Hget|]. cbv iota beta.
    destruct (settled_err_out ("  [" +:+ name +:+ "] Deleting existing cluster...") h s) as ([] & s1 & H1 & E1).
    set (s2 := (delete (ns, name) s1.1, s1.2) : store * R).
    assert (ray_server (KDelete RayCluster ns name) s1 = (Ok (), s2)) as Hdel by (cbn; by rewrite E1, Ho, <-E1).
    destruct (settled_err_out ("  [" +:+ name +:+ "] Waiting for cluster deletion to complete...") h s2) as ([] & s3 & H3 & E3).
    set (s4 := (ray_server KCancelled s3).2).
    assert (ray_server KCancelled s3 = (None, s4)) as Hcan.
    { unfold s4. cbn. unfold ask_oracle. specialize (Halive s3.2). destruct (oracle KCancelled s3.2) as [x r]. cbn in *. by rewrite Halive. }
    assert (s4.1 = s3.1) as E4 by apply asked_store.
    assert (s4.1 !! (ns, name) = None) as Hgone by (rewrite E4, E3; apply lookup_delete_eq).
    destruct (settled_err_out ("  [" +:+ name +:+ "] Cluster deleted successfully") h s4) as ([] & s5 & H5 & E5).
    destruct (Hcreate s5) as (s6 & H6 & E6); [by rewrite E5|]. exists s6. split.
    2: { rewrite E6, E5, E4, E3. cbn. by rewrite E1, insert_delete_eq. }
    eapply ends_bind; [|exact H6]. eapply ends_bind; [exact H1|].
    eapply (ends_bind _ _ _ h s1 () h s2).
    { apply (ends_map_err _ _ _ _ _ (Ok ())), (ends_ask _ (KDelete RayCluster ns name) id _ _ (Ok ())). exact Hdel. }
    unfold waitForDeletion. eapply ends_bind; [exact H3|]. unfold deletionWaitMaxAttempts. cbn [poll].
    pose proof (runs_call ray_server KCancelled h s3) as Hrc. rewrite Hcan in Hrc. eapply ends_bind; [exact Hrc|].
    eapply (ends_bind _ _ _ h s4 (Some ()) h s5); [|apply runs_ret].
    assert (ends ray_server (kGet RayCluster ns name) h s4 (Err missing) h s4) as Hg4.
    { unfold kGet. apply (ends_ask _ (KGet RayCluster ns name) id _ _ (Err missing)). cbn. by rewrite Hgone. }
    apply ends_attempt in Hg4. eapply ends_bind; [exact Hg4|]. cbv iota beta. rewrite Hmissing.
    eapply ends_bind; [exact H5|apply runs_ret].
  - eapply after_run; [exact Hget|]. cbv iota beta. rewrite Hmissing. eapply after_run; [apply runs_ret|]. by apply Hcreate.
Qed.

(** *** All of them *)
Definition cluster_key (rc : json) : string * string := (namespace_of rc, GetName rc).
Lemma execute_run {A} (key : A → string * string) (title : A → string) (run : A → M ()) (pre : A → option json → Prop)
    (after : A → option json → option json) l :
  (∀ x h s, pre x (s.1 !! key x) → ∃ s', runs ray_server (run x) h s () h s' ∧ s'.1 = partial_alter (after x) (key x) s.1) →
  NoDup (map key l) →
  ∀ a b h s, Forall (λ x, pre x (s.1 !! key x)) l →
  ∃ s', runs ray_server (m_fold (λ counts x, count_one (title x) (run x) counts) l (a, b)) h s ((a + length l)%nat, b) h s' ∧
    (∀ x, x ∈ l → s'.1 !! key x = after x (s.1 !! key x)) ∧ (∀ k, k ∉ map key l → s'.1 !! k = s.1 !! k).
Proof using sound.
  intros Hrun. induction l as [|x l IH]; intros Hnd a b h s Hp.
  { exists s. rewrite Nat.add_0_r. split; [apply runs_ret|]. split; [intros x Hx; by apply not_elem_of_nil in Hx|done]. }
  cbn [map] in Hnd. apply NoDup_cons in Hnd as [Hni Hnd]. apply Forall_cons in Hp as [Hx Hp].
  destruct (Hrun x h s Hx) as (s1 & H1 & E1).
  assert (∀ y, y ∈ l → key y ≠ key x) as Hne.
  { intros y Hy Heq. apply Hni. rewrite <-Heq. by apply list_elem_of_fmap_2. }
  destruct (IH Hnd (Datatypes.S a) b h s1) as (s2 & H2 & E2 & F2).
  { apply list.Forall_forall. intros y Hy. rewrite list.Forall_forall in Hp. rewrite E1, lookup_partial_alter_ne by (intros ?; by apply (Hne y)).
    by apply Hp. }
  exists s2. split; [|split].
  - cbn [m_fold length]. rewrite <-Nat.add_succ_comm. eapply ends_bind; [|exact H2]. unfold count_one.
    eapply ends_bind; [exact (ends_attempt _ _ _ _ _ _ _ H1)|]. apply runs_ret.
  - intros y [->|Hy]%elem_of_cons.
    + rewrite F2 by done. by rewrite E1, lookup_partial_alter_eq.
    + rewrite E2 by done. rewrite E1, lookup_partial_alter_ne by (intros ?; by apply (Hne y)). done.
  - cbn [map]. intros k Hk. rewrite F2 by set_solver. rewrite E1, lookup_partial_alter_ne by set_solver. done.
Qed.

Definition live_pre (rc : json) (o : option json) : Prop := ∃ o', o = Some o' ∧ GetName o' = GetName rc.
Lemma execute_live_run timeout skip l h s :
  NoDup (map cluster_key l) → Forall (λ rc, live_pre rc (s.1 !! cluster_key rc)) l →
  ∃ s', runs ray_server (executeLiveMigration l (mkMigrateOptions false skip timeout)) h s (length l, 0%nat) h s' ∧
    (∀ rc, rc ∈ l → s'.1 !! cluster_key rc = migrated_object <$> s.1 !! cluster_key rc) ∧
    (∀ k, k ∉ map cluster_key l → s'.1 !! k = s.1 !! k).
Proof using sound.
  intros Hnd Hp. unfold executeLiveMigration. cbn [mo_dryRun mo_routeTimeout].
  apply (execute_run cluster_key object_title _ live_pre (λ _ o, migrated_object <$> o)); [|done..].
  intros rc h0 s0 (o & Ho & Hn). destruct (migrate_single_run (namespace_of rc) (GetName rc) timeout o h0 s0 Ho Hn) as (s1 & H1 & E1).
  exists s1. split; [exact H1|]. rewrite E1. apply map_eq. intros k. destruct (decide (k = cluster_key rc)) as [->|Hk].
  - rewrite lookup_partial_alter_eq, Ho. apply lookup_insert_eq.
  - rewrite lookup_partial_alter_ne by done. by apply lookup_insert_ne.
Qed.

(** *** The whole migration in place *)
Lemma analyze_loop total l : ∀ n a b h s,
  ∃ s', runs ray_server (m_fold (λ '(toMigrate, alreadyMigrated) '(idx, rc), deref rc (λ rc,
    let checking := progress_label total idx +:+ "Checking " +:+ object_title rc +:+ "... " in
    if (IsClusterMigrated rc).1 then
      kErrOut (checking +:+ "already migrated") ;; m_ret (toMigrate, alreadyMigrated ++ [rc])%list
    else kErrOut (checking +:+ "needs migration") ;; m_ret (toMigrate ++ [rc], alreadyMigrated)%list))
    (imap (λ i x, (Datatypes.S (n + i), x)) (map Some l)) (a, b)) h s
    ((a ++ List.filter (λ rc, negb (IsClusterMigrated rc).1) l)%list, (b ++ List.filter (λ rc, (IsClusterMigrated rc).1) l)%list) h s' ∧
    s'.1 = s.1.
Proof using.
  induction l as [|rc l IH]; intros n a b h s.
  { exists s. cbn. rewrite !app_nil_r. split; [apply runs_ret|done]. }
  cbn [map imap m_fold deref List.filter]. destruct (IsClusterMigrated rc).1; cbn [negb].
  all: match goal with |- ∃ _, runs _ (m_bind (kErrOut ?t ;; _) _) _ _ _ _ _ ∧ _ =>
    destruct (settled_err_out t h s) as ([] & s1 & H1 & E1) end.
  - destruct (IH (Datatypes.S n) a (b ++ [rc])%list h s1) as (s2 & H2 & E2). exists s2. split; [|congruence].
    eapply ends_bind; [eapply ends_bind; [exact H1|apply runs_ret]|]. rewrite <-(assoc_L (++)%list) in H2.
    eapply (eq_ind _ (λ x, ends _ (m_fold _ x _) _ _ _ _ _) H2). apply imap_ext. intros i x _. cbn. do 2 f_equal. lia.
  - destruct (IH (Datatypes.S n) (a ++ [rc])%list b h s1) as (s2 & H2 & E2). exists s2. split; [|congruence].
    eapply ends_bind; [eapply ends_bind; [exact H1|apply runs_ret]|]. rewrite <-(assoc_L (++)%list) in H2.
    eapply (eq_ind _ (λ x, ends _ (m_fold _ x _) _ _ _ _ _) H2). apply imap_ext. intros i x _. cbn. do 2 f_equal. lia.
Qed.
Lemma analyze_run clusters h s :
  ∃ s', runs ray_server (analyzeClusters (map Some clusters)) h s
    (List.filter (λ rc, negb (IsClusterMigrated rc).1) clusters, List.filter (λ rc, (IsClusterMigrated rc).1) clusters) h s' ∧ s'.1 = s.1.
Proof using.
  unfold analyzeClusters. apply printed. intros s1 E1. apply printed. intros s2 E2. apply printed. intros s3 E3.
  destruct (analyze_loop (length (map Some clusters)) clusters 0 [] [] h s3) as (s4 & H4 & E4). exists s4. split; [exact H4|congruence].
Qed.

Lemma live_run clusterName namespace timeout clusters h s s0 :
  (clusterName = "" ∨ namespace ≠ "") →
  (∀ s1, s1.1 = s.1 → ∃ s2, runs ray_server (GetClusters clusterName namespace) h s1 (map Some clusters) h s2 ∧ s2.1 = s.1) →
  s0 = s.1 → 
  let todo := List.filter (λ rc, negb (IsClusterMigrated rc).1) clusters in
  NoDup (map cluster_key todo) → Forall (λ rc, live_pre rc (s0 !! cluster_key rc)) todo →
  ∃ s', runs ray_server (postUpgradeLive clusterName namespace (mkMigrateOptions false true timeout)) h s
    (mkPost (length todo) (length (List.filter (λ rc, (IsClusterMigrated rc).1) clusters)) 0) h s' ∧
    (∀ rc, rc ∈ todo → s'.1 !! cluster_key rc = migrated_object <$> s0 !! cluster_key rc) ∧
    (∀ k, k ∉ map cluster_key todo → s'.1 !! k = s0 !! k).
Proof using sound.
  intros Hscope Hget -> todo Hnd Hp. unfold postUpgradeLive.
  assert (negb (String.eqb clusterName "") && String.eqb namespace "" = false) as ->.
  { destruct Hscope as [->|Hns]; [done|]. by rewrite (proj2 (String.eqb_neq namespace "") Hns), andb_false_r. }
  cbn [mo_dryRun]. eapply after_run; [apply runs_ret|]. apply printed. intros s1 E1.
  destruct (Hget s1 E1) as (s2 & H2 & E2). eapply after_run; [exact H2|]. destruct clusters as [|rc0 rest].
  { apply printed. intros s4 E4. exists s4. split; [apply runs_ret|]. split; [intros rc Hrc; by apply not_elem_of_nil in Hrc|].
    intros k _. by rewrite E4, E2. }
  remember (rc0 :: rest) as clusters eqn:Hcl. destruct (map Some clusters) as [|c0 cs] eqn:Hm; [by rewrite Hcl in Hm|].
  destruct (analyze_run clusters h s2) as (s3 & H3 & E3). rewrite Hm in H3. eapply after_run; [exact H3|]. clear Hm H3 H2 Hcl.
  apply printed. intros s4 E4. apply printed. intros s5 E5. fold todo.
  assert (s5.1 = s.1) as E by congruence. destruct todo as [|t0 ts] eqn:Htodo.
  { apply printed. intros s6 E6. apply printed. intros s7 E7. exists s7. split; [apply runs_ret|].
    split; [intros rc Hrc; by apply not_elem_of_nil in Hrc|]. intros k _. congruence. }
  eapply after_run; [apply runs_ret|]. cbn [negb].
  destruct (execute_live_run timeout true (t0 :: ts) h s5) as (s6 & H6 & F6 & G6); [done| |].
  { rewrite E. exact Hp. }
  eapply after_run; [exact H6|]. cbv iota beta.
  match goal with |- context [m_each kErrOut ?l] => destruct (settled_each kErrOut l settled_err_out h s6) as ([] & s7 & H7 & E7) end.
  eapply after_run; [exact H7|]. exists s7. split; [apply runs_ret|]. rewrite E7, <-E. by split.
Qed.
End Store.

(** ** Lemmas on backups *)
Lemma join_snoc l x : join "/" (l ++ [x]) = match l with [] => x | _ => join "/" l +:+ "/" +:+ x end.
Proof.
  induction l as [|a l IH]; [done|]. cbn [app]. rewrite join_cons by (by destruct l). rewrite IH.
  destruct l as [|b l]; [done|]. rewrite (join_cons a (b :: l)) by done. cbv iota beta. by rewrite !string_app_assoc.
Qed.
Lemma joined_file_ends dir file :
  dir ≠ "" → entry_name file → ∃ x, path_Join [dir; file] = x +:+ file.
Proof.
  intros Hd Hf. rewrite path_Join_names by (done || by constructor). unfold render.
  destruct (is_rooted dir); rewrite ?join_snoc; destruct (dir_segs dir) as [|a l]; cbn [app].
  - by exists "/".
  - exists ("/" +:+ join "/" (a :: l) +:+ "/"). by rewrite !string_app_assoc.
  - by exists "".
  - cbv iota. exists (join "/" (a :: l) +:+ "/"). by rewrite !string_app_assoc.
Qed.
Lemma yaml_ext x : isYAMLFile (x +:+ yamlExt) = true.
Proof.
  unfold isYAMLFile, path_Ext. change yamlExt with (String "."%char "yaml"). by rewrite cut_last_concat.
Qed.

Lemma backed_3x_text path rc :
  Forall (λ k, autogenerated k = false) path → (∃ k p, path = k :: p ∧ k ≠ "spec") →
  nested_string path (backed_3x rc) = nested_string path rc.
Proof.
  intros Hp (k & p & -> & Hk). unfold backed_3x. rewrite (nested_string_nested _ _ _ (process_other k p _ Hk)). by apply strip_text.
Qed.
Lemma backed_3x_names rc :
  GetName (backed_3x rc) = GetName rc ∧ namespace_of (backed_3x rc) = namespace_of rc ∧ str_at "kind" (backed_3x rc) = str_at "kind" rc.
Proof.
  split; [|split].
  - rewrite !GetName_nested. apply backed_3x_text; [by repeat constructor|by eexists _, _].
  - unfold namespace_of. f_equal. apply (backed_3x_text ["metadata"; "namespace"]); [by repeat constructor|by eexists _, _].
  - apply (backed_3x_text ["kind"]); [by repeat constructor|by eexists _, _].
Qed.
Definition no_slashes (s : string) : Prop := contains_byte "/"%char s = false.
Lemma contains_app c a b : contains_byte c (a +:+ b) = contains_byte c a || contains_byte c b.
Proof.
  induction a as [|x a IH]; [done|]. change (String x a +:+ b) with (String x (a +:+ b)). cbn [contains_byte].
  by rewrite IH, orb_assoc.
Qed.
Lemma backup_file_entry rc : no_slashes (GetName rc) → no_slashes (namespace_of rc) → entry_name (backup_file rc).
Proof.
  intros Hn Hs. split; [done|]. split; [done|]. split; [done|]. unfold no_slash, backup_file. rewrite !contains_app.
  unfold no_slashes in *. change slash with "/"%char. by rewrite Hn, Hs.
Qed.

(** ** A file system *)
Module RayRun.
Definition filesystem (c : command) (files : gmap string string) : answer c * gmap string string :=
  match c return answer c * gmap string string with
  | KReadFile p =>
      (match files !! p with Some data => Ok data | None => Err (EString ("open " +:+ p +:+ ": no such file or directory")) end, files)
  | KWriteFile p data => (Ok (), <[p := data]> files)
  | KRemove p => (Ok (), delete p files)
  | KStat p => (if bool_decide (is_Some (files !! p)) then StatRegular else StatMissing, files)
  | c => (ClusterRun.idle c, files)
  end.
(** A list that holds one cluster. *)
Definition listing (rc : json) (c : command) (s : ()) : answer c * () :=
  (match c return answer c with
   | KListAll rt _ => Ok (if is_cluster_type rt then [rc] else [])
   | c => ClusterRun.idle c
   end, s).
Lemma listing_sound rc : sound_oracle (listing rc).
Proof. done. Qed.
(** A cluster with the sidecar of RHOAI 2.x. *)
Definition secured : json :=
  JObj [("apiVersion", JStr "ray.io/v1"); ("kind", JStr "RayCluster");
        ("metadata", JObj [("name", JStr "rc"); ("namespace", JStr "ns"); ("resourceVersion", JStr "7"); ("uid", JStr "u")]);
        ("spec", JObj [("headGroupSpec", JObj [("template", JObj [("spec", JObj [
          ("serviceAccountName", JStr "rc-oauth-proxy");
          ("containers", JArr [JObj [("name", JStr "ray-head"); ("env", JArr [JObj [("name", JStr "RAY_USE_TLS")]])];
                               JObj [("name", JStr "oauth-proxy")]])])])])])].
Example secured_is_found :
  IsClusterMigrated secured = (false, "Needs migration (has: head: TLS env var RAY_USE_TLS, head: oauth-proxy sidecar container)").
Proof. vm_compute. reflexivity. Qed.
Lemma filesystem_sound : sound_oracle filesystem.
Proof. done. Qed.
Lemma filesystem_alive : alive filesystem.
Proof. done. Qed.
End RayRun.

Section Restore.
Context (missing conflict : go_error).
Context `{AE : ApiErrors, KE : K8sErrors, JQ : GoJq, CL : Clock, WT : Wait, JT : JsonText, YT : YamlText, GT : GoTypes, YL : !YamlTextLaws}.
Hypothesis missing_not_found : IsNotFound missing = true.
Notation server := (ray_server missing conflict RayRun.filesystem).

Lemma write_run u path h st files :
  ∃ data, yaml_Unmarshal data = Ok u ∧
    runs server (writeUnstructuredToFile u path) h (st, files) () h (st, <[path := data]> files).
Proof using YL.
  destruct (yaml_Marshal_parse u) as (data & Hm & Hp). exists data. split; [done|]. unfold writeUnstructuredToFile, kWriteFile.
  eapply (ends_bind _ _ _ h (st, files) data h (st, files)).
  { apply (ends_map_err _ _ _ _ _ (Ok data)). rewrite Hm. apply ends_lift. }
  apply (ends_map_err _ _ _ _ _ (Ok ())), (ends_ask _ (KWriteFile path data) id _ _ (Ok ())). done.
Qed.
Lemma print_run text h st files : runs server (kErrOut text) h (st, files) () h (st, files).
Proof using. apply (runs_err_out server text h (st, files)). Qed.

Lemma backup_run rc d2 d3 h st files :
  ∃ data files', yaml_Unmarshal data = Ok (backed_3x rc) ∧ files' !! path_Join [d3; backup_file rc] = Some data ∧
    runs server (backupCluster rc d2 d3) h (st, files) (path_Join [d3; backup_file rc]) h (st, files').
Proof using YL.
  set (f2 := path_Join [d2; backup_file rc]). set (f3 := path_Join [d3; backup_file rc]).
  destruct (write_run (backed_2x rc) f2 h st files) as (data2 & _ & H2).
  destruct (write_run (backed_3x rc) f3 h st (<[f2 := data2]> files)) as (data3 & Hp & H3).
  exists data3, (<[f3 := data3]> (<[f2 := data2]> files)). split; [done|]. split; [apply lookup_insert_eq|].
  unfold backupCluster. fold f2 f3. eapply ends_bind; [exact (ends_map_err _ _ _ _ _ _ _ _ H2)|].
  eapply ends_bind; [exact (ends_attempt _ _ _ _ _ _ _ H3)|]. cbv iota beta. eapply ends_bind; [apply print_run|apply runs_ret].
Qed.

Lemma parse_run f u data h st files :
  path_Clean f = f → files !! f = Some data → yaml_Unmarshal data = Ok u → str_at "kind" u = "RayCluster" →
  runs server (parseBackupItems [f] "" "") h (st, files) [mkItem u f] h (st, files).
Proof using.
  intros Hc Hf Hu Hk. unfold parseBackupItems. cbn [m_fold]. eapply ends_bind; [|apply runs_ret].
  eapply (ends_bind _ _ _ h (st, files) (Some (mkItem u f)) h (st, files)); [|apply runs_ret]. unfold parseOneBackupFile.
  eapply (ends_bind _ _ _ h (st, files) (inr data) h (st, files)).
  { apply (ends_attempt _ _ _ _ (Ok data)), (ends_ask _ (KReadFile (path_Clean f)) id _ _ (Ok data)). cbn. by rewrite Hc, Hf. }
  cbv iota beta. unfold yaml_map. rewrite Hu. cbn [res_bind].
  assert (∃ fields, u = JObj fields) as [fields ->].
  { unfold str_at in Hk. destruct u; [done..|]. by eexists. }
  unfold selected. rewrite Hk. apply runs_ret.
Qed.

Lemma restore_run f u data timeout h st files :
  path_Clean f = f → isYAMLFile f = true → f ≠ "" → files !! f = Some data → yaml_Unmarshal data = Ok u → str_at "kind" u = "RayCluster" →
  ∃ s', runs server (PostUpgrade (mkPostOptions "" "" false true f timeout)) h (st, files) (mkPost 1 0 0) h s' ∧
    s'.1 = <[(namespace_of u, GetName u) := restored_object u]> st.
Proof using missing_not_found.
  intros Hc Hy Hne Hf Hu Hk. unfold PostUpgrade. cbn [po_FromBackup po_RouteTimeout po_DryRun po_SkipConfirm po_ClusterName po_Namespace].
  rewrite (proj2 (String.eqb_neq f "") Hne). cbn [negb]. unfold postUpgradeFromBackup.
  assert (runs server (call (KStat f)) h (st, files) StatRegular h (st, files)) as Hstat.
  { pose proof (runs_call server (KStat f) h (st, files)) as H. cbn in H. rewrite bool_decide_eq_true_2 in H by (rewrite Hf; by eexists). exact H. }
  eapply after_run; [exact Hstat|]. cbn [bool_decide decide]. rewrite bool_decide_eq_false_2 by done.
  eapply after_run.
  { unfold collectYAMLFiles. eapply ends_bind; [exact Hstat|]. rewrite bool_decide_eq_true_2 by done. rewrite Hy. apply runs_ret. }
  cbv iota beta. eapply after_run; [by apply (parse_run f u data)|]. cbv iota beta. eapply after_run; [apply runs_ret|].
  eapply after_run; [apply print_run|]. eapply after_run; [apply print_run|].
  eapply after_run; [cbn [m_each]; eapply ends_bind; [apply print_run|apply runs_ret]|].
  eapply after_run; [apply runs_ret|]. cbn [negb]. cbv iota.
  unfold executeBackupRestore. cbn [mo_dryRun m_fold].
  set (timeout' := mo_routeTimeout _).
  destruct (restore_single_run missing conflict RayRun.filesystem RayRun.filesystem_sound u timeout' h (st, files)
    RayRun.filesystem_alive missing_not_found) as (s1 & H1 & E1).
  eapply after_run.
  { eapply ends_bind; [|apply runs_ret]. unfold count_one. cbn [bi_u]. eapply ends_bind; [exact (ends_attempt _ _ _ _ _ _ _ H1)|].
    apply runs_ret. }
  cbv iota beta. destruct s1 as [st1 files1]. cbn in E1. subst st1.
  exists (<[(namespace_of u, GetName u) := restored_object u]> st, files1). split; [|reflexivity]. cbn [mo_dryRun app m_each]. eapply ends_bind; [repeat (eapply ends_bind; [apply print_run|]); apply runs_ret|apply runs_ret].
Qed.
End Restore.

(** ** Properties *)
Module RayMigrationSpec.
Section Safety.
Context `{AE : ApiErrors, KE : K8sErrors, JQ : GoJq, CL : Clock, WT : Wait, JT : JsonText, YT : YamlText, GT : GoTypes}.

(** Neither the preparation nor a dry run of the backup, nor a dry run of the
    migration from whatever source, changes the cluster or the disk,
    whatever the answers. *)
Theorem ray_dry_run_is_harmless (opts : sharedOptions) outputDir skipConfirm :
  only harmless backupPrepareTask_Execute ∧ only harmless (backupRunTask_Execute opts outputDir true) ∧
  only harmless (migrateRunTask_Execute opts true skipConfirm).
Proof.
  assert (∀ l, only harmless (find_namespace l)) as Hns by (induction l; cbn [find_namespace]; only_auto; assumption).
  assert (only harmless (RunPreUpgradeChecks false)) as Hchecks.
  { unfold RunPreUpgradeChecks, checkPermissions, checkCertManager, checkCodeflareOperator.
    apply only_bind; [only_auto|]. intros [permOK details]. apply only_bind; [|intros [certOK msg]; only_auto].
    apply only_bind; [only_auto|]. intros [e|crd]; [|only_auto]. destruct (negb (IsNotFound e)); [only_auto|apply Hns]. }
  split; [|split].
  - unfold backupPrepareTask_Execute, runPreflightChecks. apply only_bind; [|intros []; only_auto].
    apply only_bind; [only_auto|]. intros step. apply only_bind; [exact Hchecks|]. intros checks. only_auto.
  - unfold backupRunTask_Execute, GetClusters, list_in. apply only_bind; [only_auto|]. intros step.
    apply only_bind; [exact Hchecks|]. intros checks. only_auto.
  - unfold migrateRunTask_Execute, PostUpgrade, postUpgradeFromBackup, postUpgradeLive, GetClusters, list_in, collectYAMLFiles,
      collectYAMLFromDir, reportNoYAMLFiles, parseBackupItems, parseOneBackupFile, analyzeClusters, confirmLiveMigration,
      confirmBackupRestore, confirm, executeLiveMigration, executeBackupRestore, deref.
    cbn [mo_dryRun orb po_DryRun]. only_auto.
Qed.

(** C6: What the migration sends, in place or from a backup and whatever the
    answers: a cluster is updated, deleted or created and a service account
    deleted only with consent (the flag, or a yes to the prompt); an update
    is the migrated form of the object just read; what is deleted was just
    read; and a cluster is created only when the server has just answered
    that there is none of its name. *)
Theorem ray_migration_order (opts : sharedOptions) dryRun skipConfirm {S} (env : ∀ c, S → answer c * S) h s :
  accepts seen_allowed seen_next (mkSeen skipConfirm None) (transcript env (migrateRunTask_Execute opts dryRun skipConfirm h) s).
Proof. destruct (obeys_exec seen_allowed seen_next env _ _ _ s (task_spec opts dryRun skipConfirm h)) as [H _]. exact H. Qed.

(** Every cluster is counted once, as migrated or as failed, in place and
    from a backup. *)
Theorem every_cluster_is_counted toMigrate toApply mopts :
  (∀ {S} (env : ∀ c, S → answer c * S) h s r h',
     result_of env (executeLiveMigration toMigrate mopts h) s = Some (Ok r, h') → (r.1 + r.2)%nat = length toMigrate) ∧
  (∀ {S} (env : ∀ c, S → answer c * S) h s r h',
     result_of env (executeBackupRestore toApply mopts h) s = Some (Ok r, h') → (r.1 + r.2)%nat = length toApply).
Proof.
  split; intros S env h s r h' Hr; (eapply (spec_result _ _ (λ r, match r with Ok c => _ | _ => True end)) in Hr; [exact Hr|]);
    apply counts_sum; intros c x; case_match; try apply count_one_sum; unfold kErrOut; repeat spec_step; try done; cbn; lia.
Qed.
End Safety.

(** What an update sends: the identity and the version that were read, no TLS
    or OAuth component, and the annotations as they were, so that a cluster
    without the annotation still counts as not migrated afterwards. *)
Theorem migrated_object_exact latest :
  (∀ k, k ∈ ["name"; "namespace"; "uid"; "resourceVersion"] →
     nested_string ["metadata"; k] (migrated_object latest) = nested_string ["metadata"; k] latest) ∧
  HasTLSOAuthComponents (migrated_object latest) = (false, []) ∧
  nested ["metadata"; "annotations"] (migrated_object latest) = strip_value <$> nested ["metadata"; "annotations"] latest ∧
  (nested ["metadata"; "annotations"] latest = None →
     IsClusterMigrated (migrated_object latest) = (false, "Needs annotation only (no TLS/OAuth components found)")).
Proof.
  destruct (migrated_object_facts latest) as (Hid & _ & Hann). split; [|split; [apply migrated_object_clean|split; [exact Hann|]]].
  - intros k Hk. apply Hid. set_solver.
  - intros Hn. rewrite Hn in Hann. unfold IsClusterMigrated, GetAnnotations. rewrite migrated_object_clean, Hann. done.
Qed.

(** C11: The migration in place of a scope, on a cluster with optimistic locking
    and whatever the answers to all other questions: each cluster that was
    not migrated is replaced by its migrated form, no other changes, and the
    result counts them. *)
Theorem live_migration_completes `{AE : ApiErrors, JQ : GoJq, JT : JsonText, YT : YamlText}
    {R} (missing conflict : go_error) (oracle : ∀ c, R → answer c * R) clusterName namespace timeout clusters h s :
  sound_oracle oracle → clusterName = "" ∨ namespace ≠ "" →
  (∀ s1, s1.1 = s.1 → ∃ s2, runs (ray_server missing conflict oracle) (GetClusters clusterName namespace) h s1 (map Some clusters) h s2 ∧ s2.1 = s.1) →
  let todo := List.filter (λ rc, negb (IsClusterMigrated rc).1) clusters in
  NoDup (map cluster_key todo) → Forall (λ rc, live_pre rc (s.1 !! cluster_key rc)) todo →
  ∃ s', runs (ray_server missing conflict oracle) (PostUpgrade (mkPostOptions clusterName namespace false true "" timeout)) h s
    (mkPost (length todo) (length (List.filter (λ rc, (IsClusterMigrated rc).1) clusters)) 0) h s' ∧
    (∀ rc, rc ∈ todo → s'.1 !! cluster_key rc = migrated_object <$> s.1 !! cluster_key rc) ∧
    (∀ k, k ∉ map cluster_key todo → s'.1 !! k = s.1 !! k).
Proof. intros sound Hscope Hget todo Hnd Hp. unfold PostUpgrade. cbn. by apply (live_run missing conflict oracle sound). Qed.

Lemma live_migration_completes_witness :
  ∃ s', runs (ray_server (EForeign 2 "gone") (EForeign 3 "conflict") (RayRun.listing RayRun.secured))
    (PostUpgrade (AE := ClientRun.api) (JQ := ClientRun.no_jq) (JT := ClusterRun.binary_JsonText) (YT := ClusterRun.binary_YamlText)
       (mkPostOptions "" "ns" false true "" 0)) NewRootRecorder ({[("ns", "rc") := RayRun.secured]}, ()) (mkPost 1 0 0) NewRootRecorder s' ∧
    s'.1 !! ("ns", "rc") = Some (migrated_object RayRun.secured).
Proof.
  destruct (live_migration_completes (AE := ClientRun.api) (JQ := ClientRun.no_jq) (JT := ClusterRun.binary_JsonText)
    (YT := ClusterRun.binary_YamlText) (EForeign 2 "gone") (EForeign 3 "conflict") (RayRun.listing RayRun.secured) "" "ns" 0
    [RayRun.secured] NewRootRecorder ({[("ns", "rc") := RayRun.secured]}, ())) as (s' & Hrun & Hdone & _).
  - apply RayRun.listing_sound.
  - by right.
  - intros [st []] Hst. cbn in Hst. subst st. eexists. split; [eexists; reflexivity|reflexivity].
  - repeat constructor. cbn. set_solver.
  - repeat constructor. exists RayRun.secured. split; reflexivity.
  - exists s'. split; [exact Hrun|]. apply (Hdone RayRun.secured). cbn. by left.
Defined.

(** C28: A backup of a cluster restores it: the 3.x file of any RayCluster whose
    names have no slash, given back to the migration, deletes the cluster if
    it is there and creates the backed up form under its name; nothing else
    changes. *)
Theorem backup_then_restore `{AE : ApiErrors, JQ : GoJq, JT : JsonText, YT : YamlText, YL : !YamlTextLaws}
    (missing conflict : go_error) rc d2 d3 timeout h st files :
  IsNotFound missing = true → d3 ≠ "" → str_at "kind" rc = "RayCluster" → no_slashes (GetName rc) → no_slashes (namespace_of rc) →
  let server := ray_server missing conflict RayRun.filesystem in
  let file := path_Join [d3; backup_file rc] in
  ∃ files' s', runs server (backupCluster rc d2 d3) h (st, files) file h (st, files') ∧
    runs server (PostUpgrade (mkPostOptions "" "" false true file timeout)) h (st, files') (mkPost 1 0 0) h s' ∧
    s'.1 = <[(namespace_of rc, GetName rc) := restored_object (backed_3x rc)]> st.
Proof.
  intros Hm Hd Hk Hn Hns. cbv zeta. destruct (backup_run missing conflict rc d2 d3 h st files) as (data & files' & Hu & Hf & Hrun).
  pose proof (backup_file_entry rc Hn Hns) as Hentry. destruct (joined_file_ends d3 _ Hd Hentry) as [x Hx].
  set (f := path_Join [d3; backup_file rc]) in *. destruct (backed_3x_names rc) as (N1 & N2 & N3).
  assert (f = ("" +:+ x +:+ "raycluster-" +:+ GetName rc +:+ "-" +:+ namespace_of rc) +:+ yamlExt) as Hend.
  { rewrite Hx. unfold backup_file. by rewrite !string_app_assoc. }
  destruct (restore_run missing conflict Hm f (backed_3x rc) data timeout h st files') as (s' & H & E).
  - unfold f. apply path_Clean_Join.
  - rewrite Hend. apply yaml_ext.
  - rewrite Hx. unfold backup_file. by destruct x.
  - exact Hf.
  - exact Hu.
  - congruence.
  - exists files', s'. split; [exact Hrun|]. split; [exact H|]. by rewrite E, N1, N2.
Qed.

Lemma backup_then_restore_witness :
  ∃ files' s', runs (ray_server (EForeign 2 "gone") (EForeign 3 "conflict") RayRun.filesystem)
    (PostUpgrade (AE := ClientRun.api) (JQ := ClientRun.no_jq) (JT := ClusterRun.binary_JsonText) (YT := ClusterRun.binary_YamlText)
       (mkPostOptions "" "" false true "/b/3/raycluster-rc-ns.yaml" 0)) NewRootRecorder (∅, files') (mkPost 1 0 0) NewRootRecorder s' ∧
    s'.1 = {[("ns", "rc") := restored_object (backed_3x RayRun.secured)]}.
Proof.
  destruct (backup_then_restore (AE := ClientRun.api) (JQ := ClientRun.no_jq) (JT := ClusterRun.binary_JsonText)
    (YT := ClusterRun.binary_YamlText) (YL := ClusterRun.binary_yaml_laws) (EForeign 2 "gone")
    (EForeign 3 "conflict") RayRun.secured "/b/2" "/b/3" 0 NewRootRecorder ∅ ∅) as (files' & s' & _ & Hrun & Hs); [done..|].
  exists files', s'. split; [exact Hrun|exact Hs].
Defined.

(** Both actions may put their flags in one set, in either order: the flags
    they share are defined once and set the same fields. *)
Example both_define_their_flags :
  res_bind (addBackupFlags ∅) addMigrateFlags = res_bind (addMigrateFlags ∅) addBackupFlags ∧
  is_ok (res_bind (addBackupFlags ∅) addMigrateFlags) = true.
Proof. split; vm_compute; reflexivity. Qed.

(** A name is no file: two clusters may share the file of their backups, and
    the second takes the place of the first. *)
Example backup_files_collide :
  let rc name ns := JObj [("metadata", JObj [("name", JStr name); ("namespace", JStr ns)])] in
  backup_file (rc "a-b" "c") = backup_file (rc "a" "b-c").
Proof. reflexivity. Qed.

(** A cluster the user may not read panics: the client answers a permission
    error with a nil object and no error, and the analysis reads its name. *)
Theorem forbidden_cluster_panics `{AE : ApiErrors, JQ : GoJq}
    {S} (env : ∀ c, S → answer c * S) name ns mopts err h s :
  name ≠ "" → ns ≠ "" → IsPermissionError err = true → (∀ s, (env (KGet RayCluster ns name) s).1 = Err err) →
  result_of env (postUpgradeLive name ns mopts h) s = Some (Panic nil_dereference, h).
Proof.
  intros Hn Hns Hp Henv. apply String.eqb_neq in Hn, Hns.
  assert (∀ s, ∃ s', runs env (GetClusters name ns) h s [None] h s') as Hget.
  { intros s0. eexists. unfold GetClusters. rewrite Hn, Hns. cbn [negb andb]. eapply (ends_bind _ _ _ h s0 (inr None)); [|apply runs_ret].
    apply (ends_attempt _ _ _ _ (Ok None)). unfold GetResource. pose proof (ends_lifted env (KGet RayCluster ns name)
      (λ r, Get (SRV := {| srv_list _ _ _ := Ok ([], ""); srv_get _ _ _ := r; srv_discovery := None |}) RayCluster name ns) h s0) as H.
    cbv beta in H. rewrite Henv in H. unfold Get in H. cbn [srv_get] in H. rewrite Hp in H. exact H. }
  assert (∀ s, ∃ s', ends env (analyzeClusters [None]) h s (Panic nil_dereference) h s') as Hana.
  { intros s0. eexists. unfold analyzeClusters. do 3 (eapply ends_bind; [apply runs_err_out|]).
    apply (ends_bind_panic env (deref None _)), ends_lift. }
  assert (∀ s, ∃ s', ends env (if mo_dryRun mopts then kErrOut "=== DRY RUN MODE - No changes will be made ===" ;; kErrOut "" else m_ret ())
    h s (Ok ()) h s') as Hdry.
  { intros s0. destruct (mo_dryRun mopts); eexists; [eapply ends_bind; apply runs_err_out|apply runs_ret]. }
  destruct (Hdry s) as [s1 H1]. destruct (Hget (env (KErrOut ("Fetching RayClusters (" +:+ formatScopeMsg name ns +:+ ")...")) s1).2) as [s2 H2].
  destruct (Hana s2) as [s3 H3]. eapply ends_result. unfold postUpgradeLive. rewrite Hn, Hns. cbn [negb andb].
  eapply ends_bind; [exact H1|]. eapply ends_bind; [apply runs_err_out|]. eapply ends_bind; [exact H2|]. cbv iota.
  apply ends_bind_panic. exact H3.
Qed.

Lemma forbidden_cluster_panics_witness :
  result_of (λ c (s : ()), (match c return answer c with
      | KGet _ _ _ => Err (EForeign 1 "forbidden")
      | c => ClusterRun.idle c
      end, s)) (postUpgradeLive (AE := ClientRun.api) (JQ := ClientRun.no_jq) "a" "ns" (mkMigrateOptions true false 0) NewRootRecorder) () =
  Some (Panic nil_dereference, NewRootRecorder).
Proof. apply (forbidden_cluster_panics _ "a" "ns" _ (EForeign 1 "forbidden")); done. Defined.

(** The check of permissions cannot see a missing one: the client answers a
    list that is forbidden with an empty list, so that the check passes when
    everything is forbidden. *)
Theorem permission_check_never_denied `{AE : ApiErrors, SRV : ApiServer} {S} (env : ∀ c, S → answer c * S) h s :
  (∀ rt cfg token, ∃ e, srv_list rt cfg token = Err e ∧ IsPermissionError e = true) →
  (∀ rt cfg s, ∃ fuel, ListResources fuel rt cfg = Some (env (KListAll rt cfg) s).1) →
  ∃ s', runs env checkPermissions h s (true, ["List namespaces: OK"; "List RayClusters: OK"]) h s'.
Proof.
  intros Hforbidden Hclient.
  assert (∀ rt s, runs env (attempt (kListAll rt defaultListOptions)) h s (inr []) h (env (KListAll rt defaultListOptions) s).2) as Hlist.
  { intros rt s0. apply (ends_attempt _ _ _ _ (Ok [])). unfold kListAll.
    destruct (Hclient rt defaultListOptions s0) as [fuel Hf]. destruct (Hforbidden rt defaultListOptions "") as (e & He & Hp).
    unfold ListResources in Hf. destruct fuel as [|fuel]; [done|]. cbn [list_loop] in Hf. rewrite He, Hp in Hf. injection Hf as Hf.
    destruct (env (KListAll rt defaultListOptions) s0) as [x s'] eqn:Hx. cbn [fst] in Hf. subst x.
    apply (ends_ask env (KListAll rt defaultListOptions) id h s0 (Ok []) s' Hx). }
  eexists. unfold checkPermissions. eapply ends_bind; [apply Hlist|]. eapply ends_bind; [apply Hlist|]. apply runs_ret.
Qed.

Lemma permission_check_never_denied_witness :
  ∃ s', runs (λ c (s : ()), (ClusterRun.idle c, s)) checkPermissions NewRootRecorder () (true, ["List namespaces: OK"; "List RayClusters: OK"])
    NewRootRecorder s'.
Proof.
  apply (permission_check_never_denied (AE := ClientRun.api)
    (SRV := {| srv_list _ _ _ := Err (EForeign 1 "forbidden"); srv_get _ _ _ := Err (EForeign 1 "forbidden"); srv_discovery := None |})).
  - intros rt cfg token. by eexists.
  - intros rt cfg s. by exists 1%nat.
Defined.
End RayMigrationSpec.
