(* ===== verification/OperatorInstall.v ===== *)
(** * OperatorInstall: pkg/util/kube/olm and pkg/util/kube/rbac

    What the migration actions do with operators: the channel to install from
    (channel.go), the installation through OLM v0 (install.go), the lookup of
    a subscription and of the installation API (subscriptions.go, mode.go),
    and the review of permissions (rbac/check.go). *)
From Stdlib Require Import Ascii.
From S2P Require Import Prelude GoStrings Errors Client Version Result Check Validate DepsCheck DepsInstall BackupDeps WorkloadHelpers.
From S2P Require Import KueueIntegrity DependencyChecks Recorder Action Programs Cluster PipelineActions.
Open Scope string_scope.
Open Scope Z_scope.
Open Scope prog_scope.

(** pkg/resources/types.go *)
Definition SubscriptionType : ResourceType :=
  mkResourceType "operators.coreos.com" "v1alpha1" "Subscription" "subscriptions".
Definition ClusterServiceVersionType : ResourceType :=
  mkResourceType "operators.coreos.com" "v1alpha1" "ClusterServiceVersion" "clusterserviceversions".
Definition OperatorGroupType : ResourceType := mkResourceType "operators.coreos.com" "v1" "OperatorGroup" "operatorgroups".

(** ** [time.Duration.String] *)
Definition millisecond : Z := 1000000.
(** The digits of [v / 10^prec] after the point, without trailing zeros. *)
Fixpoint frac_digits (prec : nat) (v : Z) (acc : string) : string * Z :=
  match prec with
  | O => (acc, v)
  | Datatypes.S prec' =>
      let d := v mod 10 in
      frac_digits prec' (v / 10) (if String.eqb acc "" && (d =? 0) then "" else itoa d +:+ acc)
  end.
Definition show_frac (v : Z) (prec : nat) : string :=
  let '(digits, whole) := frac_digits prec v "" in
  if String.eqb digits "" then itoa whole else itoa whole +:+ "." +:+ digits.
Definition duration_String (d : Z) : string :=
  let u := Z.abs d in
  let text :=
    if u =? 0 then "0s"
    else if u <? 1000 then itoa u +:+ "ns"
    else if u <? millisecond then show_frac u 3 +:+ "µs"
    else if u <? second then show_frac u 6 +:+ "ms"
    else
      let minutes := u / (60 * second) in
      let secs := show_frac (u mod (60 * second)) 9 +:+ "s" in
      if minutes =? 0 then secs
      else if minutes / 60 =? 0 then itoa minutes +:+ "m" +:+ secs
      else itoa (minutes / 60) +:+ "h" +:+ itoa (minutes mod 60) +:+ "m" +:+ secs in
  if d <? 0 then "-" +:+ text else text.

(** ** rbac/check.go *)
Record PermissionCheck := mkPermission { pm_Verb : string; pm_Group : string; pm_Resource : string; pm_Namespace : string }.
#[export] Instance PermissionCheck_eq_dec : EqDecision PermissionCheck.
Proof. solve_decision. Defined.
Definition PermissionCheck_String (p : PermissionCheck) : string :=
  let scope := nonempty (pm_Namespace p) "cluster" in
  let groupSuffix := if String.eqb (pm_Group p) "" then "" else "." +:+ pm_Group p in
  pm_Verb p +:+ " " +:+ pm_Resource p +:+ groupSuffix +:+ " [" +:+ scope +:+ "]".

Definition review (denied : list PermissionCheck) (check : PermissionCheck) : M (list PermissionCheck) :=
  try* allowed := kAccessReview (pm_Verb check) (pm_Group check) (pm_Resource check) (pm_Namespace check)
    else errorf_w ("failed to check permission " +:+ PermissionCheck_String check) in
  m_ret (if (allowed : bool) then denied else denied ++ [check])%list.
(** [authorization]: the client is not nil. *)
Definition CheckPermissions (authorization : bool) (checks : list PermissionCheck) : M (list PermissionCheck) :=
  if negb authorization then m_throw (EString "authorization client is nil") else m_fold review checks [].

(** ** channel.go *)
Definition FallbackKueueOperatorChannel := "stable-v1.2".
(** The pattern of stable channels, numbers joined by dots after the prefix:
    the version. *)
Definition stable_version (name : string) : option string :=
  match cut_prefix "stable-v" name with
  | Some version => if forallb digits_plus (split_on "."%char version) then Some version else None
  | None => None
  end.
Record PackageQuery := mkPackageQuery { pq_PackageName : string; pq_CatalogSource : string; pq_SourceNamespace : string }.

(** The entries of a catalog in JSON Lines, as far as they are read. *)
Record CatalogEntry := mkEntry { ce_Schema : string; ce_Name : string; ce_Package : string; ce_DefaultChannel : string }.
(** A decoder over a text: the entries it decodes, the error it stops with,
    if it is not the end of the text, and the bytes it has read then. *)
Class CatalogText := { catalog_entries : string → list CatalogEntry * option go_error * Z }.
(** Documented behaviour: the end of the text is found by reading it all. *)
Class CatalogTextLaws `{CT : CatalogText} : Prop := {
  catalog_end text entries n : catalog_entries text = (entries, None, n) → n = Z.of_nat (String.length text);
}.

Section Channel.
Context `{SV : Semver, AE : ApiErrors, KE : K8sErrors, JQ : GoJq, CT : CatalogText}.

Definition parseChannelVersion (version : string) : res go_error Version :=
  let parts := split_on "."%char version in
  let padded := (parts ++ repeat "0" (3 - length parts))%list in
  semver_Parse (join "." (take 3 padded)).

(** The version of a name with a stable channel's form, if it parses. *)
Definition channel_version (name : string) : option Version :=
  match stable_version name with
  | Some version => res_opt (parseChannelVersion version)
  | None => None
  end.
Fixpoint best_channel (channels : list string) (best : option (string * Version)) : option (string * Version) :=
  match channels with
  | [] => best
  | name :: rest =>
      match channel_version name with
      | None => best_channel rest best
      | Some v =>
          best_channel rest
            (match best with
             | None => Some (name, v)
             | Some (_, bestVersion) => if v_LT bestVersion v then Some (name, v) else best
             end)
      end
  end.
Definition selectChannel (channels : list string) (defaultChannel : string) : res go_error string :=
  match best_channel channels None with
  | Some (bestChannel, _) => Ok bestChannel
  | None =>
      if String.eqb (trim_space defaultChannel) "" then Err (EString "no stable-v* or defaultChannel found")
      else Ok defaultChannel
  end.

Definition channel_names (channels : list json) : list string :=
  omap (λ ch, match nested ["name"] ch with Some (JStr name) => Some name | _ => None end) channels.
Definition resolveChannelFromManifest (pm : json) : res go_error string :=
  res_bind (res_map_err (errorf_w "querying channels") (jq_Query_array pm ".status.channels")) (λ channels,
    let defaultChannel := default "" (res_opt (jq_Query_string pm ".status.defaultChannel")) in
    res_map_err (errorf_w ("PackageManifest " +:+ GetName pm)) (selectChannel (channel_names channels) defaultChannel)).

Definition in_catalog (query : PackageQuery) (pm : json) : res go_error bool :=
  if negb (String.eqb (GetName pm) (pq_PackageName query)) then Ok false
  else if negb (String.eqb (pq_SourceNamespace query) "") && negb (String.eqb (GetNamespace pm) (pq_SourceNamespace query)) then Ok false
  else if String.eqb (pq_CatalogSource query) "" then Ok true
  else match jq_Query_string pm ".status.catalogSource" with
       | Ok catalogSource => Ok (String.eqb catalogSource (pq_CatalogSource query))
       | Err _ => Ok false
       | Panic s => Panic s
       end.
Definition ResolveOperatorChannel (query : PackageQuery) : M string :=
  let* listed := call (KListAll PackageManifest defaultListOptions) in
  try* manifests := m_lift (client_List PackageManifest (rt_Kind PackageManifest) listed (Some (in_catalog query)))
    else errorf_w ("listing PackageManifests for " +:+ pq_PackageName query) in
  match manifests with
  | [] =>
      m_throw (EString ("PackageManifest " +:+ quote (pq_PackageName query) +:+ " not found in catalog " +:+
        quote (pq_CatalogSource query)))
  | pm :: _ => m_lift (resolveChannelFromManifest pm)
  end.

(** The loop over the entries: the channels, the default channel, and whether
    the package was there. *)
Definition catalog_entry (packageName : string) (s : list string * string * bool) (entry : CatalogEntry) : list string * string * bool :=
  let '(channels, defaultChannel, packageFound) := s in
  if String.eqb (ce_Schema entry) "olm.package" && String.eqb (ce_Name entry) packageName then
    (channels, ce_DefaultChannel entry, true)
  else if String.eqb (ce_Schema entry) "olm.channel" && String.eqb (ce_Package entry) packageName then
    ((channels ++ [ce_Name entry])%list, defaultChannel, packageFound)
  else s.
(** With the bytes read of the content. *)
Definition ResolveCatalogChannel (content packageName : string) : res go_error string * Z :=
  let '(entries, err, read) := catalog_entries content in
  (match err with
   | Some err => Err (errorf_w "decode ClusterCatalog content" err)
   | None =>
       let '(channels, defaultChannel, packageFound) := foldl (catalog_entry packageName) ([], "", false) entries in
       if negb packageFound then Err (EString ("package " +:+ quote packageName +:+ " not found in ClusterCatalog"))
       else
         res_bind (res_map_err (errorf_w ("package " +:+ quote packageName)) (selectChannel channels defaultChannel)) (λ channel,
           if bool_decide (channel ∈ channels) then Ok channel
           else Err (EString ("channel " +:+ quote channel +:+ " for package " +:+ quote packageName +:+ " not found in ClusterCatalog")))
   end, read).
End Channel.

(** ** mode.go, subscriptions.go *)
Section Lookup.
Context `{AE : ApiErrors, KE : K8sErrors}.

Definition mode_error (e : ModeError) : go_error :=
  match e with MErrUnavailable msg => EString msg | MErrOther e => e end.
Definition kResourceAvailable (groupVersion resource : string) : M bool :=
  let* served := call (KAPIResources groupVersion) in
  m_lift (resourceAvailable (λ _, served) groupVersion resource).
(** [ResolveInstallMode] over the answers of the cluster; [discovery]: the
    client is not nil. *)
Definition kResolveInstallMode (discovery : bool) (requested : option Mode) : M Mode :=
  if negb discovery then m_throw (EString unavailable_msg)
  else if bool_decide (requested = Some ModeV1) then
    let* available := kResourceAvailable olmV1GroupVersion olmV1Resource in
    if negb available then m_throw (mode_error (notServed ModeV1)) else m_ret ModeV1
  else
    let* available := kResourceAvailable olmV0GroupVersion olmV0Resource in
    if (available : bool) then m_ret ModeV0
    else if bool_decide (requested = Some ModeV0) then m_throw (mode_error (notServed ModeV0))
    else
      let* available := kResourceAvailable olmV1GroupVersion olmV1Resource in
      if (available : bool) then m_ret ModeV1 else m_throw (EString unavailable_msg).

Definition subscription_of (sub : json) : Subscription :=
  mkSubscription (GetName sub) ((λ _, nested_string ["spec"; "channel"] sub) <$> field "spec" sub)
    (nested_string ["status"; "installedCSV"] sub).
Definition kFindOperator (matcher : SubscriptionInfo → bool) : M (option SubscriptionInfo) :=
  let* listed := call (KList SubscriptionType "" "") in
  m_lift (FindOperator (res_bind listed (λ items, Ok (map subscription_of items))) matcher).
End Lookup.

(** ** install.go *)
Definition defaultPollInterval : Z := 5 * second.
Definition defaultTimeout : Z := 5 * 60 * second.
Definition csvPhaseSucceeded := "Succeeded".

Record InstallConfig := mkInstallConfig {
  cf_Name : string;
  cf_Namespace : string;
  cf_Package : string;
  cf_Channel : string;
  cf_Source : string;
  cf_SourceNamespace : string;
  cf_CSVNamePrefix : string;
  cf_OperatorGroupName : string;
  cf_TargetNamespaces : list string;
  cf_PollInterval : Z;
  cf_Timeout : Z;
  cf_StartingCSV : string;
  cf_InstallPlanApproval : string;
  cf_DryRun : bool;
  cf_Recorder : option loc;
}.

Definition or_default (d default : Z) : Z := if d =? 0 then default else d.
Definition with_defaults (c : InstallConfig) : InstallConfig :=
  mkInstallConfig (cf_Name c) (cf_Namespace c) (cf_Package c) (cf_Channel c) (cf_Source c) (cf_SourceNamespace c)
    (cf_CSVNamePrefix c) (cf_OperatorGroupName c) (cf_TargetNamespaces c) (or_default (cf_PollInterval c) defaultPollInterval)
    (or_default (cf_Timeout c) defaultTimeout) (cf_StartingCSV c) (nonempty (cf_InstallPlanApproval c) "Automatic")
    (cf_DryRun c) (cf_Recorder c).

Definition defaultOperatorGroupName (namespace : string) : string := namespace +:+ "-og".
Definition operatorGroupName (c : InstallConfig) : string :=
  nonempty (cf_OperatorGroupName c) (defaultOperatorGroupName (cf_Namespace c)).

(** The objects that are created, with the fields that are set. *)
Definition namespace_object (name : string) : json := JObj [("metadata", JObj [("name", JStr name)])].
Definition operator_group (namespace name : string) (targetNamespaces : list string) : json :=
  JObj [("metadata", JObj [("name", JStr name); ("namespace", JStr namespace)]);
        ("spec", JObj (if (0 <? length targetNamespaces)%nat then [("targetNamespaces", JArr (map JStr targetNamespaces))] else []))].
Definition subscription_object (c : InstallConfig) : json :=
  JObj [("metadata", JObj [("name", JStr (cf_Name c)); ("namespace", JStr (cf_Namespace c))]);
        ("spec", JObj ([("channel", JStr (cf_Channel c)); ("installPlanApproval", JStr (cf_InstallPlanApproval c));
                        ("name", JStr (cf_Package c)); ("source", JStr (cf_Source c));
                        ("sourceNamespace", JStr (cf_SourceNamespace c))] ++
                       (if String.eqb (cf_StartingCSV c) "" then [] else [("startingCSV", JStr (cf_StartingCSV c))]))%list)].

(** The package has its own copy of the comparison in pkg/deps. *)
Definition same_targets (a b : list string) : bool := slicesEqualUnordered a b.
Definition target_namespaces (group : json) : list string := string_slice (nested ["spec"; "targetNamespaces"] group).

Definition validateExistingOperatorGroups (items : list json) (namespace : string) (requested : list string) : res go_error () :=
  match items with
  | [] => Err (EString ("no OperatorGroup found in " +:+ namespace +:+ " after create conflict"))
  | [group] =>
      let existingTargets := target_namespaces group in
      if same_targets existingTargets requested then Ok ()
      else Err (EString ("operatorgroup " +:+ namespace +:+ "/" +:+ GetName group +:+ " exists with targetNamespaces " +:+
        show_slice existingTargets +:+ ", but requested " +:+ show_slice requested))
  | _ =>
      Err (EString ("expected at most one OperatorGroup in " +:+ namespace +:+ ", found " +:+ itoa (Z.of_nat (length items))))
  end.

Definition succeeded_csv (csvNamePrefix : string) (csv : json) : bool :=
  has_prefix csvNamePrefix (GetName csv) && String.eqb (nested_string ["status"; "phase"] csv) csvPhaseSucceeded.

Section Install.
Context `{AE : ApiErrors, KE : K8sErrors, CL : Clock, WT : Wait}.

Definition CSVReady (namespace csvNamePrefix : string) : M bool :=
  if String.eqb csvNamePrefix "" then m_throw (EString "csv name prefix must not be empty")
  else
    try* csvs := kList ClusterServiceVersionType namespace "" else errorf_w ("listing CSVs in " +:+ namespace) in
    m_ret (existsb (succeeded_csv csvNamePrefix) csvs).

(** One poll of [WaitForCSV]. *)
Definition csv_poll (namespace csvNamePrefix : string) (_ : ()) : M (bool * ()) :=
  let* got := attempt (kList ClusterServiceVersionType namespace "") in
  match got with
  | inl err =>
      if IsUnrecoverableError err then m_throw (errorf_w "unrecoverable error listing CSVs" err) else m_ret (false, ())
  | inr csvs => m_ret (existsb (succeeded_csv csvNamePrefix) csvs, ())
  end.
Definition WaitForCSV (namespace csvNamePrefix : string) (pollInterval timeout : Z) : M () :=
  if String.eqb csvNamePrefix "" then m_throw (EString "csv name prefix must not be empty")
  else
    m_map_err (errorf_w ("timeout waiting for CSV " +:+ csvNamePrefix +:+ " to be ready"))
      (PollUntilContextTimeout (or_default pollInterval defaultPollInterval) (or_default timeout defaultTimeout)
         (csv_poll namespace csvNamePrefix) ()).

Definition ensureNamespace (name : string) : M () :=
  let* got := attempt (kGet NamespaceType "" name) in
  match got with
  | inr _ => m_ret ()
  | inl err =>
      if negb (IsNotFound err) then m_throw (errorf_w ("get namespace " +:+ name) err)
      else
        let* created := attempt (kCreate NamespaceType "" (namespace_object name) false) in
        match created with
        | inl err => if IsAlreadyExists err then m_ret () else m_throw (errorf_w ("create namespace " +:+ name) err)
        | inr _ => m_ret ()
        end
  end.

Definition ensureOperatorGroup (namespace name : string) (targetNamespaces : list string) : M () :=
  try* items := kList OperatorGroupType namespace "" else errorf_w ("list operatorgroups in " +:+ namespace) in
  match items with
  | _ :: _ => m_lift (validateExistingOperatorGroups items namespace targetNamespaces)
  | [] =>
      let* created := attempt (kCreate OperatorGroupType namespace (operator_group namespace name targetNamespaces) false) in
      match created with
      | inr _ => m_ret ()
      | inl err =>
          if IsAlreadyExists err then
            try* items := kList OperatorGroupType namespace ""
              else errorf_w ("list operatorgroups in " +:+ namespace +:+ " after already exists") in
            m_lift (validateExistingOperatorGroups items namespace targetNamespaces)
          else m_throw (errorf_w ("create operatorgroup " +:+ namespace +:+ "/" +:+ name) err)
      end
  end.

Definition createSubscription (c : InstallConfig) : M () :=
  try* _u := kCreate SubscriptionType (cf_Namespace c) (subscription_object c) false
    else errorf_w "failed to create subscription" in
  m_ret ().

Definition recordDryRunPrerequisiteSteps (c : InstallConfig) (recorder : loc) : M () :=
  let* nsStep := child recorder "ensure-namespace" ("Would ensure namespace '" +:+ cf_Namespace c +:+ "' exists") in
  completef nsStep StepSkipped "Would create namespace if missing" ;;
  let* ogStep := child recorder "ensure-operatorgroup"
    ("Would ensure OperatorGroup exists in namespace '" +:+ cf_Namespace c +:+ "'") in
  add_step_detail ogStep "name" (operatorGroupName c) ;;
  completef ogStep StepSkipped "Would create OperatorGroup if missing".

Definition add_details (step : loc) (details : list (string * string)) : M () :=
  m_each (λ kv, add_step_detail step kv.1 kv.2) details.
Definition dryRunOperatorInstall (c : InstallConfig) : M () :=
  match cf_Recorder c with
  | None => m_throw (EString "recorder required for dry-run mode")
  | Some recorder =>
      recordDryRunPrerequisiteSteps c recorder ;;
      let* checkStep := child recorder "check-subscription"
        ("Checking if subscription '" +:+ cf_Name c +:+ "' exists in namespace '" +:+ cf_Namespace c +:+ "'") in
      let* got := attempt (kGet SubscriptionType (cf_Namespace c) (cf_Name c)) in
      match got with
      | inr _ =>
          completef checkStep StepCompleted "Subscription already exists, skipping creation" ;;
          let* verifyStep := child recorder "verify-csv"
            ("Verifying operator CSV '" +:+ cf_CSVNamePrefix c +:+ "' is ready in namespace '" +:+ cf_Namespace c +:+ "'") in
          let* waited := attempt (WaitForCSV (cf_Namespace c) (cf_CSVNamePrefix c) (cf_PollInterval c) (cf_Timeout c)) in
          match waited with
          | inl err =>
              completef verifyStep StepFailed ("CSV verification failed: " +:+ error_string err) ;;
              m_throw (errorf_w "failed waiting for operator CSV" err)
          | inr _ => completef verifyStep StepCompleted "Operator CSV is ready"
          end
      | inl err =>
          if IsNotFound err then
            completef checkStep StepCompleted "Subscription not found" ;;
            let* createStep := child recorder "create-subscription" "Would create Subscription" in
            add_details createStep
              ([("name", cf_Name c); ("namespace", cf_Namespace c); ("package", cf_Package c); ("channel", cf_Channel c);
                ("source", cf_Source c); ("sourceNamespace", cf_SourceNamespace c)] ++
               (if String.eqb (cf_StartingCSV c) "" then [] else [("startingCSV", cf_StartingCSV c)]))%list ;;
            completef createStep StepSkipped ("Would create subscription " +:+ cf_Namespace c +:+ "/" +:+ cf_Name c) ;;
            let* waitStep := child recorder "wait-csv"
              ("Would wait for CSV '" +:+ cf_CSVNamePrefix c +:+ "' to reach 'Succeeded' phase") in
            completef waitStep StepSkipped ("Timeout: " +:+ duration_String (cf_Timeout c))
          else
            completef checkStep StepFailed ("Failed to check subscription: " +:+ error_string err) ;;
            m_throw (errorf_w "failed to check subscription" err)
      end
  end.

Definition EnsureOperatorInstalled (config : InstallConfig) : M () :=
  let c := with_defaults config in
  if cf_DryRun c then dryRunOperatorInstall c
  else
    m_map_err (errorf_w "failed to ensure namespace") (ensureNamespace (cf_Namespace c)) ;;
    m_map_err (errorf_w "failed to ensure operator group")
      (ensureOperatorGroup (cf_Namespace c) (operatorGroupName c) (cf_TargetNamespaces c)) ;;
    let* got := attempt (kGet SubscriptionType (cf_Namespace c) (cf_Name c)) in
    match got with
    | inr _ => m_ret ()
    | inl err =>
        if IsNotFound err then m_map_err (errorf_w "failed to create subscription") (createSubscription c)
        else m_throw (errorf_w "failed to check subscription" err)
    end ;;
    m_map_err (errorf_w "failed waiting for operator")
      (WaitForCSV (cf_Namespace c) (cf_CSVNamePrefix c) (cf_PollInterval c) (cf_Timeout c)).
End Install.

(** ** Lemmas *)
(** *** Channels *)
Lemma best_channel_max `{SV : Semver} channels best n v :
  StrictWeak v_LT → best_channel channels best = Some (n, v) →
  (best = Some (n, v) ∨ (n ∈ channels ∧ channel_version n = Some v)) ∧
  (∀ nb vb, best = Some (nb, vb) → v_LT v vb = false) ∧
  (∀ n' v', n' ∈ channels → channel_version n' = Some v' → v_LT v v' = false).
Proof.
  intros Hsw. revert best. induction channels as [|c cs IH]; intros best; cbn [best_channel].
  { intros ->. split; [by left|]. split; [intros nb vb [= -> ->]; apply (sw_irrefl _ Hsw)|by intros ? ? ?%elem_of_nil]. }
  destruct (channel_version c) as [vc|] eqn:Hc; intros Hb; apply IH in Hb as (Hin & Hbest & Hcs).
  2: { split; [destruct Hin as [?|[? ?]]; [by left|right; split; [by right|done]]|]. split; [done|].
       intros n' v' [->|Hn']%elem_of_cons Hv'; [congruence|by eapply Hcs]. }
  assert (v_LT v vc = false ∧ ∀ nb vb, best = Some (nb, vb) → v_LT v vb = false) as [Hvc Hvb].
  { destruct best as [[nb vb]|]; [|split; [by apply (Hbest c)|done]].
    destruct (v_LT vb vc) eqn:Hlt.
    - split; [by apply (Hbest c)|]. intros nb' vb' [= <- <-]. destruct (v_LT v vb) eqn:Hv; [|done].
      pose proof (Hbest c vc eq_refl) as Hn. by rewrite (sw_trans _ Hsw _ _ _ Hv Hlt) in Hn.
    - pose proof (Hbest nb vb eq_refl) as Hn. split; [|intros nb' vb' [= <- <-]; exact Hn].
      by apply (sw_negtrans _ Hsw vc vb v). }
  split; [|split; [exact Hvb|]].
  - destruct Hin as [Heq|[Hin Hv]]; [|right; split; [by right|done]].
    assert (best = Some (n, v) ∨ (c = n ∧ vc = v)) as [->|[-> ->]]; [|by left|right; split; [by left|done]].
    destruct best as [[nb vb]|]; [|right; by injection Heq]. destruct (v_LT vb vc); [right; by injection Heq|by left].
  - intros n' v' [->|Hn']%elem_of_cons Hv'; [congruence|by eapply Hcs].
Qed.
Lemma best_channel_none `{SV : Semver} channels best :
  best_channel channels best = None ↔ best = None ∧ ∀ n, n ∈ channels → channel_version n = None.
Proof.
  revert best. induction channels as [|c cs IH]; intros best; cbn [best_channel].
  { split; [intros ->; by split; [|intros ? ?%elem_of_nil]|by intros [-> _]]. }
  destruct (channel_version c) as [vc|] eqn:Hc; rewrite IH.
  - split; [|intros [-> Hn]; pose proof (Hn c ltac:(by left)); congruence].
    intros [Hb _]. destruct best as [[nb vb]|]; [by destruct (v_LT vb vc)|done].
  - split; intros [-> Hn]; (split; [done|]).
    + by intros n [->|?]%elem_of_cons; [|apply Hn].
    + intros n ?. apply Hn. by right.
Qed.

(** *** Permissions *)
Lemma runs_review {S} (env : ∀ c, S → answer c * S) (granted : PermissionCheck → bool) checks denied h s :
  (∀ p s, env (KAccessReview (pm_Verb p) (pm_Group p) (pm_Resource p) (pm_Namespace p)) s = (Ok (granted p), s)) →
  runs env (m_fold review checks denied) h s (denied ++ List.filter (λ p, negb (granted p)) checks)%list h s.
Proof.
  intros He. revert denied. induction checks as [|p checks IH]; intros denied; cbn [m_fold List.filter].
  { rewrite app_nil_r. apply runs_ret. }
  assert (runs env (review denied p) h s (if granted p then denied else denied ++ [p])%list h s) as Hp.
  { unfold review, kAccessReview.
    eapply ends_bind; [apply (ends_map_err _ _ _ _ _ (Ok (granted p))), (ends_ask env (KAccessReview _ _ _ _) (λ r, r) _ _ _ _ (He p s))|]. apply runs_ret. }
  eapply ends_bind; [exact Hp|]. destruct (granted p); cbn [negb]; [apply IH|].
  specialize (IH (denied ++ [p])%list). rewrite <-app_assoc in IH. exact IH.
Qed.

(** *** The order of an installation

    What a monitor remembers: which of the objects were read as missing, and
    whether the versions were last listed with one of the operator that
    succeeded. *)
Record install_seen := mkInstallSeen { os_NoNamespace : bool; os_NoGroups : bool; os_NoSubscription : bool; os_Ready : bool }.
Definition nothing_seen : install_seen := mkInstallSeen false false false false.
Definition is_type (a b : ResourceType) : bool := String.eqb (rt_Group a) (rt_Group b) && String.eqb (rt_Resource a) (rt_Resource b).
Lemma is_type_refl a : is_type a a = true.
Proof. unfold is_type. by rewrite !String.eqb_refl. Qed.

Section InstallOrder.
Context `{AE : ApiErrors, KE : K8sErrors, CL : Clock, WT : Wait}.
Context (c : InstallConfig).

Definition read_missing {A} (x : res go_error A) : bool := match x with Err err => IsNotFound err | _ => false end.
Definition install_next (t : install_seen) (q : command) : answer q → install_seen :=
  match q return answer q → install_seen with
  | KGet rt _ name => λ x,
      if is_type rt NamespaceType then mkInstallSeen (read_missing x) (os_NoGroups t) (os_NoSubscription t) (os_Ready t)
      else if is_type rt SubscriptionType then mkInstallSeen (os_NoNamespace t) (os_NoGroups t) (read_missing x) (os_Ready t)
      else t
  | KList rt _ _ => λ x,
      if is_type rt OperatorGroupType then
        mkInstallSeen (os_NoNamespace t) (match x with Ok [] => true | _ => false end) (os_NoSubscription t) (os_Ready t)
      else if is_type rt ClusterServiceVersionType then
        mkInstallSeen (os_NoNamespace t) (os_NoGroups t) (os_NoSubscription t)
          (match x with Ok csvs => existsb (succeeded_csv (cf_CSVNamePrefix c)) csvs | _ => false end)
      else t
  | _ => λ _, t
  end.
(** The requests of an installation.  Reads are of its namespace. *)
Definition install_allowed (t : install_seen) (q : command) : Prop :=
  match q with
  | KCreate rt ns obj false =>
      cf_DryRun c = false ∧
      ((rt = NamespaceType ∧ obj = namespace_object (cf_Namespace c) ∧ os_NoNamespace t = true) ∨
       (rt = OperatorGroupType ∧ ns = cf_Namespace c ∧
          obj = operator_group (cf_Namespace c) (operatorGroupName c) (cf_TargetNamespaces c) ∧ os_NoGroups t = true) ∨
       (rt = SubscriptionType ∧ ns = cf_Namespace c ∧ obj = subscription_object (with_defaults c) ∧ os_NoSubscription t = true))
  | KGet rt ns name =>
      (rt = NamespaceType ∧ name = cf_Namespace c) ∨ (rt = SubscriptionType ∧ ns = cf_Namespace c ∧ name = cf_Name c)
  | KList rt ns _ => ns = cf_Namespace c ∧ (rt = OperatorGroupType ∨ rt = ClusterServiceVersionType)
  | _ => False
  end.
Notation spec := (spec install_allowed install_next).

Lemma ensureNamespace_spec t : cf_DryRun c = false → spec t (ensureNamespace (cf_Namespace c)) (λ _ _, True).
Proof.
  intros Hd. unfold ensureNamespace, kGet, kCreate. apply spec_bind, spec_attempt, spec_bind, spec_call; [by left|].
  intros x. apply spec_lift. destruct x as [o|e|m]; [by apply spec_ret| |done].
  destruct (IsNotFound e) eqn:He; cbn [negb]; [|by apply spec_lift].
  apply spec_bind, spec_attempt, spec_bind, spec_call.
  { split; [done|]. left. do 2 (split; [done|]). cbn [install_next]. rewrite is_type_refl. exact He. }
  intros x. apply spec_lift. destruct x as [o|e'|m]; [by apply spec_ret| |done].
  destruct (IsAlreadyExists e'); [by apply spec_ret|by apply spec_lift].
Qed.

Lemma ensureOperatorGroup_spec t :
  cf_DryRun c = false →
  spec t (ensureOperatorGroup (cf_Namespace c) (operatorGroupName c) (cf_TargetNamespaces c)) (λ _ _, True).
Proof.
  intros Hd. unfold ensureOperatorGroup, kList, kCreate. apply spec_bind, spec_map_err, spec_bind, spec_call; [by split; [|left]|].
  intros x. apply spec_lift. destruct x as [[|g gs]|e|m]; cbn [res_map_err]; [|by apply spec_lift|done..].
  apply spec_bind, spec_attempt, spec_bind, spec_call; [by split; [|right; left]|].
  intros y. apply spec_lift. destruct y as [o|e|m]; [by apply spec_ret| |done].
  destruct (IsAlreadyExists e); [|by apply spec_lift].
  apply spec_bind, spec_map_err, spec_bind, spec_call; [by split; [|left]|]. intros z. apply spec_lift.
  destruct z; cbn [res_map_err]; [by apply spec_lift|done..].
Qed.

Context `{WL : !WaitLaws}.

Lemma WaitForCSV_spec t interval timeout :
  spec t (WaitForCSV (cf_Namespace c) (cf_CSVNamePrefix c) interval timeout) (λ r t', r = Ok () → os_Ready t' = true).
Proof using WL.
  unfold WaitForCSV. destruct (String.eqb _ _); [by apply spec_lift|]. apply spec_map_err.
  destruct (PollUntilContextTimeout_retries (or_default interval defaultPollInterval) (or_default timeout defaultTimeout))
    as (n & err & _ & ->).
  eapply spec_mono; [apply (spec_retry _ _ (λ _ _, True) (λ _ _, True) _ _ _ _ _ (λ _ t', os_Ready t' = true))|].
  - intros [] t' _. unfold csv_poll, kList. apply spec_bind, spec_attempt, spec_bind, spec_call; [by split; [|right]|].
    intros x. apply spec_lift. destruct x as [csvs|e|m]; [| |done].
    + apply spec_ret. by destruct (existsb _ csvs) eqn:Hex.
    + destruct (IsUnrecoverableError e); [by apply spec_lift|by apply spec_ret].
  - done.
  - done.
  - by intros [[]|e|m] t' H.
Qed.

Lemma dryRun_spec t : spec t (dryRunOperatorInstall (with_defaults c)) (λ _ _, True).
Proof using WL.
  unfold dryRunOperatorInstall. destruct (cf_Recorder (with_defaults c)) as [recorder|]; [|by apply spec_lift].
  unfold recordDryRunPrerequisiteSteps. repeat spec_step; [by right|].
  match goal with x : answer (KGet _ _ _) |- _ => destruct x as [o|e|m] end; [| |done].
  - repeat spec_step. eapply spec_mono; [apply WaitForCSV_spec|]. intros [[]|e|m] t' _; [| |done]; repeat spec_step; done.
  - destruct (IsNotFound e); [|repeat spec_step; done]. apply spec_bind, spec_completef, spec_bind, spec_child. intros create.
    apply spec_bind. eapply spec_mono; [apply (spec_each _ _ (λ _, True))|].
    + intros t' kv _ _. apply spec_detail. by split; [eexists|].
    + done.
    + intros r t' [-> _]. repeat spec_step. done.
Qed.

Lemma install_spec t :
  spec t (EnsureOperatorInstalled c) (λ r t', r = Ok () → cf_DryRun c = true ∨ os_Ready t' = true).
Proof using WL.
  unfold EnsureOperatorInstalled. change (cf_DryRun (with_defaults c)) with (cf_DryRun c).
  destruct (cf_DryRun c) eqn:Hd.
  { eapply spec_mono; [apply dryRun_spec|]. by left. }
  change (cf_Namespace (with_defaults c)) with (cf_Namespace c).
  change (operatorGroupName (with_defaults c)) with (operatorGroupName c).
  apply spec_bind, spec_map_err. eapply spec_mono; [by apply ensureNamespace_spec|]. intros [[]|e|m] t1 _; [|done..].
  apply spec_bind, spec_map_err. eapply spec_mono; [by apply ensureOperatorGroup_spec|]. intros [[]|e|m] t2 _; [|done..].
  unfold kGet. apply spec_bind, spec_attempt, spec_bind, spec_call; [by right|]. intros x. apply spec_lift.
  assert (∀ t, spec t (m_map_err (errorf_w "failed waiting for operator")
    (WaitForCSV (cf_Namespace c) (cf_CSVNamePrefix c) (cf_PollInterval (with_defaults c)) (cf_Timeout (with_defaults c))))
    (λ r t', r = Ok () → false = true ∨ os_Ready t' = true)) as Hwait.
  { intros t'. apply spec_map_err. eapply spec_mono; [apply WaitForCSV_spec|]. intros [[]|e|m] t'' H; [right; by apply H|done..]. }
  destruct x as [o|e|m]; [| |done].
  - apply spec_bind, spec_ret, Hwait.
  - destruct (IsNotFound e) eqn:He; [|by apply spec_bind, spec_lift].
    unfold createSubscription, kCreate. apply spec_bind, spec_map_err, spec_bind, spec_map_err, spec_bind, spec_call.
    { split; [done|]. right; right. do 3 (split; [done|]). cbn [install_next]. exact He. }
    intros y. apply spec_lift. destruct y as [o|e'|m]; cbn [res_map_err]; [|done..]. apply spec_ret, Hwait.
Qed.
End InstallOrder.

Import (hints) ClientRun VersionRun ClusterRun.

(** ** Properties *)
Module OperatorInstallSpec.
(** The channel chosen is one of the offered stable channels whose version no
    other offered stable channel exceeds; without one it is the default
    channel, and a blank default is an error.  It never panics. *)
Theorem selectChannel_highest `{SV : Semver} channels defaultChannel :
  StrictWeak v_LT →
  match selectChannel channels defaultChannel with
  | Ok c =>
      (∃ v, c ∈ channels ∧ channel_version c = Some v ∧
         ∀ c' v', c' ∈ channels → channel_version c' = Some v' → v_LT v v' = false) ∨
      ((∀ c', c' ∈ channels → channel_version c' = None) ∧ c = defaultChannel ∧ trim_space c ≠ "")
  | Err _ => (∀ c', c' ∈ channels → channel_version c' = None) ∧ trim_space defaultChannel = ""
  | Panic _ => False
  end.
Proof.
  intros Hsw. unfold selectChannel. destruct (best_channel channels None) as [[c v]|] eqn:Hb.
  - apply best_channel_max in Hb as ([?|[Hc Hv]] & _ & Hmax); [done| |done]. left. by exists v.
  - apply best_channel_none in Hb as [_ Hn]. destruct (String.eqb_spec (trim_space defaultChannel) "") as [Hd|Hd]; [by split|].
    by right.
Qed.

(** With a server whose answers do not change, the permissions reported as
    denied are those it does not grant, in the order they were asked, and
    nothing else happens; without a client it is an error. *)
Theorem CheckPermissions_exact {S} (env : ∀ c, S → answer c * S) (granted : PermissionCheck → bool) checks h s :
  (∀ p s, env (KAccessReview (pm_Verb p) (pm_Group p) (pm_Resource p) (pm_Namespace p)) s = (Ok (granted p), s)) →
  runs env (CheckPermissions true checks) h s (List.filter (λ p, negb (granted p)) checks) h s ∧
  ends env (CheckPermissions false checks) h s (Err (EString "authorization client is nil")) h s.
Proof. intros He. split; [apply (runs_review env granted checks [] h s He)|apply ends_lift]. Qed.

(** C21: Whatever the cluster answers: an installation creates the namespace only
    after it read that there is none, the operator group only after an empty
    list, and the subscription, as the configuration says, only after it read
    that there is none; a dry run creates nothing; and nothing else is asked
    of the cluster than reading these.  A run that reports no error has seen
    a version of the operator that succeeded. *)
Theorem operator_install_order `{AE : ApiErrors, KE : K8sErrors, CL : Clock, WT : Wait, WL : !WaitLaws}
    {S} (env : ∀ c, S → answer c * S) c h s :
  let p := EnsureOperatorInstalled c h in
  let tr := transcript env p s in
  accepts (install_allowed c) (install_next c) nothing_seen tr ∧
  ∀ h', result_of env p s = Some (Ok (), h') → cf_DryRun c = false → os_Ready (observe (install_next c) nothing_seen tr) = true.
Proof.
  cbv zeta. destruct (obeys_exec _ _ env _ _ _ s (install_spec c nothing_seen h)) as [Ha Hq].
  split; [exact Ha|]. intros h' Hr Hd. destruct (Hq _ Hr eq_refl) as [Hd'|?]; [congruence|done].
Qed.

#[local] Instance witness_clock : Clock := { now := 0 }.

Lemma lt_iff a b :
  VersionRun.lt a b = true ↔
  VersionRun.maj a < VersionRun.maj b ∨ VersionRun.maj a = VersionRun.maj b ∧
    (VersionRun.min a < VersionRun.min b ∨ VersionRun.min a = VersionRun.min b ∧ VersionRun.pat a < VersionRun.pat b).
Proof. unfold VersionRun.lt. rewrite !orb_true_iff, !andb_true_iff, !orb_true_iff, !andb_true_iff, !Z.ltb_lt, !Z.eqb_eq. done. Qed.
Lemma semver_StrictWeak : StrictWeak (v_LT (Semver := VersionRun.semver)).
Proof.
  split; cbn [v_LT VersionRun.semver]; intros *; rewrite <-?not_true_iff_false, !lt_iff; lia.
Qed.
Lemma selectChannel_highest_witness :
  let channels := ["stable-v1.2"; "alpha"; "stable-v1.10"; "stable-v1.9"] in
  selectChannel (SV := VersionRun.semver) channels "alpha" = Ok "stable-v1.10" ∧
  ∀ v, channel_version (SV := VersionRun.semver) "stable-v1.9" = Some v → VersionRun.lt (VersionRun.mkVer 1 10 0) v = false.
Proof.
  intros channels. assert (selectChannel (SV := VersionRun.semver) channels "alpha" = Ok "stable-v1.10") as H by reflexivity.
  split; [exact H|]. intros v Hv. pose proof (selectChannel_highest (SV := VersionRun.semver) channels "alpha" semver_StrictWeak) as Hs.
  rewrite H in Hs. destruct Hs as [(v0 & _ & Hv0 & Hmax)|[Hn _]].
  - injection Hv0 as <-. apply (Hmax "stable-v1.9" v); [set_solver|exact Hv].
  - rewrite (Hn "stable-v1.9") in Hv; [done|set_solver].
Defined.

Definition reviewer (c : command) (s : ()) : answer c * () :=
  match c return answer c * () with
  | KAccessReview verb _ _ _ => (Ok (negb (String.eqb verb "delete")), s)
  | c => (ClusterRun.idle c, s)
  end.
Lemma CheckPermissions_exact_witness :
  let del := mkPermission "delete" "apiextensions.k8s.io" "customresourcedefinitions" "" in
  runs reviewer (CheckPermissions true [mkPermission "get" "" "pods" "x"; del]) NewRootRecorder () [del] NewRootRecorder ().
Proof.
  intros del.
  destruct (CheckPermissions_exact reviewer (λ p, negb (String.eqb (pm_Verb p) "delete")) [mkPermission "get" "" "pods" "x"; del]
    NewRootRecorder ()) as [H _]; [by intros p []|]. exact H.
Defined.

(** A cluster that installs what it is asked to. *)
Definition sample_config : InstallConfig :=
  mkInstallConfig "op" "ns" "op" "stable" "redhat-operators" "openshift-marketplace" "op" "" [] 0 0 "" "" false None.
Definition fresh_cluster (c : command) (subscribed : bool) : answer c * bool :=
  match c return answer c * bool with
  | KGet rt _ name =>
      (if is_type rt SubscriptionType then Err (@NewNotFound ClientRun.k8s "operators.coreos.com" "subscriptions" name)
       else Ok (JObj []), subscribed)
  | KCreate rt _ obj _ => (Ok obj, subscribed || is_type rt SubscriptionType)
  | KList rt _ _ =>
      (Ok (if is_type rt ClusterServiceVersionType && subscribed
           then [JObj [("metadata", JObj [("name", JStr "op.v1")]); ("status", JObj [("phase", JStr "Succeeded")])]] else []), subscribed)
  | c => (ClusterRun.idle c, subscribed)
  end.
Lemma operator_install_order_witness :
  os_Ready (observe (install_next (AE := ClientRun.api) sample_config) nothing_seen
    (transcript fresh_cluster (EnsureOperatorInstalled (AE := ClientRun.api) (WT := ClusterRun.steps_Wait)
       sample_config NewRootRecorder) false)) = true.
Proof.
  destruct (operator_install_order (AE := ClientRun.api) (WL := ClusterRun.steps_laws) fresh_cluster sample_config
    NewRootRecorder false) as [_ H].
  eapply H; [vm_compute; reflexivity|reflexivity].
Defined.
End OperatorInstallSpec.
