(* ===== verification/KueueSteps.v ===== *)
(** * KueueSteps: the steps of pkg/migrate/actions/kueue/rhbok

    The migration from the Kueue embedded in the platform to the Red Hat build
    of Kueue: the checks before it (rhbok_preflight.go), the channel and the
    installation of the operator under both generations of OLM (rhbok.go,
    rhbok_olm_v1.go), the changes of the DataScienceCluster (rhbok_dsc.go), the
    legacy CRDs (rhbok_crds.go), the waits (rhbok_wait.go), the labels
    (rhbok_labeling.go), the verification (rhbok_verify.go), and the two tasks
    (prepare_task.go, run_task.go).

    The options of the action do not change during a task; the mode it selects
    and the labeling plan it caches are passed from step to step. *)
From Stdlib Require Import Ascii.
From S2P Require Import Prelude GoStrings FilePath Errors Client Version Result Check Validate DepsCheck DepsInstall BackupDeps Backup.
From S2P Require Import WorkloadHelpers NotebookChecks KueueIntegrity ComponentChecks DependencyChecks PlatformChecks RayClusters.
From S2P Require Import Recorder Action Programs Cluster PipelineActions OperatorInstall.
Open Scope string_scope.
Open Scope Z_scope.
Open Scope prog_scope.

(** ** Constants (rhbok.go, rhbok_crds.go, rhbok_olm_v1.go) *)
Definition actionID := "kueue.rhbok.migrate".
Definition actionName := "Migrate Kueue to Red Hat build of Kueue".
Definition actionDescription := "Migrates from OpenShift AI built-in Kueue to Red Hat Build of Kueue operator".
Definition operatorNamespace := "openshift-kueue-operator".
Definition subscriptionName := "kueue-operator".
Definition subscriptionPackage := "kueue-operator".
Definition subscriptionSource := "redhat-operators".
Definition catalogNamespace := "openshift-marketplace".
Definition csvNamePrefix := "kueue-operator".
Definition kueue_backoff : Backoff := mkBackoff (second / 2) 5 0.
Definition operatorTimeout : Z := 5 * 60 * second.
Definition operatorPollPeriod : Z := 10 * second.
Definition componentPollPeriod : Z := 10 * second.
Definition componentTimeout : Z := 5 * 60 * second.
Definition kueueComponentPath := ".spec.components.kueue.managementState".
Definition kueueReadyType := "KueueReady".
Definition embeddedKueueDeployment := "kueue-controller-manager".
Definition configMapName := "kueue-manager-config".
Definition applicationsNamespace := "redhat-ods-applications".
Definition configMapAnnotationKey := "opendatahub.io/managed".
Definition configMapAnnotationValue := "false".
Definition defaultQueueName := "default".
Definition legacyCohortCRD := "cohorts.kueue.x-k8s.io".
Definition legacyTopologyCRD := "topologies.kueue.x-k8s.io".
Definition legacyCRDNames : list string := [legacyCohortCRD; legacyTopologyCRD].
Definition LegacyCohort : ResourceType := mkResourceType "kueue.x-k8s.io" "v1alpha1" "Cohort" "cohorts".
Definition LegacyTopology : ResourceType := mkResourceType "kueue.x-k8s.io" "v1alpha1" "Topology" "topologies".
Definition rhbokClusterCatalog := "openshift-redhat-operators".
Definition maxRHBOKCatalogContentBytes : Z := 512 * 2 ^ 20.
(** pkg/resources/types.go *)
Definition ClusterQueue : ResourceType := mkResourceType "kueue.x-k8s.io" "v1beta1" "ClusterQueue" "clusterqueues".
Definition ClusterCatalogType : ResourceType := mkResourceType "olm.operatorframework.io" "v1" "ClusterCatalog" "clustercatalogs".

(** ** Data *)
Record RHBOKMigrationAction := mkRHBOK {
  rh_ClusterQueueName : string;
  rh_LocalQueueName : string;
  rh_QueueName : string;
  rh_Channel : string;
  rh_SkipRemoveEmbedded : bool;
  rh_ForceDeleteLegacyCRDs : bool;
  rh_OLMMode : string;
  rh_ServiceAccount : string;
}.
(** The values of the flags nobody sets. *)
Definition default_flags : RHBOKMigrationAction := mkRHBOK "" "" defaultQueueName "" false false "auto" "odh-cli-dependency-installer".
(** Which clients of the target are not nil. *)
Record Clients := mkClients { has_ControllerRuntime : bool; has_Discovery : bool; has_Authorization : bool }.
(** The parts of a target the steps read. *)
Record Target := mkTarget { tg_Clients : Clients; tg_DryRun : bool; tg_SkipConfirm : bool; tg_OutputDir : string }.

Record workloadRef := mkWorkloadRef { wr_resourceType : ResourceType; wr_object : json; wr_queueName : string }.
Record labelingPlan := mkPlan { lp_namespaces : list string; lp_workloads : list workloadRef }.

(** The parts of [url.URL] the code reads; parsing is a parameter. *)
Record URL := mkURL {
  u_Scheme : string; u_User : bool; u_RawQuery : string; u_Fragment : string; u_Hostname : string; u_Port : string; u_Path : string }.
Class UrlParser := { url_Parse : string → res go_error URL }.
Record catalogProxyTarget := mkProxy {
  px_service : string; px_namespace : string; px_scheme : string; px_port : string; px_path : string }.

(** ** Pure parts *)
Definition workloadQueueName (a : RHBOKMigrationAction) : string := nonempty (rh_QueueName a) defaultQueueName.
Definition serviceAccountName (a : RHBOKMigrationAction) : string := nonempty (rh_ServiceAccount a) "odh-cli-dependency-installer".
Definition CanApply (major minor : Z) : bool := (major =? 2) && (25 <=? minor).

(** [GetLabels]: a map with a value that is not a string counts as none. *)
Definition GetLabels (obj : json) : gmap string string :=
  match nested ["metadata"; "labels"] obj with
  | Some (JObj fields) =>
      if bool_decide (length (omap string_value fields) = length fields)
      then list_to_map (omap string_value fields) else ∅
  | _ => ∅
  end.
Definition hasQueueNameLabel (obj : json) : bool := bool_decide (is_Some (GetLabels obj !! LabelKueueQueueName)).
Definition managed_label (obj : json) : bool := String.eqb (at_key (GetLabels obj) LabelKueueOpenshiftManaged) "true".
Definition label_patch (key value : string) : json := JObj [("metadata", JObj [("labels", JObj [(key, JStr value)])])].

Definition podReady (pod : json) : bool :=
  let phase := nested_string ["status"; "phase"] pod in
  if String.eqb phase "Succeeded" then true
  else if negb (String.eqb phase "Running") then false
  else
    match nested ["status"; "conditions"] pod with
    | Some (JArr conditions) => existsb (λ c, String.eqb (str_at "type" c) "Ready" && String.eqb (str_at "status" c) "True") conditions
    | _ => false
    end.

Definition absent_empty {A} (empty : A) (context : string) (r : res go_error A) : res go_error A :=
  match r with
  | Err err => if errors_is JqErrNotFound err then Ok empty else Err (errorf_w context err)
  | r => r
  end.

Section Pure.
Context `{SV : Semver, AE : ApiErrors, KE : K8sErrors, JQ : GoJq, CD : ConditionDecoder, UP : UrlParser, CT : CatalogText}.

Definition getDSCCondition (dsc : json) (conditionType : string) : res go_error (option StatusCondition) :=
  res_bind (jq_Query [] "[]v1.Condition" unmarshal_conditions dsc ".status.conditions // []") (λ conds,
    Ok (find (λ c, String.eqb (k_Type c) conditionType) conds)).
Definition condition_is (status : string) (c : option StatusCondition) : bool :=
  match c with Some c => String.eqb (k_Status c) status | None => false end.

(** *** ClusterExtensions *)
Definition extension_query (extension : json) (query what : string) : res go_error string :=
  absent_empty "" ("read ClusterExtension " +:+ GetName extension +:+ " " +:+ what) (jq_Query_string extension query).
Fixpoint find_extension (items : list json) : res go_error (option json) :=
  match items with
  | [] => Ok None
  | extension :: rest =>
      res_bind (extension_query extension ".spec.namespace" "namespace") (λ namespace,
        if negb (String.eqb namespace operatorNamespace) then find_extension rest
        else res_bind (extension_query extension ".spec.source.sourceType" "source type") (λ sourceType,
          if negb (String.eqb sourceType "Catalog") then find_extension rest
          else res_bind (extension_query extension ".spec.source.catalog.packageName" "package") (λ packageName,
            if String.eqb packageName subscriptionPackage then Ok (Some extension) else find_extension rest)))
  end.

Fixpoint extension_conditions (name : string) (conditions : list json) (installed : bool) : res go_error bool :=
  match conditions with
  | [] => Ok installed
  | c :: rest =>
      let says type status reason :=
        String.eqb (str_at "type" c) type && String.eqb (str_at "status" c) status && String.eqb (str_at "reason" c) reason in
      if negb (is_object c) then Err (EString ("ClusterExtension " +:+ name +:+ " has malformed condition"))
      else if says "Progressing" "False" "Blocked" then
        Err (EString ("ClusterExtension " +:+ name +:+ " progress blocked: " +:+ str_at "message" c))
      else if String.eqb (str_at "type" c) "Installed" then
        if says "Installed" "False" "Failed" then
          Err (EString ("ClusterExtension " +:+ name +:+ " installation failed (Failed): " +:+ str_at "message" c))
        else extension_conditions name rest (says "Installed" "True" "Succeeded")
      else extension_conditions name rest installed
  end.
Definition clusterExtensionInstalled (extension : json) : res go_error bool :=
  res_bind (absent_empty [] ("read ClusterExtension " +:+ GetName extension +:+ " conditions")
              (jq_Query_array extension ".status.conditions")) (λ conditions,
    extension_conditions (GetName extension) conditions false).

(** The one channel of a request, or that it has no such restriction. *)
Definition extension_channel (existing : json) (requested : string) : res go_error string :=
  res_bind (absent_empty [] ("read RHBOK ClusterExtension " +:+ GetName existing +:+ " channels")
              (jq_Query_strings existing ".spec.source.catalog.channels")) (λ channels,
    let unrestricted :=
      if negb (String.eqb requested "") then
        Err (EString ("--channel " +:+ quote requested +:+ " cannot change existing RHBOK ClusterExtension " +:+ GetName existing))
      else Ok "" in
    match channels with
    | [channel] =>
        if String.eqb channel "" then unrestricted
        else if negb (String.eqb requested "") && negb (String.eqb requested channel) then
          Err (EString ("--channel " +:+ quote requested +:+ " differs from existing RHBOK ClusterExtension channel " +:+ quote channel))
        else Ok channel
    | _ => unrestricted
    end).

(** *** The catalog *)
Definition catalogProxyLocation (baseURL : string) : res go_error catalogProxyTarget :=
  res_bind (res_map_err (errorf_w "parse URL") (url_Parse baseURL)) (λ u,
    let scheme := u_Scheme u in
    if (negb (String.eqb scheme "https") && negb (String.eqb scheme "http")) || u_User u ||
       negb (String.eqb (u_RawQuery u) "") || negb (String.eqb (u_Fragment u) "") then
      Err (EString ("unsupported catalog URL " +:+ quote baseURL))
    else
      let port := if String.eqb (u_Port u) "" then (if String.eqb scheme "https" then "443" else "80") else u_Port u in
      match split_on "."%char (u_Hostname u) with
      | service :: namespace :: svc :: _ =>
          if String.eqb service "" || String.eqb namespace "" || negb (String.eqb svc "svc") then
            Err (EString ("catalog URL host " +:+ quote (u_Hostname u) +:+ " is not a Kubernetes Service"))
          else Ok (mkProxy service namespace scheme port (path_Join ["/"; u_Path u; "api/v1/all"]))
      | _ => Err (EString ("catalog URL host " +:+ quote (u_Hostname u) +:+ " is not a Kubernetes Service"))
      end).

(** The first [n] bytes of a text. *)
Definition limit_bytes (n : Z) (s : string) : string :=
  if Z.of_nat (String.length s) <=? n then s else take_bytes (Z.to_nat n) s.
Definition resolveRHBOKCatalogContentChannel (content : string) (maxBytes : Z) : res go_error string :=
  let '(channel, read) := ResolveCatalogChannel (limit_bytes (maxBytes + 1) content) subscriptionPackage in
  if maxBytes + 1 - read =? 0 then Err (EString ("RHBOK ClusterCatalog content exceeds " +:+ itoa maxBytes +:+ "-byte limit"))
  else res_map_err (errorf_w "resolve RHBOK channel from ClusterCatalog") channel.
End Pure.

Definition extension_object (serviceAccount channel : string) : json :=
  JObj [("apiVersion", JStr (APIVersion ClusterExtensionType)); ("kind", JStr (rt_Kind ClusterExtensionType));
        ("metadata", JObj [("name", JStr subscriptionName)]);
        ("spec", JObj [("namespace", JStr operatorNamespace); ("serviceAccount", JObj [("name", JStr serviceAccount)]);
                       ("source", JObj [("sourceType", JStr "Catalog");
                          ("catalog", JObj [("packageName", JStr subscriptionPackage); ("channels", JArr [JStr channel]);
                             ("selector", JObj [("matchLabels", JObj [("olm.operatorframework.io/metadata.name", JStr rhbokClusterCatalog)])])])])])].

(** The new queue names of the DataScienceCluster, a map in the source. *)
Definition queue_names (a : RHBOKMigrationAction) : gmap string string :=
  (if String.eqb (rh_ClusterQueueName a) "" then ∅ else {["defaultClusterQueueName" := rh_ClusterQueueName a]}) ∪
  (if String.eqb (rh_LocalQueueName a) "" then ∅ else {["defaultLocalQueueName" := rh_LocalQueueName a]}).
Fixpoint set_queue_names (names : list (string * string)) (dsc : json) : res go_error json :=
  match names with
  | [] => Ok dsc
  | (f, value) :: rest =>
      res_bind (res_map_err (errorf_w ("failed to set " +:+ f))
                  (SetNestedField ["spec"; "components"; "kueue"; f] (JStr value) dsc)) (set_queue_names rest)
  end.

(** *** Permissions (rhbok_preflight.go) *)
Definition permission (verb : string) (rt : ResourceType) (namespace : string) : PermissionCheck :=
  mkPermission verb (rt_Group rt) (rt_Resource rt) namespace.
Definition preparePermissionsV1 : list PermissionCheck :=
  [permission "get" DataScienceClusterV1 ""; permission "list" DataScienceClusterV1 ""; permission "list" ClusterQueue "";
   permission "list" LocalQueue ""; permission "get" ConfigMap applicationsNamespace].
Definition preparePermissions : list PermissionCheck := (preparePermissionsV1 ++ [permission "list" PackageManifest ""])%list.
Definition legacy_permissions (force : bool) : list PermissionCheck :=
  if force then [] else [permission "list" LegacyCohort ""; permission "list" LegacyTopology ""].
Definition workload_permissions : list PermissionCheck :=
  flat_map (λ rt, [permission "list" rt ""; permission "patch" rt ""]) MonitoredWorkloadTypes.
(** What both lists of the run end with, before the legacy resources. *)
Definition shared_permissions : list PermissionCheck :=
  [permission "get" NamespaceType ""; permission "patch" NamespaceType ""; permission "update" ConfigMap applicationsNamespace;
   permission "get" Deployment applicationsNamespace; permission "list" Deployment applicationsNamespace;
   permission "get" CustomResourceDefinition ""; permission "delete" CustomResourceDefinition ""; permission "list" Pod operatorNamespace].
Definition runPermissions (forceDeleteLegacyCRDs : bool) : list PermissionCheck :=
  (preparePermissions ++
   [permission "update" DataScienceClusterV1 ""; permission "get" SubscriptionType operatorNamespace;
    permission "create" SubscriptionType operatorNamespace; permission "list" OperatorGroupType operatorNamespace;
    permission "create" OperatorGroupType operatorNamespace; permission "list" ClusterServiceVersionType operatorNamespace;
    permission "create" NamespaceType ""] ++
   shared_permissions ++ legacy_permissions forceDeleteLegacyCRDs ++ workload_permissions)%list.
Definition runPermissionsV1 (forceDeleteLegacyCRDs : bool) : list PermissionCheck :=
  (preparePermissionsV1 ++
   [permission "update" DataScienceClusterV1 ""; permission "list" ClusterExtensionType ""; permission "get" ClusterExtensionType "";
    permission "create" ClusterExtensionType ""; permission "get" ServiceAccount operatorNamespace] ++
   shared_permissions ++ legacy_permissions forceDeleteLegacyCRDs ++ workload_permissions)%list.

(** *** Steps by name (run_task.go) *)
Definition hasFailedStep (steps : list ActionStep) : bool := hasFailed steps.
Fixpoint find_step (name : string) (step : ActionStep) : option ActionStep :=
  match step with
  | mkStep data children =>
      if String.eqb (sd_Name data) name then Some step
      else (fix among (steps : list ActionStep) : option ActionStep :=
              match steps with
              | [] => None
              | s :: rest => match find_step name s with Some found => Some found | None => among rest end
              end) children
  end.
Definition findActionStep (steps : list ActionStep) (name : string) : option ActionStep := find_map (find_step name) steps.
Definition stepTreeFailed (steps : list ActionStep) (stepName : string) : bool :=
  match findActionStep steps stepName with
  | None => false
  | Some step => bool_decide (sd_Status (step_data step) = StepFailed) || hasFailedStep (step_children step)
  end.

(** ** The steps *)
Section Steps.
Context `{SV : Semver, AE : ApiErrors, KE : K8sErrors, JQ : GoJq, CL : Clock, JT : JsonText, YT : YamlText, GT : GoTypes, WT : Wait,
  CD : ConditionDecoder, MO : MapOrder, UP : UrlParser, CT : CatalogText}.
Context (a : RHBOKMigrationAction) (target : Target).
Notation dryRun := (tg_DryRun target).
Notation CR := (has_ControllerRuntime (tg_Clients target)).

(** The prompt of the steps: a blank line and a notice before it. *)
Definition ask_consent (notice question : string) : M bool :=
  if tg_SkipConfirm target then m_ret true
  else kOut "" ;; kErrOut notice ;; Prompt question.

(** *** rhbok.go *)
Definition getKueueManagementState : M string :=
  try* dsc := kSingleton DataScienceClusterV1 else errorf_w "getting DataScienceCluster" in
  try* state := m_lift (jq_Query_string dsc kueueComponentPath) else errorf_w "querying kueue managementState" in
  if String.eqb state "" then m_throw (EString "kueue managementState is not configured")
  else if String.eqb state ManagementStateManaged || String.eqb state ManagementStateUnmanaged || String.eqb state ManagementStateRemoved
  then m_ret state
  else m_throw (EString ("unsupported kueue managementState " +:+ quote state)).

Definition findRHBOKClusterExtension : M (option json) :=
  try* items := kList ClusterExtensionType "" "" else errorf_w "list ClusterExtensions" in
  m_lift (find_extension items).
Definition rhbokInstalledViaClusterExtension : M bool :=
  if negb CR then m_ret false
  else
    let* found := attempt findRHBOKClusterExtension in
    match found with
    | inr (Some extension) =>
        match clusterExtensionInstalled extension with
        | Ok installed => m_ret installed
        | Err _ => m_ret false
        | Panic p => m_lift (Panic p)
        end
    | _ => m_ret false
    end.
Definition rhbokRequestedViaClusterExtension : M bool :=
  if negb CR then m_ret false
  else
    let* '(requested, err) := call (KExtensionInstallsPackage subscriptionPackage operatorNamespace) in
    m_ret (match err with None => requested | Some _ => false end).
(** The same question where its error matters. *)
Definition extension_requested : M bool :=
  let* '(requested, err) := call (KExtensionInstallsPackage subscriptionPackage operatorNamespace) in
  match err with None => m_ret requested | Some err => m_throw err end.

Definition rhbokOperatorInstalled : M bool :=
  let* got := attempt (kGet SubscriptionType operatorNamespace subscriptionName) in
  match got with
  | inr sub =>
      let installedCSV := nested_string ["status"; "installedCSV"] sub in
      if String.eqb installedCSV "" then m_ret false
      else
        try* csv := kGet ClusterServiceVersionType operatorNamespace installedCSV else errorf_w ("get RHBOK CSV " +:+ installedCSV) in
        m_ret (String.eqb (nested_string ["status"; "phase"] csv) csvPhaseSucceeded)
  | inl err =>
      let* viaExtension := if IsForbidden err then rhbokInstalledViaClusterExtension else m_ret false in
      if (viaExtension : bool) then m_ret true
      else if (negb (IsNotFound err) && negb (IsNoMatchError err)) || negb CR then
        m_throw (errorf_w "get RHBOK subscription" err)
      else
        let* found := call (KOperatorExists subscriptionPackage) in
        match found with
        | OperatorFound => m_ret true
        | OperatorNotInstalled => m_ret false
        | OperatorLookupFailed err => m_throw (errorf_w "check RHBOK operator" err)
        end
  end.

Definition kueue_pods : M (list json) := kList Pod operatorNamespace "app.kubernetes.io/name=kueue".
Definition isMigrationComplete (mode : Mode) : M bool :=
  let* state := attempt getKueueManagementState in
  match state with
  | inl _ => m_ret false
  | inr state =>
      if negb (String.eqb state ManagementStateUnmanaged) then m_ret false
      else
        let* installed := attempt (if bool_decide (mode = ModeV1) then rhbokInstalledViaClusterExtension else rhbokOperatorInstalled) in
        match installed with
        | inr true =>
            let* pods := attempt kueue_pods in
            match pods with
            | inl _ => m_ret false
            | inr pods => m_ret ((0 <? length pods)%nat && forallb podReady pods)
            end
        | _ => m_ret false
        end
  end.

Definition checkKueueManaged : M bool :=
  let* step := child root "check-kueue-managed" "Check if Kueue is managed by DataScienceCluster" in
  let* state := attempt getKueueManagementState in
  match state with
  | inl err => fail_step step "Failed to get DataScienceCluster" err ;; m_ret false
  | inr state =>
      if String.eqb state ManagementStateManaged then
        completef step StepCompleted ("Kueue is managed (managementState=" +:+ state +:+ ")") ;; m_ret true
      else completef step StepCompleted ("Kueue is not managed (managementState=" +:+ state +:+ ")") ;; m_ret false
  end.

(** The annotations of the ConfigMap, with the one that keeps it. *)
Definition as_map (v : json) : res go_error (list (string * json)) :=
  match v with JObj fields => Ok fields | _ => Err (EString "json: cannot unmarshal value into Go value of type map[string]interface {}") end.
Definition kept_annotations (configMap : json) : json :=
  JObj (with_key configMapAnnotationKey (JStr configMapAnnotationValue)
    (match jq_Query [] "map[string]interface {}" as_map configMap ".metadata.annotations" with Ok fields => fields | _ => [] end)).
Definition annotated_config_map (configMap : json) (text : string) : res go_error json :=
  Transform go_type configMap (".metadata.annotations = " +:+ text).
Definition preserveKueueConfig : M () :=
  let* step := child root "preserve-kueue-config" "Preserve Kueue ConfigMap for reference" in
  let* checkStep := child step "check-configmap"
    ("Checking if ConfigMap '" +:+ configMapName +:+ "' exists in namespace '" +:+ applicationsNamespace +:+ "'") in
  let* got := attempt (kGet ConfigMap applicationsNamespace configMapName) in
  match got with
  | inl err =>
      completef checkStep StepCompleted "ConfigMap not found" ;;
      completef step StepSkipped ("ConfigMap " +:+ configMapName +:+ " not found (skipped): " +:+ error_string err)
  | inr configMap =>
      completef checkStep StepCompleted "ConfigMap exists" ;;
      let* annotateStep := child step "apply-annotation"
        ("Apply annotation " +:+ configMapAnnotationKey +:+ "=" +:+ configMapAnnotationValue) in
      if dryRun then
        completef annotateStep StepSkipped ("Would annotate ConfigMap " +:+ applicationsNamespace +:+ "/" +:+ configMapName) ;;
        completef step StepSkipped "Dry-run: ConfigMap annotation skipped"
      else
        let failed (what : string) (err : go_error) : M () :=
          fail_step annotateStep what err ;; completef step StepFailed "Failed to annotate ConfigMap" in
        match json_Marshal (kept_annotations configMap) with
        | Panic p => m_lift (Panic p)
        | Err err => failed "Failed to marshal annotations" err
        | Ok text =>
            match annotated_config_map configMap text with
            | Panic p => m_lift (Panic p)
            | Err err => failed "Failed to set annotations" err
            | Ok annotated =>
                let* updated := attempt (kUpdate ConfigMap applicationsNamespace annotated false) in
                match updated with
                | inl err => failed "Failed to update ConfigMap" err
                | inr _ =>
                    completef annotateStep StepCompleted "Annotation applied successfully" ;;
                    completef step StepCompleted ("ConfigMap " +:+ configMapName +:+ " annotated for preservation")
                end
            end
        end
  end.

(** The channel of an existing subscription; an empty one says nothing. *)
Definition subscription_channel : M string :=
  if dryRun then m_ret ""
  else
    let* got := attempt (kGet SubscriptionType operatorNamespace subscriptionName) in
    match got with
    | inr existing => m_ret (nested_string ["spec"; "channel"] existing)
    | inl err =>
        if negb (IsNotFound err) && negb (IsNoMatchError err) then m_throw (errorf_w "checking existing subscription" err)
        else m_ret ""
    end.
Definition resolveSubscriptionChannel : M string :=
  if negb (String.eqb (rh_Channel a) "") then m_ret (rh_Channel a)
  else
    let* existing := subscription_channel in
    if negb (String.eqb existing "") then m_ret existing
    else
      let* resolved := attempt (ResolveOperatorChannel (mkPackageQuery subscriptionPackage subscriptionSource catalogNamespace)) in
      match resolved with
      | inr channel => m_ret channel
      | inl err =>
          kErrOut ("Warning: could not resolve operator channel from catalog: " +:+ error_string err +:+ "; using fallback " +:+
            FallbackKueueOperatorChannel) ;;
          m_ret FallbackKueueOperatorChannel
      end.

(** *** rhbok_olm_v1.go *)
Definition requested_mode : res go_error (option Mode) :=
  if String.eqb (rh_OLMMode a) "" || String.eqb (rh_OLMMode a) "auto" then Ok None
  else if String.eqb (rh_OLMMode a) "v0" then Ok (Some ModeV0)
  else if String.eqb (rh_OLMMode a) "v1" then Ok (Some ModeV1)
  else Err (EString ("invalid --kueue-olm-mode " +:+ quote (rh_OLMMode a) +:+ ": must be auto, v0, or v1")).
Definition selectOLMMode : M Mode :=
  let* requested := m_lift requested_mode in
  let* found :=
    if bool_decide (requested = None) && CR then
      let* '(found, err) := call (KExtensionInstallsPackage subscriptionPackage operatorNamespace) in
      if (found : bool) then m_ret true
      else match err with
           | Some err =>
               if negb (IsNoMatchError err) && negb (IsNotFound err) then
                 m_throw (errorf_w "check existing RHBOK ClusterExtension" err)
               else m_ret false
           | None => m_ret false
           end
    else m_ret false in
  if (found : bool) then m_ret ModeV1
  else
    try* mode := kResolveInstallMode (has_Discovery (tg_Clients target)) requested else errorf_w "detect RHBOK installation API" in
    if bool_decide (mode = ModeV1) && negb CR then m_throw (EString "OLM v1 requires a controller-runtime client")
    else m_ret mode.

Definition existingClusterExtensionChannel : M (option string) :=
  try* existing := findRHBOKClusterExtension else errorf_w "check existing RHBOK ClusterExtension channel" in
  match existing with
  | None => m_ret None
  | Some existing => let* channel := m_lift (extension_channel existing (rh_Channel a)) in m_ret (Some channel)
  end.
Definition resolveClusterCatalogChannel : M string :=
  try* catalog := kGet ClusterCatalogType "" rhbokClusterCatalog else errorf_w "get RHBOK ClusterCatalog" in
  let* baseURL := m_lift (absent_empty "" "read RHBOK ClusterCatalog content URL" (jq_Query_string catalog ".status.urls.base")) in
  if String.eqb baseURL "" then m_throw (EString "RHBOK ClusterCatalog has no content URL at status.urls.base")
  else
    try* proxy := m_lift (catalogProxyLocation baseURL) else errorf_w "RHBOK ClusterCatalog content URL" in
    try* content := kServiceProxy (px_namespace proxy) (px_scheme proxy) (px_service proxy) (px_port proxy) (px_path proxy)
      else errorf_w "read RHBOK ClusterCatalog content" in
    m_lift (resolveRHBOKCatalogContentChannel content maxRHBOKCatalogContentBytes).
Definition operatorChannel (mode : Mode) : M string :=
  if negb (bool_decide (mode = ModeV1)) then resolveSubscriptionChannel
  else
    let* existing := existingClusterExtensionChannel in
    match existing with
    | Some channel => m_ret channel
    | None => if negb (String.eqb (rh_Channel a) "") then m_ret (rh_Channel a) else resolveClusterCatalogChannel
    end.

Definition verifyExistingRHBOKClusterExtension : M () :=
  try* existing := kGet ClusterExtensionType "" subscriptionName else errorf_w "get existing RHBOK ClusterExtension" in
  try* packageName := m_lift (jq_Query_string existing ".spec.source.catalog.packageName")
    else errorf_w "read existing RHBOK ClusterExtension package" in
  try* namespace := m_lift (jq_Query_string existing ".spec.namespace")
    else errorf_w "read existing RHBOK ClusterExtension namespace" in
  if negb (String.eqb packageName subscriptionPackage) || negb (String.eqb namespace operatorNamespace) then
    m_throw (EString ("ClusterExtension " +:+ subscriptionName +:+ " already exists for package " +:+ quote packageName +:+
      " in namespace " +:+ quote namespace))
  else m_ret ().
Definition createRHBOKClusterExtension (channel : string) : M () :=
  try* _u := kGet ServiceAccount operatorNamespace (serviceAccountName a)
    else errorf_w ("OLM v1 requires ServiceAccount " +:+ serviceAccountName a +:+ " in namespace " +:+ operatorNamespace) in
  let* created := attempt (kCreate ClusterExtensionType "" (extension_object (serviceAccountName a) channel) false) in
  match created with
  | inr _ => m_ret ()
  | inl err =>
      if IsAlreadyExists err then verifyExistingRHBOKClusterExtension
      else m_throw (errorf_w "create RHBOK ClusterExtension" err)
  end.

(** One poll of the wait for the extension. *)
Definition extension_poll (_ : ()) : M (bool * ()) :=
  try* extension := findRHBOKClusterExtension else errorf_w "check RHBOK ClusterExtension installation" in
  match extension with
  | None => m_ret (false, ())
  | Some extension =>
      try* installed := m_lift (clusterExtensionInstalled extension) else errorf_w "check RHBOK ClusterExtension installation" in
      m_ret (installed, ())
  end.
Definition wait_for_extension (step : loc) : M () :=
  let* waited := attempt (PollUntilContextTimeout operatorPollPeriod operatorTimeout extension_poll ()) in
  match waited with
  | inl err => fail_step step "Failed waiting for RHBOK ClusterExtension" err
  | inr _ => completef step StepCompleted "Red Hat build of Kueue operator installed and ready via OLM v1"
  end.
Definition installRHBOKClusterExtension (channel : string) (step : loc) : M () :=
  let* got := attempt extension_requested in
  match got with
  | inl err => fail_step step "Failed to check RHBOK ClusterExtension" err
  | inr requested =>
      if dryRun then
        completef step StepSkipped
          (if requested then "Would use existing RHBOK ClusterExtension"
           else "Would ensure RHBOK ClusterExtension is installed from channel " +:+ channel)
      else if negb requested && String.eqb channel "" then
        completef step StepFailed "Existing RHBOK ClusterExtension disappeared before installation; rerun migration"
      else if requested then wait_for_extension step
      else
        let* agreed := ask_consent ("About to install Red Hat Build of Kueue Operator via OLM v1 (channel: " +:+ channel +:+ ")")
          "Proceed with operator installation?" in
        if negb agreed then completef step StepSkipped "User cancelled installation"
        else
          let* created := attempt (createRHBOKClusterExtension channel) in
          match created with
          | inl err => fail_step step "Failed to create RHBOK ClusterExtension" err
          | inr _ => wait_for_extension step
          end
  end.

(** *** The operator (rhbok.go) *)
Definition install_config (channel : string) (step : loc) : InstallConfig :=
  mkInstallConfig subscriptionName operatorNamespace subscriptionPackage channel subscriptionSource catalogNamespace csvNamePrefix
    "" [] operatorPollPeriod operatorTimeout "" "" dryRun (Some step).
Definition subscription_exists : M bool :=
  if dryRun then m_ret false
  else
    let* got := attempt (kGet SubscriptionType operatorNamespace subscriptionName) in
    m_ret (match got with inr _ => true | inl _ => false end).
Definition installRHBOKOperator (mode : Mode) : M () :=
  let* step := child root "install-rhbok-operator" "Install Red Hat Build of Kueue Operator" in
  let* resolved := attempt (operatorChannel mode) in
  match resolved with
  | inl err => fail_step step "Failed to resolve operator channel" err
  | inr channel =>
      (if String.eqb channel "" then m_ret () else add_step_detail step "channel" channel) ;;
      if bool_decide (mode = ModeV1) then installRHBOKClusterExtension channel step
      else
        let* subscriptionExists := subscription_exists in
        let* agreed :=
          if dryRun || subscriptionExists then m_ret true
          else ask_consent ("About to install Red Hat Build of Kueue Operator (channel: " +:+ channel +:+ ")")
                 "Proceed with operator installation?" in
        if negb agreed then completef step StepSkipped "User cancelled installation"
        else
          let* installed := attempt (EnsureOperatorInstalled (install_config channel step)) in
          match installed with
          | inl err => fail_step step "Failed to install operator" err
          | inr _ =>
              if dryRun then completef step StepSkipped "Operator installation checks completed"
              else if (subscriptionExists : bool) then
                completef step StepCompleted "Red Hat build of Kueue operator already installed and ready"
              else completef step StepCompleted "Red Hat build of Kueue operator installed successfully"
          end
  end.

(** *** rhbok_dsc.go *)
(** The DataScienceCluster as it is sent back. *)
Definition patched_dsc (state : string) (names : list (string * string)) (latestDSC : json) : res go_error json :=
  res_bind (res_map_err (errorf_w "failed to set managementState")
    (Transform go_type latestDSC (".spec.components.kueue.managementState = " +:+ quote state))) (set_queue_names names).
Definition patch_once (state : string) (names : list (string * string)) (_ : ()) : M (bool * ()) :=
  try* latestDSC := kSingleton DataScienceClusterV1 else errorf_w "failed to get DataScienceCluster" in
  let* patched := m_lift (patched_dsc state names latestDSC) in
  let* updated := attempt (kUpdate DataScienceClusterV1 "" patched false) in
  match updated with
  | inl err => if IsConflict err then m_ret (false, ()) else m_throw (errorf_w "failed to update DataScienceCluster" err)
  | inr _ => m_ret (true, ())
  end.
Definition patchKueueManagementState (state : string) (queueNames : gmap string string) : M () :=
  m_map_err (errorf_w "updating kueue management state")
    (ExponentialBackoff kueue_backoff (patch_once state (map_range queueNames)) ()).

Definition state_notice (state : string) : string := "About to set DataScienceCluster Kueue managementState to " +:+ state.
(** The prompt, the blank line after an agreement, and the update. *)
Definition change_state (step : loc) (state question declined failed done : string) (names : gmap string string) : M () :=
  let* agreed := ask_consent (state_notice state) question in
  if negb agreed then completef step StepSkipped declined
  else
    (if tg_SkipConfirm target then m_ret () else kOut "") ;;
    let* patched := attempt (patchKueueManagementState state names) in
    match patched with
    | inl err => fail_step step failed err
    | inr _ => completef step StepCompleted done
    end.
Definition removeEmbeddedKueue : M () :=
  let* step := child root "remove-embedded-kueue" "Uninstall embedded Kueue by setting managementState to Removed" in
  if rh_SkipRemoveEmbedded a then
    completef step StepSkipped "Skipping embedded Kueue removal (--skip-remove-embedded); this may cause configuration conflicts"
  else
    let* got := attempt getKueueManagementState in
    match got with
    | inl err => fail_step step "Failed to get DataScienceCluster" err
    | inr state =>
        if String.eqb state ManagementStateRemoved || String.eqb state ManagementStateUnmanaged then
          completef step StepSkipped ("Embedded Kueue already removed (managementState=" +:+ state +:+ ")")
        else if negb (String.eqb state ManagementStateManaged) then
          completef step StepSkipped ("Kueue managementState is " +:+ state +:+ "; removal not required")
        else if dryRun then
          completef step StepSkipped ("Would set " +:+ kueueComponentPath +:+ "=" +:+ ManagementStateRemoved)
        else
          change_state step ManagementStateRemoved "Proceed with embedded Kueue removal?" "User cancelled removal"
            "Failed to remove embedded Kueue" "DataScienceCluster Kueue set to Removed" ∅
    end.

(** [%v] of a map prints its keys in order. *)
Definition show_names (names : gmap string string) : string :=
  "map[" +:+ join " " (omap (λ k, (λ v, k +:+ ":" +:+ v) <$> names !! k) ["defaultClusterQueueName"; "defaultLocalQueueName"]) +:+ "]".
Definition activateRHBOK : M () :=
  let* step := child root "activate-rhbok" "Activate Red Hat build of Kueue in DataScienceCluster" in
  let* got := attempt getKueueManagementState in
  match got with
  | inl err => fail_step step "Failed to get DataScienceCluster" err
  | inr state =>
      if String.eqb state ManagementStateUnmanaged then
        completef step StepSkipped "DataScienceCluster Kueue already set to Unmanaged"
      else
        let queueNames := queue_names a in
        if dryRun then
          completef step StepSkipped ("Would set " +:+ kueueComponentPath +:+ "=" +:+ ManagementStateUnmanaged +:+
            (if (0 <? size queueNames)%nat then " with queue names " +:+ show_names queueNames else ""))
        else
          change_state step ManagementStateUnmanaged "Proceed with RHBOK activation?" "User cancelled activation"
            "Failed to activate RHBOK" "DataScienceCluster updated to Unmanaged" queueNames
  end.

(** *** rhbok_crds.go *)
Definition legacy_type (crdName : string) : option ResourceType :=
  if String.eqb crdName legacyCohortCRD then Some LegacyCohort
  else if String.eqb crdName legacyTopologyCRD then Some LegacyTopology else None.
(** What stands in the way of the deletion of a CRD. *)
Definition legacyCRDHasInstances (crdName : string) : M (option string) :=
  match legacy_type crdName with
  | None => m_ret None
  | Some rt =>
      let* listed := attempt (kListAll rt defaultListOptions) in
      match listed with
      | inl err =>
          if IsNotFound err || IsResourceTypeNotFound err then m_ret None
          else m_ret (Some ("Could not list " +:+ crdName +:+ " instances: " +:+ error_string err))
      | inr items =>
          if (0 <? length items)%nat then
            m_ret (Some ("CRD " +:+ crdName +:+ " has " +:+ show_nat (length items) +:+
              " instance(s); convert or delete them first, or use --force-delete-legacy-crds"))
          else m_ret None
      end
  end.
Definition delete_crd (step : loc) (failed : nat) (crdName : string) : M nat :=
  let* crdStep := child step ("delete-" +:+ crdName) ("Delete CRD " +:+ crdName) in
  let* got := attempt (kGetCRD crdName) in
  match got with
  | inl err =>
      if IsNotFound err then completef crdStep StepSkipped "CRD not found" ;; m_ret failed
      else fail_step crdStep "Failed to get CRD" err ;; m_ret (Datatypes.S failed)
  | inr _ =>
      let* inTheWay := if rh_ForceDeleteLegacyCRDs a then m_ret None else legacyCRDHasInstances crdName in
      match inTheWay with
      | Some msg => completef crdStep StepFailed msg ;; m_ret (Datatypes.S failed)
      | None =>
          let* deleted := attempt (kDelete CustomResourceDefinition "" crdName) in
          match deleted with
          | inl err =>
              if IsNotFound err then completef crdStep StepCompleted ("Deleted CRD " +:+ crdName) ;; m_ret failed
              else fail_step crdStep "Failed to delete CRD" err ;; m_ret (Datatypes.S failed)
          | inr _ => completef crdStep StepCompleted ("Deleted CRD " +:+ crdName) ;; m_ret failed
          end
      end
  end.
Definition deleteLegacyCRDs : M () :=
  let* step := child root "delete-legacy-crds" "Delete legacy v1alpha1 Kueue CRDs" in
  if dryRun then completef step StepSkipped ("Would delete legacy CRDs: " +:+ show_slice legacyCRDNames)
  else
    let* failed := m_fold (delete_crd step) legacyCRDNames 0%nat in
    if (0 <? failed)%nat then completef step StepFailed "One or more legacy CRD deletions failed"
    else completef step StepCompleted "Legacy CRD deletion complete".

(** *** rhbok_wait.go *)
Definition removal_poll (_ : ()) : M (bool * ()) :=
  let* state := getKueueManagementState in
  if negb (String.eqb state ManagementStateRemoved) then m_ret (false, ())
  else
    try* dsc := kSingleton DataScienceClusterV1 else errorf_w "getting DataScienceCluster" in
    let* cond := m_lift (getDSCCondition dsc kueueReadyType) in
    if match cond with Some c => String.eqb (k_Status c) "False" && String.eqb (k_Reason c) ManagementStateRemoved | None => false end
    then m_ret (true, ())
    else
      let* got := attempt (kGet Deployment applicationsNamespace embeddedKueueDeployment) in
      match got with
      | inl err =>
          if IsNotFound err then m_ret (true, ()) else m_throw (errorf_w "getting embedded Kueue deployment" err)
      | inr _ => m_ret (false, ())
      end.
Definition waitForEmbeddedRemoval : M () :=
  let* step := child root "wait-embedded-removal" "Wait for embedded Kueue to be removed" in
  if rh_SkipRemoveEmbedded a then completef step StepSkipped "Skipped (--skip-remove-embedded)"
  else if dryRun then completef step StepSkipped "Would wait for embedded Kueue removal"
  else
    let* waited := attempt (PollUntilContextTimeout componentPollPeriod componentTimeout removal_poll ()) in
    match waited with
    | inl err => fail_step step "Timed out waiting for embedded Kueue removal" err
    | inr _ => completef step StepCompleted "Embedded Kueue removed"
    end.

Definition ready_poll (_ : ()) : M (bool * ()) :=
  try* dsc := kSingleton DataScienceClusterV1 else errorf_w "getting DataScienceCluster" in
  let* cond := m_lift (getDSCCondition dsc kueueReadyType) in
  if negb (condition_is "True" cond) then m_ret (false, ())
  else
    try* pods := kList Pod operatorNamespace "" else errorf_w "listing RHBOK pods" in
    m_ret ((0 <? length pods)%nat && forallb podReady pods, ()).
Definition waitForKueueReady : M () :=
  let* step := child root "wait-kueue-ready" "Wait for KueueReady condition" in
  if dryRun then completef step StepSkipped "Would wait for KueueReady=True"
  else
    let* waited := attempt (PollUntilContextTimeout componentPollPeriod componentTimeout ready_poll ()) in
    match waited with
    | inl err => fail_step step "Timed out waiting for KueueReady" err
    | inr _ => completef step StepCompleted "KueueReady=True and RHBOK pods ready"
    end.

(** *** checks/kueue/discovery over the answers of the cluster *)
Definition enabled_namespaces (enabled : gset string) (selector : string) : M (gset string) :=
  try* items := kListMetadata NamespaceType (with_selector selector) else errorf_w "listing kueue-enabled namespaces" in
  m_ret (enabled ∪ list_to_set (map GetName items)).
Definition kKueueEnabledNamespaces : M (gset string) :=
  m_fold enabled_namespaces [LabelKueueManaged +:+ "=true"; LabelKueueOpenshiftManaged +:+ "=true"] ∅.
Definition labeled_namespaces (namespaces : gset string) (rt : ResourceType) : M (gset string) :=
  let* listed := attempt (kListMetadata rt (with_selector LabelKueueQueueName)) in
  match listed with
  | inl err =>
      if IsResourceTypeNotFound err then m_ret namespaces
      else m_throw (errorf_w ("listing " +:+ rt_Kind rt +:+ " with kueue label") err)
  | inr items => m_ret (namespaces ∪ list_to_set (map GetNamespace items))
  end.
Definition kWorkloadLabeledNamespaces : M (gset string) := m_fold labeled_namespaces MonitoredWorkloadTypes ∅.

(** *** rhbok_labeling.go *)
Definition namespacesWithLocalQueues : M (gset string) :=
  let* listed := attempt (kListAll LocalQueue defaultListOptions) in
  match listed with
  | inl err => if IsResourceTypeNotFound err then m_ret ∅ else m_throw (errorf_w "listing LocalQueues" err)
  | inr items => m_ret (list_to_set (List.filter (λ ns, negb (String.eqb ns "")) (map GetNamespace items)))
  end.
Definition namespaceHasOpenshiftManagedLabel (name : string) : M bool :=
  let* got := attempt (kGet NamespaceType "" name) in
  match got with
  | inl err => if IsNotFound err then m_ret false else m_throw (errorf_w ("getting namespace " +:+ name) err)
  | inr ns => m_ret (managed_label ns)
  end.
Definition queueNameForNamespace (namespace : string) : M string :=
  if negb (String.eqb (rh_QueueName a) "") && negb (String.eqb (rh_QueueName a) defaultQueueName) then m_ret (workloadQueueName a)
  else
    let* listed := attempt (kListAll LocalQueue (in_namespace namespace)) in
    match listed with
    | inl err =>
        if IsResourceTypeNotFound err then m_ret (workloadQueueName a)
        else m_throw (errorf_w ("listing LocalQueues in " +:+ namespace) err)
    | inr [item] => m_ret (GetName item)
    | inr _ => m_ret (workloadQueueName a)
    end.

Definition unlabeled_namespace (acc : list string) (ns : string) : M (list string) :=
  try* labeled := namespaceHasOpenshiftManagedLabel ns else errorf_w ("checking namespace " +:+ ns) in
  m_ret (if (labeled : bool) then acc else acc ++ [ns])%list.
Definition unlabeled_of_type (ns queueName : string) (acc : list workloadRef) (rt : ResourceType) : M (list workloadRef) :=
  let* listed := attempt (kListAll rt (in_namespace ns)) in
  match listed with
  | inl err =>
      if IsResourceTypeNotFound err then m_ret acc
      else m_throw (errorf_w ("listing " +:+ rt_Kind rt +:+ " in " +:+ ns) err)
  | inr items =>
      m_ret (acc ++ map (λ item, mkWorkloadRef rt item queueName) (List.filter (λ item, negb (hasQueueNameLabel item)) items))%list
  end.
Definition unlabeled_workloads (acc : list workloadRef) (ns : string) : M (list workloadRef) :=
  let* queueName := queueNameForNamespace ns in
  m_fold (unlabeled_of_type ns queueName) MonitoredWorkloadTypes acc.
Definition discoverLabelingPlan : M labelingPlan :=
  try* enabled := kKueueEnabledNamespaces else errorf_w "listing kueue-enabled namespaces" in
  try* workloadNS := kWorkloadLabeledNamespaces else errorf_w "listing workload-labeled namespaces" in
  let* localQueueNS := namespacesWithLocalQueues in
  let* namespaces := m_fold unlabeled_namespace (set_range (enabled ∪ workloadNS ∪ localQueueNS)) [] in
  let managedNS := enabled ∪ workloadNS ∪ list_to_set namespaces in
  let* workloads := m_fold unlabeled_workloads (set_range managedNS) [] in
  m_ret (mkPlan namespaces workloads).
(** The plan, discovered once per execution. *)
Definition discoverExecuteLabelingPlan (cache : option labelingPlan) : M labelingPlan :=
  match cache with Some plan => m_ret plan | None => discoverLabelingPlan end.

Definition reportLabelingPlan : M () :=
  let* step := child root "report-labeling-plan" "Report namespaces and workloads requiring labels" in
  let* got := attempt discoverLabelingPlan in
  match got with
  | inl err => fail_step step "Failed to discover labeling targets" err
  | inr plan =>
      completef step StepCompleted ("Will label " +:+ show_nat (length (lp_namespaces plan)) +:+ " namespace(s) and " +:+
        show_nat (length (lp_workloads plan)) +:+ " workload(s)")
  end.

(** [json.Marshal] of a map of strings does not fail. *)
Definition patchNamespaceLabel (name : string) : M () :=
  try* _u := kPatch NamespaceType "" name MergePatchType (label_patch LabelKueueOpenshiftManaged "true") false
    else errorf_w ("patching namespace " +:+ name) in
  m_ret ().
Definition object_key (obj : json) : string := GetNamespace obj +:+ "/" +:+ GetName obj.
Definition patchWorkloadQueueLabel (wl : workloadRef) : M () :=
  try* _u := kPatch (wr_resourceType wl) (GetNamespace (wr_object wl)) (GetName (wr_object wl)) MergePatchType
      (label_patch LabelKueueQueueName (wr_queueName wl)) false
    else errorf_w ("patching " +:+ object_key (wr_object wl)) in
  m_ret ().

(** One patch of a loop that counts its successes. *)
Definition label_one (step : loc) (name description : string) (patch : M ()) (success : nat) : M nat :=
  let* got := attempt patch in
  match got with
  | inl err =>
      let* failed := child step name description in
      fail_step failed "Failed" err ;; m_ret success
  | inr _ => m_ret (Datatypes.S success)
  end.
Definition label_namespace (step : loc) (success : nat) (ns : string) : M nat :=
  label_one step ("label-" +:+ ns) ("Label namespace " +:+ ns) (patchNamespaceLabel ns) success.
Definition label_workload (step : loc) (success : nat) (wl : workloadRef) : M nat :=
  label_one step ("label-" +:+ GetNamespace (wr_object wl) +:+ "-" +:+ GetName (wr_object wl))
    ("Label " +:+ rt_Kind (wr_resourceType wl) +:+ " " +:+ object_key (wr_object wl)) (patchWorkloadQueueLabel wl) success.
Definition labeled_text (success total : nat) (what : string) : string :=
  "Labeled " +:+ show_nat success +:+ "/" +:+ show_nat total +:+ what.

(** The plan they leave in the cache. *)
Definition labelKueueNamespaces (cache : option labelingPlan) : M (option labelingPlan) :=
  let* step := child root "label-kueue-namespaces" "Apply kueue.openshift.io/managed=true to namespaces" in
  let* got := attempt (discoverExecuteLabelingPlan cache) in
  match got with
  | inl err => fail_step step "Failed to discover namespaces" err ;; m_ret cache
  | inr plan =>
      let total := length (lp_namespaces plan) in
      (if (total =? 0)%nat then completef step StepCompleted "No namespaces require labeling"
       else if dryRun then completef step StepSkipped ("Would label " +:+ show_nat total +:+ " namespace(s)")
       else
         let* agreed := ask_consent ("About to label " +:+ show_nat total +:+ " namespace(s) with " +:+ LabelKueueOpenshiftManaged +:+ "=true")
           "Proceed with namespace labeling?" in
         if negb agreed then completef step StepSkipped "User cancelled namespace labeling"
         else
           let* success := m_fold (label_namespace step) (lp_namespaces plan) 0%nat in
           completef step StepCompleted (labeled_text success total " namespace(s)")) ;;
      m_ret (Some plan)
  end.
Definition labelKueueWorkloads (cache : option labelingPlan) : M () :=
  let* step := child root "label-kueue-workloads" "Apply kueue.x-k8s.io/queue-name to workloads" in
  let* got := attempt (discoverExecuteLabelingPlan cache) in
  match got with
  | inl err => fail_step step "Failed to discover workloads" err
  | inr plan =>
      let total := length (lp_workloads plan) in
      if (total =? 0)%nat then completef step StepCompleted "No workloads require queue-name labels"
      else if dryRun then completef step StepSkipped ("Would label " +:+ show_nat total +:+ " workload(s)")
      else
        let* agreed := ask_consent ("About to add queue-name labels to " +:+ show_nat total +:+ " workload(s)")
          "Proceed with workload labeling?" in
        if negb agreed then completef step StepSkipped "User cancelled workload labeling"
        else
          let* success := m_fold (label_workload step) (lp_workloads plan) 0%nat in
          completef step StepCompleted (labeled_text success total " workload(s)")
  end.

(** *** rhbok_preflight.go *)
Definition report_denied (step : loc) (d : PermissionCheck) : M () :=
  let* denied := child step ("denied-" +:+ pm_Verb d +:+ "-" +:+ pm_Resource d) ("Missing permission: " +:+ PermissionCheck_String d) in
  completef denied StepFailed ("Permission denied: " +:+ PermissionCheck_String d).
Definition verifyRBAC (checks : list PermissionCheck) : M () :=
  let* step := child root "verify-rbac" "Verify RBAC permissions" in
  let* got := attempt (CheckPermissions (has_Authorization (tg_Clients target)) checks) in
  match got with
  | inl err => fail_step step "Failed to verify RBAC permissions" err
  | inr denied =>
      if (0 <? length denied)%nat then
        m_each (report_denied step) denied ;;
        completef step StepFailed (show_nat (length denied) +:+ " required permission(s) denied")
      else completef step StepCompleted ("All " +:+ show_nat (length checks) +:+ " required permissions verified")
  end.

(** One of the namespaces cert-manager may live in; [next] when it is not there. *)
Definition certmanager_namespace (step : loc) (name : string) (next : M ()) : M () :=
  let* got := attempt (GetResource NamespaceType name "") in
  match got with
  | inr _ => completef step StepCompleted (name +:+ " namespace found")
  | inl err =>
      if negb (IsNotFound err) then fail_step step ("Could not check " +:+ name +:+ " namespace") err
      else next
  end.
Definition checkCertManager : M () :=
  let* step := child root "check-cert-manager" "Verify cert-manager is installed" in
  let* got := attempt (kGetCRD "certificates.cert-manager.io") in
  match got with
  | inr _ => completef step StepCompleted "cert-manager CRD found"
  | inl err =>
      if negb (IsNotFound err) && negb (IsForbidden err) then fail_step step "Could not check cert-manager CRD" err
      else
        certmanager_namespace step "cert-manager"
          (certmanager_namespace step "openshift-cert-manager"
             (completef step StepFailed "cert-manager not detected (required for RHBOK)"))
  end.

Definition checkCurrentKueueState : M () :=
  let* step := child root "check-kueue-state" "Verify current Kueue state" in
  let* got := attempt getKueueManagementState in
  match got with
  | inl err =>
      if IsNotFound err then completef step StepFailed "DataScienceCluster not found - OpenShift AI may not be installed"
      else fail_step step "Failed to get Kueue management state" err
  | inr state =>
      if String.eqb state ManagementStateRemoved then completef step StepCompleted "Kueue state is Removed; will resume migration"
      else if String.eqb state ManagementStateUnmanaged then completef step StepCompleted "Kueue state is Unmanaged"
      else if String.eqb state ManagementStateManaged then
        completef step StepCompleted "Kueue state is Managed; full migration required"
      else m_ret ()
  end.

Fixpoint v0_requested (subscriptions : list json) : res go_error bool :=
  match subscriptions with
  | [] => Ok false
  | sub :: rest =>
      res_bind (absent_empty "" ("read Subscription " +:+ GetName sub +:+ " package") (jq_Query_string sub ".spec.name")) (λ packageName,
        if String.eqb packageName subscriptionPackage then Ok true else v0_requested rest)
  end.
Definition rhbokV0SubscriptionRequested : M bool :=
  let* listed := attempt (kList SubscriptionType "" "") in
  match listed with
  | inl err =>
      if IsNoMatchError err || IsNotFound err then m_ret false else m_throw (errorf_w "list OLM v0 Subscriptions" err)
  | inr items => m_lift (v0_requested items)
  end.
Definition checkNoRHBOKConflictsV1 (step : loc) (state : string) : M () :=
  let* v0 := attempt rhbokV0SubscriptionRequested in
  match v0 with
  | inl err => fail_step step "Failed to check RHBOK OLM v0 Subscriptions" err
  | inr true =>
      completef step StepFailed "Conflict: RHBOK is already requested through OLM v0; select --kueue-olm-mode=v0"
  | inr false =>
      let* got := attempt extension_requested in
      match got with
      | inl err => fail_step step "Failed to check RHBOK ClusterExtension" err
      | inr requested =>
          if String.eqb state ManagementStateManaged && requested then
            completef step StepFailed "Conflict: embedded Kueue is Managed but RHBOK operator is already requested"
          else if (requested : bool) then
            completef step StepCompleted "Red Hat build of Kueue ClusterExtension already requested"
          else completef step StepCompleted "No Red Hat build of Kueue conflicts detected"
      end
  end.

(** The operator, looked for in three places. *)
Definition rhbok_found : M bool :=
  let* got := attempt (kFindOperator (λ sub, String.eqb (sub_Name sub) subscriptionName)) in
  match got with
  | inr info => m_ret (Found info)
  | inl err =>
      let* viaExtension := if IsForbidden err then rhbokRequestedViaClusterExtension else m_ret false in
      if (viaExtension : bool) then m_ret true
      else if (IsNotFound err || IsNoMatchError err) && CR then
        let* '(requested, requestErr) := call (KOperatorPackageRequested subscriptionPackage) in
        match requestErr with None => m_ret requested | Some err => m_throw err end
      else m_throw err
  end.
Definition checkNoRHBOKConflictsV0 (step : loc) (state : string) : M () :=
  let* got := attempt rhbok_found in
  match got with
  | inl err => fail_step step "Failed to check Red Hat build of Kueue subscription" err
  | inr found =>
      if String.eqb state ManagementStateManaged && found then
        completef step StepFailed "Conflict: embedded Kueue is Managed but RHBOK operator is already installed"
      else if (found : bool) then completef step StepCompleted "Red Hat build of Kueue operator already installed"
      else completef step StepCompleted "No Red Hat build of Kueue conflicts detected"
  end.
Definition checkNoRHBOKConflicts (mode : Mode) : M () :=
  let* step := child root "check-rhbok-conflicts" "Check for Red Hat build of Kueue operator conflicts" in
  let* got := attempt getKueueManagementState in
  match got with
  | inl err => fail_step step "Failed to get Kueue state" err
  | inr state =>
      if bool_decide (mode = ModeV1) then checkNoRHBOKConflictsV1 step state else checkNoRHBOKConflictsV0 step state
  end.

Definition account_exists (step : loc) (accountName : string) : M () :=
  let* got := attempt (kGet ServiceAccount operatorNamespace accountName) in
  match got with
  | inl err =>
      fail_step step ("OLM v1 requires ServiceAccount " +:+ accountName +:+ " in namespace " +:+ operatorNamespace) err
  | inr _ => completef step StepCompleted ("OLM v1 installer ServiceAccount " +:+ accountName +:+ " exists")
  end.
Definition checkV1ServiceAccount : M () :=
  let* step := child root "check-rhbok-service-account" "Verify OLM v1 installer ServiceAccount" in
  let* got := attempt findRHBOKClusterExtension in
  match got with
  | inl err => fail_step step "Failed to check RHBOK ClusterExtension" err
  | inr None => account_exists step (serviceAccountName a)
  | inr (Some extension) =>
      match clusterExtensionInstalled extension with
      | Panic p => m_lift (Panic p)
      | Err err => fail_step step "Failed to check RHBOK ClusterExtension status" err
      | Ok true => completef step StepSkipped "RHBOK ClusterExtension is already installed"
      | Ok false =>
          match jq_Query_string extension ".spec.serviceAccount.name" with
          | Panic p => m_lift (Panic p)
          | Err err =>
              if errors_is JqErrNotFound err then
                completef step StepSkipped ("Pending RHBOK ClusterExtension " +:+ GetName extension +:+
                  " does not reference an installer ServiceAccount")
              else fail_step step ("Failed to read RHBOK ClusterExtension " +:+ GetName extension +:+ " ServiceAccount") err
          | Ok accountName =>
              if String.eqb accountName "" then
                completef step StepSkipped ("Pending RHBOK ClusterExtension " +:+ GetName extension +:+
                  " does not reference an installer ServiceAccount")
              else account_exists step accountName
          end
      end
  end.

Definition checkOperatorChannel (mode : Mode) : M () :=
  let* step := child root "check-operator-channel" "Resolve Red Hat build of Kueue operator channel" in
  let* resolved := attempt (operatorChannel mode) in
  match resolved with
  | inl err => fail_step step "Failed to resolve operator channel" err
  | inr channel =>
      if bool_decide (mode = ModeV1) && String.eqb channel "" then
        completef step StepCompleted "Existing RHBOK ClusterExtension has no single channel restriction"
      else completef step StepCompleted ("Will install from channel " +:+ channel)
  end.

Definition verifyKueueResources : M () :=
  let* step := child root "verify-kueue-resources" "Verify Kueue resources exist" in
  let* got := attempt (kListAll ClusterQueue defaultListOptions) in
  match got with
  | inl err =>
      if IsNotFound err || IsResourceTypeNotFound err then completef step StepCompleted "No ClusterQueue CRD found"
      else fail_step step "Failed to list ClusterQueues" err
  | inr clusterQueues =>
      let* got := attempt (kListAll LocalQueue defaultListOptions) in
      match got with
      | inl err =>
          if IsNotFound err || IsResourceTypeNotFound err then
            completef step StepCompleted ("Kueue resources found: " +:+ show_nat (length clusterQueues) +:+
              " ClusterQueues (LocalQueue CRD not found)")
          else fail_step step "Failed to list LocalQueues" err
      | inr localQueues =>
          completef step StepCompleted ("Kueue resources found: " +:+ show_nat (length clusterQueues) +:+ " ClusterQueues, " +:+
            show_nat (length localQueues) +:+ " LocalQueues")
      end
  end.

(** *** rhbok_verify.go: the empty string when there is nothing to say *)
Definition verifyEmbeddedRemoved : M string :=
  let* got := attempt (kGet Deployment applicationsNamespace embeddedKueueDeployment) in
  m_ret (match got with
         | inr _ => "embedded deployment " +:+ embeddedKueueDeployment +:+ " still exists in " +:+ applicationsNamespace
         | inl err => if IsNotFound err then "" else "checking embedded deployment: " +:+ error_string err
         end).
Definition verifyManagementState : M string :=
  let* got := attempt getKueueManagementState in
  m_ret (match got with
         | inl err => "checking managementState: " +:+ error_string err
         | inr state =>
             if String.eqb state ManagementStateUnmanaged then ""
             else "kueue managementState is " +:+ quote state +:+ ", expected " +:+ quote ManagementStateUnmanaged
         end).
Definition verifyKueueReadyStatus : M string :=
  let* got := attempt (kSingleton DataScienceClusterV1) in
  match got with
  | inl err => m_ret ("getting DataScienceCluster: " +:+ error_string err)
  | inr dsc =>
      match getDSCCondition dsc kueueReadyType with
      | Panic p => m_lift (Panic p)
      | Err err => m_ret ("querying KueueReady: " +:+ error_string err)
      | Ok cond => m_ret (if condition_is "True" cond then "" else "KueueReady condition is not True")
      end
  end.

Definition verifyOperatorReadyV0 : M string :=
  let* got := attempt (kGet SubscriptionType operatorNamespace subscriptionName) in
  match got with
  | inl err =>
      let* viaExtension := if IsForbidden err then rhbokInstalledViaClusterExtension else m_ret false in
      if (viaExtension : bool) then m_ret ""
      else if (IsNotFound err || IsNoMatchError err) && CR then
        let* found := call (KOperatorExists subscriptionPackage) in
        m_ret (match found with
               | OperatorFound => ""
               | OperatorNotInstalled => "RHBOK operator is not installed"
               | OperatorLookupFailed err => "checking RHBOK operator: " +:+ error_string err
               end)
      else if IsNotFound err then m_ret ("RHBOK operator subscription not found in " +:+ operatorNamespace)
      else m_ret ("checking RHBOK operator subscription: " +:+ error_string err)
  | inr sub =>
      let installedCSV := nested_string ["status"; "installedCSV"] sub in
      if String.eqb installedCSV "" then m_ret "RHBOK operator subscription has no installedCSV"
      else
        let* got := attempt (kGet ClusterServiceVersionType operatorNamespace installedCSV) in
        m_ret (match got with
               | inl err => "getting RHBOK CSV " +:+ installedCSV +:+ ": " +:+ error_string err
               | inr csv =>
                   let phase := nested_string ["status"; "phase"] csv in
                   if String.eqb phase csvPhaseSucceeded then ""
                   else "RHBOK CSV " +:+ installedCSV +:+ " is in " +:+ phase +:+ " phase, expected Succeeded"
               end)
  end.
Definition verifyOperatorReady (mode : Mode) : M string :=
  if bool_decide (mode = ModeV1) then
    let* installed := rhbokInstalledViaClusterExtension in
    m_ret (if (installed : bool) then "" else "RHBOK ClusterExtension is not installed")
  else verifyOperatorReadyV0.

Definition verifyOperatorPodsReady : M string :=
  let* got := attempt kueue_pods in
  m_ret (match got with
         | inl err => "listing RHBOK pods: " +:+ error_string err
         | inr [] => "no pods found matching app.kubernetes.io/name=kueue in RHBOK operator namespace"
         | inr pods =>
             match find (λ pod, negb (podReady pod)) pods with
             | Some pod =>
                 "RHBOK pod " +:+ GetName pod +:+ " is not ready (phase: " +:+ nested_string ["status"; "phase"] pod +:+ ")"
             | None => ""
             end
         end).

Definition countQueueResources (resource : ResourceType) : M nat :=
  try* items := kListAll resource defaultListOptions else errorf_w ("listing " +:+ rt_Kind resource +:+ " resources") in
  m_ret (length items).
Definition verifyQueuesPreserved : M string :=
  let* cq := attempt (countQueueResources ClusterQueue) in
  match cq with
  | inl err => m_ret ("listing ClusterQueues: " +:+ error_string err)
  | inr cqCount =>
      let* lq := attempt (countQueueResources LocalQueue) in
      match lq with
      | inl err => m_ret ("listing LocalQueues: " +:+ error_string err)
      | inr lqCount =>
          kOut ("Verified: " +:+ show_nat cqCount +:+ " ClusterQueue(s), " +:+ show_nat lqCount +:+ " LocalQueue(s) preserved" +:+ newline) ;;
          m_ret ""
      end
  end.

Definition verifyNamespaceLabels : M string :=
  let* got := attempt discoverLabelingPlan in
  m_ret (match got with
         | inl err => "discovering namespace labels: " +:+ error_string err
         | inr plan =>
             if (0 <? length (lp_namespaces plan))%nat then
               show_nat (length (lp_namespaces plan)) +:+ " namespace(s) still missing " +:+ LabelKueueOpenshiftManaged +:+ " label"
             else ""
         end).
Definition missing_of_type (ns : string) (missing : list string) (rt : ResourceType) : M (list string) :=
  let* listed := attempt (kListAll rt (in_namespace ns)) in
  match listed with
  | inl err => if IsResourceTypeNotFound err then m_ret missing else m_throw (errorf_w ("listing " +:+ rt_Kind rt) err)
  | inr items =>
      m_ret (missing ++ map (λ item, rt_Kind rt +:+ " " +:+ ns +:+ "/" +:+ GetName item)
        (List.filter (λ item, negb (hasQueueNameLabel item)) items))%list
  end.
Definition missing_labels (managed : gset string) : M (list string) :=
  m_fold (λ missing ns, m_fold (missing_of_type ns) MonitoredWorkloadTypes missing) (set_range managed) [].
Definition verifyWorkloadLabels : M string :=
  let* got := attempt kKueueEnabledNamespaces in
  match got with
  | inl err => m_ret ("listing managed namespaces: " +:+ error_string err)
  | inr managed =>
      let* got := attempt (missing_labels managed) in
      m_ret (match got with
             | inl err => error_string err
             | inr [] => ""
             | inr missing =>
                 show_nat (length missing) +:+ " workload(s) missing queue-name label (e.g. " +:+ join ", " (take 5 missing) +:+ ")"
             end)
  end.

Definition verifications (mode : Mode) : list (M string) :=
  [verifyEmbeddedRemoved; verifyManagementState; verifyKueueReadyStatus; verifyOperatorReady mode; verifyOperatorPodsReady;
   verifyQueuesPreserved; verifyNamespaceLabels; verifyWorkloadLabels].
Definition run_verification (failures : list string) (check : M string) : M (list string) :=
  let* msg := check in m_ret (if String.eqb msg "" then failures else failures ++ [msg])%list.
Definition verifyMigrationComplete (mode : Mode) : M () :=
  let* step := child root "verify-migration-complete" "Verify RHBOK migration completed successfully" in
  if dryRun then completef step StepSkipped "Would verify migration completion"
  else
    let* failures := m_fold run_verification (verifications mode) [] in
    if (0 <? length failures)%nat then completef step StepFailed ("Verification failed: " +:+ join "; " failures)
    else completef step StepCompleted "Migration verification passed".

Definition verifyResourcesPreserved : M () :=
  let* step := child root "verify-resources-preserved" "Verify ClusterQueue and LocalQueue resources preserved" in
  if dryRun then completef step StepSkipped "Would verify ClusterQueue and LocalQueue resources are preserved"
  else
    let* got := attempt (kListAll ClusterQueue defaultListOptions) in
    match got with
    | inl err =>
        if IsNotFound err then completef step StepCompleted "No ClusterQueue CRD found (no resources to preserve)"
        else fail_step step "Failed to list ClusterQueues" err
    | inr clusterQueues =>
        let* got := attempt (kListAll LocalQueue defaultListOptions) in
        match got with
        | inl err =>
            if IsNotFound err || IsResourceTypeNotFound err then
              completef step StepCompleted ("No LocalQueue CRD found (" +:+ show_nat (length clusterQueues) +:+ " ClusterQueues preserved)")
            else fail_step step "Failed to list LocalQueues" err
        | inr localQueues =>
            completef step StepCompleted ("All " +:+ show_nat (length clusterQueues) +:+ " ClusterQueues and " +:+
              show_nat (length localQueues) +:+ " LocalQueues preserved")
        end
    end.

(** *** run_task.go *)
Definition haltIfStepFailed (stepName : string) : M bool :=
  let* result := build in
  if negb (stepTreeFailed (ar_Steps result) stepName) then m_ret false
  else
    let* halted := child root "migration-halted" "Halt migration after step failure" in
    completef halted StepFailed ("Migration halted: step " +:+ quote stepName +:+ " failed") ;;
    m_ret true.
(** A step, and the rest of the migration unless it failed. *)
Definition unless_halted {A} (step : M A) (stepName : string) (rest : A → M ()) : M () :=
  let* x := step in
  let* halted := haltIfStepFailed stepName in
  if (halted : bool) then m_ret () else rest x.
Definition unless_halted_if (needed : bool) (step : M ()) (stepName : string) (rest : M ()) : M () :=
  if needed then unless_halted step stepName (λ _, rest) else rest.

(** The last steps, from the labels of the namespaces on. *)
Definition label_and_verify (mode : Mode) : M () :=
  unless_halted (labelKueueNamespaces None) "label-kueue-namespaces" (λ cache,
  unless_halted (labelKueueWorkloads cache) "label-kueue-workloads" (λ _,
  verifyMigrationComplete mode ;;
  verifyResourcesPreserved)).
Definition executeMigration (mode : Mode) : M () :=
  let* got := attempt getKueueManagementState in
  match got with
  | inl err =>
      let* step := child root "get-kueue-state" "Get Kueue managementState" in
      fail_step step "Failed" err
  | inr state =>
      let managed := String.eqb state ManagementStateManaged in
      let remove := managed && negb (rh_SkipRemoveEmbedded a) in
      unless_halted_if managed preserveKueueConfig "preserve-kueue-config" (
      unless_halted_if remove removeEmbeddedKueue "remove-embedded-kueue" (
      unless_halted_if remove waitForEmbeddedRemoval "wait-embedded-removal" (
      unless_halted deleteLegacyCRDs "delete-legacy-crds" (λ _,
      unless_halted (installRHBOKOperator mode) "install-rhbok-operator" (λ _,
      unless_halted_if (negb (String.eqb state ManagementStateUnmanaged)) activateRHBOK "activate-rhbok" (
      unless_halted waitForKueueReady "wait-kueue-ready" (λ _,
      label_and_verify mode)))))))
  end.

Definition run_checks (mode : Mode) : M () :=
  verifyRBAC (if bool_decide (mode = ModeV1) then runPermissionsV1 (rh_ForceDeleteLegacyCRDs a)
              else runPermissions (rh_ForceDeleteLegacyCRDs a)) ;;
  checkCertManager ;;
  checkCurrentKueueState ;;
  checkNoRHBOKConflicts mode ;;
  (if bool_decide (mode = ModeV1) then checkV1ServiceAccount else m_ret ()) ;;
  checkOperatorChannel mode ;;
  verifyKueueResources ;;
  reportLabelingPlan.
Definition runTask_Validate : M (Mode * ActionResult) :=
  let* mode := selectOLMMode in
  run_checks mode ;;
  let* result := build in
  m_ret (mode, result).
Definition errPreflightFailed : go_error := EString "preflight checks failed".
Definition runTask_Execute : M execution :=
  let* '(mode, validationResult) := runTask_Validate in
  if hasFailedStep (ar_Steps validationResult) then m_ret (Some validationResult, Some errPreflightFailed)
  else
    let* complete := isMigrationComplete mode in
    (if (complete : bool) then
       let* step := child root "migration-complete" "Check if migration already complete" in
       completef step StepSkipped "RHBOK migration already complete (Unmanaged + operator installed)"
     else executeMigration mode) ;;
    built None.

(** *** prepare_task.go *)
(** [backup.WriteResourcesToDir] over the answers of the disk. *)
Definition kWriteResourceToFile (outputDir : string) (g : GVR) (obj : json) : M () :=
  let nsDir := path_Join [outputDir; namespace_dir obj] in
  m_map_err (errorf_w "creating namespace directory") (kMkdirAll nsDir) ;;
  try* data := m_lift (yaml_Marshal obj) else errorf_w "marshaling to YAML" in
  m_map_err (errorf_w "writing file") (kWriteFile (path_Join [nsDir; file_name g obj]) data).
Definition kWriteResourcesToDir (outputDir : string) (g : GVR) (resources : list json) : M () :=
  m_each (λ resource, m_map_err (errorf_w ("writing resource " +:+ GetName resource)) (kWriteResourceToFile outputDir g resource))
    resources.

Definition backupClusterQueues (parentStep : loc) : M () :=
  let* step := child parentStep "backup-clusterqueues" "Backup ClusterQueues" in
  let* got := attempt (kListAll ClusterQueue defaultListOptions) in
  match got with
  | inl err =>
      if IsNotFound err then completef step StepSkipped "No ClusterQueue CRD found"
      else fail_step step "Failed to list ClusterQueues" err
  | inr [] => completef step StepSkipped "No ClusterQueues found"
  | inr clusterQueues =>
      let* written := attempt (kWriteResourcesToDir (tg_OutputDir target) (rt_GVR ClusterQueue) clusterQueues) in
      match written with
      | inl err => fail_step step "Failed to write ClusterQueues" err
      | inr _ =>
          completef step StepCompleted ("Backed up " +:+ show_nat (length clusterQueues) +:+ " ClusterQueues to " +:+ tg_OutputDir target)
      end
  end.
Definition backupConfigMap (parentStep : loc) : M () :=
  let* step := child parentStep "backup-configmap" ("Backup ConfigMap " +:+ configMapName) in
  let* got := attempt (kGet ConfigMap applicationsNamespace configMapName) in
  match got with
  | inl err =>
      if IsNotFound err then completef step StepSkipped "ConfigMap not found" else fail_step step "Failed to get ConfigMap" err
  | inr obj =>
      let* written := attempt (kWriteResourcesToDir (tg_OutputDir target) (rt_GVR ConfigMap) [obj]) in
      match written with
      | inl err => fail_step step "Failed to write ConfigMap" err
      | inr _ => completef step StepCompleted ("Backed up ConfigMap " +:+ configMapName +:+ " to " +:+ tg_OutputDir target)
      end
  end.
Definition backupKueueResources : M () :=
  let* step := child root "backup-kueue-resources" "Backup Kueue resources" in
  if dryRun then completef step StepSkipped ("Would backup ClusterQueues and ConfigMap to " +:+ tg_OutputDir target)
  else
    backupClusterQueues step ;;
    backupConfigMap step ;;
    completef step StepCompleted ("Backup complete in " +:+ tg_OutputDir target).

Definition prepare_checks (mode : Mode) : M () :=
  verifyRBAC (if bool_decide (mode = ModeV1) then preparePermissionsV1 else preparePermissions) ;;
  checkCertManager ;;
  checkCurrentKueueState ;;
  verifyKueueResources ;;
  reportLabelingPlan.
Definition prepareTask_Validate : M ActionResult :=
  let* mode := selectOLMMode in
  prepare_checks mode ;;
  build.
Definition prepareTask_Execute : M execution :=
  let* validationResult := prepareTask_Validate in
  if hasFailedStep (ar_Steps validationResult) then m_ret (Some validationResult, Some errPreflightFailed)
  else
    let* kueueManaged := checkKueueManaged in
    (if (kueueManaged : bool) then backupKueueResources
     else
       let* step := child root "backup-skipped" "Backup skipped (Kueue not managed)" in
       completef step StepSkipped "Kueue is not managed by DataScienceCluster") ;;
    built None.
End Steps.

(** *** The action (rhbok.go) *)
Section TheAction.
Context `{SV : Semver, AE : ApiErrors, KE : K8sErrors, JQ : GoJq, CL : Clock, JT : JsonText, YT : YamlText, GT : GoTypes, WT : Wait,
  CD : ConditionDecoder, MO : MapOrder, UP : UrlParser, CT : CatalogText}.
Definition rhbok_target (clients : Clients) (t : ActionTarget) : Target :=
  mkTarget clients (at_DryRun t) (at_SkipConfirm t) (at_OutputDir t).
Definition RHBOKAction (a : RHBOKMigrationAction) (clients : Clients) {S : Type} (env : ∀ c, S → answer c * S) : Action S :=
  mkAction _ S actionID actionName actionDescription GroupMigration PhasePreUpgrade
    (λ t _, match at_CurrentVersion t with Some v => CanApply (v_Major v) (v_Minor v) | None => false end)
    (Some (as_task env (λ t, prepareTask_Execute a (rhbok_target clients t))))
    (Some (as_task env (λ t, runTask_Execute a (rhbok_target clients t)))).
End TheAction.
