(* ===== verification/KueueMigration.v ===== *)
(** * KueueMigration: what the Kueue migration does to a cluster

    The properties of the two tasks of KueueSteps: the order of the requests
    whatever the answers, the halt after a failed step, the plan of the labels,
    the limit on the catalog, and runs on a concrete cluster. *)
From Stdlib Require Import Ascii.
From S2P Require Import Prelude GoStrings Errors Client Version Result Check Validate DepsCheck DepsInstall BackupDeps Backup.
From S2P Require Import WorkloadHelpers NotebookChecks KueueIntegrity ComponentChecks PlatformChecks RayClusters.
From S2P Require Import Recorder Action Programs Cluster PipelineActions OperatorInstall KueueSteps.
Open Scope string_scope.
Open Scope Z_scope.
Open Scope prog_scope.

(** ** The order of the requests

    What a monitor remembers of a run: the last text shown and the last
    question agreed to, the DataScienceCluster and the ConfigMap last read,
    the legacy CRDs last seen without instances, whether a subscription was
    ever read, the namespaces ever read without the label and the objects
    ever listed, and what it knows of the installation. *)
Record kueue_seen := mkKueueSeen {
  ks_Asked : string;
  ks_Agreed : string;
  ks_DSC : option json;
  ks_ConfigMap : option json;
  ks_Empty : gset string;
  ks_Subscribed : bool;
  ks_Unlabeled : gset string;
  ks_Listed : list (ResourceType * json);
  ks_Install : install_seen;
}.
Definition kueue_start : kueue_seen := mkKueueSeen "" "" None None ∅ false ∅ [] nothing_seen.

Definition question_removal := "Proceed with embedded Kueue removal?".
Definition question_activation := "Proceed with RHBOK activation?".
Definition question_installation := "Proceed with operator installation?".
Definition question_namespaces := "Proceed with namespace labeling?".
Definition question_workloads := "Proceed with workload labeling?".

Section Order.
Context `{SV : Semver, AE : ApiErrors, KE : K8sErrors, JQ : GoJq, CL : Clock, JT : JsonText, YT : YamlText, GT : GoTypes, WT : Wait,
  CD : ConditionDecoder, MO : MapOrder, UP : UrlParser, CT : CatalogText}.
Context (a : RHBOKMigrationAction) (target : Target).

Definition single {A} (x : res go_error (list A)) : option A := match x with Ok [o] => Some o | _ => None end.
Definition no_instances (x : res go_error (list json)) : bool :=
  match x with
  | Ok [] => true
  | Err err => IsNotFound err || IsResourceTypeNotFound err
  | _ => false
  end.
Definition lacks_label (x : res go_error json) : bool :=
  match x with Ok ns => negb (managed_label ns) | Err err => IsNotFound err | Panic _ => false end.
Definition answered (x : res go_error (list json)) : list json := default [] (res_opt x).

(** The part of the memory that is not about the installation. *)
Definition note (t : kueue_seen) (q : command) : answer q → kueue_seen :=
  match q return answer q → kueue_seen with
  | KErrOut s => λ _,
      mkKueueSeen s (ks_Agreed t) (ks_DSC t) (ks_ConfigMap t) (ks_Empty t) (ks_Subscribed t) (ks_Unlabeled t) (ks_Listed t) (ks_Install t)
  | KReadLine => λ x,
      mkKueueSeen (ks_Asked t) (if confirmed x then ks_Asked t else "") (ks_DSC t) (ks_ConfigMap t) (ks_Empty t) (ks_Subscribed t)
        (ks_Unlabeled t) (ks_Listed t) (ks_Install t)
  | KListAll rt _ => λ x,
      mkKueueSeen (ks_Asked t) (ks_Agreed t) (if is_type rt DataScienceClusterV1 then single x else ks_DSC t) (ks_ConfigMap t)
        (if no_instances x then {[CRDFQN rt]} ∪ ks_Empty t else ks_Empty t ∖ {[CRDFQN rt]}) (ks_Subscribed t)
        (ks_Unlabeled t) (ks_Listed t ++ map (pair rt) (answered x))%list (ks_Install t)
  | KGet rt _ name => λ x,
      mkKueueSeen (ks_Asked t) (ks_Agreed t) (ks_DSC t) (if is_type rt ConfigMap then res_opt x else ks_ConfigMap t)
        (ks_Empty t) (ks_Subscribed t || is_type rt SubscriptionType && is_ok x)
        (if is_type rt NamespaceType && lacks_label x then {[name]} ∪ ks_Unlabeled t else ks_Unlabeled t)
        (ks_Listed t) (ks_Install t)
  | _ => λ _, t
  end.
Definition with_install (t : kueue_seen) (i : install_seen) : kueue_seen :=
  mkKueueSeen (ks_Asked t) (ks_Agreed t) (ks_DSC t) (ks_ConfigMap t) (ks_Empty t) (ks_Subscribed t) (ks_Unlabeled t) (ks_Listed t) i.
Definition kueue_next (t : kueue_seen) (q : command) (x : answer q) : kueue_seen :=
  with_install (note t q x) (install_next (install_config target "" root) (ks_Install t) q x).

Definition agreed (t : kueue_seen) (question : string) : Prop :=
  tg_SkipConfirm target = true ∨ ks_Agreed t = question +:+ " [y/N]: ".
(** The queue name of a label: that of the options, or of a queue listed. *)
Definition queue_for (t : kueue_seen) (queueName : string) : Prop :=
  queueName = workloadQueueName a ∨ ∃ lq, (LocalQueue, lq) ∈ ks_Listed t ∧ queueName = GetName lq.

Definition kueue_allowed (t : kueue_seen) (q : command) : Prop :=
  match q with
  | KUpdate rt ns obj false =>
      tg_DryRun target = false ∧
      ((rt = ConfigMap ∧ ns = applicationsNamespace ∧
          ∃ cm text, ks_ConfigMap t = Some cm ∧ json_Marshal (kept_annotations cm) = Ok text ∧ annotated_config_map cm text = Ok obj) ∨
       (rt = DataScienceClusterV1 ∧ ∃ latest, ks_DSC t = Some latest ∧
          ((agreed t question_removal ∧ rh_SkipRemoveEmbedded a = false ∧ patched_dsc ManagementStateRemoved (map_range ∅) latest = Ok obj) ∨
           (agreed t question_activation ∧ patched_dsc ManagementStateUnmanaged (map_range (queue_names a)) latest = Ok obj))))
  | KDelete rt _ name =>
      tg_DryRun target = false ∧ rt = CustomResourceDefinition ∧ name ∈ legacyCRDNames ∧
      (rh_ForceDeleteLegacyCRDs a = true ∨ name ∈ ks_Empty t)
  | KCreate rt ns obj false =>
      tg_DryRun target = false ∧
      ((agreed t question_installation ∧ rt = ClusterExtensionType ∧ ∃ channel, obj = extension_object (serviceAccountName a) channel) ∨
       ((agreed t question_installation ∨ ks_Subscribed t = true) ∧
          ∃ channel step, install_allowed (install_config target channel step) (ks_Install t) (KCreate rt ns obj false)))
  | KPatch rt ns name pt data false =>
      tg_DryRun target = false ∧ pt = MergePatchType ∧
      ((agreed t question_namespaces ∧ rt = NamespaceType ∧ name ∈ ks_Unlabeled t ∧ data = label_patch LabelKueueOpenshiftManaged "true") ∨
       (agreed t question_workloads ∧ ∃ item queueName,
          (rt, item) ∈ ks_Listed t ∧ hasQueueNameLabel item = false ∧ ns = GetNamespace item ∧ name = GetName item ∧
          queue_for t queueName ∧ data = label_patch LabelKueueQueueName queueName))
  | _ => mutates q = false ∧ writes_disk q = false
  end.
Notation spec := (spec kueue_allowed kueue_next).

(** *** Reading *)
Lemma harmless_allowed t q : harmless q → kueue_allowed t q.
Proof. intros [Hm Hd]. destruct q as [| | |? ? ? []|? ? ? []| |? ? ? ? ? []| | | | | | | | | | | | | | | | | | | | | | | | |]; done. Qed.

(** What is only ever added to. *)
Definition grown (t t' : kueue_seen) : Prop :=
  (∀ name, name ∈ ks_Unlabeled t → name ∈ ks_Unlabeled t') ∧ (∀ o, o ∈ ks_Listed t → o ∈ ks_Listed t').
#[local] Instance grown_PreOrder : PreOrder grown.
Proof. split; [by intros t|]. intros t1 t2 t3 [H1 H2] [H3 H4]. split; auto. Qed.
Lemma grown_next t q x : grown t (kueue_next t q x).
Proof.
  destruct q; try done; split; intros o Ho; cbn; try done.
  - apply elem_of_app. by left.
  - case_match; [|done]. apply elem_of_union. by right.
Qed.
Lemma grown_queue t t' q : grown t t' → queue_for t q → queue_for t' q.
Proof. intros [_ Hg] [Hq|(lq & Hl & Hq)]; [by left|right]. exists lq. by split; [apply Hg|]. Qed.

Lemma harmless_spec {A} (m : M A) t : only harmless m → spec t m (λ _ t', grown t t').
Proof.
  intros Hm. apply (spec_only _ _ harmless (grown t)); [|..|done|done].
  - intros t' c Hc _. by apply harmless_allowed.
  - intros t' c x _ Ht'. etrans; [exact Ht'|apply grown_next].
Qed.
Lemma quiet_spec {A} (m : M A) t : only harmless m → spec t m (λ _ _, True).
Proof. intros Hm. eapply spec_mono; [by apply harmless_spec|done]. Qed.

(** An answer to the question just asked. *)
Lemma ask_spec t notice question :
  spec t (ask_consent target notice question) (λ r t', grown t t' ∧ (r = Ok true → agreed t' question)).
Proof.
  unfold ask_consent, Prompt, kOut, kErrOut. destruct (tg_SkipConfirm target) eqn:Hs.
  { apply spec_ret. split; [done|]. by left. }
  apply spec_bind, spec_bind, spec_call; [done|]. intros ?u. apply spec_ret.
  apply spec_bind, spec_bind, spec_call; [done|]. intros ?u. apply spec_ret.
  apply spec_bind, spec_bind, spec_call; [done|]. intros ?u. apply spec_ret.
  apply spec_bind, spec_call; [done|]. intros x. apply spec_ret. split.
  - do 3 (etrans; [|apply grown_next]). apply grown_next.
  - intros [= Hx]. right. unfold kueue_next. cbn. by rewrite Hx.
Qed.

(** *** The DataScienceCluster *)
Lemma singleton_single (listed : res go_error (list json)) rt dsc :
  GetSingleton (λ _, listed) rt = Ok dsc → single listed = Some dsc.
Proof. unfold GetSingleton. destruct listed as [[|o [|o' l]]|e|p]; simpl; congruence. Qed.

Context `{WL : !WaitLaws}.

Lemma patch_spec t state names question :
  agreed t question → tg_DryRun target = false →
  (∀ t latest obj, agreed t question → ks_DSC t = Some latest → patched_dsc state (map_range names) latest = Ok obj →
     kueue_allowed t (KUpdate DataScienceClusterV1 "" obj false)) →
  spec t (patchKueueManagementState state names) (λ _ _, True).
Proof using WL.
  intros Hag Hdry Hok. unfold patchKueueManagementState. apply spec_map_err.
  destruct (ExponentialBackoff_retries kueue_backoff) as (n & timeout & _ & ->); [simpl; lia|].
  eapply spec_mono; [apply (spec_retry _ _ (λ _ t, agreed t question) (λ _ _, True) _ _ _ _ _ (λ _ _, True))|].
  - intros [] t' Ht'. unfold patch_once, kSingleton, kUpdate.
    apply spec_bind, spec_map_err, spec_bind, spec_call; [done|]. intros listed. apply spec_lift.
    destruct (GetSingleton _ _) as [dsc|e|p] eqn:Hg; cbn [res_map_err]; [|done..]. apply singleton_single in Hg.
    set (t1 := kueue_next t' _ _). assert (agreed t1 question) as Ht1 by exact Ht'.
    apply spec_bind, spec_lift. destruct (patched_dsc state (map_range names) dsc) as [obj|e|p] eqn:Hp; [|done..].
    apply spec_bind, spec_attempt, spec_bind, spec_call; [by eapply Hok|]. intros x. apply spec_lift.
    destruct x as [o|e|p]; [by apply spec_ret| |done]. destruct (IsConflict e); [by apply spec_ret|by apply spec_lift].
  - done.
  - exact Hag.
  - done.
Qed.

Lemma change_state_spec t step state question declined failed done names :
  tg_DryRun target = false →
  (∀ t latest obj, agreed t question → ks_DSC t = Some latest → patched_dsc state (map_range names) latest = Ok obj →
     kueue_allowed t (KUpdate DataScienceClusterV1 "" obj false)) →
  spec t (change_state target step state question declined failed done names) (λ _ _, True).
Proof using WL.
  intros Hdry Hok. unfold change_state. apply spec_bind. eapply spec_mono; [apply ask_spec|].
  intros [[]|e|p] t1 [_ Hag]; cbn [negb]; [|by apply spec_completef|done..]. specialize (Hag eq_refl).
  apply spec_bind. apply (spec_mono _ _ _ _ (λ _ t', agreed t' question)).
  { destruct (tg_SkipConfirm target); [by apply spec_ret|]. unfold kOut. apply spec_bind, spec_call; [done|]. intros ?u. by apply spec_ret. }
  intros [?u|e|p] t2 Hag2; [|done..]. apply spec_bind, spec_attempt. eapply spec_mono; [by eapply patch_spec|].
  intros [?u|e|p] t3 _; [by apply spec_completef|by apply spec_completef|done].
Qed.

Lemma state_only : only harmless getKueueManagementState.
Proof. unfold getKueueManagementState. only_auto. Qed.

Lemma remove_spec t : spec t (removeEmbeddedKueue a target) (λ _ _, True).
Proof using WL.
  unfold removeEmbeddedKueue. apply spec_bind, spec_child. intros step. destruct (rh_SkipRemoveEmbedded a) eqn:Hskip; [by apply spec_completef|].
  apply spec_bind, spec_attempt. eapply spec_mono; [apply quiet_spec, state_only|]. intros [state|e|p] t1 _; [|by apply spec_completef|done].
  destruct (_ || _); [by apply spec_completef|]. destruct (negb _); [by apply spec_completef|].
  destruct (tg_DryRun target) eqn:Hd; [by apply spec_completef|]. apply change_state_spec; [done|].
  intros t' latest obj Hag Hdsc Hobj. split; [done|]. right. split; [done|]. exists latest. split; [done|]. left. by split.
Qed.
Lemma activate_spec t : spec t (activateRHBOK a target) (λ _ _, True).
Proof using WL.
  unfold activateRHBOK. apply spec_bind, spec_child. intros step.
  apply spec_bind, spec_attempt. eapply spec_mono; [apply quiet_spec, state_only|]. intros [state|e|p] t1 _; [|by apply spec_completef|done].
  destruct (String.eqb _ _); [by apply spec_completef|].
  destruct (tg_DryRun target) eqn:Hd; [by apply spec_completef|]. apply change_state_spec; [done|].
  intros t' latest obj Hag Hdsc Hobj. split; [done|]. right. split; [done|]. exists latest. split; [done|]. by right.
Qed.

(** *** The ConfigMap *)
Lemma preserve_spec t : spec t (preserveKueueConfig target) (λ _ _, True).
Proof using.
  unfold preserveKueueConfig, kGet, kUpdate. apply spec_bind, spec_child. intros step. apply spec_bind, spec_child. intros check.
  apply spec_bind, spec_attempt, spec_bind, spec_call; [done|]. intros x. apply spec_lift.
  destruct x as [cm|e|p]; [|repeat spec_step; done|done]. repeat spec_step.
  destruct (tg_DryRun target) eqn:Hd; [repeat spec_step; done|].
  destruct (json_Marshal (kept_annotations cm)) as [text|e|p] eqn:Ht; [|unfold fail_step; repeat spec_step; done|by apply spec_lift].
  destruct (annotated_config_map cm text) as [obj|e|p] eqn:Ho; [|unfold fail_step; repeat spec_step; done|by apply spec_lift].
  apply spec_bind, spec_attempt, spec_bind, spec_call.
  { split; [done|]. left. do 2 (split; [done|]). by exists cm, text. }
  intros y. apply spec_lift. destruct y as [o|e|p]; [..|done]; unfold fail_step; repeat spec_step; done.
Qed.

(** *** The legacy CRDs *)
Lemma instances_spec t name :
  name ∈ legacyCRDNames → spec t (legacyCRDHasInstances name) (λ r t', r = Ok None → name ∈ ks_Empty t').
Proof using.
  intros Hin. unfold legacyCRDHasInstances. assert (∃ rt, legacy_type name = Some rt ∧ CRDFQN rt = name) as (rt & -> & Hrt).
  { apply elem_of_cons in Hin as [->|[->|[]%elem_of_nil]%elem_of_cons]; by eexists. }
  assert (∀ x, no_instances x = true → name ∈ ks_Empty (kueue_next t (KListAll rt defaultListOptions) x)) as Hn.
  { intros x Hx. cbn. rewrite Hx, Hrt. apply elem_of_union. left. by apply elem_of_singleton. }
  unfold kListAll. apply spec_bind, spec_attempt, spec_bind, spec_call; [done|]. intros x. apply spec_lift.
  destruct x as [items|e|p]; [..|done].
  - destruct items as [|o items]; cbn [length Nat.ltb Nat.leb]; apply spec_ret; [|done]. intros _. by apply Hn.
  - destruct (IsNotFound e || IsResourceTypeNotFound e) eqn:He; apply spec_ret; [|done]. intros _. by apply Hn.
Qed.
Lemma delete_crd_spec t step failed name :
  tg_DryRun target = false → name ∈ legacyCRDNames → spec t (delete_crd a step failed name) (λ _ _, True).
Proof using.
  intros Hd Hin. unfold delete_crd, kGetCRD, kDelete. apply spec_bind, spec_child. intros crdStep.
  apply spec_bind, spec_attempt, spec_bind, spec_call; [done|]. intros x. apply spec_lift.
  destruct x as [crd|e|p]; [|destruct (IsNotFound e); unfold fail_step; repeat spec_step; done|done].
  apply spec_bind. apply (spec_mono _ _ _ _ (λ r t', r = Ok None → rh_ForceDeleteLegacyCRDs a = true ∨ name ∈ ks_Empty t')).
  { destruct (rh_ForceDeleteLegacyCRDs a); [apply spec_ret; by left|]. eapply spec_mono; [by apply instances_spec|]. auto. }
  intros [[msg|]|e|p] t1 H1; [repeat spec_step; done| |done..]. specialize (H1 eq_refl).
  apply spec_bind, spec_attempt, spec_bind, spec_call; [done|]. intros y. apply spec_lift.
  destruct y as [?u|e|p]; [repeat spec_step; done| |done]. destruct (IsNotFound e); unfold fail_step; repeat spec_step; done.
Qed.
Lemma delete_crds_spec t : spec t (deleteLegacyCRDs a target) (λ _ _, True).
Proof using.
  unfold deleteLegacyCRDs. apply spec_bind, spec_child. intros step. destruct (tg_DryRun target) eqn:Hd; [by apply spec_completef|].
  apply spec_bind. eapply spec_mono; [apply (spec_fold_any _ _ (λ _, True)); [|done]|].
  - intros failed t' name Hin _. by apply delete_crd_spec.
  - intros [failed|e|p] t' _; [|done..]. case_match; by apply spec_completef.
Qed.

(** *** The operator *)
Lemma poll_only {S} P i d (cond : S → M (bool * S)) s : (∀ s, only P (cond s)) → only P (PollUntilContextTimeout i d cond s).
Proof using WL. apply only_poll_timeout. Qed.
Lemma find_only : only harmless findRHBOKClusterExtension.
Proof. unfold findRHBOKClusterExtension. only_auto. Qed.
Lemma channel_only mode : only harmless (operatorChannel a target mode).
Proof.
  assert (∀ q, only harmless (ResolveOperatorChannel q)) as Hr by (intros; unfold ResolveOperatorChannel; only_auto).
  unfold operatorChannel, resolveSubscriptionChannel, subscription_channel, existingClusterExtensionChannel, resolveClusterCatalogChannel.
  pose proof find_only. only_auto; auto.
Qed.
Lemma wait_extension_only step : only harmless (wait_for_extension step).
Proof using WL.
  unfold wait_for_extension, fail_step. apply only_bind; [apply only_attempt, poll_only|intros r; only_auto].
  intros []. unfold extension_poll. pose proof find_only. apply only_bind; [by apply only_map_err|]. intros ext. only_auto.
Qed.

Lemma install_v1_spec t channel step : spec t (installRHBOKClusterExtension a target channel step) (λ _ _, True).
Proof using WL.
  unfold installRHBOKClusterExtension. apply spec_bind, spec_attempt.
  eapply spec_mono; [apply quiet_spec; unfold extension_requested; only_auto|].
  intros [requested|e|p] t1 _; [|by apply spec_completef|done].
  destruct (tg_DryRun target) eqn:Hd; [by apply spec_completef|]. destruct (negb requested && _); [by apply spec_completef|].
  destruct requested; [apply quiet_spec, wait_extension_only|].
  apply spec_bind. eapply spec_mono; [apply ask_spec|].
  intros [[]|e|p] t2 [_ Hag]; cbn [negb]; [|by apply spec_completef|done..]. specialize (Hag eq_refl).
  apply spec_bind, spec_attempt. apply (spec_mono _ _ _ _ (λ _ _, True)).
  2: { intros [?u|e|p] t3 _; [apply quiet_spec, wait_extension_only|by apply spec_completef|done]. }
  unfold createRHBOKClusterExtension, kGet, kCreate. apply spec_bind, spec_map_err, spec_bind, spec_call; [done|]. intros x.
  apply spec_lift. destruct x as [o|e|p]; cbn [res_map_err]; [|done..].
  apply spec_bind, spec_attempt, spec_bind, spec_call.
  { split; [done|]. left. split; [exact Hag|]. split; [done|]. by exists channel. }
  intros y. apply spec_lift. destruct y as [o'|e|p]; [by apply spec_ret| |done].
  destruct (IsAlreadyExists e); [|by apply spec_lift]. apply quiet_spec. unfold verifyExistingRHBOKClusterExtension. only_auto.
Qed.

(** The installation itself, by the monitor of OperatorInstall. *)
Lemma ensure_spec t channel step :
  (tg_DryRun target = true ∨ agreed t question_installation ∨ ks_Subscribed t = true) →
  spec t (EnsureOperatorInstalled (install_config target channel step)) (λ _ _, True).
Proof using WL.
  intros HI. set (c := install_config target channel step).
  intros h. eapply obeys_mono.
  - apply (spec_view (install_allowed c) (install_next c) kueue_allowed kueue_next ks_Install
      (λ t, tg_DryRun target = true ∨ agreed t question_installation ∨ ks_Subscribed t = true) t (EnsureOperatorInstalled c)
      (λ r t', r = Ok () → cf_DryRun c = true ∨ os_Ready t' = true)); [|exact HI|exact (install_spec _ _)].
    intros t' q HI' Hq. split.
    + destruct q as [| | |rt ns obj []| | | | | | | | | | | | | | | | | | | | | | | | | | | |]; try done.
      destruct Hq as [Hd Hq]. split; [exact Hd|]. right. split; [destruct HI' as [HI'|HI']; [cbn in Hd; congruence|exact HI']|].
      exists channel, step. by split.
    + intros x. split; [done|]. destruct HI' as [HI'|[HI'|HI']]; [by left|right; left|right; right].
      * destruct q; try done; destruct Hq.
      * destruct q; try done. unfold kueue_next. cbn. by rewrite HI'.
  - intros [r h'] t' _. done.
Qed.

Lemma install_op_spec t mode : spec t (installRHBOKOperator a target mode) (λ _ _, True).
Proof using WL.
  unfold installRHBOKOperator. apply spec_bind, spec_child. intros step. apply spec_bind, spec_attempt.
  eapply spec_mono; [apply quiet_spec, channel_only|]. intros [channel|e|p] t1 _; [|by apply spec_completef|done].
  apply spec_bind. apply (spec_mono _ _ _ _ (λ _ _, True)).
  { case_match; [by apply spec_ret|by apply spec_detail]. }
  intros [?u|e|p] t2 _; [|done..]. case_bool_decide; [apply install_v1_spec|].
  apply spec_bind. apply (spec_mono _ _ _ _ (λ r t', r = Ok true → ks_Subscribed t' = true)).
  { unfold subscription_exists, kGet. destruct (tg_DryRun target); [by apply spec_ret|].
    apply spec_bind, spec_attempt, spec_bind, spec_call; [done|]. intros x. apply spec_lift.
    destruct x as [o|e|p]; [apply spec_ret|by apply spec_ret|done]. intros _. cbn. apply orb_true_r. }
  intros [exists_|e|p] t3 Hex; [|done..]. apply spec_bind.
  apply (spec_mono _ _ _ _ (λ r t', r = Ok true →
    tg_DryRun target = true ∨ agreed t' question_installation ∨ ks_Subscribed t' = true)).
  { destruct (tg_DryRun target) eqn:Hd; [apply spec_ret; by left|]. destruct exists_; cbn [orb].
    - apply spec_ret. intros _. right; right. by apply Hex.
    - eapply spec_mono; [apply ask_spec|]. intros r t' [_ Hag] Hr. right; left. by apply Hag. }
  intros [[]|e|p] t4 HI; cbn [negb]; [|by apply spec_completef|done..].
  apply spec_bind, spec_attempt. eapply spec_mono; [by apply ensure_spec, HI|].
  intros [?u|e|p] t5 _; [|by apply spec_completef|done]. repeat case_match; by apply spec_completef.
Qed.

(** *** The labels *)
Definition planned (t : kueue_seen) (wl : workloadRef) : Prop :=
  (wr_resourceType wl, wr_object wl) ∈ ks_Listed t ∧ hasQueueNameLabel (wr_object wl) = false ∧ queue_for t (wr_queueName wl).
Definition plan_seen (t : kueue_seen) (plan : labelingPlan) : Prop :=
  (∀ ns, ns ∈ lp_namespaces plan → ns ∈ ks_Unlabeled t) ∧ (∀ wl, wl ∈ lp_workloads plan → planned t wl).
Lemma grown_planned t t' wl : grown t t' → planned t wl → planned t' wl.
Proof. intros Hg (H1 & H2 & H3). split; [by apply Hg|]. split; [done|by eapply grown_queue]. Qed.
Lemma grown_plan t t' plan : grown t t' → plan_seen t plan → plan_seen t' plan.
Proof. intros Hg [H1 H2]. split; intros x Hx; [by apply Hg, H1|by eapply grown_planned, H2]. Qed.

Lemma unlabeled_namespace_spec t acc ns :
  (∀ n, n ∈ acc → n ∈ ks_Unlabeled t) →
  spec t (unlabeled_namespace acc ns) (λ r t', ∀ acc', r = Ok acc' → ∀ n, n ∈ acc' → n ∈ ks_Unlabeled t').
Proof using.
  intros Hacc. unfold unlabeled_namespace, namespaceHasOpenshiftManagedLabel, kGet.
  apply spec_bind, spec_map_err, spec_bind, spec_attempt, spec_bind, spec_call; [done|]. intros x. apply spec_lift.
  set (t1 := kueue_next t _ x). pose proof (grown_next t (KGet NamespaceType "" ns) x) as [Hg _].
  assert (lacks_label x = true → ns ∈ ks_Unlabeled t1) as Hns.
  { intros Hx. subst t1. unfold kueue_next. cbn -[lacks_label]. rewrite Hx. apply elem_of_union. left. by apply elem_of_singleton. }
  assert (∀ n, n ∈ (acc ++ [ns])%list → lacks_label x = true → n ∈ ks_Unlabeled t1) as Happ.
  { intros n [Hn|Hn%list_elem_of_singleton]%elem_of_app Hx; [by apply Hg, Hacc|subst n; by apply Hns]. }
  destruct x as [o|e|p]; [| |done].
  - apply spec_ret. cbn [res_map_err]. apply spec_ret. intros acc' [= <-] n. destruct (managed_label o) eqn:Hl.
    + intros Hn. by apply Hg, Hacc.
    + intros Hn. apply Happ; [done|]. cbn. by rewrite Hl.
  - destruct (IsNotFound e) eqn:He; [|by apply spec_lift].
    apply spec_ret. cbn [res_map_err]. apply spec_ret. intros acc' [= <-] n Hn. by apply Happ.
Qed.

Lemma queue_spec t ns :
  spec t (queueNameForNamespace a ns) (λ r t', grown t t' ∧ ∀ q, r = Ok q → queue_for t' q).
Proof using.
  unfold queueNameForNamespace, kListAll. assert (∀ t, queue_for t (workloadQueueName a)) as Hq by by left.
  case_match; [apply spec_ret; split; [done|]; by intros q [= <-]|].
  apply spec_bind, spec_attempt, spec_bind, spec_call; [done|]. intros x. apply spec_lift.
  pose proof (grown_next t (KListAll LocalQueue (in_namespace ns)) x) as Hg.
  destruct x as [l|e|p]; [| |done].
  - destruct l as [|lq [|lq' l]]; apply spec_ret; (split; [exact Hg|]); intros q [= <-]; [by left| |by left].
    right. exists lq. split; [|done]. unfold kueue_next. cbn. apply elem_of_app. right. by left.
  - destruct (IsResourceTypeNotFound e); [apply spec_ret|apply spec_lift]; split; try done. by intros q [= <-].
Qed.

Lemma unlabeled_of_type_spec t ns q acc rt :
  queue_for t q → (∀ wl, wl ∈ acc → planned t wl) →
  spec t (unlabeled_of_type ns q acc rt)
    (λ r t', match r with Ok acc' => queue_for t' q ∧ ∀ wl, wl ∈ acc' → planned t' wl | _ => True end).
Proof using.
  intros Hq Hacc. unfold unlabeled_of_type, kListAll.
  apply spec_bind, spec_attempt, spec_bind, spec_call; [done|]. intros x. apply spec_lift.
  pose proof (grown_next t (KListAll rt (in_namespace ns)) x) as Hg.
  assert (queue_for (kueue_next t (KListAll rt (in_namespace ns)) x) q) as Hq' by by eapply grown_queue.
  destruct x as [l|e|p]; [| |done].
  - apply spec_ret. split; [done|]. intros wl [Hwl|(o & -> & Ho)%list_elem_of_fmap]%elem_of_app.
    { eapply grown_planned; [exact Hg|by apply Hacc]. }
    apply list_elem_of_In, List.filter_In in Ho as [Ho%list_elem_of_In Hl]. split; [|by split; [apply negb_true_iff|]].
    unfold kueue_next. cbn. apply elem_of_app. right. apply list_elem_of_fmap. by exists o.
  - destruct (IsResourceTypeNotFound e); [apply spec_ret|by apply spec_lift]. split; [done|]. intros wl Hwl.
    eapply grown_planned; [exact Hg|by apply Hacc].
Qed.
Lemma unlabeled_workloads_spec t acc ns :
  (∀ wl, wl ∈ acc → planned t wl) →
  spec t (unlabeled_workloads a acc ns) (λ r t', match r with Ok acc' => ∀ wl, wl ∈ acc' → planned t' wl | _ => True end).
Proof using.
  intros Hacc. unfold unlabeled_workloads. apply spec_bind. eapply spec_mono; [apply queue_spec|].
  intros [q|e|p] t1 [Hg Hq]; [|done..]. specialize (Hq q eq_refl).
  eapply spec_mono; [apply (spec_fold _ _ (λ _ acc t, queue_for t q ∧ ∀ wl, wl ∈ acc → planned t wl) (λ _ _, True))|].
  - intros past s t' rt _ [Hq' Hs]. by apply unlabeled_of_type_spec.
  - split; [done|]. intros wl Hwl. by eapply grown_planned; [|apply Hacc].
  - intros [s|e|p] t' H; [|done..]. apply H.
Qed.
Lemma workloads_only acc ns : only harmless (unlabeled_workloads a acc ns).
Proof. unfold unlabeled_workloads, queueNameForNamespace, unlabeled_of_type. only_auto. Qed.

Lemma sets_only :
  only harmless kKueueEnabledNamespaces ∧ only harmless kWorkloadLabeledNamespaces ∧ only harmless namespacesWithLocalQueues.
Proof.
  unfold kKueueEnabledNamespaces, kWorkloadLabeledNamespaces, namespacesWithLocalQueues, enabled_namespaces, labeled_namespaces.
  split; [|split]; only_auto.
Qed.
Lemma discover_spec t : spec t (discoverLabelingPlan a) (λ r t', ∀ plan, r = Ok plan → plan_seen t' plan).
Proof using.
  destruct sets_only as (H1 & H2 & H3). unfold discoverLabelingPlan.
  apply spec_bind, spec_map_err. eapply spec_mono; [apply quiet_spec, H1|]. intros [enabled|e|p] t1 _; [|done..].
  apply spec_bind, spec_map_err. eapply spec_mono; [apply quiet_spec, H2|]. intros [workloadNS|e|p] t2 _; [|done..].
  apply spec_bind. eapply spec_mono; [apply quiet_spec, H3|]. intros [queueNS|e|p] t3 _; [|done..].
  apply spec_bind. eapply spec_mono.
  { apply (spec_fold _ _ (λ _ acc t, ∀ n, n ∈ acc → n ∈ ks_Unlabeled t) (λ _ _, True)).
    - intros past s t' ns _ Hs. eapply spec_mono; [by apply unlabeled_namespace_spec|]. intros [s'|e|p] t'' H; [by apply H|done..].
    - by intros n ?%elem_of_nil. }
  intros [namespaces|e|p] t4 Hns; [|done..]. apply spec_bind.
  eapply spec_mono; [apply (spec_fold _ _ (λ _ acc t, grown t4 t ∧ ∀ wl, wl ∈ acc → planned t wl) (λ _ _, True))|].
  - intros past s t' ns _ [Hg Hs]. eapply spec_mono; [apply spec_and; [by apply unlabeled_workloads_spec|apply harmless_spec, workloads_only]|].
    intros [s'|e|p] t'' [H Hg']; [|done..]. split; [by etrans|exact H].
  - split; [done|]. by intros wl ?%elem_of_nil.
  - intros [workloads|e|p] t' H; [|done..]. destruct H as [Hg Hw]. apply spec_ret. intros plan [= <-].
    split; [|exact Hw]. intros ns Hn. by apply Hg, Hns.
Qed.

(** A change of a loop, and what it leaves. *)
Lemma label_one_spec t step name description patch success (I : kueue_seen → Prop) :
  spec t patch (λ _ t', I t') → spec t (label_one step name description patch success) (λ _ t', I t').
Proof using.
  intros Hp. unfold label_one. apply spec_bind, spec_attempt. eapply spec_mono; [exact Hp|].
  intros [?u|e|p] t' HI; [by apply spec_ret| |done]. unfold fail_step. repeat spec_step. done.
Qed.
Lemma label_namespaces_spec t step (l : list string) n :
  tg_DryRun target = false → agreed t question_namespaces → (∀ ns, ns ∈ l → ns ∈ ks_Unlabeled t) →
  spec t (m_fold (label_namespace step) l n) (λ _ t', grown t t').
Proof using.
  intros Hd Hag Hl. eapply spec_mono; [apply (spec_fold_any _ _ (λ t', grown t t' ∧ agreed t' question_namespaces))|by intros r t' []].
  - intros s t' ns Hns [Hg Hag']. apply label_one_spec. unfold patchNamespaceLabel, kPatch.
    apply spec_bind, spec_map_err, spec_bind, spec_call.
    + do 2 (split; [done|]). left. split; [done|]. split; [done|]. split; [|done]. by apply Hg, Hl.
    + intros x. apply spec_lift. destruct x; [apply spec_ret|..]; (split; [etrans; [exact Hg|apply grown_next]|exact Hag']).
  - by split.
Qed.
Lemma label_workloads_spec t step (l : list workloadRef) n :
  tg_DryRun target = false → agreed t question_workloads → (∀ wl, wl ∈ l → planned t wl) →
  spec t (m_fold (label_workload step) l n) (λ _ _, True).
Proof using.
  intros Hd Hag Hl. eapply spec_mono; [apply (spec_fold_any _ _ (λ t', grown t t' ∧ agreed t' question_workloads))|done].
  - intros s t' wl Hwl [Hg Hag']. apply label_one_spec. unfold patchWorkloadQueueLabel, kPatch.
    destruct (grown_planned t t' wl Hg (Hl _ Hwl)) as (H1 & H2 & H3).
    apply spec_bind, spec_map_err, spec_bind, spec_call.
    + do 2 (split; [done|]). right. split; [done|]. by exists (wr_object wl), (wr_queueName wl).
    + intros x. apply spec_lift. destruct x; [apply spec_ret|..]; (split; [etrans; [exact Hg|apply grown_next]|exact Hag']).
  - by split.
Qed.

(** The cache of the labeling plan. *)
Definition cache_seen (t : kueue_seen) (cache : option labelingPlan) : Prop := ∀ plan, cache = Some plan → plan_seen t plan.
Lemma cached_spec t cache :
  cache_seen t cache → spec t (discoverExecuteLabelingPlan a cache) (λ r t', ∀ plan, r = Ok plan → plan_seen t' plan).
Proof using.
  intros Hc. destruct cache as [plan|]; [|apply discover_spec]. apply spec_ret. intros plan' [= <-]. by apply Hc.
Qed.
Lemma namespaces_spec t :
  spec t (labelKueueNamespaces a target None) (λ r t', ∀ cache, r = Ok cache → cache_seen t' cache).
Proof using.
  unfold labelKueueNamespaces. apply spec_bind, spec_child. intros step. apply spec_bind, spec_attempt.
  eapply spec_mono; [by apply cached_spec|]. intros [plan|e|p] t1 Hplan; [| |done].
  2: { unfold fail_step. repeat spec_step. by intros cache [= <-]. }
  specialize (Hplan plan eq_refl). apply spec_bind. apply (spec_mono _ _ _ _ (λ _ t', plan_seen t' plan)).
  2: { intros [?u|e|p] t' Hp; [|done..]. apply spec_ret. intros cache [= <-]. by intros plan' [= <-]. }
  case_match; [by apply spec_completef|]. destruct (tg_DryRun target) eqn:Hd; [by apply spec_completef|].
  apply spec_bind. eapply spec_mono; [apply ask_spec|]. intros [agree|e|p] t2 [Hg Hag]; [|by eapply grown_plan..].
  apply (grown_plan t1 t2) in Hplan; [|done]. destruct agree; cbn [negb]; [|by apply spec_completef].
  apply spec_bind. eapply spec_mono; [apply label_namespaces_spec; [done|by apply Hag|apply Hplan]|].
  intros [?n|e|p] t3 Hg3; [apply spec_completef|..]; by eapply grown_plan.
Qed.
Lemma workloads_spec t cache : cache_seen t cache → spec t (labelKueueWorkloads a target cache) (λ _ _, True).
Proof using.
  intros Hc. unfold labelKueueWorkloads. apply spec_bind, spec_child. intros step. apply spec_bind, spec_attempt.
  eapply spec_mono; [by apply cached_spec|]. intros [plan|e|p] t1 Hplan; [|by apply spec_completef|done].
  specialize (Hplan plan eq_refl). case_match; [by apply spec_completef|].
  destruct (tg_DryRun target) eqn:Hd; [by apply spec_completef|].
  apply spec_bind. eapply spec_mono; [apply ask_spec|]. intros [[]|e|p] t2 [Hg Hag]; cbn [negb]; [|by apply spec_completef|done..].
  apply spec_bind. eapply spec_mono; [apply label_workloads_spec; [done|by apply Hag|]|].
  { intros wl Hwl. eapply grown_planned; [exact Hg|by apply Hplan]. }
  intros [?n|e|p] t3 _; [by apply spec_completef|done..].
Qed.

(** *** The whole run *)
Lemma halt_only name : only harmless (haltIfStepFailed name).
Proof. unfold haltIfStepFailed. only_auto. Qed.
Lemma unless_halted_spec {A} t (m : M A) name (rest : A → M ()) (Q : A → kueue_seen → Prop) :
  (∀ a t t', grown t t' → Q a t → Q a t') →
  spec t m (λ r t', ∀ a, r = Ok a → Q a t') → (∀ a t, Q a t → spec t (rest a) (λ _ _, True)) →
  spec t (unless_halted m name rest) (λ _ _, True).
Proof using.
  intros Hmon Hm Hr. unfold unless_halted. apply spec_bind. eapply spec_mono; [exact Hm|].
  intros [x|e|p] t1 H; [|done..]. specialize (H x eq_refl). apply spec_bind.
  eapply spec_mono; [apply harmless_spec, halt_only|]. intros [[]|e|p] t2 Hg; [by apply spec_ret| |done..]. by eapply Hr, Hmon.
Qed.
Lemma halted_spec {A} t (m : M A) name (rest : A → M ()) :
  spec t m (λ _ _, True) → (∀ a t, spec t (rest a) (λ _ _, True)) → spec t (unless_halted m name rest) (λ _ _, True).
Proof using.
  intros Hm Hr. apply (unless_halted_spec _ _ _ _ (λ _ _, True)); [done| |auto]. eapply spec_mono; [exact Hm|done].
Qed.
Lemma halted_if_spec needed t (m : M ()) name (rest : M ()) :
  spec t m (λ _ _, True) → (∀ t, spec t rest (λ _ _, True)) → spec t (unless_halted_if needed m name rest) (λ _ _, True).
Proof using. intros Hm Hr. destruct needed; [by apply halted_spec|apply Hr]. Qed.

Lemma install_mode_only : only harmless (selectOLMMode a target).
Proof. unfold selectOLMMode, kResolveInstallMode, kResourceAvailable. only_auto. Qed.
Lemma installed_only : only harmless (rhbokInstalledViaClusterExtension target) ∧ only harmless (rhbokRequestedViaClusterExtension target).
Proof. pose proof find_only. split; [unfold rhbokInstalledViaClusterExtension|unfold rhbokRequestedViaClusterExtension]; only_auto. Qed.
Lemma discover_only : only harmless (discoverLabelingPlan a).
Proof.
  destruct sets_only as (H1 & H2 & H3). pose proof workloads_only.
  unfold discoverLabelingPlan, unlabeled_namespace, namespaceHasOpenshiftManagedLabel. only_auto; auto.
Qed.
Lemma complete_only mode : only harmless (isMigrationComplete target mode).
Proof.
  destruct installed_only as [H1 _]. pose proof state_only.
  unfold isMigrationComplete, rhbokOperatorInstalled, kueue_pods. only_auto; auto.
Qed.
Lemma rbac_only checks : only harmless (verifyRBAC target checks).
Proof. unfold verifyRBAC, CheckPermissions, review, report_denied, fail_step. only_auto. Qed.
Lemma conflicts_only mode : only harmless (checkNoRHBOKConflicts target mode).
Proof.
  destruct installed_only as [_ H1]. pose proof state_only.
  unfold checkNoRHBOKConflicts, checkNoRHBOKConflictsV1, checkNoRHBOKConflictsV0, rhbokV0SubscriptionRequested, extension_requested,
    rhbok_found, kFindOperator, fail_step. only_auto; auto.
Qed.
Lemma account_only : only harmless (checkV1ServiceAccount a).
Proof. pose proof find_only. unfold checkV1ServiceAccount, account_exists, fail_step. only_auto; auto. Qed.
Lemma checks_only mode : only harmless (run_checks a target mode).
Proof.
  pose proof rbac_only. pose proof conflicts_only. pose proof account_only. pose proof channel_only. pose proof discover_only. pose proof state_only.
  unfold run_checks, checkCertManager, certmanager_namespace, checkCurrentKueueState, checkOperatorChannel, verifyKueueResources,
    reportLabelingPlan, fail_step. only_auto; auto.
Qed.
Lemma waits_only : only harmless (waitForEmbeddedRemoval a target) ∧ only harmless (waitForKueueReady target).
Proof using WL.
  pose proof state_only. unfold waitForEmbeddedRemoval, waitForKueueReady, removal_poll, ready_poll, fail_step.
  split; only_auto; apply poll_only; intros []; only_auto.
Qed.
Lemma verifications_only mode : Forall (only harmless) (verifications a target mode).
Proof.
  destruct installed_only as [H1 _]. destruct sets_only as (H2 & _). pose proof state_only. pose proof discover_only.
  unfold verifications. repeat apply Forall_cons_2; [..|by apply Forall_nil]; unfold verifyEmbeddedRemoved, verifyManagementState, verifyKueueReadyStatus, verifyOperatorReady, verifyOperatorReadyV0,
    verifyOperatorPodsReady, kueue_pods, verifyQueuesPreserved, countQueueResources, verifyNamespaceLabels, verifyWorkloadLabels,
    missing_labels, missing_of_type; only_auto; auto.
Qed.
Lemma run_verifications_only checks failures : Forall (only harmless) checks → only harmless (m_fold run_verification checks failures).
Proof.
  intros Hc. revert failures. induction Hc as [|check checks Hcheck _ IH]; intros failures; [apply only_ret|].
  apply only_bind; [|done]. unfold run_verification. only_auto.
Qed.
Lemma verify_only mode : only harmless (verifyMigrationComplete a target mode) ∧ only harmless (verifyResourcesPreserved target).
Proof.
  pose proof (run_verifications_only _ [] (verifications_only mode)).
  unfold verifyMigrationComplete, verifyResourcesPreserved, fail_step. split; only_auto.
Qed.

Lemma execute_migration_spec t mode : spec t (executeMigration a target mode) (λ _ _, True).
Proof using WL.
  destruct waits_only as [Hw1 Hw2]. destruct (verify_only mode) as [Hv1 Hv2].
  unfold executeMigration. apply spec_bind, spec_attempt. eapply spec_mono; [apply quiet_spec, state_only|].
  intros [state|e|p] t1 _; [|unfold fail_step; repeat spec_step; done|done].
  apply halted_if_spec; [apply preserve_spec|intros t2]. apply halted_if_spec; [apply remove_spec|intros t3].
  apply halted_if_spec; [by apply quiet_spec|intros t4]. apply halted_spec; [apply delete_crds_spec|intros _ t5].
  apply halted_spec; [apply install_op_spec|intros _ t6]. apply halted_if_spec; [apply activate_spec|intros t7].
  apply halted_spec; [by apply quiet_spec|intros _ t8]. unfold label_and_verify.
  apply (unless_halted_spec _ _ _ _ (λ cache t, cache_seen t cache)); [|apply namespaces_spec|].
  { intros cache t' t'' Hg Hc plan Hp. by eapply grown_plan, Hc. }
  intros cache t9 Hc. apply (unless_halted_spec _ _ _ _ (λ _ _, True)); [done|eapply spec_mono; [by apply workloads_spec|done]|].
  intros _ t10 _. apply quiet_spec, only_bind; [exact Hv1|intros ?u; exact Hv2].
Qed.
Lemma validate_only : only harmless (runTask_Validate a target).
Proof. pose proof install_mode_only. pose proof checks_only. unfold runTask_Validate. only_auto; auto. Qed.
Lemma run_task_spec t : spec t (runTask_Execute a target) (λ _ _, True).
Proof using WL.
  unfold runTask_Execute. apply spec_bind. eapply spec_mono; [apply quiet_spec, validate_only|].
  intros [[mode r]|e|p] t1 _; [|done..]. destruct (hasFailedStep _); [by apply spec_ret|].
  apply spec_bind. eapply spec_mono; [apply quiet_spec, complete_only|]. intros [complete|e|p] t2 _; [|done..].
  apply spec_bind. apply (spec_mono _ _ _ _ (λ _ _, True)).
  - destruct complete; [unfold fail_step; repeat spec_step; done|apply execute_migration_spec].
  - intros [?u|e|p] t3 _; [|done..]. unfold built. repeat spec_step. done.
Qed.

(** A task that only reads unless its checks pass. *)
Lemma prepare_checks_only mode : only harmless (prepare_checks a target mode).
Proof.
  pose proof rbac_only. pose proof discover_only. pose proof state_only.
  unfold prepare_checks, checkCertManager, certmanager_namespace, checkCurrentKueueState, verifyKueueResources, reportLabelingPlan, fail_step.
  only_auto; auto.
Qed.
Lemma prepare_validate_only : only harmless (prepareTask_Validate a target).
Proof. pose proof install_mode_only. pose proof prepare_checks_only. unfold prepareTask_Validate. only_auto; auto. Qed.

Lemma dry_allowed t q : tg_DryRun target = true → kueue_allowed t q → harmless q.
Proof.
  intros Hd Hq.
  destruct q as [| | |? ? ? []|? ? ? []| |? ? ? ? ? []| | | | | | | | | | | | | | | | | | | | | | | | |]; try done; destruct Hq as [Hq _]; congruence.
Qed.
Lemma prepare_only : only (λ c, mutates c = false) (prepareTask_Execute a target).
Proof.
  pose proof (only_weaken harmless (λ c, mutates c = false) _ (λ c H, proj1 H) prepare_validate_only).
  unfold prepareTask_Execute, checkKueueManaged, getKueueManagementState, backupKueueResources, backupClusterQueues, backupConfigMap,
    kWriteResourcesToDir, kWriteResourceToFile, fail_step. only_auto; auto.
Qed.
Lemma dry_prepare_only : tg_DryRun target = true → only harmless (prepareTask_Execute a target).
Proof.
  intros Hd. pose proof prepare_validate_only. pose proof state_only.
  unfold prepareTask_Execute, checkKueueManaged, backupKueueResources, fail_step. rewrite Hd. only_auto; auto.
Qed.
End Order.

(** *** A failed step *)
Lemma halt_runs `{CL : Clock} {S} (env : ∀ c, S → answer c * S) h s name :
  heap_ok h →
  ∃ h', runs env (haltIfStepFailed name) h s (stepTreeFailed (ar_Steps (Build h)) name) h' s ∧
    (if stepTreeFailed (ar_Steps (Build h)) name then HasFailedSteps (Build h') = true else h' = h).
Proof.
  intros Hok. unfold haltIfStepFailed. destruct (stepTreeFailed _ _) eqn:Hf.
  - destruct (records_report root _ _ h (records_scope root "migration-halted" "Halt migration after step failure" (λ _, m_ret ())
      StepFailed ("Migration halted: step " +:+ quote name +:+ " failed") False (λ c, records_ret c)) Hok) as (h' & Hr & Hfail).
    { by destruct (ho_root h Hok) as [n ?%lookup_lt_Some]. }
    exists h'. split; [|apply Hfail; by right; right].
    eapply ends_bind; [apply runs_pure; reflexivity|]. cbv beta zeta. rewrite Hf. cbn [negb].
    unfold m_bind, child, m_ret in Hr. unfold runs, ends, m_bind, child. destruct (Child h root _ _) as [h1 c]. cbn in *. injection Hr as <-. by eexists.
  - exists h. split; [|done]. eapply ends_bind; [apply runs_pure; reflexivity|]. cbv beta zeta. rewrite Hf. apply runs_ret.
Qed.

(** ** Checks that stop a task *)
(** A task that validates first: when its checks end with an error, or a step
    of them has failed, it asks what they ask and no more, and reports that. *)
Definition stops_with_checks {A S} (env : ∀ c, S → answer c * S) (checks : M A) (result : A → ActionResult) (task : M execution)
    (h : heap) (s : S) : Prop :=
  ∀ r h', result_of env (checks h) s = Some (r, h') →
  match r with
  | Ok v => hasFailedStep (ar_Steps (result v)) = true →
      result_of env (task h) s = Some (Ok (Some (result v), Some errPreflightFailed), h') ∧
      transcript env (task h) s = transcript env (checks h) s
  | Err e =>
      result_of env (task h) s = Some (Err e, h') ∧ transcript env (task h) s = transcript env (checks h) s
  | Panic p => True
  end.
Lemma stops_bind {A S} (env : ∀ c, S → answer c * S) (checks : M A) result (k : A → M execution) h s :
  (∀ v, hasFailedStep (ar_Steps (result v)) = true → k v = m_ret (Some (result v), Some errPreflightFailed)) →
  stops_with_checks env checks result (m_bind checks k) h s.
Proof.
  intros Hk r h' Hr. unfold result_of, transcript in *. unfold m_bind. rewrite exec_bind.
  destruct (exec env (checks h) s) as [[o tr] s'] eqn:He. cbn [fst snd] in *. subst o.
  destruct r as [v|e|p]; [intros Hf|..]; cbn; [rewrite (Hk v Hf); cbn|..]; by rewrite ?app_nil_r.
Qed.

(** ** The limit of the catalog *)
Lemma take_bytes_length n s : (n ≤ String.length s)%nat → String.length (take_bytes n s) = n.
Proof.
  revert s. induction n as [|n IH]; intros [|c s] Hn; cbn [take_bytes String.length] in *; try done; [lia|].
  by rewrite IH by lia.
Qed.
Lemma limit_bytes_length n s : 0 <= n → Z.of_nat (String.length (limit_bytes n s)) = Z.min n (Z.of_nat (String.length s)).
Proof.
  intros Hn. unfold limit_bytes. destruct (Z.leb_spec (Z.of_nat (String.length s)) n); [lia|]. rewrite take_bytes_length; lia.
Qed.
Lemma limit_bytes_short n s : Z.of_nat (String.length s) <= n → limit_bytes n s = s.
Proof. intros Hn. unfold limit_bytes. by rewrite (proj2 (Z.leb_le _ _) Hn). Qed.

Section Catalog.
Context `{SV : Semver, CT : CatalogText, CL : !CatalogTextLaws}.

(** A channel is only found in content that was read to its end. *)
Lemma catalog_channel_read content package c :
  (ResolveCatalogChannel content package).1 = Ok c →
  (ResolveCatalogChannel content package).2 = Z.of_nat (String.length content).
Proof using CL.
  unfold ResolveCatalogChannel. destruct (catalog_entries content) as [[entries [err|]] n] eqn:He; [done|].
  intros _. by apply catalog_end in He.
Qed.
Lemma catalog_channel_listed content package c :
  (ResolveCatalogChannel content package).1 = Ok c →
  ∃ entry, entry ∈ (catalog_entries content).1.1 ∧ ce_Schema entry = "olm.channel" ∧ ce_Package entry = package ∧ ce_Name entry = c.
Proof using.
  unfold ResolveCatalogChannel. destruct (catalog_entries content) as [[entries [err|]] n]; [done|]. cbn [fst].
  destruct (foldl _ _ entries) as [[channels defaultChannel] found] eqn:Hf. destruct (negb found); [done|].
  destruct (res_map_err _ _) as [c'|e|p]; cbn [res_bind]; [|done..]. case_bool_decide as Hin; [|done]. intros [= ->].
  assert (∀ entries s, (foldl (catalog_entry package) s entries).1.1 =
    (s.1.1 ++ map ce_Name (List.filter (λ e, negb (String.eqb (ce_Schema e) "olm.package" && String.eqb (ce_Name e) package) &&
      (String.eqb (ce_Schema e) "olm.channel" && String.eqb (ce_Package e) package)) entries))%list) as Hfold.
  { clear. induction entries as [|e l IH]; intros [[cs d] f]; cbn [foldl List.filter]; [by rewrite app_nil_r|]. rewrite IH.
    unfold catalog_entry. destruct (_ && _); cbn [negb andb fst]; [done|]. destruct (_ && _); [|done]. cbn. by rewrite <-(assoc_L (++)%list). }
  specialize (Hfold entries ([], "", false)). rewrite Hf in Hfold. cbn in Hfold. subst channels.
  apply list_elem_of_fmap in Hin as (e & -> & He). apply list_elem_of_In, filter_In in He as [He%list_elem_of_In Hp].
  apply andb_true_iff in Hp as [_ [H1%String.eqb_eq H2%String.eqb_eq]%andb_true_iff]. by exists e.
Qed.
End Catalog.

(** ** Concrete clusters *)
Module KueueRun.
(** A migration that resumes: the state is Removed, both legacy CRDs are left
    without instances, and the operator is there; [granted] says which
    permissions the account has. *)
Definition dsc : json :=
  JObj [("spec", JObj [("components", JObj [("kueue", JObj [("managementState", JStr ManagementStateRemoved)])])])].
Definition csv : json :=
  JObj [("metadata", JObj [("name", JStr "kueue-operator.v1.2.0")]); ("status", JObj [("phase", JStr "Succeeded")])].
Definition resuming (granted : string → bool) (c : command) (s : ()) : answer c * () :=
  match c return answer c * () with
  | KListAll rt _ => (Ok (if is_type rt DataScienceClusterV1 then [dsc] else []), s)
  | KList rt _ _ => (Ok (if is_type rt ClusterServiceVersionType then [csv] else []), s)
  | KAPIResources gv => (if String.eqb gv olmV0GroupVersion then (Some [olmV0Resource], None) else (None, None), s)
  | KAccessReview verb _ _ _ => (Ok (granted verb), s)
  | c => (ClusterRun.idle c, s)
  end.
Definition flags : RHBOKMigrationAction := mkRHBOK "" "" "default" "stable-v1.2" false false "auto" "".
Definition target : Target := mkTarget (mkClients true true true) false true "".
(** No URL parses, and a catalog has one entry per line: the kind, the name,
    the package and the default channel. *)
#[export] Instance no_urls : UrlParser := { url_Parse _ := Err (EString "parse: invalid URI for request") }.
Definition line_entry (line : string) : CatalogEntry :=
  match split_on " "%char line with
  | [schema; name; package; channel] => mkEntry schema name package channel
  | _ => mkEntry "" "" "" ""
  end.
#[export] Instance line_catalog : CatalogText :=
  { catalog_entries text := (map line_entry (split_on "010"%char text), None, Z.of_nat (String.length text)) }.
Lemma line_catalog_laws : CatalogTextLaws (CT := line_catalog).
Proof. split. by intros text entries n [= _ <-]. Qed.
#[export] Instance clock : Clock := { now := 0 }.
End KueueRun.
Import (hints) ClientRun VersionRun ClusterRun KueueRun.

(** ** Properties *)
Module KueueMigrationSpec.
(** C7: Whatever the cluster and the user answer, every change the migration asks
    for follows from what it read and was told.  The DataScienceCluster is
    written back as last read, with the state that was agreed to and no other
    change than the queue names; the ConfigMap with its annotation; a legacy
    CRD is deleted only when its instances were last listed as none, or the
    flag forces it; the operator is created only after an agreement or when
    its subscription exists, and in the order of its installation; a label is
    set only on a namespace that was read without it, and on a workload that
    was listed without a queue, with the queue of the flag or one that was
    listed.  Nothing is written to the disk. *)
Theorem kueue_migration_order `{SV : Semver, AE : ApiErrors, KE : K8sErrors, JQ : GoJq, CL : Clock, JT : JsonText, GT : GoTypes,
    WT : Wait, CD : ConditionDecoder, MO : MapOrder, UP : UrlParser, CT : CatalogText, WL : !WaitLaws}
    {S} (env : ∀ c, S → answer c * S) a target h s :
  accepts (kueue_allowed a target) (kueue_next target) kueue_start (transcript env (runTask_Execute a target h) s).
Proof. apply (obeys_exec _ _ env _ _ _ s (run_task_spec a target kueue_start h)). Qed.

(** C16: When the checks of the migration end with an error, or one of their steps
    has failed, the task asks exactly what they ask, which changes nothing on
    the cluster or the disk, and ends with that error, or with the failed
    steps and the preflight error.  So does the preparation. *)
Theorem failed_checks_change_nothing `{SV : Semver, AE : ApiErrors, KE : K8sErrors, JQ : GoJq, CL : Clock, JT : JsonText, YT : YamlText,
    GT : GoTypes, WT : Wait, CD : ConditionDecoder, MO : MapOrder, UP : UrlParser, CT : CatalogText}
    {S} (env : ∀ c, S → answer c * S) a target h s :
  stops_with_checks env (runTask_Validate a target) snd (runTask_Execute a target) h s ∧
  stops_with_checks env (prepareTask_Validate a target) id (prepareTask_Execute a target) h s ∧
  Forall (λ e, harmless (projT1 e)) (transcript env (runTask_Validate a target h) s) ∧
  Forall (λ e, harmless (projT1 e)) (transcript env (prepareTask_Validate a target h) s).
Proof.
  split; [|split; [|split]].
  - apply stops_bind. intros [mode v] Hf. cbn [snd] in *. by rewrite Hf.
  - apply stops_bind. intros v Hf. unfold id in *. by rewrite Hf.
  - apply asks_only_transcript, validate_only.
  - apply asks_only_transcript, prepare_validate_only.
Qed.

(** A dry run of either task only reads, and the preparation never changes
    the cluster. *)
Theorem kueue_dry_run_only_reads `{SV : Semver, AE : ApiErrors, KE : K8sErrors, JQ : GoJq, CL : Clock, JT : JsonText, YT : YamlText,
    GT : GoTypes, WT : Wait, CD : ConditionDecoder, MO : MapOrder, UP : UrlParser, CT : CatalogText, WL : !WaitLaws}
    {S} (env : ∀ c, S → answer c * S) a target h s :
  (tg_DryRun target = true →
     Forall (λ e, harmless (projT1 e)) (transcript env (runTask_Execute a target h) s) ∧
     Forall (λ e, harmless (projT1 e)) (transcript env (prepareTask_Execute a target h) s)) ∧
  Forall (λ e, mutates (projT1 e) = false) (transcript env (prepareTask_Execute a target h) s).
Proof.
  split; [intros Hd; split|apply (asks_only_transcript _ (λ c, mutates c = false)), prepare_only].
  - destruct (obeys_exec _ _ env _ _ _ s (run_task_spec a target kueue_start h)) as [Hacc _].
    eapply accepts_Forall; [|exact Hacc]. intros t c. by apply dry_allowed.
  - by apply asks_only_transcript, dry_prepare_only.
Qed.

(** A step of the migration that failed is the last one: the rest is not
    asked for, and the result has a failed step; otherwise the rest runs as
    it is. *)
Theorem failed_step_halts `{CL : Clock} {S A} (env : ∀ c, S → answer c * S) (step : M A) name (rest : A → M ()) h s x h1 s1 :
  runs env step h s x h1 s1 → heap_ok h1 →
  if stepTreeFailed (ar_Steps (Build h1)) name
  then ∃ h2, runs env (unless_halted step name rest) h s () h2 s1 ∧ HasFailedSteps (Build h2) = true
  else ∀ r h2 s2, ends env (rest x) h1 s1 r h2 s2 → ends env (unless_halted step name rest) h s r h2 s2.
Proof.
  intros Hs Hok. destruct (halt_runs env h1 s1 name Hok) as (h2 & Hh & Hf). destruct (stepTreeFailed _ _).
  - exists h2. split; [|done]. eapply ends_bind; [exact Hs|]. eapply ends_bind; [exact Hh|]. apply runs_ret.
  - subst h2. intros r h3 s3 Hr. eapply ends_bind; [exact Hs|]. by eapply ends_bind.
Qed.

(** C20: The content of a catalog is read up to its limit and one byte more, which
    is enough to tell: content over the limit never yields a channel, other
    content yields what all of it does, and a channel is one the content
    lists for the package. *)
Theorem oversized_catalog_is_refused `{SV : Semver, CT : CatalogText, CL : !CatalogTextLaws} content maxBytes c :
  0 <= maxBytes →
  (resolveRHBOKCatalogContentChannel content maxBytes = Ok c ↔
     Z.of_nat (String.length content) <= maxBytes ∧ (ResolveCatalogChannel content subscriptionPackage).1 = Ok c) ∧
  (resolveRHBOKCatalogContentChannel content maxBytes = Ok c →
     ∃ entry, entry ∈ (catalog_entries content).1.1 ∧ ce_Schema entry = "olm.channel" ∧ ce_Package entry = subscriptionPackage ∧
       ce_Name entry = c).
Proof.
  intros Hmax. assert (∀ l, resolveRHBOKCatalogContentChannel content maxBytes = Ok l ↔
     Z.of_nat (String.length content) <= maxBytes ∧ (ResolveCatalogChannel content subscriptionPackage).1 = Ok l) as Hiff.
  - intros l. unfold resolveRHBOKCatalogContentChannel.
    pose proof (limit_bytes_length (maxBytes + 1) content ltac:(lia)) as Hlen.
    pose proof (catalog_channel_read (limit_bytes (maxBytes + 1) content) subscriptionPackage) as Hread.
    destruct (Z.le_gt_cases (Z.of_nat (String.length content)) maxBytes) as [Hle|Hgt].
    + rewrite limit_bytes_short in * by lia. destruct (ResolveCatalogChannel content subscriptionPackage) as [channel read]. cbn [fst snd] in *.
      destruct channel as [c'|e|p]; cbn [res_map_err]; [|by split; [destruct (_ =? 0)|intros []]..].
      specialize (Hread _ eq_refl). destruct (Z.eqb_spec (maxBytes + 1 - read) 0); [lia|]. by split; [|intros []].
    + split; [|lia]. destruct (ResolveCatalogChannel _ _) as [channel read]. cbn [fst snd] in *.
      destruct channel as [c'|e|p]; cbn [res_map_err]; [|by destruct (_ =? 0)..].
      specialize (Hread _ eq_refl). destruct (Z.eqb_spec (maxBytes + 1 - read) 0); [done|lia].
  - split; [apply Hiff|]. intros Hc%Hiff. by apply catalog_channel_listed, Hc.
Qed.

Lemma kueue_migration_order_witness :
  let run := transcript (KueueRun.resuming (λ _, true))
    (runTask_Execute (JQ := VersionRun.path_jq) (CD := PlatformRun.decoder) KueueRun.flags KueueRun.target NewRootRecorder) () in
  List.filter mutates (map (@projT1 _ _) run) =
    [KDelete CustomResourceDefinition "" legacyCohortCRD; KDelete CustomResourceDefinition "" legacyTopologyCRD;
     KCreate OperatorGroupType operatorNamespace (operator_group operatorNamespace "openshift-kueue-operator-og" []) false] ∧
  accepts (kueue_allowed KueueRun.flags KueueRun.target) (kueue_next KueueRun.target) kueue_start run.
Proof.
  intros run. split; [vm_compute; reflexivity|].
  apply (kueue_migration_order (WL := ClusterRun.steps_laws) (CD := PlatformRun.decoder) (JQ := VersionRun.path_jq)).
Defined.

Lemma failed_checks_change_nothing_witness :
  let env := KueueRun.resuming (λ verb, negb (String.eqb verb "delete")) in
  ∃ r h, result_of env (runTask_Execute (JQ := VersionRun.path_jq) (CD := PlatformRun.decoder) KueueRun.flags KueueRun.target NewRootRecorder) () =
    Some (Ok (Some r, Some errPreflightFailed), h) ∧ hasFailedStep (ar_Steps r) = true.
Proof.
  intros env. destruct (failed_checks_change_nothing (JQ := VersionRun.path_jq) (CD := PlatformRun.decoder) env
    KueueRun.flags KueueRun.target NewRootRecorder ()) as [H _].
  destruct (result_of env (runTask_Validate (JQ := VersionRun.path_jq) KueueRun.flags KueueRun.target NewRootRecorder) ()) as [[r h]|] eqn:Hr;
    [|vm_compute in Hr; discriminate].
  specialize (H r h Hr). destruct r as [[mode r]|e|p]; [|vm_compute in Hr; discriminate..].
  assert (hasFailedStep (ar_Steps r) = true) as Hf.
  { apply (f_equal (λ o, match o with Some (Ok (_, r), _) => hasFailedStep (ar_Steps r) | _ => true end)) in Hr.
    rewrite <-Hr. vm_compute. reflexivity. }
  exists r, h. split; [apply H, Hf|exact Hf].
Defined.

Lemma kueue_dry_run_only_reads_witness :
  let target := mkTarget (mkClients true true true) true true "" in
  Forall (λ e, harmless (projT1 e)) (transcript (KueueRun.resuming (λ _, true))
    (runTask_Execute (JQ := VersionRun.path_jq) (CD := PlatformRun.decoder) KueueRun.flags target NewRootRecorder) ()).
Proof.
  intros target. destruct (kueue_dry_run_only_reads (WL := ClusterRun.steps_laws) (CD := PlatformRun.decoder) (JQ := VersionRun.path_jq)
    (KueueRun.resuming (λ _, true)) KueueRun.flags target NewRootRecorder ()) as [H _]. by apply H.
Defined.

(** A step that fails, before one that would change the cluster. *)
Lemma failed_step_halts_witness :
  let step := let* c := child root "remove-embedded-kueue" "" in completef c StepFailed "" in
  ∃ h2, runs (KueueRun.resuming (λ _, true))
    (unless_halted step "remove-embedded-kueue" (λ _, kDelete Pod "" "x")) NewRootRecorder () () h2 () ∧ HasFailedSteps (Build h2) = true.
Proof.
  intros step.
  assert (heap_ok NewRootRecorder) as Hok by apply heap_ok_root.
  destruct (Child NewRootRecorder root "remove-embedded-kueue" "") as [h0 c] eqn:Hc.
  assert (heap_ok (Completef h0 c StepFailed "")) as Hok1.
  { apply heap_ok_Completef. change h0 with (h0, c).1. rewrite <-Hc. apply heap_ok_Child; [vm_compute; lia|exact Hok]. }
  assert (runs (KueueRun.resuming (λ _, true)) step NewRootRecorder () () (Completef h0 c StepFailed "") ()) as Hs.
  { apply runs_pure. unfold step, m_bind, child. rewrite Hc. reflexivity. }
  pose proof (failed_step_halts _ _ "remove-embedded-kueue" (λ _, kDelete Pod "" "x") _ _ _ _ _ Hs Hok1) as H.
  vm_compute in Hc. injection Hc as <- <-. exact H.
Defined.

Lemma oversized_catalog_is_refused_witness :
  let content := "olm.package kueue-operator - stable-v1.1" +:+ newline +:+ "olm.channel stable-v1.1 kueue-operator -" in
  resolveRHBOKCatalogContentChannel (SV := VersionRun.semver) content 81 = Ok "stable-v1.1" ∧
  resolveRHBOKCatalogContentChannel (SV := VersionRun.semver) content 80 ≠ Ok "stable-v1.1".
Proof.
  intros content. split.
  - apply (oversized_catalog_is_refused (SV := VersionRun.semver) (CL := KueueRun.line_catalog_laws) content 81); [lia|].
    split; [vm_compute; discriminate|vm_compute; reflexivity].
  - intros H. destruct (oversized_catalog_is_refused (SV := VersionRun.semver) (CL := KueueRun.line_catalog_laws) content 80 "stable-v1.1"
      ltac:(lia)) as [Hiff _]. apply Hiff in H as [H _].
    vm_compute in H. by apply H.
Defined.
End KueueMigrationSpec.
