(* ===== verification/KueueLabels.v ===== *)
(** * KueueLabels: the plan of the labels

    What discoverLabelingPlan of rhbok_labeling.go finds on a cluster whose
    lists do not change: the namespaces in the scope of Kueue without the
    label, and the workloads of the scope without a queue, each with the queue
    it is to have. *)
From S2P Require Import Prelude GoStrings Errors Client Version Result Check Validate DepsCheck DepsInstall BackupDeps Backup.
From S2P Require Import WorkloadHelpers NotebookChecks KueueIntegrity ComponentChecks PlatformChecks RayClusters.
From S2P Require Import Recorder Action Programs Cluster PipelineActions OperatorInstall KueueSteps.
Open Scope string_scope.
Open Scope Z_scope.
Open Scope prog_scope.

(** ** Lists and sets of a loop *)
Lemma foldl_append {A B} (f : A → list B) l acc : foldl (λ acc x, acc ++ f x)%list acc l = (acc ++ flat_map f l)%list.
Proof.
  revert acc. induction l as [|x l IH]; intros acc; cbn [foldl flat_map]; [by rewrite app_nil_r|].
  by rewrite IH, (assoc_L (++)%list).
Qed.
Lemma elem_of_foldl_union {A} (f : A → gset string) l acc x :
  x ∈ foldl (λ acc y, acc ∪ f y) acc l ↔ x ∈ acc ∨ ∃ y, y ∈ l ∧ x ∈ f y.
Proof.
  revert acc. induction l as [|y l IH]; intros acc; cbn [foldl].
  { split; [by left|]. intros [?|(y & ?%elem_of_nil & _)]; done. }
  rewrite IH, elem_of_union. split.
  - intros [[?|?]|(z & Hz & Hx)]; [by left|right; exists y; by split; [left|]|right; exists z; by split; [right|]].
  - intros [?|(z & [->|Hz]%elem_of_cons & Hx)]; [by left; left|by left; right|right; by exists z].
Qed.
Lemma elem_of_flat_map {A B} (f : A → list B) l y : y ∈ flat_map f l ↔ ∃ x, x ∈ l ∧ y ∈ f x.
Proof.
  rewrite list_elem_of_In, in_flat_map. split; intros (x & Hx & Hy); exists x; by rewrite !list_elem_of_In in *.
Qed.
Lemma elem_of_list_filter_In {A} (f : A → bool) l x : x ∈ List.filter f l ↔ x ∈ l ∧ f x = true.
Proof. by rewrite !list_elem_of_In, filter_In. Qed.

Lemma NoDup_set_range `{MO : MapOrder} (s : gset string) : NoDup (set_range s).
Proof. apply NoDup_map_range. Qed.

(** ** A cluster that does not change *)
Section Plan.
Context `{SV : Semver, AE : ApiErrors, KE : K8sErrors, JQ : GoJq, MO : MapOrder}.
Context {S : Type} (env : ∀ c, S → answer c * S) (Objs : ResourceType → list json).

Definition in_ns (ns : string) (o : json) : bool := String.eqb (GetNamespace o) ns.
Definition has_label (key : string) (o : json) : bool := String.eqb (at_key (GetLabels o) key) "true".
(** Every list is of the same objects; namespaces have names, and workloads
    have namespaces. *)
Record serves_objects : Prop := {
  so_all rt s : env (KListAll rt defaultListOptions) s = (Ok (Objs rt), s);
  so_in rt ns s : ns ≠ "" → env (KListAll rt (in_namespace ns)) s = (Ok (List.filter (in_ns ns) (Objs rt)), s);
  so_enabled key s : key ∈ [LabelKueueManaged; LabelKueueOpenshiftManaged] →
    env (KListMetadata NamespaceType (with_selector (key +:+ "=true"))) s = (Ok (List.filter (has_label key) (Objs NamespaceType)), s);
  so_queued rt s : env (KListMetadata rt (with_selector LabelKueueQueueName)) s = (Ok (List.filter hasQueueNameLabel (Objs rt)), s);
  so_namespace ns s : env (KGet NamespaceType "" ns) s =
    (match find (λ o, String.eqb (GetName o) ns) (Objs NamespaceType) with
     | Some o => Ok o
     | None => Err (NewNotFound "" "namespaces" ns)
     end, s);
  so_named o : o ∈ Objs NamespaceType → GetName o ≠ "";
  so_namespaced rt o : rt ∈ MonitoredWorkloadTypes → o ∈ Objs rt → GetNamespace o ≠ "";
}.

(** The scope of Kueue: a namespace with one of the two labels, with a
    workload that has a queue, or with a LocalQueue. *)
Definition enabled_namespace (ns : string) : Prop :=
  ∃ key o, key ∈ [LabelKueueManaged; LabelKueueOpenshiftManaged] ∧ o ∈ Objs NamespaceType ∧ GetName o = ns ∧ has_label key o = true.
Definition queued_namespace (ns : string) : Prop :=
  ∃ rt o, rt ∈ MonitoredWorkloadTypes ∧ o ∈ Objs rt ∧ GetNamespace o = ns ∧ hasQueueNameLabel o = true.
Definition queue_namespace (ns : string) : Prop := ns ≠ "" ∧ ∃ lq, lq ∈ Objs LocalQueue ∧ GetNamespace lq = ns.
Definition in_scope (ns : string) : Prop := enabled_namespace ns ∨ queued_namespace ns ∨ queue_namespace ns.
Definition labeled_namespace (ns : string) : bool :=
  match find (λ o, String.eqb (GetName o) ns) (Objs NamespaceType) with Some o => managed_label o | None => false end.
(** The queue of the workloads of a namespace: that of the flag unless it is
    the default one, else the only queue of the namespace. *)
Definition queue_of (a : RHBOKMigrationAction) (ns : string) : string :=
  if negb (String.eqb (rh_QueueName a) "") && negb (String.eqb (rh_QueueName a) defaultQueueName) then rh_QueueName a
  else match List.filter (in_ns ns) (Objs LocalQueue) with [lq] => GetName lq | _ => defaultQueueName end.

Context (Hserves : serves_objects) `{KL : !K8sLaws}.
Context (a : RHBOKMigrationAction).

(** *** The sets *)
Definition enabled_set : gset string :=
  foldl (λ acc selector, acc ∪ list_to_set (map GetName (List.filter (has_label selector) (Objs NamespaceType)))) ∅
    [LabelKueueManaged; LabelKueueOpenshiftManaged].
Definition queued_set : gset string :=
  foldl (λ acc rt, acc ∪ list_to_set (map GetNamespace (List.filter hasQueueNameLabel (Objs rt)))) ∅ MonitoredWorkloadTypes.
Definition queue_set : gset string :=
  list_to_set (List.filter (λ ns, negb (String.eqb ns "")) (map GetNamespace (Objs LocalQueue))).

Lemma runs_enabled h s : runs env kKueueEnabledNamespaces h s enabled_set h s.
Proof using Hserves.
  unfold kKueueEnabledNamespaces, enabled_set. cbn [m_fold foldl].
  assert (∀ acc key, key ∈ [LabelKueueManaged; LabelKueueOpenshiftManaged] →
    runs env (enabled_namespaces acc (key +:+ "=true")) h s
      (acc ∪ list_to_set (map GetName (List.filter (has_label key) (Objs NamespaceType)))) h s) as Hone.
  { intros acc key Hk. unfold enabled_namespaces, kListMetadata.
    eapply ends_bind; [apply (ends_map_err _ _ _ _ _ (Ok _)), (ends_ask env (KListMetadata _ _) (λ r, r) _ _ _ _ (so_enabled Hserves key s Hk))|].
    apply runs_ret. }
  eapply ends_bind; [apply Hone; by left|]. eapply ends_bind; [apply Hone; right; by left|]. apply runs_ret.
Qed.
Lemma runs_queued h s : runs env kWorkloadLabeledNamespaces h s queued_set h s.
Proof using Hserves.
  apply runs_fold. intros acc rt _. unfold labeled_namespaces, kListMetadata.
  eapply ends_bind; [eapply (ends_attempt _ _ _ _ (Ok _)), (ends_ask env (KListMetadata _ _) (λ r, r) _ _ _ _ (so_queued Hserves rt s))|].
  apply runs_ret.
Qed.
Lemma runs_queues h s : runs env namespacesWithLocalQueues h s queue_set h s.
Proof using Hserves.
  unfold namespacesWithLocalQueues, kListAll.
  eapply ends_bind; [eapply (ends_attempt _ _ _ _ (Ok _)), (ends_ask env (KListAll _ _) (λ r, r) _ _ _ _ (so_all Hserves LocalQueue s))|].
  apply runs_ret.
Qed.

Lemma elem_of_enabled ns : ns ∈ enabled_set ↔ enabled_namespace ns.
Proof using.
  unfold enabled_set. rewrite elem_of_foldl_union. unfold enabled_namespace. setoid_rewrite elem_of_list_to_set.
  setoid_rewrite list_elem_of_fmap. setoid_rewrite elem_of_list_filter_In. split.
  - intros [?%not_elem_of_empty|(key & Hk & o & -> & Ho & Hl)]; [done|]. by exists key, o.
  - intros (key & o & Hk & Ho & <- & Hl). right. exists key. split; [done|]. by exists o.
Qed.
Lemma elem_of_queued ns : ns ∈ queued_set ↔ queued_namespace ns.
Proof using.
  unfold queued_set. rewrite elem_of_foldl_union. unfold queued_namespace. setoid_rewrite elem_of_list_to_set.
  setoid_rewrite list_elem_of_fmap. setoid_rewrite elem_of_list_filter_In. split.
  - intros [?%not_elem_of_empty|(rt & Hrt & o & -> & Ho & Hl)]; [done|]. by exists rt, o.
  - intros (rt & o & Hrt & Ho & <- & Hl). right. exists rt. split; [done|]. by exists o.
Qed.
Lemma elem_of_queue ns : ns ∈ queue_set ↔ queue_namespace ns.
Proof using.
  unfold queue_set, queue_namespace. rewrite elem_of_list_to_set, elem_of_list_filter_In, list_elem_of_fmap, negb_true_iff, String.eqb_neq.
  split; [intros [(o & -> & Ho) Hne]|intros [Hne (o & Ho & <-)]]; split; try done; by exists o.
Qed.
Lemma scope_nonempty ns : in_scope ns → ns ≠ "".
Proof using Hserves.
  intros [(key & o & _ & Ho & <- & _)|[(rt & o & Hrt & Ho & <- & _)|[Hne _]]]; [by eapply so_named|by eapply so_namespaced|done].
Qed.

(** *** The lists *)
Lemma runs_unlabeled acc ns h s :
  runs env (unlabeled_namespace acc ns) h s (acc ++ (if labeled_namespace ns then [] else [ns]))%list h s.
Proof using Hserves KL.
  unfold unlabeled_namespace, namespaceHasOpenshiftManagedLabel, kGet, labeled_namespace.
  pose proof (ends_ask env (KGet NamespaceType "" ns) (λ r, r) h s _ _ (so_namespace Hserves ns s)) as Hget. cbv beta in Hget.
  destruct (find _ _) as [o|].
  - eapply ends_bind; [apply (ends_map_err _ _ _ _ _ (Ok (managed_label o)))|].
    + eapply ends_bind; [apply (ends_attempt _ _ _ _ (Ok o)), Hget|]. apply runs_ret.
    + destruct (managed_label o); [rewrite app_nil_r|]; apply runs_ret.
  - eapply ends_bind; [apply (ends_map_err _ _ _ _ _ (Ok false))|apply runs_ret].
    eapply ends_bind; [exact (ends_attempt _ _ _ _ _ _ _ Hget)|]. cbv iota beta. rewrite IsNotFound_new. apply runs_ret.
Qed.
Lemma runs_queue_of ns h s : ns ≠ "" → runs env (queueNameForNamespace a ns) h s (queue_of a ns) h s.
Proof using Hserves.
  intros Hns. unfold queueNameForNamespace, queue_of, kListAll, workloadQueueName, nonempty.
  destruct (String.eqb_spec (rh_QueueName a) ""); cbn [negb andb]; [|destruct (String.eqb_spec (rh_QueueName a) defaultQueueName)];
    cbn [negb]; [..|apply runs_ret];
    (eapply ends_bind; [eapply (ends_attempt _ _ _ _ (Ok _)), (ends_ask env (KListAll _ _) (λ r, r) _ _ _ _ (so_in Hserves LocalQueue ns s Hns))|]);
    cbv iota beta; destruct (List.filter _ _) as [|lq [|]]; try apply runs_ret; rewrite e; apply runs_ret.
Qed.
Definition workloads_of (ns : string) (rt : ResourceType) : list workloadRef :=
  map (λ item, mkWorkloadRef rt item (queue_of a ns))
    (List.filter (λ item, negb (hasQueueNameLabel item)) (List.filter (in_ns ns) (Objs rt))).
Lemma runs_workloads acc ns h s :
  ns ≠ "" → runs env (unlabeled_workloads a acc ns) h s (acc ++ flat_map (workloads_of ns) MonitoredWorkloadTypes)%list h s.
Proof using Hserves.
  intros Hns. unfold unlabeled_workloads. eapply ends_bind; [by apply runs_queue_of|].
  rewrite <-foldl_append. apply (runs_fold env _ (λ acc rt, acc ++ workloads_of ns rt)%list).
  intros acc' rt _. unfold unlabeled_of_type, kListAll.
  eapply ends_bind; [eapply (ends_attempt _ _ _ _ (Ok _)), (ends_ask env (KListAll _ _) (λ r, r) _ _ _ _ (so_in Hserves rt ns s Hns))|].
  apply runs_ret.
Qed.

(** The scope, and what the labeling makes of it. *)
Definition scope_set : gset string := enabled_set ∪ queued_set ∪ queue_set.
Definition missing : list string := flat_map (λ ns, if labeled_namespace ns then [] else [ns]) (set_range scope_set).
Definition managed_set : gset string := enabled_set ∪ queued_set ∪ list_to_set missing.
Lemma elem_of_scope ns : ns ∈ scope_set ↔ in_scope ns.
Proof using. unfold scope_set, in_scope. rewrite !elem_of_union, elem_of_enabled, elem_of_queued, elem_of_queue. tauto. Qed.
Lemma elem_of_missing ns : ns ∈ missing ↔ in_scope ns ∧ labeled_namespace ns = false.
Proof using.
  unfold missing. rewrite elem_of_flat_map. setoid_rewrite elem_of_set_range. setoid_rewrite elem_of_scope. split.
  - intros (x & Hx & Hin). destruct (labeled_namespace x) eqn:Hl; [by apply elem_of_nil in Hin|].
    apply list_elem_of_singleton in Hin. by subst ns.
  - intros [Hs Hl]. exists ns. rewrite Hl. by split; [|left].
Qed.
Lemma NoDup_missing : NoDup missing.
Proof using.
  unfold missing. pose proof (NoDup_set_range scope_set) as Hnd. induction Hnd as [|ns l Hn Hnd IH]; cbn [flat_map]; [constructor|].
  destruct (labeled_namespace ns); [done|]. apply NoDup_cons. split; [|done].
  intros (x & Hx & Hin)%elem_of_flat_map. destruct (labeled_namespace x); [by apply elem_of_nil in Hin|].
  apply list_elem_of_singleton in Hin. by subst ns.
Qed.
(** A namespace with a LocalQueue is labeled or missing, so none is left out. *)
Lemma elem_of_managed ns : ns ∈ managed_set ↔ in_scope ns.
Proof using.
  unfold managed_set. rewrite !elem_of_union, elem_of_list_to_set, elem_of_missing, elem_of_enabled, elem_of_queued. split.
  - unfold in_scope. tauto.
  - intros Hs. destruct (labeled_namespace ns) eqn:Hl; [|by right]. left. left.
    unfold labeled_namespace in Hl. destruct (find _ _) as [o|] eqn:Hf; [|done].
    apply find_some in Hf as [Ho%list_elem_of_In Hn%String.eqb_eq].
    exists LabelKueueOpenshiftManaged, o. split; [right; by left|]. done.
Qed.

Lemma runs_discover h s :
  runs env (discoverLabelingPlan a) h s
    (mkPlan missing (flat_map (λ ns, flat_map (workloads_of ns) MonitoredWorkloadTypes) (set_range managed_set))) h s.
Proof using Hserves KL.
  unfold discoverLabelingPlan.
  eapply ends_bind; [apply (ends_map_err _ _ _ _ _ (Ok _)), runs_enabled|].
  eapply ends_bind; [apply (ends_map_err _ _ _ _ _ (Ok _)), runs_queued|].
  eapply ends_bind; [apply runs_queues|].
  eapply ends_bind.
  { apply (runs_fold env _ (λ acc ns, acc ++ (if labeled_namespace ns then [] else [ns]))%list). intros acc ns _. apply runs_unlabeled. }
  rewrite foldl_append. cbv beta iota zeta. change ([] ++ ?l)%list with l.
  eapply ends_bind.
  { apply (runs_fold env _ (λ acc ns, acc ++ flat_map (workloads_of ns) MonitoredWorkloadTypes)%list). intros acc ns Hns.
    by apply runs_workloads, scope_nonempty, elem_of_managed, elem_of_set_range. }
  rewrite foldl_append. apply runs_ret.
Qed.
End Plan.
Import (hints) ClientRun.

(** ** Properties *)
Module KueueLabelsSpec.
(** C17: On a cluster that does not change, the plan of the labels is found, with
    no other effect, and it is exact: its namespaces are those in the scope of
    Kueue that do not have the label, each once, and its workloads are the
    monitored workloads of the scope, labeled namespaces included, that have
    no queue, each with the queue of the flag or the only one of its
    namespace. *)
Theorem labeling_plan_exact `{AE : ApiErrors, KE : K8sErrors, KL : !K8sLaws, MO : MapOrder} {S} (env : ∀ c, S → answer c * S) Objs a h s :
  serves_objects env Objs →
  ∃ plan, runs env (discoverLabelingPlan a) h s plan h s ∧
    NoDup (lp_namespaces plan) ∧
    (∀ ns, ns ∈ lp_namespaces plan ↔ in_scope Objs ns ∧ labeled_namespace Objs ns = false) ∧
    (∀ wl, wl ∈ lp_workloads plan ↔
       wr_resourceType wl ∈ MonitoredWorkloadTypes ∧ wr_object wl ∈ Objs (wr_resourceType wl) ∧
       in_scope Objs (GetNamespace (wr_object wl)) ∧ hasQueueNameLabel (wr_object wl) = false ∧
       wr_queueName wl = queue_of Objs a (GetNamespace (wr_object wl))).
Proof.
  intros Hs. eexists. split; [by apply (runs_discover env Objs Hs)|]. cbn [lp_namespaces lp_workloads]. split; [|split].
  - apply NoDup_missing.
  - apply elem_of_missing.
  - intros wl. rewrite elem_of_flat_map. setoid_rewrite elem_of_set_range. setoid_rewrite elem_of_managed. split.
    + intros (ns & Hns & (rt & Hrt & Hwl)%elem_of_flat_map). unfold workloads_of in Hwl.
      apply list_elem_of_fmap in Hwl as (o & -> & Ho). rewrite !elem_of_list_filter_In in Ho.
      destruct Ho as [[Ho Hin%String.eqb_eq] Hl%negb_true_iff]. cbn. by subst ns.
    + destruct wl as [rt o q]. cbn [wr_resourceType wr_object wr_queueName]. intros (Hrt & Ho & Hns & Hl & ->). exists (GetNamespace o). split; [done|].
      apply elem_of_flat_map. exists rt. split; [done|]. apply list_elem_of_fmap. exists o. split; [done|].
      rewrite !elem_of_list_filter_In. split; [split; [done|apply String.eqb_refl]|by rewrite Hl].
Qed.

(** A namespace with a queue and a notebook, and one with the label. *)
Definition meta (fields : list (string * json)) : json := JObj [("metadata", JObj fields)].
Definition team (rt : ResourceType) : list json :=
  if is_type rt NamespaceType then
    [meta [("name", JStr "team-a")]; meta [("name", JStr "team-b"); ("labels", JObj [(LabelKueueOpenshiftManaged, JStr "true")])]]
  else if is_type rt LocalQueue then [meta [("name", JStr "gpus"); ("namespace", JStr "team-a")]]
  else if is_type rt Notebook then
    [meta [("name", JStr "n1"); ("namespace", JStr "team-a")]; meta [("name", JStr "n2"); ("namespace", JStr "team-b")]]
  else [].
Definition selected_objects (selector : string) (rt : ResourceType) : list json :=
  if String.eqb selector LabelKueueQueueName then List.filter hasQueueNameLabel (team rt)
  else if String.eqb selector (LabelKueueManaged +:+ "=true") then List.filter (has_label LabelKueueManaged) (team rt)
  else List.filter (has_label LabelKueueOpenshiftManaged) (team rt).
Definition team_cluster (c : command) (s : ()) : answer c * () :=
  match c return answer c * () with
  | KListAll rt opts => (Ok (if String.eqb (lo_Namespace opts) "" then team rt else List.filter (in_ns (lo_Namespace opts)) (team rt)), s)
  | KListMetadata rt opts => (Ok (selected_objects (lo_LabelSelector opts) rt), s)
  | KGet _ _ name =>
      (match find (λ o, String.eqb (GetName o) name) (team NamespaceType) with
       | Some o => Ok o
       | None => Err (@NewNotFound ClientRun.k8s "" "namespaces" name)
       end, s)
  | c => (ClusterRun.idle c, s)
  end.
Lemma team_cluster_serves : serves_objects (KE := ClientRun.k8s) team_cluster team.
Proof.
  split.
  - done.
  - intros rt ns s Hns. cbn. by rewrite (proj2 (String.eqb_neq ns "") Hns).
  - by intros key s [->|[->|[]%elem_of_nil]%elem_of_cons]%elem_of_cons.
  - done.
  - done.
  - by intros o [->|[->|[]%elem_of_nil]%elem_of_cons]%elem_of_cons.
  - intros rt o Hrt. unfold MonitoredWorkloadTypes in Hrt.
    repeat (apply elem_of_cons in Hrt as [->|Hrt]; [cbn; set_solver|]). by apply elem_of_nil in Hrt.
Qed.
Lemma labeling_plan_exact_witness :
  ∃ plan, runs team_cluster (discoverLabelingPlan (AE := ClientRun.api) default_flags) NewRootRecorder () plan NewRootRecorder () ∧
    "team-a" ∈ lp_namespaces plan ∧
    mkWorkloadRef Notebook (meta [("name", JStr "n1"); ("namespace", JStr "team-a")]) "gpus" ∈ lp_workloads plan.
Proof.
  destruct (labeling_plan_exact (AE := ClientRun.api) (KL := ClientRun.k8s_laws) team_cluster team default_flags NewRootRecorder ()
    team_cluster_serves) as (plan & Hrun & _ & Hn & Hw).
  assert (in_scope team "team-a") as Hscope.
  { right; right. split; [done|]. exists (meta [("name", JStr "gpus"); ("namespace", JStr "team-a")]). split; [by left|done]. }
  exists plan. split; [exact Hrun|]. split; [by apply Hn|]. apply Hw. split; [by left|]. split; [by left|]. by split.
Defined.
End KueueLabelsSpec.
