(* ===== verification/Workbenches.v ===== *)
(** * Workbenches: the notebooks of pkg/migrate/actions/workbenches

    What the workbench actions decide about a Notebook without asking the
    cluster: the state of its migration (migration_checks.go, verify/checks.go),
    the patch of its auth model (authmodel/patch.go), the name of its container
    (upgrade/upgrade.go) and the counts of a verification (verify/run_task.go).

    A path handed to jq is a parameter of jq; [JqPathLaws] says what jq
    documents of the two paths of a notebook the code reads and assigns. *)
From Stdlib Require Import Ascii.
From S2P Require Import Prelude GoStrings Errors Client Version Result Check DepsCheck BackupDeps Backup WorkloadHelpers NotebookImpacted.
From S2P Require Import Recorder Action Programs Cluster PipelineActions RayClusters.
Open Scope string_scope.
Open Scope Z_scope.

(** ** Constants *)
Definition AnnotationInjectAuth := "notebooks.opendatahub.io/inject-auth".
Definition AnnotationInjectOAuth := "notebooks.opendatahub.io/inject-oauth".
Definition annotationOAuthLogoutURL := "notebooks.opendatahub.io/oauth-logout-url".
Definition annotationKubeflowResourceStopped := "kubeflow-resource-stopped".
Definition annotationAcceleratorName := "opendatahub.io/accelerator-name".
Definition annotationLastSizeSelection := "notebooks.opendatahub.io/last-size-selection".
Definition ContainerKubeRBACProxy := "kube-rbac-proxy".
Definition ContainerOAuthProxy := "oauth-proxy".
Definition finalizerOAuthClient := "notebook-oauth-client-finalizer.opendatahub.io".
Definition EnvNotebookArgs := "NOTEBOOK_ARGS".
Definition TornadoSettingsPrefix := "--ServerApp.tornado_settings=".
Definition containers_path := ["spec"; "template"; "spec"; "containers"].
Definition volumes_path := ["spec"; "template"; "spec"; "volumes"].
Definition containers_query := ".spec.template.spec.containers".
Definition volumes_query := ".spec.template.spec.volumes".

(** ** Removing an argument (patch.go)

    A position in a text is given by what is before it and what is after it. *)
(** [strings.Index], with the text it finds taken out. *)
Fixpoint cut_at (sub s : string) : option (string * string) :=
  if has_prefix sub s then Some ("", drop_bytes (String.length sub) s)
  else match s with
       | EmptyString => None
       | String a s' => (λ p, (String a p.1, p.2)) <$> cut_at sub s'
       end.
Definition isArgWhitespace (b : ascii) : bool :=
  Ascii.eqb b " "%char || Ascii.eqb b "009"%char || Ascii.eqb b "010"%char || Ascii.eqb b "013"%char.
(** What is before the whitespace that ends a text. *)
Fixpoint before_spaces (s : string) : string :=
  match s with
  | EmptyString => EmptyString
  | String a s' => let t := before_spaces s' in if String.eqb t "" && isArgWhitespace a then "" else String a t
  end.
(** What is after the first word. *)
Fixpoint after_word (s : string) : string :=
  match s with
  | EmptyString => EmptyString
  | String a s' => if isArgWhitespace a then s else after_word s'
  end.
Definition brace_step (depth : Z) (a : ascii) : Z :=
  if Ascii.eqb a "{"%char then depth + 1 else if Ascii.eqb a "}"%char then depth - 1 else depth.
(** What is after the block in braces that starts here. *)
Fixpoint findBraceEnd (depth : Z) (s : string) : string :=
  match s with
  | EmptyString => EmptyString
  | String a s' => let depth := brace_step depth a in if depth =? 0 then s' else findBraceEnd depth s'
  end.
Definition after_value (s : string) : string :=
  match s with
  | String "{" _ => findBraceEnd 0 s
  | _ => after_word s
  end.
(** One turn of the loop, and the loop. *)
Definition remove_one (s : string) : option string :=
  (λ p, before_spaces p.1 +:+ after_value p.2) <$> cut_at TornadoSettingsPrefix s.
Fixpoint remove_loop (fuel : nat) (s : string) : option string :=
  match fuel with
  | O => None
  | Datatypes.S fuel =>
      match remove_one s with
      | None => Some s
      | Some s' => remove_loop fuel s'
      end
  end.
(** Each turn makes the text shorter. *)
Definition removeTornadoArg (s : string) : string := default s (remove_loop (Datatypes.S (String.length s)) s).

(** ** Reading a notebook *)
Definition is_container (name : string) (raw : json) : bool := is_object raw && String.eqb (str_at "name" raw) name.
Definition isOAuthVolumeName (name : string) : bool := bool_decide (name ∈ ["oauth-config"; "oauth-client"; "tls-certificates"]).
Definition is_oauth_volume (raw : json) : bool := is_object raw && isOAuthVolumeName (str_at "name" raw).
Definition tornado_variable (envRaw : json) : bool :=
  is_object envRaw && String.eqb (str_at "name" envRaw) EnvNotebookArgs && str_contains TornadoSettingsPrefix (str_at "value" envRaw).
Definition tornado_container (raw : json) : bool :=
  match nested_slice ["env"] raw with Some envVars => existsb tornado_variable envVars | None => false end.
Definition HasTornadoSettings (containers : list json) : bool := existsb tornado_container containers.

(** [GetFinalizers]: a list with an element that is not a string is none. *)
Definition GetFinalizers (obj : json) : list string :=
  match nested ["metadata"; "finalizers"] obj with
  | Some (JArr l) =>
      match mapM (λ v, match v with JStr s => Some s | _ => None end) l with Some finalizers => finalizers | None => [] end
  | _ => []
  end.
Definition SetFinalizers (finalizers : list string) (obj : json) : json :=
  match finalizers with
  | [] => RemoveNestedField ["metadata"; "finalizers"] obj
  | _ => put ["metadata"; "finalizers"] (JArr (map JStr finalizers)) obj
  end.
(** authmodel.go and upgrade.go *)
Definition isStopped (nb : json) : bool :=
  match GetAnnotations nb !! annotationKubeflowResourceStopped with Some stopped => negb (String.eqb stopped "") | None => false end.

Section Notebook.
Context `{JQ : GoJq, JT : JsonText, GT : GoTypes, MO : MapOrder}.

Definition SetAnnotations (annotations : gmap string string) (obj : json) : json :=
  put ["metadata"; "annotations"] (JObj (map (λ kv, (kv.1, JStr kv.2)) (map_range annotations))) obj.

(** *** migration_checks.go: the second component says what failed; a query
    does not panic *)
Definition quoted_annotation (annotations : gmap string string) (key : string) : string := quote (at_key annotations key).
Definition CheckMigrationState (nb : json) : bool * list string :=
  let annotations := GetAnnotations nb in
  let missing :=
    if String.eqb (at_key annotations AnnotationInjectAuth) "true" then []
    else ["inject-auth annotation missing or not 'true' (found: " +:+ quoted_annotation annotations AnnotationInjectAuth +:+ ")"] in
  match jq_Query_array nb containers_query with
  | Panic p => (false, missing ++ [p])%list
  | Err err => (false, missing ++ ["could not read containers: " +:+ error_string err])%list
  | Ok containers =>
      let hasKubeRBACProxy := existsb (is_container ContainerKubeRBACProxy) containers in
      let hasOAuthProxy := existsb (is_container ContainerOAuthProxy) containers in
      let failures :=
        (missing ++
         (if hasKubeRBACProxy then [] else ["kube-rbac-proxy sidecar container missing"]) ++
         (if hasOAuthProxy then ["legacy oauth-proxy sidecar still present"] else []) ++
         (match annotations !! AnnotationInjectOAuth with
          | Some injectOAuth =>
              if negb hasKubeRBACProxy || hasOAuthProxy
              then ["legacy inject-oauth annotation still exists: " +:+ quote injectOAuth] else []
          | None => []
          end) ++
         (if HasTornadoSettings containers then ["--ServerApp.tornado_settings still present in NOTEBOOK_ARGS"] else []))%list in
      (bool_decide (failures = []), failures)
  end.

(** *** patch.go: what is left to patch *)
(** A list a query does not find is empty. *)
Definition listed (query : string) (nb : json) : list json :=
  match jq_Query_array nb query with Ok l => l | _ => [] end.
Definition hasInjectAuthAnnotation (nb : json) : bool := String.eqb (at_key (GetAnnotations nb) AnnotationInjectAuth) "true".
Definition hasOAuthAnnotation (nb : json) : bool :=
  bool_decide (is_Some (GetAnnotations nb !! AnnotationInjectOAuth)) ||
  bool_decide (is_Some (GetAnnotations nb !! annotationOAuthLogoutURL)).
Definition hasOAuthProxyContainer (nb : json) : bool := existsb (is_container ContainerOAuthProxy) (listed containers_query nb).
Definition hasOAuthFinalizer (nb : json) : bool := bool_decide (finalizerOAuthClient ∈ GetFinalizers nb).
Definition hasOAuthVolumes (nb : json) : bool := existsb is_oauth_volume (listed volumes_query nb).
Definition hasTornadoSettings (nb : json) : bool := HasTornadoSettings (listed containers_query nb).
Definition needsAuthModelPatch (nb : json) : bool :=
  negb (hasInjectAuthAnnotation nb) || hasOAuthAnnotation nb || hasOAuthProxyContainer nb || hasOAuthFinalizer nb ||
  hasOAuthVolumes nb || hasTornadoSettings nb.

(** *** patch.go: the patch

    The code changes a copy of the notebook in place, its containers through
    the list of the query too; here each step gives the object after it, and
    a failed step ends the patch, whose copy is dropped. *)
Definition addInjectAuthAnnotation (nb : json) : json :=
  SetAnnotations (<[AnnotationInjectAuth := "true"]> (GetAnnotations nb)) nb.
Definition removeAnnotation (nb : json) (key : string) : json :=
  if decide (GetAnnotations nb = ∅) then nb else SetAnnotations (delete key (GetAnnotations nb)) nb.
(** [path = %s] with the text of a list. *)
Definition set_list (query what : string) (nb : json) (l : list json) : res go_error json :=
  res_bind (res_map_err (errorf_w ("marshaling " +:+ what)) (json_Marshal (JArr l))) (λ data,
    res_map_err (errorf_w ("setting " +:+ what)) (Transform go_type nb (query +:+ " = " +:+ data))).
Definition query_list (query what : string) (nb : json) : res go_error (list json) :=
  res_map_err (errorf_w ("querying " +:+ what)) (jq_Query_array nb query).
Definition removeOAuthProxyContainer (nb : json) : res go_error json :=
  res_bind (query_list containers_query "containers" nb) (λ containers,
    set_list containers_query "containers" nb (List.filter (λ raw, negb (is_container ContainerOAuthProxy raw)) containers)).
Definition removeOAuthFinalizer (nb : json) : json :=
  match GetFinalizers nb with
  | [] => nb
  | finalizers => SetFinalizers (List.filter (λ f, negb (String.eqb f finalizerOAuthClient)) finalizers) nb
  end.
Definition removeOAuthVolumes (nb : json) : res go_error json :=
  res_bind (query_list volumes_query "volumes" nb) (λ volumes,
    set_list volumes_query "volumes" nb (List.filter (λ raw, negb (is_oauth_volume raw)) volumes)).
Definition strip_variable (envRaw : json) : json :=
  if tornado_variable envRaw then put ["value"] (JStr (trim_space (removeTornadoArg (str_at "value" envRaw)))) envRaw else envRaw.
Definition strip_container (raw : json) : json :=
  match nested_slice ["env"] raw with
  | Some envVars => put ["env"] (JArr (map strip_variable envVars)) raw
  | None => raw
  end.
Definition stripTornadoSettings (nb : json) : res go_error json :=
  res_bind (query_list containers_query "containers" nb) (λ containers,
    if negb (HasTornadoSettings containers) then Ok nb
    else set_list containers_query "containers" nb (map strip_container containers)).
Definition applyAllPatches (nb : json) : res go_error json :=
  let nb := addInjectAuthAnnotation nb in
  let nb := removeAnnotation nb AnnotationInjectOAuth in
  let nb := removeAnnotation nb annotationOAuthLogoutURL in
  res_bind (res_map_err (errorf_w "removing oauth-proxy container") (removeOAuthProxyContainer nb)) (λ nb,
  let nb := removeOAuthFinalizer nb in
  res_bind (res_map_err (errorf_w "removing OAuth volumes") (removeOAuthVolumes nb)) (λ nb,
  res_map_err (errorf_w "stripping tornado_settings") (stripTornadoSettings nb))).

(** *** upgrade.go: the name of the container *)
Definition hasDashboardAnnotation (nb : json) : bool :=
  negb (String.eqb (at_key (GetAnnotations nb) annotationAcceleratorName) "") ||
  negb (String.eqb (at_key (GetAnnotations nb) annotationLastSizeSelection) "").
(** The containers are read as in the notebook checks. *)
Definition extractWorkloadContainers (nb : json) : res go_error (list NotebookContainer) := ExtractWorkloadContainers nb.
Definition hasContainerNameMismatch (nb : json) : res go_error bool :=
  if negb (hasDashboardAnnotation nb) then Ok false
  else res_bind (extractWorkloadContainers nb) (λ containers,
    match containers with
    | [c] => Ok (negb (String.eqb (nc_Name c) (GetName nb)))
    | _ => Ok false
    end).
(** The first workload container gets the name; its old one beside it. *)
Fixpoint rename_first (crName : string) (rawContainers : list json) : string * list json :=
  match rawContainers with
  | [] => ("", [])
  | raw :: rest =>
      match workload_container raw with
      | Some c => (nc_Name c, put ["name"] (JStr crName) raw :: rest)
      | None => let '(oldName, rest') := rename_first crName rest in (oldName, raw :: rest')
      end
  end.
Definition fixContainerName (nb : json) : res go_error (string * json) :=
  res_bind (extractWorkloadContainers nb) (λ workloads,
    if negb (length workloads =? 1)%nat then
      Err (EString ("expected exactly 1 workload container, found " +:+ show_nat (length workloads)))
    else
      res_bind (query_list containers_query "containers" nb) (λ rawContainers,
        let '(oldName, renamed) := rename_first (GetName nb) rawContainers in
        res_bind (set_list containers_query "containers" nb renamed) (λ nb, Ok (oldName, nb)))).

(** *** verify/checks.go *)
Inductive MigrationStatus := StatusLegacy | StatusMigrated | StatusUnreconciled | StatusInvalid | StatusUnknown.
#[export] Instance MigrationStatus_eq_dec : EqDecision MigrationStatus.
Proof. solve_decision. Defined.
Definition MigrationStatus_string (s : MigrationStatus) : string :=
  match s with
  | StatusLegacy => "LEGACY" | StatusMigrated => "MIGRATED" | StatusUnreconciled => "UNRECONCILED"
  | StatusInvalid => "INVALID" | StatusUnknown => "UNKNOWN"
  end.
Definition ClassifyNotebook (nb : json) : MigrationStatus * string :=
  let annotations := GetAnnotations nb in
  match jq_Query_array nb containers_query with
  | Ok containers =>
      match existsb (is_container ContainerKubeRBACProxy) containers, existsb (is_container ContainerOAuthProxy) containers with
      | true, true => (StatusInvalid, "both kube-rbac-proxy and oauth-proxy sidecars present")
      | true, false =>
          (StatusMigrated, if String.eqb (at_key annotations AnnotationInjectOAuth) "true" then "leftover inject-oauth annotation" else "")
      | false, true =>
          if String.eqb (at_key annotations AnnotationInjectAuth) "true"
          then (StatusUnreconciled, "inject-auth is set but oauth-proxy sidecar still present")
          else (StatusLegacy, "needs migration to 3.x")
      | false, false => (StatusUnknown, "no auth sidecars found")
      end
  | _ => (StatusUnknown, "could not read containers")
  end.
End Notebook.

(** ** Lemmas on the removal of the argument *)
Lemma app_length_string (a b : string) : String.length (a +:+ b) = (String.length a + String.length b)%nat.
Proof. induction a as [|x a IH]; [done|]. exact (f_equal Datatypes.S IH). Qed.

Fixpoint all_bytes (f : ascii → bool) (s : string) : bool :=
  match s with EmptyString => true | String a s' => f a && all_bytes f s' end.
(** The depth after a text. *)
Fixpoint depth_after (depth : Z) (s : string) : Z :=
  match s with EmptyString => depth | String a s' => depth_after (brace_step depth a) s' end.

Lemma has_prefix_cut p s : has_prefix p s = true → s = p +:+ drop_bytes (String.length p) s.
Proof. intros [t ->]%has_prefix_spec. by rewrite drop_bytes_app. Qed.
Lemma cut_at_some sub s l r : cut_at sub s = Some (l, r) → s = l +:+ sub +:+ r.
Proof.
  revert l r. induction s as [|a s IH]; intros l r; cbn [cut_at];
    match goal with |- context [has_prefix sub ?t] => destruct (has_prefix sub t) eqn:Hp end.
  - intros [= <- <-]. exact (has_prefix_cut _ _ Hp).
  - done.
  - intros [= <- <-]. exact (has_prefix_cut _ _ Hp).
  - destruct (cut_at sub s) as [[l' r']|] eqn:Hc; [|done]. cbn. intros [= <- <-]. by rewrite (IH l' r' eq_refl) at 1.
Qed.
Lemma cut_at_contains sub s : bool_decide (is_Some (cut_at sub s)) = str_contains sub s.
Proof.
  induction s as [|a s IH]; cbn [cut_at str_contains]; match goal with |- context [has_prefix sub ?t] => destruct (has_prefix sub t) end; [done..|].
  cbn [orb]. rewrite <-IH. destruct (cut_at sub s); done.
Qed.
(** It is the first occurrence. *)
Lemma cut_at_first sub s l r : cut_at sub s = Some (l, r) → ∀ l' r', s = l' +:+ sub +:+ r' → (String.length l ≤ String.length l')%nat.
Proof.
  revert l r. induction s as [|a s IH]; intros l r; cbn [cut_at];
    match goal with |- context [has_prefix sub ?t] => destruct (has_prefix sub t) eqn:Hp end; [intros [= <- _] *; simpl; lia|done|intros [= <- _] *; simpl; lia|].
  destruct (cut_at sub s) as [[l0 r0]|]; [|done]. cbn. intros [= <- <-] [|b l'] r' Hs.
  - exfalso. change (String a s = sub +:+ r') in Hs. by rewrite Hs, has_prefix_app in Hp.
  - injection Hs as _ Hs. cbn. specialize (IH l0 r0 eq_refl l' r' Hs). lia.
Qed.

Definition ends_in_space (s : string) : Prop := ∃ s' a, s = s' +:+ String a "" ∧ isArgWhitespace a = true.
Lemma before_spaces_spec s : ∃ ws, s = before_spaces s +:+ ws ∧ all_bytes isArgWhitespace ws = true ∧ ¬ ends_in_space (before_spaces s).
Proof.
  induction s as [|a s (ws & Hs & Hws & Hend)]; [exists ""; split_and!; [done|done|by intros ([|] & ? & ? & ?)]|].
  cbn [before_spaces]. destruct (String.eqb_spec (before_spaces s) "") as [He|He]; cbn [andb].
  - destruct (isArgWhitespace a) eqn:Ha.
    + exists (String a s). split_and!; [done| |intros ([|] & ? & ? & ?); done]. cbn. rewrite Ha. cbn. by rewrite Hs, He.
    + exists ws. split_and!; [|done|].
      * change (String a s = String a (before_spaces s +:+ ws)). by rewrite <-Hs.
      * rewrite He. intros ([|b s'] & c & Hc & Hb); [injection Hc as ->; congruence|]. injection Hc as _ Hc. by destruct s'.
  - exists ws. split_and!; [|done|].
    + change (String a s = String a (before_spaces s +:+ ws)). by rewrite <-Hs.
    + intros ([|b s'] & c & Hc & Hb); [by injection Hc as _ Hc|]. injection Hc as _ Hc. apply Hend. by exists s', c.
Qed.
Lemma depth_after_app d a b : depth_after d (a +:+ b) = depth_after (depth_after d a) b.
Proof. revert d. induction a as [|x a IH]; intros d; [done|]. apply IH. Qed.
Lemma after_word_spec s :
  ∃ v, s = v +:+ after_word s ∧ all_bytes (λ a, negb (isArgWhitespace a)) v = true ∧
       match after_word s with EmptyString => True | String a _ => isArgWhitespace a = true end.
Proof.
  induction s as [|a s (v & Hs & Hv & Hr)]; [by exists ""|]. cbn [after_word]. destruct (isArgWhitespace a) eqn:Ha; [by exists ""|].
  exists (String a v). split_and!; [|cbn; by rewrite Ha|done]. change (String a s = String a (v +:+ after_word s)). by rewrite <-Hs.
Qed.
Lemma findBraceEnd_spec d s :
  ∃ v, s = v +:+ findBraceEnd d s ∧ (depth_after d v = 0 ∧ v ≠ "" ∨ findBraceEnd d s = "") ∧
       ∀ p q, v = p +:+ q → p ≠ "" → q ≠ "" → depth_after d p ≠ 0.
Proof.
  revert d. induction s as [|a s IH]; intros d.
  { exists "". split_and!; [done|by right|]. by intros [|] q Hq Hp. }
  cbn [findBraceEnd]. destruct (Z.eqb_spec (brace_step d a) 0) as [Hz|Hz].
  - exists (String a ""). split_and!; [done|by left|]. intros [|b p] q Hv Hp Hq; [done|]. injection Hv as _ Hv. by destruct p, q.
  - destruct (IH (brace_step d a)) as (v & Hs & Hend & Hin). exists (String a v). split_and!.
    + change (String a s = String a (v +:+ findBraceEnd (brace_step d a) s)). by rewrite <-Hs.
    + destruct Hend as [[He _]|He]; [by left|by right].
    + intros [|b p] q Hv Hp Hq; [done|]. injection Hv as <- Hv. cbn. destruct p as [|c p]; [done|]. by apply (Hin (String c p) q).
Qed.

(** The value of an argument: a word, or a block in braces up to where its
    depth is first zero again (or to the end of the text). *)
Inductive arg_value : string → string → Prop :=
| value_word v rest :
    all_bytes (λ a, negb (isArgWhitespace a)) v = true → has_prefix "{" (v +:+ rest) = false →
    match rest with EmptyString => True | String a _ => isArgWhitespace a = true end → arg_value v rest
| value_block v rest :
    has_prefix "{" v = true → (depth_after 0 v = 0 ∨ rest = "") →
    (∀ p q, v = p +:+ q → p ≠ "" → q ≠ "" → depth_after 0 p ≠ 0) → arg_value v rest.

Lemma after_value_spec s : ∃ v, s = v +:+ after_value s ∧ arg_value v (after_value s).
Proof.
  assert (has_prefix "{" s = true ∧ after_value s = findBraceEnd 0 s ∨ has_prefix "{" s = false ∧ after_value s = after_word s)
    as [[Hp ->]|[Hp ->]].
  { destruct s as [|a s]; [by right|]. destruct a as [[] [] [] [] [] [] [] []]; first [by left|by right]. }
  - destruct (findBraceEnd_spec 0 s) as (v & Hs & Hend & Hin). exists v. split; [done|]. apply value_block; [|naive_solver|done].
    destruct s as [|a s]; [done|]. destruct v as [|b v].
    + exfalso. destruct Hend as [[_ ?]|Hend]; [done|]. rewrite Hend in Hs. done.
    + change (String a s = String b (v +:+ findBraceEnd 0 (String a s))) in Hs. injection Hs as <- _.
      cbn [has_prefix] in Hp |- *. by apply andb_true_iff in Hp as [-> _].
  - destruct (after_word_spec s) as (v & Hs & Hv & Hr). exists v. split; [done|]. apply value_word; [done| |done]. by rewrite <-Hs.
Qed.

(** An argument and the whitespace before it taken out of a text: the first
    occurrence of the prefix, all the whitespace before it, its whole value. *)
Definition takes_out (s s' : string) : Prop :=
  ∃ before ws value rest,
    s = before +:+ ws +:+ TornadoSettingsPrefix +:+ value +:+ rest ∧ s' = before +:+ rest ∧
    all_bytes isArgWhitespace ws = true ∧ ¬ ends_in_space before ∧ arg_value value rest ∧
    ∀ l r, s = l +:+ TornadoSettingsPrefix +:+ r → (String.length (before +:+ ws) ≤ String.length l)%nat.

Lemma remove_one_some s s' : remove_one s = Some s' → takes_out s s' ∧ (String.length s' < String.length s)%nat.
Proof.
  unfold remove_one. destruct (cut_at TornadoSettingsPrefix s) as [[l r]|] eqn:Hc; [|done]. cbn [fmap option_fmap option_map fst snd].
  intros [= <-]. pose proof (cut_at_some _ _ _ _ Hc) as Hs. pose proof (cut_at_first _ _ _ _ Hc) as Hfirst.
  destruct (before_spaces_spec l) as (ws & Hl & Hws & Hend). destruct (after_value_spec r) as (v & Hr & Hv).
  set (b := before_spaces l) in *. set (rest := after_value r) in *. split.
  - exists b, ws, v, rest. split_and!; [|done..|by rewrite <-Hl]. rewrite Hs, Hl, Hr. by rewrite <-string_app_assoc.
  - rewrite Hs, Hl, Hr, !app_length_string. cbn [String.length TornadoSettingsPrefix]. lia.
Qed.
Lemma remove_one_none s : remove_one s = None ↔ str_contains TornadoSettingsPrefix s = false.
Proof.
  rewrite <-cut_at_contains. unfold remove_one. destruct (cut_at TornadoSettingsPrefix s); cbn; [|done]. by split.
Qed.
Lemma remove_loop_ends fuel s : (String.length s < fuel)%nat →
  ∃ s', remove_loop fuel s = Some s' ∧ rtc takes_out s s' ∧ str_contains TornadoSettingsPrefix s' = false.
Proof.
  revert s. induction fuel as [|fuel IH]; intros s Hf; [lia|]. cbn [remove_loop]. destruct (remove_one s) as [s1|] eqn:H1.
  - apply remove_one_some in H1 as [Hstep Hlt]. destruct (IH s1) as (s' & He & Hr & Hno); [lia|]. exists s'. split_and!; [done| |done]. by eapply rtc_l.
  - exists s. split_and!; [done|done|]. by apply remove_one_none.
Qed.
Lemma remove_loop_more fuel fuel' s s' : remove_loop fuel s = Some s' → (fuel ≤ fuel')%nat → remove_loop fuel' s = Some s'.
Proof.
  revert s fuel'. induction fuel as [|fuel IH]; intros s fuel' He Hle; [done|]. destruct fuel' as [|fuel']; [lia|]. cbn [remove_loop] in *.
  destruct (remove_one s); [|done]. apply IH; [done|lia].
Qed.
Lemma removed_free s : str_contains TornadoSettingsPrefix (removeTornadoArg s) = false.
Proof. destruct (remove_loop_ends (Datatypes.S (String.length s)) s) as (s' & He & _ & Hno); [lia|]. unfold removeTornadoArg. by rewrite He. Qed.

(** A part of a text contains no more than the text. *)
Lemma str_contains_intro sub l r : str_contains sub (l +:+ sub +:+ r) = true.
Proof.
  induction l as [|a l IH].
  - change ("" +:+ sub +:+ r) with (sub +:+ r). destruct (sub +:+ r) eqn:Ht; cbn [str_contains]; rewrite <-Ht, has_prefix_app; done.
  - change (String a l +:+ sub +:+ r) with (String a (l +:+ sub +:+ r)). cbn [str_contains]. by rewrite IH, orb_true_r.
Qed.
Lemma contains_part sub a b c : str_contains sub (a +:+ b +:+ c) = false → str_contains sub b = false.
Proof.
  intros Hn. destruct (str_contains sub b) eqn:Hb; [|done]. rewrite <-cut_at_contains in Hb.
  apply bool_decide_eq_true in Hb as [[l r] Hb]. apply cut_at_some in Hb as ->.
  pose proof (str_contains_intro sub (a +:+ l) (r +:+ c)) as Hc. rewrite <-Hn, <-Hc. by rewrite <-!string_app_assoc.
Qed.
Lemma trim_left_part s : ∃ a, s = a +:+ trim_left s.
Proof.
  induction s as [|x s [a Ha]]; [by exists ""|]. cbn [trim_left]. destruct (is_space x); [|by exists ""].
  exists (String x a). change (String x s = String x (a +:+ trim_left s)). by rewrite <-Ha.
Qed.
Lemma trim_right_part s : ∃ b, s = trim_right s +:+ b.
Proof.
  induction s as [|x s [b Hb]]; [by exists ""|]. cbn [trim_right].
  destruct (trim_right s) as [|y t] eqn:Ht; [destruct (is_space x)|].
  - by exists (String x s).
  - exists s. done.
  - exists b. change (String x s = String x (String y t +:+ b)). by rewrite <-Hb.
Qed.
Lemma trim_free sub s : str_contains sub s = false → str_contains sub (trim_space s) = false.
Proof.
  intros Hs. destruct (trim_left_part s) as [a Ha]. destruct (trim_right_part (trim_left s)) as [b Hb].
  apply (contains_part sub a _ b). unfold trim_space. by rewrite <-Hb, <-Ha.
Qed.

(** ** Lemmas on changes at a path *)
(** Two paths that part at some key. *)
Fixpoint apart (p q : list string) : bool :=
  match p, q with
  | k :: p, k' :: q => if String.eqb k k' then apart p q else true
  | _, _ => false
  end.
Lemma set_nested_deep seen k k2 path v fields :
  set_nested seen (k :: k2 :: path) v (JObj fields) =
  match field k (JObj fields) with
  | None => res_bind (set_nested (seen ++ [k])%list (k2 :: path) v (JObj [])) (λ inner, Ok (JObj (with_key k inner fields)))
  | Some (JObj inner) =>
      res_bind (set_nested (seen ++ [k])%list (k2 :: path) v (JObj inner)) (λ inner', Ok (JObj (with_key k inner' fields)))
  | Some _ => Err (EString ("value cannot be set because ." +:+ join "." (seen ++ [k])%list +:+ " is not a map[string]interface{}"))
  end.
Proof. reflexivity. Qed.
Lemma set_nested_apart seen path v obj obj' q :
  set_nested seen path v obj = Ok obj' → apart path q = true → nested q obj' = nested q obj.
Proof.
  revert seen obj obj' q. induction path as [|k path IH]; intros seen obj obj' q Hs Ha; [done|].
  destruct obj as [| | | | |fields]; [by injection Hs as <-..|]. destruct q as [|k' q]; [done|]. cbn [apart] in Ha.
  assert (∀ inner, nested q inner = match field k (JObj fields) with Some o => nested q o | None => None end ∨ k ≠ k' →
    nested (k' :: q) (JObj (with_key k inner fields)) = nested (k' :: q) (JObj fields)) as Hkey.
  { intros inner H. rewrite !nested_cons, field_with_key. destruct (String.eqb_spec k k') as [->|]; [|done].
    destruct H as [H|]; [|done]. cbn [mbind option_bind]. rewrite H. by destruct (field k' (JObj fields)). }
  destruct path as [|k2 path].
  { injection Hs as <-. apply Hkey. right. by destruct (String.eqb_spec k k'). }
  rewrite set_nested_deep in Hs. destruct (field k (JObj fields)) as [o|] eqn:Hf.
  - destruct o as [| | | | |ifields]; try done. apply res_bind_Ok_inv in Hs as (inner & Hi & [= <-]). apply Hkey.
    destruct (String.eqb_spec k k'); [left|by right]. by apply (IH _ _ _ q Hi).
  - apply res_bind_Ok_inv in Hs as (inner & Hi & [= <-]). apply Hkey. destruct (String.eqb_spec k k'); [left|by right].
    rewrite (IH _ _ _ q Hi Ha). by destruct q.
Qed.
Lemma put_apart path v obj q : apart path q = true → nested q (put path v obj) = nested q obj.
Proof. intros Ha. unfold put, SetNestedField. destruct (set_nested [] path v obj) eqn:Hs; [|done..]. by eapply set_nested_apart. Qed.
Lemma set_nested_here seen path v obj obj' :
  set_nested seen path v obj = Ok obj' → is_object obj = true → path ≠ [] → nested path obj' = Some v.
Proof.
  revert seen obj obj'. induction path as [|k path IH]; intros seen obj obj' Hs Ho Hne; [done|].
  destruct obj as [| | | | |fields]; [done..|]. destruct path as [|k2 path].
  { injection Hs as <-. by rewrite nested_cons, field_with_key, String.eqb_refl. }
  rewrite set_nested_deep in Hs. destruct (field k (JObj fields)) as [[| | | | |ifields]|]; try done;
    apply res_bind_Ok_inv in Hs as (inner & Hi & [= <-]); rewrite nested_cons, field_with_key, String.eqb_refl; by apply (IH _ _ _ Hi).
Qed.
Lemma remove_apart path obj q : apart path q = true → nested q (RemoveNestedField path obj) = nested q obj.
Proof.
  revert obj q. induction path as [|k path IH]; intros obj q Ha; [done|].
  destruct obj as [| | | | |fields]; [done..|]. destruct q as [|k' q]; [done|]. cbn [apart] in Ha. destruct path as [|k2 path].
  - cbn [RemoveNestedField]. rewrite !nested_cons, field_without_key. by destruct (String.eqb k k').
  - change (RemoveNestedField (k :: k2 :: path) (JObj fields)) with
      (match field k (JObj fields) with
       | Some (JObj inner) => JObj (with_key k (RemoveNestedField (k2 :: path) (JObj inner)) fields)
       | _ => JObj fields
       end).
    destruct (field k (JObj fields)) as [[| | | | |ifields]|] eqn:Hf; try done.
    rewrite !nested_cons, field_with_key. destruct (String.eqb_spec k k') as [->|]; [|done]. rewrite Hf. by apply (IH (JObj ifields)).
Qed.

(** The metadata of an object is a map. *)
Definition has_metadata (obj : json) : Prop := is_Some (nested_map ["metadata"] obj).
Lemma has_metadata_object obj : has_metadata obj → is_object obj = true.
Proof. intros [m [Hm _]%nested_map_some]. by destruct obj. Qed.
Lemma put_key_here k v obj : has_metadata obj → nested ["metadata"; k] (put ["metadata"; k] v obj) = Some v ∧ has_metadata (put ["metadata"; k] v obj).
Proof.
  intros [m Hm]. split; [by apply (put_metadata k v obj m)|]. apply nested_map_some in Hm as [Hm [mf ->]].
  destruct obj as [| | | | |fields]; [done..|]. rewrite nested_cons in Hm.
  destruct (field "metadata" (JObj fields)) as [m|] eqn:Hf; cbn in Hm; [|done]. injection Hm as ->.
  unfold put, SetNestedField. cbn [set_nested]. rewrite Hf. cbn [res_bind]. unfold has_metadata, nested_map.
  rewrite nested_cons, field_with_key, String.eqb_refl. by eexists.
Qed.
Lemma remove_key_metadata k obj : has_metadata obj → has_metadata (RemoveNestedField ["metadata"; k] obj) ∧
  nested ["metadata"; k] (RemoveNestedField ["metadata"; k] obj) = None.
Proof.
  intros [m [Hm [mf ->]]%nested_map_some]. destruct obj as [| | | | |fields]; [done..|]. rewrite nested_cons in Hm.
  destruct (field "metadata" (JObj fields)) as [m|] eqn:Hf; cbn in Hm; [|done]. injection Hm as ->.
  cbn [RemoveNestedField]. rewrite Hf. unfold has_metadata, nested_map. rewrite !nested_cons, field_with_key, String.eqb_refl.
  cbn [mbind option_bind]. split; [by eexists|]. by rewrite nested_cons, field_without_key, String.eqb_refl.
Qed.
Lemma has_metadata_nested obj obj' : nested ["metadata"] obj' = nested ["metadata"] obj → has_metadata obj → has_metadata obj'.
Proof. unfold has_metadata, nested_map. by intros ->. Qed.

(** ** Annotations and finalizers *)
Definition annotations_path := ["metadata"; "annotations"].
Definition finalizers_path := ["metadata"; "finalizers"].
Lemma string_values (l : list (string * string)) : omap string_value (map (λ kv, (kv.1, JStr kv.2)) l) = l.
Proof. induction l as [|[k v] l IH]; [done|]. cbn. by rewrite IH. Qed.
Lemma GetAnnotations_set `{MO : MapOrder} annotations obj :
  has_metadata obj → GetAnnotations (SetAnnotations annotations obj) = annotations ∧ has_metadata (SetAnnotations annotations obj).
Proof.
  intros Hm. unfold SetAnnotations. edestruct (put_key_here "annotations") as [Hn Hm']; [done|]. split; [|done].
  unfold GetAnnotations. rewrite Hn, string_values. rewrite length_map. rewrite bool_decide_eq_true_2 by done.
  rewrite <-(list_to_map_to_list annotations) at 2. apply list_to_map_proper; [apply NoDup_map_range|apply map_range_perm].
Qed.
Lemma GetAnnotations_nested obj obj' : nested annotations_path obj' = nested annotations_path obj → GetAnnotations obj' = GetAnnotations obj.
Proof. unfold GetAnnotations, annotations_path. by intros ->. Qed.
Lemma GetFinalizers_nested obj obj' : nested finalizers_path obj' = nested finalizers_path obj → GetFinalizers obj' = GetFinalizers obj.
Proof. unfold GetFinalizers, finalizers_path. by intros ->. Qed.
Lemma GetFinalizers_set finalizers obj :
  has_metadata obj → GetFinalizers (SetFinalizers finalizers obj) = finalizers ∧ has_metadata (SetFinalizers finalizers obj).
Proof.
  intros Hm. destruct finalizers as [|f l].
  - unfold SetFinalizers. destruct (remove_key_metadata "finalizers" obj Hm) as [Hm' Hn]. split; [|done]. unfold GetFinalizers. by rewrite Hn.
  - cbn [SetFinalizers]. edestruct (put_key_here "finalizers") as [Hn Hm']; [done|]. split; [|done].
    unfold GetFinalizers. rewrite Hn. assert (∀ l : list string, mapM (λ v, match v with JStr s => Some s | _ => None end) (map JStr l) = Some l) as ->.
    { clear. induction l as [|s l IH]; [done|]. cbn. change (mapM _ (map JStr l)) with (mapM (λ v : json, match v with JStr s => Some s | _ => None end) (map JStr l)). by rewrite IH. }
    done.
Qed.

(** ** What jq does with the two paths

    The text of a path, and jq's documented behaviour for it: the value there,
    null or an error when there is none, and the assignment of a value; a list
    of JSON values can be written as JSON. *)
Definition path_query (path : list string) : string := "." +:+ join "." path.
Definition notebook_paths : list (list string) := [containers_path; volumes_path].
Class JqPathLaws `{JQ : GoJq, JT : JsonText} : Prop := {
  jq_path_value path obj v : path ∈ notebook_paths → nested path obj = Some v → gojq_run obj (path_query path) = JqValue v;
  jq_path_none path obj : path ∈ notebook_paths → nested path obj = None →
    gojq_run obj (path_query path) = JqValue JNull ∨ ∃ e, gojq_run obj (path_query path) = JqRunError e;
  jq_path_assign path v text obj obj' : path ∈ notebook_paths → is_object obj = true → json_Marshal v = Ok text →
    SetNestedField path v obj = Ok obj' → gojq_run obj (path_query path +:+ " = " +:+ text) = JqValue obj';
  json_Marshal_array l : ∃ text, json_Marshal (JArr l) = Ok text;
}.

Section Patch.
Context `{JQ : GoJq, JT : JsonText, GT : GoTypes, MO : MapOrder, JL : !JqPathLaws}.

Lemma query_slice_ok path obj l : path ∈ notebook_paths → jq_Query_array obj (path_query path) = Ok l ↔ nested_slice path obj = Some l.
Proof using JL.
  intros Hp. unfold jq_Query_array, jq_Query, nested_slice. destruct (nested path obj) as [v|] eqn:Hn.
  - rewrite (jq_path_value path obj v Hp Hn). destruct v; simpl; try done. split; by intros [= ->].
  - by destruct (jq_path_none path obj Hp Hn) as [->|[e ->]].
Qed.
Lemma query_not_slice path obj : path ∈ notebook_paths → nested_slice path obj = None → ∃ err, jq_Query_array obj (path_query path) = Err err.
Proof using JL.
  intros Hp Hs. destruct (jq_Query_array obj (path_query path)) as [l|err|p] eqn:Hq; [|by eexists|].
  - apply query_slice_ok in Hq; [congruence|done].
  - exfalso. revert Hq. unfold jq_Query_array, jq_Query. destruct (gojq_run obj (path_query path)) as [| | |[]]; done.
Qed.
Lemma listed_slice path obj : path ∈ notebook_paths → listed (path_query path) obj = default [] (nested_slice path obj).
Proof using JL.
  intros Hp. unfold listed. destruct (nested_slice path obj) as [l|] eqn:Hs.
  - by rewrite (proj2 (query_slice_ok path obj l Hp) Hs).
  - by destruct (query_not_slice path obj Hp Hs) as [err ->].
Qed.
(** An assignment of a list where there is one. *)
Lemma set_list_puts path what obj l0 l :
  path ∈ notebook_paths → nested_slice path obj = Some l0 → set_list (path_query path) what obj l = Ok (put path (JArr l) obj).
Proof using JL.
  intros Hp Hs%nested_slice_some. destruct (json_Marshal_array l) as [text Ht]. unfold set_list. rewrite Ht. cbn [res_map_err res_bind].
  assert (path ≠ [] ∧ is_object obj = true) as [Hne Ho].
  { unfold notebook_paths in Hp. rewrite !elem_of_cons, elem_of_nil in Hp. destruct Hp as [->|[->|[]]]; by destruct obj. }
  destruct (set_nested_spec path [] (JArr l) obj (JArr l0) Hne Hs) as (obj' & Hset & _ & _ & _).
  unfold put, SetNestedField. rewrite Hset. unfold Transform. rewrite (jq_path_assign path (JArr l) text obj obj' Hp Ho Ht Hset).
  apply set_nested_object in Hset. rewrite Ho in Hset. by destruct obj'.
Qed.
End Patch.

Section Stripping.
Lemma named_put k v raw p : k ≠ p → nested [p] (put [k] v raw) = nested [p] raw.
Proof. intros Hk. apply put_apart. cbn. by rewrite (proj2 (String.eqb_neq k p) Hk). Qed.
Lemma str_at_put k v raw p : k ≠ p → str_at p (put [k] v raw) = str_at p raw.
Proof. intros Hk. unfold str_at. by rewrite named_put. Qed.
Lemma put_field k v raw : is_object raw = true → nested [k] (put [k] v raw) = Some v.
Proof. intros Ho. unfold put, SetNestedField. destruct raw as [| | | | |fields]; [done..|]. cbn [set_nested]. by rewrite nested_cons, field_with_key, String.eqb_refl. Qed.
Lemma str_at_put_same k s raw : is_object raw = true → str_at k (put [k] (JStr s) raw) = s.
Proof. intros Ho. unfold str_at. by rewrite put_field. Qed.
Lemma is_container_strip name raw : is_container name (strip_container raw) = is_container name raw.
Proof.
  unfold strip_container. destruct (nested_slice ["env"] raw); [|done]. unfold is_container. by rewrite is_object_put, str_at_put.
Qed.
Lemma strip_variable_free envRaw : tornado_variable (strip_variable envRaw) = false.
Proof.
  unfold strip_variable. destruct (tornado_variable envRaw) eqn:Ht; [|done]. unfold tornado_variable in *.
  apply andb_true_iff in Ht as [[Ho Hname]%andb_true_iff _]. rewrite str_at_put_same by done.
  apply andb_false_iff. right. apply trim_free, removed_free.
Qed.
Lemma strip_variables_free l : existsb tornado_variable (map strip_variable l) = false.
Proof. induction l as [|v l IH]; [done|]. cbn. by rewrite strip_variable_free. Qed.
Lemma nested_slice_put_env l raw l0 : nested_slice ["env"] raw = Some l0 → nested_slice ["env"] (put ["env"] (JArr l) raw) = Some l.
Proof. intros Hs%nested_slice_some. unfold nested_slice. rewrite put_field; [done|]. by destruct raw. Qed.
Lemma strip_container_free raw : tornado_container (strip_container raw) = false.
Proof.
  unfold strip_container, tornado_container. destruct (nested_slice ["env"] raw) as [l|] eqn:Hs; [|by rewrite Hs].
  rewrite (nested_slice_put_env _ _ _ Hs). apply strip_variables_free.
Qed.
Lemma stripped_free containers : HasTornadoSettings (map strip_container containers) = false.
Proof. unfold HasTornadoSettings. induction containers as [|raw l IH]; [done|]. cbn. by rewrite strip_container_free. Qed.
Lemma strip_clean containers : HasTornadoSettings containers = false → map strip_container containers = containers.
Proof.
  unfold HasTornadoSettings. induction containers as [|raw l IH]; [done|]. cbn. intros [Hr Hl]%orb_false_iff. rewrite IH by done. f_equal.
  unfold strip_container. unfold tornado_container in Hr. destruct (nested_slice ["env"] raw) as [vars|] eqn:Hs; [|done].
  apply (put_same ["env"] _ raw (JArr vars)); [done|by apply nested_slice_some|]. f_equal. clear Hs.
  induction vars as [|v vars IHv]; [done|]. cbn in Hr |- *. apply orb_false_iff in Hr as [Hv Hr]. rewrite IHv by done.
  unfold strip_variable. by rewrite Hv.
Qed.
Lemma existsb_strip name containers : existsb (is_container name) (map strip_container containers) = existsb (is_container name) containers.
Proof. induction containers as [|raw l IH]; [done|]. cbn. by rewrite is_container_strip, IH. Qed.
Lemma existsb_filter_none {A} (f : A → bool) l : existsb f (List.filter (λ x, negb (f x)) l) = false.
Proof. induction l as [|x l IH]; [done|]. cbn. destruct (f x) eqn:Hx; cbn; [done|]. by rewrite Hx. Qed.
End Stripping.

(** ** The patched notebook *)
Definition patched_annotations (nb : json) : gmap string string :=
  delete annotationOAuthLogoutURL (delete AnnotationInjectOAuth (<[AnnotationInjectAuth := "true"]> (GetAnnotations nb))).
Definition patched_containers (containers : list json) : list json :=
  map strip_container (List.filter (λ raw, negb (is_container ContainerOAuthProxy raw)) containers).
Definition patched_volumes (volumes : list json) : list json := List.filter (λ raw, negb (is_oauth_volume raw)) volumes.
Definition patched_finalizers (nb : json) : list string :=
  List.filter (λ f, negb (String.eqb f finalizerOAuthClient)) (GetFinalizers nb).
(** A path the patch leaves alone. *)
Definition elsewhere (q : list string) : bool :=
  apart annotations_path q && apart finalizers_path q && apart containers_path q && apart volumes_path q.
Record patched_as (nb : json) (containers volumes : list json) (nb' : json) : Prop := {
  pa_annotations : GetAnnotations nb' = patched_annotations nb;
  pa_finalizers : GetFinalizers nb' = patched_finalizers nb;
  pa_containers : nested_slice containers_path nb' = Some (patched_containers containers);
  pa_volumes : nested_slice volumes_path nb' = Some (patched_volumes volumes);
  pa_elsewhere q : elsewhere q = true → nested q nb' = nested q nb;
}.

Section PatchedNotebook.
Context `{JQ : GoJq, JT : JsonText, GT : GoTypes, MO : MapOrder, JL : !JqPathLaws}.

Lemma SetAnnotations_apart annotations obj q : apart annotations_path q = true → nested q (SetAnnotations annotations obj) = nested q obj.
Proof. apply put_apart. Qed.
Lemma removeAnnotation_spec nb key :
  has_metadata nb →
  GetAnnotations (removeAnnotation nb key) = delete key (GetAnnotations nb) ∧ has_metadata (removeAnnotation nb key) ∧
  ∀ q, apart annotations_path q = true → nested q (removeAnnotation nb key) = nested q nb.
Proof.
  intros Hm. unfold removeAnnotation. destruct (decide (GetAnnotations nb = ∅)) as [->|_]; [by rewrite delete_empty|].
  destruct (GetAnnotations_set (delete key (GetAnnotations nb)) nb Hm) as [Ha Hm']. split_and!; [done..|].
  intros q. apply SetAnnotations_apart.
Qed.
Lemma annotated_spec nb :
  has_metadata nb →
  let nb' := removeAnnotation (removeAnnotation (addInjectAuthAnnotation nb) AnnotationInjectOAuth) annotationOAuthLogoutURL in
  GetAnnotations nb' = patched_annotations nb ∧ has_metadata nb' ∧ ∀ q, apart annotations_path q = true → nested q nb' = nested q nb.
Proof.
  intros Hm. destruct (GetAnnotations_set (<[AnnotationInjectAuth := "true"]> (GetAnnotations nb)) nb Hm) as [Ha1 Hm1].
  destruct (removeAnnotation_spec (addInjectAuthAnnotation nb) AnnotationInjectOAuth Hm1) as (Ha2 & Hm2 & Hq2).
  destruct (removeAnnotation_spec _ annotationOAuthLogoutURL Hm2) as (Ha3 & Hm3 & Hq3). split_and!; [|done|].
  - rewrite Ha3, Ha2. unfold addInjectAuthAnnotation. by rewrite Ha1.
  - intros q Hq. rewrite Hq3, Hq2 by done. by apply SetAnnotations_apart.
Qed.
Lemma removeOAuthFinalizer_spec nb :
  has_metadata nb →
  GetFinalizers (removeOAuthFinalizer nb) = patched_finalizers nb ∧
  ∀ q, apart finalizers_path q = true → nested q (removeOAuthFinalizer nb) = nested q nb.
Proof.
  intros Hm. unfold removeOAuthFinalizer, patched_finalizers. destruct (GetFinalizers nb) as [|f l] eqn:Hf; [by rewrite Hf|].
  destruct (GetFinalizers_set (List.filter (λ f, negb (String.eqb f finalizerOAuthClient)) (f :: l)) nb Hm) as [Hg _]. split; [done|].
  intros q Hq. destruct (List.filter _ _); [by apply remove_apart|by apply put_apart].
Qed.
Lemma in_containers : containers_path ∈ notebook_paths. Proof. by left. Qed.
Lemma in_volumes : volumes_path ∈ notebook_paths. Proof. right. by left. Qed.
Lemma query_list_slice path what nb l :
  path ∈ notebook_paths → nested_slice path nb = Some l → query_list (path_query path) what nb = Ok l.
Proof using JL. intros Hp Hs. unfold query_list. by rewrite (proj2 (query_slice_ok path nb l Hp) Hs). Qed.
Lemma query_list_none path what nb :
  path ∈ notebook_paths → nested_slice path nb = None → ∃ err, query_list (path_query path) what nb = Err err.
Proof using JL. intros Hp Hs. unfold query_list. destruct (query_not_slice path nb Hp Hs) as [err ->]. by eexists. Qed.
Lemma nested_slice_put path l obj l0 : path ≠ [] → nested_slice path obj = Some l0 → nested_slice path (put path (JArr l) obj) = Some l.
Proof. intros Hp Hs%nested_slice_some. unfold nested_slice. by rewrite (nested_put path (JArr l) obj (JArr l0)). Qed.
Lemma nested_slice_frame path nb nb' : nested path nb' = nested path nb → nested_slice path nb' = nested_slice path nb.
Proof. apply nested_slice_nested. Qed.

(** The three changes of lists, in the terms of [put]. *)
Lemma drop_containers nb cs :
  nested_slice containers_path nb = Some cs →
  removeOAuthProxyContainer nb = Ok (put containers_path (JArr (List.filter (λ raw, negb (is_container ContainerOAuthProxy raw)) cs)) nb).
Proof using JL.
  intros Hc. unfold removeOAuthProxyContainer. change containers_query with (path_query containers_path). 
  rewrite (query_list_slice _ "containers" nb cs in_containers Hc). cbn [res_bind].
  by apply (set_list_puts containers_path "containers" nb cs _ in_containers).
Qed.
Lemma drop_volumes nb vs :
  nested_slice volumes_path nb = Some vs → removeOAuthVolumes nb = Ok (put volumes_path (JArr (patched_volumes vs)) nb).
Proof using JL.
  intros Hv. unfold removeOAuthVolumes. change volumes_query with (path_query volumes_path). 
  rewrite (query_list_slice _ "volumes" nb vs in_volumes Hv). cbn [res_bind].
  by apply (set_list_puts volumes_path "volumes" nb vs _ in_volumes).
Qed.
Lemma strip_settings nb cs :
  nested_slice containers_path nb = Some cs →
  stripTornadoSettings nb = Ok (put containers_path (JArr (map strip_container cs)) nb).
Proof using JL.
  intros Hc. unfold stripTornadoSettings. change containers_query with (path_query containers_path). 
  rewrite (query_list_slice _ "containers" nb cs in_containers Hc). cbn [res_bind].
  destruct (HasTornadoSettings cs) eqn:Ht; cbn [negb].
  - by apply (set_list_puts containers_path "containers" nb cs _ in_containers).
  - rewrite strip_clean by done. f_equal. symmetry. by apply (put_same containers_path _ nb (JArr cs)); [|apply nested_slice_some|].
Qed.

Lemma applyAllPatches_spec nb :
  has_metadata nb →
  match nested_slice containers_path nb, nested_slice volumes_path nb with
  | Some containers, Some volumes => ∃ nb', applyAllPatches nb = Ok nb' ∧ patched_as nb containers volumes nb'
  | _, _ => ∃ err, applyAllPatches nb = Err err
  end.
Proof using JL.
  intros Hm. destruct (annotated_spec nb Hm) as (Ha & Hm0 & Hq0). unfold applyAllPatches. set (n0 := removeAnnotation _ annotationOAuthLogoutURL) in *.
  rewrite <-(nested_slice_frame containers_path nb n0) by (by apply Hq0). rewrite <-(nested_slice_frame volumes_path nb n0) by (by apply Hq0).
  destruct (nested_slice containers_path n0) as [cs|] eqn:Hcs.
  2: { destruct (query_list_none _ "containers" n0 in_containers Hcs) as [err Hq]. unfold removeOAuthProxyContainer.
       change containers_query with (path_query containers_path). rewrite Hq. by eexists. }
  rewrite (drop_containers n0 cs Hcs). cbn [res_map_err res_bind]. set (cs1 := List.filter _ cs). set (n1 := put containers_path (JArr cs1) n0).
  assert (∀ q, apart containers_path q = true → nested q n1 = nested q n0) as Hq1 by (intros q; apply put_apart).
  assert (has_metadata n1) as Hm1 by (apply (has_metadata_nested n0); [by apply Hq1|done]).
  destruct (removeOAuthFinalizer_spec n1 Hm1) as [Hf Hq2]. set (n2 := removeOAuthFinalizer n1) in *.
  destruct (nested_slice volumes_path n0) as [vs|] eqn:Hvs.
  2: { destruct (query_list_none volumes_path "volumes" n2 in_volumes) as [err Hq]; [rewrite <-Hvs; apply nested_slice_frame; by rewrite Hq2, Hq1|].
       unfold removeOAuthVolumes. change volumes_query with (path_query volumes_path). rewrite Hq. by eexists. }
  rewrite (drop_volumes n2 vs) by (rewrite <-Hvs; apply nested_slice_frame; by rewrite Hq2, Hq1). cbn [res_map_err res_bind].
  set (n3 := put volumes_path _ n2). assert (∀ q, apart volumes_path q = true → nested q n3 = nested q n2) as Hq3 by (intros q; apply put_apart).
  assert (nested_slice containers_path n3 = Some cs1) as Hc3.
  { rewrite (nested_slice_frame _ n2 n3), (nested_slice_frame _ n1 n2) by auto. by apply (nested_slice_put containers_path cs1 n0 cs). }
  rewrite (strip_settings n3 cs1 Hc3). cbn [res_map_err]. eexists. split; [reflexivity|]. set (n4 := put containers_path _ n3).
  assert (∀ q, apart containers_path q = true → nested q n4 = nested q n3) as Hq4 by (intros q; apply put_apart). split.
  - rewrite <-Ha. apply GetAnnotations_nested. by rewrite Hq4, Hq3, Hq2, Hq1.
  - rewrite (GetFinalizers_nested n2 n4), Hf by (by rewrite Hq4, Hq3). unfold patched_finalizers. f_equal. apply GetFinalizers_nested. by rewrite Hq1, Hq0.
  - by apply (nested_slice_put containers_path _ n3 cs1).
  - rewrite (nested_slice_frame _ n3 n4) by auto. apply (nested_slice_put volumes_path _ n2 vs); [done|].
    rewrite <-Hvs. apply nested_slice_frame. by rewrite Hq2, Hq1.
  - intros q [[[Hqa Hqf]%andb_true_iff Hqc]%andb_true_iff Hqv]%andb_true_iff. by rewrite Hq4, Hq3, Hq2, Hq1, Hq0.
Qed.

Lemma patched_annotations_keys nb :
  at_key (patched_annotations nb) AnnotationInjectAuth = "true" ∧ patched_annotations nb !! AnnotationInjectOAuth = None ∧
  patched_annotations nb !! annotationOAuthLogoutURL = None.
Proof.
  unfold at_key, patched_annotations. split_and!.
  - rewrite lookup_delete_ne, lookup_delete_ne, lookup_insert_eq by done. done.
  - rewrite lookup_delete_ne by done. apply lookup_delete_eq.
  - apply lookup_delete_eq.
Qed.
Lemma patched_needs_nothing nb containers volumes nb' : patched_as nb containers volumes nb' → needsAuthModelPatch nb' = false.
Proof using JL.
  intros [Ha Hf Hc Hv _]. unfold needsAuthModelPatch, hasInjectAuthAnnotation, hasOAuthAnnotation, hasOAuthProxyContainer, hasOAuthFinalizer,
    hasOAuthVolumes, hasTornadoSettings. change containers_query with (path_query containers_path). change volumes_query with (path_query volumes_path).
  rewrite !listed_slice by (apply in_containers || apply in_volumes). rewrite Hc, Hv, Ha, Hf. cbn [from_option id].
  destruct (patched_annotations_keys nb) as (-> & -> & ->). unfold patched_containers. rewrite existsb_strip, existsb_filter_none, stripped_free.
  unfold patched_volumes. rewrite existsb_filter_none. rewrite (bool_decide_eq_false_2 (_ ∈ _)); [done|].
  unfold patched_finalizers. intros [Hin Hb]%list_elem_of_In%filter_In. by rewrite String.eqb_refl in Hb.
Qed.
End PatchedNotebook.

(** ** The renamed container *)
Lemma rename_first_spec crName raws c :
  omap workload_container raws = [c] →
  ∃ pre raw post, raws = (pre ++ raw :: post)%list ∧ workload_container raw = Some c ∧ omap workload_container pre = [] ∧
    omap workload_container post = [] ∧ rename_first crName raws = (nc_Name c, pre ++ put ["name"] (JStr crName) raw :: post)%list.
Proof.
  induction raws as [|raw raws IH]; [done|]. cbn. destruct (workload_container raw) as [c'|] eqn:Hw.
  - intros [= -> Hpost]. by exists [], raw, raws.
  - intros Hc. destruct (IH Hc) as (pre & raw' & post & -> & Hr & Hpre & Hpost & Hre). exists (raw :: pre), raw', post.
    split_and!; [done|done|cbn; by rewrite Hw|done|]. by rewrite Hre.
Qed.
Lemma renamed_workload crName raw c : workload_container raw = Some c →
  workload_container (put ["name"] (JStr crName) raw) = None ∨
  ∃ c', workload_container (put ["name"] (JStr crName) raw) = Some c' ∧ nc_Name c' = crName.
Proof.
  unfold workload_container. rewrite is_object_put. destruct (is_object raw) eqn:Ho; [|done]. intros _. cbn [negb].
  rewrite str_at_put_same by done. case_match; [by left|right]. by eexists.
Qed.

(** ** A concrete jq *)
Module WorkbenchRun.
Import (hints) ClusterRun.
Definition at_path (path : list string) (obj : json) (query : string) : option jq_first :=
  if String.eqb query (path_query path) then Some (JqValue (default JNull (nested path obj)))
  else if has_prefix (path_query path +:+ " = ") query then
    match json_Parse (drop_bytes (String.length (path_query path +:+ " = ")) query) with
    | Ok v => match SetNestedField path v obj with Ok obj' => Some (JqValue obj') | _ => None end
    | _ => None
    end
  else None.
#[export] Instance notebook_jq : GoJq := {|
  gojq_run obj query :=
    match at_path containers_path obj query, at_path volumes_path obj query with
    | Some r, _ | None, Some r => r
    | None, None => JqRunError (EString "unsupported")
    end;
|}.
Lemma notebook_jq_laws : JqPathLaws (JQ := notebook_jq).
Proof.
  assert (∀ path obj, path ∈ notebook_paths → gojq_run obj (path_query path) = JqValue (default JNull (nested path obj))) as Hread.
  { intros path obj Hp. unfold notebook_paths in Hp. rewrite !elem_of_cons, elem_of_nil in Hp. by destruct Hp as [->|[->|[]]]. }
  split.
  - intros path obj v Hp Hn. by rewrite Hread, Hn.
  - intros path obj Hp Hn. left. by rewrite Hread, Hn.
  - intros path v text obj obj' Hp Ho [= <-] Hs.
    assert (at_path path obj (path_query path +:+ " = " +:+ ClusterRun.bits (encode (ClusterRun.json_tree v))) = Some (JqValue obj')) as Ha.
    { unfold at_path. destruct (json_MarshalIndent_parse v) as (s & [= <-] & Hparse). set (s := ClusterRun.bits _) in *.
      rewrite (proj2 (String.eqb_neq _ _)).
      2: { intros He%(f_equal String.length). rewrite !app_length_string in He. cbn in He. lia. }
      rewrite string_app_assoc, has_prefix_app, drop_bytes_app, Hparse. by rewrite Hs. }
    unfold notebook_paths in Hp. rewrite !elem_of_cons, elem_of_nil in Hp. cbn [gojq_run notebook_jq].
    destruct Hp as [->|[->|[]]]; [by rewrite Ha|].
    replace (at_path containers_path _ _) with (@None jq_first) by done. by rewrite Ha.
  - intros l. by eexists.
Qed.
(** A notebook of 2.x: two containers, the OAuth volumes beside another one. *)
Definition args := "--a=1 --ServerApp.tornado_settings={'headers': {'X': 'y z'}} --b=2".
Definition legacy : json :=
  JObj [("metadata", JObj [("name", JStr "nb"); ("namespace", JStr "team"); ("finalizers", JArr [JStr finalizerOAuthClient]);
           ("annotations", JObj [(AnnotationInjectOAuth, JStr "true"); (annotationLastSizeSelection, JStr "Small")])]);
        ("spec", JObj [("template", JObj [("spec", JObj [
           ("containers", JArr [JObj [("name", JStr "main"); ("image", JStr "img");
                                      ("env", JArr [JObj [("name", JStr EnvNotebookArgs); ("value", JStr args)]])];
                                JObj [("name", JStr "oauth-proxy"); ("image", JStr "quay.io/ose-oauth-proxy-rhel9:1")]]);
           ("volumes", JArr [JObj [("name", JStr "oauth-config")]; JObj [("name", JStr "data")]])])])])].
End WorkbenchRun.
Import (hints) ClusterRun WorkbenchRun.

(** ** Properties *)
Module WorkbenchesSpec.
(** C22: The patch of the auth model succeeds exactly on notebooks whose
    containers and volumes are lists; the patched notebook has the new
    annotation and neither old one, no OAuth container, volume or finalizer
    and no tornado setting, keeps everything else as it was, and needs no
    further patch. *)
Theorem patched_notebook_exact `{JQ : GoJq, JT : JsonText, GT : GoTypes, MO : MapOrder, JL : !JqPathLaws} nb :
  has_metadata nb →
  match nested_slice containers_path nb, nested_slice volumes_path nb with
  | Some containers, Some volumes =>
      ∃ nb', applyAllPatches nb = Ok nb' ∧ patched_as nb containers volumes nb' ∧ needsAuthModelPatch nb' = false
  | _, _ => ∃ err, applyAllPatches nb = Err err
  end.
Proof.
  intros Hm. pose proof (applyAllPatches_spec nb Hm) as H. destruct (nested_slice containers_path nb) as [cs|]; [|done].
  destruct (nested_slice volumes_path nb) as [vs|]; [|done]. destruct H as (nb' & Hok & Hp). exists nb'. split_and!; [done..|].
  by apply (patched_needs_nothing nb cs vs).
Qed.
Lemma patched_notebook_exact_witness :
  ∃ nb', applyAllPatches WorkbenchRun.legacy = Ok nb' ∧ needsAuthModelPatch WorkbenchRun.legacy = true ∧ needsAuthModelPatch nb' = false ∧
    nested_slice volumes_path nb' = Some [JObj [("name", JStr "data")]] ∧ at_key (GetAnnotations nb') annotationLastSizeSelection = "Small".
Proof.
  destruct (patched_notebook_exact (JL := WorkbenchRun.notebook_jq_laws) WorkbenchRun.legacy) as (nb' & Hok & Hp & Hn); [by eexists|].
  exists nb'. split_and!; [done|by vm_compute|done|apply Hp|]. rewrite (pa_annotations _ _ _ _ Hp). reflexivity.
Defined.

(** C37: The loop that removes the tornado settings ends for every text, by
    taking out one argument after another, each with the whitespace before it
    and its whole value; nothing of the prefix is left, and a text without it
    stays as it is. *)
Theorem tornado_settings_removed s :
  (∀ fuel, (String.length s < fuel)%nat → remove_loop fuel s = Some (removeTornadoArg s)) ∧
  rtc takes_out s (removeTornadoArg s) ∧ str_contains TornadoSettingsPrefix (removeTornadoArg s) = false ∧
  (str_contains TornadoSettingsPrefix s = false → removeTornadoArg s = s).
Proof.
  destruct (remove_loop_ends (Datatypes.S (String.length s)) s) as (s' & He & Hr & Hno); [lia|].
  assert (removeTornadoArg s = s') as -> by (unfold removeTornadoArg; by rewrite He). split_and!; [|done..|].
  - intros fuel Hf. apply (remove_loop_more _ fuel) in He; [done|lia].
  - intros Hs%remove_one_none. cbn [remove_loop] in He. rewrite Hs in He. by injection He.
Qed.

(** The check before a cleanup passes exactly for notebooks that classify
    as MIGRATED, have the new annotation and no tornado setting. *)
Theorem migration_check_exact `{JQ : GoJq} nb :
  ((CheckMigrationState nb).1 = true ↔
   (ClassifyNotebook nb).1 = StatusMigrated ∧ hasInjectAuthAnnotation nb = true ∧ hasTornadoSettings nb = false) ∧
  ((CheckMigrationState nb).1 = true ↔ (CheckMigrationState nb).2 = []).
Proof.
  unfold CheckMigrationState, ClassifyNotebook, hasInjectAuthAnnotation, hasTornadoSettings, listed. split.
  - destruct (jq_Query_array nb containers_query) as [cs|err|p]; cbn [fst]; [|naive_solver..].
    rewrite bool_decide_eq_true. destruct (existsb (is_container ContainerKubeRBACProxy) cs), (existsb (is_container ContainerOAuthProxy) cs),
      (String.eqb (at_key _ AnnotationInjectAuth) "true"), (HasTornadoSettings cs), (GetAnnotations nb !! AnnotationInjectOAuth); cbn; naive_solver.
  - destruct (jq_Query_array nb containers_query) as [cs|err|p]; cbn [fst snd]; [by rewrite bool_decide_eq_true|..];
      (split; [done|]); by intros [_ ?]%app_eq_nil.
Qed.

(** A notebook with one workload container gets it renamed after itself:
    no other field of it and no other container changes, and the notebook has
    no mismatch afterwards. *)
Theorem fixed_container_name `{JQ : GoJq, JT : JsonText, GT : GoTypes, JL : !JqPathLaws} nb containers c :
  nested_slice containers_path nb = Some containers → omap workload_container containers = [c] →
  ∃ pre raw post nb',
    containers = (pre ++ raw :: post)%list ∧ workload_container raw = Some c ∧ fixContainerName nb = Ok (nc_Name c, nb') ∧
    nested_slice containers_path nb' = Some (pre ++ put ["name"] (JStr (GetName nb)) raw :: post)%list ∧
    hasContainerNameMismatch nb' = Ok false ∧ ∀ q, apart containers_path q = true → nested q nb' = nested q nb.
Proof.
  intros Hs Hw. destruct (rename_first_spec (GetName nb) containers c Hw) as (pre & raw & post & -> & Hr & Hpre & Hpost & Hre).
  set (nb' := put containers_path (JArr (pre ++ put ["name"] (JStr (GetName nb)) raw :: post)%list) nb).
  assert (∀ q, apart containers_path q = true → nested q nb' = nested q nb) as Hq by (intros q; apply put_apart).
  assert (nested_slice containers_path nb' = Some (pre ++ put ["name"] (JStr (GetName nb)) raw :: post)%list) as Hs'
    by (by eapply nested_slice_put). exists pre, raw, post, nb'. split_and!; [done|done| |done| |done].
  - unfold fixContainerName, extractWorkloadContainers, ExtractWorkloadContainers. change containers_query with (path_query containers_path).
    change ".spec.template.spec.containers" with (path_query containers_path).
    rewrite (proj2 (query_slice_ok containers_path nb _ in_containers) Hs). cbn [res_map_err res_bind]. rewrite Hw. cbn [length Nat.eqb negb].
    rewrite (query_list_slice containers_path "containers" nb _ in_containers Hs). cbn [res_bind]. rewrite Hre.
    by rewrite (set_list_puts containers_path "containers" nb _ _ in_containers Hs).
  - unfold hasContainerNameMismatch. destruct (negb (hasDashboardAnnotation nb')); [done|].
    unfold extractWorkloadContainers, ExtractWorkloadContainers. change ".spec.template.spec.containers" with (path_query containers_path).
    rewrite (proj2 (query_slice_ok containers_path nb' _ in_containers) Hs'). cbn [res_map_err res_bind].
    assert (GetName nb' = GetName nb) as -> by (rewrite !GetName_nested; unfold nested_string; by rewrite (Hq ["metadata"; "name"])).
    rewrite omap_app, Hpre, app_nil_l. cbn [omap list_omap]. fold (omap workload_container post). rewrite Hpost.
    destruct (renamed_workload (GetName nb) raw c Hr) as [->|(c' & -> & <-)]; [done|]. by rewrite String.eqb_refl.
Qed.
Lemma fixed_container_name_witness :
  ∃ nb', fixContainerName WorkbenchRun.legacy = Ok ("main", nb') ∧ hasContainerNameMismatch WorkbenchRun.legacy = Ok true ∧
    hasContainerNameMismatch nb' = Ok false.
Proof.
  destruct (fixed_container_name (JL := WorkbenchRun.notebook_jq_laws) WorkbenchRun.legacy
    (default [] (nested_slice containers_path WorkbenchRun.legacy)) (mkNC "main" "img")) as (pre & raw & post & nb' & _ & _ & Hf & _ & Hm & _);
    [reflexivity..|]. exists nb'. split_and!; [exact Hf|by vm_compute|exact Hm].
Defined.
End WorkbenchesSpec.
