(* ===== verification/WorkbenchSteps.v ===== *)
(** * WorkbenchSteps: the tasks of pkg/migrate/actions/workbenches

    The five actions on notebooks: the patch of the auth model (authmodel), the
    removal of the resources OAuth left behind (cleanup), the verification of
    both (verify), the renaming of containers before the upgrade (upgrade), and
    the label of Kueue (kueue).  What they decide without asking the cluster is
    in Workbenches.

    An action and its options do not change during a task.  A notebook that is
    listed twice is treated twice, as the code does. *)
From Stdlib Require Import Ascii.
From S2P Require Import Prelude GoStrings FilePath Errors Client Version Result Check Verbose DepsCheck BackupDeps Backup WorkloadHelpers.
From S2P Require Import KueueIntegrity NotebookImpacted DashboardChecks RayClusters Recorder Action Programs Cluster PipelineActions OperatorInstall KueueSteps Workbenches.
Open Scope string_scope.
Open Scope Z_scope.
Open Scope prog_scope.

(** ** Data *)
(** pkg/resources/types.go *)
Definition Service : ResourceType := mkResourceType "" "v1" "Service" "services".
Definition OAuthClient : ResourceType := mkResourceType "oauth.openshift.io" "v1" "OAuthClient" "oauthclients".

Record SharedScopeOptions := mkScope { sc_WorkbenchNamespace : string; sc_WorkbenchName : string }.
Record PatchAuthModelAction := mkPatchAuthModel {
  pm_Scope : SharedScopeOptions;
  pm_SkipStop : bool;
  pm_OnlyStopped : bool;
  pm_WithCleanup : bool;
}.
Inductive CleanupResult := CleanupResultCleaned | CleanupResultSkipped | CleanupResultFailed.
#[export] Instance CleanupResult_eq_dec : EqDecision CleanupResult.
Proof. solve_decision. Defined.
Record verifySummary := mkSummary {
  vs_legacy : nat;
  vs_migrated : nat;
  vs_unreconciled : nat;
  vs_invalid : nat;
  vs_unknown : nat;
  vs_running : nat;
  vs_stopped : nat;
  vs_starting : nat;
  vs_otherState : nat;
  vs_classificationFail : nat;
  vs_migrationPass : nat;
  vs_migrationFail : nat;
  vs_cleanupPass : nat;
  vs_cleanupFail : nat;
}.
Definition newSummary : verifySummary := mkSummary 0 0 0 0 0 0 0 0 0 0 0 0 0 0.

(** k8s.io/apimachinery: the error of a nested field of another type, whether
    a text is a point in time (a deletion timestamp that does not parse, or
    is zero, counts as none), and what is wrong with the value of a label. *)
Class Apimachinery := {
  accessor_error : list string → json → string → go_error;
  is_time : string → bool;
  IsValidLabelValue : string → list string;
}.

(** ** Names and texts *)
Definition title (nb : json) : string := GetNamespace nb +:+ "/" +:+ GetName nb.
Definition step_id (verb : string) (nb : json) : string := verb +:+ "-" +:+ GetNamespace nb +:+ "-" +:+ GetName nb.
Definition stopped_patch (v : json) : json :=
  JObj [("metadata", JObj [("annotations", JObj [(annotationKubeflowResourceStopped, v)])])].
Definition pod_name (nb : json) : string := GetName nb +:+ "-0".
Definition stopWaitTimeout : Z := 120 * second.
Definition stopWaitInterval : Z := 2 * second.

(** ** options.go *)
Definition Scope_Validate (o : SharedScopeOptions) : res go_error () :=
  if negb (String.eqb (sc_WorkbenchName o) "") && String.eqb (sc_WorkbenchNamespace o) ""
  then Err (EString "--workbench-name requires --workbench-namespace") else Ok ().
Definition valid_scope (o : SharedScopeOptions) : res go_error () := res_map_err (errorf_w "invalid flags") (Scope_Validate o).

(** ** The legacy resources of a notebook

    They are written down twice: what the cleanup deletes (cleanup.go), by type,
    name and namespace (none for a cluster-scoped one), and what the verification
    looks for (verify/checks.go), with a label. *)
Definition oauth_deletions (name namespace : string) : list (ResourceType * string * string) :=
  [(Route, name, namespace);
   (Service, name +:+ "-tls", namespace);
   (Secret, name +:+ "-oauth-client", namespace);
   (Secret, name +:+ "-oauth-config", namespace);
   (Secret, name +:+ "-tls", namespace);
   (OAuthClient, name +:+ "-" +:+ namespace +:+ "-oauth-client", "")].
Record legacy_resource := mkLegacy { lr_type : ResourceType; lr_name : string; lr_namespace : string; lr_label : string }.
Definition cleanup_checks (name namespace : string) : list legacy_resource :=
  [mkLegacy Route name namespace ("Route '" +:+ name +:+ "'");
   mkLegacy Service (name +:+ "-tls") namespace ("Service '" +:+ name +:+ "-tls'");
   mkLegacy Secret (name +:+ "-oauth-client") namespace ("Secret '" +:+ name +:+ "-oauth-client'");
   mkLegacy Secret (name +:+ "-oauth-config") namespace ("Secret '" +:+ name +:+ "-oauth-config'");
   mkLegacy Secret (name +:+ "-tls") namespace ("Secret '" +:+ name +:+ "-tls'");
   mkLegacy OAuthClient (name +:+ "-" +:+ namespace +:+ "-oauth-client") ""
     ("OAuthClient '" +:+ name +:+ "-" +:+ namespace +:+ "-oauth-client'")].
Definition resourceLabel (resource name namespace : string) : string :=
  if negb (String.eqb namespace "") then resource +:+ "/" +:+ name +:+ " in namespace " +:+ quote namespace
  else resource +:+ "/" +:+ name +:+ " (cluster-scoped)".

(** ** verify/run_task.go: counting *)
Definition countStatus (s : verifySummary) (status : MigrationStatus) : verifySummary :=
  let '(mkSummary l m u i k r st sg o cf mp mf cp cl) := s in
  match status with
  | StatusLegacy => mkSummary (l + 1) m u i k r st sg o cf mp mf cp cl
  | StatusMigrated => mkSummary l (m + 1) u i k r st sg o cf mp mf cp cl
  | StatusUnreconciled => mkSummary l m (u + 1) i k r st sg o cf mp mf cp cl
  | StatusInvalid => mkSummary l m u (i + 1) k r st sg o cf mp mf cp cl
  | StatusUnknown => mkSummary l m u i (k + 1) r st sg o cf mp mf cp cl
  end.
Definition StateRunning := "Running".
Definition StateStopped := "Stopped".
Definition StateStarting := "Starting".
Definition StateError := "Error".
Definition countRunState (s : verifySummary) (state : string) : verifySummary :=
  let '(mkSummary l m u i k r st sg o cf mp mf cp cl) := s in
  if String.eqb state StateRunning then mkSummary l m u i k (r + 1) st sg o cf mp mf cp cl
  else if String.eqb state StateStopped then mkSummary l m u i k r (st + 1) sg o cf mp mf cp cl
  else if String.eqb state StateStarting then mkSummary l m u i k r st (sg + 1) o cf mp mf cp cl
  else mkSummary l m u i k r st sg (o + 1) cf mp mf cp cl.
Definition one_if (b : bool) : nat := if b then 1%nat else 0%nat.
(** The outcome of the classification, of the migration checks and of the
    cleanup checks; a check that does not run is [None]. *)
Definition countChecks (s : verifySummary) (classificationOK : bool) (migration cleanup : option bool) : verifySummary :=
  let '(mkSummary l m u i k r st sg o cf mp mf cp cl) := s in
  mkSummary l m u i k r st sg o (cf + one_if (negb classificationOK))
    (mp + one_if (default false migration)) (mf + one_if (negb (default true migration)))
    (cp + one_if (default false cleanup)) (cl + one_if (negb (default true cleanup))).
Definition totalFailed (s : verifySummary) : nat := (vs_classificationFail s + vs_migrationFail s + vs_cleanupFail s)%nat.

(** *** verify.go: the phase *)
Definition validatePhase (VerifyPhase : string) : res go_error () :=
  if bool_decide (VerifyPhase ∈ ["migration"; "cleanup"; "all"; ""]) then Ok ()
  else Err (EString ("invalid --verify-phase " +:+ quote VerifyPhase +:+ ": must be one of: migration, cleanup, all")).
Definition effectivePhase (VerifyPhase : string) : string := nonempty VerifyPhase "migration".
Definition includeMigration (VerifyPhase : string) : bool :=
  String.eqb (effectivePhase VerifyPhase) "migration" || String.eqb (effectivePhase VerifyPhase) "all".
Definition includeCleanup (VerifyPhase : string) : bool :=
  String.eqb (effectivePhase VerifyPhase) "cleanup" || String.eqb (effectivePhase VerifyPhase) "all".

(** *** Flags of the auth model (run_task.go) *)
Definition validateFlags (a : PatchAuthModelAction) : res go_error () :=
  res_bind (valid_scope (pm_Scope a)) (λ _,
    if pm_SkipStop a && pm_OnlyStopped a then Err (EString "--skip-stop and --only-stopped are mutually exclusive") else Ok ()).

(** [NestedInt64(sts.Object, "spec", "replicas")] *)
Definition spec_replicas `{AM : Apimachinery} (sts : json) : res go_error (option Z) :=
  match field "spec" sts with
  | None => Ok None
  | Some (JObj spec) =>
      match field "replicas" (JObj spec) with
      | None => Ok None
      | Some (JNum n) => Ok (Some n)
      | Some v => Err (accessor_error ["spec"; "replicas"] v "int64")
      end
  | Some v => Err (accessor_error ["spec"] v "map[string]interface {}")
  end.

Section Steps.
Context `{AE : ApiErrors, KE : K8sErrors, JQ : GoJq, CL : Clock, JT : JsonText, YT : YamlText, GT : GoTypes, WT : Wait, MO : MapOrder,
  AM : Apimachinery}.
Context (target : Target).
Notation dryRun := (tg_DryRun target).

(** *** options.go *)
Definition ListNotebooks (o : SharedScopeOptions) : M (list json) :=
  if negb (String.eqb (sc_WorkbenchName o) "") then
    try* nb := kGet Notebook (sc_WorkbenchNamespace o) (sc_WorkbenchName o)
      else errorf_w ("getting notebook " +:+ sc_WorkbenchNamespace o +:+ "/" +:+ sc_WorkbenchName o) in
    m_ret [nb]
  else
    m_map_err (errorf_w "listing notebooks")
      (kListAll Notebook (if negb (String.eqb (sc_WorkbenchNamespace o) "") then in_namespace (sc_WorkbenchNamespace o) else defaultListOptions)).

(** The notebooks of a scope, recorded on a step; nothing when they cannot be
    listed or there are none. *)
Definition list_step (o : SharedScopeOptions) (step : loc) (none : string) : M (list json) :=
  let* listed := attempt (ListNotebooks o) in
  match listed with
  | inl err => fail_step step "Failed to list Notebooks" err ;; m_ret []
  | inr [] => completef step StepCompleted none ;; m_ret []
  | inr notebooks => m_ret notebooks
  end.

(** *** cleanup.go *)
Definition DeleteResourceIfPresent (rt : ResourceType) (name namespace : string) (step : loc) : M bool :=
  let label := resourceLabel (rt_Resource rt) name namespace in
  let stepID := "delete-" +:+ rt_Resource rt +:+ "-" +:+ name in
  if dryRun then recordf step stepID ("Would delete " +:+ label) StepSkipped ;; m_ret true
  else
    let* deleted := attempt (kDelete rt namespace name) in
    match deleted with
    | inl err =>
        if IsNotFound err then recordf step stepID ("Already absent: " +:+ label) StepCompleted ;; m_ret true
        else recordf step stepID ("Failed to delete " +:+ label +:+ ": " +:+ error_string err) StepFailed ;; m_ret false
    | inr _ => recordf step stepID ("Deleted " +:+ label) StepCompleted ;; m_ret true
    end.
(** Every resource is tried; one that is left makes the cleanup fail. *)
Definition delete_one (step : loc) (hasFailed : bool) (r : ResourceType * string * string) : M bool :=
  let '(rt, name, namespace) := r in
  let* gone := DeleteResourceIfPresent rt name namespace step in
  m_ret (hasFailed || negb gone).
Definition deleteOAuthResources (nb : json) (step : loc) : M CleanupResult :=
  let* hasFailed := m_fold (delete_one step) (oauth_deletions (GetName nb) (GetNamespace nb)) false in
  if (hasFailed : bool) then completef step StepFailed ("Cleanup partially failed for " +:+ title nb) ;; m_ret CleanupResultFailed
  else
    (if dryRun then completef step StepSkipped ("Would clean up OAuth resources for " +:+ title nb)
     else completef step StepCompleted ("Cleaned up OAuth resources for " +:+ title nb)) ;;
    m_ret CleanupResultCleaned.
Definition cleanup_step (nb : json) (parentStep : loc) : M loc :=
  child parentStep (step_id "cleanup" nb) ("Clean up OAuth resources for " +:+ title nb).
Definition CleanupNotebookAfterPatch (nb : json) (parentStep : loc) : M CleanupResult :=
  let* step := cleanup_step nb parentStep in
  deleteOAuthResources nb step.
Definition CleanupNotebook (nb : json) (parentStep : loc) : M CleanupResult :=
  let* step := cleanup_step nb parentStep in
  let '(passed, failures) := CheckMigrationState nb in
  if (passed : bool) then deleteOAuthResources nb step
  else
    recordf step "precheck" ("Pre-check failed: " +:+ join "; " failures) StepFailed ;;
    if tg_SkipConfirm target then
      completef step StepFailed ("Skipping cleanup for " +:+ title nb +:+
        ": notebook has not been migrated to kube-rbac-proxy (run workbenches.patch-auth-model first)") ;;
      m_ret CleanupResultFailed
    else
      kOut "" ;;
      kErrOut ("Pre-checks failed for " +:+ title nb +:+ ":") ;;
      m_each (λ f, kErrOut ("  - " +:+ f)) failures ;;
      let* agreed := Prompt ("Continue cleanup for " +:+ title nb +:+ " despite failed pre-checks?") in
      if (agreed : bool) then
        recordf step "precheck-override" "Continuing cleanup despite failed pre-checks" StepCompleted ;;
        deleteOAuthResources nb step
      else
        completef step StepSkipped ("Skipped cleanup for " +:+ title nb +:+ " (pre-check failed)") ;;
        m_ret CleanupResultSkipped.
Definition cleanup_notice (count : nat) : string := "About to delete legacy OAuth resources for " +:+ show_nat count +:+ " Notebook(s)".
Definition cleanup_question := "Proceed with OAuth resource cleanup?".
Definition promptBeforeCleanup (count : nat) : M bool := ask_consent target (cleanup_notice count) cleanup_question.

(** *** cleanup/run_task.go *)
Definition precheck_one (step : loc) (counts : nat * nat) (nb : json) : M (nat * nat) :=
  let '(passCount, failCount) := counts in
  let '(passed, failures) := CheckMigrationState nb in
  if (passed : bool) then m_ret (Datatypes.S passCount, failCount)
  else
    recordf step (step_id "precheck" nb) ("Pre-check failed for " +:+ title nb +:+ ": " +:+ join "; " failures) StepFailed ;;
    m_ret (passCount, Datatypes.S failCount).
Definition Cleanup_Validate (o : SharedScopeOptions) : M execution :=
  m_lift (valid_scope o) ;;
  let* step := child root "validate-cleanup-readiness" "Validate notebooks are ready for OAuth cleanup" in
  let* notebooks := list_step o step "No Notebook instances found, nothing to clean up" in
  match notebooks with
  | [] => built None
  | _ =>
      let* '(passCount, failCount) := m_fold (precheck_one step) notebooks (0%nat, 0%nat) in
      (if (0 <? failCount)%nat then
         completef step StepFailed (show_nat failCount +:+ "/" +:+ show_nat (length notebooks) +:+
           " Notebook(s) failed migration pre-checks; resolve before cleanup")
       else
         completef step StepCompleted ("All " +:+ show_nat passCount +:+
           " Notebook(s) passed migration pre-checks and are ready for cleanup")) ;;
      built None
  end.
(** Cleaned, skipped and failed. *)
Definition cleanup_one (counts : nat * nat * nat) (nb : json) : M (nat * nat * nat) :=
  let '(cleanedCount, skippedCount, failedCount) := counts in
  let* r := CleanupNotebook nb root in
  m_ret (match r with
         | CleanupResultCleaned => (Datatypes.S cleanedCount, skippedCount, failedCount)
         | CleanupResultSkipped => (cleanedCount, Datatypes.S skippedCount, failedCount)
         | CleanupResultFailed => (cleanedCount, skippedCount, Datatypes.S failedCount)
         end).
Definition cleanup_all (notebooks : list json) : M () :=
  let* '(cleanedCount, skippedCount, failedCount) := m_fold cleanup_one notebooks (0%nat, 0%nat, 0%nat) in
  let* summaryStep := child root "cleanup-summary" "Cleanup summary" in
  let out_of := " out of " +:+ show_nat (length notebooks) +:+ " Notebook(s)" in
  if (0 <? failedCount)%nat then
    completef summaryStep StepFailed ("Cleaned " +:+ show_nat cleanedCount +:+ ", skipped " +:+ show_nat skippedCount +:+
      ", failed " +:+ show_nat failedCount +:+ out_of)
  else if dryRun then
    completef summaryStep StepSkipped ("Would clean up OAuth resources for " +:+
      itoa (Z.of_nat (length notebooks) - Z.of_nat skippedCount) +:+ " Notebook(s)")
  else
    completef summaryStep StepCompleted ("Cleaned " +:+ show_nat cleanedCount +:+ ", skipped " +:+ show_nat skippedCount +:+ out_of).
Definition Cleanup_Execute (o : SharedScopeOptions) : M execution :=
  m_lift (valid_scope o) ;;
  let* discoverStep := child root "discover-notebooks" "Discover notebooks for OAuth cleanup" in
  let* notebooks := list_step o discoverStep "No Notebook instances found, nothing to clean up" in
  match notebooks with
  | [] => built None
  | _ =>
      completef discoverStep StepCompleted ("Found " +:+ show_nat (length notebooks) +:+ " Notebook(s) for cleanup") ;;
      let* agreed := if dryRun then m_ret true else promptBeforeCleanup (length notebooks) in
      if negb agreed then
        recordf root "cleanup-cancelled" "User cancelled cleanup" StepSkipped ;;
        built None
      else cleanup_all notebooks ;; built None
  end.

(** *** authmodel/lifecycle.go *)
Definition scale_poll (name namespace : string) (_ : ()) : M (bool * ()) :=
  let* got := attempt (kGet StatefulSet namespace name) in
  match got with
  | inl err =>
      if IsNotFound err then m_ret (true, ())
      else m_throw (errorf_w ("getting statefulset " +:+ namespace +:+ "/" +:+ name) err)
  | inr sts =>
      try* replicas := m_lift (spec_replicas sts) else errorf_w "reading spec.replicas" in
      m_ret (match replicas with Some n => n =? 0 | None => true end, ())
  end.
Definition waitForStatefulSetScaleDown (name namespace : string) : M () :=
  m_map_err (errorf_w ("waiting for statefulset " +:+ namespace +:+ "/" +:+ name +:+ " scale-down"))
    (PollUntilContextTimeout stopWaitInterval stopWaitTimeout (scale_poll name namespace) ()).
Definition stopWorkbench (nb : json) (step : loc) : M () :=
  let* timestamp := call KNow in
  m_map_err (errorf_w ("annotating notebook " +:+ title nb +:+ " for stop"))
    (kPatch Notebook (GetNamespace nb) (GetName nb) MergePatchType (stopped_patch (JStr timestamp)) false) ;;
  recordf step (step_id "stop" nb) ("Stopped " +:+ title nb +:+ ", waiting for scale-down") StepCompleted ;;
  let* waited := attempt (waitForStatefulSetScaleDown (GetName nb) (GetNamespace nb)) in
  match waited with
  | inl err =>
      recordf step (step_id "wait" nb) ("Timed out waiting for StatefulSet " +:+ title nb +:+ " to scale down: " +:+ error_string err) StepFailed ;;
      m_throw err
  | inr _ => m_ret ()
  end.
Definition restartWorkbench (nb : json) (step : loc) : M () :=
  let* patched := attempt (kPatch Notebook (GetNamespace nb) (GetName nb) MergePatchType (stopped_patch JNull) false) in
  match patched with
  | inl err => recordf step (step_id "restart" nb) ("Failed to restart " +:+ title nb +:+ ": " +:+ error_string err) StepFailed
  | inr _ => recordf step (step_id "restart" nb) ("Restarted " +:+ title nb) StepCompleted
  end.
Definition deleteStatefulSet (nb : json) (step : loc) : M bool :=
  let* deleted := attempt (kDelete StatefulSet (GetNamespace nb) (GetName nb)) in
  match deleted with
  | inl err =>
      if IsNotFound err then
        recordf step (step_id "delete-sts" nb) ("StatefulSet " +:+ title nb +:+ " already absent") StepCompleted ;; m_ret true
      else
        recordf step (step_id "delete-sts" nb) ("Failed to delete StatefulSet " +:+ title nb +:+ ": " +:+ error_string err) StepFailed ;;
        m_ret false
  | inr _ => recordf step (step_id "delete-sts" nb) ("Deleted StatefulSet " +:+ title nb) StepCompleted ;; m_ret true
  end.
(** Whether a pod is on its way out. *)
Definition terminating (pod : json) : bool :=
  let timestamp := nested_string ["metadata"; "deletionTimestamp"] pod in negb (String.eqb timestamp "") && is_time timestamp.
Definition stuck_pod (stuckPods : list string) (nb : json) : M (list string) :=
  let* got := attempt (kGet Pod (GetNamespace nb) (pod_name nb)) in
  m_ret (match got with
         | inl _ => stuckPods
         | inr pod => if terminating pod then stuckPods ++ [GetNamespace nb +:+ "/" +:+ pod_name nb] else stuckPods
         end)%list.
Definition remediation : list string :=
  [""; "To resolve, remove the finalizer from the affected pod:";
   "  oc patch pod <pod-name> -n <namespace> -p '{" +:+ dquote +:+ "metadata" +:+ dquote +:+ ":{" +:+ dquote +:+ "finalizers" +:+ dquote +:+
   ":null}}' --type=merge"].
Definition checkKueueTerminatingPods (notebooks : list json) (step : loc) : M bool :=
  let* got := attempt kKueueEnabledNamespaces in
  match got with
  | inl err =>
      recordf step "kueue-check" ("Failed to discover Kueue-managed namespaces: " +:+ error_string err) StepFailed ;; m_ret true
  | inr kueueNamespaces =>
      match List.filter (λ nb, bool_decide (GetNamespace nb ∈ kueueNamespaces)) notebooks with
      | [] => m_ret false
      | kueueNotebooks =>
          let* stuckPods := m_fold stuck_pod kueueNotebooks [] in
          match stuckPods with
          | [] =>
              recordf step "kueue-check" "No pods stuck in Terminating state in Kueue-managed namespaces" StepCompleted ;;
              m_ret false
          | _ =>
              kOut "" ;;
              kErrOut "WARNING: Kueue Finalizer Conflicts detected" ;;
              kErrOut "The following pods are stuck in Terminating state:" ;;
              m_each (λ pod, kErrOut ("  - " +:+ pod)) stuckPods ;;
              m_each kErrOut remediation ;;
              recordf step "kueue-check" ("Found " +:+ show_nat (length stuckPods) +:+
                " pod(s) stuck in Terminating state in Kueue-managed namespaces") StepFailed ;;
              m_ret true
          end
      end
  end.

(** *** Backups (authmodel/prepare_task.go, upgrade/upgrade.go) *)
Definition backup_namespace (step : loc) (totalBacked : nat) (entry : string * list json) : M nat :=
  let '(ns, nbs) := entry in
  let* written := attempt (kWriteResourcesToDir (path_Join [tg_OutputDir target; ns]) (rt_GVR Notebook) nbs) in
  match written with
  | inl err =>
      completef step StepFailed ("Failed to write Notebooks in namespace " +:+ ns +:+ ": " +:+ error_string err) ;;
      m_throw (errorf_w ("backup failed for namespace " +:+ ns) err)
  | inr _ => m_ret (totalBacked + length nbs)%nat
  end.
Definition backupNotebooks (notebooks : list json) (step : loc) : M () :=
  if dryRun then
    completef step StepSkipped ("Would backup " +:+ show_nat (length notebooks) +:+ " Notebook(s) to " +:+ tg_OutputDir target)
  else
    let byNamespace := group_by GetNamespace notebooks in
    let* totalBacked := m_fold (backup_namespace step) (map_range byNamespace) 0%nat in
    completef step StepCompleted ("Backed up " +:+ show_nat totalBacked +:+ " Notebook(s) across " +:+ show_nat (size byNamespace) +:+
      " namespace(s) to " +:+ tg_OutputDir target).

(** *** authmodel/prepare_task.go and the validation of run_task.go *)
Definition classifyNotebooks (notebooks : list json) : list json * list json :=
  (List.filter needsAuthModelPatch notebooks, List.filter (λ nb, negb (needsAuthModelPatch nb)) notebooks).
Definition report_readiness (step : loc) (notebooks : list json) : M () :=
  let '(toPatch, alreadyPatched) := classifyNotebooks notebooks in
  match toPatch with
  | [] => completef step StepCompleted ("All " +:+ show_nat (length alreadyPatched) +:+ " Notebook(s) already patched for 3.x auth model")
  | _ =>
      completef step StepCompleted ("Found " +:+ show_nat (length toPatch) +:+ " Notebook(s) needing auth model patch, " +:+
        show_nat (length alreadyPatched) +:+ " already patched")
  end.
Definition AuthPrepare_Validate (a : PatchAuthModelAction) : M execution :=
  m_lift (valid_scope (pm_Scope a)) ;;
  let* step := child root "validate-patch-readiness" "Validate notebooks for auth model patch" in
  let* notebooks := list_step (pm_Scope a) step "No Notebook instances found" in
  match notebooks with
  | [] => built None
  | _ => report_readiness step notebooks ;; built None
  end.
Definition AuthPrepare_Execute (a : PatchAuthModelAction) : M execution :=
  m_lift (valid_scope (pm_Scope a)) ;;
  let* step := child root "backup-notebooks" "Backup Notebook resources before auth model patch" in
  let* notebooks := list_step (pm_Scope a) step "No Notebook instances found, nothing to backup" in
  match notebooks with
  | [] => built None
  | _ => m_map_err (errorf_w "notebook backup failed") (backupNotebooks notebooks step) ;; built None
  end.
Definition AuthRun_Validate (a : PatchAuthModelAction) : M execution :=
  m_lift (validateFlags a) ;;
  let* step := child root "validate-auth-model-patch" "Validate notebooks for auth model patch" in
  let* notebooks := list_step (pm_Scope a) step "No Notebook instances found" in
  match notebooks with
  | [] => built None
  | _ => report_readiness step notebooks ;; built None
  end.

(** *** authmodel/run_task.go *)
(** One notebook of the default case: what is to be patched and what this
    action has stopped so far. *)
Definition stop_one (step : loc) (acc : list json * list json) (nb : json) : M (list json * list json) :=
  let '(toPatch, stoppedByAction) := acc in
  if isStopped nb then m_ret ((toPatch ++ [nb])%list, stoppedByAction)
  else if dryRun then
    recordf step (step_id "would-stop" nb) ("Would stop " +:+ title nb +:+ " before patching") StepSkipped ;;
    m_ret ((toPatch ++ [nb])%list, stoppedByAction)
  else
    let* stopped := attempt (stopWorkbench nb step) in
    match stopped with
    | inl err =>
        recordf step (step_id "stop-failed" nb) ("Failed to stop " +:+ title nb +:+ ", skipping: " +:+ error_string err) StepFailed ;;
        m_ret (toPatch, stoppedByAction)
    | inr _ =>
        let* got := attempt (kGet Notebook (GetNamespace nb) (GetName nb)) in
        match got with
        | inl err =>
            recordf step (step_id "refetch-failed" nb)
              ("Failed to re-fetch " +:+ title nb +:+ " after stop, skipping patch: " +:+ error_string err) StepFailed ;;
            m_ret (toPatch, (stoppedByAction ++ [nb])%list)
        | inr refreshed => m_ret ((toPatch ++ [refreshed])%list, (stoppedByAction ++ [refreshed])%list)
        end
    end.
Definition handleLifecycle (a : PatchAuthModelAction) (notebooks : list json) : M (list json * list json) :=
  if pm_OnlyStopped a then
    let* step := child root "filter-stopped" "Filter to stopped workbenches only" in
    let stopped := List.filter isStopped notebooks in
    let running := List.filter (λ nb, negb (isStopped nb)) notebooks in
    completef step StepCompleted
      (if (0 <? length running)%nat then
         "Skipping " +:+ show_nat (length running) +:+ " running Notebook(s), proceeding with " +:+ show_nat (length stopped) +:+ " stopped"
       else "All " +:+ show_nat (length stopped) +:+ " Notebook(s) are stopped") ;;
    m_ret (stopped, [])
  else if pm_SkipStop a then m_ret (notebooks, [])
  else
    let* step := child root "auto-stop-workbenches" "Stop running workbenches before patching" in
    let* '(toPatch, stoppedByAction) := m_fold (stop_one step) notebooks ([], []) in
    completef step StepCompleted
      (if (0 <? length stoppedByAction)%nat then "Stopped " +:+ show_nat (length stoppedByAction) +:+ " running Notebook(s)"
       else "No running Notebooks required stopping") ;;
    m_ret (toPatch, stoppedByAction).

Definition reportDryRun (toPatch : list json) : M () :=
  let* step := child root "dry-run-report" "Dry-run: planned operations" in
  m_each (λ nb, recordf step (step_id "would-patch" nb) ("Would patch " +:+ title nb +:+
    ": set inject-auth, remove oauth-proxy/volumes/finalizer/annotations/tornado_settings, delete StatefulSet") StepSkipped) toPatch ;;
  completef step StepSkipped ("Would patch " +:+ show_nat (length toPatch) +:+ " Notebook(s)").

(** One notebook of the patch: what is patched so far and the failures. *)
Definition patch_one (step : loc) (acc : list json * nat) (nb : json) : M (list json * nat) :=
  let '(patched, failCount) := acc in
  let* nbStep := child step (step_id "patch" nb) ("Patch " +:+ title nb) in
  match applyAllPatches nb with
  | Panic p => m_lift (Panic p)
  | Err err => fail_step nbStep ("Failed to apply patches to " +:+ title nb) err ;; m_ret (patched, Datatypes.S failCount)
  | Ok modified =>
      let* updated := attempt (kUpdate Notebook (GetNamespace nb) modified false) in
      match updated with
      | inl err => fail_step nbStep ("Failed to update " +:+ title nb) err ;; m_ret (patched, Datatypes.S failCount)
      | inr _ =>
          recordf nbStep "patch-applied" ("Auth model patch applied to " +:+ title nb) StepCompleted ;;
          let* stsDeleted := deleteStatefulSet nb nbStep in
          if negb stsDeleted then
            completef nbStep StepFailed ("Patched " +:+ title nb +:+
              " but StatefulSet deletion failed, may reconcile with old spec until controller catches up") ;;
            m_ret (patched, Datatypes.S failCount)
          else
            completef nbStep StepCompleted ("Patched " +:+ title nb) ;;
            m_ret ((patched ++ [modified])%list, failCount)
      end
  end.
Definition patchNotebooks (toPatch : list json) : M (list json) :=
  let* step := child root "patch-auth-model" "Patch notebooks for kube-rbac-proxy auth model" in
  let* '(patched, failCount) := m_fold (patch_one step) toPatch ([], 0%nat) in
  (if (0 <? failCount)%nat then
     completef step StepFailed ("Patched " +:+ show_nat (length patched) +:+ "/" +:+ show_nat (length toPatch) +:+ " Notebook(s), " +:+
       show_nat failCount +:+ " failure(s)")
   else completef step StepCompleted ("Patched " +:+ show_nat (length patched) +:+ " Notebook(s)")) ;;
  m_ret patched.

(** Successes and failures. *)
Definition clean_patched (cleanupStep : loc) (counts : nat * nat) (nb : json) : M (nat * nat) :=
  let '(successCount, failCount) := counts in
  let* got := attempt (kGet Notebook (GetNamespace nb) (GetName nb)) in
  match got with
  | inl err =>
      recordf cleanupStep (step_id "refetch-failed" nb) ("Failed to re-fetch " +:+ title nb +:+ " for cleanup: " +:+ error_string err) StepFailed ;;
      m_ret (successCount, Datatypes.S failCount)
  | inr refreshed =>
      let* r := CleanupNotebookAfterPatch refreshed cleanupStep in
      m_ret (if bool_decide (r = CleanupResultCleaned) then (Datatypes.S successCount, failCount) else (successCount, Datatypes.S failCount))
  end.
Definition runCleanup (patched : list json) : M () :=
  let* agreed := if dryRun then m_ret true else promptBeforeCleanup (length patched) in
  if negb agreed then recordf root "cleanup-cancelled" "User cancelled OAuth cleanup" StepSkipped
  else
    let* cleanupStep := child root "cleanup-oauth-resources" "Clean up legacy OAuth resources" in
    let* '(successCount, failCount) := m_fold (clean_patched cleanupStep) patched (0%nat, 0%nat) in
    if (0 <? failCount)%nat then
      completef cleanupStep StepFailed ("Cleaned " +:+ show_nat successCount +:+ "/" +:+ show_nat (length patched) +:+ " Notebook(s), " +:+
        show_nat failCount +:+ " failure(s)")
    else if dryRun then
      completef cleanupStep StepSkipped ("Would clean up OAuth resources for " +:+ show_nat (length patched) +:+ " Notebook(s)")
    else completef cleanupStep StepCompleted ("Cleaned up OAuth resources for " +:+ show_nat successCount +:+ " Notebook(s)").
Definition restartNotebooks (stoppedByAction : list json) : M () :=
  match stoppedByAction with
  | [] => m_ret ()
  | _ =>
      let* step := child root "restart-workbenches" "Restart workbenches stopped by this action" in
      m_each (λ nb, restartWorkbench nb step) stoppedByAction ;;
      completef step StepCompleted ("Restart complete for " +:+ show_nat (length stoppedByAction) +:+ " Notebook(s)")
  end.
Definition patch_notice (count : nat) : string := "About to patch " +:+ show_nat count +:+ " Notebook(s) for kube-rbac-proxy auth model".
Definition patch_question := "Proceed with auth model patch?".
Definition promptBeforePatch (count : nat) : M bool := ask_consent target (patch_notice count) patch_question.
Definition check_terminating (a : PatchAuthModelAction) (patched : list json) : M () :=
  if pm_SkipStop a && (0 <? length patched)%nat then
    let* kueueStep := child root "check-kueue-terminating" "Check for Kueue finalizer conflicts" in
    let* stuck := checkKueueTerminatingPods patched kueueStep in
    if (stuck : bool) then completef kueueStep StepFailed "Kueue finalizer conflicts detected"
    else completef kueueStep StepCompleted "Kueue terminating pod check complete"
  else m_ret ().
(** The steps after the classification, for notebooks that need the patch. *)
Definition patch_stopped (a : PatchAuthModelAction) (toPatch stoppedByAction : list json) : M () :=
  if dryRun then reportDryRun toPatch
  else
    let* agreed := promptBeforePatch (length toPatch) in
    if negb agreed then
      recordf root "patch-cancelled" "User cancelled auth model patch" StepSkipped ;;
      restartNotebooks stoppedByAction
    else
      let* patched := patchNotebooks toPatch in
      (if pm_WithCleanup a && (0 <? length patched)%nat then runCleanup patched else m_ret ()) ;;
      restartNotebooks stoppedByAction ;;
      check_terminating a patched.
Definition patch_all (a : PatchAuthModelAction) (notebooks : list json) : M () :=
  let* '(toPatch, stoppedByAction) := handleLifecycle a notebooks in
  match toPatch with
  | [] => restartNotebooks stoppedByAction
  | _ => patch_stopped a toPatch stoppedByAction
  end.
Definition AuthRun_Execute (a : PatchAuthModelAction) : M execution :=
  m_lift (validateFlags a) ;;
  let* discoverStep := child root "discover-notebooks" "Discover notebooks for auth model patch" in
  let* notebooks := list_step (pm_Scope a) discoverStep "No Notebook instances found, nothing to patch" in
  match notebooks with
  | [] => built None
  | _ =>
      let '(toPatch, alreadyPatched) := classifyNotebooks notebooks in
      completef discoverStep StepCompleted ("Found " +:+ show_nat (length toPatch) +:+ " Notebook(s) needing patch, " +:+
        show_nat (length alreadyPatched) +:+ " already patched") ;;
      match toPatch with
      | [] => built None
      | _ => patch_all a toPatch ;; built None
      end
  end.

(** *** verify *)
Definition GetRunningState (nb : json) : M (string * string) :=
  if isStopped nb then m_ret (StateStopped, "since " +:+ at_key (GetAnnotations nb) annotationKubeflowResourceStopped)
  else
    let* got := attempt (kGet Pod (GetNamespace nb) (pod_name nb)) in
    match got with
    | inl err =>
        if IsNotFound err then m_ret (StateStarting, "no pod yet")
        else m_ret (StateError, "error checking pod " +:+ quote (pod_name nb) +:+ ": " +:+ error_string err)
    | inr pod =>
        let phase := nested_string ["status"; "phase"] pod in
        m_ret (if String.eqb phase "Running" then (StateRunning, "")
               else if String.eqb phase "Pending" then (StateStarting, "pod pending") else (phase, ""))
    end.
Definition resourceExists (r : legacy_resource) : M bool :=
  let* got := attempt (kGet (lr_type r) (lr_namespace r) (lr_name r)) in
  match got with
  | inr _ => m_ret true
  | inl err =>
      if IsNotFound err then m_ret false
      else m_throw (errorf_w ("getting " +:+ rt_Resource (lr_type r) +:+ " " +:+ quote (lr_name r)) err)
  end.
Definition check_gone (failures : list string) (r : legacy_resource) : M (list string) :=
  let* got := attempt (resourceExists r) in
  m_ret (match got with
         | inl err => failures ++ ["error checking " +:+ lr_label r +:+ ": " +:+ error_string err]
         | inr true => failures ++ [lr_label r +:+ " still exists"]
         | inr false => failures
         end)%list.
Definition CheckCleanupState (nb : json) : M (bool * list string) :=
  let* failures := m_fold check_gone (cleanup_checks (GetName nb) (GetNamespace nb)) [] in
  m_ret (bool_decide (failures = []), failures).

(** *** verify/run_task.go *)
Definition with_detail (s detail : string) : string := if String.eqb detail "" then s else s +:+ " (" +:+ detail +:+ ")".
(** One of the two groups of checks, if it is asked for. *)
Definition run_checks (include : bool) (step : loc) (name what : string) (checks : M (bool * list string)) : M (option bool) :=
  if negb include then m_ret None
  else
    let* '(passed, failures) := checks in
    (if (passed : bool) then recordf step name (what +:+ " checks: all passed") StepCompleted
     else recordf step name (what +:+ " checks failed: " +:+ join "; " failures) StepFailed) ;;
    m_ret (Some passed).
Definition verifyNotebook (VerifyPhase : string) (summary : verifySummary) (nb : json) : M verifySummary :=
  let* step := child root (step_id "verify" nb) ("Verify " +:+ title nb) in
  let '(status, detail) := ClassifyNotebook nb in
  let* '(runState, runDetail) := GetRunningState nb in
  let summary := countRunState (countStatus summary status) runState in
  let statusMsg := with_detail (MigrationStatus_string status) detail in
  let stateMsg := with_detail runState runDetail in
  let classificationOK := bool_decide (status = StatusMigrated) || bool_decide (status = StatusLegacy) in
  recordf step "classification" ("Status: " +:+ statusMsg +:+ " | State: " +:+ stateMsg)
    (if classificationOK then StepCompleted else StepFailed) ;;
  let* migration := run_checks (includeMigration VerifyPhase) step "migration-checks" "Migration" (m_ret (CheckMigrationState nb)) in
  let* cleanup := run_checks (includeCleanup VerifyPhase) step "cleanup-checks" "Cleanup" (CheckCleanupState nb) in
  (if classificationOK && default true migration && default true cleanup
   then completef step StepCompleted ("All checks passed for " +:+ title nb +:+ " [" +:+ statusMsg +:+ "]")
   else completef step StepFailed ("Some checks failed for " +:+ title nb +:+ " [" +:+ statusMsg +:+ "]")) ;;
  m_ret (countChecks summary classificationOK migration cleanup).
Definition show_counts (counts : list (string * nat)) : string :=
  "map[" +:+ join " " (map (λ kv, kv.1 +:+ ":" +:+ show_nat kv.2) counts) +:+ "]".
Definition detail_if (b : bool) (step : loc) (key : string) (n : nat) : M () :=
  if b then add_step_detail step key (show_nat n) else m_ret ().
Definition buildSummaryStep (VerifyPhase : string) (s : verifySummary) (total : nat) : M () :=
  let* step := child root "summary" "Verification summary" in
  add_step_detail step "total" (show_nat total) ;;
  add_step_detail step "byStatus" (show_counts [("invalid", vs_invalid s); ("legacy", vs_legacy s); ("migrated", vs_migrated s);
    ("unknown", vs_unknown s); ("unreconciled", vs_unreconciled s)]) ;;
  add_step_detail step "byRunState" (show_counts [("other", vs_otherState s); ("running", vs_running s); ("starting", vs_starting s);
    ("stopped", vs_stopped s)]) ;;
  detail_if (includeMigration VerifyPhase) step "migrationPass" (vs_migrationPass s) ;;
  detail_if (includeMigration VerifyPhase) step "migrationFail" (vs_migrationFail s) ;;
  detail_if (includeCleanup VerifyPhase) step "cleanupPass" (vs_cleanupPass s) ;;
  detail_if (includeCleanup VerifyPhase) step "cleanupFail" (vs_cleanupFail s) ;;
  detail_if (0 <? vs_classificationFail s)%nat step "classificationFail" (vs_classificationFail s) ;;
  if (0 <? totalFailed s)%nat then
    completef step StepFailed ("Verified " +:+ show_nat total +:+ " Notebook(s): " +:+ show_nat (totalFailed s) +:+ " with failures")
  else completef step StepCompleted ("Verified " +:+ show_nat total +:+ " Notebook(s): all checks passed").
(** The task records on a root recorder of its own, which it builds. *)
Definition Verify_Execute (o : SharedScopeOptions) (VerifyPhase : string) : M execution :=
  m_lift (valid_scope o) ;;
  m_lift (validatePhase VerifyPhase) ;;
  let* discoverStep := child root "discover-notebooks" "Discover notebooks for migration verification" in
  let* notebooks := list_step o discoverStep "No Notebook instances found" in
  match notebooks with
  | [] => built None
  | _ =>
      completef discoverStep StepCompleted ("Found " +:+ show_nat (length notebooks) +:+ " Notebook(s) to verify") ;;
      let* summary := m_fold (verifyNotebook VerifyPhase) notebooks newSummary in
      buildSummaryStep VerifyPhase summary (length notebooks) ;;
      built None
  end.
Definition Verify_Validate := Verify_Execute.

(** *** upgrade *)
Definition listNotebooks : M (list json) := m_map_err (errorf_w "listing notebooks") (kListAll Notebook defaultListOptions).
Definition handleNonStoppedNotebooks (ForceNonStopped : bool) (notebooks : list json) (parentStep : loc) : M (list json) :=
  let* step := child parentStep "check-non-stopped" "Check for non-stopped workbenches" in
  let stopped := List.filter isStopped notebooks in
  match List.filter (λ nb, negb (isStopped nb)) notebooks with
  | [] => completef step StepCompleted ("All " +:+ show_nat (length notebooks) +:+ " Notebook(s) are stopped") ;; m_ret stopped
  | nonStopped =>
      let names := map title nonStopped in
      let count := show_nat (length nonStopped) in
      add_step_detail step "non_stopped_notebooks" (show_strings names) ;;
      if ForceNonStopped then
        completef step StepCompleted ("Including " +:+ count +:+ " non-stopped Notebook(s) (--force-non-stopped): " +:+ join ", " names) ;;
        m_ret notebooks
      else if dryRun then
        completef step StepSkipped ("Found " +:+ count +:+ " non-stopped Notebook(s) (would skip in dry-run): " +:+ join ", " names) ;;
        m_ret stopped
      else
        (if tg_SkipConfirm target then m_ret ()
         else
           kOut "" ;;
           kErrOut ("Found " +:+ count +:+ " non-stopped Notebook(s):") ;;
           m_each (λ name, kErrOut ("  - " +:+ name)) names ;;
           kErrOut "Non-stopped notebooks will be skipped. Stop them before upgrading." ;;
           kErrOut "Use --force-non-stopped to include them (unsafe).") ;;
        completef step StepCompleted ("Skipping " +:+ count +:+ " non-stopped Notebook(s), proceeding with " +:+
          show_nat (length stopped) +:+ " stopped Notebook(s)") ;;
        m_ret stopped
  end.
Definition upgrade_question := "Proceed with workbench modifications?".
Definition promptBeforeModification (count : nat) : M bool :=
  ask_consent target ("About to modify " +:+ show_nat count +:+ " Notebook(s) to fix container name mismatches") upgrade_question.

Definition UpgradePrepare_Validate : M execution :=
  let* step := child root "validate-notebooks" "Check for Notebook resources" in
  let* listed := attempt listNotebooks in
  match listed with
  | inl err => fail_step step "Failed to list Notebooks" err
  | inr [] => completef step StepCompleted "No Notebook instances found"
  | inr notebooks => completef step StepCompleted ("Found " +:+ show_nat (length notebooks) +:+ " Notebook(s) across the cluster")
  end ;;
  built None.
(** The backup records on a step of its own. *)
Definition UpgradePrepare_Execute : M execution :=
  let* step := child root "prepare-backup" "Prepare workbench backup" in
  let* listed := attempt listNotebooks in
  match listed with
  | inl err => fail_step step "Failed to list Notebooks" err ;; built None
  | inr [] => completef step StepCompleted "No Notebook instances found, nothing to back up" ;; built None
  | inr notebooks =>
      let* backupStep := child step "backup-notebooks" "Backup Notebook resources" in
      let* backed := attempt (backupNotebooks notebooks backupStep) in
      match backed with
      | inl err => built (Some (errorf_w "prepare backup failed" err))
      | inr _ => completef step StepCompleted "Backup phase complete" ;; built None
      end
  end.

Definition verify_one (step : loc) (needsPatchCount : nat) (nb : json) : M nat :=
  let '(passed, failures) := CheckMigrationState nb in
  if (passed : bool) then m_ret needsPatchCount
  else
    recordf step (step_id "auth-model" nb) (title nb +:+ " needs auth model patch: " +:+ join "; " failures) StepFailed ;;
    m_ret (Datatypes.S needsPatchCount).
Definition verifyAuthModel (notebooks : list json) : M () :=
  let* step := child root "verify-auth-model" "Verify workbench auth model migration" in
  let* needsPatchCount := m_fold (verify_one step) notebooks 0%nat in
  if (0 <? needsPatchCount)%nat then
    completef step StepFailed (show_nat needsPatchCount +:+
      " stopped Notebook(s) still have legacy OAuth-proxy sidecar — run workbenches.patch-auth-model to complete migration")
  else completef step StepCompleted ("All " +:+ show_nat (length notebooks) +:+ " stopped Notebook(s) have correct auth model").

(** The notebooks with a mismatch and the number that could not be read. *)
Definition inspect_one (step : loc) (what : string) (acc : list json * nat) (nb : json) : M (list json * nat) :=
  let '(toFix, checkErrCount) := acc in
  match hasContainerNameMismatch nb with
  | Panic p => m_lift (Panic p)
  | Err err =>
      recordf step "check-error" (what +:+ " " +:+ title nb +:+ ": " +:+ error_string err) StepFailed ;;
      m_ret (toFix, Datatypes.S checkErrCount)
  | Ok hasMismatch => m_ret (if (hasMismatch : bool) then (toFix ++ [nb])%list else toFix, checkErrCount)
  end.
Definition inspect (step : loc) (what : string) (notebooks : list json) : M (list json * nat) :=
  m_fold (inspect_one step what) notebooks ([], 0%nat).

Definition UpgradeRun_Validate (ForceNonStopped : bool) : M execution :=
  let* step := child root "validate-prerequisites" "Validate migration prerequisites" in
  let* listed := attempt listNotebooks in
  match listed with
  | inl err => fail_step step "Failed to list Notebooks" err ;; built None
  | inr [] => completef step StepCompleted "No Notebook instances found, nothing to migrate" ;; built None
  | inr notebooks =>
      let* stopped := handleNonStoppedNotebooks ForceNonStopped notebooks step in
      match stopped with
      | [] => completef step StepSkipped "No eligible Notebook(s) to validate (all non-stopped)" ;; built None
      | _ =>
          let* '(toFix, checkErrCount) := inspect step "Failed to inspect Notebook" stopped in
          (if (0 <? checkErrCount)%nat then
             completef step StepFailed ("Failed to inspect " +:+ show_nat checkErrCount +:+ " Notebook(s); resolve validation errors first")
           else if (0 <? length toFix)%nat then
             completef step StepCompleted ("Found " +:+ show_nat (length toFix) +:+
               " Notebook(s) with container name mismatches requiring update")
           else completef step StepCompleted ("All " +:+ show_nat (length stopped) +:+ " stopped Notebook(s) have correct container names")) ;;
          verifyAuthModel stopped ;;
          built None
      end
  end.

Definition would_fix (step : loc) (nb : json) : M () :=
  match extractWorkloadContainers nb with
  | Ok (c :: _) =>
      recordf step "would-fix" ("Would rename container " +:+ quote (nc_Name c) +:+ " to " +:+ quote (GetName nb) +:+ " in " +:+ title nb) StepSkipped
  | _ => m_ret ()
  end.
(** Successes and failures. *)
Definition fix_one (parentStep : loc) (counts : nat * nat) (nb : json) : M (nat * nat) :=
  let '(successCount, failCount) := counts in
  let* nbStep := child parentStep (step_id "fix" nb) ("Fix container name in " +:+ title nb) in
  match fixContainerName nb with
  | Panic p => m_lift (Panic p)
  | Err err => fail_step nbStep "Failed to fix container name" err ;; m_ret (successCount, Datatypes.S failCount)
  | Ok (oldName, patched) =>
      let* updated := attempt (m_map_err (errorf_w ("updating notebook " +:+ title patched))
                                 (kUpdate Notebook (GetNamespace patched) patched false)) in
      match updated with
      | inl err => fail_step nbStep ("Failed to update Notebook " +:+ title nb) err ;; m_ret (successCount, Datatypes.S failCount)
      | inr _ =>
          completef nbStep StepCompleted ("Renamed container " +:+ quote oldName +:+ " to " +:+ quote (GetName nb)) ;;
          m_ret (Datatypes.S successCount, failCount)
      end
  end.
Definition applyContainerFixes (toFix : list json) (parentStep : loc) : M (nat * nat) := m_fold (fix_one parentStep) toFix (0%nat, 0%nat).
Definition fixContainerNames (notebooks : list json) : M () :=
  let* step := child root "fix-container-names" "Fix container name mismatches" in
  let* '(toFix, checkErrCount) := inspect step "Error checking" notebooks in
  match toFix with
  | [] =>
      if (0 <? checkErrCount)%nat then
        completef step StepFailed ("Failed to inspect " +:+ show_nat checkErrCount +:+ " Notebook(s), no fixable mismatches found")
      else completef step StepCompleted ("All " +:+ show_nat (length notebooks) +:+ " Notebook(s) have correct container names, no changes needed")
  | _ =>
      if dryRun then
        m_each (would_fix step) toFix ;;
        if (0 <? checkErrCount)%nat then
          completef step StepFailed ("Would fix " +:+ show_nat (length toFix) +:+ " Notebook(s), but failed to inspect " +:+ show_nat checkErrCount)
        else completef step StepSkipped ("Would fix container names in " +:+ show_nat (length toFix) +:+ " Notebook(s)")
      else
        let* agreed := promptBeforeModification (length toFix) in
        if negb agreed then completef step StepSkipped "User cancelled modification"
        else
          let* '(successCount, failCount) := applyContainerFixes toFix step in
          if (0 <? failCount)%nat || (0 <? checkErrCount)%nat then
            completef step StepFailed ("Fixed " +:+ show_nat successCount +:+ "/" +:+ show_nat (length toFix) +:+ " Notebook(s), " +:+
              show_nat failCount +:+ " update failure(s), " +:+ show_nat checkErrCount +:+ " inspection failure(s)")
          else
            completef step StepCompleted ("Fixed container names in " +:+ show_nat successCount +:+ "/" +:+ show_nat (length toFix) +:+ " Notebook(s)")
  end.
Definition UpgradeRun_Execute (ForceNonStopped : bool) : M execution :=
  let* listStep := child root "list-notebooks" "List Notebook resources" in
  let* listed := attempt listNotebooks in
  match listed with
  | inl err => fail_step listStep "Failed to list Notebooks" err ;; built None
  | inr [] => completef listStep StepCompleted "No Notebook instances found, nothing to migrate" ;; built None
  | inr notebooks =>
      completef listStep StepCompleted ("Found " +:+ show_nat (length notebooks) +:+ " Notebook(s)") ;;
      let* stopped := handleNonStoppedNotebooks ForceNonStopped notebooks root in
      match stopped with
      | [] => recordf root "no-eligible-notebooks" "No eligible Notebook(s) to migrate (all non-stopped)" StepSkipped ;; built None
      | _ => fixContainerNames stopped ;; verifyAuthModel stopped ;; built None
      end
  end.

(** *** kueue *)
Definition queueName (QueueName : string) : string := nonempty QueueName defaultQueueName.
Definition valid_queue (o : SharedScopeOptions) (QueueName : string) : res go_error () :=
  res_bind (valid_scope o) (λ _,
    match IsValidLabelValue (queueName QueueName) with
    | [] => Ok ()
    | errs => Err (EString ("invalid --queue-name " +:+ quote (queueName QueueName) +:+ ": " +:+ join "; " errs))
    end).
Definition kueueManagedNamespaces : M (gset string) := m_map_err (errorf_w "listing Kueue-enabled namespaces") kKueueEnabledNamespaces.
Definition findEligibleNotebooks (o : SharedScopeOptions) : M (list json) :=
  let* kueueNamespaces := kueueManagedNamespaces in
  if decide (kueueNamespaces = ∅) then m_ret []
  else
    try* notebooks := ListNotebooks o else errorf_w "listing notebooks" in
    m_ret (List.filter (λ nb, bool_decide (GetNamespace nb ∈ kueueNamespaces) && negb (hasQueueNameLabel nb)) notebooks).
Definition Label_Validate (o : SharedScopeOptions) (QueueName : string) : M execution :=
  m_lift (valid_queue o QueueName) ;;
  let* step := child root "validate-kueue-labels" "Validate Kueue label requirements" in
  let* found := attempt (findEligibleNotebooks o) in
  match found with
  | inl err => fail_step step "Failed to discover eligible notebooks" err
  | inr [] => completef step StepCompleted "No notebooks require the Kueue queue-name label"
  | inr eligible =>
      completef step StepCompleted ("Found " +:+ show_nat (length eligible) +:+
        " notebook(s) in Kueue-managed namespaces missing the queue-name label")
  end ;;
  built None.
Definition patchLabel (QueueName : string) (nb : json) : M () :=
  m_map_err (errorf_w ("patching notebook " +:+ title nb))
    (kPatch Notebook (GetNamespace nb) (GetName nb) MergePatchType (label_patch LabelKueueQueueName (queueName QueueName)) false) ;;
  m_ret ().
(** Successes and failures. *)
Definition label_notebook (QueueName : string) (step : loc) (counts : nat * nat) (nb : json) : M (nat * nat) :=
  let '(successCount, failCount) := counts in
  let* nbStep := child step (step_id "label" nb) ("Label " +:+ title nb) in
  let* patched := attempt (patchLabel QueueName nb) in
  match patched with
  | inl err => fail_step nbStep ("Failed to label notebook " +:+ title nb) err ;; m_ret (successCount, Datatypes.S failCount)
  | inr _ =>
      completef nbStep StepCompleted ("Added label queue-name=" +:+ queueName QueueName +:+ " to " +:+ title nb) ;;
      m_ret (Datatypes.S successCount, failCount)
  end.
Definition label_question := "Proceed with label modifications?".
Definition applyLabels (QueueName : string) (notebooks : list json) : M () :=
  let* step := child root "apply-kueue-labels" "Apply Kueue queue-name labels" in
  if dryRun then
    m_each (λ nb, recordf step "would-label" ("Would add label " +:+ LabelKueueQueueName +:+ "=" +:+ queueName QueueName +:+ " to " +:+ title nb)
      StepSkipped) notebooks ;;
    completef step StepSkipped ("Would label " +:+ show_nat (length notebooks) +:+ " notebook(s) with queue-name=" +:+ queueName QueueName)
  else
    let* agreed := ask_consent target ("About to add the Kueue queue-name label to " +:+ show_nat (length notebooks) +:+ " Notebook(s)")
                     label_question in
    if negb agreed then completef step StepSkipped "User cancelled modification"
    else
      let* '(successCount, failCount) := m_fold (label_notebook QueueName step) notebooks (0%nat, 0%nat) in
      if (0 <? failCount)%nat then
        completef step StepFailed ("Labeled " +:+ show_nat successCount +:+ "/" +:+ show_nat (length notebooks) +:+ " notebook(s), " +:+
          show_nat failCount +:+ " failure(s)")
      else completef step StepCompleted ("Labeled " +:+ show_nat successCount +:+ " notebook(s) with queue-name=" +:+ queueName QueueName).
Definition Label_Execute (o : SharedScopeOptions) (QueueName : string) : M execution :=
  m_lift (valid_queue o QueueName) ;;
  let* discoverStep := child root "discover-notebooks" "Discover notebooks requiring Kueue label" in
  let* found := attempt (findEligibleNotebooks o) in
  match found with
  | inl err => fail_step discoverStep "Failed to discover eligible notebooks" err
  | inr [] => completef discoverStep StepCompleted "No notebooks require the Kueue queue-name label"
  | inr eligible =>
      completef discoverStep StepCompleted ("Found " +:+ show_nat (length eligible) +:+ " notebook(s) requiring the queue-name label") ;;
      applyLabels QueueName eligible
  end ;;
  built None.
End Steps.

(** ** The actions *)
Section TheActions.
Context `{SV : Semver, AE : ApiErrors, KE : K8sErrors, JQ : GoJq, CL : Clock, JT : JsonText, YT : YamlText, GT : GoTypes, WT : Wait,
  MO : MapOrder, AM : Apimachinery}.
Context (clients : Clients) {S : Type} (env : ∀ c, S → answer c * S).
Notation of_target := (λ t : ActionTarget, mkTarget clients (at_DryRun t) (at_SkipConfirm t) (at_OutputDir t)).
Definition task (execute : Target → M execution) : option (Task S) := Some (as_task env (λ t, execute (of_target t))).
(** From 2.16 or later of 2 to 3 or later, and to 3 or later. *)
Definition from_two_to_three (t : ActionTarget) (_ : S) : bool :=
  match at_CurrentVersion t, at_TargetVersion t with
  | Some current, Some upgraded => (v_Major current =? 2) && (16 <=? v_Minor current) && (3 <=? v_Major upgraded)
  | _, _ => false
  end.
Definition to_three (t : ActionTarget) (_ : S) : bool :=
  match at_TargetVersion t with Some upgraded => 3 <=? v_Major upgraded | None => false end.

Definition PatchAuthModel_Action (a : PatchAuthModelAction) : Action S :=
  mkAction _ S "workbenches.patch-auth-model" "Patch workbench auth model from OAuth-proxy to kube-rbac-proxy"
    "Migrates Notebook CRs from oauth-proxy (2.x) to kube-rbac-proxy (3.x) auth model by removing OAuth sidecar, annotations, volumes, finalizers, and tornado_settings"
    GroupMigration PhasePostUpgrade from_two_to_three
    (task (λ t, AuthPrepare_Execute t a)) (task (λ t, AuthRun_Execute t a)).
Definition CleanupOAuth_Action (o : SharedScopeOptions) : Action S :=
  mkAction _ S "workbenches.cleanup-oauth" "Clean up legacy OAuth resources from workbenches"
    "Removes stale OAuth-proxy resources (Route, Service, Secrets, OAuthClient) left behind after migrating workbenches from 2.x to 3.x"
    GroupMigration PhasePostUpgrade to_three None (task (λ t, Cleanup_Execute t o)).
Definition VerifyMigration_Action (o : SharedScopeOptions) (VerifyPhase : string) : Action S :=
  mkAction _ S "workbenches.verify-migration" "Verify workbench migration status"
    "Verifies migration and cleanup status of workbench notebooks and classifies them by migration state (LEGACY, MIGRATED, UNRECONCILED, INVALID, UNKNOWN)"
    GroupValidation PhasePostUpgrade to_three None (task (λ _, Verify_Execute o VerifyPhase)).
Definition WorkbenchUpgrade_Action (ForceNonStopped : bool) : Action S :=
  mkAction _ S "workbenches.upgrade-2x-to-3x" "Upgrade workbenches from 2.x to 3.x"
    "Updates workbench notebook container names for 3.x compatibility. Run workbenches.patch-auth-model separately to complete the auth model migration."
    GroupMigration PhasePreUpgrade from_two_to_three
    (task (λ t, UpgradePrepare_Execute t)) (task (λ t, UpgradeRun_Execute t ForceNonStopped)).
Definition AttachKueueLabel_Action (o : SharedScopeOptions) (QueueName : string) : Action S :=
  mkAction _ S "workbenches.attach-kueue-label" "Attach Kueue queue-name label to workbenches"
    "Adds the kueue.x-k8s.io/queue-name label to notebooks in Kueue-managed namespaces"
    GroupMigration PhasePostUpgrade to_three None (task (λ t, Label_Execute t o QueueName)).
End TheActions.
