(* ===== verification/WorkbenchMigration.v ===== *)
(** * WorkbenchMigration: what the workbench actions do to a cluster

    The properties of the tasks of WorkbenchSteps: the order of the requests of
    the patch of the auth model and that what it stopped is started again, a
    cleanup and the verification after it, the dry runs, and the counts of a
    verification. *)
From Stdlib Require Import Ascii.
From S2P Require Import Prelude GoStrings FilePath Errors Client Version Result Check Verbose DepsCheck BackupDeps Backup WorkloadHelpers.
From S2P Require Import KueueIntegrity NotebookImpacted DashboardChecks RayClusters Recorder Action Programs Cluster PipelineActions OperatorInstall.
From S2P Require Import RayMigration KueueSteps Workbenches WorkbenchSteps.
Open Scope string_scope.
Open Scope Z_scope.
Open Scope prog_scope.

(** ** The order of the requests

    A notebook is known to the cluster by its namespace and name.  What a
    monitor remembers of a run: the last text shown and the last question
    agreed to, the notebooks listed and those read under a key, the keys that
    were stopped, those whose StatefulSet was seen without replicas (or not
    there), the notebooks written back, and the keys asked to start again. *)
Definition notebook_key (nb : json) : string * string := (GetNamespace nb, GetName nb).
Record wb_seen := mkWbSeen {
  ws_Asked : string;
  ws_Agreed : string;
  ws_Listed : list json;
  ws_Read : list ((string * string) * json);
  ws_Stopped : gset (string * string);
  ws_Down : gset (string * string);
  ws_Updated : list (string * json);
  ws_Restarted : gset (string * string);
}.
Definition wb_start : wb_seen := mkWbSeen "" "" [] [] ∅ ∅ [] ∅.
Definition restarts (data : json) : bool :=
  match nested ["metadata"; "annotations"; annotationKubeflowResourceStopped] data with Some JNull => true | _ => false end.

Section Order.
Context `{AE : ApiErrors, KE : K8sErrors, JQ : GoJq, CL : Clock, JT : JsonText, YT : YamlText, GT : GoTypes, WT : Wait, MO : MapOrder,
  AM : Apimachinery}.
Context (a : PatchAuthModelAction) (target : Target).

(** What a StatefulSet that has scaled down answers. *)
Definition scaled_down (x : res go_error json) : bool :=
  match x with
  | Ok sts => match spec_replicas sts with Ok (Some n) => n =? 0 | Ok None => true | _ => false end
  | Err err => IsNotFound err
  | Panic _ => false
  end.
Definition wb_next (t : wb_seen) (q : command) : answer q → wb_seen :=
  let '(mkWbSeen asked agreed listed read stopped down updated restarted) := t in
  match q return answer q → wb_seen with
  | KErrOut s => λ _, mkWbSeen s agreed listed read stopped down updated restarted
  | KReadLine => λ x, mkWbSeen asked (if confirmed x then asked else "") listed read stopped down updated restarted
  | KListAll rt _ => λ x, mkWbSeen asked agreed (if is_type rt Notebook then listed ++ default [] (res_opt x) else listed)%list
      read stopped down updated restarted
  | KGet rt ns name => λ x,
      mkWbSeen asked agreed listed
        (if is_type rt Notebook then match x with Ok nb => read ++ [((ns, name), nb)] | _ => read end else read)%list stopped
        (if is_type rt StatefulSet && scaled_down x then {[(ns, name)]} ∪ down else down) updated restarted
  | KPatch _ ns name _ data false => λ x,
      mkWbSeen asked agreed listed read (if negb (restarts data) && is_ok x then {[(ns, name)]} ∪ stopped else stopped) down updated
        (if restarts data then {[(ns, name)]} ∪ restarted else restarted)
  | KUpdate _ ns obj _ => λ x, mkWbSeen asked agreed listed read stopped down (if is_ok x then updated ++ [(ns, obj)] else updated)%list restarted
  | _ => λ _, mkWbSeen asked agreed listed read stopped down updated restarted
  end.

Definition wb_agreed (t : wb_seen) (question : string) : Prop :=
  tg_SkipConfirm target = true ∨ ws_Agreed t = question +:+ " [y/N]: ".
(** The cluster has shown this notebook, and it has under this key. *)
Definition known (t : wb_seen) (nb : json) : Prop := nb ∈ ws_Listed t ∨ ∃ k, (k, nb) ∈ ws_Read t.
Definition shown (t : wb_seen) (k : string * string) (nb : json) : Prop := (k, nb) ∈ ws_Read t ∨ (known t nb ∧ k = notebook_key nb).
Definition auto_stop : bool := negb (pm_SkipStop a) && negb (pm_OnlyStopped a).
(** A notebook that does not run: stopped before, or by this action, which saw
    it scale down. *)
Definition at_rest (t : wb_seen) (nb : json) : Prop := isStopped nb = true ∨ ∃ k, shown t k nb ∧ k ∈ ws_Stopped t ∧ k ∈ ws_Down t.

Definition wb_allowed (t : wb_seen) (q : command) : Prop :=
  match q with
  | KPatch rt ns name pt data false =>
      tg_DryRun target = false ∧ rt = Notebook ∧ pt = MergePatchType ∧ auto_stop = true ∧
      ((∃ nb timestamp, known t nb ∧ needsAuthModelPatch nb = true ∧ isStopped nb = false ∧ (ns, name) = notebook_key nb ∧
          data = stopped_patch (JStr timestamp)) ∨
       (∃ nb k, shown t k nb ∧ k ∈ ws_Stopped t ∧ (ns, name) = notebook_key nb ∧ data = stopped_patch JNull))
  | KUpdate rt ns obj false =>
      tg_DryRun target = false ∧ wb_agreed t patch_question ∧ rt = Notebook ∧
      ∃ nb, known t nb ∧ ns = GetNamespace nb ∧ applyAllPatches nb = Ok obj ∧
        (pm_SkipStop a = true ∨ at_rest t nb) ∧ (pm_OnlyStopped a = true → isStopped nb = true)
  | KDelete rt ns name =>
      tg_DryRun target = false ∧
      ((rt = StatefulSet ∧ ∃ nb obj, applyAllPatches nb = Ok obj ∧ (GetNamespace nb, obj) ∈ ws_Updated t ∧ (ns, name) = notebook_key nb) ∨
       (pm_WithCleanup a = true ∧ wb_agreed t cleanup_question ∧
          ∃ updated ns0 nb r, (ns0, updated) ∈ ws_Updated t ∧ (notebook_key updated, nb) ∈ ws_Read t ∧
            r ∈ cleanup_checks (GetName nb) (GetNamespace nb) ∧ rt = lr_type r ∧ ns = lr_namespace r ∧ name = lr_name r))
  | _ => mutates q = false ∧ writes_disk q = false
  end.
Notation spec := (spec wb_allowed wb_next).

(** *** What only grows *)
Record grown (t t' : wb_seen) : Prop := {
  gr_listed nb : nb ∈ ws_Listed t → nb ∈ ws_Listed t';
  gr_read e : e ∈ ws_Read t → e ∈ ws_Read t';
  gr_stopped : ws_Stopped t ⊆ ws_Stopped t';
  gr_down : ws_Down t ⊆ ws_Down t';
  gr_updated e : e ∈ ws_Updated t → e ∈ ws_Updated t';
  gr_restarted : ws_Restarted t ⊆ ws_Restarted t';
}.
#[local] Instance grown_PreOrder : PreOrder grown.
Proof.
  split; [by intros t; split|]. intros t1 t2 t3 [] []. split; [naive_solver..| | |naive_solver|]; by etrans.
Qed.
Lemma wb_next_grows t q x : grown t (wb_next t q x).
Proof.
  destruct t as [asked agreed listed read stopped down updated restarted].
  destruct q; try done; split; cbn; intros; repeat case_match; set_solver.
Qed.
Lemma grown_known t t' nb : grown t t' → known t nb → known t' nb.
Proof. intros Hg [H|[k H]]; [left; by eapply gr_listed|right]. exists k. by eapply gr_read. Qed.
Lemma grown_shown t t' k nb : grown t t' → shown t k nb → shown t' k nb.
Proof. intros Hg [H|[H Hk]]; [left; by eapply gr_read|right]. split; [by eapply grown_known|done]. Qed.
Lemma grown_at_rest t t' nb : grown t t' → at_rest t nb → at_rest t' nb.
Proof.
  intros Hg [H|(k & Hs & Hk & Hd)]; [by left|right]. exists k. split; [by eapply grown_shown|]. split; [by eapply gr_stopped|by eapply gr_down].
Qed.

Lemma harmless_is_allowed t q : harmless q → wb_allowed t q.
Proof. intros [Hm Hd]. destruct q as [| | |? ? ? []|? ? ? []| |? ? ? ? ? []| | | | | | | | | | | | | | | | | | | | | | | | |]; done. Qed.
Lemma harmless_grows {A} (m : M A) t : only harmless m → spec t m (λ _ t', grown t t').
Proof.
  intros Hm. apply (spec_only _ _ harmless (grown t)); [|..|done|done].
  - intros t' c Hc _. by apply harmless_is_allowed.
  - intros t' c x _ Ht'. etrans; [exact Ht'|apply wb_next_grows].
Qed.
(** Printing and recording leave the memory of the cluster as it is. *)
Definition same_cluster (t t' : wb_seen) : Prop :=
  ws_Listed t' = ws_Listed t ∧ ws_Read t' = ws_Read t ∧ ws_Stopped t' = ws_Stopped t ∧ ws_Down t' = ws_Down t ∧
  ws_Updated t' = ws_Updated t ∧ ws_Restarted t' = ws_Restarted t.
#[local] Instance same_cluster_PreOrder : PreOrder same_cluster.
Proof. split; [done|]. intros t1 t2 t3 H1 H2. unfold same_cluster in *. naive_solver congruence. Qed.
Lemma same_grown t t' : same_cluster t t' → grown t t'.
Proof. intros (H1 & H2 & H3 & H4 & H5 & H6). split; by rewrite ?H1, ?H2, ?H3, ?H4, ?H5, ?H6. Qed.
Lemma consent_spec t notice question :
  spec t (ask_consent target notice question) (λ r t', same_cluster t t' ∧ (r = Ok true → wb_agreed t' question)).
Proof.
  unfold ask_consent, Prompt, kOut, kErrOut. destruct (tg_SkipConfirm target) eqn:Hs.
  { apply spec_ret. split; [done|]. by left. }
  apply spec_bind, spec_bind, spec_call; [done|]. intros ?u. apply spec_ret.
  apply spec_bind, spec_bind, spec_call; [done|]. intros ?u. apply spec_ret.
  apply spec_bind, spec_bind, spec_call; [done|]. intros ?u. apply spec_ret.
  apply spec_bind, spec_call; [done|]. intros x. apply spec_ret. destruct t. split; [done|].
  intros [= Hx]. right. cbn. by rewrite Hx.
Qed.

(** *** Code that neither stops a notebook nor watches one scale down *)
Definition steady (t t' : wb_seen) : Prop := grown t t' ∧ ws_Stopped t' = ws_Stopped t ∧ ws_Down t' = ws_Down t.
#[local] Instance steady_PreOrder : PreOrder steady.
Proof. split; [by intros t|]. intros t1 t2 t3 (H1 & H2 & H3) (H4 & H5 & H6). split; [by etrans|]. split; congruence. Qed.
Lemma same_steady t t' : same_cluster t t' → steady t t'.
Proof. intros H. split; [by apply same_grown|]. by destruct H as (_ & _ & H3 & H4 & _). Qed.
Definition calm (q : command) : Prop :=
  harmless q ∧ match q with KGet rt _ _ => is_type rt StatefulSet = false | _ => True end.
Lemma steady_next t q x : calm q → steady t (wb_next t q x).
Proof.
  intros [[Hm _] Hs]. split; [apply wb_next_grows|]. destruct t. destruct q as [| | |? ? ? []|? ? ? []| |? ? ? ? ? []| | | | | | | | | | | | | | | | | | | | | | | | |]; try done.
  cbn. by rewrite Hs.
Qed.
Lemma calm_reads {A} (m : M A) t : only calm m → spec t m (λ _ t', steady t t').
Proof.
  intros Hm. apply (spec_only _ _ calm (steady t)); [|..|done|done].
  - intros t' c [Hc _] _. by apply harmless_is_allowed.
  - intros t' c x Hc Ht'. etrans; [exact Ht'|by apply steady_next].
Qed.
Lemma ask_steady t notice question :
  spec t (ask_consent target notice question) (λ r t', steady t t' ∧ (r = Ok true → wb_agreed t' question)).
Proof. eapply spec_mono; [apply consent_spec|]. intros r t' [H Ha]. split; [by apply same_steady|done]. Qed.

(** *** The list *)
Lemma only_list_step o step none : only calm (list_step o step none).
Proof. unfold list_step, ListNotebooks, fail_step. only_auto. Qed.
Lemma list_notebooks_spec t o :
  spec t (ListNotebooks o) (λ r t', steady t t' ∧ ∀ nbs nb, r = Ok nbs → nb ∈ nbs → known t' nb).
Proof.
  unfold ListNotebooks. case_match.
  - apply spec_bind, spec_map_err. unfold kGet. apply spec_bind, spec_call; [done|]. intros x. apply spec_lift. destruct x as [nb|e|p]; cbn [res_map_err].
    + apply spec_ret. split; [by apply steady_next|]. intros nbs nb' [= <-] Hin%list_elem_of_singleton. subst nb'.
      right. exists (sc_WorkbenchNamespace o, sc_WorkbenchName o). destruct t. cbn. apply elem_of_app. right. by left.
    + split; [by apply steady_next|done].
    + split; [by apply steady_next|done].
  - apply spec_map_err. unfold kListAll. apply spec_bind, spec_call; [done|]. intros x. apply spec_lift. split; [by apply steady_next|].
    intros nbs nb Hr Hin. destruct x as [l|e|p]; [|done..]. injection Hr as ->. left. destruct t. cbn.
    apply elem_of_app. by right.
Qed.
Lemma list_step_spec t o step none :
  spec t (list_step o step none) (λ r t', steady t t' ∧ ∀ nbs nb, r = Ok nbs → nb ∈ nbs → known t' nb).
Proof.
  unfold list_step, fail_step. apply spec_bind, spec_attempt. eapply spec_mono; [apply list_notebooks_spec|].
  intros [[|nb nbs]|e|p] t' [Hg Hk]; [| | |done].
  - apply spec_bind, spec_completef, spec_ret. split; [done|]. intros nbs nb [= <-] Hin. by apply elem_of_nil in Hin.
  - apply spec_ret. split; [done|]. intros nbs' nb' [= <-]. by apply Hk.
  - apply spec_bind, spec_completef, spec_ret. split; [done|]. intros nbs nb [= <-] Hin. by apply elem_of_nil in Hin.
Qed.

(** *** Stopping *)
Context `{WL : !WaitLaws}.
(** A failed wait saw no scale-down. *)
Definition waited (t t' : wb_seen) (k : string * string) (ok : bool) : Prop :=
  grown t t' ∧ ws_Stopped t' = ws_Stopped t ∧ ws_Down t' = if ok then {[k]} ∪ ws_Down t else ws_Down t.
Lemma scale_poll_spec t ns name :
  spec t (scale_poll name ns ()) (λ r t', waited t t' (ns, name) (match r with Ok (b, _) => b | _ => false end)).
Proof.
  unfold scale_poll, kGet. apply spec_bind, spec_attempt, spec_bind, spec_call; [done|]. intros x. apply spec_lift.
  assert (waited t (wb_next t (KGet StatefulSet ns name) x) (ns, name) (scaled_down x)) as Hw.
  { split; [apply wb_next_grows|]. destruct t. cbn. split; [done|]. by destruct (scaled_down x). }
  destruct x as [sts|e|p]; cbn [scaled_down] in Hw.
  - apply spec_bind, spec_map_err, spec_lift. destruct (spec_replicas sts) as [[n|]|e|p]; cbn [res_map_err]; [by apply spec_ret|by apply spec_ret|done..].
  - destruct (IsNotFound e); [by apply spec_ret|by apply spec_lift].
  - done.
Qed.
Lemma wait_spec t name ns :
  spec t (waitForStatefulSetScaleDown name ns) (λ r t', waited t t' (ns, name) (is_ok r)).
Proof using WL.
  unfold waitForStatefulSetScaleDown. apply spec_map_err.
  destruct (PollUntilContextTimeout_retries stopWaitInterval stopWaitTimeout) as (n & timeout & _ & ->).
  eapply spec_mono; [apply (spec_retry _ _ (λ _ t', waited t t' (ns, name) false) (λ _ t', waited t t' (ns, name) false) _ _ _ _ _
    (λ _ t', waited t t' (ns, name) true))|].
  - intros [] t' (Hg & Hs & Hd). eapply spec_mono; [apply scale_poll_spec|]. unfold waited.
    intros [[[] []]|e|p] t'' (Hg' & Hs' & Hd'); (split; [by etrans|]); split; congruence.
  - done.
  - by split.
  - by intros [u|e|p] t'.
Qed.
Lemma restarts_stop timestamp : restarts (stopped_patch (JStr timestamp)) = false.
Proof. done. Qed.
Lemma stop_spec t nb step :
  tg_DryRun target = false → auto_stop = true → known t nb → needsAuthModelPatch nb = true → isStopped nb = false →
  spec t (stopWorkbench nb step) (λ r t', grown t t' ∧
    if is_ok r then ws_Stopped t' = {[notebook_key nb]} ∪ ws_Stopped t ∧ ws_Down t' = {[notebook_key nb]} ∪ ws_Down t
    else ws_Stopped t' ⊆ {[notebook_key nb]} ∪ ws_Stopped t ∧ ws_Stopped t ⊆ ws_Stopped t' ∧ ws_Down t' = ws_Down t).
Proof using WL.
  intros Hd Ha Hk Hn Hs. unfold stopWorkbench. apply spec_bind, spec_call; [done|]. intros timestamp.
  assert (known (wb_next t KNow timestamp) nb) as Hk1 by (by destruct t).
  assert (grown t (wb_next t KNow timestamp) ∧ ws_Stopped (wb_next t KNow timestamp) = ws_Stopped t ∧
    ws_Down (wb_next t KNow timestamp) = ws_Down t) as (Hg1 & Hs1 & Hd1) by (split; [apply wb_next_grows|]; by destruct t).
  revert Hk1 Hg1 Hs1 Hd1. generalize (wb_next t KNow timestamp). intros t1 Hk1 Hg1 <- <-.
  unfold kPatch. apply spec_bind, spec_map_err, spec_bind, spec_call.
  { split; [done|]. split_and!; [done..|]. left. by exists nb, timestamp. }
  intros x. apply spec_lift. set (t2 := wb_next t1 _ x). assert (grown t1 t2) as Hg2 by apply wb_next_grows.
  assert (ws_Stopped t2 = (if is_ok x then {[notebook_key nb]} ∪ ws_Stopped t1 else ws_Stopped t1) ∧ ws_Down t2 = ws_Down t1) as [Hs2 Hd2]
    by (by destruct t1, x). clearbody t2.
  assert (grown t t2) as Hg by (by etrans). destruct x as [o|e|p]; cbn [res_map_err is_ok] in *.
  2,3: by rewrite Hs2, Hd2; split_and!; [done|set_solver..].
  apply spec_bind, spec_recordf, spec_bind, spec_attempt. eapply spec_mono; [apply wait_spec|].
  intros [u|e|p] t3 (Hg3 & Hs3 & Hd3); cbn [is_ok] in Hd3.
  - apply spec_ret. split; [by etrans|]. cbn [is_ok]. rewrite Hs3, Hd3, Hs2, Hd2. done.
  - apply spec_bind, spec_recordf, spec_lift. split; [by etrans|]. cbn [is_ok]. rewrite Hs3, Hd3, Hs2, Hd2. set_solver.
  - split; [by etrans|]. cbn [is_ok]. rewrite Hs3, Hd3, Hs2, Hd2. set_solver.
Qed.

(** What is to be patched, and what is owed a restart. *)
Definition may_patch (t : wb_seen) (nb : json) : Prop :=
  known t nb ∧ (pm_SkipStop a = true ∨ at_rest t nb) ∧ (pm_OnlyStopped a = true → isStopped nb = true).
Record owed (t : wb_seen) (stopped : list json) : Prop := {
  ow_stopped nb : nb ∈ stopped → auto_stop = true ∧ ∃ k, shown t k nb ∧ k ∈ ws_Stopped t;
  ow_owed k : k ∈ ws_Down t → ∃ nb, nb ∈ stopped ∧ shown t k nb;
  ow_down : ws_Down t ⊆ ws_Stopped t;
}.
Lemma may_patch_grown t t' nb : grown t t' → may_patch t nb → may_patch t' nb.
Proof.
  intros Hg (Hk & Hr & Ho). split; [by eapply grown_known|]. split; [|done]. destruct Hr as [Hr|Hr]; [by left|right; by eapply grown_at_rest].
Qed.
Lemma owed_step t t' l l' :
  grown t t' → owed t l → ws_Down t' = ws_Down t → ws_Down t' ⊆ ws_Stopped t' → (∀ nb, nb ∈ l → nb ∈ l') →
  (∀ nb, nb ∈ l' → nb ∈ l ∨ auto_stop = true ∧ ∃ k, shown t' k nb ∧ k ∈ ws_Stopped t') → owed t' l'.
Proof.
  intros Hg [H1 H2 H3] Hd Hds Hin Hnew. split; [| |done].
  - intros nb [Hl|?]%Hnew; [|done]. destruct (H1 nb Hl) as (? & k & Hs & Hk). split; [done|]. exists k. split; [by eapply grown_shown|by eapply gr_stopped].
  - intros k Hk. rewrite Hd in Hk. destruct (H2 k Hk) as (nb & Hl & Hs). exists nb. split; [auto|by eapply grown_shown].
Qed.
Lemma owed_steady t t' l : steady t t' → owed t l → owed t' l.
Proof. intros (Hg & Hs & Hd) Ho. apply (owed_step t t' l l Hg Ho); [done| |done|by left]. rewrite Hs, Hd. apply Ho. Qed.

Lemma stop_one_spec t step toPatch stopped nb :
  tg_DryRun target = false → auto_stop = true → known t nb → needsAuthModelPatch nb = true →
  (∀ x, x ∈ toPatch → may_patch t x) → owed t stopped →
  spec t (stop_one target step (toPatch, stopped) nb) (λ r t', grown t t' ∧ match r with
    | Ok (toPatch', stopped') => (∀ x, x ∈ toPatch' → may_patch t' x) ∧ owed t' stopped'
    | _ => True end).
Proof using WL.
  intros Hd Ha Hk Hn Hr Ho. assert (pm_OnlyStopped a = false) as Honly.
  { unfold auto_stop in Ha. destruct (pm_SkipStop a), (pm_OnlyStopped a); done. }
  unfold stop_one. destruct (isStopped nb) eqn:Hs.
  { apply spec_ret. split; [done|]. split; [|done]. intros x [Hx| ->%list_elem_of_singleton]%elem_of_app; [auto|]. split; [done|]. split; [by right; left|done]. }
  rewrite Hd. apply spec_bind, spec_attempt. eapply spec_mono; [by apply stop_spec|].
  intros [u|e|p] t1 [Hg1 H1]; cbn [is_ok] in H1; [| |done].
  2: { apply spec_bind, spec_recordf, spec_ret. split; [done|]. split; [intros x Hx; by eapply may_patch_grown, Hr|].
       destruct H1 as (_ & Hsub & Hd1). apply (owed_step t t1 stopped stopped Hg1 Ho Hd1); [|done|by left]. rewrite Hd1. etrans; [apply Ho|done]. }
  destruct H1 as [Hs1 Hd1]. assert (known t1 nb) as Hk1 by by eapply grown_known. unfold kGet.
  apply spec_bind, spec_attempt, spec_bind, spec_call; [done|]. intros x. apply spec_lift. set (t2 := wb_next t1 _ x).
  assert (steady t1 t2) as Hst by by apply steady_next. pose proof Hst as (Hg2 & Hs2 & Hd2).
  assert (grown t t2) as Hg by by etrans.
  assert (∀ y, shown t2 (notebook_key nb) y → owed t2 (stopped ++ [y])%list) as Howed.
  { intros y Hy. split.
    - intros z [Hz| ->%list_elem_of_singleton]%elem_of_app.
      + destruct (ow_stopped _ _ Ho z Hz) as (? & k & Hsh & Hin). split; [done|]. exists k. split; [by eapply grown_shown|by eapply gr_stopped].
      + split; [done|]. exists (notebook_key nb). split; [done|]. rewrite Hs2, Hs1. set_solver.
    - intros k Hin. rewrite Hd2, Hd1 in Hin. apply elem_of_union in Hin as [->%elem_of_singleton|Hin].
      + exists y. split; [apply elem_of_app; right; by left|done].
      + destruct (ow_owed _ _ Ho k Hin) as (z & Hz & Hsh). exists z. split; [apply elem_of_app; by left|by eapply grown_shown].
    - rewrite Hd2, Hd1, Hs2, Hs1. pose proof (ow_down _ _ Ho). set_solver. }
  destruct x as [refreshed|e|p].
  - apply spec_ret. split; [done|]. assert (shown t2 (notebook_key nb) refreshed) as Hsh.
    { left. subst t2. destruct t1. cbn. apply elem_of_app. right. by left. }
    split; [|by apply Howed]. intros y [Hy| ->%list_elem_of_singleton]%elem_of_app; [by eapply may_patch_grown, Hr|].
    split; [destruct Hsh as [Hsh|[Hsh _]]; [right; by exists (notebook_key nb)|done]|]. split; [|congruence]. right. right. exists (notebook_key nb).
    split; [done|]. rewrite Hs2, Hs1, Hd2, Hd1. set_solver.
  - apply spec_bind, spec_recordf, spec_ret. split; [done|]. split; [intros y Hy; by eapply may_patch_grown, Hr|].
    apply Howed. right. split; [by eapply grown_known|done].
  - done.
Qed.

Lemma handle_spec t notebooks :
  tg_DryRun target = false → ws_Down t ⊆ ∅ →
  (∀ nb, nb ∈ notebooks → known t nb ∧ needsAuthModelPatch nb = true) →
  spec t (handleLifecycle target a notebooks) (λ r t', match r with
    | Ok (toPatch, stopped) => (∀ x, x ∈ toPatch → may_patch t' x) ∧ owed t' stopped
    | _ => True end).
Proof using WL.
  intros Hd Hdown Hnbs. assert (owed t []) as Ho.
  { split; [by intros nb ?%elem_of_nil|by intros k Hk%Hdown|set_solver]. }
  unfold handleLifecycle. destruct (pm_OnlyStopped a) eqn:Honly.
  { apply spec_bind, spec_child. intros step. apply spec_bind, spec_completef, spec_ret. split; [|done].
    intros x [Hx Hs]%list_elem_of_In%filter_In. apply list_elem_of_In in Hx. split; [by apply Hnbs|]. split; [by right; left|done]. }
  destruct (pm_SkipStop a) eqn:Hskip.
  { apply spec_ret. split; [|done]. intros x Hx. split; [by apply Hnbs|]. split; [by left|congruence]. }
  apply spec_bind, spec_child. intros step. assert (auto_stop = true) as Ha by (unfold auto_stop; by rewrite Honly, Hskip).
  apply spec_bind. eapply spec_mono.
  - apply (spec_fold _ _ (λ _ acc t', grown t t' ∧ (∀ x, x ∈ acc.1 → may_patch t' x) ∧ owed t' acc.2) (λ _ _, True)); [|by split_and!; [|intros x ?%elem_of_nil|]].
    intros past [toPatch stopped] t1 nb Hin (Hg1 & Hr1 & Ho1). destruct (Hnbs nb Hin) as [Hk Hn].
    eapply spec_mono; [apply (stop_one_spec t1 step toPatch stopped nb Hd Ha); [by eapply grown_known|done|exact Hr1|exact Ho1]|].
    intros [[tp st]|e|p] t2 [Hg2 H2]; [|done..]. split; [by etrans|exact H2].
  - intros [[tp st]|e|p] t2 H; [|done..]. apply spec_bind, spec_completef, spec_ret. by destruct H as [_ H].
Qed.

(** *** The patches *)
Definition was_updated (t : wb_seen) (obj : json) : Prop := ∃ ns, (ns, obj) ∈ ws_Updated t.
Lemma was_grown t t' obj : grown t t' → was_updated t obj → was_updated t' obj.
Proof. intros Hg [ns H]. exists ns. by eapply gr_updated. Qed.
(** Nothing is stopped, watched or asked meanwhile. *)
Definition quiet (t t' : wb_seen) : Prop := steady t t' ∧ ws_Agreed t' = ws_Agreed t.
#[local] Instance quiet_PreOrder : PreOrder quiet.
Proof. split; [by intros t|]. intros t1 t2 t3 (H1 & H2) (H3 & H4). split; [by etrans|congruence]. Qed.
Lemma quiet_agreed t t' question : quiet t t' → wb_agreed t question → wb_agreed t' question.
Proof. intros [_ Ha] [H|H]; [by left|right; congruence]. Qed.

Lemma delete_set_spec t nb obj step :
  tg_DryRun target = false → applyAllPatches nb = Ok obj → (GetNamespace nb, obj) ∈ ws_Updated t →
  spec t (deleteStatefulSet nb step) (λ r t', quiet t t').
Proof.
  intros Hd Ho Hu. unfold deleteStatefulSet, kDelete. apply spec_bind, spec_attempt, spec_bind, spec_call.
  { split; [done|]. left. split; [done|]. by exists nb, obj. }
  intros x. apply spec_lift. assert (quiet t (wb_next t (KDelete StatefulSet (GetNamespace nb) (GetName nb)) x)) as Hq.
  { split; [split; [apply wb_next_grows|]|]; by destruct t. }
  destruct x as [u|e|p]; [| |done].
  - by apply spec_bind, spec_recordf, spec_ret.
  - destruct (IsNotFound e); by apply spec_bind, spec_recordf, spec_ret.
Qed.
Lemma patch_one_spec t step patched failCount nb :
  tg_DryRun target = false → wb_agreed t patch_question → may_patch t nb → (∀ x, x ∈ patched → was_updated t x) →
  spec t (patch_one step (patched, failCount) nb) (λ r t', quiet t t' ∧ match r with
    | Ok (patched', _) => ∀ x, x ∈ patched' → was_updated t' x
    | _ => True end).
Proof.
  intros Hd Hag (Hk & Hrest & Honly) Hp. unfold patch_one, fail_step. apply spec_bind, spec_child. intros nbStep.
  destruct (applyAllPatches nb) as [modified|e|p] eqn:Ho; [|by apply spec_bind, spec_completef, spec_ret|by apply spec_lift].
  unfold kUpdate. apply spec_bind, spec_attempt, spec_bind, spec_call.
  { split; [done|]. split; [done|]. split; [done|]. exists nb. by split_and!. }
  intros x. apply spec_lift. set (t1 := wb_next t _ x). assert (quiet t t1) as Hq1 by (split; [split; [apply wb_next_grows|]|]; by destruct t).
  pose proof Hq1 as [[Hg1 _] _]. assert (∀ y, y ∈ patched → was_updated t1 y) as Hp1 by (intros y Hy; by eapply was_grown, Hp).
  destruct x as [o|e|p]; [| |done].
  2: { apply spec_bind, spec_completef, spec_ret. by split. }
  assert ((GetNamespace nb, modified) ∈ ws_Updated t1) as Hu by (subst t1; destruct t; cbn; apply elem_of_app; right; by left).
  apply spec_bind, spec_recordf, spec_bind. eapply spec_mono; [by apply (delete_set_spec t1 nb modified)|].
  intros r t2 Hq2. assert (quiet t t2) as Hq by by etrans. pose proof Hq2 as [[Hg2 _] _].
  destruct r as [[]|e|p]; cbn [negb]; [| |done..]; apply spec_bind, spec_completef, spec_ret; (split; [done|]).
  - intros y [Hy| ->%list_elem_of_singleton]%elem_of_app; [by eapply was_grown, Hp1|]. exists (GetNamespace nb). by eapply gr_updated.
  - intros y Hy. by eapply was_grown, Hp1.
Qed.
Lemma patch_notebooks_spec t toPatch :
  tg_DryRun target = false → wb_agreed t patch_question → (∀ x, x ∈ toPatch → may_patch t x) →
  spec t (patchNotebooks toPatch) (λ r t', steady t t' ∧ ∀ patched x, r = Ok patched → x ∈ patched → was_updated t' x).
Proof.
  intros Hd Hag Hr. unfold patchNotebooks. apply spec_bind, spec_child. intros step. apply spec_bind. eapply spec_mono.
  - apply (spec_fold _ _ (λ _ acc t', quiet t t' ∧ ∀ x, x ∈ acc.1 → was_updated t' x) (λ _ t', quiet t t')); [|by split; [|intros x ?%elem_of_nil]].
    intros past [patched failCount] t1 nb Hin [Hq1 Hp1]. pose proof Hq1 as [[Hg1 _] _].
    eapply spec_mono; [apply (patch_one_spec t1 step patched failCount nb Hd);
      [by eapply quiet_agreed|by eapply may_patch_grown, Hr|exact Hp1]|].
    intros [[p' f']|e|p] t2 [Hq2 H2]; [split; [by etrans|exact H2]|by etrans|by etrans].
  - intros [[patched failCount]|e|p] t1 H; [|by destruct H..]. destruct H as [[Hst _] Hp].
    apply spec_bind. apply (spec_mono _ _ _ _ (λ r t', r = Ok () ∧ t' = t1)); [destruct (0 <? failCount)%nat; by apply spec_completef|].
    intros r t2 [-> ->]. apply spec_ret. split; [done|]. intros p' x [= <-]. apply Hp.
Qed.

(** *** The cleanup after the patch *)
(** The two lists name the same resources. *)
Lemma deletions_of_checks name ns : oauth_deletions name ns = map (λ r, (lr_type r, lr_name r, lr_namespace r)) (cleanup_checks name ns).
Proof. reflexivity. Qed.
Lemma deletion_checked name ns x :
  x ∈ oauth_deletions name ns → ∃ r, r ∈ cleanup_checks name ns ∧ x = (lr_type r, lr_name r, lr_namespace r).
Proof. rewrite deletions_of_checks. intros (r & -> & Hr)%list_elem_of_fmap. by exists r. Qed.
Lemma check_deleted name ns r : r ∈ cleanup_checks name ns → (lr_type r, lr_name r, lr_namespace r) ∈ oauth_deletions name ns.
Proof. rewrite deletions_of_checks. intros Hr. apply list_elem_of_fmap. by exists r. Qed.
Lemma delete_resources_spec t obj nb step :
  tg_DryRun target = false → pm_WithCleanup a = true → wb_agreed t cleanup_question → was_updated t obj → (notebook_key obj, nb) ∈ ws_Read t →
  spec t (deleteOAuthResources target nb step) (λ r t', quiet t t').
Proof.
  intros Hd Hc Hag [ns0 Hu] Hread. unfold deleteOAuthResources. apply spec_bind. eapply spec_mono.
  - apply (spec_fold _ _ (λ _ _ t', quiet t t') (λ _ t', quiet t t')); [|done].
    intros past b t1 [[rt name] ns] Hin Hq. pose proof Hq as [[Hg _] _]. apply deletion_checked in Hin as (r & Hin & [= -> -> ->]).
    unfold delete_one, DeleteResourceIfPresent. rewrite Hd. apply spec_bind. unfold kDelete.
    apply spec_bind, spec_attempt, spec_bind, spec_call.
    { split; [done|]. right. split; [done|]. split; [by eapply quiet_agreed|]. exists obj, ns0, nb, r.
      split; [by eapply gr_updated|]. split; [by eapply gr_read|]. by split_and!. }
    intros x. apply spec_lift. assert (quiet t1 (wb_next t1 (KDelete (lr_type r) (lr_namespace r) (lr_name r)) x)) as Hq1.
    { split; [split; [apply wb_next_grows|]|]; by destruct t1. }
    assert (quiet t (wb_next t1 (KDelete (lr_type r) (lr_namespace r) (lr_name r)) x)) as Hq2 by by etrans.
    destruct x as [u|e|p]; [| |done]; [|destruct (IsNotFound e)]; by apply spec_bind, spec_recordf, spec_ret, spec_ret.
  - intros [[]|e|p] t1 Hq; [|destruct (tg_DryRun target)|done..]; [by apply spec_bind, spec_completef, spec_ret|..];
      by apply spec_bind, spec_completef, spec_ret.
Qed.
Lemma clean_patched_spec t step counts obj :
  tg_DryRun target = false → pm_WithCleanup a = true → wb_agreed t cleanup_question → was_updated t obj →
  spec t (clean_patched target step counts obj) (λ r t', quiet t t').
Proof.
  intros Hd Hc Hag Hu. destruct counts as [successCount failCount]. unfold clean_patched, kGet.
  apply spec_bind, spec_attempt, spec_bind, spec_call; [done|]. intros x. apply spec_lift. set (t1 := wb_next t _ x).
  assert (quiet t t1) as Hq1 by (split; [by apply steady_next|by destruct t]). pose proof Hq1 as [[Hg1 _] _].
  destruct x as [nb|e|p]; [|by apply spec_bind, spec_recordf, spec_ret|done].
  assert ((notebook_key obj, nb) ∈ ws_Read t1) as Hr by (subst t1; destruct t; cbn; apply elem_of_app; right; by left).
  apply spec_bind. unfold CleanupNotebookAfterPatch, cleanup_step. apply spec_bind, spec_child. intros cs.
  eapply spec_mono; [apply (delete_resources_spec t1 obj nb cs Hd Hc); [by eapply quiet_agreed|by eapply was_grown|exact Hr]|].
  intros [r|e|p] t2 Hq2; [apply spec_ret|..]; by etrans.
Qed.
Lemma run_cleanup_spec t patched :
  tg_DryRun target = false → pm_WithCleanup a = true → (∀ x, x ∈ patched → was_updated t x) →
  spec t (runCleanup target patched) (λ r t', steady t t').
Proof.
  intros Hd Hc Hp. unfold runCleanup. rewrite Hd. apply spec_bind. eapply spec_mono; [apply ask_steady|].
  intros [[]|e|p] t1 [Hst Hag]; cbn [negb]; [|by apply spec_recordf|done..]. specialize (Hag eq_refl). pose proof Hst as [Hg1 _].
  apply spec_bind, spec_child. intros step. apply spec_bind. eapply spec_mono.
  - apply (spec_fold _ _ (λ _ _ t', quiet t1 t') (λ _ t', quiet t1 t')); [|done]. intros past counts t2 x Hin Hq. pose proof Hq as [[Hg2 _] _].
    eapply spec_mono; [apply (clean_patched_spec t2 step counts x Hd Hc); [by eapply quiet_agreed|]|].
    + eapply was_grown; [exact Hg2|]. by eapply was_grown, Hp.
    + intros [s|e|p] t3 Hq3; by etrans.
  - intros [[s f]|e|p] t2 [Hq _]; [|by etrans..]. destruct (0 <? f)%nat; apply spec_completef; by etrans.
Qed.

(** *** Starting again *)
Lemma restart_spec t nb step k :
  tg_DryRun target = false → auto_stop = true → shown t k nb → k ∈ ws_Stopped t →
  spec t (restartWorkbench nb step) (λ r t', steady t t' ∧ notebook_key nb ∈ ws_Restarted t').
Proof.
  intros Hd Ha Hs Hk. unfold restartWorkbench, kPatch. apply spec_bind, spec_attempt, spec_bind, spec_call.
  { split; [done|]. split_and!; [done..|]. right. by exists nb, k. }
  intros x. apply spec_lift. set (t1 := wb_next t _ x).
  assert (steady t t1 ∧ notebook_key nb ∈ ws_Restarted t1) as H.
  { split; [split; [apply wb_next_grows|]; by destruct t|]. subst t1. destruct t. cbn. apply elem_of_union. left. by apply elem_of_singleton. }
  destruct x as [o|e|p]; [by apply spec_recordf..|done].
Qed.
Lemma restart_each_spec t step l :
  tg_DryRun target = false → auto_stop = true → (∀ nb, nb ∈ l → ∃ k, shown t k nb ∧ k ∈ ws_Stopped t) →
  spec t (m_each (λ nb, restartWorkbench nb step) l)
    (λ r t', steady t t' ∧ (is_ok r = true → ∀ nb, nb ∈ l → notebook_key nb ∈ ws_Restarted t')).
Proof.
  intros Hd Ha. revert t. induction l as [|nb l IH]; intros t Hl; cbn [m_each].
  { apply spec_ret. split; [done|]. by intros _ nb ?%elem_of_nil. }
  destruct (Hl nb) as (k & Hs & Hk); [by left|]. apply spec_bind. eapply spec_mono; [by apply (restart_spec t nb step k)|].
  intros [u|e|p] t1 [Hst Hin]; [|by split..]. pose proof Hst as (Hg & Hs1 & _). eapply spec_mono; [apply IH|].
  - intros nb' Hnb'. destruct (Hl nb') as (k' & Hs' & Hk'); [by right|]. exists k'. split; [by eapply grown_shown|]. by rewrite Hs1.
  - intros r t2 [Hst2 H2]. split; [by etrans|]. intros Hr nb' [->|Hnb']%elem_of_cons; [|by apply H2]. by eapply gr_restarted; [apply Hst2|].
Qed.
(** Everything stopped and seen to scale down has been asked to start again. *)
Definition restarted (t : wb_seen) : Prop :=
  ∀ k, k ∈ ws_Down t → k ∈ ws_Stopped t ∧ ∃ nb, shown t k nb ∧ notebook_key nb ∈ ws_Restarted t.
Lemma restarted_steady t t' : steady t t' → restarted t → restarted t'.
Proof.
  intros (Hg & Hs & Hd) Hr k. rewrite Hd, Hs. intros Hk. destruct (Hr k Hk) as (? & nb & Hsh & Hin). split; [done|].
  exists nb. split; [by eapply grown_shown|by eapply gr_restarted].
Qed.
Lemma restart_notebooks_spec t stopped :
  tg_DryRun target = false → owed t stopped →
  spec t (restartNotebooks stopped) (λ r t', steady t t' ∧ (is_ok r = true → restarted t')).
Proof.
  intros Hd Ho. unfold restartNotebooks. destruct stopped as [|nb0 l].
  { apply spec_ret. split; [done|]. intros _ k Hk. destruct (ow_owed _ _ Ho k Hk) as (nb & Hin & _). by apply elem_of_nil in Hin. }
  apply spec_bind, spec_child. intros step. apply spec_bind.
  assert (auto_stop = true) as Ha by (apply (ow_stopped _ _ Ho nb0); by left).
  eapply spec_mono; [apply (restart_each_spec t step (nb0 :: l) Hd Ha); intros nb Hin; by apply (ow_stopped _ _ Ho nb)|].
  intros [u|e|p] t1 [Hst H1]; [|by split..]. apply spec_completef. split; [done|]. intros _ k Hk. pose proof Hst as (Hg & Hs & Hdn).
  rewrite Hdn in Hk. rewrite Hs. split; [by apply (ow_down _ _ Ho)|]. destruct (ow_owed _ _ Ho k Hk) as (nb & Hin & Hsh).
  exists nb. split; [by eapply grown_shown|by apply H1].
Qed.

(** *** The task *)
Lemma terminating_only patched : only calm (check_terminating a patched).
Proof.
  unfold check_terminating, checkKueueTerminatingPods, kKueueEnabledNamespaces, enabled_namespaces, stuck_pod. only_auto.
Qed.
Lemma patch_stopped_spec t toPatch stopped :
  tg_DryRun target = false → (∀ x, x ∈ toPatch → may_patch t x) → owed t stopped →
  spec t (patch_stopped target a toPatch stopped) (λ r t', is_ok r = true → restarted t').
Proof.
  intros Hd Hr Ho. unfold patch_stopped. rewrite Hd. apply spec_bind. eapply spec_mono; [apply ask_steady|].
  intros [[]|e|p] t1 [Hst Hag]; cbn [negb]; [| |done..]; pose proof Hst as [Hg _].
  2: { apply spec_bind, spec_recordf. eapply spec_mono; [apply (restart_notebooks_spec t1 stopped Hd); by eapply owed_steady|]. naive_solver. }
  apply spec_bind. eapply spec_mono; [apply (patch_notebooks_spec t1 toPatch Hd); [by apply Hag|intros x Hx; by eapply may_patch_grown, Hr]|].
  intros [patched|e|p] t2 [Hst2 Hp]; [|done..]. apply spec_bind. apply (spec_mono _ _ _ _ (λ _ t', steady t2 t')).
  { destruct (pm_WithCleanup a) eqn:Hc; cbn [andb]; [|by apply spec_ret]. destruct (0 <? length patched)%nat; [|by apply spec_ret].
    apply (run_cleanup_spec t2 patched Hd Hc). intros x Hx. by apply (Hp patched x). }
  intros [u|e|p] t3 Hst3; [|done..]. apply spec_bind. eapply spec_mono.
  { apply (restart_notebooks_spec t3 stopped Hd). eapply owed_steady; [|exact Ho]. etrans; [exact Hst|]. by etrans. }
  intros [u'|e|p] t4 [Hst4 H4]; [|done..]. eapply spec_mono; [apply calm_reads, terminating_only|].
  intros r t5 Hst5 _. eapply restarted_steady; [exact Hst5|]. by apply H4.
Qed.
Lemma patch_all_spec t notebooks :
  tg_DryRun target = false → ws_Down t ⊆ ∅ → (∀ nb, nb ∈ notebooks → known t nb ∧ needsAuthModelPatch nb = true) →
  spec t (patch_all target a notebooks) (λ r t', is_ok r = true → restarted t').
Proof using WL.
  intros Hd Hdown Hk. unfold patch_all. apply spec_bind. eapply spec_mono; [by apply handle_spec|].
  intros [[toPatch stopped]|e|p] t1 H; [|done..]. destruct H as [Hr Ho]. destruct toPatch as [|nb l]; [|by apply patch_stopped_spec].
  eapply spec_mono; [by apply (restart_notebooks_spec t1 stopped Hd)|]. naive_solver.
Qed.
Lemma auth_run_spec :
  tg_DryRun target = false → spec wb_start (AuthRun_Execute target a) (λ r t', is_ok r = true → restarted t').
Proof using WL.
  intros Hd. assert (∀ t, ws_Down t = ∅ → restarted t) as Hnone by (intros t Ht k; rewrite Ht; set_solver).
  unfold AuthRun_Execute. apply spec_bind, spec_lift. destruct (validateFlags a); [|by intros; apply Hnone..].
  apply spec_bind, spec_child. intros step. apply spec_bind. eapply spec_mono; [apply list_step_spec|].
  intros [notebooks|e|p] t1 [(Hg & Hs & Hdn) Hk]; [|done..]. cbn in Hs, Hdn.
  assert (∀ (r : res go_error execution), is_ok r = true → restarted t1) as Hret by (intros; by apply Hnone).
  destruct notebooks as [|nb l]; [by unfold built; apply spec_bind, spec_build; intros x; apply spec_ret, (Hret (Ok (Some x, None)))|].
  unfold classifyNotebooks. apply spec_bind, spec_completef. set (toPatch := List.filter needsAuthModelPatch (nb :: l)).
  assert (∀ x, x ∈ toPatch → known t1 x ∧ needsAuthModelPatch x = true) as Hneed.
  { intros x [Hx Hn]%list_elem_of_In%filter_In. split; [|done]. apply (Hk (nb :: l)); [done|]. by apply list_elem_of_In. }
  clearbody toPatch. destruct toPatch as [|x xs]; [unfold built; apply spec_bind, spec_build; intros r; apply spec_ret, (Hret (Ok (Some r, None)))|].
  apply spec_bind. eapply spec_mono; [apply (patch_all_spec t1 (x :: xs) Hd); [by rewrite Hdn|exact Hneed]|].
  intros [u|e|p] t2 H2; [|done..]. unfold built. apply spec_bind, spec_build. intros r. apply spec_ret. intros _. by apply H2.
Qed.
End Order.

(** ** Dry runs *)
Section DryRuns.
Context `{AE : ApiErrors, KE : K8sErrors, JQ : GoJq, CL : Clock, JT : JsonText, YT : YamlText, GT : GoTypes, WT : Wait, MO : MapOrder,
  AM : Apimachinery}.
Context (target : Target).

Lemma namespaces_only : only harmless kKueueEnabledNamespaces.
Proof. unfold kKueueEnabledNamespaces, enabled_namespaces. only_auto. Qed.
Lemma verification_only_reads o VerifyPhase : only harmless (Verify_Execute o VerifyPhase).
Proof.
  unfold Verify_Execute, list_step, ListNotebooks, verifyNotebook, GetRunningState, WorkbenchSteps.run_checks, CheckCleanupState, check_gone,
    resourceExists, buildSummaryStep, detail_if, fail_step. only_auto.
Qed.
Lemma backup_dry notebooks step : tg_DryRun target = true → only harmless (backupNotebooks target notebooks step).
Proof. intros Hd. unfold backupNotebooks. rewrite Hd. only_auto. Qed.
Lemma backup_keeps_cluster notebooks step : only (λ c, mutates c = false) (backupNotebooks target notebooks step).
Proof. unfold backupNotebooks, backup_namespace, kWriteResourcesToDir, kWriteResourceToFile. only_auto. Qed.
Lemma verify_model_only notebooks : only harmless (verifyAuthModel notebooks).
Proof. unfold verifyAuthModel, verify_one. only_auto. Qed.
Lemma inspect_only step what notebooks : only harmless (inspect step what notebooks).
Proof. unfold inspect, inspect_one. only_auto. Qed.
Lemma non_stopped_only force notebooks step : only harmless (handleNonStoppedNotebooks target force notebooks step).
Proof. unfold handleNonStoppedNotebooks. only_auto. Qed.
Lemma prepare_keeps_cluster a :
  only (λ c, mutates c = false) (AuthPrepare_Execute target a) ∧ only (λ c, mutates c = false) (UpgradePrepare_Execute target).
Proof.
  unfold AuthPrepare_Execute, UpgradePrepare_Execute, list_step, ListNotebooks, listNotebooks, fail_step.
  pose proof backup_keeps_cluster. split; only_auto; auto.
Qed.

Context (Hdry : tg_DryRun target = true).
Lemma cleanup_dry o : only harmless (Cleanup_Execute target o).
Proof using Hdry.
  unfold Cleanup_Execute, list_step, ListNotebooks, cleanup_all, cleanup_one, CleanupNotebook, cleanup_step, deleteOAuthResources, delete_one,
    DeleteResourceIfPresent, fail_step. rewrite Hdry. only_auto.
Qed.
(** A dry run stops nothing, so it has nothing to start again. *)
Notation spec := (spec (λ _, harmless) (λ _ _ _, ()) ()).
Lemma only_spec {A} (m : M A) : only harmless m ↔ spec m (λ _ _, True).
Proof. done. Qed.
Lemma handle_dry a notebooks : spec (handleLifecycle target a notebooks) (λ r _, match r with Ok (_, stopped) => stopped = [] | _ => True end).
Proof using Hdry.
  unfold handleLifecycle. destruct (pm_OnlyStopped a).
  { apply spec_bind, spec_child. intros step. by apply spec_bind, spec_completef, spec_ret. }
  destruct (pm_SkipStop a); [by apply spec_ret|]. apply spec_bind, spec_child. intros step. apply spec_bind. eapply spec_mono.
  - apply (spec_fold _ _ (λ _ acc _, acc.2 = []) (λ _ _, True)); [|done]. intros past [toPatch stopped] [] nb _ Hs. cbn in Hs. subst stopped.
    unfold stop_one. rewrite Hdry. destruct (isStopped nb); [by apply spec_ret|]. by apply spec_bind, spec_recordf, spec_ret.
  - intros [[tp st]|e|p] [] Hst; [|done..]. by apply spec_bind, spec_completef, spec_ret.
Qed.
Lemma patch_all_dry a notebooks : only harmless (patch_all target a notebooks).
Proof using Hdry.
  apply only_spec. unfold patch_all. apply spec_bind. eapply spec_mono; [apply handle_dry|].
  intros [[toPatch stopped]|e|p] [] Hst; [|done..]. cbn in Hst. subst stopped. destruct toPatch as [|nb l]; [by apply spec_ret|].
  apply only_spec. unfold patch_stopped, reportDryRun. rewrite Hdry. only_auto.
Qed.
Lemma auth_dry a : only harmless (AuthRun_Execute target a) ∧ only harmless (AuthPrepare_Execute target a).
Proof using Hdry.
  unfold AuthRun_Execute, AuthPrepare_Execute, list_step, ListNotebooks, fail_step.
  pose proof (patch_all_dry a). pose proof backup_dry. split; only_auto; auto.
Qed.
Lemma upgrade_dry force : only harmless (UpgradeRun_Execute target force) ∧ only harmless (UpgradePrepare_Execute target).
Proof using Hdry.
  unfold UpgradeRun_Execute, UpgradePrepare_Execute, fixContainerNames, listNotebooks, would_fix, fail_step. rewrite Hdry.
  pose proof backup_dry. pose proof verify_model_only. pose proof inspect_only. pose proof non_stopped_only. split; only_auto; auto.
Qed.
Lemma label_dry o QueueName : only harmless (Label_Execute target o QueueName).
Proof using Hdry.
  unfold Label_Execute, findEligibleNotebooks, kueueManagedNamespaces, ListNotebooks, applyLabels, fail_step. rewrite Hdry.
  pose proof namespaces_only. only_auto; auto.
Qed.
End DryRuns.

(** ** A cleanup and the verification after it

    What the API server documents of deletions and reads, for the objects that
    are absent and those that are held by a finalizer: an accepted deletion
    removes the object unless it is held, in which case it stays until
    another party releases it; what is not found is not there; a read answers
    not-found exactly for what is absent.  Neither request creates an object,
    holds another one or, for a read, changes anything. *)
Definition answered `{AE : ApiErrors} {A} (r : res go_error A) : Prop :=
  match r with Ok _ => True | Err err => IsNotFound err = true | Panic _ => False end.
Record serves_store {S} `{AE : ApiErrors} (env : ∀ c, S → answer c * S)
    (absent held : S → ResourceType → string → string → Prop) : Prop := {
  ss_deleted rt ns name s r s' : env (KDelete rt ns name) s = (r, s') →
    match r with
    | Ok _ => absent s' rt ns name ∨ held s' rt ns name
    | Err err => IsNotFound err = true → absent s' rt ns name
    | Panic _ => False
    end;
  ss_delete_keeps rt ns name s r s' rt' ns' name' : env (KDelete rt ns name) s = (r, s') →
    (absent s rt' ns' name' → absent s' rt' ns' name') ∧ (held s' rt' ns' name' → held s rt' ns' name');
  ss_read rt ns name s r s' : env (KGet rt ns name) s = (r, s') →
    match r with
    | Ok _ => ¬ absent s rt ns name
    | Err err => IsNotFound err = true ↔ absent s rt ns name
    | Panic _ => False
    end;
  ss_read_keeps rt ns name s r s' rt' ns' name' :
    env (KGet rt ns name) s = (r, s') → (absent s' rt' ns' name' ↔ absent s rt' ns' name');
}.
Section Store.
Context `{AE : ApiErrors, CL : Clock} {S : Type} (env : ∀ c, S → answer c * S).
Context (absent held : S → ResourceType → string → string → Prop).
Context (store : serves_store env absent held) (target : Target) (Hlive : tg_DryRun target = false).
Definition gone (s : S) (x : ResourceType * string * string) : Prop := absent s x.1.1 x.2 x.1.2.
Definition kept (s : S) (x : ResourceType * string * string) : Prop := held s x.1.1 x.2 x.1.2.
(** What a deletion leaves behind, at most. *)
Definition shrinks (s s' : S) : Prop := ∀ y, (gone s y → gone s' y) ∧ (kept s' y → kept s y).
Definition no_refusal : Prop := ∀ rt ns name s, answered (env (KDelete rt ns name) s).1.

Lemma delete_one_run step b x h s :
  ∃ b' h' s', ends env (delete_one target step b x) h s (Ok b') h' s' ∧ shrinks s s' ∧
    (b' = false → b = false ∧ (gone s' x ∨ kept s' x)) ∧ (no_refusal → b' = b).
Proof using store Hlive.
  destruct x as [[rt name] ns]. destruct (env (KDelete rt ns name) s) as [r s'] eqn:He.
  assert (shrinks s s') as Hs by (intros y; apply (ss_delete_keeps env absent held store _ _ _ _ _ _ _ _ _ He)).
  pose proof (ss_deleted env absent held store _ _ _ _ _ _ He) as Hgone.
  assert (no_refusal → answered r) as Hans by (intros Hn; specialize (Hn rt ns name s); by rewrite He in Hn).
  pose proof (ends_attempt _ _ _ _ _ _ _ (ends_ask env (KDelete _ _ _) (λ r, r) h _ _ _ He)) as Ha.
  unfold delete_one, DeleteResourceIfPresent. rewrite Hlive. set (label := resourceLabel _ _ _). set (id := "delete-" +:+ _ +:+ "-" +:+ _).
  assert (∀ msg st (ok : bool), ∃ h', ends env (recordf step id msg st ;; m_ret ok) h s' (Ok ok) h' s') as Hrec.
  { intros msg st ok. eexists. eapply ends_bind; [by apply runs_pure|apply runs_ret]. }
  destruct r as [u|err|p]; [destruct (Hrec ("Deleted " +:+ label) StepCompleted true) as [h' Hh]| |done].
  - exists (b || negb true), h', s'. split; [eapply ends_bind; [eapply ends_bind; [exact Ha|exact Hh]|apply runs_ret]|].
    split; [done|]. rewrite orb_false_r. auto.
  - destruct (IsNotFound err) eqn:Hnf.
    + destruct (Hrec ("Already absent: " +:+ label) StepCompleted true) as [h' Hh]. exists (b || negb true), h', s'.
      split; [eapply ends_bind; [eapply ends_bind; [exact Ha|cbv beta iota; rewrite Hnf; exact Hh]|apply runs_ret]|].
      split; [done|]. rewrite orb_false_r. split; [|auto]. intros ->. split; [done|left; by apply Hgone].
    + destruct (Hrec ("Failed to delete " +:+ label +:+ ": " +:+ error_string err) StepFailed false) as [h' Hh]. exists (b || negb false), h', s'.
      split; [eapply ends_bind; [eapply ends_bind; [exact Ha|cbv beta iota; rewrite Hnf; exact Hh]|apply runs_ret]|].
      split; [done|]. rewrite orb_true_r. split; [done|]. intros Hn. cbn in Hans. rewrite Hnf in Hans. by specialize (Hans Hn).
Qed.
Lemma delete_all_run step l b h s :
  ∃ b' h' s', ends env (m_fold (delete_one target step) l b) h s (Ok b') h' s' ∧ shrinks s s' ∧
    (b' = false → b = false ∧ ∀ x, x ∈ l → gone s' x ∨ kept s x) ∧ (no_refusal → b' = b).
Proof using store Hlive.
  revert b h s. induction l as [|x l IH]; intros b h s.
  { exists b, h, s. split_and!; [apply runs_ret|by split| |done]. intros ->. split; [done|]. by intros x ?%elem_of_nil. }
  destruct (delete_one_run step b x h s) as (b1 & h1 & s1 & H1 & Hs1 & Hg1 & Hb1).
  destruct (IH b1 h1 s1) as (b' & h' & s' & H2 & Hs2 & Hg2 & Hb2). exists b', h', s'. cbn [m_fold].
  split; [by eapply ends_bind|]. split; [intros y; destruct (Hs1 y), (Hs2 y); auto|].
  split; [|intros Hn; by rewrite (Hb2 Hn), (Hb1 Hn)].
  intros [-> Hl]%Hg2. destruct (Hg1 eq_refl) as [-> Hx]. split; [done|]. intros y [->|Hy]%elem_of_cons.
  - destruct Hx as [Hx|Hx]; [left; by apply Hs2|right; by apply Hs1].
  - destruct (Hl y Hy) as [Hy'|Hy']; [by left|right; by apply Hs1].
Qed.

Definition lost (s : S) (r : legacy_resource) : Prop := gone s (lr_type r, lr_name r, lr_namespace r).
Lemma check_all_run l acc h s :
  ∃ more s', ends env (m_fold check_gone l acc) h s (Ok (acc ++ more)%list) h s' ∧ (more = [] ↔ ∀ x, x ∈ l → lost s x).
Proof using store.
  revert acc s. induction l as [|x l IH]; intros acc s.
  { exists [], s. rewrite app_nil_r. split; [apply runs_ret|]. split; [by intros _ x ?%elem_of_nil|done]. }
  destruct (env (KGet (lr_type x) (lr_namespace x) (lr_name x)) s) as [r s1] eqn:He.
  pose proof (ss_read env absent held store _ _ _ _ _ _ He) as Hr.
  assert (∀ y, lost s1 y ↔ lost s y) as Hkeep by (intros y; apply (ss_read_keeps env absent held store _ _ _ _ _ _ _ _ _ He)).
  pose proof (ends_attempt _ _ _ _ _ _ _ (ends_ask env (KGet _ _ _) (λ r, r) h _ _ _ He)) as Ha.
  assert (∃ own, ends env (check_gone acc x) h s (Ok (acc ++ own)%list) h s1 ∧ (own = [] ↔ lost s x)) as (own & Hown & Hx).
  { unfold check_gone, resourceExists. destruct r as [o|err|p]; [| |done].
    - eexists. split; [eapply (ends_bind env _ _ _ _ (inr true)); [|apply runs_ret]|by split].
      apply (ends_attempt env _ _ _ (Ok true)). eapply ends_bind; [exact Ha|apply runs_ret].
    - destruct (IsNotFound err) eqn:Hnf.
      + exists []. rewrite app_nil_r. split; [|split; [by intros _; apply Hr|done]].
        eapply (ends_bind env _ _ _ _ (inr false)); [|apply runs_ret]. apply (ends_attempt env _ _ _ (Ok false)).
        eapply ends_bind; [exact Ha|]. cbv beta iota. rewrite Hnf. apply runs_ret.
      + eexists. split; [eapply (ends_bind env _ _ _ _ (inl _)); [|apply runs_ret]|split; [done|by intros H%Hr]].
        apply (ends_attempt env _ _ _ (Err _)). eapply ends_bind; [exact Ha|]. cbv beta iota. rewrite Hnf. by eexists. }
  destruct (IH (acc ++ own)%list s1) as (more & s' & H' & Hm). exists (own ++ more)%list, s'. cbn [m_fold].
  rewrite (assoc (++)%list). split; [by eapply ends_bind|]. setoid_rewrite Hkeep in Hm. split.
  - intros [Ho Hmore]%app_eq_nil y [->|Hy]%elem_of_cons; [by apply Hx|by apply Hm].
  - intros Hall. apply app_nil. split; [apply Hx, Hall; by left|apply Hm; intros y Hy; apply Hall; by right].
Qed.
End Store.

(** ** The counts of a verification *)
Definition status_count `{JQ : GoJq} (st : MigrationStatus) (nbs : list json) : nat :=
  length (List.filter (λ nb, bool_decide ((ClassifyNotebook nb).1 = st)) nbs).
Definition all_if (b : bool) (nbs : list json) : nat := if b then length nbs else 0%nat.
Record counted `{JQ : GoJq} (phase : string) (nbs : list json) (s : verifySummary) : Prop := {
  ct_legacy : vs_legacy s = status_count StatusLegacy nbs;
  ct_migrated : vs_migrated s = status_count StatusMigrated nbs;
  ct_unreconciled : vs_unreconciled s = status_count StatusUnreconciled nbs;
  ct_invalid : vs_invalid s = status_count StatusInvalid nbs;
  ct_unknown : vs_unknown s = status_count StatusUnknown nbs;
  ct_states : (vs_running s + vs_stopped s + vs_starting s + vs_otherState s = length nbs)%nat;
  ct_stopped : (length (List.filter isStopped nbs) ≤ vs_stopped s)%nat;
  ct_classificationFail : vs_classificationFail s = (vs_unreconciled s + vs_invalid s + vs_unknown s)%nat;
  ct_migrationPass : vs_migrationPass s = all_if (includeMigration phase) (List.filter (λ nb, (CheckMigrationState nb).1) nbs);
  ct_migration : (vs_migrationPass s + vs_migrationFail s = all_if (includeMigration phase) nbs)%nat;
  ct_cleanup : (vs_cleanupPass s + vs_cleanupFail s = all_if (includeCleanup phase) nbs)%nat;
}.

Section Counts.
Context `{AE : ApiErrors, JQ : GoJq, CL : Clock} (phase : string).
Notation spec := (spec (λ _ _, True) (λ _ _ _, ()) ()).
(** What one notebook adds. *)
Definition counts_as (s s' : verifySummary) (nb : json) : Prop :=
  ∃ state cleanup, (isStopped nb = true → state = StateStopped) ∧ (if includeCleanup phase then is_Some cleanup else cleanup = None) ∧
    s' = countChecks (countRunState (countStatus s (ClassifyNotebook nb).1) state)
      (bool_decide ((ClassifyNotebook nb).1 = StatusMigrated) || bool_decide ((ClassifyNotebook nb).1 = StatusLegacy))
      (if includeMigration phase then Some (CheckMigrationState nb).1 else None) cleanup.
Lemma running_state_counts nb :
  spec (GetRunningState nb) (λ r _, match r with Ok x => isStopped nb = true → x.1 = StateStopped | _ => True end).
Proof.
  unfold GetRunningState, kGet. destruct (isStopped nb); [by apply spec_ret|].
  eapply spec_mono; [apply spec_trivial|]. by intros [] [].
Qed.
Lemma run_checks_counts include step name what checks (Q : bool → Prop) :
  spec checks (λ r _, match r with Ok x => Q x.1 | _ => True end) →
  spec (WorkbenchSteps.run_checks include step name what checks)
    (λ r _, match r with Ok o => if include then ∃ b, o = Some b ∧ Q b else o = None | _ => True end).
Proof.
  intros Hc. unfold WorkbenchSteps.run_checks. destruct include; cbn [negb]; [|by apply spec_ret].
  apply spec_bind. eapply spec_mono; [exact Hc|]. intros [[passed failures]|e|p] []; [|done..]. intros HQ.
  apply spec_bind. eapply spec_mono; [apply spec_trivial|]. intros [u|e|p] [] _; [|done..]. apply spec_ret. by exists passed.
Qed.
Lemma verify_notebook_counts s nb :
  spec (verifyNotebook phase s nb) (λ r _, match r with Ok s' => counts_as s s' nb | _ => True end).
Proof.
  unfold verifyNotebook, counts_as. apply spec_bind, spec_child. intros step.
  destruct (ClassifyNotebook nb) as [status detail]. cbn [fst]. apply spec_bind. eapply spec_mono; [apply running_state_counts|].
  intros [[state runDetail]|e|p] []; [|done..]. intros Hstate. apply spec_bind, spec_recordf. apply spec_bind.
  eapply spec_mono; [apply (run_checks_counts _ _ _ _ _ (eq (CheckMigrationState nb).1)); by apply spec_ret|].
  intros [mo|e|p] []; [|done..]. intros Hm. apply spec_bind.
  eapply spec_mono; [apply (run_checks_counts _ _ _ _ _ (λ _, True)); eapply spec_mono; [apply spec_trivial|by intros [] []]|].
  intros [co|e|p] []; [|done..]. intros Hc. apply spec_bind. eapply spec_mono; [apply spec_trivial|].
  intros [u|e|p] [] _; [|done..]. apply spec_ret. exists state, co. split; [done|].
  destruct (includeCleanup phase), (includeMigration phase); naive_solver.
Qed.
Lemma length_filter_snoc {A} (f : A → bool) l x : length (List.filter f (l ++ [x])) = (length (List.filter f l) + one_if (f x))%nat.
Proof. rewrite List.filter_app, length_app. cbn. by destruct (f x). Qed.
(** A state adds one to one of its four counts. *)
Lemma run_state_counted s state :
  ∃ x y z : bool, (one_if x + one_if (String.eqb state StateStopped) + one_if y + one_if z = 1)%nat ∧
    countRunState s state =
      mkSummary (vs_legacy s) (vs_migrated s) (vs_unreconciled s) (vs_invalid s) (vs_unknown s) (vs_running s + one_if x)
        (vs_stopped s + one_if (String.eqb state StateStopped)) (vs_starting s + one_if y) (vs_otherState s + one_if z)
        (vs_classificationFail s) (vs_migrationPass s) (vs_migrationFail s) (vs_cleanupPass s) (vs_cleanupFail s).
Proof.
  destruct s. unfold countRunState. destruct (String.eqb_spec state StateRunning) as [->|Hr].
  { exists true, false, false. cbn. by rewrite !Nat.add_0_r. }
  destruct (String.eqb_spec state StateStopped) as [->|Hs]; [|destruct (String.eqb state StateStarting)].
  - exists false, false, false. cbn. by rewrite !Nat.add_0_r.
  - exists false, true, false. cbn. by rewrite !Nat.add_0_r.
  - exists false, false, true. cbn. by rewrite !Nat.add_0_r.
Qed.
Lemma counted_step nbs s s' nb : counted phase nbs s → counts_as s s' nb → counted phase (nbs ++ [nb]) s'.
Proof.
  intros [] (state & cleanup & Hstate & Hc & ->).
  assert (one_if (isStopped nb) ≤ one_if (String.eqb state StateStopped))%nat as Hst.
  { destruct (isStopped nb); cbn; [|lia]. by rewrite Hstate. }
  destruct (run_state_counted (countStatus s (ClassifyNotebook nb).1) state) as (x & y & z & Hsum & ->).
  destruct s as [l m u i k r st sg o cf mp mf cp cl]. cbn in *.
  unfold status_count, all_if in *. destruct (ClassifyNotebook nb) as [status detail] eqn:Hcl.
  split; cbn; unfold status_count, all_if; rewrite ?length_filter_snoc, ?length_app, ?Hcl; cbn [fst].
  1-5: destruct status; cbn; repeat case_bool_decide; try congruence; cbn; lia.
  1-2: destruct status; cbn -[one_if] in *; lia.
  1: destruct status; cbn in *; repeat case_bool_decide; try congruence; cbn; lia.
  1-2: destruct status, (includeMigration phase), (CheckMigrationState nb).1; cbn in *; rewrite ?length_filter_snoc; cbn; lia.
  destruct (includeCleanup phase); [destruct Hc as [[] ->]|subst cleanup]; destruct status; cbn in *; lia.
Qed.
End Counts.

Module WorkbenchMigrationRun.
Import (hints) ClientRun VersionRun ClusterRun WorkbenchRun.
#[export] Instance clock : Clock := { now := 0 }.
#[export] Instance apimachinery : Apimachinery := {|
  accessor_error path _ kind := EString (path_query path +:+ " accessor error: value is not of type " +:+ kind);
  is_time s := negb (String.eqb s "");
  IsValidLabelValue value := if (String.length value <=? 63)%nat then [] else ["must be no more than 63 bytes"];
|}.
(** A cluster with the notebook of 2.x, whose StatefulSet is gone as soon as
    it is asked for. *)
Definition one_notebook (c : command) (s : ()) : answer c * () :=
  match c return answer c * () with
  | KListAll rt _ => (Ok (if is_type rt Notebook then [WorkbenchRun.legacy] else []), s)
  | KGet rt _ _ => (if is_type rt Notebook then Ok WorkbenchRun.legacy else Err (EForeign 2 "not found"), s)
  | KUpdate _ _ obj _ => (Ok obj, s)
  | c => (ClusterRun.idle c, s)
  end.
Definition every_notebook : SharedScopeOptions := mkScope "" "".
Definition action : PatchAuthModelAction := mkPatchAuthModel every_notebook false false false.
Definition target : Target := mkTarget (mkClients true true true) false true "".
(** A cluster that is the map of the objects that are there, each with whether
    a finalizer holds it. *)
Definition objects := gmap (string * string * string) bool.
Definition object (rt : ResourceType) (ns name : string) : string * string * string := (rt_Resource rt, ns, name).
Definition store (c : command) (s : objects) : answer c * objects :=
  match c return answer c * objects with
  | KGet rt ns name => (match s !! object rt ns name with Some _ => Ok (JObj []) | None => Err (EForeign 2 "not found") end, s)
  | KDelete rt ns name =>
      match s !! object rt ns name with
      | Some true => (Ok (), s)
      | Some false => (Ok (), delete (object rt ns name) s)
      | None => (Err (EForeign 2 "not found"), s)
      end
  | c => (ClusterRun.idle c, s)
  end.
Definition absent (s : objects) (rt : ResourceType) (ns name : string) : Prop := s !! object rt ns name = None.
Definition held (s : objects) (rt : ResourceType) (ns name : string) : Prop := s !! object rt ns name = Some true.
Lemma store_serves : serves_store store absent held.
Proof.
  unfold absent, held. split; cbn [store].
  - intros rt ns name s r s'. destruct (s !! object rt ns name) as [[]|] eqn:Ho; intros [= <- <-]; [by right|left; apply lookup_delete_eq|done].
  - intros rt ns name s r s' rt' ns' name'. destruct (s !! object rt ns name) as [[]|] eqn:Ho; intros [= <- <-]; [done| |done].
    split; [intros Ha; apply lookup_delete_None; by right|intros Hh; apply lookup_delete_Some in Hh; by destruct Hh].
  - intros rt ns name s r s'. destruct (s !! object rt ns name) as [b|] eqn:Ho; by intros [= <- <-].
  - by intros rt ns name s r s' rt' ns' name' [= <- <-].
Qed.
Lemma store_refuses_nothing : no_refusal store.
Proof. intros rt ns name s. cbn [store]. by destruct (s !! object rt ns name) as [[]|]. Qed.
End WorkbenchMigrationRun.
Import (hints) ClientRun VersionRun ClusterRun WorkbenchRun WorkbenchMigrationRun.

(** ** Properties *)
Module WorkbenchMigrationSpec.
(** C8: What the patch of the auth model sends, whatever the cluster and the
    user answer.  A notebook is stopped only when it needs the patch and runs;
    it is written back only with consent, as its patched form, and, unless the
    action does not stop notebooks, only when it was stopped before or the
    action stopped it and saw its StatefulSet scale down; its StatefulSet and
    legacy resources are deleted only after that.  When the task ends without
    an error, everything it saw scale down has been asked to start again. *)
Theorem auth_patch_order `{AE : ApiErrors, KE : K8sErrors, JQ : GoJq, CL : Clock, JT : JsonText, YT : YamlText, GT : GoTypes, WT : Wait,
    MO : MapOrder, AM : Apimachinery, WL : !WaitLaws} {S} (env : ∀ c, S → answer c * S) a target h s :
  tg_DryRun target = false →
  let run := transcript env (AuthRun_Execute target a h) s in
  accepts (wb_allowed a target) wb_next wb_start run ∧
  ∀ r h', result_of env (AuthRun_Execute target a h) s = Some (Ok r, h') → restarted (observe wb_next wb_start run).
Proof.
  intros Hd. destruct (obeys_exec _ _ env _ _ _ s (auth_run_spec a target Hd h)) as [Hacc HQ]. split; [exact Hacc|].
  intros r h' Hr. exact (HQ _ Hr eq_refl).
Qed.

Lemma auth_patch_order_witness :
  let run := transcript WorkbenchMigrationRun.one_notebook
    (AuthRun_Execute WorkbenchMigrationRun.target WorkbenchMigrationRun.action NewRootRecorder) () in
  map (λ c, match c with
            | KPatch _ ns name _ data _ => ("patch", ns, name)
            | KUpdate _ ns obj _ => ("update", ns, GetName obj)
            | KDelete rt ns name => ("delete " +:+ rt_Resource rt, ns, name)
            | _ => ("", "", "")
            end) (List.filter mutates (map (@projT1 _ _) run)) =
    [("patch", "team", "nb"); ("update", "team", "nb"); ("delete statefulsets", "team", "nb"); ("patch", "team", "nb")] ∧
  accepts (wb_allowed WorkbenchMigrationRun.action WorkbenchMigrationRun.target) wb_next wb_start run ∧
  restarted (observe wb_next wb_start run).
Proof.
  intros run. destruct (auth_patch_order (WL := ClusterRun.steps_laws) WorkbenchMigrationRun.one_notebook WorkbenchMigrationRun.action
    WorkbenchMigrationRun.target NewRootRecorder () eq_refl) as [Hacc Hres].
  split; [vm_compute; reflexivity|]. split; [exact Hacc|].
  destruct (result_of WorkbenchMigrationRun.one_notebook
    (AuthRun_Execute WorkbenchMigrationRun.target WorkbenchMigrationRun.action NewRootRecorder) ()) as [[[r|e|p] h']|] eqn:Hr.
  - exact (Hres r h' eq_refl).
  - apply (f_equal (λ o, match o with Some (Ok _, _) => true | _ => false end)) in Hr. vm_compute in Hr. discriminate Hr.
  - apply (f_equal (λ o, match o with Some (Ok _, _) => true | _ => false end)) in Hr. vm_compute in Hr. discriminate Hr.
  - apply (f_equal (λ o, match o with Some (Ok _, _) => true | _ => false end)) in Hr. vm_compute in Hr. discriminate Hr.
Defined.

(** C23: The cleanup of a notebook and the verification agree, though each has a
    list of its own: the cleanup ends on every cluster that serves deletions
    and reads as documented, and says that it removed everything when no
    deletion is refused.  When it says so, every resource the verification looks
    for is gone, or was held by a finalizer before.  The verification after it
    passes exactly when all of them are gone; so it passes after a complete
    cleanup when no finalizer held any. *)
Theorem cleaned_is_verified `{AE : ApiErrors, CL : Clock} {S} (env : ∀ c, S → answer c * S)
    (absent held : S → ResourceType → string → string → Prop) target nb step h s :
  serves_store env absent held → tg_DryRun target = false →
  let checked := cleanup_checks (GetName nb) (GetNamespace nb) in
  let missing s x := absent s (lr_type x) (lr_namespace x) (lr_name x) in
  let finalized s x := held s (lr_type x) (lr_namespace x) (lr_name x) in
  ∃ r h' s' failures s'',
    ends env (deleteOAuthResources target nb step) h s (Ok r) h' s' ∧
    ends env (CheckCleanupState nb) h' s' (Ok (bool_decide (failures = []), failures)) h' s'' ∧
    (no_refusal env → r = CleanupResultCleaned) ∧
    (r = CleanupResultCleaned → ∀ x, x ∈ checked → missing s' x ∨ finalized s x) ∧
    (failures = [] ↔ ∀ x, x ∈ checked → missing s' x) ∧
    (r = CleanupResultCleaned → (∀ x, x ∈ checked → ¬ finalized s x) → failures = []).
Proof.
  intros store Hlive checked missing finalized. set (l := oauth_deletions (GetName nb) (GetNamespace nb)).
  destruct (delete_all_run env absent held store target Hlive step l false h s) as (b & h1 & s1 & Hrun & _ & Hg & Hb).
  set (r := if b then CleanupResultFailed else CleanupResultCleaned).
  assert (∃ h', ends env (deleteOAuthResources target nb step) h s (Ok r) h' s1) as [h' Hend].
  { unfold deleteOAuthResources. fold l. subst r. destruct b; [|rewrite Hlive]; eexists;
      (eapply ends_bind; [exact Hrun|]; eapply ends_bind; [by apply runs_pure|apply runs_ret]). }
  destruct (check_all_run env absent held store checked [] h' s1) as (failures & s2 & Hcheck & Hf).
  assert (r = CleanupResultCleaned → ∀ x, x ∈ checked → missing s1 x ∨ finalized s x) as Hclean.
  { intros Hr x Hx%check_deleted. destruct b; [done|]. exact (proj2 (Hg eq_refl) _ Hx). }
  exists r, h', s1, failures, s2. split; [exact Hend|]. split.
  { unfold CheckCleanupState. eapply ends_bind; [exact Hcheck|apply runs_ret]. }
  split; [intros Hn; subst r; by rewrite (Hb Hn)|]. split; [exact Hclean|]. split; [exact Hf|].
  intros Hr Hfree. apply Hf. intros x Hx. destruct (Hclean Hr x Hx) as [?|Hh]; [done|by destruct (Hfree x Hx)].
Qed.

(** The route is there, one of the secrets too, the rest is not. *)
Lemma cleaned_is_verified_witness :
  let s : WorkbenchMigrationRun.objects :=
    {[WorkbenchMigrationRun.object Route "team" "nb" := false; WorkbenchMigrationRun.object Secret "team" "nb-tls" := false]} in
  ∃ h' s' s'',
    ends WorkbenchMigrationRun.store (deleteOAuthResources WorkbenchMigrationRun.target WorkbenchRun.legacy root) NewRootRecorder s
      (Ok CleanupResultCleaned) h' s' ∧
    ends WorkbenchMigrationRun.store (CheckCleanupState WorkbenchRun.legacy) h' s' (Ok (true, [])) h' s''.
Proof.
  intros s.
  destruct (cleaned_is_verified WorkbenchMigrationRun.store WorkbenchMigrationRun.absent WorkbenchMigrationRun.held
    WorkbenchMigrationRun.target WorkbenchRun.legacy root NewRootRecorder s WorkbenchMigrationRun.store_serves eq_refl)
    as (r & h' & s' & failures & s'' & Hrun & Hcheck & Hr & _ & _ & Hpass).
  specialize (Hr WorkbenchMigrationRun.store_refuses_nothing). subst r. rewrite Hpass in Hcheck; [by exists h', s', s''|done|].
  apply Forall_forall. vm_compute. repeat constructor; discriminate.
Defined.

(** A route that a finalizer holds: the cleanup is reported as complete, the
    verification still finds it. *)
Example held_route_is_found :
  let s : WorkbenchMigrationRun.objects := {[WorkbenchMigrationRun.object Route "team" "nb" := true]} in
  fst <$> result_of WorkbenchMigrationRun.store
    ((let* r := deleteOAuthResources WorkbenchMigrationRun.target WorkbenchRun.legacy root in
      let* verified := CheckCleanupState WorkbenchRun.legacy in
      m_ret (r, verified)) NewRootRecorder) s = Some (Ok (CleanupResultCleaned, (false, ["Route 'nb' still exists"]))).
Proof. vm_compute. reflexivity. Qed.

(** The verification never changes anything, and neither does a dry run of any
    task of the five actions; the preparations never change the cluster. *)
Theorem workbench_dry_runs_only_read `{AE : ApiErrors, KE : K8sErrors, JQ : GoJq, CL : Clock, JT : JsonText, YT : YamlText, GT : GoTypes,
    WT : Wait, MO : MapOrder, AM : Apimachinery} {S} (env : ∀ c, S → answer c * S) target h s :
  let reads (m : M execution) := Forall (λ e, harmless (projT1 e)) (transcript env (m h) s) in
  (∀ o phase, reads (Verify_Execute o phase)) ∧
  (∀ a, Forall (λ e, mutates (projT1 e) = false) (transcript env (AuthPrepare_Execute target a h) s)) ∧
  Forall (λ e, mutates (projT1 e) = false) (transcript env (UpgradePrepare_Execute target h) s) ∧
  (tg_DryRun target = true →
     (∀ a, reads (AuthRun_Execute target a) ∧ reads (AuthPrepare_Execute target a)) ∧ (∀ o, reads (Cleanup_Execute target o)) ∧
     (∀ force, reads (UpgradeRun_Execute target force)) ∧ reads (UpgradePrepare_Execute target) ∧
     (∀ o QueueName, reads (Label_Execute target o QueueName))).
Proof.
  intros reads. assert (∀ m, only harmless m → reads m) as Hr by (intros m Hm; apply asks_only_transcript, Hm). split_and!.
  - intros o phase. apply Hr, verification_only_reads.
  - intros a. apply (asks_only_transcript _ (λ c, mutates c = false)), prepare_keeps_cluster.
  - apply (asks_only_transcript _ (λ c, mutates c = false)), (prepare_keeps_cluster _ (mkPatchAuthModel (mkScope "" "") false false false)).
  - intros Hd. split_and!.
    + intros a. split; apply Hr; by apply auth_dry.
    + intros o. by apply Hr, cleanup_dry.
    + intros force. apply Hr. by apply upgrade_dry.
    + apply Hr. by apply (upgrade_dry target Hd false).
    + intros o q. by apply Hr, label_dry.
Qed.

Lemma workbench_dry_runs_only_read_witness :
  let target := mkTarget (mkClients true true true) true true "" in
  Forall (λ e, harmless (projT1 e)) (transcript WorkbenchMigrationRun.one_notebook
    (AuthRun_Execute target WorkbenchMigrationRun.action NewRootRecorder) ()).
Proof.
  intros target. destruct (workbench_dry_runs_only_read WorkbenchMigrationRun.one_notebook target NewRootRecorder ()) as (_ & _ & _ & H).
  by apply H.
Defined.

(** The counts of a verification that ends are exact: each notebook under its
    one status and its one state of running, a failed classification for each
    unreconciled, invalid or unknown one, and for each group of checks that is
    asked for one pass or one failure. *)
Theorem verification_counts_exact `{AE : ApiErrors, JQ : GoJq, CL : Clock} {S} (env : ∀ c, S → answer c * S) phase notebooks h s summary h' :
  result_of env (m_fold (verifyNotebook phase) notebooks newSummary h) s = Some (Ok summary, h') → counted phase notebooks summary.
Proof.
  intros Hr. eapply (spec_result _ _ (λ r, match r with Ok summary => counted phase notebooks summary | _ => True end)) in Hr; [exact Hr|].
  apply (spec_fold _ _ (λ past summary _, counted phase past summary) (λ _ _, True)); [|split; cbn; unfold all_if; by repeat case_match].
  intros past summary0 [] nb _ Hc. eapply spec_mono; [apply verify_notebook_counts|]. intros [s'|e|p] []; [|done..].
  by apply counted_step.
Qed.

Lemma verification_counts_exact_witness :
  ∃ summary h', result_of WorkbenchMigrationRun.one_notebook (m_fold (verifyNotebook "all") [WorkbenchRun.legacy] newSummary NewRootRecorder) () =
    Some (Ok summary, h') ∧ counted "all" [WorkbenchRun.legacy] summary ∧ vs_migrationFail summary = 1%nat ∧ vs_cleanupPass summary = 1%nat.
Proof.
  destruct (result_of WorkbenchMigrationRun.one_notebook (m_fold (verifyNotebook "all") [WorkbenchRun.legacy] newSummary NewRootRecorder) ())
    as [[[summary|e|p] h']|] eqn:Hr.
  2-4: apply (f_equal (λ o, match o with Some (Ok _, _) => true | _ => false end)) in Hr; vm_compute in Hr; discriminate Hr.
  exists summary, h'. split; [done|]. split; [by apply (verification_counts_exact _ _ _ _ _ _ _ Hr)|].
  apply (f_equal (λ o, match o with Some (Ok s, _) => (vs_migrationFail s, vs_cleanupPass s) | _ => (0%nat, 0%nat) end)) in Hr.
  vm_compute in Hr. by injection Hr.
Defined.

(** The number of notebooks with failures in the summary is a number of failed
    groups of checks: a notebook of 2.x whose resources are still there counts
    twice. *)
Example failures_exceed_notebooks :
  ∃ summary h', result_of (λ c s, (ClusterRun.idle c, s)) (m_fold (verifyNotebook "all") [WorkbenchRun.legacy] newSummary NewRootRecorder) () =
    Some (Ok summary, h') ∧ totalFailed summary = 2%nat.
Proof.
  eexists _, _. split.
  - vm_compute. reflexivity.
  - reflexivity.
Qed.
End WorkbenchMigrationSpec.
