(* ===== verification/Components.v ===== *)
(** * Components: pkg/components

    The commands that list, describe, enable and disable the components of the
    platform: discovery from the DataScienceCluster (discovery.go), health from
    the resource of a component (health.go, pkg/util/conditions), the change of
    the management state (mutate.go, commands.go), and what list and describe
    show (list.go, describe.go, types.go).

    The lookups of the health run concurrently; each writes its own element,
    and [finish_order] is the order in which they finish.  The text of JSON and
    YAML documents, the layout of tables and the flags are not modelled. *)
From Stdlib Require Import Ascii.
From S2P Require Import Prelude GoPath GoStrings Errors Client Version Result Check Validate DepsCheck BackupDeps WorkloadHelpers PlatformChecks.
From S2P Require Import Recorder Action Programs Cluster PipelineActions RayClusters OperatorInstall KueueSteps.
Open Scope string_scope.
Open Scope Z_scope.
Open Scope prog_scope.

(** ** types.go *)
Record ComponentInfo := mkComponent {
  ci_Name : string;
  ci_ManagementState : string;
  ci_Ready : option bool;
  ci_Message : string;
}.
Definition active_state (state : string) : bool :=
  String.eqb state ManagementStateManaged || String.eqb state ManagementStateUnmanaged.
Definition IsActive (c : ComponentInfo) : bool := active_state (ci_ManagementState c).

(** Warnings and errors. *)
Definition count_ready (counts : Z * Z) (ready : option bool) : Z * Z :=
  let '(warnings, errs) := counts in
  match ready with
  | None => (warnings + 1, errs)
  | Some false => (warnings, errs + 1)
  | Some true => (warnings, errs)
  end.
Definition count_component (counts : Z * Z) (c : ComponentInfo) : Z * Z :=
  if IsActive c then count_ready counts (ci_Ready c) else counts.
Definition list_status (components : list ComponentInfo) : Status :=
  let '(warnings, errs) := foldl count_component (0, 0) components in NewStatus warnings errs.

Record ComponentDetails := mkDetails {
  cd_Name : string;
  cd_ManagementState : string;
  cd_Ready : option bool;
  cd_Message : string;
  cd_Conditions : list StatusCondition;
}.
Definition details_status (d : ComponentDetails) : Status :=
  if active_state (cd_ManagementState d) then let '(warnings, errs) := count_ready (0, 0) (cd_Ready d) in NewStatus warnings errs
  else NewStatus 0 0.

Definition ErrComponentNotFound (name : string) (available : list string) : StructuredError := {|
  se_Code := "COMPONENT_NOT_FOUND";
  se_Message := "component " +:+ quote name +:+ " not found in DataScienceCluster";
  se_Category := CategoryNotFound;
  se_ExitCode := 0;
  se_Retriable := false;
  se_Suggestion := "Available components: " +:+ join ", " available;
  se_cause := None;
|}.
Definition ErrInvalidOutputFormat (format : string) : StructuredError := {|
  se_Code := "INVALID_OUTPUT_FORMAT";
  se_Message := "invalid output format " +:+ quote format +:+ " (must be one of: table, json, yaml)";
  se_Category := CategoryValidation;
  se_ExitCode := 0;
  se_Retriable := false;
  se_Suggestion := "Use --output with one of: table, json, yaml";
  se_cause := None;
|}.
Definition ErrUserAborted : StructuredError := {|
  se_Code := "USER_ABORTED";
  se_Message := "aborted by user";
  se_Category := CategoryValidation;
  se_ExitCode := 0;
  se_Retriable := false;
  se_Suggestion := "Use --yes flag to skip confirmation";
  se_cause := None;
|}.

(** ** pkg/resources/component_crs.go *)
(** The resource and the kind of each component. *)
Definition ComponentCRResourceTypes : list (string * (string * string)) :=
  [("aigateway", ("aigateways", "AIGateway")); ("aipipelines", ("datasciencepipelines", "DataSciencePipelines"));
   ("dashboard", ("dashboards", "Dashboard")); ("feastoperator", ("feastoperators", "FeastOperator"));
   ("kserve", ("kserves", "Kserve")); ("llamastackoperator", ("llamastackoperators", "LlamaStackOperator"));
   ("mlflowoperator", ("mlflowoperators", "MLflowOperator")); ("modelregistry", ("modelregistries", "ModelRegistry"));
   ("ray", ("rays", "Ray")); ("sparkoperator", ("sparkoperators", "SparkOperator")); ("trainer", ("trainers", "Trainer"));
   ("trainingoperator", ("trainingoperators", "TrainingOperator")); ("trustyai", ("trustyais", "TrustyAI"));
   ("workbenches", ("workbenches", "Workbenches"))].
Definition newComponentCR (resource kind : string) : ResourceType :=
  mkResourceType "components.platform.opendatahub.io" "v1alpha1" kind resource.
Definition GetComponentCR (name : string) : option ResourceType :=
  (λ kv, newComponentCR kv.2.1 kv.2.2) <$> find (λ kv, String.eqb kv.1 name) ComponentCRResourceTypes.

(** ** discovery.go *)
Section Discovery.
Context `{JQ : GoJq, MO : MapOrder, SS : SortSlice}.
(** [unstructured.NestedString]: a value of another type is an error. *)
Definition getManagementState (dsc : json) (componentName : string) : string :=
  nonempty (nested_string ["spec"; "components"; componentName; "managementState"] dsc) ManagementStateRemoved.
Definition componentsMap (dsc : json) : res go_error (gmap string json) :=
  match jq_Query [] "map[string]interface {}" as_map dsc ".spec.components" with
  | Ok fields => Ok (list_to_map fields)
  | Err err => Err (errorf_w "querying spec.components" err)
  | Panic p => Panic p
  end.
Definition component_of (dsc : json) (name : string) : ComponentInfo := mkComponent name (getManagementState dsc name) None "".
Definition by_name (a b : ComponentInfo) : bool := string_less (ci_Name a) (ci_Name b).
Definition ExtractComponents (dsc : json) : res go_error (list ComponentInfo) :=
  res_bind (componentsMap dsc) (λ m, Ok (sort_slice by_name (map (λ kv, component_of dsc kv.1) (map_range m)))).
Definition sortedKeys (m : gmap string json) : list string := sort_strings (map fst (map_range m)).
Definition GetComponentFromDSC (dsc : json) (name : string) : res go_error ComponentInfo :=
  res_bind (componentsMap dsc) (λ m,
    match m !! name with
    | None => Err (EStructured (ErrComponentNotFound name (sortedKeys m)))
    | Some _ => Ok (component_of dsc name)
    end).
End Discovery.

(** ** pkg/util/conditions *)
Definition FindCondition (conditions : list StatusCondition) (conditionType : string) : option StatusCondition :=
  find (λ k, String.eqb (k_Type k) conditionType) conditions.
Definition FindReady (conditions : list StatusCondition) : option StatusCondition := FindCondition conditions "Ready".
Definition IsTrue (conditions : list StatusCondition) (conditionType : string) : bool :=
  match FindCondition conditions conditionType with Some k => String.eqb (k_Status k) "True" | None => false end.
Definition IsFalse (conditions : list StatusCondition) (conditionType : string) : bool :=
  match FindCondition conditions conditionType with Some k => String.eqb (k_Status k) "False" | None => false end.
Definition collected (conditionTypes : list string) (k : StatusCondition) : bool :=
  bool_decide (k_Type k ∈ conditionTypes) && String.eqb (k_Status k) "True" && negb (String.eqb (k_Message k) "").
Definition CollectMessages (conditions : list StatusCondition) (conditionTypes : list string) : string :=
  join "; " (map k_Message (List.filter (collected conditionTypes) conditions)).
Definition CollectDegradedMessages (conditions : list StatusCondition) : string := CollectMessages conditions ["Degraded"].

(** ** health.go *)
Record HealthInfo := mkHealth { hi_Ready : option bool; hi_Message : string; hi_Conditions : list StatusCondition }.
Definition health_of (conds : list StatusCondition) : HealthInfo :=
  let isReady := (λ k, String.eqb (k_Status k) "True") <$> FindReady conds in
  let readyMessage := match FindReady conds with
                      | Some k => if String.eqb (k_Status k) "True" then "" else k_Message k
                      | None => ""
                      end in
  mkHealth isReady (nonempty readyMessage (CollectDegradedMessages conds)) conds.

Section Health.
Context `{AE : ApiErrors, KE : K8sErrors, JQ : GoJq, CD : ConditionDecoder, SCH : Schedule}.
Definition extractHealthFromCR (cr : json) : res go_error HealthInfo :=
  match jq_Query [] "[]v1.Condition" unmarshal_conditions cr ".status.conditions // []" with
  | Panic p => Panic p
  | Err err => if errors_is JqErrNotFound err then Ok (health_of []) else Err (errorf_w "querying conditions" err)
  | Ok conds => Ok (health_of conds)
  end.
Definition GetComponentHealth (name : string) : M HealthInfo :=
  match GetComponentCR name with
  | None => m_throw (EString ("unknown component CR for " +:+ quote name))
  | Some rt =>
      let* listed := attempt (kListAll rt defaultListOptions) in
      match listed with
      | inl err => m_throw (errorf_w (if IsResourceTypeNotFound err then "component CR API unavailable" else "listing component CR") err)
      | inr [] => m_ret (mkHealth None "" [])
      | inr (cr :: _) => m_lift (extractHealthFromCR cr)
      end
  end.

(** What one lookup writes into its element. *)
Definition enriched_with (c : ComponentInfo) (got : go_error + HealthInfo) : ComponentInfo :=
  match got with
  | inl err =>
      if IsResourceTypeNotFound err then c else mkComponent (ci_Name c) (ci_ManagementState c) (ci_Ready c) (error_string err)
  | inr health => mkComponent (ci_Name c) (ci_ManagementState c) (hi_Ready health) (hi_Message health)
  end.
Definition enrich_one (enriched : list ComponentInfo) (i : nat) : M (list ComponentInfo) :=
  match enriched !! i with
  | None => m_ret enriched
  | Some c =>
      let* got := attempt (GetComponentHealth (ci_Name c)) in
      m_ret (<[i := enriched_with c got]> enriched)
  end.
Definition active_at (components : list ComponentInfo) (i : nat) : bool :=
  match components !! i with Some c => IsActive c | None => false end.
Definition EnrichWithHealth (components : list ComponentInfo) : M (list ComponentInfo) :=
  m_fold enrich_one (finish_order (List.filter (active_at components) (seq 0 (length components)))) components.
End Health.

(** ** mutate.go *)
Record MutateConfig := mkMutate {
  mu_ComponentName : string;
  mu_TargetState : string;
  mu_ActionVerb : string;
  mu_DryRun : bool;
  mu_SkipConfirm : bool;
}.
Definition buildComponentPatch (componentName state : string) : json :=
  JObj [("spec", JObj [("components", JObj [(componentName, JObj [("managementState", JStr state)])])])].
Definition mutate_question (cfg : MutateConfig) : string :=
  "Are you sure you want to " +:+ mu_ActionVerb cfg +:+ " component '" +:+ mu_ComponentName cfg +:+ "'?".

Section Mutate.
Context `{AE : ApiErrors, KE : K8sErrors, JQ : GoJq, MO : MapOrder, SS : SortSlice, JT : JsonText}.
(** client.go: [Patch] of a cluster-scoped resource; [text] is the data. *)
Definition client_Patch (rt : ResourceType) (name : string) (pt : PatchType) (data : json) (text : string) (dry : bool) : M json :=
  if String.eqb name "" then m_throw (EString "resource name cannot be empty")
  else if String.eqb text "" then m_throw (EString "patch data cannot be empty")
  else m_map_err (errorf_w "patching resource") (kPatch rt "" name pt data dry).
Definition mutate_consent (cfg : MutateConfig) : M () :=
  if negb (mu_SkipConfirm cfg) && negb (mu_DryRun cfg) then
    let* agreed := Prompt (mutate_question cfg) in
    if (agreed : bool) then m_ret () else m_throw (EStructured ErrUserAborted)
  else m_ret ().
Definition dry_run_notice (cfg : MutateConfig) (text : string) : M () :=
  if mu_DryRun cfg then
    kOut "DRY RUN: Validating patch against API server..." ;; kOut "" ;; kOut text ;; kOut ""
  else m_ret ().
Definition MutateComponentState (cfg : MutateConfig) : M () :=
  let* dsc := m_map_err (errorf_w "getting DataScienceCluster") kGetDataScienceCluster in
  let* component := m_lift (res_map_err (errorf_w "getting component") (GetComponentFromDSC dsc (mu_ComponentName cfg))) in
  if String.eqb (ci_ManagementState component) (mu_TargetState cfg) then
    kOut ("Component '" +:+ mu_ComponentName cfg +:+ "' is already " +:+ mu_ActionVerb cfg +:+ "d (" +:+ mu_TargetState cfg +:+ ")")
  else
    let patch := buildComponentPatch (mu_ComponentName cfg) (mu_TargetState cfg) in
    let* text := m_lift (res_map_err (errorf_w "marshaling patch") (json_MarshalIndent patch)) in
    mutate_consent cfg ;;
    dry_run_notice cfg text ;;
    m_map_err (errorf_w "patching DataScienceCluster")
      (client_Patch DataScienceCluster (GetName dsc) MergePatchType patch text (mu_DryRun cfg)) ;;
    if mu_DryRun cfg then kOut "DRY RUN: Patch validated successfully. No changes made."
    else kOut ("Component '" +:+ mu_ComponentName cfg +:+ "' " +:+ mu_ActionVerb cfg +:+ "d successfully (managementState: " +:+
      mu_TargetState cfg +:+ ")").
End Mutate.

(** ** commands.go
    Enable and disable are the same code with another verb and state. *)
Record ComponentStdin := mkComponentStdin { cs_Components : list string; cs_DryRun : bool; cs_SkipConfirm : bool }.
Record SwitchCommand := mkSwitch {
  sw_ComponentName : string;
  sw_ComponentNames : list string;
  sw_DryRun : bool;
  sw_Yes : bool;
  sw_FromStdin : bool;
}.
Record Switch := mkSwitchKind { sk_Verb : string; sk_Gerund : string; sk_State : string }.
Definition EnableCommand : Switch := mkSwitchKind "enable" "enabling" ManagementStateManaged.
Definition DisableCommand : Switch := mkSwitchKind "disable" "disabling" ManagementStateRemoved.

Section SwitchOptions.
Context (changed : string → bool) (check_piped : res go_error ()) (parse_stdin : res go_error ComponentStdin) (connect : res go_error ()).
(** The loop over the names of the input. *)
Fixpoint trimmed_names (i : nat) (names : list string) : res go_error (list string) :=
  match names with
  | [] => Ok []
  | name :: rest =>
      let trimmed := trim_space name in
      if String.eqb trimmed "" then Err (EString ("empty component name at index " +:+ itoa (Z.of_nat i)))
      else res_bind (trimmed_names (S i) rest) (λ l, Ok (trimmed :: l))
  end.
Definition applyStdinInput (input : ComponentStdin) (c : SwitchCommand) : res go_error SwitchCommand :=
  res_bind (trimmed_names 0 (cs_Components input)) (λ names,
    if (0 <? length names)%nat && negb (String.eqb (sw_ComponentName c) "") then
      Err (EString "cannot specify both positional component and components in stdin")
    else
      Ok (mkSwitch (sw_ComponentName c) (if (0 <? length names)%nat then names else sw_ComponentNames c)
        ((cs_DryRun input && negb (changed "dry-run")) || sw_DryRun c) ((cs_SkipConfirm input && negb (changed "yes")) || sw_Yes c)
        (sw_FromStdin c))).
Definition parseStdinConfig (c : SwitchCommand) : res go_error SwitchCommand :=
  res_bind check_piped (λ _, res_bind (res_map_err (errorf_w "parsing stdin") parse_stdin) (λ input, applyStdinInput input c)).
Definition Switch_Complete (c : SwitchCommand) : res go_error SwitchCommand :=
  res_bind (if sw_FromStdin c then res_map_err (EExitCode ExitValidation) (parseStdinConfig c) else Ok c) (λ c,
    let names := if (length (sw_ComponentNames c) =? 0)%nat && negb (String.eqb (sw_ComponentName c) "")
                 then [sw_ComponentName c] else sw_ComponentNames c in
    res_bind (res_map_err (errorf_w "creating Kubernetes client") connect) (λ _,
      Ok (mkSwitch (sw_ComponentName c) names (sw_DryRun c) (sw_Yes c) (sw_FromStdin c)))).
Definition Switch_Validate (c : SwitchCommand) : res go_error () :=
  if (length (sw_ComponentNames c) =? 0)%nat then Err (EString "at least one component name is required") else Ok ().
End SwitchOptions.

Section SwitchRun.
Context `{AE : ApiErrors, KE : K8sErrors, JQ : GoJq, MO : MapOrder, SS : SortSlice, JT : JsonText}.
Definition switch_config (k : Switch) (c : SwitchCommand) (componentName : string) : MutateConfig :=
  mkMutate componentName (sk_State k) (sk_Verb k) (sw_DryRun c) (sw_Yes c).
Definition switch_one (k : Switch) (c : SwitchCommand) (failed : list string) (componentName : string) : M (list string) :=
  let* got := attempt (MutateComponentState (switch_config k c componentName)) in
  match got with
  | inr _ => m_ret failed
  | inl err => kErrOut ("Error " +:+ sk_Gerund k +:+ " '" +:+ componentName +:+ "': " +:+ error_string err) ;; m_ret (failed ++ [componentName])%list
  end.
Definition failed_to (k : Switch) (failed : list string) : res go_error () :=
  match failed with
  | [] => Ok ()
  | _ => Err (EString ("failed to " +:+ sk_Verb k +:+ " " +:+ show_nat (length failed) +:+ " component(s): " +:+ join ", " failed))
  end.
Definition Switch_Run (k : Switch) (c : SwitchCommand) : M () :=
  let* failed := m_fold (switch_one k c) (sw_ComponentNames c) [] in m_lift (failed_to k failed).
Definition EnableCommand_Run : SwitchCommand → M () := Switch_Run EnableCommand.
Definition DisableCommand_Run : SwitchCommand → M () := Switch_Run DisableCommand.
End SwitchRun.

(** ** list.go *)
Record ListCommand := mkList { lc_OutputSchema : bool; lc_OutputFormat : string; lc_Verbose : bool; lc_Quiet : bool }.
Definition output_formats : list string := ["table"; "json"; "yaml"].
Definition List_Complete (connect : res go_error ()) (c : ListCommand) : res go_error () :=
  if lc_OutputSchema c then Ok ()
  else if lc_Verbose c && lc_Quiet c then Err (EString "--verbose and --quiet are mutually exclusive")
  else res_map_err (errorf_w "creating Kubernetes client") connect.
Definition List_Validate (c : ListCommand) : res go_error () :=
  if lc_OutputSchema c || bool_decide (lc_OutputFormat c ∈ output_formats) then Ok ()
  else Err (EStructured (ErrInvalidOutputFormat (lc_OutputFormat c))).

(** What reaches the output: the schema of that name, a table with its header
    and rows, or a document with its status. *)
Inductive rendered (D : Type) :=
| RenderedSchema (name : string)
| RenderedTable (header : list string) (rows : list (list string))
| RenderedDocument (format : string) (status : Status) (content : D)
| RenderedNothing.
Arguments RenderedSchema {D} name.
Arguments RenderedTable {D} header rows.
Arguments RenderedDocument {D} format status content.
Arguments RenderedNothing {D}.

Definition readyYes := "Yes".
Definition readyNo := "No".
(** On the JSON value of the field, which is absent for no value. *)
Definition readyFormatter (ready : option bool) : string :=
  match ready with Some true => readyYes | Some false => readyNo | None => "-" end.
Definition componentColumns : list string := ["NAME"; "STATE"; "READY"].
Definition component_row (withMessage : bool) (c : ComponentInfo) : list string :=
  ([ci_Name c; ci_ManagementState c; readyFormatter (ci_Ready c)] ++ if withMessage then [ci_Message c] else [])%list.
Definition OutputTable (components : list ComponentInfo) : rendered (list ComponentInfo) :=
  let withMessage := existsb (λ c, negb (String.eqb (ci_Message c) "")) components in
  RenderedTable (componentColumns ++ if withMessage then ["MESSAGE"] else [])%list (map (component_row withMessage) components).
Definition list_output (c : ListCommand) (components : list ComponentInfo) : rendered (list ComponentInfo) :=
  if lc_Quiet c then RenderedNothing
  else if bool_decide (lc_OutputFormat c ∈ ["json"; "yaml"])
       then RenderedDocument (lc_OutputFormat c) (list_status components) components
       else OutputTable components.

Section ListRun.
Context `{AE : ApiErrors, KE : K8sErrors, JQ : GoJq, CD : ConditionDecoder, SCH : Schedule, MO : MapOrder, SS : SortSlice}.
Definition DiscoverComponents : M (list ComponentInfo) :=
  let* dsc := m_map_err (errorf_w "getting DataScienceCluster") kGetDataScienceCluster in m_lift (ExtractComponents dsc).
Definition List_Run (c : ListCommand) : M (rendered (list ComponentInfo)) :=
  if lc_OutputSchema c then m_ret (RenderedSchema "component_list")
  else
    let* components := m_map_err (errorf_w "discovering components") DiscoverComponents in
    let* components := EnrichWithHealth components in
    m_ret (list_output c components).

(** ** describe.go *)
Definition GetComponent (name : string) : M ComponentInfo :=
  let* dsc := m_map_err (errorf_w "getting DataScienceCluster") kGetDataScienceCluster in m_lift (GetComponentFromDSC dsc name).
Definition Describe_Validate (name : string) (c : ListCommand) : res go_error () :=
  if lc_OutputSchema c then Ok ()
  else if String.eqb name "" then Err (EString "component name is required")
  else List_Validate c.
Definition describe_health (c : ListCommand) (component : ComponentInfo) : M HealthInfo :=
  if IsActive component then
    let* got := attempt (GetComponentHealth (ci_Name component)) in
    match got with
    | inl err =>
        (if lc_Quiet c then m_ret () else kErrOut ("warning: could not fetch health: " +:+ error_string err)) ;;
        m_ret (mkHealth None "" [])
    | inr health => m_ret health
    end
  else m_ret (mkHealth None "" []).
Definition details_of (component : ComponentInfo) (health : HealthInfo) : ComponentDetails :=
  mkDetails (ci_Name component) (ci_ManagementState component) (hi_Ready health) (hi_Message health) (hi_Conditions health).
End ListRun.

(** The runes of a text: the encodings at its start that are valid, and the
    replacement character for each other byte. *)
Definition byte_in (lo hi : nat) (a : ascii) : bool := let n := Ascii.nat_of_ascii a in ((lo <=? n) && (n <=? hi))%nat.
Definition continuation : ascii → bool := byte_in 128 191.
(** The range of the second byte and the number of those after it. *)
Definition rune_tail (a : ascii) : option (nat * nat * nat) :=
  if byte_in 194 223 a then Some (128, 191, 0)%nat
  else if byte_in 224 224 a then Some (160, 191, 1)%nat
  else if byte_in 237 237 a then Some (128, 159, 1)%nat
  else if byte_in 225 239 a then Some (128, 191, 1)%nat
  else if byte_in 240 240 a then Some (144, 191, 2)%nat
  else if byte_in 241 243 a then Some (128, 191, 2)%nat
  else if byte_in 244 244 a then Some (128, 143, 2)%nat
  else None.
Fixpoint continuations (n : nat) (s : string) : option string :=
  match n, s with
  | O, _ => Some ""
  | S n, String a s => if continuation a then String a <$> continuations n s else None
  | S _, EmptyString => None
  end.
(** The encoding at the start of a text, without its first byte. *)
Definition rune_rest (a : ascii) (s : string) : option string :=
  if byte_in 0 127 a then Some ""
  else match rune_tail a, s with
       | Some (lo, hi, n), String b s' => if byte_in lo hi b then String b <$> continuations n s' else None
       | _, _ => None
       end.
Definition replacement : string := String (Ascii.ascii_of_nat 239) (String (Ascii.ascii_of_nat 191) (String (Ascii.ascii_of_nat 189) "")).
Fixpoint runes_fuel (fuel : nat) (s : string) : list string :=
  match fuel, s with
  | S fuel, String a s' =>
      match rune_rest a s' with
      | Some rest => String a rest :: runes_fuel fuel (drop_bytes (String.length rest) s')
      | None => replacement :: runes_fuel fuel s'
      end
  | _, _ => []
  end.
Definition runes (s : string) : list string := runes_fuel (String.length s) s.
Definition truncateString (s : string) (maxLen : nat) : string :=
  if (length (runes s) <=? maxLen)%nat then s else String.concat "" (take (maxLen - 3) (runes s)) +:+ "...".

(** [%-Ns]: padded to the width in runes. *)
Fixpoint spaces (n : nat) : string := match n with O => "" | S n => String " "%char (spaces n) end.
Definition pad (width : nat) (s : string) : string := s +:+ spaces (width - length (runes s)).
Definition condition_line (a b c d : string) : string := "  " +:+ pad 15 a +:+ " " +:+ pad 8 b +:+ " " +:+ pad 25 c +:+ " " +:+ d.
Definition reasonColumnWidth : nat := 25.
Definition messageColumnWidth : nat := 50.
Definition condition_row (k : StatusCondition) : string :=
  condition_line (k_Type k) (k_Status k) (truncateString (k_Reason k) reasonColumnWidth) (truncateString (k_Message k) messageColumnWidth).
Definition printConditionsTable (conditions : list StatusCondition) : list string :=
  condition_line "TYPE" "STATUS" "REASON" "MESSAGE" :: map condition_row conditions.
(** The lines of the description. *)
Definition describe_lines (d : ComponentDetails) : list string :=
  (["Name:              " +:+ cd_Name d; "Management State:  " +:+ cd_ManagementState d] ++
   (match cd_Ready d with Some ready => ["Ready:             " +:+ (if ready then readyYes else readyNo)] | None => [] end) ++
   (if String.eqb (cd_Message d) "" then [] else ["Message:           " +:+ cd_Message d]) ++
   (match cd_Conditions d with [] => [] | conditions => "" :: "Conditions:" :: printConditionsTable conditions end))%list.

Section DescribeRun.
Context `{AE : ApiErrors, KE : K8sErrors, JQ : GoJq, CD : ConditionDecoder, SCH : Schedule, MO : MapOrder, SS : SortSlice}.
(** The table goes to the output line by line. *)
Definition describe_output (c : ListCommand) (d : ComponentDetails) : M (rendered ComponentDetails) :=
  if lc_Quiet c then m_ret RenderedNothing
  else if bool_decide (lc_OutputFormat c ∈ ["json"; "yaml"]) then m_ret (RenderedDocument (lc_OutputFormat c) (details_status d) d)
  else m_each kOut (describe_lines d) ;; m_ret RenderedNothing.
Definition Describe_Run (name : string) (c : ListCommand) : M (rendered ComponentDetails) :=
  if lc_OutputSchema c then m_ret (RenderedSchema "component_details")
  else
    let* component := m_map_err (errorf_w "getting component") (GetComponent name) in
    let* health := describe_health c component in
    describe_output c (details_of component health).
End DescribeRun.

(** ** Lemmas *)
(** *** Objects as maps *)
Lemma lookup_fields (fields : list (string * json)) k :
  (list_to_map fields : gmap string json) !! k = snd <$> find (λ kv, String.eqb kv.1 k) fields.
Proof.
  induction fields as [|[k' v] fields IH]; [done|]. cbn [list_to_map foldr find fst]. change (foldr _ _ fields) with (list_to_map (M := gmap string json) fields).
  cbn. destruct (String.eqb_spec k' k) as [->|Hne]; [by rewrite lookup_insert_eq|]. by rewrite lookup_insert_ne.
Qed.
Lemma componentsMap_cases `{JQ : GoJq} dsc :
  (∃ fields, componentsMap dsc = Ok (list_to_map fields)) ∨ (∃ err, componentsMap dsc = Err err).
Proof.
  unfold componentsMap, jq_Query. destruct (gojq_run dsc ".spec.components") as [e| |e|v]; [by right; eexists|by left; exists []|by right; eexists|].
  destruct v; cbn; eauto.
Qed.
Lemma componentsMap_no_panic `{JQ : GoJq} dsc p : componentsMap dsc ≠ Panic p.
Proof. destruct (componentsMap_cases dsc) as [[? ->]|[? ->]]; done. Qed.
Lemma by_name_strict : StrictWeak by_name.
Proof. apply (StrictWeak_key ci_Name), string_less_strict. Qed.

Section Extracted.
Context `{JQ : GoJq, MO : MapOrder, SS : SortSlice}.
Lemma GetComponent_cases dsc name c :
  GetComponentFromDSC dsc name = Ok c →
  c = component_of dsc name ∧ ∃ m, componentsMap dsc = Ok m ∧ is_Some (m !! name).
Proof.
  unfold GetComponentFromDSC. destruct (componentsMap dsc) as [m|e|p]; cbn; [|done..]. destruct (m !! name) eqn:Hm; [|done].
  intros [= <-]. split; [done|]. exists m. by rewrite Hm.
Qed.
Lemma GetComponent_no_panic dsc name p : GetComponentFromDSC dsc name ≠ Panic p.
Proof.
  unfold GetComponentFromDSC. pose proof (componentsMap_no_panic dsc). destruct (componentsMap dsc) as [m|e|q]; cbn; [|done|naive_solver].
  by destruct (m !! name).
Qed.
End Extracted.

(** *** Code that always returns *)
Definition returns {A} (m : M A) : Prop := ∀ h, converges (m h).
Lemma returns_bind {A B} (m : M A) (k : A → M B) : returns m → (∀ a, returns (k a)) → returns (m_bind m k).
Proof. intros Hm Hk h. apply converges_bind; [apply Hm|]. intros [[a|e|p] h']; [apply Hk|done..]. Qed.
Lemma returns_attempt {A} (m : M A) : returns m → returns (attempt m).
Proof. intros Hm h. apply converges_bind; [apply Hm|]. by intros [[a|e|p] h']. Qed.
Lemma returns_map_err {A} f (m : M A) : returns m → returns (m_map_err f m).
Proof. intros Hm h. apply converges_bind; [apply Hm|]. by intros [r h']. Qed.
Lemma returns_lift {A} (r : res go_error A) : returns (m_lift r).
Proof. by intros h. Qed.
Lemma returns_call c : returns (call c).
Proof. by intros h x. Qed.
Lemma returns_ends {S A} (env : ∀ c, S → answer c * S) (m : M A) h s : returns m → ∃ r h' s', ends env m h s r h' s'.
Proof.
  intros Hm. destruct (converges_exec env (m h) s (Hm h)) as [[r h'] Hr]. unfold result_of in Hr.
  destruct (exec env (m h) s) as [[o tr] s'] eqn:He. cbn in Hr. subst o. by exists r, h', s', tr.
Qed.
Ltac returns_step :=
  first
    [ apply returns_bind; [|intros ?] | apply returns_attempt | apply returns_map_err | apply returns_lift | apply returns_call
    | progress unfold m_throw, Prompt, kListAll, kPatch, kErrOut, kOut, kSingleton, kSingletonWithDiscovery, kGetDataScienceCluster
    | progress unfold m_ret; (intros ?; exact I) | progress cbv beta iota | case_match ].
Ltac returns_auto := repeat returns_step.

(** *** The commands *)
Section Switching.
Context `{AE : ApiErrors, KE : K8sErrors, JQ : GoJq, MO : MapOrder, SS : SortSlice, JT : JsonText}.
Lemma mutate_returns cfg : returns (MutateComponentState cfg).
Proof. unfold MutateComponentState, mutate_consent, dry_run_notice, client_Patch. returns_auto. Qed.

(** The components one after the other: those that failed are named, and each
    is treated whatever happened to those before it. *)
Inductive switched {S} (env : ∀ c, S → answer c * S) (k : Switch) (c : SwitchCommand) :
  list string → heap → S → list string → heap → S → Prop :=
| switched_nil h s : switched env k c [] h s [] h s
| switched_ok name names h s h1 s1 failed h2 s2 :
    ends env (MutateComponentState (switch_config k c name)) h s (Ok ()) h1 s1 → switched env k c names h1 s1 failed h2 s2 →
    switched env k c (name :: names) h s failed h2 s2
| switched_err name names h s err h1 s1 s2 failed h3 s3 :
    ends env (MutateComponentState (switch_config k c name)) h s (Err err) h1 s1 →
    runs env (kErrOut ("Error " +:+ sk_Gerund k +:+ " '" +:+ name +:+ "': " +:+ error_string err)) h1 s1 () h1 s2 →
    switched env k c names h1 s2 failed h3 s3 → switched env k c (name :: names) h s (name :: failed) h3 s3.

Lemma switched_fold {S} (env : ∀ c, S → answer c * S) k c names h s failed h' s' :
  switched env k c names h s failed h' s' →
  ∀ before, runs env (m_fold (switch_one k c) names before) h s (before ++ failed)%list h' s'.
Proof.
  induction 1 as [h s|name names h s h1 s1 failed h2 s2 H1 _ IH|name names h s err h1 s1 s2 failed h3 s3 H1 H2 _ IH]; intros before; cbn [m_fold].
  - rewrite app_nil_r. apply runs_ret.
  - eapply ends_bind; [|apply IH]. unfold switch_one. eapply ends_bind; [exact (ends_attempt _ _ _ _ _ _ _ H1)|apply runs_ret].
  - eapply ends_bind.
    + unfold switch_one. eapply ends_bind; [exact (ends_attempt _ _ _ _ _ _ _ H1)|]. eapply ends_bind; [exact H2|apply runs_ret].
    + specialize (IH (before ++ [name])%list).
      by rewrite <-(assoc_L (++)%list) in IH.
Qed.
Lemma fold_switched {S} (env : ∀ c, S → answer c * S) k c names : ∀ before h s,
  (∃ failed h' s', switched env k c names h s failed h' s' ∧ runs env (m_fold (switch_one k c) names before) h s (before ++ failed)%list h' s') ∨
  (∃ p h' s', ends env (m_fold (switch_one k c) names before) h s (Panic p) h' s').
Proof.
  induction names as [|name names IH]; intros before h s.
  { left. exists [], h, s. split; [constructor|]. rewrite app_nil_r. apply runs_ret. }
  destruct (returns_ends env (MutateComponentState (switch_config k c name)) h s (mutate_returns _)) as (r & h1 & s1 & H1).
  assert (∀ before1 s2, runs env (switch_one k c before name) h s before1 h1 s2 →
    (∀ failed h' s', switched env k c names h1 s2 failed h' s' → ∃ failed0, (before1 ++ failed = before ++ failed0)%list ∧
       switched env k c (name :: names) h s failed0 h' s') →
    (∃ failed h' s', switched env k c (name :: names) h s failed h' s' ∧
       runs env (m_fold (switch_one k c) (name :: names) before) h s (before ++ failed)%list h' s') ∨
    (∃ p h' s', ends env (m_fold (switch_one k c) (name :: names) before) h s (Panic p) h' s')) as Hgo.
  { intros before1 s2 Hone Hsw. destruct (IH before1 h1 s2) as [(failed & h' & s' & Hs & Hr)|(p & h' & s' & Hp)].
    - left. destruct (Hsw _ _ _ Hs) as (failed0 & Heq & Hs0). exists failed0, h', s'. split; [exact Hs0|].
      rewrite <-Heq. cbn [m_fold]. by eapply ends_bind.
    - right. exists p, h', s'. cbn [m_fold]. by eapply ends_bind. }
  pose proof (ends_attempt _ _ _ _ _ _ _ H1) as Ha. destruct r as [[]|err|p].
  - apply (Hgo before s1).
    + unfold switch_one. eapply ends_bind; [exact Ha|apply runs_ret].
    + intros failed h' s' Hs. exists failed. split; [done|]. by eapply switched_ok.
  - pose proof (runs_err_out env ("Error " +:+ sk_Gerund k +:+ " '" +:+ name +:+ "': " +:+ error_string err) h1 s1) as Hout.
    apply (Hgo (before ++ [name])%list (env (KErrOut ("Error " +:+ sk_Gerund k +:+ " '" +:+ name +:+ "': " +:+ error_string err)) s1).2).
    + unfold switch_one. eapply ends_bind; [exact Ha|]. eapply ends_bind; [exact Hout|apply runs_ret].
    + intros failed h' s' Hs. exists (name :: failed). split; [by rewrite <-(assoc_L (++)%list)|]. by eapply switched_err.
  - right. exists p, h1, s1. cbn [m_fold]. apply ends_bind_panic. unfold switch_one. by apply ends_bind_panic.
Qed.

(** *** What is sent
    The monitor remembers the last list, the last text shown and the last
    question agreed to. *)
Record switch_seen := mkSwitchSeen { sn_Listed : list json; sn_Asked : string; sn_Agreed : string }.
Definition switch_start : switch_seen := mkSwitchSeen [] "" "".
Definition switch_next (t : switch_seen) (q : command) : answer q → switch_seen :=
  match q return answer q → switch_seen with
  | KListAll _ _ => λ x, mkSwitchSeen (default [] (res_opt x)) (sn_Asked t) (sn_Agreed t)
  | KErrOut s => λ _, mkSwitchSeen (sn_Listed t) s (sn_Agreed t)
  | KReadLine => λ x, mkSwitchSeen (sn_Listed t) (sn_Asked t) (if confirmed x then sn_Asked t else "")
  | _ => λ _, t
  end.
Context (k : Switch) (c : SwitchCommand).
Definition switch_allowed (t : switch_seen) (q : command) : Prop :=
  match q with
  | KPatch rt ns name pt data dry =>
      rt = DataScienceCluster ∧ ns = "" ∧ pt = MergePatchType ∧ dry = sw_DryRun c ∧
      ∃ dsc component m, sn_Listed t = [dsc] ∧ component ∈ sw_ComponentNames c ∧ componentsMap dsc = Ok m ∧ is_Some (m !! component) ∧
        getManagementState dsc component ≠ sk_State k ∧ name = GetName dsc ∧ data = buildComponentPatch component (sk_State k) ∧
        (sw_Yes c = true ∨ sw_DryRun c = true ∨ sn_Agreed t = mutate_question (switch_config k c component) +:+ " [y/N]: ")
  | _ => harmless q
  end.
Notation spec := (spec switch_allowed switch_next).

Lemma singleton_is_listed (listed : res go_error (list json)) rt dsc :
  GetSingleton (λ _, listed) rt = Ok dsc → default [] (res_opt listed) = [dsc].
Proof. unfold GetSingleton. destruct listed as [[|o [|o' l]]|e|p]; simpl; congruence. Qed.
Definition got_dsc (r : res go_error json) (t : switch_seen) : Prop := ∀ dsc, r = Ok dsc → sn_Listed t = [dsc].
Lemma singleton_spec t rt : spec t (kSingleton rt) got_dsc.
Proof. unfold kSingleton. apply spec_bind, spec_call; [done|]. intros listed. apply spec_lift. intros dsc. apply singleton_is_listed. Qed.
Lemma dsc_spec t : spec t kGetDataScienceCluster got_dsc.
Proof.
  unfold kGetDataScienceCluster, kSingletonWithDiscovery. apply spec_bind, spec_call; [done|]. intros [disc|]; [|apply singleton_spec].
  apply spec_bind. eapply (spec_mono _ _ _ _ (λ r t', ∀ dsc, r = Ok (Some dsc) → sn_Listed t' = [dsc])).
  - destruct (negb _); [by apply spec_ret|]. apply spec_bind, spec_attempt. eapply spec_mono; [apply singleton_spec|].
    intros [obj|err|p] t' H; [apply spec_ret; intros dsc [= <-]; by apply H| |done].
    destruct (IsResourceTypeNotFound err); [by apply spec_ret|by apply spec_lift].
  - intros [[obj|]|e|p] t' H; [apply spec_ret; intros dsc [= <-]; by apply H| |done..].
    apply spec_map_err. eapply spec_mono; [apply singleton_spec|]. intros [obj|e|p] t'' H' dsc; [apply H'|done..].
Qed.
Lemma switch_consent_spec t name :
  spec t (mutate_consent (switch_config k c name)) (λ r t', sn_Listed t' = sn_Listed t ∧
    (is_ok r = true → sw_Yes c = true ∨ sw_DryRun c = true ∨ sn_Agreed t' = mutate_question (switch_config k c name) +:+ " [y/N]: ")).
Proof.
  unfold mutate_consent, Prompt, kErrOut. cbn [mu_SkipConfirm mu_DryRun switch_config].
  destruct (sw_Yes c) eqn:Hy, (sw_DryRun c) eqn:Hd; cbn [negb andb]; try (apply spec_ret; split; [done|auto]).
  apply spec_bind, spec_bind, spec_bind, spec_call; [done|]. intros []. apply spec_ret. apply spec_bind, spec_call; [done|].
  intros x. apply spec_ret. destruct (confirmed x) eqn:Hx; [apply spec_ret|apply spec_lift]; (split; [done|]); [|done].
  intros _. right. right. cbn. by rewrite Hx.
Qed.
Lemma notice_spec t cfg text : spec t (dry_run_notice cfg text) (λ _ t', t' = t).
Proof.
  unfold dry_run_notice, kOut. destruct (mu_DryRun cfg); [|by apply spec_ret].
  do 3 (apply spec_bind, spec_bind, spec_call; [done|]; intros []; apply spec_ret). apply spec_bind, spec_call; [done|]. intros []. by apply spec_ret.
Qed.
Lemma out_spec t text (Q : res go_error () → switch_seen → Prop) : Q (Ok ()) t → spec t (kOut text) Q.
Proof. intros HQ. unfold kOut. apply spec_bind, spec_call; [done|]. intros []. by apply spec_ret. Qed.
Lemma mutate_spec t name :
  name ∈ sw_ComponentNames c → spec t (MutateComponentState (switch_config k c name)) (λ _ _, True).
Proof.
  intros Hin. unfold MutateComponentState. apply spec_bind, spec_map_err. eapply spec_mono; [apply dsc_spec|].
  intros [dsc|e|p] t1 Hdsc; cbn [res_map_err]; [|done..]. specialize (Hdsc dsc eq_refl). apply spec_bind, spec_lift.
  destruct (GetComponentFromDSC dsc _) as [component|e|p] eqn:Hc; cbn [res_map_err]; [|done..].
  apply GetComponent_cases in Hc as (-> & m & Hm & Hsome). cbn [mu_ComponentName mu_TargetState switch_config ci_ManagementState component_of].
  destruct (String.eqb_spec (getManagementState dsc name) (sk_State k)) as [_|Hne]; [by apply out_spec|].
  apply spec_bind, spec_lift. destruct (json_MarshalIndent _) as [text|e|p]; cbn [res_map_err]; [|done..].
  apply spec_bind. eapply spec_mono; [apply switch_consent_spec|]. intros [u|e|p] t2 [Hl Hag]; [|done..]. specialize (Hag eq_refl).
  apply spec_bind. eapply spec_mono; [apply notice_spec|]. intros [u'|e|p] t3 ->; [|done..].
  apply spec_bind, spec_map_err. apply (spec_mono _ _ _ _ (λ _ _, True)).
  - unfold client_Patch, kPatch, m_throw. do 2 (case_match; [by apply spec_lift|]). apply spec_map_err, spec_bind, spec_call; [|intros x; by apply spec_lift].
    do 4 (split; [done|]). exists dsc, name, m. by rewrite Hl.
  - intros [o|e|p] t4 _; cbn [res_map_err]; [|done..]. cbn [mu_DryRun switch_config]. destruct (sw_DryRun c); by apply out_spec.
Qed.
Lemma switch_run_spec t : spec t (Switch_Run k c) (λ _ _, True).
Proof.
  unfold Switch_Run. apply spec_bind. eapply spec_mono; [apply (spec_fold_any _ _ (λ _, True)); [|done]|].
  - intros failed t' name Hin _. unfold switch_one, kErrOut. apply spec_bind, spec_attempt. eapply spec_mono; [by apply mutate_spec|].
    intros [u|e|p] t1 _; [by apply spec_ret| |done]. apply spec_bind, spec_bind, spec_call; [done|]. intros []. by apply spec_ret, spec_ret.
  - intros [failed|e|p] t' _; [by apply spec_lift|done..].
Qed.
End Switching.

(** *** Health, in any order *)
Section Enriching.
Context `{AE : ApiErrors, KE : K8sErrors, JQ : GoJq, CD : ConditionDecoder}.
(** The health as a function of what the server lists. *)
Definition health_from (List : ResourceType → res go_error (list json)) (name : string) : res go_error HealthInfo :=
  match GetComponentCR name with
  | None => Err (EString ("unknown component CR for " +:+ quote name))
  | Some rt =>
      match List rt with
      | Err err => Err (errorf_w (if IsResourceTypeNotFound err then "component CR API unavailable" else "listing component CR") err)
      | Panic p => Panic p
      | Ok [] => Ok (mkHealth None "" [])
      | Ok (cr :: _) => extractHealthFromCR cr
      end
  end.
Definition enriched (List : ResourceType → res go_error (list json)) (c : ComponentInfo) : ComponentInfo :=
  if IsActive c then
    match health_from List (ci_Name c) with
    | Ok health => enriched_with c (inr health)
    | Err err => enriched_with c (inl err)
    | Panic _ => c
    end
  else c.

Section Serving.
Context {S : Type} (env : ∀ c, S → answer c * S) (List : ResourceType → res go_error (list json)).
Context (serves : ∀ rt s, (env (KListAll rt defaultListOptions) s).1 = List rt).
Context (quiet : ∀ name p, health_from List name ≠ Panic p).
Lemma health_runs name h s : ∃ s', ends env (GetComponentHealth name) h s (health_from List name) h s'.
Proof using serves.
  unfold GetComponentHealth, health_from. destruct (GetComponentCR name) as [rt|]; [|exists s; apply ends_lift].
  exists (env (KListAll rt defaultListOptions) s).2. unfold kListAll.
  pose proof (ends_attempt _ _ _ _ _ _ _ (ends_lifted env (KListAll rt defaultListOptions) (λ r, r) h s)) as Ha.
  cbv beta in Ha. rewrite serves in Ha. destruct (List rt) as [[|cr l]|e|p].
  - eapply ends_bind; [exact Ha|apply runs_ret].
  - eapply ends_bind; [exact Ha|apply ends_lift].
  - eapply ends_bind; [exact Ha|apply ends_lift].
  - by apply ends_bind_panic.
Qed.
Lemma enrich_one_runs l i c h s :
  l !! i = Some c → IsActive c = true → ∃ s', runs env (enrich_one l i) h s (<[i := enriched List c]> l) h s'.
Proof using serves quiet.
  intros Hi Ha. unfold enrich_one, enriched. rewrite Hi, Ha. destruct (health_runs (ci_Name c) h s) as [s' Hs]. exists s'.
  pose proof (ends_attempt _ _ _ _ _ _ _ Hs) as Hat. pose proof (quiet (ci_Name c)) as Hq. destruct (health_from List (ci_Name c)) as [health|e|p].
  - eapply ends_bind; [exact Hat|apply runs_ret].
  - eapply ends_bind; [exact Hat|apply runs_ret].
  - by destruct (Hq p).
Qed.
(** Lookups in any order, each once. *)
Lemma enrich_fold_runs order : ∀ l h s,
  NoDup order → (∀ i, i ∈ order → active_at l i = true) →
  ∃ s', runs env (m_fold enrich_one order l) h s (imap (λ i c, if bool_decide (i ∈ order) then enriched List c else c) l) h s'.
Proof using serves quiet.
  induction order as [|i order IH]; intros l h s Hnd Hact.
  { exists s. assert (imap (λ i c, if bool_decide (i ∈ []) then enriched List c else c) l = l) as ->; [|apply runs_ret].
    apply list_eq. intros j. rewrite list_lookup_imap. by destruct (l !! j). }
  apply NoDup_cons in Hnd as [Hni Hnd]. pose proof (Hact i ltac:(by left)) as Hi. unfold active_at in Hi.
  destruct (l !! i) as [c|] eqn:Hl; [|done]. destruct (enrich_one_runs l i c h s Hl Hi) as [s1 H1].
  destruct (IH (<[i := enriched List c]> l) h s1 Hnd) as [s2 H2].
  { intros j Hj. unfold active_at. rewrite list_lookup_insert_ne by (intros ->; done). apply Hact. by right. }
  exists s2. cbn [m_fold]. eapply ends_bind; [exact H1|].
  replace (imap _ l) with (imap (λ i c, if bool_decide (i ∈ order) then enriched List c else c) (<[i := enriched List c]> l)); [exact H2|].
  apply list_eq. intros j. rewrite !list_lookup_imap. destruct (decide (i = j)) as [->|Hne].
  - rewrite list_lookup_insert_eq by (by eapply lookup_lt_Some). rewrite Hl. cbn. rewrite bool_decide_eq_false_2, bool_decide_eq_true_2; [done|by left|done].
  - rewrite list_lookup_insert_ne by done. destruct (l !! j) as [c'|]; [|done]. cbn. f_equal.
    assert (j ∈ i :: order ↔ j ∈ order) as Hiff by (rewrite elem_of_cons; naive_solver). by rewrite (bool_decide_ext _ _ Hiff).
Qed.
Lemma enrich_runs `{SCH : Schedule} components h s :
  ∃ s', runs env (EnrichWithHealth components) h s (map (enriched List) components) h s'.
Proof using serves quiet.
  unfold EnrichWithHealth. set (order := List.filter _ _).
  assert (∀ i, i ∈ finish_order order ↔ active_at components i = true) as Hin.
  { intros i. rewrite finish_order_perm. unfold order. rewrite list_elem_of_In, filter_In, in_seq. split; [by intros [_ ?]|].
    intros Ha. split; [|done]. unfold active_at in Ha. destruct (components !! i) eqn:Hi; [|done]. apply lookup_lt_Some in Hi. lia. }
  destruct (enrich_fold_runs (finish_order order) components h s) as [s' Hr].
  - rewrite finish_order_perm. apply NoDup_ListNoDup, List.NoDup_filter, seq_NoDup.
  - intros i. apply Hin.
  - exists s'. replace (map (enriched List) components) with
      (imap (λ i c, if bool_decide (i ∈ finish_order order) then enriched List c else c) components); [exact Hr|].
    apply list_eq. intros i. rewrite list_lookup_imap. change (map (enriched List) components) with (enriched List <$> components). rewrite list_lookup_fmap.
    destruct (components !! i) as [c|] eqn:Hi; [|done]. cbn. f_equal. specialize (Hin i). unfold active_at in Hin. rewrite Hi in Hin.
    rewrite (bool_decide_ext _ _ Hin). unfold enriched. by destruct (IsActive c).
Qed.
End Serving.
End Enriching.

(** *** Runes *)
Definition is_rune (x : string) : Prop := ∃ a rest, x = String a rest ∧ rune_rest a rest = Some rest.
Lemma continuations_app n : ∀ s rest s', continuations n s = Some rest → continuations n (rest +:+ s') = Some rest.
Proof.
  induction n as [|n IH]; intros s rest s'; cbn [continuations]; [by intros [= <-]|].
  destruct s as [|a s]; [done|]. destruct (continuation a) eqn:Ha; [|done]. destruct (continuations n s) as [r|] eqn:Hr; [|done].
  intros [= <-]. change (String a r +:+ s') with (String a (r +:+ s')). cbn [continuations]. by rewrite Ha, (IH _ _ _ Hr).
Qed.
Lemma rune_rest_app a s rest s' : rune_rest a s = Some rest → rune_rest a (rest +:+ s') = Some rest.
Proof.
  unfold rune_rest. destruct (byte_in 0 127 a); [by intros [= <-]|]. destruct (rune_tail a) as [[[lo hi] n]|]; [|done].
  destruct s as [|b s]; [done|]. destruct (byte_in lo hi b) eqn:Hb; [|done]. destruct (continuations n s) as [r|] eqn:Hr; [|done].
  intros [= <-]. change (String b r +:+ s') with (String b (r +:+ s')). cbv beta iota. rewrite Hb. by rewrite (continuations_app _ _ _ _ Hr).
Qed.
Lemma rune_rest_rune a s rest : rune_rest a s = Some rest → is_rune (String a rest).
Proof. intros Hr. exists a, rest. split; [done|]. apply (rune_rest_app _ _ _ "") in Hr. by rewrite string_app_nil_r in Hr. Qed.
Lemma drop_bytes_length n s : (String.length (drop_bytes n s) ≤ String.length s)%nat.
Proof. revert n. induction s as [|a s IH]; intros [|n]; simpl; try lia. specialize (IH n). lia. Qed.
Lemma runes_fuel_enough s : ∀ f1 f2, (String.length s ≤ f1)%nat → (String.length s ≤ f2)%nat → runes_fuel f1 s = runes_fuel f2 s.
Proof.
  intros f1. revert s. induction f1 as [|f1 IH]; intros s f2 H1 H2; [destruct s; [by destruct f2|simpl in H1; lia]|].
  destruct s as [|a s]; [by destruct f2|]. destruct f2 as [|f2]; [simpl in H2; lia|]. simpl in H1, H2. cbn [runes_fuel].
  destruct (rune_rest a s) as [rest|]; f_equal; apply IH; try lia; pose proof (drop_bytes_length (String.length rest) s); lia.
Qed.
Lemma runes_app x s : is_rune x → runes (x +:+ s) = x :: runes s.
Proof.
  intros (a & rest & -> & Hr). unfold runes. change (String a rest +:+ s) with (String a (rest +:+ s)). cbn [String.length runes_fuel].
  rewrite (rune_rest_app _ _ _ s Hr). f_equal. rewrite drop_bytes_app. apply runes_fuel_enough; [|done]. rewrite GoPath.length_sapp. lia.
Qed.
Lemma runes_are_runes s x : x ∈ runes s → is_rune x.
Proof.
  unfold runes. generalize (String.length s). intros fuel. revert s. induction fuel as [|fuel IH]; intros s; [by intros ?%elem_of_nil|].
  destruct s as [|a s]; [by intros ?%elem_of_nil|]. cbn [runes_fuel]. destruct (rune_rest a s) as [rest|] eqn:Hr.
  - intros [->|Hx]%elem_of_cons; [by eapply rune_rest_rune|by eapply IH].
  - intros [->|Hx]%elem_of_cons; [|by eapply IH]. by eexists _, _.
Qed.
Lemma runes_concat l s : (∀ x, x ∈ l → is_rune x) → runes (String.concat "" l +:+ s) = (l ++ runes s)%list.
Proof.
  induction l as [|x l IH]; intros Hl; [done|].
  assert (String.concat "" (x :: l) = x +:+ String.concat "" l) as ->.
  { destruct l; [cbn; by rewrite string_app_nil_r|done]. }
  rewrite <-string_app_assoc, runes_app by (apply Hl; by left). cbn. f_equal. apply IH. intros y Hy. apply Hl. by right.
Qed.

(** *** The component in the resource *)
Definition state_path (name : string) : list string := ["spec"; "components"; name; "managementState"].
(** The resource has a component of each of those names. *)
Definition has_components (dsc : json) (P : string → Prop) : Prop :=
  ∃ comps, nested ["spec"; "components"] dsc = Some (JObj comps) ∧ ∀ name, P name → ∃ inner, field name (JObj comps) = Some (JObj inner).
(** [dsc'] is [dsc] with one component in that state. *)
Record moved (dsc dsc' : json) (name state : string) : Prop := {
  mv_state : getManagementState dsc' name = state;
  mv_others : ∀ other, other ≠ name → getManagementState dsc' other = getManagementState dsc other;
  mv_name : GetName dsc' = GetName dsc;
  mv_components : ∀ P, has_components dsc P → has_components dsc' P;
}.
Lemma nested_path2 a b dsc fields : nested [a; b] dsc = Some fields →
  ∃ top inner, dsc = JObj top ∧ field a dsc = Some (JObj inner) ∧ field b (JObj inner) = Some fields.
Proof.
  rewrite nested_cons. destruct (field a dsc) as [v|] eqn:Ha; [|done]. cbn [mbind option_bind]. rewrite nested_cons.
  destruct (field b v) as [w|] eqn:Hb; [|done]. intros [= ->]. destruct (field_some_obj _ _ _ Ha) as [top ->].
  destruct (field_some_obj _ _ _ Hb) as [inner ->]. by exists top, inner.
Qed.
Lemma set_state dsc name state comps inner :
  nested ["spec"; "components"] dsc = Some (JObj comps) → field name (JObj comps) = Some (JObj inner) → state ≠ "" →
  ∃ dsc', SetNestedField (state_path name) (JStr state) dsc = Ok dsc' ∧ moved dsc dsc' name state.
Proof.
  intros Hn Hc Hst. destruct (nested_path2 _ _ _ _ Hn) as (top & spec & -> & Hs & Hk).
  unfold SetNestedField, state_path. cbn [set_nested]. rewrite Hs, Hk, Hc. cbn [res_bind]. eexists. split; [reflexivity|].
  set (comps' := with_key name _ comps). assert (∀ path, nested ("spec" :: "components" :: path)
    (JObj (with_key "spec" (JObj (with_key "components" (JObj comps') spec)) top)) = nested path (JObj comps')) as Hdown.
  { intros path. rewrite nested_cons, field_with_key. cbn [String.eqb Ascii.eqb Bool.eqb mbind option_bind].
    rewrite nested_cons, field_with_key. done. }
  assert (∀ path, nested ("spec" :: "components" :: path) (JObj top) = nested path (JObj comps)) as Hup.
  { intros path. rewrite nested_cons, Hs. cbn [mbind option_bind]. by rewrite nested_cons, Hk. }
  split.
  - unfold getManagementState, nested_string. rewrite Hdown, nested_cons. unfold comps'. rewrite field_with_key, String.eqb_refl. cbn [mbind option_bind].
    rewrite nested_cons, field_with_key. cbn. unfold nonempty. by rewrite (proj2 (String.eqb_neq _ _) Hst).
  - intros other Ho. unfold getManagementState, nested_string. rewrite Hdown, Hup, !(nested_cons other). unfold comps'. rewrite field_with_key.
    by rewrite (proj2 (String.eqb_neq name other)) by done.
  - rewrite !GetName_nested; unfold nested_string; rewrite !(nested_cons "metadata"), field_with_key. done.
  - intros P (comps0 & Hn0 & HP). exists comps'. split; [apply Hdown|]. rewrite Hup in Hn0. injection Hn0 as <-.
    intros n Hin. unfold comps'. rewrite field_with_key. destruct (String.eqb name n); [by eexists|by apply HP].
Qed.

(** A server that holds the resource: it serves v2, lists it alone, and a
    merge patch of one member sets that member. *)
Record serves_dsc {S} (env : ∀ c, S → answer c * S) (dsc_of : S → json) : Prop := {
  sd_discovery : ∀ s, env KDiscovery s = (None, s) ∨
    ∃ disc, env KDiscovery s = (Some disc, s) ∧ hasGroupVersion disc DataScienceCluster = true;
  sd_list : ∀ s, env (KListAll DataScienceCluster defaultListOptions) s = (Ok [dsc_of s], s);
  sd_out : ∀ text s, dsc_of (env (KOut text) s).2 = dsc_of s;
  sd_patch : ∀ s name state dsc', SetNestedField (state_path name) (JStr state) (dsc_of s) = Ok dsc' →
    ∃ o s', env (KPatch DataScienceCluster "" (GetName (dsc_of s)) MergePatchType (buildComponentPatch name state) false) s = (Ok o, s') ∧
            dsc_of s' = dsc';
}.
Section Completing.
Context `{AE : ApiErrors, KE : K8sErrors, JQ : GoJq, MO : MapOrder, SS : SortSlice, JT : JsonText}.
Context {S : Type} (env : ∀ c, S → answer c * S) (dsc_of : S → json) (SD : serves_dsc env dsc_of).
Context (jq_components : ∀ dsc fields, nested ["spec"; "components"] dsc = Some (JObj fields) →
  gojq_run dsc ".spec.components" = JqValue (JObj fields)).
Context (indents : ∀ v, ∃ text, json_MarshalIndent v = Ok text ∧ text ≠ "").
Lemma dsc_runs h s : runs env kGetDataScienceCluster h s (dsc_of s) h s.
Proof using SD.
  assert (runs env (kSingleton DataScienceCluster) h s (dsc_of s) h s) as Hone.
  { unfold kSingleton. exact (ends_ask env (KListAll _ _) (λ r, GetSingleton (λ _, r) DataScienceCluster) h _ _ _ (sd_list _ _ SD s)). }
  unfold kGetDataScienceCluster, kSingletonWithDiscovery.
  pose proof (runs_call env KDiscovery h s) as Hd. destruct (sd_discovery _ _ SD s) as [Hq|(disc & Hq & Hg)]; rewrite Hq in Hd.
  - eapply ends_bind; [exact Hd|exact Hone].
  - eapply ends_bind; [exact Hd|]. cbn [fst snd]. rewrite Hg. cbn [negb].
    eapply ends_bind; [eapply ends_bind; [exact (ends_attempt _ _ _ _ _ _ _ Hone)|apply runs_ret]|apply runs_ret].
Qed.
Lemma out_runs text h s : runs env (kOut text) h s () h (env (KOut text) s).2.
Proof. eapply ends_bind; [apply runs_call|apply runs_ret]. Qed.
Lemma component_gets dsc name comps v :
  nested ["spec"; "components"] dsc = Some (JObj comps) → field name (JObj comps) = Some v →
  GetComponentFromDSC dsc name = Ok (component_of dsc name).
Proof using jq_components.
  intros Hn Hc. assert (componentsMap dsc = Ok (list_to_map comps)) as Hm by (unfold componentsMap, jq_Query; by rewrite (jq_components _ _ Hn)).
  unfold GetComponentFromDSC. rewrite Hm. cbn [res_bind]. rewrite lookup_fields. unfold field in Hc. by rewrite Hc.
Qed.
Context (k : Switch) (c : SwitchCommand) (Hyes : sw_Yes c = true) (Hwet : sw_DryRun c = false) (Hstate : sk_State k ≠ "").
Lemma mutate_runs name (P : string → Prop) h s :
  has_components (dsc_of s) P → P name → GetName (dsc_of s) ≠ "" →
  ∃ s', runs env (MutateComponentState (switch_config k c name)) h s () h s' ∧ moved (dsc_of s) (dsc_of s') name (sk_State k) ∧
        (getManagementState (dsc_of s) name = sk_State k → dsc_of s' = dsc_of s).
Proof using SD jq_components indents Hyes Hwet Hstate.
  intros (comps & Hn & HP) Hp Hname. destruct (HP name Hp) as [inner Hc].
  assert (runs env (m_map_err (errorf_w "getting DataScienceCluster") kGetDataScienceCluster) h s (dsc_of s) h s) as Hget
    by exact (ends_map_err _ _ _ _ _ _ _ _ (dsc_runs h s)).
  assert (runs env (m_lift (res_map_err (errorf_w "getting component") (GetComponentFromDSC (dsc_of s) name))) h s (component_of (dsc_of s) name) h s) as Hcomp
    by (rewrite (component_gets _ _ _ _ Hn Hc); apply ends_lift).
  destruct (decide (getManagementState (dsc_of s) name = sk_State k)) as [Heq|Hne].
  - exists (env (KOut ("Component '" +:+ name +:+ "' is already " +:+ sk_Verb k +:+ "d (" +:+ sk_State k +:+ ")")) s).2. rewrite (sd_out _ _ SD).
    split; [|by split; [|done]]. eapply ends_bind; [exact Hget|]. eapply ends_bind; [exact Hcomp|].
    cbn [ci_ManagementState component_of mu_TargetState mu_ComponentName mu_ActionVerb switch_config]. rewrite Heq, String.eqb_refl. apply out_runs.
  - destruct (indents (buildComponentPatch name (sk_State k))) as (text & Ht & Hte). destruct (set_state _ _ _ _ _ Hn Hc Hstate) as (dsc' & Hset & Hmv).
    destruct (sd_patch _ _ SD s name (sk_State k) dsc' Hset) as (o & s1 & Henv & <-).
    assert (runs env (client_Patch DataScienceCluster (GetName (dsc_of s)) MergePatchType (buildComponentPatch name (sk_State k)) text false) h s o h s1) as Hp'.
    { unfold client_Patch. rewrite (proj2 (String.eqb_neq _ _) Hname), (proj2 (String.eqb_neq _ _) Hte).
      exact (ends_map_err _ _ _ _ _ _ _ _ (ends_ask env (KPatch _ _ _ _ _ _) (λ r, r) h _ _ _ Henv)). }
    eexists. split.
    + eapply ends_bind; [exact Hget|]. eapply ends_bind; [exact Hcomp|].
      cbn [ci_ManagementState component_of mu_TargetState mu_ComponentName mu_ActionVerb switch_config].
      rewrite (proj2 (String.eqb_neq _ _) Hne), Ht. eapply ends_bind; [apply ends_lift|].
      unfold mutate_consent, dry_run_notice. cbn [mu_SkipConfirm mu_DryRun switch_config]. rewrite Hyes, Hwet.
      eapply ends_bind; [apply runs_ret|]. eapply ends_bind; [apply runs_ret|].
      eapply ends_bind; [exact (ends_map_err _ _ _ _ _ _ _ _ Hp')|apply out_runs].
    + rewrite (sd_out _ _ SD). by split.
Qed.
(** One after the other. *)
Record all_moved (dsc dsc' : json) (names : list string) (state : string) : Prop := {
  am_state : ∀ name, name ∈ names → getManagementState dsc' name = state;
  am_others : ∀ other, other ∉ names → getManagementState dsc' other = getManagementState dsc other;
  am_name : GetName dsc' = GetName dsc;
  am_components : ∀ P, has_components dsc P → has_components dsc' P;
}.
Lemma all_moved_cons dsc dsc1 dsc2 name names state :
  moved dsc dsc1 name state → all_moved dsc1 dsc2 names state → all_moved dsc dsc2 (name :: names) state.
Proof.
  intros [Hs Ho Hn Hc] [Hss Hos Hns Hcs]. split; [| |congruence|auto].
  - intros n [->|Hin]%elem_of_cons; [|by apply Hss]. destruct (decide (name ∈ names)) as [Hin|Hni]; [by apply Hss|]. by rewrite Hos.
  - intros n [Hne Hni]%not_elem_of_cons. rewrite Hos by done. by apply Ho.
Qed.
Lemma names_run names : ∀ h s,
  has_components (dsc_of s) (.∈ names) → GetName (dsc_of s) ≠ "" →
  ∃ s', runs env (m_fold (switch_one k c) names []) h s [] h s' ∧ all_moved (dsc_of s) (dsc_of s') names (sk_State k) ∧
        ((∀ name, name ∈ names → getManagementState (dsc_of s) name = sk_State k) → dsc_of s' = dsc_of s).
Proof using SD jq_components indents Hyes Hwet Hstate.
  induction names as [|name names IH]; intros h s Hcs Hn.
  { exists s. split; [apply runs_ret|]. split; [|done]. split; try done. by intros n ?%elem_of_nil. }
  destruct (mutate_runs name _ h s Hcs ltac:(by left) Hn) as (s1 & H1 & Hmv & Hid).
  destruct (IH h s1) as (s2 & H2 & Hall & Hid2).
  { destruct (mv_components _ _ _ _ Hmv _ Hcs) as (comps & Hc & HP). exists comps. split; [done|]. intros n Hin. apply HP. by right. }
  { by rewrite (mv_name _ _ _ _ Hmv). }
  exists s2. split; [|split; [by eapply all_moved_cons|]].
  - cbn [m_fold]. eapply ends_bind; [|exact H2]. unfold switch_one. eapply ends_bind; [exact (ends_attempt _ _ _ _ _ _ _ H1)|apply runs_ret].
  - intros Hst. specialize (Hid (Hst name ltac:(by left))). rewrite Hid in Hid2. apply Hid2. intros n Hin. apply Hst. by right.
Qed.
Lemma switch_runs h s :
  has_components (dsc_of s) (.∈ sw_ComponentNames c) → GetName (dsc_of s) ≠ "" →
  ∃ s', runs env (Switch_Run k c) h s () h s' ∧ all_moved (dsc_of s) (dsc_of s') (sw_ComponentNames c) (sk_State k) ∧
        ((∀ name, name ∈ sw_ComponentNames c → getManagementState (dsc_of s) name = sk_State k) → dsc_of s' = dsc_of s).
Proof using SD jq_components indents Hyes Hwet Hstate.
  intros Hcs Hn. destruct (names_run (sw_ComponentNames c) h s Hcs Hn) as (s' & H & Hrest). exists s'. split; [|exact Hrest].
  eapply ends_bind; [exact H|]. apply (ends_lift env (failed_to k [])).
Qed.
End Completing.

(** *** The list of the components *)
Section Listed.
Context `{JQ : GoJq}.
Lemma extracted_names `{MO : MapOrder, SS : SortSlice} dsc m :
  componentsMap dsc = Ok m → ∃ l, ExtractComponents dsc = Ok l ∧ l ≡ₚ map (component_of dsc) (map fst (map_range m)).
Proof. intros Hm. unfold ExtractComponents. rewrite Hm. eexists. split; [reflexivity|]. by rewrite sort_slice_perm, map_map. Qed.
Lemma range_names `{MO : MapOrder} (m : gmap string json) name : name ∈ map fst (map_range m) ↔ is_Some (m !! name).
Proof.
  change (map fst (map_range m)) with ((map_range m).*1). rewrite list_elem_of_fmap. split.
  - intros ([n v] & -> & Hin%elem_of_map_range). by eexists.
  - intros [v Hv]. exists (name, v). split; [done|]. by apply elem_of_map_range.
Qed.
Lemma NoDup_components `{MO : MapOrder} dsc (m : gmap string json) :
  NoDup (map ci_Name (map (component_of dsc) (map fst (map_range m)))).
Proof. rewrite map_map. cbn. rewrite map_id. apply NoDup_map_range. Qed.
Lemma extracted_sorted `{MO : MapOrder, SS : SortSlice} dsc l : ExtractComponents dsc = Ok l → StronglySorted String.le (map ci_Name l).
Proof.
  unfold ExtractComponents. destruct (componentsMap dsc) as [m|e|p]; cbn; [|done..]. intros [= <-].
  apply StronglySorted_fmap_key. eapply StronglySorted_impl; [|apply sort_slice_sorted, by_name_strict].
  intros x y. apply string_less_false.
Qed.
Lemma extracted_anyhow (O1 O2 : MapOrder) (S1 S2 : SortSlice) dsc :
  ExtractComponents (MO := O1) (SS := S1) dsc = ExtractComponents (MO := O2) (SS := S2) dsc.
Proof.
  unfold ExtractComponents. destruct (componentsMap dsc) as [m|e|p]; cbn; [|done..]. f_equal. apply (sort_by_key_unique _ _ ci_Name); [done| |].
  - rewrite <-(map_map fst (component_of dsc)). apply NoDup_components.
  - apply Permutation_map, map_range_orders.
Qed.
End Listed.

(** ** Concrete runs *)
Module ComponentsRun.
Import (hints) ClientRun VersionRun ClusterRun PlatformRun.
(** Text that is never empty. *)
#[export] Instance tagged_JsonText : JsonText := {|
  json_Marshal v := Ok ("json:" +:+ ClusterRun.bits (encode (ClusterRun.json_tree v)));
  json_MarshalIndent v := Ok ("json:" +:+ ClusterRun.bits (encode (ClusterRun.json_tree v)));
  json_Parse s := Err (EString "invalid character looking for beginning of value");
  json_Mismatch t _ := EString ("json: cannot unmarshal value into Go value of type " +:+ t);
|}.
Definition component_json (state : string) : json := JObj [("managementState", JStr state)].
Definition dsc : json :=
  JObj [("metadata", JObj [("name", JStr "default-dsc")]);
        ("spec", JObj [("components", JObj [("ray", component_json "Managed"); ("kserve", JObj []); ("dashboard", component_json "Unmanaged")])])].
(** A cluster that is its DataScienceCluster. *)
Definition cluster (q : command) (s : json) : answer q * json :=
  match q return answer q * json with
  | KDiscovery => (None, s)
  | KListAll rt _ => (Ok (if is_type rt DataScienceCluster then [s] else []), s)
  | KPatch _ _ _ _ (JObj [(_, JObj [(_, JObj [(name, JObj [(_, v)])])])]) _ =>
      match SetNestedField (state_path name) v s with
      | Ok s' => (Ok s', s')
      | _ => (Err (EString "unprocessable"), s)
      end
  | q => (ClusterRun.idle q, s)
  end.
Lemma cluster_serves : serves_dsc cluster id.
Proof.
  split; cbn -[SetNestedField]; try done.
  - intros s. by left.
  - intros s name state dsc' Hs. unfold id in *. rewrite Hs. by eexists _, _.
Qed.
(** Paths, and the conditions with their default. *)
#[export] Instance component_jq : GoJq := {|
  gojq_run obj q :=
    if String.eqb q ".status.conditions // []" then JqValue (default (JArr []) (nested ["status"; "conditions"] obj))
    else match nested (tail (split_on dot q)) obj with Some v => JqValue v | None => JqValue JNull end |}.
Lemma path_components d fields : nested ["spec"; "components"] d = Some (JObj fields) → gojq_run d ".spec.components" = JqValue (JObj fields).
Proof. intros Hn. change (gojq_run d _) with (match nested ["spec"; "components"] d with Some v => JqValue v | None => JqValue JNull end). by rewrite Hn. Qed.
Lemma tagged_indents v : ∃ text, json_MarshalIndent v = Ok text ∧ text ≠ "".
Proof. by eexists. Qed.
Definition command_for (names : list string) : SwitchCommand := mkSwitch "" names false true false.
(** The lists of a cluster with one resource of KServe that is not ready. *)
Definition kserve_cr : json :=
  JObj [("status", JObj [("conditions", JArr [JObj [("type", JStr "Ready"); ("status", JStr "False"); ("message", JStr "waiting for Knative")]])])].
Definition resources (rt : ResourceType) : res go_error (list json) :=
  if String.eqb (rt_Kind rt) "Kserve" then Ok [kserve_cr]
  else if String.eqb (rt_Kind rt) "Ray" then Err (EForeign 1 "forbidden")
  else Ok [].
Definition health_cluster (q : command) (s : ()) : answer q * () :=
  match q return answer q * () with
  | KListAll rt _ => (resources rt, s)
  | q => (ClusterRun.idle q, s)
  end.
Definition three : list ComponentInfo :=
  [mkComponent "dashboard" "Removed" None ""; mkComponent "kserve" "Managed" None ""; mkComponent "ray" "Unmanaged" None ""].
(** The other order of the lookups. *)
Definition backwards : Schedule := {| finish_order A l := reverse l; finish_order_perm A l := reverse_Permutation l |}.
End ComponentsRun.
Import (hints) ClientRun ClusterRun PlatformRun ComponentsRun.

(** ** Properties *)
Module ComponentsSpec.
(** C9: What enable and disable send, whatever the cluster and the user
    answer.  The only change is a merge patch of the one DataScienceCluster
    that was listed last, for a component the command names and the resource
    has, to the state of the command, which it is not in already; and it is
    sent only as a dry run, with --yes, or after the user agreed to the
    question about that very component. *)
Theorem component_switch_order `{AE : ApiErrors, KE : K8sErrors, JQ : GoJq, MO : MapOrder, SS : SortSlice, JT : JsonText}
    {S} (env : ∀ q, S → answer q * S) k c h s :
  accepts (switch_allowed k c) switch_next switch_start (transcript env (Switch_Run k c h) s).
Proof. by destruct (obeys_exec _ _ env _ _ _ s (switch_run_spec k c switch_start h)) as [Hacc _]. Qed.

(** C19: One component that cannot be changed does not stop the others: each
    is tried in order, those that fail are reported as they fail and named
    together in the error at the end, and the run succeeds exactly when none
    failed. *)
Theorem switch_reports_failures `{AE : ApiErrors, KE : K8sErrors, JQ : GoJq, MO : MapOrder, SS : SortSlice, JT : JsonText}
    {S} (env : ∀ q, S → answer q * S) k c h s :
  (∃ failed h' s', switched env k c (sw_ComponentNames c) h s failed h' s' ∧ sublist failed (sw_ComponentNames c) ∧
     ends env (Switch_Run k c) h s (failed_to k failed) h' s' ∧ (is_ok (failed_to k failed) = true ↔ failed = [])) ∨
  (∃ p h' s', ends env (Switch_Run k c) h s (Panic p) h' s').
Proof.
  destruct (fold_switched env k c (sw_ComponentNames c) [] h s) as [(failed & h' & s' & Hs & Hr)|(p & h' & s' & Hp)].
  - left. exists failed, h', s'. split; [done|]. split; [|split].
    + clear Hr. induction Hs; [constructor|by apply sublist_cons|by apply sublist_skip].
    + eapply ends_bind; [exact Hr|apply ends_lift].
    + by destruct failed.
  - right. exists p, h', s'. by apply ends_bind_panic.
Qed.

(** C10: With --yes, on a server that holds the DataScienceCluster, enabling
    or disabling components the resource has succeeds: each of them is in the
    state of the command afterwards, no other component has changed, and
    running the command again leaves the resource as it is. *)
Theorem switch_completes `{AE : ApiErrors, KE : K8sErrors, JQ : GoJq, MO : MapOrder, SS : SortSlice, JT : JsonText}
    {S} (env : ∀ q, S → answer q * S) dsc_of k c h s :
  serves_dsc env dsc_of →
  (∀ dsc fields, nested ["spec"; "components"] dsc = Some (JObj fields) → gojq_run dsc ".spec.components" = JqValue (JObj fields)) →
  (∀ v, ∃ text, json_MarshalIndent v = Ok text ∧ text ≠ "") →
  k = EnableCommand ∨ k = DisableCommand → sw_Yes c = true → sw_DryRun c = false →
  has_components (dsc_of s) (.∈ sw_ComponentNames c) → GetName (dsc_of s) ≠ "" →
  ∃ s', runs env (Switch_Run k c) h s () h s' ∧
    (∀ name, getManagementState (dsc_of s') name =
             if bool_decide (name ∈ sw_ComponentNames c) then sk_State k else getManagementState (dsc_of s) name) ∧
    ∃ s'', runs env (Switch_Run k c) h s' () h s'' ∧ dsc_of s'' = dsc_of s'.
Proof.
  intros SD Hjq Hi Hk Hy Hd Hcs Hn. assert (sk_State k ≠ "") as Hst by (by destruct Hk as [-> | ->]).
  destruct (switch_runs env dsc_of SD Hjq Hi k c Hy Hd Hst h s Hcs Hn) as (s' & Hr & Hm & _). exists s'. split; [done|]. split.
  { intros name. case_bool_decide; [by apply (am_state _ _ _ _ Hm)|by apply (am_others _ _ _ _ Hm)]. }
  destruct (switch_runs env dsc_of SD Hjq Hi k c Hy Hd Hst h s') as (s'' & Hr' & _ & Hid).
  - by apply (am_components _ _ _ _ Hm).
  - by rewrite (am_name _ _ _ _ Hm).
  - exists s''. split; [done|]. apply Hid, (am_state _ _ _ _ Hm).
Qed.
Lemma switch_completes_witness :
  ∃ s', runs ComponentsRun.cluster (Switch_Run DisableCommand (ComponentsRun.command_for ["ray"; "kserve"])) NewRootRecorder ComponentsRun.dsc ()
          NewRootRecorder s' ∧
    map (getManagementState s') ["ray"; "kserve"; "dashboard"] = ["Removed"; "Removed"; "Unmanaged"].
Proof.
  destruct (switch_completes ComponentsRun.cluster id DisableCommand (ComponentsRun.command_for ["ray"; "kserve"]) NewRootRecorder ComponentsRun.dsc)
    as (s' & Hr & Hst & _);
    [apply ComponentsRun.cluster_serves|apply ComponentsRun.path_components|apply ComponentsRun.tagged_indents|by right|done|done| |done|].
  - eexists. split; [reflexivity|]. intros name Hin. repeat (apply elem_of_cons in Hin as [->|Hin]; [by eexists|]). by apply elem_of_nil in Hin.
  - exists s'. split; [exact Hr|]. cbn [map]. unfold id in Hst. by rewrite !Hst.
Defined.
(** The components of a DataScienceCluster are exactly those it names,
    each once and with its state, in the order of the names, whatever the
    order of the map and the sort; one component is looked up as in that list,
    and the error for another name lists all there are. *)
Theorem components_extracted_exact `{JQ : GoJq, MO : MapOrder, SS : SortSlice} dsc m :
  componentsMap dsc = Ok m →
  ∃ l, (∀ (MO' : MapOrder) (SS' : SortSlice), ExtractComponents (MO := MO') (SS := SS') dsc = Ok l) ∧
    StronglySorted String.le (map ci_Name l) ∧ NoDup (map ci_Name l) ∧
    (∀ c, c ∈ l ↔ is_Some (m !! ci_Name c) ∧ c = component_of dsc (ci_Name c)) ∧
    (∀ name c, GetComponentFromDSC dsc name = Ok c ↔ c ∈ l ∧ ci_Name c = name) ∧
    (∀ name, name ∉ map ci_Name l →
       GetComponentFromDSC dsc name = Err (EStructured (ErrComponentNotFound name (map ci_Name l)))).
Proof.
  intros Hm. destruct (extracted_names dsc m Hm) as (l & Hl & Hp). exists l.
  assert (∀ c, c ∈ l ↔ is_Some (m !! ci_Name c) ∧ c = component_of dsc (ci_Name c)) as Hin.
  { intros c. rewrite Hp. change (map (component_of dsc) (map fst (map_range m))) with (component_of dsc <$> map fst (map_range m)).
    rewrite list_elem_of_fmap. split; [by intros (n & -> & Hn%range_names)|]. intros [Hs Hc]. exists (ci_Name c). by rewrite range_names. }
  assert (map ci_Name l = sortedKeys m) as Hkeys.
  { eapply (StronglySorted_unique String.le); [|apply sort_strings_sorted|].
    - apply extracted_sorted with dsc. done.
    - unfold sortedKeys. rewrite sort_strings_perm, Hp, map_map. cbn. by rewrite map_id. }
  split; [|split; [|split; [|split; [done|split]]]].
  - intros MO' SS'. rewrite <-Hl. apply extracted_anyhow.
  - rewrite Hkeys. apply sort_strings_sorted.
  - rewrite Hp. apply NoDup_components.
  - intros name c. unfold GetComponentFromDSC. rewrite Hm. cbn [res_bind]. rewrite Hin. destruct (m !! name) as [v|] eqn:Hv.
    + split; [intros [= <-]; cbn; by rewrite Hv|]. intros [[_ Hc] Hn]. by rewrite Hc, Hn.
    + split; [done|]. intros [[[v Hs] _] Hn]. congruence.
  - intros name Hni. unfold GetComponentFromDSC. rewrite Hm. cbn [res_bind]. destruct (m !! name) as [v|] eqn:Hv; [|by rewrite Hkeys].
    destruct Hni. rewrite Hkeys. unfold sortedKeys. rewrite sort_strings_perm, range_names. by rewrite Hv.
Qed.
Lemma components_extracted_exact_witness :
  ∃ l, ExtractComponents ComponentsRun.dsc = Ok l ∧ map ci_Name l = ["dashboard"; "kserve"; "ray"] ∧
       GetComponentFromDSC ComponentsRun.dsc "rays" = Err (EStructured (ErrComponentNotFound "rays" ["dashboard"; "kserve"; "ray"])).
Proof.
  destruct (components_extracted_exact (JQ := ComponentsRun.component_jq) ComponentsRun.dsc _ eq_refl) as (l & Hl & _ & _ & _ & _ & Hnot).
  exists l. split; [apply Hl|]. specialize (Hl canonical_MapOrder insertion_SortSlice).
  assert (map ci_Name l = ["dashboard"; "kserve"; "ray"]) as Hn by (vm_compute in Hl; by injection Hl as <-).
  split; [exact Hn|]. rewrite <-Hn. apply Hnot. rewrite Hn. by intros H%(bool_decide_pack _).
Defined.

(** C18: The health of the components does not depend on the order in which
    the lookups finish: on a server whose lists do not change, every active
    component gets the health of its own resource, or the error of its own
    lookup, and every other component is left as it was. *)
Theorem enrichment_order_independent `{AE : ApiErrors, KE : K8sErrors, JQ : GoJq, CD : ConditionDecoder, SCH : Schedule}
    {S} (env : ∀ q, S → answer q * S) List components h s :
  (∀ rt s, (env (KListAll rt defaultListOptions) s).1 = List rt) → (∀ name p, health_from List name ≠ Panic p) →
  ∃ s', runs env (EnrichWithHealth components) h s (map (enriched List) components) h s'.
Proof. intros Hs Hq. by apply enrich_runs. Qed.
Lemma enrichment_order_independent_witness :
  ∃ s', runs ComponentsRun.health_cluster (EnrichWithHealth (SCH := ComponentsRun.backwards) ComponentsRun.three) NewRootRecorder ()
    [mkComponent "dashboard" "Removed" None ""; mkComponent "kserve" "Managed" (Some false) "waiting for Knative";
     mkComponent "ray" "Unmanaged" None "listing component CR: forbidden"] NewRootRecorder s'.
Proof.
  assert (map (enriched ComponentsRun.resources) ComponentsRun.three =
    [mkComponent "dashboard" "Removed" None ""; mkComponent "kserve" "Managed" (Some false) "waiting for Knative";
     mkComponent "ray" "Unmanaged" None "listing component CR: forbidden"]) as <- by (vm_compute; reflexivity).
  apply (enrichment_order_independent (SCH := ComponentsRun.backwards) ComponentsRun.health_cluster ComponentsRun.resources ComponentsRun.three
    NewRootRecorder ()); [done|].
  intros name p. unfold health_from. destruct (GetComponentCR name) as [rt|]; [|done]. unfold ComponentsRun.resources.
  destruct (String.eqb (rt_Kind rt) "Kserve"); [by vm_compute|]. by destruct (String.eqb (rt_Kind rt) "Ray").
Defined.

(** A truncated text fits its column, counted in runes as the padding
    counts them, and a text that fits is shown as it is. *)
Theorem truncated_fits s n :
  (3 ≤ n)%nat → (length (runes (truncateString s n)) ≤ n)%nat ∧ ((length (runes s) ≤ n)%nat → truncateString s n = s).
Proof.
  intros Hn. unfold truncateString. destruct (Nat.leb_spec (length (runes s)) n) as [Hle|Hgt]; [done|]. split; [|lia].
  rewrite runes_concat.
  - rewrite length_app, length_take. cbn [runes]. change (length (runes "...")) with 3%nat. lia.
  - intros x Hx. apply (runes_are_runes s). apply list_elem_of_In in Hx. apply list_elem_of_In. rewrite <-(take_drop (n - 3) (runes s)). apply in_or_app. by left.
Qed.
Lemma truncated_fits_witness :
  (length (runes (truncateString "waiting for the operator" 10)) ≤ 10)%nat ∧
  truncateString "waiting for the operator" 10 = "waiting...".
Proof. split; [by apply (truncated_fits "waiting for the operator" 10); lia|reflexivity]. Defined.
End ComponentsSpec.
